(* ===== verification/_CoqProject ===== *)
-Q . S2P
Prelude.v
Pmm.v
KHeap.v
Sha1.v
Aes.v
Pipe.v
Device.v
Ramdisk.v
Str.v
Wfs.v
WfsFile.v
WfsDir.v
WfsSpec.v
WfsDirSpec.v
WfsInode.v
DirTree.v
WfsTree.v
WfsTreeSpec.v
Rtc.v
KString.v
Path.v
User.v
Ring.v
Shm.v
Socket.v
Refs.v
Fds.v
FdsRefs.v
FdsSpec.v
SocketSpec.v
Sched.v
Proc.v
SchedSpec.v
ProcInv.v
ProcTerm.v
ProcStack.v
ProcSpec.v
SchedLive.v
Paging.v
PagingInv.v
PagingSpec.v
PagingMem.v
UserView.v
PagingFree.v
PagingNew.v
PagingBoot.v
PagingRun.v
UserMem.v
ProcMem.v
Elf.v
ShmMap.v
ShmUnmap.v
Dma.v
Ramfs.v
RamfsData.v
RamfsTree.v
RamfsSpec.v
