(* ===== verification/Prelude.v ===== *)
(** * Verification of the WOS kernel

    WOS is an operating system in C for x86-64: a kernel (src/kernel), the
    libraries programs link against (src/lib) and the programs (src/app).  This
    library models the parts of the kernel that keep data, file by file, and
    proves the theorems that make them correct.

    ** The parts and how they fit

    At boot the kernel reads the multiboot block and sets up the frame
    allocator, then a heap in memory the allocator kept back, and adopts the page
    tables the boot code built; every process gets tables of its own beside the
    kernel's.  The WFS driver
    finds its volume on a disk (ATA, USB or a copy in memory), caches its blocks
    and offers inodes, files and directories; /ramdisk is a second file system
    whose files are pages of memory.  Programs are loaded from ELF files into an
    address space, grow a heap there and map shared memory.  The descriptor layer
    resolves
    paths, decides who may read and write what from the account database, and
    keeps each process's table of descriptors: files, pipes, sockets, shared
    memory and the keyboard.  Accounts are files of the WFS volume.  The
    wireless stack uses the cryptography, the file system stamps files with the
    real-time clock.

    ** Files

    - [Prelude] (this file): machine integers as [Z] with their wrap-around
      written out, error numbers, lists indexed by [Z] ([l.[i]], [upd],
      [splice], [slice]), counting, loops with a bound ([for_while]), tactics.
    - [Pmm]: src/kernel/mm/pmm.c.  [pmm] is the bitmap, the counters and the
      search hints; [multiboot_info] the decoded boot block.  [Panic] is the
      value of a call that stops the machine.
    - [KHeap]: src/kernel/mm/kheap.c.  Block headers in a map by address, with
      the links the code follows.
    - [Shm]: src/kernel/mm/shm.c, the objects and their references.
    - [Dma]: src/kernel/mm/dma.c, buffers for devices, on [Pmm].
    - [KString]: src/kernel/lib/string.c on memory as a function from addresses
      to bytes.
    - [Sha1], [Aes]: src/kernel/lib/crypto.c, on lists of bytes, with the
      contexts as records.
    - [Pipe]: src/kernel/fs/pipe.c.
    - [Device], [Ramdisk]: what the file system relies on of a disk driver as a
      class with its laws, and src/kernel/drivers/ramdisk.c, which discharges
      them.
    - [Wfs], [WfsDir]: src/kernel/fs/wfs.c, the whole driver over a [Device]:
      block cache, bitmap, inodes, block map, files; directories, paths,
      creation, removal, renaming, mounting.  [WfsFile] holds the lemmas on the
      file layer and [WfsSpec] its theorems.
    - [DirTree]: directory trees as such, a map of nodes with the edits a file
      system makes to it.  [WfsDirSpec] (the entries of one directory as a
      finite map), [WfsInode] (allocation, release and truncation of inodes) and
      [WfsTree] (which volume represents which tree) lead to [WfsTreeSpec], the
      theorems that the calls on paths are those edits.
    - [Rtc]: src/kernel/drivers/rtc.c over the registers of the chip.
    - [Str]: C strings as lists and the cutting of paths into components, shared
      by [WfsDir], [Path] and [User].
    - [Path]: vfs_resolve and the permission rules of src/kernel/fs/vfs.c,
      against a class [UserDb] of what they ask the account database.
    - [User]: src/kernel/fs/user.c, accounts, on the WFS model; it is the
      instance of [UserDb].
    - [Ring]: circular arrays, lists gathered over tables, and the outcome type
      [out] of code that follows pointers ([Fault] when the object was freed).
    - [Socket]: src/kernel/fs/socket.c with vfs_fd_retain and vfs_fd_drop of
      vfs.c.  [kernel] is the tables of the objects descriptors name.
    - [Fds]: descriptor tables, the first half of src/kernel/fs/vfs.c, and what
      proc_spawn_io, sys_spawn_io and sys_shm_open do to them.
    - [Refs], [FdsRefs]: the reference invariant through [Socket] and [Fds].
      [FdsSpec]: a system of processes as a step relation, and the theorems on
      all its reachable states.  [SocketSpec]: what a connection promises.
    - [Sched]: src/kernel/proc/sched.c on the threads, the circular run queue
      through their [next] fields and what each processor runs.  [Proc]:
      src/kernel/proc/proc.c on the same state: the process table, starting,
      ending, killing, waiting, reaping.  [SchedSpec] (the queue as a list, the
      scheduler's invariant), [ProcInv] (the invariant of both, operation by
      operation) and [ProcTerm] (the walk that resizes a terminal) and
      [ProcStack] (which kernel stack each processor is on) lead to [ProcSpec],
      the kernel as a step relation with its theorems, and
      [SchedLive], fairness.
    - [Paging]: src/kernel/mm/paging.c and the tables of src/kernel/boot.S, on
      physical memory as bytes, with [mmu], the processor's own walk of the
      tables.  [PagingInv] (tables as paths from a root, the invariant on memory,
      owners and frames), [PagingSpec] (the operations on the pages of one
      space), [PagingFree], [PagingNew] and [PagingBoot] (giving a space back,
      making one, starting up) lead to [PagingRun]: the kernel's operations and
      the programs' stores as steps, and the theorems on all reachable states.
    - [PagingMem] and [UserView]: what a program and the kernel see of memory
      while pages are mapped one by one.  On these: [UserMem], the checks of
      src/kernel/proc/syscall.c on pointers of programs; [ProcMem], proc_sbrk();
      [Elf], src/kernel/proc/elf.c; [ShmMap] and [ShmUnmap], the mapping half of
      shm.c with the table of a process and its page tables.
    - [Ramfs]: src/kernel/fs/ramfs.c, nodes linked by pointers and pages of [Pmm].
      [RamfsData] (the bytes of files, the frames), [RamfsTree] (the links as lists
      of children, the tree of [DirTree] they represent, walking a path) lead to
      [RamfsSpec].

    ** What the theorems show

    - Memory: after [pmm_init] nothing that must survive the boot can be handed
      out; the counter is exact however the allocator is driven; allocation and
      release are what they should be, a double free stops the machine.  The
      heap stays a tiling of its arena with exact accounting, and freeing
      everything leaves one block.
    - Address spaces: whatever the kernel maps, shares, unmaps, creates and frees
      and the programs write, what a program reaches through the processor's walk
      is its own or shared, never a page table, never the kernel's; every frame
      in use has its owner and none is lost; the kernel's gigabyte is in every
      space, closed to programs, with page zero left out and the windows of the
      framebuffer and of ACPI showing the same everywhere.
    - Programs and their memory: a range the kernel accepts is one the program
      could reach itself, and a string copied in is the one the program sees;
      loading a file whose header sums do not wrap puts the bytes of the file at the addresses it names with zeroes
      behind them; the heap grows and shrinks by whole pages, zeroed; shared
      memory goes to the lowest free region, shows the bytes of the object, and
      unmapping gives back exactly the references taken; DMA buffers overlap
      nothing and are counted exactly.
    - /ramdisk: its calls make the same edits to a tree as those of WFS; a write
      puts its bytes into the file and nothing else; however it is used, no call
      follows a pointer to a freed node or goes round a circle, and every page is
      given back.
    - WFS: the block cache cannot be observed; the allocator takes and gives
      back exactly one block; reading returns the bytes of the file and changes
      nothing; writing patches exactly the range it reports and no other file;
      what is written is read back.  A volume that holds a tree holds one after
      every call: looking up a path is following names in the tree, and
      creating, unlinking and renaming (where what stands for the directory of
      the new name is one, which the code does not check) either make exactly the edit they should
      or report why not and leave the tree as it was, other files included;
      a rename never cuts a directory off from the root.
    - Cryptography: SHA-1, HMAC, PBKDF2 and the 802.11 PRF equal their
      definitions in the standards however the input is cut; AES encryption and
      decryption are inverse; key unwrapping accepts exactly what RFC 3394
      wraps; CCM accepts exactly what it produced.
    - Pipes and sockets: a pipe is a bounded queue under all interleavings; a
      connection is a stream that carries descriptors at their positions; when
      calls wait, and that polling agrees.
    - Descriptors: in every state a system of processes can reach that passes no
      socket through a socket, every object counts exactly the descriptors that
      name it, those of programs that failed to load included, and is there
      exactly as long as one does; every call returns, touches no freed object
      and frees none twice.
    - Processes and processors: in every state the kernel can reach, whatever the
      order of its steps on however many processors, no two processors have the
      same current thread, each has the tables and the TSS of its own, and every
      step ends, but for a switch that another processor got in the way of; where
      none enters the kernel between the decision and the switch of another, no
      two are on one stack; a thread that is ready gets its turn within a bound; nobody
      sleeps waiting for a child that has ended; what is freed is in no use; the
      choice of the next thread is round robin; deadlines survive the wrap of the
      tick counter.
    - Paths and accounts: resolution is normalisation of components, its result
      is canonical; the permission functions are the table of their comment and
      two rows more, and no path escapes it; the account list is read back as it
      was saved, but for newlines in shells; the table of accounts stays well
      formed, and without privilege one changes only oneself.
    - Clock and strings: setting and reading the clock agree in every format of
      the chip, the epoch counts the seconds of the Gregorian calendar; the
      memory and string routines do what their byte-wise definitions say.

    Examples and lemmas named in the text beside them show behaviour that is
    not what the code means: [SocketSpec.closing_hangs],
    [SocketSpec.failed_spawn_leaks], [SocketSpec.descriptor_lost_at_close],
    [Shm.shm_not_zeroed], [User.shell_makes_a_root],
    [Path.usereditor_reads_passwords], [Ramdisk.in_range_wraps],
    [WfsTreeSpec.create_in_file], [WfsTreeSpec.rename_into_file],
    [ProcSpec.two_processors_one_stack], [ProcSpec.stack_freed_in_the_gap],
    [ProcSpec.killed_sleeps], [ProcSpec.parent_becomes_child],
    [ProcSpec.orphan_never_reaped], [Elf.segment_wraps],
    [RamfsSpec.numbers_run_out].

    ** Fuel, bounds and time

    Loops without a structural measure take fuel, each with a bound that the
    theorems show to be enough: the page loops of [Pmm] one turn per page, the
    search for a clear region one turn per obstacle, the heap search one turn
    per block, file loops one turn per block of the request, directory loops one
    turn per slot, path loops one turn per component, the climb of a rename the
    256 turns the code itself allows, walks round the run queue one turn per
    thread slot, the walk down the process table one level per slot and one more,
    loops that map pages one turn per page, the segments of a program the 65536 a
    header can count, the search for a region of shared memory one turn per
    mapping and one more, the rounding of an alignment 64, the lists and the climb
    of /ramdisk one step per node there can be, its reads and writes one turn per
    byte at most, [Socket.FUEL] for
    the references one descriptor can hold (a listener, a backlog of 8, two
    queues of 28 descriptors each).  Where fuel is not enough for any amount,
    that is a theorem ([SocketSpec.socket_cycle_never_ends]).

    A call that waits is cut at its waits into segments: a segment runs to the
    next wait or to its end, and a call that was put to sleep starts again from
    the state as it is then.  System calls run with interrupts off and under the
    one kernel lock.  It is given up around a context switch, and that is part of
    the model of the scheduler: schedule() decides in one step and
    switch_context() follows in another.  It is also given up by klock_pause()
    (smp.c), which the polling loops of src/kernel/net call; nothing modelled
    here calls it, so nothing comes between two operations of a segment, and what
    other processors do during such a pause is an ordinary step of theirs.

    What comes from outside a component is an argument: whether a [kmalloc]
    succeeds and the address it returns, the tick count, what the firmware left
    in memory.

    ** Not modelled

    Console output (kprintf), which no decision depends on.  The calls of vfs.c
    that reach a file system, services and the network stack; of processes, the
    layout of the first stack and the memory figures; of paging, the TLB and the memory types of
    the PAT.  Drivers, interrupt and processor set-up and the ACPI interpreter act
    on hardware registers rather than data; drivers are represented by what the
    kernel relies on ([Device], the chip of [Rtc]).  The libraries and programs
    outside the kernel are not modelled. *)

From Stdlib Require Export ZArith Lia.
From stdpp Require Export base tactics numbers list list_numbers relations gmap.

#[global] Set Default Goal Selector "!".
#[global] Open Scope Z_scope.

(** ** Machine integers

    An unsigned C integer of width [w] is a [Z] reduced modulo [2^w]; the
    literals are written out so that [lia] sees them. *)

Definition u8 (z : Z) : Z := z `mod` 256.
Definition u16 (z : Z) : Z := z `mod` 65536.
Definition u32 (z : Z) : Z := z `mod` 4294967296.
Definition u64 (z : Z) : Z := z `mod` 18446744073709551616.

(** A conversion to [int32_t]: two's complement. *)
Definition i32 (z : Z) : Z :=
  let r := u32 z in if r <? 2147483648 then r else r - 4294967296.

Definition is_u8 (z : Z) : Prop := 0 <= z < 256.
Definition is_u32 (z : Z) : Prop := 0 <= z < 4294967296.
Definition is_u64 (z : Z) : Prop := 0 <= z < 18446744073709551616.

(** [kernel/include/types.h]: the alignment macros, at 64 bits. *)
Definition PAGE_SIZE : Z := 4096.
Definition ALIGN_UP (x a : Z) : Z := Z.land (u64 (x + (a - 1))) (u64 (Z.lnot (a - 1))).
Definition ALIGN_DOWN (x a : Z) : Z := Z.land x (u64 (Z.lnot (a - 1))).

(** [include/wabi.h]: error numbers, returned negated. *)
Definition W_EPERM : Z := 1.
Definition W_ENOENT : Z := 2.
Definition W_ESRCH : Z := 3.
Definition W_EIO : Z := 5.
Definition W_ENODEV : Z := 19.
Definition W_E2BIG : Z := 7.
Definition W_ENOEXEC : Z := 8.
Definition W_EBADF : Z := 9.
Definition W_ECHILD : Z := 10.
Definition W_ENOMEM : Z := 12.
Definition W_EACCES : Z := 13.
Definition W_EFAULT : Z := 14.
Definition W_EBUSY : Z := 16.
Definition W_EEXIST : Z := 17.
Definition W_EXDEV : Z := 18.
Definition W_ENOTDIR : Z := 20.
Definition W_EISDIR : Z := 21.
Definition W_EINVAL : Z := 22.
Definition W_ENFILE : Z := 23.
Definition W_EMFILE : Z := 24.
Definition W_ENOSPC : Z := 28.
Definition W_ESPIPE : Z := 29.
Definition W_EPIPE : Z := 32.
Definition W_ERANGE : Z := 34.
Definition W_ENAMETOOLONG : Z := 36.
Definition W_ENOSYS : Z := 38.
Definition W_ENOTEMPTY : Z := 39.
Definition W_EFBIG : Z := 27.
Definition W_ENOTSUP : Z := 95.
Definition W_ECONNRESET : Z := 104.
Definition W_ETIMEDOUT : Z := 110.
Definition W_ECONNREFUSED : Z := 111.
Definition W_EHOSTUNREACH : Z := 113.

(** [panic()] in [kernel/kprintf.c] never returns: an operation that may reach
    it yields [Panic] instead of a value. *)
Inductive res (A : Type) : Type :=
| Ret (a : A)
| Panic.
Arguments Ret {A} a.
Arguments Panic {A}.

(** ** Tactics *)

Create HintDb wos discriminated.

(** Arithmetic with constant divisors and moduli. *)
Ltac zlia := Z.to_euclidean_division_equations; lia.

(** Case analysis on every comparison the goal or a hypothesis branches on. *)
Ltac bool_to_prop :=
  repeat match goal with
  | H : (_ && _)%bool = true |- _ => apply andb_prop in H as [? ?]
  | H : (_ && _)%bool = false |- _ => apply andb_false_iff in H
  | H : (_ || _)%bool = true |- _ => apply orb_true_iff in H
  | H : (_ || _)%bool = false |- _ => apply orb_false_iff in H as [? ?]
  | H : negb _ = true |- _ => apply negb_true_iff in H
  | H : negb _ = false |- _ => apply negb_false_iff in H
  | H : Z.eqb _ _ = true |- _ => apply Z.eqb_eq in H
  | H : Z.eqb _ _ = false |- _ => apply Z.eqb_neq in H
  | H : Z.ltb _ _ = true |- _ => apply Z.ltb_lt in H
  | H : Z.ltb _ _ = false |- _ => apply Z.ltb_ge in H
  | H : Z.leb _ _ = true |- _ => apply Z.leb_le in H
  | H : Z.leb _ _ = false |- _ => apply Z.leb_gt in H
  | H : (_ >? _) = _ |- _ => rewrite Z.gtb_ltb in H
  | H : (_ >=? _) = _ |- _ => rewrite Z.geb_leb in H
  end.

Ltac case_if :=
  match goal with
  | |- context [if ?b then _ else _] => destruct b eqn:?
  | H : context [if ?b then _ else _] |- _ => destruct b eqn:?
  end.

Ltac case_ifs := repeat case_if; bool_to_prop.

(** The same, with the disjunctions split as well: for goals [lia] ends. *)
Ltac split_ifs :=
  repeat case_if;
  repeat (bool_to_prop; match goal with
    | H : _ = false \/ _ = false |- _ => destruct H
    | H : _ = true \/ _ = true |- _ => destruct H
    end); bool_to_prop.

(** Split an existential or conjunctive hypothesis, keeping names fresh. *)
Ltac deex :=
  repeat match goal with
  | H : exists _, _ |- _ => destruct H
  | H : _ /\ _ |- _ => destruct H
  end.

(** ** Wrap-around *)

Lemma u8_range z : 0 <= u8 z < 256.
Proof. unfold u8. apply Z.mod_pos_bound. lia. Qed.

Lemma u32_range z : 0 <= u32 z < 4294967296.
Proof. unfold u32. apply Z.mod_pos_bound. lia. Qed.

Lemma u64_range z : 0 <= u64 z < 18446744073709551616.
Proof. unfold u64. apply Z.mod_pos_bound. lia. Qed.

Lemma u8_id z : 0 <= z < 256 -> u8 z = z.
Proof. intros. unfold u8. by apply Z.mod_small. Qed.

Lemma u32_id z : 0 <= z < 4294967296 -> u32 z = z.
Proof. intros. unfold u32. by apply Z.mod_small. Qed.

Lemma u32_add_l a b : u32 (u32 a + b) = u32 (a + b).
Proof. unfold u32. apply Zplus_mod_idemp_l. Qed.

Lemma u32_add_r a b : u32 (a + u32 b) = u32 (a + b).
Proof. unfold u32. apply Zplus_mod_idemp_r. Qed.

Lemma u64_id z : 0 <= z < 18446744073709551616 -> u64 z = z.
Proof. intros. unfold u64. by apply Z.mod_small. Qed.

#[export] Hint Resolve u8_range u32_range u64_range : wos.

(** ** Bits *)

Lemma testbit_high w z i : 0 <= z < 2 ^ w -> 0 <= w -> w <= i -> Z.testbit z i = false.
Proof.
  intros Hz Hw Hi. rewrite <- (Z.mod_small z (2 ^ w)) by done.
  by apply Z.mod_pow2_bits_high.
Qed.

Lemma u8_testbit z i : 0 <= i -> Z.testbit (u8 z) i = ((i <? 8) && Z.testbit z i)%bool.
Proof.
  intros. change (u8 z) with (z `mod` 2 ^ 8). destruct (Z.ltb_spec i 8).
  - by rewrite Z.mod_pow2_bits_low by lia.
  - by rewrite Z.mod_pow2_bits_high by lia.
Qed.

Lemma u64_testbit z i : 0 <= i < 64 -> Z.testbit (u64 z) i = Z.testbit z i.
Proof.
  intros. change (u64 z) with (z `mod` 2 ^ 64).
  by rewrite Z.mod_pow2_bits_low by lia.
Qed.

Lemma u64_testbit_high z i : 64 <= i -> Z.testbit (u64 z) i = false.
Proof. intros. change (u64 z) with (z `mod` 2 ^ 64). by apply Z.mod_pow2_bits_high; lia. Qed.

Lemma land_align_mask x k :
  0 <= k <= 63 -> is_u64 x -> Z.land x (u64 (Z.lnot (2 ^ k - 1))) = x / 2 ^ k * 2 ^ k.
Proof.
  intros Hk Hx.
  rewrite <- Z.shiftl_mul_pow2, <- Z.shiftr_div_pow2 by lia.
  replace (2 ^ k - 1) with (Z.ones k) by (rewrite Z.ones_equiv; lia).
  apply Z.bits_inj'. intros i Hi. rewrite Z.land_spec, Z.shiftl_spec by lia.
  destruct (decide (i < 64)).
  - rewrite u64_testbit, Z.lnot_spec by lia. destruct (decide (i < k)).
    + rewrite Z.ones_spec_low, andb_false_r, Z.testbit_neg_r by lia. done.
    + rewrite Z.ones_spec_high, andb_true_r, Z.shiftr_spec by lia. f_equal. lia.
  - rewrite u64_testbit_high, andb_false_r, Z.shiftr_spec by lia.
    symmetry. apply (testbit_high 64); unfold is_u64 in *; lia.
Qed.

Lemma ALIGN_DOWN_pow2 x k :
  0 <= k <= 63 -> is_u64 x -> ALIGN_DOWN x (2 ^ k) = x / 2 ^ k * 2 ^ k.
Proof. apply land_align_mask. Qed.

Lemma ALIGN_UP_pow2 x k :
  0 <= k <= 63 -> 0 <= x -> is_u64 (x + (2 ^ k - 1)) ->
  ALIGN_UP x (2 ^ k) = (x + (2 ^ k - 1)) / 2 ^ k * 2 ^ k.
Proof.
  intros Hk Hx Hs. unfold ALIGN_UP. rewrite land_align_mask; [| done | by apply u64_range].
  by rewrite u64_id.
Qed.

(** What rounding up means: the least multiple of [2^k] at or above [x]. *)
Lemma ALIGN_UP_spec x k :
  0 <= k <= 63 -> 0 <= x -> is_u64 (x + (2 ^ k - 1)) ->
  exists q, ALIGN_UP x (2 ^ k) = q * 2 ^ k /\ x <= q * 2 ^ k < x + 2 ^ k.
Proof.
  intros Hk Hx Hs. rewrite ALIGN_UP_pow2 by done.
  assert (0 < 2 ^ k) by (apply Z.pow_pos_nonneg; lia).
  exists ((x + (2 ^ k - 1)) / 2 ^ k). split; [done |].
  pose proof (Z_div_mod_eq_full (x + (2 ^ k - 1)) (2 ^ k)).
  pose proof (Z.mod_pos_bound (x + (2 ^ k - 1)) (2 ^ k)). lia.
Qed.

Lemma ALIGN_UP_page x :
  0 <= x < 2 ^ 63 -> ALIGN_UP x PAGE_SIZE = (x + 4095) / 4096 * 4096.
Proof.
  intros. change PAGE_SIZE with (2 ^ 12). rewrite ALIGN_UP_pow2; [done | unfold is_u64; lia..].
Qed.

Lemma ALIGN_UP_page_bounds x :
  0 <= x < 2 ^ 63 ->
  x <= ALIGN_UP x PAGE_SIZE < x + 4096 /\ (PAGE_SIZE | ALIGN_UP x PAGE_SIZE).
Proof.
  intros. rewrite ALIGN_UP_page by done. split; [zlia | by exists ((x + 4095) / 4096)].
Qed.

Lemma ALIGN_DOWN_page x :
  0 <= x < 2 ^ 64 -> ALIGN_DOWN x PAGE_SIZE = x / 4096 * 4096.
Proof.
  intros. change PAGE_SIZE with (2 ^ 12). rewrite ALIGN_DOWN_pow2; [done | unfold is_u64; lia..].
Qed.

(** Setting and clearing one bit of a 64-bit word, as the bitmaps do it. *)
Lemma testbit_set_bit w n i :
  0 <= n -> 0 <= i -> Z.testbit (Z.lor w (Z.shiftl 1 n)) i = (Z.testbit w i || (i =? n))%bool.
Proof.
  intros. rewrite Z.lor_spec, Z.shiftl_1_l. f_equal.
  rewrite Z.pow2_bits_eqb by lia. apply Z.eqb_sym.
Qed.

Lemma testbit_clear_bit w n i :
  0 <= n -> 0 <= i ->
  Z.testbit (Z.land w (Z.lnot (Z.shiftl 1 n))) i = (Z.testbit w i && negb (i =? n))%bool.
Proof.
  intros. rewrite Z.land_spec, Z.lnot_spec, Z.shiftl_1_l, Z.pow2_bits_eqb by lia.
  by rewrite (Z.eqb_sym i n).
Qed.

Lemma land_bit_nonzero w n : 0 <= n -> (Z.land w (Z.shiftl 1 n) =? 0) = negb (Z.testbit w n).
Proof.
  intros. rewrite Z.shiftl_1_l. destruct (Z.testbit w n) eqn:E; simpl.
  - apply Z.eqb_neq. intros H0. apply (f_equal (fun z => Z.testbit z n)) in H0.
    rewrite Z.land_spec, E, Z.pow2_bits_true, Z.bits_0 in H0 by lia. done.
  - apply Z.eqb_eq, Z.bits_inj'. intros i Hi.
    rewrite Z.land_spec, Z.pow2_bits_eqb, Z.bits_0 by lia.
    destruct (Z.eqb_spec n i); [subst; by rewrite E | by rewrite andb_false_r].
Qed.

Lemma lxor_range w a b : 0 <= w -> 0 <= a < 2 ^ w -> 0 <= b < 2 ^ w -> 0 <= Z.lxor a b < 2 ^ w.
Proof.
  intros Hw Ha Hb. assert (0 <= Z.lxor a b) by (apply Z.lxor_nonneg; lia).
  split; [done |]. rewrite <- (Z.mod_small a (2 ^ w)), <- (Z.mod_small b (2 ^ w)) by done.
  replace (Z.lxor _ _) with (Z.lxor a b `mod` 2 ^ w); [apply Z.mod_pos_bound; lia |].
  apply Z.bits_inj'. intros i Hi. rewrite Z.lxor_spec.
  destruct (decide (i < w)).
  - rewrite !Z.mod_pow2_bits_low, Z.lxor_spec by lia. done.
  - rewrite !Z.mod_pow2_bits_high by lia. done.
Qed.

Lemma lxor_is_u8 a b : is_u8 a -> is_u8 b -> is_u8 (Z.lxor a b).
Proof. apply (lxor_range 8). lia. Qed.

Lemma fold_lor_zero (f : Z -> Z) l : forall d,
  fold_left (fun d i => Z.lor d (f i)) l d = 0 <-> d = 0 /\ Forall (fun i => f i = 0) l.
Proof.
  induction l as [| x l IH]; intros d; simpl; [by split; [| intros []] |].
  rewrite IH, Z.lor_eq_0_iff, Forall_cons. tauto.
Qed.

Lemma u8_is_u8 z : is_u8 (u8 z).
Proof. apply u8_range. Qed.

Lemma lxor_cancel a b : Z.lxor (Z.lxor a b) b = a.
Proof. by rewrite Z.lxor_assoc, Z.lxor_nilpotent, Z.lxor_0_r. Qed.

(** A property of bytes that holds on all 256 of them. *)
Lemma byte_check (P : Z -> bool) : forallb P (seqZ 0 256) = true -> forall x, is_u8 x -> P x = true.
Proof.
  intros H x Hx. rewrite forallb_forall in H. apply H, list_elem_of_In, elem_of_seqZ.
  unfold is_u8 in Hx. lia.
Qed.

#[export] Hint Resolve lxor_is_u8 u8_is_u8 : wos.

(** ** Lists *)

Declare Scope wos_scope.
Notation "l .[ i ]" := (l !!! Z.to_nat i) (at level 1, left associativity, format "l .[ i ]") : wos_scope.
#[global] Open Scope wos_scope.

(** [l[i] = x] on a C array: the index is a machine integer. *)
Definition upd {A} (i : Z) (x : A) (l : list A) : list A := <[Z.to_nat i := x]> l.

Definition Zlen {A} (l : list A) : Z := Z.of_nat (length l).

Lemma Zlen_upd {A} i (x : A) l : Zlen (upd i x l) = Zlen l.
Proof. unfold Zlen, upd. by rewrite length_insert. Qed.

Lemma upd_upd {A} i (x y : A) l : upd i x (upd i y l) = upd i x l.
Proof. unfold upd. apply list_insert_insert_eq. Qed.

Lemma get_upd_eq `{Inhabited A} i (x : A) l : 0 <= i < Zlen l -> (upd i x l).[i] = x.
Proof. unfold Zlen, upd. intros. apply list_lookup_total_insert_eq. lia. Qed.

Lemma get_upd_ne `{Inhabited A} i j (x : A) l :
  0 <= i -> 0 <= j -> i <> j -> (upd i x l).[j] = l.[j].
Proof. unfold upd. intros. apply list_lookup_total_insert_ne. lia. Qed.


(** Bytes [off .. off+n) of an array, and overwriting them. *)
Definition slice {A} (off n : Z) (l : list A) : list A :=
  take (Z.to_nat n) (drop (Z.to_nat off) l).
Definition splice {A} (off : Z) (new l : list A) : list A :=
  take (Z.to_nat off) l ++ new ++ drop (Z.to_nat off + length new) l.

Lemma Zlen_splice {A} off (new l : list A) :
  0 <= off -> off + Zlen new <= Zlen l -> Zlen (splice off new l) = Zlen l.
Proof. unfold Zlen, splice. intros. rewrite !length_app, length_take, length_drop. lia. Qed.

Lemma Zlen_slice {A} off n (l : list A) :
  0 <= off -> 0 <= n -> off + n <= Zlen l -> Zlen (slice off n l) = n.
Proof. unfold Zlen, slice. intros. rewrite length_take, length_drop. lia. Qed.

Lemma slice_splice {A} off (new l : list A) :
  0 <= off -> off + Zlen new <= Zlen l -> slice off (Zlen new) (splice off new l) = new.
Proof.
  unfold Zlen, slice, splice. intros. rewrite drop_app_length'.
  - apply take_app_length'. lia.
  - rewrite length_take. lia.
Qed.

Lemma splice_back {A} off (new l : list A) :
  0 <= off -> off + Zlen new <= Zlen l ->
  splice off (slice off (Zlen new) l) (splice off new l) = l.
Proof.
  unfold Zlen. intros. assert (length (slice off (Z.of_nat (length new)) l) = length new) as Hl
    by (unfold slice; rewrite length_take, length_drop; lia).
  unfold splice. rewrite Hl. rewrite take_app_le, take_take, Nat.min_id by (rewrite length_take; lia).
  rewrite (drop_app_ge (take _ _)) by (rewrite length_take; lia).
  rewrite length_take, drop_app_ge by lia.
  replace (Z.to_nat off + length new - (Z.to_nat off `min` length l) - length new)%nat with 0%nat by lia.
  rewrite drop_0. unfold slice. rewrite Nat2Z.id, <- drop_drop, take_drop, take_drop. done.
Qed.

Lemma list_eq_get `{Inhabited A} (l k : list A) :
  Zlen l = Zlen k -> (forall i, 0 <= i < Zlen l -> l.[i] = k.[i]) -> l = k.
Proof.
  unfold Zlen. intros Hl He. apply (list_eq_same_length _ _ (length l)); [lia | done |].
  intros i x y Hi Hx Hy. specialize (He (Z.of_nat i) ltac:(lia)). rewrite Nat2Z.id in He.
  by rewrite (list_lookup_total_correct _ _ _ Hx), (list_lookup_total_correct _ _ _ Hy) in He.
Qed.

Lemma get_slice `{Inhabited A} off n (l : list A) k :
  0 <= off -> 0 <= k < n -> (slice off n l).[k] = l.[off + k].
Proof.
  intros. unfold slice. rewrite !list_lookup_total_alt, lookup_take, lookup_drop.
  rewrite decide_True by lia. do 2 f_equal. lia.
Qed.

Lemma get_splice `{Inhabited A} off (new l : list A) k :
  0 <= off -> off + Zlen new <= Zlen l -> 0 <= k ->
  (splice off new l).[k] = if ((off <=? k) && (k <? off + Zlen new))%bool then new.[k - off] else l.[k].
Proof.
  unfold Zlen, splice. intros. rewrite !list_lookup_total_alt.
  destruct (Z.leb_spec off k); simpl.
  - rewrite lookup_app_r by (rewrite length_take; lia). rewrite length_take.
    destruct (Z.ltb_spec k (off + Z.of_nat (length new))).
    + rewrite lookup_app_l by lia. do 2 f_equal. lia.
    + rewrite lookup_app_r, lookup_drop by lia. do 2 f_equal. lia.
  - rewrite lookup_app_l, lookup_take, decide_True by (rewrite ?length_take; lia). done.
Qed.

Lemma get_zip_with (f : Z -> Z -> Z) (l k : list Z) i :
  0 <= i < Zlen l -> i < Zlen k -> (zip_with f l k).[i] = f l.[i] k.[i].
Proof.
  unfold Zlen. intros. apply list_lookup_total_correct. rewrite lookup_zip_with.
  destruct (lookup_lt_is_Some_2 l (Z.to_nat i)) as [x Hx]; [lia |].
  destruct (lookup_lt_is_Some_2 k (Z.to_nat i)) as [y Hy]; [lia |].
  rewrite Hx, Hy. simpl. by rewrite (list_lookup_total_correct _ _ _ Hx), (list_lookup_total_correct _ _ _ Hy).
Qed.

Lemma Zlen_zip_with (f : Z -> Z -> Z) (l k : list Z) : Zlen l <= Zlen k -> Zlen (zip_with f l k) = Zlen l.
Proof. unfold Zlen. intros. rewrite length_zip_with. lia. Qed.

Lemma Zlen_app {A} (l k : list A) : Zlen (l ++ k) = Zlen l + Zlen k.
Proof. unfold Zlen. rewrite length_app. lia. Qed.

Lemma pair_of_fst {A B} (p : A * B) a : p.1 = a -> p = (a, p.2).
Proof. intros <-. by destruct p. Qed.

Lemma Zlen_nonneg {A} (l : list A) : 0 <= Zlen l.
Proof. unfold Zlen. lia. Qed.

(** Running a loop backwards undoes it when each turn can be undone. *)
Lemma fold_undo {S A} (ok : S -> Prop) (f g : S -> A -> S) (l : list A) s :
  (forall s a, a ∈ l -> ok s -> ok (f s a) /\ g (f s a) a = s) -> ok s ->
  ok (fold_left f l s) /\ fold_left g (reverse l) (fold_left f l s) = s.
Proof.
  revert s. induction l as [| a l IH]; intros s Hfg Hs; [done |].
  destruct (Hfg s a) as [Ha Ea]; [by left | done |].
  destruct (IH (f s a)) as [IH1 IH2]; [intros; apply Hfg; [by right | done] | done |].
  split; [done |]. simpl. rewrite reverse_cons, fold_left_app. simpl. by rewrite IH2.
Qed.

(** ** Counting

    How many of the elements of a list satisfy a boolean test. *)
Definition countb {A} (p : A -> bool) (l : list A) : Z := Z.of_nat (length (List.filter p l)).

Lemma countb_nil {A} (p : A -> bool) : countb p [] = 0.
Proof. done. Qed.

Lemma countb_cons {A} (p : A -> bool) x l : countb p (x :: l) = Z.b2z (p x) + countb p l.
Proof. unfold countb. simpl. destruct (p x); simpl; lia. Qed.

Lemma countb_ext {A} (p q : A -> bool) l :
  (forall x, x ∈ l -> p x = q x) -> countb p l = countb q l.
Proof.
  induction l as [| x l IH]; intros Heq; [done |].
  rewrite !countb_cons, Heq, IH; [done | | by left]. intros; apply Heq; by right.
Qed.

(** Changing the test at exactly one element moves the count by one. *)
Lemma countb_flip `{EqDecision A} (p q : A -> bool) x l :
  NoDup l -> x ∈ l -> (forall y, y <> x -> p y = q y) ->
  countb q l = countb p l - Z.b2z (p x) + Z.b2z (q x).
Proof.
  intros Hnd Hin Heq. induction Hnd as [| y l Hy Hnd IH]; [by apply not_elem_of_nil in Hin |].
  rewrite !countb_cons. apply elem_of_cons in Hin as [-> | Hin].
  - rewrite (countb_ext p q l); [lia |]. intros z Hz. apply Heq. by intros ->.
  - rewrite IH by done. rewrite (Heq y); [lia |]. by intros ->.
Qed.

Lemma countb_bounds {A} (p : A -> bool) l : 0 <= countb p l <= Zlen l.
Proof.
  induction l as [| x l IH]; [done |]. rewrite countb_cons. unfold Zlen in *. simpl length.
  destruct (p x); simpl; lia.
Qed.

Lemma countb_negb {A} (p : A -> bool) l : countb (fun x => negb (p x)) l = Zlen l - countb p l.
Proof.
  induction l as [| x l IH]; [done |]. rewrite !countb_cons, IH. unfold Zlen. simpl length.
  destruct (p x); simpl; lia.
Qed.

Lemma countb_mono {A} (p q : A -> bool) l :
  (forall x, x ∈ l -> p x = true -> q x = true) -> countb p l <= countb q l.
Proof.
  induction l as [| x l IH]; intros Himp; [done |]. rewrite !countb_cons.
  assert (countb p l <= countb q l) by (apply IH; intros; apply Himp; [by right | done]).
  specialize (Himp x ltac:(by left)). destruct (p x), (q x); simpl; try lia; by discriminate Himp.
Qed.

Lemma countb_all {A} (p : A -> bool) l :
  countb p l = Zlen l <-> forall x, x ∈ l -> p x = true.
Proof.
  induction l as [| x l IH].
  - split; [| done]. intros _ x Hx. by apply not_elem_of_nil in Hx.
  - rewrite countb_cons. pose proof (countb_bounds p l). unfold Zlen in *. simpl length. split.
    + intros Hc y Hy. assert (p x = true /\ countb p l = Z.of_nat (length l)) as [Hpx Hl]
        by (destruct (p x); simpl in *; lia).
      apply elem_of_cons in Hy as [-> | Hy]; [done |]. by apply IH.
    + intros Hall. rewrite (proj2 IH) by (intros; apply Hall; by right).
      rewrite (Hall x) by (by left). simpl. lia.
Qed.

(** ** Loops

    [for (a = first; cond(a); a = next(a)) body], cut off after [fuel] turns. *)
Fixpoint for_while {S : Type} (fuel : nat) (cond : Z -> bool) (next : Z -> Z)
    (body : Z -> S -> S) (a : Z) (s : S) : S :=
  match fuel with
  | O => s
  | Datatypes.S n =>
      if cond a then for_while n cond next body (next a) (body a s) else s
  end.

(** The while rule: an invariant that every turn keeps, and a measure that
    every turn decreases and that the fuel covers, so the loop has really ended
    when the result is taken. *)
Lemma for_while_rule {S} (P : Z -> S -> Prop) (m : Z -> Z)
    fuel cond next (body : Z -> S -> S) a s :
  P a s ->
  (forall a s, P a s -> cond a = true -> P (next a) (body a s) /\ 0 <= m (next a) < m a) ->
  m a <= Z.of_nat fuel ->
  (forall a s, P a s -> cond a = true -> 0 < m a) ->
  exists a', P a' (for_while fuel cond next body a s) /\ cond a' = false.
Proof.
  intros HP Hstep Hm Hpos. revert a s HP Hm. induction fuel as [| fuel IH]; intros a s HP Hm; simpl.
  - exists a. split; [done |]. destruct (cond a) eqn:E; [| done]. specialize (Hpos a s HP E). lia.
  - destruct (cond a) eqn:E; [| by exists a].
    destruct (Hstep a s HP E) as [HP' Hlt]. apply IH; [done | lia].
Qed.

(** A counting loop is a fold over the interval. *)
Lemma for_range {S} (body : Z -> S -> S) lo hi s :
  for_while (Z.to_nat (hi - lo)) (fun i => i <? hi) (fun i => i + 1) body lo s =
  fold_left (fun s i => body i s) (seqZ lo (hi - lo)) s.
Proof.
  remember (Z.to_nat (hi - lo)) as n eqn:Hn. revert lo s Hn. induction n as [| n IH]; intros lo s Hn; simpl.
  - by rewrite seqZ_nil by lia.
  - rewrite (proj2 (Z.ltb_lt lo hi)) by lia. rewrite seqZ_cons by lia. simpl.
    rewrite IH by lia. do 2 f_equal; lia.
Qed.

