(* ===== verification/Pmm.v ===== *)
(** The physical frame allocator, [kernel/mm/pmm.c].

    The global variables of the file are one record; every function is a state
    transformer on it.  [bitmap] is the array of 64-bit words the C code keeps,
    one bit per 4 KiB frame, 1 = used.  What the boot loader left in memory --
    the multiboot block, the memory map behind [mmap_addr], the module table
    behind [mods_addr] -- is a record whose pointers are functions. *)

From S2P Require Import Prelude.

Module Pmm.

(** ** Constants: [paging.h], [fbcon.h], [kheap.h], [multiboot.h] *)

Definition LOW_MEMORY_LIMIT : Z := 1024 * 1024 * 1024.
Definition FBCON_APERTURE : Z := 0x30000000.
Definition KHEAP_MB : Z := 8.
Definition KHEAP_SIZE : Z := KHEAP_MB * 1024 * 1024.
Definition MB_FLAG_MEM : Z := Z.shiftl 1 0.
Definition MB_FLAG_MODS : Z := Z.shiftl 1 3.
Definition MB_FLAG_MMAP : Z := Z.shiftl 1 6.
Definition MB_MEMORY_AVAILABLE : Z := 1.
(** [sizeof(struct multiboot_info)], [sizeof(struct multiboot_module)]: both packed. *)
Definition sizeof_multiboot_info : Z := 124.
Definition sizeof_multiboot_module : Z := 16.

Record multiboot_mmap_entry := {
  e_size : Z;  (** [uint32_t] *)
  e_addr : Z;  (** [uint64_t] *)
  e_len : Z;   (** [uint64_t] *)
  e_type : Z;
}.

Record multiboot_module := { mod_start : Z; mod_end : Z }.

Record multiboot_info := {
  mb_self : Z;         (** where the block itself is: the pointer [mbi] *)
  mb_flags : Z;
  mem_upper : Z;
  mods_count : Z;
  mods_addr : Z;
  mmap_length : Z;
  mmap_addr : Z;
  mmap_at : Z -> multiboot_mmap_entry;   (** the entry at an address *)
  mods : Z -> multiboot_module;          (** the module table *)
}.

(** ** State *)

Record pmm := {
  bitmap : list Z;
  bitmap_frames : Z;
  bitmap_words : Z;
  total_frames : Z;
  usable_frames : Z;
  hole_frames : Z;
  used_frames : Z;
  reserved_frames : Z;
  heap_base : Z;
  next_hint : Z;
  next_hint_low : Z;
}.

(** Assignments to one global. *)
Definition with_bitmap (bm : list Z) (used : Z) (p : pmm) : pmm :=
  {| bitmap := bm; bitmap_frames := bitmap_frames p; bitmap_words := bitmap_words p;
     total_frames := total_frames p; usable_frames := usable_frames p;
     hole_frames := hole_frames p; used_frames := used;
     reserved_frames := reserved_frames p; heap_base := heap_base p;
     next_hint := next_hint p; next_hint_low := next_hint_low p |}.
Definition with_hints (h hl : Z) (p : pmm) : pmm :=
  {| bitmap := bitmap p; bitmap_frames := bitmap_frames p; bitmap_words := bitmap_words p;
     total_frames := total_frames p; usable_frames := usable_frames p;
     hole_frames := hole_frames p; used_frames := used_frames p;
     reserved_frames := reserved_frames p; heap_base := heap_base p;
     next_hint := h; next_hint_low := hl |}.
Definition with_figures (usable hole reserved heap : Z) (p : pmm) : pmm :=
  {| bitmap := bitmap p; bitmap_frames := bitmap_frames p; bitmap_words := bitmap_words p;
     total_frames := total_frames p; usable_frames := usable;
     hole_frames := hole; used_frames := used_frames p;
     reserved_frames := reserved; heap_base := heap;
     next_hint := next_hint p; next_hint_low := next_hint_low p |}.

(** ** The bitmap *)

Definition bitmap_set (bm : list Z) (frame : Z) : list Z :=
  upd (frame / 64) (Z.lor bm.[frame / 64] (Z.shiftl 1 (frame `mod` 64))) bm.

Definition bitmap_clear (bm : list Z) (frame : Z) : list Z :=
  upd (frame / 64) (Z.land bm.[frame / 64] (u64 (Z.lnot (Z.shiftl 1 (frame `mod` 64))))) bm.

Definition bitmap_test (bm : list Z) (frame : Z) : bool :=
  negb (Z.land bm.[frame / 64] (Z.shiftl 1 (frame `mod` 64)) =? 0).

Definition mark_used (frame : Z) (p : pmm) : pmm :=
  if ((frame >=? total_frames p) || bitmap_test (bitmap p) frame)%bool then p
  else with_bitmap (bitmap_set (bitmap p) frame) (u64 (used_frames p + 1)) p.

Definition mark_free (frame : Z) (p : pmm) : pmm :=
  if ((frame >=? total_frames p) || negb (bitmap_test (bitmap p) frame))%bool then p
  else with_bitmap (bitmap_clear (bitmap p) frame) (u64 (used_frames p - 1)) p.

(** Turns that cover a page loop up to [stop]. *)
Definition page_fuel (stop : Z) : nat := Z.to_nat (stop / PAGE_SIZE + 1).

Definition pmm_reserve_range (start stop : Z) (p : pmm) : pmm :=
  for_while (page_fuel stop) (fun a => a <? stop) (fun a => u64 (a + PAGE_SIZE))
    (fun a => mark_used (a / PAGE_SIZE)) (ALIGN_DOWN start PAGE_SIZE) p.

Definition free_range (start stop : Z) (p : pmm) : pmm :=
  for_while (page_fuel stop) (fun a => u64 (a + PAGE_SIZE) <=? stop)
    (fun a => u64 (a + PAGE_SIZE))
    (fun a => mark_free (a / PAGE_SIZE)) (ALIGN_UP start PAGE_SIZE) p.

Definition pmm_release_range (start stop : Z) (p : pmm) : pmm :=
  let before := used_frames p in
  let p := for_while (page_fuel stop) (fun a => u64 (a + PAGE_SIZE) <=? stop)
    (fun a => u64 (a + PAGE_SIZE))
    (fun a => mark_free (a / PAGE_SIZE)) (ALIGN_UP start PAGE_SIZE) p in
  let freed := u64 (before - used_frames p) in
  with_figures (usable_frames p) (hole_frames p)
    (if reserved_frames p >? freed then reserved_frames p - freed else 0) (heap_base p) p.

(** ** The memory map

    [while (cur < end) { e = cur; ...; cur += e->size + 4; }]: every turn
    advances by at least four bytes. *)
Definition mmap_end (mbi : multiboot_info) : Z := u32 (mmap_addr mbi + mmap_length mbi).
Definition mmap_fuel (mbi : multiboot_info) : nat := Z.to_nat (mmap_length mbi / 4 + 1).
Definition mmap_next (mbi : multiboot_info) (cur : Z) : Z :=
  u64 (cur + (e_size (mmap_at mbi cur) + 4)).

(** The entries the walk meets, in order. *)
Fixpoint mmap_walk (fuel : nat) (mbi : multiboot_info) (cur : Z) : list multiboot_mmap_entry :=
  match fuel with
  | O => []
  | S n => if cur <? mmap_end mbi
           then mmap_at mbi cur :: mmap_walk n mbi (mmap_next mbi cur)
           else []
  end.
Definition mmap_entries (mbi : multiboot_info) : list multiboot_mmap_entry :=
  mmap_walk (mmap_fuel mbi) mbi (mmap_addr mbi).

Definition has_flag (mbi : multiboot_info) (f : Z) : bool := negb (Z.land (mb_flags mbi) f =? 0).

Definition highest_address (mbi : multiboot_info) : Z :=
  let highest :=
    if has_flag mbi MB_FLAG_MMAP then
      foldl (fun highest e =>
        if e_type e =? MB_MEMORY_AVAILABLE then
          let top := u64 (e_addr e + e_len e) in
          if top >? highest then top else highest
        else highest) 0 (mmap_entries mbi)
    else 0 in
  if ((highest =? 0) && has_flag mbi MB_FLAG_MEM)%bool
  then u32 (0x100000 + u32 (mem_upper mbi * 1024))
  else highest.

(** ** Room for the bitmap and the heap *)

Section boot.

(** Where the linker put the kernel: [__kernel_start], [__kernel_end]. *)
Context (kernel_start kernel_end : Z).

Definition overlaps (start len lo hi : Z) : bool :=
  ((hi >? lo) && (start <? hi) && (lo <? u64 (start + len)))%bool.

(** One turn of the [for (;;)] of [clear_of_boot_data]: the last thing in the
    way decides where to move. *)
Definition clear_step (mbi : multiboot_info) (addr len : Z) : Z :=
  let moved := addr in
  let moved := if overlaps addr len kernel_start kernel_end then kernel_end else moved in
  let moved := if overlaps addr len (mb_self mbi) (u64 (mb_self mbi + sizeof_multiboot_info))
               then u64 (mb_self mbi + sizeof_multiboot_info) else moved in
  let moved :=
    if has_flag mbi MB_FLAG_MMAP then
      if overlaps addr len (mmap_addr mbi) (mmap_addr mbi + mmap_length mbi)
      then mmap_addr mbi + mmap_length mbi else moved
    else moved in
  if has_flag mbi MB_FLAG_MODS then
    let mods_bytes := mods_count mbi * sizeof_multiboot_module in
    let moved := if overlaps addr len (mods_addr mbi) (mods_addr mbi + mods_bytes)
                 then mods_addr mbi + mods_bytes else moved in
    foldl (fun moved i =>
        if overlaps addr len (mod_start (mods mbi i)) (mod_end (mods mbi i))
        then mod_end (mods mbi i) else moved)
      moved (seqZ 0 (mods_count mbi))
  else moved.

Fixpoint clear_of_boot_data (fuel : nat) (mbi : multiboot_info) (addr len : Z) : option Z :=
  match fuel with
  | O => None
  | S n =>
      let moved := clear_step mbi addr len in
      if moved =? addr then Some addr
      else clear_of_boot_data n mbi (ALIGN_UP moved PAGE_SIZE) len
  end.

(** Enough turns: each one leaves an obstruction behind for good. *)
Definition clear_fuel (mbi : multiboot_info) : nat := Z.to_nat (mods_count mbi + 5).

(** [while (addr + len <= region_end)]: a second call returns its argument, so
    two turns settle a region. *)
Fixpoint region_search (fuel : nat) (mbi : multiboot_info) (addr len region_end : Z) : option Z :=
  match fuel with
  | O => None
  | S n =>
      if u64 (addr + len) <=? region_end then
        match clear_of_boot_data (clear_fuel mbi) mbi addr len with
        | Some clear => if clear =? addr then Some addr
                        else region_search n mbi clear len region_end
        | None => None
        end
      else None
  end.

Definition region_start (e : multiboot_mmap_entry) : Z :=
  let addr := e_addr e in
  let addr := if addr <? kernel_end then kernel_end else addr in
  ALIGN_UP addr PAGE_SIZE.

Definition region_limit (e : multiboot_mmap_entry) : Z :=
  let region_end := u64 (e_addr e + e_len e) in
  if region_end >? FBCON_APERTURE then FBCON_APERTURE else region_end.

Fixpoint find_span_in (mbi : multiboot_info) (len : Z) (es : list multiboot_mmap_entry) : Z :=
  match es with
  | [] => 0
  | e :: es =>
      if (negb (e_type e =? MB_MEMORY_AVAILABLE) || negb (Z.shiftr (e_addr e) 32 =? 0))%bool
      then find_span_in mbi len es
      else match region_search 2 mbi (region_start e) len (region_limit e) with
           | Some addr => addr
           | None => find_span_in mbi len es
           end
  end.

Definition find_span (mbi : multiboot_info) (len : Z) : Z :=
  if negb (has_flag mbi MB_FLAG_MMAP) then
    default 0 (clear_of_boot_data (clear_fuel mbi) mbi (ALIGN_UP kernel_end PAGE_SIZE) len)
  else find_span_in mbi len (mmap_entries mbi).

(** ** Initialisation *)

Definition free_available (mbi : multiboot_info) (p : pmm) : pmm :=
  if has_flag mbi MB_FLAG_MMAP then
    foldl (fun p e => if e_type e =? MB_MEMORY_AVAILABLE
                      then free_range (e_addr e) (u64 (e_addr e + e_len e)) p else p)
      p (mmap_entries mbi)
  else p.

Definition reserve_boot (mbi : multiboot_info) (span heap : Z) (p : pmm) : pmm :=
  let p := pmm_reserve_range 0 0x100000 p in
  let p := pmm_reserve_range kernel_start kernel_end p in
  let p := pmm_reserve_range span (u64 (heap + KHEAP_SIZE)) p in
  let p := pmm_reserve_range (mb_self mbi) (u64 (mb_self mbi + sizeof_multiboot_info)) p in
  let p := if has_flag mbi MB_FLAG_MMAP
           then pmm_reserve_range (mmap_addr mbi) (u32 (mmap_addr mbi + mmap_length mbi)) p else p in
  if has_flag mbi MB_FLAG_MODS then
    let p := pmm_reserve_range (mods_addr mbi)
               (mods_addr mbi + mods_count mbi * sizeof_multiboot_module) p in
    foldl (fun p i => pmm_reserve_range (mod_start (mods mbi i)) (mod_end (mods mbi i)) p)
      p (seqZ 0 (mods_count mbi))
  else p.

Definition pmm_init (mbi : multiboot_info) : res pmm :=
  let total := highest_address mbi / PAGE_SIZE in
  let words := ALIGN_UP total 64 / 64 in
  let bitmap_bytes := ALIGN_UP (u64 (words * 8)) PAGE_SIZE in
  let span := find_span mbi (u64 (bitmap_bytes + KHEAP_SIZE)) in
  if span =? 0 then Panic
  else
    let p := {| bitmap := replicate (Z.to_nat words) (u64 (Z.lnot 0));
                bitmap_frames := total; bitmap_words := words; total_frames := total;
                usable_frames := 0; hole_frames := 0; used_frames := total;
                reserved_frames := 0; heap_base := 0;
                next_hint := 0; next_hint_low := 0 |} in
    let p := free_available mbi p in
    let hole := used_frames p in
    let heap := u64 (span + bitmap_bytes) in
    let p := with_figures (u64 (total - hole)) hole 0 heap p in
    let p := reserve_boot mbi span heap p in
    let p := with_figures (usable_frames p) hole (u64 (used_frames p - hole)) heap p in
    if u64 (heap + KHEAP_SIZE) >? FBCON_APERTURE then Panic else Ret p.

End boot.

(** ** Allocation *)

(** [for (f = from; f < to; f++) if (!bitmap_test(f)) ...]: the first free
    frame, [n] being [to - from]. *)
Fixpoint first_free (bm : list Z) (n : nat) (f : Z) : option Z :=
  match n with
  | O => None
  | S n => if negb (bitmap_test bm f) then Some f else first_free bm n (f + 1)
  end.

Definition alloc_scan (start_frame end_frame hint : Z) (p : pmm) : Z * Z * pmm :=
  let begin := if ((hint >=? start_frame) && (hint <? end_frame))%bool then hint else start_frame in
  let take f := (u64 (f * PAGE_SIZE), f + 1,
                 with_bitmap (bitmap_set (bitmap p) f) (u64 (used_frames p + 1)) p) in
  match first_free (bitmap p) (Z.to_nat (end_frame - begin)) begin with
  | Some f => take f
  | None =>
      match first_free (bitmap p) (Z.to_nat (begin - start_frame)) start_frame with
      | Some f => take f
      | None => (0, hint, p)
      end
  end.

Definition pmm_alloc_frame (p : pmm) : Z * pmm :=
  let '(a, hint, p) := alloc_scan 0 (total_frames p) (next_hint p) p in
  (a, with_hints hint (next_hint_low p) p).

Definition low_limit (p : pmm) : Z :=
  let limit := LOW_MEMORY_LIMIT / PAGE_SIZE in
  if limit >? total_frames p then total_frames p else limit.

Definition pmm_alloc_frame_low (p : pmm) : Z * pmm :=
  let '(a, hint, p) := alloc_scan 0 (low_limit p) (next_hint_low p) p in
  (a, with_hints (next_hint p) hint p).

(** The first [i < n] with frame [f + i] used. *)
Fixpoint first_used (bm : list Z) (n : nat) (f : Z) : option Z :=
  match n with
  | O => None
  | S n => if bitmap_test bm f then Some f else first_used bm n (f + 1)
  end.

Fixpoint set_run (n : nat) (f : Z) (bm : list Z) : list Z :=
  match n with O => bm | S n => set_run n (f + 1) (bitmap_set bm f) end.

Fixpoint contiguous_loop (fuel : nat) (start count align limit : Z) (p : pmm) : Z * pmm :=
  match fuel with
  | O => (0, p)
  | S n =>
      if u64 (start + count) <=? limit then
        match first_used (bitmap p) (Z.to_nat count) start with
        | Some blocked => contiguous_loop n (ALIGN_UP (blocked + 1) align) count align limit p
        | None =>
            (u64 (start * PAGE_SIZE),
             with_bitmap (set_run (Z.to_nat count) start (bitmap p))
               (u64 (used_frames p + count)) p)
        end
      else (0, p)
  end.

Definition pmm_alloc_contiguous (count align_frames : Z) (p : pmm) : Z * pmm :=
  if count =? 0 then (0, p)
  else
    let align := if align_frames <? 1 then 1 else align_frames in
    let limit := low_limit p in
    contiguous_loop (S (Z.to_nat limit)) (ALIGN_UP 1 align) count align limit p.

Definition pmm_free_frame (phys : Z) (p : pmm) : res pmm :=
  let frame := phys / PAGE_SIZE in
  if frame >=? total_frames p then Ret p
  else if negb (bitmap_test (bitmap p) frame) then Panic
  else
    let p := with_bitmap (bitmap_clear (bitmap p) frame) (u64 (used_frames p - 1)) p in
    let h := if frame <? next_hint p then frame else next_hint p in
    let hl := if ((phys <? LOW_MEMORY_LIMIT) && (frame <? next_hint_low p))%bool
              then frame else next_hint_low p in
    Ret (with_hints h hl p).

Fixpoint pmm_free_run (n : nat) (phys : Z) (p : pmm) : res pmm :=
  match n with
  | O => Ret p
  | S n => match pmm_free_frame phys p with
           | Ret p => pmm_free_run n (u64 (phys + PAGE_SIZE)) p
           | Panic => Panic
           end
  end.
Definition pmm_free_contiguous (phys count : Z) (p : pmm) : res pmm :=
  pmm_free_run (Z.to_nat count) phys p.

Definition pmm_total_bytes (p : pmm) : Z := u64 (usable_frames p * PAGE_SIZE).
Definition pmm_free_bytes (p : pmm) : Z := u64 (u64 (total_frames p - used_frames p) * PAGE_SIZE).
Definition pmm_used_bytes (p : pmm) : Z := u64 (pmm_total_bytes p - pmm_free_bytes p).
Definition pmm_kernel_bytes (p : pmm) : Z := u64 (reserved_frames p * PAGE_SIZE).
Definition pmm_heap_base (p : pmm) : Z := heap_base p.

(** ** Facts about the bitmap *)

Lemma bitmap_test_testbit bm f :
  0 <= f -> bitmap_test bm f = Z.testbit bm.[f / 64] (f `mod` 64).
Proof.
  intros. unfold bitmap_test. rewrite land_bit_nonzero, negb_involutive; [done |].
  apply Z.mod_pos_bound. lia.
Qed.

Lemma same_bit f g : f / 64 = g / 64 -> (f `mod` 64 =? g `mod` 64) = (f =? g).
Proof. intros. destruct (Z.eqb_spec f g), (Z.eqb_spec (f `mod` 64) (g `mod` 64)); zlia. Qed.

Lemma bitmap_test_set bm f g :
  0 <= f < 64 * Zlen bm -> 0 <= g ->
  bitmap_test (bitmap_set bm f) g = (bitmap_test bm g || (g =? f))%bool.
Proof.
  intros Hf Hg. rewrite !bitmap_test_testbit by done. unfold bitmap_set.
  assert (0 <= f / 64 < Zlen bm) by zlia. assert (0 <= g / 64) by zlia.
  destruct (decide (g / 64 = f / 64)) as [E | E].
  - rewrite E, get_upd_eq, testbit_set_bit by (done || zlia). by rewrite (same_bit g f).
  - rewrite get_upd_ne by lia. destruct (Z.eqb_spec g f); [by subst |]. by rewrite orb_false_r.
Qed.

Lemma bitmap_test_clear bm f g :
  0 <= f < 64 * Zlen bm -> 0 <= g ->
  bitmap_test (bitmap_clear bm f) g = (bitmap_test bm g && negb (g =? f))%bool.
Proof.
  intros Hf Hg. rewrite !bitmap_test_testbit by done. unfold bitmap_clear.
  assert (0 <= f / 64 < Zlen bm) by zlia. assert (0 <= g / 64) by zlia.
  destruct (decide (g / 64 = f / 64)) as [E | E].
  - rewrite E, get_upd_eq, Z.land_spec, u64_testbit, <- Z.land_spec, testbit_clear_bit
      by (done || zlia). by rewrite (same_bit g f).
  - rewrite get_upd_ne by lia. destruct (Z.eqb_spec g f); [by subst |]. by rewrite andb_true_r.
Qed.

Lemma Zlen_bitmap_set bm f : Zlen (bitmap_set bm f) = Zlen bm.
Proof. apply Zlen_upd. Qed.

Lemma Zlen_bitmap_clear bm f : Zlen (bitmap_clear bm f) = Zlen bm.
Proof. apply Zlen_upd. Qed.

(** ** The invariant

    The abstract state is the set of used frames, as the test [used p]; the
    counter the statistics are computed from is exactly its size. *)

Definition used (p : pmm) (f : Z) : bool := bitmap_test (bitmap p) f.
Definition frames (p : pmm) : list Z := seqZ 0 (total_frames p).

Record wf (p : pmm) : Prop := {
  wf_total : 0 <= total_frames p < 2 ^ 52;
  wf_cover : total_frames p <= 64 * Zlen (bitmap p);
  wf_used : used_frames p = countb (used p) (frames p);
}.

(** [p'] differs from [p] in the bitmap and the counter only. *)
Definition bitmap_only (p p' : pmm) : Prop := p' = with_bitmap (bitmap p') (used_frames p') p.

Lemma bitmap_only_refl p : bitmap_only p p.
Proof. by destruct p. Qed.

Lemma bitmap_only_trans p q r : bitmap_only p q -> bitmap_only q r -> bitmap_only p r.
Proof. unfold bitmap_only. intros -> ->. done. Qed.

Lemma bitmap_only_with p bm n : bitmap_only p (with_bitmap bm n p).
Proof. done. Qed.

Lemma bitmap_only_total p p' : bitmap_only p p' -> total_frames p' = total_frames p.
Proof. by intros ->. Qed.

#[local] Hint Resolve bitmap_only_refl bitmap_only_with bitmap_only_total : wos.

Lemma wf_used_bounds p : wf p -> 0 <= used_frames p <= total_frames p.
Proof.
  intros [Ht _ ->]. pose proof (countb_bounds (used p) (frames p)) as H.
  unfold frames, Zlen in *. rewrite length_seqZ in H. lia.
Qed.

(** A single bit changing, with the counter following. *)
Lemma wf_set p f :
  wf p -> 0 <= f < total_frames p -> used p f = false ->
  let p' := with_bitmap (bitmap_set (bitmap p) f) (u64 (used_frames p + 1)) p in
  wf p' /\ used_frames p' = used_frames p + 1 /\
  (forall g, 0 <= g -> used p' g = (used p g || (g =? f))%bool).
Proof.
  intros Hwf Hf Hfree p'. pose proof (wf_used_bounds p Hwf) as Hb. destruct Hwf as [Ht Hc Hu].
  assert (Hused : forall g, 0 <= g -> used p' g = (used p g || (g =? f))%bool)
    by (intros; apply bitmap_test_set; lia).
  assert (Hcount : countb (used p') (frames p) = countb (used p) (frames p) + 1).
  { set (q := fun g => (used p g || (g =? f))%bool).
    rewrite (countb_ext (used p') q (frames p)); last first.
    { intros g Hg. apply Hused. apply elem_of_seqZ in Hg. lia. }
    rewrite (countb_flip (used p) q f).
    - unfold q. rewrite Hfree, Z.eqb_refl. simpl. lia.
    - apply NoDup_seqZ.
    - apply elem_of_seqZ. lia.
    - intros g Hg. unfold q. destruct (Z.eqb_spec g f); [done |]. by rewrite orb_false_r. }
  assert (Hu64 : u64 (used_frames p + 1) = used_frames p + 1) by (apply u64_id; lia).
  split; [| split; [exact Hu64 | exact Hused]].
  split; simpl; [done | by rewrite Zlen_bitmap_set | rewrite Hu64, Hu; symmetry; exact Hcount].
Qed.

Lemma wf_clear p f :
  wf p -> 0 <= f < total_frames p -> used p f = true ->
  let p' := with_bitmap (bitmap_clear (bitmap p) f) (u64 (used_frames p - 1)) p in
  wf p' /\ used_frames p' = used_frames p - 1 /\
  (forall g, 0 <= g -> used p' g = (used p g && negb (g =? f))%bool).
Proof.
  intros Hwf Hf Htaken p'. pose proof (wf_used_bounds p Hwf) as Hb. destruct Hwf as [Ht Hc Hu].
  assert (Hused : forall g, 0 <= g -> used p' g = (used p g && negb (g =? f))%bool)
    by (intros; apply bitmap_test_clear; lia).
  assert (Hcount : countb (used p') (frames p) = countb (used p) (frames p) - 1).
  { set (q := fun g => (used p g && negb (g =? f))%bool).
    rewrite (countb_ext (used p') q (frames p)); last first.
    { intros g Hg. apply Hused. apply elem_of_seqZ in Hg. lia. }
    rewrite (countb_flip (used p) q f).
    - unfold q. rewrite Htaken, Z.eqb_refl. simpl. lia.
    - apply NoDup_seqZ.
    - apply elem_of_seqZ. lia.
    - intros g Hg. unfold q. destruct (Z.eqb_spec g f); [done |]. by rewrite andb_true_r. }
  assert (0 < used_frames p).
  { pose proof (countb_bounds (used p') (frames p)). lia. }
  assert (Hu64 : u64 (used_frames p - 1) = used_frames p - 1) by (apply u64_id; lia).
  split; [| split; [exact Hu64 | exact Hused]].
  split; simpl; [done | by rewrite Zlen_bitmap_clear | rewrite Hu64, Hu; symmetry; exact Hcount].
Qed.

Lemma mark_used_spec p f :
  wf p -> 0 <= f ->
  wf (mark_used f p) /\ bitmap_only p (mark_used f p) /\
  (forall g, 0 <= g < total_frames p -> used (mark_used f p) g = (used p g || (g =? f))%bool).
Proof.
  intros Hwf Hf. unfold mark_used. case_ifs.
  - split; [done | split; [auto with wos |]]. intros g Hg.
    destruct (Z.eqb_spec g f) as [-> |]; [| by rewrite orb_false_r].
    destruct Heqb as [? | Hu]; [bool_to_prop; lia |]. unfold used. by rewrite Hu.
  - destruct (wf_set p f) as (? & ? & Hg); [done | lia | done |].
    split; [done | split; [auto with wos |]]. intros. apply Hg. lia.
Qed.

Lemma mark_free_spec p f :
  wf p -> 0 <= f ->
  wf (mark_free f p) /\ bitmap_only p (mark_free f p) /\
  (forall g, 0 <= g < total_frames p -> used (mark_free f p) g = (used p g && negb (g =? f))%bool).
Proof.
  intros Hwf Hf. unfold mark_free. case_ifs.
  - split; [done | split; [auto with wos |]]. intros g Hg.
    destruct (Z.eqb_spec g f) as [-> |]; [| by rewrite andb_true_r].
    destruct Heqb as [? | Hu]; [bool_to_prop; lia |]. bool_to_prop. unfold used. by rewrite Hu.
  - destruct (wf_clear p f) as (? & ? & Hg); [done | lia | done |].
    split; [done | split; [auto with wos |]]. intros. apply Hg. lia.
Qed.

(** ** Ranges *)

(** Frame [g] has a byte in [[start, stop)]. *)
Definition frame_touches (start stop g : Z) : bool :=
  ((start / PAGE_SIZE <=? g) && (g * PAGE_SIZE <? stop))%bool.
(** Frame [g] lies wholly in [[start, stop)]. *)
Definition frame_inside (start stop g : Z) : bool :=
  ((start <=? g * PAGE_SIZE) && (g * PAGE_SIZE + PAGE_SIZE <=? stop))%bool.

Lemma pmm_reserve_range_spec p start stop :
  wf p -> 0 <= start < 2 ^ 64 -> 0 <= stop < 2 ^ 63 ->
  let p' := pmm_reserve_range start stop p in
  wf p' /\ bitmap_only p p' /\
  (forall g, 0 <= g < total_frames p ->
     used p' g = (used p g || frame_touches start stop g)%bool).
Proof.
  intros Hwf Hs He p'. unfold p', pmm_reserve_range. rewrite ALIGN_DOWN_page by lia.
  set (a0 := start / 4096 * 4096).
  set (P := fun a s => a `mod` 4096 = 0 /\ a0 <= a /\ (a = a0 \/ a < stop + 4096) /\
    wf s /\ bitmap_only p s /\
    forall g, 0 <= g < total_frames p ->
      used s g = (used p g || ((a0 / 4096 <=? g) && (g <? a / 4096)))%bool).
  destruct (for_while_rule P (fun a => Z.max 0 ((stop - a + 4095) / 4096))
    (page_fuel stop) (fun a => a <? stop) (fun a => u64 (a + PAGE_SIZE))
    (fun a => mark_used (a / PAGE_SIZE)) a0 p) as (a & (Ham & Ha0 & Hor & Hw & Hb & Hu) & Hend).
  - unfold P, a0. split_and!; auto with wos; [zlia | lia |].
    intros g Hg. destruct (Z.leb_spec (start / 4096 * 4096 / 4096) g),
      (Z.ltb_spec g (start / 4096 * 4096 / 4096)); simpl; rewrite ?orb_false_r; done || lia.
  - intros a s (Ham & Ha0 & Hor & Hw & Hb & Hu) Hc. bool_to_prop.
    assert (0 <= a0) by (unfold a0; zlia). unfold PAGE_SIZE in *.
    rewrite u64_id by lia. split; [| zlia].
    destruct (mark_used_spec s (a / 4096)) as (Hw' & Hb' & Hu'); [done | zlia |].
    rewrite (bitmap_only_total p s Hb) in Hu'.
    split; [zlia | split; [lia | split; [lia | split; [done | split]]]].
    { by eapply bitmap_only_trans. }
    intros g Hg. rewrite Hu', Hu by done. rewrite <- orb_assoc. f_equal.
    destruct (Z.leb_spec (a0 / 4096) g), (Z.ltb_spec g (a / 4096)), (Z.eqb_spec g (a / 4096)),
      (Z.ltb_spec g ((a + 4096) / 4096)); simpl; try done; zlia.
  - unfold page_fuel, PAGE_SIZE, a0. zlia.
  - intros a s _ Hc. bool_to_prop. zlia.
  - bool_to_prop. split; [done | split; [done |]]. intros g Hg. rewrite Hu by done. f_equal.
    unfold frame_touches, PAGE_SIZE. unfold a0 in *.
    destruct (Z.leb_spec (start / 4096) g), (Z.leb_spec (start / 4096 * 4096 / 4096) g),
      (Z.ltb_spec g (a / 4096)), (Z.ltb_spec (g * 4096) stop); simpl; try done; zlia.
Qed.

Lemma free_range_spec p start stop :
  wf p -> 0 <= start < 2 ^ 63 -> 0 <= stop < 2 ^ 63 ->
  let p' := free_range start stop p in
  wf p' /\ bitmap_only p p' /\
  (forall g, 0 <= g < total_frames p ->
     used p' g = (used p g && negb (frame_inside start stop g))%bool).
Proof.
  intros Hwf Hs He p'. unfold p', free_range. rewrite ALIGN_UP_page by lia.
  set (a0 := (start + 4095) / 4096 * 4096).
  set (P := fun a s => a `mod` 4096 = 0 /\ a0 <= a /\ (a = a0 \/ a <= stop) /\
    wf s /\ bitmap_only p s /\
    forall g, 0 <= g < total_frames p ->
      used s g = (used p g && negb ((a0 / 4096 <=? g) && (g <? a / 4096)))%bool).
  assert (Ha0s : start <= a0 < start + 4096) by (unfold a0; zlia).
  destruct (for_while_rule P (fun a => Z.max 0 ((stop - a) / 4096))
    (page_fuel stop) (fun a => u64 (a + PAGE_SIZE) <=? stop) (fun a => u64 (a + PAGE_SIZE))
    (fun a => mark_free (a / PAGE_SIZE)) a0 p) as (a & (Ham & Ha0 & Hor & Hw & Hb & Hu) & Hend).
  - unfold P. split_and!; auto with wos; [unfold a0; zlia | lia |].
    intros g Hg. destruct (Z.leb_spec (a0 / 4096) g),
      (Z.ltb_spec g (a0 / 4096)); simpl; rewrite ?andb_true_r; done || lia.
  - intros a s (Ham & Ha0 & Hor & Hw & Hb & Hu) Hc. bool_to_prop. unfold PAGE_SIZE in *.
    rewrite u64_id in * by lia. split; [| zlia].
    destruct (mark_free_spec s (a / 4096)) as (Hw' & Hb' & Hu'); [done | zlia |].
    rewrite (bitmap_only_total p s Hb) in Hu'.
    split; [zlia | split; [lia | split; [lia | split; [done | split]]]].
    { by eapply bitmap_only_trans. }
    intros g Hg. rewrite Hu', Hu by done. rewrite <- andb_assoc. f_equal.
    destruct (Z.leb_spec (a0 / 4096) g), (Z.ltb_spec g (a / 4096)), (Z.eqb_spec g (a / 4096)),
      (Z.ltb_spec g ((a + 4096) / 4096)); simpl; try done; zlia.
  - unfold page_fuel, PAGE_SIZE. zlia.
  - intros a s (Ham & Ha0 & Hor & _) Hc. bool_to_prop. unfold PAGE_SIZE in *.
    rewrite u64_id in * by lia. zlia.
  - bool_to_prop. split; [done | split; [done |]]. intros g Hg. rewrite Hu by done. do 2 f_equal.
    unfold frame_inside, PAGE_SIZE in *. rewrite u64_id in Hend by lia.
    destruct (Z.leb_spec start (g * 4096)), (Z.leb_spec (a0 / 4096) g),
      (Z.ltb_spec g (a / 4096)), (Z.leb_spec (g * 4096 + 4096) stop); simpl; try done; zlia.
Qed.

(** ** Single frames *)

Lemma first_free_Some bm n f g :
  first_free bm n f = Some g -> f <= g < f + Z.of_nat n /\ bitmap_test bm g = false.
Proof.
  revert f. induction n as [| n IH]; intros f; simpl; [done |].
  destruct (bitmap_test bm f) eqn:E; simpl.
  - intros H. apply IH in H as [? ?]. split; [lia | done].
  - intros [= <-]. split; [lia | done].
Qed.

Lemma first_free_None bm n f :
  first_free bm n f = None -> forall g, f <= g < f + Z.of_nat n -> bitmap_test bm g = true.
Proof.
  revert f. induction n as [| n IH]; intros f; simpl; [lia |].
  destruct (bitmap_test bm f) eqn:E; simpl; [| done].
  intros H g Hg. destruct (decide (g = f)) as [-> |]; [done |]. apply (IH (f + 1)); [done | lia].
Qed.

(** What taking frame [f] does to the state, hints apart. *)
Definition takes (p p' : pmm) (f : Z) : Prop :=
  wf p' /\ total_frames p' = total_frames p /\ used_frames p' = used_frames p + 1 /\
  (forall g, 0 <= g -> used p' g = (used p g || (g =? f))%bool).

(** Both passes together cover [start, end): the scan misses no free frame,
    wherever the hint points. *)
Lemma alloc_scan_spec p lo hi hint :
  wf p -> 0 <= lo -> hi <= total_frames p ->
  let '(a, hint', p') := alloc_scan lo hi hint p in
  (p' = p /\ a = 0 /\ hint' = hint /\ forall g, lo <= g < hi -> used p g = true) \/
  (exists f, lo <= f < hi /\ used p f = false /\ a = f * PAGE_SIZE /\ hint' = f + 1 /\
     takes p p' f /\ bitmap_only p p').
Proof.
  intros Hwf Hlo Hhi. unfold alloc_scan.
  set (begin := if (_ && _)%bool then hint else lo).
  assert (Hbegin : lo <= begin /\ (begin = lo \/ begin < hi)) by (unfold begin; case_ifs; lia).
  pose proof (wf_total p Hwf). pose proof (wf_cover p Hwf).
  assert (Htake : forall f, lo <= f < hi -> bitmap_test (bitmap p) f = false ->
    let p' := with_bitmap (bitmap_set (bitmap p) f) (u64 (used_frames p + 1)) p in
    lo <= f < hi /\ used p f = false /\ u64 (f * PAGE_SIZE) = f * PAGE_SIZE /\
    f + 1 = f + 1 /\ takes p p' f /\ bitmap_only p p').
  { intros f Hf Hfree p'. destruct (wf_set p f) as (? & ? & ?); [done | lia | done |].
    unfold takes. split_and!; try done; try lia. apply u64_id. unfold PAGE_SIZE. lia. }
  destruct (first_free (bitmap p) (Z.to_nat (hi - begin)) begin) as [f |] eqn:E1.
  { apply first_free_Some in E1 as [Hr Hf]. right. exists f. apply Htake; [lia | done]. }
  destruct (first_free (bitmap p) (Z.to_nat (begin - lo)) lo) as [f |] eqn:E2.
  { apply first_free_Some in E2 as [Hr Hf]. right. exists f. apply Htake; [lia | done]. }
  left. split_and!; try done. intros g Hg.
  destruct (decide (g < begin)).
  - apply (first_free_None _ _ _ E2). lia.
  - apply (first_free_None _ _ _ E1). lia.
Qed.

Lemma takes_with_hints p p' f h hl : takes p p' f -> takes p (with_hints h hl p') f.
Proof. by intros ([? ? ?] & ? & ? & ?). Qed.

(** A frame freshly taken was free: no frame is ever handed out twice. *)
Lemma pmm_alloc_frame_cases p :
  wf p -> used p 0 = true ->
  let '(a, p') := pmm_alloc_frame p in
  (a = 0 /\ wf p' /\ (forall g, used p' g = used p g) /\
     forall g, 0 <= g < total_frames p -> used p g = true) \/
  (exists f, 0 < f < total_frames p /\ used p f = false /\ a = f * PAGE_SIZE /\ takes p p' f).
Proof.
  intros Hwf H0. unfold pmm_alloc_frame.
  pose proof (alloc_scan_spec p 0 (total_frames p) (next_hint p) Hwf) as H.
  destruct (alloc_scan _ _ _ p) as [[a h] p'].
  destruct H as [(-> & -> & -> & Hfull) | (f & Hf & Hfree & -> & _ & Ht & _)]; [lia.. | |].
  - left. split_and!; try done. by destruct Hwf.
  - right. exists f. split_and!; try done; try lia.
    + destruct (decide (f = 0)) as [-> |]; [congruence | lia].
    + by apply takes_with_hints.
Qed.

Lemma low_limit_spec p : wf p -> low_limit p = Z.min 262144 (total_frames p).
Proof.
  intros _. unfold low_limit. change (LOW_MEMORY_LIMIT / PAGE_SIZE) with 262144. case_ifs; lia.
Qed.

Lemma pmm_alloc_frame_low_cases p :
  wf p -> used p 0 = true ->
  let '(a, p') := pmm_alloc_frame_low p in
  (a = 0 /\ wf p' /\ (forall g, used p' g = used p g) /\
     forall g, 0 <= g < low_limit p -> used p g = true) \/
  (exists f, 0 < f < low_limit p /\ a + PAGE_SIZE <= LOW_MEMORY_LIMIT /\
     used p f = false /\ a = f * PAGE_SIZE /\ takes p p' f).
Proof.
  intros Hwf H0. unfold pmm_alloc_frame_low. pose proof (low_limit_spec p Hwf) as Hl.
  pose proof (alloc_scan_spec p 0 (low_limit p) (next_hint_low p) Hwf) as H.
  destruct (alloc_scan _ _ _ p) as [[a h] p'].
  destruct H as [(-> & -> & -> & Hfull) | (f & Hf & Hfree & -> & _ & Ht & _)]; [lia.. | |].
  - left. split_and!; try done. by destruct Hwf.
  - right. exists f. split_and!; try done; try lia.
    + destruct (decide (f = 0)) as [-> |]; [congruence | lia].
    + unfold PAGE_SIZE, LOW_MEMORY_LIMIT. lia.
    + by apply takes_with_hints.
Qed.

(** ** Runs *)

Lemma first_used_Some bm n f g :
  first_used bm n f = Some g -> f <= g < f + Z.of_nat n /\ bitmap_test bm g = true.
Proof.
  revert f. induction n as [| n IH]; intros f; simpl; [done |].
  destruct (bitmap_test bm f) eqn:E.
  - intros [= <-]. split; [lia | done].
  - intros H. apply IH in H as [? ?]. split; [lia | done].
Qed.

Lemma first_used_None bm n f :
  first_used bm n f = None -> forall g, f <= g < f + Z.of_nat n -> bitmap_test bm g = false.
Proof.
  revert f. induction n as [| n IH]; intros f; simpl; [lia |].
  destruct (bitmap_test bm f) eqn:E; [done |].
  intros H g Hg. destruct (decide (g = f)) as [-> |]; [done |]. apply (IH (f + 1)); [done | lia].
Qed.

(** Setting a run of free bits and adding its length to the counter is taking
    the frames one by one. *)
Lemma set_run_spec n : forall p f,
  wf p -> 0 <= f -> f + Z.of_nat n <= total_frames p ->
  (forall g, f <= g < f + Z.of_nat n -> used p g = false) ->
  let p' := with_bitmap (set_run n f (bitmap p)) (u64 (used_frames p + Z.of_nat n)) p in
  wf p' /\ used_frames p' = used_frames p + Z.of_nat n /\
  (forall g, 0 <= g -> used p' g = (used p g || ((f <=? g) && (g <? f + Z.of_nat n)))%bool).
Proof.
  induction n as [| n IH]; intros p f Hwf Hf Hfit Hfree p'.
  - pose proof (wf_used_bounds p Hwf) as Hb. pose proof (wf_total p Hwf).
    assert (Hu : u64 (used_frames p + Z.of_nat 0) = used_frames p) by (rewrite u64_id; lia).
    unfold p'. rewrite Hu. split_and!.
    + by destruct Hwf.
    + simpl. lia.
    + intros g Hg. replace (f + Z.of_nat 0) with f by lia. unfold used. simpl.
      destruct (Z.leb_spec f g), (Z.ltb_spec g f); simpl; rewrite ?orb_false_r; done || lia.
  - destruct (wf_set p f) as (Hwf1 & Hn1 & Hu1); [done | lia | apply Hfree; lia |].
    set (p1 := with_bitmap (bitmap_set (bitmap p) f) (u64 (used_frames p + 1)) p) in *.
    destruct (IH p1 (f + 1)) as (Hwf2 & Hn2 & Hu2); [done | lia | simpl; lia | |].
    { intros g Hg. rewrite Hu1, Hfree by lia. apply Z.eqb_neq. lia. }
    assert (E : with_bitmap (set_run n (f + 1) (bitmap p1)) (u64 (used_frames p1 + Z.of_nat n)) p1 = p').
    { rewrite Hn1. unfold p'. replace (used_frames p + 1 + Z.of_nat n) with (used_frames p + Z.of_nat (S n)) by lia. done. }
    rewrite E in Hwf2, Hn2, Hu2. split_and!; [done | lia |].
    intros g Hg. rewrite Hu2, Hu1, <- orb_assoc by done. f_equal.
    destruct (Z.eqb_spec g f), (Z.leb_spec (f + 1) g), (Z.ltb_spec g (f + 1 + Z.of_nat n)),
      (Z.leb_spec f g), (Z.ltb_spec g (f + Z.of_nat (S n))); simpl; done || lia.
Qed.

(** A run of [count] free frames starting on a multiple of [align]. *)
Definition free_run (p : pmm) (align limit count s : Z) : Prop :=
  (align | s) /\ 1 <= s /\ s + count <= limit /\ forall g, s <= g < s + count -> used p g = false.

(** What taking the run does. *)
Definition takes_run (p p' : pmm) (s count : Z) : Prop :=
  wf p' /\ used_frames p' = used_frames p + count /\ bitmap_only p p' /\
  (forall g, 0 <= g -> used p' g = (used p g || ((s <=? g) && (g <? s + count)))%bool).

(** Skipping past the frame that blocked a candidate skips no other candidate:
    every aligned start up to that frame has it inside its run. *)
Lemma contiguous_loop_spec p k count limit : forall fuel start,
  wf p -> 0 <= k <= 52 -> 0 < count < 2 ^ 63 -> limit <= total_frames p ->
  (2 ^ k | start) -> 1 <= start < 2 ^ 54 -> limit - start < Z.of_nat fuel ->
  let '(a, p') := contiguous_loop fuel start count (2 ^ k) limit p in
  (a = 0 /\ p' = p /\ forall s, start <= s -> ~ free_run p (2 ^ k) limit count s) \/
  (exists s, free_run p (2 ^ k) limit count s /\ a = s * PAGE_SIZE /\ takes_run p p' s count).
Proof.
  induction fuel as [| fuel IH]; intros start Hwf Hk Hcount Hlim Hdiv Hstart Hfuel;
    pose proof (wf_total p Hwf) as Ht; simpl.
  - left. split_and!; try done. intros s Hs (_ & _ & ? & _). lia.
  - assert (0 < 2 ^ k <= 2 ^ 52) by
      (split; [apply Z.pow_pos_nonneg; lia | apply Z.pow_le_mono_r; lia]).
    rewrite u64_id by lia. destruct (Z.leb_spec (start + count) limit) as [Hfit | Hfit].
    2: { left. split_and!; try done. intros s Hs (_ & _ & ? & _). lia. }
    destruct (first_used (bitmap p) (Z.to_nat count) start) as [b |] eqn:E.
    + apply first_used_Some in E as [Hb Hbu].
      destruct (ALIGN_UP_spec (b + 1) k) as (q & Hq & Hqr); [lia | lia | unfold is_u64; lia |].
      rewrite Hq. specialize (IH (q * 2 ^ k)).
      destruct (contiguous_loop fuel (q * 2 ^ k) count (2 ^ k) limit p) as [a p'].
      destruct IH as [(-> & -> & Hnone) | Hsome]; try done; try lia.
      * by apply Z.divide_factor_r.
      * left. split_and!; try done. intros s Hs Hrun.
        destruct (decide (q * 2 ^ k <= s)); [by apply (Hnone s) |].
        destruct Hrun as ([r Hr] & _ & _ & Hfree).
        destruct (decide (s <= b)).
        -- specialize (Hfree b). unfold used in Hfree. rewrite Hbu in Hfree.
           discriminate Hfree. lia.
        -- subst s. clear - n n0 Hqr H. set (w := 2 ^ k) in *. clearbody w.
           assert (r <= q - 1) by nia. nia.
      * by right.
    + pose proof (first_used_None _ _ _ E) as Hfree. rewrite Z2Nat.id in Hfree by lia.
      destruct (set_run_spec (Z.to_nat count) p start) as (Hw & Hn & Hu); try done; try lia.
      { intros g Hg. apply Hfree. lia. }
      rewrite Z2Nat.id in Hw, Hn, Hu by lia.
      right. exists start. unfold free_run, takes_run. split_and!; try done; try lia.
      apply u64_id. unfold PAGE_SIZE. lia.
Qed.

(** ** Giving frames back *)

Lemma pmm_free_frame_cases p phys :
  wf p -> 0 <= phys ->
  match pmm_free_frame phys p with
  | Panic => phys / PAGE_SIZE < total_frames p /\ used p (phys / PAGE_SIZE) = false
  | Ret p' =>
      (total_frames p <= phys / PAGE_SIZE /\ p' = p) \/
      (phys / PAGE_SIZE < total_frames p /\ used p (phys / PAGE_SIZE) = true /\
       wf p' /\ total_frames p' = total_frames p /\ used_frames p' = used_frames p - 1 /\
       forall g, 0 <= g -> used p' g = (used p g && negb (g =? phys / PAGE_SIZE))%bool)
  end.
Proof.
  intros Hwf Hphys. unfold pmm_free_frame. assert (0 <= phys / PAGE_SIZE) by (unfold PAGE_SIZE; zlia).
  destruct (phys / PAGE_SIZE >=? total_frames p) eqn:E1; bool_to_prop; [left; split; [lia | done] |].
  destruct (bitmap_test (bitmap p) (phys / PAGE_SIZE)) eqn:E2; simpl; [| done].
  right. destruct (wf_clear p (phys / PAGE_SIZE)) as ([? ? ?] & ? & ?); [done | lia | done |].
  done.
Qed.

(** ** Booting *)

Section boot_facts.
Context (kernel_start kernel_end : Z) (mbi : multiboot_info).

(** What the loader and the linker guarantee: the fields have their C widths,
    nothing wraps around the top of the address space. *)
Record boot_ok : Prop := {
  bo_kernel : 0 <= kernel_start /\ kernel_start <= kernel_end < 2 ^ 32;
  bo_self : 0 <= mb_self mbi < 2 ^ 48;
  bo_mmap : 0 <= mmap_addr mbi /\ 0 <= mmap_length mbi /\ mmap_addr mbi + mmap_length mbi < 2 ^ 32;
  bo_mods : 0 <= mods_addr mbi < 2 ^ 32 /\ 0 <= mods_count mbi < 2 ^ 32;
  bo_mod : forall i, 0 <= mod_start (mods mbi i) < 2 ^ 32 /\ 0 <= mod_end (mods mbi i) < 2 ^ 32;
  bo_entry : forall a, let e := mmap_at mbi a in
    0 <= e_size e < 2 ^ 32 /\ 0 <= e_addr e /\ 0 <= e_len e /\ e_addr e + e_len e < 2 ^ 62;
  bo_upper : 0 <= mem_upper mbi;
}.
Hypothesis Hboot : boot_ok.

(** Everything that must survive being booted, in the order the code looks. *)
Definition obstacles : list (Z * Z) :=
  [(kernel_start, kernel_end); (mb_self mbi, mb_self mbi + sizeof_multiboot_info)] ++
  (if has_flag mbi MB_FLAG_MMAP
   then [(mmap_addr mbi, mmap_addr mbi + mmap_length mbi)] else []) ++
  (if has_flag mbi MB_FLAG_MODS
   then (mods_addr mbi, mods_addr mbi + mods_count mbi * sizeof_multiboot_module) ::
        map (fun i => (mod_start (mods mbi i), mod_end (mods mbi i))) (seqZ 0 (mods_count mbi))
   else []).

Definition hits (addr len : Z) (r : Z * Z) : bool := overlaps addr len r.1 r.2.

Lemma clear_step_fold addr len :
  clear_step kernel_start kernel_end mbi addr len =
  foldl (fun moved r => if hits addr len r then r.2 else moved) addr obstacles.
Proof.
  unfold clear_step, obstacles. rewrite (u64_id (mb_self mbi + _)); last first.
  { pose proof (bo_self Hboot). unfold sizeof_multiboot_info. lia. }
  rewrite !foldl_app. simpl.
  destruct (has_flag mbi MB_FLAG_MMAP), (has_flag mbi MB_FLAG_MODS); simpl;
    rewrite ?foldl_fmap; done.
Qed.

Lemma obstacle_bounds r : r ∈ obstacles -> 0 <= r.1 < 2 ^ 49 /\ 0 <= r.2 < 2 ^ 49.
Proof.
  destruct Hboot as [? ? ? ? Hm ? _]. unfold obstacles, sizeof_multiboot_info, sizeof_multiboot_module.
  rewrite !elem_of_app, !elem_of_cons.
  intros [[-> | [-> | Hn]] | [Hr | Hr]]; simpl; try lia.
  - by apply not_elem_of_nil in Hn.
  - case_if; [| by apply not_elem_of_nil in Hr].
    apply list_elem_of_singleton in Hr as ->. simpl. lia.
  - case_if; [| by apply not_elem_of_nil in Hr].
    apply elem_of_cons in Hr as [-> | Hr]; simpl; [lia |].
    apply list_elem_of_fmap in Hr as (i & -> & _). simpl. specialize (Hm i). lia.
Qed.

Lemma length_obstacles : (length obstacles <= 4 + Z.to_nat (mods_count mbi))%nat.
Proof.
  unfold obstacles. rewrite !length_app.
  destruct (has_flag mbi MB_FLAG_MMAP), (has_flag mbi MB_FLAG_MODS); simpl;
    rewrite ?length_map, ?length_seqZ; lia.
Qed.

(** The last obstruction wins; with none, nothing moves. *)
Lemma fold_hits addr len l m :
  (foldl (fun moved r => if hits addr len r then r.2 else moved) m l = m /\
     Forall (fun r => hits addr len r = false) l) \/
  (exists r, r ∈ l /\ hits addr len r = true /\
     foldl (fun moved r => if hits addr len r then r.2 else moved) m l = r.2).
Proof.
  revert m. induction l as [| r l IH]; intros m; simpl; [by left |].
  destruct (hits addr len r) eqn:E.
  - right. destruct (IH r.2) as [[-> _] | (r' & Hr' & Hh & ->)].
    + exists r. split; [by left | done].
    + exists r'. split; [by right | done].
  - destruct (IH m) as [[-> Hf] | (r' & Hr' & Hh & ->)].
    + left. split; [done | by constructor].
    + right. exists r'. split; [by right | done].
Qed.

(** [[addr, addr+len)] meets none of them. *)
Definition clear_of (addr len : Z) : Prop := Forall (fun r => hits addr len r = false) obstacles.

Lemma clear_step_cases addr len :
  (clear_step kernel_start kernel_end mbi addr len = addr /\ clear_of addr len) \/
  (exists r, r ∈ obstacles /\ addr < r.2 /\
     clear_step kernel_start kernel_end mbi addr len = r.2).
Proof.
  rewrite clear_step_fold. destruct (fold_hits addr len obstacles addr) as [[? ?] | (r & Hr & Hh & ->)].
  - by left.
  - right. exists r. split_and!; try done. unfold hits, overlaps in Hh. bool_to_prop. lia.
Qed.

(** Obstructions still ahead of [addr]: what every turn diminishes. *)
Definition ahead (addr : Z) : Z := countb (fun r => addr <? r.2) obstacles.

Lemma countb_lt {A} (p q : A -> bool) l x :
  x ∈ l -> p x = true -> q x = false -> (forall y, q y = true -> p y = true) ->
  countb q l < countb p l.
Proof.
  intros Hx Hp Hq Himp. induction l as [| y l IH]; [by apply not_elem_of_nil in Hx |].
  rewrite !countb_cons.
  assert (Hle : countb q l <= countb p l).
  { clear - Himp. induction l as [| y l IH]; [done |]. rewrite !countb_cons.
    specialize (Himp y). destruct (q y), (p y); simpl; try lia; by discriminate Himp. }
  apply elem_of_cons in Hx as [<- | Hx].
  - rewrite Hp, Hq. simpl. lia.
  - specialize (IH Hx). specialize (Himp y). destruct (q y), (p y); simpl; try lia;
    by discriminate Himp.
Qed.

Lemma clear_of_boot_data_spec len : forall fuel addr,
  0 <= addr < 2 ^ 62 -> ahead addr < Z.of_nat fuel ->
  exists a, clear_of_boot_data kernel_start kernel_end fuel mbi addr len = Some a /\
    addr <= a /\ a < 2 ^ 62 /\ clear_of a len /\ (a = addr \/ (PAGE_SIZE | a)).
Proof.
  induction fuel as [| fuel IH]; intros addr Ha Hf.
  { pose proof (countb_bounds (fun r : Z * Z => addr <? r.2) obstacles). unfold ahead in Hf. lia. }
  simpl. destruct (clear_step_cases addr len) as [[-> Hc] | (r & Hr & Hlt & ->)].
  - rewrite Z.eqb_refl. exists addr. split_and!; try done; lia.
  - pose proof (obstacle_bounds r Hr). destruct (Z.eqb_spec r.2 addr); [lia |].
    rewrite ALIGN_UP_page by lia. set (a1 := (r.2 + 4095) / 4096 * 4096).
    assert (r.2 <= a1 < r.2 + 4096) by (unfold a1; zlia).
    assert (ahead a1 < ahead addr).
    { apply (countb_lt _ _ obstacles r); [done | lia.. |]. intros y Hy. bool_to_prop. lia. }
    destruct (IH a1) as (a & Hsome & ? & ? & ? & Hal); [lia.. |].
    exists a. split_and!; try done; try lia. right.
    destruct Hal as [-> | ?]; [| done]. exists ((r.2 + 4095) / 4096). unfold a1, PAGE_SIZE. lia.
Qed.

Lemma clear_fuel_enough addr : ahead addr < Z.of_nat (clear_fuel mbi).
Proof.
  pose proof (countb_bounds (fun r : Z * Z => addr <? r.2) obstacles).
  pose proof length_obstacles. pose proof (bo_mods Hboot).
  unfold ahead, clear_fuel, Zlen in *. lia.
Qed.

Lemma clear_of_boot_data_ok addr len :
  0 <= addr < 2 ^ 62 ->
  exists a, clear_of_boot_data kernel_start kernel_end (clear_fuel mbi) mbi addr len = Some a /\
    addr <= a < 2 ^ 62 /\ clear_of a len /\ (a = addr \/ (PAGE_SIZE | a)).
Proof.
  intros Ha. destruct (clear_of_boot_data_spec len (clear_fuel mbi) addr) as (a & ? & ? & ? & ? & ?);
    [done | apply clear_fuel_enough |]. by exists a.
Qed.

Lemma clear_of_boot_data_idem addr len fuel :
  clear_of addr len -> (0 < fuel)%nat ->
  clear_of_boot_data kernel_start kernel_end fuel mbi addr len = Some addr.
Proof.
  intros Hc Hf. destruct fuel; [lia |]. simpl.
  destruct (clear_step_cases addr len) as [[-> _] | (r & Hr & Hlt & Hs)]; [by rewrite Z.eqb_refl |].
  exfalso. rewrite clear_step_fold in Hs.
  destruct (fold_hits addr len obstacles addr) as [[E _] | (r' & Hr' & Hh & _)].
  - rewrite E in Hs. lia.
  - unfold clear_of in Hc. rewrite Forall_forall in Hc. rewrite Hc in Hh; done.
Qed.

(** Two turns settle a region: more fuel changes nothing, and a span found is
    inside the region and clear of the boot data. *)
Lemma region_search_spec addr len region_end n :
  0 <= addr < 2 ^ 61 -> 0 <= len < 2 ^ 61 -> (PAGE_SIZE | addr) ->
  region_search kernel_start kernel_end (2 + n) mbi addr len region_end =
    region_search kernel_start kernel_end 2 mbi addr len region_end /\
  forall a, region_search kernel_start kernel_end 2 mbi addr len region_end = Some a ->
    addr <= a /\ a + len <= region_end /\ clear_of a len /\ (PAGE_SIZE | a).
Proof.
  intros Ha Hl Hal. simpl.
  destruct (clear_of_boot_data_ok addr len) as (c & -> & Hc & Hclear & Hor); [lia |].
  rewrite (u64_id (addr + len)) by lia.
  destruct (Z.leb_spec (addr + len) region_end); [| by split].
  destruct (Z.eqb_spec c addr) as [-> | Hne].
  { split; [done |]. intros a [= <-]. split_and!; done. }
  pose proof (bo_mods Hboot).
  rewrite (clear_of_boot_data_idem c len) by (done || (unfold clear_fuel; lia)).
  rewrite Z.eqb_refl, (u64_id (c + len)) by lia.
  destruct (Z.leb_spec (c + len) region_end); split; try done.
  intros a [= <-]. split_and!; try done; try lia. by destruct Hor.
Qed.

Lemma mmap_walk_elem fuel cur e :
  e ∈ mmap_walk fuel mbi cur -> exists a, e = mmap_at mbi a.
Proof.
  revert cur. induction fuel as [| fuel IH]; intros cur; simpl.
  - by intros H%not_elem_of_nil.
  - case_if; [| by intros H%not_elem_of_nil].
    rewrite elem_of_cons. intros [-> | H]; [by eexists | by eapply IH].
Qed.

(** The walk over the memory map ends by itself: more fuel meets no more
    entries. *)
Lemma mmap_walk_fuel n fuel cur :
  mmap_addr mbi <= cur < 2 ^ 40 -> mmap_end mbi - cur < 4 * Z.of_nat fuel ->
  mmap_walk (fuel + n) mbi cur = mmap_walk fuel mbi cur.
Proof.
  revert cur. induction fuel as [| fuel IH]; intros cur Hcur Hf.
  - destruct n; simpl; [done |]. destruct (Z.ltb_spec cur (mmap_end mbi)); [lia | done].
  - simpl. destruct (Z.ltb_spec cur (mmap_end mbi)); [| done]. f_equal.
    destruct (bo_entry Hboot cur) as [Hs _]. pose proof (bo_mmap Hboot).
    unfold mmap_end in *. rewrite u32_id in * by lia.
    apply IH; unfold mmap_next; rewrite u64_id by lia; lia.
Qed.

Definition entry_ok (e : multiboot_mmap_entry) : Prop :=
  0 <= e_addr e /\ 0 <= e_len e /\ e_addr e + e_len e < 2 ^ 62.

Lemma mmap_entries_ok : Forall entry_ok (mmap_entries mbi).
Proof.
  apply Forall_forall. intros e He. apply mmap_walk_elem in He as [a ->].
  destruct (bo_entry Hboot a) as (_ & ? & ? & ?). done.
Qed.

(** Where a span found from a memory map lies. *)
Definition span_in_region (a len : Z) (es : list multiboot_mmap_entry) : Prop :=
  exists e, e ∈ es /\ e_type e = MB_MEMORY_AVAILABLE /\
    e_addr e <= a /\ a + len <= e_addr e + e_len e /\ a + len <= FBCON_APERTURE /\ kernel_end <= a.

Lemma find_span_in_spec len es :
  Forall entry_ok es -> 0 <= len < 2 ^ 61 ->
  find_span_in kernel_start kernel_end mbi len es = 0 \/
  (clear_of (find_span_in kernel_start kernel_end mbi len es) len /\
   (PAGE_SIZE | find_span_in kernel_start kernel_end mbi len es) /\
   span_in_region (find_span_in kernel_start kernel_end mbi len es) len es).
Proof.
  intros Hes Hlen. induction Hes as [| e es (He1 & He2 & He3) Hes IH]; cbn [find_span_in]; [by left |].
  assert (Hskip : find_span_in kernel_start kernel_end mbi len es = 0 \/
    (clear_of (find_span_in kernel_start kernel_end mbi len es) len /\
     (PAGE_SIZE | find_span_in kernel_start kernel_end mbi len es) /\
     span_in_region (find_span_in kernel_start kernel_end mbi len es) len (e :: es))).
  { destruct IH as [-> | (? & ? & e' & ? & ?)]; [by left | right; split_and!; try done].
    exists e'. split; [by right | done]. }
  destruct (negb _ || negb _)%bool eqn:E; [done |]. bool_to_prop.
  rewrite Z.shiftr_div_pow2 in * by lia. change (2 ^ 32) with 4294967296 in *.
  pose proof (bo_kernel Hboot) as Hk.
  assert (Hstart : kernel_end <= region_start kernel_end e /\ e_addr e <= region_start kernel_end e /\
    region_start kernel_end e < 2 ^ 61 /\ (PAGE_SIZE | region_start kernel_end e)).
  { assert (e_addr e < 2 ^ 32) by (clear - He1 H0; zlia). unfold region_start.
    set (x := if e_addr e <? kernel_end then kernel_end else e_addr e).
    assert (e_addr e <= x < 2 ^ 32 /\ kernel_end <= x) as [? ?] by (unfold x; case_ifs; lia).
    destruct (ALIGN_UP_page_bounds x) as [? ?]; [lia |]. split_and!; try done; lia. }
  destruct (region_search _ _ 2 mbi _ len _) as [a |] eqn:Es; [| done]. right.
  destruct (region_search_spec (region_start kernel_end e) len (region_limit e) 0) as [_ Hr];
    [lia | done | tauto |].
  destruct (Hr a Es) as (? & Hfit & ? & ?). split_and!; try done. exists e.
  assert (Hlim : region_limit e <= e_addr e + e_len e /\ region_limit e <= FBCON_APERTURE).
  { unfold region_limit. rewrite u64_id by lia. case_ifs; lia. }
  split_and!; try done; try lia. by left.
Qed.

Lemma find_span_spec len :
  0 <= len < 2 ^ 61 ->
  let span := find_span kernel_start kernel_end mbi len in
  span <> 0 ->
  0 < span < 2 ^ 62 /\ clear_of span len /\ (PAGE_SIZE | span) /\
  (has_flag mbi MB_FLAG_MMAP = true -> span_in_region span len (mmap_entries mbi)).
Proof.
  intros Hlen span Hne. unfold span, find_span in *. pose proof (bo_kernel Hboot) as Hk.
  destruct (has_flag mbi MB_FLAG_MMAP); cbn [negb] in *.
  - destruct (find_span_in_spec len (mmap_entries mbi) mmap_entries_ok Hlen) as [? | (Hc & Hd & Hr)];
      [done |]. split_and!; try done; destruct Hr as (e & He & _ & ? & ? & Hap & _).
    + pose proof mmap_entries_ok as Hok. rewrite Forall_forall in Hok.
      destruct (Hok e He) as (? & ? & ?). lia.
    + unfold FBCON_APERTURE in Hap. lia.
  - destruct (ALIGN_UP_page_bounds kernel_end) as [? ?]; [lia |].
    destruct (clear_of_boot_data_ok (ALIGN_UP kernel_end PAGE_SIZE) len) as (a & E & ? & ? & Ha); [lia |].
    rewrite E in *. cbn [default from_option id] in *. split_and!; try done; try lia.
    by destruct Ha as [-> |].
Qed.

(** The machine's memory, frame by frame, and what is taken back from it. *)
Definition available (f : Z) : bool :=
  (has_flag mbi MB_FLAG_MMAP &&
   existsb (fun e => (e_type e =? MB_MEMORY_AVAILABLE) &&
                     frame_inside (e_addr e) (e_addr e + e_len e) f) (mmap_entries mbi))%bool.

Definition boot_regions (span heap_end : Z) : list (Z * Z) :=
  (0, 0x100000) :: (kernel_start, kernel_end) :: (span, heap_end) :: tail obstacles.

Definition touched (rs : list (Z * Z)) (f : Z) : bool :=
  existsb (fun r => frame_touches r.1 r.2 f) rs.

Lemma reserve_boot_fold span heap p :
  0 <= heap < 2 ^ 63 ->
  reserve_boot kernel_start kernel_end mbi span heap p =
  foldl (fun p r => pmm_reserve_range r.1 r.2 p) p (boot_regions span (heap + KHEAP_SIZE)).
Proof.
  intros Hheap. pose proof (bo_self Hboot). pose proof (bo_mmap Hboot).
  unfold reserve_boot, boot_regions, obstacles, sizeof_multiboot_info.
  rewrite (u64_id (mb_self mbi + _)) by lia.
  rewrite (u64_id (heap + _)) by (unfold KHEAP_SIZE, KHEAP_MB; lia).
  rewrite (u32_id (mmap_addr mbi + _)) by lia.
  cbn [tail app foldl fst snd]. rewrite foldl_app.
  destruct (has_flag mbi MB_FLAG_MMAP), (has_flag mbi MB_FLAG_MODS);
    cbn [foldl fst snd]; rewrite ?foldl_fmap; done.
Qed.

Lemma reserve_all_spec rs : forall p,
  wf p -> Forall (fun r => 0 <= r.1 < 2 ^ 63 /\ 0 <= r.2 < 2 ^ 63) rs ->
  let p' := foldl (fun p r => pmm_reserve_range r.1 r.2 p) p rs in
  wf p' /\ bitmap_only p p' /\
  forall f, 0 <= f < total_frames p -> used p' f = (used p f || touched rs f)%bool.
Proof.
  induction rs as [| r rs IH]; intros p Hwf Hrs; cbn [foldl].
  - split_and!; auto with wos. intros. by rewrite orb_false_r.
  - apply Forall_cons in Hrs as [Hr Hrs].
    destruct (pmm_reserve_range_spec p r.1 r.2) as (Hw & Hb & Hu); [done | lia | lia |].
    destruct (IH _ Hw Hrs) as (Hw' & Hb' & Hu'). split_and!; [done | by eapply bitmap_only_trans |].
    intros f Hf. rewrite Hu' by (by rewrite (bitmap_only_total _ _ Hb)).
    rewrite Hu by done. unfold touched. simpl. by rewrite orb_assoc.
Qed.

Lemma free_available_spec p :
  wf p -> (forall f, 0 <= f < total_frames p -> used p f = true) ->
  let p' := free_available mbi p in
  wf p' /\ bitmap_only p p' /\
  forall f, 0 <= f < total_frames p -> used p' f = negb (available f).
Proof.
  intros Hwf Hall. unfold free_available, available.
  destruct (has_flag mbi MB_FLAG_MMAP); [| split_and!; auto with wos].
  pose proof mmap_entries_ok as Hok. revert Hok. generalize (mmap_entries mbi) as es. intros es Hok.
  set (step := fun p e => if e_type e =? MB_MEMORY_AVAILABLE
                          then free_range (e_addr e) (u64 (e_addr e + e_len e)) p else p).
  enough (H : forall q, wf q -> let q' := foldl step q es in
    wf q' /\ bitmap_only q q' /\ forall f, 0 <= f < total_frames q ->
    used q' f = (used q f && negb (existsb (fun e => (e_type e =? MB_MEMORY_AVAILABLE) &&
      frame_inside (e_addr e) (e_addr e + e_len e) f) es))%bool).
  { destruct (H p Hwf) as (? & ? & Hu). split_and!; try done.
    intros f Hf. rewrite Hu, Hall by done. done. }
  induction Hok as [| e es (He1 & He2 & He3) Hok IH]; intros q Hq; cbn [foldl].
  { split_and!; auto with wos. intros. by rewrite andb_true_r. }
  assert (Hstep : wf (step q e) /\ bitmap_only q (step q e) /\
    forall f, 0 <= f < total_frames q -> used (step q e) f =
      (used q f && negb ((e_type e =? MB_MEMORY_AVAILABLE) &&
                         frame_inside (e_addr e) (e_addr e + e_len e) f))%bool).
  { unfold step. destruct (e_type e =? MB_MEMORY_AVAILABLE).
    - rewrite u64_id by lia. apply free_range_spec; [done | lia | lia].
    - split_and!; auto with wos. intros. by rewrite andb_true_r. }
  destruct Hstep as (Hw & Hb & Hu). destruct (IH _ Hw) as (Hw' & Hb' & Hu').
  split_and!; [done | by eapply bitmap_only_trans |]. intros f Hf.
  rewrite Hu' by (by rewrite (bitmap_only_total _ _ Hb)). rewrite Hu by done.
  simpl. by rewrite negb_orb, andb_assoc.
Qed.

Lemma highest_address_bounds : 0 <= highest_address mbi < 2 ^ 62.
Proof.
  unfold highest_address. pose proof mmap_entries_ok as Hok. revert Hok.
  generalize (mmap_entries mbi) as es. intros es Hok.
  set (h := if has_flag mbi MB_FLAG_MMAP then _ else 0).
  assert (Hh : 0 <= h < 2 ^ 62).
  { unfold h. destruct (has_flag mbi MB_FLAG_MMAP); [| lia].
    match goal with |- 0 <= foldl ?f _ _ < _ =>
      enough (H : forall acc, 0 <= acc < 2 ^ 62 -> 0 <= foldl f acc es < 2 ^ 62) by (apply H; lia)
    end.
    induction Hok as [| e es (? & ? & ?) Hok IH]; intros acc Hacc; cbn [foldl]; [done |].
    apply IH. rewrite u64_id by lia. case_ifs; lia. }
  destruct (_ && _)%bool; [| done]. pose proof (u32_range (0x100000 + u32 (mem_upper mbi * 1024))). lia.
Qed.

(** The state the sweep starts from: every frame used. *)
Definition all_used (total words : Z) : pmm :=
  {| bitmap := replicate (Z.to_nat words) (u64 (Z.lnot 0));
     bitmap_frames := total; bitmap_words := words; total_frames := total;
     usable_frames := 0; hole_frames := 0; used_frames := total;
     reserved_frames := 0; heap_base := 0; next_hint := 0; next_hint_low := 0 |}.

Lemma all_used_spec total words :
  0 <= total < 2 ^ 52 -> total <= 64 * words ->
  wf (all_used total words) /\
  forall f, 0 <= f < total -> used (all_used total words) f = true.
Proof.
  intros Ht Hw.
  assert (Hu : forall f, 0 <= f < total -> used (all_used total words) f = true).
  { intros f Hf. unfold used. rewrite bitmap_test_testbit by lia. simpl.
    rewrite lookup_total_replicate_2 by zlia.
    change (u64 (Z.lnot 0)) with (Z.ones 64). apply Z.ones_spec_low. zlia. }
  split; [| done]. split; simpl.
  - done.
  - unfold Zlen. rewrite length_replicate. lia.
  - symmetry. replace total with (Zlen (frames (all_used total words))) at 3.
    + apply countb_all. intros f Hf. apply elem_of_seqZ in Hf. simpl in Hf. apply Hu. lia.
    + unfold Zlen, frames. rewrite length_seqZ. simpl. lia.
Qed.

End boot_facts.

(** How big the bitmap is for [total] frames. *)
Definition bitmap_size (total : Z) : Z := ALIGN_UP (u64 (ALIGN_UP total 64 / 64 * 8)) PAGE_SIZE.

Lemma bitmap_size_bounds total :
  0 <= total < 2 ^ 52 ->
  total <= 64 * (ALIGN_UP total 64 / 64) /\ 0 <= bitmap_size total < 2 ^ 51.
Proof.
  intros Ht. unfold bitmap_size.
  assert (E : ALIGN_UP total 64 = (total + 63) / 64 * 64).
  { change 64 with (2 ^ 6) at 1. rewrite ALIGN_UP_pow2 by (unfold is_u64; lia). done. }
  rewrite E. set (w := (total + 63) / 64 * 64 / 64).
  assert (Hw : total <= 64 * w /\ 0 <= w < 2 ^ 47) by (unfold w; zlia).
  rewrite u64_id by lia. destruct (ALIGN_UP_page_bounds (w * 8)) as [? _]; lia.
Qed.

(** What [pmm_init] leaves behind, when it does not panic. *)
Lemma pmm_init_spec kernel_start kernel_end mbi p :
  boot_ok kernel_start kernel_end mbi ->
  pmm_init kernel_start kernel_end mbi = Ret p ->
  let size := bitmap_size (total_frames p) in
  let span := heap_base p - size in
  let avail := available mbi in
  wf p /\ total_frames p = highest_address mbi / PAGE_SIZE /\
  0 < span /\ clear_of kernel_start kernel_end mbi span (size + KHEAP_SIZE) /\
  heap_base p + KHEAP_SIZE <= FBCON_APERTURE /\
  (forall f, 0 <= f < total_frames p ->
     used p f = (negb (avail f) ||
       touched (boot_regions kernel_start kernel_end mbi span (heap_base p + KHEAP_SIZE)) f)%bool) /\
  usable_frames p = countb avail (frames p) /\
  reserved_frames p = used_frames p - hole_frames p /\
  hole_frames p = total_frames p - usable_frames p.
Proof.
  intros Hboot Hinit. unfold pmm_init in Hinit.
  pose proof (highest_address_bounds kernel_start kernel_end mbi Hboot) as Hhi.
  set (total := highest_address mbi / PAGE_SIZE) in *.
  assert (Ht : 0 <= total < 2 ^ 52) by (unfold total, PAGE_SIZE; zlia).
  destruct (bitmap_size_bounds total Ht) as [Hcov Hsz].
  fold (bitmap_size total) in Hinit. set (words := ALIGN_UP total 64 / 64) in *.
  fold (all_used total words) in Hinit.
  rewrite (u64_id (bitmap_size total + KHEAP_SIZE)) in Hinit by (unfold KHEAP_SIZE, KHEAP_MB; lia).
  destruct (Z.eqb_spec (find_span kernel_start kernel_end mbi (bitmap_size total + KHEAP_SIZE)) 0)
    as [| Hne]; [done |].
  destruct (find_span_spec kernel_start kernel_end mbi Hboot (bitmap_size total + KHEAP_SIZE))
    as (Hspan & Hclear & _ & _); [unfold KHEAP_SIZE, KHEAP_MB; lia | done |].
  set (span := find_span _ _ _ _) in *. rewrite (u64_id (span + bitmap_size total)) in Hinit by lia.
  destruct (all_used_spec total words Ht Hcov) as [Hw0 Hu0].
  destruct (free_available_spec kernel_start kernel_end mbi Hboot _ Hw0 Hu0) as (Hw1 & Hb1 & Hu1).
  set (p1 := free_available mbi (all_used total words)) in *.
  pose proof (bitmap_only_total _ _ Hb1) as Ht1. simpl in Ht1.
  set (p2 := with_figures _ _ _ _ p1) in Hinit.
  assert (Hw2 : wf p2) by (by destruct Hw1).
  rewrite (reserve_boot_fold kernel_start kernel_end mbi Hboot) in Hinit by lia.
  destruct (reserve_all_spec (boot_regions kernel_start kernel_end mbi span
    (span + bitmap_size total + KHEAP_SIZE)) p2 Hw2) as (Hw3 & Hb3 & Hu3).
  { unfold boot_regions, KHEAP_SIZE, KHEAP_MB. pose proof (bo_kernel _ _ _ Hboot).
    apply Forall_forall. intros r Hr. rewrite !elem_of_cons in Hr.
    destruct Hr as [-> | [-> | [-> | Hr]]]; cbn [fst snd]; [lia.. |].
    destruct (obstacle_bounds _ _ mbi Hboot r); [by right | lia]. }
  set (p3 := foldl _ p2 _) in *. rewrite (u64_id (span + bitmap_size total + KHEAP_SIZE)) in Hinit
    by (unfold KHEAP_SIZE, KHEAP_MB; lia).
  destruct (_ >? FBCON_APERTURE) eqn:Hfit; [done |]. bool_to_prop.
  assert (Hhole : used_frames p1 = total - countb (available mbi) (seqZ 0 total)).
  { rewrite (wf_used _ Hw1). unfold frames. rewrite Ht1.
    rewrite (countb_ext _ (fun f => negb (available mbi f))).
    - rewrite countb_negb. unfold Zlen. rewrite length_seqZ. lia.
    - intros f Hf. apply elem_of_seqZ in Hf. apply Hu1. simpl. lia. }
  pose proof (countb_bounds (available mbi) (seqZ 0 total)) as Hcb.
  unfold Zlen in Hcb. rewrite length_seqZ in Hcb.
  pose proof (bitmap_only_total _ _ Hb3) as Ht3. simpl in Ht3.
  assert (Hmono : used_frames p1 <= used_frames p3).
  { rewrite (wf_used _ Hw3), (wf_used _ Hw1). unfold frames. rewrite Ht3, Ht1.
    apply countb_mono. intros f Hf Hu. apply elem_of_seqZ in Hf. rewrite Hu3 by (simpl; lia).
    change (used p2 f) with (used p1 f). by rewrite Hu. }
  pose proof (wf_used_bounds _ Hw3) as Hb3'. rewrite Ht3, Ht1 in Hb3'.
  assert (Hus : usable_frames p3 = u64 (total - used_frames p1)) by (by rewrite Hb3).
  injection Hinit as <-. cbv zeta. clearbody p3.
  replace (total_frames (with_figures _ _ _ _ p3)) with total by (simpl; lia).
  cbn [heap_base with_figures]. rewrite Z.add_simpl_r. split_and!; try done; try lia.
  - by destruct Hw3.
  - intros f Hf. change (used (with_figures _ _ _ _ p3) f) with (used p3 f).
    rewrite Hu3 by (simpl; lia). f_equal. apply Hu1. simpl. lia.
  - cbn. rewrite Hus. unfold frames. cbn. rewrite Ht3, Ht1, Hhole, u64_id by lia. lia.
  - cbn. apply u64_id. lia.
  - cbn. rewrite Hus, u64_id by lia. lia.
Qed.

Lemma pmm_release_range_spec p start stop :
  wf p -> 0 <= start < 2 ^ 63 -> 0 <= stop < 2 ^ 63 ->
  let p' := pmm_release_range start stop p in
  wf p' /\ total_frames p' = total_frames p /\
  (forall g, 0 <= g < total_frames p ->
     used p' g = (used p g && negb (frame_inside start stop g))%bool).
Proof.
  intros Hwf Hs He p'. destruct (free_range_spec p start stop Hwf Hs He) as (Hw & Hb & Hu).
  change p' with (with_figures (usable_frames (free_range start stop p))
    (hole_frames (free_range start stop p)) (reserved_frames p') (heap_base (free_range start stop p))
    (free_range start stop p)).
  split_and!; [by destruct Hw | exact (bitmap_only_total _ _ Hb) | done].
Qed.

(** ** Runs of the allocator

    One step is one call, with the arguments the callers pass: addresses of
    frames other than frame 0, alignments that are powers of two. *)
Inductive pmm_step : pmm -> pmm -> Prop :=
| step_alloc p : pmm_step p (pmm_alloc_frame p).2
| step_alloc_low p : pmm_step p (pmm_alloc_frame_low p).2
| step_contiguous p count k :
    0 < count < 2 ^ 63 -> 0 <= k <= 52 ->
    pmm_step p (pmm_alloc_contiguous count (2 ^ k) p).2
| step_free p phys p' :
    PAGE_SIZE <= phys -> pmm_free_frame phys p = Ret p' -> pmm_step p p'
| step_reserve p start stop :
    0 <= start < 2 ^ 63 -> 0 <= stop < 2 ^ 63 -> pmm_step p (pmm_reserve_range start stop p)
| step_release p start stop :
    PAGE_SIZE <= start < 2 ^ 63 -> 0 <= stop < 2 ^ 63 -> pmm_step p (pmm_release_range start stop p).

Definition pmm_inv (p : pmm) : Prop := wf p /\ 0 < total_frames p /\ used p 0 = true.

Lemma pmm_alloc_contiguous_cases p count k :
  wf p -> 0 < count < 2 ^ 63 -> 0 <= k <= 52 ->
  let '(a, p') := pmm_alloc_contiguous count (2 ^ k) p in
  (a = 0 /\ p' = p /\ forall s, ~ free_run p (2 ^ k) (low_limit p) count s) \/
  (exists s, free_run p (2 ^ k) (low_limit p) count s /\ a = s * PAGE_SIZE /\ takes_run p p' s count).
Proof.
  intros Hwf Hcount Hk. unfold pmm_alloc_contiguous. destruct (Z.eqb_spec count 0); [lia |].
  assert (Hpow : 0 < 2 ^ k <= 2 ^ 52) by
    (split; [apply Z.pow_pos_nonneg; lia | apply Z.pow_le_mono_r; lia]).
  destruct (Z.ltb_spec (2 ^ k) 1); [lia |].
  destruct (ALIGN_UP_spec 1 k) as (q & Hq & Hqr); [lia | lia | unfold is_u64; lia |]. rewrite Hq.
  pose proof (low_limit_spec p Hwf). pose proof (wf_total p Hwf).
  pose proof (contiguous_loop_spec p k count (low_limit p) (S (Z.to_nat (low_limit p))) (q * 2 ^ k))
    as Hloop.
  destruct (contiguous_loop _ _ _ _ _ p) as [a p'].
  destruct Hloop as [(-> & -> & Hnone) | ?]; try done; try lia.
  - by apply Z.divide_factor_r.
  - left. split_and!; try done. intros s Hrun. apply (Hnone s); [| done].
    destruct Hrun as ([r Hr] & Hs1 & _). clear - Hr Hqr Hs1 Hpow. subst s.
    set (w := 2 ^ k) in *. clearbody w. assert (1 <= r) by nia. assert (q <= 1) by nia. nia.
  - by right.
Qed.

Lemma takes_inv p p' f : pmm_inv p -> takes p p' f -> pmm_inv p'.
Proof.
  intros (? & ? & H0) (? & E & _ & Hu). unfold pmm_inv. rewrite E, Hu, H0; [done | lia].
Qed.

Lemma pmm_step_inv p p' : pmm_step p p' -> pmm_inv p -> pmm_inv p' /\ total_frames p' = total_frames p.
Proof.
  intros Hstep Hinv. pose proof Hinv as (Hwf & Ht & H0).
  destruct Hstep as [p | p | p count k Hc Hk | p phys p' Hphys Hf | p start stop Hs He | p start stop Hs He].
  - pose proof (pmm_alloc_frame_cases p Hwf H0) as H. unfold pmm_alloc_frame in *.
    pose proof (alloc_scan_spec p 0 (total_frames p) (next_hint p) Hwf) as Hs.
    destruct (alloc_scan _ _ _ p) as [[a h] q]. simpl in *.
    destruct Hs as [(-> & _) | (f & _ & _ & _ & _ & Hk & _)]; [lia.. | by destruct Hwf |].
    split; [apply (takes_inv p _ f Hinv); by apply takes_with_hints | apply Hk].
  - pose proof (low_limit_spec p Hwf).
    pose proof (alloc_scan_spec p 0 (low_limit p) (next_hint_low p) Hwf) as Hs.
    unfold pmm_alloc_frame_low. destruct (alloc_scan _ _ _ p) as [[a h] q]. simpl.
    destruct Hs as [(-> & _) | (f & _ & _ & _ & _ & Hk & _)]; [lia.. | by destruct Hwf |].
    split; [apply (takes_inv p _ f Hinv); by apply takes_with_hints | apply Hk].
  - pose proof (pmm_alloc_contiguous_cases p count k Hwf Hc Hk) as H.
    destruct (pmm_alloc_contiguous _ _ p) as [a q]. simpl.
    destruct H as [(_ & -> & _) | (s & _ & _ & ? & _ & Hb & Hu)]; [done |].
    unfold pmm_inv. rewrite (bitmap_only_total _ _ Hb), Hu, H0 by lia. done.
  - unfold PAGE_SIZE in Hphys. pose proof (pmm_free_frame_cases p phys Hwf ltac:(lia)) as H.
    rewrite Hf in H. destruct H as [[_ ->] | (_ & _ & Hw & E & _ & Hu)]; [done |].
    unfold pmm_inv. rewrite E, Hu, H0 by lia. split_and!; try done.
    apply negb_true_iff, Z.eqb_neq. unfold PAGE_SIZE. zlia.
  - destruct (pmm_reserve_range_spec p start stop) as (Hw & Hb & Hu); [done | lia | lia |].
    unfold pmm_inv. rewrite (bitmap_only_total _ _ Hb), Hu, H0 by lia. done.
  - unfold PAGE_SIZE in Hs.
    destruct (pmm_release_range_spec p start stop) as (Hw & E & Hu); [done | lia | lia |].
    unfold pmm_inv. rewrite E, Hu, H0 by lia. unfold frame_inside. simpl.
    destruct (Z.leb_spec start (0 * PAGE_SIZE)); [lia | done].
Qed.

(** ** Properties *)

(** C29: After [pmm_init] every frame the allocator can hand out is RAM the
    firmware reported and touches nothing that must survive the boot: not the
    first megabyte, the kernel image, the bitmap and heap themselves, the
    multiboot block, the memory map, the module table or a module.  The bitmap
    and the heap were put clear of all of those and below the framebuffer
    window, the bookkeeping invariant holds, and frame 0 is never free. *)
Theorem pmm_init_safe kernel_start kernel_end mbi p :
  boot_ok kernel_start kernel_end mbi -> 0 < highest_address mbi / PAGE_SIZE ->
  pmm_init kernel_start kernel_end mbi = Ret p ->
  let size := bitmap_size (total_frames p) in
  let span := heap_base p - size in
  pmm_inv p /\
  clear_of kernel_start kernel_end mbi span (size + KHEAP_SIZE) /\
  heap_base p + KHEAP_SIZE <= FBCON_APERTURE /\
  forall f, 0 <= f < total_frames p -> used p f = false ->
    available mbi f = true /\
    Forall (fun r => frame_touches r.1 r.2 f = false)
      ((0, 0x100000) :: (span, heap_base p + KHEAP_SIZE) :: obstacles kernel_start kernel_end mbi).
Proof.
  intros Hboot Hhi Hinit size span.
  destruct (pmm_init_spec _ _ _ _ Hboot Hinit) as (Hwf & Ht & _ & Hc & Hfit & Hu & _).
  unfold pmm_inv. split_and!; try done; try lia.
  - rewrite Hu by lia. apply orb_true_iff. right. done.
  - intros f Hf Hfree. rewrite Hu in Hfree by done. bool_to_prop. split; [done |].
    apply Forall_forall. intros r Hr. unfold touched in *.
    destruct (frame_touches r.1 r.2 f) eqn:E; [| done].
    rewrite <- not_true_iff_false in H0. exfalso. apply H0. apply existsb_exists.
    exists r. split; [| done]. apply list_elem_of_In.
    change (obstacles kernel_start kernel_end mbi) with
      ((kernel_start, kernel_end) :: tail (obstacles kernel_start kernel_end mbi)) in Hr.
    unfold boot_regions. rewrite !elem_of_cons in *. tauto.
Qed.

(** [pmm_alloc_frame] returns a frame that was free, marks exactly that
    frame used and counts it; it reports failure (0) only when no frame is
    free, whatever the search hint says. *)
Theorem pmm_alloc_frame_correct p :
  pmm_inv p ->
  let '(a, p') := pmm_alloc_frame p in
  (a = 0 <-> forall g, 0 <= g < total_frames p -> used p g = true) /\
  (a <> 0 -> exists f, 0 < f < total_frames p /\ a = f * PAGE_SIZE /\
     used p f = false /\ takes p p' f) /\
  (a = 0 -> forall g, used p' g = used p g).
Proof.
  intros (Hwf & _ & H0). pose proof (pmm_alloc_frame_cases p Hwf H0) as H.
  destruct (pmm_alloc_frame p) as [a p']. unfold PAGE_SIZE in *.
  destruct H as [(-> & _ & Hsame & Hfull) | (f & Hf & Hfree & -> & Ht)].
  - split_and!; done.
  - split_and!; [| intros _; by exists f | lia]. split; [lia |].
    intros Hfull. rewrite Hfull in Hfree; [done | lia].
Qed.

(** [pmm_alloc_contiguous] returns the address of an aligned run of free
    frames below the identity-map limit and takes exactly that run; it fails
    only when there is no such run, so stepping past the frame that blocked a
    candidate loses nothing. *)
Theorem pmm_alloc_contiguous_correct p count k :
  pmm_inv p -> 0 < count < 2 ^ 63 -> 0 <= k <= 52 ->
  let '(a, p') := pmm_alloc_contiguous count (2 ^ k) p in
  (a = 0 <-> forall s, ~ free_run p (2 ^ k) (low_limit p) count s) /\
  (a = 0 -> p' = p) /\
  (a <> 0 -> exists s, a = s * PAGE_SIZE /\ free_run p (2 ^ k) (low_limit p) count s /\
     a + count * PAGE_SIZE <= LOW_MEMORY_LIMIT /\ takes_run p p' s count).
Proof.
  intros (Hwf & _ & _) Hc Hk. pose proof (pmm_alloc_contiguous_cases p count k Hwf Hc Hk) as H.
  pose proof (low_limit_spec p Hwf) as Hlim.
  destruct (pmm_alloc_contiguous _ _ p) as [a p']. unfold PAGE_SIZE, LOW_MEMORY_LIMIT in *.
  destruct H as [(-> & -> & Hnone) | (s & Hrun & -> & Ht)]; [done |].
  pose proof Hrun as (_ & ? & ? & _). split_and!.
  - split; [lia |]. intros Hno. by destruct (Hno s).
  - lia.
  - intros _. exists s. split_and!; try done. lia.
Qed.

(** C31: A frame handed out and given back leaves the set of used frames and
    the counter as they were, and giving back a frame that is not in use stops
    the machine instead of corrupting the count. *)
Theorem pmm_free_frame_correct p :
  pmm_inv p ->
  (let '(a, p') := pmm_alloc_frame p in
   a <> 0 -> exists p'', pmm_free_frame a p' = Ret p'' /\ pmm_inv p'' /\
     used_frames p'' = used_frames p /\
     (forall g, 0 <= g -> used p'' g = used p g) /\
     pmm_free_frame a p'' = Panic) /\
  forall phys, 0 <= phys -> phys / PAGE_SIZE < total_frames p ->
    used p (phys / PAGE_SIZE) = false -> pmm_free_frame phys p = Panic.
Proof.
  intros Hinv. pose proof Hinv as (Hwf & Hpos & H0).
  assert (Hdouble : forall q phys, phys / PAGE_SIZE < total_frames q ->
    used q (phys / PAGE_SIZE) = false -> pmm_free_frame phys q = Panic).
  { intros q phys Hlt Hu. unfold pmm_free_frame. unfold used in Hu. rewrite Hu.
    destruct (_ >=? _) eqn:E; [bool_to_prop; lia | done]. }
  split; [| by intros; apply Hdouble].
  pose proof (pmm_alloc_frame_cases p Hwf H0) as H. destruct (pmm_alloc_frame p) as [a p'].
  destruct H as [(-> & _) | (f & Hf & Hfree & -> & Ht)]; [done | intros _].
  pose proof Ht as (Hw' & Et & En & Hu').
  assert (Ef : f * PAGE_SIZE / PAGE_SIZE = f) by (apply Z.div_mul; done).
  pose proof (pmm_free_frame_cases p' (f * PAGE_SIZE) Hw' ltac:(unfold PAGE_SIZE; lia)) as H.
  rewrite Ef in H. destruct (pmm_free_frame _ p') as [p'' |].
  - destruct H as [[? _] | (_ & _ & Hw'' & Et' & En' & Hu'')]; [lia |].
    assert (Hback : forall g, 0 <= g -> used p'' g = used p g).
    { intros g Hg. rewrite Hu'', Hu' by done. destruct (Z.eqb_spec g f) as [-> |].
      - by rewrite Hfree.
      - by rewrite orb_false_r, andb_true_r. }
    exists p''. split_and!; try done; try lia.
    + unfold pmm_inv. rewrite Et', Et, Hback by lia. done.
    + apply Hdouble; rewrite Ef; [lia | by rewrite Hback by lia].
  - destruct H as [_ H]. rewrite Hu', Hfree, Z.eqb_refl in H by lia. done.
Qed.

(** C30: However the allocator is driven, the counter stays the exact number of
    used frames, frame 0 stays reserved and the amount of memory does not
    change, so the free figure [wmeminfo] reports is exact. *)
Theorem pmm_reachable_exact p p' :
  pmm_inv p -> rtc pmm_step p p' ->
  pmm_inv p' /\ total_frames p' = total_frames p /\
  pmm_free_bytes p' = PAGE_SIZE * countb (fun f => negb (used p' f)) (frames p').
Proof.
  intros Hinv Hsteps.
  assert (Hboth : pmm_inv p' /\ total_frames p' = total_frames p).
  { induction Hsteps as [| p q r Hpq Hqr IH]; [done |].
    destruct (pmm_step_inv p q Hpq Hinv) as [Hq E]. destruct (IH Hq). split; [done | congruence]. }
  destruct Hboth as [Hinv' E]. split_and!; try done. destruct Hinv' as (Hwf & _).
  pose proof (wf_used_bounds p' Hwf). pose proof (wf_total p' Hwf).
  rewrite countb_negb, <- (wf_used p' Hwf). unfold frames, Zlen. rewrite length_seqZ.
  unfold pmm_free_bytes, PAGE_SIZE. rewrite (u64_id (total_frames p' - used_frames p')) by lia.
  rewrite u64_id by lia. lia.
Qed.

(** ** Witnesses

    A machine with 12 MiB of memory, booted by GRUB: the boot information is
    below 1 MiB, the kernel at 1 MiB, one module right above it. *)
Definition sample_mbi : multiboot_info :=
  {| mb_self := 0x9000; mb_flags := 0x49; mem_upper := 11264;
     mods_count := 1; mods_addr := 0x9200; mmap_length := 48; mmap_addr := 0x9100;
     mmap_at := fun a =>
       if a =? 0x9100 then {| e_size := 20; e_addr := 0; e_len := 0x9FC00; e_type := 1 |}
       else {| e_size := 20; e_addr := 0x100000; e_len := 0xB00000; e_type := 1 |};
     mods := fun _ => {| mod_start := 0x180000; mod_end := 0x1C0000 |} |}.

Lemma sample_boot_ok : boot_ok 0x100000 0x180000 sample_mbi.
Proof. split; simpl; try lia; intros; try case_if; simpl; lia. Qed.

(** Eight frames, 3 and 5 free. *)
Definition sample_pmm : pmm :=
  {| bitmap := [0xFFFFFFFFFFFFFFD7]; bitmap_frames := 8; bitmap_words := 1; total_frames := 8;
     usable_frames := 8; hole_frames := 0; used_frames := 6; reserved_frames := 6;
     heap_base := 0; next_hint := 4; next_hint_low := 0 |}.

Lemma sample_pmm_inv : pmm_inv sample_pmm.
Proof. split_and!; [split; done | done | done]. Qed.

Lemma pmm_init_safe_witness :
  exists p, pmm_init 0x100000 0x180000 sample_mbi = Ret p /\ pmm_inv p.
Proof.
  destruct (pmm_init 0x100000 0x180000 sample_mbi) as [p |] eqn:E.
  - exists p. split; [done |].
    apply (pmm_init_safe 0x100000 0x180000 sample_mbi p sample_boot_ok); [vm_compute; done | done].
  - exfalso. revert E. vm_compute. discriminate.
Defined.

Lemma pmm_alloc_frame_correct_witness :
  exists f, (pmm_alloc_frame sample_pmm).1 = f * PAGE_SIZE /\ used sample_pmm f = false /\
    takes sample_pmm (pmm_alloc_frame sample_pmm).2 f.
Proof.
  pose proof (pmm_alloc_frame_correct sample_pmm sample_pmm_inv) as H.
  destruct (pmm_alloc_frame sample_pmm) as [a p'] eqn:E. cbn [fst snd].
  destruct H as (_ & H & _). destruct H as (f & _ & Ea & Hu & Ht).
  - apply (f_equal fst) in E. vm_compute in E. congruence.
  - exists f. split_and!; assumption.
Defined.

Lemma pmm_alloc_contiguous_correct_witness :
  (pmm_alloc_contiguous 2 (2 ^ 1) sample_pmm).1 = 0 /\
  forall s, ~ free_run sample_pmm (2 ^ 1) (low_limit sample_pmm) 2 s.
Proof.
  pose proof (pmm_alloc_contiguous_correct sample_pmm 2 1 sample_pmm_inv ltac:(lia) ltac:(lia)) as H.
  assert (E : pmm_alloc_contiguous 2 (2 ^ 1) sample_pmm = (0, sample_pmm)) by (vm_compute; done).
  rewrite E in H. split; [by rewrite E | by apply H].
Defined.

Lemma pmm_free_frame_correct_witness : pmm_free_frame (3 * PAGE_SIZE) sample_pmm = Panic.
Proof. apply (pmm_free_frame_correct sample_pmm sample_pmm_inv); done. Defined.

Lemma pmm_reachable_exact_witness :
  pmm_free_bytes (pmm_alloc_frame sample_pmm).2 = PAGE_SIZE.
Proof.
  destruct (pmm_reachable_exact sample_pmm (pmm_alloc_frame sample_pmm).2 sample_pmm_inv) as (_ & _ & E).
  - apply rtc_once, step_alloc.
  - rewrite E. done.
Defined.

End Pmm.
