(* ===== verification/KHeap.v ===== *)
(** The kernel heap, [kernel/mm/kheap.c]: a first-fit free list with splitting
    and coalescing.

    The headers live in memory and are linked by addresses, as in the C code:
    [blocks] maps the address of a header to its contents and is never cleaned
    up, so the stale header of a block that was merged away is still there.
    [data] is the rest of the arena, byte by byte.  An address where no header
    was ever written reads as an all-zero header. *)

From S2P Require Import Prelude.

Module KHeap.

Definition KHEAP_MAGIC : Z := 0x57484541.
Definition MIN_SPLIT : Z := 32.
(** [sizeof(struct block)]: magic, padding, size, free, padding, next, prev. *)
Definition HDR : Z := 40.

Record block := Block {
  magic : Z;
  size : Z;
  free : bool;
  next : Z;   (** address of a header, 0 for [NULL] *)
  prev : Z;
}.

Record kheap := KHeapState {
  blocks : gmap Z block;
  data : Z -> Z;
  heap_head : Z;
  heap_total : Z;
  heap_used : Z;
}.

Definition get (h : kheap) (b : Z) : block := default (Block 0 0 false 0 0) (blocks h !! b).

Definition with_blocks (m : gmap Z block) (h : kheap) : kheap :=
  KHeapState m (data h) (heap_head h) (heap_total h) (heap_used h).
Definition put (b : Z) (x : block) (h : kheap) : kheap := with_blocks (<[b := x]> (blocks h)) h.
Definition with_used (u : Z) (h : kheap) : kheap :=
  KHeapState (blocks h) (data h) (heap_head h) (heap_total h) u.

(** Assignments to one field of a header. *)
Definition set_size (s : Z) (x : block) : block := Block (magic x) s (free x) (next x) (prev x).
Definition set_free (f : bool) (x : block) : block := Block (magic x) (size x) f (next x) (prev x).
Definition set_next (n : Z) (x : block) : block := Block (magic x) (size x) (free x) n (prev x).
Definition set_prev (p : Z) (x : block) : block := Block (magic x) (size x) (free x) (next x) p.

Definition kheap_init (base sz : Z) (h : kheap) : kheap :=
  let h := KHeapState (blocks h) (data h) base sz 0 in
  put base (Block KHEAP_MAGIC (u64 (sz - HDR)) true 0 0) h.

(** The body of the loop of [kmalloc] once block [b] is chosen. *)
Definition kmalloc_split (b sz : Z) (h : kheap) : kheap :=
  let x := get h b in
  if size x >=? u64 (sz + HDR + MIN_SPLIT) then
    let rest := u64 (b + HDR + sz) in
    let h := put rest (Block KHEAP_MAGIC (u64 (size x - sz - HDR)) true (next x) b) h in
    let h := if negb (next x =? 0) then put (next x) (set_prev rest (get h (next x))) h else h in
    put b (set_size sz (set_next rest (get h b))) h
  else h.

Definition kmalloc_take (b sz : Z) (h : kheap) : Z * kheap :=
  let h := kmalloc_split b sz h in
  let h := put b (set_free false (get h b)) h in
  (u64 (b + HDR), with_used (u64 (heap_used h + size (get h b))) h).

Fixpoint kmalloc_loop (fuel : nat) (b sz : Z) (h : kheap) : Z * kheap :=
  match fuel with
  | O => (0, h)
  | S n =>
      if b =? 0 then (0, h)
      else if (negb (free (get h b)) || (size (get h b) <? sz))%bool
      then kmalloc_loop n (next (get h b)) sz h
      else kmalloc_take b sz h
  end.

(** A block takes at least its header, so this many turns walk any list that
    fits in the arena. *)
Definition list_fuel (h : kheap) : nat := Z.to_nat (heap_total h / HDR + 1).

Definition kmalloc (sz : Z) (h : kheap) : Z * kheap :=
  if sz =? 0 then (0, h)
  else kmalloc_loop (list_fuel h) (heap_head h) (ALIGN_UP sz 8) h.

Definition kzalloc (sz : Z) (h : kheap) : Z * kheap :=
  let '(p, h) := kmalloc sz h in
  if p =? 0 then (p, h)
  else
    let n := size (get h (p - HDR)) in
    (p, KHeapState (blocks h)
          (fun a => if ((p <=? a) && (a <? p + n))%bool then 0 else data h a)
          (heap_head h) (heap_total h) (heap_used h)).

Definition coalesce_with_next (b : Z) (h : kheap) : kheap :=
  let n := next (get h b) in
  if ((n =? 0) || negb (free (get h n)) || negb (free (get h b)))%bool then h
  else
    let nn := next (get h n) in
    let h := put b (set_size (u64 (size (get h b) + size (get h n) + HDR)) (get h b)) h in
    let h := put b (set_next nn (get h b)) h in
    if negb (nn =? 0) then put nn (set_prev b (get h nn)) h else h.

Definition kfree (ptr : Z) (h : kheap) : res kheap :=
  if ptr =? 0 then Ret h
  else
    let b := u64 (ptr - HDR) in
    if negb (magic (get h b) =? KHEAP_MAGIC) then Panic
    else if free (get h b) then Panic
    else
      let h := put b (set_free true (get h b)) h in
      let h := with_used (u64 (heap_used h - size (get h b))) h in
      let h := coalesce_with_next b h in
      Ret (if negb (prev (get h b) =? 0) then coalesce_with_next (prev (get h b)) h else h).

Definition kheap_used_bytes (h : kheap) : Z := heap_used h.
Definition kheap_total_bytes (h : kheap) : Z := heap_total h.
Definition kheap_free_bytes (h : kheap) : Z := u64 (heap_total h - heap_used h).

(** ** The list behind the links

    The abstract heap is the list of blocks in address order, each a payload
    size and whether it is free; addresses follow from the sizes because the
    blocks tile the arena.  [seg m p a l nx stop] says the headers of [l] are
    laid out from [a] to [stop] in [m], linked both ways, with [p] before the
    first and [nx] after the last. *)
Fixpoint seg (m : gmap Z block) (p a : Z) (l : list (Z * bool)) (nx stop : Z) : Prop :=
  match l with
  | [] => a = stop
  | (s, f) :: l' =>
      0 <= s /\ s `mod` 8 = 0 /\
      m !! a = Some (Block KHEAP_MAGIC s f (match l' with [] => nx | _ => a + HDR + s end) p) /\
      seg m a (a + HDR + s) l' nx stop
  end.

Fixpoint span (l : list (Z * bool)) : Z :=
  match l with [] => 0 | (s, _) :: l => HDR + s + span l end.

(** The address of the last header, [p] for none. *)
Fixpoint last_at (p a : Z) (l : list (Z * bool)) : Z :=
  match l with [] => p | (s, _) :: l => last_at a (a + HDR + s) l end.

(** Payload bytes handed out. *)
Fixpoint taken (l : list (Z * bool)) : Z :=
  match l with [] => 0 | (s, f) :: l => (if f : bool then 0 else s) + taken l end.

(** No two neighbours are both free, given whether the block before is. *)
Fixpoint no_adjacent (b : bool) (l : list (Z * bool)) : Prop :=
  match l with [] => True | (_, f) :: l => (b && f)%bool = false /\ no_adjacent f l end.

Fixpoint last_free (b : bool) (l : list (Z * bool)) : bool :=
  match l with [] => b | (_, f) :: l => last_free f l end.

Lemma span_app l1 l2 : span (l1 ++ l2) = span l1 + span l2.
Proof. induction l1 as [| [s f] l1 IH]; simpl; [done | lia]. Qed.

Lemma taken_app l1 l2 : taken (l1 ++ l2) = taken l1 + taken l2.
Proof. induction l1 as [| [s f] l1 IH]; simpl; [done | lia]. Qed.

Lemma last_at_snoc p a l s f : last_at p a (l ++ [(s, f)]) = a + span l.
Proof.
  revert p a. induction l as [| [s' f'] l IH]; intros; simpl; [lia | rewrite IH; lia].
Qed.

Lemma no_adjacent_app b l1 l2 :
  no_adjacent b (l1 ++ l2) <-> no_adjacent b l1 /\ no_adjacent (last_free b l1) l2.
Proof.
  revert b. induction l1 as [| [s f] l1 IH]; intros b; simpl; [tauto |]. rewrite IH. tauto.
Qed.

Lemma last_free_app b l1 l2 : last_free b (l1 ++ l2) = last_free (last_free b l1) l2.
Proof. revert b. induction l1 as [| [s f] l1 IH]; intros; simpl; [done | apply IH]. Qed.

Lemma seg_stop m p a l nx stop : seg m p a l nx stop -> stop = a + span l /\ 0 <= span l /\ 0 <= taken l <= span l.
Proof.
  revert p a. induction l as [| [s f] l IH]; intros p a; simpl; [lia |].
  intros (? & ? & _ & Hs). apply IH in Hs as (? & ? & ?). unfold HDR in *. destruct f; lia.
Qed.

Lemma seg_app m p a l1 l2 nx stop :
  seg m p a (l1 ++ l2) nx stop <->
  seg m p a l1 (match l2 with [] => nx | _ => a + span l1 end) (a + span l1) /\
  seg m (last_at p a l1) (a + span l1) l2 nx stop.
Proof.
  revert p a. induction l1 as [| [s f] l1 IH]; intros p a; simpl.
  - rewrite Z.add_0_r. tauto.
  - rewrite IH. replace (a + (HDR + s + span l1)) with (a + HDR + s + span l1) by lia.
    destruct l1; simpl; [destruct l2 |]; rewrite ?Z.add_0_r; tauto.
Qed.

(** Only the headers inside the segment matter. *)
Lemma seg_frame m m' p a l nx stop :
  (forall k, a <= k < stop -> m' !! k = m !! k) -> seg m p a l nx stop -> seg m' p a l nx stop.
Proof.
  revert p a. induction l as [| [s f] l IH]; intros p a Heq; simpl; [done |].
  intros (? & ? & Hm & Hs). pose proof (seg_stop _ _ _ _ _ _ Hs) as (? & ? & _). unfold HDR in *.
  split_and!; try done.
  - rewrite Heq by lia. done.
  - apply IH; [| done]. intros. apply Heq. lia.
Qed.

(** ** Representation *)

Record rep (h : kheap) (l : list (Z * bool)) : Prop := {
  rep_base : 0 < heap_head h /\ heap_head h `mod` 8 = 0;
  rep_bound : heap_head h + heap_total h < 2 ^ 63;
  rep_seg : seg (blocks h) 0 (heap_head h) l 0 (heap_head h + heap_total h);
}.

Record heap_ok (h : kheap) (l : list (Z * bool)) : Prop := {
  ok_rep :> rep h l;
  ok_used : heap_used h = taken l;
  ok_tight : no_adjacent false l;
}.

(** Where the header after prefix [l1] is. *)
Definition at_ (h : kheap) (l1 : list (Z * bool)) : Z := heap_head h + span l1.

(** What the header of one block of a represented heap holds. *)
Lemma rep_get h l1 s f l2 :
  rep h (l1 ++ (s, f) :: l2) ->
  get h (at_ h l1) = Block KHEAP_MAGIC s f (match l2 with [] => 0 | _ => at_ h l1 + HDR + s end)
                       (last_at 0 (heap_head h) l1) /\
  0 <= s /\ s `mod` 8 = 0 /\ 0 < at_ h l1 /\ 0 <= span l1 /\ 0 <= span l2 /\
  at_ h l1 + HDR + s + span l2 = heap_head h + heap_total h.
Proof.
  intros [[? ?] ? Hseg]. apply seg_app in Hseg as [H1 H2]. simpl in H2.
  destruct H2 as (? & ? & Hm & H2). apply seg_stop in H1 as (_ & ? & _).
  pose proof (seg_stop _ _ _ _ _ _ H2) as (? & ? & _). unfold at_, get.
  rewrite Hm. simpl. split_and!; try done; try lia.
Qed.

(** Relaying the blocks from a prefix on leaves the prefix as it is. *)
Lemma rep_splice h h' l1 x old y new :
  rep h (l1 ++ x :: old) ->
  heap_head h' = heap_head h -> heap_total h' = heap_total h ->
  (forall k, heap_head h <= k < at_ h l1 -> blocks h' !! k = blocks h !! k) ->
  seg (blocks h') (last_at 0 (heap_head h) l1) (at_ h l1) (y :: new) 0
    (heap_head h + heap_total h) ->
  rep h' (l1 ++ y :: new).
Proof.
  intros [? ? Hseg] Eh Et Hpre Hnew. split; rewrite ?Eh, ?Et; try done.
  apply seg_app in Hseg as [H1 _]. apply seg_app. split; [| done].
  unfold at_ in *. apply (seg_frame (blocks h)); [| done]. intros k Hk. apply Hpre. lia.
Qed.

(** The tail of a represented heap, with the header after [(s, f)] unchanged. *)
Lemma rep_tail h l1 s f l2 :
  rep h (l1 ++ (s, f) :: l2) ->
  seg (blocks h) (at_ h l1) (at_ h l1 + HDR + s) l2 0 (heap_head h + heap_total h).
Proof. intros [_ _ Hseg]. apply seg_app in Hseg as [_ (_ & _ & _ & H)]. done. Qed.

(** Giving the first block of a segment another predecessor. *)
Lemma seg_new_prev m m' p q a l nx stop :
  seg m p a l nx stop ->
  (forall x, m !! a = Some x -> l <> [] -> m' !! a = Some (set_prev q x)) ->
  (forall k, a < k < stop -> m' !! k = m !! k) ->
  seg m' q a l nx stop.
Proof.
  destruct l as [| [s f] l]; simpl; [done |].
  intros (? & ? & Hm & Hs) Ha Hk. rewrite (Ha _ Hm) by done. split_and!; try done.
  apply (seg_frame m); [| done]. intros k Hk'. apply Hk. unfold HDR in *. lia.
Qed.

(** ** Allocation *)

Definition fits (sz : Z) (x : Z * bool) : bool := (x.2 && (sz <=? x.1))%bool.

(** What is left of a block of [s] bytes after taking [sz] of them. *)
Definition chop (s sz : Z) : list (Z * bool) :=
  if sz + HDR + MIN_SPLIT <=? s then [(sz, false); (s - sz - HDR, true)] else [(s, false)].

Lemma get_put_eq h b x : get (put b x h) b = x.
Proof. unfold get, put. simpl. by rewrite lookup_insert_eq. Qed.

Lemma get_put_ne h b c x : b <> c -> get (put b x h) c = get h c.
Proof. intros. unfold get, put. simpl. by rewrite lookup_insert_ne. Qed.

Lemma blocks_put h b x : blocks (put b x h) = <[b := x]> (blocks h).
Proof. done. Qed.

Lemma kmalloc_split_spec h l1 s l2 sz :
  rep h (l1 ++ (s, true) :: l2) -> 0 <= sz <= s -> sz `mod` 8 = 0 ->
  let h' := kmalloc_split (at_ h l1) sz h in
  heap_head h' = heap_head h /\ heap_total h' = heap_total h /\ heap_used h' = heap_used h /\
  rep h' (l1 ++ (if sz + HDR + MIN_SPLIT <=? s then [(sz, true); (s - sz - HDR, true)]
                 else [(s, true)]) ++ l2).
Proof.
  intros Hrep Hsz Hal h'.
  destruct (rep_get h l1 s true l2 Hrep) as (Hget & ? & ? & ? & ? & Hsp2 & Hend).
  pose proof (rep_bound _ _ Hrep). pose proof (rep_base _ _ Hrep) as [Hbase _].
  pose proof (rep_tail _ _ _ _ _ Hrep) as Htail. unfold h', kmalloc_split. rewrite Hget. cbn [size next]. unfold HDR, MIN_SPLIT in *.
  rewrite (u64_id (sz + 40 + 32)) by lia. rewrite Z.geb_leb.
  destruct (Z.leb_spec (sz + 40 + 32) s) as [Hbig | _]; [| by split_and!].
  rewrite (u64_id (at_ h l1 + 40 + sz)), (u64_id (s - sz - 40)) by lia.
  set (a := at_ h l1) in *. set (rest := a + 40 + sz).
  set (nx := match l2 with [] => 0 | _ => a + 40 + s end).
  set (h1 := put rest _ h).
  set (h2 := if negb (nx =? 0) then put nx (set_prev rest (get h1 nx)) h1 else h1).
  assert (Hnx : nx = 0 \/ nx = a + 40 + s) by (unfold nx; destruct l2; auto).
  assert (Hrest : a < rest < a + 40 + s) by (unfold rest; lia).
  assert (Hm2 : forall k, k <> rest -> k <> nx -> blocks h2 !! k = blocks h !! k).
  { intros k Hk1 Hk2. unfold h2, h1. destruct (negb _); rewrite ?blocks_put, ?lookup_insert_ne by done;
      done. }
  assert (Hmr : blocks h2 !! rest = Some (Block KHEAP_MAGIC (s - sz - 40) true nx a)).
  { unfold h2, h1. destruct (negb _); rewrite ?blocks_put, ?(lookup_insert_ne _ nx) by lia;
      by rewrite lookup_insert_eq. }
  assert (Hmn : nx <> 0 -> blocks h2 !! nx = Some (set_prev rest (get h nx))).
  { intros Hne. unfold h2, h1. destruct (Z.eqb_spec nx 0); [done |]. simpl negb. cbn iota.
    rewrite blocks_put, lookup_insert_eq, get_put_ne by lia. done. }
  assert (Ea : get h2 a = get h a) by (unfold get; rewrite Hm2 by lia; done).
  assert (Hb2 : heap_head h2 = heap_head h /\ heap_total h2 = heap_total h /\
    heap_used h2 = heap_used h) by (unfold h2; destruct (negb _); done).
  split_and!; [apply Hb2.. |]. eapply rep_splice; [exact Hrep | apply Hb2.. | |]; rewrite blocks_put.
  - intros k Hk. fold a in Hk. rewrite lookup_insert_ne, Hm2 by lia. done.
  - fold a. rewrite Ea, Hget. cbn [app seg set_size set_next magic size free next prev].
    unfold HDR. fold rest. rewrite lookup_insert_eq, lookup_insert_ne, Hmr by lia.
    replace (rest + 40 + (s - sz - 40)) with (a + 40 + s) by (unfold rest; lia).
    split_and!; try done; try lia.
    + zlia.
    + apply (seg_new_prev (blocks h) _ a); [done | |].
      * intros x Hx Hl2. assert (En : nx = a + 40 + s) by (unfold nx; by destruct l2).
        rewrite lookup_insert_ne by lia. rewrite <- En, Hmn by lia.
        unfold get. rewrite En, Hx. done.
      * intros k Hk. rewrite lookup_insert_ne, Hm2 by lia. done.
Qed.

Lemma kmalloc_take_spec h l1 s l2 sz :
  heap_ok h (l1 ++ (s, true) :: l2) -> 0 <= sz <= s -> sz `mod` 8 = 0 ->
  let '(ptr, h') := kmalloc_take (at_ h l1) sz h in
  ptr = at_ h l1 + HDR /\ heap_head h' = heap_head h /\ heap_total h' = heap_total h /\
  heap_ok h' (l1 ++ chop s sz ++ l2).
Proof.
  intros [Hrep Hused Hadj] Hsz Hal. unfold kmalloc_take.
  destruct (rep_get h l1 s true l2 Hrep) as (_ & ? & ? & ? & ? & ? & ?).
  pose proof (rep_bound _ _ Hrep) as Hbound. pose proof (rep_base _ _ Hrep) as [Hbase _].
  destruct (kmalloc_split_spec h l1 s l2 sz Hrep Hsz Hal) as (Eh & Et & Eu & Hrep1).
  set (h1 := kmalloc_split (at_ h l1) sz h) in *.
  assert (Eat : at_ h l1 = at_ h1 l1) by (unfold at_; by rewrite Eh). rewrite Eat.
  (* the block now starts with [s0] bytes, free *)
  assert (Hs0 : exists s0 l3, (if sz + HDR + MIN_SPLIT <=? s then [(sz, true); (s - sz - HDR, true)]
      else [(s, true)]) ++ l2 = (s0, true) :: l3 /\ chop s sz ++ l2 = (s0, false) :: l3 /\
      no_adjacent false l3 /\ taken l3 = taken l2).
  { apply no_adjacent_app in Hadj as [_ [_ Hadj]]. unfold chop.
    assert (Hl2 : no_adjacent false l2) by (destruct l2 as [| [s2 f2] l2]; [done | split; [done | apply Hadj]]).
    destruct (sz + HDR + MIN_SPLIT <=? s).
    - exists sz, ((s - sz - HDR, true) :: l2). split_and!; done.
    - exists s, l2. split_and!; done. }
  destruct Hs0 as (s0 & l3 & E1 & E2 & Hadj3 & Ht3). rewrite E1 in Hrep1. rewrite E2.
  destruct (rep_get h1 l1 s0 true l3 Hrep1) as (Hget & ? & ? & ? & ? & ? & ?).
  rewrite get_put_eq, Hget. cbn [set_free size magic free next prev].
  assert (Htk : taken (l1 ++ (s0, false) :: l3) = heap_used h + s0).
  { rewrite Hused, !taken_app. simpl. lia. }
  set (h2 := put (at_ h1 l1) _ h1).
  assert (Hrep2 : rep h2 (l1 ++ (s0, false) :: l3)).
  { eapply rep_splice; [exact Hrep1 | done | done | |]; unfold h2; rewrite blocks_put.
    - intros k Hk. rewrite lookup_insert_ne by lia. done.
    - pose proof (rep_tail _ _ _ _ _ Hrep1) as Htail. cbn [seg].
      rewrite lookup_insert_eq. split_and!; try done.
      apply (seg_frame (blocks h1)); [| done]. intros k Hk. unfold HDR in *.
      rewrite lookup_insert_ne by lia. done. }
  pose proof (seg_stop _ _ _ _ _ _ (rep_seg _ _ Hrep2)) as (Hst & ? & Htb).
  change (heap_used h2) with (heap_used h1). change (heap_head h2) with (heap_head h1) in Hst.
  change (heap_total h2) with (heap_total h1) in Hst.
  unfold HDR in *. rewrite !u64_id by lia. split_and!; try done; try lia.
  split; [destruct Hrep2 as [? ? ?]; by split | simpl; lia |].
  apply no_adjacent_app in Hadj as [Hadj1 [Hf _]]. apply no_adjacent_app. split; [done |].
  simpl. by rewrite andb_false_r.
Qed.

(** The loop visits the blocks in address order and stops at the first that
    fits. *)
Lemma kmalloc_loop_spec h sz : forall l2 l1 fuel,
  rep h (l1 ++ l2) -> (length l2 < fuel)%nat ->
  kmalloc_loop fuel (match l2 with [] => 0 | _ => at_ h l1 end) sz h =
  match list_find (fun x => fits sz x = true) l2 with
  | Some (i, _) => kmalloc_take (at_ h (l1 ++ take i l2)) sz h
  | None => (0, h)
  end.
Proof.
  induction l2 as [| [s f] l2 IH]; intros l1 fuel Hrep Hfuel.
  { destruct fuel; done. }
  destruct fuel as [| fuel]; [simpl in Hfuel; lia |].
  destruct (rep_get h l1 s f l2 Hrep) as (Hget & ? & ? & ? & _).
  cbn [kmalloc_loop list_find]. destruct (Z.eqb_spec (at_ h l1) 0); [lia |].
  rewrite Hget. cbn [free size next].
  replace (negb f || (s <? sz))%bool with (negb (fits sz (s, f))); last first.
  { unfold fits. cbn [fst snd]. rewrite negb_andb. f_equal. by rewrite Z.leb_antisym, negb_involutive. }
  destruct (decide (fits sz (s, f) = true)) as [E | E].
  - rewrite E. cbn [negb take]. by rewrite app_nil_r.
  - apply not_true_is_false in E. rewrite E. cbn [negb].
    replace (match l2 with [] => 0 | _ => at_ h l1 + HDR + s end)
      with (match l2 with [] => 0 | _ => at_ h (l1 ++ [(s, f)]) end); last first.
    { destruct l2; [done |]. unfold at_. rewrite span_app. simpl. lia. }
    rewrite (IH (l1 ++ [(s, f)])); [| by rewrite <- app_assoc | simpl in Hfuel; lia].
    destruct (list_find _ l2) as [[i x] |]; cbn [fmap option_fmap option_map]; [| done].
    cbn [prod_map fst snd]. by rewrite <- app_assoc.
Qed.

Lemma seg_length m p a l nx stop : seg m p a l nx stop -> HDR * Zlen l <= span l.
Proof.
  revert p a. induction l as [| [s f] l IH]; intros p a; simpl; [done |].
  intros (? & _ & _ & Hs). apply IH in Hs. unfold Zlen, HDR in *. simpl. lia.
Qed.

Lemma list_fuel_enough h l : rep h l -> (length l < list_fuel h)%nat.
Proof.
  intros [_ _ Hseg]. pose proof (seg_stop _ _ _ _ _ _ Hseg) as (? & ? & _).
  apply seg_length in Hseg. unfold list_fuel, HDR, Zlen in *. zlia.
Qed.

Lemma rep_kmalloc_start h l :
  rep h l -> l <> [] -> heap_head h = match l with [] => 0 | _ => at_ h [] end.
Proof. intros _ ?. destruct l; [done |]. unfold at_. simpl. lia. Qed.

(** The size asked for, rounded up to a multiple of 8. *)
Definition rounded (sz : Z) : Z := (sz + 7) / 8 * 8.

Lemma ALIGN_UP_8 sz : 0 <= sz <= 2 ^ 64 - 8 -> ALIGN_UP sz 8 = rounded sz.
Proof.
  intros. unfold rounded. change 8 with (2 ^ 3) at 1.
  rewrite ALIGN_UP_pow2; [done | lia | lia | unfold is_u64; lia].
Qed.

Lemma rounded_spec sz : 0 <= sz -> sz <= rounded sz < sz + 8 /\ rounded sz `mod` 8 = 0.
Proof. unfold rounded. intros. zlia. Qed.

Lemma kmalloc_spec h l sz :
  heap_ok h l -> l <> [] -> 0 < sz <= 2 ^ 64 - 8 ->
  let '(ptr, h') := kmalloc sz h in
  (ptr = 0 /\ h' = h /\ Forall (fun x => fits (rounded sz) x = false) l) \/
  (exists l1 s l2, l = l1 ++ (s, true) :: l2 /\ rounded sz <= s /\
     Forall (fun x => fits (rounded sz) x = false) l1 /\
     ptr = at_ h l1 + HDR /\ heap_head h' = heap_head h /\ heap_total h' = heap_total h /\
     heap_ok h' (l1 ++ chop s (rounded sz) ++ l2)).
Proof.
  intros Hok Hne Hsz. unfold kmalloc. destruct (Z.eqb_spec sz 0); [lia |].
  rewrite ALIGN_UP_8 by lia. pose proof (rounded_spec sz ltac:(lia)) as [Hr Hr8].
  pose proof (kmalloc_loop_spec h (rounded sz) l [] (list_fuel h) Hok
    (list_fuel_enough _ _ Hok)) as Hloop.
  rewrite <- (rep_kmalloc_start h l Hok Hne) in Hloop. rewrite Hloop. clear Hloop.
  destruct (list_find _ l) as [[i [s f]] |] eqn:E.
  - apply list_find_Some in E as (Hi & Hfit & Hno). unfold fits in Hfit. cbn [fst snd] in Hfit.
    bool_to_prop. subst f. pose proof (take_drop_middle l i (s, true) Hi) as El.
    rewrite <- El in Hok.
    pose proof (kmalloc_take_spec h (take i l) s (drop (S i) l) (rounded sz) Hok
      ltac:(lia) Hr8) as Ht. cbn [app].
    destruct (kmalloc_take _ _ h) as [ptr h']. destruct Ht as (-> & ? & ? & ?).
    right. exists (take i l), s, (drop (S i) l).
    split; [by rewrite El |]. split; [lia |]. split; [| by split_and!].
    apply Forall_forall. intros x Hx. apply list_elem_of_lookup in Hx as [j Hj].
    apply lookup_take_Some in Hj as [Hj Hlt]. apply not_true_is_false. by apply (Hno j).
  - left. split_and!; try done. apply list_find_None in E.
    eapply Forall_impl; [exact E |]. intros x Hx. by apply not_true_is_false.
Qed.

(** ** Freeing *)

(** A block and the list after it, merged when both heads are free. *)
Definition join (s : Z) (f : bool) (l : list (Z * bool)) : list (Z * bool) :=
  match l with
  | (s2, true) :: l' => if f then (s + s2 + HDR, true) :: l' else (s, f) :: l
  | _ => (s, f) :: l
  end.

(** Merging touches sizes and links only. *)
Definition same_marks (h h' : kheap) : Prop :=
  forall k, magic (get h' k) = magic (get h k) /\ free (get h' k) = free (get h k).

Lemma same_marks_refl h : same_marks h h.
Proof. done. Qed.

Lemma same_marks_put h h' b x :
  same_marks h h' -> magic x = magic (get h' b) -> free x = free (get h' b) ->
  same_marks h (put b x h').
Proof.
  intros Hs Hm Hf k. destruct (decide (b = k)) as [<- |].
  - rewrite get_put_eq, Hm, Hf. apply Hs.
  - rewrite get_put_ne by done. apply Hs.
Qed.

Lemma coalesce_same_marks b h : same_marks h (coalesce_with_next b h).
Proof.
  unfold coalesce_with_next. destruct (_ || _)%bool; [apply same_marks_refl |].
  destruct (negb _); repeat (apply same_marks_put; [| done..]); apply same_marks_refl.
Qed.

Lemma coalesce_spec h l1 s f l2 :
  rep h (l1 ++ (s, f) :: l2) ->
  let h' := coalesce_with_next (at_ h l1) h in
  rep h' (l1 ++ join s f l2) /\ heap_head h' = heap_head h /\
  heap_total h' = heap_total h /\ heap_used h' = heap_used h.
Proof.
  intros Hrep h'. unfold h', coalesce_with_next.
  destruct (rep_get h l1 s f l2 Hrep) as (Hget & Hs & Hs8 & Ha & ? & ? & Hend).
  rewrite Hget. cbn [next free size].
  destruct l2 as [| [s2 f2] l3]; [by split_and! |].
  assert (Hrep2 : rep h ((l1 ++ [(s, f)]) ++ (s2, f2) :: l3)) by (by rewrite <- app_assoc).
  destruct (rep_get h (l1 ++ [(s, f)]) s2 f2 l3 Hrep2) as (Hget2 & Hs2 & Hs28 & _ & _ & ? & Hend2).
  pose proof (rep_tail _ _ _ _ _ Hrep2) as Htail.
  assert (En : at_ h (l1 ++ [(s, f)]) = at_ h l1 + HDR + s)
    by (unfold at_; rewrite span_app; simpl; lia).
  rewrite En in *. set (a := at_ h l1) in *. set (n := a + HDR + s) in *.
  assert (Han : 0 < a /\ a < n) by (unfold n, HDR; lia).
  destruct (Z.eqb_spec n 0); [lia |]. rewrite Hget2. cbn [free next size orb]. unfold join.
  destruct f2, f; cbn [negb orb]; try (by split_and!).
  pose proof (rep_bound _ _ Hrep). pose proof (rep_base _ _ Hrep) as [Hbase _].
  rewrite (u64_id (s + s2 + HDR)) by (unfold HDR in *; lia).
  set (nn := match l3 with [] => 0 | _ => n + HDR + s2 end).
  assert (Hnn : nn = 0 \/ nn = n + HDR + s2) by (unfold nn; destruct l3; auto).
  rewrite get_put_eq. set (h2 := put a (set_next nn _) _).
  assert (Hm2 : forall k, k <> a -> blocks h2 !! k = blocks h !! k)
    by (intros; unfold h2; rewrite !blocks_put, !lookup_insert_ne by done; done).
  set (h3 := if negb (nn =? 0) then _ else h2).
  assert (Hm3 : forall k, k <> a -> k <> nn -> blocks h3 !! k = blocks h !! k).
  { intros k Hk1 Hk2. unfold h3. destruct (negb _); [rewrite blocks_put, lookup_insert_ne by done |];
      by apply Hm2. }
  assert (Hma : blocks h3 !! a = Some (Block KHEAP_MAGIC (s + s2 + HDR) true nn
                                         (last_at 0 (heap_head h) l1))).
  { unfold h3. assert (nn <> a) by (unfold HDR in *; lia).
    destruct (negb _); [rewrite blocks_put, lookup_insert_ne by done |];
      unfold h2; by rewrite blocks_put, lookup_insert_eq. }
  assert (Hmn : nn <> 0 -> blocks h3 !! nn = Some (set_prev a (get h nn))).
  { intros Hne. unfold h3. destruct (Z.eqb_spec nn 0); [done |]. cbn [negb].
    rewrite blocks_put, lookup_insert_eq. unfold get at 1. rewrite Hm2 by (unfold HDR in *; lia). done. }
  assert (Hb3 : heap_head h3 = heap_head h /\ heap_total h3 = heap_total h /\
    heap_used h3 = heap_used h) by (unfold h3; destruct (negb _); done).
  split_and!; [| apply Hb3..]. unfold HDR in *.
  eapply rep_splice; [exact Hrep | apply Hb3.. | |]; fold a.
  - intros k Hk. apply Hm3; lia.
  - cbn [seg]. unfold HDR in *. replace (a + 40 + (s + s2 + 40)) with (n + 40 + s2) by (unfold n; lia).
    fold nn. rewrite Hma. split_and!; try done; [lia | zlia |].
    apply (seg_new_prev (blocks h) _ n); [done | |].
    + intros x Hx Hl3. assert (E : nn = n + 40 + s2) by (unfold nn; by destruct l3).
      rewrite <- E, Hmn by lia. unfold get. by rewrite E, Hx.
    + intros k Hk. apply Hm3; lia.
Qed.

(** Merging every run of free neighbours: what freeing a block means. *)
Fixpoint merge (l : list (Z * bool)) : list (Z * bool) :=
  match l with [] => [] | (s, f) :: l => join s f (merge l) end.

Lemma join_apart s f l : no_adjacent f l -> join s f l = (s, f) :: l.
Proof. destruct l as [| [s2 [|]] l], f; simpl; try done. intros [[=] _]. Qed.

Lemma merge_apart b l : no_adjacent b l -> merge l = l.
Proof.
  revert b. induction l as [| [s f] l IH]; intros b; simpl; [done |].
  intros [_ H]. rewrite (IH f H). by apply join_apart.
Qed.

Lemma merge_app l1 x y : merge x = merge y -> merge (l1 ++ x) = merge (l1 ++ y).
Proof. intros E. induction l1 as [| [s f] l1 IH]; simpl; [done | by rewrite IH]. Qed.

Lemma no_adjacent_join b s f l :
  no_adjacent b [(s, f)] -> no_adjacent false l -> no_adjacent b (join s f l).
Proof.
  destruct l as [| [s2 f2] l]; simpl; [done |]. intros [Hb _] [_ Hl].
  destruct f, f2; simpl in *; rewrite ?Hb; done.
Qed.

Lemma no_adjacent_weaken b l : no_adjacent b l -> no_adjacent false l.
Proof. destruct l as [| [s f] l]; simpl; [done | by intros [_ ?]]. Qed.

Lemma no_adjacent_merge l : no_adjacent false (merge l).
Proof.
  induction l as [| [s f] l IH]; simpl; [done |]. apply no_adjacent_join; [done | exact IH].
Qed.

Lemma merge_join s f l : no_adjacent false l -> merge (join s f l) = join s f l.
Proof. intros. apply (merge_apart false). by apply no_adjacent_join. Qed.

Lemma taken_join s f l : taken (join s f l) = (if f then 0 else s) + taken l.
Proof. destruct l as [| [s2 [|]] l], f; simpl; lia. Qed.

Lemma taken_merge l : taken (merge l) = taken l.
Proof. induction l as [| [s f] l IH]; simpl; [done |]. by rewrite taken_join, IH. Qed.

(** The payloads in use: address and length. *)
Fixpoint live (a : Z) (l : list (Z * bool)) : list (Z * Z) :=
  match l with
  | [] => []
  | (s, f) :: l => (if f : bool then [] else [(a + HDR, s)]) ++ live (a + HDR + s) l
  end.

Lemma live_app a l1 l2 : live a (l1 ++ l2) = live a l1 ++ live (a + span l1) l2.
Proof.
  revert a. induction l1 as [| [s f] l1 IH]; intros a; simpl; [by rewrite Z.add_0_r |].
  rewrite IH, app_assoc. do 2 f_equal. lia.
Qed.

Lemma live_join a s f l : live a (join s f l) = live a ((s, f) :: l).
Proof.
  destruct l as [| [s2 [|]] l], f; simpl; try done. f_equal. lia.
Qed.

Lemma span_join s f l : span (join s f l) = span ((s, f) :: l).
Proof. destruct l as [| [s2 [|]] l], f; simpl; lia. Qed.

Lemma live_merge a l : live a (merge l) = live a l.
Proof.
  revert a. induction l as [| [s f] l IH]; intros a; simpl; [done |].
  rewrite live_join. simpl. by rewrite IH.
Qed.

Lemma live_elem a l p n :
  (p, n) ∈ live a l <-> exists l1 l2, l = l1 ++ (n, false) :: l2 /\ p = a + span l1 + HDR.
Proof.
  revert a. induction l as [| [s f] l IH]; intros a; simpl.
  - split; [by intros ?%elem_of_nil | intros ([|] & l2 & [=] & _)].
  - rewrite elem_of_app, IH. split.
    + intros [Hin | (l1 & l2 & -> & ->)].
      * destruct f; [by apply elem_of_nil in Hin |]. apply list_elem_of_singleton in Hin.
        simplify_eq. exists [], l. simpl. split; [done | lia].
      * exists ((s, f) :: l1), l2. simpl. split; [done | lia].
    + intros ([| x l1] & l2 & E & ->); simplify_eq/=.
      * left. apply list_elem_of_singleton. f_equal. lia.
      * right. exists l1, l2. split; [done | lia].
Qed.

(** The state after freeing the block behind [l1]. *)
Lemma kfree_spec h l1 s l2 :
  heap_ok h (l1 ++ (s, false) :: l2) ->
  exists h', kfree (at_ h l1 + HDR) h = Ret h' /\
    heap_ok h' (merge (l1 ++ (s, true) :: l2)) /\ heap_head h' = heap_head h /\
    heap_total h' = heap_total h /\ same_marks (put (at_ h l1) (set_free true (get h (at_ h l1))) h) h'.
Proof.
  intros [Hrep Hused Hadj]. unfold kfree.
  destruct (rep_get h l1 s false l2 Hrep) as (Hget & Hs & Hs8 & Ha & ? & ? & Hend).
  pose proof (rep_bound _ _ Hrep) as Hb. pose proof (rep_base _ _ Hrep) as [Hbase _].
  destruct (Z.eqb_spec (at_ h l1 + HDR) 0); [unfold HDR in *; lia |].
  rewrite u64_id by (unfold HDR in *; lia).
  replace (at_ h l1 + HDR - HDR) with (at_ h l1) by lia. rewrite Hget. cbn [magic free].
  rewrite Z.eqb_refl. cbn [negb]. rewrite get_put_eq. unfold set_free. cbn [magic size next prev].
  set (h1 := put _ _ h). set (h2 := with_used _ h1).
  assert (Hrep2 : rep h2 (l1 ++ (s, true) :: l2)).
  { eapply rep_splice; [exact Hrep | done.. | |].
    - intros k Hk. unfold h2, h1. cbn [blocks with_used]. rewrite blocks_put, lookup_insert_ne by lia. done.
    - unfold h2, h1. cbn [blocks with_used seg]. rewrite blocks_put, lookup_insert_eq.
      split_and!; try done. apply (seg_frame (blocks h)); [| by eapply rep_tail].
      intros k Hk. unfold HDR in *. by rewrite lookup_insert_ne by lia. }
  assert (Hu : heap_used h2 = taken (merge (l1 ++ (s, true) :: l2))).
  { rewrite taken_merge. unfold h2. cbn [heap_used with_used]. change (heap_used h1) with (heap_used h).
    rewrite Hused, !taken_app. simpl. destruct Hrep as [_ _ Hseg].
    apply seg_app in Hseg as [Hs1 (_ & _ & _ & Hs2)].
    apply seg_stop in Hs1 as (_ & _ & ?), Hs2 as (_ & _ & ?).
    rewrite u64_id by (unfold HDR, at_ in *; lia). lia. }
  pose proof (coalesce_spec h2 l1 s true l2 Hrep2) as (Hrep3 & Eh3 & Et3 & Eu3).
  change (at_ h2 l1) with (at_ h l1) in *.
  pose proof (coalesce_same_marks (at_ h l1) h2) as Hmk3.
  set (h3 := coalesce_with_next (at_ h l1) h2) in *.
  apply no_adjacent_app in Hadj as [Hadj1 Hadj2]. simpl in Hadj2. destruct Hadj2 as [_ Hadj2].
  assert (Em : merge ((s, true) :: l2) = merge (join s true l2))
    by (rewrite merge_join by done; simpl; by rewrite (merge_apart false)).
  assert (Hget3 : prev (get h3 (at_ h l1)) = last_at 0 (heap_head h) l1).
  { destruct (join s true l2) as [| [s' f'] l'] eqn:Ej; [by destruct l2 as [| [? []]] |].
    destruct (rep_get h3 l1 s' f' l' Hrep3) as (Hg3 & _).
    change (at_ h3 l1) with (heap_head h3 + span l1) in Hg3. rewrite Eh3 in Hg3.
    change (heap_head h2 + span l1) with (at_ h l1) in Hg3. rewrite Hg3. done. }
  rewrite Hget3. destruct l1 as [| [sp fp] l0 _] using rev_ind.
  - cbn [last_at Z.eqb negb]. exists h3. split_and!; try done.
    cbn [app] in *. split; [| by rewrite Eu3 |].
    + rewrite Em, merge_join by done. done.
    + apply no_adjacent_merge.
  - rewrite last_at_snoc. fold (at_ h l0).
    assert (0 < at_ h l0).
    { rewrite <- app_assoc in Hrep. cbn [app] in Hrep. by apply rep_get in Hrep as (_ & _ & _ & ? & _). }
    destruct (Z.eqb_spec (at_ h l0) 0); [lia |]. cbn [negb].
    rewrite <- app_assoc in Hrep3. cbn [app] in Hrep3.
    pose proof (coalesce_spec h3 l0 sp fp _ Hrep3) as (Hrep4 & Eh4 & Et4 & Eu4).
    replace (at_ h3 l0) with (at_ h l0) in * by (unfold at_; by rewrite Eh3).
    pose proof (coalesce_same_marks (at_ h l0) h3) as Hmk4.
    eexists. split_and!; [done | | by rewrite Eh4, Eh3 | by rewrite Et4, Et3 |].
    + assert (E : merge ((l0 ++ [(sp, fp)]) ++ (s, true) :: l2) = l0 ++ join sp fp (join s true l2)).
      { apply no_adjacent_app in Hadj1 as [Hadj0 Hadj1].
        rewrite (merge_app _ _ (join s true l2)) by exact Em.
        rewrite <- app_assoc. cbn [app].
        assert (Hj : no_adjacent false (join s true l2)) by (by apply no_adjacent_join).
        rewrite (merge_app l0 _ (join sp fp (join s true l2))).
        - apply (merge_apart false), no_adjacent_app. split; [done |].
          by apply no_adjacent_join.
        - rewrite merge_join by done. simpl. by rewrite (merge_apart false). }
      split; [by rewrite E | by rewrite Eu4, Eu3, Hu | apply no_adjacent_merge].
    + intros k. destruct (Hmk4 k) as [-> ->]. apply Hmk3.
Qed.

(** ** What the payloads of a well-formed heap satisfy *)

Definition disjoint_ranges (x y : Z * Z) : Prop := x.1 + x.2 <= y.1 \/ y.1 + y.2 <= x.1.

(** Every payload in use is aligned, inside the arena, and clear of every
    other payload and of every header. *)
Definition payloads_ok (h : kheap) (ps : list (Z * Z)) : Prop :=
  Forall (fun x => x.1 `mod` 8 = 0 /\ heap_head h + HDR <= x.1 /\ 0 <= x.2 /\
                   x.1 + x.2 <= heap_head h + heap_total h) ps /\
  (forall i j x y, ps !! i = Some x -> ps !! j = Some y -> i <> j -> disjoint_ranges x y).

Lemma live_bounds m p a l nx stop x :
  seg m p a l nx stop -> a `mod` 8 = 0 -> x ∈ live a l ->
  x.1 `mod` 8 = 0 /\ a + HDR <= x.1 /\ 0 <= x.2 /\ x.1 + x.2 <= stop.
Proof.
  revert p a. induction l as [| [s f] l IH]; intros p a; simpl; [by intros _ _ ?%elem_of_nil |].
  intros (? & ? & _ & Hs) Ha. pose proof (seg_stop _ _ _ _ _ _ Hs) as (? & ? & _).
  assert (Ha' : (a + HDR + s) `mod` 8 = 0) by (unfold HDR; zlia).
  rewrite elem_of_app. intros [Hx | Hx].
  - destruct f; [by apply elem_of_nil in Hx |]. apply list_elem_of_singleton in Hx as ->.
    simpl. unfold HDR in *. split_and!; [zlia | lia..].
  - destruct (IH _ _ Hs Ha' Hx) as (? & ? & ? & ?). unfold HDR in *. split_and!; lia.
Qed.

Lemma live_disjoint m p a l nx stop i j x y :
  seg m p a l nx stop -> a `mod` 8 = 0 ->
  live a l !! i = Some x -> live a l !! j = Some y -> (i < j)%nat -> x.1 + x.2 <= y.1.
Proof.
  revert p a i j. induction l as [| [s f] l IH]; intros p a i j; simpl; [done |].
  intros (? & ? & _ & Hs) Ha.
  assert (Ha' : (a + HDR + s) `mod` 8 = 0) by (unfold HDR; zlia).
  destruct f; simpl; [by apply (IH _ _ _ _ Hs Ha') |].
  destruct i as [| i], j as [| j]; simpl; try lia.
  - intros [= <-] Hy _. apply list_elem_of_lookup_2 in Hy.
    destruct (live_bounds _ _ _ _ _ _ _ Hs Ha' Hy). simpl. unfold HDR in *. lia.
  - intros Hx Hy Hlt. apply (IH _ _ _ _ Hs Ha' Hx Hy). lia.
Qed.

Lemma rep_payloads_ok h l : rep h l -> payloads_ok h (live (heap_head h) l).
Proof.
  intros [[_ Ha] _ Hseg]. split.
  - apply Forall_forall. intros x Hx. by apply (live_bounds _ _ _ _ _ _ _ Hseg Ha Hx).
  - intros i j x y Hx Hy Hne. unfold disjoint_ranges.
    destruct (decide (i < j)%nat).
    + left. by apply (live_disjoint _ _ _ _ _ _ i j _ _ Hseg Ha Hx Hy).
    + right. apply (live_disjoint _ _ _ _ _ _ j i _ _ Hseg Ha Hy Hx). lia.
Qed.

Lemma heap_ok_not_nil h l : heap_ok h l -> 0 < heap_total h -> l <> [].
Proof. intros [[_ _ Hseg] _ _] Ht ->. simpl in Hseg. lia. Qed.

Lemma live_chop a s sz :
  exists n, live a (chop s sz) = [(a + HDR, n)] /\ taken (chop s sz) = n /\ (sz <= s -> sz <= n <= s).
Proof.
  unfold chop. destruct (Z.leb_spec (sz + HDR + MIN_SPLIT) s); simpl; eexists; split_and!; try done; lia.
Qed.

Lemma payloads_ok_perm h ps qs : ps ≡ₚ qs -> payloads_ok h ps -> payloads_ok h qs.
Proof.
  intros Hp [Ha Hd]. split; [by rewrite <- Hp |].
  symmetry in Hp. apply Permutation_inj in Hp as (_ & f & Hinj & Hf).
  intros i j x y Hx Hy Hne. rewrite Hf in Hx, Hy. apply (Hd _ _ _ _ Hx Hy).
  intros E. by apply Hne, (inj f).
Qed.

Lemma span_chop s sz : span (chop s sz) = HDR + s.
Proof. unfold chop. case_ifs; simpl; lia. Qed.

(** The state [kheap_init] leaves: one free block filling the arena. *)
Definition arena_ok (base sz : Z) : Prop :=
  0 < base /\ base `mod` 8 = 0 /\ sz `mod` 8 = 0 /\ HDR <= sz /\ base + sz < 2 ^ 63.

Lemma kheap_init_ok base sz h :
  arena_ok base sz -> heap_ok (kheap_init base sz h) [(sz - HDR, true)].
Proof.
  intros (? & ? & ? & ? & ?). unfold kheap_init. rewrite u64_id by (unfold HDR in *; lia).
  split; [split; simpl; try done | done | done].
  rewrite lookup_insert_eq. unfold HDR in *. split_and!; try done; [lia | zlia | lia].
Qed.

(** Payloads by address, as a client holds them. *)
Definition holds (h : kheap) (ps : list (Z * Z)) : Prop :=
  0 < heap_total h /\ exists l, heap_ok h l /\ live (heap_head h) l ≡ₚ ps.

Lemma kmalloc_holds (h : kheap) (ps : list (Z * Z)) (sz : Z) :
  holds h ps -> 0 < sz <= 2 ^ 64 - 8 ->
  let '(ptr, h') := kmalloc sz h in
  (ptr = 0 /\ h' = h /\
   exists l, heap_ok h l /\ Forall (fun x => x.2 = true -> x.1 < sz + 7) l) \/
  (exists n, ptr <> 0 /\ sz <= n /\ holds h' ((ptr, n) :: ps) /\
     payloads_ok h' ((ptr, n) :: ps) /\ heap_used h' = heap_used h + n /\
     heap_head h' = heap_head h /\ heap_total h' = heap_total h).
Proof.
  intros (Ht & l & Hok & Hps) Hsz. pose proof (heap_ok_not_nil _ _ Hok Ht) as Hne.
  pose proof (kmalloc_spec h l sz Hok Hne Hsz) as Hk.
  pose proof (rounded_spec sz ltac:(lia)) as [Hr _].
  destruct (kmalloc sz h) as [ptr h'].
  destruct Hk as [(-> & -> & Hno) | (l1 & s & l2 & -> & Hs & _ & -> & Eh & Et & Hok')].
  - left. split_and!; try done. exists l. split; [done |].
    eapply Forall_impl; [exact Hno |]. intros [s f] Hf. unfold fits in Hf. simpl in *.
    intros ->. bool_to_prop. destruct Hf as [[=] | Hf]. bool_to_prop. lia.
  - right. destruct (live_chop (at_ h l1) s (rounded sz)) as (n & El & Etk & Hn).
    pose proof (rep_get h l1 s true l2 Hok) as (_ & _ & _ & ? & _).
    assert (Hlive : live (heap_head h') (l1 ++ chop s (rounded sz) ++ l2)
              ≡ₚ (at_ h l1 + HDR, n) :: ps).
    { rewrite <- Hps, Eh, !live_app. fold (at_ h l1). rewrite El, span_chop. simpl.
      rewrite Z.add_assoc. by rewrite Permutation_middle. }
    exists n. split_and!; [unfold HDR; lia | lia | | | | done | done].
    + split; [by rewrite Et |]. by eexists.
    + exact (payloads_ok_perm _ _ _ Hlive (rep_payloads_ok _ _ (ok_rep _ _ Hok'))).
    + rewrite (ok_used _ _ Hok), (ok_used _ _ Hok'), !taken_app, Etk. simpl. lia.
Qed.

(** [kmalloc] on a well-formed heap with payloads [ps] in use either finds
    no free block of the rounded size, returns NULL and changes nothing, or
    returns a new payload of at least the requested size: the heap stays
    well-formed with exactly that payload added, and all payloads in use are
    8-byte aligned, inside the arena past its header and pairwise disjoint. *)
Theorem kmalloc_correct (h : kheap) (ps : list (Z * Z)) (sz : Z) :
  holds h ps -> 0 < sz <= 2 ^ 64 - 8 ->
  let '(ptr, h') := kmalloc sz h in
  (ptr = 0 /\ h' = h /\
   exists l, heap_ok h l /\ Forall (fun x => x.2 = true -> x.1 < sz + 7) l) \/
  (exists n, ptr <> 0 /\ sz <= n /\ holds h' ((ptr, n) :: ps) /\
     payloads_ok h' ((ptr, n) :: ps) /\ kheap_used_bytes h' = kheap_used_bytes h + n).
Proof.
  intros Hh Hsz. pose proof (kmalloc_holds h ps sz Hh Hsz) as H.
  destruct (kmalloc sz h) as [ptr h']. destruct H as [? | (n & ? & ? & ? & ? & ? & _)]; [by left |].
  right. by exists n.
Qed.

(** Arena of 4 KiB at 1 MiB, with two payloads handed out and one returned. *)
Definition sample_init : kheap := kheap_init 0x100000 4096 (KHeapState ∅ (fun _ => 0xAA) 0 0 0).
Definition sample_two : kheap := (kmalloc 24 (kmalloc 100 sample_init).2).2.

Lemma sample_init_holds : holds sample_init [].
Proof.
  split; [done |]. exists [(4056, true)]. split; [| done].
  change 4056 with (4096 - HDR). apply kheap_init_ok. unfold arena_ok, HDR. done.
Qed.

Lemma kmalloc_correct_witness :
  exists n, (kmalloc 100 sample_init).1 = 0x100028 /\ 100 <= n /\
    holds (kmalloc 100 sample_init).2 [(0x100028, n)].
Proof.
  pose proof (kmalloc_correct sample_init [] 100 sample_init_holds ltac:(lia)) as H.
  destruct (kmalloc 100 sample_init) as [ptr h'] eqn:E.
  assert (ptr = 0x100028) as -> by (apply (f_equal fst) in E; by vm_compute in E).
  destruct H as [[? _] | (n & _ & ? & ? & _)]; [done | by exists n].
Defined.

Lemma kfree_holds (h : kheap) (ps : list (Z * Z)) (ptr n : Z) :
  holds h ((ptr, n) :: ps) ->
  exists h', kfree ptr h = Ret h' /\ holds h' ps /\ payloads_ok h' ps /\
    kheap_used_bytes h' = kheap_used_bytes h - n /\ kfree ptr h' = Panic /\
    heap_head h' = heap_head h /\ heap_total h' = heap_total h.
Proof.
  intros (Ht & l & Hok & Hps).
  assert (Hin : (ptr, n) ∈ live (heap_head h) l) by (rewrite Hps; apply list_elem_of_here).
  apply live_elem in Hin as (l1 & l2 & -> & ->). fold (at_ h l1).
  destruct (kfree_spec h l1 n l2 Hok) as (h' & Hk & Hok' & Eh & Et & Hmk).
  assert (Hlive : live (heap_head h') (merge (l1 ++ (n, true) :: l2)) ≡ₚ ps).
  { rewrite Eh, live_merge. apply (Permutation_cons_inv (a := (at_ h l1 + HDR, n))).
    rewrite <- Hps, !live_app. simpl. by rewrite Permutation_middle. }
  exists h'. split_and!; [done | | | | | done | done].
  - split; [by rewrite Et |]. by eexists.
  - exact (payloads_ok_perm _ _ _ Hlive (rep_payloads_ok _ _ (ok_rep _ _ Hok'))).
  - unfold kheap_used_bytes. rewrite (ok_used _ _ Hok), (ok_used _ _ Hok'), taken_merge, !taken_app.
    simpl. lia.
  - destruct (rep_get h l1 n false l2 Hok) as (Hget & ? & _ & ? & ? & ? & ?).
    pose proof (rep_bound _ _ (ok_rep _ _ Hok)). unfold kfree.
    destruct (Z.eqb_spec (at_ h l1 + HDR) 0); [unfold HDR in *; lia |].
    rewrite u64_id by (unfold HDR in *; lia).
    replace (at_ h l1 + HDR - HDR) with (at_ h l1) by lia.
    destruct (Hmk (at_ h l1)) as [-> ->]. rewrite get_put_eq. cbn [magic free set_free].
    by destruct (negb _).
Qed.

(** [kfree] of a payload in use returns: the heap stays well-formed with
    exactly that payload removed, no two free blocks left side by side, and
    [heap_used] reduced by the payload's size; freeing the same pointer again,
    before anything else is allocated, panics. *)
Theorem kfree_correct (h : kheap) (ps : list (Z * Z)) (ptr n : Z) :
  holds h ((ptr, n) :: ps) ->
  exists h', kfree ptr h = Ret h' /\ holds h' ps /\ payloads_ok h' ps /\
    kheap_used_bytes h' = kheap_used_bytes h - n /\ kfree ptr h' = Panic.
Proof.
  intros H. destruct (kfree_holds h ps ptr n H) as (h' & ? & ? & ? & ? & ? & _). by exists h'.
Qed.

Lemma kfree_correct_witness :
  exists n h', kfree 0x100028 sample_two = Ret h' /\ kfree 0x100028 h' = Panic /\
    kheap_used_bytes h' = kheap_used_bytes sample_two - n.
Proof.
  pose proof (kmalloc_holds sample_init [] 100 sample_init_holds ltac:(lia)) as H1.
  set (h1 := (kmalloc 100 sample_init).2).
  assert (E1 : kmalloc 100 sample_init = (0x100028, h1)) by (by vm_compute). rewrite E1 in H1.
  destruct H1 as [[H1 _] | (n & _ & _ & H1 & _)]; [discriminate H1 |].
  pose proof (kmalloc_holds h1 _ 24 H1 ltac:(lia)) as H2.
  assert (E2 : kmalloc 24 h1 = (0x1000B8, sample_two)) by (by vm_compute). rewrite E2 in H2.
  destruct H2 as [[H2 _] | (n2 & _ & _ & (? & l & ? & Hp) & _)]; [discriminate H2 |].
  rewrite Permutation_swap in Hp.
  destruct (kfree_correct sample_two [(0x1000B8, n2)] 0x100028 n) as (h' & ? & _ & _ & ? & ?).
  { split; [assumption |]. exists l. split; assumption. }
  exists n, h'. split_and!; assumption.
Defined.

(** ** Every use of the heap *)

(** A client allocates sizes that are not within 8 bytes of [2^64] and frees
    what it holds; [L] is the payloads it holds. *)
Inductive heap_step : kheap * list (Z * Z) -> kheap * list (Z * Z) -> Prop :=
| step_kmalloc h L sz ptr n h' : 0 <= sz <= 2 ^ 64 - 8 -> kmalloc sz h = (ptr, h') -> ptr <> 0 ->
    n = size (get h' (ptr - HDR)) -> heap_step (h, L) (h', (ptr, n) :: L)
| step_kmalloc_fails h L sz h' : 0 <= sz <= 2 ^ 64 - 8 -> kmalloc sz h = (0, h') ->
    heap_step (h, L) (h', L)
| step_kfree h L1 L2 ptr n h' : kfree ptr h = Ret h' ->
    heap_step (h, L1 ++ (ptr, n) :: L2) (h', L1 ++ L2).

Lemma holds_size h ps ptr n : holds h ((ptr, n) :: ps) -> size (get h (ptr - HDR)) = n.
Proof.
  intros (_ & l & Hok & Hps).
  assert (Hin : (ptr, n) ∈ live (heap_head h) l) by (rewrite Hps; apply list_elem_of_here).
  apply live_elem in Hin as (l1 & l2 & -> & ->). fold (at_ h l1).
  destruct (rep_get h l1 n false l2 Hok) as (Hget & _).
  replace (at_ h l1 + HDR - HDR) with (at_ h l1) by lia. by rewrite Hget.
Qed.

Lemma heap_step_holds x y :
  heap_step x y -> holds x.1 x.2 ->
  holds y.1 y.2 /\ heap_head y.1 = heap_head x.1 /\ heap_total y.1 = heap_total x.1.
Proof.
  intros Hstep H. destruct Hstep as [h L sz ptr n h' Hsz Hk Hp -> | h L sz h' Hsz Hk | h L1 L2 ptr n h' Hk];
    simpl in *.
  - assert (sz <> 0) by (intros ->; by inversion Hk; subst).
    pose proof (kmalloc_holds h L sz H ltac:(lia)) as Hc. rewrite Hk in Hc.
    destruct Hc as [[? _] | (m & _ & _ & Hh & _ & _ & ? & ?)]; [done |].
    by rewrite (holds_size _ _ _ _ Hh).
  - destruct (decide (sz = 0)) as [-> |].
    + unfold kmalloc in Hk. simpl in Hk. by inversion Hk; subst.
    + pose proof (kmalloc_holds h L sz H ltac:(lia)) as Hc. rewrite Hk in Hc.
      destruct Hc as [(_ & -> & _) | (m & ? & _)]; done.
  - destruct H as (Ht & l & Hok & Hp). rewrite <- Permutation_middle in Hp.
    destruct (kfree_holds h (L1 ++ L2) ptr n) as (h2 & Hk2 & Hh & _ & _ & _ & ? & ?);
      [by split; [| exists l] |].
    rewrite Hk in Hk2. by simplify_eq.
Qed.

Lemma heap_steps_hold x y :
  rtc heap_step x y -> holds x.1 x.2 ->
  holds y.1 y.2 /\ heap_head y.1 = heap_head x.1 /\ heap_total y.1 = heap_total x.1.
Proof.
  induction 1 as [x | x y z Hxy _ IH]; intros Hx; [done |].
  destruct (heap_step_holds _ _ Hxy Hx) as (Hy & Eh & Et).
  destruct (IH Hy) as (Hz & Eh' & Et'). by rewrite Eh', Et'.
Qed.

Lemma taken_live a l : taken l = foldr Z.add 0 (snd <$> live a l).
Proof.
  revert a. induction l as [| [s f] l IH]; intros a; simpl; [done |].
  rewrite (IH (a + HDR + s)). by destruct f.
Qed.

Lemma sum_perm (xs ys : list Z) : xs ≡ₚ ys -> foldr Z.add 0 xs = foldr Z.add 0 ys.
Proof. induction 1; simpl; lia. Qed.

Lemma holds_used h ps : holds h ps -> kheap_used_bytes h = foldr Z.add 0 (snd <$> ps).
Proof.
  intros (_ & l & Hok & Hp). unfold kheap_used_bytes.
  rewrite (ok_used _ _ Hok), (taken_live (heap_head h)). apply sum_perm. by rewrite Hp.
Qed.

Lemma holds_payloads_ok h ps : holds h ps -> payloads_ok h ps.
Proof.
  intros (_ & l & Hok & Hp). exact (payloads_ok_perm _ _ _ Hp (rep_payloads_ok _ _ (ok_rep _ _ Hok))).
Qed.

(** A heap with nothing in use is one free block. *)
Lemma empty_heap_whole h :
  holds h [] -> heap_ok h [(heap_total h - HDR, true)].
Proof.
  intros (Ht & l & Hok & Hp). symmetry in Hp. apply Permutation_nil_l in Hp.
  assert (El : l = [(span l - HDR, true)]).
  { pose proof (heap_ok_not_nil _ _ Hok Ht) as Hne. destruct Hok as [_ _ Hadj].
    destruct l as [| [s1 [|]] [| [s2 [|]] l]]; simpl in *; try done.
    - repeat f_equal. lia.
    - by destruct Hadj as (_ & [=] & _). }
  pose proof (rep_seg _ _ (ok_rep _ _ Hok)) as Hs. apply seg_stop in Hs as (Hs & _).
  rewrite El in Hok. by replace (heap_total h) with (span l) by lia.
Qed.

(** C32: from [kheap_init] on an aligned arena, whatever sequence of [kmalloc]
    and of [kfree] of payloads in use follows: the payloads in use are aligned,
    inside the arena and pairwise disjoint, [kheap_used_bytes] is the sum of
    their sizes, and when all have been freed the whole arena is one block
    again, so that a request for everything but the header succeeds. *)
Theorem kheap_reachable_ok (base sz : Z) (h0 h : kheap) (L : list (Z * Z)) :
  arena_ok base sz -> HDR < sz ->
  rtc heap_step (kheap_init base sz h0, []) (h, L) ->
  payloads_ok h L /\
  kheap_used_bytes h = foldr Z.add 0 (snd <$> L) /\
  (L = [] -> kheap_free_bytes h = sz /\ (kmalloc (sz - HDR) h).1 = base + HDR).
Proof.
  intros Ha Hsz Hsteps. destruct Ha as (? & ? & Hs8 & ? & ?).
  assert (Hinit : holds (kheap_init base sz h0) []).
  { split; [simpl; unfold HDR in *; lia |]. exists [(sz - HDR, true)]. split; [| done].
    apply kheap_init_ok. by unfold arena_ok. }
  destruct (heap_steps_hold _ _ Hsteps Hinit) as (Hh & Eh & Et). simpl in *.
  split_and!; [by apply holds_payloads_ok | by apply holds_used |]. intros ->.
  pose proof (holds_used _ _ Hh) as Hu. unfold kheap_free_bytes, kheap_used_bytes in *. simpl in Hu.
  rewrite Hu, Et, Z.sub_0_r. split; [by rewrite u64_id by (unfold HDR in *; lia) |].
  pose proof (empty_heap_whole _ Hh) as Hok. rewrite Et in Hok. unfold HDR in *.
  pose proof (kmalloc_spec h _ (sz - 40) Hok ltac:(done) ltac:(lia)) as Hk.
  assert (Er : rounded (sz - 40) = sz - 40) by (unfold rounded; zlia). rewrite Er in Hk.
  destruct (kmalloc (sz - 40) h) as [ptr h'].
  destruct Hk as [(_ & _ & Hno) | ([| x l1] & s & l2 & El & _ & _ & -> & _)].
  - apply Forall_cons in Hno as [Hno _]. unfold fits in Hno. simpl in Hno. bool_to_prop. lia.
  - simpl. unfold at_, HDR. simpl. lia.
  - by destruct l1.
Qed.

Lemma kheap_reachable_ok_witness :
  exists h, rtc heap_step (sample_init, []) (h, []) /\ kheap_free_bytes h = 4096 /\
    (kmalloc 4056 h).1 = 0x100028.
Proof.
  set (h1 := (kmalloc 100 sample_init).2).
  assert (E1 : kmalloc 100 sample_init = (0x100028, h1)) by (by vm_compute).
  destruct (kfree 0x100028 h1) as [h2 |] eqn:E2; [| by vm_compute in E2].
  assert (Hs : rtc heap_step (sample_init, []) (h2, [])).
  { eapply rtc_l; [eapply (step_kmalloc _ _ 100); [lia | exact E1 | done | done] |].
    eapply rtc_l; [eapply (step_kfree _ [] []); exact E2 | apply rtc_refl]. }
  destruct (kheap_reachable_ok 0x100000 4096 (KHeapState ∅ (fun _ => 0xAA) 0 0 0) h2 []) as (_ & _ & H).
  { by repeat split. } { by vm_compute. } { exact Hs. }
  destruct (H eq_refl). exists h2. split_and!; assumption.
Defined.

End KHeap.
