(* ===== verification/Sha1.v ===== *)
(** SHA-1, HMAC-SHA1, PBKDF2 and the 802.11 pseudo-random function, the first
    half of [kernel/lib/crypto.c].

    Words are 32-bit [Z], bytes 8-bit [Z].  A [const void *data, uint32_t len]
    pair is the list of its bytes; an output buffer is the list returned. *)

From S2P Require Import Prelude.

Module Sha1.

Definition SHA1_DIGEST_LEN : Z := 20.
Definition SHA1_BLOCK_LEN : Z := 64.

Definition rol32 (v n : Z) : Z := Z.lor (u32 (Z.shiftl v n)) (Z.shiftr v (32 - n)).

(** Four bytes, most significant first. *)
Definition be32 (a b c d : Z) : Z :=
  Z.lor (Z.lor (Z.lor (Z.shiftl a 24) (Z.shiftl b 16)) (Z.shiftl c 8)) d.

(** [w[0..80)]: the sixteen words of the block, then the 64 derived ones, each
    from the words already there. *)
Definition block_words (block : list Z) : list Z :=
  (fun i => be32 block.[i * 4] block.[i * 4 + 1] block.[i * 4 + 2] block.[i * 4 + 3]) <$> seqZ 0 16.
Definition schedule (block : list Z) : list Z :=
  fold_left (fun w i =>
      w ++ [rol32 (Z.lxor (Z.lxor (Z.lxor w.[i - 3] w.[i - 8]) w.[i - 14]) w.[i - 16]) 1])
    (seqZ 16 64) (block_words block).

Record abcde := Abcde { va : Z; vb : Z; vc : Z; vd : Z; ve : Z }.

Definition sha1_round (w : list Z) (s : abcde) (i : Z) : abcde :=
  let '(Abcde a b c d e) := s in
  let '(f, k) :=
    if i <? 20 then (Z.lor (Z.land b c) (Z.land (u32 (Z.lnot b)) d), 0x5A827999)
    else if i <? 40 then (Z.lxor (Z.lxor b c) d, 0x6ED9EBA1)
    else if i <? 60 then (Z.lor (Z.lor (Z.land b c) (Z.land b d)) (Z.land c d), 0x8F1BBCDC)
    else (Z.lxor (Z.lxor b c) d, 0xCA62C1D6) in
  let t := u32 (rol32 a 5 + f + e + k + w.[i]) in
  Abcde t a (rol32 b 30) c d.

Definition sha1_block (st : list Z) (block : list Z) : list Z :=
  let w := schedule block in
  let s0 := Abcde st.[0] st.[1] st.[2] st.[3] st.[4] in
  let s := fold_left (sha1_round w) (seqZ 0 80) s0 in
  [u32 (st.[0] + va s); u32 (st.[1] + vb s); u32 (st.[2] + vc s); u32 (st.[3] + vd s);
   u32 (st.[4] + ve s)].

Record sha1_ctx := Sha1Ctx {
  state : list Z;
  len_ : Z;         (** [length], in bytes *)
  buf : list Z;     (** 64 bytes *)
  buffered : Z;
}.

Definition H0 : list Z := [0x67452301; 0xEFCDAB89; 0x98BADCFE; 0x10325476; 0xC3D2E1F0].

Definition sha1_init (ctx : sha1_ctx) : sha1_ctx := Sha1Ctx H0 0 (buf ctx) 0.

(** The loop over whole blocks: the new state and the bytes left over. *)
Fixpoint sha1_blocks (fuel : nat) (st : list Z) (p : list Z) : list Z * list Z :=
  match fuel with
  | O => (st, p)
  | S n =>
      if SHA1_BLOCK_LEN <=? Zlen p
      then sha1_blocks n (sha1_block st (slice 0 SHA1_BLOCK_LEN p)) (drop 64 p)
      else (st, p)
  end.

Definition sha1_update_rest (ctx : sha1_ctx) (p : list Z) : sha1_ctx :=
  let '(st, p) := sha1_blocks (length p) (state ctx) p in
  if Zlen p =? 0 then Sha1Ctx st (len_ ctx) (buf ctx) (buffered ctx)
  else Sha1Ctx st (len_ ctx) (splice 0 p (buf ctx)) (Zlen p).

Definition sha1_update (ctx : sha1_ctx) (p : list Z) : sha1_ctx :=
  let ctx := Sha1Ctx (state ctx) (u64 (len_ ctx + Zlen p)) (buf ctx) (buffered ctx) in
  if buffered ctx =? 0 then sha1_update_rest ctx p
  else
    let want := SHA1_BLOCK_LEN - buffered ctx in
    let take := if Zlen p <? want then Zlen p else want in
    let b := splice (buffered ctx) (slice 0 take p) (buf ctx) in
    let ctx := Sha1Ctx (state ctx) (len_ ctx) b (buffered ctx + take) in
    if buffered ctx <? SHA1_BLOCK_LEN then ctx
    else sha1_update_rest (Sha1Ctx (sha1_block (state ctx) b) (len_ ctx) b 0) (drop (Z.to_nat take) p).

(** [while (ctx->buffered != SHA1_BLOCK_LEN - 8) sha1_update(ctx, &zero, 1);] *)
Fixpoint sha1_pad_zeros (fuel : nat) (ctx : sha1_ctx) : sha1_ctx :=
  match fuel with
  | O => ctx
  | S n => if buffered ctx =? SHA1_BLOCK_LEN - 8 then ctx
           else sha1_pad_zeros n (sha1_update ctx [0])
  end.

Definition be_bytes64 (z : Z) : list Z := (fun i => u8 (Z.shiftr z (56 - 8 * i))) <$> seqZ 0 8.
Definition be_bytes32 (z : Z) : list Z :=
  [u8 (Z.shiftr z 24); u8 (Z.shiftr z 16); u8 (Z.shiftr z 8); u8 z].

Definition digest_bytes (st : list Z) : list Z :=
  mjoin ((fun i => be_bytes32 st.[i]) <$> seqZ 0 5).

(** The padding loop stops within one block, so 64 turns are enough. *)
Definition sha1_final (ctx : sha1_ctx) : list Z * sha1_ctx :=
  let bits := u64 (len_ ctx * 8) in
  let ctx := sha1_pad_zeros 64 (sha1_update ctx [0x80]) in
  let b := splice (buffered ctx) (be_bytes64 bits) (buf ctx) in
  let st := sha1_block (state ctx) b in
  (digest_bytes st, Sha1Ctx st (len_ ctx) b 0).

(** A context on the stack starts with whatever was there. *)
Definition fresh : sha1_ctx := Sha1Ctx [] 0 (replicate 64 0xCC) 0.

Definition sha1 (data : list Z) : list Z := (sha1_final (sha1_update (sha1_init fresh) data)).1.

(** *** HMAC *)

Definition hmac_sha1_vector (key : list Z) (data : list (list Z)) : list Z :=
  let k0 := replicate 64 0 in
  let k := if SHA1_BLOCK_LEN <? Zlen key then splice 0 (sha1 key) k0 else splice 0 key k0 in
  let pad := (fun b => Z.lxor b 0x36) <$> k in
  let ctx := sha1_update (sha1_init fresh) pad in
  let ctx := fold_left sha1_update data ctx in
  let '(inner, ctx) := sha1_final ctx in
  let pad := (fun b => Z.lxor b 0x5C) <$> k in
  let ctx := sha1_update (sha1_init ctx) pad in
  (sha1_final (sha1_update ctx inner)).1.

Definition hmac_sha1 (key data : list Z) : list Z := hmac_sha1_vector key [data].

(** *** PBKDF2 and the PRF *)

Definition xor_bytes (a b : list Z) : list Z := zip_with Z.lxor a b.

Fixpoint pbkdf2_iterate (n : nat) (pass u out : list Z) : list Z :=
  match n with
  | O => out
  | S n => let u := hmac_sha1 pass u in pbkdf2_iterate n pass u (xor_bytes out u)
  end.

Definition pbkdf2_block (pass salt : list Z) (iterations index : Z) : list Z :=
  let u := hmac_sha1_vector pass [salt; be_bytes32 index] in
  pbkdf2_iterate (Z.to_nat (iterations - 1)) pass u u.

Definition clamp_digest (n : Z) : Z := if n >? SHA1_DIGEST_LEN then SHA1_DIGEST_LEN else n.

Fixpoint pbkdf2_loop (fuel : nat) (pass salt : list Z) (iterations index done_ : Z)
    (out : list Z) : list Z :=
  match fuel with
  | O => out
  | S n =>
      if done_ <? Zlen out then
        let take := clamp_digest (Zlen out - done_) in
        let block := pbkdf2_block pass salt iterations index in
        pbkdf2_loop n pass salt iterations (u32 (index + 1)) (done_ + take)
          (splice done_ (slice 0 take block) out)
      else out
  end.

(** [out] is the caller's buffer, [out_len] its length: every turn fills at
    least one byte of it. *)
Definition pbkdf2_sha1 (pass salt : list Z) (iterations : Z) (out : list Z) : list Z :=
  pbkdf2_loop (length out) pass salt iterations 1 0 out.

Fixpoint sha1_prf_loop (fuel : nat) (key label data : list Z) (counter done_ : Z)
    (out : list Z) : list Z :=
  match fuel with
  | O => out
  | S n =>
      if done_ <? Zlen out then
        let take := clamp_digest (Zlen out - done_) in
        let digest := hmac_sha1_vector key [label ++ [0]; data; [counter]] in
        sha1_prf_loop n key label data (u8 (counter + 1)) (done_ + take)
          (splice done_ (slice 0 take digest) out)
      else out
  end.

Definition sha1_prf (key label data out : list Z) : list Z :=
  sha1_prf_loop (length out) key label data 0 0 out.

(** ** Reference definitions *)

(** FIPS 180-4: compress a whole number of blocks. *)
Fixpoint compress (n : nat) (st m : list Z) : list Z :=
  match n with O => st | S n => compress n (sha1_block st (take 64 m)) (drop 64 m) end.

(** FIPS 180-4, 5.1.1: a one bit, zeros up to 448 mod 512, the bit length. *)
Definition sha1_pad (m : list Z) : list Z :=
  m ++ [0x80] ++ replicate (Z.to_nat ((55 - Zlen m) `mod` 64)) 0 ++ be_bytes64 (u64 (Zlen m * 8)).

Definition sha1_spec (m : list Z) : list Z :=
  digest_bytes (compress (length (sha1_pad m) / 64) H0 (sha1_pad m)).

(** RFC 2104. *)
Definition hmac_key (key : list Z) : list Z :=
  let k := if (64 <? length key)%nat then sha1_spec key else key in
  k ++ replicate (64 - length k) 0.
Definition hmac_spec (key m : list Z) : list Z :=
  let k := hmac_key key in
  sha1_spec (((fun b => Z.lxor b 0x5C) <$> k) ++
             sha1_spec (((fun b => Z.lxor b 0x36) <$> k) ++ m)).

(** RFC 2898, 5.2: the U sequence and the exclusive or of its first members. *)
Fixpoint pbkdf2_U (pass salt_i : list Z) (j : nat) : list Z :=
  match j with O => hmac_spec pass salt_i | S j => hmac_spec pass (pbkdf2_U pass salt_i j) end.
Definition pbkdf2_T (pass salt : list Z) (c i : Z) : list Z :=
  let U := pbkdf2_U pass (salt ++ be_bytes32 i) in
  fold_left (fun acc j => xor_bytes acc (U j)) (seq 1 (Z.to_nat (c - 1))) (U 0%nat).

(** The first [n] bytes of blocks [f 0, f 1, ...] laid end to end. *)
Definition stream (f : Z -> list Z) (n : nat) : list Z := take n (mjoin (f <$> seqZ 0 (Z.of_nat n))).

Example sha1_abc :
  sha1 [0x61; 0x62; 0x63] =
  [0xA9; 0x99; 0x3E; 0x36; 0x47; 0x06; 0x81; 0x6A; 0xBA; 0x3E; 0x25; 0x71; 0x78; 0x50; 0xC2; 0x6C;
   0x9C; 0xD0; 0xD8; 0x9D].
Proof. vm_compute. reflexivity. Qed.

(** ** Streaming *)

(** The context holds message [m]: the whole blocks are compressed, the rest
    waits in the buffer. *)
Definition absorbed (ctx : sha1_ctx) (m : list Z) : Prop :=
  exists q full tail, m = full ++ tail /\ length full = (64 * q)%nat /\ (length tail < 64)%nat /\
    state ctx = compress q H0 full /\ buffered ctx = Zlen tail /\
    length (buf ctx) = 64%nat /\ take (length tail) (buf ctx) = tail /\ len_ ctx = u64 (Zlen m).

Lemma compress_app n : forall q st a b,
  length a = (64 * q)%nat -> compress (q + n) st (a ++ b) = compress n (compress q st a) b.
Proof.
  induction q as [| q IH]; intros st a b Ha; simpl.
  - by destruct a.
  - rewrite take_app_le, drop_app_le by lia. apply IH. rewrite length_drop. lia.
Qed.

Lemma compress_snoc q st a b :
  length a = (64 * q)%nat -> length b = 64%nat ->
  compress (S q) st (a ++ b) = sha1_block (compress q st a) b.
Proof.
  intros Ha Hb. replace (S q) with (q + 1)%nat by lia. rewrite compress_app by done. simpl.
  by rewrite take_ge by lia.
Qed.

Lemma slice0 {A} n (l : list A) : slice 0 n l = take (Z.to_nat n) l.
Proof. unfold slice. simpl. by rewrite drop_0. Qed.

Lemma splice0 {A} (new l : list A) : splice 0 new l = new ++ drop (length new) l.
Proof. done. Qed.

Lemma sha1_blocks_spec : forall fuel q full p,
  length full = (64 * q)%nat -> (length p <= fuel)%nat ->
  let '(st, r) := sha1_blocks fuel (compress q H0 full) p in
  exists q' full', full' ++ r = full ++ p /\ length full' = (64 * q')%nat /\
    st = compress q' H0 full' /\ (length r < 64)%nat.
Proof.
  induction fuel as [| fuel IH]; intros q full p Hf Hp; cbn [sha1_blocks].
  - exists q, full. destruct p; simpl in *; [split_and!; [done..| lia] | lia].
  - unfold SHA1_BLOCK_LEN, Zlen in *. destruct (Z.leb_spec 64 (Z.of_nat (length p))) as [Hle |].
    + rewrite slice0, <- compress_snoc; [| done | rewrite length_take; lia].
      specialize (IH (S q) (full ++ take 64 p) (drop 64 p)).
      destruct (sha1_blocks _ _ _) as [st r].
      rewrite length_app, length_take, length_drop in IH.
      destruct IH as (q' & full' & E & ? & ? & ?); [lia.. |].
      exists q', full'. split_and!; try done. rewrite E, <- app_assoc. by rewrite take_drop.
    + exists q, full. split_and!; try done. lia.
Qed.

Lemma update_rest_spec ctx q full p m :
  length full = (64 * q)%nat -> state ctx = compress q H0 full -> buffered ctx = 0 ->
  length (buf ctx) = 64%nat -> full ++ p = m -> len_ ctx = u64 (Zlen m) ->
  absorbed (sha1_update_rest ctx p) m.
Proof.
  intros Hf Hst Hb Hbuf Hm Hl. unfold sha1_update_rest. rewrite Hst.
  pose proof (sha1_blocks_spec (length p) q full p Hf ltac:(lia)) as H.
  destruct (sha1_blocks _ _ p) as [st r]. destruct H as (q' & full' & E & ? & -> & ?).
  exists q', full', r. unfold Zlen in *. destruct (Z.eqb_spec (Z.of_nat (length r)) 0); simpl.
  - destruct r; simpl in *; [| lia]. split_and!; try done. congruence.
  - rewrite splice0, length_app, length_drop, take_app_length. split_and!; try done; [congruence | lia].
Qed.

Lemma sha1_update_spec ctx m d : absorbed ctx m -> absorbed (sha1_update ctx d) (m ++ d).
Proof.
  intros (q & full & tail & -> & Hf & Ht & Hst & Hb & Hbuf & Htail & Hl). unfold sha1_update.
  cbn [state len_ buf buffered]. rewrite Hb, Hl.
  assert (El : u64 (u64 (Zlen (full ++ tail)) + Zlen d) = u64 (Zlen ((full ++ tail) ++ d))).
  { unfold u64, Zlen. rewrite Z.add_mod_idemp_l by lia. by rewrite !length_app, !Nat2Z.inj_add. }
  unfold Zlen in El |- *. destruct (Z.eqb_spec (Z.of_nat (length tail)) 0).
  - destruct tail; simpl in *; [| lia].
    apply (update_rest_spec _ q full); try done. by rewrite app_nil_r.
  - unfold SHA1_BLOCK_LEN. destruct (Z.ltb_spec (Z.of_nat (length d)) (64 - Z.of_nat (length tail))).
    + rewrite (proj2 (Z.ltb_lt _ _)) by lia.
      exists q, full, (tail ++ d). cbn [state buffered buf len_]. unfold splice, Zlen.
      rewrite slice0, !Nat2Z.id, (take_ge d) by lia.
      rewrite Htail, !length_app, length_drop, Hbuf. split_and!; try done; try lia.
      * by rewrite app_assoc.
      * rewrite app_assoc, <- length_app. apply take_app_length.
      * by rewrite !length_app in El.
    + rewrite (proj2 (Z.ltb_ge _ _)) by lia. unfold splice.
      rewrite slice0, Nat2Z.id, Htail. set (k := Z.to_nat (64 - Z.of_nat (length tail))).
      assert (Hk : k = (64 - length tail)%nat) by (unfold k; lia).
      rewrite length_take, (drop_ge (buf ctx)), app_nil_r by lia.
      apply (update_rest_spec _ (S q) (full ++ tail ++ take k d)); cbn [state buffered buf len_].
      * rewrite !length_app, length_take. lia.
      * rewrite compress_snoc by (rewrite ?length_app, ?length_take; lia). by rewrite Hst.
      * done.
      * rewrite length_app, length_take. lia.
      * by rewrite <- !app_assoc, take_drop.
      * done.
Qed.

Lemma sha1_init_spec ctx : length (buf ctx) = 64%nat -> absorbed (sha1_init ctx) [].
Proof. intros. exists 0%nat, [], []. split_and!; try done. simpl. lia. Qed.

Lemma sha1_updates_spec ds : forall ctx m,
  absorbed ctx m -> absorbed (fold_left sha1_update ds ctx) (m ++ mjoin ds).
Proof.
  induction ds as [| d ds IH]; intros ctx m H; simpl; [by rewrite app_nil_r |].
  rewrite app_assoc. by apply IH, sha1_update_spec.
Qed.

Lemma absorbed_mod ctx m : absorbed ctx m -> buffered ctx = Zlen m `mod` 64.
Proof.
  intros (q & full & tail & -> & Hf & Ht & _ & -> & _). unfold Zlen.
  rewrite length_app, Hf. rewrite Nat2Z.inj_add, Nat2Z.inj_mul. zlia.
Qed.

(** The padding loop appends exactly the zeros that bring the length to 56
    modulo 64. *)
Lemma sha1_pad_zeros_spec fuel : forall ctx m,
  absorbed ctx m -> (56 - Zlen m) `mod` 64 < Z.of_nat fuel ->
  absorbed (sha1_pad_zeros fuel ctx) (m ++ replicate (Z.to_nat ((56 - Zlen m) `mod` 64)) 0).
Proof.
  induction fuel as [| fuel IH]; intros ctx m H Hlt; cbn [sha1_pad_zeros]; [zlia |].
  rewrite (absorbed_mod _ _ H). unfold SHA1_BLOCK_LEN.
  destruct (Z.eqb_spec (Zlen m `mod` 64) (64 - 8)).
  - replace ((56 - Zlen m) `mod` 64) with 0 by zlia. simpl. by rewrite app_nil_r.
  - assert (Ez : (56 - Zlen (m ++ [0])) `mod` 64 = (56 - Zlen m) `mod` 64 - 1).
    { unfold Zlen in *. rewrite length_app. simpl length. zlia. }
    specialize (IH (sha1_update ctx [0]) (m ++ [0]) (sha1_update_spec _ _ _ H)).
    rewrite Ez in IH. specialize (IH ltac:(lia)).
    replace (Z.to_nat ((56 - Zlen m) `mod` 64)) with (S (Z.to_nat ((56 - Zlen m) `mod` 64 - 1))) by zlia.
    simpl. by rewrite <- app_assoc in IH.
Qed.

Lemma sha1_final_spec ctx m : absorbed ctx m -> (sha1_final ctx).1 = sha1_spec m /\
  length (buf (sha1_final ctx).2) = 64%nat.
Proof.
  intros H. assert (Hl : len_ ctx = u64 (Zlen m)) by (by destruct H as (? & ? & ? & ? & ? & ? & ? & ? & ? & ? & ?)).
  unfold sha1_final. rewrite Hl.
  assert (Eb : u64 (u64 (Zlen m) * 8) = u64 (Zlen m * 8)) by (unfold u64; by rewrite Z.mul_mod_idemp_l).
  rewrite Eb. pose proof (sha1_update_spec _ _ [0x80] H) as H1.
  pose proof (sha1_pad_zeros_spec 64 _ _ H1) as H2.
  assert (Ez : (56 - Zlen (m ++ [0x80])) `mod` 64 = (55 - Zlen m) `mod` 64).
  { unfold Zlen. rewrite length_app. simpl length. f_equal. lia. }
  rewrite Ez in H2. specialize (H2 ltac:(zlia)). set (ctx2 := sha1_pad_zeros _ _) in *.
  pose proof (absorbed_mod _ _ H2) as Hm56.
  destruct H2 as (q & full & tail & E & Hf & Ht & Hst & Hb & Hbuf & Htail & _).
  assert (Hb56 : buffered ctx2 = 56).
  { rewrite Hm56. unfold Zlen. rewrite !length_app, length_replicate. simpl length. zlia. }
  assert (Hl56 : length tail = 56%nat) by (unfold Zlen in *; lia).
  cbn [fst snd buf]. unfold splice. rewrite Hb56. change (Z.to_nat 56) with 56%nat.
  rewrite Hl56 in Htail. rewrite Htail, (drop_ge (buf ctx2)), app_nil_r by (rewrite Hbuf; done).
  split; [| rewrite length_app, Hl56; done].
  unfold sha1_spec. f_equal.
  replace (sha1_pad m) with (full ++ tail ++ be_bytes64 (u64 (Zlen m * 8))); last first.
  { unfold sha1_pad. rewrite app_assoc, <- E, <- !app_assoc. done. }
  rewrite length_app, Hf, length_app, Hl56.
  change (length (be_bytes64 (u64 (Zlen m * 8)))) with 8%nat.
  replace ((64 * q + (56 + 8)) / 64)%nat with (S q) by (apply (Nat.div_unique _ _ _ 0%nat); lia).
  rewrite compress_snoc; [by rewrite Hst | done | rewrite length_app, Hl56; done].
Qed.

Lemma sha1_spec_length m : length (sha1_spec m) = 20%nat.
Proof. done. Qed.

Lemma hmac_spec_length key m : length (hmac_spec key m) = 20%nat.
Proof. done. Qed.

#[local] Opaque sha1_spec sha1_block.

(** Hashing a message piece by piece, in whatever pieces and on whatever
    stack garbage, gives the FIPS 180-4 digest of the whole message: the
    buffer, the block loop and the padding loop of [sha1_update] and
    [sha1_final] together are the one-shot definition. *)
Theorem sha1_streaming (ctx : sha1_ctx) (pieces : list (list Z)) :
  length (buf ctx) = 64%nat ->
  (sha1_final (fold_left sha1_update pieces (sha1_init ctx))).1 = sha1_spec (mjoin pieces).
Proof.
  intros H. apply sha1_final_spec. apply (sha1_updates_spec pieces _ []), sha1_init_spec, H.
Qed.

Lemma sha1_streaming_witness :
  (sha1_final (fold_left sha1_update [[0x61]; []; [0x62; 0x63]] (sha1_init fresh))).1 =
  sha1_spec [0x61; 0x62; 0x63].
Proof. exact (sha1_streaming fresh [[0x61]; []; [0x62; 0x63]] eq_refl). Defined.

Lemma sha1_eq m : sha1 m = sha1_spec m.
Proof.
  apply sha1_final_spec. apply (sha1_update_spec _ []), sha1_init_spec. done.
Qed.

(** [k] after the copy into the zeroed block. *)
Lemma hmac_key_eq key :
  (if SHA1_BLOCK_LEN <? Zlen key then splice 0 (sha1 key) (replicate 64 0)
   else splice 0 key (replicate 64 0)) = hmac_key key.
Proof.
  unfold hmac_key, SHA1_BLOCK_LEN, Zlen. rewrite sha1_eq, !splice0, !drop_replicate.
  destruct (Z.ltb_spec 64 (Z.of_nat (length key))), (Nat.ltb_spec 64 (length key)); try lia; done.
Qed.

Lemma hmac_vector_eq key data : hmac_sha1_vector key data = hmac_spec key (mjoin data).
Proof.
  unfold hmac_sha1_vector. rewrite hmac_key_eq. set (k := hmac_key key).
  set (ipad := (fun b => Z.lxor b 0x36) <$> k). set (opad := (fun b => Z.lxor b 0x5C) <$> k).
  assert (H1 : absorbed (fold_left sha1_update data (sha1_update (sha1_init fresh) ipad))
                 (ipad ++ mjoin data)).
  { apply sha1_updates_spec. apply (sha1_update_spec _ []), sha1_init_spec. done. }
  destruct (sha1_final_spec _ _ H1) as [E1 Hb]. destruct (sha1_final _) as [inner ctx].
  cbn [fst snd] in *. subst inner.
  destruct (sha1_final_spec (sha1_update (sha1_update (sha1_init ctx) opad)
    (sha1_spec (ipad ++ mjoin data))) (opad ++ sha1_spec (ipad ++ mjoin data))) as [E2 _].
  { apply sha1_update_spec. apply (sha1_update_spec _ []), sha1_init_spec, Hb. }
  exact E2.
Qed.

(** [hmac_sha1_vector] is RFC 2104's HMAC of the key and the
    concatenation of the pieces, for keys of every length. *)
Theorem hmac_sha1_vector_correct (key : list Z) (data : list (list Z)) :
  hmac_sha1_vector key data = hmac_spec key (mjoin data).
Proof. apply hmac_vector_eq. Qed.

Lemma hmac_eq key m : hmac_sha1 key m = hmac_spec key m.
Proof. unfold hmac_sha1. rewrite hmac_vector_eq. simpl. by rewrite app_nil_r. Qed.

(** ** Output by blocks of 20 bytes *)

Fixpoint fill (fuel : nat) (f : Z -> list Z) (k done_ : Z) (out : list Z) : list Z :=
  match fuel with
  | O => out
  | S n =>
      if done_ <? Zlen out then
        let take := clamp_digest (Zlen out - done_) in
        fill n f (k + 1) (done_ + take) (splice done_ (slice 0 take (f k)) out)
      else out
  end.

Lemma mjoin_length (f : Z -> list Z) ks :
  (forall i, length (f i) = 20%nat) -> length (mjoin (f <$> ks)) = (20 * length ks)%nat.
Proof.
  intros H. induction ks as [| k ks IH]; [done |].
  change (mjoin (f <$> k :: ks)) with (f k ++ mjoin (f <$> ks)).
  rewrite length_app, H, IH. simpl. lia.
Qed.

(** Asking for more blocks than needed changes nothing. *)
Lemma stream_enough (f : Z -> list Z) k n m :
  (forall i, length (f i) = 20%nat) -> (n <= m)%nat ->
  take n (mjoin (f <$> seqZ k (Z.of_nat m))) = take n (mjoin (f <$> seqZ k (Z.of_nat n))).
Proof.
  intros Hf Hle. replace (Z.of_nat m) with (Z.of_nat n + Z.of_nat (m - n)) by lia.
  rewrite seqZ_app, fmap_app, join_app by lia. apply take_app_le.
  rewrite mjoin_length, length_seqZ by done. lia.
Qed.

Lemma stream_step (f : Z -> list Z) k n :
  (forall i, length (f i) = 20%nat) -> (0 < n)%nat ->
  take n (mjoin (f <$> seqZ k (Z.of_nat n))) =
  take (n `min` 20) (f k) ++ take (n - 20) (mjoin (f <$> seqZ (k + 1) (Z.of_nat (n - 20)))).
Proof.
  intros Hf Hn. rewrite seqZ_cons by lia.
  rewrite fmap_cons. change (mjoin (?x :: ?l)) with (x ++ mjoin l).
  rewrite take_app, Hf. f_equal.
  - destruct (decide (n <= 20)%nat); [by rewrite Nat.min_l | rewrite Nat.min_r by lia].
    by rewrite !take_ge by (rewrite Hf; lia).
  - replace (Z.pred (Z.of_nat n)) with (Z.of_nat (n - 1)) by lia.
    replace (Z.succ k) with (k + 1) by lia. rewrite stream_enough by (done || lia). done.
Qed.

Lemma fill_spec f : (forall i, length (f i) = 20%nat) -> forall fuel k d out,
  (d <= length out)%nat -> (length out - d <= fuel)%nat ->
  fill fuel f k (Z.of_nat d) out =
  take d out ++ take (length out - d) (mjoin (f <$> seqZ k (Z.of_nat (length out - d)))).
Proof.
  intros Hf. induction fuel as [| fuel IH]; intros k d out Hd Hfuel; cbn [fill].
  - replace (length out - d)%nat with 0%nat by lia. simpl. rewrite app_nil_r, take_ge by lia. done.
  - unfold Zlen. destruct (Z.ltb_spec (Z.of_nat d) (Z.of_nat (length out))); last first.
    { replace (length out - d)%nat with 0%nat by lia. simpl. rewrite app_nil_r, take_ge by lia. done. }
    set (n := (length out - d)%nat) in *.
    assert (Et : clamp_digest (Z.of_nat (length out) - Z.of_nat d) = Z.of_nat (n `min` 20)).
    { unfold clamp_digest, SHA1_DIGEST_LEN. rewrite Z.gtb_ltb. case_ifs; lia. }
    rewrite Et, slice0, Nat2Z.id, <- Nat2Z.inj_add.
    set (new := take (n `min` 20) (f k)).
    assert (Hnew : length new = (n `min` 20)%nat) by (unfold new; rewrite length_take, Hf; lia).
    assert (Hlen : length (splice (Z.of_nat d) new out) = length out).
    { unfold splice. rewrite !length_app, length_take, length_drop, Hnew. lia. }
    rewrite IH, Hlen by (rewrite ?Hlen; lia). rewrite (stream_step f k n) by (done || lia). fold new.
    replace (length out - (d + n `min` 20))%nat with (n - 20)%nat by lia.
    rewrite app_assoc. f_equal. unfold splice. rewrite Nat2Z.id, (app_assoc _ new).
    rewrite take_app_le by (rewrite length_app, length_take, Hnew; lia).
    rewrite take_ge; [done |]. rewrite length_app, length_take, Hnew. lia.
Qed.

Lemma xor_bytes_length a b : length a = length b -> length (xor_bytes a b) = length a.
Proof. intros. unfold xor_bytes. rewrite length_zip_with. lia. Qed.

Lemma pbkdf2_U_length pass s j : length (pbkdf2_U pass s j) = 20%nat.
Proof. destruct j; simpl; apply hmac_spec_length. Qed.

Lemma xor_chain_length (U : nat -> list Z) js : forall acc,
  (forall j, length (U j) = 20%nat) -> length acc = 20%nat ->
  length (fold_left (fun acc j => xor_bytes acc (U j)) js acc) = 20%nat.
Proof.
  induction js as [| j js IH]; intros acc HU Ha; simpl; [done |].
  apply IH; [done |]. by rewrite xor_bytes_length by (by rewrite HU).
Qed.

Lemma pbkdf2_T_length pass salt c i : length (pbkdf2_T pass salt c i) = 20%nat.
Proof. apply xor_chain_length; intros; apply pbkdf2_U_length. Qed.

Lemma pbkdf2_iterate_spec pass s : forall n j out,
  pbkdf2_iterate n pass (pbkdf2_U pass s j) out =
  fold_left (fun acc j => xor_bytes acc (pbkdf2_U pass s j)) (seq (S j) n) out.
Proof.
  induction n as [| n IH]; intros j out; cbn [pbkdf2_iterate seq fold_left]; [done |].
  rewrite hmac_eq. apply (IH (S j)).
Qed.

Lemma pbkdf2_block_eq pass salt c i : pbkdf2_block pass salt c i = pbkdf2_T pass salt c i.
Proof.
  unfold pbkdf2_block, pbkdf2_T. rewrite hmac_vector_eq. cbn [mjoin list_join].
  rewrite app_nil_r. apply (pbkdf2_iterate_spec pass (salt ++ be_bytes32 i) _ 0).
Qed.

Lemma pbkdf2_loop_fill pass salt c : forall fuel index d out,
  0 <= d -> index + (Zlen out - d) < 2 ^ 32 -> 0 <= index ->
  pbkdf2_loop fuel pass salt c index d out = fill fuel (pbkdf2_T pass salt c) index d out.
Proof.
  induction fuel as [| fuel IH]; intros index d out Hd Hi Hi0; cbn [pbkdf2_loop fill]; [done |].
  destruct (Z.ltb_spec d (Zlen out)); [| done]. rewrite pbkdf2_block_eq.
  assert (1 <= clamp_digest (Zlen out - d) <= 20 /\ clamp_digest (Zlen out - d) <= Zlen out - d)
    by (unfold clamp_digest, SHA1_DIGEST_LEN; case_ifs; lia).
  rewrite u32_id by lia. rewrite IH; [done | lia | | lia].
  rewrite Zlen_splice; [lia | lia |].
  rewrite Zlen_slice; [lia | lia | lia |]. unfold Zlen at 2. rewrite pbkdf2_T_length. lia.
Qed.

(** [pbkdf2_sha1] fills the caller's buffer, of any length under [2^32 - 1]
    bytes, with the derived key of RFC 2898: the blocks [T_1, T_2, ...], each
    the exclusive or of the [U] sequence, laid end to end and cut to length. *)
Theorem pbkdf2_sha1_correct (pass salt out : list Z) (iterations : Z) :
  Zlen out < 2 ^ 32 - 1 ->
  pbkdf2_sha1 pass salt iterations out =
  take (length out)
    (mjoin (pbkdf2_T pass salt iterations <$> seqZ 1 (Zlen out))).
Proof.
  intros. unfold pbkdf2_sha1. rewrite pbkdf2_loop_fill by lia.
  rewrite (fill_spec _ (pbkdf2_T_length pass salt iterations) _ 1 0) by lia.
  simpl. by rewrite Nat.sub_0_r.
Qed.

Lemma pbkdf2_sha1_correct_witness :
  pbkdf2_sha1 [0x70; 0x61] [0x73] 2 (replicate 25 0) =
  take 25 (mjoin (pbkdf2_T [0x70; 0x61] [0x73] 2 <$> seqZ 1 25)).
Proof. exact (pbkdf2_sha1_correct [0x70; 0x61] [0x73] (replicate 25 0) 2 eq_refl). Defined.

Lemma sha1_prf_loop_fill key label data : forall fuel counter d out,
  0 <= d -> 0 <= counter -> counter * 20 <= d ->  Zlen out <= 5120 -> d = counter * 20 \/ d = Zlen out ->
  sha1_prf_loop fuel key label data counter d out =
  fill fuel (fun i => hmac_spec key (label ++ [0] ++ data ++ [i])) counter d out.
Proof.
  induction fuel as [| fuel IH]; intros counter d out Hd Hc Hcd Hlen Hor;
    cbn [sha1_prf_loop fill]; [done |].
  destruct (Z.ltb_spec d (Zlen out)); [| done].
  rewrite hmac_vector_eq. cbn [mjoin list_join]. rewrite app_nil_r, <- app_assoc.
  assert (clamp_digest (Zlen out - d) = 20 /\ 20 <= Zlen out - d \/
          clamp_digest (Zlen out - d) = Zlen out - d /\ Zlen out - d <= 20)
    by (unfold clamp_digest, SHA1_DIGEST_LEN; case_ifs; lia).
  assert (Hl : Zlen (splice d (slice 0 (clamp_digest (Zlen out - d))
                  (hmac_spec key (label ++ [0] ++ data ++ [counter]))) out) = Zlen out).
  { rewrite Zlen_splice; [done | lia |].
    rewrite Zlen_slice; [lia.. |]. unfold Zlen at 2. rewrite hmac_spec_length. lia. }
  destruct (decide (d + clamp_digest (Zlen out - d) = Zlen out)) as [Eend | ].
  - rewrite Eend. set (o := splice _ _ _) in *. rewrite <- Hl. clearbody o.
    destruct fuel; cbn [sha1_prf_loop fill]; [done |]. by rewrite Z.ltb_irrefl.
  - rewrite u8_id by lia. apply IH; rewrite ?Hl; lia.
Qed.

(** [sha1_prf] fills a buffer of at most 5120 bytes (256 digests, the
    range of its one-byte counter) with the 802.11 PRF: the HMACs of the
    label, its terminating zero, the data and the counters 0, 1, 2, ... *)
Theorem sha1_prf_correct (key label data out : list Z) :
  Zlen out <= 5120 ->
  sha1_prf key label data out =
  take (length out)
    (mjoin ((fun i => hmac_spec key (label ++ [0] ++ data ++ [i])) <$> seqZ 0 (Zlen out))).
Proof.
  intros. unfold sha1_prf. rewrite sha1_prf_loop_fill by lia.
  rewrite (fill_spec _ (fun i => hmac_spec_length key (label ++ [0] ++ data ++ [i])) _ 0 0) by lia.
  simpl. by rewrite Nat.sub_0_r.
Qed.

Lemma sha1_prf_correct_witness :
  sha1_prf [1; 2] [0x50] [3; 4] (replicate 48 0) =
  take 48 (mjoin ((fun i => hmac_spec [1; 2] ([0x50] ++ [0] ++ [3; 4] ++ [i])) <$> seqZ 0 48)).
Proof. apply (sha1_prf_correct [1; 2] [0x50] [3; 4] (replicate 48 0)). vm_compute. congruence. Defined.

End Sha1.
