(* ===== verification/Aes.v ===== *)
(** AES, AES key unwrap (RFC 3394) and AES-CCM, the second half of
    [kernel/lib/crypto.c].

    A block or a key is a list of bytes; the 16-byte state is the block in
    column-major order, as in the code.  The key schedule is the array
    [round_key] of 60 words. *)

From Stdlib Require Import Btauto.
From S2P Require Import Prelude.

Module Aes.

Definition sbox : list Z :=
  [0x63; 0x7c; 0x77; 0x7b; 0xf2; 0x6b; 0x6f; 0xc5; 0x30; 0x01; 0x67; 0x2b; 0xfe; 0xd7; 0xab; 0x76;
   0xca; 0x82; 0xc9; 0x7d; 0xfa; 0x59; 0x47; 0xf0; 0xad; 0xd4; 0xa2; 0xaf; 0x9c; 0xa4; 0x72; 0xc0;
   0xb7; 0xfd; 0x93; 0x26; 0x36; 0x3f; 0xf7; 0xcc; 0x34; 0xa5; 0xe5; 0xf1; 0x71; 0xd8; 0x31; 0x15;
   0x04; 0xc7; 0x23; 0xc3; 0x18; 0x96; 0x05; 0x9a; 0x07; 0x12; 0x80; 0xe2; 0xeb; 0x27; 0xb2; 0x75;
   0x09; 0x83; 0x2c; 0x1a; 0x1b; 0x6e; 0x5a; 0xa0; 0x52; 0x3b; 0xd6; 0xb3; 0x29; 0xe3; 0x2f; 0x84;
   0x53; 0xd1; 0x00; 0xed; 0x20; 0xfc; 0xb1; 0x5b; 0x6a; 0xcb; 0xbe; 0x39; 0x4a; 0x4c; 0x58; 0xcf;
   0xd0; 0xef; 0xaa; 0xfb; 0x43; 0x4d; 0x33; 0x85; 0x45; 0xf9; 0x02; 0x7f; 0x50; 0x3c; 0x9f; 0xa8;
   0x51; 0xa3; 0x40; 0x8f; 0x92; 0x9d; 0x38; 0xf5; 0xbc; 0xb6; 0xda; 0x21; 0x10; 0xff; 0xf3; 0xd2;
   0xcd; 0x0c; 0x13; 0xec; 0x5f; 0x97; 0x44; 0x17; 0xc4; 0xa7; 0x7e; 0x3d; 0x64; 0x5d; 0x19; 0x73;
   0x60; 0x81; 0x4f; 0xdc; 0x22; 0x2a; 0x90; 0x88; 0x46; 0xee; 0xb8; 0x14; 0xde; 0x5e; 0x0b; 0xdb;
   0xe0; 0x32; 0x3a; 0x0a; 0x49; 0x06; 0x24; 0x5c; 0xc2; 0xd3; 0xac; 0x62; 0x91; 0x95; 0xe4; 0x79;
   0xe7; 0xc8; 0x37; 0x6d; 0x8d; 0xd5; 0x4e; 0xa9; 0x6c; 0x56; 0xf4; 0xea; 0x65; 0x7a; 0xae; 0x08;
   0xba; 0x78; 0x25; 0x2e; 0x1c; 0xa6; 0xb4; 0xc6; 0xe8; 0xdd; 0x74; 0x1f; 0x4b; 0xbd; 0x8b; 0x8a;
   0x70; 0x3e; 0xb5; 0x66; 0x48; 0x03; 0xf6; 0x0e; 0x61; 0x35; 0x57; 0xb9; 0x86; 0xc1; 0x1d; 0x9e;
   0xe1; 0xf8; 0x98; 0x11; 0x69; 0xd9; 0x8e; 0x94; 0x9b; 0x1e; 0x87; 0xe9; 0xce; 0x55; 0x28; 0xdf;
   0x8c; 0xa1; 0x89; 0x0d; 0xbf; 0xe6; 0x42; 0x68; 0x41; 0x99; 0x2d; 0x0f; 0xb0; 0x54; 0xbb; 0x16].

Definition inv_sbox : list Z :=
  [0x52; 0x09; 0x6a; 0xd5; 0x30; 0x36; 0xa5; 0x38; 0xbf; 0x40; 0xa3; 0x9e; 0x81; 0xf3; 0xd7; 0xfb;
   0x7c; 0xe3; 0x39; 0x82; 0x9b; 0x2f; 0xff; 0x87; 0x34; 0x8e; 0x43; 0x44; 0xc4; 0xde; 0xe9; 0xcb;
   0x54; 0x7b; 0x94; 0x32; 0xa6; 0xc2; 0x23; 0x3d; 0xee; 0x4c; 0x95; 0x0b; 0x42; 0xfa; 0xc3; 0x4e;
   0x08; 0x2e; 0xa1; 0x66; 0x28; 0xd9; 0x24; 0xb2; 0x76; 0x5b; 0xa2; 0x49; 0x6d; 0x8b; 0xd1; 0x25;
   0x72; 0xf8; 0xf6; 0x64; 0x86; 0x68; 0x98; 0x16; 0xd4; 0xa4; 0x5c; 0xcc; 0x5d; 0x65; 0xb6; 0x92;
   0x6c; 0x70; 0x48; 0x50; 0xfd; 0xed; 0xb9; 0xda; 0x5e; 0x15; 0x46; 0x57; 0xa7; 0x8d; 0x9d; 0x84;
   0x90; 0xd8; 0xab; 0x00; 0x8c; 0xbc; 0xd3; 0x0a; 0xf7; 0xe4; 0x58; 0x05; 0xb8; 0xb3; 0x45; 0x06;
   0xd0; 0x2c; 0x1e; 0x8f; 0xca; 0x3f; 0x0f; 0x02; 0xc1; 0xaf; 0xbd; 0x03; 0x01; 0x13; 0x8a; 0x6b;
   0x3a; 0x91; 0x11; 0x41; 0x4f; 0x67; 0xdc; 0xea; 0x97; 0xf2; 0xcf; 0xce; 0xf0; 0xb4; 0xe6; 0x73;
   0x96; 0xac; 0x74; 0x22; 0xe7; 0xad; 0x35; 0x85; 0xe2; 0xf9; 0x37; 0xe8; 0x1c; 0x75; 0xdf; 0x6e;
   0x47; 0xf1; 0x1a; 0x71; 0x1d; 0x29; 0xc5; 0x89; 0x6f; 0xb7; 0x62; 0x0e; 0xaa; 0x18; 0xbe; 0x1b;
   0xfc; 0x56; 0x3e; 0x4b; 0xc6; 0xd2; 0x79; 0x20; 0x9a; 0xdb; 0xc0; 0xfe; 0x78; 0xcd; 0x5a; 0xf4;
   0x1f; 0xdd; 0xa8; 0x33; 0x88; 0x07; 0xc7; 0x31; 0xb1; 0x12; 0x10; 0x59; 0x27; 0x80; 0xec; 0x5f;
   0x60; 0x51; 0x7f; 0xa9; 0x19; 0xb5; 0x4a; 0x0d; 0x2d; 0xe5; 0x7a; 0x9f; 0x93; 0xc9; 0x9c; 0xef;
   0xa0; 0xe0; 0x3b; 0x4d; 0xae; 0x2a; 0xf5; 0xb0; 0xc8; 0xeb; 0xbb; 0x3c; 0x83; 0x53; 0x99; 0x61;
   0x17; 0x2b; 0x04; 0x7e; 0xba; 0x77; 0xd6; 0x26; 0xe1; 0x69; 0x14; 0x63; 0x55; 0x21; 0x0c; 0x7d].

Definition xtime (v : Z) : Z :=
  u8 (Z.lxor (Z.shiftl v 1) (if negb (Z.land v 0x80 =? 0) then 0x1B else 0)).

(** [while (b)]: [b] has eight bits. *)
Fixpoint gmul_loop (fuel : nat) (a b result : Z) : Z :=
  match fuel with
  | O => result
  | S n =>
      if b =? 0 then result
      else gmul_loop n (xtime a) (Z.shiftr b 1)
             (if negb (Z.land b 1 =? 0) then Z.lxor result a else result)
  end.
Definition gmul (a b : Z) : Z := gmul_loop 8 a b 0.

Definition sub_word (w : Z) : Z :=
  Z.lor (Z.lor (Z.lor (Z.shiftl sbox.[Z.land (Z.shiftr w 24) 0xFF] 24)
                      (Z.shiftl sbox.[Z.land (Z.shiftr w 16) 0xFF] 16))
               (Z.shiftl sbox.[Z.land (Z.shiftr w 8) 0xFF] 8))
        sbox.[Z.land w 0xFF].

Record aes_ctx := AesCtx { round_key : list Z; rounds : Z }.

(** One turn of the expansion loop, on the schedule and [rcon]. *)
Definition expand_step (nk : Z) (s : list Z * Z) (i : Z) : list Z * Z :=
  let '(rk, rcon) := s in
  let t := rk.[i - 1] in
  let '(t, rcon) :=
    if i `mod` nk =? 0 then
      (Z.lxor (sub_word (Z.lor (u32 (Z.shiftl t 8)) (Z.shiftr t 24))) (Z.shiftl rcon 24), xtime rcon)
    else if ((6 <? nk) && (i `mod` nk =? 4))%bool then (sub_word t, rcon)
    else (t, rcon) in
  (upd i (Z.lxor rk.[i - nk] t) rk, rcon).

(** [nk] key words copied in, then the loop. *)
Definition expand_words (nk : Z) (key rk : list Z) : list Z :=
  let rk := fold_left (fun rk i =>
      upd i (Z.lor (Z.lor (Z.lor (Z.shiftl key.[4 * i] 24) (Z.shiftl key.[4 * i + 1] 16))
                          (Z.shiftl key.[4 * i + 2] 8)) key.[4 * i + 3]) rk)
    (seqZ 0 nk) rk in
  (fold_left (expand_step nk) (seqZ nk (4 * (nk + 6 + 1) - nk)) (rk, 1)).1.

Definition aes_expand_key (ctx : aes_ctx) (key : list Z) (key_len : Z) : bool * aes_ctx :=
  let expand nk := (true, AesCtx (expand_words nk key (round_key ctx)) (nk + 6)) in
  if key_len =? 16 then expand 4
  else if key_len =? 24 then expand 6
  else if key_len =? 32 then expand 8
  else (false, ctx).

Definition aes_set_encrypt_key := aes_expand_key.
Definition aes_set_decrypt_key := aes_expand_key.

(** *** The cipher *)

Definition sub_bytes (st : list Z) : list Z := (fun b => sbox.[b]) <$> st.
Definition inv_sub_bytes (st : list Z) : list Z := (fun b => inv_sbox.[b]) <$> st.

(** Byte [4c + r] of the state, for all [c] and [r]. *)
Definition cells : list (Z * Z) := (fun i => (i / 4, i `mod` 4)) <$> seqZ 0 16.

Definition add_round_key (st : list Z) (w : list Z) : list Z :=
  (fun '(c, r) => Z.lxor st.[4 * c + r] (u8 (Z.shiftr w.[c] (24 - 8 * r)))) <$> cells.
Definition shift_rows (st : list Z) : list Z :=
  (fun '(c, r) => st.[4 * Z.land (c + r) 3 + r]) <$> cells.
Definition inv_shift_rows (st : list Z) : list Z :=
  (fun '(c, r) => st.[4 * Z.land (c - r + 4) 3 + r]) <$> cells.

Definition mix_column (a0 a1 a2 a3 : Z) : list Z :=
  [u8 (Z.lxor (Z.lxor (Z.lxor (xtime a0) (Z.lxor (xtime a1) a1)) a2) a3);
   u8 (Z.lxor (Z.lxor (Z.lxor a0 (xtime a1)) (Z.lxor (xtime a2) a2)) a3);
   u8 (Z.lxor (Z.lxor (Z.lxor a0 a1) (xtime a2)) (Z.lxor (xtime a3) a3));
   u8 (Z.lxor (Z.lxor (Z.lxor (Z.lxor (xtime a0) a0) a1) a2) (xtime a3))].
Definition inv_mix_column (a0 a1 a2 a3 : Z) : list Z :=
  [u8 (Z.lxor (Z.lxor (Z.lxor (gmul a0 14) (gmul a1 11)) (gmul a2 13)) (gmul a3 9));
   u8 (Z.lxor (Z.lxor (Z.lxor (gmul a0 9) (gmul a1 14)) (gmul a2 11)) (gmul a3 13));
   u8 (Z.lxor (Z.lxor (Z.lxor (gmul a0 13) (gmul a1 9)) (gmul a2 14)) (gmul a3 11));
   u8 (Z.lxor (Z.lxor (Z.lxor (gmul a0 11) (gmul a1 13)) (gmul a2 9)) (gmul a3 14))].

Definition on_columns (f : Z -> Z -> Z -> Z -> list Z) (st : list Z) : list Z :=
  mjoin ((fun c => f st.[4 * c] st.[4 * c + 1] st.[4 * c + 2] st.[4 * c + 3]) <$> seqZ 0 4).
Definition mix_columns : list Z -> list Z := on_columns mix_column.
Definition inv_mix_columns : list Z -> list Z := on_columns inv_mix_column.

(** [ctx->round_key + 4 * round] *)
Definition key_at (ctx : aes_ctx) (round : Z) : list Z := drop (Z.to_nat (4 * round)) (round_key ctx).

Definition enc_round (ctx : aes_ctx) (st : list Z) (round : Z) : list Z :=
  let st := shift_rows (sub_bytes st) in
  let st := if negb (round =? rounds ctx) then mix_columns st else st in
  add_round_key st (key_at ctx round).

Definition aes_encrypt_block (ctx : aes_ctx) (inp : list Z) : list Z :=
  fold_left (enc_round ctx) (seqZ 1 (rounds ctx)) (add_round_key inp (round_key ctx)).

Definition dec_round (ctx : aes_ctx) (st : list Z) (round : Z) : list Z :=
  let st := inv_sub_bytes (inv_shift_rows st) in
  let st := add_round_key st (key_at ctx round) in
  if negb (round =? 0) then inv_mix_columns st else st.

Definition aes_decrypt_block (ctx : aes_ctx) (inp : list Z) : list Z :=
  fold_left (dec_round ctx) (reverse (seqZ 0 (rounds ctx)))
    (add_round_key inp (key_at ctx (rounds ctx))).

(** A context on the stack. *)
Definition fresh_ctx : aes_ctx := AesCtx (replicate 60 0) 0.

Example aes_fips197_c1 :
  let ctx := (aes_set_encrypt_key fresh_ctx (seqZ 0 16) 16).2 in
  aes_encrypt_block ctx ((fun i => 17 * i) <$> seqZ 0 16) =
  [0x69; 0xC4; 0xE0; 0xD8; 0x6A; 0x7B; 0x04; 0x30; 0xD8; 0xCD; 0xB7; 0x80; 0x70; 0xB4; 0xC5; 0x5A].
Proof. vm_compute. reflexivity. Qed.

Example aes_fips197_c3 :
  let ctx := (aes_set_encrypt_key fresh_ctx (seqZ 0 32) 32).2 in
  aes_encrypt_block ctx ((fun i => 17 * i) <$> seqZ 0 16) =
  [0x8E; 0xA2; 0xB7; 0xCA; 0x51; 0x67; 0x45; 0xBF; 0xEA; 0xFC; 0x49; 0x90; 0x4B; 0x49; 0x60; 0x89].
Proof. vm_compute. reflexivity. Qed.

(** *** Comparison *)

Definition crypto_equal (x y : list Z) (len : Z) : bool :=
  fold_left (fun diff i => Z.lor diff (u8 (Z.lxor x.[i] y.[i]))) (seqZ 0 len) 0 =? 0.

(** *** Key unwrap *)

Definition unwrap_iv : list Z := replicate 8 0xA6.

(** [block[4..8) ^= t], most significant byte first. *)
Definition xor_counter (a : list Z) (t : Z) : list Z :=
  [a.[0]; a.[1]; a.[2]; a.[3];
   Z.lxor a.[4] (u8 (Z.shiftr t 24)); Z.lxor a.[5] (u8 (Z.shiftr t 16));
   Z.lxor a.[6] (u8 (Z.shiftr t 8)); Z.lxor a.[7] (u8 t)].

Definition unwrap_step (ctx : aes_ctx) (n j : Z) (s : list Z * list Z) (i : Z) : list Z * list Z :=
  let '(a, out) := s in
  let t := u32 (n * j + i) in
  let block := xor_counter a t ++ slice ((i - 1) * 8) 8 out in
  let block := aes_decrypt_block ctx block in
  (slice 0 8 block, splice ((i - 1) * 8) (slice 8 8 block) out).

Definition unwrap_pass (ctx : aes_ctx) (n : Z) (s : list Z * list Z) (j : Z) : list Z * list Z :=
  fold_left (unwrap_step ctx n j) (reverse (seqZ 1 n)) s.

(** The result and the output buffer. *)
Definition aes_unwrap_key (kek : list Z) (kek_len : Z) (inp : list Z) (in_len : Z)
    (out : list Z) : bool * list Z :=
  if ((in_len <? 16) || negb (in_len `mod` 8 =? 0))%bool then (false, out)
  else
    let '(ok, ctx) := aes_set_decrypt_key fresh_ctx kek kek_len in
    if negb ok then (false, out)
    else
      let n := in_len / 8 - 1 in
      let out := splice 0 (slice 8 (n * 8) inp) out in
      let '(a, out) := fold_left (unwrap_pass ctx n) (reverse (seqZ 0 6)) (slice 0 8 inp, out) in
      (crypto_equal a unwrap_iv 8, out).

(** *** CCM *)

Definition CCM_TAG_LEN : Z := 8.
Definition CCM_NONCE_LEN : Z := 13.
Definition CCM_L : Z := 2.

Definition ccm_xor_block (dst src : list Z) (len : Z) : list Z :=
  zip_with Z.lxor (slice 0 len dst) (slice 0 len src) ++ drop (Z.to_nat len) dst.

Definition ccm_counter (nonce : list Z) (index : Z) : list Z :=
  [CCM_L - 1] ++ slice 0 CCM_NONCE_LEN nonce ++ [u8 (Z.shiftr index 8); u8 index].

(** One link of the chain: a zeroed block with the bytes at its start. *)
Definition ccm_chain (ctx : aes_ctx) (mac bytes : list Z) : list Z :=
  aes_encrypt_block ctx (ccm_xor_block mac (splice 0 bytes (replicate 16 0)) 16).

Definition clamp16 (n : Z) : Z := if n >? 16 then 16 else n.

(** [while (offset < aad_len)]; a turn takes at least one byte. *)
Fixpoint ccm_mac_aad (fuel : nat) (ctx : aes_ctx) (aad : list Z) (offset : Z) (mac : list Z) : list Z :=
  match fuel with
  | O => mac
  | S n =>
      if offset <? Zlen aad then
        let take := clamp16 (Zlen aad - offset) in
        ccm_mac_aad n ctx aad (offset + take) (ccm_chain ctx mac (slice offset take aad))
      else mac
  end.

(** [for (offset = 0; offset < plain_len; offset += 16)] *)
Fixpoint ccm_mac_plain (fuel : nat) (ctx : aes_ctx) (plain : list Z) (offset : Z) (mac : list Z) : list Z :=
  match fuel with
  | O => mac
  | S n =>
      if offset <? Zlen plain then
        let take := clamp16 (Zlen plain - offset) in
        ccm_mac_plain n ctx plain (u32 (offset + 16)) (ccm_chain ctx mac (slice offset take plain))
      else mac
  end.

Definition ccm_mac (ctx : aes_ctx) (nonce aad plain : list Z) : list Z :=
  let aad_len := Zlen aad in
  let plain_len := Zlen plain in
  let flags := u8 (Z.lor (Z.lor (if aad_len =? 0 then 0 else 0x40)
                                (Z.shiftl ((CCM_TAG_LEN - 2) / 2) 3)) (CCM_L - 1)) in
  let block := [flags] ++ slice 0 CCM_NONCE_LEN nonce ++ [u8 (Z.shiftr plain_len 8); u8 plain_len] in
  let mac := aes_encrypt_block ctx block in
  let mac :=
    if aad_len =? 0 then mac
    else
      let head := [u8 (Z.shiftr aad_len 8); u8 aad_len] in
      let first := if aad_len <? 14 then aad_len else 14 in
      let mac := ccm_chain ctx mac (head ++ slice 0 first aad) in
      ccm_mac_aad (length aad) ctx aad first mac in
  ccm_mac_plain (length plain) ctx plain 0 mac.

Fixpoint ccm_ctr_loop (fuel : nat) (ctx : aes_ctx) (nonce inp : list Z) (offset index : Z)
    (out : list Z) : list Z :=
  match fuel with
  | O => out
  | S n =>
      if offset <? Zlen inp then
        let take := clamp16 (Zlen inp - offset) in
        let stream := aes_encrypt_block ctx (ccm_counter nonce index) in
        let bytes := zip_with Z.lxor (slice offset take inp) (slice 0 take stream) in
        ccm_ctr_loop n ctx nonce inp (u32 (offset + 16)) (u16 (index + 1)) (splice offset bytes out)
      else out
  end.

Definition ccm_ctr (ctx : aes_ctx) (nonce inp out : list Z) : list Z :=
  ccm_ctr_loop (length inp) ctx nonce inp 0 1 out.

Definition ccm_tag (mac s0 : list Z) : list Z := zip_with Z.lxor (slice 0 CCM_TAG_LEN mac) (slice 0 CCM_TAG_LEN s0).

Definition aes_ccm_encrypt (key nonce aad inp out : list Z) : list Z :=
  let '(ok, ctx) := aes_set_encrypt_key fresh_ctx key 16 in
  if negb ok then out
  else
    let mac := ccm_mac ctx nonce aad inp in
    let out := ccm_ctr ctx nonce inp out in
    let s0 := aes_encrypt_block ctx (ccm_counter nonce 0) in
    splice (Zlen inp) (ccm_tag mac s0) out.

Definition aes_ccm_decrypt (key nonce aad inp out : list Z) : bool * list Z :=
  if Zlen inp <? CCM_TAG_LEN then (false, out)
  else
    let plain_len := Zlen inp - CCM_TAG_LEN in
    let '(ok, ctx) := aes_set_encrypt_key fresh_ctx key 16 in
    if negb ok then (false, out)
    else
      let out := ccm_ctr ctx nonce (slice 0 plain_len inp) out in
      let mac := ccm_mac ctx nonce aad (slice 0 plain_len out) in
      let s0 := aes_encrypt_block ctx (ccm_counter nonce 0) in
      let tag := ccm_tag mac s0 in
      (crypto_equal tag (slice plain_len CCM_TAG_LEN inp) CCM_TAG_LEN, out).

(** RFC 3610, packet vector 1. *)
Example ccm_rfc3610_1 :
  aes_ccm_encrypt (seqZ 0xC0 16)
    [0x00; 0x00; 0x00; 0x03; 0x02; 0x01; 0x00; 0xA0; 0xA1; 0xA2; 0xA3; 0xA4; 0xA5]
    (seqZ 0 8) (seqZ 8 23) (replicate 31 0) =
  [0x58; 0x8C; 0x97; 0x9A; 0x61; 0xC6; 0x63; 0xD2; 0xF0; 0x66; 0xD0; 0xC2; 0xC0; 0xF9; 0x89; 0x80;
   0x6D; 0x5F; 0x6B; 0x61; 0xDA; 0xC3; 0x84; 0x17; 0xE8; 0xD1; 0x2C; 0xFD; 0xF9; 0x26; 0xE0].
Proof. vm_compute. reflexivity. Qed.

(** RFC 3394, 4.1. *)
Example unwrap_rfc3394_1 :
  aes_unwrap_key (seqZ 0 16) 16
    [0x1F; 0xA6; 0x8B; 0x0A; 0x81; 0x12; 0xB4; 0x47; 0xAE; 0xF3; 0x4B; 0xD8; 0xFB; 0x5A; 0x7B; 0x82;
     0x9D; 0x3E; 0x86; 0x23; 0x71; 0xD2; 0xCF; 0xE5] 24 (replicate 16 0) =
  (true, (fun i => 17 * i) <$> seqZ 0 16).
Proof. vm_compute. reflexivity. Qed.

(** ** The field *)

(** Equalities of exclusive ors, bit by bit. *)
Ltac xor_solve :=
  apply Z.bits_inj'; intros ? ?; rewrite ?Z.lxor_spec; btauto.

Lemma u8_lxor a b : u8 (Z.lxor a b) = Z.lxor (u8 a) (u8 b).
Proof.
  apply Z.bits_inj'. intros i Hi. rewrite Z.lxor_spec, !u8_testbit, Z.lxor_spec by done. btauto.
Qed.

Lemma land_80 v : negb (Z.land v 0x80 =? 0) = Z.testbit v 7.
Proof.
  change 0x80 with (2 ^ 7). destruct (Z.testbit v 7) eqn:E.
  - apply negb_true_iff, Z.eqb_neq. intros H. apply (f_equal (fun z => Z.testbit z 7)) in H.
    by rewrite Z.land_spec, E, Z.pow2_bits_true, Z.bits_0 in H by lia.
  - apply negb_false_iff, Z.eqb_eq, Z.bits_inj'. intros i Hi.
    rewrite Z.land_spec, Z.pow2_bits_eqb, Z.bits_0 by lia.
    destruct (Z.eqb_spec 7 i); [subst; by rewrite E | by rewrite andb_false_r].
Qed.

Lemma xtime_testbit v i :
  0 <= i -> Z.testbit (xtime v) i =
  ((i <? 8) && xorb (Z.testbit v (i - 1)) (Z.testbit v 7 && Z.testbit 0x1B i))%bool.
Proof.
  intros. unfold xtime. rewrite land_80, u8_testbit, Z.lxor_spec, Z.shiftl_spec by done.
  destruct (Z.testbit v 7); rewrite ?Z.bits_0; done.
Qed.

Lemma xtime_lxor a b : xtime (Z.lxor a b) = Z.lxor (xtime a) (xtime b).
Proof.
  apply Z.bits_inj'. intros i Hi. rewrite Z.lxor_spec, !xtime_testbit, !Z.lxor_spec by done. btauto.
Qed.

Lemma u8_xtime a : u8 (xtime a) = xtime a.
Proof. unfold xtime. apply u8_id, u8_range. Qed.

Lemma xtime_is_u8 a : is_u8 (xtime a).
Proof. apply u8_is_u8. Qed.

Lemma gmul_9 a : gmul a 9 = Z.lxor a (xtime (xtime (xtime a))).
Proof. done. Qed.
Lemma gmul_11 a : gmul a 11 = Z.lxor (Z.lxor a (xtime a)) (xtime (xtime (xtime a))).
Proof. done. Qed.
Lemma gmul_13 a : gmul a 13 = Z.lxor (Z.lxor a (xtime (xtime a))) (xtime (xtime (xtime a))).
Proof. done. Qed.
Lemma gmul_14 a : gmul a 14 = Z.lxor (Z.lxor (xtime a) (xtime (xtime a))) (xtime (xtime (xtime a))).
Proof. done. Qed.

(** Pushing every operation down to iterated doublings of the four bytes, in
    which the two matrices cancel. *)
Ltac mix_solve a0 a1 a2 a3 :=
  rewrite ?gmul_9, ?gmul_11, ?gmul_13, ?gmul_14, ?u8_lxor, ?xtime_lxor, ?u8_xtime;
  rewrite ?u8_lxor, ?u8_xtime, ?(u8_id a0), ?(u8_id a1), ?(u8_id a2), ?(u8_id a3) by done;
  rewrite ?xtime_lxor;
  xor_solve.

#[local] Opaque xtime u8.

Lemma list4_eq (a b c d a' b' c' d' : Z) :
  a = a' -> b = b' -> c = c' -> d = d' -> [a; b; c; d] = [a'; b'; c'; d'].
Proof. congruence. Qed.

Lemma inv_mix_mix a0 a1 a2 a3 b0 b1 b2 b3 :
  is_u8 a0 -> is_u8 a1 -> is_u8 a2 -> is_u8 a3 ->
  mix_column a0 a1 a2 a3 = [b0; b1; b2; b3] -> inv_mix_column b0 b1 b2 b3 = [a0; a1; a2; a3].
Proof.
  intros H0 H1 H2 H3 E. unfold mix_column in E. inversion_clear E.
  unfold inv_mix_column. apply list4_eq; mix_solve a0 a1 a2 a3.
Qed.

Lemma mix_inv_mix a0 a1 a2 a3 b0 b1 b2 b3 :
  is_u8 a0 -> is_u8 a1 -> is_u8 a2 -> is_u8 a3 ->
  inv_mix_column a0 a1 a2 a3 = [b0; b1; b2; b3] -> mix_column b0 b1 b2 b3 = [a0; a1; a2; a3].
Proof.
  intros H0 H1 H2 H3 E. unfold inv_mix_column in E. inversion_clear E.
  unfold mix_column. apply list4_eq; mix_solve a0 a1 a2 a3.
Qed.

(** ** The layers of a round *)

Definition is_block (st : list Z) : Prop := length st = 16%nat /\ Forall is_u8 st.

(** The sixteen bytes of a block, by name. *)
Lemma is_block_inv (P : list Z -> Prop) :
  (forall x0 x1 x2 x3 x4 x5 x6 x7 x8 x9 x10 x11 x12 x13 x14 x15,
     Forall is_u8 [x0; x1; x2; x3; x4; x5; x6; x7; x8; x9; x10; x11; x12; x13; x14; x15] ->
     P [x0; x1; x2; x3; x4; x5; x6; x7; x8; x9; x10; x11; x12; x13; x14; x15]) ->
  forall st, is_block st -> P st.
Proof.
  intros H st [Hl Hb]. do 16 (destruct st as [| ? st]; [done |]). destruct st; [| done]. by apply H.
Qed.

Ltac block_cases := apply is_block_inv; intros.

Lemma inv_shift_shift st : is_block st -> inv_shift_rows (shift_rows st) = st.
Proof. revert st. block_cases. reflexivity. Qed.

Lemma shift_inv_shift st : is_block st -> shift_rows (inv_shift_rows st) = st.
Proof. revert st. block_cases. reflexivity. Qed.

Definition sbox_ok (x : Z) : bool :=
  ((inv_sbox.[sbox.[x]] =? x) && (0 <=? sbox.[x]) && (sbox.[x] <? 256))%bool.
Definition inv_sbox_ok (x : Z) : bool :=
  ((sbox.[inv_sbox.[x]] =? x) && (0 <=? inv_sbox.[x]) && (inv_sbox.[x] <? 256))%bool.

Lemma sbox_all_ok : forallb (fun x => sbox_ok x && inv_sbox_ok x)%bool (seqZ 0 256) = true.
Proof. vm_compute. reflexivity. Qed.

Lemma sbox_inv x :
  is_u8 x -> (inv_sbox.[sbox.[x]] = x /\ is_u8 sbox.[x]) /\
             (sbox.[inv_sbox.[x]] = x /\ is_u8 inv_sbox.[x]).
Proof.
  intros Hx. pose proof (byte_check _ sbox_all_ok x Hx) as H. cbn beta in H.
  unfold sbox_ok, inv_sbox_ok in H. bool_to_prop. done.
Qed.

#[local] Opaque sbox inv_sbox.

Lemma inv_sub_sub st : Forall is_u8 st -> inv_sub_bytes (sub_bytes st) = st.
Proof.
  induction 1 as [| x st Hx _ IH]; [done |].
  destruct (sbox_inv x Hx) as [[E _] _]. unfold inv_sub_bytes, sub_bytes in *.
  rewrite !fmap_cons. by rewrite E, IH.
Qed.

Lemma sub_inv_sub st : Forall is_u8 st -> sub_bytes (inv_sub_bytes st) = st.
Proof.
  induction 1 as [| x st Hx _ IH]; [done |].
  destruct (sbox_inv x Hx) as [_ [E _]]. unfold inv_sub_bytes, sub_bytes in *.
  rewrite !fmap_cons. by rewrite E, IH.
Qed.

Lemma sub_block st : is_block st -> is_block (sub_bytes st).
Proof.
  intros [Hl Hb]. split; [by unfold sub_bytes; rewrite length_fmap |].
  apply Forall_fmap. eapply Forall_impl; [exact Hb |]. intros x Hx. by apply sbox_inv.
Qed.

Lemma inv_sub_block st : is_block st -> is_block (inv_sub_bytes st).
Proof.
  intros [Hl Hb]. split; [by unfold inv_sub_bytes; rewrite length_fmap |].
  apply Forall_fmap. eapply Forall_impl; [exact Hb |]. intros x Hx. by apply sbox_inv.
Qed.

(** Byte [r] of word [c] of a round key. *)
Definition key_byte (w : list Z) (c r : Z) : Z := u8 (Z.shiftr w.[c] (24 - 8 * r)).

Lemma add_round_key_eq w x0 x1 x2 x3 x4 x5 x6 x7 x8 x9 x10 x11 x12 x13 x14 x15 :
  add_round_key [x0; x1; x2; x3; x4; x5; x6; x7; x8; x9; x10; x11; x12; x13; x14; x15] w =
  [Z.lxor x0 (key_byte w 0 0); Z.lxor x1 (key_byte w 0 1); Z.lxor x2 (key_byte w 0 2);
   Z.lxor x3 (key_byte w 0 3); Z.lxor x4 (key_byte w 1 0); Z.lxor x5 (key_byte w 1 1);
   Z.lxor x6 (key_byte w 1 2); Z.lxor x7 (key_byte w 1 3); Z.lxor x8 (key_byte w 2 0);
   Z.lxor x9 (key_byte w 2 1); Z.lxor x10 (key_byte w 2 2); Z.lxor x11 (key_byte w 2 3);
   Z.lxor x12 (key_byte w 3 0); Z.lxor x13 (key_byte w 3 1); Z.lxor x14 (key_byte w 3 2);
   Z.lxor x15 (key_byte w 3 3)].
Proof. reflexivity. Qed.

Lemma add_round_key_twice w st : is_block st -> add_round_key (add_round_key st w) w = st.
Proof. revert st. block_cases. rewrite !add_round_key_eq, !lxor_cancel. done. Qed.

Lemma add_round_key_block w st : is_block st -> is_block (add_round_key st w).
Proof.
  revert st. block_cases. rewrite add_round_key_eq. split; [done |].
  assert (Hk : forall c r, is_u8 (key_byte w c r)) by (intros; apply u8_is_u8).
  repeat match goal with H : Forall _ (_ :: _) |- _ => apply Forall_cons in H as [? H] end.
  repeat apply Forall_cons_2; auto using lxor_is_u8.
Qed.

Lemma shift_rows_eq x0 x1 x2 x3 x4 x5 x6 x7 x8 x9 x10 x11 x12 x13 x14 x15 :
  shift_rows [x0; x1; x2; x3; x4; x5; x6; x7; x8; x9; x10; x11; x12; x13; x14; x15] =
  [x0; x5; x10; x15; x4; x9; x14; x3; x8; x13; x2; x7; x12; x1; x6; x11].
Proof. reflexivity. Qed.

Lemma inv_shift_rows_eq x0 x1 x2 x3 x4 x5 x6 x7 x8 x9 x10 x11 x12 x13 x14 x15 :
  inv_shift_rows [x0; x1; x2; x3; x4; x5; x6; x7; x8; x9; x10; x11; x12; x13; x14; x15] =
  [x0; x13; x10; x7; x4; x1; x14; x11; x8; x5; x2; x15; x12; x9; x6; x3].
Proof. reflexivity. Qed.

Lemma shift_block st : is_block st -> is_block (shift_rows st).
Proof.
  revert st. block_cases. rewrite shift_rows_eq. split; [done |].
  repeat match goal with H : Forall _ (_ :: _) |- _ => apply Forall_cons in H as [? H] end.
  by repeat apply Forall_cons_2.
Qed.

Lemma inv_shift_block st : is_block st -> is_block (inv_shift_rows st).
Proof.
  revert st. block_cases. rewrite inv_shift_rows_eq. split; [done |].
  repeat match goal with H : Forall _ (_ :: _) |- _ => apply Forall_cons in H as [? H] end.
  by repeat apply Forall_cons_2.
Qed.

Lemma on_columns_eq f x0 x1 x2 x3 x4 x5 x6 x7 x8 x9 x10 x11 x12 x13 x14 x15 :
  on_columns f [x0; x1; x2; x3; x4; x5; x6; x7; x8; x9; x10; x11; x12; x13; x14; x15] =
  f x0 x1 x2 x3 ++ f x4 x5 x6 x7 ++ f x8 x9 x10 x11 ++ f x12 x13 x14 x15 ++ [].
Proof. reflexivity. Qed.

(** Two column maps that undo each other undo each other on the state. *)
Lemma on_columns_inv (f g : Z -> Z -> Z -> Z -> list Z) st :
  (forall a b c d, length (f a b c d) = 4%nat) ->
  (forall a b c d a' b' c' d', is_u8 a -> is_u8 b -> is_u8 c -> is_u8 d ->
     f a b c d = [a'; b'; c'; d'] -> g a' b' c' d' = [a; b; c; d]) ->
  is_block st -> on_columns g (on_columns f st) = st.
Proof.
  intros Hf Hfg. revert st. block_cases. rewrite on_columns_eq.
  repeat match goal with H : Forall _ (_ :: _) |- _ => apply Forall_cons in H as [? H] end.
  repeat match goal with |- context [f ?a ?b ?c ?d ++ _] =>
    let l := fresh "l" in let E := fresh "E" in
    pose proof (Hf a b c d); destruct (f a b c d) as [| ? [| ? [| ? [| ? [|]]]]] eqn:E; try done;
    apply Hfg in E; [| done..] end.
  cbn [app]. rewrite on_columns_eq.
  repeat match goal with H : g _ _ _ _ = _ |- _ => rewrite H; clear H end. done.
Qed.

Lemma on_columns_block f st :
  (forall a b c d, length (f a b c d) = 4%nat /\ Forall is_u8 (f a b c d)) ->
  is_block st -> is_block (on_columns f st).
Proof.
  intros Hf. revert st. block_cases. rewrite on_columns_eq. split.
  - rewrite !length_app. by rewrite !(fun a b c d => proj1 (Hf a b c d)).
  - rewrite !Forall_app. split_and!; try apply Hf. done.
Qed.

Lemma mix_column_bytes a b c d : length (mix_column a b c d) = 4%nat /\ Forall is_u8 (mix_column a b c d).
Proof. split; [done |]. repeat apply Forall_cons_2; auto using u8_is_u8. Qed.

Lemma inv_mix_column_bytes a b c d :
  length (inv_mix_column a b c d) = 4%nat /\ Forall is_u8 (inv_mix_column a b c d).
Proof. split; [done |]. repeat apply Forall_cons_2; auto using u8_is_u8. Qed.

Lemma inv_mix_mix_columns st : is_block st -> inv_mix_columns (mix_columns st) = st.
Proof. apply on_columns_inv; [done |]. intros *. apply inv_mix_mix. Qed.

Lemma mix_inv_mix_columns st : is_block st -> mix_columns (inv_mix_columns st) = st.
Proof. apply on_columns_inv; [done |]. intros *. apply mix_inv_mix. Qed.

Lemma mix_block st : is_block st -> is_block (mix_columns st).
Proof. apply on_columns_block. intros. apply mix_column_bytes. Qed.

Lemma inv_mix_block st : is_block st -> is_block (inv_mix_columns st).
Proof. apply on_columns_block. intros. apply inv_mix_column_bytes. Qed.

#[local] Hint Resolve sub_block inv_sub_block add_round_key_block shift_block inv_shift_block
  mix_block inv_mix_block : wos.

(** ** The cipher and its inverse *)

Section cipher.
Context (ctx : aes_ctx) (Hrounds : 1 <= rounds ctx).

(** The state of the encryption of [inp] after [n] rounds. *)
Definition after (inp : list Z) (n : nat) : list Z :=
  fold_left (enc_round ctx) (seqZ 1 (Z.of_nat n)) (add_round_key inp (round_key ctx)).

(** The last [n] rounds of a decryption from state [st]. *)
Definition undo (st : list Z) (n : nat) : list Z :=
  fold_left (dec_round ctx) (reverse (seqZ 0 (Z.of_nat n))) st.

Lemma after_S inp n : after inp (S n) = enc_round ctx (after inp n) (1 + Z.of_nat n).
Proof. unfold after. by rewrite seqZ_S, fold_left_app. Qed.

Lemma undo_S st n : undo st (S n) = undo (dec_round ctx st (Z.of_nat n)) n.
Proof. unfold undo. by rewrite seqZ_S, reverse_snoc. Qed.

Lemma enc_round_block st r : is_block st -> is_block (enc_round ctx st r).
Proof. intros. unfold enc_round. destruct (negb _); auto with wos. Qed.

Lemma dec_round_block st r : is_block st -> is_block (dec_round ctx st r).
Proof. intros. unfold dec_round. destruct (negb _); auto 6 with wos. Qed.

Lemma after_block inp n : is_block inp -> is_block (after inp n).
Proof.
  intros H. induction n as [| n IH]; [by apply add_round_key_block |].
  rewrite after_S. by apply enc_round_block.
Qed.

Lemma undo_block n : forall st, is_block st -> is_block (undo st n).
Proof.
  induction n as [| n IH]; intros st H; [done |]. rewrite undo_S. by apply IH, dec_round_block.
Qed.

(** A middle round of either cipher. *)
Lemma enc_round_middle st n :
  Z.of_nat (S n) < rounds ctx ->
  enc_round ctx st (1 + Z.of_nat n) =
  add_round_key (mix_columns (shift_rows (sub_bytes st))) (key_at ctx (Z.of_nat (S n))).
Proof.
  intros. unfold enc_round. destruct (Z.eqb_spec (1 + Z.of_nat n) (rounds ctx)); [lia |].
  do 2 f_equal. lia.
Qed.

Lemma dec_round_middle st n :
  dec_round ctx st (Z.of_nat (S n)) =
  inv_mix_columns (add_round_key (inv_sub_bytes (inv_shift_rows st)) (key_at ctx (Z.of_nat (S n)))).
Proof. done. Qed.

Lemma dec_round_last st :
  dec_round ctx st (Z.of_nat 0) = add_round_key (inv_sub_bytes (inv_shift_rows st)) (round_key ctx).
Proof. done. Qed.

Lemma after_0 inp : after inp 0 = add_round_key inp (round_key ctx).
Proof. done. Qed.

Lemma undo_0 st : undo st 0 = st.
Proof. done. Qed.

(** Decryption retraces encryption, one round at a time. *)
Lemma undo_after inp n :
  is_block inp -> Z.of_nat n < rounds ctx ->
  undo (shift_rows (sub_bytes (after inp n))) (S n) = inp.
Proof.
  intros Hb. induction n as [| n IH]; intros Hn; rewrite undo_S.
  - rewrite undo_0, dec_round_last. pose proof (after_block inp 0 Hb) as H0.
    rewrite inv_shift_shift, inv_sub_sub by (auto with wos; apply H0).
    rewrite after_0. by apply add_round_key_twice.
  - pose proof (after_block inp n Hb) as H0. pose proof (after_block inp (S n) Hb) as H1.
    rewrite dec_round_middle, inv_shift_shift, inv_sub_sub by (auto with wos; apply H1).
    rewrite after_S, enc_round_middle, add_round_key_twice by (auto with wos; lia).
    rewrite inv_mix_mix_columns by auto with wos. apply IH. lia.
Qed.

Lemma after_undo n : forall st,
  is_block st -> Z.of_nat n < rounds ctx -> shift_rows (sub_bytes (after (undo st (S n)) n)) = st.
Proof.
  induction n as [| n IH]; intros st Hb Hn; rewrite undo_S.
  - rewrite undo_0, dec_round_last, after_0, add_round_key_twice by auto with wos.
    rewrite sub_inv_sub, shift_inv_shift; [done | done |]. apply inv_shift_block, Hb.
  - rewrite after_S, enc_round_middle, IH by (auto using dec_round_block; lia).
    rewrite dec_round_middle, mix_inv_mix_columns, add_round_key_twice by auto with wos.
    rewrite sub_inv_sub, shift_inv_shift; [done | done |]. apply inv_shift_block, Hb.
Qed.

Lemma encrypt_after inp :
  aes_encrypt_block ctx inp =
  add_round_key (shift_rows (sub_bytes (after inp (Z.to_nat (rounds ctx - 1)))))
    (key_at ctx (rounds ctx)).
Proof.
  unfold aes_encrypt_block.
  replace (rounds ctx) with (Z.of_nat (S (Z.to_nat (rounds ctx - 1)))) at 1 by lia.
  fold (after inp (S (Z.to_nat (rounds ctx - 1)))). rewrite after_S. unfold enc_round.
  replace (1 + Z.of_nat (Z.to_nat (rounds ctx - 1))) with (rounds ctx) by lia.
  by rewrite Z.eqb_refl.
Qed.

Lemma decrypt_undo inp :
  aes_decrypt_block ctx inp =
  undo (add_round_key inp (key_at ctx (rounds ctx))) (S (Z.to_nat (rounds ctx - 1))).
Proof. unfold aes_decrypt_block, undo. do 4 f_equal. lia. Qed.

Lemma decrypt_encrypt inp : is_block inp -> aes_decrypt_block ctx (aes_encrypt_block ctx inp) = inp.
Proof.
  intros. rewrite decrypt_undo, encrypt_after, add_round_key_twice by auto using after_block with wos.
  apply undo_after; [done | lia].
Qed.

Lemma encrypt_decrypt inp : is_block inp -> aes_encrypt_block ctx (aes_decrypt_block ctx inp) = inp.
Proof.
  intros. rewrite encrypt_after, decrypt_undo, after_undo by (auto with wos; lia).
  by apply add_round_key_twice.
Qed.

Lemma encrypt_block inp : is_block inp -> is_block (aes_encrypt_block ctx inp).
Proof. intros. rewrite encrypt_after. auto 6 using after_block with wos. Qed.

Lemma decrypt_block inp : is_block inp -> is_block (aes_decrypt_block ctx inp).
Proof. intros. rewrite decrypt_undo. apply undo_block. auto with wos. Qed.

End cipher.

#[local] Opaque expand_words.

Lemma expand_rounds c key len ctx :
  aes_expand_key c key len = (true, ctx) -> 1 <= rounds ctx.
Proof. unfold aes_expand_key. intros H. repeat case_if; simplify_eq; simpl; lia. Qed.

(** Under every key of 16, 24 or 32 bytes [aes_expand_key] succeeds (and
    under no other length), and [aes_decrypt_block] and [aes_encrypt_block]
    with its schedule are inverse permutations of the 16-byte blocks. *)
Theorem aes_permutation (c ctx : aes_ctx) (key blk : list Z) (key_len : Z) :
  (fst (aes_expand_key c key key_len) = true <-> key_len ∈ [16; 24; 32]) /\
  (aes_expand_key c key key_len = (true, ctx) -> is_block blk ->
   is_block (aes_encrypt_block ctx blk) /\ is_block (aes_decrypt_block ctx blk) /\
   aes_decrypt_block ctx (aes_encrypt_block ctx blk) = blk /\
   aes_encrypt_block ctx (aes_decrypt_block ctx blk) = blk).
Proof.
  split.
  - unfold aes_expand_key. rewrite !elem_of_cons, elem_of_nil.
    destruct (Z.eqb_spec key_len 16), (Z.eqb_spec key_len 24), (Z.eqb_spec key_len 32); simpl;
      split; try tauto; try done; lia.
  - intros Hk Hb. apply expand_rounds in Hk.
    auto using encrypt_block, decrypt_block, decrypt_encrypt, encrypt_decrypt.
Qed.

Lemma aes_permutation_witness :
  exists ctx, aes_expand_key fresh_ctx (seqZ 0 24) 24 = (true, ctx) /\
    aes_decrypt_block ctx (aes_encrypt_block ctx (seqZ 100 16)) = seqZ 100 16.
Proof.
  destruct (aes_expand_key fresh_ctx (seqZ 0 24) 24) as [ok ctx] eqn:E.
  assert (ok = true) as -> by (apply (f_equal fst) in E; by vm_compute in E).
  exists ctx. split; [done |].
  apply (aes_permutation fresh_ctx ctx (seqZ 0 24) (seqZ 100 16) 24); [done |].
  split; [done |]. apply Forall_forall. intros x Hx. apply elem_of_seqZ in Hx. unfold is_u8. lia.
Defined.

(** ** Comparison *)

Lemma crypto_equal_spec x y :
  length x = length y -> Forall is_u8 x -> Forall is_u8 y ->
  crypto_equal x y (Zlen x) = true <-> x = y.
Proof.
  intros Hl Hx Hy. unfold crypto_equal. rewrite Z.eqb_eq, fold_lor_zero, Forall_forall. split.
  - intros [_ H]. apply (list_eq_same_length _ _ (length x)); [done | done |].
    intros i a b Hi Ha Hb. specialize (H (Z.of_nat i)). rewrite elem_of_seqZ in H. unfold Zlen in H.
    rewrite Nat2Z.id, (list_lookup_total_correct _ _ _ Ha), (list_lookup_total_correct _ _ _ Hb) in H.
    assert (Hab : is_u8 (Z.lxor a b)).
    { apply lxor_is_u8; [apply (Forall_lookup_1 _ _ _ _ Hx Ha) | apply (Forall_lookup_1 _ _ _ _ Hy Hb)]. }
    rewrite u8_id in H by exact Hab. apply Z.lxor_eq, H. lia.
  - intros ->. split; [done |]. intros i _. by rewrite Z.lxor_nilpotent.
Qed.

(** ** Key wrap *)

(** RFC 3394, 2.2.1: one step of the index-based wrap. *)
Definition wrap_step (ctx : aes_ctx) (n j : Z) (s : list Z * list Z) (i : Z) : list Z * list Z :=
  let '(a, r) := s in
  let b := aes_encrypt_block ctx (a ++ slice ((i - 1) * 8) 8 r) in
  (xor_counter (slice 0 8 b) (u32 (n * j + i)), splice ((i - 1) * 8) (slice 8 8 b) r).
Definition wrap_pass (ctx : aes_ctx) (n : Z) (s : list Z * list Z) (j : Z) : list Z * list Z :=
  fold_left (wrap_step ctx n j) (seqZ 1 n) s.
Definition rfc3394_wrap (ctx : aes_ctx) (n : Z) (p : list Z) : list Z :=
  let '(a, r) := fold_left (wrap_pass ctx n) (seqZ 0 6) (unwrap_iv, p) in a ++ r.

(** An accumulator of 8 bytes and [n] blocks of 8. *)
Definition wrap_ok (n : Z) (s : list Z * list Z) : Prop :=
  Zlen s.1 = 8 /\ Forall is_u8 s.1 /\ Zlen s.2 = 8 * n /\ Forall is_u8 s.2.

Lemma Forall_slice {A} (P : A -> Prop) off n l : Forall P l -> Forall P (slice off n l).
Proof. intros. unfold slice. by apply Forall_take, Forall_drop. Qed.

Lemma Forall_splice {A} (P : A -> Prop) off new l : Forall P new -> Forall P l -> Forall P (splice off new l).
Proof. intros. unfold splice. rewrite !Forall_app. auto using Forall_take, Forall_drop. Qed.

Lemma xor_counter_twice a t : Zlen a = 8 -> xor_counter (xor_counter a t) t = a.
Proof.
  unfold Zlen. intros H. do 8 (destruct a as [| ? a]; [simpl in H; lia |]). destruct a; [| simpl in H; lia].
  unfold xor_counter. set (k3 := Z.shiftr t 24). set (k2 := Z.shiftr t 16). set (k1 := Z.shiftr t 8).
  clearbody k1 k2 k3. cbv [lookup_total list_lookup_total Z.to_nat Pos.to_nat Pos.iter_op Nat.add].
  by rewrite !lxor_cancel.
Qed.

Lemma xor_counter_bytes a t : Zlen a = 8 -> Forall is_u8 a -> Forall is_u8 (xor_counter a t).
Proof.
  unfold Zlen. intros H Hb. do 8 (destruct a as [| ? a]; [simpl in H; lia |]).
  repeat match goal with H : Forall _ (_ :: _) |- _ => apply Forall_cons in H as [? H] end.
  repeat apply Forall_cons_2; try done; apply lxor_is_u8; auto using u8_is_u8.
Qed.

(** The two halves of a block. *)
Lemma halves (b : list Z) : is_block b ->
  slice 0 8 b ++ slice 8 8 b = b /\ Zlen (slice 0 8 b) = 8 /\ Zlen (slice 8 8 b) = 8 /\
  Forall is_u8 (slice 0 8 b) /\ Forall is_u8 (slice 8 8 b).
Proof.
  intros [Hl Hb]. assert (Zlen b = 16) by (unfold Zlen; lia).
  split_and!; try apply Forall_slice; try apply Zlen_slice; try done; try lia.
  unfold slice. change (Z.to_nat 8) with 8%nat. change (Z.to_nat 0) with 0%nat. rewrite drop_0.
  rewrite (take_ge (drop 8 b)) by (rewrite length_drop; lia). apply take_drop.
Qed.

Lemma halves_app (a b : list Z) : Zlen a = 8 -> Zlen b = 8 -> slice 0 8 (a ++ b) = a /\ slice 8 8 (a ++ b) = b.
Proof.
  unfold Zlen, slice. intros. change (Z.to_nat 8) with 8%nat. change (Z.to_nat 0) with 0%nat.
  rewrite drop_0, take_app_le, take_ge, drop_app_le, drop_ge, take_ge by (rewrite ?length_drop; simpl; lia).
  done.
Qed.

Lemma join_block a b : Zlen a = 8 -> Zlen b = 8 -> Forall is_u8 a -> Forall is_u8 b -> is_block (a ++ b).
Proof. unfold Zlen. intros. split; [rewrite length_app; lia | by apply Forall_app]. Qed.

(** Reading back, and undoing, a write of 8 bytes. *)
Lemma slice8_splice (off : Z) (new l : list Z) :
  0 <= off -> off + 8 <= Zlen l -> Zlen new = 8 -> slice off 8 (splice off new l) = new.
Proof. intros ? ? H. rewrite <- H. apply slice_splice; lia. Qed.

Lemma splice8_back (off : Z) (new l : list Z) :
  0 <= off -> off + 8 <= Zlen l -> Zlen new = 8 -> splice off (slice off 8 l) (splice off new l) = l.
Proof. intros ? ? H. rewrite <- H. apply splice_back; lia. Qed.

Section wrap.
Context (ctx : aes_ctx) (Hrounds : 1 <= rounds ctx) (n : Z).

Lemma wrap_step_undo j s i :
  1 <= i <= n -> wrap_ok n s ->
  wrap_ok n (wrap_step ctx n j s i) /\ unwrap_step ctx n j (wrap_step ctx n j s i) i = s.
Proof.
  destruct s as [a r]. intros Hi (Ha & Hab & Hr & Hrb). cbn [fst snd] in *. unfold wrap_step.
  set (blk := slice ((i - 1) * 8) 8 r).
  assert (Hblk : Zlen blk = 8 /\ Forall is_u8 blk)
    by (split; [apply Zlen_slice; lia | by apply Forall_slice]).
  destruct Hblk as [Hbl Hbb].
  destruct (halves _ (encrypt_block ctx Hrounds _ (join_block a blk Ha Hbl Hab Hbb)))
    as (Eb & ? & ? & ? & ?).
  set (b := aes_encrypt_block ctx (a ++ blk)) in *. split.
  - split_and!; cbn [fst snd]; [done | by apply xor_counter_bytes | | by apply Forall_splice].
    rewrite Zlen_splice by lia. done.
  - unfold unwrap_step. rewrite xor_counter_twice by done.
    rewrite slice8_splice, Eb by (done || lia). unfold b.
    rewrite decrypt_encrypt by (done || by apply join_block).
    destruct (halves_app a blk) as [-> ->]; [done | done |]. f_equal. unfold blk.
    apply splice8_back; (done || lia).
Qed.

Lemma unwrap_step_undo j s i :
  1 <= i <= n -> wrap_ok n s ->
  wrap_ok n (unwrap_step ctx n j s i) /\ wrap_step ctx n j (unwrap_step ctx n j s i) i = s.
Proof.
  destruct s as [a r]. intros Hi (Ha & Hab & Hr & Hrb). cbn [fst snd] in *. unfold unwrap_step.
  set (blk := slice ((i - 1) * 8) 8 r). set (x := xor_counter a (u32 (n * j + i))).
  assert (Hblk : Zlen blk = 8 /\ Forall is_u8 blk)
    by (split; [apply Zlen_slice; lia | by apply Forall_slice]).
  assert (Hx : Zlen x = 8 /\ Forall is_u8 x) by (split; [done | by apply xor_counter_bytes]).
  destruct Hblk, Hx.
  destruct (halves _ (decrypt_block ctx Hrounds _ (join_block x blk ltac:(done) ltac:(done) ltac:(done) ltac:(done))))
    as (Eb & ? & ? & ? & ?).
  set (b := aes_decrypt_block ctx (x ++ blk)) in *. split.
  - split_and!; cbn [fst snd]; [done | done | | by apply Forall_splice].
    rewrite Zlen_splice by lia. done.
  - unfold wrap_step. rewrite slice8_splice, Eb by (done || lia). unfold b.
    rewrite encrypt_decrypt by (done || by apply join_block).
    destruct (halves_app x blk) as [-> ->]; [done | done |].
    unfold x. rewrite xor_counter_twice by done. f_equal. unfold blk.
    apply splice8_back; (done || lia).
Qed.

Lemma wrap_passes_undo s :
  wrap_ok n s -> wrap_ok n (fold_left (wrap_pass ctx n) (seqZ 0 6) s) /\
  fold_left (unwrap_pass ctx n) (reverse (seqZ 0 6)) (fold_left (wrap_pass ctx n) (seqZ 0 6) s) = s.
Proof.
  apply fold_undo. intros t j _. apply (fold_undo (wrap_ok n)).
  intros u i Hi. apply wrap_step_undo. apply elem_of_seqZ in Hi. lia.
Qed.

Lemma unwrap_passes_undo s :
  wrap_ok n s -> wrap_ok n (fold_left (unwrap_pass ctx n) (reverse (seqZ 0 6)) s) /\
  fold_left (wrap_pass ctx n) (seqZ 0 6) (fold_left (unwrap_pass ctx n) (reverse (seqZ 0 6)) s) = s.
Proof.
  intros Hs. rewrite <- (reverse_involutive (seqZ 0 6)) at 2. revert Hs. apply fold_undo.
  intros t j _ Ht. unfold wrap_pass. rewrite <- (reverse_involutive (seqZ 1 n)) at 1.
  revert Ht. apply (fold_undo (wrap_ok n)).
  intros u i Hi. apply unwrap_step_undo. apply elem_of_reverse, elem_of_seqZ in Hi. lia.
Qed.

End wrap.

Lemma unwrap_iv_ok : Zlen unwrap_iv = 8 /\ Forall is_u8 unwrap_iv.
Proof. split; [done |]. repeat apply Forall_cons_2; try done. Qed.

(** [aes_unwrap_key] accepts exactly what RFC 3394 wraps.  For [n] >= 1
    blocks, unwrapping the wrap of any [p] returns true and [p]; and whatever
    bytes come in, the result is true only if they are the wrap of the key
    that comes out. *)
Theorem aes_unwrap_key_correct (kek inp out : list Z) (kek_len n : Z) (ctx : aes_ctx) :
  1 <= n -> Zlen out = 8 * n ->
  aes_set_decrypt_key fresh_ctx kek kek_len = (true, ctx) ->
  (forall p, Zlen p = 8 * n -> Forall is_u8 p ->
     aes_unwrap_key kek kek_len (rfc3394_wrap ctx n p) (8 * (n + 1)) out = (true, p)) /\
  (Zlen inp = 8 * (n + 1) -> Forall is_u8 inp ->
   let '(ok, p) := aes_unwrap_key kek kek_len inp (8 * (n + 1)) out in
   ok = true -> inp = rfc3394_wrap ctx n p).
Proof.
  intros Hn Hout Hk. pose proof (expand_rounds _ _ _ _ Hk) as Hr.
  pose proof unwrap_iv_ok as [Hivl Hivb].
  assert (Hgo : forall a r, Zlen a = 8 -> Zlen r = 8 * n ->
    aes_unwrap_key kek kek_len (a ++ r) (8 * (n + 1)) out =
    let '(a, p) := fold_left (unwrap_pass ctx n) (reverse (seqZ 0 6)) (a, r) in
    (crypto_equal a unwrap_iv 8, p)).
  { intros a r Ha Hrl. unfold aes_unwrap_key. rewrite Hk.
    rewrite (proj2 (Z.ltb_ge _ _)) by lia. replace ((8 * (n + 1)) `mod` 8) with 0 by zlia. simpl negb.
    cbn [orb Z.eqb negb]. replace (8 * (n + 1) / 8 - 1) with n by zlia.
    replace (slice 0 8 (a ++ r)) with a; last first.
    { unfold slice, Zlen in *. change (Z.to_nat 0) with 0%nat. rewrite drop_0, take_app_le, take_ge by lia. done. }
    replace (slice 8 (n * 8) (a ++ r)) with r; last first.
    { unfold slice, Zlen in *. rewrite drop_app_ge, take_ge by (rewrite ?length_drop; lia).
      replace (Z.to_nat 8 - length a)%nat with 0%nat by lia. by rewrite drop_0. }
    rewrite <- (app_nil_r r). unfold splice. change (Z.to_nat 0) with 0%nat.
    rewrite drop_ge by (unfold Zlen in *; rewrite app_nil_r; lia). simpl. by rewrite !app_nil_r. }
  split.
  - intros p Hp Hpb. unfold rfc3394_wrap.
    destruct (wrap_passes_undo ctx Hr n (unwrap_iv, p)) as [Hok E]; [by split_and! |].
    destruct (fold_left (wrap_pass ctx n) _ _) as [a r]. destruct Hok as (? & ? & ? & ?).
    rewrite Hgo by done. rewrite E. done.
  - intros Hi Hib.
    assert (Hta : Zlen (take 8 inp) = 8) by (unfold Zlen in *; rewrite length_take; lia).
    assert (Htr : Zlen (drop 8 inp) = 8 * n) by (unfold Zlen in *; rewrite length_drop; lia).
    pose proof (Hgo _ _ Hta Htr) as Hrun. rewrite take_drop in Hrun. rewrite Hrun. clear Hrun.
    destruct (unwrap_passes_undo ctx Hr n (take 8 inp, drop 8 inp)) as [Hok E].
    { split_and!; cbn [fst snd]; auto using Forall_take, Forall_drop. }
    destruct (fold_left (unwrap_pass ctx n) _ _) as [a p]. destruct Hok as (Ha & ? & ? & ?).
    cbn [fst snd] in *. replace 8 with (Zlen a) by done. intros Heq.
    apply crypto_equal_spec in Heq; [| unfold Zlen in *; lia | done | done]. subst a.
    unfold rfc3394_wrap. rewrite E. by rewrite take_drop.
Qed.

Lemma aes_unwrap_key_correct_witness :
  aes_unwrap_key (seqZ 0 16) 16
    (rfc3394_wrap (AesCtx (expand_words 4 (seqZ 0 16) (replicate 60 0)) 10) 2 (seqZ 50 16))
    (8 * (2 + 1)) (replicate 16 0) = (true, seqZ 50 16).
Proof.
  refine (proj1 (aes_unwrap_key_correct (seqZ 0 16) (replicate 24 0) (replicate 16 0) 16 2
    (AesCtx (expand_words 4 (seqZ 0 16) (replicate 60 0)) 10) _ eq_refl eq_refl) (seqZ 50 16) eq_refl _); [lia |].
  apply Forall_forall. intros x Hx. apply elem_of_seqZ in Hx. unfold is_u8. lia.
Defined.

(** ** CCM *)

Lemma clamp16_spec n : 0 < n -> 0 < clamp16 n <= 16 /\ clamp16 n <= n /\ (clamp16 n = 16 \/ clamp16 n = n).
Proof. unfold clamp16. intros. case_ifs; lia. Qed.

Lemma Forall_zip_lxor (l k : list Z) : Forall is_u8 l -> Forall is_u8 k -> Forall is_u8 (zip_with Z.lxor l k).
Proof.
  intros Hl. revert k. induction Hl as [| x l Hx _ IH]; intros [| y k] Hk; simpl; try done.
  apply Forall_cons in Hk as [? ?]. apply Forall_cons_2; [by apply lxor_is_u8 | by apply IH].
Qed.

Section ccm.
Context (ctx : aes_ctx) (Hrounds : 1 <= rounds ctx) (nonce : list Z)
  (Hnonce : Zlen nonce = CCM_NONCE_LEN) (Hnb : Forall is_u8 nonce).

Lemma header_block x y z : is_u8 x -> is_u8 y -> is_u8 z ->
  is_block ([x] ++ slice 0 CCM_NONCE_LEN nonce ++ [y; z]).
Proof.
  intros. split.
  - rewrite !length_app. unfold slice, Zlen, CCM_NONCE_LEN in *.
    rewrite length_take, length_drop. cbn [length]. lia.
  - rewrite !Forall_app. split_and!; [by apply Forall_singleton | by apply Forall_slice |].
    by repeat apply Forall_cons_2.
Qed.

Lemma counter_block i : is_block (ccm_counter nonce i).
Proof. apply header_block; try apply u8_is_u8. done. Qed.

Lemma chain_block mac bytes :
  is_block mac -> Zlen bytes <= 16 -> Forall is_u8 bytes -> is_block (ccm_chain ctx mac bytes).
Proof.
  intros [Hml Hmb] Hl Hb. apply encrypt_block; [done |]. unfold ccm_xor_block.
  assert (Hs : Zlen (splice 0 bytes (replicate 16 0)) = 16)
    by (rewrite Zlen_splice; [done | lia | exact Hl]).
  assert (Hsb : Forall is_u8 (splice 0 bytes (replicate 16 0))).
  { apply Forall_splice; [done |]. by apply Forall_replicate. }
  rewrite drop_ge, app_nil_r by (unfold Zlen in *; lia). split.
  - rewrite length_zip_with. unfold slice, Zlen in *. rewrite !length_take, !length_drop. lia.
  - apply Forall_zip_lxor; by apply Forall_slice.
Qed.

Lemma mac_aad_block aad : Forall is_u8 aad -> forall fuel off mac,
  0 <= off -> is_block mac -> is_block (ccm_mac_aad fuel ctx aad off mac).
Proof.
  intros Hb. induction fuel as [| fuel IH]; intros off mac Ho Hm; cbn [ccm_mac_aad]; [done |].
  destruct (Z.ltb_spec off (Zlen aad)); [| done].
  destruct (clamp16_spec (Zlen aad - off)) as (? & ? & _); [lia |].
  apply IH; [lia |]. apply chain_block; [done | | by apply Forall_slice].
  rewrite Zlen_slice by lia. lia.
Qed.

Lemma mac_plain_block plain : Forall is_u8 plain -> forall fuel off mac,
  0 <= off -> is_block mac -> is_block (ccm_mac_plain fuel ctx plain off mac).
Proof.
  intros Hb. induction fuel as [| fuel IH]; intros off mac Ho Hm; cbn [ccm_mac_plain]; [done |].
  destruct (Z.ltb_spec off (Zlen plain)); [| done].
  destruct (clamp16_spec (Zlen plain - off)) as (? & ? & _); [lia |].
  apply IH; [apply u32_range |]. apply chain_block; [done | | by apply Forall_slice].
  rewrite Zlen_slice by lia. lia.
Qed.

Lemma mac_block aad plain : Forall is_u8 aad -> Forall is_u8 plain -> is_block (ccm_mac ctx nonce aad plain).
Proof.
  intros Ha Hp. unfold ccm_mac. apply mac_plain_block; [done | lia |].
  assert (H0 : is_block (aes_encrypt_block ctx ([u8 (Z.lor (Z.lor (if Zlen aad =? 0 then 0 else 64)
     (Z.shiftl ((CCM_TAG_LEN - 2) / 2) 3)) (CCM_L - 1))] ++ slice 0 CCM_NONCE_LEN nonce ++
     [u8 (Z.shiftr (Zlen plain) 8); u8 (Zlen plain)]))).
  { apply encrypt_block; [done |]. apply header_block; apply u8_is_u8. }
  destruct (Z.eqb_spec (Zlen aad) 0); [done |]. pose proof (Zlen_nonneg aad).
  apply mac_aad_block; [done | case_ifs; lia |]. apply chain_block; [done | |].
  - rewrite Zlen_app, Zlen_slice by (case_ifs; lia). unfold Zlen at 1. simpl. case_ifs; lia.
  - apply Forall_app. split; [| by apply Forall_slice]. repeat apply Forall_cons_2; auto using u8_is_u8.
Qed.

(** Byte [k] of the key stream. *)
Definition stream_byte (k : Z) : Z :=
  (aes_encrypt_block ctx (ccm_counter nonce (u16 (k / 16 + 1)))).[k `mod` 16].

Lemma ctr_loop_spec inp : Zlen inp <= 2 ^ 32 - 16 -> forall fuel m out,
  0 <= m -> Zlen inp <= Zlen out -> Zlen inp - 16 * m <= Z.of_nat fuel ->
  let r := ccm_ctr_loop fuel ctx nonce inp (16 * m) (u16 (m + 1)) out in
  Zlen r = Zlen out /\
  forall k, 0 <= k -> r.[k] = if ((16 * m <=? k) && (k <? Zlen inp))%bool
                       then Z.lxor inp.[k] (stream_byte k) else out.[k].
Proof.
  intros Hlen. induction fuel as [| fuel IH]; intros m out Hm Ho Hf; cbn [ccm_ctr_loop].
  { split; [done |]. intros k Hk. case_ifs; [lia | done]. }
  destruct (Z.ltb_spec (16 * m) (Zlen inp)) as [Hlt |].
  2: { split; [done |]. intros k Hk. case_ifs; [lia | done]. }
  destruct (clamp16_spec (Zlen inp - 16 * m)) as (Hc & Hc2 & Hc3); [lia |].
  set (t := clamp16 (Zlen inp - 16 * m)) in *. rewrite u32_id by lia.
  set (e := aes_encrypt_block ctx (ccm_counter nonce (u16 (m + 1)))).
  assert (He : Zlen e = 16).
  { destruct (encrypt_block ctx Hrounds _ (counter_block (u16 (m + 1)))) as [H _]. unfold Zlen, e. lia. }
  set (bytes := zip_with _ _ _).
  assert (Hb : Zlen bytes = t).
  { unfold bytes. rewrite Zlen_zip_with; rewrite !Zlen_slice by lia; lia. }
  replace (16 * m + 16) with (16 * (m + 1)) by lia.
  replace (u16 (u16 (m + 1) + 1)) with (u16 (m + 1 + 1))
    by (unfold u16; by rewrite Z.add_mod_idemp_l).
  destruct (IH (m + 1) (splice (16 * m) bytes out)) as [IHl IHk]; [lia | | lia |].
  { rewrite Zlen_splice by lia. lia. }
  split; [rewrite IHl, Zlen_splice by lia; done |].
  intros k Hk. rewrite IHk, get_splice by lia. rewrite Hb.
  destruct (Z.leb_spec (16 * (m + 1)) k), (Z.leb_spec (16 * m) k), (Z.ltb_spec k (Zlen inp)),
    (Z.ltb_spec k (16 * m + t)); simpl; try lia; try done.
  unfold bytes. rewrite get_zip_with, !get_slice by (rewrite ?Zlen_slice by lia; lia).
  unfold stream_byte. replace (k / 16) with m by zlia. replace (16 * m + (k - 16 * m)) with k by lia.
  fold e. f_equal. f_equal. f_equal. zlia.
Qed.

(** Counter mode: the first [Zlen inp] bytes of the buffer become the input
    exclusive-or the key stream, the rest stay. *)
Definition xor_stream (inp : list Z) : list Z :=
  (fun k => Z.lxor inp.[k] (stream_byte k)) <$> seqZ 0 (Zlen inp).

Lemma Zlen_xor_stream inp : Zlen (xor_stream inp) = Zlen inp.
Proof. unfold xor_stream, Zlen. rewrite length_fmap, length_seqZ. lia. Qed.

Lemma get_xor_stream inp k : 0 <= k < Zlen inp -> (xor_stream inp).[k] = Z.lxor inp.[k] (stream_byte k).
Proof.
  intros. unfold xor_stream. apply list_lookup_total_correct.
  rewrite list_lookup_fmap, lookup_seqZ_lt by (unfold Zlen in *; lia). cbn [fmap option_fmap option_map].
  by replace (0 + Z.of_nat (Z.to_nat k)) with k by lia.
Qed.

Lemma ccm_ctr_spec inp out :
  Zlen inp <= 2 ^ 32 - 16 -> Zlen inp <= Zlen out ->
  ccm_ctr ctx nonce inp out = splice 0 (xor_stream inp) out.
Proof.
  intros Hlen Ho. unfold ccm_ctr.
  destruct (ctr_loop_spec inp Hlen (length inp) 0 out) as [Hl Hk]; [lia | done | unfold Zlen; lia |].
  change (16 * 0) with 0 in *. change (u16 (0 + 1)) with 1 in *.
  apply list_eq_get; [rewrite Hl, Zlen_splice; rewrite ?Zlen_xor_stream; lia |].
  intros k Hkr. rewrite Hk, get_splice, Zlen_xor_stream by (rewrite ?Zlen_xor_stream; lia).
  rewrite Z.sub_0_r. change (0 + Zlen inp) with (Zlen inp).
  destruct ((0 <=? k) && (k <? Zlen inp))%bool eqn:E; [| done]. bool_to_prop.
  by rewrite get_xor_stream by lia.
Qed.

Lemma xor_stream_twice inp : xor_stream (xor_stream inp) = inp.
Proof.
  apply list_eq_get; rewrite !Zlen_xor_stream; [done |]. intros k Hk.
  rewrite !get_xor_stream by (rewrite ?Zlen_xor_stream; lia). apply lxor_cancel.
Qed.

Lemma stream_byte_u8 k : is_u8 (stream_byte k).
Proof.
  unfold stream_byte. destruct (encrypt_block ctx Hrounds _ (counter_block (u16 (k / 16 + 1)))) as [Hl Hb].
  apply Forall_lookup_total_1; [done |]. rewrite Hl. zlia.
Qed.

Lemma xor_stream_bytes inp : Forall is_u8 inp -> Forall is_u8 (xor_stream inp).
Proof.
  intros Hb. unfold xor_stream. apply Forall_fmap, Forall_forall. intros k Hk. apply elem_of_seqZ in Hk.
  apply lxor_is_u8; [| apply stream_byte_u8]. apply Forall_lookup_total_1; [done |]. unfold Zlen in *. lia.
Qed.

Lemma tag_bytes mac i : is_block mac ->
  let t := ccm_tag mac (aes_encrypt_block ctx (ccm_counter nonce i)) in Zlen t = 8 /\ Forall is_u8 t.
Proof.
  intros [Hl Hb]. destruct (encrypt_block ctx Hrounds _ (counter_block i)) as [Hl' Hb'].
  unfold ccm_tag, CCM_TAG_LEN. split; [| by apply Forall_zip_lxor; apply Forall_slice].
  rewrite Zlen_zip_with; rewrite !Zlen_slice by (unfold Zlen; lia); lia.
Qed.

End ccm.

Lemma splice0_whole {A} (new l : list A) : Zlen l = Zlen new -> splice 0 new l = new.
Proof. unfold Zlen, splice. intros. simpl. rewrite drop_ge by lia. by rewrite app_nil_r. Qed.

(** The output of encryption: the masked message, then the tag. *)
Lemma encrypt_layout (ctx : aes_ctx) nonce inp out tag :
  Zlen out = Zlen inp + Zlen tag ->
  splice (Zlen inp) tag (splice 0 (xor_stream ctx nonce inp) out) = xor_stream ctx nonce inp ++ tag.
Proof.
  intros H. pose proof (Zlen_xor_stream ctx nonce inp) as Hx. unfold splice, Zlen in *. simpl.
  rewrite Nat2Z.id, take_app_le, take_ge, drop_ge by (rewrite ?length_app, ?length_drop; lia).
  by rewrite app_nil_r.
Qed.

Lemma slice_app_l {A} (a b : list A) : slice 0 (Zlen a) (a ++ b) = a.
Proof. unfold slice, Zlen. simpl. by rewrite Nat2Z.id, drop_0, take_app_length. Qed.

Lemma slice_app_r {A} (a b : list A) n m : n = Zlen a -> m = Zlen b -> slice n m (a ++ b) = b.
Proof. intros -> ->. unfold slice, Zlen. by rewrite !Nat2Z.id, drop_app_length, take_ge. Qed.

Lemma expand_16 key : exists ctx, aes_set_encrypt_key fresh_ctx key 16 = (true, ctx) /\ 1 <= rounds ctx.
Proof. eexists. split; [done |]. simpl. lia. Qed.

(** C33: AES-CCM.  Decrypting what [aes_ccm_encrypt] produced under the same
    key, nonce and additional data returns true and the message; and whatever
    bytes arrive, [aes_ccm_decrypt] returns true only if they are exactly the
    encryption of the message it hands out, tag included. *)
Theorem aes_ccm_correct (key nonce aad : list Z) :
  Zlen nonce = CCM_NONCE_LEN -> Forall is_u8 nonce -> Forall is_u8 aad ->
  (forall p out out', Forall is_u8 p -> Zlen p <= 2 ^ 32 - 24 ->
     Zlen out = Zlen p + CCM_TAG_LEN -> Zlen out' = Zlen p ->
     aes_ccm_decrypt key nonce aad (aes_ccm_encrypt key nonce aad p out) out' = (true, p)) /\
  (forall c out out', Forall is_u8 c -> CCM_TAG_LEN <= Zlen c <= 2 ^ 32 - 16 ->
     Zlen out = Zlen c -> Zlen out' = Zlen c - CCM_TAG_LEN ->
     let '(ok, p) := aes_ccm_decrypt key nonce aad c out' in
     ok = true -> c = aes_ccm_encrypt key nonce aad p out).
Proof.
  intros Hn Hnb Hab. destruct (expand_16 key) as (ctx & Hk & Hr).
  set (tag := fun p => ccm_tag (ccm_mac ctx nonce aad p) (aes_encrypt_block ctx (ccm_counter nonce 0))).
  assert (Htag : forall p, Forall is_u8 p -> Zlen (tag p) = 8 /\ Forall is_u8 (tag p)).
  { intros p Hp. apply tag_bytes; try done. by apply mac_block. }
  assert (Henc : forall p out, Forall is_u8 p -> Zlen p <= 2 ^ 32 - 16 -> Zlen out = Zlen p + 8 ->
    aes_ccm_encrypt key nonce aad p out = xor_stream ctx nonce p ++ tag p).
  { intros p out Hp Hl Ho. unfold aes_ccm_encrypt. rewrite Hk. cbn [negb].
    rewrite ccm_ctr_spec by (done || lia). apply encrypt_layout. destruct (Htag p Hp). unfold tag in *. lia. }
  assert (Hdec : forall b t out, Forall is_u8 b -> Zlen b <= 2 ^ 32 - 16 -> Zlen t = 8 -> Zlen out = Zlen b ->
    aes_ccm_decrypt key nonce aad (b ++ t) out =
    (crypto_equal (tag (xor_stream ctx nonce b)) t 8, xor_stream ctx nonce b)).
  { intros b t out Hb Hl Ht Ho. unfold aes_ccm_decrypt, CCM_TAG_LEN.
    rewrite Zlen_app, Ht, Hk. pose proof (Zlen_nonneg b). rewrite (proj2 (Z.ltb_ge _ _)) by lia. cbn [negb].
    replace (Zlen b + 8 - 8) with (Zlen b) by lia.
    rewrite slice_app_l, ccm_ctr_spec by (done || lia).
    rewrite splice0_whole by (by rewrite Zlen_xor_stream).
    rewrite <- (Zlen_xor_stream ctx nonce b) at 1. rewrite <- (app_nil_r (xor_stream ctx nonce b)) at 2.
    rewrite slice_app_l. rewrite (slice_app_r b t) by done. done. }
  split.
  - intros p out out' Hp Hl Ho Ho'. unfold CCM_TAG_LEN in *. rewrite Henc by (done || lia).
    destruct (Htag p Hp) as [Ht Htb].
    rewrite Hdec by (rewrite ?Zlen_xor_stream; try apply xor_stream_bytes; done || lia).
    rewrite xor_stream_twice. f_equal. rewrite <- Ht. by apply crypto_equal_spec.
  - intros c out out' Hc Hl Ho Ho'. unfold CCM_TAG_LEN in *.
    set (b := take (Z.to_nat (Zlen c - 8)) c). set (t := drop (Z.to_nat (Zlen c - 8)) c).
    assert (Ec : c = b ++ t) by (unfold b, t; by rewrite take_drop).
    assert (Hbl : Zlen b = Zlen c - 8) by (unfold b, Zlen in *; rewrite length_take; lia).
    assert (Htl : Zlen t = 8) by (unfold t, Zlen in *; rewrite length_drop; lia).
    assert (Hb : Forall is_u8 b /\ Forall is_u8 t) by (rewrite Ec in Hc; by apply Forall_app in Hc).
    destruct Hb as [Hb Htb]. clearbody b t. subst c. rewrite Hdec by (done || lia).
    pose proof (xor_stream_bytes ctx Hr nonce Hn Hnb b Hb) as Hx.
    destruct (Htag _ Hx) as [Hgl Hgb]. rewrite <- Hgl. intros Heq.
    apply crypto_equal_spec in Heq; [| unfold Zlen in *; lia | done | done].
    rewrite Henc by (done || rewrite Zlen_xor_stream; lia).
    by rewrite xor_stream_twice, Heq.
Qed.

Lemma seqZ_bytes a n : 0 <= a -> a + n <= 256 -> Forall is_u8 (seqZ a n).
Proof. intros. apply Forall_forall. intros x Hx. apply elem_of_seqZ in Hx. unfold is_u8. lia. Qed.

Lemma aes_ccm_correct_witness :
  aes_ccm_decrypt (seqZ 0 16) (seqZ 16 13) (seqZ 1 5)
    (aes_ccm_encrypt (seqZ 0 16) (seqZ 16 13) (seqZ 1 5) (seqZ 60 20) (replicate 28 0))
    (replicate 20 0) = (true, seqZ 60 20).
Proof.
  refine (proj1 (aes_ccm_correct (seqZ 0 16) (seqZ 16 13) (seqZ 1 5) eq_refl _ _)
    (seqZ 60 20) (replicate 28 0) (replicate 20 0) _ _ eq_refl eq_refl);
    try (apply seqZ_bytes; lia). vm_compute. congruence.
Defined.

End Aes.
