(* ===== verification/Pipe.v ===== *)
(** Anonymous pipes, [kernel/fs/pipe.c]: a ring buffer of [PIPE_CAP] bytes
    between the descriptors of its two ends.

    [pipe_read] and [pipe_write] may wait.  Each is modelled by the segment it
    runs without giving up the processor: the segment ends in a return or in
    [sched_block], and a blocked call starts the same segment again, on the
    pipe as it is then, when it is woken. *)

From S2P Require Import Prelude.

Module Pipe.

Definition PIPE_CAP : Z := 4096.

Record pipe := Pipe {
  used : bool;
  buf : list Z;
  head : Z;
  tail : Z;
  count : Z;
  readers : Z;
  writers : Z;
}.

(** [kzalloc] may fail; the heap is not part of a pipe, so whether it did is an
    argument. *)
Definition pipe_create (kzalloc_ok : bool) : option pipe :=
  if kzalloc_ok then Some (Pipe true (replicate 4096 0) 0 0 0 1 1) else None.

Definition pipe_ref (p : pipe) (write_end : bool) : pipe :=
  if write_end then Pipe (used p) (buf p) (head p) (tail p) (count p) (readers p) (writers p + 1)
  else Pipe (used p) (buf p) (head p) (tail p) (count p) (readers p + 1) (writers p).

(** The pipe, and whether it was freed. *)
Definition pipe_unref (p : pipe) (write_end : bool) : pipe * bool :=
  let p := if write_end then Pipe (used p) (buf p) (head p) (tail p) (count p) (readers p) (writers p - 1)
           else Pipe (used p) (buf p) (head p) (tail p) (count p) (readers p - 1) (writers p) in
  if ((readers p <=? 0) && (writers p <=? 0))%bool
  then (Pipe false (buf p) (head p) (tail p) (count p) (readers p) (writers p), true)
  else (p, false).

(** [while (n < len && p->count > 0)]: the bytes copied out, newest last. *)
Fixpoint read_loop (fuel : nat) (p : pipe) (n len : Z) (out : list Z) : pipe * list Z :=
  match fuel with
  | O => (p, out)
  | S fuel =>
      if ((n <? len) && (0 <? count p))%bool then
        read_loop fuel
          (Pipe (used p) (buf p) (head p) (u32 (tail p + 1) `mod` PIPE_CAP) (count p - 1)
             (readers p) (writers p)) (n + 1) len (out ++ [(buf p).[tail p]])
      else (p, out)
  end.

Inductive read_result :=
| RBlock
| RRet (r : Z) (bytes : list Z) (po : option pipe).

Definition pipe_read (po : option pipe) (len : Z) : read_result :=
  match po with
  | None => RRet (- W_EBADF) [] None
  | Some p =>
      if len =? 0 then RRet 0 [] po
      else if ((count p =? 0) && (0 <? writers p))%bool then RBlock
      else if count p =? 0 then RRet 0 [] po
      else let '(p', out) := read_loop (Z.to_nat len) p 0 len [] in RRet (i32 (Zlen out)) out (Some p')
  end.

(** [while (n < len && p->count < PIPE_CAP)]: the bytes still to write. *)
Fixpoint write_loop (p : pipe) (n : Z) (rest : list Z) : pipe * Z * list Z :=
  match rest with
  | [] => (p, n, [])
  | x :: rest' =>
      if count p <? PIPE_CAP then
        write_loop
          (Pipe (used p) (upd (head p) x (buf p)) (u32 (head p + 1) `mod` PIPE_CAP) (tail p)
             (count p + 1) (readers p) (writers p)) (n + 1) rest'
      else (p, n, rest)
  end.

Inductive write_result :=
| WBlock (n : Z) (rest : list Z) (p : pipe)
| WRet (r n : Z) (po : option pipe).   (** [n] of the call's bytes are in the pipe *)

(** The outer loop, with [n] bytes written and [rest] to go.  A turn that does
    not return either writes everything or fills the pipe, so the second one
    returns or blocks. *)
Fixpoint write_turns (fuel : nat) (p : pipe) (n : Z) (rest : list Z) : write_result :=
  match fuel with
  | O => WBlock n rest p
  | S fuel =>
      match rest with
      | [] => WRet (i32 n) n (Some p)
      | _ =>
          if readers p <=? 0 then WRet (if 0 <? n then i32 n else - W_EPIPE) n (Some p)
          else if count p =? PIPE_CAP then WBlock n rest p
          else let '(p', n', rest') := write_loop p n rest in write_turns fuel p' n' rest'
      end
  end.

Definition pipe_write (po : option pipe) (n : Z) (rest : list Z) : write_result :=
  match po with
  | None => WRet (- W_EBADF) 0 None
  | Some p => if n + Zlen rest =? 0 then WRet 0 0 po else write_turns 2 p n rest
  end.

Definition pipe_pollin (po : option pipe) : bool :=
  match po with None => true | Some p => (0 <? count p) || (writers p <=? 0) end.
Definition pipe_pollout (po : option pipe) : bool :=
  match po with None => true | Some p => (count p <? PIPE_CAP) || (readers p <=? 0) end.

(** ** The queue in the ring *)

Definition pipe_wf (p : pipe) : Prop :=
  Zlen (buf p) = PIPE_CAP /\ 0 <= tail p < PIPE_CAP /\ 0 <= count p <= PIPE_CAP /\
  head p = (tail p + count p) `mod` PIPE_CAP.

(** The bytes waiting, oldest first. *)
Definition contents (p : pipe) : list Z :=
  (fun i => (buf p).[(tail p + i) `mod` PIPE_CAP]) <$> seqZ 0 (count p).

Lemma Zlen_contents p : 0 <= count p -> Zlen (contents p) = count p.
Proof. intros. unfold contents, Zlen. rewrite length_fmap, length_seqZ. lia. Qed.

Lemma u32_mod_cap x : 0 <= x < 2 ^ 32 -> u32 x `mod` PIPE_CAP = x `mod` PIPE_CAP.
Proof. intros. by rewrite u32_id. Qed.

(** Taking the byte at [tail]. *)
Definition pop (p : pipe) : pipe :=
  Pipe (used p) (buf p) (head p) (u32 (tail p + 1) `mod` PIPE_CAP) (count p - 1) (readers p) (writers p).

Lemma pop_spec p :
  pipe_wf p -> 0 < count p ->
  pipe_wf (pop p) /\ contents p = (buf p).[tail p] :: contents (pop p).
Proof.
  intros (Hl & Ht & Hc & Hh) Hpos. unfold pop, PIPE_CAP in *. split.
  - unfold pipe_wf, PIPE_CAP. cbn [buf tail head count]. rewrite u32_id by lia. split_and!; try done; try lia; rewrite ?Hh; zlia.
  - unfold contents, PIPE_CAP. cbn [buf tail count]. rewrite seqZ_cons by lia. rewrite fmap_cons.
    f_equal; [f_equal; f_equal; zlia |].
    replace (Z.pred (count p)) with (count p - 1) by lia. rewrite <- (fmap_add_seqZ 1 0), <- list_fmap_compose.
    apply list_fmap_ext. intros i x Hx. apply lookup_seqZ in Hx. simpl. f_equal. f_equal.
    rewrite u32_id by lia. zlia.
Qed.

Definition push (x : Z) (p : pipe) : pipe :=
  Pipe (used p) (upd (head p) x (buf p)) (u32 (head p + 1) `mod` PIPE_CAP) (tail p) (count p + 1)
    (readers p) (writers p).

Lemma push_spec x p :
  pipe_wf p -> count p < PIPE_CAP ->
  pipe_wf (push x p) /\ contents (push x p) = contents p ++ [x].
Proof.
  intros (Hl & Ht & Hc & Hh) Hroom. unfold push, PIPE_CAP in *. split.
  - unfold pipe_wf, PIPE_CAP. cbn [buf tail head count]. rewrite Zlen_upd, u32_id by zlia.
    split_and!; try done; try lia. rewrite Hh. zlia.
  - unfold contents, PIPE_CAP. cbn [buf tail count].
    replace (count p + 1) with (Z.of_nat (S (Z.to_nat (count p)))) by lia.
    rewrite seqZ_S, fmap_app. replace (Z.of_nat (Z.to_nat (count p))) with (count p) by lia. f_equal.
    + apply list_fmap_ext. intros i y Hy. apply lookup_seqZ in Hy. simpl.
      rewrite get_upd_ne by zlia. done.
    + simpl. f_equal. rewrite Hh. apply get_upd_eq. zlia.
Qed.

Lemma read_loop_spec fuel : forall p n len out,
  pipe_wf p -> 0 <= n <= len -> len - n <= Z.of_nat fuel ->
  let '(p', o) := read_loop fuel p n len out in
  exists taken, o = out ++ taken /\ pipe_wf p' /\ contents p = taken ++ contents p' /\
    Zlen taken = Z.min (len - n) (count p) /\ readers p' = readers p /\ writers p' = writers p.
Proof.
  induction fuel as [| fuel IH]; intros p n len out Hwf Hn Hf; cbn [read_loop];
    pose proof Hwf as (_ & _ & Hc & _).
  { exists []. rewrite app_nil_r. split_and!; try done. unfold Zlen. simpl. lia. }
  destruct (Z.ltb_spec n len), (Z.ltb_spec 0 (count p)); cbn [andb];
    try (exists []; rewrite app_nil_r; split_and!; try done; unfold Zlen; simpl; lia).
  destruct (pop_spec p Hwf) as [Hwf' Ec]; [done |]. fold (pop p).
  specialize (IH (pop p) (n + 1) len (out ++ [(buf p).[tail p]]) Hwf' ltac:(lia) ltac:(lia)).
  destruct (read_loop _ _ _ _ _) as [p' o]. destruct IH as (taken & -> & ? & E & Hl & ? & ?).
  exists ((buf p).[tail p] :: taken). rewrite <- app_assoc. split_and!; try done.
  - by rewrite Ec, E.
  - unfold Zlen in *. simpl length. unfold pop in Hl. cbn [count] in Hl. lia.
Qed.

Lemma write_loop_spec rest : forall p n,
  pipe_wf p ->
  let '(p', n', rest') := write_loop p n rest in
  exists given, rest = given ++ rest' /\ pipe_wf p' /\ contents p' = contents p ++ given /\
    n' = n + Zlen given /\ (rest' = [] \/ count p' = PIPE_CAP) /\
    (rest <> [] -> count p < PIPE_CAP -> given <> []) /\
    readers p' = readers p /\ writers p' = writers p.
Proof.
  induction rest as [| x rest IH]; intros p n Hwf; cbn [write_loop].
  { exists []. split_and!; try done; [by rewrite app_nil_r | unfold Zlen; simpl; lia | by left]. }
  pose proof Hwf as (_ & _ & Hc & _).
  destruct (Z.ltb_spec (count p) PIPE_CAP) as [Hlt | Hge].
  - destruct (push_spec x p Hwf Hlt) as [Hwf' Ec]. fold (push x p).
    specialize (IH (push x p) (n + 1) Hwf'). destruct (write_loop _ _ _) as [[p' n'] rest'].
    destruct IH as (given & -> & ? & E & -> & ? & _ & ? & ?).
    exists (x :: given). split_and!; try done.
    + by rewrite E, Ec, <- app_assoc.
    + unfold Zlen. simpl length. lia.
  - exists []. split_and!; try done; [by rewrite app_nil_r | unfold Zlen; simpl; lia | right; lia | lia].
Qed.

(** One segment of a write, whatever it ends in. *)
Lemma write_turns_spec p n rest :
  pipe_wf p -> exists p' given rest',
    rest = given ++ rest' /\ pipe_wf p' /\ contents p' = contents p ++ given /\
    readers p' = readers p /\ writers p' = writers p /\
    ((rest' = [] /\ write_turns 2 p n rest = WRet (i32 (n + Zlen given)) (n + Zlen given) (Some p')) \/
     (rest' <> [] /\ readers p <= 0 /\ given = [] /\
      write_turns 2 p n rest = WRet (if 0 <? n then i32 n else - W_EPIPE) n (Some p')) \/
     (rest' <> [] /\ 0 < readers p /\ count p' = PIPE_CAP /\
      write_turns 2 p n rest = WBlock (n + Zlen given) rest' p')).
Proof.
  intros Hwf. destruct rest as [| x rest].
  { exists p, [], []. split_and!; try done; [by rewrite app_nil_r |]. left. split; [done |].
    unfold Zlen. simpl. by rewrite Z.add_0_r. }
  cbn [write_turns]. destruct (Z.leb_spec (readers p) 0) as [Hr | Hr].
  { exists p, [], (x :: rest). split_and!; try done; [by rewrite app_nil_r |]. right. left. done. }
  destruct (Z.eqb_spec (count p) PIPE_CAP) as [Hc | Hc].
  { exists p, [], (x :: rest). split_and!; try done; [by rewrite app_nil_r |]. right. right.
    split_and!; try done. unfold Zlen. simpl length. by rewrite Z.add_0_r. }
  pose proof (write_loop_spec (x :: rest) p n Hwf) as H. destruct (write_loop _ _ _) as [[p' n'] rest'].
  destruct H as (given & E & Hwf' & Ec & -> & Hend & _ & Er & Ew).
  exists p', given, rest'. split_and!; try done. destruct rest' as [| y rest']; [by left |].
  right. right. destruct Hend as [| Hend]; [done |]. rewrite Er, Hend, Z.eqb_refl.
  rewrite (proj2 (Z.leb_gt _ _)) by lia. done.
Qed.

(** ** Runs *)

(** A pipe with the bytes that went in and came out so far.  A write step is
    one segment of a call with [rest] still to go after [n] bytes. *)
Inductive pipe_step : pipe * list Z * list Z -> pipe * list Z * list Z -> Prop :=
| step_read p i o len r bytes p' : 0 <= len ->
    pipe_read (Some p) len = RRet r bytes (Some p') -> pipe_step (p, i, o) (p', i, o ++ bytes)
| step_write_ret p i o n rest r n' p' : 0 <= n ->
    pipe_write (Some p) n rest = WRet r n' (Some p') ->
    pipe_step (p, i, o) (p', i ++ take (Z.to_nat (n' - n)) rest, o)
| step_write_block p i o n rest n' rest' p' : 0 <= n ->
    pipe_write (Some p) n rest = WBlock n' rest' p' ->
    pipe_step (p, i, o) (p', i ++ take (Z.to_nat (n' - n)) rest, o)
| step_ref p i o e : pipe_step (p, i, o) (pipe_ref p e, i, o)
| step_unref p i o e : pipe_step (p, i, o) ((pipe_unref p e).1, i, o).

Definition fifo (x : pipe * list Z * list Z) : Prop :=
  let '(p, i, o) := x in pipe_wf p /\ i = o ++ contents p.

Lemma contents_ends p q :
  buf q = buf p -> head q = head p -> tail q = tail p -> count q = count p -> pipe_wf p ->
  pipe_wf q /\ contents q = contents p.
Proof. unfold pipe_wf, contents. by intros -> -> -> ->. Qed.

Lemma pipe_read_spec p len :
  pipe_wf p -> 0 <= len ->
  (pipe_read (Some p) len = RBlock /\ 0 < len /\ count p = 0 /\ 0 < writers p) \/
  (exists bytes p', pipe_read (Some p) len = RRet (i32 (Zlen bytes)) bytes (Some p') /\
     pipe_wf p' /\ contents p = bytes ++ contents p' /\
     Zlen bytes = Z.min len (count p) /\ (0 < len -> count p = 0 -> writers p <= 0)).
Proof.
  intros Hwf Hlen. pose proof Hwf as (_ & _ & Hc & _). unfold pipe_read.
  destruct (Z.eqb_spec len 0) as [-> | Hl].
  { right. exists [], p. split_and!; try done; try (unfold Zlen; simpl; lia). }
  destruct (Z.eqb_spec (count p) 0) as [Ec | Ec]; cbn [andb].
  - destruct (Z.ltb_spec 0 (writers p)); [left; split_and!; try done; lia |].
    right. exists [], p. split_and!; try done; unfold Zlen; simpl; lia.
  - right. pose proof (read_loop_spec (Z.to_nat len) p 0 len [] Hwf ltac:(lia) ltac:(lia)) as H.
    destruct (read_loop _ _ _ _ _) as [p' o]. destruct H as (taken & -> & ? & ? & Hz & _).
    exists taken, p'. simpl. split_and!; try done; lia.
Qed.

Lemma fifo_step x y : pipe_step x y -> fifo x -> fifo y.
Proof.
  intros H. destruct H as [p i o len r bytes p' Hl H | p i o n rest r n' p' Hn H |
    p i o n rest n' rest' p' Hn H | p i o e | p i o e]; intros [Hwf ->]; cbn [pipe_write fifo] in *.
  - destruct (pipe_read_spec p len Hwf Hl) as [[E _] | (b & q & E & Hq & Ec & _)];
      rewrite E in H; simplify_eq.
    split; [done |]. by rewrite Ec, app_assoc.
  - destruct (n + Zlen rest =? 0) eqn:E0; simplify_eq.
    { split; [done |]. replace (Z.to_nat (0 - n)) with 0%nat by lia. by rewrite take_0, app_nil_r. }
    destruct (write_turns_spec p n rest Hwf) as (q & given & rest' & -> & Hq & Ec & _ & _ & Hcase).
    destruct Hcase as [[-> E] | [(_ & _ & -> & E) | (_ & _ & _ & E)]]; rewrite E in H; simplify_eq.
    + split; [done |]. rewrite Ec. replace (n + Zlen given - n) with (Zlen given) by lia.
      unfold Zlen. by rewrite Nat2Z.id, take_app_length, app_assoc.
    + split; [done |]. rewrite Ec, Z.sub_diag. by rewrite !app_nil_r.
  - destruct (n + Zlen rest =? 0) eqn:E0; simplify_eq.
    destruct (write_turns_spec p n rest Hwf) as (q & given & rest2 & -> & Hq & Ec & _ & _ & Hcase).
    destruct Hcase as [[-> E] | [(_ & _ & -> & E) | (_ & _ & _ & E)]]; rewrite E in H; simplify_eq.
    split; [done |]. rewrite Ec. replace (n + Zlen given - n) with (Zlen given) by lia.
    unfold Zlen. by rewrite Nat2Z.id, take_app_length, app_assoc.
  - destruct (contents_ends p (pipe_ref p e)) as [? ->]; by destruct e.
  - destruct (contents_ends p (pipe_unref p e).1) as [? ->]; try done;
      unfold pipe_unref; destruct e; by case_if.
Qed.

Lemma pipe_create_wf p : pipe_create true = Some p -> pipe_wf p /\ contents p = [].
Proof. intros [= <-]. split; [| done]. by repeat split. Qed.

(** C34: a pipe is a byte queue.  From a fresh pipe, after any interleaving of
    read segments, write segments (returning or blocking) and reference
    changes, the bytes handed to readers are the oldest of the bytes writers
    put in, in order, none lost, doubled or reordered; what is in between is
    in the ring, and is never more than [PIPE_CAP] bytes. *)
Theorem pipe_fifo (p0 p : pipe) (i o : list Z) :
  pipe_create true = Some p0 -> rtc pipe_step (p0, [], []) (p, i, o) ->
  pipe_wf p /\ i = o ++ contents p /\ Zlen i - Zlen o = count p /\ count p <= PIPE_CAP.
Proof.
  intros Hc Hs. apply pipe_create_wf in Hc as [Hwf Ec].
  assert (H : fifo (p, i, o)).
  { assert (H0 : fifo (p0, [], [])) by (split; [done | by rewrite Ec]). revert H0.
    induction Hs as [| x y z Hxy _ IH]; [done |]. intros Hx. by apply IH, (fifo_step x). }
  destruct H as [Hp ->]. pose proof Hp as (_ & _ & Hcnt & _).
  split_and!; try done; [| lia]. rewrite Zlen_app, Zlen_contents by lia. lia.
Qed.

Lemma pipe_fifo_witness :
  exists p, rtc pipe_step (Pipe true (replicate 4096 0) 0 0 0 1 1, [], []) (p, [7; 8; 9], [7; 8]) /\
    contents p = [9].
Proof.
  set (p0 := Pipe true (replicate 4096 0) 0 0 0 1 1).
  destruct (pipe_write (Some p0) 0 [7; 8; 9]) as [| r n' [p1 |]] eqn:E1; [by vm_compute in E1 | | by vm_compute in E1].
  assert (n' = 3) as -> by (vm_compute in E1; congruence).
  destruct (pipe_read (Some p1) 2) as [| r2 bytes [p2 |]] eqn:E2;
    [vm_compute in E1; simplify_eq; by vm_compute in E2 | | vm_compute in E1; simplify_eq; by vm_compute in E2].
  assert (bytes = [7; 8]) as -> by (vm_compute in E1; simplify_eq; vm_compute in E2; congruence).
  assert (Hs : rtc pipe_step (p0, [], []) (p2, [7; 8; 9], [7; 8])).
  { eapply rtc_l; [exact (step_write_ret p0 [] [] 0 [7; 8; 9] r 3 p1 ltac:(lia) E1) |].
    eapply rtc_l; [exact (step_read p1 _ _ 2 r2 [7; 8] p2 ltac:(lia) E2) |]. apply rtc_refl. }
  exists p2. split; [done |].
  destruct (pipe_fifo p0 p2 [7; 8; 9] [7; 8] eq_refl Hs) as (_ & E & _).
  symmetry. exact (app_inv_head [7; 8] [9] (contents p2) E).
Defined.

(** When a pipe call waits and what it returns.  A read of at least one
    byte waits exactly when [pipe_pollin] is false, returns 0 (end of file)
    only once the ring is empty and no writer is left, and otherwise as many
    of the oldest bytes as are there and fit.  A write waits exactly when its
    reader is alive and the ring is full, in which case [pipe_pollout] is
    false; with no reader it returns the count so far, or [-W_EPIPE] if that
    is zero; otherwise all its bytes are queued. *)
Theorem pipe_blocking (p : pipe) (len n : Z) (rest : list Z) :
  pipe_wf p -> 0 < len -> 0 <= n -> rest <> [] ->
  (pipe_read (Some p) len = RBlock <-> pipe_pollin (Some p) = false) /\
  (forall r bytes p', pipe_read (Some p) len = RRet r bytes (Some p') ->
     r = i32 (Zlen bytes) /\ contents p = bytes ++ contents p' /\ Zlen bytes = Z.min len (count p) /\
     (bytes = [] -> count p = 0 /\ writers p <= 0)) /\
  (forall n' rest' p', pipe_write (Some p) n rest = WBlock n' rest' p' ->
     pipe_pollout (Some p') = false /\ 0 < readers p' /\
     exists given, rest = given ++ rest' /\ n' = n + Zlen given /\ contents p' = contents p ++ given) /\
  (forall r n' p', pipe_write (Some p) n rest = WRet r n' (Some p') ->
     (readers p <= 0 /\ n' = n /\ contents p' = contents p /\ r = if 0 <? n then i32 n else - W_EPIPE) \/
     (n' = n + Zlen rest /\ r = i32 n' /\ contents p' = contents p ++ rest)).
Proof.
  intros Hwf Hlen Hn Hne. pose proof Hwf as (_ & _ & Hc & _).
  assert (Hnz : (n + Zlen rest =? 0) = false).
  { apply Z.eqb_neq. destruct rest; [done |]. unfold Zlen. simpl length. lia. }
  destruct (write_turns_spec p n rest Hwf) as (q & given & rest2 & E & Hq & Ec & Er & _ & Hcase).
  split_and!.
  - destruct (pipe_read_spec p len Hwf ltac:(lia)) as [(-> & _ & Hc0 & Hw) | (b & q' & -> & _ & _ & _ & Hw)];
      unfold pipe_pollin; rewrite orb_false_iff, Z.ltb_ge, Z.leb_gt.
    + split; [intros _; lia | done].
    + split; [done |]. intros [? ?]. specialize (Hw ltac:(lia)). lia.
  - intros r bytes p' H. destruct (pipe_read_spec p len Hwf ltac:(lia)) as [(E' & _) | (b & q' & E' & _ & Ec' & Hz & Hw)];
      rewrite E' in H; simplify_eq. split_and!; try done. intros ->. unfold Zlen in Hz. simpl in Hz.
    assert (count p = 0) by lia. split; [done | by apply Hw].
  - intros n' rest' p'. unfold pipe_write. rewrite Hnz.
    destruct Hcase as [[-> ->] | [(_ & _ & -> & ->) | (_ & Hr & Hfull & ->)]]; intros H; simplify_eq.
    unfold pipe_pollout. rewrite Hfull, orb_false_iff, Z.ltb_ge, Z.leb_gt. split_and!; try lia. by exists given.
  - intros r n' p'. unfold pipe_write. rewrite Hnz.
    destruct Hcase as [[-> ->] | [(_ & Hr & -> & ->) | (_ & Hr & Hfull & ->)]]; intros H; simplify_eq.
    + right. by rewrite app_nil_r.
    + left. by rewrite Ec, app_nil_r.
Qed.

Lemma pipe_blocking_witness :
  pipe_read (Some (Pipe true (replicate 4096 0) 0 0 0 1 1)) 5 = RBlock <->
  pipe_pollin (Some (Pipe true (replicate 4096 0) 0 0 0 1 1)) = false.
Proof.
  apply (pipe_blocking (Pipe true (replicate 4096 0) 0 0 0 1 1) 5 0 [1]); try done.
Defined.

End Pipe.
