(* ===== verification/Device.v ===== *)
(** What the filesystem relies on of a disk driver: the functions
    [ata_read_sectors], [usbdisk_read_sectors], [ramdisk_read_sectors] and
    their writing twins as one interface, with the laws a driver has to obey.
    The RAM disk discharges them in [Ramdisk]. *)

From S2P Require Import Prelude.

Inductive wfs_source := WFS_SOURCE_NONE | WFS_SOURCE_ATA | WFS_SOURCE_USB | WFS_SOURCE_RAMDISK.

#[export] Instance wfs_source_eq_dec : EqDecision wfs_source.
Proof. solve_decision. Defined.

Class BlockDevice (D : Type) := {
  dev_present : wfs_source -> D -> bool;
  dev_read : wfs_source -> Z -> Z -> D -> option (list Z) * D;      (** lba, sector count *)
  dev_write : wfs_source -> Z -> Z -> list Z -> D -> bool * D;
  sector : wfs_source -> D -> Z -> list Z;                          (** contents, for the laws *)
}.

(** What a device promises, for requests that end below sector [2^32]: a read that
    succeeds returns the sectors asked for and changes none; a write that
    succeeds replaces exactly the sectors it names, and one that fails leaves
    every other sector alone. *)
Class BlockDeviceLaws (D : Type) `{BlockDevice D} := {
  sector_len : forall src d n, Zlen (sector src d n) = 512;
  dev_read_same : forall src lba cnt d r d' src' n,
    dev_read src lba cnt d = (r, d') -> sector src' d' n = sector src' d n;
  dev_read_data : forall src lba cnt d buf d',
    0 <= lba -> 0 < cnt -> lba + cnt < 2 ^ 32 ->
    dev_read src lba cnt d = (Some buf, d') -> buf = mjoin (sector src d <$> seqZ lba cnt);
  dev_write_data : forall src lba cnt buf d d' n,
    0 <= lba -> 0 < cnt -> lba + cnt < 2 ^ 32 -> Zlen buf = cnt * 512 ->
    dev_write src lba cnt buf d = (true, d') -> lba <= n < lba + cnt ->
    sector src d' n = slice ((n - lba) * 512) 512 buf;
  dev_write_other : forall src lba cnt buf d ok d' src' n,
    0 <= lba -> 0 < cnt -> lba + cnt < 2 ^ 32 -> Zlen buf = cnt * 512 ->
    dev_write src lba cnt buf d = (ok, d') -> (src' <> src \/ n < lba \/ lba + cnt <= n) ->
    sector src' d' n = sector src' d n;
}.

(** A device that does not fail on the sectors it has. *)
Class ReliableDevice (D : Type) `{BlockDevice D} := {
  capacity : wfs_source -> D -> Z;
  read_succeeds : forall src lba cnt d, 0 <= lba -> 0 < cnt < 256 -> lba + cnt <= capacity src d ->
    exists buf d', dev_read src lba cnt d = (Some buf, d');
  write_succeeds : forall src lba cnt buf d, 0 <= lba -> 0 < cnt < 256 -> lba + cnt <= capacity src d ->
    exists d', dev_write src lba cnt buf d = (true, d');
  read_capacity : forall src lba cnt d r d' src',
    dev_read src lba cnt d = (r, d') -> capacity src' d' = capacity src' d;
  write_capacity : forall src lba cnt buf d ok d' src',
    dev_write src lba cnt buf d = (ok, d') -> capacity src' d' = capacity src' d;
}.
