(* ===== verification/Ramdisk.v ===== *)
(** The RAM disk, [kernel/drivers/ramdisk.c], and that it is a sector device.

    [mem] is memory from [base] on, in units of a sector: all that is read and
    written through the driver are whole sectors. *)

From S2P Require Import Prelude Device.

Module Ramdisk.

Definition SECTOR_BYTES : Z := 512.
Definition LOW_MEMORY_LIMIT : Z := 0x40000000.

Record ramdisk := Ramdisk {
  base : Z;        (** 0 for [NULL] *)
  sectors : Z;
  mem : gmap Z (list Z);
}.

Definition ramdisk_init (phys bytes : Z) (r : ramdisk) : bool * ramdisk :=
  if ((phys =? 0) || (bytes <? SECTOR_BYTES))%bool then (false, r)
  else if u64 (phys + bytes) >? LOW_MEMORY_LIMIT then (false, r)
  else (true, Ramdisk phys (u32 (bytes / SECTOR_BYTES)) (mem r)).

Definition ramdisk_present (r : ramdisk) : bool := negb (base r =? 0).
Definition ramdisk_sector_count (r : ramdisk) : Z := sectors r.
Definition ramdisk_bytes (r : ramdisk) : Z := sectors r * SECTOR_BYTES.

Definition in_range (lba count : Z) (r : ramdisk) : bool :=
  (negb (base r =? 0) && negb (count =? 0) && (u32 (lba + count) <=? sectors r))%bool.

(** The 512 bytes at sector [n]. *)
Definition sector_bytes (r : ramdisk) (n : Z) : list Z :=
  take 512 (default [] (mem r !! n) ++ replicate 512 0).

Definition ramdisk_read_sectors (lba count : Z) (r : ramdisk) : option (list Z) :=
  if negb (in_range lba count r) then None
  else Some (mjoin (sector_bytes r <$> seqZ lba count)).

Definition store_sector (buf : list Z) (lba : Z) (m : gmap Z (list Z)) (i : Z) : gmap Z (list Z) :=
  <[lba + i := slice (i * SECTOR_BYTES) SECTOR_BYTES buf]> m.

Definition ramdisk_write_sectors (lba count : Z) (buf : list Z) (r : ramdisk) : bool * ramdisk :=
  if negb (in_range lba count r) then (false, r)
  else (true, Ramdisk (base r) (sectors r)
                (fold_left (store_sector buf lba) (seqZ 0 count) (mem r))).

(** ** The device it provides *)

#[global] Instance ramdisk_device : BlockDevice ramdisk := {
  dev_present src r := match src with WFS_SOURCE_RAMDISK => ramdisk_present r | _ => false end;
  dev_read src lba count r :=
    match src with WFS_SOURCE_RAMDISK => (ramdisk_read_sectors lba count r, r) | _ => (None, r) end;
  dev_write src lba count buf r :=
    match src with WFS_SOURCE_RAMDISK => ramdisk_write_sectors lba count buf r | _ => (false, r) end;
  sector src r n :=
    match src with WFS_SOURCE_RAMDISK => sector_bytes r n | _ => replicate 512 0 end;
}.

Lemma sector_bytes_len r n : Zlen (sector_bytes r n) = 512.
Proof. unfold sector_bytes, Zlen. rewrite length_take, length_app, length_replicate. lia. Qed.

(** The writing loop, sector by sector. *)
Lemma write_fold_lookup buf lba m j : forall n,
  fold_left (store_sector buf lba) (seqZ 0 (Z.of_nat n)) m !! j =
  if ((lba <=? j) && (j <? lba + Z.of_nat n))%bool
  then Some (slice ((j - lba) * SECTOR_BYTES) SECTOR_BYTES buf) else m !! j.
Proof.
  induction n as [| n IH].
  - change (seqZ 0 (Z.of_nat 0)) with (@nil Z). cbn [fold_left]. case_ifs; [lia | done].
  - rewrite seqZ_S, fold_left_app. cbn [fold_left]. unfold store_sector at 1.
    destruct (decide (j = lba + Z.of_nat n)) as [-> |].
    + rewrite Z.add_0_l, lookup_insert_eq. rewrite (proj2 (Z.leb_le _ _)), (proj2 (Z.ltb_lt _ _)) by lia.
      simpl. do 3 f_equal. lia.
    + rewrite lookup_insert_ne, IH by lia.
      destruct (Z.leb_spec lba j), (Z.ltb_spec j (lba + Z.of_nat n)),
        (Z.ltb_spec j (lba + Z.of_nat (S n))); simpl; try done; lia.
Qed.

Lemma write_sectors_lookup lba count buf r r' n :
  0 <= count -> ramdisk_write_sectors lba count buf r = (true, r') ->
  sector_bytes r' n =
  if ((lba <=? n) && (n <? lba + count))%bool
  then take 512 (slice ((n - lba) * 512) 512 buf ++ replicate 512 0) else sector_bytes r n.
Proof.
  intros Hc. unfold ramdisk_write_sectors. destruct (in_range lba count r); [| done]. intros [= <-].
  unfold sector_bytes. cbn [mem]. pose proof (write_fold_lookup buf lba (mem r) n (Z.to_nat count)) as Hj.
  rewrite Z2Nat.id in Hj by done. rewrite Hj. by case_if.
Qed.

#[global] Instance ramdisk_laws : BlockDeviceLaws ramdisk.
Proof.
  split.
  - intros [] d n; cbn; try done. apply sector_bytes_len.
  - intros [] ? ? d r d' ? ? [= <- <-]; done.
  - intros [] lba cnt d buf d' ? ? ?; cbn; intros E; simplify_eq.
    unfold ramdisk_read_sectors in *. by destruct (in_range lba cnt _); simplify_eq/=.
  - intros [] lba cnt buf d d' n ? ? ? Hl; cbn; intros E ?; try done.
    rewrite (write_sectors_lookup lba cnt buf d d' n ltac:(lia) E).
    rewrite (proj2 (Z.leb_le _ _)), (proj2 (Z.ltb_lt _ _)) by lia. simpl.
    assert (Hs : Zlen (slice ((n - lba) * 512) 512 buf) = 512) by (apply Zlen_slice; nia).
    unfold Zlen in Hs. rewrite take_app_le, take_ge by lia. done.
  - intros src lba cnt buf d ok d' src' n ? ? ? Hl E Hn.
    destruct src; cbn in E; simplify_eq; try done. destruct ok.
    + destruct src'; try done. cbn. rewrite (write_sectors_lookup lba cnt buf d d' n ltac:(lia) E).
      destruct Hn as [| Hn]; [done |]. case_ifs; [lia | done].
    + unfold ramdisk_write_sectors in E. destruct (in_range lba cnt d); [discriminate E |].
      by injection E as <-.
Qed.

Definition rd_capacity (src : wfs_source) (r : ramdisk) : Z :=
  match src with
  | WFS_SOURCE_RAMDISK => if ramdisk_present r then Z.min (sectors r) (2 ^ 32 - 1) else 0
  | _ => 0
  end.

#[global] Instance ramdisk_reliable : ReliableDevice ramdisk.
Proof.
  refine (Build_ReliableDevice ramdisk _ rd_capacity _ _ _ _).
  - intros [] lba cnt d ? ? Hc; cbn in Hc |- *; try lia. destruct (ramdisk_present d) eqn:Ep; [| lia].
    unfold ramdisk_read_sectors, in_range. unfold ramdisk_present in Ep. rewrite Ep, u32_id by lia.
    rewrite (proj2 (Z.eqb_neq _ _)), (proj2 (Z.leb_le _ _)) by lia. simpl. eauto.
  - intros [] lba cnt buf d ? ? Hc; cbn in Hc |- *; try lia. destruct (ramdisk_present d) eqn:Ep; [| lia].
    unfold ramdisk_write_sectors, in_range. unfold ramdisk_present in Ep. rewrite Ep, u32_id by lia.
    rewrite (proj2 (Z.eqb_neq _ _)), (proj2 (Z.leb_le _ _)) by lia. simpl. eauto.
  - intros [] ? ? d r d' ? [= <- <-]; done.
  - intros src lba cnt buf d ok d' src' E. destruct src; cbn in E; simplify_eq; try done.
    unfold ramdisk_write_sectors in E. destruct (in_range _ _ _); by simplify_eq/=.
Defined.

(** [in_range] lets a request through that ends beyond the module when the
    32-bit sum of its first sector and its length wraps. *)
Lemma in_range_wraps (r : ramdisk) :
  0 <= sectors r -> ramdisk_present r = true -> in_range (2 ^ 32 - 1) 1 r = true.
Proof.
  intros ?. unfold ramdisk_present, in_range. intros ->. by apply Z.leb_le.
Qed.

(** A buffer is its sectors. *)
Lemma slices_join (b : list Z) : forall n,
  mjoin ((fun i => slice (i * 512) 512 b) <$> seqZ 0 (Z.of_nat n)) = take (512 * n) b.
Proof.
  induction n as [| n IH]; [done |].
  rewrite seqZ_S, fmap_app, join_app, IH. cbn [fmap list_fmap mjoin list_join]. rewrite app_nil_r.
  unfold slice. replace (Z.to_nat ((0 + Z.of_nat n) * 512)) with (512 * n)%nat by lia.
  change (Z.to_nat 512) with 512%nat. rewrite take_take_drop. f_equal. lia.
Qed.

(** A RAM disk request that the bounds check lets through and whose sum
    did not wrap touches only sectors of the module: a read returns exactly
    the sectors asked for, a write replaces exactly those, and what was written
    is what a later read returns. *)
Theorem ramdisk_read_after_write (r r' : ramdisk) (lba count : Z) (buf : list Z) :
  0 <= lba -> 0 < count < 256 -> lba + count < 2 ^ 32 -> Zlen buf = count * 512 ->
  ramdisk_write_sectors lba count buf r = (true, r') ->
  lba + count <= sectors r /\ ramdisk_read_sectors lba count r' = Some buf /\
  (forall n, n < lba \/ lba + count <= n -> sector_bytes r' n = sector_bytes r n).
Proof.
  intros Hl Hc Hw Hb E. pose proof E as E'. unfold ramdisk_write_sectors in E'.
  destruct (in_range lba count r) eqn:Er; simplify_eq/=.
  pose proof Er as Er'. unfold in_range in Er'. rewrite u32_id in Er' by lia. bool_to_prop.
  split; [done |]. split.
  - unfold ramdisk_read_sectors. replace (in_range lba count _) with true by (symmetry; exact Er). cbn [negb].
    f_equal. transitivity (mjoin ((fun i => slice (i * 512) 512 buf) <$> seqZ 0 count)).
    + apply (f_equal mjoin). replace lba with (lba + 0) at 2 by lia.
      rewrite <- (fmap_add_seqZ lba 0), <- list_fmap_compose. apply list_fmap_ext.
      intros k i Hi. apply lookup_seqZ in Hi. cbn [compose].
      rewrite (write_sectors_lookup _ count _ _ _ _ ltac:(lia) E).
      rewrite (proj2 (Z.leb_le _ _)), (proj2 (Z.ltb_lt _ _)) by lia. cbn [andb].
      replace (lba + i - lba) with i by lia.
      assert (Hs : Zlen (slice (i * 512) 512 buf) = 512) by (apply Zlen_slice; nia).
      unfold Zlen in Hs. rewrite take_app_le, take_ge by lia. done.
    + replace count with (Z.of_nat (Z.to_nat count)) by lia. rewrite slices_join. apply take_ge.
      unfold Zlen in Hb. lia.
  - intros n Hn. rewrite (write_sectors_lookup _ count _ _ _ n ltac:(lia) E). case_ifs; [lia | done].
Qed.

Lemma ramdisk_read_after_write_witness :
  let r := Ramdisk 0x200000 4 ∅ in
  ramdisk_read_sectors 1 2 (ramdisk_write_sectors 1 2 (replicate 1024 7) r).2 = Some (replicate 1024 7).
Proof.
  intros r. apply (ramdisk_read_after_write r (ramdisk_write_sectors 1 2 (replicate 1024 7) r).2 1 2);
    try done; lia.
Defined.

End Ramdisk.
