(* ===== verification/Str.v ===== *)
(** Strings and paths as lists of bytes: what the file systems, the descriptor
    layer and the user database share when they walk a path.  The routines of
    [kernel/lib/string.c] they call are in [KString], where they are shown to be
    these functions on the strings in memory. *)

From Stdlib Require Strings.String Strings.Ascii.
From S2P Require Import Prelude.

Export String.StringSyntax.
Delimit Scope string_scope with string.

Module Str.

Definition slash : Z := 47.
Definition dot : list Z := [46].
Definition dotdot : list Z := [46; 46].

(** A literal. *)
Definition str (s : String.string) : list Z :=
  (fun a => Z.of_N (Ascii.N_of_ascii a)) <$> String.list_ascii_of_string s.
Arguments str s%_string.

(** The C string at the start of a buffer. *)
Fixpoint cstr (b : list Z) : list Z :=
  match b with [] => [] | c :: b => if c =? 0 then [] else c :: cstr b end.

(** The character at [i]; the terminator past the end. *)
Definition char_at (s : list Z) (i : nat) : Z := default 0 (s !! i).

(** [strlcpy] into a buffer of [n] bytes. *)
Definition strl (n : Z) (s : list Z) : list Z := take (Z.to_nat (n - 1)) s.

Fixpoint skip_slashes (p : list Z) : list Z :=
  match p with [] => [] | c :: q => if c =? slash then skip_slashes q else p end.

(** The bytes up to the next slash, and the rest from it on. *)
Fixpoint component (p : list Z) : list Z * list Z :=
  match p with
  | [] => ([], [])
  | c :: q => if c =? slash then ([], p) else let '(n, r) := component q in (c :: n, r)
  end.

(** [strrchr(path, '/')]: what is before the last slash and after it. *)
Fixpoint last_slash (p : list Z) : option (list Z * list Z) :=
  match p with
  | [] => None
  | c :: q =>
      match last_slash q with
      | Some (a, b) => Some (c :: a, b)
      | None => if c =? slash then Some ([], q) else None
      end
  end.

(** ** Components *)

Fixpoint split (p : list Z) : list (list Z) :=
  match p with
  | [] => [[]]
  | c :: q =>
      if c =? slash then [] :: split q
      else match split q with [] => [[c]] | x :: xs => (c :: x) :: xs end
  end.

Lemma split_component p :
  split p = (component p).1 :: match (component p).2 with [] => [] | _ :: r => split r end.
Proof.
  induction p as [| c q IH]; cbn [split component]; [done |].
  destruct (c =? slash); [done |]. rewrite IH. by destruct (component q).
Qed.

Lemma component_spec p :
  p = (component p).1 ++ (component p).2 /\ (slash ∉ (component p).1) /\
  match (component p).2 with [] => True | c :: _ => c = slash end.
Proof.
  induction p as [| c q IH]; cbn [component]; [split_and!; try done; apply not_elem_of_nil |].
  destruct (Z.eqb_spec c slash) as [-> | Hne]; [split_and!; try done; apply not_elem_of_nil |].
  destruct (component q) as [n r]. cbn [fst snd] in *. destruct IH as (-> & Hn & Hr).
  split_and!; try done. rewrite elem_of_cons. by intros [<- | ?].
Qed.

Lemma component_nonempty c q : c <> slash -> (component (c :: q)).1 <> [].
Proof. intros. cbn [component]. rewrite (proj2 (Z.eqb_neq c slash)) by done. by destruct (component q). Qed.

Lemma component_app n r : slash ∉ n -> component (n ++ slash :: r) = (n, slash :: r).
Proof.
  induction n as [| c n IH]; intros Hn; cbn [app component]; [by rewrite Z.eqb_refl |].
  rewrite not_elem_of_cons in Hn. destruct Hn as [Hc Hn].
  rewrite (proj2 (Z.eqb_neq c slash)) by done. by rewrite IH.
Qed.

Lemma component_all n : slash ∉ n -> component n = (n, []).
Proof.
  induction n as [| c n IH]; intros Hn; cbn [component]; [done |].
  rewrite not_elem_of_cons in Hn. destruct Hn as [Hc Hn].
  rewrite (proj2 (Z.eqb_neq c slash)) by done. by rewrite IH.
Qed.

Lemma split_app n r : slash ∉ n -> split (n ++ slash :: r) = n :: split r.
Proof. intros Hn. by rewrite split_component, component_app. Qed.

Lemma split_one n : slash ∉ n -> split n = [n].
Proof. intros Hn. by rewrite split_component, component_all. Qed.

Lemma skip_slashes_head p : match skip_slashes p with [] => True | c :: _ => c <> slash end.
Proof. induction p as [| c q IH]; cbn [skip_slashes]; [done |]. by destruct (Z.eqb_spec c slash). Qed.

Lemma skip_slashes_length p : (length (skip_slashes p) <= length p)%nat.
Proof. induction p as [| c q IH]; cbn [skip_slashes]; [done |]. destruct (c =? slash); simpl; lia. Qed.

(** ** The names in a path *)

Definition components (p : list Z) : list (list Z) := filter (fun n => n <> []) (split p).

Lemma components_slash q : components (slash :: q) = components q.
Proof. unfold components. cbn [split]. by rewrite Z.eqb_refl. Qed.

Lemma components_skip p : components (skip_slashes p) = components p.
Proof.
  induction p as [| c q IH]; cbn [skip_slashes]; [done |]. destruct (Z.eqb_spec c slash) as [-> |]; [| done].
  by rewrite components_slash.
Qed.

Lemma components_step c q :
  c <> slash -> components (c :: q) = (component (c :: q)).1 :: components (component (c :: q)).2.
Proof.
  intros Hc. unfold components at 1. rewrite split_component. rewrite filter_cons_True by (by apply component_nonempty). f_equal.
  destruct (component_spec (c :: q)) as (_ & _ & Hr). destruct (component (c :: q)).2 as [| d r]; [done |]. subst d.
  by rewrite components_slash.
Qed.

Lemma component_length c q : c <> slash -> (length (component (c :: q)).2 < length (c :: q))%nat.
Proof.
  intros Hc. destruct (component_spec (c :: q)) as (E & _). apply (f_equal length) in E. rewrite length_app in E.
  pose proof (component_nonempty c q Hc). destruct (component (c :: q)).1; [done |]. cbn [length] in *. lia.
Qed.

Lemma components_length p : (length (components p) <= length p)%nat.
Proof.
  induction p as [| c q IH]; [done |]. destruct (Z.eqb_spec c slash) as [-> | Hc]; [rewrite components_slash; simpl; lia |].
  unfold components in *. cbn [split length]. rewrite (proj2 (Z.eqb_neq c slash)) by done. destruct (split q) as [| x xs]; [simpl; lia |].
  rewrite filter_cons_True by done. rewrite filter_cons in IH. destruct (decide (x <> [])); cbn [length] in *; lia.
Qed.

End Str.
