(* ===== verification/Wfs.v ===== *)
(** WFS, [kernel/fs/wfs.c] and [include/wfs.h]: the block cache, the block
    bitmap, inodes, the block map and file reads and writes.

    The volume is on a sector device of the class [BlockDevice]; a block is a
    list of 1024 bytes.  [rtc_epoch] is the field [rtc] of the state: the
    seconds the clock shows. *)

From S2P Require Import Prelude Device Ramdisk.

Module Wfs.

(** ** Layout, [include/wfs.h] *)

Definition WFS_MAGIC : Z := 0x33534657.
Definition WFS_BLOCK_SIZE : Z := 1024.
Definition WFS_SECTORS_PER_BLOCK : Z := 2.
Definition WFS_INVALID_INO : Z := 0.
Definition WFS_ROOT_INO : Z := 1.
Definition WFS_INODE_SIZE : Z := 64.
Definition WFS_INODES_PER_BLOCK : Z := 16.
Definition WFS_DIRECT : Z := 10.
Definition WFS_PTRS_PER_BLOCK : Z := 256.
Definition WFS_DOUBLE_BLOCKS : Z := 256 * 256.
Definition WFS_MAX_FILE_SIZE : Z := u32 ((WFS_DIRECT + WFS_PTRS_PER_BLOCK + WFS_DOUBLE_BLOCKS) * WFS_BLOCK_SIZE).
Definition WFS_TYPE_FREE : Z := 0.
Definition WFS_TYPE_FILE : Z := 1.
Definition WFS_TYPE_DIR : Z := 2.

(** Little-endian fields. *)
Definition le16 (b : list Z) (off : Z) : Z := b.[off] + 256 * b.[off + 1].
Definition le32 (b : list Z) (off : Z) : Z :=
  b.[off] + 256 * b.[off + 1] + 65536 * b.[off + 2] + 16777216 * b.[off + 3].
Definition put16 (v : Z) : list Z := [u8 v; u8 (v / 256)].
Definition put32 (v : Z) : list Z := [u8 v; u8 (v / 256); u8 (v / 65536); u8 (v / 16777216)].

Record superblock := Superblock {
  magic : Z; block_size : Z; total_blocks : Z; free_blocks : Z; total_inodes : Z;
  free_inodes : Z; bitmap_start : Z; bitmap_blocks : Z; inode_start : Z; inode_blocks : Z;
  data_start : Z; root_inode : Z;
}.

Definition decode_sb (b : list Z) : superblock :=
  Superblock (le32 b 0) (le32 b 4) (le32 b 8) (le32 b 12) (le32 b 16) (le32 b 20) (le32 b 24)
    (le32 b 28) (le32 b 32) (le32 b 36) (le32 b 40) (le32 b 44).
Definition encode_sb (x : superblock) : list Z :=
  put32 (magic x) ++ put32 (block_size x) ++ put32 (total_blocks x) ++ put32 (free_blocks x) ++
  put32 (total_inodes x) ++ put32 (free_inodes x) ++ put32 (bitmap_start x) ++
  put32 (bitmap_blocks x) ++ put32 (inode_start x) ++ put32 (inode_blocks x) ++
  put32 (data_start x) ++ put32 (root_inode x).

Record inode := Inode {
  itype : Z; links : Z; isize : Z; iblocks : Z; mtime : Z;
  direct : list Z;           (** 10 block numbers *)
  indirect : Z; double_indirect : Z;
}.

Definition zero_inode : inode := Inode 0 0 0 0 0 (replicate 10 0) 0 0.

Definition decode_inode (b : list Z) : inode :=
  Inode (le16 b 0) (le16 b 2) (le32 b 4) (le32 b 8) (le32 b 12)
    ((fun i => le32 b (16 + 4 * i)) <$> seqZ 0 10) (le32 b 56) (le32 b 60).
Definition encode_inode (x : inode) : list Z :=
  put16 (itype x) ++ put16 (links x) ++ put32 (isize x) ++ put32 (iblocks x) ++ put32 (mtime x) ++
  mjoin (put32 <$> direct x) ++ put32 (indirect x) ++ put32 (double_indirect x).

(** ** State *)

Definition CACHE_BLOCKS : Z := 64.

Record slot := Slot { cdata : list Z; cblock : Z; cstamp : Z }.
#[export] Instance slot_inhabited : Inhabited slot := populate (Slot [] 0 0).

Record fs (D : Type) := Fs {
  dev : D;
  source : wfs_source;
  partition_lba : Z;
  sb : superblock;
  block_bitmap : list Z;
  mounted : bool;
  cache : list slot;
  cache_clock : Z;
  rtc : Z;
}.
Arguments Fs {D}.
Arguments dev {D}. Arguments source {D}. Arguments partition_lba {D}. Arguments sb {D}.
Arguments block_bitmap {D}. Arguments mounted {D}. Arguments cache {D}. Arguments cache_clock {D}.
Arguments rtc {D}.

Section wfs.
Context {D : Type} `{BlockDevice D}.
Implicit Types s : fs D.

Definition with_dev (d : D) s : fs D :=
  Fs d (source s) (partition_lba s) (sb s) (block_bitmap s) (mounted s) (cache s) (cache_clock s) (rtc s).
Definition with_sb (x : superblock) s : fs D :=
  Fs (dev s) (source s) (partition_lba s) x (block_bitmap s) (mounted s) (cache s) (cache_clock s) (rtc s).
Definition with_bitmap (b : list Z) s : fs D :=
  Fs (dev s) (source s) (partition_lba s) (sb s) b (mounted s) (cache s) (cache_clock s) (rtc s).
Definition with_cache (c : list slot) (clk : Z) s : fs D :=
  Fs (dev s) (source s) (partition_lba s) (sb s) (block_bitmap s) (mounted s) c clk (rtc s).

(** ** Block I/O *)

Definition sectors_read (lba count : Z) s : option (list Z) * fs D :=
  match source s with
  | WFS_SOURCE_NONE => (None, s)
  | src => let '(r, d) := dev_read src lba count (dev s) in (r, with_dev d s)
  end.
Definition sectors_write (lba count : Z) (buf : list Z) s : bool * fs D :=
  match source s with
  | WFS_SOURCE_NONE => (false, s)
  | src => let '(r, d) := dev_write src lba count buf (dev s) in (r, with_dev d s)
  end.

Definition cache_reset s : fs D :=
  with_cache ((fun c => Slot (cdata c) (cblock c) 0) <$> cache s) 0 s.

(** The first slot of the cache from number [i] on that holds [block]. *)
Fixpoint cache_find_from (i : Z) (c : list slot) (block : Z) : option Z :=
  match c with
  | [] => None
  | x :: c => if (negb (cstamp x =? 0) && (cblock x =? block))%bool then Some i
              else cache_find_from (i + 1) c block
  end.
Definition cache_find (block : Z) s : option Z := cache_find_from 0 (cache s) block.

Fixpoint cache_victim_from (i : Z) (c : list slot) (oldest worst : Z) : Z :=
  match c with
  | [] => worst
  | x :: c =>
      if cstamp x =? 0 then i
      else if cstamp x <? oldest then cache_victim_from (i + 1) c (cstamp x) i
      else cache_victim_from (i + 1) c oldest worst
  end.
Definition cache_victim s : Z := cache_victim_from 0 (cache s) (2 ^ 64 - 1) 0.

Definition set_slot (i : Z) (x : slot) s : fs D := with_cache (upd i x (cache s)) (cache_clock s) s.

(** [partition_lba + block * WFS_SECTORS_PER_BLOCK] *)
Definition block_lba (block : Z) s : Z := u32 (partition_lba s + u32 (block * WFS_SECTORS_PER_BLOCK)).

(** [cache[slot].stamp = ++cache_clock;] and the copy out. *)
Definition cache_hit (i : Z) s : list Z * fs D :=
  let clk := u64 (cache_clock s + 1) in
  let x := (cache s).[i] in
  (cdata x, with_cache (upd i (Slot (cdata x) (cblock x) clk) (cache s)) clk s).

Definition block_read (block : Z) s : option (list Z) * fs D :=
  match cache_find block s with
  | Some i => let '(b, s) := cache_hit i s in (Some b, s)
  | None =>
      let i := cache_victim s in
      let '(r, s) := sectors_read (block_lba block s) WFS_SECTORS_PER_BLOCK s in
      let x := (cache s).[i] in
      match r with
      | None => (None, set_slot i (Slot (cdata x) (cblock x) 0) s)
      | Some b => let '(b, s) := cache_hit i (set_slot i (Slot b block (cstamp x)) s) in (Some b, s)
      end
  end.

Definition blocks_read (first count : Z) s : option (list Z) * fs D :=
  sectors_read (block_lba first s) (u8 (count * WFS_SECTORS_PER_BLOCK)) s.

Definition READ_RUN_BLOCKS : Z := 64.

Definition block_write (block : Z) (buf : list Z) s : bool * fs D :=
  let i := match cache_find block s with Some i => i | None => cache_victim s end in
  let clk := u64 (cache_clock s + 1) in
  let s := with_cache (upd i (Slot buf block clk) (cache s)) clk s in
  let '(ok, s) := sectors_write (block_lba block s) WFS_SECTORS_PER_BLOCK buf s in
  if ok then (true, s) else (false, set_slot i (Slot buf block 0) s).

Definition sync_superblock s : bool * fs D :=
  block_write 0 (splice 0 (encode_sb (sb s)) (replicate 1024 0)) s.

Definition sync_bitmap_for (block : Z) s : bool * fs D :=
  let index := block / (WFS_BLOCK_SIZE * 8) in
  block_write (u32 (bitmap_start (sb s) + index))
    (slice (index * WFS_BLOCK_SIZE) WFS_BLOCK_SIZE (block_bitmap s)) s.

(** ** Block allocation *)

Definition bitmap_test (block : Z) s : bool :=
  negb (Z.land (block_bitmap s).[block / 8] (Z.shiftl 1 (block `mod` 8)) =? 0).

Definition add_free_blocks (n : Z) s : fs D :=
  let x := sb s in
  with_sb (Superblock (magic x) (block_size x) (total_blocks x) (u32 (free_blocks x + n))
    (total_inodes x) (free_inodes x) (bitmap_start x) (bitmap_blocks x) (inode_start x)
    (inode_blocks x) (data_start x) (root_inode x)) s.
Definition add_free_inodes (n : Z) s : fs D :=
  let x := sb s in
  with_sb (Superblock (magic x) (block_size x) (total_blocks x) (free_blocks x) (total_inodes x)
    (u32 (free_inodes x + n)) (bitmap_start x) (bitmap_blocks x) (inode_start x) (inode_blocks x)
    (data_start x) (root_inode x)) s.

Definition bitmap_set (b : Z) s : fs D :=
  let bm := block_bitmap s in
  with_bitmap (upd (b / 8) (Z.lor bm.[b / 8] (u8 (Z.shiftl 1 (b `mod` 8)))) bm) s.
Definition bitmap_clear (b : Z) s : fs D :=
  let bm := block_bitmap s in
  with_bitmap (upd (b / 8) (Z.land bm.[b / 8] (u8 (Z.lnot (Z.shiftl 1 (b `mod` 8))))) bm) s.

Fixpoint block_alloc_from (fuel : nat) (b : Z) s : Z * fs D :=
  match fuel with
  | O => (0, s)
  | S n =>
      if b <? total_blocks (sb s) then
        if bitmap_test b s then block_alloc_from n (b + 1) s
        else
          let s := add_free_blocks (-1) (bitmap_set b s) in
          let '(ok, s) := block_write b (replicate 1024 0) s in
          if negb ok then (0, s)
          else
            let '(_, s) := sync_bitmap_for b s in
            let '(_, s) := sync_superblock s in
            (b, s)
      else (0, s)
  end.
Definition block_alloc s : Z * fs D :=
  block_alloc_from (Z.to_nat (total_blocks (sb s) - data_start (sb s))) (data_start (sb s)) s.

Definition block_free (block : Z) s : fs D :=
  if ((block <? data_start (sb s)) || (total_blocks (sb s) <=? block))%bool then s
  else if negb (bitmap_test block s) then s
  else
    let s := add_free_blocks 1 (bitmap_clear block s) in
    let '(_, s) := sync_bitmap_for block s in
    let '(_, s) := sync_superblock s in
    s.

(** ** Inodes *)

Definition bad_ino (ino : Z) s : bool := ((ino =? WFS_INVALID_INO) || (total_inodes (sb s) <=? ino))%bool.
Definition inode_block (ino : Z) s : Z := u32 (inode_start (sb s) + ino / WFS_INODES_PER_BLOCK).
Definition inode_offset (ino : Z) : Z := ino `mod` WFS_INODES_PER_BLOCK * WFS_INODE_SIZE.

Definition wfs_read_inode (ino : Z) s : Z * inode * fs D :=
  if bad_ino ino s then (- W_EINVAL, zero_inode, s)
  else
    let '(r, s) := block_read (inode_block ino s) s in
    match r with
    | None => (- W_EIO, zero_inode, s)
    | Some buf => (0, decode_inode (slice (inode_offset ino) WFS_INODE_SIZE buf), s)
    end.

Definition write_inode (ino : Z) (x : inode) s : Z * fs D :=
  if bad_ino ino s then (- W_EINVAL, s)
  else
    let blk := inode_block ino s in
    let '(r, s) := block_read blk s in
    match r with
    | None => (- W_EIO, s)
    | Some buf =>
        let '(ok, s) := block_write blk (splice (inode_offset ino) (encode_inode x) buf) s in
        if negb ok then (- W_EIO, s) else (0, s)
    end.

Fixpoint inode_alloc_from (fuel : nat) (i type : Z) s : Z * Z * fs D :=
  match fuel with
  | O => (- W_ENOSPC, 0, s)
  | S n =>
      if i <? total_inodes (sb s) then
        let '(r, x, s) := wfs_read_inode i s in
        if r <? 0 then inode_alloc_from n (i + 1) type s
        else if negb (itype x =? WFS_TYPE_FREE) then inode_alloc_from n (i + 1) type s
        else
          let '(r, s) := write_inode i (Inode type 1 0 0 (rtc s) (replicate 10 0) 0 0) s in
          if r <? 0 then (r, 0, s)
          else
            let s := add_free_inodes (-1) s in
            let '(_, s) := sync_superblock s in
            (0, i, s)
      else (- W_ENOSPC, 0, s)
  end.
Definition inode_alloc (type : Z) s : Z * Z * fs D :=
  inode_alloc_from (Z.to_nat (total_inodes (sb s))) WFS_ROOT_INO type s.

Definition inode_free (ino : Z) s : fs D :=
  let '(_, s) := write_inode ino zero_inode s in
  let s := add_free_inodes 1 s in
  let '(_, s) := sync_superblock s in
  s.

Definition wfs_utime (ino mt : Z) s : Z * fs D :=
  let '(r, x, s) := wfs_read_inode ino s in
  if r <? 0 then (r, s)
  else write_inode ino (Inode (itype x) (links x) (isize x) (iblocks x) mt (direct x) (indirect x)
                          (double_indirect x)) s.

(** ** Block mapping *)

Definition count_block (x : inode) : inode :=
  Inode (itype x) (links x) (isize x) (u32 (iblocks x + 1)) (mtime x) (direct x) (indirect x)
    (double_indirect x).
Definition set_direct (i v : Z) (x : inode) : inode :=
  Inode (itype x) (links x) (isize x) (iblocks x) (mtime x) (upd i v (direct x)) (indirect x)
    (double_indirect x).
Definition set_indirect (v : Z) (x : inode) : inode :=
  Inode (itype x) (links x) (isize x) (iblocks x) (mtime x) (direct x) v (double_indirect x).
Definition set_double (v : Z) (x : inode) : inode :=
  Inode (itype x) (links x) (isize x) (iblocks x) (mtime x) (direct x) (indirect x) v.

(** What a mapping step returns: the code, the block, the inode as it is then
    and whether it changed. *)
Record mapped := Mapped { mr : Z; mout : Z; mino : inode; mdirty : bool }.

(** The slot is one of the inode's own pointers, read with [get] and assigned
    with [set]; [mout] is its value afterwards. *)
Definition fill_slot (get : inode -> Z) (set : Z -> inode -> inode) (x : inode) (alloc dirty : bool) s
    : mapped * fs D :=
  if (negb (get x =? 0) || negb alloc)%bool then (Mapped 0 (get x) x dirty, s)
  else
    let '(b, s) := block_alloc s in
    if b =? 0 then (Mapped (- W_ENOSPC) (get x) x dirty, s)
    else (Mapped 0 b (count_block (set b x)) true, s).

(** [uint32_t table[256]] read from a block. *)
Definition table_get (t : list Z) (index : Z) : Z := le32 t (4 * index).
Definition table_set (t : list Z) (index v : Z) : list Z := splice (4 * index) (put32 v) t.

Definition table_slot (table_block index : Z) (alloc : bool) (x : inode) (dirty : bool) s
    : mapped * fs D :=
  let '(r, s) := block_read table_block s in
  match r with
  | None => (Mapped (- W_EIO) 0 x dirty, s)
  | Some t =>
      if table_get t index =? 0 then
        if negb alloc then (Mapped 0 0 x dirty, s)
        else
          let '(b, s) := block_alloc s in
          if b =? 0 then (Mapped (- W_ENOSPC) 0 x dirty, s)
          else
            let '(ok, s) := block_write table_block (table_set t index b) s in
            if negb ok then (Mapped (- W_EIO) 0 (count_block x) true, s)
            else (Mapped 0 b (count_block x) true, s)
      else (Mapped 0 (table_get t index) x dirty, s)
  end.

Definition bmap (x : inode) (index : Z) (alloc dirty : bool) s : mapped * fs D :=
  if index <? WFS_DIRECT then
    fill_slot (fun x => (direct x).[index]) (set_direct index) x alloc dirty s
  else
    let index := index - WFS_DIRECT in
    if index <? WFS_PTRS_PER_BLOCK then
      let '(m, s) := fill_slot indirect set_indirect x alloc dirty s in
      if mr m <? 0 then (m, s)
      else if indirect (mino m) =? 0 then (Mapped 0 0 (mino m) (mdirty m), s)
      else table_slot (indirect (mino m)) index alloc (mino m) (mdirty m) s
    else
      let index := index - WFS_PTRS_PER_BLOCK in
      if WFS_DOUBLE_BLOCKS <=? index then (Mapped (- W_EFBIG) 0 x dirty, s)
      else
        let '(m, s) := fill_slot double_indirect set_double x alloc dirty s in
        if mr m <? 0 then (m, s)
        else if double_indirect (mino m) =? 0 then (Mapped 0 0 (mino m) (mdirty m), s)
        else
          let '(m, s) := table_slot (double_indirect (mino m)) (index / WFS_PTRS_PER_BLOCK) alloc
                           (mino m) (mdirty m) s in
          if mr m <? 0 then (m, s)
          else if mout m =? 0 then (Mapped 0 0 (mino m) (mdirty m), s)
          else table_slot (mout m) (index `mod` WFS_PTRS_PER_BLOCK) alloc (mino m) (mdirty m) s.

(** [for (i = 0; i < 256; i++) if (table[i]) f(table[i]);] *)
Definition over_table (f : Z -> fs D -> fs D) (t : list Z) s : fs D :=
  fold_left (fun s i => if negb (table_get t i =? 0) then f (table_get t i) s else s)
    (seqZ 0 WFS_PTRS_PER_BLOCK) s.

Definition free_table (table_block : Z) s : fs D :=
  if table_block =? 0 then s
  else
    let '(r, s) := block_read table_block s in
    match r with None => s | Some t => over_table block_free t s end.

Definition wfs_truncate (ino : Z) s : Z * fs D :=
  let '(r, x, s) := wfs_read_inode ino s in
  if r <? 0 then (r, s)
  else
    let s := fold_left (fun s i => if negb ((direct x).[i] =? 0) then block_free (direct x).[i] s else s)
               (seqZ 0 WFS_DIRECT) s in
    let s := if negb (indirect x =? 0) then block_free (indirect x) (free_table (indirect x) s) else s in
    let s :=
      if negb (double_indirect x =? 0) then
        let '(r, s) := block_read (double_indirect x) s in
        let s := match r with
                 | None => s
                 | Some outer => over_table (fun b s => block_free b (free_table b s)) outer s
                 end in
        block_free (double_indirect x) s
      else s in
    write_inode ino (Inode (itype x) (links x) 0 0 (rtc s) (replicate 10 0) 0 0) s.

(** ** File read and write *)

(** How many blocks from [block] on follow in the file and on the disk. *)
Fixpoint read_run (fuel : nat) (x : inode) (index block left run : Z) s : Z * fs D :=
  match fuel with
  | O => (run, s)
  | S n =>
      if ((run <? READ_RUN_BLOCKS) && ((run + 1) * WFS_BLOCK_SIZE <=? left))%bool then
        let '(m, s) := bmap x (u32 (index + run)) false false s in
        if mr m <? 0 then (run, s)
        else if negb (mout m =? u32 (block + run)) then (run, s)
        else read_run n x index block left (run + 1) s
      else (run, s)
  end.

Definition chunk_at (pos left : Z) : Z :=
  let chunk := WFS_BLOCK_SIZE - pos `mod` WFS_BLOCK_SIZE in if left <? chunk then left else chunk.

Fixpoint read_loop (fuel : nat) (x : inode) (offset len done_ : Z) (dst : list Z) s
    : Z * list Z * fs D :=
  match fuel with
  | O => (i32 done_, dst, s)
  | S n =>
      if done_ <? len then
        let pos := u32 (offset + done_) in
        let index := pos / WFS_BLOCK_SIZE in
        let inpos := pos `mod` WFS_BLOCK_SIZE in
        let chunk := chunk_at pos (len - done_) in
        let '(m, s) := bmap x index false false s in
        if mr m <? 0 then (mr m, dst, s)
        else
          let block := mout m in
          let '(run, s) :=
            if ((inpos =? 0) && negb (block =? 0) && (WFS_BLOCK_SIZE <=? len - done_))%bool
            then read_run 64 x index block (len - done_) 1 s else (1, s) in
          if 1 <? run then
            let '(r, s) := blocks_read block run s in
            match r with
            | None => (- W_EIO, dst, s)
            | Some b => read_loop n x offset len (done_ + run * WFS_BLOCK_SIZE) (dst ++ b) s
            end
          else if block =? 0 then
            read_loop n x offset len (done_ + chunk) (dst ++ replicate (Z.to_nat chunk) 0) s
          else
            let '(r, s) := block_read block s in
            match r with
            | None => (- W_EIO, dst, s)
            | Some tmp => read_loop n x offset len (done_ + chunk) (dst ++ slice inpos chunk tmp) s
            end
      else (i32 done_, dst, s)
  end.

(** The return value and the bytes copied out. *)
Definition wfs_read (ino offset len : Z) s : Z * list Z * fs D :=
  let '(r, x, s) := wfs_read_inode ino s in
  if r <? 0 then (r, [], s)
  else if isize x <=? offset then (0, [], s)
  else
    let len := if isize x <? u32 (offset + len) then isize x - offset else len in
    read_loop (Z.to_nat len) x offset len 0 [] s.

(** What the write loop leaves: the last code of [bmap], how far it came, the
    inode and the dirty flag; [WFail] is an early return. *)
Inductive wrote := WFail (r : Z) | WOut (r done_ : Z) (x : inode) (dirty : bool).

Fixpoint write_loop (fuel : nat) (x : inode) (offset : Z) (src : list Z) (r done_ : Z) (dirty : bool) s
    : wrote * fs D :=
  match fuel with
  | O => (WOut r done_ x dirty, s)
  | S n =>
      if done_ <? Zlen src then
        let pos := u32 (offset + done_) in
        let index := pos / WFS_BLOCK_SIZE in
        let inpos := pos `mod` WFS_BLOCK_SIZE in
        let chunk := chunk_at pos (Zlen src - done_) in
        let '(m, s) := bmap x index true dirty s in
        if mr m <? 0 then (WOut (mr m) done_ (mino m) (mdirty m), s)
        else
          let '(old, s) :=
            if negb (chunk =? WFS_BLOCK_SIZE) then block_read (mout m) s
            else (Some (replicate 1024 0), s) in
          match old with
          | None => (WFail (- W_EIO), s)
          | Some tmp =>
              let '(ok, s) := block_write (mout m) (splice inpos (slice done_ chunk src) tmp) s in
              if negb ok then (WFail (- W_EIO), s)
              else write_loop n (mino m) offset src (mr m) (done_ + chunk) (mdirty m) s
          end
      else (WOut r done_ x dirty, s)
  end.

Definition wfs_write (ino offset : Z) (src : list Z) s : Z * fs D :=
  let '(r, x, s) := wfs_read_inode ino s in
  if r <? 0 then (r, s)
  else if WFS_MAX_FILE_SIZE <? u32 (offset + Zlen src) then (- W_EFBIG, s)
  else
    let '(w, s) := write_loop (length src) x offset src r 0 false s in
    match w with
    | WFail e => (e, s)
    | WOut r done_ x dirty =>
        let '(x, dirty) :=
          if isize x <? u32 (offset + done_)
          then (Inode (itype x) (links x) (u32 (offset + done_)) (iblocks x) (mtime x) (direct x)
                  (indirect x) (double_indirect x), true)
          else (x, dirty) in
        let '(x, dirty) :=
          if 0 <? done_
          then (Inode (itype x) (links x) (isize x) (iblocks x) (rtc s) (direct x) (indirect x)
                  (double_indirect x), true)
          else (x, dirty) in
        let s := if dirty : bool then (write_inode ino x s).2 else s in
        if ((done_ =? 0) && (0 <? Zlen src))%bool
        then (if r <? 0 then r else - W_ENOSPC, s)
        else (i32 done_, s)
    end.

End wfs.

(** ** The cache is transparent *)

Section block_layer.
Context {D : Type} `{BlockDeviceLaws D}.
Implicit Types s : fs D.

(** The bytes of block [b] of the volume, as the device has them. *)
Definition vol s (b : Z) : list Z :=
  mjoin (sector (source s) (dev s) <$> seqZ (partition_lba s + 2 * b) 2).

(** Blocks whose sector numbers do not wrap. *)
Definition blk_ok s (b : Z) : Prop := 0 <= b /\ partition_lba s + 2 * b + 2 < 2 ^ 32.

Definition live (x : slot) : Prop := cstamp x <> 0.

Record coherent s : Prop := {
  coh_source : source s <> WFS_SOURCE_NONE;
  coh_lba : 0 <= partition_lba s;
  coh_len : length (cache s) = 64%nat;
  coh_data : forall i x, cache s !! i = Some x -> live x -> blk_ok s (cblock x) /\ cdata x = vol s (cblock x);
  coh_uniq : forall i j x y, cache s !! i = Some x -> cache s !! j = Some y ->
    live x -> live y -> cblock x = cblock y -> i = j;
}.

(** Everything but the device's own state and the cache is the same. *)
Record same_meta s s' : Prop := {
  sm_source : source s' = source s;
  sm_lba : partition_lba s' = partition_lba s;
  sm_sb : sb s' = sb s;
  sm_bitmap : block_bitmap s' = block_bitmap s;
  sm_mounted : mounted s' = mounted s;
  sm_rtc : rtc s' = rtc s;
}.

Definition same_vol s s' : Prop := forall b, vol s' b = vol s b.

Lemma Zlen_vol s b : Zlen (vol s b) = 1024.
Proof.
  unfold vol. rewrite seqZ_cons, seqZ_cons by lia. cbn [fmap list_fmap mjoin list_join].
  rewrite seqZ_nil by lia. cbn [fmap list_fmap mjoin list_join].
  unfold Zlen. rewrite !length_app. pose proof (sector_len (source s) (dev s)) as Hl. unfold Zlen in Hl.
  pose proof (Hl (partition_lba s + 2 * b)). pose proof (Hl (Z.succ (partition_lba s + 2 * b))). simpl. lia.
Qed.

Lemma block_lba_eq s b : 0 <= partition_lba s -> blk_ok s b -> block_lba b s = partition_lba s + 2 * b.
Proof.
  intros ? [? ?]. unfold block_lba, WFS_SECTORS_PER_BLOCK. rewrite (u32_id (b * 2)), u32_id by lia. lia.
Qed.

Lemma cache_find_from_spec c b : forall i,
  match cache_find_from i c b with
  | Some k => exists n x, k = i + Z.of_nat n /\ c !! n = Some x /\ live x /\ cblock x = b
  | None => forall n x, c !! n = Some x -> live x -> cblock x <> b
  end.
Proof.
  induction c as [| y c IH]; intros i; cbn [cache_find_from]; [done |].
  destruct (Z.eqb_spec (cstamp y) 0) as [Hy | Hy], (Z.eqb_spec (cblock y) b) as [Eb | Eb]; cbn [negb andb];
    try (specialize (IH (i + 1)); destruct (cache_find_from (i + 1) c b) as [k |];
      [destruct IH as (n & x & -> & ? & ? & ?); exists (S n), x; split_and!; try done; lia |
       intros [| n] x Hx Hl; simpl in Hx; [simplify_eq | by apply (IH n)]; by intros ?]).
  exists 0%nat, y. split_and!; try done. lia.
Qed.

Lemma cache_victim_from_range c : forall i oldest worst,
  0 <= worst -> worst < i + Zlen c -> 0 <= i -> 
  0 <= cache_victim_from i c oldest worst < i + Zlen c.
Proof.
  induction c as [| y c IH]; intros i oldest worst ? Hw ?; cbn [cache_victim_from]; [lia |].
  unfold Zlen in *. cbn [length] in *. repeat case_if; [lia | |]; specialize (IH (i + 1)).
  - specialize (IH (cstamp y) i). lia.
  - specialize (IH oldest worst). lia.
Qed.

Lemma cache_victim_range s : length (cache s) = 64%nat -> 0 <= cache_victim s < 64.
Proof.
  intros Hl. unfold cache_victim. pose proof (cache_victim_from_range (cache s) 0 (2 ^ 64 - 1) 0) as Hr.
  unfold Zlen in Hr. rewrite Hl in Hr. lia.
Qed.

(** Replacing one slot by a copy of block [b] that is current, or by a dead
    slot, when the volume changed at [b] at most and no other slot has [b]. *)
Lemma coherent_replace s s' i x b :
  coherent s -> 0 <= i < 64 -> source s' = source s -> partition_lba s' = partition_lba s ->
  cache s' = upd i x (cache s) ->
  (forall b', b' <> b -> vol s' b' = vol s b') ->
  (forall j y, cache s !! j = Some y -> j <> Z.to_nat i -> live y -> cblock y <> b) ->
  (live x -> cblock x = b /\ blk_ok s b /\ cdata x = vol s' b) ->
  coherent s'.
Proof.
  intros [Hs Hp Hl Hd Hu] Hi Es Ep Ec Hv Hne Hx.
  assert (Hok : forall c, blk_ok s c -> blk_ok s' c) by (unfold blk_ok; by rewrite Ep).
  split; rewrite ?Es, ?Ep; try done; rewrite Ec; unfold upd.
  - by rewrite length_insert.
  - intros j y Hj Hlive. apply list_lookup_insert_Some in Hj as [(<- & <- & _) | [? Hj]].
    + destruct (Hx Hlive) as (-> & ? & ?). auto.
    + destruct (Hd _ _ Hj Hlive). rewrite Hv; [auto |]. by apply (Hne j y).
  - intros j k y z Hj Hk Hy Hz E.
    apply list_lookup_insert_Some in Hj as [(<- & <- & _) | [? Hj]];
      apply list_lookup_insert_Some in Hk as [(<- & <- & _) | [? Hk]]; try done.
    + exfalso. destruct (Hx Hy) as (Eb & _). apply (Hne _ _ Hk); congruence.
    + exfalso. destruct (Hx Hz) as (Eb & _). apply (Hne _ _ Hj); congruence.
    + by apply (Hu _ _ _ _ Hj Hk).
Qed.

Lemma coherent_store s s' i x clk :
  coherent s -> 0 <= i < 64 -> same_vol s s' -> source s' = source s -> partition_lba s' = partition_lba s ->
  cache s' = cache s ->
  (live x -> blk_ok s (cblock x) /\ cdata x = vol s (cblock x)) ->
  (live x -> forall j y, cache s !! j = Some y -> j <> Z.to_nat i -> live y -> cblock y <> cblock x) ->
  coherent (with_cache (upd i x (cache s')) clk s').
Proof.
  intros Hc Hi Hv Es Ep Ec Hx Hne. destruct (decide (cstamp x = 0)) as [Hz | Hz].
  - apply (coherent_replace s (with_cache (upd i x (cache s')) clk s') i x (-1) Hc Hi Es Ep); cbn [cache with_cache].
    + by rewrite Ec.
    + intros b' _. apply Hv.
    + intros j y Hj _ Hy. destruct (coh_data _ Hc _ _ Hj Hy) as [[? _] _]. lia.
    + intros Hl. by destruct Hl.
  - apply (coherent_replace s (with_cache (upd i x (cache s')) clk s') i x (cblock x) Hc Hi Es Ep); cbn [cache with_cache].
    + by rewrite Ec.
    + intros b' _. apply Hv.
    + by apply Hne.
    + intros _. destruct (Hx Hz) as [? E]. split_and!; try done. rewrite E. symmetry. apply Hv.
Qed.

Lemma same_vol_dev s d :
  (forall src n, sector src d n = sector src (dev s) n) -> same_vol s (with_dev d s).
Proof.
  intros Hd b. unfold vol. cbn [source dev partition_lba with_dev].
  apply (f_equal mjoin), list_fmap_ext. intros. apply Hd.
Qed.

Lemma sectors_read_spec s lba cnt r s' :
  source s <> WFS_SOURCE_NONE -> sectors_read lba cnt s = (r, s') ->
  same_meta s s' /\ same_vol s s' /\ cache s' = cache s /\ cache_clock s' = cache_clock s /\
  (forall buf, r = Some buf -> 0 <= lba -> 0 < cnt -> lba + cnt < 2 ^ 32 ->
     buf = mjoin (sector (source s) (dev s) <$> seqZ lba cnt)).
Proof.
  intros Hs. unfold sectors_read. intros Hr.
  assert (Hr' : exists d, dev_read (source s) lba cnt (dev s) = (r, d) /\ s' = with_dev d s).
  { destruct (source s); [done | | |]; destruct (dev_read _ _ _ _) as [r' d]; simplify_eq; by exists d. }
  destruct Hr' as (d & E & ->). split_and!; try done.
  - apply same_vol_dev. intros. by eapply dev_read_same.
  - intros buf -> ? ? ?. by eapply dev_read_data.
Qed.

Lemma block_read_spec s b r s' :
  coherent s -> blk_ok s b -> block_read b s = (r, s') ->
  coherent s' /\ same_meta s s' /\ same_vol s s' /\ (forall d, r = Some d -> d = vol s b).
Proof.
  intros Hc Hb. unfold block_read.
  pose proof (cache_find_from_spec (cache s) b 0) as Hf. unfold cache_find.
  destruct (cache_find_from 0 (cache s) b) as [k |].
  - destruct Hf as (n & x & -> & Hx & Hlive & Eb). rewrite Z.add_0_l.
    assert (Hget : (cache s).[Z.of_nat n] = x) by (rewrite Nat2Z.id; by apply list_lookup_total_correct).
    assert (Hn : (n < 64)%nat) by (rewrite <- (coh_len _ Hc); by eapply lookup_lt_Some).
    unfold cache_hit. rewrite Hget. intros [= <- <-].
    destruct (coh_data _ Hc _ _ Hx Hlive) as [Hok Ed]. split_and!; try done.
    + apply (coherent_store s s); try done; [lia |]. intros _ j y Hj Hne Hy E. cbn [cblock] in E.
      apply Hne. rewrite Nat2Z.id. by apply (coh_uniq _ Hc _ _ _ _ Hj Hx).
    + intros d [= <-]. by rewrite Ed, Eb.
  - pose proof (cache_victim_range s (coh_len _ Hc)) as Hv. set (v := cache_victim s) in *.
    rewrite (block_lba_eq s b (coh_lba _ Hc) Hb).
    destruct (sectors_read _ _ s) as [r1 s1] eqn:Er.
    destruct (sectors_read_spec _ _ _ _ _ (coh_source _ Hc) Er) as (Hm & Hvol & Ec & Eclk & Hdata).
    destruct r1 as [buf |].
    + unfold cache_hit, set_slot. cbn [cache with_cache cache_clock].
      assert (Hget : (upd v (Slot buf b (cstamp (cache s1).[v])) (cache s1)).[v] = Slot buf b (cstamp (cache s1).[v])).
      { apply get_upd_eq. unfold Zlen. rewrite Ec, (coh_len _ Hc). lia. }
      rewrite Hget. cbn [cdata cblock].
      intros [= <- <-].
      assert (Ebuf : buf = vol s b).
      { unfold vol. destruct Hb. pose proof (coh_lba _ Hc). apply Hdata; try done; unfold WFS_SECTORS_PER_BLOCK; lia. }
      split_and!.
      * rewrite upd_upd. apply (coherent_store s s1); try done; [apply Hm.. |].
        intros _ j y Hj _ Hy. cbn [cblock]. by apply (Hf j y).
      * by destruct Hm.
      * done.
      * intros d [= <-]. done.
    + intros [= <- <-]. split_and!; try done.
      * apply (coherent_store s s1); try done; try apply Hm; intros Hl; by destruct Hl.
      * by destruct Hm.
Qed.

(** The slot a write goes to: no other slot holds the block. *)
Definition write_slot (b : Z) s : Z :=
  match cache_find b s with Some i => i | None => cache_victim s end.

Lemma write_slot_spec s b :
  coherent s -> 0 <= write_slot b s < 64 /\
  forall j y, cache s !! j = Some y -> j <> Z.to_nat (write_slot b s) -> live y -> cblock y <> b.
Proof.
  intros Hc. unfold write_slot, cache_find. pose proof (cache_find_from_spec (cache s) b 0) as Hf.
  destruct (cache_find_from 0 (cache s) b) as [k |].
  - destruct Hf as (n & x & -> & Hx & Hlive & Eb).
    assert (Hn : (n < 64)%nat) by (rewrite <- (coh_len _ Hc); by eapply lookup_lt_Some).
    split; [lia |]. intros j y Hj Hne Hy E. apply Hne.
    rewrite (coh_uniq _ Hc _ _ _ _ Hj Hx) by congruence. lia.
  - split; [by apply cache_victim_range, coh_len |]. intros j y Hj _ Hy. by apply (Hf j y).
Qed.

(** The two sectors of a block. *)
Lemma vol_sectors s b :
  vol s b = sector (source s) (dev s) (partition_lba s + 2 * b) ++
            sector (source s) (dev s) (partition_lba s + 2 * b + 1) ++ [].
Proof. unfold vol. rewrite seqZ_cons, seqZ_cons, seqZ_nil by lia. done. Qed.

Lemma sectors_write_spec s b buf ok s' :
  coherent s \/ (source s <> WFS_SOURCE_NONE /\ 0 <= partition_lba s) ->
  blk_ok s b -> Zlen buf = 1024 ->
  sectors_write (block_lba b s) WFS_SECTORS_PER_BLOCK buf s = (ok, s') ->
  same_meta s s' /\ cache s' = cache s /\ cache_clock s' = cache_clock s /\
  (forall b', b' <> b -> vol s' b' = vol s b') /\ (ok = true -> vol s' b = buf).
Proof.
  intros Hc Hb Hl. assert (Hs : source s <> WFS_SOURCE_NONE /\ 0 <= partition_lba s)
    by (destruct Hc as [[] | ?]; done). clear Hc. destruct Hs as [Hs Hp].
  rewrite block_lba_eq by done. unfold sectors_write, WFS_SECTORS_PER_BLOCK. intros Hr.
  assert (Hr' : exists d, dev_write (source s) (partition_lba s + 2 * b) 2 buf (dev s) = (ok, d) /\ s' = with_dev d s).
  { destruct (source s); [done | | |]; destruct (dev_write _ _ _ _ _) as [r' d]; simplify_eq; by exists d. }
  destruct Hr' as (d & E & ->). destruct Hb. split_and!; try done.
  - intros b' Hne. rewrite !vol_sectors. cbn [source dev partition_lba with_dev].
    assert (Ho : forall n, n < partition_lba s + 2 * b \/ partition_lba s + 2 * b + 2 <= n ->
              sector (source s) d n = sector (source s) (dev s) n).
    { intros n Hn. eapply dev_write_other; [| | | | exact E |]; (lia || auto). }
    rewrite !Ho by lia. done.
  - intros ->. rewrite vol_sectors. cbn [source dev partition_lba with_dev].
    assert (Ho : forall n, partition_lba s + 2 * b <= n < partition_lba s + 2 * b + 2 ->
              sector (source s) d n = slice ((n - (partition_lba s + 2 * b)) * 512) 512 buf).
    { intros n Hn. eapply dev_write_data; [| | | | exact E |]; lia. }
    rewrite !Ho by lia.
    rewrite app_nil_r. unfold slice, Zlen in *.
    replace (Z.to_nat ((partition_lba s + 2 * b - (partition_lba s + 2 * b)) * 512)) with 0%nat by lia.
    replace (Z.to_nat ((partition_lba s + 2 * b + 1 - (partition_lba s + 2 * b)) * 512)) with 512%nat by lia.
    rewrite drop_0. change (Z.to_nat 512) with 512%nat.
    rewrite (take_ge (drop 512 buf)) by (rewrite length_drop; lia). apply take_drop.
Qed.

Lemma block_write_spec s b buf ok s' :
  coherent s -> blk_ok s b -> Zlen buf = 1024 -> block_write b buf s = (ok, s') ->
  coherent s' /\ same_meta s s' /\ (forall b', b' <> b -> vol s' b' = vol s b') /\
  (ok = true -> vol s' b = buf).
Proof.
  intros Hc Hb Hl. unfold block_write. fold (write_slot b s).
  destruct (write_slot_spec s b Hc) as [Hi Hne]. set (i := write_slot b s) in *.
  set (s1 := with_cache _ _ s). destruct (sectors_write _ _ buf s1) as [ok1 s2] eqn:E.
  destruct (sectors_write_spec s1 b buf ok1 s2) as (Hm & Ec & _ & Hv & Hok); try done.
  { right. split; apply Hc. }
  assert (Hm' : same_meta s s2) by (by destruct Hm).
  destruct ok1; intros [= <- <-].
  - split_and!; try done. eapply (coherent_replace s s2 i _ b Hc Hi); try apply Hm'; [exact Ec | done | done |].
    intros _. cbn [cblock cdata]. by rewrite Hok.
  - split_and!; try done; [| by destruct Hm'].
    eapply (coherent_replace s _ i _ b Hc Hi); try apply Hm'; [| done | done |].
    + cbn [cache set_slot with_cache]. rewrite Ec. unfold s1. cbn [cache with_cache]. apply upd_upd.
    + intros Hlv. by destruct Hlv.
Qed.

End block_layer.

(** ** The block bitmap *)

Section allocation.
Context {D : Type} `{BlockDeviceLaws D}.
Implicit Types s : fs D.

Definition used s (b : Z) : bool := bitmap_test b s.

(** The layout [tools/mkwfs.c] gives a volume: superblock, bitmap, inodes,
    data, all of it below sector [2^32]. *)
Record geometry s : Prop := {
  geo_bitmap : 0 < bitmap_start (sb s) /\ 0 < bitmap_blocks (sb s);
  geo_inodes : bitmap_start (sb s) + bitmap_blocks (sb s) <= inode_start (sb s) /\
               0 < total_inodes (sb s) <= 16 * inode_blocks (sb s);
  geo_data : inode_start (sb s) + inode_blocks (sb s) <= data_start (sb s) <= total_blocks (sb s);
  geo_lba : partition_lba s + 2 * total_blocks (sb s) < 2 ^ 32;
  geo_bytes : Zlen (block_bitmap s) = bitmap_blocks (sb s) * 1024 /\
              total_blocks (sb s) <= bitmap_blocks (sb s) * 8192;
}.

Definition data_blocks s : list Z :=
  seqZ (data_start (sb s)) (total_blocks (sb s) - data_start (sb s)).

Record alloc_ok s : Prop := {
  ao_coherent :> coherent s;
  ao_geometry : geometry s;
  ao_free : free_blocks (sb s) = countb (fun b => negb (used s b)) (data_blocks s);
}.

(** Blocks the allocator itself writes to. *)
Definition meta_block s (c : Z) : Prop :=
  c = 0 \/ bitmap_start (sb s) <= c < bitmap_start (sb s) + bitmap_blocks (sb s).

(** Two states with the same volume layout. *)
Record same_layout s s' : Prop := {
  sl_source : source s' = source s;
  sl_lba : partition_lba s' = partition_lba s;
  sl_mounted : mounted s' = mounted s;
  sl_rtc : rtc s' = rtc s;
  sl_total_blocks : total_blocks (sb s') = total_blocks (sb s);
  sl_total_inodes : total_inodes (sb s') = total_inodes (sb s);
  sl_free_inodes : free_inodes (sb s') = free_inodes (sb s);
  sl_bitmap_start : bitmap_start (sb s') = bitmap_start (sb s);
  sl_bitmap_blocks : bitmap_blocks (sb s') = bitmap_blocks (sb s);
  sl_inode_start : inode_start (sb s') = inode_start (sb s);
  sl_inode_blocks : inode_blocks (sb s') = inode_blocks (sb s);
  sl_data_start : data_start (sb s') = data_start (sb s);
  sl_root : root_inode (sb s') = root_inode (sb s);
  sl_bytes : Zlen (block_bitmap s') = Zlen (block_bitmap s);
}.

Lemma same_layout_refl s : same_layout s s.
Proof. done. Qed.

Lemma same_layout_trans s1 s2 s3 : same_layout s1 s2 -> same_layout s2 s3 -> same_layout s1 s3.
Proof. intros [] []. split; congruence. Qed.

Lemma same_meta_layout s s' : same_meta s s' -> same_layout s s'.
Proof. intros []. split; congruence. Qed.

Lemma geometry_layout s s' : same_layout s s' -> geometry s -> geometry s'.
Proof. intros [] []. split; repeat match goal with E : _ = _ |- _ => rewrite E end; done. Qed.

Lemma coherent_meta s s' :
  dev s' = dev s -> source s' = source s -> partition_lba s' = partition_lba s -> cache s' = cache s ->
  coherent s -> coherent s'.
Proof.
  intros Ed Es Ep Ec [? ? ? Hd ?]. unfold blk_ok, vol in Hd.
  split; unfold blk_ok, vol; rewrite ?Ed, ?Es, ?Ep, ?Ec; try done.
Qed.

Lemma used_testbit s b : used s b = Z.testbit (block_bitmap s).[b / 8] (b `mod` 8).
Proof. unfold used, bitmap_test. rewrite land_bit_nonzero by zlia. apply negb_involutive. Qed.

Lemma u8_bit n : 0 <= n < 8 -> u8 (Z.shiftl 1 n) = Z.shiftl 1 n.
Proof. intros. apply u8_id. rewrite Z.shiftl_1_l. split; [lia |]. apply (Z.pow_lt_mono_r 2 n 8); lia. Qed.

Lemma used_set s b c :
  0 <= b < 8 * Zlen (block_bitmap s) -> 0 <= c ->
  used (bitmap_set b s) c = ((c =? b) || used s c)%bool.
Proof.
  intros Hb Hc. rewrite !used_testbit. unfold bitmap_set. cbn [block_bitmap with_bitmap].
  rewrite u8_bit by zlia. destruct (decide (c / 8 = b / 8)) as [E | E].
  - rewrite E, get_upd_eq, testbit_set_bit by zlia.
    replace (c `mod` 8 =? b `mod` 8) with (c =? b); [apply orb_comm || done |].
    destruct (Z.eqb_spec c b), (Z.eqb_spec (c `mod` 8) (b `mod` 8)); try done; zlia.
  - rewrite get_upd_ne by zlia. destruct (Z.eqb_spec c b); [zlia | done].
Qed.

Lemma used_clear s b c :
  0 <= b < 8 * Zlen (block_bitmap s) -> 0 <= c ->
  used (bitmap_clear b s) c = (negb (c =? b) && used s c)%bool.
Proof.
  intros Hb Hc. rewrite !used_testbit. unfold bitmap_clear. cbn [block_bitmap with_bitmap].
  destruct (decide (c / 8 = b / 8)) as [E | E].
  - rewrite E, get_upd_eq, Z.land_spec, u8_testbit, Z.lnot_spec, Z.shiftl_1_l, Z.pow2_bits_eqb by zlia.
    rewrite (proj2 (Z.ltb_lt _ _)) by zlia. cbn [andb]. rewrite andb_comm. do 2 f_equal.
    destruct (Z.eqb_spec c b), (Z.eqb_spec (b `mod` 8) (c `mod` 8)); try done; zlia.
  - rewrite get_upd_ne by zlia. destruct (Z.eqb_spec c b); [zlia | done].
Qed.

Lemma elem_data_blocks s b : b ∈ data_blocks s <-> data_start (sb s) <= b < total_blocks (sb s).
Proof. unfold data_blocks. rewrite elem_of_seqZ. lia. Qed.

Lemma geo_bit s b : geometry s -> 0 <= b < total_blocks (sb s) -> 0 <= b < 8 * Zlen (block_bitmap s).
Proof. intros [] ?. lia. Qed.

Lemma geo_blk_ok s b : geometry s -> 0 <= b < total_blocks (sb s) -> blk_ok s b.
Proof. intros [] ?. unfold blk_ok. lia. Qed.

(** What a step of the allocator leaves alone and what it may write. *)
Record alloc_frame s s' (b : Z) : Prop := {
  af_layout : same_layout s s';
  af_coherent : coherent s';
  af_vol : forall c, c <> b -> ~ meta_block s c -> vol s' c = vol s c;
}.

Lemma Zlen_encode_sb x : Zlen (encode_sb x) = 48.
Proof. done. Qed.

Lemma sync_superblock_frame s b ok s' :
  coherent s -> geometry s -> sync_superblock s = (ok, s') -> alloc_frame s s' b /\ same_meta s s'.
Proof.
  intros Hc Hg E. unfold sync_superblock in E.
  apply block_write_spec in E as (Hc' & Hm & Hv & _); [| done | | ].
  - split; [| done]. split; [by apply same_meta_layout | done |].
    intros c _ Hn. apply Hv. intros ->. apply Hn. by left.
  - destruct Hg. split; lia.
  - rewrite Zlen_splice; rewrite ?Zlen_encode_sb; [done | lia | unfold Zlen; rewrite length_replicate; lia].
Qed.

Lemma bitmap_index s b :
  geometry s -> 0 <= b < total_blocks (sb s) -> 0 <= b / 8192 < bitmap_blocks (sb s).
Proof. intros [] ?. zlia. Qed.

Lemma sync_bitmap_frame s b x ok s' :
  coherent s -> geometry s -> 0 <= b < total_blocks (sb s) -> sync_bitmap_for b s = (ok, s') ->
  alloc_frame s s' x /\ same_meta s s'.
Proof.
  intros Hc Hg Hb E. unfold sync_bitmap_for, WFS_BLOCK_SIZE in E. change (1024 * 8) with 8192 in E.
  pose proof (bitmap_index s b Hg Hb) as Hi. destruct Hg as [Hg1 Hg2 Hg3 Hg4 Hg5].
  pose proof (coh_lba _ Hc). rewrite u32_id in E by lia.
  apply block_write_spec in E as (Hc' & Hm & Hv & _); [| done | |].
  - split; [| done]. split; [by apply same_meta_layout | done |].
    intros c _ Hn. apply Hv. intros ->. apply Hn. right. lia.
  - split; lia.
  - rewrite Zlen_slice; lia.
Qed.

Lemma alloc_frame_trans s1 s2 s3 b :
  alloc_frame s1 s2 b -> alloc_frame s2 s3 b -> alloc_frame s1 s3 b.
Proof.
  intros [L1 C1 V1] [L2 C2 V2]. split; [by eapply same_layout_trans | done |].
  intros c Hc Hn. rewrite V2, V1; [done.. |].
  unfold meta_block in *. by rewrite (sl_bitmap_start _ _ L1), (sl_bitmap_blocks _ _ L1).
Qed.

(** Both syncs, whatever they return. *)
Lemma syncs_frame s b x s' :
  coherent s -> geometry s -> 0 <= b < total_blocks (sb s) ->
  (let '(_, s) := sync_bitmap_for b s in let '(_, s) := sync_superblock s in s) = s' ->
  alloc_frame s s' x /\ same_meta s s'.
Proof.
  intros Hc Hg Hb. destruct (sync_bitmap_for b s) as [ok1 s1] eqn:E1.
  apply (sync_bitmap_frame _ _ x) in E1 as [F1 M1]; try done.
  destruct (sync_superblock s1) as [ok2 s2] eqn:E2. intros <-.
  apply (sync_superblock_frame _ x) in E2 as [F2 M2]; [| apply F1 | by eapply geometry_layout, Hg; apply F1].
  split; [by eapply alloc_frame_trans |]. destruct M1, M2. split; congruence.
Qed.

(** The count after one bit flips. *)
Lemma free_count_flip s s' b :
  b ∈ data_blocks s -> (forall c, 0 <= c -> c <> b -> used s' c = used s c) -> 0 <= data_start (sb s) ->
  countb (fun c => negb (used s' c)) (data_blocks s) =
  countb (fun c => negb (used s c)) (data_blocks s) - Z.b2z (negb (used s b)) + Z.b2z (negb (used s' b)).
Proof.
  intros Hb Heq Hd.
  rewrite (countb_ext _ (fun c => if decide (c = b) then negb (used s' b) else negb (used s c))); last first.
  { intros c Hc. apply elem_data_blocks in Hc. destruct (decide (c = b)) as [-> |]; [done |].
    by rewrite Heq by lia. }
  rewrite (countb_flip (fun c => negb (used s c)) _ b); [by rewrite decide_True by done | | done |].
  - apply NoDup_seqZ.
  - intros c Hc. by rewrite decide_False.
Qed.

Lemma used_meta s s' : block_bitmap s' = block_bitmap s -> forall c, used s' c = used s c.
Proof. intros E c. unfold used, bitmap_test. by rewrite E. Qed.

Lemma data_blocks_layout s s' : same_layout s s' -> data_blocks s' = data_blocks s.
Proof. intros []. unfold data_blocks. congruence. Qed.

(** Taking block [b]: the state before anything is written. *)
Definition claim (b : Z) s : fs D := add_free_blocks (-1) (bitmap_set b s).

Lemma claim_layout b s : same_layout s (claim b s).
Proof. split; try done. apply Zlen_upd. Qed.

Lemma claim_ok b s :
  alloc_ok s -> b ∈ data_blocks s -> used s b = false ->
  alloc_ok (claim b s) /\ free_blocks (sb (claim b s)) = free_blocks (sb s) - 1 /\
  (forall c, 0 <= c -> used (claim b s) c = ((c =? b) || used s c)%bool).
Proof.
  intros [Hc Hg Hf] Hb Hu. pose proof (proj1 (elem_data_blocks _ _) Hb) as Hr.
  pose proof (ao_geometry s (Build_alloc_ok s Hc Hg Hf)) as [? ? ? ? ?]. pose proof (coh_lba _ Hc).
  assert (Hused : forall c, 0 <= c -> used (claim b s) c = ((c =? b) || used s c)%bool).
  { intros c Hc0. apply (used_set s b c); [apply geo_bit; [done |]; lia | done]. }
  pose proof (countb_bounds (fun c => negb (used s c)) (data_blocks s)) as Hbd.
  assert (Hlen : Zlen (data_blocks s) <= total_blocks (sb s)).
  { unfold data_blocks, Zlen. rewrite length_seqZ. lia. }
  pose proof (free_count_flip s (claim b s) b Hb) as Hflip.
  rewrite Hu, (Hused b), Z.eqb_refl in Hflip by lia. simpl in Hflip.
  assert (Hcnt := Hflip ltac:(intros c ? ?; rewrite Hused by done; by destruct (Z.eqb_spec c b)) ltac:(lia)).
  pose proof (countb_bounds (fun c => negb (used (claim b s) c)) (data_blocks s)).
  assert (Hfree : free_blocks (sb (claim b s)) = free_blocks (sb s) - 1).
  { unfold claim. cbn [sb add_free_blocks with_sb free_blocks bitmap_set with_bitmap].
    rewrite Hf, u32_id by lia. lia. }
  split_and!; try done. split.
  - by apply (coherent_meta s).
  - apply (geometry_layout s), Hg. apply claim_layout.
  - rewrite (data_blocks_layout s _ (claim_layout b s)), Hfree, Hcnt, Hf. lia.
Qed.

Lemma alloc_ok_frame s s' b :
  alloc_ok s -> alloc_frame s s' b -> same_meta s s' -> alloc_ok s'.
Proof.
  intros [Hc Hg Hf] [L C V] M. split; [done | by eapply geometry_layout |].
  rewrite (sm_sb _ _ M), (data_blocks_layout _ _ L), Hf. apply countb_ext. intros c _.
  by rewrite (used_meta _ _ (sm_bitmap _ _ M)).
Qed.

(** The outcome of an allocation. *)
Definition allocated s s' (b : Z) : Prop :=
  b ∈ data_blocks s /\ used s b = false /\
  (forall c, 0 <= c -> used s' c = ((c =? b) || used s c)%bool) /\
  free_blocks (sb s') = free_blocks (sb s) - 1.

(** Writing a block of zeroes and the two syncs, after the claim. *)
Lemma alloc_claimed s b :
  alloc_ok s -> b ∈ data_blocks s -> used s b = false ->
  let '(ok, s1) := block_write b (replicate 1024 0) (claim b s) in
  let s' := if ok then let '(_, s2) := sync_bitmap_for b s1 in let '(_, s3) := sync_superblock s2 in s3
            else s1 in
  alloc_ok s' /\ alloc_frame s s' b /\ allocated s s' b /\ (ok = true -> vol s' b = replicate 1024 0).
Proof.
  intros Hok Hb Hu. destruct (claim_ok b s Hok Hb Hu) as (Hok1 & Hfree & Hused).
  pose proof (claim_layout b s) as L0. pose proof (proj1 (elem_data_blocks _ _) Hb) as Hr.
  pose proof (ao_geometry _ Hok) as [? ? ? ? ?].
  destruct (block_write b _ _) as [ok s1] eqn:E.
  apply block_write_spec in E as (Hc1 & M1 & V1 & Hz); [| apply Hok1 | | done].
  2: { apply geo_blk_ok; [apply Hok1 |]. rewrite (sl_total_blocks _ _ L0). lia. }
  assert (F1 : alloc_frame (claim b s) s1 b).
  { split; [by apply same_meta_layout | done |]. intros c Hne _. by apply V1. }
  assert (F0 : alloc_frame s (claim b s) b) by (split; [done | apply Hok1 | done]).
  pose proof (alloc_ok_frame _ _ _ Hok1 F1 M1) as Hok2.
  assert (Hall : forall s', same_meta s1 s' -> allocated s s' b).
  { intros s' M2. split_and!; try done.
    - intros c Hc. rewrite (used_meta s1 s'), (used_meta _ _ (sm_bitmap _ _ M1)) by apply M2. by apply Hused.
    - rewrite (sm_sb _ _ M2), (sm_sb _ _ M1). done. }
  destruct ok; cbn zeta iota beta.
  - destruct (syncs_frame s1 b 0 _ ltac:(apply Hok2) ltac:(apply Hok2)
      ltac:(rewrite (sl_total_blocks _ _ (af_layout _ _ _ F1)), (sl_total_blocks _ _ L0); lia) eq_refl) as [F2 M2].
    split_and!; [by eapply alloc_ok_frame | | by apply Hall |].
    + eapply alloc_frame_trans; [exact F0 |]. eapply alloc_frame_trans; [exact F1 |].
      split; try apply F2. intros c _ Hn. apply F2; [| done]. intros ->. apply Hn. by left.
    + intros _. rewrite <- Hz by done. apply F2; [lia |]. unfold meta_block.
      rewrite (sl_bitmap_start _ _ (af_layout _ _ _ F1)), (sl_bitmap_blocks _ _ (af_layout _ _ _ F1)),
        (sl_bitmap_start _ _ L0), (sl_bitmap_blocks _ _ L0). lia.
  - split_and!; try done; [by eapply alloc_frame_trans | by apply Hall].
Qed.

(** [block_alloc]: the first free block, zeroed; 0 when there is none or the
    device fails to write it. *)
Lemma block_alloc_from_spec s : alloc_ok s -> forall fuel b r s',
  data_start (sb s) <= b -> total_blocks (sb s) - b <= Z.of_nat fuel ->
  (forall c, data_start (sb s) <= c < b -> used s c = true) ->
  block_alloc_from fuel b s = (r, s') ->
  (r = 0 /\ s' = s /\ forall c, c ∈ data_blocks s -> used s c = true) \/
  (exists c, alloc_ok s' /\ alloc_frame s s' c /\ allocated s s' c /\
     (r = 0 \/ r = c /\ vol s' c = replicate 1024 0 /\
        forall d, data_start (sb s) <= d < c -> used s d = true)).
Proof.
  intros Hok. induction fuel as [| fuel IH]; intros b r s' Hb Hfuel Hlow; cbn [block_alloc_from].
  { intros [= <- <-]. left. split_and!; try done. intros c Hc. apply elem_data_blocks in Hc. apply Hlow. lia. }
  destruct (Z.ltb_spec b (total_blocks (sb s))) as [Hlt | Hge].
  2: { intros [= <- <-]. left. split_and!; try done. intros c Hc. apply elem_data_blocks in Hc. apply Hlow. lia. }
  destruct (bitmap_test b s) eqn:Eu.
  - apply IH; [lia | lia |]. intros c Hc. destruct (decide (c = b)) as [-> | ]; [done |]. apply Hlow. lia.
  - assert (Hin : b ∈ data_blocks s) by (apply elem_data_blocks; lia).
    pose proof (alloc_claimed s b Hok Hin Eu) as Hcl. fold (claim b s).
    destruct (block_write b _ _) as [ok s1]. destruct ok; cbn [negb]; cbn zeta iota beta in Hcl.
    + destruct (sync_bitmap_for b s1) as [ok1 s2], (sync_superblock s2) as [ok2 s3].
      destruct Hcl as (? & ? & ? & Hz). intros [= <- <-]. right. exists b. split_and!; try done.
      right. split_and!; try done. by apply Hz.
    + destruct Hcl as (? & ? & ? & _). intros [= <- <-]. right. exists b. split_and!; try done. by left.
Qed.

Lemma block_alloc_spec s r s' :
  alloc_ok s -> block_alloc s = (r, s') ->
  (r = 0 /\ s' = s /\ forall c, c ∈ data_blocks s -> used s c = true) \/
  (exists c, alloc_ok s' /\ alloc_frame s s' c /\ allocated s s' c /\
     (r = 0 \/ r = c /\ vol s' c = replicate 1024 0 /\
        forall d, data_start (sb s) <= d < c -> used s d = true)).
Proof.
  intros Hok E. eapply block_alloc_from_spec; [done | | | | exact E]; lia.
Qed.

Definition release (b : Z) s : fs D := add_free_blocks 1 (bitmap_clear b s).

Lemma release_layout b s : same_layout s (release b s).
Proof. split; try done. apply Zlen_upd. Qed.

Lemma release_ok b s :
  alloc_ok s -> b ∈ data_blocks s -> used s b = true ->
  alloc_ok (release b s) /\ free_blocks (sb (release b s)) = free_blocks (sb s) + 1 /\
  (forall c, 0 <= c -> used (release b s) c = (negb (c =? b) && used s c)%bool).
Proof.
  intros [Hc Hg Hf] Hb Hu. pose proof (proj1 (elem_data_blocks _ _) Hb) as Hr.
  pose proof (ao_geometry s (Build_alloc_ok s Hc Hg Hf)) as [? ? ? ? ?]. pose proof (coh_lba _ Hc).
  assert (Hused : forall c, 0 <= c -> used (release b s) c = (negb (c =? b) && used s c)%bool).
  { intros c Hc0. apply (used_clear s b c); [apply geo_bit; [done |]; lia | done]. }
  assert (Hlen : Zlen (data_blocks s) <= total_blocks (sb s)).
  { unfold data_blocks, Zlen. rewrite length_seqZ. lia. }
  pose proof (free_count_flip s (release b s) b Hb) as Hflip.
  rewrite Hu, (Hused b), Z.eqb_refl in Hflip by lia. simpl in Hflip.
  assert (Hcnt := Hflip ltac:(intros c ? ?; rewrite Hused by done; by destruct (Z.eqb_spec c b)) ltac:(lia)).
  pose proof (countb_bounds (fun c => negb (used s c)) (data_blocks s)).
  pose proof (countb_bounds (fun c => negb (used (release b s) c)) (data_blocks s)).
  assert (Hfree : free_blocks (sb (release b s)) = free_blocks (sb s) + 1).
  { unfold release. cbn [sb add_free_blocks with_sb free_blocks bitmap_clear with_bitmap].
    rewrite Hf, u32_id by lia. lia. }
  split_and!; try done. split.
  - by apply (coherent_meta s).
  - apply (geometry_layout s), Hg. apply release_layout.
  - rewrite (data_blocks_layout s _ (release_layout b s)), Hfree, Hcnt, Hf. lia.
Qed.

(** [block_free]: a data block in use becomes free; anything else is ignored. *)
Lemma block_free_spec s b :
  alloc_ok s ->
  let s' := block_free b s in
  alloc_ok s' /\ alloc_frame s s' 0 /\
  (b ∈ data_blocks s /\ used s b = true /\ free_blocks (sb s') = free_blocks (sb s) + 1 /\
   (forall c, 0 <= c -> used s' c = (negb (c =? b) && used s c)%bool) \/
   ~ (b ∈ data_blocks s /\ used s b = true) /\ s' = s).
Proof.
  intros Hok s'. unfold s', block_free. rewrite elem_data_blocks.
  assert (Hrefl : alloc_frame s s 0) by (split; [done | apply Hok | done]).
  destruct (Z.ltb_spec b (data_start (sb s))); cbn [orb].
  { split_and!; try done. right. split; [lia | done]. }
  destruct (Z.leb_spec (total_blocks (sb s)) b).
  { split_and!; try done. right. split; [lia | done]. }
  destruct (bitmap_test b s) eqn:Eu; cbn [negb].
  2: { split_and!; try done. right. split; [| done]. intros [_ Hu]. unfold used in Hu. congruence. }
  fold (release b s). assert (Hin : b ∈ data_blocks s) by (apply elem_data_blocks; lia).
  destruct (release_ok b s Hok Hin Eu) as (Hok1 & Hfree & Hused).
  pose proof (ao_geometry _ Hok) as [? ? ? ? ?].
  destruct (syncs_frame (release b s) b 0 _ ltac:(apply Hok1) ltac:(apply Hok1)
    ltac:(rewrite (sl_total_blocks _ _ (release_layout b s)); lia) eq_refl) as [F M].
  split_and!; [by eapply alloc_ok_frame | |].
  - eapply alloc_frame_trans; [| exact F]. split; [apply release_layout | apply Hok1 | done].
  - left. split_and!; try done.
    + by rewrite (sm_sb _ _ M).
    + intros c Hc. rewrite (used_meta _ _ (sm_bitmap _ _ M)). by apply Hused.
Qed.

End allocation.

End Wfs.
