(* ===== verification/WfsFile.v ===== *)
(** The file layer of WFS: that [bmap], [wfs_read] and [wfs_write] make an
    inode and its pointer blocks an array of bytes.

    The statements are for a device that does not fail ([ReliableDevice]); what
    failures do at the block layer is in [Wfs]. *)

From S2P Require Import Prelude Device Ramdisk Wfs.

Module WfsFile.
Import Wfs.

(** ** Fields *)

Lemma le32_put32 v l : 0 <= v < 2 ^ 32 -> le32 (put32 v ++ l) 0 = v.
Proof.
  intros. unfold le32, put32.
  change (u8 v + 256 * u8 (v / 256) + 65536 * u8 (v / 65536) + 16777216 * u8 (v / 16777216) = v).
  unfold u8. zlia.
Qed.

Lemma le32_slice b off : 0 <= off -> le32 b off = le32 (slice off 4 b) 0.
Proof. intros. unfold le32. rewrite !get_slice by lia. by rewrite !Z.add_0_r. Qed.

Lemma le32_splice_same b off v :
  0 <= off -> off + 4 <= Zlen b -> 0 <= v < 2 ^ 32 -> le32 (splice off (put32 v) b) off = v.
Proof.
  intros. rewrite le32_slice by done. change 4 with (Zlen (put32 v)). rewrite slice_splice by done.
  rewrite <- (app_nil_r (put32 v)). by apply le32_put32.
Qed.

Lemma le32_splice_other b off new j :
  0 <= off -> off + Zlen new <= Zlen b -> 0 <= j -> j + 4 <= off \/ off + Zlen new <= j ->
  le32 (splice off new b) j = le32 b j.
Proof.
  intros ? ? ? Hj. unfold le32. rewrite !get_splice by lia.
  pose proof (Zlen_nonneg new). repeat case_if; bool_to_prop; try lia; done.
Qed.

Lemma table_get_set t k j v :
  Zlen t = 1024 -> 0 <= k < 256 -> 0 <= j < 256 -> 0 <= v < 2 ^ 32 ->
  table_get (table_set t k v) j = if decide (j = k) then v else table_get t j.
Proof.
  intros Ht Hk Hj Hv. unfold table_get, table_set. destruct (decide (j = k)) as [-> |].
  - apply le32_splice_same; lia.
  - apply le32_splice_other; change (Zlen (put32 v)) with 4; lia.
Qed.

Lemma table_get_zero k : 0 <= k < 256 -> table_get (replicate 1024 0) k = 0.
Proof.
  intros. unfold table_get, le32. rewrite !lookup_total_replicate_2 by lia. done.
Qed.

(** The inode on the disk. *)
Definition inode_wf (x : inode) : Prop :=
  0 <= itype x < 2 ^ 16 /\ 0 <= links x < 2 ^ 16 /\ 0 <= isize x < 2 ^ 32 /\ 0 <= iblocks x < 2 ^ 32 /\
  0 <= mtime x < 2 ^ 32 /\ Zlen (direct x) = 10 /\ Forall (fun b => 0 <= b < 2 ^ 32) (direct x) /\
  0 <= indirect x < 2 ^ 32 /\ 0 <= double_indirect x < 2 ^ 32.

Lemma get_app_r (a b : list Z) k : Zlen a <= k -> (a ++ b).[k] = b.[k - Zlen a].
Proof.
  unfold Zlen. intros. rewrite !list_lookup_total_alt, lookup_app_r by lia. do 2 f_equal. lia.
Qed.

Lemma le32_skip a b off : Zlen a <= off -> le32 (a ++ b) off = le32 b (off - Zlen a).
Proof.
  intros. unfold le32. rewrite !get_app_r by lia.
  replace (off + 1 - Zlen a) with (off - Zlen a + 1) by lia.
  replace (off + 2 - Zlen a) with (off - Zlen a + 2) by lia.
  by replace (off + 3 - Zlen a) with (off - Zlen a + 3) by lia.
Qed.

Lemma le16_skip a b off : Zlen a <= off -> le16 (a ++ b) off = le16 b (off - Zlen a).
Proof.
  intros. unfold le16. rewrite !get_app_r by lia.
  by replace (off + 1 - Zlen a) with (off - Zlen a + 1) by lia.
Qed.

Lemma le16_put16 v l : 0 <= v < 2 ^ 16 -> le16 (put16 v ++ l) 0 = v.
Proof. intros. change (u8 v + 256 * u8 (v / 256) = v). unfold u8. zlia. Qed.

Lemma Zlen_put32s (d : list Z) : Zlen (mjoin (put32 <$> d)) = 4 * Zlen d.
Proof.
  induction d as [| v d IH]; [done |]. change (mjoin (put32 <$> v :: d)) with (put32 v ++ mjoin (put32 <$> d)).
  rewrite Zlen_app, IH. unfold Zlen. simpl length. lia.
Qed.

Lemma le32_put32s (d rest : list Z) i :
  Forall (fun b => 0 <= b < 2 ^ 32) d -> 0 <= i < Zlen d -> le32 (mjoin (put32 <$> d) ++ rest) (4 * i) = d.[i].
Proof.
  intros Hd. revert i. induction Hd as [| v d Hv Hd IH]; intros i Hi; [unfold Zlen in Hi; simpl in Hi; lia |].
  change (mjoin (put32 <$> v :: d)) with (put32 v ++ mjoin (put32 <$> d)). rewrite <- app_assoc.
  destruct (decide (i = 0)) as [-> |]; [by apply le32_put32 |].
  rewrite le32_skip by (unfold Zlen; simpl; lia). change (Zlen (put32 v)) with 4.
  replace (4 * i - 4) with (4 * (i - 1)) by lia. rewrite IH by (unfold Zlen in *; simpl length in *; lia).
  change (v :: d) with ([v] ++ d). rewrite get_app_r by (unfold Zlen; simpl; lia). done.
Qed.

Lemma Zlen_encode_inode x : Zlen (direct x) = 10 -> Zlen (encode_inode x) = 64.
Proof. intros Hd. unfold encode_inode. rewrite !Zlen_app, Zlen_put32s, Hd. done. Qed.

Lemma decode_encode_inode x rest : inode_wf x -> decode_inode (encode_inode x ++ rest) = x.
Proof.
  destruct x as [ty ln sz bl mt d ind dbl]. intros (? & ? & ? & ? & ? & Hd & Hf & ? & ?).
  cbn [itype links isize iblocks mtime direct indirect double_indirect] in *.
  unfold decode_inode, encode_inode. cbn [itype links isize iblocks mtime direct indirect double_indirect].
  rewrite <- !app_assoc. f_equal.
  - by apply le16_put16.
  - rewrite le16_skip by done. by apply le16_put16.
  - rewrite !le32_skip by done. by apply le32_put32.
  - rewrite !le32_skip by done. by apply le32_put32.
  - rewrite !le32_skip by done. by apply le32_put32.
  - apply list_eq_get; [unfold Zlen; rewrite length_fmap, length_seqZ; unfold Zlen in Hd; lia |].
    intros i Hi. unfold Zlen in Hi. rewrite length_fmap, length_seqZ in Hi.
    apply list_lookup_total_correct.
    rewrite list_lookup_fmap, lookup_seqZ_lt by lia. cbn [fmap option_fmap option_map]. f_equal.
    rewrite Z2Nat.id, Z.add_0_l by lia.
    rewrite !le32_skip by (unfold Zlen; simpl; lia).
    change (Zlen (put16 ty)) with 2. change (Zlen (put16 ln)) with 2. change (Zlen (put32 sz)) with 4.
    change (Zlen (put32 bl)) with 4. change (Zlen (put32 mt)) with 4.
    replace (16 + 4 * i - 2 - 2 - 4 - 4 - 4) with (4 * i) by lia. apply le32_put32s; [done | lia].
  - rewrite !le32_skip by (rewrite ?Zlen_put32s, ?Hd; done). rewrite Zlen_put32s, Hd. by apply le32_put32.
  - rewrite !le32_skip by (rewrite ?Zlen_put32s, ?Hd; done). rewrite Zlen_put32s, Hd. by apply le32_put32.
Qed.

(** ** The tree of an inode *)

(** The places a block number is kept: the ten direct pointers, the indirect
    block and its entries, the double-indirect block, its middle blocks and
    their entries. *)
Inductive node := NDirect (i : Z) | NInd | NIndData (i : Z) | NDbl | NMid (i : Z) | NData (i j : Z).

#[global] Instance node_eq_dec : EqDecision node.
Proof. solve_decision. Defined.

Definition valid (n : node) : Prop :=
  match n with
  | NDirect i => 0 <= i < 10
  | NInd | NDbl => True
  | NIndData i | NMid i => 0 <= i < 256
  | NData i j => 0 <= i < 256 /\ 0 <= j < 256
  end.

(** Data blocks, as opposed to pointer blocks. *)
Definition is_data (n : node) : bool :=
  match n with NDirect _ | NIndData _ | NData _ _ => true | _ => false end.

(** Where file block [i] is. *)
Definition MAX_BLOCKS : Z := 10 + 256 + 65536.
Definition node_of (i : Z) : node :=
  if i <? 10 then NDirect i
  else if i <? 266 then NIndData (i - 10)
  else NData ((i - 266) / 256) ((i - 266) `mod` 256).

Lemma node_of_valid i : 0 <= i < MAX_BLOCKS -> valid (node_of i) /\ is_data (node_of i) = true.
Proof. unfold node_of, MAX_BLOCKS. intros. case_ifs; simpl; split; try done; zlia. Qed.

Lemma node_of_inj i j : 0 <= i < MAX_BLOCKS -> 0 <= j < MAX_BLOCKS -> node_of i = node_of j -> i = j.
Proof. unfold node_of, MAX_BLOCKS. intros. repeat case_if; simplify_eq; bool_to_prop; zlia. Qed.

(** ** A device that does not fail *)

Section files.
Context {D : Type} `{Hdev : BlockDevice D} `{!BlockDeviceLaws D} `{!ReliableDevice D}.
Implicit Types s : fs D.

Definition cap s : Z := capacity (source s) (dev s).

Record good s : Prop := {
  gd_alloc :> alloc_ok s;
  gd_cap : partition_lba s + 2 * total_blocks (sb s) <= cap s;
}.

(** Only the cache and the device's own state moved. *)
Record quiet s s' : Prop := {
  qt_good : good s';
  qt_meta : same_meta s s';
  qt_vol : same_vol s s';
}.

Lemma quiet_refl s : good s -> quiet s s.
Proof. intros. split; [done | by split | by intros ?]. Qed.

Lemma quiet_trans s1 s2 s3 : quiet s1 s2 -> quiet s2 s3 -> quiet s1 s3.
Proof.
  intros [_ M1 V1] [G2 M2 V2]. split; [done | destruct M1, M2; split; congruence |].
  intros b. by rewrite V2, V1.
Qed.

Lemma block_read_cap b s r s' : block_read b s = (r, s') -> cap s' = cap s /\ source s' = source s.
Proof.
  unfold block_read, cap, cache_hit, set_slot, sectors_read. intros E.
  destruct (cache_find b s); [by simplify_eq |].
  destruct (source s) eqn:Es; [simplify_eq; cbn [source dev with_cache]; by rewrite Es | | |];
    destruct (dev_read _ _ _ _) as [r1 d] eqn:Er; destruct r1; simplify_eq; cbn [source dev with_cache with_dev];
    rewrite ?Es; split; try done; by eapply read_capacity.
Qed.

Lemma block_write_cap b buf s ok s' : block_write b buf s = (ok, s') -> cap s' = cap s /\ source s' = source s.
Proof.
  unfold block_write, cap, set_slot, sectors_write. cbn [source with_cache]. intros E.
  destruct (source s) eqn:Es; [simplify_eq; cbn [source dev with_cache]; by rewrite Es | | |];
    cbn [dev with_cache] in E; destruct (dev_write _ _ _ _ _) as [r1 d] eqn:Er; destruct r1; simplify_eq;
    cbn [source dev with_cache with_dev]; rewrite ?Es; split; try done; by eapply write_capacity.
Qed.

Lemma good_meta s s' :
  good s -> coherent s' -> same_meta s s' -> cap s' = cap s -> good s'.
Proof.
  intros [[Hc Hg Hf] Hcap] Hc' M Ec. split.
  - split; [done | by eapply geometry_layout, Hg; apply same_meta_layout |].
    rewrite (sm_sb _ _ M), (data_blocks_layout _ _ (same_meta_layout _ _ M)), Hf.
    apply countb_ext. intros c _. by rewrite (used_meta _ _ (sm_bitmap _ _ M)).
  - by rewrite Ec, (sm_sb _ _ M), (sm_lba _ _ M).
Qed.

Lemma good_read s b :
  good s -> 0 <= b < total_blocks (sb s) ->
  exists s', block_read b s = (Some (vol s b), s') /\ quiet s s'.
Proof.
  intros G Hb. pose proof (geo_blk_ok _ _ (ao_geometry _ G) Hb) as Hok.
  pose proof (coh_lba s ltac:(apply G)). pose proof (coh_source s ltac:(apply G)) as Hsrc.
  pose proof (gd_cap _ G) as Hcap. unfold cap in Hcap. destruct (block_read b s) as [r s'] eqn:E.
  destruct (block_read_cap _ _ _ _ E) as [Ec _].
  destruct (block_read_spec s b r s' ltac:(apply G) Hok E) as (Hc & M & V & Hd).
  assert (Hr : is_Some r).
  { unfold block_read in E. destruct (cache_find b s); [unfold cache_hit in E; by simplify_eq |].
    rewrite block_lba_eq in E by done. unfold sectors_read, WFS_SECTORS_PER_BLOCK in E.
    destruct (read_succeeds (source s) (partition_lba s + 2 * b) 2 (dev s)) as (buf & d & Er); [lia.. |].
    destruct (source s); [done | | |]; rewrite Er in E; unfold cache_hit in E; by simplify_eq. }
  destruct Hr as [d ->]. rewrite (Hd d eq_refl). exists s'. split; [done |].
  split; [by eapply good_meta | done | done].
Qed.

Lemma good_write s b buf :
  good s -> 0 <= b < total_blocks (sb s) -> Zlen buf = 1024 ->
  exists s', block_write b buf s = (true, s') /\ good s' /\ same_meta s s' /\ vol s' b = buf /\
    (forall c, c <> b -> vol s' c = vol s c).
Proof.
  intros G Hb Hl. pose proof (geo_blk_ok _ _ (ao_geometry _ G) Hb) as Hok.
  pose proof (coh_lba s ltac:(apply G)) as Hlba. pose proof (coh_source s ltac:(apply G)) as Hsrc.
  pose proof (gd_cap _ G) as Hcap. unfold cap in Hcap. destruct (block_write b buf s) as [ok s'] eqn:E.
  destruct (block_write_cap _ _ _ _ _ E) as [Ec _].
  destruct (block_write_spec s b buf ok s' ltac:(apply G) Hok Hl E) as (Hc & M & V & Hd).
  assert (ok = true) as ->.
  { unfold block_write in E. set (s1 := with_cache _ _ s) in E.
    rewrite (block_lba_eq s1) in E by done. unfold sectors_write, WFS_SECTORS_PER_BLOCK in E.
    destruct (write_succeeds (source s) (partition_lba s + 2 * b) 2 buf (dev s)) as (d & Er); [lia.. |].
    cbn [source dev with_cache partition_lba s1] in E.
    destruct (source s); [done | | |]; rewrite Er in E; by simplify_eq. }
  exists s'. split_and!; try done; [by eapply good_meta | by apply Hd].
Qed.

Lemma sync_cap s b : cap (let '(_, s) := sync_bitmap_for b s in let '(_, s) := sync_superblock s in s) = cap s.
Proof.
  destruct (sync_bitmap_for b s) as [ok1 s1] eqn:E1. destruct (sync_superblock s1) as [ok2 s2] eqn:E2.
  apply block_write_cap in E1 as [E1 _]. apply block_write_cap in E2 as [E2 _]. congruence.
Qed.

Lemma block_alloc_from_cap fuel s r s' : forall b, block_alloc_from fuel b s = (r, s') -> cap s' = cap s.
Proof.
  induction fuel as [| fuel IH]; intros b; cbn [block_alloc_from]; [intros ?; by simplify_eq |].
  destruct (b <? _); [| intros ?; by simplify_eq]. destruct (bitmap_test b s); [apply IH |].
  destruct (block_write b _ _) as [ok s1] eqn:E. apply block_write_cap in E as [E _].
  destruct ok; cbn [negb]; [| intros ?; by simplify_eq].
  pose proof (sync_cap s1 b) as Hs. destruct (sync_bitmap_for b s1) as [ok1 s2], (sync_superblock s2) as [ok2 s3].
  intros E'. simplify_eq. rewrite Hs, E. done.
Qed.

Lemma block_alloc_cap s r s' : block_alloc s = (r, s') -> cap s' = cap s.
Proof. apply block_alloc_from_cap. Qed.

Lemma good_alloc_from s : good s -> forall fuel b,
  data_start (sb s) <= b ->
  block_alloc_from fuel b s = (0, s) \/
  (exists c s', block_alloc_from fuel b s = (c, s') /\ alloc_ok s' /\ alloc_frame s s' c /\
     allocated s s' c /\ vol s' c = replicate 1024 0).
Proof.
  intros G. induction fuel as [| fuel IH]; intros b Hb; cbn [block_alloc_from]; [by left |].
  destruct (Z.ltb_spec b (total_blocks (sb s))) as [Hlt |]; [| by left].
  destruct (bitmap_test b s) eqn:Eu; [apply IH; lia |]. right. exists b.
  assert (Hin : b ∈ data_blocks s) by (apply elem_data_blocks; lia). fold (claim b s).
  pose proof (alloc_claimed s b ltac:(apply G) Hin Eu) as Hcl.
  assert (Gc : good (claim b s)).
  { destruct (claim_ok b s ltac:(apply G) Hin Eu) as (Hok & _). split; [done | apply G]. }
  pose proof (ao_geometry _ G) as [? ? ? ? ?].
  destruct (good_write (claim b s) b (replicate 1024 0) Gc) as (s1 & Ew & _);
    [cbn [claim sb add_free_blocks with_sb total_blocks bitmap_set with_bitmap]; lia | done |].
  rewrite Ew in Hcl |- *. cbn [negb]. cbn zeta iota beta in Hcl.
  destruct (sync_bitmap_for b s1) as [ok1 s2], (sync_superblock s2) as [ok2 s3].
  destruct Hcl as (? & ? & ? & Hz). exists s3. split_and!; try done. by apply Hz.
Qed.

Lemma good_alloc s :
  good s ->
  (block_alloc s = (0, s) /\ forall c, c ∈ data_blocks s -> used s c = true) \/
  (exists b s', block_alloc s = (b, s') /\ good s' /\ alloc_frame s s' b /\ allocated s s' b /\
     vol s' b = replicate 1024 0 /\ b <> 0).
Proof.
  intros G. destruct (good_alloc_from s G (Z.to_nat (total_blocks (sb s) - data_start (sb s)))
    (data_start (sb s)) ltac:(lia)) as [E | (c & s' & E & Hok & F & A & Hz)]; fold (block_alloc s) in E.
  - left. split; [done |].
    destruct (block_alloc_spec s 0 s ltac:(apply G) E) as [(_ & _ & ?) | (c & _ & _ & (Hin & Hu & Hu' & _) & _)]; [done |].
    apply elem_data_blocks in Hin. destruct (ao_geometry _ G).
    rewrite Hu', Z.eqb_refl in Hu by lia. done.
  - right. exists c, s'. pose proof (block_alloc_cap _ _ _ E) as Ec.
    pose proof A as (Hin & _). apply elem_data_blocks in Hin.
    split_and!; try done; [| destruct (ao_geometry _ G); lia]. split; [done |].
    rewrite Ec, (sl_lba _ _ (af_layout _ _ _ F)), (sl_total_blocks _ _ (af_layout _ _ _ F)). apply G.
Qed.

(** ** Contents *)

(** Entry [k] of the pointer block [t]; no block has no entries. *)
Definition tptr s (t k : Z) : Z := if t =? 0 then 0 else table_get (vol s t) k.

Definition addr s (x : inode) (n : node) : Z :=
  match n with
  | NDirect i => (direct x).[i]
  | NInd => indirect x
  | NIndData i => tptr s (indirect x) i
  | NDbl => double_indirect x
  | NMid i => tptr s (double_indirect x) i
  | NData i j => tptr s (tptr s (double_indirect x) i) j
  end.

(** Every block of the tree is a data block in use, and no block is at two
    places of it. *)
Record tree_ok s (x : inode) : Prop := {
  tr_direct : Zlen (direct x) = 10;
  tr_used : forall n, valid n -> addr s x n <> 0 ->
    addr s x n ∈ data_blocks s /\ used s (addr s x n) = true;
  tr_inj : forall n m, valid n -> valid m -> addr s x n <> 0 -> addr s x n = addr s x m -> n = m;
}.

(** Byte [k] of the file; a hole reads as zero. *)
Definition content s (x : inode) (k : Z) : Z :=
  let a := addr s x (node_of (k / 1024)) in
  if a =? 0 then 0 else (vol s a).[k `mod` 1024].

Lemma data_block_facts s c :
  good s -> c ∈ data_blocks s -> 0 < c < total_blocks (sb s) /\ ~ meta_block s c.
Proof.
  intros G Hc. apply elem_data_blocks in Hc. destruct (ao_geometry _ G). unfold meta_block. lia.
Qed.

(** Two states that agree on the pointer blocks have the same tree. *)
Lemma addr_frame s s' x :
  (forall n, valid n -> is_data n = false -> addr s x n <> 0 -> vol s' (addr s x n) = vol s (addr s x n)) ->
  forall n, valid n -> addr s' x n = addr s x n.
Proof.
  intros Hf.
  assert (Ht : forall n, valid n -> is_data n = false -> forall k, tptr s' (addr s x n) k = tptr s (addr s x n) k).
  { intros n Hn Hd k. unfold tptr. destruct (Z.eqb_spec (addr s x n) 0); [done |]. by rewrite Hf. }
  assert (Hmid : forall i, 0 <= i < 256 -> tptr s' (double_indirect x) i = tptr s (double_indirect x) i)
    by (intros; by apply (Ht NDbl)).
  intros [i | | i | | i | i j] Hn; cbn [addr]; try done.
  - by apply (Ht NInd).
  - by apply Hmid.
  - destruct Hn. rewrite Hmid by done. by apply (Ht (NMid i)).
Qed.

(** *** A fresh block at one place of the tree *)

Definition zeros : list Z := replicate 1024 0.

(** The inode fields [bmap] may not touch. *)
Definition same_attrs (x x' : inode) : Prop :=
  itype x' = itype x /\ links x' = links x /\ isize x' = isize x /\ mtime x' = mtime x.

(** [t] is the pointer block that was changed, if any. *)
Record grown s (x : inode) s' (x' : inode) (n : node) (b t : Z) : Prop := {
  gr_good : good s';
  gr_layout : same_layout s s';
  gr_attrs : same_attrs x x';
  gr_direct : Zlen (direct x') = 10;
  gr_fresh : b ∈ data_blocks s /\ used s b = false;
  gr_used : forall c, 0 <= c -> used s' c = ((c =? b) || used s c)%bool;
  gr_zero : vol s' b = zeros;
  gr_table : t = 0 \/ exists p, valid p /\ is_data p = false /\ addr s x p = t /\ p <> n;
  gr_frame : forall c, c <> b -> c <> t -> ~ meta_block s c -> vol s' c = vol s c;
  gr_was : addr s x n = 0;
  gr_addr : forall m, valid m -> addr s' x' m = if decide (m = n) then b else addr s x m;
}.

Lemma grown_tree s x s' x' n b t :
  good s -> tree_ok s x -> valid n -> grown s x s' x' n b t -> tree_ok s' x'.
Proof.
  intros G T Hn R. destruct (gr_fresh _ _ _ _ _ _ _ R) as [Hb Hub].
  pose proof (data_block_facts s b G Hb) as [Hbr _].
  assert (Hne : forall m, valid m -> addr s x m <> 0 -> addr s x m <> b).
  { intros m Hm H0 E. destruct (tr_used _ _ T m Hm H0) as [_ Hu]. congruence. }
  split.
  - apply R.
  - intros m Hm. rewrite (gr_addr _ _ _ _ _ _ _ R) by done.
    rewrite (data_blocks_layout _ _ (gr_layout _ _ _ _ _ _ _ R)).
    destruct (decide (m = n)) as [-> | Hmn]; intros Ha.
    + split; [done |]. rewrite (gr_used _ _ _ _ _ _ _ R) by lia. by rewrite Z.eqb_refl.
    + destruct (tr_used _ _ T m Hm Ha) as [Hin Hu]. split; [done |].
      pose proof (data_block_facts s _ G Hin) as [? _].
      rewrite (gr_used _ _ _ _ _ _ _ R), Hu by lia. apply orb_true_r.
  - intros m p Hm Hp. rewrite !(gr_addr _ _ _ _ _ _ _ R) by done.
    destruct (decide (m = n)) as [-> |], (decide (p = n)) as [-> |]; intros Ha E; try done.
    + exfalso. apply (Hne p Hp); congruence.
    + exfalso. apply (Hne m Hm); congruence.
    + by apply (tr_inj _ _ T).
Qed.

(** The bytes of the file do not change: what was a hole is a block of zeros. *)
Lemma grown_content s x s' x' n b t k :
  good s -> tree_ok s x -> valid n -> grown s x s' x' n b t -> 0 <= k < MAX_BLOCKS * 1024 ->
  content s' x' k = content s x k.
Proof.
  intros G T Hn R Hk. destruct (node_of_valid (k / 1024)) as [Hv Hd]; [zlia |].
  unfold content. rewrite (gr_addr _ _ _ _ _ _ _ R) by done. set (m := node_of (k / 1024)) in *.
  destruct (gr_fresh _ _ _ _ _ _ _ R) as [Hb Hub].
  destruct (decide (m = n)) as [-> | Hmn].
  - rewrite (gr_was _ _ _ _ _ _ _ R), (gr_zero _ _ _ _ _ _ _ R).
    pose proof (data_block_facts s b G Hb) as [? _]. destruct (Z.eqb_spec b 0); [lia |].
    unfold zeros. rewrite lookup_total_replicate_2 by zlia. done.
  - destruct (Z.eqb_spec (addr s x m) 0) as [| Ha]; [done |].
    destruct (tr_used _ _ T m Hv Ha) as [Hin Hu].
    rewrite (gr_frame _ _ _ _ _ _ _ R); [done | congruence | | by apply data_block_facts].
    intros E. destruct (gr_table _ _ _ _ _ _ _ R) as [-> | (p & Hp & Hpd & Ep & _)]; [done |].
    assert (m = p) by (apply (tr_inj _ _ T); try done; congruence). congruence.
Qed.

(** *** What mapping a block may do *)

(** A block some other file, or the inode table, may be in. *)
Definition foreign s (x : inode) (c : Z) : Prop :=
  0 <= c /\ ~ meta_block s c /\ (c < data_start (sb s) \/ used s c = true) /\
  forall n, valid n -> addr s x n <> c.

(** From [s] with inode [x] to [s'] with [x'], where the file's bytes are [f]:
    new blocks come from the free ones, blocks of the tree stay where they are
    and foreign blocks are not written. *)
Record extc (f : Z -> Z) s (x : inode) s' (x' : inode) : Prop := {
  ex_good : good s';
  ex_layout : same_layout s s';
  ex_attrs : same_attrs x x';
  ex_wf : inode_wf x -> inode_wf x';
  ex_tree : tree_ok s' x';
  ex_used : forall c, 0 <= c -> used s c = true -> used s' c = true;
  ex_content : forall k, 0 <= k < MAX_BLOCKS * 1024 -> content s' x' k = f k;
  ex_keep : forall n, valid n -> addr s x n <> 0 -> addr s' x' n = addr s x n;
  ex_new : forall n, valid n -> addr s x n = 0 -> addr s' x' n <> 0 -> used s (addr s' x' n) = false;
  ex_foreign : forall c, foreign s x c -> vol s' c = vol s c;
}.

(** The same bytes as before. *)
Abbreviation ext s x s' x' := (extc (content s x) s x s' x').

Lemma quiet_addr s s' x : quiet s s' -> forall n, valid n -> addr s' x n = addr s x n.
Proof. intros Q. apply addr_frame. intros. apply (qt_vol _ _ Q). Qed.

Lemma quiet_used s s' : quiet s s' -> forall c, used s' c = used s c.
Proof. intros Q. apply used_meta, Q. Qed.

Lemma quiet_layout s s' : quiet s s' -> same_layout s s'.
Proof. intros Q. apply same_meta_layout, Q. Qed.

Lemma quiet_tree s s' x : quiet s s' -> tree_ok s x -> tree_ok s' x.
Proof.
  intros Q [Hd Hu Hi]. split; [done | |].
  - intros n Hn. rewrite (quiet_addr _ _ _ Q), (quiet_used _ _ Q), (data_blocks_layout _ _ (quiet_layout _ _ Q)) by done.
    by apply Hu.
  - intros n m Hn Hm. rewrite !(quiet_addr _ _ _ Q) by done. by apply Hi.
Qed.

Lemma ext_quiet s s' x : quiet s s' -> tree_ok s x -> ext s x s' x.
Proof.
  intros Q T. split; try done.
  - apply Q.
  - by apply quiet_layout.
  - by apply (quiet_tree s).
  - intros c _ Hu. by rewrite (quiet_used _ _ Q).
  - intros k Hk. unfold content. rewrite (quiet_addr _ _ _ Q); [by rewrite (qt_vol _ _ Q) |].
    apply node_of_valid. zlia.
  - intros n Hn _. by apply quiet_addr.
  - intros n Hn E. by rewrite (quiet_addr _ _ _ Q).
  - intros c _. apply Q.
Qed.

Lemma ext_grown s x s' x' n b t :
  good s -> tree_ok s x -> valid n -> (inode_wf x -> inode_wf x') -> grown s x s' x' n b t -> ext s x s' x'.
Proof.
  intros G T Hn Hwf R. destruct (gr_fresh _ _ _ _ _ _ _ R) as [Hb Hub].
  pose proof (data_block_facts s b G Hb) as [Hbr _]. split; try apply R; try done.
  - by eapply grown_tree.
  - intros c Hc Hu. rewrite (gr_used _ _ _ _ _ _ _ R), Hu by done. apply orb_true_r.
  - intros k Hk. by eapply grown_content.
  - intros m Hm Ha. rewrite (gr_addr _ _ _ _ _ _ _ R) by done.
    destruct (decide (m = n)) as [-> |]; [| done]. by destruct Ha; apply (gr_was _ _ _ _ _ _ _ R).
  - intros m Hm. rewrite (gr_addr _ _ _ _ _ _ _ R) by done. by destruct (decide (m = n)).
  - intros c (Hc0 & Hm & Hu & Ha). apply (gr_frame _ _ _ _ _ _ _ R); try done.
    + intros ->. apply elem_data_blocks in Hb. destruct Hu; [lia | congruence].
    + intros ->. destruct (gr_table _ _ _ _ _ _ _ R) as [-> | (p & Hp & _ & Ep & _)].
      * apply Hm. by left.
      * by apply (Ha p).
Qed.

Lemma foreign_ext f s x s' x' c : extc f s x s' x' -> foreign s x c -> foreign s' x' c.
Proof.
  intros X (Hc & Hm & Hu & Ha). pose proof (ex_layout _ _ _ _ _ X) as L. split_and!; try done.
  - unfold meta_block in *. by rewrite (sl_bitmap_start _ _ L), (sl_bitmap_blocks _ _ L).
  - rewrite (sl_data_start _ _ L). destruct Hu; [by left | right; by apply (ex_used _ _ _ _ _ X)].
  - intros n Hn E. destruct (decide (addr s x n = 0)) as [E0 | E0].
    + destruct (decide (c = 0)) as [-> | Hc0]; [by apply (Ha n Hn) |].
      pose proof (tr_used _ _ (ex_tree _ _ _ _ _ X) n Hn ltac:(congruence)) as [Hin _].
      rewrite (data_blocks_layout _ _ L), elem_data_blocks in Hin.
      pose proof (ex_new _ _ _ _ _ X n Hn E0 ltac:(congruence)) as Hf. rewrite E in Hf, Hin.
      destruct Hu; [lia | congruence].
    + rewrite (ex_keep _ _ _ _ _ X n Hn E0) in E. by apply (Ha n Hn).
Qed.

Lemma extc_trans f g s1 x1 s2 x2 s3 x3 :
  good s1 -> extc f s1 x1 s2 x2 -> extc g s2 x2 s3 x3 -> extc g s1 x1 s3 x3.
Proof.
  intros G1 X Y. split; try apply Y.
  - eapply same_layout_trans; [apply X | apply Y].
  - destruct (ex_attrs _ _ _ _ _ X) as (? & ? & ? & ?), (ex_attrs _ _ _ _ _ Y) as (? & ? & ? & ?).
    unfold same_attrs. split_and!; congruence.
  - intros. by apply Y, X.
  - intros c Hc Hu. by apply (ex_used _ _ _ _ _ Y), (ex_used _ _ _ _ _ X).
  - intros n Hn Ha. rewrite (ex_keep _ _ _ _ _ Y), (ex_keep _ _ _ _ _ X) by (rewrite ?(ex_keep _ _ _ _ _ X); done). done.
  - intros n Hn Ha Hb. destruct (decide (addr s2 x2 n = 0)) as [E | E].
    + pose proof (ex_new _ _ _ _ _ Y n Hn E Hb) as Hf.
      destruct (used s1 (addr s3 x3 n)) eqn:Eu; [| done].
      pose proof (tr_used _ _ (ex_tree _ _ _ _ _ Y) n Hn Hb) as [Hin _].
      rewrite (data_blocks_layout _ _ (ex_layout _ _ _ _ _ Y)) in Hin.
      pose proof (data_block_facts s2 _ (ex_good _ _ _ _ _ X) Hin) as [? _].
      rewrite (ex_used _ _ _ _ _ X (addr s3 x3 n) ltac:(lia) Eu) in Hf. done.
    + rewrite (ex_keep _ _ _ _ _ Y n Hn E) in *. by apply (ex_new _ _ _ _ _ X).
  - intros c Hc. rewrite (ex_foreign _ _ _ _ _ Y), (ex_foreign _ _ _ _ _ X); [done | done |].
    by eapply foreign_ext.
Qed.

Lemma extc_bytes f g s x s' x' :
  (forall k, 0 <= k < MAX_BLOCKS * 1024 -> f k = g k) -> extc f s x s' x' -> extc g s x s' x'.
Proof. intros Hfg X. split; try apply X. intros k Hk. rewrite <- Hfg by done. by apply X. Qed.

Lemma ext_trans s1 x1 s2 x2 s3 x3 : good s1 -> ext s1 x1 s2 x2 -> ext s2 x2 s3 x3 -> ext s1 x1 s3 x3.
Proof.
  intros G X Y. apply (extc_bytes (content s2 x2)); [| by eapply extc_trans].
  intros k Hk. by apply X.
Qed.

(** *** Filling one slot *)

Definition full s : Prop := forall c, c ∈ data_blocks s -> used s c = true.

(** The pointers kept in the inode itself. *)
Definition own_slot (p : node) : option ((inode -> Z) * (Z -> inode -> inode)) :=
  match p with
  | NDirect i => Some (fun x => (direct x).[i], set_direct i)
  | NInd => Some (indirect, set_indirect)
  | NDbl => Some (double_indirect, set_double)
  | _ => None
  end.

(** A block that was free is none of the tree's blocks. *)
Lemma fresh_not_tree s x b n :
  tree_ok s x -> used s b = false -> valid n -> addr s x n <> 0 -> addr s x n <> b.
Proof. intros T Hb Hn Ha E. destruct (tr_used _ _ T n Hn Ha) as [_ Hu]. congruence. Qed.

Lemma wf_bounds s b : good s -> b ∈ data_blocks s -> 0 <= b < 2 ^ 32.
Proof.
  intros G Hb. pose proof (data_block_facts s b G Hb) as [? _].
  pose proof (coh_lba s ltac:(apply G)). destruct (ao_geometry _ G). lia.
Qed.

Lemma set_own_wf p get set b x :
  own_slot p = Some (get, set) -> 0 <= b < 2 ^ 32 -> inode_wf x -> inode_wf (count_block (set b x)).
Proof.
  intros Hp Hb (? & ? & ? & ? & ? & ? & Hd & ? & ?). pose proof (u32_range (iblocks x + 1)).
  destruct p; simplify_eq/=; unfold inode_wf, count_block, set_direct, set_indirect, set_double; simpl;
    split_and!; try done; try lia.
  - by rewrite Zlen_upd.
  - unfold upd. apply Forall_insert; [done | done].
Qed.

Lemma own_grown s x s' p get set b :
  good s -> tree_ok s x -> valid p -> own_slot p = Some (get, set) -> get x = 0 ->
  good s' -> alloc_frame s s' b -> allocated s s' b -> vol s' b = zeros ->
  grown s x s' (count_block (set b x)) p b 0.
Proof.
  intros G T Hp Eo E0 G' F A Hz. destruct A as (Hin & Hu & Hused & _).
  pose proof (data_block_facts s b G Hin) as [Hb _].
  assert (Hsame : forall m, valid m -> addr s' x m = addr s x m).
  { apply addr_frame. intros n Hn _ Ha. apply F; [by eapply fresh_not_tree |].
    apply data_block_facts, (tr_used _ _ T); done. }
  assert (Hbz : forall k, 0 <= k < 256 -> tptr s' b k = 0).
  { intros k Hk. unfold tptr. rewrite Hz. destruct (b =? 0); [done |]. by apply table_get_zero. }
  split; try done; try (by left); try apply F; pose proof (tr_direct _ _ T) as Hd.
  - destruct p; simplify_eq/=; done.
  - destruct p; simplify_eq/=; try done. by rewrite Zlen_upd.
  - intros c Hc _ Hm. by apply F.
  - destruct p; simplify_eq/=; done.
  - intros m Hm. rewrite <- (Hsame m Hm).
    assert (H0 : forall k, tptr s' 0 k = 0) by done.
    destruct p as [i | | | | |]; simplify_eq/=; destruct m as [j | | j | | j | j k]; cbn [addr direct indirect
      double_indirect count_block set_direct set_indirect set_double];
      try (rewrite decide_False by done; done); try (rewrite decide_True by done; done);
      try (rewrite decide_False, E0, Hbz, H0 by (done || apply Hm); done).
    destruct (decide (NDirect j = NDirect i)) as [[= ->] | Hne].
    + by rewrite get_upd_eq by lia.
    + rewrite get_upd_ne; [done | lia | simpl in Hm; lia | congruence].
Qed.

Lemma fill_slot_spec s x p get set dirty m s' :
  good s -> tree_ok s x -> valid p -> own_slot p = Some (get, set) ->
  fill_slot get set x true dirty s = (m, s') ->
  (mr m = 0 /\ ext s x s' (mino m) /\ addr s' (mino m) p = mout m /\ mout m <> 0) \/
  (mr m = - W_ENOSPC /\ ext s x s' (mino m) /\ full s').
Proof.
  intros G T Hp Eo. unfold fill_slot. cbn [negb]. rewrite orb_false_r.
  assert (Hget : get x = addr s x p) by (destruct p; by simplify_eq/=).
  assert (Hrefl : ext s x s x) by (apply ext_quiet; [by apply quiet_refl | done]).
  destruct (Z.eqb_spec (get x) 0) as [E0 | E0]; cbn [negb].
  2: { intros [= <- <-]. left. split_and!; try done. }
  destruct (good_alloc s G) as [[-> Hfull] | (b & s1 & -> & G1 & F & A & Hz & Hb)].
  - cbn [Z.eqb]. intros [= <- <-]. by right.
  - destruct (Z.eqb_spec b 0); [done |]. intros [= <- <-]. left. cbn [mr mino mout].
    pose proof (own_grown s x s1 p get set b G T Hp Eo E0 G1 F A Hz) as R.
    split_and!; try done.
    + eapply ext_grown; try done. eapply set_own_wf; [done |]. eapply wf_bounds; [exact G | apply A].
    + rewrite (gr_addr _ _ _ _ _ _ _ R) by done. by rewrite decide_True.
Qed.

(** The place of entry [k] of the pointer block at [q]. *)
Definition child (q : node) (k : Z) : node :=
  match q with NInd => NIndData k | NDbl => NMid k | NMid i => NData i k | n => n end.

Lemma child_spec s x q k :
  is_data q = false -> valid q -> 0 <= k < 256 ->
  addr s x (child q k) = tptr s (addr s x q) k /\ valid (child q k) /\ child q k <> q.
Proof. destruct q; simpl; intros; done. Qed.

Lemma table_grown s x q k b s3 :
  good s -> tree_ok s x -> is_data q = false -> valid q -> 0 <= k < 256 -> addr s x q <> 0 ->
  addr s x (child q k) = 0 -> b ∈ data_blocks s -> used s b = false ->
  good s3 -> same_layout s s3 -> (forall c, 0 <= c -> used s3 c = ((c =? b) || used s c)%bool) ->
  vol s3 b = zeros -> vol s3 (addr s x q) = table_set (vol s (addr s x q)) k b ->
  (forall c, c <> b -> c <> addr s x q -> ~ meta_block s c -> vol s3 c = vol s c) ->
  grown s x s3 (count_block x) (child q k) b (addr s x q).
Proof.
  intros G T Hqd Hq Hk Ha Hc Hin Hu G3 L Hused Hz Ht Hf.
  destruct (child_spec s x q k Hqd Hq Hk) as (Ec & Hcv & Hcq).
  pose proof (data_block_facts s b G Hin) as [Hb _]. pose proof (wf_bounds s b G Hin) as Hb32.
  assert (Hbz : forall j, 0 <= j < 256 -> tptr s3 b j = 0).
  { intros j Hj. unfold tptr. rewrite Hz. destruct (b =? 0); [done |]. by apply table_get_zero. }
  assert (Hp : forall r j, valid r -> is_data r = false -> 0 <= j < 256 ->
    tptr s3 (addr s x r) j = if decide (child r j = child q k) then b else tptr s (addr s x r) j).
  { intros r j Hr Hrd Hj. unfold tptr. destruct (Z.eqb_spec (addr s x r) 0) as [E | E].
    - rewrite decide_False; [done |]. intros Ech. assert (r = q) by (destruct r, q; simplify_eq/=; done). congruence.
    - destruct (decide (r = q)) as [-> | Hrq].
      + rewrite Ht, table_get_set by (try apply Zlen_vol; lia).
        destruct (decide (j = k)) as [-> | Hjk]; [by rewrite decide_True |].
        rewrite decide_False; [done |]. by destruct q; intros ?; simplify_eq/=.
      + rewrite decide_False by (destruct r, q; intros ?; simplify_eq/=; done).
        rewrite Hf; [done | by eapply fresh_not_tree | | apply data_block_facts, (tr_used _ _ T); done].
        intros E'. apply Hrq, (tr_inj _ _ T); done. }
  split; try done; [apply T | right; exists q; done |].
  intros m Hm. change (addr s3 (count_block x) m) with (addr s3 x m).
  destruct m as [i | | i | | i | i j]; cbn [addr].
  - rewrite decide_False; [done |]. by destruct q.
  - rewrite decide_False; [done |]. by destruct q.
  - by apply (Hp NInd).
  - rewrite decide_False; [done |]. by destruct q.
  - by apply (Hp NDbl).
  - destruct Hm as [Hi Hj]. pose proof (Hp NDbl i I eq_refl Hi) as Hmid. cbn [addr child] in Hmid.
    rewrite Hmid. destruct (decide (NMid i = child q k)) as [E | E].
    + rewrite Hbz by done. rewrite decide_False by (destruct q; simplify_eq/=; done).
      replace (tptr s (double_indirect x) i) with 0; [done |].
      rewrite <- E in Hc. done.
    + by apply (Hp (NMid i)).
Qed.

Lemma table_slot_spec s x q k dirty m s' :
  good s -> tree_ok s x -> is_data q = false -> valid q -> 0 <= k < 256 -> addr s x q <> 0 ->
  table_slot (addr s x q) k true x dirty s = (m, s') ->
  (mr m = 0 /\ ext s x s' (mino m) /\ addr s' (mino m) (child q k) = mout m /\ mout m <> 0) \/
  (mr m = - W_ENOSPC /\ ext s x s' (mino m) /\ full s').
Proof.
  intros G T Hqd Hq Hk Ha. destruct (child_spec s x q k Hqd Hq Hk) as (Ec & Hcv & Hcq).
  destruct (tr_used _ _ T q Hq Ha) as [Htin Htu]. pose proof (data_block_facts s _ G Htin) as [Htr _].
  unfold table_slot. destruct (good_read s (addr s x q) G ltac:(lia)) as (s1 & -> & Q).
  assert (Et : table_get (vol s (addr s x q)) k = addr s x (child q k)).
  { rewrite Ec. unfold tptr. by destruct (Z.eqb_spec (addr s x q) 0). }
  rewrite Et. pose proof (ext_quiet _ _ _ Q T) as X1.
  destruct (Z.eqb_spec (addr s x (child q k)) 0) as [E0 | E0]; cbn [negb].
  2: { intros [= <- <-]. left. cbn [mr mino mout]. split_and!; try done. by apply quiet_addr. }
  destruct (good_alloc s1 (qt_good _ _ Q)) as [[-> Hfull] | (b & s2 & -> & G2 & F & A & Hz & Hb)].
  { cbn [Z.eqb]. intros [= <- <-]. right. done. }
  destruct (Z.eqb_spec b 0); [done |]. destruct A as (Hin & Hu & Hused & _).
  rewrite (data_blocks_layout _ _ (quiet_layout _ _ Q)) in Hin. rewrite (quiet_used _ _ Q) in Hu.
  pose proof (af_layout _ _ _ F) as L2. pose proof (quiet_layout _ _ Q) as L1.
  assert (Hbt : b <> addr s x q) by congruence.
  destruct (good_write s2 (addr s x q) (table_set (vol s (addr s x q)) k b) G2) as (s3 & -> & G3 & M3 & V3 & F3).
  { rewrite (sl_total_blocks _ _ L2), (sl_total_blocks _ _ L1). lia. }
  { unfold table_set. rewrite Zlen_splice; [apply Zlen_vol | lia |]. rewrite Zlen_vol. unfold Zlen. simpl. lia. }
  cbn [negb]. intros [= <- <-]. left. cbn [mr mino mout].
  assert (R : grown s x s3 (count_block x) (child q k) b (addr s x q)).
  { apply table_grown; try done.
    - eapply same_layout_trans; [exact L1 |]. eapply same_layout_trans; [exact L2 |]. by apply same_meta_layout.
    - intros c Hc. rewrite (used_meta _ _ (sm_bitmap _ _ M3)), Hused, (quiet_used _ _ Q) by done. done.
    - by rewrite F3.
    - intros c Hcb Hct Hcm. rewrite F3, (af_vol _ _ _ F), (qt_vol _ _ Q); try done.
      unfold meta_block in *. by rewrite (sl_bitmap_start _ _ L1), (sl_bitmap_blocks _ _ L1). }
  split_and!; try done.
  - eapply ext_grown; try done. intros (? & ? & ? & ? & ? & ? & ? & ? & ?).
    pose proof (u32_range (iblocks x + 1)). unfold inode_wf, count_block; simpl. split_and!; try done; lia.
  - rewrite (gr_addr _ _ _ _ _ _ _ R) by done. by rewrite decide_True.
Qed.

(** *** [bmap] *)

(** What [bmap] with [alloc] returns, for the place [n]. *)
Definition map_result s x s' (m : mapped) (n : node) : Prop :=
  (mr m = 0 /\ ext s x s' (mino m) /\ addr s' (mino m) n = mout m /\ mout m <> 0) \/
  (mr m = - W_ENOSPC /\ ext s x s' (mino m) /\ full s').

Lemma map_result_trans s x s1 x1 s' m n :
  good s -> ext s x s1 x1 -> map_result s1 x1 s' m n -> map_result s x s' m n.
Proof.
  intros G X [(? & Y & ?) | (? & Y & ?)]; [left | right]; split_and!; try done; try (by eapply ext_trans).
  all: tauto.
Qed.

(** The pointer block at [q] was found or made; its entry [k] is next. *)
Lemma table_slot_next s x s1 m1 q k m s' :
  good s -> ext s x s1 (mino m1) -> addr s1 (mino m1) q <> 0 -> is_data q = false -> valid q -> 0 <= k < 256 ->
  table_slot (addr s1 (mino m1) q) k true (mino m1) (mdirty m1) s1 = (m, s') ->
  map_result s x s' m (child q k).
Proof.
  intros G X Ha Hqd Hq Hk E. eapply map_result_trans; [done | exact X |].
  eapply table_slot_spec; [apply X | apply X | done.. | exact E].
Qed.

Lemma bmap_alloc_spec s x i dirty m s' :
  good s -> tree_ok s x -> 0 <= i < MAX_BLOCKS ->
  bmap x i true dirty s = (m, s') -> map_result s x s' m (node_of i).
Proof.
  intros G T Hi. unfold bmap, WFS_DIRECT, WFS_PTRS_PER_BLOCK, node_of, MAX_BLOCKS in *.
  destruct (Z.ltb_spec i 10).
  { intros E. eapply (fill_slot_spec s x (NDirect i) _ _ dirty m s' G T); [simpl; lia | done | exact E]. }
  replace (i - 10 <? 256) with (i <? 266) by (destruct (Z.ltb_spec i 266), (Z.ltb_spec (i - 10) 256); lia || done).
  destruct (Z.ltb_spec i 266).
  - destruct (fill_slot _ _ _ _ _ _) as [m1 s1] eqn:E1.
    destruct (fill_slot_spec s x NInd _ _ dirty m1 s1 G T I eq_refl E1) as [(Hr & X & Ea & Hne) | (Hr & X & Hf)].
    + rewrite Hr. cbn [Z.ltb Z.compare]. change (indirect (mino m1)) with (addr s1 (mino m1) NInd).
      rewrite Ea. destruct (Z.eqb_spec (mout m1) 0); [done |]. rewrite <- Ea.
      intros E. apply (table_slot_next s x s1 m1 NInd (i - 10)); try done; [congruence | lia].
    + rewrite Hr. intros [= <- <-]. by right.
  - unfold WFS_DOUBLE_BLOCKS. replace (256 * 256 <=? i - 10 - 256) with false by (symmetry; apply Z.leb_gt; lia).
    replace (i - 10 - 256) with (i - 266) by lia.
    destruct (fill_slot _ _ _ _ _ _) as [m1 s1] eqn:E1.
    destruct (fill_slot_spec s x NDbl _ _ dirty m1 s1 G T I eq_refl E1) as [(Hr & X & Ea & Hne) | (Hr & X & Hf)].
    2: { rewrite Hr. intros [= <- <-]. by right. }
    rewrite Hr. cbn [Z.ltb Z.compare]. change (double_indirect (mino m1)) with (addr s1 (mino m1) NDbl).
    rewrite Ea. destruct (Z.eqb_spec (mout m1) 0); [done |]. rewrite <- Ea.
    destruct (table_slot _ _ _ _ _ _) as [m2 s2] eqn:E2.
    assert (Hk : 0 <= (i - 266) / 256 < 256) by zlia.
    destruct (table_slot_next s x s1 m1 NDbl _ m2 s2 G X ltac:(congruence) eq_refl I Hk E2)
      as [(Hr2 & X2 & Ea2 & Hne2) | (Hr2 & X2 & Hf2)].
    2: { rewrite Hr2. intros [= <- <-]. by right. }
    rewrite Hr2. cbn [Z.ltb Z.compare]. destruct (Z.eqb_spec (mout m2) 0); [done |].
    rewrite <- Ea2. intros E. cbn [child] in *.
    apply (table_slot_next s x s2 m2 (NMid ((i - 266) / 256))); try done; [congruence | zlia].
Qed.

Lemma table_slot_read s x q k dirty :
  good s -> tree_ok s x -> is_data q = false -> valid q -> 0 <= k < 256 -> addr s x q <> 0 ->
  exists s', table_slot (addr s x q) k false x dirty s = (Mapped 0 (addr s x (child q k)) x dirty, s') /\ quiet s s'.
Proof.
  intros G T Hqd Hq Hk Ha. destruct (child_spec s x q k Hqd Hq Hk) as (Ec & _).
  destruct (tr_used _ _ T q Hq Ha) as [Htin _]. pose proof (data_block_facts s _ G Htin) as [? _].
  unfold table_slot. destruct (good_read s (addr s x q) G ltac:(lia)) as (s1 & -> & Q).
  assert (Et : table_get (vol s (addr s x q)) k = addr s x (child q k)).
  { rewrite Ec. unfold tptr. by destruct (Z.eqb_spec (addr s x q) 0). }
  rewrite Et. exists s1. split; [| done]. destruct (Z.eqb_spec (addr s x (child q k)) 0) as [-> |]; done.
Qed.

Lemma bmap_read_spec s x i dirty :
  good s -> tree_ok s x -> 0 <= i < MAX_BLOCKS ->
  exists s', bmap x i false dirty s = (Mapped 0 (addr s x (node_of i)) x dirty, s') /\ quiet s s'.
Proof.
  intros G T Hi. unfold bmap, WFS_DIRECT, WFS_PTRS_PER_BLOCK, node_of, MAX_BLOCKS, fill_slot in *.
  cbn [negb]. rewrite !orb_true_r. cbn [mr mino mout mdirty Z.ltb Z.compare].
  assert (Q0 : quiet s s) by (by apply quiet_refl).
  destruct (Z.ltb_spec i 10); [by exists s |].
  replace (i - 10 <? 256) with (i <? 266) by (destruct (Z.ltb_spec i 266), (Z.ltb_spec (i - 10) 256); lia || done).
  destruct (Z.ltb_spec i 266).
  - destruct (Z.eqb_spec (indirect x) 0) as [E | E].
    + exists s. cbn [addr]. by rewrite E.
    + apply (table_slot_read s x NInd); try done. lia.
  - unfold WFS_DOUBLE_BLOCKS. replace (256 * 256 <=? i - 10 - 256) with false by (symmetry; apply Z.leb_gt; lia).
    replace (i - 10 - 256) with (i - 266) by lia.
    destruct (Z.eqb_spec (double_indirect x) 0) as [E | E].
    { exists s. cbn [addr]. by rewrite E. }
    assert (Hk : 0 <= (i - 266) / 256 < 256) by zlia.
    destruct (table_slot_read s x NDbl ((i - 266) / 256) dirty G T eq_refl I Hk E) as (s1 & E1 & Q1).
    cbn [addr child] in E1. rewrite E1. cbn [mr mino mout mdirty Z.ltb Z.compare].
    change (tptr s (double_indirect x) ((i - 266) / 256)) with (addr s x (NMid ((i - 266) / 256))).
    destruct (Z.eqb_spec (addr s x (NMid ((i - 266) / 256))) 0) as [E2 | E2].
    { exists s1. cbn [addr] in *. by rewrite E2. }
    rewrite <- (quiet_addr _ _ x Q1 (NMid ((i - 266) / 256)) Hk) in E2 |- *.
    destruct (table_slot_read s1 x (NMid ((i - 266) / 256)) ((i - 266) `mod` 256) dirty) as (s2 & -> & Q2);
      try done; [apply Q1 | by apply (quiet_tree s) | zlia |].
    exists s2. cbn [child]. rewrite (quiet_addr _ _ _ Q1) by (simpl; zlia).
    split; [done | by eapply quiet_trans].
Qed.

(** A block that is there is found whether or not allocation is asked for. *)
Lemma table_slot_there table_block k (alloc : bool) x dirty s m s' :
  table_slot table_block k false x dirty s = (m, s') -> mr m = 0 -> mout m <> 0 ->
  table_slot table_block k alloc x dirty s = (m, s').
Proof.
  unfold table_slot. destruct (block_read table_block s) as [[t |] s1]; [| by intros [= <- <-]].
  destruct (Z.eqb_spec (table_get t k) 0); cbn [negb]; [by intros [= <- <-] |]. done.
Qed.

Lemma bmap_there s x i dirty :
  good s -> tree_ok s x -> 0 <= i < MAX_BLOCKS -> addr s x (node_of i) <> 0 ->
  exists s', bmap x i true dirty s = (Mapped 0 (addr s x (node_of i)) x dirty, s') /\ quiet s s'.
Proof.
  intros G T Hi Ha. destruct (bmap_read_spec s x i dirty G T Hi) as (s' & E & Q). exists s'. split; [| done].
  set (a := addr s x (node_of i)) in *. clearbody a. revert E. clear Q.
  unfold bmap, fill_slot. cbn [negb]. rewrite !orb_true_r, !orb_false_r. cbn [mr mino mout mdirty Z.ltb Z.compare].
  destruct (i <? WFS_DIRECT).
  { intros E. injection E as E <-. rewrite E. by destruct (Z.eqb_spec a 0). }
  destruct (i - WFS_DIRECT <? WFS_PTRS_PER_BLOCK).
  { destruct (Z.eqb_spec (indirect x) 0) as [E0 | E0]; [intros E; injection E; congruence |]. cbn [negb mr mino mout mdirty Z.ltb Z.compare].
    destruct (Z.eqb_spec (indirect x) 0); [done |]. intros E. by eapply table_slot_there. }
  destruct (WFS_DOUBLE_BLOCKS <=? _); [intros E; injection E; congruence |].
  destruct (Z.eqb_spec (double_indirect x) 0) as [E0 | E0]; [intros E; injection E; congruence |]. cbn [negb mr mino mout mdirty Z.ltb Z.compare].
  destruct (Z.eqb_spec (double_indirect x) 0); [done |].
  destruct (table_slot (double_indirect x) _ false x dirty s) as [m s1] eqn:E1.
  destruct (Z.ltb_spec (mr m) 0) as [Hm | Hm]; [intros [= -> ->]; done |].
  destruct (Z.eqb_spec (mout m) 0) as [Ho | Ho]; [intros E; injection E; congruence |]. intros E.
  assert (Hr : mr m = 0).
  { revert E1. unfold table_slot. destruct (block_read _ s) as [[t |] ?]; [destruct (table_get t _ =? 0) |]; intros [= <- <-]; done. }
  rewrite (table_slot_there _ _ true _ _ _ _ _ E1 Hr Ho), Hr. cbn [Z.ltb Z.compare]. destruct (Z.eqb_spec (mout m) 0); [done |].
  by eapply table_slot_there.
Qed.

(** ** Reading *)

Definition bytes s x (a n : Z) : list Z := content s x <$> seqZ a n.

Lemma Zlen_bytes s x a n : 0 <= n -> Zlen (bytes s x a n) = n.
Proof. intros. unfold bytes, Zlen. rewrite length_fmap, length_seqZ. lia. Qed.

Lemma get_bytes s x a n k : 0 <= k < n -> (bytes s x a n).[k] = content s x (a + k).
Proof.
  intros. unfold bytes. apply list_lookup_total_correct.
  rewrite list_lookup_fmap, lookup_seqZ_lt by lia. cbn [fmap option_fmap option_map]. do 2 f_equal. lia.
Qed.

Lemma bytes_app s x a n m : 0 <= n -> 0 <= m -> bytes s x a (n + m) = bytes s x a n ++ bytes s x (a + n) m.
Proof. intros. unfold bytes. by rewrite seqZ_app, fmap_app by lia. Qed.

Lemma bytes_quiet s s' x a n :
  quiet s s' -> 0 <= a -> 0 <= n -> a + n <= MAX_BLOCKS * 1024 -> bytes s' x a n = bytes s x a n.
Proof.
  intros Q Ha Hn Hm. unfold bytes. apply list_fmap_ext. intros i k Hk. apply lookup_seqZ in Hk.
  unfold content. rewrite (quiet_addr _ _ _ Q); [by rewrite (qt_vol _ _ Q) |]. apply node_of_valid. zlia.
Qed.

(** The bytes of one block of the file. *)
Lemma block_bytes s x i p n :
  0 <= i -> 0 <= p -> 0 <= n -> p + n <= 1024 ->
  bytes s x (1024 * i + p) n =
  if addr s x (node_of i) =? 0 then replicate (Z.to_nat n) 0 else slice p n (vol s (addr s x (node_of i))).
Proof.
  intros Hi Hp Hn Hpn.
  assert (Hc : forall k, 0 <= k < n -> content s x (1024 * i + p + k) =
    if addr s x (node_of i) =? 0 then 0 else (vol s (addr s x (node_of i))).[p + k]).
  { intros k Hk. unfold content. replace ((1024 * i + p + k) / 1024) with i by zlia.
    replace ((1024 * i + p + k) `mod` 1024) with (p + k) by zlia. done. }
  destruct (addr s x (node_of i) =? 0); apply list_eq_get;
    rewrite Zlen_bytes, ?Zlen_slice by (rewrite ?Zlen_vol; lia); unfold Zlen; rewrite ?length_replicate; try lia;
    intros k Hk; rewrite get_bytes, Hc by lia.
  - by rewrite lookup_total_replicate_2 by lia.
  - by rewrite get_slice by lia.
Qed.

Lemma read_run_spec s x index block left fuel : good s -> tree_ok s x ->
  0 <= index -> 1024 * index + left <= MAX_BLOCKS * 1024 -> 0 <= block < 2 ^ 31 ->
  forall run s1, quiet s s1 -> 1 <= run <= 64 -> run * 1024 <= left ->
  (forall j, 0 <= j < run -> addr s x (node_of (index + j)) = block + j) ->
  exists run' s', read_run fuel x index block left run s1 = (run', s') /\ quiet s s' /\ 1 <= run' <= 64 /\
    run' * 1024 <= left /\ (forall j, 0 <= j < run' -> addr s x (node_of (index + j)) = block + j).
Proof.
  intros G T Hi Hm Hb. induction fuel as [| fuel IH]; intros run s1 Q Hr Hl Ha; cbn [read_run].
  { by exists run, s1. }
  unfold READ_RUN_BLOCKS, WFS_BLOCK_SIZE.
  destruct (Z.ltb_spec run 64), (Z.leb_spec ((run + 1) * 1024) left); cbn [andb]; try (by exists run, s1).
  assert (0 <= index + run < MAX_BLOCKS) by lia.
  destruct (bmap_read_spec s1 x (index + run) false) as (s2 & E & Q2); [apply Q | by apply (quiet_tree s) | done |].
  rewrite (u32_id (index + run)) by (unfold MAX_BLOCKS in *; lia). rewrite E. cbn [mr mout Z.ltb Z.compare].
  rewrite (quiet_addr _ _ _ Q) by (by apply node_of_valid).
  assert (Q3 : quiet s s2) by (by eapply quiet_trans).
  rewrite u32_id by lia. destruct (Z.eqb_spec (addr s x (node_of (index + run))) (block + run)) as [Ea | Ea]; cbn [negb].
  - apply IH; [done | lia | lia |]. intros j Hj. destruct (decide (j = run)) as [-> |]; [done |].
    apply Ha. lia.
  - exists run, s2. split_and!; (done || lia).
Qed.

(** Sectors of consecutive blocks are the blocks. *)
Lemma run_sectors s block : forall n,
  mjoin (sector (source s) (dev s) <$> seqZ (partition_lba s + 2 * block) (Z.of_nat n * 2)) =
  mjoin ((fun j => vol s (block + j)) <$> seqZ 0 (Z.of_nat n)).
Proof.
  induction n as [| n IH]; [done |].
  replace (Z.of_nat (S n) * 2) with (Z.of_nat n * 2 + 2) by lia.
  rewrite seqZ_app, fmap_app, join_app, IH by lia. rewrite seqZ_S, fmap_app, join_app. f_equal.
  cbn [fmap list_fmap mjoin list_join]. rewrite app_nil_r. unfold vol.
  replace (partition_lba s + 2 * (block + (0 + Z.of_nat n))) with (partition_lba s + 2 * block + Z.of_nat n * 2) by lia.
  done.
Qed.

Lemma run_bytes s x index block : block <> 0 -> 0 <= index -> forall n,
  (forall j, 0 <= j < Z.of_nat n -> addr s x (node_of (index + j)) = block + j) -> 0 <= block ->
  mjoin ((fun j => vol s (block + j)) <$> seqZ 0 (Z.of_nat n)) = bytes s x (1024 * index) (Z.of_nat n * 1024).
Proof.
  intros Hb Hi n Ha Hb0. induction n as [| n IH]; [done |].
  rewrite seqZ_S, fmap_app, join_app, IH by (intros; apply Ha; lia).
  cbn [fmap list_fmap mjoin list_join]. rewrite app_nil_r.
  replace (Z.of_nat (S n) * 1024) with (Z.of_nat n * 1024 + 1024) by lia. rewrite bytes_app by lia. f_equal.
  replace (1024 * index + Z.of_nat n * 1024) with (1024 * (index + Z.of_nat n) + 0) by lia.
  rewrite block_bytes, Ha by lia. destruct (Z.eqb_spec (block + Z.of_nat n) 0); [lia |].
  pose proof (Zlen_vol s (block + Z.of_nat n)) as Hl. unfold slice. change (Z.to_nat 0) with 0%nat.
  rewrite drop_0, take_ge by (unfold Zlen in Hl; lia). do 2 f_equal.
Qed.

Lemma blocks_read_spec s block run :
  good s -> 0 <= block -> 0 < run <= 64 -> block + run <= total_blocks (sb s) ->
  exists s', blocks_read block run s = (Some (mjoin ((fun j => vol s (block + j)) <$> seqZ 0 run)), s') /\ quiet s s'.
Proof.
  intros G Hb Hr Ht. unfold blocks_read, WFS_SECTORS_PER_BLOCK. rewrite u8_id by lia.
  pose proof (coh_lba s ltac:(apply G)) as Hlba. pose proof (coh_source s ltac:(apply G)) as Hsrc.
  pose proof (gd_cap _ G) as Hcap. unfold cap in Hcap. pose proof (geo_lba _ (ao_geometry _ G)).
  rewrite block_lba_eq by (done || unfold blk_ok; lia).
  destruct (read_succeeds (source s) (partition_lba s + 2 * block) (run * 2) (dev s)) as (buf & d & Er); [lia.. |].
  destruct (sectors_read _ _ s) as [r s'] eqn:E.
  destruct (sectors_read_spec s _ _ _ _ Hsrc E) as (M & V & Ec & _ & Hd).
  assert (r = Some buf /\ s' = with_dev d s) as [-> ->].
  { unfold sectors_read in E. destruct (source s); [done | | |]; rewrite Er in E; by simplify_eq. }
  exists (with_dev d s). split.
  - rewrite (Hd buf eq_refl) by lia. replace run with (Z.of_nat (Z.to_nat run)) by lia. by rewrite run_sectors.
  - split; [| done | done]. eapply good_meta; [exact G | | done |].
    + destruct (ao_coherent _ (gd_alloc _ G)) as [? ? ? Hdat ?]. split; try done.
      intros i y Hy Hlv. rewrite V. by apply (Hdat i).
    + unfold cap. cbn [source dev with_dev]. by eapply read_capacity.
Qed.

Lemma chunk_spec pos left : 0 < left -> 0 <= pos ->
  0 < chunk_at pos left <= left /\ pos `mod` 1024 + chunk_at pos left <= 1024 /\
  (chunk_at pos left = left \/ pos `mod` 1024 + chunk_at pos left = 1024).
Proof. intros. unfold chunk_at, WFS_BLOCK_SIZE. case_ifs; zlia. Qed.

Lemma file_read_loop_spec x offset len : 0 <= offset -> 0 <= len -> offset + len <= MAX_BLOCKS * 1024 ->
  forall fuel done_ dst s, good s -> tree_ok s x -> 0 <= done_ <= len -> len - done_ <= Z.of_nat fuel ->
  exists s', read_loop fuel x offset len done_ dst s =
    (i32 len, dst ++ bytes s x (offset + done_) (len - done_), s') /\ quiet s s'.
Proof.
  intros Ho Hl Hm. induction fuel as [| fuel IH]; intros done_ dst s G T Hd Hf; cbn [read_loop].
  { exists s. replace (len - done_) with 0 by lia. replace done_ with len by lia.
    rewrite app_nil_r. split; [done | by apply quiet_refl]. }
  destruct (Z.ltb_spec done_ len) as [Hlt | Hge].
  2: { exists s. replace (len - done_) with 0 by lia. replace done_ with len by lia.
       rewrite app_nil_r. split; [done | by apply quiet_refl]. }
  assert (Hmb : MAX_BLOCKS * 1024 < 2 ^ 32) by (unfold MAX_BLOCKS; lia).
  rewrite u32_id by lia. unfold WFS_BLOCK_SIZE. set (pos := offset + done_) in *.
  destruct (chunk_spec pos (len - done_)) as (Hc1 & Hc2 & _); [lia.. |].
  set (chunk := chunk_at pos (len - done_)) in *.
  assert (Hidx : 0 <= pos / 1024 < MAX_BLOCKS) by zlia.
  destruct (bmap_read_spec s x (pos / 1024) false G T Hidx) as (s1 & -> & Q1). cbn [mr mout Z.ltb Z.compare].
  set (a := addr s x (node_of (pos / 1024))) in *.
  pose proof (node_of_valid _ Hidx) as [Hnv _].
  assert (Ha : a <> 0 -> 0 < a < total_blocks (sb s)).
  { intros Ha. apply data_block_facts; [done |]. by apply (tr_used _ _ T). }
  pose proof (geo_lba _ (ao_geometry _ G)) as Hgl. pose proof (coh_lba s ltac:(apply G)) as Hlba.
  (* the run *)
  set (cond := ((pos `mod` 1024 =? 0) && negb (a =? 0) && (1024 <=? len - done_))%bool).
  assert (Hrun : exists run s2, (if cond then read_run 64 x (pos / 1024) a (len - done_) 1 s1 else (1, s1)) = (run, s2) /\
    quiet s s2 /\ (run = 1 \/ (1 < run <= 64 /\ cond = true /\ run * 1024 <= len - done_ /\
      forall j, 0 <= j < run -> addr s x (node_of (pos / 1024 + j)) = a + j))).
  { destruct cond eqn:Ec; [| by exists 1, s1; split_and!; try done; left]. unfold cond in Ec. bool_to_prop.
    destruct (read_run_spec s x (pos / 1024) a (len - done_) 64 G T ltac:(lia) ltac:(zlia)
      ltac:(specialize (Ha ltac:(done)); lia) 1 s1 Q1 ltac:(lia) ltac:(lia)) as (run & s2 & E & Q2 & Hr1 & Hr2 & Hr3).
    { intros j Hj. replace j with 0 by lia. by rewrite !Z.add_0_r. }
    exists run, s2. split_and!; try done. destruct (decide (run = 1)); [by left | right; split_and!; (done || lia)]. }
  destruct Hrun as (run & s2 & -> & Q2 & Hrun).
  (* the rest of the loop after [n] more bytes *)
  assert (Hnext : forall n s3, quiet s s3 -> 0 < n <= len - done_ ->
    exists s', read_loop fuel x offset len (done_ + n) (dst ++ bytes s x pos n) s3 =
      (i32 len, dst ++ bytes s x pos (len - done_), s') /\ quiet s s').
  { intros n s3 Q3 Hn. destruct (IH (done_ + n) (dst ++ bytes s x pos n) s3) as (s' & -> & Q4);
      [apply Q3 | by apply (quiet_tree s) | lia | lia |].
    exists s'. split; [| by eapply quiet_trans]. f_equal. f_equal. rewrite <- app_assoc. f_equal.
    rewrite (bytes_quiet s s3 x) by (done || lia).
    replace (bytes s x pos (len - done_)) with (bytes s x pos (n + (len - (done_ + n)))) by (f_equal; lia).
    rewrite bytes_app by lia. do 2 f_equal. unfold pos. lia. }
  destruct Hrun as [-> | (Hr & Hcond & Hrl & Hra)].
  - cbn [Z.ltb Z.compare].
    assert (Hblk : bytes s x pos chunk = if a =? 0 then replicate (Z.to_nat chunk) 0
              else slice (pos `mod` 1024) chunk (vol s a)).
    { unfold a. rewrite <- (block_bytes s x (pos / 1024) (pos `mod` 1024) chunk) by zlia. f_equal. zlia. }
    destruct (Z.eqb_spec a 0) as [E | E].
    + rewrite <- Hblk. by apply Hnext.
    + destruct (good_read s2 a (qt_good _ _ Q2)) as (s3 & -> & Q3).
      { rewrite (sm_sb _ _ (qt_meta _ _ Q2)). specialize (Ha E). lia. }
      rewrite (qt_vol _ _ Q2), <- Hblk. apply Hnext; [by eapply quiet_trans | done].
  - replace (1 <? run) with true by (symmetry; apply Z.ltb_lt; lia).
    unfold cond in Hcond. bool_to_prop. specialize (Ha ltac:(done)).
    assert (Hlast : a + run <= total_blocks (sb s)).
    { pose proof (Hra (run - 1) ltac:(lia)) as E. destruct (node_of_valid (pos / 1024 + (run - 1))) as [Hv _]; [zlia |].
      destruct (tr_used _ _ T _ Hv) as [Hin _]; [lia |]. rewrite E in Hin. apply elem_data_blocks in Hin. lia. }
    destruct (blocks_read_spec s2 a run (qt_good _ _ Q2)) as (s3 & -> & Q3);
      [lia | lia | by rewrite (sm_sb _ _ (qt_meta _ _ Q2)) |].
    replace (mjoin ((fun j => vol s2 (a + j)) <$> seqZ 0 run)) with (bytes s x pos (run * 1024)).
    + apply Hnext; [by eapply quiet_trans | lia].
    + replace pos with (1024 * (pos / 1024)) at 1 by zlia. replace run with (Z.of_nat (Z.to_nat run)) by lia.
      rewrite <- (run_bytes s x (pos / 1024) a); [| lia | lia | intros; apply Hra; lia | lia].
      apply (f_equal mjoin), list_fmap_ext. intros. symmetry. apply (qt_vol _ _ Q2).
Qed.

(** The inode as it is on the volume. *)
Definition inode_at s (ino : Z) : inode :=
  decode_inode (slice (inode_offset ino) WFS_INODE_SIZE (vol s (inode_block ino s))).

Definition good_ino s (ino : Z) : Prop := 0 < ino < total_inodes (sb s).

Lemma inode_block_range s ino :
  good s -> good_ino s ino ->
  inode_block ino s = inode_start (sb s) + ino / 16 /\
  inode_start (sb s) <= inode_block ino s < data_start (sb s) /\ 0 <= inode_block ino s < total_blocks (sb s) /\
  ~ meta_block s (inode_block ino s).
Proof.
  intros G [? ?]. destruct (ao_geometry _ G) as [? [? ?] ? ? ?]. pose proof (coh_lba s ltac:(apply G)).
  assert (E : inode_block ino s = inode_start (sb s) + ino / 16).
  { unfold inode_block, WFS_INODES_PER_BLOCK. apply u32_id. zlia. }
  split; [done |]. rewrite E. unfold meta_block. split_and!; try zlia.
Qed.

Lemma bad_ino_false s ino : good_ino s ino -> bad_ino ino s = false.
Proof.
  intros [? ?]. unfold bad_ino, WFS_INVALID_INO. apply orb_false_iff. rewrite Z.eqb_neq, Z.leb_gt. lia.
Qed.

Lemma read_inode_spec s ino :
  good s -> good_ino s ino -> exists s', wfs_read_inode ino s = (0, inode_at s ino, s') /\ quiet s s'.
Proof.
  intros G Hi. unfold wfs_read_inode. rewrite bad_ino_false by done.
  destruct (inode_block_range s ino G Hi) as (_ & _ & Hr & _).
  destruct (good_read s (inode_block ino s) G Hr) as (s1 & -> & Q). by exists s1.
Qed.

(** ** Writing *)

(** Replacing a data block of the file. *)
Lemma write_data s x i buf s' :
  good s -> tree_ok s x -> 0 <= i < MAX_BLOCKS -> addr s x (node_of i) <> 0 ->
  good s' -> same_meta s s' -> vol s' (addr s x (node_of i)) = buf ->
  (forall c, c <> addr s x (node_of i) -> vol s' c = vol s c) ->
  extc (fun k => if k / 1024 =? i then buf.[k `mod` 1024] else content s x k) s x s' x.
Proof.
  intros G T Hi Ha G' M Hb Hf. destruct (node_of_valid i Hi) as [Hv Hd].
  set (a := addr s x (node_of i)) in *.
  assert (Haddr : forall n, valid n -> addr s' x n = addr s x n).
  { apply addr_frame. intros n Hn Hnd Hna. apply Hf. intros E.
    assert (n = node_of i) by (by apply (tr_inj _ _ T)). congruence. }
  pose proof (same_meta_layout _ _ M) as L.
  split; try done.
  - destruct T as [? Hu Hj]. split; [done | |].
    + intros n Hn. rewrite Haddr, (used_meta _ _ (sm_bitmap _ _ M)), (data_blocks_layout _ _ L) by done. by apply Hu.
    + intros n m Hn Hm. rewrite !Haddr by done. by apply Hj.
  - intros c _. by rewrite (used_meta _ _ (sm_bitmap _ _ M)).
  - intros k Hk. assert (Hki : 0 <= k / 1024 < MAX_BLOCKS) by zlia.
    destruct (node_of_valid _ Hki) as [Hkv _]. unfold content. rewrite Haddr by done.
    destruct (Z.eqb_spec (k / 1024) i) as [-> | Hne].
    + fold a. destruct (Z.eqb_spec a 0); [done |]. by rewrite Hb.
    + destruct (Z.eqb_spec (addr s x (node_of (k / 1024))) 0); [done |]. rewrite Hf; [done |].
      intros E. apply Hne, node_of_inj; try done. by apply (tr_inj _ _ T).
  - intros n Hn _. by apply Haddr.
  - intros n Hn E. by rewrite Haddr.
  - intros c (_ & _ & _ & Hc). apply Hf. intros ->. by apply (Hc (node_of i)).
Qed.

(** [bmap] says when it changed the inode. *)
Lemma bmap_dirty x i dirty s m s' :
  bmap x i true dirty s = (m, s') -> mdirty m = true \/ (mino m = x /\ mdirty m = dirty).
Proof.
  assert (Hfill : forall get set x d s m s', fill_slot get set x true d s = (m, s') ->
    mdirty m = true \/ (mino m = x /\ mdirty m = d)).
  { intros get set x0 d s0 m0 s1. unfold fill_slot. destruct (negb _ || _)%bool; [by intros [= <- <-]; right |].
    destruct (block_alloc s0) as [b s2]. destruct (b =? 0); intros [= <- <-]; [by right | by left]. }
  assert (Htab : forall t k x d s m s', table_slot t k true x d s = (m, s') ->
    mdirty m = true \/ (mino m = x /\ mdirty m = d)).
  { intros t k x0 d s0 m0 s1. unfold table_slot. destruct (block_read t s0) as [[tb |] s2]; [| by intros [= <- <-]; right].
    destruct (table_get tb k =? 0); cbn [negb]; [| by intros [= <- <-]; right].
    destruct (block_alloc s2) as [b s3]. destruct (b =? 0); [by intros [= <- <-]; right |].
    destruct (block_write _ _ s3) as [[] s4]; intros [= <- <-]; by left. }
  unfold bmap. destruct (i <? WFS_DIRECT); [apply Hfill |].
  destruct (_ <? WFS_PTRS_PER_BLOCK).
  - destruct (fill_slot _ _ _ _ _ _) as [m1 s1] eqn:E1. apply Hfill in E1.
    destruct (mr m1 <? 0); [by intros [= <- <-] |]. destruct (_ =? 0); [by intros [= <- <-] |].
    intros E. apply Htab in E as [? | [-> ->]]; [by left | done].
  - destruct (WFS_DOUBLE_BLOCKS <=? _); [by intros [= <- <-]; right |].
    destruct (fill_slot _ _ _ _ _ _) as [m1 s1] eqn:E1. apply Hfill in E1.
    destruct (mr m1 <? 0); [by intros [= <- <-] |]. destruct (_ =? 0); [by intros [= <- <-] |].
    destruct (table_slot _ _ _ _ _ s1) as [m2 s2] eqn:E2. apply Htab in E2.
    assert (H2 : mdirty m2 = true \/ (mino m2 = x /\ mdirty m2 = dirty)).
    { destruct E2 as [? | [-> ->]]; [by left | done]. }
    destruct (mr m2 <? 0); [by intros [= <- <-] |]. destruct (mout m2 =? 0); [by intros [= <- <-] |].
    intros E. apply Htab in E as [? | [-> ->]]; [by left | done].
Qed.

(** The file's bytes with [src] in place from [a] to [b]. *)
Definition patched s x (src : list Z) (offset a b k : Z) : Z :=
  if ((a <=? k) && (k <? b))%bool then src.[k - offset] else content s x k.

Lemma file_write_loop_spec offset src : 0 <= offset -> offset + Zlen src <= MAX_BLOCKS * 1024 ->
  forall fuel s x r done_ dirty, good s -> tree_ok s x -> 0 <= done_ <= Zlen src -> Zlen src - done_ <= Z.of_nat fuel ->
  exists r' done' x' dirty' s',
    write_loop fuel x offset src r done_ dirty s = (WOut r' done' x' dirty', s') /\ done_ <= done' <= Zlen src /\
    extc (patched s x src offset (offset + done_) (offset + done')) s x s' x' /\
    (done' = Zlen src \/ (done' < Zlen src /\ r' = - W_ENOSPC /\ full s')) /\
    (dirty' = true \/ (x' = x /\ dirty' = dirty)).
Proof.
  intros Ho Hm. induction fuel as [| fuel IH]; intros s x r done_ dirty G T Hd Hf; cbn [write_loop].
  { exists r, done_, x, dirty, s. split_and!; try done; [lia | | left; lia | by right].
    apply (extc_bytes (content s x)); [| apply ext_quiet; [by apply quiet_refl | done]].
    intros k _. unfold patched. case_ifs; [lia | done]. }
  destruct (Z.ltb_spec done_ (Zlen src)) as [Hlt | Hge].
  2: { exists r, done_, x, dirty, s. split_and!; try done; [lia | | left; lia | by right].
       apply (extc_bytes (content s x)); [| apply ext_quiet; [by apply quiet_refl | done]].
       intros k _. unfold patched. case_ifs; [lia | done]. }
  assert (Hmb : MAX_BLOCKS * 1024 < 2 ^ 32) by (unfold MAX_BLOCKS; lia).
  rewrite u32_id by lia. unfold WFS_BLOCK_SIZE. set (pos := offset + done_) in *.
  destruct (chunk_spec pos (Zlen src - done_)) as (Hc1 & Hc2 & _); [lia.. |].
  set (chunk := chunk_at pos (Zlen src - done_)) in *.
  assert (Hidx : 0 <= pos / 1024 < MAX_BLOCKS) by zlia.
  destruct (bmap x (pos / 1024) true dirty s) as [m s1] eqn:Eb.
  pose proof (bmap_dirty _ _ _ _ _ _ Eb) as Hdirty.
  destruct (bmap_alloc_spec s x (pos / 1024) dirty m s1 G T Hidx Eb) as [(Hr & X & Ea & Hne) | (Hr & X & Hfull)].
  2: { rewrite Hr. exists (- W_ENOSPC), done_, (mino m), (mdirty m), s1. split_and!; try done; [lia | | right; done].
       apply (extc_bytes (content s x)); [| done]. intros k _. unfold patched. case_ifs; [lia | done]. }
  rewrite Hr. cbn [Z.ltb Z.compare]. set (a := mout m) in *. set (x1 := mino m) in *.
  pose proof (ex_good _ _ _ _ _ X) as G1. pose proof (ex_tree _ _ _ _ _ X) as T1.
  destruct (node_of_valid _ Hidx) as [Hnv _].
  destruct (tr_used _ _ T1 _ Hnv ltac:(congruence)) as [Hin _]. rewrite Ea in Hin.
  pose proof (data_block_facts s1 a G1 Hin) as [Har _].
  assert (Hold : exists old s2, (if negb (chunk =? 1024) then block_read a s1 else (Some (replicate 1024 0), s1)) =
    (Some old, s2) /\ quiet s1 s2 /\ Zlen old = 1024 /\ (chunk = 1024 \/ old = vol s1 a)).
  { destruct (Z.eqb_spec chunk 1024); cbn [negb].
    - exists (replicate 1024 0), s1. split_and!; try done; try (by left); by apply quiet_refl.
    - destruct (good_read s1 a G1 ltac:(lia)) as (s2 & -> & Q). exists (vol s1 a), s2.
      split_and!; try done; [apply Zlen_vol | by right]. }
  destruct Hold as (old & s2 & -> & Q2 & Hol & Hold).
  set (buf := splice (pos `mod` 1024) (slice done_ chunk src) old).
  assert (Hsl : Zlen (slice done_ chunk src) = chunk) by (apply Zlen_slice; lia).
  assert (Hbl : Zlen buf = 1024) by (unfold buf; rewrite Zlen_splice; zlia).
  destruct (good_write s2 a buf (qt_good _ _ Q2)) as (s3 & -> & G3 & M3 & V3 & F3);
    [rewrite (sm_sb _ _ (qt_meta _ _ Q2)); lia | done |]. cbn [negb].
  pose proof (ext_quiet _ _ x1 Q2 T1) as X2. pose proof (quiet_tree _ _ _ Q2 T1) as T2.
  assert (Ea2 : addr s2 x1 (node_of (pos / 1024)) = a) by (rewrite (quiet_addr _ _ _ Q2) by done; done).
  pose proof (write_data s2 x1 (pos / 1024) buf s3 (qt_good _ _ Q2) T2 Hidx ltac:(by rewrite Ea2) G3 M3
    ltac:(by rewrite Ea2) ltac:(by rewrite Ea2)) as X3.
  pose proof (ex_tree _ _ _ _ _ X3) as T3.
  assert (X03 : extc (patched s x src offset pos (pos + chunk)) s x s3 x1).
  { eapply extc_bytes; [| eapply extc_trans; [done | exact X | eapply extc_trans; [done | exact X2 | exact X3]]].
    intros k Hk. cbn beta. unfold patched. destruct (Z.eqb_spec (k / 1024) (pos / 1024)) as [Ek | Ek].
    - unfold buf. rewrite get_splice by zlia. rewrite Hsl.
      destruct (Z.leb_spec (pos `mod` 1024) (k `mod` 1024)), (Z.leb_spec pos k), (Z.ltb_spec (k `mod` 1024) (pos `mod` 1024 + chunk)),
        (Z.ltb_spec k (pos + chunk)); cbn [andb]; try zlia;
        try (rewrite get_slice by zlia; f_equal; f_equal; unfold pos in *; zlia).
      all: destruct Hold as [Hold | ->]; [zlia |]; rewrite <- (ex_content _ _ _ _ _ X k Hk); unfold content;
        rewrite Ek; fold x1; rewrite Ea; by destruct (Z.eqb_spec a 0).
    - rewrite (ex_content _ _ _ _ _ X2 k Hk), (ex_content _ _ _ _ _ X k Hk). case_ifs; [zlia | done]. }
  destruct (IH s3 x1 0 (done_ + chunk) (mdirty m) G3 T3 ltac:(lia) ltac:(lia))
    as (r' & done' & x' & dirty' & s' & E & Hd' & X' & Hend & Hdt).
  exists r', done', x', dirty', s'. split_and!; try done; [lia | lia | |].
  - eapply extc_bytes; [| eapply extc_trans; [done | exact X03 | exact X']].
    intros k Hk. unfold patched. rewrite (ex_content _ _ _ _ _ X03 k Hk). unfold patched. unfold pos in *.
    case_ifs; try lia; done.
  - destruct Hdt as [? | [-> ->]]; [by left |]. destruct Hdirty as [? | [? ?]]; [by left | by right].
Qed.

(** A write inside one block is all or nothing, and it is all when the block
    is there. *)
Lemma write_loop_block fuel x offset src r dirty s r' d x' dirty' s' :
  0 <= offset -> offset `mod` 1024 + Zlen src <= 1024 -> offset + Zlen src <= MAX_BLOCKS * 1024 ->
  Zlen src <= Z.of_nat fuel ->
  write_loop fuel x offset src r 0 dirty s = (WOut r' d x' dirty', s') ->
  (d = 0 \/ d = Zlen src) /\
  (good s -> tree_ok s x -> addr s x (node_of (offset / 1024)) <> 0 -> d = Zlen src).
Proof.
  intros Ho Hb Hm Hf E. pose proof (Zlen_nonneg src). destruct fuel as [| fuel]; cbn [write_loop] in E.
  { injection E as _ <- _ _ _. split; [by left | lia]. }
  destruct (Z.ltb_spec 0 (Zlen src)) as [Hlt |]; [| injection E as _ <- _ _ _; split; [by left | lia]].
  assert (MAX_BLOCKS * 1024 < 2 ^ 32) by (unfold MAX_BLOCKS; lia).
  rewrite u32_id, Z.add_0_r in E by lia. unfold WFS_BLOCK_SIZE in E.
  assert (Ec : chunk_at offset (Zlen src - 0) = Zlen src).
  { unfold chunk_at, WFS_BLOCK_SIZE. destruct (Z.ltb_spec (Zlen src - 0) (1024 - offset `mod` 1024)); lia. }
  rewrite Ec in E. destruct (bmap x (offset / 1024) true dirty s) as [m s1] eqn:Eb.
  assert (Hmr : good s -> tree_ok s x -> addr s x (node_of (offset / 1024)) <> 0 -> mr m = 0).
  { intros G T Ha. destruct (bmap_there s x (offset / 1024) dirty G T) as (s2 & E2 & _); [zlia | done |].
    rewrite Eb in E2. by injection E2 as -> _. }
  destruct (Z.ltb_spec (mr m) 0) as [Hneg |].
  { injection E as _ <- _ _ _. split; [by left |]. intros G T Ha. rewrite Hmr in Hneg by done. lia. }
  destruct (if negb (Zlen src =? 1024) then _ else _) as [[old |] s2]; [| done].
  destruct (block_write _ _ s2) as [[] s3]; [| done]. cbn [negb] in E.
  assert (d = Zlen src) as ->; [| by split; [right |]]. revert E. clear. rewrite Z.add_0_l.
  destruct fuel; cbn [write_loop]; [by intros [= _ <- _ _ _] |]. rewrite Z.ltb_irrefl. by intros [= _ <- _ _ _].
Qed.

(** ** The inode table *)

Lemma slice_splice_other (off n off' : Z) (new l : list Z) :
  0 <= off -> 0 <= off' -> 0 <= n -> off + n <= Zlen l -> off' + Zlen new <= Zlen l ->
  off + n <= off' \/ off' + Zlen new <= off -> slice off n (splice off' new l) = slice off n l.
Proof.
  intros. pose proof (Zlen_nonneg new). apply list_eq_get.
  - rewrite !Zlen_slice by (rewrite ?Zlen_splice; lia). done.
  - rewrite Zlen_slice by (rewrite ?Zlen_splice; lia). intros k Hk.
    rewrite !get_slice, get_splice by lia. case_ifs; [lia | done].
Qed.

Lemma ino_slots i j : 0 <= i -> 0 <= j -> i <> j -> i / 16 = j / 16 ->
  inode_offset i + 64 <= inode_offset j \/ inode_offset j + 64 <= inode_offset i.
Proof. intros. unfold inode_offset, WFS_INODES_PER_BLOCK, WFS_INODE_SIZE. zlia. Qed.

Lemma write_inode_spec s ino x :
  good s -> good_ino s ino -> inode_wf x ->
  exists s', write_inode ino x s = (0, s') /\ good s' /\ same_meta s s' /\ inode_at s' ino = x /\
    (forall j, good_ino s j -> j <> ino -> inode_at s' j = inode_at s j) /\
    (forall c, c <> inode_block ino s -> vol s' c = vol s c).
Proof.
  intros G Hi Hx. unfold write_inode. rewrite bad_ino_false by done.
  destruct (inode_block_range s ino G Hi) as (Eb & _ & Hr & _).
  destruct (good_read s (inode_block ino s) G Hr) as (s1 & -> & Q).
  pose proof (Zlen_encode_inode x ltac:(apply Hx)) as He.
  assert (Hoff : forall j, 0 <= inode_offset j /\ inode_offset j + 64 <= 1024).
  { intros j. unfold inode_offset, WFS_INODES_PER_BLOCK, WFS_INODE_SIZE. zlia. }
  pose proof (Hoff ino). pose proof (Zlen_vol s (inode_block ino s)) as Hl.
  destruct (good_write s1 (inode_block ino s) (splice (inode_offset ino) (encode_inode x) (vol s (inode_block ino s)))
    (qt_good _ _ Q)) as (s2 & -> & G2 & M2 & V2 & F2); [by rewrite (sm_sb _ _ (qt_meta _ _ Q)) | rewrite Zlen_splice; lia |].
  cbn [negb]. exists s2.
  assert (M : same_meta s s2) by (destruct (qt_meta _ _ Q), M2; split; congruence).
  assert (Hib : forall j, inode_block j s2 = inode_block j s) by (intros; unfold inode_block; by rewrite (sm_sb _ _ M)).
  assert (F : forall c, c <> inode_block ino s -> vol s2 c = vol s c)
    by (intros c Hc; rewrite F2 by done; apply Q).
  split_and!; try done.
  - unfold inode_at. rewrite Hib, V2. unfold WFS_INODE_SIZE. rewrite <- He, slice_splice by lia.
    rewrite <- (app_nil_r (encode_inode x)). by apply decode_encode_inode.
  - intros j Hj Hne. unfold inode_at. rewrite Hib. f_equal. unfold WFS_INODE_SIZE.
    destruct (inode_block_range s j G Hj) as (Ebj & _). destruct Hi, Hj, (Hoff j).
    destruct (decide (inode_block j s = inode_block ino s)) as [E | E]; [| by rewrite F].
    rewrite E, V2. apply slice_splice_other; try lia. rewrite He. apply ino_slots; [lia.. |]. lia.
Qed.

(** A file the file system can work with. *)
Record file_ok s (ino : Z) : Prop := {
  fo_ino : good_ino s ino;
  fo_wf : inode_wf (inode_at s ino);
  fo_size : isize (inode_at s ino) <= MAX_BLOCKS * 1024;
  fo_tree : tree_ok s (inode_at s ino);
}.

(** Files that share no block. *)
Definition separate s (i j : Z) : Prop :=
  forall n m, valid n -> valid m -> addr s (inode_at s i) n <> 0 -> addr s (inode_at s i) n <> addr s (inode_at s j) m.

Lemma inode_block_foreign s x ino :
  good s -> good_ino s ino -> tree_ok s x -> foreign s x (inode_block ino s).
Proof.
  intros G Hi T. destruct (inode_block_range s ino G Hi) as (_ & [H1 H2] & Hr & Hm).
  split_and!; try done; [lia | left; lia |]. intros n Hn E.
  destruct (ao_geometry _ G) as [[] [] ? ? ?].
  destruct (tr_used _ _ T n Hn ltac:(lia)) as [Hin _]. apply elem_data_blocks in Hin. lia.
Qed.

(** A foreign tree reads the same when only blocks that are not foreign to it
    were written. *)
Lemma tree_frame s s' x :
  good s -> tree_ok s x -> same_layout s s' ->
  (forall n, valid n -> addr s x n <> 0 -> vol s' (addr s x n) = vol s (addr s x n) /\ used s' (addr s x n) = true) ->
  (forall n, valid n -> addr s' x n = addr s x n) /\ tree_ok s' x /\
  (forall k, 0 <= k < MAX_BLOCKS * 1024 -> content s' x k = content s x k).
Proof.
  intros G T L Hf. assert (Ha : forall n, valid n -> addr s' x n = addr s x n).
  { apply addr_frame. intros n Hn _ H0. by apply Hf. }
  split_and!; [done | destruct T as [Hd Hu Hj]; split; [done | |] |].
  - intros n Hn. rewrite Ha, (data_blocks_layout _ _ L) by done. intros H0. split; [by apply Hu | by apply Hf].
  - intros n m Hn Hm. rewrite !Ha by done. by apply Hj.
  - intros k Hk. unfold content. destruct (node_of_valid (k / 1024)) as [Hv _]; [zlia |]. rewrite Ha by done.
    destruct (Z.eqb_spec (addr s x (node_of (k / 1024))) 0) as [| E]; [done |]. by destruct (Hf _ Hv E) as [-> _].
Qed.

(** What happens to the other files of the volume: nothing. *)
Definition others_same s s' (ino : Z) : Prop :=
  forall j, j <> ino -> file_ok s j -> separate s ino j ->
  file_ok s' j /\ separate s' ino j /\ inode_at s' j = inode_at s j /\
  (forall n, valid n -> addr s' (inode_at s' j) n = addr s (inode_at s j) n) /\
  forall k, 0 <= k < MAX_BLOCKS * 1024 -> content s' (inode_at s' j) k = content s (inode_at s j) k.

(** Growing the file [ino] and then storing its inode. *)
Lemma store_others f s s1 x1 s' ino :
  good s -> file_ok s ino -> extc f s (inode_at s ino) s1 x1 ->
  same_layout s1 s' -> (forall c, used s' c = used s1 c) -> (forall n, valid n -> addr s' (inode_at s' ino) n = addr s1 x1 n) ->
  (forall j, good_ino s j -> j <> ino -> inode_at s' j = inode_at s1 j) ->
  (forall c, c <> inode_block ino s1 -> vol s' c = vol s1 c) ->
  others_same s s' ino /\ (forall j, good_ino s j -> j <> ino -> inode_at s' j = inode_at s j).
Proof.
  intros G [Hi Hw Hz T] X L Hu Ha Hin Hf.
  pose proof (ex_layout _ _ _ _ _ X) as L1. pose proof (same_layout_trans _ _ _ L1 L) as L2.
  assert (Hib : forall i, inode_block i s1 = inode_block i s) by (intros; unfold inode_block; by rewrite (sl_inode_start _ _ L1)).
  assert (Hij : forall j, good_ino s j -> j <> ino -> inode_at s' j = inode_at s j).
  { intros j Hj Hne. rewrite Hin by done. unfold inode_at. rewrite Hib. f_equal. f_equal. apply X.
    by apply inode_block_foreign. }
  split; [| exact Hij]. intros j Hj [Hi' Hw' Hz' T'] Hs. specialize (Hij j Hi' Hj).
  assert (Hfor : forall n, valid n -> addr s (inode_at s j) n <> 0 -> foreign s (inode_at s ino) (addr s (inode_at s j) n)).
  { intros n Hn H0. destruct (tr_used _ _ T' n Hn H0) as [Hd Hus].
    destruct (data_block_facts s _ G Hd). split_and!; try done; [lia | by right |].
    intros m Hm E. by apply (Hs m n); rewrite ?E. }
  destruct (tree_frame s s' (inode_at s j) G T' L2) as (Ha' & Tj & Hc).
  { intros n Hn H0. destruct (tr_used _ _ T' n Hn H0) as [Hd Hus]. destruct (data_block_facts s _ G Hd).
    rewrite Hu. split; [| apply (ex_used _ _ _ _ _ X); [lia | done]].
    rewrite Hf; [by apply X, Hfor |]. rewrite Hib. destruct (inode_block_range s ino G Hi).
    apply elem_data_blocks in Hd. lia. }
  split_and!.
  - split; rewrite ?Hij; try done. unfold good_ino. by rewrite (sl_total_inodes _ _ L2).
  - intros n m Hn Hm. rewrite Hij, Ha, Ha' by done. intros H0 E.
    destruct (decide (addr s (inode_at s j) m = 0)) as [E0 |]; [congruence |].
    destruct (foreign_ext _ _ _ _ _ _ X (Hfor m Hm ltac:(done))) as (_ & _ & _ & Hno). by apply (Hno n Hn).
  - done.
  - by rewrite Hij.
  - rewrite Hij. done.
Qed.

(** The inode after a write: its size and time, nothing else. *)
Definition stamped (x : inode) (size mt : Z) : inode :=
  Inode (itype x) (links x) size (iblocks x) mt (direct x) (indirect x) (double_indirect x).

Lemma addr_stamped s x size mt n : addr s (stamped x size mt) n = addr s x n.
Proof. by destruct n. Qed.

Lemma stamped_same x : stamped x (isize x) (mtime x) = x.
Proof. by destruct x. Qed.

Lemma stamped_wf x size mt : inode_wf x -> 0 <= size < 2 ^ 32 -> 0 <= mt < 2 ^ 32 -> inode_wf (stamped x size mt).
Proof. intros (? & ? & ? & ? & ? & ? & ? & ? & ?) ? ?. unfold inode_wf, stamped. simpl. tauto. Qed.

(** The end of [wfs_write]: the inode goes back to the table when it changed. *)
Lemma store_spec f s s1 x1 ino size mt (dirty : bool) :
  good s -> file_ok s ino -> extc f s (inode_at s ino) s1 x1 ->
  0 <= size <= MAX_BLOCKS * 1024 -> 0 <= mt < 2 ^ 32 ->
  (dirty = true \/ (x1 = inode_at s ino /\ size = isize x1 /\ mt = mtime x1)) ->
  let s' := if dirty then (write_inode ino (stamped x1 size mt) s1).2 else s1 in
  good s' /\ file_ok s' ino /\ inode_at s' ino = stamped x1 size mt /\ (forall c, used s' c = used s1 c) /\
  same_layout s s' /\ (others_same s s' ino /\ (forall j, good_ino s j -> j <> ino -> inode_at s' j = inode_at s j)) /\
  (forall n, valid n -> addr s (inode_at s ino) n <> 0 -> addr s' (inode_at s' ino) n = addr s (inode_at s ino) n) /\
  forall k, 0 <= k < MAX_BLOCKS * 1024 -> content s' (inode_at s' ino) k = f k.
Proof.
  intros G Fo X Hsz Hmt Hd s'. pose proof Fo as [Hi Hw Hz T].
  pose proof (ex_layout _ _ _ _ _ X) as L1. pose proof (ex_tree _ _ _ _ _ X) as T1.
  pose proof (ex_good _ _ _ _ _ X) as G1.
  assert (Hi1 : good_ino s1 ino) by (unfold good_ino; by rewrite (sl_total_inodes _ _ L1)).
  assert (Hmb : MAX_BLOCKS * 1024 < 2 ^ 32) by (unfold MAX_BLOCKS; lia).
  pose proof (stamped_wf x1 size mt (ex_wf _ _ _ _ _ X Hw) ltac:(lia) Hmt) as Hw1.
  assert (H : good s' /\ same_layout s1 s' /\ (forall c, used s' c = used s1 c) /\ inode_at s' ino = stamped x1 size mt /\
    (forall j, good_ino s j -> j <> ino -> inode_at s' j = inode_at s1 j) /\
    (forall c, c <> inode_block ino s1 -> vol s' c = vol s1 c)).
  { unfold s'. destruct dirty.
    - destruct (write_inode_spec s1 ino _ G1 Hi1 Hw1) as (s2 & -> & G2 & M2 & Hx & Ho & Hf). cbn [snd].
      split_and!; try done; [by apply same_meta_layout | apply used_meta, M2 |].
      intros j Hj. apply Ho. unfold good_ino. by rewrite (sl_total_inodes _ _ L1).
    - destruct Hd as [Hd | (-> & -> & ->)]; [done |]. rewrite stamped_same. split_and!; try done.
      unfold inode_at, inode_block. rewrite (sl_inode_start _ _ L1). fold (inode_block ino s). f_equal. f_equal.
      apply X. by apply inode_block_foreign. }
  destruct H as (G' & L & Hu & Hx & Ho & Hf).
  destruct (tree_frame s1 s' x1 G1 T1 L) as (Ha & T' & Hc).
  { intros n Hn H0. destruct (tr_used _ _ T1 n Hn H0) as [Hin Hus]. rewrite Hu. split; [| done]. apply Hf.
    destruct (inode_block_range s1 ino G1 Hi1). apply elem_data_blocks in Hin. lia. }
  assert (Has : forall n, valid n -> addr s' (inode_at s' ino) n = addr s1 x1 n)
    by (intros n Hn; rewrite Hx, addr_stamped; by apply Ha).
  pose proof (same_layout_trans _ _ _ L1 L) as L2.
  destruct (store_others f s s1 x1 s' ino) as [Ho1 Ho2]; try done. split_and!; try done.
  - split; rewrite ?Hx; try done; [unfold good_ino; by rewrite (sl_total_inodes _ _ L2) | apply Hsz |].
    destruct T' as [Td Tu Tj]. split; [done | intros n; rewrite addr_stamped; by apply Tu |].
    intros n m; rewrite !addr_stamped; by apply Tj.
  - intros n Hn H0. rewrite Has by done. by apply X.
  - intros k Hk. rewrite <- (ex_content _ _ _ _ _ X k Hk), <- (Hc k Hk), Hx. unfold content.
    by rewrite addr_stamped.
Qed.

(** What a write of [src] at [offset] that stored [done_] bytes does. *)
Record written s s' (ino offset : Z) (src : list Z) (done_ : Z) : Prop := {
  wr_good : good s';
  wr_file : file_ok s' ino;
  wr_layout : same_layout s s';
  wr_done : 0 <= done_ <= Zlen src;
  wr_all : done_ = Zlen src \/ full s';
  wr_size : isize (inode_at s' ino) = Z.max (isize (inode_at s ino)) (offset + done_);
  wr_mtime : mtime (inode_at s' ino) = if 0 <? done_ then rtc s else mtime (inode_at s ino);
  wr_type : itype (inode_at s' ino) = itype (inode_at s ino) /\ links (inode_at s' ino) = links (inode_at s ino);
  wr_bytes : forall k, 0 <= k < MAX_BLOCKS * 1024 ->
    content s' (inode_at s' ino) k = patched s (inode_at s ino) src offset offset (offset + done_) k;
  wr_block : offset `mod` 1024 + Zlen src <= 1024 ->
    (done_ = 0 \/ done_ = Zlen src) /\ (addr s (inode_at s ino) (node_of (offset / 1024)) <> 0 -> done_ = Zlen src);
  wr_keep : forall n, valid n -> addr s (inode_at s ino) n <> 0 -> addr s' (inode_at s' ino) n = addr s (inode_at s ino) n;
  wr_inodes : forall j, good_ino s j -> j <> ino -> inode_at s' j = inode_at s j;
  wr_others : others_same s s' ino;
}.

Definition write_returns (src : list Z) (done_ : Z) : Z :=
  if ((done_ =? 0) && (0 <? Zlen src))%bool then - W_ENOSPC else done_.

Lemma wfs_write_spec s ino offset src :
  good s -> file_ok s ino -> 0 <= offset -> offset + Zlen src <= MAX_BLOCKS * 1024 -> 0 <= rtc s < 2 ^ 32 ->
  exists done_ s', wfs_write ino offset src s = (write_returns src done_, s') /\ written s s' ino offset src done_.
Proof.
  intros G Fo Ho Hm Hr. pose proof Fo as [Hi Hw Hz T]. unfold wfs_write.
  destruct (read_inode_spec s ino G Hi) as (s1 & -> & Q). cbn [Z.ltb Z.compare].
  assert (Hmb : MAX_BLOCKS * 1024 < 2 ^ 31) by (unfold MAX_BLOCKS; lia).
  pose proof (Zlen_nonneg src). rewrite (u32_id (offset + Zlen src)) by lia.
  change WFS_MAX_FILE_SIZE with (MAX_BLOCKS * 1024). destruct (Z.ltb_spec (MAX_BLOCKS * 1024) (offset + Zlen src)); [lia |].
  set (x := inode_at s ino) in *.
  destruct (file_write_loop_spec offset src Ho Hm (length src) s1 x 0 0 false (qt_good _ _ Q) (quiet_tree _ _ _ Q T)
    ltac:(lia) ltac:(unfold Zlen; lia)) as (r' & d & x' & dirty & s2 & E & Hd & X & Hend & Hdirty).
  assert (Hblock : offset `mod` 1024 + Zlen src <= 1024 ->
    (d = 0 \/ d = Zlen src) /\ (addr s x (node_of (offset / 1024)) <> 0 -> d = Zlen src)).
  { intros Hb. destruct (write_loop_block (length src) _ _ _ _ _ _ _ _ _ _ _ Ho Hb Hm ltac:(unfold Zlen; lia) E) as [? Hall]. split; [done |].
    intros Ha. destruct (decide (Zlen src = 0)) as [Ez |]; [clear -Ez Hd; lia |]. apply Hall; [apply Q | by apply (quiet_tree s) |].
    rewrite (quiet_addr _ _ _ Q); [done |]. apply node_of_valid. zlia. }
  rewrite E. clear E. rewrite Z.add_0_r in X.
  assert (X0 : extc (patched s x src offset offset (offset + d)) s x s2 x').
  { pose proof (ext_quiet _ _ x Q T) as X1. eapply extc_bytes; [| eapply extc_trans; [done | exact X1 | exact X]].
    intros k Hk. unfold patched. by rewrite (ex_content _ _ _ _ _ X1 k Hk). }
  destruct (ex_attrs _ _ _ _ _ X0) as (Et & El & Es & Em). rewrite (u32_id (offset + d)), Es by lia.
  pose proof (ex_layout _ _ _ _ _ X0) as L2. destruct Hw as (? & ? & ? & ? & ? & _).
  set (size := Z.max (isize x) (offset + d)). set (mt := if 0 <? d then rtc s else mtime x).
  set (dirty' := ((isize x <? offset + d) || (0 <? d) || dirty)%bool).
  destruct (store_spec _ s s2 x' ino size mt dirty' G Fo X0) as (G' & Fo' & Hx & Hu & L & [Hoth Hinodes] & Hkeep & Hby);
    [unfold size; subst x; lia | unfold mt; case_if; lia | | ].
  { unfold dirty', size, mt. destruct Hdirty as [-> | [-> ->]]; [left; by rewrite orb_true_r |].
    destruct (Z.ltb_spec (isize x) (offset + d)), (Z.ltb_spec 0 d); cbn [orb]; try (by left). right.
    split_and!; [done | lia | done]. }
  exists d, (if dirty' then (write_inode ino (stamped x' size mt) s2).2 else s2). split.
  - assert (Hw : (if isize x <? offset + d then (stamped x' (offset + d) (mtime x'), true) else (x', dirty)) =
      (stamped x' size (mtime x'), ((isize x <? offset + d) || dirty)%bool)).
    { unfold size. destruct (Z.ltb_spec (isize x) (offset + d)); cbn [orb]; f_equal; f_equal; try lia.
      rewrite Z.max_l, <- Es by lia. by rewrite stamped_same. }
    unfold stamped at 1 in Hw. rewrite Hw. clear Hw.
    assert (Hw : (if 0 <? d then (stamped x' size (rtc s2), true) else (stamped x' size (mtime x'), ((isize x <? offset + d) || dirty)%bool)) =
      (stamped x' size mt, dirty')).
    { unfold mt, dirty'. rewrite (sl_rtc _ _ L2), Em. destruct (Z.ltb_spec 0 d); f_equal;
        by destruct (isize x <? offset + d), dirty. }
    unfold stamped at 1 in Hw. cbn [stamped itype links isize iblocks mtime direct indirect double_indirect] in *.
    rewrite Hw. unfold write_returns.
    destruct ((d =? 0) && (0 <? Zlen src))%bool eqn:E.
    + destruct Hend as [Hend | (_ & -> & _)]; [bool_to_prop; lia | done].
    + do 2 f_equal. unfold i32. rewrite u32_id by lia. rewrite (proj2 (Z.ltb_lt _ _)) by lia. done.
  - split; rewrite ?Hx; try done.
    + destruct Hend as [? | (_ & _ & Hf)]; [by left | right]. intros c Hc. rewrite Hu. apply Hf.
      rewrite (data_blocks_layout _ _ L) in Hc. by rewrite (data_blocks_layout _ _ L2).
    + intros k Hk. pose proof (Hby k Hk) as E. rewrite Hx in E. exact E.
    + intros n Hn Hn0. pose proof (Hkeep n Hn Hn0) as E. rewrite Hx in E. exact E.
Qed.

(** Reading a file. *)
Lemma wfs_read_spec s ino offset len :
  good s -> file_ok s ino -> 0 <= offset -> 0 <= len -> offset + len < 2 ^ 32 ->
  let n := Z.max 0 (Z.min len (isize (inode_at s ino) - offset)) in
  exists s', wfs_read ino offset len s = (n, bytes s (inode_at s ino) offset n, s') /\ quiet s s'.
Proof.
  intros G [Hi _ Hsz T] Ho Hl Hol n. unfold wfs_read.
  destruct (read_inode_spec s ino G Hi) as (s1 & -> & Q). cbn [Z.ltb Z.compare].
  set (x := inode_at s ino) in *.
  destruct (Z.leb_spec (isize x) offset).
  { exists s1. unfold n. by replace (Z.max 0 (Z.min len (isize x - offset))) with 0 by lia. }
  rewrite u32_id by lia.
  assert (En : (if isize x <? offset + len then isize x - offset else len) = n).
  { unfold n. destruct (Z.ltb_spec (isize x) (offset + len)); lia. }
  rewrite En.
  destruct (file_read_loop_spec x offset n Ho ltac:(lia) ltac:(unfold n; lia) (Z.to_nat n) 0 [] s1)
    as (s2 & E & Q2); [apply Q | by apply (quiet_tree s) | lia | lia |].
  rewrite E, Z.add_0_r, Z.sub_0_r. exists s2. split; [| by eapply quiet_trans].
  rewrite (bytes_quiet s s1 x) by (done || unfold n; lia).
  f_equal. f_equal. unfold i32. rewrite u32_id by (unfold n, MAX_BLOCKS in *; lia).
  rewrite (proj2 (Z.ltb_lt _ _)) by (unfold n, MAX_BLOCKS in *; lia). done.
Qed.

End files.

End WfsFile.
