(* ===== verification/WfsDir.v ===== *)
(** WFS directories, paths and mounting: the second half of
    [kernel/fs/wfs.c].

    A C string is the list of its bytes without the terminating zero.  The
    [struct wfs_dirent] a directory walk reads into is one 32-byte buffer,
    reused from entry to entry as in the code. *)

From S2P Require Import Prelude Str Device Ramdisk Wfs.

Module WfsDir.
Import Str Wfs.

Definition WFS_NAME_MAX : Z := 27.
Definition WFS_DIRENT_SIZE : Z := 32.
Definition W_PATH_MAX : Z := 255.
Definition W_FT_FILE : Z := 1.

(** [struct wfs_dirent] *)
Definition ent_ino (e : list Z) : Z := le32 e 0.
Definition ent_name (e : list Z) : list Z := cstr (drop 4 e).
(** [strlcpy] into the zeroed 28-byte field. *)
Definition make_ent (ino : Z) (name : list Z) : list Z :=
  put32 ino ++ splice 0 (slice 0 WFS_NAME_MAX name) (replicate 28 0).

Section wfsdir.
Context {D : Type} `{BlockDevice D}.
Implicit Types s : fs D.

Definition no_ent : list Z := replicate 32 0.

(** One read of a directory walk: the code and the buffer after it. *)
Definition read_ent (dir_ino off : Z) (ent : list Z) s : Z * list Z * fs D :=
  let '(r, bytes, s) := wfs_read dir_ino off WFS_DIRENT_SIZE s in (r, splice 0 bytes ent, s).

(** Turns of a walk over [size] bytes of entries. *)
Definition dir_fuel (size : Z) : nat := Z.to_nat (size / WFS_DIRENT_SIZE + 1).

(** [for (off ...; off < dir.size; off += WFS_DIRENT_SIZE)] with a read at the
    top that ends the walk when it returns nothing: the offset and entry of the
    first that satisfies [p], if any. *)
Fixpoint dir_walk (fuel : nat) (p : list Z -> bool) (dir_ino size off : Z) (ent : list Z) s
    : option (Z * list Z) * fs D :=
  match fuel with
  | O => (None, s)
  | S n =>
      if off <? size then
        let '(r, ent, s) := read_ent dir_ino off ent s in
        if r <=? 0 then (None, s)
        else if p ent then (Some (off, ent), s)
        else dir_walk n p dir_ino size (u32 (off + WFS_DIRENT_SIZE)) ent s
      else (None, s)
  end.

(** [ent.ino != WFS_INVALID_INO && strcmp(ent.name, name) == 0] *)
Definition named (name : list Z) (ent : list Z) : bool :=
  (negb (ent_ino ent =? WFS_INVALID_INO) && bool_decide (ent_name ent = name))%bool.

Definition dir_find (dir_ino : Z) (name : list Z) s : Z * Z * fs D :=
  let '(r, d, s) := wfs_read_inode dir_ino s in
  if r <? 0 then (r, 0, s)
  else if negb (itype d =? WFS_TYPE_DIR) then (- W_ENOTDIR, 0, s)
  else
    let '(e, s) := dir_walk (dir_fuel (isize d)) (named name) dir_ino (isize d) 0 no_ent s in
    match e with Some (_, ent) => (0, ent_ino ent, s) | None => (- W_ENOENT, 0, s) end.

Definition dir_add (dir_ino : Z) (name : list Z) (ino : Z) s : Z * fs D :=
  if WFS_NAME_MAX <? Zlen name then (- W_ENAMETOOLONG, s)
  else
    let '(r, d, s) := wfs_read_inode dir_ino s in
    if r <? 0 then (r, s)
    else
      let '(e, s) := dir_walk (dir_fuel (isize d)) (fun ent => ent_ino ent =? WFS_INVALID_INO)
                       dir_ino (isize d) 0 no_ent s in
      let slot := match e with Some (off, _) => off | None => isize d end in
      let '(r, s) := wfs_write dir_ino slot (make_ent ino name) s in
      (if r =? WFS_DIRENT_SIZE then 0 else if r <? 0 then r else - W_EIO, s).

Definition dir_remove (dir_ino : Z) (name : list Z) s : Z * fs D :=
  let '(r, d, s) := wfs_read_inode dir_ino s in
  if r <? 0 then (r, s)
  else
    let '(e, s) := dir_walk (dir_fuel (isize d)) (named name) dir_ino (isize d) 0 no_ent s in
    match e with
    | Some (off, _) =>
        let '(r, s) := wfs_write dir_ino off (replicate 32 0) s in (if r <? 0 then r else 0, s)
    | None => (- W_ENOENT, s)
    end.

Definition dir_is_empty (dir_ino : Z) s : bool * fs D :=
  let '(r, d, s) := wfs_read_inode dir_ino s in
  if r <? 0 then (false, s)
  else
    let '(e, s) := dir_walk (dir_fuel (isize d))
      (fun ent => (negb (ent_ino ent =? WFS_INVALID_INO) &&
                   negb (bool_decide (ent_name ent = dot) || bool_decide (ent_name ent = dotdot)))%bool)
      dir_ino (isize d) 0 no_ent s in
    match e with Some _ => (false, s) | None => (true, s) end.

(** [wdirent_t] *)
Record wdirent := WDirent { d_ino : Z; d_type : Z; d_name : list Z }.

(** The code, the entry if there is one, and the cursor. *)
Definition wfs_readdir (ino cursor : Z) s : Z * option wdirent * Z * fs D :=
  let '(r, d, s) := wfs_read_inode ino s in
  if r <? 0 then (r, None, cursor, s)
  else if negb (itype d =? WFS_TYPE_DIR) then (- W_ENOTDIR, None, cursor, s)
  else
    let '(e, s) := dir_walk (dir_fuel (isize d)) (fun ent => negb (ent_ino ent =? WFS_INVALID_INO))
                     ino (isize d) (cursor - cursor `mod` WFS_DIRENT_SIZE) no_ent s in
    match e with
    | Some (off, ent) =>
        let '(r, target, s) := wfs_read_inode (ent_ino ent) s in
        (1, Some (WDirent (ent_ino ent) (if r =? 0 then itype target else W_FT_FILE)
                    (slice 0 27 (ent_name ent))), u32 (off + WFS_DIRENT_SIZE), s)
    | None => (0, None, isize d, s)
    end.

(** ** Path resolution *)

(** Every turn takes at least one byte of the path. *)
Fixpoint lookup_loop (fuel : nat) (ino : Z) (p : list Z) s : Z * Z * fs D :=
  match fuel with
  | O => (0, ino, s)
  | S n =>
      match skip_slashes p with
      | [] => (0, ino, s)
      | p =>
          let '(name, rest) := component p in
          if WFS_NAME_MAX <? Zlen name then (- W_ENAMETOOLONG, 0, s)
          else
            let '(r, ino, s) := dir_find ino name s in
            if r <? 0 then (r, 0, s) else lookup_loop n ino rest s
      end
  end.

Definition wfs_lookup (path : list Z) s : Z * Z * fs D :=
  if negb (mounted s) then (- W_EIO, 0, s)
  else if negb (path.[0] =? slash) then (- W_EINVAL, 0, s)
  else lookup_loop (S (length path)) (root_inode (sb s)) path s.

(** The code, the parent and the name. *)
Definition resolve_parent (path : list Z) s : Z * Z * list Z * fs D :=
  match last_slash path with
  | None => (- W_EINVAL, 0, [], s)
  | Some (before, name) =>
      if Zlen name =? 0 then (- W_EINVAL, 0, [], s)
      else if WFS_NAME_MAX <? Zlen name then (- W_ENAMETOOLONG, 0, [], s)
      else
        if Zlen before =? 0 then (0, root_inode (sb s), name, s)
        else if W_PATH_MAX <? Zlen before then (- W_ENAMETOOLONG, 0, name, s)
        else let '(r, ino, s) := wfs_lookup before s in (r, ino, name, s)
  end.

(** ** Creating, removing and renaming *)

Definition wfs_create (path : list Z) (type : Z) s : Z * Z * fs D :=
  if negb (mounted s) then (- W_EIO, 0, s)
  else
    let '(r, parent, name, s) := resolve_parent path s in
    if r <? 0 then (r, 0, s)
    else
      let '(r, _, s) := dir_find parent name s in
      if r =? 0 then (- W_EEXIST, 0, s)
      else
        let '(r, ino, s) := inode_alloc type s in
        if r <? 0 then (r, 0, s)
        else
          let '(r, s) :=
            if type =? WFS_TYPE_DIR then
              let '(r, s) := dir_add ino dot ino s in
              if r =? 0 then dir_add ino dotdot parent s else (r, s)
            else (0, s) in
          if ((type =? WFS_TYPE_DIR) && (r <? 0))%bool then (r, 0, inode_free ino s)
          else
            let '(r, s) := dir_add parent name ino s in
            if r <? 0 then
              let '(_, s) := wfs_truncate ino s in (r, 0, inode_free ino s)
            else (0, ino, s).

Definition wfs_unlink (path : list Z) s : Z * fs D :=
  if negb (mounted s) then (- W_EIO, s)
  else
    let '(r, parent, name, s) := resolve_parent path s in
    if r <? 0 then (r, s)
    else if (bool_decide (name = dot) || bool_decide (name = dotdot))%bool then (- W_EINVAL, s)
    else
      let '(r, ino, s) := dir_find parent name s in
      if r <? 0 then (r, s)
      else
        let '(r, x, s) := wfs_read_inode ino s in
        if r <? 0 then (r, s)
        else
          let '(empty, s) := if itype x =? WFS_TYPE_DIR then dir_is_empty ino s else (true, s) in
          if negb empty then (- W_ENOTEMPTY, s)
          else
            let '(r, s) := dir_remove parent name s in
            if r <? 0 then (r, s)
            else
              let '(_, s) := wfs_truncate ino s in
              (0, inode_free ino s).

(** The walk up from the destination, at most 256 steps: true when it meets
    the directory being moved. *)
Fixpoint climbs_to (fuel : nat) (at_ ino : Z) s : bool * fs D :=
  match fuel with
  | O => (false, s)
  | S n =>
      if at_ =? ino then (true, s)
      else if at_ =? WFS_ROOT_INO then (false, s)
      else
        let '(r, up, s) := dir_find at_ dotdot s in
        if ((r <? 0) || (up =? at_))%bool then (false, s) else climbs_to n up ino s
  end.

(** Replacing what is already called that: [Some r] is an early return. *)
Definition rename_victim (ino to_parent : Z) (to_name : list Z) s : option Z * fs D :=
  let '(r, existing, s) := dir_find to_parent to_name s in
  if negb (r =? 0) then (None, s)
  else if existing =? ino then (Some 0, s)
  else
    let '(r, victim, s) := wfs_read_inode existing s in
    if r <? 0 then (Some r, s)
    else if itype victim =? WFS_TYPE_DIR then (Some (- W_EISDIR), s)
    else
      let '(r, s) := dir_remove to_parent to_name s in
      if r <? 0 then (Some r, s)
      else
        let '(_, s) := wfs_truncate existing s in
        (None, inode_free existing s).

Definition rename_entries (ino : Z) (is_dir : bool) (from_parent to_parent : Z)
    (from_name to_name : list Z) s : Z * fs D :=
  let '(r, s) := dir_add to_parent to_name ino s in
  if r <? 0 then (r, s)
  else
    let '(r, s) := dir_remove from_parent from_name s in
    if r <? 0 then (r, (dir_remove to_parent to_name s).2)
    else if (is_dir && negb (from_parent =? to_parent))%bool then
      let '(_, s) := dir_remove ino dotdot s in
      let '(_, s) := dir_add ino dotdot to_parent s in
      (0, s)
    else (0, s).

Definition wfs_rename (from to : list Z) s : Z * fs D :=
  if negb (mounted s) then (- W_EIO, s)
  else
    let '(r, from_parent, from_name, s) := resolve_parent from s in
    if r <? 0 then (r, s)
    else
      let '(r, to_parent, to_name, s) := resolve_parent to s in
      if r <? 0 then (r, s)
      else if (bool_decide (from_name = dot) || bool_decide (from_name = dotdot) ||
               bool_decide (to_name = dot) || bool_decide (to_name = dotdot))%bool then (- W_EINVAL, s)
      else
        let '(r, ino, s) := dir_find from_parent from_name s in
        if r <? 0 then (r, s)
        else
          let '(r, x, s) := wfs_read_inode ino s in
          if r <? 0 then (r, s)
          else if ((from_parent =? to_parent) && bool_decide (from_name = to_name))%bool then (0, s)
          else
            let is_dir := itype x =? WFS_TYPE_DIR in
            let '(inside, s) := if is_dir then climbs_to 256 to_parent ino s else (false, s) in
            if inside then (- W_EINVAL, s)
            else
              let '(early, s) := rename_victim ino to_parent to_name s in
              match early with
              | Some r => (r, s)
              | None => rename_entries ino is_dir from_parent to_parent from_name to_name s
              end.

(** ** Mount and statistics *)

Record wdiskinfo := DiskInfo {
  di_block_size : Z; di_total_blocks : Z; di_free_blocks : Z; di_total_inodes : Z; di_free_inodes : Z;
  di_total_bytes : Z; di_free_bytes : Z; di_used_bytes : Z;
}.

Definition wfs_statfs s : wdiskinfo :=
  if negb (mounted s) then DiskInfo 0 0 0 0 0 0 0 0
  else
    let b := sb s in
    let total := u32 (total_blocks b * block_size b) in
    let free := u32 (free_blocks b * block_size b) in
    DiskInfo (block_size b) (total_blocks b) (free_blocks b) (total_inodes b) (free_inodes b)
      total free (u32 (total - free)).

Definition wfs_mounted s : bool := mounted s.
Definition wfs_on_ramdisk s : bool := bool_decide (source s = WFS_SOURCE_RAMDISK).

Definition superblock_ok s : bool * fs D :=
  let '(r, s) := block_read 0 s in
  match r with
  | None => (false, s)
  | Some buf =>
      let s := with_sb (decode_sb buf) s in
      (magic (sb s) =? WFS_MAGIC, s)
  end.

Definition at_volume (src : wfs_source) (lba : Z) s : fs D :=
  Fs (dev s) src lba (sb s) (block_bitmap s) (mounted s) (cache s) (cache_clock s) (rtc s).

(** The four entries of the partition table, from entry [i] on. *)
Fixpoint try_partitions (fuel : nat) (i : Z) (device : wfs_source) (mbr : list Z) s : bool * fs D :=
  match fuel with
  | O => (false, at_volume WFS_SOURCE_NONE 0 s)
  | S n =>
      let entry := 0x1BE + i * 16 in
      let start := le32 mbr (entry + 8) in
      let count := le32 mbr (entry + 12) in
      if ((start =? 0) || (count =? 0))%bool then try_partitions n (i + 1) device mbr s
      else
        let '(ok, s) := superblock_ok (cache_reset (at_volume device start s)) in
        if ok then (true, s) else try_partitions n (i + 1) device mbr s
  end.

Definition find_volume (device : wfs_source) s : bool * fs D :=
  let '(ok, s) := superblock_ok (cache_reset (at_volume device 0 s)) in
  if ok then (true, s)
  else
    let '(r, s) := sectors_read 0 1 s in
    match r with
    | None => (false, s)
    | Some mbr =>
        if (negb (mbr.[510] =? 0x55) || negb (mbr.[511] =? 0xAA))%bool then (false, s)
        else try_partitions 4 0 device mbr s
    end.

(** The bitmap, read a block at a time; [None] when a read fails. *)
Fixpoint read_bitmap (fuel : nat) (i : Z) (got : list Z) s : option (list Z) * fs D :=
  match fuel with
  | O => (Some got, s)
  | S n =>
      if i <? bitmap_blocks (sb s) then
        let '(r, s) := block_read (u32 (bitmap_start (sb s) + i)) s in
        match r with None => (None, s) | Some b => read_bitmap n (i + 1) (got ++ b) s end
      else (Some got, s)
  end.

Definition set_mounted s : fs D :=
  Fs (dev s) (source s) (partition_lba s) (sb s) (block_bitmap s) true (cache s) (cache_clock s) (rtc s).

(** [kmalloc_ok n]: whether the heap has [n] bytes. *)
Definition adopt_volume (kmalloc_ok : Z -> bool) s : bool * fs D :=
  if negb (block_size (sb s) =? WFS_BLOCK_SIZE) then (false, s)
  else if negb (kmalloc_ok (u32 (bitmap_blocks (sb s) * WFS_BLOCK_SIZE))) then (false, with_bitmap [] s)
  else
    let '(r, s) := read_bitmap (Z.to_nat (bitmap_blocks (sb s))) 0 [] s in
    match r with
    | None => (false, with_bitmap [] s)
    | Some bm => (true, set_mounted (with_bitmap bm s))
    end.

Definition try_device (kmalloc_ok : Z -> bool) (device : wfs_source) s : bool * fs D :=
  if negb (dev_present device (dev s)) then (false, s)
  else
    let '(ok, s) := find_volume device s in
    if ok then adopt_volume kmalloc_ok s else (false, s).

Definition wfs_mount (kmalloc_ok : Z -> bool) s : bool * fs D :=
  let '(ok, s) := try_device kmalloc_ok WFS_SOURCE_ATA s in
  if ok then (true, s)
  else
    let '(ok, s) := try_device kmalloc_ok WFS_SOURCE_USB s in
    if ok then (true, s)
    else
      let '(ok, s) := try_device kmalloc_ok WFS_SOURCE_RAMDISK s in
      if ok then (true, s) else (false, at_volume WFS_SOURCE_NONE (partition_lba s) s).

End wfsdir.

(** ** A small volume

    40 blocks on a RAM disk of 80 sectors: superblock, one bitmap block, two
    inode blocks, data from block 4 on, and a root directory in block 4. *)

Definition put_block (b : Z) (buf : list Z) (r : Ramdisk.ramdisk) : Ramdisk.ramdisk :=
  (Ramdisk.ramdisk_write_sectors (2 * b) 2 (splice 0 buf (replicate 1024 0)) r).2.

Definition sample_sb : superblock := Superblock WFS_MAGIC 1024 40 35 32 30 1 1 2 2 4 1.
Definition sample_root : inode := Inode WFS_TYPE_DIR 1 64 1 0 (4 :: replicate 9 0) 0 0.

Definition sample_disk : Ramdisk.ramdisk :=
  put_block 4 (make_ent 1 dot ++ make_ent 1 dotdot)
    (put_block 2 (replicate 64 0 ++ encode_inode sample_root)
       (put_block 1 [0x1F]
          (put_block 0 (encode_sb sample_sb) (Ramdisk.Ramdisk 0x200000 80 ∅)))).

Definition sample_boot : fs Ramdisk.ramdisk :=
  Fs sample_disk WFS_SOURCE_NONE 0 (Superblock 0 0 0 0 0 0 0 0 0 0 0 0) [] false
    (replicate 64 (Slot [] 0 0)) 0 1234567.

Definition sample_fs : fs Ramdisk.ramdisk := (wfs_mount (fun _ => true) sample_boot).2.

(** "/a" *)
Definition name_a : list Z := [97].
Definition path_a : list Z := slash :: name_a.

Example sample_mounts : (wfs_mount (fun _ => true) sample_boot).1 = true.
Proof. vm_compute. reflexivity. Qed.

(** Create a file, write 2000 bytes at offset 500, read them back, list it. *)
Example sample_session :
  let '(r1, ino, s) := wfs_create path_a WFS_TYPE_FILE sample_fs in
  let '(r2, s) := wfs_write ino 500 (replicate 2000 7) s in
  let '(r3, bytes, s) := wfs_read ino 0 4096 s in
  let '(r4, ent, cur, s) := wfs_readdir 1 64 s in
  r1 = 0 /\ ino = 2 /\ r2 = 2000 /\ r3 = 2500 /\ bytes = replicate 500 0 ++ replicate 2000 7 /\
  r4 = 1 /\ ent = Some (WDirent 2 WFS_TYPE_FILE name_a) /\ cur = 96 /\ (wfs_unlink path_a s).1 = 0 /\
  free_blocks (sb (wfs_unlink path_a s).2) = 35.
Proof. vm_compute. repeat split; reflexivity. Qed.

End WfsDir.
