(* ===== verification/WfsSpec.v ===== *)
(** What WFS promises the rest of the kernel: the cache is invisible, blocks
    are handed out once, and files are arrays of bytes.  The lemmas are in
    [Wfs] and [WfsFile]; here are the statements, and the small volume of
    [WfsDir] on which they are applied. *)

From S2P Require Import Prelude Device Ramdisk Wfs WfsFile WfsDir.

Module WfsSpec.
Import Wfs WfsFile WfsDir.

(** ** Checking a volume

    The invariants as boolean functions, for concrete states. *)

Section check.
Context {D : Type} `{Hdev : BlockDevice D} `{!BlockDeviceLaws D} `{!ReliableDevice D}.
Implicit Types s : fs D.

Definition slot_b s (x : slot) : bool :=
  ((cstamp x =? 0) || (0 <=? cblock x) && (partition_lba s + 2 * cblock x + 2 <? 2 ^ 32) &&
   bool_decide (cdata x = vol s (cblock x)))%bool.

Definition apart_b (x y : slot) : bool :=
  ((cstamp x =? 0) || (cstamp y =? 0) || negb (cblock x =? cblock y))%bool.

Definition coherent_b s : bool :=
  (negb (bool_decide (source s = WFS_SOURCE_NONE)) && (0 <=? partition_lba s) &&
   (length (cache s) =? 64)%nat && forallb (slot_b s) (cache s) &&
   forallb (fun i => forallb (fun j => (i =? j)%nat || match cache s !! i, cache s !! j with
     | Some x, Some y => apart_b x y | _, _ => true end) (seq 0 64)) (seq 0 64))%bool.

Lemma coherent_b_sound s : coherent_b s = true -> coherent s.
Proof.
  unfold coherent_b. rewrite !andb_true_iff, negb_true_iff, bool_decide_eq_false, Z.leb_le, Nat.eqb_eq, !forallb_forall.
  intros ((((Hs & Hl) & Hn) & Hd) & Hu). split; try done.
  - intros i x Hx Hlive. assert (Hin : In x (cache s)) by (apply list_elem_of_In, list_elem_of_lookup; eauto).
    apply Hd in Hin. unfold slot_b in Hin. unfold live in Hlive. unfold blk_ok.
    rewrite orb_true_iff, !andb_true_iff, bool_decide_eq_true, Z.eqb_eq, Z.leb_le, Z.ltb_lt in Hin. tauto.
  - intros i j x y Hx Hy Lx Ly E. apply lookup_lt_Some in Hx as Hi. apply lookup_lt_Some in Hy as Hj.
    assert (Hij : In i (seq 0 64) /\ In j (seq 0 64)) by (rewrite !in_seq; lia). destruct Hij as [Ii Ij].
    pose proof (proj1 (forallb_forall _ _) (Hu i Ii) j Ij) as Hp. cbn beta in Hp. rewrite Hx, Hy in Hp.
    apply orb_true_iff in Hp as [Hp | Hp]; [by apply Nat.eqb_eq |].
    unfold apart_b in Hp. rewrite !orb_true_iff, negb_true_iff, !Z.eqb_eq, Z.eqb_neq in Hp. unfold live in *. tauto.
Qed.

Definition geometry_b s : bool :=
  let x := sb s in
  ((0 <? bitmap_start x) && (0 <? bitmap_blocks x) && (bitmap_start x + bitmap_blocks x <=? inode_start x) &&
   (0 <? total_inodes x) && (total_inodes x <=? 16 * inode_blocks x) &&
   (inode_start x + inode_blocks x <=? data_start x) && (data_start x <=? total_blocks x) &&
   (partition_lba s + 2 * total_blocks x <? 2 ^ 32) && (Zlen (block_bitmap s) =? bitmap_blocks x * 1024) &&
   (total_blocks x <=? bitmap_blocks x * 8192))%bool.

Definition good_b s : bool :=
  (coherent_b s && geometry_b s && (free_blocks (sb s) =? countb (fun b => negb (used s b)) (data_blocks s)) &&
   (partition_lba s + 2 * total_blocks (sb s) <=? cap s))%bool.

Lemma good_b_sound s : good_b s = true -> good s.
Proof.
  unfold good_b. rewrite !andb_true_iff, Z.eqb_eq, Z.leb_le. intros (((Hc & Hg) & Hf) & Hcap).
  unfold geometry_b in Hg. rewrite !andb_true_iff, ?Z.leb_le, ?Z.ltb_lt, Z.eqb_eq in Hg.
  destruct_and! Hg. split; [split; [by apply coherent_b_sound | by split | done] | done].
Qed.

(** A file whose blocks are all direct ones. *)
Definition small_b s (ino : Z) : bool :=
  let x := inode_at s ino in
  ((0 <? ino) && (ino <? total_inodes (sb s)) && (isize x <=? MAX_BLOCKS * 1024) && (0 <=? isize x) &&
   (0 <=? itype x) && (itype x <? 2 ^ 16) && (0 <=? links x) && (links x <? 2 ^ 16) &&
   (0 <=? iblocks x) && (iblocks x <? 2 ^ 32) && (0 <=? mtime x) && (mtime x <? 2 ^ 32) &&
   (Zlen (direct x) =? 10) && (indirect x =? 0) && (double_indirect x =? 0) &&
   forallb (fun b => (0 <=? b) && (b <? 2 ^ 32) && ((b =? 0) ||
     (data_start (sb s) <=? b) && (b <? total_blocks (sb s)) && used s b)) (direct x) &&
   forallb (fun i => forallb (fun j => (i =? j) || ((direct x).[i] =? 0) ||
     negb ((direct x).[i] =? (direct x).[j])) (seqZ 0 10)) (seqZ 0 10))%bool.

Lemma small_addr s x n : indirect x = 0 -> double_indirect x = 0 ->
  addr s x n = match n with NDirect i => (direct x).[i] | _ => 0 end.
Proof. intros Hi Hd. destruct n; cbn [addr]; rewrite ?Hi, ?Hd; done. Qed.

Lemma small_b_sound s ino : small_b s ino = true -> file_ok s ino.
Proof.
  unfold small_b. rewrite !andb_true_iff, ?Z.leb_le, ?Z.ltb_lt, ?Z.eqb_eq, !forallb_forall.
  set (x := inode_at s ino). intros H. destruct_and! H.
  match goal with H : forall y, In y (direct x) -> _ |- _ => rename H into Hd end.
  match goal with H : forall y, In y (seqZ 0 10) -> _ |- _ => rename H into Hu end.
  assert (Hd' : Forall (fun b => 0 <= b < 2 ^ 32 /\ (b = 0 \/ (b ∈ data_blocks s /\ used s b = true))) (direct x)).
  { apply Forall_forall. intros b Hb. apply list_elem_of_In, Hd in Hb.
    rewrite !andb_true_iff, orb_true_iff, !andb_true_iff, !Z.leb_le, !Z.ltb_lt, Z.eqb_eq in Hb.
    rewrite elem_data_blocks. tauto. }
  assert (Hn : forall i, 0 <= i < 10 -> In i (seqZ 0 10)) by (intros; apply list_elem_of_In, elem_of_seqZ; lia).
  assert (Hx : inode_wf x).
  { unfold inode_wf, MAX_BLOCKS in *. split_and!; try lia; try done. eapply Forall_impl; [exact Hd' | cbn; tauto]. }
  split; fold x; try done. split; [done | |].
  - intros n Hv. rewrite small_addr by done. destruct n as [i | | | | |]; try done. intros H0.
    assert (Hi : direct x !! Z.to_nat i = Some (direct x).[i]).
    { apply list_lookup_lookup_total_lt. cbn [valid] in Hv. unfold Zlen in *. lia. }
    destruct (Forall_lookup_1 _ _ _ _ Hd' Hi) as [_ [? | ?]]; [by destruct H0 | done].
  - intros n m Hn' Hm. rewrite !small_addr by done. destruct n as [i | | | | |]; try done.
    intros H0 E. destruct m as [j | | | | |]; try (by destruct H0). cbn [valid] in Hn', Hm.
    pose proof (proj1 (forallb_forall _ _) (Hu i (Hn i Hn')) j (Hn j Hm)) as Hp. cbn beta in Hp.
    rewrite !orb_true_iff, negb_true_iff, Z.eqb_neq, !Z.eqb_eq in Hp. f_equal. tauto.
Qed.

End check.

Section promises.
Context {D : Type} `{Hdev : BlockDevice D} `{!BlockDeviceLaws D}.

(** C25: the block cache is invisible, whatever the device does.  From a
    coherent state [block_read] returns, when it returns anything, the block as
    it is on the device, and changes no block; after [block_write] the block
    read back is the one written when the write succeeded, and every other
    block reads as before even when it failed.  The cache stays coherent all
    along. *)
Theorem block_cache_transparent (s : fs D) (b c : Z) (buf : list Z) :
  coherent s -> blk_ok s b -> blk_ok s c -> Zlen buf = 1024 ->
  (let '(r, s') := block_read b s in
   coherent s' /\ same_meta s s' /\ same_vol s s' /\ (r = None \/ r = Some (vol s b))) /\
  (let '(ok, s1) := block_write b buf s in
   let '(r, s2) := block_read c s1 in
   coherent s2 /\ same_meta s s2 /\
   (r = None \/ (c = b /\ ok = false) \/ r = Some (if decide (c = b) then buf else vol s c))).
Proof.
  intros Hc Hb Hcb Hl. split.
  - destruct (block_read b s) as [r s'] eqn:E. destruct (block_read_spec s b r s' Hc Hb E) as (? & ? & ? & Hd).
    split_and!; try done. destruct r as [d |]; [right; by rewrite (Hd d eq_refl) | by left].
  - destruct (block_write b buf s) as [ok s1] eqn:E. destruct (block_write_spec s b buf ok s1 Hc Hb Hl E) as (C1 & M1 & F & Hd).
    destruct (block_read c s1) as [r s2] eqn:E2.
    assert (Hc1 : blk_ok s1 c) by (unfold blk_ok; by rewrite (sm_lba _ _ M1)).
    destruct (block_read_spec s1 c r s2 C1 Hc1 E2) as (C2 & M2 & _ & Hd2).
    split_and!; [done | destruct M1, M2; split; congruence |].
    destruct r as [d |]; [right; rewrite (Hd2 d eq_refl) | by left].
    destruct (decide (c = b)) as [-> | Hne]; [| right; by rewrite F].
    destruct ok; [right; by rewrite Hd | by left].
Qed.

(** [block_alloc] on a consistent volume either changes nothing and
    reports the volume full, or takes exactly one block, which was a free data
    block: its bit is set, the free count goes down by one, every block in use
    keeps its bytes, and the block returned is the lowest free one and all
    zeroes.  (The one block can be lost when the device fails to write the
    zeroes: the caller then sees 0.) *)
Theorem block_alloc_correct (s : fs D) :
  alloc_ok s ->
  let '(r, s') := block_alloc s in
  alloc_ok s' /\
  ((r = 0 /\ s' = s /\ forall c, c ∈ data_blocks s -> used s c = true) \/
   exists b, allocated s s' b /\ (forall c, c <> b -> ~ meta_block s c -> vol s' c = vol s c) /\
     (r = 0 \/ (r = b /\ vol s' b = replicate 1024 0 /\ forall d, data_start (sb s) <= d < b -> used s d = true))).
Proof.
  intros Hok. destruct (block_alloc s) as [r s'] eqn:E.
  destruct (block_alloc_spec s r s' Hok E) as [(-> & -> & ?) | (b & ? & F & ? & ?)]; [by split; [| left] |].
  split; [done |]. right. exists b. split_and!; [done | apply F | done].
Qed.

(** [block_free] on a consistent volume gives back a data block in use:
    only its bit is cleared and the free count goes up by one; a block that is
    already free, or is not a data block, changes nothing.  No block outside
    the superblock and the bitmap is written. *)
Theorem block_free_correct (s : fs D) (b : Z) :
  alloc_ok s ->
  let s' := block_free b s in
  alloc_ok s' /\ (forall c, 0 < c -> ~ meta_block s c -> vol s' c = vol s c) /\
  (if decide (b ∈ data_blocks s /\ used s b = true)
   then free_blocks (sb s') = free_blocks (sb s) + 1 /\
        forall c, 0 <= c -> used s' c = (negb (c =? b) && used s c)%bool
   else s' = s).
Proof.
  intros Hok. destruct (block_free_spec s b Hok) as (? & F & Hb).
  split_and!; [done | intros; apply F; [lia | done] |].
  destruct Hb as [(? & ? & ? & ?) | [Hn ->]]; destruct (decide _); try done; tauto.
Qed.

End promises.

Section files.
Context {D : Type} `{Hdev : BlockDevice D} `{!BlockDeviceLaws D} `{!ReliableDevice D}.

(** C2: reading a file.  On a consistent volume and a file whose tree is
    sound, [wfs_read] returns the bytes of the file at the offset asked for,
    cut at the end of the file, holes as zeroes, whether it goes block by block
    or gathers runs of consecutive blocks into one transfer; and nothing on the
    volume changes. *)
Theorem wfs_read_correct (s : fs D) (ino offset len : Z) :
  good s -> file_ok s ino -> 0 <= offset -> 0 <= len -> offset + len < 2 ^ 32 ->
  let n := Z.max 0 (Z.min len (isize (inode_at s ino) - offset)) in
  exists s', wfs_read ino offset len s = (n, bytes s (inode_at s ino) offset n, s') /\ quiet s s'.
Proof. apply wfs_read_spec. Qed.

(** C1: writing a file.  [wfs_write] stores a prefix of the bytes, all of
    them unless the volume is full: the file then has those bytes at that
    offset and its other bytes as before, the gap before a write past the end
    reads as zeroes, the size and the time are as they should be, the tree and
    the volume stay consistent, and no other file that shares no block with it
    changes in any byte or in its inode. *)
Theorem wfs_write_correct (s : fs D) (ino offset : Z) (src : list Z) :
  good s -> file_ok s ino -> 0 <= offset -> offset + Zlen src <= MAX_BLOCKS * 1024 -> 0 <= rtc s < 2 ^ 32 ->
  exists done_ s', wfs_write ino offset src s = (write_returns src done_, s') /\ written s s' ino offset src done_.
Proof. apply wfs_write_spec. Qed.

(** What was written is what is read.  After a [wfs_write] that reports
    all of its bytes, [wfs_read] of the same range returns exactly them. *)
Theorem wfs_write_read (s : fs D) (ino offset : Z) (src : list Z) (s1 : fs D) :
  good s -> file_ok s ino -> 0 <= offset -> offset + Zlen src <= MAX_BLOCKS * 1024 -> 0 <= rtc s < 2 ^ 32 ->
  wfs_write ino offset src s = (Zlen src, s1) ->
  exists s2, wfs_read ino offset (Zlen src) s1 = (Zlen src, src, s2).
Proof.
  intros G Fo Ho Hm Hr E. pose proof (Zlen_nonneg src).
  destruct (wfs_write_spec s ino offset src G Fo Ho Hm Hr) as (d & s' & E' & W).
  rewrite E in E'. injection E' as Hd <-.
  assert (d = Zlen src) as ->.
  { unfold write_returns, W_ENOSPC in Hd. destruct (Z.eqb_spec d 0), (Z.ltb_spec 0 (Zlen src)); cbn [andb] in Hd; lia || done. }
  assert (MAX_BLOCKS * 1024 < 2 ^ 32) by (unfold MAX_BLOCKS; lia).
  destruct (wfs_read_spec s1 ino offset (Zlen src) (wr_good _ _ _ _ _ _ W) (wr_file _ _ _ _ _ _ W) Ho ltac:(lia) ltac:(lia))
    as (s2 & -> & _).
  exists s2. rewrite (wr_size _ _ _ _ _ _ W). rewrite Z.min_l, Z.max_r by lia. do 2 f_equal.
  apply list_eq_get; [rewrite Zlen_bytes by lia; lia |]. rewrite Zlen_bytes by lia. intros k Hk.
  rewrite get_bytes, (wr_bytes _ _ _ _ _ _ W) by lia. unfold patched.
  rewrite (proj2 (Z.leb_le _ _)), (proj2 (Z.ltb_lt _ _)) by lia. cbn [andb]. do 2 f_equal. lia.
Qed.

End files.

(** ** On the sample volume *)

(** The sample volume with a file of 2500 bytes at inode 2. *)
Definition sample_file : fs Ramdisk.ramdisk :=
  let '(_, ino, s) := wfs_create path_a WFS_TYPE_FILE sample_fs in (wfs_write ino 500 (replicate 2000 7) s).2.

Lemma sample_good : good sample_file.
Proof. apply good_b_sound. vm_compute. reflexivity. Qed.

Lemma sample_file_ok : file_ok sample_file 2.
Proof. apply small_b_sound. vm_compute. reflexivity. Qed.

Local Opaque sample_file.

Lemma block_cache_transparent_witness :
  (let '(r, s') := block_read 6 sample_file in
   coherent s' /\ same_meta sample_file s' /\ same_vol sample_file s' /\ (r = None \/ r = Some (vol sample_file 6))) /\
  (let '(ok, s1) := block_write 6 (replicate 1024 9) sample_file in
   let '(r, s2) := block_read 6 s1 in
   coherent s2 /\ same_meta sample_file s2 /\
   (r = None \/ (6 = 6 /\ ok = false) \/ r = Some (if decide (6 = 6) then replicate 1024 9 else vol sample_file 6))).
Proof.
  exact (block_cache_transparent sample_file 6 6 (replicate 1024 9) (ao_coherent _ (gd_alloc _ sample_good))
    ltac:(split; vm_compute; congruence) ltac:(split; vm_compute; congruence) eq_refl).
Defined.

Lemma block_alloc_correct_witness :
  let '(r, s') := block_alloc sample_file in
  alloc_ok s' /\
  ((r = 0 /\ s' = sample_file /\ forall c, c ∈ data_blocks sample_file -> used sample_file c = true) \/
   exists b, allocated sample_file s' b /\
     (forall c, c <> b -> ~ meta_block sample_file c -> vol s' c = vol sample_file c) /\
     (r = 0 \/ (r = b /\ vol s' b = replicate 1024 0 /\
        forall d, data_start (sb sample_file) <= d < b -> used sample_file d = true))).
Proof. exact (block_alloc_correct sample_file (gd_alloc _ sample_good)). Defined.

Lemma block_free_correct_witness :
  let s' := block_free 6 sample_file in
  alloc_ok s' /\ (forall c, 0 < c -> ~ meta_block sample_file c -> vol s' c = vol sample_file c) /\
  (if decide (6 ∈ data_blocks sample_file /\ used sample_file 6 = true)
   then free_blocks (sb s') = free_blocks (sb sample_file) + 1 /\
        forall c, 0 <= c -> used s' c = (negb (c =? 6) && used sample_file c)%bool
   else s' = sample_file).
Proof. exact (block_free_correct sample_file 6 (gd_alloc _ sample_good)). Defined.

Lemma wfs_read_correct_witness :
  let n := Z.max 0 (Z.min 4096 (isize (inode_at sample_file 2) - 100)) in
  n = 2400 /\
  exists s', wfs_read 2 100 4096 sample_file = (n, bytes sample_file (inode_at sample_file 2) 100 n, s') /\
    quiet sample_file s'.
Proof.
  split; [vm_compute; reflexivity |].
  apply (wfs_read_correct sample_file 2 100 4096 sample_good sample_file_ok); lia.
Defined.

Lemma wfs_write_correct_witness :
  exists done_ s', wfs_write 2 3000 (replicate 100 5) sample_file = (write_returns (replicate 100 5) done_, s') /\
    written sample_file s' 2 3000 (replicate 100 5) done_.
Proof.
  apply (wfs_write_correct sample_file 2 3000 (replicate 100 5) sample_good sample_file_ok);
    [lia | vm_compute; congruence | split; vm_compute; congruence].
Defined.

Lemma sample_write : wfs_write 2 3000 (replicate 100 5) sample_file =
  (Zlen (replicate 100 5), (wfs_write 2 3000 (replicate 100 5) sample_file).2).
Proof. apply pair_of_fst. vm_compute. reflexivity. Qed.

Lemma wfs_write_read_witness :
  let src := replicate 100 5 in
  exists s2, wfs_read 2 3000 (Zlen src) (wfs_write 2 3000 src sample_file).2 = (Zlen src, src, s2).
Proof.
  refine (wfs_write_read sample_file 2 3000 (replicate 100 5) _ sample_good sample_file_ok _ _ _ sample_write).
  - lia.
  - vm_compute. congruence.
  - split; vm_compute; congruence.
Defined.

End WfsSpec.
