(* ===== verification/WfsDirSpec.v ===== *)
(** WFS directories as finite maps: the entry operations of
    [kernel/fs/wfs.c] ([dir_find], [dir_add], [dir_remove], [dir_is_empty],
    [wfs_readdir]) against the map from names to inode numbers a directory
    stands for. *)

From S2P Require Import Prelude Str Device Ramdisk Wfs WfsFile WfsDir.

Module WfsDirSpec.
Import Str Wfs WfsFile WfsDir.

(** ** Entries *)

(** A name that fits an entry. *)
Definition name_ok (name : list Z) : Prop := Zlen name <= WFS_NAME_MAX /\ Forall (fun c => c <> 0) name.

Lemma cstr_zeros name n : Forall (fun c => c <> 0) name -> cstr (name ++ replicate n 0) = name.
Proof.
  induction 1 as [| c name Hc _ IH]; cbn [app cstr]; [by destruct n |].
  rewrite (proj2 (Z.eqb_neq c 0)) by done. by rewrite IH.
Qed.

Lemma make_ent_spec ino name :
  0 <= ino < 2 ^ 32 -> name_ok name ->
  ent_ino (make_ent ino name) = ino /\ ent_name (make_ent ino name) = name /\ Zlen (make_ent ino name) = 32.
Proof.
  intros Hi [Hl Hn]. unfold WFS_NAME_MAX in Hl. pose proof (Zlen_nonneg name).
  assert (Es : slice 0 WFS_NAME_MAX name = name).
  { unfold slice, WFS_NAME_MAX. rewrite drop_0. apply take_ge. unfold Zlen in *. lia. }
  assert (E : make_ent ino name = put32 ino ++ name ++ replicate (28 - length name) 0).
  { unfold make_ent, splice. rewrite Es. change (Z.to_nat 0) with 0%nat. cbn [take app Nat.add]. by rewrite drop_replicate. }
  rewrite E. split_and!.
  - by apply le32_put32.
  - unfold ent_name. change (drop 4 (put32 ino ++ ?l)) with l. by apply cstr_zeros.
  - rewrite !Zlen_app. change (Zlen (put32 ino)) with 4. unfold Zlen in *. rewrite length_replicate. lia.
Qed.

(** *** Lists of entries as maps *)

(** What a list of entries says of a name. *)
Definition look (l : list (list Z)) (name : list Z) : option Z :=
  match list_find (fun e => named name e = true) l with Some (_, e) => Some (ent_ino e) | None => None end.

Definition distinct (l : list (list Z)) : Prop :=
  forall i j e e', l !! i = Some e -> l !! j = Some e' -> ent_ino e <> 0 -> ent_ino e' <> 0 -> ent_name e = ent_name e' -> i = j.

(** Storing an entry in slot [k], which may be the first one past the end. *)
Definition put (k : nat) (e : list Z) (l : list (list Z)) : list (list Z) := take k l ++ e :: drop (S k) l.

Lemma named_true name e : named name e = true <-> ent_ino e <> 0 /\ ent_name e = name.
Proof. unfold named, WFS_INVALID_INO. rewrite andb_true_iff, negb_true_iff, Z.eqb_neq, bool_decide_eq_true. done. Qed.

Lemma look_Some l name i :
  distinct l -> look l name = Some i <-> exists k e, l !! k = Some e /\ ent_ino e = i /\ i <> 0 /\ ent_name e = name.
Proof.
  intros Hd. unfold look. destruct (list_find _ l) as [[k e] |] eqn:E.
  - apply list_find_Some in E as (Hk & He & _). apply named_true in He as [He Hn]. split.
    + intros [= <-]. by exists k, e.
    + intros (k' & e' & Hk' & <- & Hi & Hn'). rewrite (Hd k k' e e') in Hk by congruence. congruence.
  - split; [done |]. intros (k & e & Hk & <- & Hi & Hn). apply list_find_None in E. rewrite Forall_lookup in E.
    destruct (E k e Hk). by apply named_true.
Qed.

Lemma look_None l name : look l name = None <-> forall k e, l !! k = Some e -> ent_ino e <> 0 -> ent_name e <> name.
Proof.
  unfold look. destruct (list_find _ l) as [[k e] |] eqn:E.
  - split; [done |]. apply list_find_Some in E as (Hk & He & _). apply named_true in He as [He Hn]. intros Hall. by destruct (Hall k e).
  - split; [| done]. intros _ k e Hk Hi Hn. apply list_find_None in E. rewrite Forall_lookup in E.
    destruct (E k e Hk). by apply named_true.
Qed.

Lemma lookup_put k e l j :
  (k <= length l)%nat -> put k e l !! j = if decide (j = k) then Some e else l !! j.
Proof.
  intros Hk. unfold put. destruct (decide (j = k)) as [-> | Hne].
  - rewrite lookup_app_r, length_take_le, Nat.sub_diag by (rewrite ?length_take_le; lia). done.
  - destruct (decide (j < k)%nat).
    + rewrite lookup_app_l, lookup_take, decide_True by (rewrite ?length_take_le; lia). done.
    + rewrite lookup_app_r, length_take_le by (rewrite ?length_take_le; lia).
      destruct (j - k)%nat as [| m] eqn:Em; [lia |]. change ((e :: drop (S k) l) !! S m) with (drop (S k) l !! m). rewrite lookup_drop. f_equal. lia.
Qed.

(** A slot without an entry takes one, or loses the one it has: [e] is the new
    entry, and the name it had is [name]. *)
Lemma look_put k e l :
  distinct l -> (k <= length l)%nat -> (forall e0, l !! k = Some e0 -> ent_ino e0 = 0) ->
  ent_ino e <> 0 -> look l (ent_name e) = None ->
  distinct (put k e l) /\ forall n, look (put k e l) n = if decide (n = ent_name e) then Some (ent_ino e) else look l n.
Proof.
  intros Hd Hk Hfree Hi Hnone.
  assert (Hd' : distinct (put k e l)).
  { intros i j x y. rewrite !lookup_put by done. rewrite look_None in Hnone.
    destruct (decide (i = k)) as [-> |], (decide (j = k)) as [-> |]; intros; simplify_eq; try done.
    - exfalso. by apply (Hnone j y).
    - exfalso. by apply (Hnone i x).
    - by apply (Hd i j x y). }
  split; [done |]. intros n. apply option_eq. intros i. rewrite look_Some by done.
  destruct (decide (n = ent_name e)) as [-> | Hn].
  - split.
    + intros (j & x & Hj & <- & Hx & En). rewrite lookup_put in Hj by done. destruct (decide (j = k)); [congruence |].
      rewrite look_None in Hnone. by destruct (Hnone j x).
    + intros [= <-]. exists k, e. split_and!; try done. rewrite lookup_put by done. by rewrite decide_True.
  - rewrite look_Some by done. split; intros (j & x & Hj & <- & Hx & En); exists j, x; split_and!; try done.
    + rewrite lookup_put in Hj by done. destruct (decide (j = k)); [congruence | done].
    + rewrite lookup_put by done. destruct (decide (j = k)) as [-> |]; [by rewrite (Hfree x) in Hx | done].
Qed.

Lemma look_clear k e z l :
  distinct l -> l !! k = Some e -> ent_ino e <> 0 -> ent_ino z = 0 ->
  distinct (put k z l) /\ forall n, look (put k z l) n = if decide (n = ent_name e) then None else look l n.
Proof.
  intros Hd Hk Hi Hz. pose proof (lookup_lt_Some _ _ _ Hk) as Hlt.
  assert (Hd' : distinct (put k z l)).
  { intros i j x y. rewrite !lookup_put by lia. destruct (decide (i = k)), (decide (j = k)); intros; simplify_eq; try done.
    by apply (Hd i j x y). }
  split; [done |]. intros n. apply option_eq. intros i. rewrite look_Some by done.
  destruct (decide (n = ent_name e)) as [-> | Hn].
  - split; [| done]. intros (j & x & Hj & <- & Hx & En). rewrite lookup_put in Hj by lia.
    destruct (decide (j = k)) as [-> | Hne]; [simplify_eq |]. by destruct Hne; apply (Hd j k x e).
  - rewrite look_Some by done. split; intros (j & x & Hj & <- & Hx & En); exists j, x; split_and!; try done.
    + rewrite lookup_put in Hj by lia. destruct (decide (j = k)); [congruence | done].
    + rewrite lookup_put by lia. destruct (decide (j = k)) as [-> |]; [congruence | done].
Qed.

Section dirs.
Context {D : Type} `{Hdev : BlockDevice D} `{!BlockDeviceLaws D} `{!ReliableDevice D}.
Implicit Types s : fs D.

(** The 32 bytes of slot [k] of the directory, and all the slots. *)
Definition slot_at s (d k : Z) : list Z := bytes s (inode_at s d) (32 * k) 32.
Definition slots s (d : Z) : list (list Z) := slot_at s d <$> seqZ 0 (isize (inode_at s d) / 32).

(** What the directory says of a name. *)
Definition entry s (d : Z) : list Z -> option Z := look (slots s d).

(** A directory the operations can work with: its slots fill it, every one of
    them is in a block that is there, and no name is in two of them. *)
Record dir_ok s (d : Z) : Prop := {
  do_file : file_ok s d;
  do_type : itype (inode_at s d) = WFS_TYPE_DIR;
  do_size : isize (inode_at s d) `mod` 32 = 0;
  do_there : forall k, 0 <= k < isize (inode_at s d) / 32 -> addr s (inode_at s d) (node_of (32 * k / 1024)) <> 0;
  do_once : distinct (slots s d);
}.

Lemma lookup_slots s d (k : nat) e :
  slots s d !! k = Some e <-> (Z.of_nat k < isize (inode_at s d) / 32 /\ e = slot_at s d (Z.of_nat k)).
Proof.
  unfold slots. rewrite list_lookup_fmap, fmap_Some. split.
  - intros (j & Hj & ->). apply lookup_seqZ in Hj as [-> Hj]. by rewrite Z.add_0_l.
  - intros [Hk ->]. exists (Z.of_nat k). split; [| done]. rewrite lookup_seqZ. lia.
Qed.

Lemma length_slots s d : 0 <= isize (inode_at s d) -> Z.of_nat (length (slots s d)) = isize (inode_at s d) / 32.
Proof. intros. unfold slots. rewrite length_fmap, length_seqZ. zlia. Qed.

Lemma Zlen_slot s d k : Zlen (slot_at s d k) = 32.
Proof. by apply Zlen_bytes. Qed.

(** ** Walking *)

Lemma inode_at_quiet s s' ino : quiet s s' -> inode_at s' ino = inode_at s ino.
Proof. intros Q. unfold inode_at, inode_block. rewrite (sm_sb _ _ (qt_meta _ _ Q)). f_equal. f_equal. apply Q. Qed.

Lemma file_ok_quiet s s' ino : quiet s s' -> file_ok s ino -> file_ok s' ino.
Proof.
  intros Q [Hi Hw Hz T]. split; rewrite ?(inode_at_quiet _ _ _ Q); try done; [| by apply (quiet_tree s)].
  unfold good_ino. by rewrite (sm_sb _ _ (qt_meta _ _ Q)).
Qed.

Lemma slot_at_quiet s s' d k :
  quiet s s' -> file_ok s d -> 0 <= k < isize (inode_at s d) / 32 -> slot_at s' d k = slot_at s d k.
Proof.
  intros Q [_ _ Hz _] Hk. unfold slot_at. rewrite (inode_at_quiet _ _ _ Q). apply bytes_quiet; [done | zlia..].
Qed.

Lemma slots_quiet s s' d : quiet s s' -> file_ok s d -> slots s' d = slots s d.
Proof.
  intros Q F. unfold slots. rewrite (inode_at_quiet _ _ _ Q). apply list_fmap_ext.
  intros i k Hk. apply lookup_seqZ in Hk. apply slot_at_quiet; [done.. |]. lia.
Qed.

Lemma splice_whole (new l : list Z) : Zlen new = Zlen l -> splice 0 new l = new.
Proof. intros. unfold splice. rewrite take_0, drop_ge, app_nil_r; [done |]. unfold Zlen in *. lia. Qed.

Lemma read_ent_spec s d k ent :
  good s -> file_ok s d -> isize (inode_at s d) `mod` 32 = 0 -> 0 <= k < isize (inode_at s d) / 32 -> Zlen ent = 32 ->
  exists s', read_ent d (32 * k) ent s = (32, slot_at s d k, s') /\ quiet s s'.
Proof.
  intros G F Hm Hk He. unfold read_ent, WFS_DIRENT_SIZE. pose proof (fo_size _ _ F).
  assert (MAX_BLOCKS * 1024 < 2 ^ 31) by (unfold MAX_BLOCKS; lia).
  destruct (wfs_read_spec s d (32 * k) 32 G F ltac:(lia) ltac:(lia) ltac:(zlia)) as (s' & -> & Q).
  exists s'. split; [| done]. rewrite Z.min_l, Z.max_r by zlia. fold (slot_at s d k).
  by rewrite splice_whole by (by rewrite Zlen_slot).
Qed.

Lemma dir_walk_spec p d : forall fuel k ent s,
  good s -> file_ok s d -> isize (inode_at s d) `mod` 32 = 0 -> Zlen ent = 32 ->
  (Z.to_nat (isize (inode_at s d) / 32) < fuel + k)%nat ->
  exists s', dir_walk fuel p d (isize (inode_at s d)) (32 * Z.of_nat k) ent s =
    (match list_find (fun e => p e = true) (drop k (slots s d)) with
     | Some (i, e) => Some (32 * Z.of_nat (k + i), e) | None => None end, s') /\ quiet s s'.
Proof.
  induction fuel as [| fuel IH]; intros k ent s G F Hm He Hf; cbn [dir_walk].
  all: destruct (fo_wf _ _ F) as (_ & _ & Hz & _); pose proof (length_slots s d ltac:(lia)) as Hl.
  { rewrite drop_ge by lia. exists s. split; [done | by apply quiet_refl]. }
  destruct (Z.ltb_spec (32 * Z.of_nat k) (isize (inode_at s d))).
  2: { rewrite drop_ge by zlia. exists s. split; [done | by apply quiet_refl]. }
  assert (Hk : 0 <= Z.of_nat k < isize (inode_at s d) / 32) by zlia.
  destruct (read_ent_spec s d (Z.of_nat k) ent G F Hm Hk He) as (s1 & -> & Q). cbn [Z.leb Z.compare].
  assert (Hs : slots s d !! k = Some (slot_at s d (Z.of_nat k))) by (apply lookup_slots; split; [lia | done]).
  rewrite (drop_S _ _ _ Hs). cbn [list_find]. destruct (p (slot_at s d (Z.of_nat k))) eqn:Ep.
  { rewrite decide_True by done. exists s1. split; [| done]. by rewrite Nat.add_0_r. }
  rewrite decide_False by done. pose proof (fo_size _ _ F). assert (MAX_BLOCKS * 1024 < 2 ^ 31) by (unfold MAX_BLOCKS; lia).
  unfold WFS_DIRENT_SIZE. rewrite u32_id by lia. replace (32 * Z.of_nat k + 32) with (32 * Z.of_nat (S k)) by lia.
  destruct (IH (S k) (slot_at s d (Z.of_nat k)) s1) as (s2 & E & Q2);
    rewrite ?(inode_at_quiet _ _ _ Q); try done; try lia; [apply Q | by apply (file_ok_quiet s) |].
  rewrite (inode_at_quiet _ _ _ Q) in E. rewrite E. exists s2. split; [| by apply (quiet_trans _ s1)].
  rewrite (slots_quiet _ _ _ Q F). f_equal.
  destruct (list_find _ (drop (S k) (slots s d))) as [[i e] |]; cbn; [| done]. do 3 f_equal. lia.
Qed.

(** From the start, as every operation but [wfs_readdir] walks. *)
Lemma dir_walk_all p s d :
  good s -> file_ok s d -> isize (inode_at s d) `mod` 32 = 0 ->
  exists s', dir_walk (dir_fuel (isize (inode_at s d))) p d (isize (inode_at s d)) 0 no_ent s =
    (match list_find (fun e => p e = true) (slots s d) with
     | Some (i, e) => Some (32 * Z.of_nat i, e) | None => None end, s') /\ quiet s s'.
Proof.
  intros G F Hm. destruct (fo_wf _ _ F) as (_ & _ & Hz & _).
  destruct (dir_walk_spec p d (dir_fuel (isize (inode_at s d))) 0 no_ent s G F Hm eq_refl) as (s' & E & Q);
    [unfold dir_fuel, WFS_DIRENT_SIZE; zlia |]. by exists s'.
Qed.

(** ** Storing an entry *)

(** The slots after a write of one. *)
Lemma slots_written s s' d k e n :
  good s -> file_ok s d -> isize (inode_at s d) `mod` 32 = 0 -> 0 <= k <= isize (inode_at s d) / 32 -> Zlen e = 32 ->
  32 * k + 32 <= MAX_BLOCKS * 1024 -> written s s' d (32 * k) e n -> n = 0 \/ n = 32 ->
  isize (inode_at s' d) `mod` 32 = 0 /\
  slots s' d = if n =? 0 then slots s d else put (Z.to_nat k) e (slots s d).
Proof.
  intros G F Hm Hk He Hmax W Hn. pose proof (wr_size _ _ _ _ _ _ W) as Hsz. destruct (fo_wf _ _ F) as (_ & _ & Hz & _).
  pose proof (fo_size _ _ F) as Hfs. pose proof (fo_size _ _ (wr_file _ _ _ _ _ _ W)) as Hfs'.
  assert (Hslot : forall j, 0 <= j < isize (inode_at s' d) / 32 -> slot_at s' d j = if (negb (n =? 0) && (j =? k))%bool then e else slot_at s d j).
  { intros j Hj. apply list_eq_get; [rewrite Zlen_slot; case_match; by rewrite ?Zlen_slot |]. rewrite Zlen_slot. intros i Hi. unfold slot_at at 1.
    rewrite get_bytes, (wr_bytes _ _ _ _ _ _ W) by zlia. unfold patched.
    destruct (Z.eqb_spec n 0), (Z.eqb_spec j k), (Z.leb_spec (32 * k) (32 * j + i)), (Z.ltb_spec (32 * j + i) (32 * k + n)); cbn [negb andb];
      try lia; try (unfold slot_at; by rewrite get_bytes by lia). f_equal. f_equal. lia. }
  split; [rewrite Hsz; zlia |]. pose proof (length_slots s d ltac:(lia)) as Hl.
  apply list_eq. intros j. destruct (Z.eqb_spec n 0) as [Hn0 | Hn0].
  - apply option_eq. intros x. rewrite !lookup_slots. rewrite Hsz, Z.max_l by zlia. split; intros [Hj ->]; (split; [done |]).
    + rewrite Hslot; [done |]. rewrite Hsz. zlia.
    + rewrite Hslot; [done |]. rewrite Hsz. zlia.
  - rewrite lookup_put by lia. apply option_eq. intros x. rewrite lookup_slots.
    destruct (decide (j = Z.to_nat k)) as [-> | Hne].
    + rewrite Z2Nat.id by lia. split; [intros [Hj ->] | intros [= <-]; split; [rewrite Hsz; zlia |]];
        rewrite Hslot by (rewrite Hsz; zlia); rewrite Z.eqb_refl; by destruct Hn as [-> | ->].
    + rewrite lookup_slots. split; intros [Hj ->]; (split; [rewrite Hsz in *; zlia |]); rewrite Hslot by (rewrite Hsz in *; zlia);
        destruct (Z.eqb_spec (Z.of_nat j) k); try lia; by rewrite andb_false_r.
Qed.

(** What an operation on the directory [d] does to the volume around it. *)
Record touched s s' (d : Z) : Prop := {
  tc_good : good s';
  tc_layout : same_layout s s';
  tc_file : file_ok s' d;
  tc_type : itype (inode_at s' d) = itype (inode_at s d);
  tc_inodes : forall j, good_ino s j -> j <> d -> inode_at s' j = inode_at s j;
  tc_others : others_same s s' d;
}.

Lemma written_touched s s' d off src n : written s s' d off src n -> touched s s' d.
Proof. intros W. split; apply W. Qed.

Lemma quiet_touched s s' d : quiet s s' -> file_ok s d -> touched s s' d.
Proof.
  intros Q F. split; [apply Q | by apply quiet_layout | by apply (file_ok_quiet s) | by rewrite (inode_at_quiet _ _ _ Q) | |].
  - intros j _ _. by apply inode_at_quiet.
  - intros j Hj Fj Hs. rewrite (inode_at_quiet _ _ _ Q). split_and!; [by apply (file_ok_quiet s) | | done | |].
    + intros n m Hn Hm. rewrite !(inode_at_quiet _ _ _ Q), !(quiet_addr _ _ _ Q) by done. by apply Hs.
    + intros n Hn. by apply quiet_addr.
    + intros k Hk. by apply (ext_quiet _ _ _ Q (fo_tree _ _ Fj)).
Qed.

Lemma touched_trans s1 s2 s3 d : touched s1 s2 d -> touched s2 s3 d -> touched s1 s3 d.
Proof.
  intros [G L F T I O] [G' L' F' T' I' O']. split; try done; [by eapply same_layout_trans | congruence | |].
  - intros j Hj Hne. rewrite I', I; try done. unfold good_ino. by rewrite (sl_total_inodes _ _ L).
  - intros j Hj Fj Hs. destruct (O j Hj Fj Hs) as (F1 & S1 & E1 & A1 & C1). destruct (O' j Hj F1 S1) as (F2 & S2 & E2 & A2 & C2).
    split_and!; [done | done | congruence | |]; intros; [rewrite A2, A1 | rewrite C2, C1]; done.
Qed.

Lemma hole_slot s d k : addr s (inode_at s d) (node_of (32 * k / 1024)) = 0 -> 0 <= k -> ent_ino (slot_at s d k) = 0.
Proof.
  intros Ha Hk. unfold ent_ino, le32, slot_at. rewrite !get_bytes by lia.
  assert (E : forall i, 0 <= i < 32 -> content s (inode_at s d) (32 * k + i) = 0).
  { intros i Hi. unfold content. replace ((32 * k + i) / 1024) with (32 * k / 1024) by zlia. by rewrite Ha. }
  by rewrite !E by lia.
Qed.

(** Writing one entry: it is stored, or the directory had to grow and could
    not. *)
Lemma store_ent s d k e :
  good s -> dir_ok s d -> 0 <= rtc s < 2 ^ 32 -> 0 <= k <= isize (inode_at s d) / 32 -> Zlen e = 32 ->
  (k = isize (inode_at s d) / 32 -> ent_ino e <> 0) ->
  exists r s', wfs_write d (32 * k) e s = (r, s') /\ touched s s' d /\
    isize (inode_at s' d) `mod` 32 = 0 /\
    (forall j, 0 <= j < isize (inode_at s' d) / 32 -> addr s' (inode_at s' d) (node_of (32 * j / 1024)) <> 0) /\
    ((r = 32 /\ slots s' d = put (Z.to_nat k) e (slots s d)) \/
     (k = isize (inode_at s d) / 32 /\ slots s' d = slots s d /\ (r = - W_EFBIG \/ r = - W_ENOSPC /\ full s'))).
Proof.
  intros G [F Ty Hm Hth Hon] Hr Hk He Hap. pose proof (fo_size _ _ F) as Hfs. destruct (fo_wf _ _ F) as (_ & _ & Hz & _).
  assert (Hmb : MAX_BLOCKS * 1024 < 2 ^ 31) by (unfold MAX_BLOCKS; lia).
  destruct (Z.ltb_spec (MAX_BLOCKS * 1024) (32 * k + 32)) as [Hbig | Hfit].
  - destruct (read_inode_spec s d G (fo_ino _ _ F)) as (s1 & E & Q). exists (- W_EFBIG), s1.
    split_and!; [| by apply quiet_touched | by rewrite (inode_at_quiet _ _ _ Q) | | right].
    + unfold wfs_write. rewrite E. cbn [Z.ltb Z.compare]. rewrite He, u32_id by zlia. change WFS_MAX_FILE_SIZE with (MAX_BLOCKS * 1024).
      by rewrite (proj2 (Z.ltb_lt _ _)) by lia.
    + intros j Hj. rewrite (inode_at_quiet _ _ _ Q) in *. rewrite (quiet_addr _ _ _ Q); [by apply Hth |]. apply node_of_valid. zlia.
    + split_and!; [zlia | by apply slots_quiet | by left].
  - destruct (wfs_write_spec s d (32 * k) e G F ltac:(lia) ltac:(lia) Hr) as (n & s' & E & W).
    destruct (wr_block _ _ _ _ _ _ W ltac:(zlia)) as [Hn Hall]. rewrite He in Hn, Hall.
    destruct (slots_written s s' d k e n G F Hm Hk He Hfit W Hn) as [Hm' Hs']. eexists _, s'. split; [exact E |].
    pose proof (wr_size _ _ _ _ _ _ W) as Hsz.
    split_and!; [by eapply written_touched | done | |].
    + intros j Hj. assert (Hv : valid (node_of (32 * j / 1024))) by (pose proof (fo_size _ _ (wr_file _ _ _ _ _ _ W)); apply node_of_valid; zlia).
      destruct (decide (j < isize (inode_at s d) / 32)) as [Hlt | Hge].
      { rewrite (wr_keep _ _ _ _ _ _ W) by (done || apply Hth; lia). apply Hth. lia. }
      assert (n = 32 /\ j = k) as [-> ->] by (destruct Hn as [-> | ->]; zlia). intros H0. apply Hap; [zlia |].
      rewrite <- (hole_slot s' d k H0 ltac:(lia)). assert (Hin : slots s' d !! Z.to_nat k = Some e).
      { rewrite Hs'. cbn [Z.eqb]. rewrite lookup_put, decide_True; [done.. |]. pose proof (length_slots s d ltac:(lia)). lia. }
      apply lookup_slots in Hin as [_ ->]. by rewrite Z2Nat.id by lia.
    + unfold write_returns. rewrite He. destruct Hn as [-> | ->]; [right | left; by rewrite Hs'].
      assert (k = isize (inode_at s d) / 32).
      { destruct (decide (k = isize (inode_at s d) / 32)); [done |]. specialize (Hall (Hth k ltac:(lia))). lia. }
      split_and!; [done | by rewrite Hs' |]. right. split; [done |]. destruct (wr_all _ _ _ _ _ _ W); [lia | done].
Qed.

(** ** The operations *)

Lemma dir_ok_quiet s s' d : quiet s s' -> dir_ok s d -> dir_ok s' d.
Proof.
  intros Q [F Ty Hm Hth Hon]. split; rewrite ?(inode_at_quiet _ _ _ Q), ?(slots_quiet _ _ _ Q F); try done; [by apply (file_ok_quiet s) |].
  intros k Hk. rewrite (quiet_addr _ _ _ Q); [by apply Hth |]. apply node_of_valid. pose proof (fo_size _ _ F). zlia.
Qed.

Lemma entry_quiet s s' d n : quiet s s' -> file_ok s d -> entry s' d n = entry s d n.
Proof. intros Q F. unfold entry. by rewrite (slots_quiet _ _ _ Q F). Qed.

Lemma dir_find_spec s d name :
  good s -> dir_ok s d ->
  exists s', dir_find d name s = (match entry s d name with Some i => (0, i) | None => (- W_ENOENT, 0) end, s') /\ quiet s s'.
Proof.
  intros G [F Ty Hm _ _]. unfold dir_find. destruct (read_inode_spec s d G (fo_ino _ _ F)) as (s1 & -> & Q). cbn [Z.ltb Z.compare].
  rewrite Ty. cbn [negb Z.eqb]. unfold WFS_TYPE_DIR. cbn [negb Z.eqb Pos.eqb].
  destruct (dir_walk_all (named name) s1 d) as (s2 & E & Q2);
    rewrite ?(inode_at_quiet _ _ _ Q); try done; [apply Q | by apply (file_ok_quiet s) |].
  rewrite (inode_at_quiet _ _ _ Q), (slots_quiet _ _ _ Q F) in E. rewrite E. exists s2. split; [| by apply (quiet_trans _ s1)].
  unfold entry, look. by destruct (list_find _ (slots s d)) as [[i e] |].
Qed.

Lemma dir_find_notdir s d name :
  good s -> good_ino s d -> itype (inode_at s d) <> WFS_TYPE_DIR ->
  exists s', dir_find d name s = (- W_ENOTDIR, 0, s') /\ quiet s s'.
Proof.
  intros G Hi Ty. unfold dir_find. destruct (read_inode_spec s d G Hi) as (s1 & -> & Q). cbn [Z.ltb Z.compare].
  rewrite (proj2 (Z.eqb_neq _ _)) by done. by exists s1.
Qed.

Lemma touched_dir_ok s s' d :
  touched s s' d -> itype (inode_at s d) = WFS_TYPE_DIR -> isize (inode_at s' d) `mod` 32 = 0 ->
  (forall j, 0 <= j < isize (inode_at s' d) / 32 -> addr s' (inode_at s' d) (node_of (32 * j / 1024)) <> 0) ->
  distinct (slots s' d) -> dir_ok s' d.
Proof. intros T Ty Hm Hth Hd. split; try done; [apply T | by rewrite (tc_type _ _ _ T)]. Qed.

(** What [dir_add] may return when it does not add: the directory is as big as
    a file can be, or the volume is full. *)
Definition no_room (r : Z) s' : Prop := r = - W_EFBIG \/ (r = - W_ENOSPC /\ full s').

Lemma dir_add_spec s d name ino :
  good s -> dir_ok s d -> 0 <= rtc s < 2 ^ 32 -> name_ok name -> 0 < ino < 2 ^ 32 -> entry s d name = None ->
  exists r s', dir_add d name ino s = (r, s') /\ touched s s' d /\ dir_ok s' d /\
    ((r = 0 /\ forall n, entry s' d n = if decide (n = name) then Some ino else entry s d n) \/
     (no_room r s' /\ (forall n, entry s' d n = entry s d n) /\ Forall (fun e => ent_ino e <> 0) (slots s d))).
Proof.
  intros G Hd Hr Hn Hi Hnone. pose proof Hd as [F Ty Hm Hth Hon]. unfold dir_add.
  rewrite (proj2 (Z.ltb_ge _ _)) by apply Hn. destruct (read_inode_spec s d G (fo_ino _ _ F)) as (s1 & -> & Q). cbn [Z.ltb Z.compare].
  destruct (dir_walk_all (fun ent => ent_ino ent =? WFS_INVALID_INO) s1 d) as (s2 & E & Q2);
    rewrite ?(inode_at_quiet _ _ _ Q); try done; [apply Q | by apply (file_ok_quiet s) |].
  rewrite (inode_at_quiet _ _ _ Q), (slots_quiet _ _ _ Q F) in E. rewrite E.
  pose proof (quiet_trans _ _ _ Q Q2) as Q'. clear E. destruct (make_ent_spec ino name ltac:(lia) Hn) as (Ei & En & El).
  destruct (fo_wf _ _ F) as (_ & _ & Hz & _). pose proof (length_slots s d ltac:(lia)) as Hl.
  set (k := match list_find (fun e => (ent_ino e =? WFS_INVALID_INO) = true) (slots s d) with Some (i, _) => Z.of_nat i | None => isize (inode_at s d) / 32 end).
  assert (Hk : 0 <= k <= isize (inode_at s d) / 32 /\ (forall e0, slots s d !! Z.to_nat k = Some e0 -> ent_ino e0 = 0) /\
    (k = isize (inode_at s d) / 32 -> Forall (fun e => ent_ino e <> 0) (slots s d))).
  { unfold k. destruct (list_find _ (slots s d)) as [[i e] |] eqn:Ef.
    - apply list_find_Some in Ef as (Hi' & Hfree & _). apply Z.eqb_eq in Hfree. pose proof (lookup_lt_Some _ _ _ Hi').
      split_and!; try lia. intros e0. rewrite Nat2Z.id, Hi'. by intros [= <-].
    - apply list_find_None in Ef. split_and!; try zlia.
      + intros e0 He0. apply lookup_lt_Some in He0. lia.
      + intros _. eapply Forall_impl; [exact Ef |]. cbn. intros e He. by rewrite Z.eqb_eq in He. }
  destruct Hk as (Hk & Hfree & Hfull).
  replace (match match list_find _ (slots s d) with Some _ => _ | None => _ end with Some _ => _ | None => _ end) with (32 * k).
  2: { unfold k. destruct (list_find _ (slots s d)) as [[i e] |]; [done |]. zlia. }
  clearbody k. destruct (store_ent s2 d k (make_ent ino name)) as (r & s3 & E & T & Hm' & Hth' & Hcase);
    rewrite ?(inode_at_quiet _ _ _ Q'), ?(sm_rtc _ _ (qt_meta _ _ Q')); try done; [apply Q' | by apply (dir_ok_quiet s) | intros _; lia |].
  rewrite E. rewrite (inode_at_quiet _ _ _ Q'), (slots_quiet _ _ _ Q' F) in Hcase.
  assert (T' : touched s s3 d) by (eapply touched_trans; [by apply (quiet_touched s s2) | done]).
  eexists _, s3. split; [done |]. split; [done |].
  destruct Hcase as [[-> Hs] | (-> & Hs & Hno)].
  - destruct (look_put (Z.to_nat k) (make_ent ino name) (slots s d)) as [Hd' Hlook]; try done; [lia | lia | by rewrite En |].
    split; [apply (touched_dir_ok s); try done; by rewrite Hs |]. left. split; [done |]. intros n. unfold entry.
    rewrite Hs, Hlook, En, Ei. done.
  - split; [apply (touched_dir_ok s); try done; by rewrite Hs |]. right. split_and!; [| intros n; unfold entry; by rewrite Hs | by apply Hfull].
    destruct Hno as [-> | [-> ?]]; [by left | by right].
Qed.

Lemma dir_remove_spec s d name :
  good s -> dir_ok s d -> 0 <= rtc s < 2 ^ 32 ->
  exists s', dir_remove d name s = (match entry s d name with Some _ => 0 | None => - W_ENOENT end, s') /\ touched s s' d /\ dir_ok s' d /\
    (forall n, entry s' d n = if decide (n = name) then None else entry s d n) /\
    (entry s d name <> None -> ~ Forall (fun e => ent_ino e <> 0) (slots s' d)).
Proof.
  intros G Hd Hr. pose proof Hd as [F Ty Hm Hth Hon]. unfold dir_remove.
  destruct (read_inode_spec s d G (fo_ino _ _ F)) as (s1 & -> & Q). cbn [Z.ltb Z.compare].
  destruct (dir_walk_all (named name) s1 d) as (s2 & E & Q2);
    rewrite ?(inode_at_quiet _ _ _ Q); try done; [apply Q | by apply (file_ok_quiet s) |].
  rewrite (inode_at_quiet _ _ _ Q), (slots_quiet _ _ _ Q F) in E. rewrite E.
  pose proof (quiet_trans _ _ _ Q Q2) as Q'. clear E.
  replace (entry s d name) with (match list_find (fun e => named name e = true) (slots s d) with Some (_, e) => Some (ent_ino e) | None => None end) by done.
  unfold entry. destruct (list_find _ (slots s d)) as [[i e] |] eqn:Ef.
  - apply list_find_Some in Ef as (Hi & Hnm & _). apply named_true in Hnm as [He Hn].
    pose proof (proj1 (lookup_slots s d i e) Hi) as [Hlt _].
    destruct (store_ent s2 d (Z.of_nat i) (replicate 32 0)) as (r & s3 & E & T & Hm' & Hth' & Hcase);
      rewrite ?(inode_at_quiet _ _ _ Q'), ?(sm_rtc _ _ (qt_meta _ _ Q')); try done; try lia; [apply Q' | by apply (dir_ok_quiet s) |].
    rewrite E. rewrite (inode_at_quiet _ _ _ Q'), (slots_quiet _ _ _ Q' F), Nat2Z.id in Hcase.
    assert (T' : touched s s3 d) by (eapply touched_trans; [by apply (quiet_touched s s2) | done]).
    destruct Hcase as [[-> Hs] | (Hi' & _)]; [| lia]. exists s3.
    destruct (look_clear i e (replicate 32 0) (slots s d)) as [Hd' Hlook]; try done.
    split_and!; try done; [apply (touched_dir_ok s); try done; by rewrite Hs | intros n; by rewrite Hs, Hlook, Hn |].
    intros _ Hall. rewrite Forall_lookup in Hall. apply (Hall i (replicate 32 0)); [| done].
    rewrite Hs, lookup_put, decide_True; [done.. |]. apply lookup_lt_Some in Hi. lia.
  - exists s2. split_and!; try done; [by apply quiet_touched | by apply (dir_ok_quiet s) |].
    intros n. rewrite (slots_quiet _ _ _ Q' F). destruct (decide (n = name)) as [-> |]; [| done].
    unfold look. by rewrite Ef.
Qed.

Lemma dir_is_empty_spec s d :
  good s -> dir_ok s d ->
  exists (b : bool) s', dir_is_empty d s = (b, s') /\ quiet s s' /\
    (b = true <-> forall n i, entry s d n = Some i -> n = dot \/ n = dotdot).
Proof.
  intros G [F Ty Hm _ Hon]. unfold dir_is_empty. destruct (read_inode_spec s d G (fo_ino _ _ F)) as (s1 & -> & Q). cbn [Z.ltb Z.compare].
  match goal with |- context [dir_walk _ ?p _ _ _ _ _] => destruct (dir_walk_all p s1 d) as (s2 & E & Q2) end;
    rewrite ?(inode_at_quiet _ _ _ Q); try done; [apply Q | by apply (file_ok_quiet s) |].
  rewrite (inode_at_quiet _ _ _ Q), (slots_quiet _ _ _ Q F) in E. rewrite E. clear E.
  destruct (list_find _ (slots s d)) as [[i e] |] eqn:Ef; eexists _, s2; (split; [done | split; [by apply (quiet_trans _ s1) |]]).
  - split; [done |]. intros Hall. apply list_find_Some in Ef as (Hi & Hp & _).
    rewrite andb_true_iff, !negb_true_iff, Z.eqb_neq, orb_false_iff, !bool_decide_eq_false in Hp. destruct Hp as (He & H1 & H2).
    destruct (Hall (ent_name e) (ent_ino e)); [| done..]. apply look_Some; [done |]. by exists i, e.
  - split; [| done]. intros _ n j Hj. apply look_Some in Hj as (k & e & Hk & <- & Hj & <-); [| done].
    apply list_find_None in Ef. rewrite Forall_lookup in Ef. specialize (Ef k e Hk). cbn beta in Ef.
    rewrite andb_true_iff, !negb_true_iff, Z.eqb_neq, orb_false_iff, !bool_decide_eq_false in Ef.
    destruct (decide (ent_name e = dot)), (decide (ent_name e = dotdot)); tauto.
Qed.
End dirs.
End WfsDirSpec.
