(* ===== verification/WfsInode.v ===== *)
(** WFS, the volume as a set of files: allocating, freeing and emptying inodes
    ([inode_alloc], [inode_free], [wfs_truncate] of [kernel/fs/wfs.c]), and
    what any of them does to the other files. *)

From S2P Require Import Prelude Str Device Ramdisk Wfs WfsFile WfsDir WfsDirSpec.

Module WfsInode.
Import Str Wfs WfsFile WfsDir WfsDirSpec.

Section inodes.
Context {D : Type} `{Hdev : BlockDevice D} `{!BlockDeviceLaws D} `{!ReliableDevice D}.
Implicit Types s : fs D.

Definition live s (j : Z) : Prop := good_ino s j /\ itype (inode_at s j) <> WFS_TYPE_FREE.

Definition inode_numbers s : list Z := seqZ 1 (total_inodes (sb s) - 1).

(** Every inode in use is a file whose tree is sound, no two share a block, and
    the count of free inodes is exact. *)
Record files_ok s : Prop := {
  fk_good :> good s;
  fk_total : total_inodes (sb s) < 2 ^ 32;
  fk_file : forall j, live s j -> file_ok s j;
  fk_sep : forall i j, live s i -> live s j -> i <> j -> separate s i j;
  fk_free : free_inodes (sb s) = countb (fun j => itype (inode_at s j) =? WFS_TYPE_FREE) (inode_numbers s);
}.

(** The file [j] is the same: its inode, where its blocks are, its bytes. *)
Record kept s s' (j : Z) : Prop := {
  kp_inode : inode_at s' j = inode_at s j;
  kp_addr : forall n, valid n -> addr s' (inode_at s' j) n = addr s (inode_at s j) n;
  kp_bytes : forall k, 0 <= k < MAX_BLOCKS * 1024 -> content s' (inode_at s' j) k = content s (inode_at s j) k;
}.

(** A change of the volume in which at most the inodes [m] change. *)
Record evolves s s' (m : list Z) : Prop := {
  ev_files : files_ok s';
  ev_total : total_inodes (sb s') = total_inodes (sb s);
  ev_root : root_inode (sb s') = root_inode (sb s);
  ev_mounted : mounted s' = mounted s;
  ev_rtc : rtc s' = rtc s;
  ev_inode : forall j, good_ino s j -> j ∉ m -> inode_at s' j = inode_at s j;
  ev_kept : forall j, live s j -> j ∉ m -> kept s s' j;
}.

Lemma good_ino_evolves s s' m j : evolves s s' m -> good_ino s' j <-> good_ino s j.
Proof. intros E. unfold good_ino. by rewrite (ev_total _ _ _ E). Qed.

Lemma live_evolves s s' m j : evolves s s' m -> j ∉ m -> live s' j <-> live s j.
Proof.
  intros E Hj. unfold live. rewrite (good_ino_evolves _ _ _ _ E).
  split; intros [Hi Ht]; (split; [done |]); [rewrite <- (ev_inode _ _ _ E) | rewrite (ev_inode _ _ _ E)]; done.
Qed.

Lemma kept_trans s1 s2 s3 j : kept s1 s2 j -> kept s2 s3 j -> kept s1 s3 j.
Proof. intros [I A B] [I' A' B']. split; [congruence | |]; intros; [rewrite A', A | rewrite B', B]; done. Qed.

Lemma kept_refl s j : kept s s j.
Proof. by split. Qed.

Lemma evolves_trans s1 s2 s3 m m' : evolves s1 s2 m -> evolves s2 s3 m' -> evolves s1 s3 (m ++ m').
Proof.
  intros E E'. split; [apply E' | | | | | |].
  - by rewrite (ev_total _ _ _ E'), (ev_total _ _ _ E).
  - by rewrite (ev_root _ _ _ E'), (ev_root _ _ _ E).
  - by rewrite (ev_mounted _ _ _ E'), (ev_mounted _ _ _ E).
  - by rewrite (ev_rtc _ _ _ E'), (ev_rtc _ _ _ E).
  - intros j Hj. rewrite not_elem_of_app. intros [H1 H2]. rewrite (ev_inode _ _ _ E'), (ev_inode _ _ _ E); try done.
    by apply (good_ino_evolves _ _ _ _ E).
  - intros j Hj. rewrite not_elem_of_app. intros [H1 H2]. eapply kept_trans; [by apply E |]. apply E'; [| done].
    by apply (live_evolves _ _ _ _ E).
Qed.

Lemma evolves_weaken s s' m m' : m ⊆ m' -> evolves s s' m -> evolves s s' m'.
Proof. intros Hm E. split; try apply E; intros j Hj Hn; apply E; set_solver. Qed.

Lemma separate_sym s i j : separate s i j -> separate s j i.
Proof. intros Hs n m Hn Hm Ha E. apply (Hs m n Hm Hn); congruence. Qed.

(** Exact counting when the type of one inode changes. *)
Lemma free_inodes_flip s s' ino :
  good_ino s ino -> total_inodes (sb s') = total_inodes (sb s) ->
  (forall j, good_ino s j -> j <> ino -> inode_at s' j = inode_at s j) ->
  countb (fun j => itype (inode_at s' j) =? WFS_TYPE_FREE) (inode_numbers s') =
  countb (fun j => itype (inode_at s j) =? WFS_TYPE_FREE) (inode_numbers s)
  - Z.b2z (itype (inode_at s ino) =? WFS_TYPE_FREE) + Z.b2z (itype (inode_at s' ino) =? WFS_TYPE_FREE).
Proof.
  intros [Hi Hi'] Et Ho. unfold inode_numbers. rewrite Et.
  rewrite (countb_ext (fun j => itype (inode_at s' j) =? WFS_TYPE_FREE)
    (fun j => if decide (j = ino) then itype (inode_at s' ino) =? WFS_TYPE_FREE else itype (inode_at s j) =? WFS_TYPE_FREE)).
  2: { intros j Hj. apply elem_of_seqZ in Hj. destruct (decide (j = ino)) as [-> |]; [done |]. rewrite Ho; [done | split; lia | done]. }
  rewrite (countb_flip (fun j => itype (inode_at s j) =? WFS_TYPE_FREE) _ ino); [by rewrite decide_True by done | apply NoDup_seqZ | apply elem_of_seqZ; lia |].
  intros j Hj. by rewrite decide_False by done.
Qed.

(** Trees live in data blocks: nothing written below them changes one. *)
Lemma data_frame s s' x :
  good s -> same_meta s s' -> (forall c, data_start (sb s) <= c -> vol s' c = vol s c) -> tree_ok s x ->
  (forall n, valid n -> addr s' x n = addr s x n) /\ tree_ok s' x /\
  (forall k, 0 <= k < MAX_BLOCKS * 1024 -> content s' x k = content s x k).
Proof.
  intros G M V T. apply tree_frame; [done.. | by apply same_meta_layout |]. intros n Hn Ha.
  destruct (tr_used _ _ T n Hn Ha) as [Hin Hu]. apply elem_data_blocks in Hin.
  rewrite V by lia. by rewrite (used_meta _ _ (sm_bitmap _ _ M)).
Qed.

Lemma good_add n s : good s -> good (add_free_inodes n s).
Proof.
  intros [[C [] Hf] Hc]. split; [split |]; try done. by apply (coherent_meta s).
Qed.

Lemma tree_add n s x : tree_ok s x -> tree_ok (add_free_inodes n s) x.
Proof. intros [Hd Hu Hi]. split; [done | exact Hu | exact Hi]. Qed.

Lemma addr_add n s x m : addr (add_free_inodes n s) x m = addr s x m.
Proof. by destruct m. Qed.

Lemma content_add n s x k : content (add_free_inodes n s) x k = content s x k.
Proof. unfold content. by rewrite addr_add. Qed.

Lemma free_inodes_range s : files_ok s -> 0 <= free_inodes (sb s) < total_inodes (sb s).
Proof.
  intros F. rewrite (fk_free _ F). pose proof (countb_bounds (fun j => itype (inode_at s j) =? WFS_TYPE_FREE) (inode_numbers s)) as Hb.
  unfold inode_numbers, Zlen in *. rewrite length_seqZ in Hb. destruct (ao_geometry _ (fk_good _ F)). lia.
Qed.

Lemma add_zero s : files_ok s -> add_free_inodes 0 s = s.
Proof.
  intros F. pose proof (free_inodes_range s F). pose proof (fk_total _ F). destruct s as [d so lb [] bm mo ca cl rt]. unfold add_free_inodes, with_sb. cbn in *.
  by rewrite Z.add_0_r, u32_id by lia.
Qed.

(** Writes to the superblock and the inode table: one inode changes, and the
    count of free ones with its type. *)
Lemma table_evolves s s' ino n :
  files_ok s -> good_ino s ino -> good s' -> same_meta (add_free_inodes n s) s' ->
  (forall c, data_start (sb s) <= c -> vol s' c = vol s c) ->
  (forall j, good_ino s j -> j <> ino -> inode_at s' j = inode_at s j) ->
  n = Z.b2z (itype (inode_at s' ino) =? WFS_TYPE_FREE) - Z.b2z (itype (inode_at s ino) =? WFS_TYPE_FREE) ->
  (live s' ino -> file_ok s' ino /\ forall j, live s j -> j <> ino -> separate s' ino j) ->
  evolves s s' [ino].
Proof.
  intros F Hi G' M V Hin Ht Hlive. pose proof (good_add n s (fk_good _ F)) as G.
  assert (Hgi : forall j, good_ino s' j <-> good_ino s j) by (intros; unfold good_ino; by rewrite (sm_sb _ _ M)).
  assert (Hlv : forall j, j <> ino -> live s' j -> live s j).
  { intros j Hne [Hj Hlj]. apply Hgi in Hj. split; [done |]. by rewrite <- Hin. }
  assert (Hfr : forall j, live s j -> j <> ino -> kept s s' j /\ file_ok s' j).
  { intros j Hj Hne. destruct (fk_file _ F j Hj) as [Hg Hw Hz T].
    destruct (data_frame (add_free_inodes n s) s' (inode_at s j) G M V (tree_add _ _ _ T)) as (Ha & T' & Hc).
    split; [split; [by apply Hin | |] | split; [by apply Hgi | | |]]; rewrite (Hin j Hg Hne);
      [intros m Hm; rewrite Ha by exact Hm; apply addr_add | intros k Hk; rewrite Hc by exact Hk; apply content_add
      | exact Hw | exact Hz | exact T']. }
  assert (Hcount : free_inodes (sb s') = countb (fun j => itype (inode_at s' j) =? WFS_TYPE_FREE) (inode_numbers s')).
  { assert (Hb : 0 <= countb (fun j => itype (inode_at s' j) =? WFS_TYPE_FREE) (inode_numbers s') < total_inodes (sb s)).
    { pose proof (countb_bounds (fun j => itype (inode_at s' j) =? WFS_TYPE_FREE) (inode_numbers s')) as Hb.
      unfold inode_numbers, Zlen in *. rewrite length_seqZ in Hb. rewrite (sm_sb _ _ M) in *. cbn [total_inodes sb add_free_inodes with_sb] in *. destruct Hi. lia. }
    revert Hb. rewrite (free_inodes_flip s s' ino) by (done || by rewrite (sm_sb _ _ M)). rewrite <- (fk_free _ F).
    rewrite (sm_sb _ _ M). cbn [free_inodes sb add_free_inodes with_sb]. intros Hb. pose proof (fk_total _ F). rewrite u32_id; lia. }
  split; try (by rewrite (sm_sb _ _ M)); [| apply M | apply M | |].
  - split; [done | by rewrite (sm_sb _ _ M); apply F | | | done].
    + intros j Hj. destruct (decide (j = ino)) as [-> | Hne]; [by apply Hlive | apply Hfr; auto].
    + intros i j Hi' Hj' Hne. destruct (decide (i = ino)) as [-> | Hni].
      { apply Hlive; auto. }
      destruct (decide (j = ino)) as [-> | Hnj]; [apply separate_sym; apply Hlive; auto |].
      pose proof (fk_sep _ F i j ltac:(auto) ltac:(auto) Hne) as Hs. destruct (Hfr i) as [Ki _]; [auto.. |].
      destruct (Hfr j) as [Kj _]; [auto.. |]. intros k m Hk Hm. rewrite (kp_addr _ _ _ Ki), (kp_addr _ _ _ Kj) by done. by apply Hs.
  - intros j Hj Hn. rewrite list_elem_of_singleton in Hn. by apply Hin.
  - intros j Hj Hn. rewrite list_elem_of_singleton in Hn. by apply Hfr.
Qed.

(** An inode without blocks. *)
Definition hollow (x : inode) : Prop := direct x = replicate 10 0 /\ indirect x = 0 /\ double_indirect x = 0.

Lemma hollow_addr s x n : hollow x -> valid n -> addr s x n = 0.
Proof.
  intros (Hd & Hi & Hb) Hn. destruct n; cbn [addr valid] in *; rewrite ?Hd, ?Hi, ?Hb; try done.
  rewrite lookup_total_replicate_2; [done |]. lia.
Qed.

Lemma hollow_tree s x : hollow x -> tree_ok s x.
Proof.
  intros Hx. split; [by rewrite (proj1 Hx) | |]; intros n; intros; by rewrite hollow_addr in *.
Qed.

Lemma sync_sb_good s :
  good s -> exists s', sync_superblock s = (true, s') /\ good s' /\ same_meta s s' /\ (forall c, c <> 0 -> vol s' c = vol s c).
Proof.
  intros G. unfold sync_superblock. destruct (ao_geometry _ G).
  destruct (good_write s 0 (splice 0 (encode_sb (sb s)) (replicate 1024 0)) G) as (s' & E & G' & M & _ & V).
  - lia.
  - rewrite Zlen_splice; rewrite ?Zlen_encode_sb; [done | lia | unfold Zlen; rewrite length_replicate; lia].
  - by exists s'.
Qed.

(** Storing an inode without blocks, and the count with it. *)
Lemma store_hollow s ino x n :
  files_ok s -> good_ino s ino -> inode_wf x -> hollow x -> isize x <= MAX_BLOCKS * 1024 ->
  n = Z.b2z (itype x =? WFS_TYPE_FREE) - Z.b2z (itype (inode_at s ino) =? WFS_TYPE_FREE) ->
  exists s1 s2, write_inode ino x s = (0, s1) /\ sync_superblock (add_free_inodes n s1) = (true, s2) /\
    evolves s s2 [ino] /\ inode_at s2 ino = x /\ (n = 0 -> evolves s s1 [ino] /\ inode_at s1 ino = x) /\
    (forall c, used s2 c = used s c) /\ (forall c, used s1 c = used s c).
Proof.
  intros F Hi Hx Hh Hsz Hn. pose proof (fk_good _ F) as G.
  destruct (write_inode_spec s ino x G Hi Hx) as (s1 & E1 & G1 & M1 & Ix & Io & V1).
  destruct (sync_sb_good (add_free_inodes n s1) (good_add n s1 G1)) as (s2 & E2 & G2 & M2 & V2).
  destruct (inode_block_range s ino G Hi) as (_ & Hb & _ & _). destruct (ao_geometry _ G).
  assert (Hv1 : forall c, data_start (sb s) <= c -> vol s1 c = vol s c) by (intros c Hc; apply V1; lia).
  assert (Hv2 : forall c, data_start (sb s) <= c -> vol s2 c = vol s c) by (intros c Hc; rewrite V2 by lia; by apply Hv1).
  assert (Hin2 : forall j, good_ino s j -> inode_at s2 j = inode_at s1 j).
  { intros j Hj. destruct (inode_block_range s j G Hj) as (Eb & Hbj & _). unfold inode_at, inode_block. rewrite (sm_sb _ _ M2).
    cbn [inode_start sb add_free_inodes with_sb]. rewrite V2; [done |]. unfold inode_block in *. rewrite (sm_sb _ _ M1). lia. }
  assert (M : same_meta (add_free_inodes n s) s2).
  { destruct M1 as [? ? Es ? ? ?], M2 as [? ? Es2 ? ? ?]. split; cbn [source partition_lba sb block_bitmap mounted rtc add_free_inodes with_sb] in *; congruence. }
  assert (Hok : forall s', inode_at s' ino = x -> good_ino s' ino -> file_ok s' ino /\ forall j, live s j -> j <> ino -> separate s' ino j).
  { intros s' Hs' Hg. split; [split; rewrite ?Hs'; try done; by apply hollow_tree |].
    intros j _ _ a b Ha Hb'. rewrite Hs', hollow_addr by done. done. }
  exists s1, s2. split_and!; try done.
  - apply (table_evolves s s2 ino n); try done.
    + intros j Hj Hne. rewrite Hin2 by done. by apply Io.
    + by rewrite Hin2, Ix.
    + intros [Hg _]. apply Hok; [by rewrite Hin2 | done].
  - by rewrite Hin2.
  - intros ->. split; [| done]. apply (table_evolves s s1 ino 0); try done; [by rewrite add_zero | by rewrite Ix |].
    intros [Hg _]. by apply Hok.
  - intros c. rewrite (used_meta _ _ (sm_bitmap _ _ M)). done.
  - intros c. apply (used_meta _ _ (sm_bitmap _ _ M1)).
Qed.

(** ** Allocating and freeing *)

Definition fresh_inode (type mt : Z) : inode := Inode type 1 0 0 mt (replicate 10 0) 0 0.

Lemma fresh_wf type mt : 0 <= type < 2 ^ 16 -> 0 <= mt < 2 ^ 32 -> inode_wf (fresh_inode type mt) /\ hollow (fresh_inode type mt).
Proof. intros. split; [| done]. unfold inode_wf. cbn [fresh_inode itype links isize iblocks mtime direct indirect double_indirect].
  split_and!; try lia; try done. by apply Forall_replicate.
Qed.

Lemma zero_wf : inode_wf zero_inode /\ hollow zero_inode.
Proof. split; [| done]. unfold inode_wf. cbn [zero_inode itype links isize iblocks mtime direct indirect double_indirect].
  split_and!; try lia; try done. by apply Forall_replicate.
Qed.

Lemma touched_evolves s s' d : files_ok s -> live s d -> touched s s' d -> evolves s s' [d].
Proof.
  intros F Hd T. pose proof (tc_layout _ _ _ T) as L.
  assert (Hgi : forall j, good_ino s' j <-> good_ino s j) by (intros; unfold good_ino; by rewrite (sl_total_inodes _ _ L)).
  assert (Hlv : forall j, live s' j -> live s j).
  { intros j [Hj Hlj]. apply Hgi in Hj. split; [done |]. destruct (decide (j = d)) as [-> | Hne].
    - by rewrite <- (tc_type _ _ _ T).
    - by rewrite <- (tc_inodes _ _ _ T). }
  assert (Hfr : forall j, live s j -> j <> d -> kept s s' j /\ file_ok s' j /\ separate s' d j).
  { intros j Hj Hne. destruct (tc_others _ _ _ T j Hne (fk_file _ F j Hj)) as (Fj & Sj & Ej & Aj & Cj); [by apply (fk_sep _ F) |].
    split_and!; [by split | done | done]. }
  split; try apply L; [| |].
  - split; [apply T | rewrite (sl_total_inodes _ _ L); apply F | | |].
    + intros j Hj. destruct (decide (j = d)) as [-> | Hne]; [apply T | by apply Hfr; auto].
    + intros i j Hi Hj Hne. destruct (decide (i = d)) as [-> | Hni]; [apply Hfr; auto |].
      destruct (decide (j = d)) as [-> | Hnj]; [apply separate_sym, Hfr; auto |].
      pose proof (fk_sep _ F i j ltac:(auto) ltac:(auto) Hne) as Hs. destruct (Hfr i) as [Ki _]; [auto.. |].
      destruct (Hfr j) as [Kj _]; [auto.. |]. intros k m Hk Hm. rewrite (kp_addr _ _ _ Ki), (kp_addr _ _ _ Kj) by done. by apply Hs.
    + rewrite (free_inodes_flip s s' d) by (apply Hd || apply L || apply T). rewrite (tc_type _ _ _ T), (sl_free_inodes _ _ L), (fk_free _ F). lia.
  - intros j Hj Hn. rewrite list_elem_of_singleton in Hn. by apply T.
  - intros j Hj Hn. rewrite list_elem_of_singleton in Hn. by apply Hfr.
Qed.

Lemma quiet_kept s s' j : quiet s s' -> file_ok s j -> kept s s' j.
Proof.
  intros Q F. split; rewrite ?(inode_at_quiet _ _ _ Q); [done | |].
  - intros n Hn. by apply quiet_addr.
  - intros k Hk. by apply (ext_quiet _ _ _ Q (fo_tree _ _ F)).
Qed.

Lemma quiet_evolves s s' : files_ok s -> quiet s s' -> evolves s s' [].
Proof.
  intros F Q. pose proof (sm_sb _ _ (qt_meta _ _ Q)) as Es.
  assert (Hlv : forall j, live s' j -> live s j) by (intros j; unfold live, good_ino; by rewrite Es, (inode_at_quiet _ _ _ Q)).
  split; rewrite ?Es; try done; [| apply Q | apply Q | |].
  - split; rewrite ?Es; [apply Q | apply F | | |].
    + intros j Hj. by apply (file_ok_quiet s), F, Hlv.
    + intros i j Hi Hj Hne n m Hn Hm. rewrite !(inode_at_quiet _ _ _ Q), !(quiet_addr _ _ _ Q) by done. apply (fk_sep _ F); auto.
    + rewrite (fk_free _ F). unfold inode_numbers. rewrite Es. apply countb_ext. intros j _. by rewrite (inode_at_quiet _ _ _ Q).
  - intros j _ _. by apply inode_at_quiet.
  - intros j Hj _. by apply quiet_kept, F.
Qed.

Lemma inode_alloc_from_spec type : 0 < type < 2 ^ 16 -> forall fuel i s,
  files_ok s -> 0 <= rtc s < 2 ^ 32 -> 1 <= i -> total_inodes (sb s) - i <= Z.of_nat fuel -> (forall j, 0 < j < i -> live s j) ->
  exists r ino s', inode_alloc_from fuel i type s = (r, ino, s') /\
    ((r = - W_ENOSPC /\ quiet s s' /\ forall j, good_ino s j -> live s j) \/
     (r = 0 /\ good_ino s ino /\ itype (inode_at s ino) = WFS_TYPE_FREE /\ evolves s s' [ino] /\
      inode_at s' ino = fresh_inode type (rtc s) /\ forall c, used s' c = used s c)).
Proof.
  intros Hty. induction fuel as [| fuel IH]; intros i s F Hr Hi Hf Hall; cbn [inode_alloc_from].
  { eexists _, _, s. split; [done |]. left. split_and!; [done | by apply quiet_refl, F |]. intros j Hj. apply Hall. destruct Hj. lia. }
  destruct (Z.ltb_spec i (total_inodes (sb s))) as [Hlt | Hge].
  2: { eexists _, _, s. split; [done |]. left. split_and!; [done | by apply quiet_refl, F |]. intros j Hj. apply Hall. destruct Hj. lia. }
  assert (Hgi : good_ino s i) by (split; lia).
  destruct (read_inode_spec s i F Hgi) as (s1 & -> & Q). cbn [Z.ltb Z.compare].
  pose proof (quiet_evolves s s1 F Q) as E1. pose proof (ev_files _ _ _ E1) as F1.
  destruct (Z.eqb_spec (itype (inode_at s i)) WFS_TYPE_FREE) as [Hfree | Hused]; cbn [negb].
  - rewrite (ev_rtc _ _ _ E1). fold (fresh_inode type (rtc s)).
    destruct (fresh_wf type (rtc s)) as [Hw Hh]; [lia.. |].
    destruct (store_hollow s1 i (fresh_inode type (rtc s)) (-1) F1) as (s2 & s3 & -> & E3 & Ev & Hx & _ & Hu & _);
      [by apply (good_ino_evolves _ _ _ _ E1) | done | done | unfold MAX_BLOCKS; cbn; lia | |].
    { rewrite (inode_at_quiet _ _ _ Q), Hfree. cbn [fresh_inode itype]. destruct (Z.eqb_spec type WFS_TYPE_FREE) as [-> |]; [unfold WFS_TYPE_FREE in *; lia | done]. }
    cbn [Z.ltb Z.compare]. rewrite E3. eexists _, i, s3. split; [done |]. right. split_and!; try done.
    + apply (evolves_trans _ _ _ _ _ E1 Ev).
    + intros c. rewrite Hu. by apply quiet_used.
  - destruct (IH (i + 1) s1) as (r & ino & s' & -> & Hres); try done; try lia.
    + by rewrite (ev_rtc _ _ _ E1).
    + rewrite (ev_total _ _ _ E1). lia.
    + intros j Hj. apply (live_evolves _ _ _ _ E1); [by apply not_elem_of_nil |].
      destruct (decide (j = i)) as [-> |]; [by split | apply Hall; lia].
    + eexists _, _, _. split; [done |]. destruct Hres as [(-> & Q' & Ha) | (-> & Hg & Ht & Ev & Hx & Hu)]; [left | right].
      * split_and!; [done | by eapply quiet_trans |]. intros j Hj.
        apply (live_evolves _ _ _ _ E1); [by apply not_elem_of_nil |]. apply Ha. by apply (good_ino_evolves _ _ _ _ E1).
      * split_and!; [done | by apply (good_ino_evolves _ _ _ _ E1) | by rewrite <- (inode_at_quiet _ _ _ Q) | apply (evolves_trans _ _ _ _ _ E1 Ev)
        | by rewrite Hx, (ev_rtc _ _ _ E1) |].
        intros c. rewrite Hu. by apply quiet_used.
Qed.

Lemma inode_alloc_spec type s :
  0 < type < 2 ^ 16 -> files_ok s -> 0 <= rtc s < 2 ^ 32 ->
  exists r ino s', inode_alloc type s = (r, ino, s') /\
    ((r = - W_ENOSPC /\ quiet s s' /\ forall j, good_ino s j -> live s j) \/
     (r = 0 /\ good_ino s ino /\ itype (inode_at s ino) = WFS_TYPE_FREE /\ evolves s s' [ino] /\
      inode_at s' ino = fresh_inode type (rtc s) /\ forall c, used s' c = used s c)).
Proof. intros. unfold inode_alloc, WFS_ROOT_INO. apply inode_alloc_from_spec; try done; lia. Qed.

Lemma inode_free_spec ino s :
  files_ok s -> live s ino ->
  evolves s (inode_free ino s) [ino] /\ inode_at (inode_free ino s) ino = zero_inode /\ forall c, used (inode_free ino s) c = used s c.
Proof.
  intros F [Hi Ht]. destruct zero_wf as [Hw Hh]. unfold inode_free.
  destruct (store_hollow s ino zero_inode 1 F Hi Hw Hh) as (s2 & s3 & -> & E3 & Ev & Hx & _ & Hu & _); [unfold MAX_BLOCKS; cbn; lia | |].
  { cbn [zero_inode itype]. by rewrite (proj2 (Z.eqb_neq _ _) Ht). }
  rewrite E3. done.
Qed.

(** ** Giving blocks back *)

(** From [s] to [s'] exactly the blocks [P] are given back. *)
Record freed s s' (P : Z -> Prop) : Prop := {
  fr_good : good s';
  fr_layout : same_layout s s';
  fr_vol : forall c, 0 < c -> ~ meta_block s c -> vol s' c = vol s c;
  fr_used : forall c, 0 <= c -> used s' c = true <-> used s c = true /\ ~ P c;
}.

Lemma freed_quiet s s' : quiet s s' -> freed s s' (fun _ => False).
Proof. intros Q. split; [apply Q | by apply quiet_layout | intros; apply Q |]. intros c _. rewrite (quiet_used _ _ Q). tauto. Qed.

Lemma freed_trans s1 s2 s3 P P' : freed s1 s2 P -> freed s2 s3 P' -> freed s1 s3 (fun c => P c \/ P' c).
Proof.
  intros [G L V U] [G' L' V' U']. split; [done | by eapply same_layout_trans | |].
  - intros c Hc Hm. rewrite V', V; try done. unfold meta_block in *. by rewrite (sl_bitmap_start _ _ L), (sl_bitmap_blocks _ _ L).
  - intros c Hc. rewrite U', U by done. tauto.
Qed.

Lemma freed_iff s s' P P' : (forall c, P c <-> P' c) -> freed s s' P -> freed s s' P'.
Proof. intros HP [G L V U]. split; try done. intros c Hc. by rewrite U, HP. Qed.

Lemma block_free_cap b s : cap (block_free b s) = cap s.
Proof.
  unfold block_free. destruct (_ || _)%bool; [done |]. destruct (bitmap_test b s); [| done]. cbn [negb].
  pose proof (sync_cap (add_free_blocks 1 (bitmap_clear b s)) b) as Hs. by rewrite Hs.
Qed.

Lemma block_free_freed s b : good s -> b ∈ data_blocks s -> freed s (block_free b s) (eq b).
Proof.
  intros G Hb. destruct (block_free_spec s b (gd_alloc _ G)) as (Hok & Fr & Hcase). pose proof (af_layout _ _ _ Fr) as L. split.
  - split; [done |]. rewrite block_free_cap, (sl_lba _ _ L), (sl_total_blocks _ _ L). apply G.
  - done.
  - intros c Hc Hm. apply Fr; [lia | done].
  - intros c Hc. destruct Hcase as [(_ & _ & _ & Hu) | [Hn ->]].
    + rewrite Hu, andb_true_iff, negb_true_iff, Z.eqb_neq by done. split; intros []; split; congruence.
    + split; [| tauto]. intros Hu. split; [done |]. intros <-. tauto.
Qed.

(** A loop that gives back [P i] at turn [i]. *)
Lemma fold_freed (f : fs D -> Z -> fs D) (P : Z -> Z -> Prop) s l :
  (forall i s1 Q, i ∈ l -> freed s s1 Q -> freed s1 (f s1 i) (P i)) ->
  forall s1 Q, freed s s1 Q -> freed s (fold_left f l s1) (fun c => Q c \/ exists i, i ∈ l /\ P i c).
Proof.
  induction l as [| i l IH]; intros Hf s1 Q H1; cbn [fold_left].
  - eapply freed_iff, H1. intros c. split; [by left |]. intros [? | (i & Hi & _)]; [done |]. by apply not_elem_of_nil in Hi.
  - eapply freed_iff, IH; [| intros j s2 R Hj; apply Hf; by right | eapply freed_trans; [exact H1 | eapply Hf; [by left | exact H1]]].
    intros c. setoid_rewrite elem_of_cons. split; [intros [[? | ?] | (j & ? & ?)] | intros [? | (j & [-> | ?] & ?)]]; eauto 6.
Qed.

Lemma freed_data s s1 Q b : freed s s1 Q -> b ∈ data_blocks s1 <-> b ∈ data_blocks s.
Proof. intros R. by rewrite (data_blocks_layout _ _ (fr_layout _ _ _ R)). Qed.

Lemma tptr_freed s s1 Q t k : good s -> freed s s1 Q -> (t <> 0 -> t ∈ data_blocks s) -> tptr s1 t k = tptr s t k.
Proof.
  intros G R Ht. unfold tptr. destruct (Z.eqb_spec t 0); [done |]. destruct (data_block_facts s t G (Ht n)).
  rewrite (fr_vol _ _ _ R) by (done || lia). done.
Qed.

(** The blocks a pointer block names. *)
Definition pointees s (t c : Z) : Prop := exists i, 0 <= i < 256 /\ tptr s t i = c /\ c <> 0.

Lemma over_table_freed (f : Z -> fs D -> fs D) (P : Z -> Z -> Prop) s t s1 Q :
  t <> 0 -> freed s s1 Q ->
  (forall b s2 R, pointees s t b -> freed s s2 R -> freed s2 (f b s2) (P b)) ->
  freed s (over_table f (vol s t) s1) (fun c => Q c \/ exists b, pointees s t b /\ P b c).
Proof.
  intros Ht H1 Hf. unfold over_table. assert (Et : forall i, table_get (vol s t) i = tptr s t i).
  { intros. unfold tptr. by destruct (Z.eqb_spec t 0). }
  eapply freed_iff, (fold_freed _ (fun i c => tptr s t i <> 0 /\ P (tptr s t i) c) s _) , H1.
  - intros c. split; (intros [? | Hex]; [by left | right]).
    + destruct Hex as (i & Hi & Hn & Hp). exists (tptr s t i). split; [| done]. apply elem_of_seqZ in Hi.
      exists i. unfold WFS_PTRS_PER_BLOCK in Hi. split_and!; [lia | lia | done | done].
    + destruct Hex as (b & (i & Hi & <- & Hn) & Hp). exists i. split; [apply elem_of_seqZ; unfold WFS_PTRS_PER_BLOCK; lia | done].
  - intros i s2 R Hi H2. cbn beta. rewrite Et. apply elem_of_seqZ in Hi. unfold WFS_PTRS_PER_BLOCK in Hi.
    destruct (Z.eqb_spec (tptr s t i) 0) as [E | E]; cbn [negb].
    + eapply freed_iff, freed_quiet; [| apply quiet_refl, H2]. intros c. tauto.
    + eapply freed_iff, Hf; [| | exact H2]; [intros c; tauto |]. exists i. split_and!; [lia | lia | done | done].
Qed.

Lemma free_table_freed s t s1 Q :
  good s -> freed s s1 Q -> t <> 0 -> t ∈ data_blocks s -> (forall b, pointees s t b -> b ∈ data_blocks s) ->
  freed s (free_table t s1) (fun c => Q c \/ pointees s t c).
Proof.
  intros G R Ht Hin Hd. unfold free_table. rewrite (proj2 (Z.eqb_neq t 0)) by done.
  destruct (data_block_facts s t G Hin) as [Hr Hm].
  destruct (good_read s1 t (fr_good _ _ _ R)) as (s2 & -> & Q2); [rewrite (sl_total_blocks _ _ (fr_layout _ _ _ R)); lia |].
  rewrite (fr_vol _ _ _ R) by (done || lia). pose proof (freed_trans _ _ _ _ _ R (freed_quiet _ _ Q2)) as R2.
  eapply freed_iff, (over_table_freed block_free eq s t s2 _ Ht R2).
  - intros c. split; [intros [[? | []] | (b & ? & ->)] | intros [? | ?]]; eauto.
  - intros b s3 R' Hb H3. apply block_free_freed; [apply H3 |]. by apply (freed_data _ _ _ _ H3), Hd.
Qed.

(** ** Emptying a file *)

(** The blocks of the tree of [x]. *)
Definition tree_block s (x : inode) (c : Z) : Prop := exists n, valid n /\ addr s x n = c /\ c <> 0.

Definition emptied (x : inode) (mt : Z) : inode := Inode (itype x) (links x) 0 0 mt (replicate 10 0) 0 0.

(** Blocks of the file given back, and an inode without blocks stored. *)
Lemma freed_touched s s1 ino x' P :
  good s -> file_ok s ino -> freed s s1 P -> (forall c, P c -> tree_block s (inode_at s ino) c) ->
  inode_wf x' -> hollow x' -> isize x' = 0 -> itype x' = itype (inode_at s ino) ->
  exists s2, write_inode ino x' s1 = (0, s2) /\ touched s s2 ino /\ inode_at s2 ino = x' /\
    forall c, 0 <= c -> used s2 c = true <-> used s c = true /\ ~ P c.
Proof.
  intros G [Hi Hw Hz T] R HP Hx Hh Hsz Hty. pose proof (fr_layout _ _ _ R) as L.
  assert (Hi1 : good_ino s1 ino) by (unfold good_ino; by rewrite (sl_total_inodes _ _ L)).
  destruct (write_inode_spec s1 ino x' (fr_good _ _ _ R) Hi1 Hx) as (s2 & E & G2 & M & Ix & Io & V).
  pose proof (same_layout_trans _ _ _ L (same_meta_layout _ _ M)) as L2. pose proof (used_meta _ _ (sm_bitmap _ _ M)) as Hu.
  assert (Hgi : forall j, good_ino s j -> good_ino s2 j) by (intros j; unfold good_ino; by rewrite (sl_total_inodes _ _ L2)).
  assert (Hin : forall j, good_ino s j -> j <> ino -> inode_at s2 j = inode_at s j).
  { intros j Hj Hne. rewrite Io; [| unfold good_ino; by rewrite (sl_total_inodes _ _ L) | done].
    destruct (inode_block_range s j G Hj) as (_ & Hb & Hr & Hm). destruct (ao_geometry _ G).
    unfold inode_at, inode_block. rewrite (sl_inode_start _ _ L). fold (inode_block j s). by rewrite (fr_vol _ _ _ R) by (done || lia). }
  exists s2. split_and!; [done | split; try done | done |].
  - split; rewrite ?Ix; [by apply Hgi | done | rewrite Hsz; unfold MAX_BLOCKS; lia | by apply hollow_tree].
  - by rewrite Ix.
  - intros j Hne [Hij Hwj Hzj Tj] Hs. specialize (Hin j Hij Hne).
    destruct (tree_frame s s2 (inode_at s j) G Tj L2) as (Ha & Tj' & Hc).
    { intros n Hn H0. destruct (tr_used _ _ Tj n Hn H0) as [Hd Hus]. destruct (data_block_facts s _ G Hd) as [Hr Hm].
      rewrite Hu, (fr_used _ _ _ R) by lia. split.
      - rewrite V; [apply (fr_vol _ _ _ R); [lia | done] |].
        destruct (inode_block_range s1 ino (fr_good _ _ _ R) Hi1) as (_ & Hb & _). rewrite (sl_data_start _ _ L) in Hb.
        apply elem_data_blocks in Hd. lia.
      - split; [done |]. intros Hp. destruct (HP _ Hp) as (m & Hm' & Em & Hm0). apply (Hs m n); congruence. }
    split_and!; [split; rewrite ?Hin; auto | | done | by rewrite Hin | by rewrite Hin].
    intros n m Hn Hm. rewrite Ix, hollow_addr by done. done.
  - intros c Hc. by rewrite Hu, (fr_used _ _ _ R).
Qed.

Lemma free_direct_freed s x s1 :
  tree_ok s x -> quiet s s1 ->
  freed s (fold_left (fun s i => if negb ((direct x).[i] =? 0) then block_free (direct x).[i] s else s) (seqZ 0 WFS_DIRECT) s1)
    (fun c => exists i, 0 <= i < 10 /\ (direct x).[i] = c /\ c <> 0).
Proof.
  intros T Q. eapply freed_iff, (fold_freed _ (fun i c => (direct x).[i] <> 0 /\ (direct x).[i] = c) s), freed_quiet, Q.
  - intros c. setoid_rewrite elem_of_seqZ. unfold WFS_DIRECT. split.
    + intros [[] | (i & Hi & Hn & <-)]. exists i. split_and!; [lia | lia | done | done].
    + intros (i & Hi & <- & Hn). right. exists i. split; [lia | done].
  - intros i s2 R Hi H2. cbn beta. apply elem_of_seqZ in Hi. unfold WFS_DIRECT in Hi.
    destruct (Z.eqb_spec (direct x).[i] 0) as [E | E]; cbn [negb].
    + eapply freed_iff, freed_quiet, quiet_refl, H2. intros c. tauto.
    + eapply freed_iff, block_free_freed; [intros c; tauto | apply H2 |]. apply (freed_data _ _ _ _ H2).
      apply (tr_used _ _ T (NDirect i)); [simpl; lia | done].
Qed.

(** A pointer block with all it names. *)
Definition table_blocks s (t c : Z) : Prop := t <> 0 /\ (pointees s t c \/ t = c).

Lemma free_table_block s s1 R t :
  good s -> freed s s1 R -> (t <> 0 -> t ∈ data_blocks s) -> (forall b, pointees s t b -> b ∈ data_blocks s) ->
  freed s1 (if negb (t =? 0) then block_free t (free_table t s1) else s1) (table_blocks s t).
Proof.
  intros G H1 Ht Hp. unfold table_blocks. destruct (Z.eqb_spec t 0) as [E | E]; cbn [negb].
  { eapply freed_iff, freed_quiet, quiet_refl, H1. tauto. }
  pose proof (fr_good _ _ _ H1) as G1. assert (Ep : forall c, pointees s1 t c <-> pointees s t c).
  { intros c. unfold pointees. split; intros (i & Hi & He & Hn); exists i; by rewrite (tptr_freed s s1 R) in *. }
  assert (H2 : freed s1 (free_table t s1) (fun c => False \/ pointees s1 t c)).
  { apply free_table_freed; try done; [apply freed_quiet, quiet_refl, G1 | by apply (freed_data _ _ _ _ H1), Ht |].
    intros b Hb. apply (freed_data _ _ _ _ H1), Hp, Ep, Hb. }
  eapply freed_iff, freed_trans; [| exact H2 | apply block_free_freed; [apply H2 |]].
  - intros c. cbn beta. rewrite Ep. tauto.
  - apply (freed_data _ _ _ _ H2), (freed_data _ _ _ _ H1), Ht, E.
Qed.

(** The doubly indirect block with all below it. *)
Definition double_blocks s (t c : Z) : Prop := t <> 0 /\ ((exists b, pointees s t b /\ table_blocks s b c) \/ t = c).

Lemma free_double_block s s1 R t :
  good s -> freed s s1 R -> (t <> 0 -> t ∈ data_blocks s) -> (forall b, pointees s t b -> b ∈ data_blocks s) ->
  (forall b c, pointees s t b -> pointees s b c -> c ∈ data_blocks s) ->
  freed s (if negb (t =? 0) then
    let '(r, s) := block_read t s1 in
    let s := match r with None => s | Some outer => over_table (fun b s => block_free b (free_table b s)) outer s end in
    block_free t s else s1) (fun c => R c \/ double_blocks s t c).
Proof.
  intros G H1 Ht Hp Hpp. unfold double_blocks. destruct (Z.eqb_spec t 0) as [E | E]; cbn [negb]; [eapply freed_iff, H1; tauto |].
  destruct (data_block_facts s t G (Ht E)) as [Hb Hm].
  destruct (good_read s1 t (fr_good _ _ _ H1)) as (s2 & -> & Q2); [rewrite (sl_total_blocks _ _ (fr_layout _ _ _ H1)); lia |].
  cbn zeta iota. rewrite (fr_vol _ _ _ H1) by (done || lia). pose proof (freed_trans _ _ _ _ _ H1 (freed_quiet _ _ Q2)) as H2.
  assert (H3 : freed s (over_table (fun b s => block_free b (free_table b s)) (vol s t) s2)
    (fun c => (R c \/ False) \/ exists b, pointees s t b /\ table_blocks s b c)).
  { apply over_table_freed; [done.. |]. intros b s3 R' Hpb H3. pose proof (free_table_block s s3 R' b G H3) as H4.
    destruct Hpb as (i & Hi & Eb & Hn). rewrite (proj2 (Z.eqb_neq b 0)) in H4 by done. cbn [negb] in H4.
    apply H4; [intros _; apply Hp; by exists i |]. intros c. apply Hpp. by exists i. }
  eapply freed_iff, freed_trans; [| exact H3 | apply block_free_freed; [apply H3 |]].
  - intros c. tauto.
  - apply (freed_data _ _ _ _ H3), Ht, E.
Qed.

Lemma tree_block_split s x c :
  tree_block s x c <-> ((exists i, 0 <= i < 10 /\ (direct x).[i] = c /\ c <> 0) \/ table_blocks s (indirect x) c) \/
    double_blocks s (double_indirect x) c.
Proof.
  unfold tree_block, table_blocks, double_blocks, pointees. assert (H0 : forall i, tptr s 0 i = 0) by done. split.
  - intros (n & Hn & <- & Ha). destruct n as [i | | i | | i | i j]; cbn [addr valid] in *.
    + left. left. by exists i.
    + left. right. eauto.
    + left. right. split; [| left; by exists i]. intros E. by rewrite E in Ha.
    + right. eauto.
    + right. split; [intros E; by rewrite E in Ha |]. left. eexists. split; [by exists i |]. split; [done | by right].
    + destruct Hn as [Hi Hj]. assert (Hm : tptr s (double_indirect x) i <> 0) by (intros E; by rewrite E in Ha).
      right. split; [intros E; by rewrite E in Hm |]. left. eexists. split; [by exists i |]. split; [done |]. left. by exists j.
  - intros [[(i & Hi & <- & Ha) | [Hi [(i & Hir & <- & Ha) | <-]]] | [Hd [(b & (i & Hir & <- & Hb) & _ & [(j & Hjr & <- & Ha) | <-]) | <-]]].
    + by exists (NDirect i).
    + by exists (NIndData i).
    + by exists NInd.
    + by exists (NData i j).
    + by exists (NMid i).
    + by exists NDbl.
Qed.

Lemma truncate_spec s ino :
  files_ok s -> live s ino -> 0 <= rtc s < 2 ^ 32 ->
  exists s', wfs_truncate ino s = (0, s') /\ evolves s s' [ino] /\ inode_at s' ino = emptied (inode_at s ino) (rtc s) /\
    forall c, 0 <= c -> used s' c = true <-> used s c = true /\ ~ tree_block s (inode_at s ino) c.
Proof.
  intros F Hl Hr. pose proof (fk_good _ F) as G. pose proof (fk_file _ F ino Hl) as Fi. pose proof Fi as [Hi Hw Hz T].
  unfold wfs_truncate. destruct (read_inode_spec s ino G Hi) as (s1 & -> & Q). cbn [Z.ltb Z.compare].
  set (x := inode_at s ino) in *. pose proof (free_direct_freed s x s1 T Q) as R2.
  set (s2 := fold_left _ _ s1) in *. clearbody s2.
  assert (Hdata : forall n, valid n -> addr s x n <> 0 -> addr s x n ∈ data_blocks s) by (intros n Hn; apply T, Hn).
  assert (Hp1 : forall b, pointees s (indirect x) b -> b ∈ data_blocks s) by (intros b (i & Hb & <- & Hn); by apply (Hdata (NIndData i))).
  assert (Hp2 : forall b, pointees s (double_indirect x) b -> b ∈ data_blocks s) by (intros b (i & Hb & <- & Hn); by apply (Hdata (NMid i))).
  assert (Hp3 : forall b c, pointees s (double_indirect x) b -> pointees s b c -> c ∈ data_blocks s).
  { intros b c (i & Hb & <- & Hn) (j & Hj & <- & Hc). by apply (Hdata (NData i j)). }
  pose proof (free_table_block s s2 _ (indirect x) G R2 (Hdata NInd I) Hp1) as R3.
  apply (freed_trans _ _ _ _ _ R2) in R3. set (s3 := if negb (indirect x =? 0) then _ else s2) in *. clearbody s3. clear R2.
  pose proof (free_double_block s s3 _ (double_indirect x) G R3 (Hdata NDbl I) Hp2 Hp3) as R4.
  set (s4 := if negb (double_indirect x =? 0) then _ else s3) in *. clearbody s4. clear R3.
  eapply freed_iff in R4; [| intros c; symmetry; apply tree_block_split].
  assert (Er : rtc s4 = rtc s) by apply R4. rewrite Er. fold (emptied x (rtc s)).
  destruct (freed_touched s s4 ino (emptied x (rtc s)) _ G Fi R4) as (s5 & -> & Tc & Ix & Hu); try done.
  - unfold inode_wf in *. cbn [emptied itype links isize iblocks mtime direct indirect double_indirect]. destruct_and! Hw.
    split_and!; try done; try lia. by apply Forall_replicate.
  - exists s5. split_and!; try done. by apply touched_evolves.
Qed.
End inodes.
End WfsInode.
