(* ===== verification/DirTree.v ===== *)
(** Directory trees, abstractly: which objects exist, which are directories and
    what each directory says of a name.  The invariant [rooted] is what makes
    such a table a tree, and the operations a file system promises (making,
    removing and moving an object) keep it.  The file systems are shown to
    implement these operations. *)

From S2P Require Import Prelude Str.

Module DirTree.
Import Str.

Record shape := Shape {
  alive : Z -> Prop;
  isdir : Z -> Prop;
  ent : Z -> list Z -> option Z;
}.

(** The two names every directory has for itself and the one above. *)
Definition special (n : list Z) : Prop := n = dot \/ n = dotdot.

#[export] Instance special_dec n : Decision (special n).
Proof. unfold special. apply _. Defined.

Section tree.
Variable root : Z.
Implicit Types t : shape.

(** [i] is [k] steps below the root. *)
Inductive placed t : Z -> nat -> Prop :=
| placed_root : placed t root 0
| placed_in p n i k : placed t p k -> isdir t p -> ~ special n -> ent t p n = Some i -> placed t i (S k).

(** [i] is [a] or somewhere inside it. *)
Inductive inside t (a : Z) : Z -> Prop :=
| inside_self : inside t a a
| inside_in p n i : inside t a p -> isdir t p -> ~ special n -> ent t p n = Some i -> inside t a i.

Record rooted t : Prop := {
  rt_dirs : forall d, isdir t d -> alive t d;
  rt_root : isdir t root;
  rt_entries : forall d n i, isdir t d -> ent t d n = Some i -> alive t i;
  rt_dot : forall d, isdir t d -> ent t d dot = Some d;
  rt_up : forall p n d, isdir t p -> ~ special n -> ent t p n = Some d -> isdir t d -> ent t d dotdot = Some p;
  rt_top : ent t root dotdot = Some root;
  rt_once : forall p n p' n' i, isdir t p -> isdir t p' -> ~ special n -> ~ special n' ->
    ent t p n = Some i -> ent t p' n' = Some i -> p = p' /\ n = n';
  rt_above : forall p n, isdir t p -> ~ special n -> ent t p n <> Some root;
  rt_placed : forall i, alive t i -> exists k, placed t i k;
}.

(** ** Facts *)

Lemma placed_unique t i k k' : rooted t -> placed t i k -> placed t i k' -> k = k'.
Proof.
  intros R P. revert k'. induction P as [| p n i k P IH Hp Hn Hi]; intros k' P'.
  - inversion P' as [| p n i k P2 Hp Hn Hi]; [done |]. subst. by destruct (rt_above _ R p n).
  - inversion P' as [| p' n' i' k2 P2 Hp' Hn' Hi']; subst; [by destruct (rt_above _ R p n) |].
    destruct (rt_once _ R p n p' n' i) as [<- _]; try done. f_equal. by apply IH.
Qed.

Lemma no_loop t p n : rooted t -> isdir t p -> ~ special n -> ent t p n <> Some p.
Proof.
  intros R Hp Hn E. destruct (rt_placed _ R p (rt_dirs _ R p Hp)) as [k P].
  pose proof (placed_unique t p k (S k) R P (placed_in _ _ _ _ _ P Hp Hn E)). lia.
Qed.

(** The directory a directory says is above it. *)
Lemma above_cases t d p :
  rooted t -> isdir t d -> ent t d dotdot = Some p ->
  (d = root /\ p = root) \/ (d <> root /\ exists n, isdir t p /\ ~ special n /\ ent t p n = Some d).
Proof.
  intros R Hd Hu. destruct (decide (d = root)) as [-> | Hne].
  - left. pose proof (rt_top _ R). split; congruence.
  - right. split; [done |]. destruct (rt_placed _ R d (rt_dirs _ R d Hd)) as [k P].
    inversion P as [| q n i k' P' Hq Hn Hi]; subst; [done |].
    pose proof (rt_up _ R q n d Hq Hn Hi Hd). assert (q = p) as -> by congruence. by exists n.
Qed.

Lemma special_there t d n : rooted t -> isdir t d -> special n -> ent t d n <> None.
Proof.
  intros R Hd [-> | ->]; [by rewrite (rt_dot _ R d Hd) |]. destruct (decide (d = root)) as [-> | Hne]; [by rewrite (rt_top _ R) |].
  destruct (rt_placed _ R d (rt_dirs _ R d Hd)) as [k P]. inversion P as [| q n i k' P' Hq Hn Hi]; subst; [done |].
  by rewrite (rt_up _ R q n d Hq Hn Hi Hd).
Qed.

Lemma inside_root t a : rooted t -> inside t a root -> a = root.
Proof. intros R Hin. inversion Hin as [| p n i H1 H2 H3 H4]; [done |]. subst. by destruct (rt_above _ R p n). Qed.

Lemma inside_step t a p n i :
  rooted t -> isdir t p -> ~ special n -> ent t p n = Some i -> a <> i -> inside t a i <-> inside t a p.
Proof.
  intros R Hp Hn Hi Hne. split; [| intros Hin; by apply (inside_in t a p n)].
  intros Hin. inversion Hin as [| p' n' i' H1 H2 H3 H4]; subst; [done |]. by destruct (rt_once _ R p n p' n' i) as [-> _].
Qed.

(** ** Operations *)

Definition put_ent (p : Z) (n : list Z) (v : option Z) (e : Z -> list Z -> option Z) : Z -> list Z -> option Z :=
  fun d m => if decide (d = p /\ m = n) then v else e d m.

Lemma put_ent_eq p n v e : put_ent p n v e p n = v.
Proof. unfold put_ent. by rewrite decide_True. Qed.

Lemma put_ent_ne p n v e d m : ~ (d = p /\ m = n) -> put_ent p n v e d m = e d m.
Proof. intros. unfold put_ent. by rewrite decide_False. Qed.

(** A new object [i] under the name [n] of [p]. *)
Definition make t (p : Z) (n : list Z) (i : Z) (dir : bool) : shape :=
  Shape (fun j => alive t j \/ j = i) (fun j => isdir t j \/ (dir = true /\ j = i))
    (put_ent p n (Some i) (fun d m =>
      if decide (d = i) then if decide (m = dot) then Some i else if decide (m = dotdot) then Some p else None
      else ent t d m)).

Definition remove t (p : Z) (n : list Z) (i : Z) : shape :=
  Shape (fun j => alive t j /\ j <> i) (fun j => isdir t j /\ j <> i) (put_ent p n None (ent t)).

(** The object [i] goes from [n] of [p] to [n'] of [p'].  (What a table says
    about an object that is no directory does not matter.) *)
Definition move t (p : Z) (n : list Z) (p' : Z) (n' : list Z) (i : Z) : shape :=
  Shape (alive t) (isdir t)
    (put_ent i dotdot (Some p') (put_ent p n None (put_ent p' n' (Some i) (ent t)))).

Lemma placed_mono t t' :
  (forall p n i, isdir t p -> ~ special n -> ent t p n = Some i -> isdir t' p /\ ent t' p n = Some i) ->
  forall i k, placed t i k -> placed t' i k.
Proof.
  intros Hm i k P. induction P as [| p n i k P IH Hp Hn Hi]; [constructor |].
  destruct (Hm p n i Hp Hn Hi). by apply (placed_in _ p n).
Qed.

Lemma special_dots : special dot /\ special dotdot.
Proof. by split; [left | right]. Qed.

Theorem rooted_make t p n i dir :
  rooted t -> isdir t p -> ~ alive t i -> ~ special n -> ent t p n = None -> rooted (make t p n i dir).
Proof.
  intros R Hp Hi Hn Hnone. destruct special_dots as [Sd Su].
  assert (Hpi : p <> i) by (intros ->; by apply Hi, R).
  assert (Hold : forall d, isdir t d -> d <> i) by (intros d Hd ->; by apply Hi, R).
  assert (Hri : root <> i) by apply Hold, R.
  assert (Hent : forall d m, isdir t d -> ~ (d = p /\ m = n) -> ent (make t p n i dir) d m = ent t d m).
  { intros d m Hd Hne. cbn [make ent]. rewrite put_ent_ne by done. by rewrite decide_False by auto. }
  assert (Hnew : forall d m j, isdir (make t p n i dir) d -> ~ special m -> ent (make t p n i dir) d m = Some j ->
    (d = p /\ m = n /\ j = i) \/ (isdir t d /\ ent t d m = Some j /\ j <> i)).
  { intros d m j Hd Hm He. destruct (decide (d = p /\ m = n)) as [[-> ->] | Hne].
    - left. cbn [make ent] in He. rewrite put_ent_eq in He. by injection He as <-.
    - right. destruct Hd as [Hd | [_ ->]].
      + rewrite Hent in He by done. split_and!; try done. intros ->. by apply Hi, (rt_entries _ R d m).
      + cbn [make ent] in He. rewrite put_ent_ne, decide_True in He by done. unfold special in Hm.
        rewrite !decide_False in He by tauto. done. }
  assert (Hat : ent (make t p n i dir) p n = Some i) by (cbn [make ent]; apply put_ent_eq).
  assert (Hself : ent (make t p n i dir) i dot = Some i /\ ent (make t p n i dir) i dotdot = Some p).
  { cbn [make ent]. rewrite !put_ent_ne by (intros [? _]; congruence). by rewrite !(decide_True (P := i = i)). }
  split.
  - intros d [Hd | [_ ->]]; [left; by apply R | by right].
  - left. apply R.
  - intros d m j Hd He. destruct (decide (special m)) as [Hm | Hm].
    + destruct Hd as [Hd | [_ ->]].
      * rewrite Hent in He by (done || by intros [_ ->]). left. by apply (rt_entries _ R d m).
      * destruct Hm as [-> | ->]; [right; destruct Hself; congruence | left; destruct Hself; simplify_eq; by apply R].
    + destruct (Hnew d m j Hd Hm He) as [(_ & _ & ->) | (Hd' & He' & _)]; [by right |]. left. by apply (rt_entries _ R d m).
  - intros d [Hd | [_ ->]]; [| apply Hself]. rewrite Hent by (done || (intros [_ <-]; done)). by apply R.
  - intros q m d Hq Hm He Hd. destruct (Hnew q m d Hq Hm He) as [(-> & -> & ->) | (Hq' & He' & Hne)]; [apply Hself |].
    destruct Hd as [Hd | [_ ->]]; [| done]. rewrite Hent by (done || by intros [_ <-]). by apply (rt_up _ R q m).
  - rewrite Hent; [apply R | apply R | by intros [_ <-]].
  - intros q m q' m' j Hq Hq' Hm Hm' He He'.
    destruct (Hnew q m j Hq Hm He) as [(-> & -> & ->) | (Dq & Eq & Hne)], (Hnew q' m' _ Hq' Hm' He') as [(-> & -> & E) | (Dq' & Eq' & Hne')];
      try done. by apply (rt_once _ R q m q' m' j).
  - intros q m Hq Hm He. destruct (Hnew q m root Hq Hm He) as [(_ & _ & ?) | (Dq & Eq & _)]; [done |]. by apply (rt_above _ R q m).
  - assert (Hpl : forall j k, placed t j k -> placed (make t p n i dir) j k).
    { apply placed_mono. intros q m j Hq Hm He. split; [by left |]. rewrite Hent; [done.. |]. intros [-> ->]. congruence. }
    intros j [Hj | ->].
    + destruct (rt_placed _ R j Hj) as [k P]. exists k. by apply Hpl.
    + destruct (rt_placed _ R p (rt_dirs _ R p Hp)) as [k P]. exists (S k). apply (placed_in _ p n); try done; [by apply Hpl | by left].
Qed.

Theorem rooted_remove t p n i :
  rooted t -> isdir t p -> ~ special n -> ent t p n = Some i ->
  (isdir t i -> forall m j, ent t i m = Some j -> special m) -> rooted (remove t p n i).
Proof.
  intros R Hp Hn Hi Hempty. destruct special_dots as [Sd Su].
  assert (Hri : root <> i) by (intros <-; by apply (rt_above _ R p n)).
  assert (Hpi : p <> i) by (intros <-; by apply (no_loop t p n)).
  assert (Hent : forall d m, ~ (d = p /\ m = n) -> ent (remove t p n i) d m = ent t d m) by (intros; by apply put_ent_ne).
  assert (Hsub : forall d m j, ent (remove t p n i) d m = Some j -> ent t d m = Some j /\ ~ (d = p /\ m = n)).
  { intros d m j He. destruct (decide (d = p /\ m = n)) as [[-> ->] | Hne]; [cbn [remove ent] in He; by rewrite put_ent_eq in He |].
    by rewrite Hent in He. }
  assert (Hother : forall d m j, isdir t d -> d <> i -> ent t d m = Some j -> ~ (d = p /\ m = n) -> j <> i).
  { intros d m j Hd Hdi He Hne ->. destruct (decide (special m)) as [[-> | ->] | Hm].
    - pose proof (rt_dot _ R d Hd). congruence.
    - destruct (above_cases t d i R Hd He) as [[_ E] | (_ & m & Hdi' & Hm & Hd')]; [congruence |]. by apply Hm, (Hempty Hdi' m d).
    - destruct (rt_once _ R d m p n i) as [-> ->]; try done. by apply Hne. }
  split.
  - intros d [Hd Hne]. split; [by apply R | done].
  - split; [apply R | done].
  - intros d m j [Hd Hne] He. apply Hsub in He as [He Hx]. split; [by apply (rt_entries _ R d m) | by apply (Hother d m)].
  - intros d [Hd Hne]. rewrite Hent by (intros [_ <-]; done). by apply R.
  - intros q m d [Hq _] Hm He [Hd _]. apply Hsub in He as [He _]. rewrite Hent by (by intros [_ <-]). by apply (rt_up _ R q m).
  - rewrite Hent by (by intros [_ <-]). apply R.
  - intros q m q' m' j [Hq _] [Hq' _] Hm Hm' He He'. apply Hsub in He as [He _]. apply Hsub in He' as [He' _]. by apply (rt_once _ R q m q' m' j).
  - intros q m [Hq _] Hm He. apply Hsub in He as [He _]. by apply (rt_above _ R q m).
  - intros j [Hj Hne]. destruct (rt_placed _ R j Hj) as [k P]. exists k. clear Hj.
    induction P as [| q m j k P IH Hq Hm He]; [constructor |].
    assert (Hqi : q <> i) by (intros ->; by apply Hm, (Hempty Hq m j)).
    apply (placed_in _ q m); [by apply IH | done | done |]. rewrite Hent; [done |]. intros [-> ->]. congruence.
Qed.

Lemma inside_leaf t a j : ~ isdir t a -> inside t a j -> j = a.
Proof. intros Ha Hin. induction Hin as [| p n j Hin IH Hp Hn He]; [done |]. by rewrite IH in Hp. Qed.

Theorem rooted_move t p n p' n' i :
  rooted t -> isdir t p -> isdir t p' -> ~ special n -> ~ special n' -> ent t p n = Some i -> ent t p' n' = None ->
  ~ inside t i p' -> rooted (move t p n p' n' i).
Proof.
  intros R Hp Hp' Hn Hn' Hi Hnone Hin. destruct special_dots as [Sd Su].
  assert (Hri : root <> i) by (intros <-; by apply (rt_above _ R p n)).
  assert (Hpi : p' <> i) by (intros <-; apply Hin; constructor).
  assert (Hne : ~ (p' = p /\ n' = n)) by (intros [-> ->]; congruence).
  assert (Hat : ent (move t p n p' n' i) p' n' = Some i).
  { cbn [move ent]. rewrite put_ent_ne by (intros [? _]; done). rewrite put_ent_ne by done. apply put_ent_eq. }
  assert (Hold : forall d m, ~ special m -> ~ (d = p /\ m = n) -> ~ (d = p' /\ m = n') -> ent (move t p n p' n' i) d m = ent t d m).
  { intros d m Hm H1 H2. cbn [move ent]. rewrite !put_ent_ne; try done. by intros [_ ->]. }
  assert (Hdot : forall d m, special m -> ~ (d = i /\ m = dotdot) -> ent (move t p n p' n' i) d m = ent t d m).
  { intros d m Hm H1. cbn [move ent]. rewrite !put_ent_ne; try done; by intros [_ ->]. }
  assert (Hup : ent (move t p n p' n' i) i dotdot = Some p') by apply put_ent_eq.
  assert (Hnew : forall d m j, isdir t d -> ~ special m -> ent (move t p n p' n' i) d m = Some j ->
    (d = p' /\ m = n' /\ j = i) \/ (ent t d m = Some j /\ j <> i)).
  { intros d m j Hd Hm He. destruct (decide (d = p' /\ m = n')) as [[-> ->] | H1]; [left; by simplify_eq |].
    right. destruct (decide (d = p /\ m = n)) as [[-> ->] | H2].
    - cbn [move ent] in He. rewrite put_ent_ne, put_ent_eq in He by (by intros [_ ->]). done.
    - rewrite Hold in He by done. split; [done |]. intros ->. destruct (rt_once _ R d m p n i) as [-> ->]; try done. by apply H2. }
  split; try apply R.
  - intros d m j Hd He. destruct (decide (special m)) as [Hm | Hm].
    + destruct (decide (d = i /\ m = dotdot)) as [[-> ->] | H1]; [simplify_eq; by apply R |].
      rewrite Hdot in He by done. by apply (rt_entries _ R d m).
    + destruct (Hnew d m j Hd Hm He) as [(_ & _ & ->) | [He' _]]; [by apply (rt_entries _ R p n) | by apply (rt_entries _ R d m)].
  - intros d Hd. rewrite Hdot by (done || by intros [_ ?]). by apply R.
  - intros q m d Hq Hm He Hd. destruct (Hnew q m d Hq Hm He) as [(-> & -> & ->) | [He' Hdi]]; [done |].
    rewrite Hdot by (done || by intros [-> _]). by apply (rt_up _ R q m).
  - rewrite Hdot by (done || by intros [? _]). apply R.
  - intros q m q' m' j Hq Hq' Hm Hm' He He'.
    destruct (Hnew q m j Hq Hm He) as [(-> & -> & ->) | [Eq H1]], (Hnew q' m' _ Hq' Hm' He') as [(-> & -> & E) | [Eq' H2]]; try done.
    by apply (rt_once _ R q m q' m' j).
  - intros q m Hq Hm He. destruct (Hnew q m root Hq Hm He) as [(_ & _ & ?) | [Eq _]]; [done |]. by apply (rt_above _ R q m).
  - assert (Hout : forall j k, placed t j k -> ~ inside t i j -> placed (move t p n p' n' i) j k).
    { intros j k P. induction P as [| q m j k P IH Hq Hm He]; intros Hj; [constructor |].
      assert (Hji : j <> i) by (intros ->; apply Hj; constructor).
      apply (placed_in _ q m); try done; [apply IH; intros Hq'; apply Hj; by apply (inside_in t i q m) |].
      rewrite Hold; [done.. | |]; intros [-> ->]; congruence. }
    destruct (rt_placed _ R p' (rt_dirs _ R p' Hp')) as [k0 P0]. specialize (Hout p' k0 P0 Hin).
    intros j Hj. destruct (rt_placed _ R j Hj) as [k P]. clear Hj.
    induction P as [| q m j k P [k' IH] Hq Hm He]; [exists 0%nat; constructor |].
    destruct (decide (j = i)) as [-> | Hji]; [exists (S k0); by apply (placed_in _ p' n') |].
    exists (S k'). apply (placed_in _ q m); try done. rewrite Hold; [done.. | |]; intros [-> ->]; congruence.
Qed.

(** ** Tables that say the same *)

#[export] Instance shape_equiv : Equiv shape := fun t t' =>
  (forall j, alive t j <-> alive t' j) /\ (forall j, isdir t j <-> isdir t' j) /\
  (forall d n, isdir t d -> ent t d n = ent t' d n).

#[export] Instance shape_equivalence : Equivalence (≡@{shape}).
Proof.
  split.
  - by intros t.
  - intros t t' (Ha & Hd & He). split_and!; [done.. |]. intros d n Hdir. symmetry. by apply He, Hd.
  - intros t t' t'' (Ha & Hd & He) (Ha' & Hd' & He'). split_and!.
    + intros j. by rewrite Ha.
    + intros j. by rewrite Hd.
    + intros d n Hdir. rewrite He by done. by apply He', Hd.
Qed.

Lemma placed_equiv t t' i k : t ≡ t' -> placed t i k -> placed t' i k.
Proof.
  intros (Ha & Hd & He). apply placed_mono. intros p n j Hp _ Hj. split; [by apply Hd |]. by rewrite <- He.
Qed.

Lemma inside_equiv t t' a i : t ≡ t' -> inside t a i -> inside t' a i.
Proof.
  intros (Ha & Hd & He) Hin. induction Hin as [| p n i Hin IH Hp Hn Hi]; [constructor |].
  apply (inside_in _ _ p n); [done | by apply Hd | done |]. by rewrite <- He.
Qed.

Lemma put_ent_equiv t t' p n v d m : t ≡ t' -> isdir t d -> put_ent p n v (ent t) d m = put_ent p n v (ent t') d m.
Proof. intros (_ & _ & He) Hd. unfold put_ent. destruct (decide _); [done | by apply He]. Qed.

Lemma make_equiv t t' p n i dir : t ≡ t' -> make t p n i dir ≡ make t' p n i dir.
Proof.
  intros (Ha & Hd & He). split_and!; cbn [make alive isdir ent]; [intros j; by rewrite Ha | intros j; by rewrite Hd |].
  intros d m Hdir. unfold put_ent. destruct (decide (d = p /\ m = n)); [done |]. destruct (decide (d = i)) as [-> | Hne]; [done |].
  apply He. destruct Hdir as [? | [_ ->]]; done.
Qed.

Lemma remove_equiv t t' p n i : t ≡ t' -> remove t p n i ≡ remove t' p n i.
Proof.
  intros E. pose proof E as (Ha & Hd & He). split_and!; cbn [remove alive isdir ent]; [intros j; by rewrite Ha | intros j; by rewrite Hd |].
  intros d m [Hdir _]. by apply put_ent_equiv.
Qed.

Lemma move_equiv t t' p n p' n' i : t ≡ t' -> move t p n p' n' i ≡ move t' p n p' n' i.
Proof.
  intros E. pose proof E as (Ha & Hd & He). split_and!; cbn [move alive isdir ent]; [done | done |].
  intros d m Hdir. unfold put_ent. repeat (destruct (decide _); [done |]). by apply He.
Qed.

#[export] Instance rooted_proper : Proper ((≡) ==> iff) rooted.
Proof.
  assert (Hone : forall t t', t ≡ t' -> rooted t -> rooted t').
  { intros t t' E R. pose proof E as (Ha & Hd & He). split.
    - intros d Hd'. by apply Ha, R, Hd.
    - by apply Hd, R.
    - intros d n i Hd' Hi. apply Hd in Hd'. rewrite <- He in Hi by done. by apply Ha, (rt_entries _ R d n).
    - intros d Hd'. apply Hd in Hd'. rewrite <- He by done. by apply R.
    - intros p n d Hp Hn Hi Hd'. apply Hd in Hp, Hd'. rewrite <- He in Hi |- * by done. by apply (rt_up _ R p n).
    - rewrite <- He by apply R. apply R.
    - intros p n p' n' i Hp Hp' Hn Hn' Hi Hi'. apply Hd in Hp, Hp'. rewrite <- He in Hi, Hi' by done. by apply (rt_once _ R p n p' n' i).
    - intros p n Hp Hn. apply Hd in Hp. rewrite <- He by done. by apply R.
    - intros i Hi. apply Ha in Hi. destruct (rt_placed _ R i Hi) as [k P]. exists k. by apply (placed_equiv t). }
  intros t t' E. split; [by apply Hone | by apply Hone].
Qed.
End tree.

#[export] Existing Instances shape_equiv shape_equivalence rooted_proper.
End DirTree.
