(* ===== verification/WfsTree.v ===== *)
(** WFS implements the directory tree: looking up, creating, removing and
    renaming by path ([wfs_lookup], [wfs_create], [wfs_unlink], [wfs_rename] of
    [kernel/fs/wfs.c]) are the operations of [DirTree] on the tree the volume
    stands for. *)

From S2P Require Import Prelude Str Device Ramdisk Wfs WfsFile WfsDir WfsDirSpec WfsInode DirTree.

Module WfsTree.
Import Str Wfs WfsFile WfsDir WfsDirSpec WfsInode DirTree.

(** Inclusion of short lists of inode numbers. *)
Ltac in_list := intros ?; rewrite ?elem_of_app, ?elem_of_cons, ?elem_of_nil; tauto.

Section tree.
Context {D : Type} `{Hdev : BlockDevice D} `{!BlockDeviceLaws D} `{!ReliableDevice D}.
Implicit Types s : fs D.

Definition is_dir s (d : Z) : Prop := live s d /\ itype (inode_at s d) = WFS_TYPE_DIR.

(** The tree of the volume. *)
Definition tree_of s : shape := Shape (live s) (is_dir s) (entry s).

(** A mounted volume whose files and directories are sound, each by itself. *)
Record base_ok s : Prop := {
  bo_files :> files_ok s;
  bo_mounted : mounted s = true;
  bo_rtc : 0 <= rtc s < 2 ^ 32;
  bo_dir : forall d, is_dir s d -> dir_ok s d;
}.

(** ** What is kept *)

Lemma kept_slots s s' d : kept s s' d -> file_ok s d -> slots s' d = slots s d.
Proof.
  intros K F. unfold slots. rewrite (kp_inode _ _ _ K). apply list_fmap_ext. intros i k Hk. apply lookup_seqZ in Hk.
  unfold slot_at, bytes. apply list_fmap_ext. intros j b Hb. apply lookup_seqZ in Hb. apply (kp_bytes _ _ _ K).
  pose proof (fo_size _ _ F). zlia.
Qed.

Lemma kept_dir s s' d : kept s s' d -> file_ok s' d -> dir_ok s d -> dir_ok s' d.
Proof.
  intros K F' [F Ty Hm Hth Hon]. pose proof (kp_inode _ _ _ K) as Ei. split; rewrite ?Ei, ?(kept_slots _ _ _ K F); try done.
  intros k Hk. rewrite <- Ei, (kp_addr _ _ _ K); [by apply Hth |]. apply node_of_valid. pose proof (fo_size _ _ F). zlia.
Qed.

Lemma kept_entry s s' d n : kept s s' d -> file_ok s d -> entry s' d n = entry s d n.
Proof. intros K F. unfold entry. by rewrite (kept_slots _ _ _ K F). Qed.

Lemma is_dir_evolves s s' m d : evolves s s' m -> d ∉ m -> is_dir s' d <-> is_dir s d.
Proof.
  intros E Hd. unfold is_dir. rewrite (live_evolves _ _ _ _ E Hd).
  split; intros [Hl Ht]; (split; [done |]); [rewrite <- (ev_inode _ _ _ E) | rewrite (ev_inode _ _ _ E)]; try done; apply Hl.
Qed.

Lemma entry_evolves s s' m d n : base_ok s -> evolves s s' m -> d ∉ m -> is_dir s d -> entry s' d n = entry s d n.
Proof. intros B E Hd Hdir. apply kept_entry; [by apply E, Hd; apply Hdir | apply B, Hdir]. Qed.

Lemma base_evolves s s' m :
  base_ok s -> evolves s s' m -> (forall d, d ∈ m -> is_dir s' d -> dir_ok s' d) -> base_ok s'.
Proof.
  intros B E Hm. split; [apply E | rewrite (ev_mounted _ _ _ E); apply B | rewrite (ev_rtc _ _ _ E); apply B |].
  intros d Hd. destruct (decide (d ∈ m)) as [Hin | Hn]; [by apply Hm |].
  assert (Hd' : is_dir s d) by (by apply (is_dir_evolves _ _ _ _ E)).
  apply (kept_dir s); [by apply E, Hn; apply Hd' | by apply (fk_file _ (ev_files _ _ _ E)), Hd | by apply B].
Qed.

Lemma quiet_base s s' : base_ok s -> quiet s s' -> base_ok s' /\ evolves s s' [].
Proof.
  intros B Q. pose proof (quiet_evolves s s' B Q) as E. split; [| done]. apply (base_evolves s s' [] B E).
  intros d Hd. by apply not_elem_of_nil in Hd.
Qed.

Lemma quiet_tree_of s s' : base_ok s -> quiet s s' -> tree_of s' ≡ tree_of s.
Proof.
  intros B Q. destruct (quiet_base s s' B Q) as [_ E]. pose proof (not_elem_of_nil (A := Z)) as Hn. split_and!; cbn [tree_of alive isdir ent].
  - intros j. by apply (live_evolves _ _ _ _ E).
  - intros j. by apply (is_dir_evolves _ _ _ _ E).
  - intros d n Hd. apply (is_dir_evolves _ _ _ _ E) in Hd; [| done]. by apply (entry_evolves s s' []).
Qed.

(** ** The primitive changes, as changes of the tree *)

Lemma good_ino_range s i : files_ok s -> good_ino s i -> 0 < i < 2 ^ 32.
Proof. intros F [? ?]. pose proof (fk_total _ F). lia. Qed.

Lemma touched_tree s s' d :
  base_ok s -> is_dir s d -> touched s s' d -> dir_ok s' d ->
  base_ok s' /\ evolves s s' [d] /\ (forall j, live s' j <-> live s j) /\ (forall j, is_dir s' j <-> is_dir s j) /\
  (forall j n, is_dir s j -> j <> d -> entry s' j n = entry s j n).
Proof.
  intros B Hd T Hok. pose proof (touched_evolves s s' d B (proj1 Hd) T) as E.
  assert (Hl : live s' d).
  { split; [apply (good_ino_evolves _ _ _ _ E), Hd | rewrite (tc_type _ _ _ T); apply Hd]. }
  assert (Hdir : is_dir s' d) by (split; [done | rewrite (tc_type _ _ _ T); apply Hd]).
  split_and!; [| done | | |].
  - apply (base_evolves s s' [d] B E). intros j Hj. apply list_elem_of_singleton in Hj as ->. done.
  - intros j. destruct (decide (j = d)) as [-> | Hne]; [by split; intros _; [apply Hd |] |]. apply (live_evolves _ _ _ _ E). by rewrite list_elem_of_singleton.
  - intros j. destruct (decide (j = d)) as [-> | Hne]; [by split |]. apply (is_dir_evolves _ _ _ _ E). by rewrite list_elem_of_singleton.
  - intros j n Hj Hne. apply (entry_evolves s s' [d]); try done. by rewrite list_elem_of_singleton.
Qed.

(** A directory gains an entry. *)
Definition with_ent (t : shape) (d : Z) (n : list Z) (v : option Z) : shape := Shape (alive t) (isdir t) (put_ent d n v (ent t)).

Lemma add_tree s d name ino :
  base_ok s -> is_dir s d -> name_ok name -> good_ino s ino -> entry s d name = None ->
  exists r s', dir_add d name ino s = (r, s') /\ base_ok s' /\ evolves s s' [d] /\
    ((r = 0 /\ tree_of s' ≡ with_ent (tree_of s) d name (Some ino)) \/
     (no_room r s' /\ tree_of s' ≡ tree_of s /\ Forall (fun e => ent_ino e <> 0) (slots s d))).
Proof.
  intros B Hd Hn Hi Hnone. pose proof (good_ino_range s ino B Hi) as Hr.
  destruct (dir_add_spec s d name ino B (bo_dir _ B d Hd) (bo_rtc _ B) Hn Hr Hnone) as (r & s' & E & T & Hok & Hcase).
  destruct (touched_tree s s' d B Hd T Hok) as (B' & Ev & Hl & Hdir & Hent). exists r, s'. split; [done | split; [done | split; [done |]]].
  destruct Hcase as [[-> He] | (Hno & He & Hfull)]; [left; split; [done |] | right; split; [done | split; [| done]]];
    (split_and!; [exact Hl | exact Hdir |]); cbn [tree_of with_ent alive isdir ent]; intros j n Hj.
  - apply Hdir in Hj. unfold put_ent. destruct (decide (j = d)) as [-> | Hne].
    + rewrite He. destruct (decide (n = name)) as [-> |]; [by rewrite decide_True | by rewrite decide_False by tauto].
    + rewrite decide_False by tauto. by apply Hent.
  - apply Hdir in Hj. destruct (decide (j = d)) as [-> | Hne]; [by rewrite He | by apply Hent].
Qed.

(** A directory loses one. *)
Lemma remove_tree s d name :
  base_ok s -> is_dir s d -> entry s d name <> None ->
  exists s', dir_remove d name s = (0, s') /\ base_ok s' /\ evolves s s' [d] /\
    tree_of s' ≡ with_ent (tree_of s) d name None /\ ~ Forall (fun e => ent_ino e <> 0) (slots s' d).
Proof.
  intros B Hd Hsome. destruct (dir_remove_spec s d name B (bo_dir _ B d Hd) (bo_rtc _ B)) as (s' & E & T & Hok & He & Hfree).
  destruct (touched_tree s s' d B Hd T Hok) as (B' & Ev & Hl & Hdir & Hent). exists s'. split; [| split; [done | split; [done | split]]].
  - rewrite E. by destruct (entry s d name).
  - split_and!; [exact Hl | exact Hdir |]. cbn [tree_of with_ent alive isdir ent]. intros j n Hj.
    apply Hdir in Hj. unfold put_ent. destruct (decide (j = d)) as [-> | Hne].
    + rewrite He. destruct (decide (n = name)) as [-> |]; [by rewrite decide_True | by rewrite decide_False by tauto].
    + rewrite decide_False by tauto. by apply Hent.
  - by apply Hfree.
Qed.

(** ** Looking up *)

(** A mounted volume that is a tree. *)
Record vol_ok s : Prop := {
  vk_base :> base_ok s;
  vk_root : root_inode (sb s) = WFS_ROOT_INO;
  vk_tree : rooted WFS_ROOT_INO (tree_of s);
}.

Lemma vol_ok_quiet s s' : vol_ok s -> quiet s s' -> vol_ok s'.
Proof.
  intros [B Hr R] Q. destruct (quiet_base s s' B Q) as [B' E]. split; [done | by rewrite (ev_root _ _ _ E) |].
  rewrite (quiet_tree_of s s' B Q). done.
Qed.

(** The code and the inode that following names from [d] gives. *)
Fixpoint follow s (d : Z) (l : list (list Z)) : Z * Z :=
  match l with
  | [] => (0, d)
  | n :: l =>
      if WFS_NAME_MAX <? Zlen n then (- W_ENAMETOOLONG, 0)
      else if itype (inode_at s d) =? WFS_TYPE_DIR then
        match entry s d n with Some i => follow s i l | None => (- W_ENOENT, 0) end
      else (- W_ENOTDIR, 0)
  end.

Lemma type_dir s d : live s d -> itype (inode_at s d) = WFS_TYPE_DIR -> is_dir s d.
Proof. by split. Qed.

Lemma follow_quiet s s' : vol_ok s -> quiet s s' -> forall l d, live s d -> follow s' d l = follow s d l.
Proof.
  intros V Q. induction l as [| n l IH]; intros d Hd; cbn [follow]; [done |]. destruct (WFS_NAME_MAX <? Zlen n); [done |].
  rewrite (inode_at_quiet _ _ _ Q). destruct (Z.eqb_spec (itype (inode_at s d)) WFS_TYPE_DIR) as [Ht |]; [| done].
  rewrite (entry_quiet s s') by (done || by apply (fk_file _ V)).
  destruct (entry s d n) as [i |] eqn:Ei; [| done]. apply IH. by apply (rt_entries _ _ (vk_tree _ V) d n).
Qed.

Lemma lookup_loop_spec : forall fuel ino p s,
  vol_ok s -> live s ino -> (length p < fuel)%nat ->
  exists s', lookup_loop fuel ino p s = (follow s ino (components p), s') /\ quiet s s'.
Proof.
  induction fuel as [| fuel IH]; intros ino p s V Hl Hf; [lia |]. cbn [lookup_loop].
  rewrite <- components_skip. pose proof (skip_slashes_head p) as Hh. pose proof (skip_slashes_length p) as Hlen.
  destruct (skip_slashes p) as [| c q]; [exists s; split; [done | by apply quiet_refl, V] |].
  rewrite components_step by done. pose proof (component_length c q Hh) as Hcl.
  destruct (component (c :: q)) as [name rest]. cbn [fst snd follow] in *.
  destruct (WFS_NAME_MAX <? Zlen name); [exists s; split; [done | by apply quiet_refl, V] |].
  destruct (Z.eqb_spec (itype (inode_at s ino)) WFS_TYPE_DIR) as [Ht | Ht].
  - destruct (dir_find_spec s ino name V) as (s1 & -> & Q); [by apply V, type_dir |].
    destruct (entry s ino name) as [i |] eqn:Ei; [| by exists s1]. cbn [Z.ltb Z.compare].
    assert (Hi : live s i) by (by apply (rt_entries _ _ (vk_tree _ V) ino name)).
    destruct (IH i rest s1) as (s2 & -> & Q2); [by apply (vol_ok_quiet s) | | cbn [length] in *; lia |].
    { apply (live_evolves _ _ _ _ (proj2 (quiet_base s s1 V Q))); [by apply not_elem_of_nil | done]. }
    exists s2. split; [| by apply (quiet_trans _ s1)]. by rewrite (follow_quiet s s1).
  - destruct (dir_find_notdir s ino name V (proj1 Hl) Ht) as (s1 & -> & Q). by exists s1.
Qed.

Lemma root_live s : vol_ok s -> is_dir s (root_inode (sb s)).
Proof. intros V. rewrite (vk_root _ V). apply (rt_root _ _ (vk_tree _ V)). Qed.

Lemma lookup_spec s path :
  vol_ok s ->
  exists s', wfs_lookup path s =
    (if path.[0] =? slash then follow s (root_inode (sb s)) (components path) else (- W_EINVAL, 0), s') /\ quiet s s'.
Proof.
  intros V. unfold wfs_lookup. rewrite (bo_mounted _ V). cbn [negb]. destruct (path.[0] =? slash); cbn [negb].
  - apply lookup_loop_spec; [done | by apply root_live | lia].
  - exists s. split; [done | by apply quiet_refl, V].
Qed.

Lemma follow_live s : vol_ok s -> forall l d i, live s d -> follow s d l = (0, i) -> live s i.
Proof.
  intros V. induction l as [| n l IH]; intros d i Hd; cbn [follow]; [by intros [= <-] |].
  destruct (WFS_NAME_MAX <? Zlen n); [done |]. destruct (Z.eqb_spec (itype (inode_at s d)) WFS_TYPE_DIR) as [Ht |]; [| done].
  destruct (entry s d n) as [j |] eqn:Ej; [| done]. apply IH. by apply (rt_entries _ _ (vk_tree _ V) d n).
Qed.

Lemma follow_code s l : forall d, (follow s d l).1 = 0 \/ (follow s d l).1 < 0.
Proof.
  induction l as [| n l IH]; intros d; cbn [follow]; [by left |]. destruct (WFS_NAME_MAX <? Zlen n); [right; cbn; unfold W_ENAMETOOLONG; lia |].
  destruct (itype _ =? _); [| right; cbn; unfold W_ENOTDIR; lia]. destruct (entry s d n); [apply IH | right; cbn; unfold W_ENOENT; lia].
Qed.

(** Every name takes at most one step down. *)
Lemma follow_depth s : vol_ok s -> forall l d k i,
  placed WFS_ROOT_INO (tree_of s) d k -> live s d -> follow s d l = (0, i) ->
  exists k', placed WFS_ROOT_INO (tree_of s) i k' /\ (k' <= k + length l)%nat.
Proof.
  intros V. pose proof (vk_tree _ V) as R. induction l as [| n l IH]; intros d k i P Hd; cbn [follow length].
  { intros [= <-]. exists k. split; [done | lia]. }
  destruct (WFS_NAME_MAX <? Zlen n); [done |]. destruct (Z.eqb_spec (itype (inode_at s d)) WFS_TYPE_DIR) as [Ht |]; [| done].
  destruct (entry s d n) as [j |] eqn:Ej; [| done]. intros E. pose proof (type_dir s d Hd Ht) as Hdir.
  assert (Hj : exists k', placed WFS_ROOT_INO (tree_of s) j k' /\ (k' <= S k)%nat).
  { destruct (decide (special n)) as [[-> | ->] | Hn].
    - pose proof (rt_dot _ _ R d Hdir) as E'. cbn [tree_of ent] in E'. assert (j = d) as -> by congruence. exists k. split; [done | lia].
    - destruct (above_cases _ (tree_of s) d j R Hdir Ej) as [[-> ->] | (Hne & m & Hj & Hm & Hd')]; [exists k; split; [done | lia] |].
      destruct (rt_placed _ _ R j (rt_dirs _ _ R j Hj)) as [k' P']. exists k'. split; [done |].
      pose proof (placed_unique _ _ d k (S k') R P (placed_in _ _ _ _ _ _ P' Hj Hm Hd')). lia.
    - exists (S k). split; [| lia]. by apply (placed_in _ _ d n). }
  destruct Hj as (k1 & P1 & Hk1). destruct (IH j k1 i P1) as (k2 & P2 & Hk2); [by apply (rt_entries _ _ R d n) | done |].
  exists k2. split; [done | lia].
Qed.

(** *** The parent of a path *)

Definition parent_at s (path : list Z) : Z * Z * list Z :=
  match last_slash path with
  | None => (- W_EINVAL, 0, [])
  | Some (before, name) =>
      if Zlen name =? 0 then (- W_EINVAL, 0, [])
      else if WFS_NAME_MAX <? Zlen name then (- W_ENAMETOOLONG, 0, [])
      else if Zlen before =? 0 then (0, root_inode (sb s), name)
      else if W_PATH_MAX <? Zlen before then (- W_ENAMETOOLONG, 0, name)
      else if before.[0] =? slash then (follow s (root_inode (sb s)) (components before), name)
      else (- W_EINVAL, 0, name)
  end.

Lemma resolve_parent_spec s path :
  vol_ok s -> exists s', resolve_parent path s = (parent_at s path, s') /\ quiet s s'.
Proof.
  intros V. assert (Q : quiet s s) by apply quiet_refl, V. unfold resolve_parent, parent_at.
  destruct (last_slash path) as [[before name] |]; [| by exists s]. destruct (Zlen name =? 0); [by exists s |].
  destruct (WFS_NAME_MAX <? Zlen name); [by exists s |]. destruct (Zlen before =? 0); [by exists s |].
  destruct (W_PATH_MAX <? Zlen before); [by exists s |]. destruct (lookup_spec s before V) as (s' & -> & Q'). exists s'.
  split; [| done]. destruct (before.[0] =? slash); [| done]. by destruct (follow s _ _).
Qed.

Lemma parent_at_quiet s s' path : vol_ok s -> quiet s s' -> parent_at s' path = parent_at s path.
Proof.
  intros V Q. unfold parent_at. rewrite (sm_sb _ _ (qt_meta _ _ Q)). rewrite (vk_root _ V). destruct (last_slash path) as [[b n] |]; [| done].
  repeat (case_match; [done |]). case_match; [| done]. f_equal. apply follow_quiet; [done.. |].
  apply (rt_dirs _ _ (vk_tree _ V)), (rt_root _ _ (vk_tree _ V)).
Qed.

Lemma last_slash_spec path before name : last_slash path = Some (before, name) -> path = before ++ slash :: name /\ slash ∉ name.
Proof.
  revert before name. induction path as [| c q IH]; intros before name; cbn [last_slash]; [done |].
  destruct (last_slash q) as [[a b] |] eqn:E.
  - intros [= <- <-]. destruct (IH a b eq_refl) as [-> ?]. done.
  - destruct (Z.eqb_spec c slash) as [-> |]; [| done]. intros [= <- <-]. split; [done |]. clear IH. revert E.
    induction q as [| d q IHq]; cbn [last_slash]; [intros _; apply not_elem_of_nil |].
    destruct (last_slash q) as [[a b] |]; [done |]. destruct (Z.eqb_spec d slash); [done |]. intros _.
    rewrite not_elem_of_cons. split; [done | by apply IHq].
Qed.

Lemma parent_at_spec s path r p name :
  vol_ok s -> Forall (fun c => c <> 0) path -> parent_at s path = (r, p, name) ->
  r < 0 \/ (r = 0 /\ live s p /\ name_ok name /\ exists k, placed WFS_ROOT_INO (tree_of s) p k /\ (k < 256)%nat).
Proof.
  intros V Hnz. pose proof (root_live s V) as Hroot. assert (Hp0 : placed WFS_ROOT_INO (tree_of s) (root_inode (sb s)) 0).
  { rewrite (vk_root _ V). constructor. }
  unfold parent_at. destruct (last_slash path) as [[before n] |] eqn:El; [| intros [= <- _ _]; left; unfold W_EINVAL; lia].
  apply last_slash_spec in El as [-> _]. apply Forall_app in Hnz as [_ Hnz]. apply Forall_cons_1 in Hnz as [_ Hnz].
  destruct (Zlen n =? 0); [intros [= <- _ _]; left; unfold W_EINVAL; lia |].
  destruct (Z.ltb_spec WFS_NAME_MAX (Zlen n)) as [? | Hn]; [intros [= <- _ _]; left; unfold W_ENAMETOOLONG; lia |].
  destruct (Zlen before =? 0).
  { intros [= <- <- <-]. right. split_and!; [done | apply Hroot | done | exists 0%nat; split; [done | lia]]. }
  destruct (Z.ltb_spec W_PATH_MAX (Zlen before)) as [? | Hb]; [intros [= <- _ _]; left; unfold W_ENAMETOOLONG; lia |].
  destruct (before.[0] =? slash); [| intros [= <- _ _]; left; unfold W_EINVAL; lia].
  destruct (follow s _ (components before)) as [r' i] eqn:Ef. intros [= <- <- <-].
  destruct (follow_code s (components before) (root_inode (sb s))) as [Hc | Hc]; rewrite Ef in Hc; cbn [fst] in Hc; [subst r'; right | by left].
  split_and!; [done | by apply (follow_live s V _ _ _ (proj1 Hroot) Ef) | done |].
  destruct (follow_depth s V _ _ 0 i Hp0 (proj1 Hroot) Ef) as (k & P & Hk). exists k. split; [done |].
  pose proof (components_length before). unfold Zlen, W_PATH_MAX in Hb. lia.
Qed.

(** ** Inodes come and go *)

Definition without (t : shape) (i : Z) : shape := Shape (fun j => alive t j /\ j <> i) (fun j => isdir t j /\ j <> i) (ent t).
Definition spawned (t : shape) (i : Z) (dir : bool) : shape :=
  Shape (fun j => alive t j \/ j = i) (fun j => isdir t j \/ (dir = true /\ j = i)) (fun d n => if decide (d = i) then None else ent t d n).

Lemma empty_slots s d : isize (inode_at s d) = 0 -> slots s d = [].
Proof. intros E. unfold slots. by rewrite E. Qed.

Lemma empty_dir s d : file_ok s d -> itype (inode_at s d) = WFS_TYPE_DIR -> isize (inode_at s d) = 0 -> dir_ok s d.
Proof.
  intros F Ht Hz. split; rewrite ?Hz; try done; [intros k Hk; change (0 / 32) with 0 in Hk; lia |]. rewrite empty_slots by done. by intros [].
Qed.

Lemma alloc_tree s type :
  base_ok s -> type = WFS_TYPE_FILE \/ type = WFS_TYPE_DIR ->
  exists r ino s', inode_alloc type s = (r, ino, s') /\
    ((r = - W_ENOSPC /\ quiet s s') \/
     (r = 0 /\ good_ino s ino /\ ~ live s ino /\ base_ok s' /\ evolves s s' [ino] /\ inode_at s' ino = fresh_inode type (rtc s) /\
      tree_of s' ≡ spawned (tree_of s) ino (type =? WFS_TYPE_DIR))).
Proof.
  intros B Hty. destruct (inode_alloc_spec type s) as (r & ino & s' & E & Hcase);
    [unfold WFS_TYPE_FILE, WFS_TYPE_DIR in Hty; lia | apply B | apply B |].
  exists r, ino, s'. split; [done |]. destruct Hcase as [(-> & Q & _) | (-> & Hg & Hfree & Ev & Hx & _)]; [by left | right].
  assert (Hlive : live s' ino).
  { split; [by apply (good_ino_evolves _ _ _ _ Ev) |]. rewrite Hx. unfold WFS_TYPE_FILE, WFS_TYPE_DIR, WFS_TYPE_FREE in *. cbn [fresh_inode itype]. lia. }
  assert (Hnl : ~ live s ino) by (by intros [_ ?]).
  assert (Hdir : is_dir s' ino <-> (type =? WFS_TYPE_DIR) = true).
  { unfold is_dir. rewrite Hx. cbn [fresh_inode itype]. rewrite Z.eqb_eq. tauto. }
  assert (Hne : forall j, j <> ino -> j ∉ [ino]) by (intros j Hj; by rewrite list_elem_of_singleton).
  split; [done |]. split; [done |]. split; [done |]. split; [| split; [done | split; [done |]]].
  - apply (base_evolves s s' [ino] B Ev). intros d Hd Hd'. apply list_elem_of_singleton in Hd as ->.
    apply empty_dir; [apply (fk_file _ (ev_files _ _ _ Ev)), Hlive | apply Hd' | by rewrite Hx].
  - split_and!; cbn [tree_of spawned alive isdir ent].
    + intros j. destruct (decide (j = ino)) as [-> | Hj]; [tauto |]. rewrite (live_evolves _ _ _ _ Ev) by auto. tauto.
    + intros j. destruct (decide (j = ino)) as [-> | Hj].
      * rewrite Hdir. split; [by right |]. intros [[? _] | [? _]]; done.
      * rewrite (is_dir_evolves _ _ _ _ Ev) by auto. tauto.
    + intros d n Hd. destruct (decide (d = ino)) as [-> | Hj].
      * unfold entry. rewrite empty_slots; [done |]. by rewrite Hx.
      * apply (entry_evolves s s' [ino]); auto. apply (is_dir_evolves _ _ _ _ Ev); auto.
Qed.

Lemma free_tree s ino :
  base_ok s -> live s ino ->
  base_ok (inode_free ino s) /\ evolves s (inode_free ino s) [ino] /\ tree_of (inode_free ino s) ≡ without (tree_of s) ino /\
  forall c, used (inode_free ino s) c = used s c.
Proof.
  intros B Hl. destruct (inode_free_spec ino s B Hl) as (Ev & Hx & Hu). set (s' := inode_free ino s) in *.
  assert (Hdead : ~ live s' ino) by (intros [_ Ht]; by rewrite Hx in Ht).
  assert (Hne : forall j, j <> ino -> j ∉ [ino]) by (intros j Hj; by rewrite list_elem_of_singleton).
  split; [| split; [done | split; [| done]]].
  - apply (base_evolves s s' [ino] B Ev). intros d Hd Hd'. apply list_elem_of_singleton in Hd as ->. by destruct Hdead, Hd'.
  - split_and!; cbn [tree_of without alive isdir ent].
    + intros j. destruct (decide (j = ino)) as [-> | Hj]; [tauto |]. rewrite (live_evolves _ _ _ _ Ev) by auto. tauto.
    + intros j. destruct (decide (j = ino)) as [-> | Hj].
      * split; [by intros [? _] | tauto].
      * rewrite (is_dir_evolves _ _ _ _ Ev) by auto. tauto.
    + intros d n Hd. destruct (decide (d = ino)) as [-> | Hj]; [by destruct Hdead, Hd |].
      apply (entry_evolves s s' [ino]); auto. apply (is_dir_evolves _ _ _ _ Ev); auto.
Qed.

Lemma truncate_tree s ino :
  base_ok s -> live s ino ->
  exists s', wfs_truncate ino s = (0, s') /\ base_ok s' /\ evolves s s' [ino] /\ live s' ino /\
    without (tree_of s') ino ≡ without (tree_of s) ino /\
    forall c, 0 <= c -> used s' c = true <-> used s c = true /\ ~ tree_block s (inode_at s ino) c.
Proof.
  intros B Hl. destruct (truncate_spec s ino B Hl (bo_rtc _ B)) as (s' & E & Ev & Hx & Hu). exists s'.
  assert (Hl' : live s' ino) by (split; [apply (good_ino_evolves _ _ _ _ Ev), Hl | rewrite Hx; apply Hl]).
  assert (Hne : forall j, j <> ino -> j ∉ [ino]) by (intros j Hj; by rewrite list_elem_of_singleton).
  split; [done |]. split; [| split; [done | split; [done | split; [| done]]]].
  - apply (base_evolves s s' [ino] B Ev). intros d Hd Hd'. apply list_elem_of_singleton in Hd as ->.
    apply empty_dir; [apply (fk_file _ (ev_files _ _ _ Ev)), Hl' | apply Hd' | by rewrite Hx].
  - split_and!; cbn [tree_of without alive isdir ent].
    + intros j. destruct (decide (j = ino)) as [-> | Hj]; [tauto |]. rewrite (live_evolves _ _ _ _ Ev) by auto. tauto.
    + intros j. destruct (decide (j = ino)) as [-> | Hj]; [tauto |]. rewrite (is_dir_evolves _ _ _ _ Ev) by auto. tauto.
    + intros d n [Hd Hj]. apply (entry_evolves s s' [ino]); auto. apply (is_dir_evolves _ _ _ _ Ev); auto.
Qed.

(** ** Creating *)

Lemma with_ent_equiv t t' d n v : t ≡ t' -> with_ent t d n v ≡ with_ent t' d n v.
Proof.
  intros (Ha & Hd & He). split_and!; [done | done |]. cbn [with_ent isdir ent]. intros j m Hj. unfold put_ent. destruct (decide _); [done | by apply He].
Qed.

Lemma without_equiv t t' i : t ≡ t' -> without t i ≡ without t' i.
Proof.
  intros (Ha & Hd & He). split_and!; cbn [without alive isdir ent]; [intros j; by rewrite Ha | intros j; by rewrite Hd |].
  intros j m [Hj _]. by apply He.
Qed.

Lemma make_file_equiv t p n i : (forall d, isdir t d -> d <> i) -> with_ent (spawned t i false) p n (Some i) ≡ make t p n i false.
Proof.
  intros Hd. split_and!; [done | done |]. cbn [with_ent spawned make isdir ent]. intros d m [Hdir | [? _]]; [| done]. unfold put_ent.
  destruct (decide (d = p /\ m = n)); [done |]. by rewrite !decide_False by auto.
Qed.

Lemma make_dir_equiv t p n i :
  p <> i -> with_ent (with_ent (with_ent (spawned t i true) i dot (Some i)) i dotdot (Some p)) p n (Some i) ≡ make t p n i true.
Proof.
  intros Hp. split_and!; [done | done |]. cbn [with_ent spawned make isdir ent]. intros d m _. unfold put_ent.
  destruct (decide (d = p /\ m = n)); [done |]. destruct (decide (d = i)) as [-> | Hne].
  - destruct (decide (m = dotdot)) as [-> |]; [by rewrite decide_True | rewrite decide_False by tauto].
    destruct (decide (m = dot)) as [-> |]; [by rewrite decide_True | by rewrite decide_False by tauto].
  - by rewrite !decide_False by tauto.
Qed.

Lemma without_with_ent t i n v : without (with_ent t i n v) i ≡ without t i.
Proof.
  split_and!; [done | done |]. cbn [without with_ent isdir ent]. intros d m [_ Hne]. apply put_ent_ne. tauto.
Qed.

Lemma name_dots : name_ok dot /\ name_ok dotdot.
Proof. unfold name_ok, WFS_NAME_MAX. split; (split; [by cbn |]); repeat constructor; done. Qed.

Lemma room_negative r s : no_room r s -> r < 0.
Proof. intros [-> | [-> _]]; [unfold W_EFBIG | unfold W_ENOSPC]; lia. Qed.

Lemma is_dir_equiv s t d : tree_of s ≡ t -> is_dir s d <-> isdir t d.
Proof. intros (_ & Hd & _). apply Hd. Qed.

Lemma entry_equiv s t d n : tree_of s ≡ t -> is_dir s d -> entry s d n = ent t d n.
Proof. intros (_ & _ & He) Hd. by apply He. Qed.

(** A new directory gets the names of itself and of the one above. *)
Lemma dots_tree s d up :
  base_ok s -> is_dir s d -> good_ino s up -> entry s d dot = None -> entry s d dotdot = None ->
  exists r s', (let '(r, s) := dir_add d dot d s in if r =? 0 then dir_add d dotdot up s else (r, s)) = (r, s') /\
    base_ok s' /\ evolves s s' [d] /\
    ((r = 0 /\ tree_of s' ≡ with_ent (with_ent (tree_of s) d dot (Some d)) d dotdot (Some up)) \/
     (no_room r s' /\ without (tree_of s') d ≡ without (tree_of s) d /\ live s' d)).
Proof.
  intros B Hd Hup Hdot Hdd. destruct name_dots as [N1 N2].
  destruct (add_tree s d dot d B Hd N1 (proj1 (proj1 Hd)) Hdot) as (r1 & s1 & -> & B1 & E1 & Hcase).
  assert (Hd1 : tree_of s1 ≡ with_ent (tree_of s) d dot (Some d) \/ tree_of s1 ≡ tree_of s -> is_dir s1 d).
  { intros [T | T]; by apply (is_dir_equiv _ _ _ T). }
  destruct Hcase as [[-> T1] | (Hno & T1 & _)].
  - cbn [Z.eqb]. destruct (add_tree s1 d dotdot up B1) as (r2 & s2 & -> & B2 & E2 & Hcase); [auto | done | by apply (good_ino_evolves _ _ _ _ E1) | |].
    { rewrite (entry_equiv _ _ _ _ T1) by auto. cbn [with_ent ent tree_of]. by rewrite put_ent_ne by (by intros [_ ?]). }
    eexists _, s2. split; [done |]. split; [done |]. split; [eapply evolves_weaken, evolves_trans; [| exact E1 | exact E2]; in_list |].
    destruct Hcase as [[-> T2] | (Hno & T2 & _)].
    + left. split; [done |]. rewrite T2. by apply with_ent_equiv.
    + right. split; [done |]. split.
      * etransitivity; [apply without_equiv; rewrite T2; exact T1 | apply without_with_ent].
      * destruct (proj2 (is_dir_equiv s2 (tree_of s1) d T2)); cbn; auto.
  - pose proof (room_negative _ _ Hno). destruct (Z.eqb_spec r1 0); [lia |]. eexists _, s1. split; [done |]. split; [done |]. split; [done |].
    right. split; [done |]. split; [by apply without_equiv | apply Hd1; auto].
Qed.

(** The same tree again, after an operation that failed. *)
Record unchanged s s' (m : list Z) : Prop := {
  un_ok : vol_ok s';
  un_evolves : evolves s s' m;
  un_tree : tree_of s' ≡ tree_of s;
}.

Lemma vol_ok_equiv s s' m : vol_ok s -> base_ok s' -> evolves s s' m -> tree_of s' ≡ tree_of s -> unchanged s s' m.
Proof.
  intros V B E T. split; [split | done | done]; [done | rewrite (ev_root _ _ _ E); apply V |]. rewrite T. apply V.
Qed.

Lemma unchanged_weaken s s' m m' : m ⊆ m' -> unchanged s s' m -> unchanged s s' m'.
Proof. intros Hm [V E T]. split; try done. by apply (evolves_weaken _ _ m). Qed.

Lemma quiet_unchanged s s' : vol_ok s -> quiet s s' -> unchanged s s' [].
Proof. intros V Q. destruct (quiet_base s s' V Q). apply vol_ok_equiv; try done. by apply quiet_tree_of; [apply V |]. Qed.

Lemma unchanged_trans s1 s2 s3 m m' : unchanged s1 s2 m -> unchanged s2 s3 m' -> unchanged s1 s3 (m ++ m').
Proof. intros [V E T] [V' E' T']. split; [done | by eapply evolves_trans | by rewrite T']. Qed.

Lemma unchanged_live s s' m j : unchanged s s' m -> live s' j <-> live s j.
Proof. intros [_ _ (Ha & _)]. apply Ha. Qed.

Lemma unchanged_entry s s' m d n : unchanged s s' m -> is_dir s' d -> entry s' d n = entry s d n.
Proof. intros [_ _ (_ & _ & He)]. apply He. Qed.

Lemma unchanged_dir s s' m d : unchanged s s' m -> is_dir s' d <-> is_dir s d.
Proof. intros [_ _ (_ & Hd & _)]. apply Hd. Qed.

Lemma without_spawned t i dir : ~ alive t i -> (forall d, isdir t d -> alive t d) -> without (spawned t i dir) i ≡ t.
Proof.
  intros Hi Hd. assert (Hne : forall j, alive t j -> j <> i) by (by intros j Hj ->). split_and!; cbn [without spawned alive isdir ent].
  - intros j. split; [tauto |]. intros Hj. split; [by left | by apply Hne].
  - intros j. split; [tauto |]. intros Hj. split; [by left | by apply Hne, Hd].
  - intros d n [_ Hn]. by rewrite decide_False.
Qed.

(** The end of [wfs_create]: the new inode is entered in its directory, or
    given up. *)
Lemma enter_tree s s1 p name ino dir t1 :
  vol_ok s -> is_dir s p -> name_ok name -> entry s p name = None -> ~ live s ino ->
  base_ok s1 -> evolves s s1 [ino] -> live s1 ino -> tree_of s1 ≡ t1 -> without t1 ino ≡ tree_of s ->
  with_ent t1 p name (Some ino) ≡ make (tree_of s) p name ino dir ->
  exists r i s', (let '(r, s) := dir_add p name ino s1 in
      if r <? 0 then let '(_, s) := wfs_truncate ino s in (r, 0, inode_free ino s) else (0, ino, s)) = (r, i, s') /\
    ((r = 0 /\ i = ino /\ vol_ok s' /\ evolves s s' [ino; p] /\ tree_of s' ≡ make (tree_of s) p name ino dir /\ inode_at s' ino = inode_at s1 ino) \/
     ((r = - W_ENOSPC \/ r = - W_EFBIG) /\ unchanged s s' [ino; p])).
Proof.
  intros V Hp Hn Hnone Hnew B1 E1 Hl1 T1 Tw Tm.
  assert (Hpi : p <> ino) by (intros ->; by apply Hnew, Hp).
  assert (Hp1 : is_dir s1 p) by (apply (is_dir_evolves _ _ _ _ E1); [by rewrite list_elem_of_singleton | done]).
  assert (Hnone1 : entry s1 p name = None) by (rewrite (entry_evolves s s1 [ino]); [done | apply V | done | by rewrite list_elem_of_singleton | done]).
  destruct (add_tree s1 p name ino B1 Hp1 Hn (proj1 Hl1) Hnone1) as (r & s2 & -> & B2 & E2 & Hcase).
  assert (E02 : evolves s s2 [ino; p]) by (eapply evolves_weaken, evolves_trans; [| exact E1 | exact E2]; in_list).
  assert (Hl2 : live s2 ino) by (apply (live_evolves _ _ _ _ E2); [by rewrite list_elem_of_singleton | done]).
  destruct Hcase as [[-> T2] | (Hno & T2 & _)].
  - cbn [Z.ltb Z.compare]. eexists _, _, s2. split; [done |]. left. split; [done |]. split; [done |].
    assert (T : tree_of s2 ≡ make (tree_of s) p name ino dir) by (rewrite T2; etransitivity; [apply with_ent_equiv, T1 | done]).
    split; [| split; [done | split; [done |]]].
    + split; [done | rewrite (ev_root _ _ _ E02); apply V |]. rewrite T. apply rooted_make; [apply V | done | done | | done].
      intros Hs. by apply (special_there _ _ p name (vk_tree _ V) Hp Hs).
    + apply (ev_inode _ _ _ E2); [apply Hl1 | by rewrite list_elem_of_singleton].
  - pose proof (room_negative _ _ Hno) as Hneg. rewrite (proj2 (Z.ltb_lt r 0)) by done.
    destruct (truncate_tree s2 ino B2 Hl2) as (s3 & -> & B3 & E3 & Hl3 & T3 & _).
    destruct (free_tree s3 ino B3 Hl3) as (B4 & E4 & T4 & _). eexists _, _, _. split; [done |]. right.
    split; [destruct Hno as [-> | [-> _]]; [by right | by left] |].
    apply vol_ok_equiv; [done | done | |].
    + eapply evolves_weaken, evolves_trans; [| exact E02 | eapply evolves_trans; [exact E3 | exact E4]]. in_list.
    + rewrite T4, T3. etransitivity; [apply without_equiv; rewrite T2; exact T1 | done].
Qed.

(** Its middle: a new inode, with the two names a directory has. *)
Lemma make_tree s p name type :
  vol_ok s -> type = WFS_TYPE_FILE \/ type = WFS_TYPE_DIR -> is_dir s p -> name_ok name -> entry s p name = None ->
  exists r i s',
    (let '(r, ino, s) := inode_alloc type s in
     if r <? 0 then (r, 0, s)
     else
       let '(r, s) :=
         if type =? WFS_TYPE_DIR then
           let '(r, s) := dir_add ino dot ino s in
           if r =? 0 then dir_add ino dotdot p s else (r, s)
         else (0, s) in
       if ((type =? WFS_TYPE_DIR) && (r <? 0))%bool then (r, 0, inode_free ino s)
       else
         let '(r, s) := dir_add p name ino s in
         if r <? 0 then let '(_, s) := wfs_truncate ino s in (r, 0, inode_free ino s) else (0, ino, s)) = (r, i, s') /\
    ((r = 0 /\ ~ live s i /\ vol_ok s' /\ evolves s s' [i; p] /\ tree_of s' ≡ make (tree_of s) p name i (type =? WFS_TYPE_DIR) /\
      (type = WFS_TYPE_FILE -> inode_at s' i = fresh_inode type (rtc s))) \/
     ((r = - W_ENOSPC \/ r = - W_EFBIG) /\ exists i, ~ live s i /\ unchanged s s' [i; p])).
Proof.
  intros V Hty Hp Hn Hnone. pose proof (vk_tree _ V) as R.
  destruct (alloc_tree s type V Hty) as (r & ino & s1 & -> & [(-> & Q) | (-> & Hg & Hnew & B1 & E1 & Hx & T1)]).
  { eexists _, _, s1. split; [done |]. right. split; [by left |]. exists 0. split; [by intros [[? _] _] |].
    apply (unchanged_weaken _ _ []); [in_list |]. by apply quiet_unchanged. }
  cbn [Z.ltb Z.compare]. assert (Hpi : p <> ino) by (intros ->; by apply Hnew, Hp).
  assert (Hl1 : live s1 ino) by (destruct T1 as (Ha & _); apply Ha; by right).
  assert (Hwo : without (spawned (tree_of s) ino (type =? WFS_TYPE_DIR)) ino ≡ tree_of s) by (apply without_spawned; [done | apply R]).
  assert (Hd0 : forall d, isdir (tree_of s) d -> d <> ino) by (intros d Hd ->; by apply Hnew, Hd).
  destruct (Z.eqb_spec type WFS_TYPE_DIR) as [Ht | Ht]; cbn [andb].
  - assert (Hd1 : is_dir s1 ino) by (split; [done | by rewrite Hx]).
    assert (He1 : forall n, entry s1 ino n = None) by (intros n; unfold entry; rewrite empty_slots; [done | by rewrite Hx]).
    destruct (dots_tree s1 ino p B1 Hd1) as (r & s2 & -> & B2 & E2 & Hcase); [| done | done |].
    { apply (good_ino_evolves _ _ _ _ E1), Hp. }
    assert (E02 : evolves s s2 [ino]) by (eapply evolves_weaken, evolves_trans; [| exact E1 | exact E2]; in_list).
    destruct Hcase as [[-> T2] | (Hno & T2 & Hl2)].
    + cbn [Z.ltb Z.compare].
      assert (T2' : tree_of s2 ≡ with_ent (with_ent (spawned (tree_of s) ino true) ino dot (Some ino)) ino dotdot (Some p))
        by (rewrite T2; by do 2 apply with_ent_equiv).
      assert (Hl2 : live s2 ino) by (apply (is_dir_equiv s2 _ ino T2); done).
      destruct (enter_tree s s2 p name ino true _ V Hp Hn Hnone Hnew B2 E02 Hl2 T2') as (r & i & s' & -> & Hres).
      * etransitivity; [apply without_with_ent |]. etransitivity; [apply without_with_ent | done].
      * by apply make_dir_equiv.
      * eexists _, _, s'. split; [done |]. destruct Hres as [(-> & -> & ? & ? & ? & ?) | [? ?]]; [left | right; split; [done | by exists ino]].
        split; [done |]. split; [done |]. split; [done |]. split; [done |]. split; [done |]. intros ->. done.
    + pose proof (room_negative _ _ Hno). rewrite (proj2 (Z.ltb_lt r 0)) by done.
      destruct (free_tree s2 ino B2 Hl2) as (B3 & E3 & T3 & _). eexists _, _, _. split; [done |]. right.
      split; [destruct Hno as [-> | [-> _]]; [by right | by left] |]. exists ino. split; [done |].
      apply vol_ok_equiv; [done | done | eapply evolves_weaken, evolves_trans; [| exact E02 | exact E3]; in_list |].
      rewrite T3, T2. etransitivity; [apply without_equiv, T1 | done].
  - destruct (enter_tree s s1 p name ino false _ V Hp Hn Hnone Hnew B1 E1 Hl1 T1) as (r & i & s' & -> & Hres);
      [done | by apply make_file_equiv |].
    eexists _, _, s'. split; [done |]. destruct Hres as [(-> & -> & ? & ? & ? & Hi) | [? ?]]; [left | right; split; [done | by exists ino]].
    split; [done |]. split; [done |]. split; [done |]. split; [done |]. split; [done |]. intros _. by rewrite Hi.
Qed.

(** What a creation that succeeds does. *)
Record created s s' (p : Z) (name : list Z) (type i : Z) : Prop := {
  cr_new : ~ live s i;
  cr_ok : vol_ok s';
  cr_evolves : evolves s s' [i; p];
  cr_tree : tree_of s' ≡ make (tree_of s) p name i (type =? WFS_TYPE_DIR);
  cr_file : type = WFS_TYPE_FILE -> inode_at s' i = fresh_inode type (rtc s);
}.

Lemma create_spec s path type r p name :
  vol_ok s -> type = WFS_TYPE_FILE \/ type = WFS_TYPE_DIR -> Forall (fun c => c <> 0) path ->
  parent_at s path = (r, p, name) -> (r = 0 -> is_dir s p) ->
  exists r' i s', wfs_create path type s = (r', i, s') /\
    ((r < 0 /\ r' = r /\ unchanged s s' []) \/
     (r = 0 /\ entry s p name <> None /\ r' = - W_EEXIST /\ unchanged s s' []) \/
     (r = 0 /\ entry s p name = None /\ r' = 0 /\ created s s' p name type i) \/
     (r = 0 /\ entry s p name = None /\ (r' = - W_ENOSPC \/ r' = - W_EFBIG) /\ exists j, ~ live s j /\ unchanged s s' [j; p])).
Proof.
  intros V Hty Hnz Hpar Hdir. pose proof (parent_at_spec s path r p name V Hnz Hpar) as Hp. unfold wfs_create.
  rewrite (bo_mounted _ V). cbn [negb]. destruct (resolve_parent_spec s path V) as (s1 & -> & Q1). rewrite Hpar.
  destruct (Z.ltb_spec r 0) as [Hr | Hr].
  { eexists _, _, s1. split; [done |]. left. split; [done |]. split; [done |]. by apply quiet_unchanged. }
  destruct Hp as [? | (-> & Hpl & Hn & _)]; [lia |]. specialize (Hdir eq_refl).
  pose proof (quiet_unchanged s s1 V Q1) as U1. pose proof (un_ok _ _ _ U1) as V1.
  assert (Hd1 : is_dir s1 p) by (by apply (unchanged_dir _ _ _ _ U1)).
  destruct (dir_find_spec s1 p name V1 (bo_dir _ V1 p Hd1)) as (s2 & -> & Q2). pose proof (quiet_trans _ _ _ Q1 Q2) as Q.
  pose proof (quiet_unchanged s s2 V Q) as U2. pose proof (un_ok _ _ _ U2) as V2.
  assert (Hd2 : is_dir s2 p) by (by apply (unchanged_dir _ _ _ _ U2)).
  rewrite (unchanged_entry _ _ _ _ _ U1 Hd1).
  destruct (entry s p name) as [i |] eqn:Ee.
  { cbn [Z.eqb]. eexists _, _, s2. split; [done |]. right. left. done. }
  change (- W_ENOENT =? 0) with false. cbn iota.
  assert (He2 : entry s2 p name = None) by (by rewrite (unchanged_entry _ _ _ _ _ U2 Hd2)).
  destruct (make_tree s2 p name type V2 Hty Hd2 Hn He2) as (r' & i & s3 & -> & Hres). eexists _, _, s3. split; [done |]. right. right.
  destruct Hres as [(-> & Hnew & V3 & E3 & T3 & Hx) | (Hr' & j & Hj & U3)]; [left | right]; (split; [done | split; [done | split; [done |]]]).
  - split; [by rewrite <- (unchanged_live _ _ _ _ U2) | done | exact (evolves_trans _ _ _ _ _ (un_evolves _ _ _ U2) E3) | |].
    + rewrite T3. apply make_equiv. apply U2.
    + intros Ht. by rewrite (Hx Ht), (ev_rtc _ _ _ (un_evolves _ _ _ U2)).
  - exists j. split; [by rewrite <- (unchanged_live _ _ _ _ U2) |]. exact (unchanged_trans _ _ _ _ _ U2 U3).
Qed.

(** ** Removing *)

(** What a removal that succeeds does; the blocks of the file are free. *)
Record removed s s' (p : Z) (name : list Z) (i : Z) : Prop := {
  rm_ok : vol_ok s';
  rm_evolves : evolves s s' [p; i];
  rm_tree : tree_of s' ≡ remove (tree_of s) p name i;
  rm_blocks : forall c, tree_block s (inode_at s i) c -> used s' c = false;
}.

Lemma kept_tree_block s s' j c : kept s s' j -> tree_block s' (inode_at s' j) c <-> tree_block s (inode_at s j) c.
Proof.
  intros K. unfold tree_block. split; intros (n & Hn & E & Hc); exists n; (split; [done | split; [| done]]);
    [by rewrite <- (kp_addr _ _ _ K) | by rewrite (kp_addr _ _ _ K)].
Qed.

Lemma tree_block_range s j c : files_ok s -> live s j -> tree_block s (inode_at s j) c -> 0 <= c.
Proof.
  intros F Hj (n & Hn & <- & Hc). destruct (tr_used _ _ (fo_tree _ _ (fk_file _ F j Hj)) n Hn Hc) as [Hin _].
  destruct (data_block_facts s _ F Hin). lia.
Qed.

(** The end of [wfs_unlink], and of replacing a file in [wfs_rename]. *)
Lemma drop_tree s p name i :
  base_ok s -> is_dir s p -> entry s p name = Some i -> live s i -> p <> i ->
  exists s1 s2, dir_remove p name s = (0, s1) /\ wfs_truncate i s1 = (0, s2) /\
    base_ok (inode_free i s2) /\ evolves s (inode_free i s2) [p; i] /\ tree_of (inode_free i s2) ≡ remove (tree_of s) p name i /\
    (forall c, tree_block s (inode_at s i) c -> used (inode_free i s2) c = false) /\
    ~ Forall (fun e => ent_ino e <> 0) (slots (inode_free i s2) p).
Proof.
  intros B Hp He Hl Hpi. destruct (remove_tree s p name B Hp ltac:(congruence)) as (s1 & E1 & B1 & Ev1 & T1 & Hfree).
  assert (Hi : i ∉ [p]) by (rewrite list_elem_of_singleton; congruence).
  assert (Hl1 : live s1 i) by (by apply (live_evolves _ _ _ _ Ev1)).
  destruct (truncate_tree s1 i B1 Hl1) as (s2 & E2 & B2 & Ev2 & Hl2 & T2 & Hu2).
  destruct (free_tree s2 i B2 Hl2) as (B3 & Ev3 & T3 & Hu3). exists s1, s2. split; [done |]. split; [done |]. split; [done |].
  assert (Hp1 : is_dir s1 p) by (apply (is_dir_equiv s1 _ p T1); done).
  pose proof (evolves_trans _ _ _ _ _ Ev2 Ev3) as Ev23. split; [| split; [| split]].
  - eapply evolves_weaken, evolves_trans; [| exact Ev1 | exact Ev23]. in_list.
  - rewrite T3, T2. etransitivity; [apply without_equiv, T1 |]. done.
  - intros c Hc. apply not_true_iff_false. pose proof (tree_block_range s i c B Hl Hc) as Hc0. rewrite Hu3, Hu2 by done. intros [_ Hn]. apply Hn.
    apply (kept_tree_block s s1); [| done]. by apply (ev_kept _ _ _ Ev1).
  - rewrite (kept_slots s1); [done | | apply (fk_file _ B1), Hp1]. apply (ev_kept _ _ _ Ev23); [apply Hp1 |]. cbn [app].
    rewrite !elem_of_cons, elem_of_nil. intuition congruence.
Qed.

(** A directory with nothing in it but the two names. *)
Definition bare s (i : Z) : Prop := forall n j, entry s i n = Some j -> special n.

(** The question [wfs_unlink] asks before it removes. *)
Lemma unlink_empty s s1 i :
  vol_ok s -> quiet s s1 -> live s i ->
  exists (b : bool) s2, (if itype (inode_at s i) =? WFS_TYPE_DIR then dir_is_empty i s1 else (true, s1)) = (b, s2) /\ quiet s s2 /\
    if b then is_dir s i -> bare s i else is_dir s i /\ ~ bare s i.
Proof.
  intros V Q Hl. destruct (Z.eqb_spec (itype (inode_at s i)) WFS_TYPE_DIR) as [Hti | Hti].
  2: { exists true, s1. split; [done |]. split; [done |]. by intros [_ ?]. }
  pose proof (quiet_unchanged s s1 V Q) as U. pose proof (un_ok _ _ _ U) as V1.
  assert (Hdi : is_dir s i) by (by split). assert (Hdi1 : is_dir s1 i) by (by apply (unchanged_dir _ _ _ _ U)).
  destruct (dir_is_empty_spec s1 i V1 (bo_dir _ V1 i Hdi1)) as (b & s2 & -> & Q2 & Hb). exists b, s2.
  split; [done |]. split; [by apply (quiet_trans _ s1) |]. setoid_rewrite (unchanged_entry _ _ _ _ _ U Hdi1) in Hb.
  unfold bare, special. destruct b; [intros _; by apply Hb | split; [done |]; intros Hall; by apply Hb in Hall].
Qed.

(** The steps that end it. *)
Lemma unlink_end s s1 p name i :
  vol_ok s -> quiet s s1 -> is_dir s p -> ~ special name -> entry s p name = Some i -> (is_dir s i -> bare s i) ->
  exists s', (let '(r, s) := dir_remove p name s1 in
      if r <? 0 then (r, s) else let '(_, s) := wfs_truncate i s in (0, inode_free i s)) = (0, s') /\ removed s s' p name i.
Proof.
  intros V Q Hp Hs He Hbare. pose proof (quiet_unchanged s s1 V Q) as U. pose proof (un_ok _ _ _ U) as V1. pose proof (vk_tree _ V) as R.
  assert (Hl : live s i) by (by apply (rt_entries _ _ R p name)).
  assert (Hpi : p <> i) by (intros <-; by apply (no_loop _ _ p name R Hp Hs)).
  assert (Hp1 : is_dir s1 p) by (by apply (unchanged_dir _ _ _ _ U)).
  destruct (drop_tree s1 p name i V1 Hp1) as (s2 & s3 & -> & E3 & B & Ev & T & Hu & _);
    [by rewrite (unchanged_entry _ _ _ _ _ U Hp1) | by apply (unchanged_live _ _ _ _ U) | done |].
  cbn [Z.ltb Z.compare]. rewrite E3. eexists. split; [done |].
  assert (T' : tree_of (inode_free i s3) ≡ remove (tree_of s) p name i) by (rewrite T; apply remove_equiv, U).
  split; [split; [done | rewrite (ev_root _ _ _ Ev); apply V1 |] | exact (evolves_trans _ _ _ _ _ (un_evolves _ _ _ U) Ev) | done |].
  - rewrite T'. by apply rooted_remove.
  - intros c Hc. apply Hu. apply (kept_tree_block s s1); [| done]. apply (ev_kept _ _ _ (un_evolves _ _ _ U)); [done | apply not_elem_of_nil].
Qed.

(** What [wfs_unlink] does in the directory [p]. *)
Definition unlinks s s' (p : Z) (name : list Z) (r : Z) : Prop :=
  match entry s p name with
  | None => r = - W_ENOENT /\ unchanged s s' []
  | Some i =>
      (is_dir s i /\ ~ bare s i /\ r = - W_ENOTEMPTY /\ unchanged s s' []) \/
      ((is_dir s i -> bare s i) /\ r = 0 /\ removed s s' p name i)
  end.

Lemma unlink_spec s path r p name :
  vol_ok s -> Forall (fun c => c <> 0) path -> parent_at s path = (r, p, name) ->
  exists r' s', wfs_unlink path s = (r', s') /\
    ((r < 0 /\ r' = r /\ unchanged s s' []) \/
     (r = 0 /\ special name /\ r' = - W_EINVAL /\ unchanged s s' []) \/
     (r = 0 /\ ~ special name /\ ~ is_dir s p /\ r' = - W_ENOTDIR /\ unchanged s s' []) \/
     (r = 0 /\ ~ special name /\ is_dir s p /\ unlinks s s' p name r')).
Proof.
  intros V Hnz Hpar. pose proof (parent_at_spec s path r p name V Hnz Hpar) as Hp. unfold wfs_unlink, unlinks.
  rewrite (bo_mounted _ V). cbn [negb]. destruct (resolve_parent_spec s path V) as (s1 & -> & Q1). rewrite Hpar.
  pose proof (quiet_unchanged s s1 V Q1) as U1. pose proof (un_ok _ _ _ U1) as V1.
  destruct (Z.ltb_spec r 0) as [Hr | Hr]; [eexists _, s1; split; [done |]; by left |].
  destruct Hp as [? | (-> & Hpl & Hn & _)]; [lia |].
  destruct (decide (special name)) as [Hs | Hs].
  { rewrite (proj2 (orb_true_iff _ _)); [eexists _, s1; split; [done |]; right; by left |]. by rewrite !bool_decide_eq_true. }
  rewrite (proj2 (orb_false_iff _ _)); [| rewrite !bool_decide_eq_false; unfold special in Hs; tauto].
  assert (Hp1 : live s1 p) by (by apply (unchanged_live _ _ _ _ U1)).
  destruct (decide (itype (inode_at s1 p) = WFS_TYPE_DIR)) as [Ht | Ht].
  2: { destruct (dir_find_notdir s1 p name V1 (proj1 Hp1) Ht) as (s2 & -> & Q2). eexists _, s2. split; [done |]. right. right. left.
       split; [done |]. split; [done |]. split; [| split; [done | by apply quiet_unchanged, (quiet_trans _ s1)]].
       intros Hd. apply (unchanged_dir _ _ _ _ U1) in Hd. by apply Ht, Hd. }
  assert (Hd1 : is_dir s1 p) by (by split). assert (Hd : is_dir s p) by (by apply (unchanged_dir _ _ _ _ U1)).
  destruct (dir_find_spec s1 p name V1 (bo_dir _ V1 p Hd1)) as (s2 & -> & Q2). pose proof (quiet_trans _ _ _ Q1 Q2) as Q.
  pose proof (quiet_unchanged s s2 V Q) as U2. rewrite (unchanged_entry _ _ _ _ _ U1 Hd1).
  destruct (entry s p name) as [i |] eqn:Ee; [| eexists _, s2; split; [done |]; right; right; right; done].
  cbn [Z.ltb Z.compare]. assert (Hi : live s i) by (by apply (rt_entries _ _ (vk_tree _ V) p name)).
  destruct (read_inode_spec s2 i (un_ok _ _ _ U2)) as (s3 & -> & Q3); [by apply (unchanged_live _ _ _ _ U2) |]. cbn [Z.ltb Z.compare].
  pose proof (quiet_trans _ _ _ Q Q3) as Q03. rewrite (inode_at_quiet _ _ _ Q).
  destruct (unlink_empty s s3 i V Q03 Hi) as (b & s4 & -> & Q4 & Hb). destruct b; cbn [negb].
  - destruct (unlink_end s s4 p name i V Q4 Hd Hs Ee Hb) as (s' & -> & Hrm). eexists _, s'. split; [done |]. right. right. right.
    split; [done |]. split; [done |]. split; [done |]. by right.
  - eexists _, s4. split; [done |]. right. right. right. split; [done |]. split; [done |]. split; [done |]. left.
    destruct Hb. split; [done |]. split; [done |]. split; [done |]. by apply quiet_unchanged.
Qed.

(** ** Renaming *)

(** The walk up from the destination finds out whether it is inside the
    directory that is moved; 256 steps are enough for what a path can name. *)
Lemma climbs_spec s ino : vol_ok s -> forall fuel at_ k s0,
  quiet s s0 -> is_dir s at_ -> placed WFS_ROOT_INO (tree_of s) at_ k -> (k < fuel)%nat ->
  exists (b : bool) s', climbs_to fuel at_ ino s0 = (b, s') /\ quiet s s' /\ (b = true <-> inside (tree_of s) ino at_).
Proof.
  intros V. pose proof (vk_tree _ V) as R. induction fuel as [| fuel IH]; intros at_ k s0 Q Hd P Hk; [lia |]. cbn [climbs_to].
  destruct (Z.eqb_spec at_ ino) as [-> | Hne].
  { exists true, s0. split; [done |]. split; [done |]. split; [intros _; constructor | done]. }
  destruct (Z.eqb_spec at_ WFS_ROOT_INO) as [-> | Hnr].
  { exists false, s0. split; [done |]. split; [done |]. split; [done |]. intros Hin. pose proof (inside_root _ _ _ R Hin). congruence. }
  inversion P as [| q n i k' P' Hq Hn Hi]; subst; [done |]. pose proof (rt_up _ _ R q n at_ Hq Hn Hi Hd) as Hup. cbn [tree_of ent] in Hup.
  pose proof (quiet_unchanged s s0 V Q) as U. pose proof (un_ok _ _ _ U) as V0.
  assert (Hd0 : is_dir s0 at_) by (by apply (unchanged_dir _ _ _ _ U)).
  destruct (dir_find_spec s0 at_ dotdot V0 (bo_dir _ V0 at_ Hd0)) as (s1 & -> & Q1). rewrite (unchanged_entry _ _ _ _ _ U Hd0), Hup.
  cbn [Z.ltb Z.compare orb]. assert (Hqa : q <> at_) by (intros ->; by apply (no_loop _ _ at_ n R Hq Hn)).
  rewrite (proj2 (Z.eqb_neq q at_)) by done.
  destruct (IH q k' s1 (quiet_trans _ _ _ Q Q1) Hq P' ltac:(lia)) as (b & s' & -> & Q' & Hb). exists b, s'. split; [done |]. split; [done |].
  rewrite Hb. symmetry. by apply (inside_step WFS_ROOT_INO _ ino q n at_).
Qed.

(** Adding to a directory that has a slot to spare. *)
Lemma add_spare s d name ino :
  base_ok s -> is_dir s d -> name_ok name -> good_ino s ino -> entry s d name = None ->
  ~ Forall (fun e => ent_ino e <> 0) (slots s d) ->
  exists s', dir_add d name ino s = (0, s') /\ base_ok s' /\ evolves s s' [d] /\ tree_of s' ≡ with_ent (tree_of s) d name (Some ino).
Proof.
  intros B Hd Hn Hi He Hfree. destruct (add_tree s d name ino B Hd Hn Hi He) as (r & s' & E & B' & Ev & [[-> T] | (_ & _ & Hf)]); [| done].
  by exists s'.
Qed.

(** Telling a directory that moved what is above it. *)
Lemma repoint_tree s i up old :
  base_ok s -> is_dir s i -> good_ino s up -> entry s i dotdot = Some old ->
  exists s1 s2, dir_remove i dotdot s = (0, s1) /\ dir_add i dotdot up s1 = (0, s2) /\ base_ok s2 /\ evolves s s2 [i] /\
    tree_of s2 ≡ with_ent (tree_of s) i dotdot (Some up).
Proof.
  intros B Hd Hup He. destruct (remove_tree s i dotdot B Hd ltac:(congruence)) as (s1 & E1 & B1 & Ev1 & T1 & Hfree).
  assert (Hd1 : is_dir s1 i) by (by apply (is_dir_equiv s1 _ i T1)).
  destruct (add_spare s1 i dotdot up B1 Hd1 (proj2 name_dots)) as (s2 & E2 & B2 & Ev2 & T2).
  - by apply (good_ino_evolves _ _ _ _ Ev1).
  - rewrite (entry_equiv _ _ _ _ T1 Hd1). cbn [with_ent ent]. apply put_ent_eq.
  - done.
  - exists s1, s2. split; [done |]. split; [done |]. split; [done |]. split; [eapply evolves_weaken, evolves_trans; [| exact Ev1 | exact Ev2]; in_list |].
    rewrite T2. etransitivity; [apply with_ent_equiv, T1 |]. split_and!; [done | done |]. cbn [with_ent ent]. intros d m _. unfold put_ent.
    by destruct (decide _).
Qed.

Lemma move_equiv_plain t p n p' n' i :
  ~ special n -> ~ special n' -> (isdir t i -> ent t i dotdot = Some p') ->
  with_ent (with_ent t p' n' (Some i)) p n None ≡ move t p n p' n' i.
Proof.
  intros Hn Hn' Hi. destruct special_dots as [_ Su]. split_and!; [done | done |]. cbn [with_ent move isdir ent]. intros d m Hd.
  destruct (decide (d = i /\ m = dotdot)) as [[-> ->] | Hne].
  - rewrite put_ent_eq, !put_ent_ne by (intros [_ <-]; done). by apply Hi.
  - by rewrite (put_ent_ne i).
Qed.

Lemma move_equiv_dir t p n p' n' i :
  with_ent (with_ent (with_ent t p' n' (Some i)) p n None) i dotdot (Some p') ≡ move t p n p' n' i.
Proof. done. Qed.

(** [rename_entries]: the new entry, the old one, and the directory itself. *)
Lemma entries_tree s p n p' n' i (dir : bool) :
  base_ok s -> rooted WFS_ROOT_INO (tree_of s) -> is_dir s p -> is_dir s p' -> ~ special n -> ~ special n' -> name_ok n' ->
  entry s p n = Some i -> entry s p' n' = None -> ~ inside (tree_of s) i p' -> (dir = true <-> is_dir s i) ->
  exists r s', rename_entries i dir p p' n n' s = (r, s') /\ base_ok s' /\
    ((r = 0 /\ evolves s s' ([p'; p] ++ if dir then [i] else []) /\ tree_of s' ≡ move (tree_of s) p n p' n' i) \/
     ((r = - W_ENOSPC \/ r = - W_EFBIG) /\ evolves s s' [p'] /\ tree_of s' ≡ tree_of s /\ Forall (fun e => ent_ino e <> 0) (slots s p'))).
Proof.
  intros B R Hp Hp' Hn Hn' Hok He He' Hin Hdir. unfold rename_entries.
  assert (Hl : live s i) by (by apply (rt_entries _ _ R p n)).
  destruct (add_tree s p' n' i B Hp' Hok (proj1 Hl) He') as (r & s1 & -> & B1 & Ev1 & [[-> T1] | (Hno & T1 & Hfull)]).
  2: { rewrite (proj2 (Z.ltb_lt r 0)) by (by apply (room_negative r s1)). eexists _, s1. split; [done |]. split; [done |]. right.
       split; [destruct Hno as [-> | [-> _]]; [by right | by left] | done]. }
  cbn [Z.ltb Z.compare]. assert (Hne : ~ (p = p' /\ n = n')) by (intros [-> ->]; congruence).
  assert (Hp1 : is_dir s1 p) by (by apply (is_dir_equiv s1 _ p T1)).
  assert (He1 : entry s1 p n = Some i) by (rewrite (entry_equiv _ _ _ _ T1 Hp1); cbn [with_ent ent]; by rewrite put_ent_ne).
  destruct (remove_tree s1 p n B1 Hp1 ltac:(congruence)) as (s2 & -> & B2 & Ev2 & T2 & _). cbn [Z.ltb Z.compare].
  assert (T02 : tree_of s2 ≡ with_ent (with_ent (tree_of s) p' n' (Some i)) p n None) by (rewrite T2; by apply with_ent_equiv).
  assert (Ev02 : evolves s s2 [p'; p]) by (eapply evolves_weaken, evolves_trans; [| exact Ev1 | exact Ev2]; in_list).
  destruct dir; cbn [andb].
  - assert (Hdi : is_dir s i) by (by apply Hdir). pose proof (rt_up _ _ R p n i Hp Hn He Hdi) as Hup.
    destruct (Z.eqb_spec p p') as [<- | Hpp]; cbn [negb].
    + eexists _, s2. split; [done |]. split; [done |]. left. split; [done |]. split; [eapply evolves_weaken, Ev02; in_list |].
      rewrite T02. by apply move_equiv_plain.
    + assert (Hd2 : is_dir s2 i) by (by apply (is_dir_equiv s2 _ i T02)).
      destruct (repoint_tree s2 i p' p B2 Hd2) as (s3 & s4 & -> & E4 & B4 & Ev4 & T4).
      * apply (good_ino_evolves _ _ _ _ Ev02), Hp'.
      * rewrite (entry_equiv _ _ _ _ T02 Hd2). cbn [with_ent ent]. destruct special_dots as [_ Su].
        rewrite !put_ent_ne by (intros [_ <-]; done). done.
      * rewrite E4. eexists _, s4. split; [done |]. split; [done |]. left. split; [done |].
        split; [exact (evolves_trans _ _ _ _ _ Ev02 Ev4) |]. rewrite T4. etransitivity; [apply with_ent_equiv, T02 | apply move_equiv_dir].
  - eexists _, s2. split; [done |]. split; [done |]. left. split; [done |]. split; [by rewrite app_nil_r |].
    rewrite T02. apply move_equiv_plain; try done. intros Hdi. by apply Hdir in Hdi.
Qed.

Lemma type_decides s j : live s j -> is_dir s j <-> (itype (inode_at s j) =? WFS_TYPE_DIR) = true.
Proof. intros Hj. unfold is_dir. rewrite Z.eqb_eq. tauto. Qed.

(** What is in the way at the destination. *)
Lemma victim_tree s s1 ino p n p' n' :
  vol_ok s -> quiet s s1 -> is_dir s p' -> ~ special n' -> is_dir s p -> ~ special n -> entry s p n = Some ino -> ~ (p = p' /\ n = n') ->
  exists e s', rename_victim ino p' n' s1 = (e, s') /\
    match entry s p' n' with
    | None => e = None /\ quiet s s'
    | Some v => v <> ino /\ ((is_dir s v /\ e = Some (- W_EISDIR) /\ quiet s s') \/
        (~ is_dir s v /\ e = None /\ base_ok s' /\ evolves s s' [p'; v] /\ tree_of s' ≡ remove (tree_of s) p' n' v /\
         ~ Forall (fun e => ent_ino e <> 0) (slots s' p')))
    end.
Proof.
  intros V Q Hp' Hn' Hp Hn He Hne. pose proof (vk_tree _ V) as R. unfold rename_victim.
  pose proof (quiet_unchanged s s1 V Q) as U1. pose proof (un_ok _ _ _ U1) as V1.
  assert (Hp1 : is_dir s1 p') by (by apply (unchanged_dir _ _ _ _ U1)).
  destruct (dir_find_spec s1 p' n' V1 (bo_dir _ V1 p' Hp1)) as (s2 & -> & Q2). rewrite (unchanged_entry _ _ _ _ _ U1 Hp1).
  pose proof (quiet_trans _ _ _ Q Q2) as Q02.
  destruct (entry s p' n') as [v |] eqn:Ev; [| change (- W_ENOENT =? 0) with false; by eexists _, s2]. cbn [Z.eqb negb].
  assert (Hvi : v <> ino) by (intros ->; apply Hne; by destruct (rt_once _ _ R p n p' n' ino)).
  rewrite (proj2 (Z.eqb_neq v ino)) by done.
  assert (Hv : live s v) by (by apply (rt_entries _ _ R p' n')).
  pose proof (quiet_unchanged s s2 V Q02) as U2. pose proof (un_ok _ _ _ U2) as V2.
  destruct (read_inode_spec s2 v V2) as (s3 & -> & Q3); [by apply (unchanged_live _ _ _ _ U2) |]. cbn [Z.ltb Z.compare].
  rewrite (inode_at_quiet _ _ _ Q02). pose proof (quiet_trans _ _ _ Q02 Q3) as Q03. pose proof (type_decides s v Hv) as Hty.
  destruct (itype (inode_at s v) =? WFS_TYPE_DIR).
  { eexists _, s3. split; [done |]. split; [done |]. left. split; [by apply Hty | done]. }
  assert (Hvd : ~ is_dir s v) by (intros Hd; by apply Hty in Hd).
  pose proof (quiet_unchanged s s3 V Q03) as U3. pose proof (un_ok _ _ _ U3) as V3.
  assert (Hp3 : is_dir s3 p') by (by apply (unchanged_dir _ _ _ _ U3)).
  destruct (drop_tree s3 p' n' v V3 Hp3) as (s4 & s5 & -> & E5 & B & Evo & T & _ & Hfree).
  - by rewrite (unchanged_entry _ _ _ _ _ U3 Hp3).
  - by apply (unchanged_live _ _ _ _ U3).
  - by intros <-.
  - cbn [Z.ltb Z.compare]. rewrite E5. eexists _, _. split; [done |]. split; [done |]. right. split; [done |]. split; [done |]. split; [done |].
    split; [exact (evolves_trans _ _ _ _ _ (un_evolves _ _ _ U3) Evo) |]. split; [| done]. rewrite T. apply remove_equiv, U3.
Qed.

Definition displaced s (p' : Z) (n' : list Z) : shape :=
  match entry s p' n' with Some v => remove (tree_of s) p' n' v | None => tree_of s end.
Definition moved_inodes s (p p' : Z) (n' : list Z) (i : Z) : list Z :=
  [p'; p] ++ (if itype (inode_at s i) =? WFS_TYPE_DIR then [i] else []) ++ match entry s p' n' with Some v => [v] | None => [] end.

(** What a rename that succeeds does. *)
Record moved s s' (p : Z) (n : list Z) (p' : Z) (n' : list Z) (i : Z) : Prop := {
  mv_ok : vol_ok s';
  mv_evolves : evolves s s' (moved_inodes s p p' n' i);
  mv_tree : tree_of s' ≡ move (displaced s p' n') p n p' n' i;
}.

Lemma inside_sub t t' a j :
  (forall d n i, isdir t d -> ~ special n -> ent t d n = Some i -> isdir t' d /\ ent t' d n = Some i) -> inside t a j -> inside t' a j.
Proof.
  intros Hsub Hin. induction Hin as [| q n j Hin IH Hq Hn Hj]; [constructor |]. destruct (Hsub q n j Hq Hn Hj). by apply (inside_in _ _ q n).
Qed.

(** The two entries, after the destination is clear. *)
Lemma rename_ready s s1 p n p' n' i :
  vol_ok s -> is_dir s p -> is_dir s p' -> ~ special n -> ~ special n' -> name_ok n' -> entry s p n = Some i -> ~ inside (tree_of s) i p' ->
  base_ok s1 -> tree_of s1 ≡ displaced s p' n' ->
  match entry s p' n' with
  | None => evolves s s1 []
  | Some v => v <> i /\ ~ is_dir s v /\ evolves s s1 [p'; v] /\ ~ Forall (fun e => ent_ino e <> 0) (slots s1 p')
  end ->
  exists r s', rename_entries i (itype (inode_at s i) =? WFS_TYPE_DIR) p p' n n' s1 = (r, s') /\
    ((r = 0 /\ moved s s' p n p' n' i) \/ (entry s p' n' = None /\ (r = - W_ENOSPC \/ r = - W_EFBIG) /\ unchanged s s' [p'])).
Proof.
  intros V Hp Hp' Hn Hn' Hok He Hin B1 T1 Hv. pose proof (vk_tree _ V) as R. pose proof (rt_entries _ _ R p n i Hp He) as Hl.
  set (m := match entry s p' n' with Some v => [p'; v] | None => [] end).
  assert (Ev : evolves s s1 m) by (unfold m; destruct (entry s p' n'); [apply Hv | done]).
  assert (R1 : rooted WFS_ROOT_INO (tree_of s1)).
  { rewrite T1. unfold displaced. destruct (entry s p' n') as [v |] eqn:E; [| done]. destruct Hv as (_ & Hvd & _). by apply rooted_remove. }
  assert (Hsub : forall d k j, isdir (tree_of s1) d -> ent (tree_of s1) d k = Some j -> isdir (tree_of s) d /\ ent (tree_of s) d k = Some j).
  { intros d k j Hd Hj. apply (is_dir_equiv _ _ _ T1) in Hd as Hd'. cbn [tree_of ent] in Hj. rewrite (entry_equiv _ _ _ _ T1 Hd) in Hj.
    revert Hd' Hj. unfold displaced. destruct (entry s p' n') as [v |]; [| done]. cbn [remove isdir ent]. intros [Hd' _].
    unfold put_ent. by destruct (decide _). }
  assert (Hkeep : forall d k, is_dir s d -> ~ (d = p' /\ k = n') -> is_dir s1 d /\ entry s1 d k = entry s d k).
  { intros d k Hd Hne. assert (Hd1 : is_dir s1 d).
    { apply (is_dir_equiv _ _ _ T1). unfold displaced. destruct (entry s p' n') as [v |]; [| done]. split; [done |]. intros ->. by destruct Hv as (_ & Hvd & _); apply Hvd. }
    split; [done |]. rewrite (entry_equiv _ _ _ _ T1 Hd1). unfold displaced. destruct (entry s p' n'); [| done]. by apply put_ent_ne. }
  assert (Hp1' : is_dir s1 p') by (apply (Hkeep p' dot Hp'); intros [_ <-]; by apply Hn'; left).
  assert (Hnone : entry s1 p' n' = None).
  { rewrite (entry_equiv _ _ _ _ T1 Hp1'). unfold displaced. destruct (entry s p' n') eqn:E; [apply put_ent_eq | done]. }
  assert (Hne : ~ (p = p' /\ n = n')) by (intros [-> ->]; rewrite He in Hv; by destruct Hv).
  destruct (Hkeep p n Hp Hne) as [Hp1 He1]. rewrite He in He1.
  assert (Hdir : (itype (inode_at s i) =? WFS_TYPE_DIR) = true <-> is_dir s1 i).
  { rewrite <- type_decides by done. split; [intros Hd; apply (Hkeep i dot Hd); intros [_ <-]; by apply Hn'; left |].
    intros Hd. apply (Hsub i dot i); [done |]. by apply (rt_dot _ _ R1). }
  assert (Hin1 : ~ inside (tree_of s1) i p').
  { intros Hi. apply Hin. revert Hi. apply inside_sub. intros d k j Hd _ Hj. by apply Hsub. }
  destruct (entries_tree s1 p n p' n' i _ B1 R1 Hp1 Hp1' Hn Hn' Hok He1 Hnone Hin1 Hdir) as (r & s2 & -> & B2 & Hcase).
  eexists _, s2. split; [done |]. destruct Hcase as [(-> & Ev2 & T2) | (Hr & Ev2 & T2 & Hfull)].
  - left. split; [done |]. assert (Ev' : evolves s s2 (moved_inodes s p p' n' i)).
    { eapply evolves_weaken, evolves_trans; [| exact Ev | exact Ev2]. unfold moved_inodes, m. destruct (entry s p' n'); in_list. }
    assert (T : tree_of s2 ≡ move (displaced s p' n') p n p' n' i) by (rewrite T2; by apply move_equiv).
    split; [split; [done | rewrite (ev_root _ _ _ Ev'); apply V |] | done | done]. rewrite T2. by apply rooted_move.
  - right. destruct (entry s p' n') as [v |] eqn:E; [by destruct Hv as (_ & _ & _ & Hv) |]. split; [done |]. split; [done |].
    apply vol_ok_equiv; [done | done | exact (evolves_trans _ _ _ _ _ Ev Ev2) |]. rewrite T2, T1. unfold displaced. by rewrite E.
Qed.

(** What [wfs_rename] does once both ends are resolved to names in
    directories. *)
Definition renames s s' (p : Z) (n : list Z) (p' : Z) (n' : list Z) (r : Z) : Prop :=
  match entry s p n with
  | None => r = - W_ENOENT /\ unchanged s s' []
  | Some i =>
      (p = p' /\ n = n' /\ r = 0 /\ unchanged s s' []) \/
      (~ (p = p' /\ n = n') /\ inside (tree_of s) i p' /\ r = - W_EINVAL /\ unchanged s s' []) \/
      (~ (p = p' /\ n = n') /\ ~ inside (tree_of s) i p' /\
       ((exists v, entry s p' n' = Some v /\ is_dir s v /\ r = - W_EISDIR /\ unchanged s s' []) \/
        (r = 0 /\ moved s s' p n p' n' i) \/
        (entry s p' n' = None /\ (r = - W_ENOSPC \/ r = - W_EFBIG) /\ unchanged s s' [p'])))
  end.

(** The steps after the source was found. *)
Lemma rename_end s s1 p n p' n' i k :
  vol_ok s -> quiet s s1 -> is_dir s p -> is_dir s p' -> ~ special n -> ~ special n' -> name_ok n' -> entry s p n = Some i ->
  ~ (p = p' /\ n = n') -> placed WFS_ROOT_INO (tree_of s) p' k -> (k < 256)%nat ->
  exists r s',
    (let is_dir := itype (inode_at s i) =? WFS_TYPE_DIR in
     let '(inside, s) := if is_dir then climbs_to 256 p' i s1 else (false, s1) in
     if inside then (- W_EINVAL, s)
     else
       let '(early, s) := rename_victim i p' n' s in
       match early with Some r => (r, s) | None => rename_entries i is_dir p p' n n' s end) = (r, s') /\
    renames s s' p n p' n' r.
Proof.
  intros V Q Hp Hp' Hn Hn' Hok He Hne P Hk. unfold renames. rewrite He. pose proof (vk_tree _ V) as R.
  pose proof (rt_entries _ _ R p n i Hp He) as Hl. cbn zeta.
  assert (Hcl : exists (b : bool) s2, (if itype (inode_at s i) =? WFS_TYPE_DIR then climbs_to 256 p' i s1 else (false, s1)) = (b, s2) /\
    quiet s s2 /\ (b = true <-> inside (tree_of s) i p')).
  { destruct (Z.eqb_spec (itype (inode_at s i)) WFS_TYPE_DIR) as [Ht | Ht]; [by apply (climbs_spec s i V 256 p' k) |].
    exists false, s1. split; [done |]. split; [done |]. split; [done |]. intros Hin. assert (Hid : ~ is_dir s i) by (by intros [_ ?]).
    pose proof (inside_leaf (tree_of s) i p' Hid Hin). by subst. }
  destruct Hcl as (b & s2 & -> & Q2 & Hb). destruct b.
  { eexists _, s2. split; [done |]. right. left. split; [done |]. split; [by apply Hb |]. split; [done | by apply quiet_unchanged]. }
  assert (Hin : ~ inside (tree_of s) i p') by (intros Hi; by apply Hb in Hi).
  destruct (victim_tree s s2 i p n p' n' V Q2 Hp' Hn' Hp Hn He Hne) as (e & s3 & -> & Hv).
  pose proof (rename_ready s s3 p n p' n' i V Hp Hp' Hn Hn' Hok He Hin) as Hrdy. unfold displaced in Hrdy.
  destruct (entry s p' n') as [v |] eqn:Ev.
  - destruct Hv as (Hvi & [(Hd & -> & Q3) | (Hd & -> & B3 & Ev3 & T3 & Hf)]).
    + eexists _, s3. split; [done |]. right. right. split; [done |]. split; [done |]. left. exists v. split; [done |]. split; [done |].
      split; [done | by apply quiet_unchanged].
    + destruct (Hrdy B3 T3) as (r & s4 & -> & Hres); [done |]. eexists _, s4. split; [done |]. right. right. split; [done |]. split; [done |].
      right. by destruct Hres as [? | ?]; [left | right].
  - destruct Hv as [-> Q3]. pose proof (quiet_unchanged s s3 V Q3) as U3.
    destruct (Hrdy (un_ok _ _ _ U3) (un_tree _ _ _ U3) (un_evolves _ _ _ U3)) as (r & s4 & -> & Hres). eexists _, s4. split; [done |].
    right. right. split; [done |]. split; [done |]. right. by destruct Hres as [? | ?]; [left | right].
Qed.

Lemma rename_spec s from to r1 p n r2 p' n' :
  vol_ok s -> Forall (fun c => c <> 0) from -> Forall (fun c => c <> 0) to ->
  parent_at s from = (r1, p, n) -> parent_at s to = (r2, p', n') -> (r2 = 0 -> is_dir s p') ->
  exists r s', wfs_rename from to s = (r, s') /\
    ((r1 < 0 /\ r = r1 /\ unchanged s s' []) \/
     (r1 = 0 /\ r2 < 0 /\ r = r2 /\ unchanged s s' []) \/
     (r1 = 0 /\ r2 = 0 /\ (special n \/ special n') /\ r = - W_EINVAL /\ unchanged s s' []) \/
     (r1 = 0 /\ r2 = 0 /\ ~ special n /\ ~ special n' /\ ~ is_dir s p /\ r = - W_ENOTDIR /\ unchanged s s' []) \/
     (r1 = 0 /\ r2 = 0 /\ ~ special n /\ ~ special n' /\ is_dir s p /\ renames s s' p n p' n' r)).
Proof.
  intros V Hnz Hnz' Hpar Hpar' Hdir. pose proof (parent_at_spec s from r1 p n V Hnz Hpar) as Hp.
  pose proof (parent_at_spec s to r2 p' n' V Hnz' Hpar') as Hp'. unfold wfs_rename. rewrite (bo_mounted _ V). cbn [negb].
  destruct (resolve_parent_spec s from V) as (s1 & -> & Q1). rewrite Hpar. pose proof (quiet_unchanged s s1 V Q1) as U1.
  destruct (Z.ltb_spec r1 0) as [Hr | Hr]; [eexists _, s1; split; [done |]; by left |]. destruct Hp as [? | (-> & Hpl & Hn & _)]; [lia |].
  destruct (resolve_parent_spec s1 to (un_ok _ _ _ U1)) as (s2 & -> & Q2). rewrite (parent_at_quiet s s1 to V Q1), Hpar'.
  pose proof (quiet_trans _ _ _ Q1 Q2) as Q. pose proof (quiet_unchanged s s2 V Q) as U2. pose proof (un_ok _ _ _ U2) as V2.
  destruct (Z.ltb_spec r2 0) as [Hr2 | Hr2]; [eexists _, s2; split; [done |]; right; by left |].
  destruct Hp' as [? | (-> & Hpl' & Hok & k & P & Hk)]; [lia |]. specialize (Hdir eq_refl).
  destruct (decide (special n \/ special n')) as [Hs | Hs].
  { replace (_ || _ || _ || _)%bool with true; [eexists _, s2; split; [done |]; right; right; by left |]. symmetry.
    rewrite !orb_true_iff, !bool_decide_eq_true. unfold special in Hs. tauto. }
  replace (_ || _ || _ || _)%bool with false by (symmetry; rewrite !orb_false_iff, !bool_decide_eq_false; unfold special in Hs; tauto).
  assert (Hp2 : live s2 p) by (by apply (unchanged_live _ _ _ _ U2)).
  destruct (decide (itype (inode_at s2 p) = WFS_TYPE_DIR)) as [Ht | Ht].
  2: { destruct (dir_find_notdir s2 p n V2 (proj1 Hp2) Ht) as (s3 & -> & Q3). eexists _, s3. split; [done |]. do 3 right. left.
       split; [done |]. split; [done |]. split; [tauto |]. split; [tauto |]. split; [| split; [done | by apply quiet_unchanged, (quiet_trans _ s2)]].
       intros Hd. apply (unchanged_dir _ _ _ _ U2) in Hd. by apply Ht, Hd. }
  assert (Hd2 : is_dir s2 p) by (by split). assert (Hd : is_dir s p) by (by apply (unchanged_dir _ _ _ _ U2)).
  destruct (dir_find_spec s2 p n V2 (bo_dir _ V2 p Hd2)) as (s3 & -> & Q3). pose proof (quiet_trans _ _ _ Q Q3) as Q03.
  pose proof (quiet_unchanged s s3 V Q03) as U3. rewrite (unchanged_entry _ _ _ _ _ U2 Hd2).
  destruct (entry s p n) as [i |] eqn:Ee.
  2: { eexists _, s3. split; [done |]. do 4 right. unfold renames. rewrite Ee. by split_and!; try tauto. }
  cbn [Z.ltb Z.compare]. pose proof (rt_entries _ _ (vk_tree _ V) p n i Hd Ee) as Hl.
  destruct (read_inode_spec s3 i (un_ok _ _ _ U3)) as (s4 & -> & Q4); [by apply (unchanged_live _ _ _ _ U3) |]. cbn [Z.ltb Z.compare].
  pose proof (quiet_trans _ _ _ Q03 Q4) as Q04. rewrite (inode_at_quiet _ _ _ Q03).
  destruct (decide (p = p' /\ n = n')) as [[-> ->] | Hne].
  { rewrite Z.eqb_refl, bool_decide_true by done. eexists _, s4. split; [done |]. do 4 right. unfold renames. rewrite Ee.
    do 4 (split; [tauto |]). split; [done |]. left. split; [done |]. split; [done |]. split; [done | by apply quiet_unchanged]. }
  replace ((p =? p') && bool_decide (n = n'))%bool with false.
  2: { symmetry. apply andb_false_iff. rewrite Z.eqb_neq, bool_decide_eq_false. destruct (decide (p = p')); tauto. }
  destruct (rename_end s s4 p n p' n' i k V Q04 Hd Hdir) as (r & s5 & E5 & Hres); [tauto | tauto | done.. |].
  cbn zeta in E5. rewrite E5. eexists _, s5. split; [done |]. do 4 right. do 4 (split; [tauto |]). done.
Qed.
End tree.
End WfsTree.
