(* ===== verification/WfsTreeSpec.v ===== *)
(** What WFS promises about names: the theorems on [wfs_lookup],
    [wfs_create], [wfs_unlink], [wfs_rename] and [wfs_readdir] of
    [kernel/fs/wfs.c], on a volume that is a tree, and what goes wrong when a
    file is taken for a directory. *)

From S2P Require Import Prelude Str Device Ramdisk Wfs WfsFile WfsDir WfsSpec WfsDirSpec WfsInode DirTree WfsTree.

Module WfsTreeSpec.
Import Str Wfs WfsFile WfsDir WfsSpec WfsDirSpec WfsInode DirTree WfsTree.

(** A slot that holds an entry. *)
Definition live_slot (e : list Z) : Prop := ent_ino e <> 0.

#[export] Instance live_slot_dec e : Decision (live_slot e).
Proof. unfold live_slot. apply _. Defined.

Section promises.
Context {D : Type} `{Hdev : BlockDevice D} `{!BlockDeviceLaws D} `{!ReliableDevice D}.
Implicit Types s : fs D.

(** Looking up a path is following its names through the directories from
    the root: slashes separate names, and repeated and trailing ones do not
    matter; a name that is too long, a file used as a directory and a name that
    is not there give their errors at the first place they occur; nothing on
    the volume changes. *)
Theorem wfs_lookup_correct s path :
  vol_ok s ->
  exists s', wfs_lookup path s =
    (if path.[0] =? slash then follow s (root_inode (sb s)) (components path) else (- W_EINVAL, 0), s') /\ unchanged s s' [].
Proof.
  intros V. destruct (lookup_spec s path V) as (s' & E & Q). exists s'. split; [done | by apply quiet_unchanged].
Qed.

(** C4: creating, where what is in front of the last name of the path, if it is
    there, is a directory: this is a condition of the claim, not a check of the
    code, which on "/file/x" writes the entry into the bytes of the file (see
    [create_in_file]).  On a volume that is a tree, [wfs_create] then makes a new empty file or a directory with nothing
    but its two special names, under exactly that name, in an inode that was
    free; or reports why it cannot (the path, the name is taken, no inode or
    block left, the directory is full), and then the tree is what it was.
    Either way the volume is a tree again, and no other file or directory
    changes in any byte. *)
Theorem wfs_create_correct s path type r p name :
  vol_ok s -> type = WFS_TYPE_FILE \/ type = WFS_TYPE_DIR -> Forall (fun c => c <> 0) path ->
  parent_at s path = (r, p, name) -> (r = 0 -> is_dir s p) ->
  exists r' i s', wfs_create path type s = (r', i, s') /\
    ((r < 0 /\ r' = r /\ unchanged s s' []) \/
     (r = 0 /\ entry s p name <> None /\ r' = - W_EEXIST /\ unchanged s s' []) \/
     (r = 0 /\ entry s p name = None /\ r' = 0 /\ created s s' p name type i) \/
     (r = 0 /\ entry s p name = None /\ (r' = - W_ENOSPC \/ r' = - W_EFBIG) /\ exists j, ~ live s j /\ unchanged s s' [j; p])).
Proof. apply create_spec. Qed.

(** C5: removing.  [wfs_unlink] takes exactly that name out of its directory
    and gives back the inode and every block of the file; it refuses the two
    special names, a name that is not there and a directory that still has
    something in it, and then nothing changes.  The volume stays a tree, and no
    other file or directory changes. *)
Theorem wfs_unlink_correct s path r p name :
  vol_ok s -> Forall (fun c => c <> 0) path -> parent_at s path = (r, p, name) ->
  exists r' s', wfs_unlink path s = (r', s') /\
    ((r < 0 /\ r' = r /\ unchanged s s' []) \/
     (r = 0 /\ special name /\ r' = - W_EINVAL /\ unchanged s s' []) \/
     (r = 0 /\ ~ special name /\ ~ is_dir s p /\ r' = - W_ENOTDIR /\ unchanged s s' []) \/
     (r = 0 /\ ~ special name /\ is_dir s p /\ unlinks s s' p name r')).
Proof. apply unlink_spec. Qed.

(** C3: renaming, where what is in front of the last name of the destination, if
    it is there, is a directory: this is a condition of the claim, not a check of
    the code, which like [wfs_create] writes the entry into a file it finds there
    (see [rename_into_file]).  [wfs_rename] then moves an object from one name to
    another, a file that was there is replaced, a directory that moves learns what is
    above it; it refuses to replace a directory and to move a directory into
    itself: its walk of at most 256 steps up from the destination finds every
    such case, because no path it is given is long enough to name something
    deeper.  So the volume stays a tree, with everything reachable from the
    root.  When it fails nothing has changed; in particular a file to be
    replaced is still there. *)
Theorem wfs_rename_correct s from to r1 p n r2 p' n' :
  vol_ok s -> Forall (fun c => c <> 0) from -> Forall (fun c => c <> 0) to ->
  parent_at s from = (r1, p, n) -> parent_at s to = (r2, p', n') -> (r2 = 0 -> is_dir s p') ->
  exists r s', wfs_rename from to s = (r, s') /\
    ((r1 < 0 /\ r = r1 /\ unchanged s s' []) \/
     (r1 = 0 /\ r2 < 0 /\ r = r2 /\ unchanged s s' []) \/
     (r1 = 0 /\ r2 = 0 /\ (special n \/ special n') /\ r = - W_EINVAL /\ unchanged s s' []) \/
     (r1 = 0 /\ r2 = 0 /\ ~ special n /\ ~ special n' /\ ~ is_dir s p /\ r = - W_ENOTDIR /\ unchanged s s' []) \/
     (r1 = 0 /\ r2 = 0 /\ ~ special n /\ ~ special n' /\ is_dir s p /\ renames s s' p n p' n' r)).
Proof. apply rename_spec. Qed.

(** ** Listing a directory *)

Lemma readdir_walk s d k :
  good s -> dir_ok s d -> 0 <= k ->
  exists s', dir_walk (dir_fuel (isize (inode_at s d))) (fun e => negb (ent_ino e =? WFS_INVALID_INO)) d (isize (inode_at s d)) (32 * k) no_ent s =
    (match list_find live_slot (drop (Z.to_nat k) (slots s d)) with Some (i, e) => Some (32 * (k + Z.of_nat i), e) | None => None end, s') /\ quiet s s'.
Proof.
  intros G [F Ty Hm _ _] Hk. destruct (fo_wf _ _ F) as (_ & _ & Hz & _).
  destruct (dir_walk_spec (fun e => negb (ent_ino e =? WFS_INVALID_INO)) d (dir_fuel (isize (inode_at s d))) (Z.to_nat k) no_ent s G F Hm eq_refl)
    as (s' & E & Q); [unfold dir_fuel, WFS_DIRENT_SIZE; zlia |].
  exists s'. split; [| done]. rewrite Z2Nat.id in E by done. rewrite E. f_equal. clear E.
  generalize (drop (Z.to_nat k) (slots s d)). intros l.
  assert (El : list_find (fun e => negb (ent_ino e =? WFS_INVALID_INO) = true) l = list_find live_slot l).
  { induction l as [| e l IH]; cbn [list_find]; [done |]. unfold WFS_INVALID_INO in *. rewrite IH.
    destruct (decide (live_slot e)) as [Hl | Hl]; [rewrite decide_True | rewrite decide_False]; try done; unfold live_slot in Hl;
      destruct (Z.eqb_spec (ent_ino e) 0); done. }
  rewrite El. destruct (list_find live_slot l) as [[i e] |]; [| done]. do 3 f_equal. lia.
Qed.

(** Listing.  [wfs_readdir] with a cursor anywhere in slot [k] of a
    directory returns the first entry in use from that slot on, with its inode
    number, its name and its type, and leaves the cursor on the slot after it;
    when there is none it returns 0 and leaves the cursor at the end.  So a
    caller that hands the cursor back sees every entry once, in order, and then
    the end. *)
Theorem wfs_readdir_correct s d cursor :
  vol_ok s -> is_dir s d -> 0 <= cursor < 2 ^ 32 ->
  exists s', unchanged s s' [] /\ wfs_readdir d cursor s =
    match list_find live_slot (drop (Z.to_nat (cursor / 32)) (slots s d)) with
    | Some (i, e) =>
        (1, Some (WDirent (ent_ino e) (itype (inode_at s (ent_ino e))) (slice 0 27 (ent_name e))),
         32 * (cursor / 32 + Z.of_nat i + 1), s')
    | None => (0, None, isize (inode_at s d), s')
    end.
Proof.
  intros V Hd Hc. pose proof (bo_dir _ V d Hd) as Hok. pose proof (do_file _ _ Hok) as F. unfold wfs_readdir.
  destruct (read_inode_spec s d V (fo_ino _ _ F)) as (s1 & -> & Q1). cbn [Z.ltb Z.compare]. rewrite (do_type _ _ Hok). cbn [Z.eqb negb Pos.eqb WFS_TYPE_DIR].
  replace (cursor - cursor `mod` WFS_DIRENT_SIZE) with (32 * (cursor / 32)) by (unfold WFS_DIRENT_SIZE; zlia).
  destruct (readdir_walk s1 d (cursor / 32) (qt_good _ _ Q1) (dir_ok_quiet _ _ _ Q1 Hok) ltac:(zlia)) as (s2 & E & Q2).
  rewrite (inode_at_quiet _ _ _ Q1), (slots_quiet _ _ _ Q1 F) in E. rewrite E. clear E. pose proof (quiet_trans _ _ _ Q1 Q2) as Q.
  destruct (list_find live_slot _) as [[i e] |] eqn:Ef; [| exists s2; split; [by apply quiet_unchanged | done]].
  apply list_find_Some in Ef as (Hi & He & _). rewrite lookup_drop in Hi.
  assert (Hl : live s (ent_ino e)).
  { apply (rt_entries _ _ (vk_tree _ V) d (ent_name e) _ Hd). apply look_Some; [apply Hok |]. by eexists _, e. }
  destruct (read_inode_spec s2 (ent_ino e) (qt_good _ _ Q2)) as (s3 & -> & Q3).
  { unfold good_ino. rewrite (sm_sb _ _ (qt_meta _ _ Q)). apply Hl. }
  exists s3. split; [by apply quiet_unchanged, (quiet_trans _ s2) |]. cbn [Z.eqb]. rewrite (inode_at_quiet _ _ _ Q).
  apply lookup_slots in Hi as [Hi _]. pose proof (fo_size _ _ F). assert (MAX_BLOCKS * 1024 < 2 ^ 31) by (unfold MAX_BLOCKS; lia).
  unfold WFS_DIRENT_SIZE. rewrite u32_id by zlia. do 2 f_equal. lia.
Qed.
End promises.

(** ** On the sample volume *)

Lemma sample_live j : live sample_fs j <-> j = 1.
Proof.
  assert (Hall : forallb (fun j => Bool.eqb (itype (inode_at sample_fs j) =? WFS_TYPE_FREE) (negb (j =? 1))) (seqZ 1 31) = true)
    by (vm_compute; reflexivity).
  rewrite forallb_forall in Hall. unfold live, good_ino. change (total_inodes (sb sample_fs)) with 32. split.
  - intros [Hj Ht]. specialize (Hall j ltac:(apply list_elem_of_In, elem_of_seqZ; lia)). apply eqb_prop in Hall.
    rewrite (proj2 (Z.eqb_neq _ _) Ht) in Hall. symmetry in Hall. rewrite negb_false_iff, Z.eqb_eq in Hall. done.
  - intros ->. split; [lia |]. vm_compute. congruence.
Qed.

Lemma sample_slots : slots sample_fs 1 = [make_ent 1 dot; make_ent 1 dotdot].
Proof. vm_compute. reflexivity. Qed.

Lemma sample_entry n i : entry sample_fs 1 n = Some i <-> special n /\ i = 1.
Proof.
  unfold entry. rewrite sample_slots. unfold look, special. cbn [list_find].
  assert (E1 : named n (make_ent 1 dot) = bool_decide (dot = n)) by (vm_compute; reflexivity).
  assert (E2 : named n (make_ent 1 dotdot) = bool_decide (dotdot = n)) by (vm_compute; reflexivity).
  assert (I : ent_ino (make_ent 1 dot) = 1 /\ ent_ino (make_ent 1 dotdot) = 1) by (split; vm_compute; reflexivity). destruct I as [I1 I2].
  destruct (decide (named n (make_ent 1 dot) = true)) as [H1 | H1]; rewrite E1, bool_decide_eq_true in H1.
  { rewrite I1. split; [intros [= <-]; auto | by intros [_ ->]]. }
  destruct (decide (named n (make_ent 1 dotdot) = true)) as [H2 | H2]; rewrite E2, bool_decide_eq_true in H2; cbn -[ent_ino make_ent special dot dotdot].
  { rewrite I2. split; [intros [= <-]; auto | by intros [_ ->]]. }
  split; [done |]. intros [[-> | ->] _]; done.
Qed.

Lemma sample_dir d : is_dir sample_fs d <-> d = 1.
Proof. unfold is_dir. rewrite sample_live. split; [by intros [-> _] | intros ->; split; [done | vm_compute; reflexivity]]. Qed.

Lemma sample_files_ok : files_ok sample_fs.
Proof.
  split.
  - apply good_b_sound. vm_compute. reflexivity.
  - vm_compute. reflexivity.
  - intros j Hj. apply sample_live in Hj as ->. apply small_b_sound. vm_compute. reflexivity.
  - intros i j Hi Hj Hne. apply sample_live in Hi, Hj. congruence.
  - vm_compute. reflexivity.
Qed.

Lemma sample_base_ok : base_ok sample_fs.
Proof.
  split; [apply sample_files_ok | reflexivity | split; vm_compute; congruence |].
  intros d Hd. apply sample_dir in Hd as ->. split.
  - apply (fk_file _ sample_files_ok), sample_live. done.
  - vm_compute. reflexivity.
  - vm_compute. reflexivity.
  - intros k Hk. change (isize (inode_at sample_fs 1) / 32) with 2 in Hk.
    assert (Hc : k = 0 \/ k = 1) by lia. destruct Hc as [-> | ->]; vm_compute; congruence.
  - rewrite sample_slots. intros [| [| i]] [| [| j]] e e' Hi Hj _ _; cbn in Hi, Hj; simplify_eq; try done;
      intros E; exfalso; revert E; vm_compute; congruence.
Qed.

Lemma sample_vol_ok : vol_ok sample_fs.
Proof.
  split; [apply sample_base_ok | reflexivity |]. split; cbn [tree_of alive isdir ent].
  - by intros d [Hd _].
  - by apply sample_dir.
  - intros d n i Hd. apply sample_dir in Hd as ->. rewrite sample_entry. intros [_ ->]. by apply sample_live.
  - intros d Hd. apply sample_dir in Hd as ->. apply sample_entry. split; [by left | done].
  - intros p n d Hp Hn. apply sample_dir in Hp as ->. rewrite sample_entry. tauto.
  - apply sample_entry. split; [by right | done].
  - intros p n p' n' i Hp _ Hn _. apply sample_dir in Hp as ->. rewrite sample_entry. tauto.
  - intros p n Hp Hn. apply sample_dir in Hp as ->. rewrite sample_entry. tauto.
  - intros i Hi. apply sample_live in Hi as ->. exists 0%nat. constructor.
Qed.

Lemma wfs_lookup_correct_witness :
  exists s', wfs_lookup path_a sample_fs =
    (if path_a.[0] =? slash then follow sample_fs (root_inode (sb sample_fs)) (components path_a) else (- W_EINVAL, 0), s') /\
    unchanged sample_fs s' [].
Proof. exact (wfs_lookup_correct sample_fs path_a sample_vol_ok). Defined.

Lemma path_a_bytes : Forall (fun c => c <> 0) path_a.
Proof. repeat constructor; done. Qed.

Lemma wfs_create_correct_witness :
  exists i s', wfs_create path_a WFS_TYPE_FILE sample_fs = (0, i, s') /\ created sample_fs s' 1 name_a WFS_TYPE_FILE i.
Proof.
  destruct (wfs_create_correct sample_fs path_a WFS_TYPE_FILE 0 1 name_a sample_vol_ok (or_introl eq_refl) path_a_bytes)
    as (r' & i & s' & E & Hcase); [vm_compute; reflexivity | intros _; by apply sample_dir |].
  assert (Hr : r' = 0) by (apply (f_equal (fun x => x.1.1)) in E; vm_compute in E; by rewrite <- E).
  rewrite Hr in E, Hcase. exists i, s'. split; [exact E |].
  destruct Hcase as [[H _] | [(_ & _ & H & _) | [(_ & _ & _ & H) | (_ & _ & [H | H] & _)]]]; [lia | done | exact H | done | done].
Defined.

Definition sample_a : fs Ramdisk.ramdisk := (wfs_create path_a WFS_TYPE_FILE sample_fs).2.

Lemma sample_a_ok : vol_ok sample_a.
Proof.
  destruct (create_spec sample_fs path_a WFS_TYPE_FILE 0 1 name_a sample_vol_ok (or_introl eq_refl) path_a_bytes)
    as (r' & i & s' & E & Hcase); [vm_compute; reflexivity | intros _; by apply sample_dir |].
  unfold sample_a. rewrite E. cbn [snd].
  destruct Hcase as [(_ & _ & H) | [(_ & _ & _ & H) | [(_ & _ & _ & H) | (_ & _ & _ & j & _ & H)]]]; apply H.
Qed.

Local Opaque sample_a.

Lemma wfs_unlink_correct_witness :
  exists s', wfs_unlink path_a sample_a = (0, s') /\ removed sample_a s' 1 name_a 2.
Proof.
  destruct (wfs_unlink_correct sample_a path_a 0 1 name_a sample_a_ok path_a_bytes) as (r' & s' & E & Hcase); [vm_compute; reflexivity |].
  assert (Hr : r' = 0) by (apply (f_equal fst) in E; vm_compute in E; by rewrite <- E). rewrite Hr in E, Hcase. exists s'. split; [exact E |]. clear E.
  assert (He : entry sample_a 1 name_a = Some 2) by (vm_compute; reflexivity).
  destruct Hcase as [[H _] | [(_ & _ & H & _) | [(_ & _ & _ & H & _) | (_ & _ & _ & H)]]]; [destruct (Z.lt_irrefl _ H) | discriminate H | discriminate H |].
  unfold unlinks in H. rewrite He in H. destruct H as [(_ & _ & H & _) | (_ & _ & H)]; [discriminate H | exact H].
Defined.

(** "/b" *)
Definition name_b : list Z := [98].
Definition path_b : list Z := slash :: name_b.

Lemma path_b_bytes : Forall (fun c => c <> 0) path_b.
Proof. repeat constructor; done. Qed.

Lemma wfs_rename_correct_witness :
  exists s', wfs_rename path_a path_b sample_a = (0, s') /\ moved sample_a s' 1 name_a 1 name_b 2.
Proof.
  destruct (wfs_rename_correct sample_a path_a path_b 0 1 name_a 0 1 name_b sample_a_ok path_a_bytes path_b_bytes) as (r' & s' & E & Hcase);
    [vm_compute; reflexivity | vm_compute; reflexivity | intros _; apply root_live, sample_a_ok |].
  assert (Hr : r' = 0) by (apply (f_equal fst) in E; vm_compute in E; by rewrite <- E). rewrite Hr in E, Hcase. exists s'. split; [exact E |]. clear E.
  assert (He : entry sample_a 1 name_a = Some 2) by (vm_compute; reflexivity).
  destruct Hcase as [[H _] | [(_ & H & _) | [(_ & _ & _ & H & _) | [(_ & _ & _ & _ & _ & H & _) | (_ & _ & _ & _ & _ & H)]]]];
    [destruct (Z.lt_irrefl _ H) | destruct (Z.lt_irrefl _ H) | discriminate H | discriminate H |].
  unfold renames in H. rewrite He in H.
  destruct H as [(_ & H & _) | [(_ & _ & H & _) | (_ & _ & [(v & _ & _ & H & _) | [[_ H] | (_ & [H | H] & _)]])]];
    [discriminate H | discriminate H | discriminate H | exact H | discriminate H | discriminate H].
Defined.

Lemma wfs_readdir_correct_witness :
  exists s', unchanged sample_a s' [] /\
    wfs_readdir 1 64 sample_a = (1, Some (WDirent 2 WFS_TYPE_FILE name_a), 96, s').
Proof.
  destruct (wfs_readdir_correct sample_a 1 64 sample_a_ok) as (s' & U & E); [apply root_live, sample_a_ok | lia |].
  exists s'. split; [exact U |].
  assert (Ef : list_find live_slot (drop (Z.to_nat (64 / 32)) (slots sample_a 1)) = Some (0%nat, make_ent 2 name_a)) by (vm_compute; reflexivity).
  rewrite Ef in E. rewrite E. vm_compute. reflexivity.
Defined.

(** ** A file taken for a directory

    [wfs_create] asks [dir_find] only whether the name is there; that the
    parent is not a directory it does not notice, and the new entry is written
    into the bytes of the file.  "/a/b" with "/a" a file of 5 bytes: *)
Example create_in_file :
  let s := (wfs_write 2 0 (replicate 5 7) sample_a).2 in
  let '(r, ino, s') := wfs_create (path_a ++ path_b) WFS_TYPE_DIR s in
  r = 0 /\ itype (inode_at s 2) = WFS_TYPE_FILE /\ (wfs_read 2 0 100 s).1 = (5, replicate 5 7) /\
  (wfs_read 2 0 100 s').1 = (37, replicate 5 7 ++ make_ent ino name_b).
Proof. vm_compute. repeat split; reflexivity. Qed.

(** The same of [wfs_rename]: "/b" is moved to "/a/b", into the bytes of "/a",
    and cannot be found any more. *)
Example rename_into_file :
  let s := (wfs_write 2 0 (replicate 5 7) (wfs_create path_b WFS_TYPE_FILE sample_a).2).2 in
  let '(r, s') := wfs_rename path_b (path_a ++ path_b) s in
  r = 0 /\ (wfs_read 2 0 100 s').1 = (37, replicate 5 7 ++ make_ent 3 name_b) /\
  (wfs_lookup path_b s').1 = (- W_ENOENT, 0) /\ (wfs_lookup (path_a ++ path_b) s').1 = (- W_ENOTDIR, 0).
Proof. vm_compute. repeat split; reflexivity. Qed.

End WfsTreeSpec.
