(* ===== verification/Rtc.v ===== *)
(** The CMOS real-time clock, [kernel/drivers/rtc.c].

    The chip is behind two ports, so it is a parameter: a class [Cmos] of what
    [outb] and [inb] on ports 0x70 and 0x71 do, and a class [StillCmos] for the
    stretch between two ticks, where a register read gives what was written
    last.  [rtc_set] then [rtc_read] is the identity on every date of the
    century in each of the chip's four formats, and [rtc_epoch] counts seconds
    of the Gregorian calendar. *)

From S2P Require Import Prelude.

Module Rtc.

Definition REG_SECOND : Z := 0x00.
Definition REG_MINUTE : Z := 0x02.
Definition REG_HOUR : Z := 0x04.
Definition REG_DAY : Z := 0x07.
Definition REG_MONTH : Z := 0x08.
Definition REG_YEAR : Z := 0x09.
Definition REG_STATUS_A : Z := 0x0A.
Definition REG_STATUS_B : Z := 0x0B.
Definition STATUS_A_UPDATING : Z := 0x80.
Definition STATUS_B_24HOUR : Z := 0x02.
Definition STATUS_B_BINARY : Z := 0x04.
Definition STATUS_B_SET : Z := 0x80.

Record wtime_t := WTime { year : Z; month : Z; day : Z; hour : Z; minute : Z; second : Z }.

(** ** The chip *)

Class Cmos (C : Type) := {
  cmos_in : Z -> C -> Z * C;      (** [outb(0x70, reg)] then [inb(0x71)] *)
  cmos_out : Z -> Z -> C -> C;    (** [outb(0x70, reg)] then [outb(0x71, val)] *)
}.

(** Registers hold bytes; between two ticks a read has no effect and a write
    changes one of the clock's registers. *)
Class StillCmos (C : Type) `{Cmos C} := {
  reg : C -> Z -> Z;
  reg_byte : forall c r, is_u8 (reg c r);
  in_reg : forall c r, cmos_in r c = (reg c r, c);
  out_reg : forall c r v r', is_u8 v -> 0 <= r < 16 -> 0 <= r' < 16 -> reg (cmos_out r v c) r' = if r' =? r then v else reg c r';
}.

(** ** The driver *)

Definition bcd_to_bin (v : Z) : Z := u8 (Z.land v 0x0F + Z.shiftr v 4 * 10).
Definition bin_to_bcd (v : Z) : Z := u8 (Z.lor (Z.shiftl (v / 10) 4) (v `mod` 10)).

Definition has (mask v : Z) : bool := negb (Z.land v mask =? 0).

(** At most [p] turns of a loop that a turn can leave ([None]). *)
Fixpoint turns {S : Type} (p : positive) (step : S -> option S * S) (s : S) : option S * S :=
  match p with
  | xH => step s
  | xO q => match turns q step s with (Some s1, _) => turns q step s1 | stop => stop end
  | xI q =>
      match step s with
      | (Some s0, _) => match turns q step s0 with (Some s1, _) => turns q step s1 | stop => stop end
      | stop => stop
      end
  end.

Section driver.
Context {C : Type} `{Cmos C}.

Definition cmos_read (r : Z) (c : C) : Z * C := let '(v, c) := cmos_in r c in (u8 v, c).
Definition cmos_write (r v : Z) (c : C) : C := cmos_out r v c.

Definition wait_not_updating (c : C) : C :=
  (turns 1000000 (fun c =>
     let '(a, c) := cmos_read REG_STATUS_A c in
     if has STATUS_A_UPDATING a then (Some c, c) else (None, c)) c).2.

Record snapshot := Snapshot { s_sec : Z; s_min : Z; s_hour : Z; s_day : Z; s_mon : Z; s_year : Z }.

Definition read_once (c : C) : snapshot * C :=
  let c := wait_not_updating c in
  let '(sec, c) := cmos_read REG_SECOND c in
  let '(min, c) := cmos_read REG_MINUTE c in
  let '(hour, c) := cmos_read REG_HOUR c in
  let '(day, c) := cmos_read REG_DAY c in
  let '(mon, c) := cmos_read REG_MONTH c in
  let '(year, c) := cmos_read REG_YEAR c in
  (Snapshot sec min hour day mon year, c).

(** The loop of [tries]: it ends when two readings give the same second. *)
Fixpoint read_tries (tries : nat) (last_sec : Z) (x : snapshot) (c : C) : snapshot * C :=
  match tries with
  | O => (x, c)
  | S n =>
      let '(x, c) := read_once c in
      if s_sec x =? last_sec then (x, c) else read_tries n (s_sec x) x c
  end.

(** The 12-hour and BCD formats undone. *)
Definition decode (h24 binary : bool) (x : snapshot) : wtime_t :=
  let pm := (negb h24 && has 0x80 (s_hour x))%bool in
  let hour := Z.land (s_hour x) 0x7F in
  let conv v := if negb binary then bcd_to_bin v else v in
  let hour := conv hour in
  let hour :=
    if negb h24
    then if pm then u8 (hour `mod` 12 + 12) else if hour =? 12 then 0 else hour
    else hour in
  WTime (2000 + conv (s_year x)) (conv (s_mon x)) (conv (s_day x)) hour (conv (s_min x)) (conv (s_sec x)).

Definition rtc_read (c : C) : wtime_t * C :=
  let '(x, c) := read_tries 100 0xFF (Snapshot 0 0 0 0 0 0) c in
  let '(status_b, c) := cmos_read REG_STATUS_B c in
  (decode (has STATUS_B_24HOUR status_b) (has STATUS_B_BINARY status_b) x, c).

Definition is_leap (y : Z) : bool :=
  (((Z.rem y 4 =? 0) && negb (Z.rem y 100 =? 0)) || (Z.rem y 400 =? 0))%bool.

Definition month_days : list Z := [31; 28; 31; 30; 31; 30; 31; 31; 30; 31; 30; 31].

Definition year_days (y : Z) : Z := if is_leap y then 366 else 365.

Definition days_before (year month day : Z) : Z :=
  let days := for_while (Z.to_nat (year - 1970)) (fun y => y <? year) (fun y => y + 1)
    (fun y days => u32 (days + year_days y)) 1970 0 in
  let days := for_while (Z.to_nat (month - 1)) (fun m => m <? month) (fun m => m + 1)
    (fun m days =>
       let days := u32 (days + u32 (month_days.[m - 1])) in
       if ((m =? 2) && is_leap year)%bool then u32 (days + 1) else days) 1 days in
  u32 (days + u32 (day - 1)).

Definition epoch_of (t : wtime_t) : Z :=
  if ((year t <? 1970) || (month t <? 1) || (12 <? month t) || (day t <? 1) || (31 <? day t))%bool then 0
  else
    let days := days_before (year t) (month t) (day t) in
    u32 (u32 (u32 (u32 (days * 86400) + u32 (u32 (hour t) * 3600)) + u32 (u32 (minute t) * 60)) + u32 (second t)).

Definition rtc_epoch (c : C) : Z * C :=
  let '(t, c) := rtc_read c in (epoch_of t, c).

(** The six bytes [rtc_set] writes. *)
Definition encode (h24 binary : bool) (t : wtime_t) : snapshot :=
  let sec := u8 (second t) in
  let min := u8 (minute t) in
  let hour := u8 (hour t) in
  let day := u8 (day t) in
  let mon := u8 (month t) in
  let year := u8 (Z.rem (year t) 100) in
  let bcd := negb binary in
  let hour :=
    if negb h24 then
      let pm := 12 <=? hour in
      let h12 := u8 (hour `mod` 12) in
      let h12 := if h12 =? 0 then 12 else h12 in
      let h12 := if bcd then bin_to_bcd h12 else h12 in
      if pm then Z.lor h12 0x80 else h12
    else if bcd then bin_to_bcd hour else hour in
  let conv v := if bcd then bin_to_bcd v else v in
  Snapshot (conv sec) (conv min) hour (conv day) (conv mon) (conv year).

Definition rtc_set (t : wtime_t) (c : C) : C :=
  let '(status_b, c) := cmos_read REG_STATUS_B c in
  let x := encode (has STATUS_B_24HOUR status_b) (has STATUS_B_BINARY status_b) t in
  let c := cmos_write REG_STATUS_B (u8 (Z.lor status_b STATUS_B_SET)) c in
  let c := cmos_write REG_SECOND (s_sec x) c in
  let c := cmos_write REG_MINUTE (s_min x) c in
  let c := cmos_write REG_HOUR (s_hour x) c in
  let c := cmos_write REG_DAY (s_day x) c in
  let c := cmos_write REG_MONTH (s_mon x) c in
  let c := cmos_write REG_YEAR (s_year x) c in
  cmos_write REG_STATUS_B status_b c.

End driver.

(** ** Setting the clock and reading it back *)

Definition valid_time (t : wtime_t) : Prop :=
  1 <= month t <= 12 /\ 1 <= day t <= 31 /\ 0 <= hour t < 24 /\ 0 <= minute t < 60 /\ 0 <= second t < 60.

Lemma check_range (P : Z -> bool) n v : forallb P (seqZ 0 n) = true -> 0 <= v < n -> P v = true.
Proof. intros Hf Hv. apply (proj1 (forallb_forall _ _) Hf), list_elem_of_In, elem_of_seqZ. lia. Qed.

Lemma bcd_round v : 0 <= v < 100 -> bcd_to_bin (bin_to_bcd v) = v /\ is_u8 (bin_to_bcd v).
Proof.
  intros Hv. split; [| apply u8_is_u8].
  by apply Z.eqb_eq, (check_range (fun v => bcd_to_bin (bin_to_bcd v) =? v) 100).
Qed.

(** The hour in one of the four formats, there and back. *)
Definition hour_round (h24 binary : bool) (h : Z) : bool :=
  let e := s_hour (encode h24 binary (WTime 0 0 0 h 0 0)) in
  ((hour (decode h24 binary (Snapshot 0 0 e 0 0 0)) =? h) && (0 <=? e) && (e <? 256))%bool.

Lemma hour_round_ok h24 binary h : 0 <= h < 24 -> hour_round h24 binary h = true.
Proof. intros Hh. apply (check_range _ 24); [| done]. by destruct h24, binary; vm_compute. Qed.

Definition snapshot_u8 (x : snapshot) : Prop :=
  is_u8 (s_sec x) /\ is_u8 (s_min x) /\ is_u8 (s_hour x) /\ is_u8 (s_day x) /\ is_u8 (s_mon x) /\ is_u8 (s_year x).

Lemma decode_encode h24 binary t :
  2000 <= year t < 2100 -> valid_time t ->
  decode h24 binary (encode h24 binary t) = t /\ snapshot_u8 (encode h24 binary t).
Proof.
  destruct t as [y m d h mi s]. unfold valid_time. cbn [year month day hour minute second].
  intros Hy (Hm & Hd & Hh & Hmi & Hs). pose proof (hour_round_ok h24 binary h Hh) as Hr.
  unfold hour_round in Hr. rewrite !andb_true_iff, Z.eqb_eq, Z.leb_le, Z.ltb_lt in Hr. destruct Hr as [[Hr H0] H1].
  assert (Ey : u8 (Z.rem y 100) = y - 2000) by (rewrite u8_id; rewrite Z.rem_mod_nonneg by lia; zlia).
  assert (Hc : forall v, 0 <= v < 100 ->
    (if negb binary then bcd_to_bin (if negb binary then bin_to_bcd v else v) else if negb binary then bin_to_bcd v else v) = v
    /\ is_u8 (if negb binary then bin_to_bcd v else v)).
  { intros v Hv. destruct binary; cbn [negb]; [unfold is_u8; lia | by apply bcd_round]. }
  destruct (Hc m ltac:(lia)) as [Em ?], (Hc d ltac:(lia)) as [Ed ?], (Hc mi ltac:(lia)) as [Emi ?],
    (Hc s ltac:(lia)) as [Es ?], (Hc (y - 2000) ltac:(lia)) as [Eyy ?].
  unfold snapshot_u8, decode, encode in *.
  cbn [year month day hour minute second s_sec s_min s_hour s_day s_mon s_year] in *.
  rewrite Ey, (u8_id m), (u8_id d), (u8_id mi), (u8_id s) by lia. split; [| split_and!; done].
  rewrite Em, Ed, Emi, Es, Eyy, Hr. f_equal. lia.
Qed.

Section still.
Context {C : Type} `{StillCmos C}.

Lemma cmos_read_still r (c : C) : cmos_read r c = (reg c r, c).
Proof. unfold cmos_read. rewrite in_reg, u8_id by apply reg_byte. done. Qed.

(** The wait never changes the chip. *)
Lemma turns_still {S} (p : positive) (step : S -> option S * S) s :
  (forall s, step s = (Some s, s) \/ step s = (None, s)) -> turns p step s = (Some s, s) \/ turns p step s = (None, s).
Proof.
  intros Hs. revert s. induction p as [p IH | p IH |]; intros s; cbn [turns]; [| | apply Hs].
  - destruct (Hs s) as [-> | ->]; [| by right]. destruct (IH s) as [-> | ->]; [apply IH | by right].
  - destruct (IH s) as [-> | ->]; [apply IH | by right].
Qed.

Lemma wait_still (c : C) : wait_not_updating c = c.
Proof.
  unfold wait_not_updating. set (step := fun c : C => _).
  destruct (turns_still 1000000 step c) as [-> | ->]; [| done | done].
  intros s. unfold step. rewrite cmos_read_still. destruct (has _ _); [by left | by right].
Qed.

Definition snapshot_of (c : C) : snapshot :=
  Snapshot (reg c REG_SECOND) (reg c REG_MINUTE) (reg c REG_HOUR) (reg c REG_DAY) (reg c REG_MONTH) (reg c REG_YEAR).

Lemma read_once_still (c : C) : read_once c = (snapshot_of c, c).
Proof. unfold read_once. rewrite wait_still, !cmos_read_still. done. Qed.

Lemma read_tries_still n last x (c : C) : read_tries (S n) last x c = (snapshot_of c, c).
Proof.
  revert last x. induction n as [| n IH]; intros last x; cbn [read_tries]; rewrite read_once_still.
  - by destruct (_ =? last).
  - destruct (_ =? last); [done |]. apply (IH _ (snapshot_of c)).
Qed.

Lemma rtc_read_still (c : C) :
  rtc_read c = (decode (has STATUS_B_24HOUR (reg c REG_STATUS_B)) (has STATUS_B_BINARY (reg c REG_STATUS_B)) (snapshot_of c), c).
Proof. unfold rtc_read. change 100%nat with (S 99). rewrite read_tries_still, cmos_read_still. done. Qed.

(** The clock keeps the time it is given.  Whatever format the chip is
    in (BCD or binary, 12 or 24 hours), [rtc_read] after [rtc_set] returns the
    date and time that was set, for every date of this century, and the format
    bits are as they were. *)
Theorem rtc_set_read (t : wtime_t) (c : C) :
  2000 <= year t < 2100 -> valid_time t ->
  (rtc_read (rtc_set t c)).1 = t /\ reg (rtc_set t c) REG_STATUS_B = reg c REG_STATUS_B.
Proof.
  intros Hy Hv. rewrite rtc_read_still. unfold rtc_set, cmos_write. rewrite cmos_read_still. cbn zeta.
  set (h24 := has STATUS_B_24HOUR (reg c REG_STATUS_B)). set (bin := has STATUS_B_BINARY (reg c REG_STATUS_B)).
  destruct (decode_encode h24 bin t Hy Hv) as (E & ? & ? & ? & ? & ? & ?).
  pose proof (reg_byte c REG_STATUS_B). pose proof (u8_is_u8 (Z.lor (reg c REG_STATUS_B) STATUS_B_SET)).
  unfold snapshot_of, REG_SECOND, REG_MINUTE, REG_HOUR, REG_DAY, REG_MONTH, REG_YEAR, REG_STATUS_B in *.
  repeat (rewrite out_reg by (assumption || lia); cbn [Z.eqb Pos.eqb]).
  fold h24 bin. split; [| done]. rewrite <- E at 7. by destruct (encode h24 bin t).
Qed.

End still.

(** A chip as a function from registers to bytes. *)
#[global] Instance plain_cmos : Cmos (Z -> Z) := {
  cmos_in r c := (u8 (c r), c);
  cmos_out r v c := fun r' => if r' =? r then v else c r';
}.

#[global, refine] Instance plain_still : StillCmos (Z -> Z) := { reg c r := u8 (c r) }.
Proof.
  - intros. apply u8_range.
  - done.
  - intros c r v r' Hv _ _. simpl. destruct (r' =? r); [by apply u8_id | done].
Defined.

(** Noon, in BCD and 12 hours. *)
Example rtc_sample :
  let c := rtc_set (WTime 2026 2 28 12 5 59) (fun _ => 0) in
  c REG_HOUR = 0x92 /\ (rtc_read c).1 = WTime 2026 2 28 12 5 59 /\ (rtc_epoch c).1 = 1772280359.
Proof. vm_compute. repeat split; reflexivity. Qed.

Lemma rtc_set_read_witness :
  let t := WTime 2028 2 29 23 59 58 in
  let c := fun _ : Z => 2 in
  (rtc_read (rtc_set t c)).1 = t /\ reg (rtc_set t c) REG_STATUS_B = reg c REG_STATUS_B.
Proof. apply (rtc_set_read (WTime 2028 2 29 23 59 58) (fun _ : Z => 2)); [simpl; lia | unfold valid_time; simpl; lia]. Defined.

(** ** The calendar *)

(** The Gregorian calendar, on its own terms. *)
Definition gregorian_leap (y : Z) : bool :=
  if y `mod` 400 =? 0 then true else if y `mod` 100 =? 0 then false else y `mod` 4 =? 0.

Definition month_len (y m : Z) : Z :=
  if m =? 2 then (if gregorian_leap y then 29 else 28)
  else if ((m =? 4) || (m =? 6) || (m =? 9) || (m =? 11))%bool then 30 else 31.

(** The next second of the calendar. *)
Definition next_day (y m d : Z) : Z * Z * Z :=
  if d <? month_len y m then (y, m, d + 1) else if m <? 12 then (y, m + 1, 1) else (y + 1, 1, 1).

Definition tick (t : wtime_t) : wtime_t :=
  if second t <? 59 then WTime (year t) (month t) (day t) (hour t) (minute t) (second t + 1)
  else if minute t <? 59 then WTime (year t) (month t) (day t) (hour t) (minute t + 1) 0
  else if hour t <? 23 then WTime (year t) (month t) (day t) (hour t + 1) 0 0
  else let '(y, m, d) := next_day (year t) (month t) (day t) in WTime y m d 0 0 0.

(** A date that exists. *)
Definition real_time (t : wtime_t) : Prop := valid_time t /\ day t <= month_len (year t) (month t).

(** The sums without wrap-around. *)
Definition days_to_year (y : Z) : Z := fold_left (fun d y => d + year_days y) (seqZ 1970 (y - 1970)) 0.
Definition days_to_month (y m : Z) : Z := fold_left (fun d m => d + month_len y m) (seqZ 1 (m - 1)) 0.

Lemma days_to_year_S y : 1970 <= y -> days_to_year (y + 1) = days_to_year y + year_days y.
Proof.
  intros. unfold days_to_year. replace (y + 1 - 1970) with (y - 1970 + 1) by lia.
  rewrite seqZ_app, fold_left_app by lia. rewrite (seqZ_cons _ 1), seqZ_nil by lia. cbn [fold_left]. do 2 f_equal. lia.
Qed.

Lemma days_to_month_S y m : 1 <= m -> days_to_month y (m + 1) = days_to_month y m + month_len y m.
Proof.
  intros. unfold days_to_month. replace (m + 1 - 1) with (m - 1 + 1) by lia.
  rewrite seqZ_app, fold_left_app by lia. rewrite (seqZ_cons _ 1), seqZ_nil by lia. cbn [fold_left]. do 2 f_equal. lia.
Qed.

Lemma fold_u32 (f g : Z -> Z) (l : list Z) :
  (forall x, x ∈ l -> u32 (f x) = u32 (g x)) -> forall a b, u32 a = u32 b ->
  u32 (fold_left (fun d x => u32 (d + f x)) l a) = u32 (fold_left (fun d x => d + g x) l b).
Proof.
  induction l as [| x l IH]; intros Hl a b Hab; cbn [fold_left]; [done |].
  apply IH; [intros; apply Hl; by right |].
  rewrite <- (u32_add_l a), Hab, u32_add_l, <- (u32_add_r b (f x)), Hl, u32_add_r by (by left).
  unfold u32. by rewrite Zmod_mod.
Qed.

Lemma fold_left_ext_in {A B} (f g : A -> B -> A) l a :
  (forall x a, x ∈ l -> f a x = g a x) -> fold_left f l a = fold_left g l a.
Proof.
  revert a. induction l as [| x l IH]; intros a Hl; cbn [fold_left]; [done |].
  rewrite (Hl x a) by (by left). apply IH. intros. apply Hl. by right.
Qed.

(** The rule the code writes is the calendar's. *)
Lemma rem_mod_zero y k : k <> 0 -> (Z.rem y k =? 0) = (y `mod` k =? 0).
Proof. intros Hk. apply eq_bool_prop_intro. rewrite !Is_true_true, !Z.eqb_eq, Z.rem_divide, Z.mod_divide; done. Qed.

Lemma is_leap_gregorian y : is_leap y = gregorian_leap y.
Proof.
  unfold is_leap, gregorian_leap. rewrite !rem_mod_zero by done.
  destruct (Z.eqb_spec (y `mod` 400) 0), (Z.eqb_spec (y `mod` 100) 0), (Z.eqb_spec (y `mod` 4) 0);
    cbn [negb andb orb]; done.
Qed.

Lemma month_len_code y m : 1 <= m <= 12 -> month_len y m = month_days.[m - 1] + (if ((m =? 2) && is_leap y)%bool then 1 else 0).
Proof.
  intros. rewrite is_leap_gregorian. unfold month_len. assert (Hm : m ∈ seqZ 1 12) by (apply elem_of_seqZ; lia).
  repeat (apply elem_of_cons in Hm as [-> | Hm]; [by destruct (gregorian_leap y) |]). by apply elem_of_nil in Hm.
Qed.

Lemma month_len_range y m : 1 <= m <= 12 -> 28 <= month_len y m <= 31.
Proof. intros. unfold month_len. case_ifs; lia. Qed.

(** One turn of the loop over the months. *)
Lemma month_turn y m days :
  1 <= m <= 12 ->
  (let days := u32 (days + u32 (month_days.[m - 1])) in
   if ((m =? 2) && is_leap y)%bool then u32 (days + 1) else days) = u32 (days + month_len y m).
Proof.
  intros Hm. cbv zeta. rewrite month_len_code, u32_add_r by done.
  destruct ((m =? 2) && is_leap y)%bool; [rewrite u32_add_l |]; f_equal; lia.
Qed.

Lemma days_before_u32 y m d :
  1 <= m <= 12 -> days_before y m d = u32 (days_to_year y + days_to_month y m + (d - 1)).
Proof.
  intros Hm. unfold days_before. cbv zeta. rewrite !for_range, u32_add_r.
  set (a := fold_left _ (seqZ 1970 _) 0).
  assert (Ha : u32 a = u32 (days_to_year y)) by (by apply (fold_u32 year_days year_days)).
  rewrite (fold_left_ext_in _ (fun d m => u32 (d + month_len y m))).
  2: { intros k b Hk. apply elem_of_seqZ in Hk. apply (month_turn y k b). lia. }
  rewrite <- u32_add_l, (fold_u32 (month_len y) (month_len y) _ ltac:(done) a (days_to_year y) Ha), u32_add_l.
  do 2 f_equal. unfold days_to_month. generalize (seqZ 1 (m - 1)). intros l.
  assert (Hsum : forall a b, fold_left (fun d m => d + month_len y m) l (a + b) = a + fold_left (fun d m => d + month_len y m) l b).
  { clear. induction l as [| x l IH]; intros a b; cbn [fold_left]; [done |]. rewrite <- IH. f_equal. lia. }
  rewrite <- Hsum. f_equal. lia.
Qed.

Lemma days_to_month_bounds y m : 1 <= m <= 12 -> 0 <= days_to_month y m <= 31 * (m - 1).
Proof.
  intros Hm. pose proof (Z2Nat.id (m - 1)) as Hn. revert Hm Hn. generalize (Z.to_nat (m - 1)). intros n Hm Hn.
  replace m with (Z.of_nat n + 1) in * by lia. clear Hn. induction n as [| n IH]; [vm_compute; split; congruence |].
  replace (Z.of_nat (S n) + 1) with (Z.of_nat n + 1 + 1) by lia. rewrite days_to_month_S by lia.
  pose proof (month_len_range y (Z.of_nat n + 1)). lia.
Qed.

Lemma days_to_year_bounds y : 1970 <= y -> 0 <= days_to_year y <= 366 * (y - 1970).
Proof.
  intros Hy. replace y with (1970 + Z.of_nat (Z.to_nat (y - 1970))) by lia. generalize (Z.to_nat (y - 1970)).
  intros n. induction n as [| n IH]; [vm_compute; split; congruence |].
  replace (1970 + Z.of_nat (S n)) with (1970 + Z.of_nat n + 1) by lia. rewrite days_to_year_S by lia.
  unfold year_days. destruct (is_leap _); lia.
Qed.

(** The twelve months make a year. *)
Lemma days_to_month_year y : days_to_month y 12 + month_len y 12 = year_days y.
Proof.
  unfold days_to_month, year_days, month_len. rewrite is_leap_gregorian.
  change (seqZ 1 (12 - 1)) with [1; 2; 3; 4; 5; 6; 7; 8; 9; 10; 11]. cbn [fold_left].
  by destruct (gregorian_leap y).
Qed.

(** Days since 1970-01-01, and seconds. *)
Definition day_number (y m d : Z) : Z := days_to_year y + days_to_month y m + (d - 1).

Lemma next_day_number y m d :
  1970 <= y -> 1 <= m <= 12 -> d <= month_len y m ->
  let '(y', m', d') := next_day y m d in day_number y' m' d' = day_number y m d + 1.
Proof.
  intros Hy Hm Hd. unfold next_day, day_number.
  destruct (Z.ltb_spec d (month_len y m)); [lia |]. destruct (Z.ltb_spec m 12).
  - rewrite days_to_month_S by lia. lia.
  - assert (m = 12) as -> by lia. rewrite days_to_year_S by lia. change (days_to_month (y + 1) 1) with 0.
    pose proof (days_to_month_year y). lia.
Qed.

Lemma day_number_bounds y m d :
  1970 <= y < 2106 -> 1 <= m <= 12 -> 1 <= d <= 31 -> 0 <= day_number y m d < 366 * 136 + 31 * 12.
Proof.
  intros. pose proof (days_to_year_bounds y). pose proof (days_to_month_bounds y m). unfold day_number. lia.
Qed.

Lemma epoch_of_number t :
  1970 <= year t -> valid_time t ->
  epoch_of t = u32 (day_number (year t) (month t) (day t) * 86400 + hour t * 3600 + minute t * 60 + second t).
Proof.
  intros Hy (Hm & Hd & Hh & Hmi & Hs). unfold epoch_of.
  rewrite (proj2 (Z.ltb_ge (year t) 1970)), (proj2 (Z.ltb_ge (month t) 1)), (proj2 (Z.ltb_ge 12 (month t))),
    (proj2 (Z.ltb_ge (day t) 1)), (proj2 (Z.ltb_ge 31 (day t))) by lia. cbn [orb].
  rewrite days_before_u32 by done. fold (day_number (year t) (month t) (day t)).
  rewrite (u32_id (hour t)), (u32_id (minute t)), (u32_id (second t)) by lia.
  rewrite (u32_id (hour t * 3600)), (u32_id (minute t * 60)) by lia.
  set (n := day_number _ _ _). assert (E : u32 (u32 n * 86400) = u32 (n * 86400)) by apply Zmult_mod_idemp_l.
  by rewrite E, (u32_add_l (n * 86400)), (u32_add_l (n * 86400 + hour t * 3600)), u32_add_l.
Qed.

(** Years are only ever behind. *)
Lemma days_to_year_2106 : days_to_year 2106 * 86400 < 2 ^ 32.
Proof. vm_compute. reflexivity. Qed.


Lemma days_to_year_mono y z : 1970 <= y -> y <= z -> days_to_year y <= days_to_year z.
Proof.
  intros Hy Hz. replace z with (y + Z.of_nat (Z.to_nat (z - y))) by lia. generalize (Z.to_nat (z - y)). intros n.
  induction n as [| n IH]; [rewrite Z.add_0_r; lia |].
  replace (y + Z.of_nat (S n)) with (y + Z.of_nat n + 1) by lia. rewrite days_to_year_S by lia.
  unfold year_days. destruct (is_leap _); lia.
Qed.

(** The last day of a year is still in it. *)
Lemma day_number_year y m d :
  1970 <= y -> 1 <= m <= 12 -> d <= month_len y m -> day_number y m d < days_to_year (y + 1).
Proof.
  intros Hy Hm Hd. rewrite days_to_year_S by done. rewrite <- days_to_month_year. unfold day_number.
  enough (days_to_month y m + month_len y m <= days_to_month y 12 + month_len y 12) by lia.
  assert (Hstep : forall n, m + Z.of_nat n <= 12 ->
    days_to_month y m + month_len y m <= days_to_month y (m + Z.of_nat n) + month_len y (m + Z.of_nat n)).
  { induction n as [| n IH]; intros Hn; [rewrite Z.add_0_r; lia |].
    replace (m + Z.of_nat (S n)) with (m + Z.of_nat n + 1) by lia. rewrite days_to_month_S by lia.
    pose proof (month_len_range y (m + Z.of_nat n + 1) ltac:(lia)). specialize (IH ltac:(lia)). lia. }
  specialize (Hstep (Z.to_nat (12 - m)) ltac:(lia)). by replace (m + Z.of_nat (Z.to_nat (12 - m))) with 12 in Hstep by lia.
Qed.

Lemma seconds_range t :
  1970 <= year t < 2106 -> real_time t ->
  0 <= day_number (year t) (month t) (day t) * 86400 + hour t * 3600 + minute t * 60 + second t /\
  day_number (year t) (month t) (day t) * 86400 + 86400 <= days_to_year 2106 * 86400.
Proof.
  intros Hy [(Hm & Hd & Hh & Hmi & Hs) Hl].
  pose proof (day_number_bounds (year t) (month t) (day t) Hy Hm Hd).
  pose proof (day_number_year (year t) (month t) (day t) ltac:(lia) Hm Hl).
  pose proof (days_to_year_mono (year t + 1) 2106 ltac:(lia) ltac:(lia)). lia.
Qed.

(** [rtc_epoch] counts the seconds of the Gregorian calendar.  The count is 0 at
    the start of 1970 and goes up by one with every second of the calendar,
    over the ends of minutes, hours, days, months and years, leap years
    included, up to the last second of 2105; no 32-bit sum wraps in between. *)
Theorem epoch_counts_seconds (t : wtime_t) :
  1970 <= year t < 2106 -> real_time t ->
  epoch_of (WTime 1970 1 1 0 0 0) = 0 /\ 0 <= epoch_of t /\ epoch_of (tick t) = epoch_of t + 1.
Proof.
  intros Hy Hr. destruct (seconds_range t Hy Hr) as [H0 H1]. pose proof days_to_year_2106 as H2.
  pose proof Hr as [Hv Hl]. pose proof Hv as (Hm & Hd & Hh & Hmi & Hs).
  split; [vm_compute; reflexivity |]. rewrite (epoch_of_number t) by (done || lia). split; [apply u32_range |].
  assert (Hd1 : forall y m d, next_day (year t) (month t) (day t) = (y, m, d) -> valid_time (WTime y m d 0 0 0) /\ 1970 <= y).
  { intros y m d. unfold next_day, valid_time. cbn [year month day hour minute second].
    pose proof (month_len_range (year t) (month t) Hm). case_ifs; intros [= <- <- <-]; lia. }
  pose proof (next_day_number (year t) (month t) (day t) ltac:(lia) Hm Hl) as Hn.
  unfold tick. destruct (next_day (year t) (month t) (day t)) as [[y m] d]. destruct (Hd1 y m d eq_refl) as [Hv' Hy'].
  case_ifs; rewrite epoch_of_number; unfold valid_time; cbn [year month day hour minute second]; try lia; try done;
    rewrite !u32_id by lia; lia.
Qed.

Lemma epoch_counts_seconds_witness :
  let t := WTime 2028 2 29 23 59 59 in
  epoch_of (WTime 1970 1 1 0 0 0) = 0 /\ 0 <= epoch_of t /\ epoch_of (tick t) = epoch_of t + 1.
Proof.
  apply (epoch_counts_seconds (WTime 2028 2 29 23 59 59)); [simpl; lia |].
  split; [unfold valid_time; simpl; lia | vm_compute; congruence].
Defined.

End Rtc.
