(* ===== verification/KString.v ===== *)
(** The kernel's string and memory routines, [kernel/lib/string.c].

    Memory is a function from addresses to bytes and a call returns the memory
    after it.  Addresses are integers: arithmetic on pointers into one object
    does not wrap in C.  A loop that stops at a terminator takes a fuel
    argument, and the theorems say how much is enough.  The last section gives
    the same routines on the strings themselves, which is how the modules above
    use them. *)

From S2P Require Import Prelude.

Module KString.

Definition mem : Type := Z -> Z.

Definition load (n a : Z) (m : mem) : list Z := m <$> seqZ a n.
Definition store (a : Z) (bs : list Z) (m : mem) : mem :=
  fun x => if ((a <=? x) && (x <? a + Zlen bs))%bool then bs.[x - a] else m x.

(** ** memcpy, memmove, memset, memcmp *)

(** [while (n--) *d++ = *s++;] *)
Fixpoint copy_bytes (n : nat) (d s : Z) (m : mem) : mem :=
  match n with
  | O => m
  | S n => copy_bytes n (d + 1) (s + 1) (store d (load 1 s m) m)
  end.

(** [while (n >= w) { *dw++ = *sw++; n -= w; }], a word at a time. *)
Fixpoint copy_words (fuel : nat) (w d s n : Z) (m : mem) : Z * Z * Z * mem :=
  match fuel with
  | O => (d, s, n, m)
  | S fuel =>
      if w <=? n then copy_words fuel w (d + w) (s + w) (n - w) (store d (load w s m) m)
      else (d, s, n, m)
  end.

Definition aligned (w a b : Z) : bool := ((a `mod` w =? 0) && (b `mod` w =? 0))%bool.

Definition memcpy (dst src n : Z) (m : mem) : mem :=
  let '(d, s, n, m) :=
    if aligned 8 dst src then copy_words (Z.to_nat n) 8 dst src n m
    else if aligned 4 dst src then copy_words (Z.to_nat n) 4 dst src n m
    else (dst, src, n, m) in
  copy_bytes (Z.to_nat n) d s m.

(** [while (n--) *--d = *--s;] *)
Fixpoint copy_down (n : nat) (d s : Z) (m : mem) : mem :=
  match n with
  | O => m
  | S n => copy_down n (d - 1) (s - 1) (store (d - 1) (load 1 (s - 1) m) m)
  end.

Definition memmove (dst src n : Z) (m : mem) : mem :=
  if ((dst =? src) || (n =? 0))%bool then m
  else if dst <? src then copy_bytes (Z.to_nat n) dst src m
  else copy_down (Z.to_nat n) (dst + n) (src + n) m.

(** The bytes of a word in memory, the low one first. *)
Definition word_bytes (w v : Z) : list Z := (fun i => u8 (Z.shiftr v (8 * i))) <$> seqZ 0 w.

Fixpoint set_words (fuel : nat) (w d word n : Z) (m : mem) : Z * Z * mem :=
  match fuel with
  | O => (d, n, m)
  | S fuel =>
      if w <=? n then set_words fuel w (d + w) word (n - w) (store d (word_bytes w word) m) else (d, n, m)
  end.

Fixpoint set_bytes (n : nat) (d v : Z) (m : mem) : mem :=
  match n with O => m | S n => set_bytes n (d + 1) v (store d [v] m) end.

Definition memset (dst c n : Z) (m : mem) : mem :=
  let v := u8 c in
  let '(d, n, m) :=
    if dst `mod` 8 =? 0 then set_words (Z.to_nat n) 8 dst (u64 (v * 0x0101010101010101)) n m
    else if dst `mod` 4 =? 0 then set_words (Z.to_nat n) 4 dst (u32 (v * 0x01010101)) n m
    else (dst, n, m) in
  set_bytes (Z.to_nat n) d v m.

Fixpoint memcmp_loop (n : nat) (x y : Z) (m : mem) : Z :=
  match n with
  | O => 0
  | S n => if negb (m x =? m y) then m x - m y else memcmp_loop n (x + 1) (y + 1) m
  end.

Definition memcmp (a b n : Z) (m : mem) : Z := memcmp_loop (Z.to_nat n) a b m.

(** ** Strings *)

Fixpoint strlen_from (fuel : nat) (p : Z) (m : mem) : option Z :=
  match fuel with
  | O => None
  | S fuel => if m p =? 0 then Some p else strlen_from fuel (p + 1) m
  end.

Definition strlen (fuel : nat) (s : Z) (m : mem) : option Z := (fun p => p - s) <$> strlen_from fuel s m.

Fixpoint strcmp (fuel : nat) (a b : Z) (m : mem) : option Z :=
  match fuel with
  | O => None
  | S fuel =>
      if (negb (m a =? 0) && (m a =? m b))%bool then strcmp fuel (a + 1) (b + 1) m else Some (m a - m b)
  end.

Fixpoint strncmp (n : nat) (a b : Z) (m : mem) : Z :=
  match n with
  | O => 0
  | S n => if (negb (m a =? 0) && (m a =? m b))%bool then strncmp n (a + 1) (b + 1) m else m a - m b
  end.

Fixpoint strcpy (fuel : nat) (d s : Z) (m : mem) : option mem :=
  match fuel with
  | O => None
  | S fuel =>
      let c := m s in
      let m := store d [c] m in
      if c =? 0 then Some m else strcpy fuel (d + 1) (s + 1) m
  end.

Definition strlcpy (fuel : nat) (dst src n : Z) (m : mem) : option (Z * mem) :=
  match strlen fuel src m with
  | None => None
  | Some len =>
      if negb (n =? 0) then
        let copy := if len <? n - 1 then len else n - 1 in
        let m := memcpy dst src copy m in
        Some (len, store (dst + copy) [0] m)
      else Some (len, m)
  end.

(** [None] is out of fuel; the address 0 is NULL. *)
Fixpoint strchr (fuel : nat) (s c : Z) (m : mem) : option Z :=
  match fuel with
  | O => None
  | S fuel =>
      if m s =? 0 then Some (if c =? 0 then s else 0)
      else if m s =? u8 c then Some s
      else strchr fuel (s + 1) c m
  end.

Fixpoint strrchr_from (fuel : nat) (last s c : Z) (m : mem) : option Z :=
  match fuel with
  | O => None
  | S fuel =>
      if m s =? 0 then Some (if c =? 0 then s else last)
      else strrchr_from fuel (if m s =? u8 c then s else last) (s + 1) c m
  end.

Definition strrchr (fuel : nat) (s c : Z) (m : mem) : option Z := strrchr_from fuel 0 s c m.

(** ** Lemmas *)

Lemma get_load n a m k : 0 <= k < n -> (load n a m).[k] = m (a + k).
Proof.
  intros. unfold load. apply list_lookup_total_correct.
  rewrite list_lookup_fmap, lookup_seqZ_lt by lia. cbn [fmap option_fmap option_map]. do 2 f_equal. lia.
Qed.

Lemma Zlen_load n a m : 0 <= n -> Zlen (load n a m) = n.
Proof. intros. unfold load, Zlen. rewrite length_fmap, length_seqZ. lia. Qed.

(** What a copy of [n] bytes from [s] to [d] leaves at [x]. *)
Definition copied (d s n : Z) (m : mem) (x : Z) : Z :=
  if ((d <=? x) && (x <? d + n))%bool then m (x - d + s) else m x.

Lemma store_load w d s m x : 0 <= w -> store d (load w s m) m x = copied d s w m x.
Proof.
  intros. unfold store, copied. rewrite Zlen_load by done.
  destruct (Z.leb_spec d x), (Z.ltb_spec x (d + w)); cbn [andb]; try done.
  rewrite get_load by lia. f_equal. lia.
Qed.

(** Copying a piece and then the rest, when the piece does not touch what the
    rest still has to read. *)
Lemma copied_step d s a b m m1 x :
  0 <= a -> 0 <= b -> (forall y, m1 y = copied d s a m y) -> (d + a <= s + a \/ s + a + b <= d) ->
  copied (d + a) (s + a) b m1 x = copied d s (a + b) m x.
Proof.
  intros Ha Hb H1 Hdis. unfold copied at 1. rewrite !H1. unfold copied.
  replace (x - (d + a) + (s + a)) with (x - d + s) by lia.
  split_ifs; try lia; try done; f_equal; lia.
Qed.

(** Forwards, a byte at a time: right when the source is not behind. *)
Lemma copy_bytes_spec n : forall d s m x,
  d <= s \/ s + Z.of_nat n <= d -> copy_bytes n d s m x = copied d s (Z.of_nat n) m x.
Proof.
  induction n as [| n IH]; intros d s m x Hd; cbn [copy_bytes].
  { unfold copied. case_ifs; [lia | done]. }
  rewrite IH by lia. rewrite (copied_step d s 1 (Z.of_nat n) m); [f_equal; lia | lia | lia | | lia].
  intros. apply store_load. lia.
Qed.

Lemma copy_down_spec n : forall d s m x,
  s <= d -> copy_down n d s m x = copied (d - Z.of_nat n) (s - Z.of_nat n) (Z.of_nat n) m x.
Proof.
  induction n as [| n IH]; intros d s m x Hd; cbn [copy_down].
  { unfold copied. case_ifs; [lia | done]. }
  rewrite IH by lia. unfold copied at 1. rewrite !store_load by lia. unfold copied.
  split_ifs; try lia; try done; f_equal; lia.
Qed.

(** The loop over words: how far it gets, and what it has copied. *)
Lemma copy_words_spec w : 0 < w -> forall fuel d s n m,
  0 <= n <= Z.of_nat fuel -> d = s \/ s + n <= d \/ d + n <= s ->
  exists k m', copy_words fuel w d s n m = (d + k, s + k, n - k, m') /\ 0 <= k <= n /\
    forall x, m' x = copied d s k m x.
Proof.
  intros Hw. induction fuel as [| fuel IH]; intros d s n m Hn Hd; cbn [copy_words].
  { exists 0, m. rewrite !Z.add_0_r, Z.sub_0_r. split_and!; try done; try lia.
    intros. unfold copied. split_ifs; lia || done. }
  destruct (Z.leb_spec w n).
  2: { exists 0, m. rewrite !Z.add_0_r, Z.sub_0_r. split_and!; try done; try lia.
    intros. unfold copied. split_ifs; lia || done. }
  destruct (IH (d + w) (s + w) (n - w) (store d (load w s m) m)) as (k & m' & -> & Hk & Hm); [lia | lia |].
  rewrite <- ?Z.add_assoc, <- Z.sub_add_distr. exists (w + k), m'. split_and!; [done | lia | lia |].
  intros x. rewrite Hm. apply copied_step; [lia | lia | | lia]. intros. apply store_load. lia.
Qed.

Lemma copied_app d s a b m m1 x :
  0 <= a -> 0 <= b -> (forall y, m1 y = copied d s a m y) -> (d <= s \/ s + a + b <= d) ->
  copied (d + a) (s + a) b m1 x = copied d s (a + b) m x.
Proof. intros. apply copied_step; try done. lia. Qed.

(** What may be passed to [memcpy]. *)
Definition apart (d s n : Z) : Prop := d = s \/ s + n <= d \/ d + n <= s.

Lemma memcpy_spec dst src n m x : 0 <= n -> apart dst src n -> memcpy dst src n m x = copied dst src n m x.
Proof.
  intros Hn Ha. unfold memcpy. set (pre := if aligned 8 dst src then _ else _).
  assert (H : exists k m', pre = (dst + k, src + k, n - k, m') /\ 0 <= k <= n /\ forall y, m' y = copied dst src k m y).
  { unfold pre. destruct (aligned 8 dst src); [apply copy_words_spec; unfold apart in Ha; lia |].
    destruct (aligned 4 dst src); [apply copy_words_spec; unfold apart in Ha; lia |].
    exists 0, m. rewrite !Z.add_0_r, Z.sub_0_r. split_and!; try done; try lia.
    intros. unfold copied. split_ifs; lia || done. }
  destruct H as (k & m' & -> & Hk & Hm). unfold apart in Ha. rewrite copy_bytes_spec by lia.
  rewrite Z2Nat.id by lia. rewrite (copied_app dst src k (n - k) m) by (done || lia). f_equal. lia.
Qed.

Lemma memmove_spec dst src n m x : 0 <= n -> memmove dst src n m x = copied dst src n m x.
Proof.
  intros Hn. unfold memmove. destruct (Z.eqb_spec dst src) as [-> |]; cbn [orb].
  { unfold copied. split_ifs; try done. f_equal. lia. }
  destruct (Z.eqb_spec n 0) as [-> |]; [unfold copied; split_ifs; lia || done |].
  destruct (Z.ltb_spec dst src).
  - rewrite copy_bytes_spec, Z2Nat.id by lia. done.
  - rewrite copy_down_spec by lia. rewrite Z2Nat.id by lia. f_equal; lia.
Qed.

(** [n] bytes [v] from [d] on. *)
Definition filled (d v n : Z) (m : mem) (x : Z) : Z := if ((d <=? x) && (x <? d + n))%bool then v else m x.

Lemma filled_app d v a b m m1 x :
  0 <= a -> 0 <= b -> (forall y, m1 y = filled d v a m y) -> filled (d + a) v b m1 x = filled d v (a + b) m x.
Proof. intros Ha Hb H. unfold filled at 1. rewrite H. unfold filled. split_ifs; try lia; done. Qed.

Lemma set_bytes_spec n : forall d v m x, set_bytes n d v m x = filled d v (Z.of_nat n) m x.
Proof.
  induction n as [| n IH]; intros d v m x; cbn [set_bytes].
  { unfold filled. split_ifs; lia || done. }
  rewrite IH, (filled_app d v 1 (Z.of_nat n) m); [f_equal; lia | lia | lia |].
  intros y. unfold store, filled. change (Zlen [v]) with 1. split_ifs; try lia; try done.
  by replace (y - d) with 0 by lia.
Qed.

Lemma word_bytes_fill v : is_u8 v ->
  word_bytes 8 (u64 (v * 0x0101010101010101)) = replicate 8 v /\ word_bytes 4 (u32 (v * 0x01010101)) = replicate 4 v.
Proof.
  intros Hv. pose proof (byte_check (fun v => bool_decide
    (word_bytes 8 (u64 (v * 0x0101010101010101)) = replicate 8 v /\ word_bytes 4 (u32 (v * 0x01010101)) = replicate 4 v))) as H.
  eapply bool_decide_eq_true_1. apply H; [vm_compute; reflexivity | done].
Qed.

Lemma set_words_spec w v word : 0 < w -> word_bytes w word = replicate (Z.to_nat w) v -> forall fuel d n m,
  0 <= n <= Z.of_nat fuel ->
  exists k m', set_words fuel w d word n m = (d + k, n - k, m') /\ 0 <= k <= n /\ forall x, m' x = filled d v k m x.
Proof.
  intros Hw Hb. induction fuel as [| fuel IH]; intros d n m Hn; cbn [set_words].
  { exists 0, m. rewrite Z.add_0_r, Z.sub_0_r. split_and!; try done; try lia.
    intros. unfold filled. split_ifs; lia || done. }
  destruct (Z.leb_spec w n).
  2: { exists 0, m. rewrite Z.add_0_r, Z.sub_0_r. split_and!; try done; try lia.
    intros. unfold filled. split_ifs; lia || done. }
  destruct (IH (d + w) (n - w) (store d (word_bytes w word) m)) as (k & m' & -> & Hk & Hm); [lia |].
  rewrite <- ?Z.add_assoc, <- Z.sub_add_distr. exists (w + k), m'. split_and!; [done | lia | lia |].
  intros x. rewrite Hm. apply filled_app; [lia | lia |]. intros y. unfold store, filled. rewrite Hb.
  unfold Zlen. rewrite length_replicate, Z2Nat.id by lia. split_ifs; try done.
  rewrite lookup_total_replicate_2 by lia. done.
Qed.

Lemma memset_spec dst c n m x : 0 <= n -> memset dst c n m x = filled dst (u8 c) n m x.
Proof.
  intros Hn. unfold memset. cbv zeta. destruct (word_bytes_fill (u8 c) (u8_is_u8 c)) as [H8 H4].
  set (pre := if dst `mod` 8 =? 0 then _ else _).
  assert (H : exists k m', pre = (dst + k, n - k, m') /\ 0 <= k <= n /\ forall y, m' y = filled dst (u8 c) k m y).
  { unfold pre. destruct (dst `mod` 8 =? 0); [apply (set_words_spec 8); done || lia |].
    destruct (dst `mod` 4 =? 0); [apply (set_words_spec 4); done || lia |].
    exists 0, m. rewrite Z.add_0_r, Z.sub_0_r. split_and!; try done; try lia.
    intros. unfold filled. split_ifs; lia || done. }
  destruct H as (k & m' & -> & Hk & Hm). rewrite set_bytes_spec, Z2Nat.id by lia.
  rewrite (filled_app dst (u8 c) k (n - k) m) by (done || lia). f_equal. lia.
Qed.

(** *** memcmp *)

Lemma memcmp_loop_spec n : forall x y m,
  (memcmp_loop n x y m = 0 <-> forall k, 0 <= k < Z.of_nat n -> m (x + k) = m (y + k)) /\
  (memcmp_loop n x y m <> 0 -> exists k, 0 <= k < Z.of_nat n /\ memcmp_loop n x y m = m (x + k) - m (y + k) /\
     forall j, 0 <= j < k -> m (x + j) = m (y + j)).
Proof.
  induction n as [| n IH]; intros x y m; cbn [memcmp_loop].
  { split; [split; [lia | done] | done]. }
  destruct (Z.eqb_spec (m x) (m y)) as [E | E]; cbn [negb].
  - destruct (IH (x + 1) (y + 1) m) as [H1 H2].
    assert (Hk : forall k, m (x + 1 + k) = m (x + (k + 1)) /\ m (y + 1 + k) = m (y + (k + 1)))
      by (intros; split; f_equal; lia).
    split.
    + rewrite H1. split; intros H k Hk'.
      * destruct (decide (k = 0)) as [-> |]; [by rewrite !Z.add_0_r |].
        replace k with (k - 1 + 1) by lia. destruct (Hk (k - 1)) as [<- <-]. apply H. lia.
      * destruct (Hk k) as [-> ->]. apply H. lia.
    + intros Hne. destruct (H2 Hne) as (k & Hr & -> & Hj). exists (k + 1). destruct (Hk k) as [-> ->].
      split_and!; [lia | lia | done |]. intros j Hj'.
      destruct (decide (j = 0)) as [-> |]; [by rewrite !Z.add_0_r |].
      replace j with (j - 1 + 1) by lia. destruct (Hk (j - 1)) as [<- <-]. apply Hj. lia.
  - split.
    + split; [lia |]. intros H. specialize (H 0 ltac:(lia)). rewrite !Z.add_0_r in H. done.
    + intros _. exists 0. rewrite !Z.add_0_r. split_and!; [lia | lia | done | lia].
Qed.

(** *** Strings in memory *)

(** [s] with its terminator at address [a]. *)
Definition str_at (m : mem) (a : Z) (s : list Z) : Prop :=
  (forall i, 0 <= i < Zlen s -> m (a + i) = s.[i] /\ s.[i] <> 0) /\ m (a + Zlen s) = 0.

Lemma str_at_nil m a : str_at m a [] <-> m a = 0.
Proof. unfold str_at. change (Zlen []) with 0. rewrite Z.add_0_r. split; [by intros [] | split; [lia | done]]. Qed.

Lemma str_at_cons m a c s : str_at m a (c :: s) <-> m a = c /\ c <> 0 /\ str_at m (a + 1) s.
Proof.
  unfold str_at. assert (El : Zlen (c :: s) = Zlen s + 1) by (unfold Zlen; simpl length; lia). rewrite El.
  pose proof (Zlen_nonneg s).
  assert (Hs : forall i, 0 <= i -> (c :: s).[i + 1] = s.[i]).
  { intros i Hi. replace (Z.to_nat (i + 1)) with (S (Z.to_nat i)) by lia. done. }
  split.
  - intros [Hi Ht]. destruct (Hi 0 ltac:(lia)) as [H0 Hc]. rewrite Z.add_0_r in H0. change ((c :: s).[0]) with c in *.
    split_and!; try done.
    + intros i Hi'. specialize (Hi (i + 1) ltac:(lia)). rewrite Hs in Hi by lia.
      by replace (a + 1 + i) with (a + (i + 1)) by lia.
    + by replace (a + 1 + Zlen s) with (a + (Zlen s + 1)) by lia.
  - intros (H0 & Hc & Hi & Ht). split.
    + intros i Hi'. destruct (decide (i = 0)) as [-> |]; [by rewrite Z.add_0_r |].
      replace i with (i - 1 + 1) by lia. rewrite Hs by lia. replace (a + (i - 1 + 1)) with (a + 1 + (i - 1)) by lia.
      apply Hi. lia.
    + by replace (a + (Zlen s + 1)) with (a + 1 + Zlen s) by lia.
Qed.

(** The same on strings: the difference at the first place where they differ,
    the terminator counting as 0. *)
Fixpoint str_cmp (s t : list Z) : Z :=
  match s, t with
  | [], [] => 0
  | c :: _, [] => c
  | [], d :: _ => - d
  | c :: s, d :: t => if c =? d then str_cmp s t else c - d
  end.

Fixpoint str_ncmp (n : nat) (s t : list Z) : Z :=
  match n with
  | O => 0
  | S n =>
      match s, t with
      | [], [] => 0
      | c :: _, [] => c
      | [], d :: _ => - d
      | c :: s, d :: t => if c =? d then str_ncmp n s t else c - d
      end
  end.

Lemma strlen_from_spec s : forall fuel a m,
  str_at m a s -> (length s < fuel)%nat -> strlen_from fuel a m = Some (a + Zlen s).
Proof.
  induction s as [| c s IH]; intros [| fuel] a m Hs Hf; simpl in Hf; try lia; cbn [strlen_from].
  - apply str_at_nil in Hs as ->. unfold Zlen. simpl. f_equal. lia.
  - apply str_at_cons in Hs as (-> & Hc & Hs). destruct (Z.eqb_spec c 0); [done |].
    rewrite IH by (done || lia). f_equal. unfold Zlen. simpl length. lia.
Qed.

Lemma strcmp_spec s : forall t fuel a b m,
  str_at m a s -> str_at m b t -> (length s < fuel)%nat -> strcmp fuel a b m = Some (str_cmp s t).
Proof.
  induction s as [| c s IH]; intros t [| fuel] a b m Hs Ht Hf; simpl in Hf; try lia; cbn [strcmp].
  - apply str_at_nil in Hs as ->. cbn [Z.eqb negb andb].
    destruct t as [| d t]; [apply str_at_nil in Ht as -> | apply str_at_cons in Ht as (-> & ? & _)]; done.
  - apply str_at_cons in Hs as (-> & Hc & Hs). destruct (Z.eqb_spec c 0); [done |]. cbn [negb andb].
    destruct t as [| d t]; [apply str_at_nil in Ht as -> | apply str_at_cons in Ht as (-> & ? & Ht)]; cbn [str_cmp].
    + destruct (Z.eqb_spec c 0); [done |]. f_equal. lia.
    + destruct (Z.eqb_spec c d); [| done]. apply IH; done || lia.
Qed.

Lemma strncmp_spec n : forall s t a b m,
  str_at m a s -> str_at m b t -> strncmp n a b m = str_ncmp n s t.
Proof.
  induction n as [| n IH]; intros s t a b m Hs Ht; cbn [strncmp str_ncmp]; [done |].
  destruct s as [| c s]; [apply str_at_nil in Hs as -> | apply str_at_cons in Hs as (-> & Hc & Hs)];
    (destruct t as [| d t]; [apply str_at_nil in Ht as -> | apply str_at_cons in Ht as (-> & Hd & Ht)]);
    cbn [Z.eqb negb andb]; try done.
  - rewrite (proj2 (Z.eqb_neq c 0)) by done. cbn [negb andb]. lia.
  - rewrite (proj2 (Z.eqb_neq c 0)) by done. cbn [negb andb]. destruct (Z.eqb_spec c d); [by apply IH | done].
Qed.

Definition no_nul (s : list Z) : Prop := Forall (fun c => 0 < c) s.

Lemma str_cmp_eq s : forall t, no_nul s -> no_nul t -> str_cmp s t = 0 <-> s = t.
Proof.
  induction s as [| c s IH]; intros [| d t] Hs Ht; cbn [str_cmp]; inversion Hs; inversion Ht; subst;
    try (split; [lia | done]); try done.
  destruct (Z.eqb_spec c d) as [-> |]; [rewrite IH by done; split; congruence | split; [lia | congruence]].
Qed.

Lemma str_ncmp_prefix t : forall s,
  no_nul s -> no_nul t -> str_ncmp (length t) s t = 0 <-> t `prefix_of` s.
Proof.
  induction t as [| d t IH]; intros s Hs Ht; cbn [str_ncmp length]; [split; [intros _; apply prefix_nil | done] |].
  destruct s as [| c s]; inversion Ht; subst.
  - split; [lia |]. by intros ?%prefix_nil_not.
  - inversion Hs; subst. destruct (Z.eqb_spec c d) as [-> | Hne].
    + rewrite IH by done. split; [by apply prefix_cons | by apply prefix_cons_inv_2].
    + split; [lia |]. intros ?%prefix_cons_inv_1. congruence.
Qed.

(** The first and the last place of a character. *)
Fixpoint str_index (c : Z) (s : list Z) : option Z :=
  match s with
  | [] => None
  | d :: s => if d =? c then Some 0 else Z.succ <$> str_index c s
  end.

Fixpoint str_rindex (c : Z) (s : list Z) : option Z :=
  match s with
  | [] => None
  | d :: s => match str_rindex c s with Some i => Some (Z.succ i) | None => if d =? c then Some 0 else None end
  end.

Definition found (a c : Z) (s : list Z) (i : option Z) : Z :=
  match i with Some i => a + i | None => if c =? 0 then a + Zlen s else 0 end.

Lemma strchr_spec s : forall fuel a c m,
  str_at m a s -> (length s < fuel)%nat -> strchr fuel a c m = Some (found a c s (str_index (u8 c) s)).
Proof.
  induction s as [| d s IH]; intros [| fuel] a c m Hs Hf; simpl in Hf; try lia; cbn [strchr str_index].
  - apply str_at_nil in Hs as ->. cbn [Z.eqb]. unfold found, Zlen. simpl. by rewrite Z.add_0_r.
  - apply str_at_cons in Hs as (-> & Hd & Hs). rewrite (proj2 (Z.eqb_neq d 0)) by done.
    destruct (d =? u8 c); [unfold found; by rewrite Z.add_0_r |].
    rewrite IH by (done || lia). f_equal. unfold found.
    destruct (str_index (u8 c) s); cbn [fmap option_fmap option_map]; [lia |]. destruct (c =? 0); [| done].
    unfold Zlen. simpl length. lia.
Qed.

Lemma strrchr_from_spec s : forall fuel last a c m,
  str_at m a s -> (length s < fuel)%nat ->
  strrchr_from fuel last a c m =
  Some (if c =? 0 then a + Zlen s else match str_rindex (u8 c) s with Some i => a + i | None => last end).
Proof.
  induction s as [| d s IH]; intros [| fuel] last a c m Hs Hf; simpl in Hf; try lia; cbn [strrchr_from str_rindex].
  - apply str_at_nil in Hs as ->. cbn [Z.eqb]. unfold Zlen. simpl. by rewrite Z.add_0_r.
  - apply str_at_cons in Hs as (-> & Hd & Hs). rewrite (proj2 (Z.eqb_neq d 0)) by done.
    rewrite IH by (done || lia). f_equal. destruct (c =? 0); [unfold Zlen; simpl length; lia |].
    destruct (str_rindex (u8 c) s); [lia |]. destruct (d =? u8 c); [lia | done].
Qed.

(** A string moved as a whole. *)
Lemma str_at_take m m' a d s k :
  str_at m a s -> 0 <= k <= Zlen s -> (forall i, 0 <= i < k -> m' (d + i) = m (a + i)) -> m' (d + k) = 0 ->
  str_at m' d (take (Z.to_nat k) s).
Proof.
  intros [Hs _] Hk Hc Ht. assert (Hl : Zlen (take (Z.to_nat k) s) = k) by (unfold Zlen in *; rewrite length_take; lia).
  split; rewrite Hl; [| done]. intros i Hi. rewrite Hc by done. destruct (Hs i ltac:(lia)) as [-> Hne].
  rewrite !list_lookup_total_alt, lookup_take_lt by lia. rewrite <- list_lookup_total_alt. done.
Qed.

(** [memcpy], [memmove] and [memset] do what they say, whatever the
    alignment of their arguments chose as the width of the loop: [memmove] for
    every overlap, [memcpy] when the ranges are apart, [memset] with the low
    byte of its argument; no byte outside the destination changes.  [memcmp]
    returns 0 exactly on equal ranges. *)
Theorem memory_routines_correct (m : mem) (dst src c n x : Z) :
  0 <= n ->
  memmove dst src n m x = (if ((dst <=? x) && (x <? dst + n))%bool then m (x - dst + src) else m x) /\
  memset dst c n m x = (if ((dst <=? x) && (x <? dst + n))%bool then u8 c else m x) /\
  (apart dst src n ->
   memcpy dst src n m x = (if ((dst <=? x) && (x <? dst + n))%bool then m (x - dst + src) else m x)) /\
  (memcmp dst src n m = 0 <-> forall k, 0 <= k < n -> m (dst + k) = m (src + k)).
Proof.
  intros Hn. split_and!; [by apply memmove_spec | by apply memset_spec | intros; by apply memcpy_spec |].
  unfold memcmp. rewrite (proj1 (memcmp_loop_spec _ _ _ _)), Z2Nat.id by done. done.
Qed.

Lemma memory_routines_correct_witness :
  let m := fun a => u8 a in
  memmove 16 18 12 m 27 = m 29 /\ memset 16 0x141 9 m 24 = 0x41 /\ memcpy 32 8 24 m 40 = m 16.
Proof.
  destruct (memory_routines_correct (fun a => u8 a) 16 18 0x141 12 27 ltac:(lia)) as (H1 & _ & _).
  destruct (memory_routines_correct (fun a => u8 a) 16 18 0x141 9 24 ltac:(lia)) as (_ & H2 & _).
  destruct (memory_routines_correct (fun a => u8 a) 32 8 0 24 40 ltac:(lia)) as (_ & _ & H3 & _).
  split_and!; [exact H1 | exact H2 | apply H3; unfold apart; lia].
Defined.

(** The string routines on memory are the functions of the strings there:
    [strlen] its length, [strcmp] and [strncmp] the difference at the first
    place they differ (zero exactly on equal strings, and on a prefix), [strchr]
    and [strrchr] the first and last place of a character; they stop at the
    terminator, so a fuel past the length is enough. *)
Theorem string_routines_correct (m : mem) (a b c : Z) (s t : list Z) (fuel n : nat) :
  str_at m a s -> str_at m b t -> (length s < fuel)%nat ->
  strlen fuel a m = Some (Zlen s) /\
  strcmp fuel a b m = Some (str_cmp s t) /\ (no_nul s -> no_nul t -> str_cmp s t = 0 <-> s = t) /\
  strncmp n a b m = str_ncmp n s t /\
  (no_nul s -> no_nul t -> strncmp (length t) a b m = 0 <-> t `prefix_of` s) /\
  strchr fuel a c m = Some (found a c s (str_index (u8 c) s)) /\
  strrchr fuel a c m = Some (found a c s (if c =? 0 then None else str_rindex (u8 c) s)).
Proof.
  intros Hs Ht Hf. split_and!.
  - unfold strlen. rewrite (strlen_from_spec s) by done. cbn. f_equal. lia.
  - by apply strcmp_spec.
  - apply str_cmp_eq.
  - by apply strncmp_spec.
  - intros. rewrite (strncmp_spec _ s t) by done. by apply str_ncmp_prefix.
  - by apply strchr_spec.
  - unfold strrchr. rewrite (strrchr_from_spec s) by done. f_equal. unfold found. by destruct (c =? 0).
Qed.

(** "a/b" at 100, "a" at 200. *)
Definition sample_mem : mem := store 100 [97; 47; 98; 0] (store 200 [97; 0] (fun _ => 0xFF)).

Lemma sample_str : str_at sample_mem 100 [97; 47; 98] /\ str_at sample_mem 200 [97].
Proof. rewrite !str_at_cons, !str_at_nil. by vm_compute. Qed.

Lemma string_routines_correct_witness :
  strcmp 8 100 200 sample_mem = Some 47 /\ strncmp 1 100 200 sample_mem = 0 /\ strrchr 8 100 47 sample_mem = Some 101.
Proof.
  destruct (string_routines_correct sample_mem 100 200 47 [97; 47; 98] [97] 8 1 (proj1 sample_str) (proj2 sample_str) ltac:(simpl; lia))
    as (_ & H1 & _ & H2 & _ & _ & H3).
  split_and!; [exact H1 | exact H2 | exact H3].
Defined.

(** [strlcpy] never writes past [n] bytes, always leaves a terminated
    string when there is room for one, holds as much of the source as fits, and
    returns the length of the source, so truncation can be seen. *)
Theorem strlcpy_correct (m : mem) (dst src n : Z) (s : list Z) (fuel : nat) :
  str_at m src s -> (length s < fuel)%nat -> 0 <= n -> src + Zlen s < dst \/ dst + n <= src ->
  exists m', strlcpy fuel dst src n m = Some (Zlen s, m') /\
    (forall x, ~ (dst <= x < dst + n) -> m' x = m x) /\
    (0 < n -> str_at m' dst (take (Z.to_nat (n - 1)) s)).
Proof.
  intros Hs Hf Hn Ha. unfold strlcpy, strlen. rewrite (strlen_from_spec s) by done.
  cbn [fmap option_fmap option_map]. replace (src + Zlen s - src) with (Zlen s) by lia.
  destruct (Z.eqb_spec n 0) as [-> |]; cbn [negb]; [exists m; split_and!; done || lia |].
  set (k := if Zlen s <? n - 1 then Zlen s else n - 1). pose proof (Zlen_nonneg s).
  assert (Hk : k = Z.min (Zlen s) (n - 1)) by (unfold k; case_ifs; lia).
  assert (Hc : forall x, memcpy dst src k m x = copied dst src k m x).
  { intros. apply memcpy_spec; [lia | unfold apart; lia]. }
  eexists. split; [done |]. split.
  - intros x Hx. unfold store. change (Zlen [0]) with 1. rewrite Hc. unfold copied. split_ifs; lia || done.
  - intros _. replace (take (Z.to_nat (n - 1)) s) with (take (Z.to_nat k) s).
    2: { destruct (decide (Zlen s <= n - 1)).
         - rewrite !take_ge by (unfold Zlen in *; lia). done.
         - do 2 f_equal. lia. }
    apply (str_at_take m _ src); [done | lia | |]; unfold store; change (Zlen [0]) with 1.
    + intros i Hi. rewrite Hc. unfold copied. split_ifs; try lia. f_equal. lia.
    + rewrite Z.leb_refl, (proj2 (Z.ltb_lt _ _)) by lia. cbn [andb]. by replace (dst + k - (dst + k)) with 0 by lia.
Qed.

Lemma strlcpy_correct_witness :
  exists m', strlcpy 8 300 100 3 sample_mem = Some (3, m') /\
    (forall x, ~ (300 <= x < 300 + 3) -> m' x = sample_mem x) /\ (0 < 3 -> str_at m' 300 [97; 47]).
Proof.
  exact (strlcpy_correct sample_mem 300 100 3 [97; 47; 98] 8 (proj1 sample_str) ltac:(simpl; lia) ltac:(lia)
    ltac:(left; vm_compute; reflexivity)).
Defined.

End KString.
