(* ===== verification/Path.v ===== *)
(** Path resolution and the permission rules, from [kernel/fs/vfs.c]:
    [vfs_resolve], [path_within], [is_password_file], [home_of], [may_read],
    [may_write] and [resolve_for_write].

    Paths are lists of bytes without their terminator.  The specification is by
    components: [vfs_resolve] is normalisation of the list of components with
    the code's limits, and the two permission predicates are a table over the
    components of the resolved path. *)

From S2P Require Import Prelude Str KString.

Module Path.
Import Str.

Definition W_NAME_MAX : Z := 27.
Definition W_PATH_MAX : Z := 255.
Definition W_ROOT_UID : Z := 0.
Definition W_NAME_LEN : Z := 31.
Definition W_ROLE_APPEDITOR : Z := 1.
Definition W_ROLE_USEREDITOR : Z := 2.
Definition W_ROLE_EDITFREQ : Z := 4.
Definition W_ROLE_SYSCTLEDIT : Z := 8.

(** What the rules ask of the user database ([kernel/fs/user.c]). *)
Class UserDb (U : Type) := {
  name_of : Z -> U -> option (list Z);       (** [user_by_uid], the name *)
  has_role : Z -> Z -> U -> bool;            (** [user_has_role] *)
}.

(** ** Resolution *)

Definition joined_size : Z := W_PATH_MAX * 2 + 2.

(** [joined], or the error. *)
Definition join_path (cwd path : list Z) : Z + list Z :=
  match path with
  | [] => inl (- W_EINVAL)
  | c :: _ =>
      if c =? slash then
        if W_PATH_MAX <? Zlen path then inl (- W_ENAMETOOLONG) else inr (strl joined_size path)
      else
        let cwd_len := Zlen cwd in
        if joined_size - 1 <? cwd_len + 1 + Zlen path then inl (- W_ENAMETOOLONG)
        else
          let base := strl joined_size cwd in
          let base := if ((cwd_len =? 0) || negb (char_at base (Z.to_nat (cwd_len - 1)) =? slash))%bool
                      then base ++ [slash] else base in
          inr (base ++ strl (joined_size - Zlen base) path)
  end.

(** The walk over the components.  [out] is what has been written so far, of
    length [len]; [saved] the lengths to go back to. *)
Fixpoint resolve_walk (fuel : nat) (q out : list Z) (saved : list Z) (out_size : Z) : Z + list Z :=
  match fuel with
  | O => inr out
  | S fuel =>
      match skip_slashes q with
      | [] => inr out
      | q =>
          let '(name, q) := component q in
          let comp := Zlen name in
          let len := Zlen out in
          if bool_decide (name = dot) then resolve_walk fuel q out saved out_size
          else if bool_decide (name = dotdot) then
            match saved with
            | [] => resolve_walk fuel q out saved out_size
            | back :: saved => resolve_walk fuel q (take (Z.to_nat back) out) saved out_size
            end
          else if W_NAME_MAX <? comp then inl (- W_ENAMETOOLONG)
          else if 64 <=? Zlen saved then inl (- W_ENAMETOOLONG)
          else if out_size <? len + (if 1 <? len then 1 else 0) + comp + 1 then inl (- W_ENAMETOOLONG)
          else
            let next := (if 1 <? len then out ++ [slash] else out) ++ name in
            resolve_walk fuel q next (len :: saved) out_size
      end
  end.

Definition vfs_resolve (cwd path : list Z) (out_size : Z) : Z + list Z :=
  match join_path cwd path with
  | inl e => inl e
  | inr joined => resolve_walk (S (length joined)) joined [slash] [] out_size
  end.

(** ** Permission *)

Definition path_within (path prefix : list Z) : bool :=
  let n := length prefix in
  if negb (KString.str_ncmp n path prefix =? 0) then false
  else ((char_at path n =? 0) || (char_at path n =? slash))%bool.

Definition is_password_file (abs : list Z) : bool :=
  if negb (path_within abs (str "/userconfig")) then false
  else
    match last_slash abs with
    | None => false
    | Some (_, last) =>
        if negb (KString.str_cmp last (str "password") =? 0) then false
        else countb (fun c => c =? slash) abs =? 3
    end.

Section rules.
Context {U : Type} `{UserDb U}.

(** Two loops that stop at the terminator or when the buffer is full. *)
Definition home_of (uid cap : Z) (db : U) : option (list Z) :=
  match name_of uid db with
  | None => None
  | Some name => Some (strl cap (str "/home/" ++ name))
  end.

Definition may_read (uid : Z) (abs : list Z) (db : U) : bool :=
  if uid =? W_ROOT_UID then true
  else if is_password_file abs then false
  else if path_within abs (str "/home") then
    if KString.str_cmp abs (str "/home") =? 0 then true
    else match home_of uid (W_PATH_MAX + 1) db with None => false | Some home => path_within abs home end
  else true.

Definition may_write (uid : Z) (abs : list Z) (db : U) : bool :=
  if uid =? W_ROOT_UID then true
  else if path_within abs (str "/kernel") then false
  else if is_password_file abs then false
  else if path_within abs (str "/userconfig") then has_role uid W_ROLE_USEREDITOR db
  else if path_within abs (str "/app") then has_role uid W_ROLE_APPEDITOR db
  else if path_within abs (str "/services") then has_role uid W_ROLE_SYSCTLEDIT db
  else if path_within abs (str "/ramdisk") then true
  else match home_of uid (W_PATH_MAX + 1) db with None => false | Some home => path_within abs home end.

Definition resolve_for_write (uid : Z) (cwd path : list Z) (out_size : Z) (db : U) : Z + list Z :=
  match vfs_resolve cwd path out_size with
  | inl e => inl e
  | inr out => if may_write uid out db then inr out else inl (- W_EACCES)
  end.

End rules.

(** ** Normalisation *)

(** A component that stays. *)
Definition plain (c : list Z) : Prop := c <> [] /\ c <> dot /\ c <> dotdot /\ slash ∉ c.

Definition render (cs : list (list Z)) : list Z :=
  match cs with [] => [slash] | _ => mjoin ((fun c => slash :: c) <$> cs) end.

(** One component onto the normalised path, or too long. *)
Definition push (out_size : Z) (cs : list (list Z)) (c : list Z) : option (list (list Z)) :=
  if bool_decide (c = [] \/ c = dot) then Some cs
  else if bool_decide (c = dotdot) then Some (take (length cs - 1) cs)
  else if ((W_NAME_MAX <? Zlen c) || (64 <=? Zlen cs) || (out_size <? Zlen (render (cs ++ [c])) + 1))%bool then None
  else Some (cs ++ [c]).

Fixpoint normalise (out_size : Z) (cs : list (list Z)) (todo : list (list Z)) : option (list (list Z)) :=
  match todo with
  | [] => Some cs
  | c :: todo => match push out_size cs c with Some cs => normalise out_size cs todo | None => None end
  end.

Lemma render_snoc cs c :
  render (cs ++ [c]) = (match cs with [] => [] | _ => render cs end) ++ slash :: c.
Proof.
  unfold render. destruct cs as [| d cs]; [simpl; by rewrite app_nil_r |].
  change ((d :: cs) ++ [c]) with (d :: (cs ++ [c])). cbn [fmap list_fmap mjoin list_join].
  rewrite fmap_app, join_app. cbn. by rewrite app_nil_r, <- !app_assoc.
Qed.

Lemma render_long cs : Forall plain cs -> (1 <? Zlen (render cs)) = negb (bool_decide (cs = [])).
Proof.
  intros Hp. destruct cs as [| c cs]; [done |]. rewrite bool_decide_false by done.
  inversion Hp as [| ? ? (Hc & _) _]; subst. apply Z.ltb_lt. unfold render. cbn [fmap list_fmap mjoin list_join].
  destruct c as [| d c]; [done |]. unfold Zlen. simpl length. lia.
Qed.

(** What is written for a component, and how long it is. *)
Lemma render_push cs c :
  Forall plain cs ->
  (if 1 <? Zlen (render cs) then render cs ++ [slash] else render cs) ++ c = render (cs ++ [c]) /\
  Zlen (render (cs ++ [c])) = Zlen (render cs) + (if 1 <? Zlen (render cs) then 1 else 0) + Zlen c.
Proof.
  intros Hp. rewrite render_long by done. rewrite render_snoc. destruct cs as [| d cs].
  - rewrite bool_decide_true by done. unfold Zlen. simpl. split; [done | lia].
  - rewrite bool_decide_false by done. cbn [negb]. rewrite <- app_assoc. split; [done |].
    rewrite Zlen_app. unfold Zlen. simpl length. lia.
Qed.

Lemma take_render cs c : take (Z.to_nat (Zlen (render cs))) (render (cs ++ [c])) = render cs.
Proof.
  rewrite render_snoc. destruct cs as [| d cs]; [done |].
  unfold Zlen. rewrite Nat2Z.id. by rewrite take_app_length.
Qed.

(** [saved] holds the length of the path before each of its components. *)
Inductive stack_ok : list Z -> list (list Z) -> Prop :=
| stack_nil : stack_ok [] []
| stack_push saved cs c : stack_ok saved cs -> stack_ok (Zlen (render cs) :: saved) (cs ++ [c]).

Lemma stack_length saved cs : stack_ok saved cs -> Zlen saved = Zlen cs.
Proof. induction 1; [done |]. rewrite Zlen_app. unfold Zlen in *. simpl length. lia. Qed.

Lemma stack_pop back saved cs :
  stack_ok (back :: saved) cs ->
  take (Z.to_nat back) (render cs) = render (take (length cs - 1) cs) /\ stack_ok saved (take (length cs - 1) cs).
Proof.
  intros Hs. inversion Hs as [| ? cs' c Hs']; subst. rewrite length_app. simpl length.
  replace (length cs' + 1 - 1)%nat with (length cs') by lia. rewrite take_app_length. split; [apply take_render | done].
Qed.

Lemma push_nil out_size cs : push out_size cs [] = Some cs.
Proof. unfold push. rewrite bool_decide_true by (by left). done. Qed.

Lemma normalise_skip out_size cs q : normalise out_size cs (split (skip_slashes q)) = normalise out_size cs (split q).
Proof.
  induction q as [| c q IH]; cbn [skip_slashes]; [done |]. destruct (Z.eqb_spec c slash) as [-> | Hne]; [| done].
  cbn [split]. rewrite Z.eqb_refl. cbn [normalise]. by rewrite push_nil.
Qed.

Lemma push_plain out_size cs c cs' :
  Forall plain cs -> slash ∉ c -> push out_size cs c = Some cs' -> Forall plain cs'.
Proof.
  intros Hp Hc. unfold push. case_bool_decide; [by intros [= <-] |]. case_bool_decide; [intros [= <-]; by apply Forall_take |].
  destruct (_ || _)%bool; [done |]. intros [= <-]. apply Forall_app. split; [done |]. apply Forall_singleton.
  unfold plain. tauto.
Qed.

Definition as_result (r : option (list (list Z))) : Z + list Z :=
  match r with Some cs => inr (render cs) | None => inl (- W_ENAMETOOLONG) end.

Lemma resolve_walk_spec out_size : forall fuel q cs saved,
  (length q < fuel)%nat -> Forall plain cs -> stack_ok saved cs ->
  resolve_walk fuel q (render cs) saved out_size = as_result (normalise out_size cs (split q)).
Proof.
  induction fuel as [| fuel IH]; intros q cs saved Hf Hp Hs; [lia |]. cbn [resolve_walk].
  pose proof (skip_slashes_head q) as Hh. pose proof (skip_slashes_length q) as Hl.
  rewrite <- normalise_skip. destruct (skip_slashes q) as [| c q'] eqn:E; [done |].
  pose proof (component_spec (c :: q')) as (Hq & Hns & Hr). pose proof (component_nonempty c q' Hh) as Hne.
  rewrite split_component. destruct (component (c :: q')) as [name rest]. cbn [fst snd] in *. cbn [normalise].
  assert (Hlen : (length rest < fuel)%nat).
  { apply (f_equal length) in Hq. rewrite length_app in Hq. destruct name; [done |]. simpl in *. lia. }
  assert (Hnext : forall cs, normalise out_size cs match rest with [] => [] | _ :: r => split r end = normalise out_size cs (split rest)).
  { intros cs0. destruct rest as [| d r]; cbn [split normalise]; [by rewrite push_nil |].
    subst d. rewrite Z.eqb_refl. cbn [normalise]. by rewrite push_nil. }
  unfold push. destruct (bool_decide (name = dot)) eqn:Ed.
  { apply bool_decide_eq_true in Ed as ->. rewrite bool_decide_true by (by right). rewrite Hnext. by apply IH. }
  apply bool_decide_eq_false in Ed. rewrite (bool_decide_false (name = [] \/ name = dot)) by tauto.
  destruct (bool_decide (name = dotdot)) eqn:Edd.
  { rewrite Hnext. destruct saved as [| back saved].
    - inversion Hs; subst. simpl take. by apply IH.
    - destruct (stack_pop _ _ _ Hs) as [-> Hs']. apply IH; [done | by apply Forall_take | done]. }
  apply bool_decide_eq_false in Edd.
  destruct (render_push cs name Hp) as [Ew El]. rewrite (stack_length _ _ Hs), El.
  destruct (W_NAME_MAX <? Zlen name); cbn [orb]; [done |]. destruct (64 <=? Zlen cs); cbn [orb]; [done |].
  destruct (out_size <? _); [done |]. rewrite Hnext, Ew. apply IH; [done | | by constructor].
  apply Forall_app. split; [done |]. apply Forall_singleton. unfold plain. tauto.
Qed.

(** *** Joining with the working directory *)

Lemma split_nonempty p : split p <> [].
Proof. by rewrite split_component. Qed.

Lemma split_join a b : split (a ++ slash :: b) = split a ++ split b.
Proof.
  induction a as [| c a IH]; cbn [app split]; [by rewrite Z.eqb_refl |].
  destruct (c =? slash); [by rewrite IH |]. rewrite IH. pose proof (split_nonempty a). by destruct (split a).
Qed.

Lemma normalise_app o cs l1 l2 :
  normalise o cs (l1 ++ l2) = match normalise o cs l1 with Some cs => normalise o cs l2 | None => None end.
Proof. revert cs. induction l1 as [| c l1 IH]; intros cs; cbn [app normalise]; [done |]. by destruct (push o cs c). Qed.

Lemma strl_all n s : Zlen s < n -> strl n s = s.
Proof. intros. unfold strl. apply take_ge. unfold Zlen in *. lia. Qed.

(** The path to normalise: from the root, or from the working directory. *)
Definition absolute (path : list Z) : bool := match path with c :: _ => c =? slash | [] => false end.

Definition resolve_spec (cwd path : list Z) (out_size : Z) : Z + list Z :=
  if bool_decide (path = []) then inl (- W_EINVAL)
  else if absolute path then
    if W_PATH_MAX <? Zlen path then inl (- W_ENAMETOOLONG) else as_result (normalise out_size [] (split path))
  else if 511 <? Zlen cwd + 1 + Zlen path then inl (- W_ENAMETOOLONG)
  else as_result (normalise out_size [] (split cwd ++ split path)).

(** A working directory with its slash, and then the path. *)
Lemma join_split cwd path o :
  let base := if ((Zlen cwd =? 0) || negb (char_at cwd (Z.to_nat (Zlen cwd - 1)) =? slash))%bool
              then cwd ++ [slash] else cwd in
  normalise o [] (split (base ++ path)) = normalise o [] (split cwd ++ split path).
Proof.
  cbv zeta. destruct (Z.eqb_spec (Zlen cwd) 0) as [E | E]; cbn [orb].
  { rewrite <- app_assoc. cbn [app]. by rewrite split_join. }
  destruct (Z.eqb_spec (char_at cwd (Z.to_nat (Zlen cwd - 1))) slash) as [Es | Es]; cbn [negb].
  2: { rewrite <- app_assoc. cbn [app]. by rewrite split_join. }
  destruct cwd as [| x cwd _] using rev_ind; [done |]. rewrite Zlen_app in Es.
  assert (x = slash) as ->.
  { unfold char_at in Es. change (Zlen [x]) with 1 in Es. replace (Zlen cwd + 1 - 1) with (Zlen cwd) in Es by lia.
    unfold Zlen in Es. rewrite Nat2Z.id, lookup_app_r, Nat.sub_diag in Es by lia. done. }
  rewrite <- app_assoc. cbn [app]. rewrite !split_join, <- app_assoc, !normalise_app.
  destruct (normalise o [] (split cwd)); [| done]. cbn [split normalise app]. by rewrite push_nil.
Qed.

Lemma vfs_resolve_spec cwd path out_size : vfs_resolve cwd path out_size = resolve_spec cwd path out_size.
Proof.
  assert (Hw : forall q, resolve_walk (S (length q)) q [slash] [] out_size = as_result (normalise out_size [] (split q))).
  { intros q. apply (resolve_walk_spec out_size _ q [] []); [lia | constructor | constructor]. }
  unfold vfs_resolve, join_path, resolve_spec, absolute, joined_size, W_PATH_MAX.
  destruct path as [| c path]; [done |]. rewrite (bool_decide_false (c :: path = [])) by done.
  destruct (c =? slash).
  - destruct (Z.ltb_spec 255 (Zlen (c :: path))); [done |]. rewrite strl_all by lia. apply Hw.
  - change (255 * 2 + 2 - 1) with 511. pose proof (Zlen_nonneg (c :: path)).
    destruct (Z.ltb_spec 511 (Zlen cwd + 1 + Zlen (c :: path))); [done |].
    rewrite (strl_all _ cwd) by (pose proof (Zlen_nonneg (c :: path)); unfold Zlen in *; simpl length in *; lia).
    set (base := if (_ || _)%bool then _ else _).
    assert (Hb : Zlen base <= Zlen cwd + 1).
    { unfold base. destruct (_ || _)%bool; [rewrite Zlen_app; change (Zlen [slash]) with 1 |]; lia. }
    rewrite strl_all by lia. rewrite Hw. unfold base. by rewrite join_split.
Qed.

(** C35: [vfs_resolve] is normalisation.  Whatever the path and the working
    directory, the result is the components of the two, with empty ones and
    "." left out and ".." taking away the one before it (and nothing at the
    root), written out with single slashes; the errors are exactly an empty
    path, a path longer than the buffers, a component longer than
    [W_NAME_MAX], more than 64 of them, or a result that does not fit.  Cutting
    [out] back to a saved length is removing the last component. *)
Theorem vfs_resolve_correct (cwd path : list Z) (out_size : Z) :
  vfs_resolve cwd path out_size = resolve_spec cwd path out_size.
Proof. apply vfs_resolve_spec. Qed.

(** *** What comes out *)

Definition fits (o : Z) (cs : list (list Z)) : Prop :=
  Forall plain cs /\ Forall (fun c => Zlen c <= W_NAME_MAX) cs /\ Zlen cs <= 64 /\
  (cs = [] \/ Zlen (render cs) + 1 <= o).

Lemma render_mono cs c : Zlen (render cs) <= Zlen (render (cs ++ [c])).
Proof.
  rewrite render_snoc, Zlen_app. destruct cs; unfold Zlen; simpl length; lia.
Qed.

Lemma push_fits o cs c cs' : fits o cs -> slash ∉ c -> push o cs c = Some cs' -> fits o cs'.
Proof.
  intros (Hp & Hn & Hl & Ho) Hc. pose proof (push_plain o cs c) as Hpl. revert Hpl. unfold push.
  case_bool_decide; [by intros _ [= <-] |]. case_bool_decide.
  - intros Hpl [= <-]. split_and!; [by apply Hpl | by apply Forall_take | unfold Zlen in *; rewrite length_take; lia |].
    destruct cs as [| x cs _] using rev_ind; [by left |]. rewrite length_app. simpl length.
    replace (length cs + 1 - 1)%nat with (length cs) by lia. rewrite take_app_length. right.
    pose proof (render_mono cs x). destruct Ho as [Ho | Ho]; [by destruct cs | lia].
  - destruct (_ || _)%bool eqn:E; [done |]. bool_to_prop. intros Hpl [= <-].
    split_and!; [by apply Hpl | | | right; lia].
    + apply Forall_app. split; [done |]. by apply Forall_singleton.
    + rewrite Zlen_app. change (Zlen [c]) with 1. lia.
Qed.

Lemma normalise_fits o todo : forall cs cs',
  fits o cs -> Forall (fun c => slash ∉ c) todo -> normalise o cs todo = Some cs' -> fits o cs'.
Proof.
  induction todo as [| c todo IH]; intros cs cs' Hf Ht; cbn [normalise]; [by intros [= <-] |].
  inversion Ht; subst. destruct (push o cs c) as [cs1 |] eqn:E; [| done]. apply IH; [| done].
  by eapply push_fits.
Qed.

Lemma split_no_slash p : Forall (fun c => slash ∉ c) (split p).
Proof.
  induction p as [| c p IH]; cbn [split]; [by apply Forall_singleton, not_elem_of_nil |].
  destruct (Z.eqb_spec c slash) as [-> | Hne]; [constructor; [apply not_elem_of_nil | done] |].
  destruct (split p) as [| x xs]; inversion IH; subst; constructor; try done;
    apply not_elem_of_cons; (split; [congruence |]); [apply not_elem_of_nil | done].
Qed.

(** Fitting components are pushed one after the other. *)
Lemma normalise_id o cs2 : forall cs1,
  fits o (cs1 ++ cs2) -> normalise o cs1 cs2 = Some (cs1 ++ cs2).
Proof.
  induction cs2 as [| c cs2 IH]; intros cs1 Hf; cbn [normalise]; [by rewrite app_nil_r |].
  pose proof Hf as (Hp & Hn & Hl & Ho). apply Forall_app in Hp as [_ Hp2], Hn as [_ Hn2].
  inversion Hp2 as [| ? ? (H0 & H1 & H2 & H3)]; inversion Hn2; subst.
  assert (Hr : Zlen (render (cs1 ++ [c])) <= Zlen (render (cs1 ++ c :: cs2))).
  { clear. induction cs2 as [| x cs2 IH] using rev_ind; [lia |]. etrans; [exact IH |].
    change (c :: cs2 ++ [x]) with ((c :: cs2) ++ [x]). rewrite app_assoc. apply render_mono. }
  rewrite Zlen_app in Hl. unfold push. rewrite (bool_decide_false (c = [] \/ c = dot)) by tauto.
  rewrite (bool_decide_false (c = dotdot)) by done.
  rewrite (proj2 (Z.ltb_ge _ _)), (proj2 (Z.leb_gt _ _)), (proj2 (Z.ltb_ge _ _)).
  - cbn [orb]. rewrite IH; rewrite <- app_assoc; done.
  - destruct Ho as [Ho | Ho]; [by destruct cs1 | lia].
  - unfold Zlen in *. simpl length in *. lia.
  - done.
Qed.

Lemma split_render cs : Forall plain cs -> split (render cs) = [] :: match cs with [] => [[]] | _ => cs end.
Proof.
  intros Hp. induction cs as [| c cs IH]; [done |]. inversion Hp as [| ? ? (_ & _ & _ & Hc) Hp']; subst.
  unfold render. cbn [fmap list_fmap mjoin list_join]. cbn [app split]. rewrite Z.eqb_refl. f_equal.
  destruct cs as [| d cs]; [cbn; rewrite app_nil_r; by apply split_one |].
  change (mjoin ((fun c => slash :: c) <$> d :: cs)) with (render (d :: cs)).
  assert (Hr : exists r, render (d :: cs) = slash :: r) by (by eexists). destruct Hr as [r Hr]. rewrite Hr in *.
  rewrite split_app by done. f_equal. specialize (IH Hp'). cbn [split] in IH. rewrite Z.eqb_refl in IH. by injection IH.
Qed.

Lemma resolve_inv cwd path o out :
  vfs_resolve cwd path o = inr out ->
  exists todo cs, normalise o [] todo = Some cs /\ out = render cs /\ (todo = split path \/ todo = split cwd ++ split path).
Proof.
  rewrite vfs_resolve_spec. unfold resolve_spec. case_bool_decide; [done |].
  assert (H0 : forall todo, as_result (normalise o [] todo) = inr out ->
    exists cs, normalise o [] todo = Some cs /\ out = render cs).
  { intros todo. destruct (normalise o [] todo) as [cs |]; [| done]. intros [= <-]. by exists cs. }
  destruct (absolute path); (destruct (_ <? _); [done |]); intros E; apply H0 in E as (cs & ? & ?); eauto 10.
Qed.

Lemma resolve_fits cwd path o out :
  vfs_resolve cwd path o = inr out -> exists cs, out = render cs /\ fits o cs.
Proof.
  intros (todo & cs & E & -> & Ht)%resolve_inv. exists cs. split; [done |].
  eapply normalise_fits; [| | exact E]; [split_and!; [constructor | constructor | done | by left] |].
  destruct Ht as [-> | ->]; [| apply Forall_app; split]; apply split_no_slash.
Qed.

(** What [vfs_resolve] returns is a normal form: an absolute path of at
    most 64 components, none of them empty, ".", ".." or over [W_NAME_MAX]
    bytes, short enough for the caller's buffer with its terminator; and
    resolving it again, from any working directory, returns it unchanged. *)
Theorem vfs_resolve_canonical (cwd cwd' path out : list Z) (out_size : Z) :
  2 <= out_size <= W_PATH_MAX + 1 -> vfs_resolve cwd path out_size = inr out ->
  (exists cs, out = render cs /\ fits out_size cs) /\ Zlen out < out_size /\
  vfs_resolve cwd' out out_size = inr out.
Proof.
  intros Ho E. destruct (resolve_fits _ _ _ _ E) as (cs & -> & Hf). pose proof Hf as (Hp & _ & _ & Hr).
  assert (Hl : Zlen (render cs) < out_size).
  { destruct Hr as [-> | Hr]; [change (Zlen (render [])) with 1 |]; lia. }
  split; [by exists cs |]. split; [done |]. rewrite vfs_resolve_spec. unfold resolve_spec.
  assert (Hc : exists r, render cs = slash :: r) by (destruct cs; by eexists). destruct Hc as [r Hc].
  rewrite (bool_decide_false (render cs = [])) by (by rewrite Hc).
  assert (Ha : absolute (render cs) = true) by (rewrite Hc; apply Z.eqb_refl). rewrite Ha.
  rewrite (proj2 (Z.ltb_ge _ _)) by (unfold W_PATH_MAX in *; lia).
  rewrite split_render by done. cbn [normalise]. rewrite push_nil.
  destruct cs as [| c cs]; [cbn [normalise]; by rewrite push_nil |].
  by rewrite (normalise_id out_size (c :: cs) []).
Qed.

Lemma vfs_resolve_canonical_witness :
  let out := str "/home/c" in
  (exists cs, out = render cs /\ fits 256 cs) /\ Zlen out < 256 /\ vfs_resolve (str "/x") out 256 = inr out.
Proof.
  exact (vfs_resolve_canonical (str "/home/bob") (str "/x") (str "..//a/./../c") (str "/home/c") 256
    ltac:(unfold W_PATH_MAX; lia) eq_refl).
Defined.

(** ** The rules as a table over components *)

Abbreviation no_nul := KString.no_nul.

Lemma no_nul_app a b : no_nul (a ++ b) <-> no_nul a /\ no_nul b.
Proof. apply Forall_app. Qed.

Lemma no_nul_render cs : Forall no_nul cs -> no_nul (render cs).
Proof.
  intros Hn. unfold render. destruct cs as [| c cs]; [by repeat constructor |].
  revert Hn. generalize (c :: cs). induction 1 as [| d l Hd _ IH]; [constructor |].
  cbn [fmap list_fmap mjoin list_join]. apply no_nul_app. split; [| done]. by constructor.
Qed.

Lemma char_at_app a b : char_at (a ++ b) (length a) = char_at b 0.
Proof. unfold char_at. by rewrite lookup_app_r, Nat.sub_diag by lia. Qed.

Lemma path_within_spec path prefix :
  no_nul path -> no_nul prefix ->
  path_within path prefix = true <-> exists rest, path = prefix ++ rest /\ (rest = [] \/ exists r, rest = slash :: r).
Proof.
  intros Hp Hq. unfold path_within. pose proof (KString.str_ncmp_prefix prefix path Hp Hq) as Hpre.
  destruct (Z.eqb_spec (KString.str_ncmp (length prefix) path prefix) 0) as [E | E]; cbn [negb].
  - apply Hpre in E as [rest ->]. apply no_nul_app in Hp as [_ Hp]. rewrite char_at_app, orb_true_iff, !Z.eqb_eq.
    destruct rest as [| c rest]; [split; [intros _; exists []; split; [by rewrite app_nil_r | by left] | by left] |].
    inversion Hp; subst. change (char_at (c :: rest) 0) with c. split.
    + intros [-> | ->]; [lia |]. exists (slash :: rest). split; [done |]. right. by exists rest.
    + intros (rest' & Er & Hr). apply app_inv_head in Er as <-. destruct Hr as [? | [r [= -> _]]]; [done | by right].
  - split; [done |]. intros (rest & -> & _). destruct E. apply Hpre. by exists rest.
Qed.

Lemma render_app ps l : ps <> [] -> render (ps ++ l) = render ps ++ mjoin ((fun c => slash :: c) <$> l).
Proof. intros Hp. unfold render. destruct ps as [| p ps]; [done |]. cbn [app]. by rewrite <- join_app, <- fmap_app. Qed.

Lemma render_inj cs ds : Forall plain cs -> Forall plain ds -> render cs = render ds -> cs = ds.
Proof.
  intros Hc Hd E. apply (f_equal split) in E. rewrite !split_render in E by done. injection E as E.
  assert (Hno : forall l, Forall plain l -> l <> [[]]).
  { intros l Hl ->. by inversion Hl as [| ? ? (? & _)]. }
  destruct cs, ds; try done; [by destruct (Hno _ Hd) | by destruct (Hno _ Hc)].
Qed.

(** Being inside a directory is having its components as a prefix. *)
Lemma path_within_render cs ps :
  Forall plain cs -> Forall no_nul cs -> Forall plain ps -> Forall no_nul ps -> ps <> [] ->
  path_within (render cs) (render ps) = bool_decide (ps `prefix_of` cs).
Proof.
  intros Hc Hcn Hp Hpn Hne. apply eq_true_iff_eq. rewrite bool_decide_eq_true.
  rewrite path_within_spec by (by apply no_nul_render). split.
  - intros (rest & E & Hr). destruct Hr as [-> | [r ->]].
    + rewrite app_nil_r in E. apply render_inj in E as ->; done.
    + apply (f_equal split) in E. rewrite split_join, !split_render in E by done.
      destruct ps as [| p ps]; [done |]. cbn [app] in E. injection E as E.
      inversion Hp as [| ? ? (Hp0 & _)]; subst. destruct cs as [| c cs]; [by injection E as <- |].
      rewrite E. by exists (split r).
  - intros [l ->]. rewrite render_app by done. eexists. split; [done |].
    destruct l as [| c l]; [by left | right]. by eexists.
Qed.

Lemma countb_slash_render cs : Forall plain cs -> cs <> [] -> countb (fun c => c =? slash) (render cs) = Zlen cs.
Proof.
  intros Hp Hne. unfold render. destruct cs as [| c0 cs0]; [done |]. clear Hne.
  induction Hp as [| c cs (_ & _ & _ & Hc) _ IH]; [done |].
  change (mjoin ((fun c => slash :: c) <$> c :: cs)) with ((slash :: c) ++ mjoin ((fun c => slash :: c) <$> cs)).
  assert (Happ : forall a b, countb (fun c => c =? slash) (a ++ b) =
    countb (fun c => c =? slash) a + countb (fun c => c =? slash) b).
  { intros a b. unfold countb. rewrite List.filter_app, length_app. lia. }
  rewrite Happ, IH, countb_cons, Z.eqb_refl.
  assert (H0 : countb (fun c => c =? slash) c = 0).
  { clear -Hc. induction c as [| x c IH]; [done |]. apply not_elem_of_cons in Hc as [Hx Hc].
    rewrite countb_cons, IH by done. rewrite (proj2 (Z.eqb_neq x slash)) by congruence. done. }
  rewrite H0. unfold Zlen. simpl. lia.
Qed.

Lemma last_slash_none c : slash ∉ c -> last_slash c = None.
Proof.
  induction c as [| x c IH]; intros Hc; cbn [last_slash]; [done |]. apply not_elem_of_cons in Hc as [Hx Hc].
  rewrite IH by done. by rewrite (proj2 (Z.eqb_neq x slash)) by congruence.
Qed.

Lemma last_slash_app a c : slash ∉ c -> last_slash (a ++ slash :: c) = Some (a, c).
Proof.
  intros Hc. induction a as [| x a IH]; cbn [app last_slash]; [by rewrite last_slash_none, Z.eqb_refl |]. by rewrite IH.
Qed.

Definition password_path (cs : list (list Z)) : bool :=
  match cs with [a; _; b] => (bool_decide (a = str "userconfig") && bool_decide (b = str "password"))%bool | _ => false end.

(** Names with only letters are plain. *)
Lemma plain_name s : forallb (fun c => (0 <? c) && negb (c =? slash) && negb (c =? 46))%bool s = true -> s <> [] ->
  plain s /\ no_nul s.
Proof.
  intros Hf Hne. rewrite forallb_forall in Hf. split.
  - assert (Hd : ~ 46 ∈ s).
    { intros Hin. apply list_elem_of_In, Hf in Hin. done. }
    split_and!; [done | intros ->; by apply Hd; left | intros ->; by apply Hd; left |].
    intros Hin. apply list_elem_of_In, Hf in Hin. done.
  - apply Forall_forall. intros c Hc. apply list_elem_of_In, Hf in Hc. rewrite !andb_true_iff in Hc. lia.
Qed.

Ltac plain_str := apply plain_name; [reflexivity | discriminate].

Lemma within_top cs s :
  Forall plain cs -> Forall no_nul cs -> plain s /\ no_nul s ->
  path_within (render cs) (slash :: s) = bool_decide (head cs = Some s).
Proof.
  intros Hp Hn [Hs Hsn]. change (slash :: s) with (slash :: s). replace (slash :: s) with (render [s])
    by (cbn; by rewrite app_nil_r).
  rewrite path_within_render; [| done | done | by apply Forall_singleton | by apply Forall_singleton | done].
  apply bool_decide_ext. destruct cs as [| c cs]; [split; [by intros ?%prefix_nil_not | done] |]. split.
  - intros ->%prefix_cons_inv_1. done.
  - intros [= ->]. apply prefix_cons, prefix_nil.
Qed.

Lemma is_password_file_spec cs :
  Forall plain cs -> Forall no_nul cs -> is_password_file (render cs) = password_path cs.
Proof.
  intros Hp Hn. unfold is_password_file. change (str "/userconfig") with (slash :: str "userconfig").
  rewrite (within_top cs) by (done || plain_str).
  destruct (decide (cs = [])) as [-> | Hne]; [done |].
  rewrite countb_slash_render by done.
  assert (Hl : exists cs' c, cs = cs' ++ [c]) by (destruct cs as [| x l _] using rev_ind; [done | by exists l, x]).
  destruct Hl as (cs' & c & ->). apply Forall_app in Hp as [_ Hpc]. apply Forall_app in Hn as [_ Hnc].
  apply Forall_singleton in Hpc as (_ & _ & _ & Hc). apply Forall_cons_1 in Hnc as [Hnc _].
  rewrite render_snoc, last_slash_app by done.
  assert (Hcmp : (KString.str_cmp c (str "password") =? 0) = bool_decide (c = str "password")).
  { apply eq_true_iff_eq. rewrite Z.eqb_eq, bool_decide_eq_true. apply KString.str_cmp_eq; [done |].
    by apply (plain_name (str "password")). }
  rewrite Hcmp. destruct cs' as [| a [| b [| d cs']]]; cbn [app head].
  - unfold password_path. by case_bool_decide; case_bool_decide.
  - unfold password_path. by case_bool_decide; case_bool_decide.
  - unfold password_path. rewrite (bool_decide_ext (Some a = Some (str "userconfig")) (a = str "userconfig"))
      by (split; congruence). by case_bool_decide; case_bool_decide.
  - assert (Hz : (Zlen (a :: b :: d :: cs' ++ [c]) =? 3) = false).
    { apply Z.eqb_neq. unfold Zlen. simpl length. rewrite length_app. simpl. lia. }
    rewrite Hz. assert (Hpw : password_path (a :: b :: d :: cs' ++ [c]) = false) by (destruct cs'; done).
    rewrite Hpw. by case_bool_decide; case_bool_decide.
Qed.

Section table.
Context {U : Type} `{UserDb U}.

(** The names the database gives are fit to be a component ([user_add] sees to
    it). *)
Definition names_ok (uid : Z) (db : U) : Prop :=
  forall n, name_of uid db = Some n -> plain n /\ no_nul n /\ Zlen n <= W_NAME_LEN.

Definition in_home (uid : Z) (cs : list (list Z)) (db : U) : bool :=
  match cs, name_of uid db with
  | h :: u :: _, Some n => (bool_decide (h = str "home") && bool_decide (u = n))%bool
  | _, _ => false
  end.

Definition read_policy (uid : Z) (cs : list (list Z)) (db : U) : bool :=
  if uid =? W_ROOT_UID then true
  else if password_path cs then false
  else match cs with
       | h :: _ :: _ => if bool_decide (h = str "home") then in_home uid cs db else true
       | _ => true
       end.

(** The table in the comment above [path_within]: what is in no row is read-only. *)
Definition table_policy (uid : Z) (cs : list (list Z)) (db : U) : bool :=
  if uid =? W_ROOT_UID then true
  else match cs with
       | [] => false
       | top :: _ =>
           if bool_decide (top = str "kernel") then false
           else if bool_decide (top = str "app") then has_role uid W_ROLE_APPEDITOR db
           else if password_path cs then false
           else if bool_decide (top = str "userconfig") then has_role uid W_ROLE_USEREDITOR db
           else in_home uid cs db
       end.

(** The rows of [may_write] itself: /services and /ramdisk, which the function
    has and the table does not, as well. *)
Definition write_policy (uid : Z) (cs : list (list Z)) (db : U) : bool :=
  if uid =? W_ROOT_UID then true
  else match cs with
       | [] => false
       | top :: _ =>
           if bool_decide (top = str "kernel") then false
           else if password_path cs then false
           else if bool_decide (top = str "userconfig") then has_role uid W_ROLE_USEREDITOR db
           else if bool_decide (top = str "app") then has_role uid W_ROLE_APPEDITOR db
           else if bool_decide (top = str "services") then has_role uid W_ROLE_SYSCTLEDIT db
           else if bool_decide (top = str "ramdisk") then true
           else in_home uid cs db
       end.

Lemma home_within uid cs db :
  Forall plain cs -> Forall no_nul cs -> names_ok uid db ->
  match home_of uid (W_PATH_MAX + 1) db with None => false | Some home => path_within (render cs) home end =
  in_home uid cs db.
Proof.
  intros Hp Hn Hok. unfold home_of, in_home. destruct (name_of uid db) as [n |] eqn:E.
  2: { by destruct cs as [| ? [| ? ?]]. }
  destruct (Hok n E) as (Hpn & Hnn & Hl).
  assert (Eh : strl (W_PATH_MAX + 1) (str "/home/" ++ n) = render [str "home"; n]).
  { rewrite strl_all; [cbn; by rewrite app_nil_r |].
    unfold Zlen, W_PATH_MAX, W_NAME_LEN in *. rewrite length_app. simpl length. lia. }
  destruct (plain_name (str "home") eq_refl ltac:(discriminate)) as [Hh Hhn].
  assert (H2 : forall P : list Z -> Prop, P (str "home") -> P n -> Forall P [str "home"; n])
    by (intros P ? ?; constructor; [done | constructor; [done | constructor]]).
  rewrite Eh, path_within_render; [| done | done | by apply H2 | by apply H2 | done].
  destruct cs as [| h [| u cs]].
  - rewrite bool_decide_false; [done |]. by intros ?%prefix_nil_not.
  - rewrite bool_decide_false; [done |]. intros Hpre%prefix_length. simpl in Hpre. lia.
  - apply eq_true_iff_eq. rewrite bool_decide_eq_true, andb_true_iff, !bool_decide_eq_true. split.
    + intros [l [= -> -> ->]]. done.
    + intros [-> ->]. by exists cs.
Qed.

Lemma may_read_table uid cs db :
  Forall plain cs -> Forall no_nul cs -> names_ok uid db -> may_read uid (render cs) db = read_policy uid cs db.
Proof.
  intros Hp Hn Hok. unfold may_read, read_policy. destruct (uid =? W_ROOT_UID); [done |].
  rewrite is_password_file_spec by done. destruct (password_path cs); [done |].
  rewrite home_within by done. change (str "/home") with (slash :: str "home").
  rewrite (within_top cs) by (done || plain_str).
  destruct cs as [| h cs]; [done |]. cbn [head].
  destruct (decide (h = str "home")) as [-> | Hh].
  - rewrite (bool_decide_true (Some _ = _)) by done. rewrite (bool_decide_true (str "home" = _)) by done.
    assert (Hcmp : (KString.str_cmp (render (str "home" :: cs)) (slash :: str "home") =? 0) = bool_decide (cs = [])).
    { apply eq_true_iff_eq. rewrite Z.eqb_eq, bool_decide_eq_true, KString.str_cmp_eq.
      - change (slash :: str "home") with (render [str "home"]). split; [| by intros ->].
        intros E. apply render_inj in E; [by injection E | done |].
        constructor; [by apply (plain_name (str "home")) | constructor].
      - by apply no_nul_render.
      - constructor; [done |]. by apply (plain_name (str "home")). }
    rewrite Hcmp. destruct cs as [| u cs]; [done |]. by rewrite bool_decide_false.
  - rewrite (bool_decide_false (Some h = _)) by congruence. destruct cs; [done |]. by rewrite bool_decide_false.
Qed.

Lemma may_write_table uid cs db :
  Forall plain cs -> Forall no_nul cs -> names_ok uid db -> may_write uid (render cs) db = write_policy uid cs db.
Proof.
  intros Hp Hn Hok. unfold may_write, write_policy. destruct (uid =? W_ROOT_UID); [done |].
  rewrite is_password_file_spec, home_within by done.
  change (str "/kernel") with (slash :: str "kernel"). change (str "/userconfig") with (slash :: str "userconfig").
  change (str "/app") with (slash :: str "app"). change (str "/services") with (slash :: str "services").
  change (str "/ramdisk") with (slash :: str "ramdisk").
  rewrite !(within_top cs) by (done || plain_str).
  assert (Hs : forall (a b : list Z), bool_decide (Some a = Some b) = bool_decide (a = b))
    by (intros; apply bool_decide_ext; split; congruence).
  destruct cs as [| top cs]; [done |]. cbn [head]. rewrite !Hs. done.
Qed.

(** The two agree outside /services and /ramdisk. *)
Lemma policies_agree uid cs db :
  head cs <> Some (str "services") -> head cs <> Some (str "ramdisk") -> write_policy uid cs db = table_policy uid cs db.
Proof.
  intros Hs Hr. unfold write_policy, table_policy. destruct (uid =? W_ROOT_UID); [done |]. destruct cs as [| top cs]; [done |].
  cbn [head] in Hs, Hr. rewrite (bool_decide_false (top = str "services")), (bool_decide_false (top = str "ramdisk")) by congruence.
  destruct (decide (top = str "app")) as [-> | Ha]; [by destruct cs as [| ? [| ? [| ? ?]]] |].
  by rewrite (bool_decide_false (top = str "app")) by done.
Qed.

(** C36: the permission rules, by the components of a resolved path.  Reading: a
    password file is root's alone, a home directory root's and its owner's, and
    the rest anyone's.  Writing, outside /services and /ramdisk, is the table in
    the comment above [path_within] in vfs.c: root anywhere; /kernel and the
    password files nobody else; /app and /userconfig by role; a home directory
    its owner; anything else nobody.  Two trees are writable that this table
    leaves out, and [may_write] lets them through: /services to root and to the
    role sysctledit, /ramdisk to everybody.  "/apple" is not "/app". *)
Theorem permission_table (uid : Z) (cs : list (list Z)) (db : U) :
  Forall plain cs -> Forall no_nul cs -> names_ok uid db ->
  may_read uid (render cs) db = read_policy uid cs db /\
  may_write uid (render cs) db =
    if bool_decide (head cs = Some (str "services")) then ((uid =? W_ROOT_UID) || has_role uid W_ROLE_SYSCTLEDIT db)%bool
    else if bool_decide (head cs = Some (str "ramdisk")) then true
    else table_policy uid cs db.
Proof.
  intros. split; [by apply may_read_table |]. rewrite may_write_table by done.
  case_bool_decide as Hs; [| case_bool_decide as Hr; [| by apply policies_agree]]; destruct cs as [| top cs]; try done.
  - injection Hs as ->. unfold write_policy. destruct (uid =? W_ROOT_UID); [done |]. by destruct cs as [| ? [| ? [| ? ?]]].
  - injection Hr as ->. unfold write_policy. destruct (uid =? W_ROOT_UID); [done |]. by destruct cs as [| ? [| ? [| ? ?]]].
Qed.

(** Components of strings are strings. *)
Lemma split_no_nul p : no_nul p -> Forall no_nul (split p).
Proof.
  induction 1 as [| c p Hc _ IH]; cbn [split]; [by repeat constructor |].
  destruct (c =? slash); [constructor; [constructor | done] |].
  destruct (split p) as [| x xs]; inversion IH; subst; (constructor; [by constructor | done]).
Qed.

Lemma normalise_forall (P : list Z -> Prop) o todo : forall cs cs',
  Forall P cs -> Forall P todo -> normalise o cs todo = Some cs' -> Forall P cs'.
Proof.
  induction todo as [| c todo IH]; intros cs cs' Hc Ht; cbn [normalise]; [by intros [= <-] |].
  inversion Ht; subst. destruct (push o cs c) as [cs1 |] eqn:E; [| done]. apply IH; [| done].
  revert E. unfold push. case_bool_decide; [by intros [= <-] |].
  case_bool_decide; [intros [= <-]; by apply Forall_take |]. destruct (_ || _)%bool; [done |].
  intros [= <-]. apply Forall_app. split; [done |]. constructor; [done | constructor].
Qed.

Lemma resolve_components cwd path o out :
  no_nul cwd -> no_nul path -> vfs_resolve cwd path o = inr out ->
  exists cs, out = render cs /\ Forall plain cs /\ Forall no_nul cs.
Proof.
  intros Hc Hn (todo & cs & E & -> & Ht)%resolve_inv. exists cs.
  assert (Hs : Forall (fun c => slash ∉ c) todo) by (destruct Ht as [-> | ->]; [| apply Forall_app; split]; apply split_no_slash).
  assert (Hz : Forall no_nul todo) by (destruct Ht as [-> | ->]; [| apply Forall_app; split]; by apply split_no_nul).
  split_and!; [done | | by eapply (normalise_forall no_nul); [constructor | | exact E]].
  eapply normalise_fits; [| exact Hs | exact E]. split_and!; [constructor | constructor | done | by left].
Qed.

(** C37: a user without roles stays at home.  Whatever path a process names
    ("..", "//" and a working directory included), [resolve_for_write] of a
    user other than root who holds no role lets through only its own home
    directory, what is below it, and /ramdisk. *)
Theorem resolve_for_write_confined (uid : Z) (cwd path out : list Z) (out_size : Z) (db : U) :
  uid <> W_ROOT_UID -> names_ok uid db -> no_nul cwd -> no_nul path ->
  (forall role, has_role uid role db = false) ->
  resolve_for_write uid cwd path out_size db = inr out ->
  exists cs, out = render cs /\ Forall plain cs /\
    ([str "ramdisk"] `prefix_of` cs \/ exists n, name_of uid db = Some n /\ [str "home"; n] `prefix_of` cs).
Proof.
  intros Hu Hok Hc Hn Hr. unfold resolve_for_write. destruct (vfs_resolve cwd path out_size) as [| o] eqn:E; [done |].
  destruct (resolve_components _ _ _ _ Hc Hn E) as (cs & -> & Hp & Hz).
  rewrite may_write_table by done. destruct (write_policy uid cs db) eqn:Ew; [| done]. intros [= <-].
  exists cs. split_and!; try done. revert Ew. unfold write_policy. rewrite (proj2 (Z.eqb_neq _ _)), !Hr by done.
  destruct cs as [| top cs]; [done |]. case_bool_decide; [done |]. destruct (password_path _); [done |].
  case_bool_decide; [done |]. case_bool_decide; [done |]. case_bool_decide; [done |].
  case_bool_decide as Et; [intros _; left; rewrite Et; apply prefix_cons, prefix_nil |].
  unfold in_home. destruct cs as [| u cs]; [done |]. destruct (name_of uid db) as [n |]; [| done].
  rewrite andb_true_iff, !bool_decide_eq_true. intros [-> ->]. right. exists n. split; [done |]. by exists cs.
Qed.

End table.

(** ** A small database: uid, name, roles *)

#[global] Instance list_db : UserDb (list (Z * list Z * Z)) := {
  name_of uid db := (fun e => e.1.2) <$> head (filter (fun e => e.1.1 = uid) db);
  has_role uid role db := existsb (fun e => (e.1.1 =? uid) && negb (Z.land e.2 role =? 0))%bool db;
}.

Definition sample_db : list (Z * list Z * Z) :=
  [(0, str "root", 0); (1, str "bob", 0); (2, str "eve", W_ROLE_USEREDITOR)].

Lemma sample_names uid : names_ok uid sample_db.
Proof.
  intros n. unfold name_of, list_db, sample_db. rewrite !filter_cons, filter_nil. cbn [fst snd].
  repeat case_decide; cbn [head fmap option_fmap option_map]; intros Hn; simplify_eq/=;
    (split; [| split]; [apply plain_name; [reflexivity | discriminate].. | done]).
Qed.

Lemma permission_table_witness :
  may_read 1 (render [str "home"; str "eve"; str "x"]) sample_db = read_policy 1 [str "home"; str "eve"; str "x"] sample_db /\
  may_write 1 (render [str "home"; str "eve"; str "x"]) sample_db = table_policy 1 [str "home"; str "eve"; str "x"] sample_db.
Proof.
  apply (permission_table 1 [str "home"; str "eve"; str "x"] sample_db); [| | apply sample_names];
    (constructor; [plain_str | constructor; [plain_str | constructor; [plain_str | constructor]]]).
Defined.

Lemma resolve_for_write_confined_witness :
  exists cs, str "/home/bob/x" = render cs /\ Forall plain cs /\
    ([str "ramdisk"] `prefix_of` cs \/ exists n, name_of 1 sample_db = Some n /\ [str "home"; n] `prefix_of` cs).
Proof.
  refine (resolve_for_write_confined 1 (str "/home/bob") (str "../../app/../home/bob/./x") _ 256 sample_db _ (sample_names 1) _ _ _ eq_refl).
  - discriminate.
  - by repeat constructor.
  - by repeat constructor.
  - intros role. unfold has_role, list_db, sample_db. cbn. by rewrite Z.land_0_l.
Defined.

(** A user with the usereditor role may move root's directory out of
    /userconfig into its own home, and there read the password in it. *)
Example usereditor_reads_passwords :
  may_read 2 (str "/userconfig/root/password") sample_db = false /\
  may_write 2 (str "/userconfig/root") sample_db = true /\ may_write 2 (str "/home/eve/root") sample_db = true /\
  may_read 2 (str "/home/eve/root/password") sample_db = true.
Proof. vm_compute. repeat split; reflexivity. Qed.

End Path.
