(* ===== verification/User.v ===== *)
(** The user database, [kernel/fs/user.c]: the table of accounts, the two kinds
    of file it is kept in, authentication and the rules for changing it.

    The table is a list of [W_MAX_USERS] slots.  The files are those of [Wfs],
    reached below the permission layer as in the source; a text buffer is the
    list of the bytes written to it, and the functions that append take its
    capacity.  [make_salt] mixes the timer and the address of [next_uid], which
    are arguments. *)

From S2P Require Import Prelude Str KString Path Device Ramdisk Wfs WfsDir.

Module User.
Import Str Path Wfs WfsDir.

Definition W_MAX_USERS : Z := 32.
Definition W_SHELL_MAX : Z := 63.
Definition USERCONFIG_DIR : list Z := str "/userconfig".
Definition USER_LIST_FILE : list Z := str "/userconfig/users".
Definition DEFAULT_SHELL : list Z := str "/app/whell/launch".
Definition TEXT_SIZE : Z := W_MAX_USERS * 128.

Record user_entry_t := Entry {
  used : bool; name : list Z; uid : Z; roles : Z; salt : Z; hash : Z; shell : list Z;
}.

Definition no_entry : user_entry_t := Entry false [] 0 0 0 0 [].
#[global] Instance user_entry_inhabited : Inhabited user_entry_t := populate no_entry.

Record table := Table { users : list user_entry_t; next_uid : Z }.

(** The machine's timer and the address that go into a salt. *)
Record entropy := Entropy { ticks : Z; marker : Z }.

(** ** Passwords *)

Definition fnv (h c : Z) : Z := u64 (Z.lxor h c * 0x100000001b3).

Fixpoint hash_rounds (n : nat) (salt : Z) (password : list Z) (h : Z) : Z :=
  match n with
  | O => h
  | S n => hash_rounds n salt password (fnv (fold_left fnv password h) salt)
  end.

Definition hash_password (salt : Z) (password : list Z) : Z :=
  let h := hash_rounds 4096 salt password (Z.lxor 0xcbf29ce484222325 salt) in
  if h =? 0 then 1 else h.

Definition hash_equal (a b : Z) : bool :=
  let diff := Z.lxor a b in
  fold_left (fun acc i => Z.lor acc (u8 (Z.shiftr diff (i * 8)))) (seqZ 0 8) 0 =? 0.

Definition make_salt (env : entropy) (next_uid : Z) : Z :=
  Z.lxor (Z.lxor (u64 (ticks env * 0x9E3779B97F4A7C15)) (u64 (marker env * 0xBF58476D1CE4E5B9)))
    (u64 (Z.shiftl next_uid 32)).

(** ** Text *)

Definition is_digit (c : Z) : bool := ((48 <=? c) && (c <=? 57))%bool.

Fixpoint parse_digits (v : Z) (p : list Z) : Z * list Z :=
  match p with
  | c :: q => if is_digit c then parse_digits (u64 (u64 (v * 10) + (c - 48))) q else (v, p)
  | [] => (v, [])
  end.

Definition parse_u64 (p : list Z) : Z * list Z := parse_digits 0 p.

(** [tmp], the low digit first. *)
Fixpoint digits_rev (fuel : nat) (v : Z) : list Z :=
  match fuel with
  | O => []
  | S n => if v =? 0 then [] else (48 + v `mod` 10) :: digits_rev n (v / 10)
  end.

Definition digits (v : Z) : list Z := reverse (if v =? 0 then [48] else digits_rev 20 v).

(** Both stop one short of the capacity. *)
Definition append_str (cap : Z) (buf s : list Z) : list Z := buf ++ take (Z.to_nat (cap - 1 - Zlen buf)) s.
Definition append_u64 (cap : Z) (buf : list Z) (v : Z) : list Z := append_str cap buf (digits v).

Definition user_dir_path (cap : Z) (name : list Z) : list Z :=
  append_str cap (append_str cap [] (USERCONFIG_DIR ++ [slash])) name.
Definition user_password_path (cap : Z) (name : list Z) : list Z :=
  append_str cap (user_dir_path cap name) (str "/password").

(** ** The table *)

Fixpoint find_from (p : user_entry_t -> bool) (i : Z) (l : list user_entry_t) : option Z :=
  match l with [] => None | e :: l => if (used e && p e)%bool then Some i else find_from p (i + 1) l end.

Definition find_by_name (n : list Z) (t : table) : option Z :=
  find_from (fun e => KString.str_cmp (name e) n =? 0) 0 (users t).
Definition find_by_uid (u : Z) (t : table) : option Z := find_from (fun e => uid e =? u) 0 (users t).

Fixpoint free_slot_from (i : Z) (l : list user_entry_t) : option Z :=
  match l with [] => None | e :: l => if negb (used e) then Some i else free_slot_from (i + 1) l end.

Definition with_user (i : Z) (e : user_entry_t) (t : table) : table := Table (upd i e (users t)) (next_uid t).

Record wuser_t := WUser { w_uid : Z; w_roles : Z; w_name : list Z }.
Definition fill (e : user_entry_t) : wuser_t := WUser (uid e) (roles e) (strl (W_NAME_LEN + 1) (name e)).

Section user.
Context {D : Type} `{BlockDevice D}.
Implicit Types s : fs D.

(** ** Storage *)

Definition ensure_dir (path : list Z) s : Z * fs D :=
  let '(r, _, s) := wfs_lookup path s in
  if r =? 0 then (0, s)
  else let '(r, _, s) := wfs_create path WFS_TYPE_DIR s in (r, s).

Definition write_file (path text : list Z) s : Z * fs D :=
  let '(r, ino, s) := wfs_lookup path s in
  let '(r, ino, s) := if r =? - W_ENOENT then wfs_create path WFS_TYPE_FILE s else (r, ino, s) in
  if r <? 0 then (r, s)
  else
    let '(r, s) := wfs_truncate ino s in
    if r <? 0 then (r, s)
    else if Zlen text =? 0 then (0, s)
    else
      let '(r, s) := wfs_write ino 0 text s in
      (if r =? i32 (Zlen text) then 0 else if r <? 0 then r else - W_EIO, s).

Definition colon : Z := 58.
Definition newline : Z := 10.

(** One line of the list, onto what is there. *)
Definition user_line (text : list Z) (e : user_entry_t) : list Z :=
  if negb (used e) then text
  else
    let text := append_str TEXT_SIZE text (name e) ++ [colon] in
    let text := append_u64 TEXT_SIZE text (uid e) ++ [colon] in
    let text := append_u64 TEXT_SIZE text (roles e) in
    let text := if bool_decide (shell e <> []) then append_str TEXT_SIZE (text ++ [colon]) (shell e) else text in
    text ++ [newline].

Definition user_text (l : list user_entry_t) : list Z := fold_left user_line l [].

Definition save_user_list (t : table) s : Z * fs D :=
  let text := user_text (users t) in
  let '(r, s) := ensure_dir USERCONFIG_DIR s in
  if r <? 0 then (r, s) else write_file USER_LIST_FILE text s.

Definition password_text (e : user_entry_t) : list Z :=
  append_u64 64 (append_u64 64 [] (salt e) ++ [colon]) (hash e) ++ [newline].

Definition save_password (e : user_entry_t) s : Z * fs D :=
  let '(r, s) := ensure_dir USERCONFIG_DIR s in
  if r <? 0 then (r, s)
  else
    let '(r, s) := ensure_dir (user_dir_path (W_PATH_MAX + 1) (name e)) s in
    if r <? 0 then (r, s)
    else write_file (user_password_path (W_PATH_MAX + 1) (name e)) (password_text e) s.

Definition parse_password (text : list Z) : Z * Z :=
  let '(sl, p) := parse_u64 text in
  match p with c :: p => if c =? colon then (sl, (parse_u64 p).1) else (sl, 0) | [] => (sl, 0) end.

Definition set_secret (sl h : Z) (e : user_entry_t) : user_entry_t :=
  Entry (used e) (name e) (uid e) (roles e) sl h (shell e).

Definition load_password (e : user_entry_t) s : user_entry_t * fs D :=
  let e := set_secret 0 0 e in
  let '(r, ino, s) := wfs_lookup (user_password_path (W_PATH_MAX + 1) (name e)) s in
  if negb (r =? 0) then (e, s)
  else
    let '(got, text, s) := wfs_read ino 0 63 s in
    if got <=? 0 then (e, s)
    else let '(sl, h) := parse_password (take (Z.to_nat got) text) in (set_secret sl h e, s).

(** At most [n] bytes, up to a stop. *)
Fixpoint take_until (n : nat) (stop : Z -> bool) (p : list Z) : list Z * list Z :=
  match n, p with
  | S n, c :: q => if stop c then ([], p) else let '(a, b) := take_until n stop q in (c :: a, b)
  | _, _ => ([], p)
  end.

(** The fields of a line; [None] when it is malformed. *)
Definition parse_fields (line : list Z) : option user_entry_t :=
  let '(nm, line) := take_until (Z.to_nat W_NAME_LEN) (fun c => c =? colon) line in
  match line with
  | [] => None
  | c :: line =>
      if (negb (c =? colon) || (Zlen nm =? 0))%bool then None
      else
        let '(u, line) := parse_u64 line in
        match line with
        | [] => None
        | c :: line =>
            if negb (c =? colon) then None
            else
              let '(r, line) := parse_u64 line in
              let sh := match line with
                        | c :: line => if c =? colon
                                       then (take_until (Z.to_nat W_SHELL_MAX) (fun c => c =? newline) line).1 else []
                        | [] => []
                        end in
              Some (Entry true nm (u32 u) (u32 r) 0 0 sh)
        end
  end.

Definition parse_list_line (line : list Z) (t : table) s : table * fs D :=
  match parse_fields line with
  | None => (t, s)
  | Some e =>
      match free_slot_from 0 (users t) with
      | None => (t, s)
      | Some i =>
          let '(e', s) := load_password e s in
          let t := with_user i e' t in
          (if next_uid t <=? uid e then Table (users t) (u32 (uid e + 1)) else t, s)
      end
  end.

(** The lines of [text], cut at newlines and terminators, the last one too. *)
Fixpoint text_lines (line text : list Z) : list (list Z) :=
  match text with
  | [] => [line]
  | c :: text => if ((c =? newline) || (c =? 0))%bool then line :: text_lines [] text
                 else text_lines (line ++ [c]) text
  end.

Definition parse_list (text : list Z) (t : table) s : table * fs D :=
  fold_left (fun '(t, s) line => if bool_decide (line = []) then (t, s) else parse_list_line line t s)
    (text_lines [] text) (t, s).

(** What [user_init] reads of the list file. *)
Definition load_list (t : table) s : table * fs D :=
  let '(r, ino, s) := wfs_lookup USER_LIST_FILE s in
  if negb (r =? 0) then (t, s)
  else
    let '(r, x, s) := wfs_read_inode ino s in
    if ((r =? 0) && (0 <? isize x))%bool then
      let want := if TEXT_SIZE - 1 <? isize x then TEXT_SIZE - 1 else isize x in
      let '(got, text, s) := wfs_read ino 0 want s in
      if 0 <? got then parse_list (take (Z.to_nat got) text) t s else (t, s)
    else (t, s).

Definition user_init (env : entropy) s : table * fs D :=
  let t := Table (replicate (Z.to_nat W_MAX_USERS) no_entry) 1 in
  let '(t, s) := load_list t s in
  match find_by_uid W_ROOT_UID t with
  | Some _ => (t, s)
  | None =>
      let sl := make_salt env (next_uid t) in
      let e := Entry true (str "root") W_ROOT_UID 0 sl (hash_password sl (str "1234")) (shell (users t).[0]) in
      let t := with_user 0 e t in
      let '(_, s) := save_user_list t s in
      let '(_, s) := save_password e s in
      (t, s)
  end.

(** ** Queries *)

Definition user_by_name (n : list Z) (t : table) : Z * option wuser_t :=
  match find_by_name n t with None => (- W_ENOENT, None) | Some i => (0, Some (fill (users t).[i])) end.
Definition user_by_uid (u : Z) (t : table) : Z * option wuser_t :=
  match find_by_uid u t with None => (- W_ENOENT, None) | Some i => (0, Some (fill (users t).[i])) end.

Definition user_list (max : Z) (t : table) : list wuser_t :=
  take (Z.to_nat max) (fill <$> filter (fun e => used e = true) (users t)).

Definition user_has_role (u role : Z) (t : table) : bool :=
  if u =? W_ROOT_UID then true
  else match find_by_uid u t with None => false | Some i => negb (Z.land (roles (users t).[i]) role =? 0) end.

Definition user_authenticate (n password : list Z) (t : table) : Z * option wuser_t :=
  match find_by_name n t with
  | None => (- W_ENOENT, None)
  | Some i =>
      let e := (users t).[i] in
      if hash e =? 0 then (0, Some (fill e))
      else if negb (hash_equal (hash_password (salt e) password) (hash e)) then (- W_EACCES, None)
      else (0, Some (fill e))
  end.

(** ** Changes *)

Definition privileged (actor : Z) (t : table) : bool :=
  ((actor =? W_ROOT_UID) || user_has_role actor W_ROLE_USEREDITOR t)%bool.

Definition user_set_password (env : entropy) (actor : Z) (n old_password new_password : list Z) (t : table) s
    : Z * table * fs D :=
  match find_by_name n t with
  | None => (- W_ENOENT, t, s)
  | Some i =>
      let e := (users t).[i] in
      let refused :=
        if privileged actor t then 0
        else if negb (uid e =? actor) then - W_EPERM
        else if (negb (hash e =? 0) && negb (hash_equal (hash_password (salt e) old_password) (hash e)))%bool
             then - W_EACCES
        else 0 in
      if refused <? 0 then (refused, t, s)
      else
        let e := match new_password with
                 | [] => set_secret 0 0 e
                 | _ => let sl := make_salt env (next_uid t) in set_secret sl (hash_password sl new_password) e
                 end in
        let t := with_user i e t in
        let '(r, s) := save_password e s in
        (r, t, s)
  end.

Definition user_set_roles (actor : Z) (n : list Z) (rs : Z) (t : table) s : Z * table * fs D :=
  if negb (privileged actor t) then (- W_EPERM, t, s)
  else
    match find_by_name n t with
    | None => (- W_ENOENT, t, s)
    | Some i =>
        let e := (users t).[i] in
        if uid e =? W_ROOT_UID then (- W_EPERM, t, s)
        else
          let t := with_user i (Entry (used e) (name e) (uid e) rs (salt e) (hash e) (shell e)) t in
          let '(r, s) := save_user_list t s in
          (r, t, s)
    end.

Definition user_shell (u cap : Z) (t : table) : list Z :=
  strl cap match find_by_uid u t with
           | Some i => if bool_decide (shell (users t).[i] = []) then DEFAULT_SHELL else shell (users t).[i]
           | None => DEFAULT_SHELL
           end.

Definition user_set_shell (actor : Z) (n sh : list Z) (t : table) s : Z * table * fs D :=
  match find_by_name n t with
  | None => (- W_ENOENT, t, s)
  | Some i =>
      let e := (users t).[i] in
      if (negb (privileged actor t) && negb (uid e =? actor))%bool then (- W_EPERM, t, s)
      else if W_SHELL_MAX <? Zlen sh then (- W_ENAMETOOLONG, t, s)
      else
        let t := with_user i (Entry (used e) (name e) (uid e) (roles e) (salt e) (hash e)
                                (strl (W_SHELL_MAX + 1) sh)) t in
        let '(r, s) := save_user_list t s in
        (r, t, s)
  end.

Definition bad_name_char (c : Z) : bool := ((c =? slash) || (c =? colon) || (c =? newline) || (c =? 46))%bool.

Definition user_add (env : entropy) (actor : Z) (n password : list Z) (rs : Z) (t : table) s : Z * table * fs D :=
  if negb (privileged actor t) then (- W_EPERM, t, s)
  else if (bool_decide (n = []) || (W_NAME_LEN <? Zlen n))%bool then (- W_EINVAL, t, s)
  else if existsb bad_name_char n then (- W_EINVAL, t, s)
  else
    match find_by_name n t with
    | Some _ => (- W_EEXIST, t, s)
    | None =>
        match free_slot_from 0 (users t) with
        | None => (- W_ENOSPC, t, s)
        | Some slot =>
            let u := next_uid t in
            let t := Table (users t) (u32 (next_uid t + 1)) in
            let '(sl, h) := match password with
                            | [] => (0, 0)
                            | _ => let sl := make_salt env (next_uid t) in (sl, hash_password sl password)
                            end in
            let e := Entry true (strl (W_NAME_LEN + 1) n) u rs sl h [] in
            let t := with_user slot e t in
            let '(r, s) := save_user_list t s in
            let '(r, s) := if r =? 0 then save_password e s else (r, s) in
            if r <? 0 then
              let t := with_user slot (Entry false (name e) (uid e) (roles e) (salt e) (hash e) (shell e)) t in
              let '(_, s) := save_user_list t s in
              (r, t, s)
            else
              let home := append_str (W_PATH_MAX + 1) (append_str (W_PATH_MAX + 1) [] (str "/home/")) n in
              let '(_, s) := ensure_dir home s in
              (i32 (uid e), t, s)
        end
    end.

End user.

#[global] Instance table_db : UserDb table := {
  name_of u t := w_name <$> (user_by_uid u t).2;
  has_role := user_has_role;
}.

(** ** Numbers and text *)

Lemma digits_rev_spec fuel : forall v, 0 <= v < 10 ^ Z.of_nat fuel ->
  Forall (fun c => is_digit c = true) (digits_rev fuel v) /\
  fold_right (fun c a => a * 10 + (c - 48)) 0 (digits_rev fuel v) = v.
Proof.
  induction fuel as [| fuel IH]; intros v Hv; cbn [digits_rev].
  { simpl in *. split; [constructor | lia]. }
  destruct (Z.eqb_spec v 0) as [-> |]; [by split; [constructor |] |].
  rewrite Nat2Z.inj_succ, Z.pow_succ_r in Hv by lia.
  destruct (IH (v / 10)) as [Hd Hf]; [split; [zlia | apply Z.div_lt_upper_bound; lia] |].
  split.
  - constructor; [| done]. unfold is_digit. rewrite andb_true_iff, !Z.leb_le. zlia.
  - cbn [fold_right]. rewrite Hf. zlia.
Qed.

Lemma digits_rev_length fuel : forall v, Zlen (digits_rev fuel v) <= Z.of_nat fuel.
Proof.
  induction fuel as [| fuel IH]; intros v; cbn [digits_rev]; [done |].
  destruct (v =? 0); unfold Zlen in *; simpl length; [lia |]. specialize (IH (v / 10)). lia.
Qed.

(** Reading digits back, most significant first. *)
Lemma parse_digits_spec l : forall rest a,
  Forall (fun c => is_digit c = true) l -> (match rest with [] => True | c :: _ => is_digit c = false end) ->
  0 <= a -> fold_left (fun a c => a * 10 + (c - 48)) l a < 2 ^ 64 ->
  parse_digits a (l ++ rest) = (fold_left (fun a c => a * 10 + (c - 48)) l a, rest).
Proof.
  induction l as [| c l IH]; intros rest a Hl Hr Ha Hb; cbn [app fold_left parse_digits].
  { destruct rest as [| c rest]; [done |]. cbn [parse_digits]. by rewrite Hr. }
  inversion Hl as [| ? ? Hc Hl']; subst. rewrite Hc. unfold is_digit in Hc. bool_to_prop.
  assert (Hmono : a * 10 + (c - 48) <= fold_left (fun a c => a * 10 + (c - 48)) l (a * 10 + (c - 48))).
  { assert (Hnn : 0 <= a * 10 + (c - 48)) by lia. revert Hnn Hl'. generalize (a * 10 + (c - 48)). clear.
    induction l as [| d l IH]; intros z Hz Hl; cbn [fold_left]; [lia |]. inversion Hl as [| ? ? Hd ?]; subst.
    unfold is_digit in Hd. bool_to_prop. specialize (IH (z * 10 + (d - 48)) ltac:(lia) ltac:(done)). lia. }
  cbn [fold_left] in Hb. rewrite (u64_id (a * 10)), u64_id by lia. apply IH; try done. lia.
Qed.

Lemma digits_ok v : 0 <= v < 2 ^ 64 -> Forall (fun c => is_digit c = true) (digits v) /\
  fold_left (fun a c => a * 10 + (c - 48)) (digits v) 0 = v.
Proof.
  intros Hv. unfold digits. destruct (Z.eqb_spec v 0) as [-> |]; [split; [by repeat constructor | done] |].
  destruct (digits_rev_spec 20 v) as [Hd Hf]; [split; [lia |]; etrans; [apply Hv | done] |].
  split; [by apply Forall_reverse |]. rewrite <- fold_left_rev_right. unfold reverse. rewrite <- rev_alt, rev_involutive. done.
Qed.

Lemma parse_u64_digits v rest :
  0 <= v < 2 ^ 64 -> (match rest with [] => True | c :: _ => is_digit c = false end) ->
  parse_u64 (digits v ++ rest) = (v, rest).
Proof.
  intros Hv Hr. destruct (digits_ok v Hv) as [Hd Hf]. unfold parse_u64.
  rewrite parse_digits_spec; [by rewrite Hf | done | done | lia | lia].
Qed.

Lemma digits_u32_length v : 0 <= v < 2 ^ 32 -> Zlen (digits v) <= 10.
Proof.
  intros Hv. unfold digits. destruct (v =? 0); [done |]. unfold Zlen. rewrite length_reverse. fold (Zlen (digits_rev 20 v)).
  enough (H : forall k fuel v, 0 <= v < 10 ^ Z.of_nat k -> Zlen (digits_rev fuel v) <= Z.of_nat k) by (apply (H 10%nat); lia).
  clear. induction k as [| k IH]; intros fuel v Hv.
  - destruct fuel; cbn [digits_rev]; [done |]. rewrite (proj2 (Z.eqb_eq v 0)) by (simpl in Hv; lia). done.
  - rewrite Nat2Z.inj_succ, Z.pow_succ_r in Hv by lia. destruct fuel; cbn [digits_rev]; [unfold Zlen; simpl; lia |].
    destruct (v =? 0); [unfold Zlen; simpl; lia |].
    specialize (IH fuel (v / 10) ltac:(split; [zlia | apply Z.div_lt_upper_bound; lia])). unfold Zlen in *. simpl length. lia.
Qed.

Lemma digits_length v : Zlen (digits v) <= 20.
Proof.
  unfold digits. destruct (v =? 0); [done |]. unfold Zlen. rewrite length_reverse. apply (digits_rev_length 20).
Qed.

Local Opaque digits.

Lemma Zlen_one (c : Z) : Zlen [c] = 1.
Proof. done. Qed.

Lemma append_str_fits cap buf s : Zlen buf + Zlen s < cap -> append_str cap buf s = buf ++ s.
Proof. intros. unfold append_str. f_equal. apply take_ge. unfold Zlen in *. lia. Qed.

(** ** Lines *)

Definition name_char (c : Z) : Prop := 0 < c /\ c <> colon /\ c <> newline.

(** What the C types and [table_ok] below say of an account: nothing keeps a
    newline out of a shell. *)
Record entry_ok (e : user_entry_t) : Prop := {
  eo_name : name e <> [] /\ Zlen (name e) <= W_NAME_LEN /\ Forall name_char (name e);
  eo_uid : 0 <= uid e < 2 ^ 32;
  eo_roles : 0 <= roles e < 2 ^ 32;
  eo_shell : Zlen (shell e) <= W_SHELL_MAX /\ no_nul (shell e);
}.

Definition line_of (e : user_entry_t) : list Z :=
  name e ++ [colon] ++ digits (uid e) ++ [colon] ++ digits (roles e) ++
  (if bool_decide (shell e <> []) then colon :: shell e else []).

Lemma line_length e : entry_ok e -> Zlen (line_of e) <= 117.
Proof.
  intros [(_ & Hn & _) Hu Hr (Hs & _)]. unfold line_of. rewrite !Zlen_app. change (Zlen [colon]) with 1.
  pose proof (digits_u32_length _ Hu). pose proof (digits_u32_length _ Hr). unfold W_NAME_LEN, W_SHELL_MAX in *.
  case_bool_decide; unfold Zlen in *; simpl length; lia.
Qed.

Lemma user_line_spec text e :
  entry_ok e -> used e = true -> Zlen text + 118 < TEXT_SIZE -> user_line text e = text ++ line_of e ++ [newline].
Proof.
  intros Hok Hu Hl. pose proof (line_length e Hok) as Hll. unfold line_of in Hll. rewrite !Zlen_app in Hll.
  rewrite !Zlen_one in Hll. unfold user_line, line_of, append_u64. rewrite Hu. cbn [negb]. cbv zeta.
  pose proof (Zlen_nonneg (name e)). pose proof (Zlen_nonneg (digits (uid e))). pose proof (Zlen_nonneg (digits (roles e))).
  assert (Hsh : 0 <= Zlen (if bool_decide (shell e <> []) then colon :: shell e else [])) by apply Zlen_nonneg.
  rewrite (append_str_fits _ text) by lia.
  rewrite (append_str_fits TEXT_SIZE ((text ++ name e) ++ [colon]) (digits (uid e))) by (rewrite !Zlen_app, !Zlen_one; lia).
  rewrite (append_str_fits TEXT_SIZE ((((text ++ name e) ++ [colon]) ++ digits (uid e)) ++ [colon]) (digits (roles e))) by (rewrite !Zlen_app, !Zlen_one; lia).
  revert Hll. case_bool_decide; intros Hll.
  - rewrite append_str_fits; [by rewrite <- !app_assoc |].
    assert (Ec : Zlen (colon :: shell e) = Zlen (shell e) + 1) by (unfold Zlen; simpl length; lia).
    rewrite !Zlen_app, !Zlen_one. lia.
  - rewrite app_nil_r. by rewrite <- !app_assoc.
Qed.

Definition stored (l : list user_entry_t) : list user_entry_t := filter (fun e => used e = true) l.

Lemma user_text_from l : forall text,
  Forall (fun e => used e = true -> entry_ok e) l -> Zlen text + 118 * Zlen l < TEXT_SIZE ->
  fold_left user_line l text = text ++ mjoin ((fun e => line_of e ++ [newline]) <$> stored l).
Proof.
  induction l as [| e l IH]; intros text Hok Hl; cbn [fold_left]; [by rewrite app_nil_r |].
  inversion Hok as [| ? ? He Hok']; subst. unfold stored. rewrite filter_cons. fold (stored l).
  assert (El : Zlen (e :: l) = Zlen l + 1) by (unfold Zlen; simpl length; lia). rewrite El in Hl.
  pose proof (Zlen_nonneg l). case_decide as Hu.
  - rewrite user_line_spec; [| by apply He | done | lia]. pose proof (line_length e (He Hu)).
    rewrite IH; [| done | rewrite !Zlen_app; change (Zlen [newline]) with 1; lia].
    change (mjoin ((fun e => line_of e ++ [newline]) <$> e :: stored l)) with
      ((line_of e ++ [newline]) ++ mjoin ((fun e => line_of e ++ [newline]) <$> stored l)).
    by rewrite <- !app_assoc.
  - unfold user_line. destruct (used e); [done |]. cbn [negb]. apply IH; [done | lia].
Qed.

(** *** Reading them back *)

Lemma take_until_stop n stop l rest :
  (length l <= n)%nat -> Forall (fun c => stop c = false) l ->
  (match rest with [] => True | c :: _ => stop c = true end) -> take_until n stop (l ++ rest) = (l, rest).
Proof.
  revert n. induction l as [| c l IH]; intros n Hn Hl Hr; cbn [app].
  - destruct n, rest as [| c rest]; cbn [take_until]; try done. by rewrite Hr.
  - destruct n as [| n]; simpl in Hn; [lia |]. inversion Hl; subst. cbn [take_until].
    match goal with H : stop c = false |- _ => rewrite H end. by rewrite IH by (done || lia).
Qed.

(** A shell as the list has it: its first line, and the others. *)
Definition first_line (sh : list Z) : list Z := default [] (head (text_lines [] sh)).
Definition more_lines (sh : list Z) : list (list Z) := tail (text_lines [] sh).

(** An account and the beginning of its line. *)
Definition account (sh : list Z) (e : user_entry_t) : user_entry_t := Entry true (name e) (uid e) (roles e) 0 0 sh.
Definition line_head (e : user_entry_t) : list Z := name e ++ [colon] ++ digits (uid e) ++ [colon] ++ digits (roles e).

Lemma parse_fields_line e sh :
  entry_ok e -> Zlen sh <= W_SHELL_MAX -> newline ∉ sh ->
  parse_fields (line_head e ++ colon :: sh) = Some (account sh e) /\ parse_fields (line_head e) = Some (account [] e).
Proof.
  intros [(Hne & Hn & Hc) Hu Hr _] Hs Hsc.
  assert (H : forall tl, (match tl with [] => True | c :: _ => is_digit c = false end) ->
    parse_fields (line_head e ++ tl) = Some (Entry true (name e) (uid e) (roles e) 0 0
      match tl with c :: line => if c =? colon then (take_until (Z.to_nat W_SHELL_MAX) (fun c => c =? newline) line).1 else [] | [] => [] end)).
  { intros tl Htl. unfold parse_fields, line_head, W_NAME_LEN in *. rewrite <- !app_assoc.
    rewrite take_until_stop; [| unfold Zlen in Hn; lia | | done].
    2: { eapply Forall_impl; [exact Hc |]. intros c (_ & ? & _). by apply Z.eqb_neq. }
    cbn [app]. rewrite Z.eqb_refl. cbn [negb orb]. rewrite (proj2 (Z.eqb_neq (Zlen (name e)) 0)).
    2: { unfold Zlen. destruct (name e); [done | simpl; lia]. }
    rewrite parse_u64_digits by (done || lia). rewrite Z.eqb_refl. cbn [negb].
    rewrite parse_u64_digits by (done || lia). by rewrite !u32_id by lia. }
  split; [| pose proof (H [] I) as H0; by rewrite app_nil_r in H0]. rewrite H by done. rewrite Z.eqb_refl.
  rewrite <- (app_nil_r sh) at 1. unfold W_SHELL_MAX in *. rewrite take_until_stop; [done | unfold Zlen in Hs; lia | | done].
  apply Forall_forall. intros c Hin. apply Z.eqb_neq. intros ->. done.
Qed.

Lemma text_lines_app l : forall line text, text_lines line (l ++ newline :: text) = text_lines line l ++ text_lines [] text.
Proof.
  induction l as [| c l IH]; intros line text; cbn [app text_lines]; [done |].
  destruct ((c =? newline) || (c =? 0))%bool; rewrite IH; done.
Qed.

(** Bytes that end no line. *)
Lemma text_lines_plain l : forall line text,
  Forall (fun c => 0 < c /\ c <> newline) l -> text_lines line (l ++ text) = text_lines (line ++ l) text.
Proof.
  induction l as [| c l IH]; intros line text Hl; cbn [app text_lines]; [by rewrite app_nil_r |].
  inversion Hl as [| ? ? [H0 Hn] Hl']; subst. rewrite (proj2 (Z.eqb_neq c newline)), (proj2 (Z.eqb_neq c 0)) by lia.
  cbn [orb]. rewrite IH by done. by rewrite <- app_assoc.
Qed.

Lemma text_lines_start text : forall line,
  text_lines line text = (line ++ first_line text) :: more_lines text.
Proof.
  unfold first_line, more_lines. assert (H : forall line, exists f m, forall pre, text_lines (pre ++ line) text = (pre ++ f) :: m).
  { induction text as [| c text IH]; intros line; cbn [text_lines]; [by exists line, [] |].
    destruct ((c =? newline) || (c =? 0))%bool; [by exists line, (text_lines [] text) |].
    destruct (IH (line ++ [c])) as (f & m & Hf). exists f, m. intros pre. by rewrite <- app_assoc. }
  intros line. destruct (H []) as (f & m & Hf). pose proof (Hf line) as H1. pose proof (Hf []) as H2. cbn [app] in H2.
  rewrite app_nil_r in H1. by rewrite H1, H2.
Qed.

Lemma first_line_spec sh : newline ∉ first_line sh /\ Zlen (first_line sh) <= Zlen sh.
Proof.
  unfold first_line. assert (H : forall line, newline ∉ line ->
    newline ∉ default [] (head (text_lines line sh)) /\ Zlen (default [] (head (text_lines line sh))) <= Zlen line + Zlen sh).
  { induction sh as [| c sh IH]; intros line Hl; cbn [text_lines]; [cbn; split; [done | change (Zlen []) with 0; lia] |].
    assert (Ec : Zlen (c :: sh) = Zlen sh + 1) by (unfold Zlen; simpl length; lia). pose proof (Zlen_nonneg sh).
    destruct (Z.eqb_spec c newline); cbn [orb]; [cbn; split; [done | lia] |]. destruct (c =? 0); [cbn; split; [done | lia] |].
    destruct (IH (line ++ [c])) as [H1 H2]; [rewrite elem_of_app, list_elem_of_singleton; intros [? | ?]; [done | congruence] |].
    split; [done |]. rewrite Zlen_app, Zlen_one in H2. lia. }
  destruct (H []) as [H1 H2]; [by apply not_elem_of_nil |]. split; [done |]. exact H2.
Qed.

Lemma plain_shell sh : no_nul sh -> newline ∉ sh -> first_line sh = sh /\ more_lines sh = [].
Proof.
  intros Hz Hn. unfold first_line, more_lines. rewrite <- (app_nil_r sh) at 1 3. rewrite text_lines_plain; [done |].
  apply Forall_forall. intros c Hc. split; [by apply (proj1 (Forall_forall _ _) Hz) | intros ->; done].
Qed.

Lemma digit_ok v : 0 <= v < 2 ^ 32 -> Forall (fun c => 0 < c /\ c <> newline) (digits v).
Proof.
  intros Hv. destruct (digits_ok v ltac:(lia)) as [Hd _]. eapply Forall_impl; [exact Hd |].
  intros c Hc. unfold is_digit in Hc. bool_to_prop. unfold newline. lia.
Qed.

Lemma head_chars e : entry_ok e -> Forall (fun c => 0 < c /\ c <> newline) (line_head e).
Proof.
  intros [(_ & _ & Hc) Hu Hr _]. unfold line_head. rewrite !Forall_app. split_and!.
  - eapply Forall_impl; [exact Hc |]. intros c (? & _ & ?). done.
  - by repeat constructor.
  - by apply digit_ok.
  - by repeat constructor.
  - by apply digit_ok.
Qed.

(** What [user_init] takes from a text: the accounts of its lines, [None] for a
    line that is none. *)
Definition parsed (lines : list (list Z)) : list (option user_entry_t) :=
  parse_fields <$> filter (fun line => line <> []) lines.
Definition reading (text : list Z) : list (option user_entry_t) := parsed (text_lines [] text).

Lemma parsed_app a b : parsed (a ++ b) = parsed a ++ parsed b.
Proof. unfold parsed. by rewrite filter_app, fmap_app. Qed.

(** The lines of one account. *)
Lemma reading_line e :
  entry_ok e -> parsed (text_lines [] (line_of e)) = Some (account (first_line (shell e)) e) :: parsed (more_lines (shell e)).
Proof.
  intros He. pose proof (eo_shell _ He) as [Hs _]. destruct (first_line_spec (shell e)) as [Hf Hl].
  destruct (parse_fields_line e (first_line (shell e)) He ltac:(lia) Hf) as [P1 P2].
  assert (Hne : forall tl, line_head e ++ tl <> []) by (intros tl; unfold line_head; destruct (eo_name _ He) as (Hn & _); by destruct (name e)).
  replace (line_of e) with (line_head e ++ if bool_decide (shell e <> []) then colon :: shell e else [])
    by (unfold line_of, line_head; by rewrite <- !app_assoc).
  rewrite text_lines_plain by (by apply head_chars). cbn [app]. case_bool_decide as Hsh.
  - change (text_lines (line_head e) (colon :: shell e)) with (text_lines (line_head e ++ [colon]) (shell e)).
    rewrite text_lines_start. unfold parsed. rewrite filter_cons_True by (rewrite <- app_assoc; apply Hne).
    rewrite fmap_cons. f_equal. by rewrite <- app_assoc.
  - assert (E : shell e = []) by (destruct (shell e); [done | by destruct Hsh]). rewrite E. cbn [text_lines].
    unfold parsed. rewrite filter_cons_True by (rewrite <- (app_nil_r (line_head e)); apply Hne). by rewrite fmap_cons, P2.
Qed.

Lemma reading_lines l : Forall entry_ok l ->
  reading (mjoin ((fun e => line_of e ++ [newline]) <$> l)) =
  l ≫= (fun e => Some (account (first_line (shell e)) e) :: parsed (more_lines (shell e))).
Proof.
  unfold reading. induction 1 as [| e l He _ IH]; [done |].
  change (mjoin ((fun e => line_of e ++ [newline]) <$> e :: l)) with
    ((line_of e ++ [newline]) ++ mjoin ((fun e => line_of e ++ [newline]) <$> l)).
  rewrite <- app_assoc. cbn [app]. rewrite text_lines_app, parsed_app, IH, reading_line by done. done.
Qed.

(** The text of a table fits its buffer and is read back line by line. *)
Lemma user_text_reading l :
  Zlen l <= W_MAX_USERS -> Forall (fun e => used e = true -> entry_ok e) l ->
  Zlen (user_text l) < TEXT_SIZE /\
  reading (user_text l) = stored l ≫= (fun e => Some (account (first_line (shell e)) e) :: parsed (more_lines (shell e))).
Proof.
  intros Hl Hok.
  assert (Ht : user_text l = mjoin ((fun e => line_of e ++ [newline]) <$> stored l)).
  { apply user_text_from; [done |]. unfold TEXT_SIZE, W_MAX_USERS in *. change (Zlen []) with 0. lia. }
  assert (Hst : Forall entry_ok (stored l)).
  { apply Forall_forall. intros x Hx. unfold stored in Hx. apply list_elem_of_filter in Hx as [Hu Hx].
    by apply (proj1 (Forall_forall _ _) Hok). }
  rewrite Ht. split; [| by apply reading_lines].
  assert (Hb : Zlen (mjoin ((fun e => line_of e ++ [newline]) <$> stored l)) <= 118 * Zlen (stored l)).
  { clear -Hst. induction Hst as [| x k Hx _ IH]; [done |].
    change (mjoin ((fun e => line_of e ++ [newline]) <$> x :: k)) with
      ((line_of x ++ [newline]) ++ mjoin ((fun e => line_of e ++ [newline]) <$> k)).
    rewrite !Zlen_app. change (Zlen [newline]) with 1. pose proof (line_length x Hx).
    unfold Zlen in *. simpl length. lia. }
  pose proof (length_filter (fun e => used e = true) l) as Hf. fold (stored l) in Hf.
  unfold TEXT_SIZE, W_MAX_USERS in *. unfold Zlen in *. lia.
Qed.

Lemma password_roundtrip e :
  0 <= salt e < 2 ^ 64 -> 0 <= hash e < 2 ^ 64 -> parse_password (password_text e) = (salt e, hash e).
Proof.
  intros Hs Hh. unfold password_text, append_u64, parse_password.
  pose proof (digits_length (salt e)). pose proof (digits_length (hash e)).
  rewrite (append_str_fits _ []) by (change (Zlen []) with 0; lia).
  rewrite append_str_fits by (rewrite !Zlen_app; change (Zlen [colon]) with 1; change (Zlen []) with 0; lia).
  cbn [app]. rewrite <- !app_assoc. cbn [app]. rewrite parse_u64_digits by done. rewrite Z.eqb_refl.
  by rewrite parse_u64_digits.
Qed.

(** C38: what becomes of the account list over a reboot.  The text
    [save_user_list] writes for a table of up to [W_MAX_USERS] accounts never
    reaches the end of its buffer, whatever their shells are.  [user_init]'s
    reading of it, line by line, gives back each account in use, in order, with
    its name, uid and roles and the first line of its shell, and behind it
    whatever the further lines of that shell say: nothing in [user_set_shell]
    keeps a newline out of a shell, and an account can be smuggled in that way
    ([shell_makes_a_root]).  Where no shell holds a newline, the reading is
    exactly the accounts in use with their shells.  A password file gives back
    its salt and hash.  ([entry_ok] is what the types and C40 say of an account;
    it leaves the shell free.) *)
Theorem user_list_roundtrip (l : list user_entry_t) (e : user_entry_t) :
  Zlen l <= W_MAX_USERS -> Forall (fun e => used e = true -> entry_ok e) l ->
  0 <= salt e < 2 ^ 64 -> 0 <= hash e < 2 ^ 64 ->
  Zlen (user_text l) < TEXT_SIZE /\
  reading (user_text l) = stored l ≫= (fun e => Some (account (first_line (shell e)) e) :: parsed (more_lines (shell e))) /\
  (Forall (fun e => newline ∉ shell e) (stored l) ->
   reading (user_text l) = (fun e => Some (account (shell e) e)) <$> stored l) /\
  parse_password (password_text e) = (salt e, hash e).
Proof.
  intros Hl Hok Hs Hh. destruct (user_text_reading l Hl Hok) as [H1 H2].
  split; [done |]. split; [done |]. split; [| by apply password_roundtrip].
  rewrite H2. clear H1 H2 Hl Hs Hh. induction Hok as [| x k Hx _ IH]; [done |]. unfold stored. rewrite filter_cons. fold (stored k).
  case_decide as Hu; [| exact IH]. intros [Hn Hk]%Forall_cons. rewrite fmap_cons, <- IH by done.
  destruct (plain_shell (shell x)) as [E1 E2]; [apply (eo_shell _ (Hx Hu)) | done |].
  change ((x :: stored k) ≫= ?f) with (f x ++ (stored k ≫= f)). cbn beta. by rewrite E1, E2.
Qed.

(** Two accounts of a list. *)
Definition sample_users : list user_entry_t :=
  [Entry true (str "root") 0 0 5 6 []; no_entry; Entry true (str "bob") 1 9 7 8 (str "/app/fish/launch")].

Lemma sample_users_ok : Forall (fun e => used e = true -> entry_ok e) sample_users.
Proof.
  constructor; [| constructor; [| constructor; [| constructor]]]; intros Hu; [| discriminate Hu |]; clear Hu.
  all: split; [split; [discriminate | split; [vm_compute; congruence |]] | simpl; lia | simpl; lia | split; [vm_compute; congruence |]].
  all: repeat constructor; vm_compute; congruence.
Qed.

Lemma user_list_roundtrip_witness :
  Zlen (user_text sample_users) < TEXT_SIZE /\
  reading (user_text sample_users) = (fun e => Some (account (shell e) e)) <$> stored sample_users /\
  parse_password (password_text sample_users.[0]) = (5, 6).
Proof.
  destruct (user_list_roundtrip sample_users sample_users.[0] ltac:(vm_compute; congruence) sample_users_ok
    ltac:(simpl; lia) ltac:(simpl; lia)) as (H1 & _ & H3 & H4).
  split; [exact H1 |]. split; [apply H3 | exact H4]. refine (bool_decide_unpack _ _). vm_compute. exact I.
Defined.

(** A shell may hold a newline, and what comes after it is read as an account
    of its own at the next start: bob, who holds no role, sets his shell and
    has made a root. *)
Example shell_makes_a_root :
  let t := Table (Entry true (str "root") 0 0 5 6 [] :: Entry true (str "bob") 1 0 7 8 [] :: replicate 30 no_entry) 2 in
  let sh := str "x" ++ [newline] ++ str "r00t:0:0" in
  privileged 1 t = false /\
  forall (s : fs Ramdisk.ramdisk), let '(_, t', _) := user_set_shell 1 (str "bob") sh t s in
  reading (user_text (users t')) =
    [Some (Entry true (str "root") 0 0 0 0 []); Some (Entry true (str "bob") 1 0 0 0 (str "x"));
     Some (Entry true (str "r00t") 0 0 0 0 [])].
Proof.
  split; [vm_compute; reflexivity |]. intros s. unfold user_set_shell.
  set (i := find_by_name _ _). assert (Ei : i = Some 1) by (vm_compute; reflexivity). rewrite Ei.
  match goal with |- context [if ?b then (- W_EPERM, _, _) else _] => assert (Eb : b = false) by (vm_compute; reflexivity); rewrite Eb end.
  match goal with |- context [if ?b then (- W_ENAMETOOLONG, _, _) else _] => assert (Ec : b = false) by (vm_compute; reflexivity); rewrite Ec end.
  destruct (save_user_list _ _). vm_compute. reflexivity.
Qed.

(** ** Who may change what *)

Inductive op :=
| SetPassword (n old_password new_password : list Z)
| SetRoles (n : list Z) (rs : Z)
| SetShell (n sh : list Z)
| Add (n password : list Z) (rs : Z).

Section changes.
Context {D : Type} `{BlockDevice D}.
Implicit Types s : fs D.

Definition run (env : entropy) (actor : Z) (o : op) (t : table) s : Z * table * fs D :=
  match o with
  | SetPassword n p q => user_set_password env actor n p q t s
  | SetRoles n rs => user_set_roles actor n rs t s
  | SetShell n sh => user_set_shell actor n sh t s
  | Add n p rs => user_add env actor n p rs t s
  end.

Lemma find_from_spec p l : forall i k, find_from p i l = Some k ->
  i <= k < i + Zlen l /\ used l.[k - i] = true /\ p l.[k - i] = true.
Proof.
  induction l as [| e l IH]; intros i k; cbn [find_from]; [done |].
  assert (El : Zlen (e :: l) = Zlen l + 1) by (unfold Zlen; simpl length; lia). pose proof (Zlen_nonneg l).
  destruct (used e && p e)%bool eqn:E.
  - intros [= <-]. apply andb_prop in E as [E1 E2]. replace (i - i) with 0 by lia. split_and!; done || lia.
  - intros Hk%IH. replace (Z.to_nat (k - i)) with (S (Z.to_nat (k - (i + 1)))) by lia.
    destruct Hk as (? & ? & ?). split_and!; done || lia.
Qed.

Lemma find_from_none p l : forall i, find_from p i l = None ->
  forall j, 0 <= j < Zlen l -> used l.[j] = true -> p l.[j] = false.
Proof.
  induction l as [| e l IH]; intros i Hf j Hj Hu; [unfold Zlen in Hj; simpl in Hj; lia |]. cbn [find_from] in Hf.
  assert (El : Zlen (e :: l) = Zlen l + 1) by (unfold Zlen; simpl length; lia).
  destruct (used e && p e)%bool eqn:E; [done |]. destruct (decide (j = 0)) as [-> |].
  - change ((e :: l).[0]) with e in *. rewrite Hu in E. done.
  - replace (Z.to_nat j) with (S (Z.to_nat (j - 1))) in * by lia. apply (IH _ Hf (j - 1)); [lia | done].
Qed.

Lemma free_slot_spec l : forall i k, free_slot_from i l = Some k -> i <= k < i + Zlen l /\ used l.[k - i] = false.
Proof.
  induction l as [| e l IH]; intros i k; cbn [free_slot_from]; [done |].
  assert (El : Zlen (e :: l) = Zlen l + 1) by (unfold Zlen; simpl length; lia). pose proof (Zlen_nonneg l).
  destruct (used e) eqn:E; cbn [negb].
  - intros Hk%IH. replace (Z.to_nat (k - i)) with (S (Z.to_nat (k - (i + 1)))) by lia.
    destruct Hk as (? & ?). split; done || lia.
  - intros [= <-]. replace (i - i) with 0 by lia. split; done || lia.
Qed.

Lemma by_name_range n t i : find_by_name n t = Some i -> 0 <= i < Zlen (users t) /\ used (users t).[i] = true.
Proof. intros Hf%find_from_spec. rewrite Z.sub_0_r in Hf. destruct Hf as (? & ? & _). split; done || lia. Qed.

(** The account in slot [j] is the same person with the same rights. *)
Definition same_person (e e' : user_entry_t) : Prop :=
  used e' = used e /\ name e' = name e /\ uid e' = uid e /\ roles e' = roles e.

Lemma with_user_get i e t j :
  0 <= i < Zlen (users t) -> 0 <= j -> (users (with_user i e t)).[j] = if decide (j = i) then e else (users t).[j].
Proof.
  intros Hi Hj. cbn [with_user users]. case_decide as E; [rewrite E; by apply get_upd_eq | by apply get_upd_ne; lia].
Qed.

(** The accounts a text lists, without their shells. *)
Definition person (e : user_entry_t) : list Z * Z * Z := (name e, uid e, roles e).
Definition listed (text : list Z) : list (option (list Z * Z * Z)) := (fun o => option_map person o) <$> reading text.

(** Rights and shells of a table replaced: as they were, or with a shell of one
    line. *)
Definition tamer (e e' : user_entry_t) : Prop :=
  same_person e e' /\ (shell e' = shell e \/ no_nul (shell e') /\ newline ∉ shell e' /\ Zlen (shell e') <= W_SHELL_MAX).

Lemma tamer_ok e e' : tamer e e' -> (used e = true -> entry_ok e) -> used e' = true -> entry_ok e'.
Proof.
  intros [(Eu & En & Ei & Er) Hs] He Hu. destruct (He ltac:(congruence)) as [H1 H2 H3 H4]. split; rewrite ?En, ?Ei, ?Er; try done.
  destruct Hs as [-> | (? & _ & ?)]; done.
Qed.

(** Such a change adds no account to the text. *)
Lemma tamer_listed l l' :
  Forall2 tamer l l' -> Zlen l <= W_MAX_USERS -> Forall (fun e => used e = true -> entry_ok e) l ->
  listed (user_text l') `sublist_of` listed (user_text l).
Proof.
  intros Ht Hl Hok.
  assert (Hok' : Forall (fun e => used e = true -> entry_ok e) l').
  { clear Hl. induction Ht as [| e e' l l' He Ht IH]; [constructor |]. apply Forall_cons in Hok as [H1 H2].
    constructor; [intros Hu; by apply (tamer_ok e) | by apply IH]. }
  assert (Hl' : Zlen l' <= W_MAX_USERS) by (unfold Zlen in *; by rewrite <- (Forall2_length _ _ _ Ht)).
  destruct (user_text_reading l Hl Hok) as [_ E]. destruct (user_text_reading l' Hl' Hok') as [_ E'].
  unfold listed. rewrite E, E'. clear E E' Hl Hl' Hok Hok'.
  induction Ht as [| e e' l l' [(Eu & En & Ei & Er) Hs] Ht IH]; [constructor |]. unfold stored. rewrite !filter_cons. fold (stored l) (stored l').
  rewrite Eu. case_decide; [| exact IH].
  change ((?x :: ?k) ≫= ?f) with (f x ++ (k ≫= f)). cbn beta. rewrite !fmap_app. apply sublist_app; [| exact IH].
  rewrite !fmap_cons. unfold account, person at 1 3. cbn [option_map name uid roles]. rewrite En, Ei, Er.
  apply sublist_skip. destruct Hs as [-> | (Hz & Hn & _)]; [done |]. destruct (plain_shell _ Hz Hn) as [_ ->]. apply sublist_nil_l.
Qed.

(** What an operation of an actor without privilege does to the table: its own
    account, and of that the secret or the shell. *)
Definition own_change (actor : Z) (o : op) (t t' : table) : Prop :=
  next_uid t' = next_uid t /\ Zlen (users t') = Zlen (users t) /\
  forall j, 0 <= j < Zlen (users t) ->
  let e := (users t).[j] in let e' := (users t').[j] in
  same_person e e' /\ (uid e <> actor -> e' = e) /\
  (hash e' <> hash e -> exists n p q, o = SetPassword n p q /\
     (hash e = 0 \/ hash_equal (hash_password (salt e) p) (hash e) = true)) /\
  (shell e' <> shell e -> exists n sh, o = SetShell n sh /\ shell e' = sh /\ Zlen sh <= W_SHELL_MAX).

Lemma own_change_refl actor o t : own_change actor o t t.
Proof. done. Qed.

Lemma own_change_with actor o t i e' :
  0 <= i < Zlen (users t) -> uid (users t).[i] = actor -> same_person (users t).[i] e' ->
  (hash e' <> hash (users t).[i] -> exists n p q, o = SetPassword n p q /\
     (hash (users t).[i] = 0 \/ hash_equal (hash_password (salt (users t).[i]) p) (hash (users t).[i]) = true)) ->
  (shell e' <> shell (users t).[i] -> exists n sh, o = SetShell n sh /\ shell e' = sh /\ Zlen sh <= W_SHELL_MAX) ->
  own_change actor o t (with_user i e' t).
Proof.
  intros Hi Ha Hp Hh Hs. split; [done |]. split; [apply Zlen_upd |]. intros j Hj. cbv zeta. rewrite with_user_get by lia.
  case_decide as E; [subst j | done]. done.
Qed.

Lemma own_change_tamer actor o t t' :
  own_change actor o t t' -> (forall n sh, o = SetShell n sh -> no_nul sh /\ newline ∉ sh) -> Forall2 tamer (users t) (users t').
Proof.
  intros (_ & Hl & Hj) Ho. apply Forall2_same_length_lookup. unfold Zlen in *. split; [lia |]. intros k e e' Hk Hk'.
  destruct (Hj (Z.of_nat k)) as (Hp & _ & _ & Hs); [apply lookup_lt_Some in Hk; lia |]. rewrite Nat2Z.id in Hp, Hs.
  rewrite (list_lookup_total_correct _ _ _ Hk), (list_lookup_total_correct _ _ _ Hk') in Hp, Hs. split; [done |].
  destruct (decide (shell e' = shell e)) as [| Hne]; [by left | right]. destruct (Hs Hne) as (n & sh & -> & -> & ?).
  by destruct (Ho n sh eq_refl).
Qed.

(** C39: without privilege one can only touch oneself.  An actor that is neither
    root nor a usereditor cannot, with any of the four calls, create or remove an
    account of the table, change a name, a uid or the roles of any account, or
    change anything at all of an account with another uid; its own password
    changes only if it gave the old one or had none, and its shell only to the
    one it gave.  On the volume the calls write nothing but the actor's own
    password file or the list of the accounts, as the text of the new table.  If
    the shell that was given holds no newline, that text lists no account that
    the text of the old table did not list, with the same name, uid and roles;
    with a newline it may ([shell_makes_a_root]). *)
Theorem unprivileged_changes (env : entropy) (actor r : Z) (o : op) (t t' : table) s s' :
  privileged actor t = false -> run env actor o t s = (r, t', s') ->
  own_change actor o t t' /\
  (s' = s \/
   (exists j, 0 <= j < Zlen (users t) /\ uid (users t').[j] = actor /\ s' = (save_password (users t').[j] s).2) \/
   s' = (save_user_list t' s).2) /\
  (Zlen (users t) <= W_MAX_USERS -> Forall (fun e => used e = true -> entry_ok e) (users t) ->
   (forall n sh, o = SetShell n sh -> no_nul sh /\ newline ∉ sh) ->
   listed (user_text (users t')) `sublist_of` listed (user_text (users t))).
Proof.
  intros Hp Hrun.
  assert (Hsame : forall r0 : Z, (r0, t, s) = (r, t', s') -> own_change actor o t t' /\ (s' = s \/
   (exists j, 0 <= j < Zlen (users t) /\ uid (users t').[j] = actor /\ s' = (save_password (users t').[j] s).2) \/
   s' = (save_user_list t' s).2)) by (intros r0 [= _ <- <-]; split; [apply own_change_refl | by left]).
  enough (Hgoal : own_change actor o t t' /\ (s' = s \/
   (exists j, 0 <= j < Zlen (users t) /\ uid (users t').[j] = actor /\ s' = (save_password (users t').[j] s).2) \/
   s' = (save_user_list t' s).2)).
  { destruct Hgoal as [Hc Hs]. split; [done |]. split; [done |]. intros Hl Hok Ho.
    apply tamer_listed; [by apply (own_change_tamer actor o) | done | done]. }
  destruct o as [n p q | n rs | n sh | n p rs]; cbn [run] in Hrun.
  - unfold user_set_password in Hrun. destruct (find_by_name n t) as [i |] eqn:Ei; [| by apply Hsame in Hrun].
    destruct (by_name_range _ _ _ Ei) as [Hi _]. rewrite Hp in Hrun. set (e := (users t).[i]) in *.
    destruct (Z.eqb_spec (uid e) actor) as [Ea |]; cbn [negb] in Hrun; [| by apply Hsame in Hrun].
    destruct (negb (hash e =? 0) && negb (hash_equal (hash_password (salt e) p) (hash e)))%bool eqn:Eh; [by apply Hsame in Hrun |].
    cbn [Z.ltb Z.compare] in Hrun. set (e1 := match q with [] => _ | _ => _ end) in Hrun.
    assert (He1 : same_person e e1 /\ shell e1 = shell e /\ uid e1 = actor) by (unfold e1; by destruct q).
    destruct He1 as (He1 & Hs1 & Hu1). destruct (save_password e1 s) as [r1 s1] eqn:Es. injection Hrun as <- <- <-.
    split; [apply own_change_with; try done |].
    + fold e. intros _. exists n, p, q. split; [done |]. apply andb_false_iff in Eh as [Eh | Eh]; bool_to_prop; tauto.
    + right; left. exists i. rewrite with_user_get, decide_True by (done || lia). by rewrite Es.
  - unfold user_set_roles in Hrun. rewrite Hp in Hrun. cbn [negb] in Hrun. by apply Hsame in Hrun.
  - unfold user_set_shell in Hrun. destruct (find_by_name n t) as [i |] eqn:Ei; [| by apply Hsame in Hrun].
    destruct (by_name_range _ _ _ Ei) as [Hi _]. rewrite Hp in Hrun. set (e := (users t).[i]) in *. cbn [negb andb] in Hrun.
    destruct (Z.eqb_spec (uid e) actor) as [Ea |]; cbn [negb] in Hrun; [| by apply Hsame in Hrun].
    destruct (Z.ltb_spec W_SHELL_MAX (Zlen sh)) as [| Hsh]; [by apply Hsame in Hrun |].
    destruct (save_user_list _ s) as [r1 s1] eqn:Es. injection Hrun as <- <- <-.
    split; [apply own_change_with; try done |].
    + intros _. exists n, sh. split; [done |]. split; [cbn [shell]; by apply strl_all; unfold W_SHELL_MAX in *; lia | done].
    + right; right. by rewrite Es.
  - unfold user_add in Hrun. rewrite Hp in Hrun. cbn [negb] in Hrun. by apply Hsame in Hrun.
Qed.

(** ** The table stays in order *)

Definition path_char (c : Z) : Prop := 0 < c /\ c <> slash /\ c <> colon /\ c <> newline /\ c <> 46.

Definition name_ok (n : list Z) : Prop := n <> [] /\ Zlen n <= W_NAME_LEN /\ Forall path_char n.

Record table_ok (t : table) : Prop := {
  to_len : Zlen (users t) = W_MAX_USERS;
  to_entry : forall j, 0 <= j < Zlen (users t) -> used (users t).[j] = true ->
    name_ok (name (users t).[j]) /\ 0 <= uid (users t).[j] < next_uid t /\ Zlen (shell (users t).[j]) <= W_SHELL_MAX;
  to_uid : forall i j, 0 <= i < Zlen (users t) -> 0 <= j < Zlen (users t) ->
    used (users t).[i] = true -> used (users t).[j] = true -> uid (users t).[i] = uid (users t).[j] -> i = j;
  to_name : forall i j, 0 <= i < Zlen (users t) -> 0 <= j < Zlen (users t) ->
    used (users t).[i] = true -> used (users t).[j] = true -> name (users t).[i] = name (users t).[j] -> i = j;
}.

Lemma name_ok_no_nul n : name_ok n -> no_nul n.
Proof. intros (_ & _ & Hf). eapply Forall_impl; [exact Hf |]. by intros c (? & _). Qed.

(** A slot replaced by the same account with other secrets or another shell. *)
Lemma table_ok_replace t i e :
  table_ok t -> 0 <= i < Zlen (users t) ->
  (used e = true -> used (users t).[i] = true /\ name e = name (users t).[i] /\ uid e = uid (users t).[i] /\
     Zlen (shell e) <= W_SHELL_MAX) ->
  table_ok (with_user i e t).
Proof.
  intros [Hl He Hu Hn] Hi Hs. assert (Hz : Zlen (users (with_user i e t)) = Zlen (users t)) by apply Zlen_upd.
  split; rewrite ?Hz; [done | | |].
  - intros j Hj. rewrite with_user_get by lia. case_decide as Ej; [subst j | by apply He].
    intros Hue. destruct (Hs Hue) as (? & -> & -> & ?). destruct (He i Hi) as (? & ? & _); done.
  - intros a b Ha Hb. rewrite !with_user_get by lia.
    case_decide as Ea; case_decide as Eb; subst; intros Ua Ub E; try done; [| | by apply Hu].
    + destruct (Hs Ua) as (? & _ & Eu & _). apply Hu; try done. congruence.
    + destruct (Hs Ub) as (? & _ & Eu & _). apply Hu; try done. congruence.
  - intros a b Ha Hb. rewrite !with_user_get by lia.
    case_decide as Ea; case_decide as Eb; subst; intros Ua Ub E; try done; [| | by apply Hn].
    + destruct (Hs Ua) as (? & En & _). apply Hn; try done. congruence.
    + destruct (Hs Ub) as (? & En & _). apply Hn; try done. congruence.
Qed.

(** A new account in a free slot. *)
Lemma table_ok_add t i e :
  table_ok t -> 0 <= i < Zlen (users t) -> used (users t).[i] = false -> name_ok (name e) ->
  0 <= next_uid t -> uid e = next_uid t -> Zlen (shell e) <= W_SHELL_MAX ->
  (forall j, 0 <= j < Zlen (users t) -> used (users t).[j] = true -> name (users t).[j] <> name e) ->
  table_ok (with_user i e (Table (users t) (next_uid t + 1))).
Proof.
  intros [Hl He Hu Hn] Hi Hfree Hname Hpos Hue Hsh Hnew. set (t1 := Table (users t) (next_uid t + 1)).
  assert (Hz : Zlen (users (with_user i e t1)) = Zlen (users t)) by apply Zlen_upd.
  assert (Hg : forall j, 0 <= j -> (users (with_user i e t1)).[j] = if decide (j = i) then e else (users t).[j])
    by (intros; by apply (with_user_get i e t1)).
  split; rewrite ?Hz; [done | | |].
  - intros j Hj. rewrite Hg by lia. change (next_uid (with_user i e t1)) with (next_uid t + 1).
    case_decide; [intros _; split_and!; done || lia |]. intros Hj'. destruct (He j Hj Hj') as (? & ? & ?). split_and!; done || lia.
  - intros a b Ha Hb. rewrite !Hg by lia. case_decide as Ea; case_decide as Eb; subst; intros Ua Ub E; try done; [| | by apply Hu].
    + destruct (He b Hb Ub) as (_ & ? & _). lia.
    + destruct (He a Ha Ua) as (_ & ? & _). lia.
  - intros a b Ha Hb. rewrite !Hg by lia. case_decide as Ea; case_decide as Eb; subst; intros Ua Ub E; try done; [| | by apply Hn].
    + by destruct (Hnew b Hb Ub).
    + by destruct (Hnew a Ha Ua).
Qed.

Lemma strl_short n m : Zlen n <= m -> strl (m + 1) n = n.
Proof. intros. apply strl_all. lia. Qed.

Definition op_strings (o : op) : Prop :=
  match o with SetPassword n p q => no_nul n | SetRoles n _ => no_nul n | SetShell n sh => no_nul n | Add n p _ => no_nul n end.

Lemma user_add_ok env actor n p rs t s r t' s' :
  table_ok t -> 0 <= next_uid t < 2 ^ 32 - 1 -> no_nul n -> user_add env actor n p rs t s = (r, t', s') -> table_ok t'.
Proof.
  intros Ht Hn Hz. unfold user_add. destruct (negb (privileged actor t)); [by intros [= _ <- _] |].
  destruct (bool_decide (n = []) || (W_NAME_LEN <? Zlen n))%bool eqn:El; [by intros [= _ <- _] |].
  destruct (existsb bad_name_char n) eqn:Ec; [by intros [= _ <- _] |].
  destruct (find_by_name n t) as [k |] eqn:Ef; [by intros [= _ <- _] |].
  destruct (free_slot_from 0 (users t)) as [i |] eqn:Ei; [| by intros [= _ <- _]].
  apply orb_false_iff in El as [Ene El]. apply bool_decide_eq_false in Ene. apply Z.ltb_ge in El.
  assert (Hok : name_ok n).
  { split_and!; [done | done |]. apply Forall_forall. intros c Hc.
    assert (Hb : bad_name_char c = false).
    { destruct (bad_name_char c) eqn:Eb; [| done]. rewrite <- not_true_iff_false in Ec. destruct Ec.
      apply existsb_exists. exists c. by rewrite <- list_elem_of_In. }
    unfold bad_name_char in Hb. bool_to_prop. assert (0 < c) by apply (proj1 (Forall_forall _ _) Hz c Hc). unfold path_char. lia. }
  apply free_slot_spec in Ei as [Hi Hfree]. rewrite Z.sub_0_r in Hfree. rewrite u32_id by lia.
  set (sh := match p with [] => _ | _ => _ end). destruct sh as [sl h].
  rewrite (strl_short n W_NAME_LEN El). set (e := Entry true n (next_uid t) rs sl h []).
  assert (Hadd : table_ok (with_user i e (Table (users t) (next_uid t + 1)))).
  { apply table_ok_add; [done | lia | done | done | lia | done | vm_compute; congruence |]. intros j Hj Hu E.
    pose proof (find_from_none _ _ _ Ef j Hj Hu) as Hcmp. cbn beta in Hcmp. rewrite E in Hcmp.
    apply Z.eqb_neq in Hcmp. apply Hcmp. by apply KString.str_cmp_eq. }
  destruct (save_user_list _ s) as [r1 s1]. destruct (if r1 =? 0 then save_password e s1 else (r1, s1)) as [r2 s2].
  destruct (r2 <? 0).
  - destruct (save_user_list _ s2). intros [= _ <- _]. apply table_ok_replace; [done | rewrite (to_len _ Hadd) in *; pose proof (to_len _ Ht); lia | done].
  - destruct (ensure_dir _ s2). by intros [= _ <- _].
Qed.

Lemma table_names_ok t u : table_ok t -> names_ok u t.
Proof.
  intros Ht n. unfold name_of, table_db, user_by_uid. destruct (find_by_uid u t) as [i |] eqn:E; [| done].
  cbn [snd fmap option_fmap option_map fill w_name]. intros [= <-].
  apply find_from_spec in E as (Hi & Hu & _). rewrite Z.sub_0_r in Hu.
  destruct (to_entry _ Ht i ltac:(lia) Hu) as ((Hne & Hl & Hc) & _). rewrite strl_short by done.
  assert (Hnot : forall c, c ∈ name (users t).[i] -> path_char c) by (intros c; by apply (proj1 (Forall_forall _ _) Hc)).
  split_and!; [| by apply name_ok_no_nul | done]. split_and!; [done | | |].
  - intros E. destruct (Hnot 46) as (_ & _ & _ & _ & []); [rewrite E; by left | done].
  - intros E. destruct (Hnot 46) as (_ & _ & _ & _ & []); [rewrite E; by left | done].
  - intros Hin. by destruct (Hnot slash Hin) as (_ & [] & _).
Qed.

(** C40: the table stays in order.  Whoever makes whatever change, as long as
    [next_uid] is below 2^32 - 1 (uids are given once and never again), accounts in
    use keep distinct names and distinct uids below [next_uid], names that can
    be a directory under /home and a field of the list (no slash, dot, colon or
    newline, at most [W_NAME_LEN] bytes), and shells that fit; so the permission
    rules, which build /home/<name> from it, can rely on the database. *)
Theorem user_table_invariant (env : entropy) (actor r : Z) (o : op) (t t' : table) s s' :
  table_ok t -> 0 <= next_uid t < 2 ^ 32 - 1 -> op_strings o -> run env actor o t s = (r, t', s') ->
  table_ok t' /\ forall u, names_ok u t'.
Proof.
  intros Ht Hn Ho Hrun. enough (table_ok t') by (split; [done | intros; by apply table_names_ok]).
  destruct o as [n p q | n rs | n sh | n p rs]; cbn [run op_strings] in *; [| | | by eapply user_add_ok].
  - unfold user_set_password in Hrun. destruct (find_by_name n t) as [i |] eqn:Ei; [| by simplify_eq].
    destruct (by_name_range _ _ _ Ei) as [Hi Hu]. destruct (to_entry _ Ht i Hi Hu) as (_ & _ & ?).
    match type of Hrun with context [if ?b <? 0 then _ else _] => destruct (b <? 0) end; [by simplify_eq |].
    destruct (save_password _ s). simplify_eq. apply table_ok_replace; [done | done |]. intros _. by destruct q.
  - unfold user_set_roles in Hrun. destruct (negb (privileged actor t)); [by simplify_eq |].
    destruct (find_by_name n t) as [i |] eqn:Ei; [| by simplify_eq].
    destruct (by_name_range _ _ _ Ei) as [Hi Hu]. destruct (to_entry _ Ht i Hi Hu) as (_ & _ & ?).
    destruct (uid (users t).[i] =? W_ROOT_UID); [by simplify_eq |]. destruct (save_user_list _ s). simplify_eq.
    by apply table_ok_replace.
  - unfold user_set_shell in Hrun. destruct (find_by_name n t) as [i |] eqn:Ei; [| by simplify_eq].
    destruct (by_name_range _ _ _ Ei) as [Hi Hu].
    destruct (negb (privileged actor t) && negb (uid (users t).[i] =? actor))%bool; [by simplify_eq |].
    destruct (Z.ltb_spec W_SHELL_MAX (Zlen sh)) as [| Hsh]; [by simplify_eq |]. destruct (save_user_list _ s). simplify_eq.
    apply table_ok_replace; [done | done |]. intros _. split_and!; try done. cbn [shell]. by rewrite strl_short.
Qed.

(** ** Logging in *)

Lemma hash_equal_spec a b : 0 <= a < 2 ^ 64 -> 0 <= b < 2 ^ 64 -> hash_equal a b = (a =? b).
Proof.
  intros Ha Hb. apply eq_true_iff_eq. unfold hash_equal. rewrite !Z.eqb_eq, fold_lor_zero. split.
  - intros [_ Hf]. rewrite Forall_forall in Hf. apply Z.lxor_eq. apply Z.bits_inj'. intros n Hn. rewrite Z.bits_0.
    assert (Hd : 0 <= Z.lxor a b < 2 ^ 64) by (by apply lxor_range).
    destruct (Z.ltb_spec n 64); [| by apply (testbit_high 64)].
    specialize (Hf (n / 8) ltac:(apply elem_of_seqZ; zlia)). cbn beta in Hf.
    apply (f_equal (fun z => Z.testbit z (n `mod` 8))) in Hf.
    rewrite u8_testbit, Z.bits_0, Z.shiftr_spec, (proj2 (Z.ltb_lt _ _)) in Hf by zlia. cbn [andb] in Hf.
    rewrite <- Hf. f_equal. zlia.
  - intros ->. split; [done |]. apply Forall_forall. intros i _. by rewrite Z.lxor_nilpotent, Z.shiftr_0_l.
Qed.

Lemma fnv_range h c : 0 <= fnv h c < 2 ^ 64.
Proof. apply u64_range. Qed.

Lemma hash_password_range sl p : 0 <= sl < 2 ^ 64 -> 0 < hash_password sl p < 2 ^ 64.
Proof.
  intros Hsl. unfold hash_password. set (h := hash_rounds _ _ _ _).
  assert (Hh : 0 <= h < 2 ^ 64).
  { unfold h. assert (Hr : forall n h0, 0 <= h0 < 2 ^ 64 -> 0 <= hash_rounds n sl p h0 < 2 ^ 64).
    { induction n as [| n IH]; intros h0 H0; cbn [hash_rounds]; [done |]. apply IH, fnv_range. }
    apply Hr. apply lxor_range; [lia | split; vm_compute; congruence | done]. }
  destruct (Z.eqb_spec h 0); lia.
Qed.

Lemma make_salt_range env n : 0 <= make_salt env n < 2 ^ 64.
Proof. unfold make_salt. apply lxor_range; [lia | apply lxor_range; [lia |..] |]; apply u64_range. Qed.

Lemma find_from_upd p e l : forall i k, 0 <= i < Zlen l ->
  (used e && p e)%bool = (used l.[i] && p l.[i])%bool -> find_from p k (upd i e l) = find_from p k l.
Proof.
  induction l as [| x l IH]; intros i k Hi Hp; [done |].
  assert (El : Zlen (x :: l) = Zlen l + 1) by (unfold Zlen; simpl length; lia).
  destruct (decide (i = 0)) as [-> |]; [unfold upd; simpl in *; by rewrite Hp |].
  unfold upd in *. replace (Z.to_nat i) with (S (Z.to_nat (i - 1))) in * by lia. cbn [insert list_insert find_from].
  destruct (used x && p x)%bool; [done |]. apply IH; [lia | done].
Qed.

(** The rule [user_set_password] applies. *)
Definition may_set_password (actor : Z) (old_password : list Z) (e : user_entry_t) (t : table) : Prop :=
  privileged actor t = true \/
  (uid e = actor /\ (hash e = 0 \/ hash_equal (hash_password (salt e) old_password) (hash e) = true)).

(** After a change of password one logs in with the new one.  When the
    rule allows the change and the new password is not empty,
    [user_authenticate] accepts exactly the passwords whose salted hash is that
    of the new one, and so the new one; when the rule does not, the table and
    the volume are as they were and the call reports an error. *)
Theorem set_password_login (env : entropy) (actor i r : Z) (n old_password new_password q : list Z)
    (t t' : table) s s' :
  find_by_name n t = Some i -> new_password <> [] ->
  user_set_password env actor n old_password new_password t s = (r, t', s') ->
  (may_set_password actor old_password (users t).[i] t ->
   let sl := make_salt env (next_uid t) in
   (user_authenticate n q t').1 = (if hash_password sl q =? hash_password sl new_password then 0 else - W_EACCES)) /\
  (~ may_set_password actor old_password (users t).[i] t -> t' = t /\ s' = s /\ r < 0).
Proof.
  intros Hf Hq. destruct (by_name_range _ _ _ Hf) as [Hi Hu]. unfold user_set_password, may_set_password.
  rewrite Hf. set (e := (users t).[i]). set (refused := if privileged actor t then 0 else _).
  assert (Hr : (refused <? 0) = false <-> privileged actor t = true \/
    (uid e = actor /\ (hash e = 0 \/ hash_equal (hash_password (salt e) old_password) (hash e) = true))).
  { unfold refused. destruct (privileged actor t); [by split; [left |] |].
    destruct (Z.eqb_spec (uid e) actor); cbn [negb]; [| split; [done | intros [? | [? _]]; done]].
    destruct (Z.eqb_spec (hash e) 0); cbn [negb andb]; [split; [intros _; right; tauto | done] |].
    destruct (hash_equal _ _); cbn [negb]; split; try done; [tauto |]. intros [? | [_ [? | ?]]]; done. }
  destruct (refused <? 0) eqn:Er.
  { intros [= <- <- <-]. split; [intros Hm; apply Hr in Hm; done |]. intros _. bool_to_prop. done. }
  destruct new_password as [| c new_password]; [done |]. set (sl := make_salt env (next_uid t)).
  set (pw := c :: new_password). set (e1 := set_secret sl (hash_password sl pw) e).
  destruct (save_password e1 s) as [r1 s1]. intros [= <- <- <-].
  split; [intros _ | intros Hno; exfalso; by apply Hno, Hr]. cbv zeta.
  pose proof (make_salt_range env (next_uid t)) as Hsl. fold sl in Hsl.
  pose proof (hash_password_range sl pw Hsl) as Hh. unfold user_authenticate.
  assert (Hf' : find_by_name n (with_user i e1 t) = Some i).
  { rewrite <- Hf. unfold find_by_name. cbn [with_user users]. by apply find_from_upd. }
  rewrite Hf', with_user_get, decide_True by (done || lia). cbn [set_secret e1 hash salt].
  rewrite (proj2 (Z.eqb_neq (hash_password sl pw) 0)) by lia.
  pose proof (hash_password_range sl q Hsl). rewrite hash_equal_spec by lia. destruct (hash_password sl q =? hash_password sl pw); reflexivity.
Qed.

End changes.

(** ** On a small table and the sample volume *)

Definition sample_table : table :=
  Table (Entry true (str "root") 0 0 5 6 [] :: Entry true (str "bob") 1 0 0 0 [] :: replicate 30 no_entry) 2.

Lemma sample_table_ok : table_ok sample_table.
Proof.
  assert (Hrest : forall j, 2 <= j < 32 -> used (users sample_table).[j] = false).
  { intros j Hj. change (users sample_table) with ([Entry true (str "root") 0 0 5 6 []; Entry true (str "bob") 1 0 0 0 []] ++ replicate 30 no_entry).
    rewrite list_lookup_total_alt, lookup_app_r by (simpl; lia). rewrite lookup_replicate_2 by (simpl; lia). done. }
  assert (Hc : forall j, 0 <= j < 32 -> used (users sample_table).[j] = true -> j = 0 \/ j = 1).
  { intros j Hj Hu. destruct (decide (j < 2)); [lia |]. rewrite Hrest in Hu by lia. done. }
  assert (Hn : name_ok (str "root") /\ name_ok (str "bob")).
  { split; (split; [discriminate | split; [vm_compute; congruence |]]); repeat constructor; vm_compute; congruence. }
  split; change (Zlen (users sample_table)) with 32; [done | | |].
  - intros j Hj Hu. destruct (Hc j Hj Hu) as [-> | ->]; split_and!; try apply Hn; done.
  - intros i j Hi Hj Ui Uj. destruct (Hc i Hi Ui) as [-> | ->], (Hc j Hj Uj) as [-> | ->]; done.
  - intros i j Hi Hj Ui Uj. destruct (Hc i Hi Ui) as [-> | ->], (Hc j Hj Uj) as [-> | ->]; done.
Qed.

Lemma triple_eq {A B C} (p : A * B * C) : p = (p.1.1, p.1.2, p.2).
Proof. by destruct p as [[]]. Qed.

Definition sample_env : entropy := Entropy 1000 77.
Definition sample_op : op := SetShell (str "bob") (str "/app/fish/launch").

Lemma unprivileged_changes_witness :
  let t' := (run sample_env 1 sample_op sample_table sample_fs).1.2 in
  next_uid t' = next_uid sample_table /\ same_person (users sample_table).[0] (users t').[0].
Proof.
  pose proof (unprivileged_changes sample_env 1 _ sample_op sample_table _ sample_fs _ eq_refl
    (triple_eq (run sample_env 1 sample_op sample_table sample_fs))) as ((H1 & _ & H3) & _).
  split; [exact H1 |]. exact (proj1 (H3 0 ltac:(vm_compute; split; congruence))).
Defined.

Lemma user_table_invariant_witness :
  let t' := (run sample_env 1 sample_op sample_table sample_fs).1.2 in
  table_ok t' /\ forall u, names_ok u t'.
Proof.
  exact (user_table_invariant sample_env 1 _ sample_op sample_table _ sample_fs _ sample_table_ok ltac:(simpl; lia)
    ltac:(repeat constructor; vm_compute; congruence) (triple_eq (run sample_env 1 sample_op sample_table sample_fs))).
Defined.

Lemma set_password_login_witness :
  let t' := (user_set_password sample_env 1 (str "bob") [] (str "x") sample_table sample_fs).1.2 in
  let sl := make_salt sample_env (next_uid sample_table) in
  (user_authenticate (str "bob") (str "y") t').1 =
  (if hash_password sl (str "y") =? hash_password sl (str "x") then 0 else - W_EACCES).
Proof.
  refine (proj1 (set_password_login sample_env 1 1 _ (str "bob") [] (str "x") (str "y") sample_table _ sample_fs _
    eq_refl ltac:(discriminate) (triple_eq (user_set_password sample_env 1 (str "bob") [] (str "x") sample_table sample_fs))) _).
  right. split; [reflexivity |]. left. reflexivity.
Defined.

End User.
