(* ===== verification/Ring.v ===== *)
(** What the objects behind descriptors share: queues kept in circular arrays,
    lists gathered over a whole table of objects, and the outcome of code that
    follows pointers. *)

From S2P Require Import Prelude.

(** ** Outcomes

    Kernel code that follows a pointer to an object on the heap ends in a value,
    in a [Fault] when the object was already given back (or the machine
    panics), or, in a model with fuel, in [Spent]. *)
Inductive out (A : Type) : Type :=
| Done (a : A)
| Fault
| Spent.
Arguments Done {A} a.
Arguments Fault {A}.
Arguments Spent {A}.

#[export] Instance out_ret : MRet out := fun A a => Done a.
#[export] Instance out_bind : MBind out := fun A B f m =>
  match m with Done a => f a | Fault => Fault | Spent => Spent end.

Definition deref {A} (m : gmap Z A) (a : Z) : out A := match m !! a with Some x => Done x | None => Fault end.

Definition of_res {A} (r : res A) : out A := match r with Ret a => Done a | Panic => Fault end.

Lemma deref_some {A} (m : gmap Z A) a x : m !! a = Some x -> deref m a = Done x.
Proof. unfold deref. by intros ->. Qed.

Lemma bind_done {A B} (m : out A) (f : A -> out B) b : (m ≫= f) = Done b -> exists a, m = Done a /\ f a = Done b.
Proof. destruct m as [a | |]; [by exists a | done | done]. Qed.

(** Take a hypothesis that a sequence of such code is [Done] apart. *)
Ltac inv_bind H :=
  let x := fresh "x" in let E := fresh "E" in
  apply bind_done in H as (x & E & H).

(** ** Circular arrays *)

(** The elements of a queue, oldest first. *)
Definition ring `{Inhabited A} (cap : Z) (buf : list A) (tail count : Z) : list A :=
  (fun i => buf.[(tail + i) `mod` cap]) <$> seqZ 0 count.

Definition ring_ok {A} (cap : Z) (buf : list A) (head tail count : Z) : Prop :=
  Zlen buf = cap /\ 0 <= tail < cap /\ 0 <= count <= cap /\ head = (tail + count) `mod` cap.

Definition ring_next (cap i : Z) : Z := u32 (i + 1) `mod` cap.

Section ring.
Context `{Inhabited A} (cap : Z) (Hcap : 0 < cap < 2 ^ 31).

Lemma ring_next_mod i : 0 <= i < cap -> ring_next cap i = (i + 1) `mod` cap.
Proof. intros. unfold ring_next. by rewrite u32_id by lia. Qed.

Lemma Zlen_ring (buf : list A) tail count : 0 <= count -> Zlen (ring cap buf tail count) = count.
Proof. intros. unfold ring, Zlen. rewrite length_fmap, length_seqZ. lia. Qed.

Lemma ring_pop (buf : list A) head tail count :
  ring_ok cap buf head tail count -> 0 < count ->
  ring_ok cap buf head (ring_next cap tail) (count - 1) /\
  ring cap buf tail count = buf.[tail] :: ring cap buf (ring_next cap tail) (count - 1).
Proof.
  intros (Hl & Ht & Hc & Hh) Hpos. rewrite ring_next_mod by done.
  pose proof (Z.mod_pos_bound (tail + 1) cap ltac:(lia)). split.
  - split_and!; try done; try lia. rewrite Hh, Zplus_mod_idemp_l. f_equal. lia.
  - unfold ring. rewrite seqZ_cons by lia. rewrite fmap_cons. f_equal.
    { do 2 f_equal. rewrite Z.add_0_r. by apply Z.mod_small. }
    replace (Z.pred count) with (count - 1) by lia. rewrite <- (fmap_add_seqZ 1 0), <- list_fmap_compose.
    apply list_fmap_ext. intros i x Hx. cbn [compose]. do 2 f_equal. unfold compose.
    rewrite Zplus_mod_idemp_l. f_equal. lia.
Qed.

Lemma ring_push (buf : list A) head tail count x :
  ring_ok cap buf head tail count -> count < cap ->
  ring_ok cap (upd head x buf) (ring_next cap head) tail (count + 1) /\
  ring cap (upd head x buf) tail (count + 1) = ring cap buf tail count ++ [x].
Proof.
  intros (Hl & Ht & Hc & Hh) Hroom. pose proof (Z.mod_pos_bound (tail + count) cap ltac:(lia)).
  rewrite ring_next_mod by (rewrite Hh; done). split.
  - split_and!; try done; try lia; [by rewrite Zlen_upd |]. rewrite Hh, Zplus_mod_idemp_l. f_equal. lia.
  - unfold ring. replace (count + 1) with (Z.of_nat (S (Z.to_nat count))) by lia.
    rewrite seqZ_S, fmap_app. replace (Z.of_nat (Z.to_nat count)) with count by lia. f_equal.
    + apply list_fmap_ext. intros i y Hy. apply lookup_seqZ in Hy as [-> Hy]. rewrite Z.add_0_l.
      pose proof (Z.mod_pos_bound (tail + Z.of_nat i) cap ltac:(lia)). apply get_upd_ne; [lia | lia |].
      rewrite Hh. intros E. apply (f_equal (fun z => (z - tail) `mod` cap)) in E.
      rewrite !Zminus_mod_idemp_l in E. replace (tail + count - tail) with count in E by lia.
      replace (tail + Z.of_nat i - tail) with (Z.of_nat i) in E by lia. rewrite !Z.mod_small in E by lia. lia.
    + cbn [fmap list_fmap]. f_equal. rewrite Z.add_0_l, <- Hh. apply get_upd_eq. lia.
Qed.

End ring.

(** ** Lists gathered over a table *)

Definition gather {A B} (f : A -> list B) (m : gmap Z A) : list B := map_to_list m ≫= fun x => f x.2.

Lemma gather_empty {A B} (f : A -> list B) : gather f ∅ = [].
Proof. unfold gather. by rewrite map_to_list_empty. Qed.

Lemma gather_fresh {A B} (f : A -> list B) (m : gmap Z A) a x :
  m !! a = None -> gather f (<[a := x]> m) ≡ₚ f x ++ gather f m.
Proof. intros Ha. unfold gather. by rewrite map_to_list_insert. Qed.

Lemma gather_split {A B} (f : A -> list B) (m : gmap Z A) a x :
  m !! a = Some x -> gather f m ≡ₚ f x ++ gather f (delete a m).
Proof.
  intros Ha. rewrite <- (insert_delete_id m a x Ha) at 1. apply gather_fresh, lookup_delete_eq.
Qed.

Lemma gather_insert {A B} (f : A -> list B) (m : gmap Z A) a x :
  gather f (<[a := x]> m) ≡ₚ f x ++ gather f (delete a m).
Proof. rewrite <- insert_delete_eq. apply gather_fresh, lookup_delete_eq. Qed.

Lemma elem_of_gather {A B} (f : A -> list B) (m : gmap Z A) y :
  y ∈ gather f m <-> exists a x, m !! a = Some x /\ y ∈ f x.
Proof.
  unfold gather. rewrite list_elem_of_bind. split.
  - intros ([a x] & Hy & Hin). apply elem_of_map_to_list in Hin. by exists a, x.
  - intros (a & x & Hm & Hy). exists (a, x). by rewrite elem_of_map_to_list.
Qed.

(** ** Counting *)

Lemma countb_app {A} (p : A -> bool) l k : countb p (l ++ k) = countb p l + countb p k.
Proof. induction l as [| x l IH]; [done |]. cbn [app]. rewrite !countb_cons, IH. lia. Qed.

#[export] Instance countb_perm {A} (p : A -> bool) : Proper ((≡ₚ) ==> (=)) (countb p).
Proof.
  intros l k. induction 1 as [| x l k _ IH | x y l | l k j _ IH1 _ IH2]; rewrite ?countb_cons; try lia.
Qed.

Lemma countb_pos {A} (p : A -> bool) l x : x ∈ l -> p x = true -> 0 < countb p l.
Proof.
  induction 1 as [x l | x y l _ IH]; intros Hp; rewrite countb_cons.
  - rewrite Hp. pose proof (countb_bounds p l). simpl. lia.
  - specialize (IH Hp). destruct (p y); simpl; lia.
Qed.

Lemma countb_zero {A} (p : A -> bool) l : (forall x, x ∈ l -> p x = false) -> countb p l = 0.
Proof.
  induction l as [| x l IH]; intros H; [done |]. rewrite countb_cons, H, IH; [done | | by left].
  intros y Hy. apply H. by right.
Qed.
