(* ===== verification/Shm.v ===== *)
(** Shared memory objects, [kernel/mm/shm.c]: creating one, counting the
    descriptors and mappings that name it, and giving its frames back when the
    last of them goes.  Frames come from the frame allocator of [Pmm] and are
    cleared through the routines of [KString].

    Mapping an object into an address space ([shm_map], [shm_unmap]) is the part
    of [ShmMap] and [ShmUnmap]. *)

From S2P Require Import Prelude Pmm KString.

Module Shm.

Definition SHM_MAX_BYTES : Z := 32 * 1024 * 1024.

Record shm := Shm {
  refs : Z;
  pages : Z;
  frame : list Z;      (** physical address of each page *)
}.

Fixpoint free_frames (l : list Z) (p : Pmm.pmm) : res Pmm.pmm :=
  match l with
  | [] => Ret p
  | f :: l => match Pmm.pmm_free_frame f p with Ret p => free_frames l p | Panic => Panic end
  end.

(** The allocation loop, with the frames of the turns before in [got]; [None]
    when memory ran out and they were given back. *)
Fixpoint take_frames (n : nat) (got : list Z) (p : Pmm.pmm) (m : KString.mem)
    : res (option (list Z) * Pmm.pmm * KString.mem) :=
  match n with
  | O => Ret (Some got, p, m)
  | S n =>
      let '(f, p) := Pmm.pmm_alloc_frame p in
      if f =? 0 then
        match free_frames got p with Ret p => Ret (None, p, m) | Panic => Panic end
      else
        let m := if f <? Pmm.LOW_MEMORY_LIMIT then KString.memset f 0 PAGE_SIZE m else m in
        take_frames n (got ++ [f]) p m
  end.

Definition page_count (bytes : Z) : Z := u32 (ALIGN_UP bytes PAGE_SIZE / PAGE_SIZE).

(** The object and its table of frames come from the kernel heap; whether each
    [kzalloc] succeeds is an argument. *)
Definition shm_create (object_ok table_ok : bool) (bytes : Z) (p : Pmm.pmm) (m : KString.mem)
    : res (option shm * Pmm.pmm * KString.mem) :=
  if ((bytes =? 0) || (SHM_MAX_BYTES <? bytes))%bool then Ret (None, p, m)
  else if negb object_ok then Ret (None, p, m)
  else if negb table_ok then Ret (None, p, m)
  else
    match take_frames (Z.to_nat (page_count bytes)) [] p m with
    | Panic => Panic
    | Ret (None, p, m) => Ret (None, p, m)
    | Ret (Some l, p, m) => Ret (Some (Shm 1 (page_count bytes) l), p, m)
    end.

Definition shm_bytes (s : option shm) : Z :=
  match s with Some s => u32 (pages s * PAGE_SIZE) | None => 0 end.

Definition shm_ref (s : shm) : shm := Shm (refs s + 1) (pages s) (frame s).

(** [None] when the object is gone. *)
Definition shm_unref (s : shm) (p : Pmm.pmm) : res (option shm * Pmm.pmm) :=
  let s := Shm (refs s - 1) (pages s) (frame s) in
  if 0 <? refs s then Ret (Some s, p)
  else
    match free_frames (take (Z.to_nat (pages s)) (frame s)) p with
    | Ret p => Ret (None, p)
    | Panic => Panic
    end.

(** ** Frames held *)

Definition holds (l : list Z) (g : Z) : bool := bool_decide (g * PAGE_SIZE ∈ l).

(** Frames in use, each once, at page addresses. *)
Definition owned (p : Pmm.pmm) (l : list Z) : Prop :=
  NoDup l /\ Forall (fun a => exists g, a = g * PAGE_SIZE /\ 0 < g < Pmm.total_frames p /\ Pmm.used p g = true) l.

Lemma holds_cons a l g : holds (a :: l) g = ((g * PAGE_SIZE =? a) || holds l g)%bool.
Proof.
  unfold holds. destruct (Z.eqb_spec (g * PAGE_SIZE) a) as [E |]; cbn [orb].
  - apply bool_decide_eq_true, elem_of_cons. by left.
  - apply bool_decide_ext. rewrite elem_of_cons. tauto.
Qed.

Lemma page_eqb g h : (g * PAGE_SIZE =? h * PAGE_SIZE) = (g =? h).
Proof. unfold PAGE_SIZE. destruct (Z.eqb_spec g h) as [-> |]; [apply Z.eqb_refl | apply Z.eqb_neq; lia]. Qed.

Lemma free_one p g :
  Pmm.pmm_inv p -> 0 < g < Pmm.total_frames p -> Pmm.used p g = true ->
  exists p', Pmm.pmm_free_frame (g * PAGE_SIZE) p = Ret p' /\ Pmm.pmm_inv p' /\
    Pmm.total_frames p' = Pmm.total_frames p /\
    forall h, 0 <= h -> Pmm.used p' h = (Pmm.used p h && negb (h =? g))%bool.
Proof.
  intros (Hwf & Hpos & H0) Hg Hu.
  pose proof (Pmm.pmm_free_frame_cases p (g * PAGE_SIZE) Hwf ltac:(unfold PAGE_SIZE; lia)) as H.
  rewrite Z.div_mul in H by done. destruct (Pmm.pmm_free_frame _ p) as [p' |].
  - destruct H as [[? _] | (_ & _ & Hwf' & Ht & _ & Hg')]; [lia |]. exists p'. split_and!; try done.
    + split_and!; [done | lia |]. rewrite Hg', H0 by lia. by destruct (Z.eqb_spec 0 g); [lia |].
  - destruct H as [_ H]. by rewrite Hu in H.
Qed.

Lemma free_frames_spec l : forall p,
  Pmm.pmm_inv p -> owned p l ->
  exists p', free_frames l p = Ret p' /\ Pmm.pmm_inv p' /\ Pmm.total_frames p' = Pmm.total_frames p /\
    forall h, 0 <= h -> Pmm.used p' h = (Pmm.used p h && negb (holds l h))%bool.
Proof.
  induction l as [| a l IH]; intros p Hp [Hnd Hl]; cbn [free_frames].
  { exists p. split_and!; try done. intros. by rewrite andb_true_r. }
  apply NoDup_cons in Hnd as [Hni Hnd]. apply Forall_cons in Hl as [(g & -> & Hg & Hu) Hl].
  destruct (free_one p g Hp Hg Hu) as (p1 & -> & Hp1 & Ht & Hu1).
  destruct (IH p1 Hp1) as (p2 & -> & Hp2 & Ht2 & Hu2).
  { split; [done |]. rewrite Forall_forall in Hl |- *. intros a Ha. destruct (Hl a Ha) as (h & -> & Hh & Huh).
    exists h. rewrite Ht, Hu1, Huh by lia. split; [done | split; [done |]]. by destruct (Z.eqb_spec h g) as [-> |]. }
  exists p2. split_and!; try done; [lia |]. intros h Hh. rewrite Hu2, Hu1, holds_cons, page_eqb by done.
  by destruct (Pmm.used p h), (h =? g), (holds l h).
Qed.

Lemma holds_app l1 l2 g : holds (l1 ++ l2) g = (holds l1 g || holds l2 g)%bool.
Proof.
  induction l1 as [| a l1 IH]; [done |]. cbn [app]. rewrite !holds_cons, IH. by rewrite orb_assoc.
Qed.

Lemma alloc_inv p :
  Pmm.pmm_inv p ->
  let '(a, p') := Pmm.pmm_alloc_frame p in
  Pmm.pmm_inv p' /\ Pmm.total_frames p' = Pmm.total_frames p /\
  ((a = 0 /\ forall g, Pmm.used p' g = Pmm.used p g) \/
   exists f, 0 < f < Pmm.total_frames p /\ Pmm.used p f = false /\ a = f * PAGE_SIZE /\
     forall g, 0 <= g -> Pmm.used p' g = (Pmm.used p g || (g =? f))%bool).
Proof.
  intros Hp. pose proof Hp as (Hwf & _ & H0). pose proof (Pmm.pmm_alloc_frame_cases p Hwf H0) as H.
  destruct (Pmm.pmm_step_inv p _ (Pmm.step_alloc p) Hp) as [H1 H2].
  destruct (Pmm.pmm_alloc_frame p) as [a p']. split_and!; [done | done |].
  destruct H as [(-> & _ & Hs & _) | (f & Hf & Hfree & -> & Ht)]; [by left | right].
  exists f. split_and!; try done; try lia. by destruct Ht as (_ & _ & _ & ?).
Qed.

(** Clearing one frame and no other byte. *)
Definition cleared (l : list Z) (m m' : KString.mem) : Prop :=
  (forall a x, a ∈ l -> a < Pmm.LOW_MEMORY_LIMIT -> a <= x < a + PAGE_SIZE -> m' x = 0) /\
  (forall x, (forall a, a ∈ l -> ~ a <= x < a + PAGE_SIZE) -> m' x = m x).

Lemma cleared_step l f m m' :
  Forall (fun a => exists g, a = g * PAGE_SIZE) (f :: l) -> f ∉ l ->
  cleared l m m' ->
  cleared (l ++ [f]) m (if f <? Pmm.LOW_MEMORY_LIMIT then KString.memset f 0 PAGE_SIZE m' else m').
Proof.
  rewrite Forall_cons. intros [[g ->] Hl] Hni [Hz Ho]. rewrite Forall_forall in Hl. split.
  - intros a x Ha Hlow Hx. apply elem_of_app in Ha as [Ha | Ha%list_elem_of_singleton].
    + rewrite <- (Hz a x) by done. destruct (Hl a Ha) as [h ->]. case_if; [| done].
      rewrite KString.memset_spec by done. unfold KString.filled, PAGE_SIZE in *. case_ifs; [| done].
      assert (h = g) as -> by lia. done.
    + subst a. rewrite (proj2 (Z.ltb_lt _ _) Hlow). rewrite KString.memset_spec by done.
      unfold KString.filled. rewrite (proj2 (Z.leb_le _ _)), (proj2 (Z.ltb_lt _ _)) by lia. done.
  - intros x Hx. rewrite <- (Ho x) by (intros a Ha; apply Hx, elem_of_app; by left).
    case_if; [| done]. rewrite KString.memset_spec by done. unfold KString.filled. case_ifs; [| done].
    destruct (Hx (g * PAGE_SIZE)); [apply elem_of_app; right; by apply list_elem_of_singleton | lia].
Qed.

Lemma owned_app p p' got f :
  Pmm.pmm_inv p -> owned p got -> 0 < f < Pmm.total_frames p -> Pmm.used p f = false ->
  Pmm.total_frames p' = Pmm.total_frames p ->
  (forall g, 0 <= g -> Pmm.used p' g = (Pmm.used p g || (g =? f))%bool) ->
  (f * PAGE_SIZE ∉ got) /\ owned p' (got ++ [f * PAGE_SIZE]).
Proof.
  intros Hp [Hnd Hg] Hf Hfree Ht Hu. rewrite Forall_forall in Hg.
  assert (Hni : f * PAGE_SIZE ∉ got).
  { intros Hin. destruct (Hg _ Hin) as (h & E & _ & Hh). assert (h = f) as -> by (unfold PAGE_SIZE in E; lia). congruence. }
  split; [done |]. split.
  - apply NoDup_app. split_and!; [done | | apply NoDup_singleton]. intros x Hx ->%list_elem_of_singleton. done.
  - apply Forall_app. split.
    + apply Forall_forall. intros a Ha. destruct (Hg a Ha) as (h & -> & Hh & Huh). exists h.
      rewrite Ht, Hu, Huh by lia. done.
    + constructor; [| constructor]. exists f. rewrite Ht, Hu, Z.eqb_refl, orb_true_r by lia. done.
Qed.

(** What the loop leaves: either all the frames asked for, on top of those it
    had, or everything given back. *)
Lemma take_frames_spec n : forall got p m p0 m0,
  Pmm.pmm_inv p -> owned p got -> Pmm.total_frames p = Pmm.total_frames p0 ->
  (forall g, 0 <= g -> Pmm.used p g = (Pmm.used p0 g || holds got g)%bool) ->
  (forall g, 0 <= g -> holds got g = true -> Pmm.used p0 g = false) -> cleared got m0 m ->
  exists o p' m', take_frames n got p m = Ret (o, p', m') /\ Pmm.pmm_inv p' /\
    Pmm.total_frames p' = Pmm.total_frames p0 /\
    match o with
    | None => forall g, 0 <= g -> Pmm.used p' g = Pmm.used p0 g
    | Some l => Zlen l = Zlen got + Z.of_nat n /\ owned p' l /\ cleared l m0 m' /\
        (forall g, 0 <= g -> Pmm.used p' g = (Pmm.used p0 g || holds l g)%bool) /\
        (forall g, 0 <= g -> holds l g = true -> Pmm.used p0 g = false)
    end.
Proof.
  induction n as [| n IH]; intros got p m p0 m0 Hp Hown Ht Hu Hfresh Hc; cbn [take_frames].
  { exists (Some got), p, m. split_and!; try done. lia. }
  pose proof (alloc_inv p Hp) as H. destruct (Pmm.pmm_alloc_frame p) as [a p1].
  destruct H as (Hp1 & Ht1 & [[-> Hsame] | (f & Hf & Hfree & -> & Hu1)]).
  - cbn [Z.eqb]. destruct (free_frames_spec got p1 Hp1) as (p2 & -> & Hp2 & Ht2 & Hu2).
    { destruct Hown as [Hnd Hown]. split; [done |]. eapply Forall_impl; [done |]. cbv beta.
      intros x (g & -> & Hg & Hug). exists g. by rewrite Ht1, Hsame. }
    exists None, p2, m. split_and!; try done; [congruence |]. intros g Hg. rewrite Hu2, Hsame, Hu by done.
    destruct (holds got g) eqn:E; [| by rewrite orb_false_r, andb_true_r].
    by rewrite (Hfresh g Hg E), orb_true_r.
  - destruct (owned_app p p1 got f) as [Hni Hown1]; [done.. |].
    destruct (Z.eqb_spec (f * PAGE_SIZE) 0) as [E |]; [unfold PAGE_SIZE in E; lia |].
    destruct (IH (got ++ [f * PAGE_SIZE]) p1
      (if f * PAGE_SIZE <? Pmm.LOW_MEMORY_LIMIT then KString.memset (f * PAGE_SIZE) 0 PAGE_SIZE m else m) p0 m0)
      as (o & p' & m' & -> & Hp' & Ht' & Ho); try done; try congruence.
    + intros g Hg. rewrite Hu1, Hu, holds_app, holds_cons, page_eqb by done. unfold holds at 3. cbn.
      by rewrite orb_false_r, orb_assoc.
    + intros g Hg. rewrite holds_app, holds_cons, page_eqb. unfold holds at 2. cbn. rewrite orb_false_r.
      intros [E | ->%Z.eqb_eq]%orb_true_iff; [by apply Hfresh |]. rewrite Hu in Hfree by done.
      by apply orb_false_iff in Hfree as [-> _].
    + apply cleared_step; [| done | done]. constructor; [by exists f |]. destruct Hown as [_ Hown].
      eapply Forall_impl; [done |]. cbv beta. intros ? (g & -> & _). by exists g.
    + exists o, p', m'. split_and!; try done. destruct o as [l |]; [| done].
      destruct Ho as (Hl & Ho). split; [| done]. rewrite Zlen_app in Hl. change (Zlen [f * PAGE_SIZE]) with 1 in Hl. lia.
Qed.

(** ** The object *)

Record shm_ok (p : Pmm.pmm) (s : shm) : Prop := {
  sh_pages : pages s = Zlen (frame s);
  sh_owned : owned p (frame s);
}.

Lemma page_count_spec bytes :
  0 < bytes <= SHM_MAX_BYTES -> 0 < page_count bytes /\
  (page_count bytes - 1) * PAGE_SIZE < bytes <= page_count bytes * PAGE_SIZE.
Proof.
  unfold SHM_MAX_BYTES, page_count. intros. rewrite ALIGN_UP_page by lia. unfold PAGE_SIZE.
  rewrite Z.div_mul by done. rewrite u32_id by zlia. zlia.
Qed.

Lemma shm_create_spec a b bytes p m :
  Pmm.pmm_inv p -> 0 <= bytes ->
  exists o p' m', shm_create a b bytes p m = Ret (o, p', m') /\ Pmm.pmm_inv p' /\
    Pmm.total_frames p' = Pmm.total_frames p /\
    match o with
    | None => forall g, 0 <= g -> Pmm.used p' g = Pmm.used p g
    | Some s => refs s = 1 /\ shm_ok p' s /\ cleared (frame s) m m' /\
        (pages s - 1) * PAGE_SIZE < bytes <= pages s * PAGE_SIZE /\
        (forall g, 0 <= g -> Pmm.used p' g = (Pmm.used p g || holds (frame s) g)%bool) /\
        (forall g, 0 <= g -> holds (frame s) g = true -> Pmm.used p g = false)
    end.
Proof.
  intros Hp Hb. unfold shm_create.
  destruct (Z.eqb_spec bytes 0), (Z.ltb_spec SHM_MAX_BYTES bytes); cbn [orb]; try by (exists None, p, m).
  destruct a; cbn [negb]; [| by exists None, p, m]. destruct b; cbn [negb]; [| by exists None, p, m].
  destruct (page_count_spec bytes) as [Hpos Hpc]; [lia |].
  destruct (take_frames_spec (Z.to_nat (page_count bytes)) [] p m p m) as (o & p' & m' & -> & Hp' & Ht & Ho); try done.
  - split; [apply NoDup_nil_2 | constructor].
  - intros g Hg. by rewrite orb_false_r.
  - split; [intros ? ? Hin; by apply not_elem_of_nil in Hin | done].
  - destruct o as [l |]; [| by exists None, p', m']. destruct Ho as (Hl & Hown & Hc & Hu & Hf).
    exists (Some (Shm 1 (page_count bytes) l)), p', m'. cbn [refs pages frame]. split_and!; try done; try lia.
    split; cbn [frame pages]; [change (Zlen []) with 0 in Hl; lia | done].
Qed.

Lemma shm_release_spec s p :
  Pmm.pmm_inv p -> shm_ok p s ->
  exists o p', shm_unref s p = Ret (o, p') /\ Pmm.pmm_inv p' /\ Pmm.total_frames p' = Pmm.total_frames p /\
    if 1 <? refs s then o = Some (Shm (refs s - 1) (pages s) (frame s)) /\ p' = p
    else o = None /\ forall g, 0 <= g -> Pmm.used p' g = (Pmm.used p g && negb (holds (frame s) g))%bool.
Proof.
  intros Hp [Hn Hown]. unfold shm_unref. cbn [refs pages frame].
  destruct (Z.ltb_spec 1 (refs s)), (Z.ltb_spec 0 (refs s - 1)); try lia; [by eexists _, p |].
  rewrite Hn. unfold Zlen. rewrite Nat2Z.id, firstn_all.
  destruct (free_frames_spec (frame s) p Hp Hown) as (p' & -> & Hp' & Ht & Hu). by exists None, p'.
Qed.

(** The header says an object is zeroed; a frame above [LOW_MEMORY_LIMIT],
    which [pmm_alloc_frame] hands out like any other, keeps the bytes its last
    owner left. *)
Definition high_pmm : Pmm.pmm := {|
  Pmm.bitmap := replicate 4097 0; Pmm.bitmap_frames := 9; Pmm.bitmap_words := 4097;
  Pmm.total_frames := 262208; Pmm.usable_frames := 262208; Pmm.hole_frames := 0; Pmm.used_frames := 0;
  Pmm.reserved_frames := 0; Pmm.heap_base := 0; Pmm.next_hint := 262144; Pmm.next_hint_low := 0 |}.

Example shm_not_zeroed :
  exists p', take_frames 1 [] high_pmm (fun _ => 0x5A) = Ret (Some [Pmm.LOW_MEMORY_LIMIT], p', fun _ => 0x5A).
Proof. eexists. vm_compute. reflexivity. Qed.

End Shm.
