(* ===== verification/Socket.v ===== *)
(** Local sockets and the references descriptors hold, [kernel/fs/socket.c]
    with [vfs_fd_retain] and [vfs_fd_drop] of [kernel/fs/vfs.c], which call
    each other: a descriptor can name a socket, and a socket can carry
    descriptors.

    Pointers to heap objects are addresses in one table per kind of object;
    following one that was freed is a [Fault].  Calls that wait are cut at
    their [sched_block] into segments, as in [Pipe]; [sched_wake] has no effect
    on the objects and is left out. *)

From S2P Require Import Prelude Str KString Pmm Pipe Ring Shm Path.

Module Socket.
Import Str.

Definition SOCK_CAP : Z := 4096.
Definition SOCK_FD_CAP : Z := 28.
Definition SOCK_WRITE_CHUNK : Z := 1024.
Definition SOCK_BACKLOG : Z := 8.
Definition MAX_LISTENERS : Z := 8.

(** ** Descriptors *)

Inductive fd_type_t := FD_NONE | FD_FILE | FD_DIR | FD_CONSOLE | FD_PIPE | FD_SOCKET | FD_SHM | FD_INPUT.

#[export] Instance fd_type_eq_dec : EqDecision fd_type_t.
Proof. solve_decision. Defined.

Record file_t := File {
  type : fd_type_t;
  ino : Z;
  ram : bool;
  offset : Z;
  flags : Z;
  pipe : Z;
  write_end : bool;
  sock : Z;
  shm : Z;
}.

(** A descriptor cleared by [memset] or [{ 0 }]. *)
Definition no_file : file_t := File FD_NONE 0 false 0 0 0 false 0 0.
#[export] Instance file_inhabited : Inhabited file_t := populate no_file.

(** ** Connections and endpoints *)

Record sock_fd_t := SockFd { file : file_t; at_ : Z }.
#[export] Instance sock_fd_inhabited : Inhabited sock_fd_t := populate (SockFd no_file 0).

Record sock_dir_t := Dir {
  buf : list Z;
  head : Z;
  tail : Z;
  count : Z;
  written : Z;
  read : Z;
  fds : list sock_fd_t;
  fd_head : Z;
  fd_tail : Z;
  fd_count : Z;
}.

Definition no_dir : sock_dir_t :=
  Dir (replicate 4096 0) 0 0 0 0 0 (replicate 28 (SockFd no_file 0)) 0 0 0.

Record sock_conn := Conn { crefs : Z; closed0 : bool; closed1 : bool; dir0 : sock_dir_t; dir1 : sock_dir_t }.

(** [closed] and [dir] by side: [false] is endpoint 0. *)
Definition closed (i : bool) (c : sock_conn) : bool := if i then closed1 c else closed0 c.
Definition dir (i : bool) (c : sock_conn) : sock_dir_t := if i then dir1 c else dir0 c.
Definition set_closed (i : bool) (c : sock_conn) : sock_conn :=
  if i then Conn (crefs c) (closed0 c) true (dir0 c) (dir1 c) else Conn (crefs c) true (closed1 c) (dir0 c) (dir1 c).
Definition set_dir (i : bool) (d : sock_dir_t) (c : sock_conn) : sock_conn :=
  if i then Conn (crefs c) (closed0 c) (closed1 c) (dir0 c) d else Conn (crefs c) (closed0 c) (closed1 c) d (dir1 c).

(** [backlog] holds the first [backlog_count] entries of the array. *)
Record socket := Socket {
  refs : Z;
  listening : bool;
  path : list Z;
  owner : Z;
  backlog : list Z;
  conn : Z;
  side : bool;
}.

Definition set_refs (n : Z) (s : socket) : socket :=
  Socket n (listening s) (path s) (owner s) (backlog s) (conn s) (side s).
Definition set_backlog (l : list Z) (s : socket) : socket :=
  Socket (refs s) (listening s) (path s) (owner s) l (conn s) (side s).

(** The state of [kernel/drivers/keyboard.c] that opening and closing the key
    stream touches. *)
Record keyboard := Keyboard {
  event_refs : Z;
  line_len : Z;
  ring_head : Z;
  ring_tail : Z;
  event_head : Z;
  event_tail : Z;
  modifiers : bool * bool * bool * bool;     (** shift, ctrl, alt, logo *)
}.

Definition keyboard_reset (n : Z) (k : keyboard) : keyboard :=
  Keyboard n 0 (ring_tail k) (ring_tail k) (event_tail k) (event_tail k) (false, false, false, false).
Definition set_event_refs (n : Z) (k : keyboard) : keyboard :=
  Keyboard n (line_len k) (ring_head k) (ring_tail k) (event_head k) (event_tail k) (modifiers k).

Definition keyboard_events_ref (k : keyboard) : keyboard :=
  if event_refs k =? 0 then keyboard_reset (event_refs k + 1) k else set_event_refs (event_refs k + 1) k.
Definition keyboard_events_unref (k : keyboard) : keyboard :=
  if 0 <? event_refs k then
    if event_refs k - 1 =? 0 then keyboard_reset (event_refs k - 1) k else set_event_refs (event_refs k - 1) k
  else k.
Definition keyboard_events_active (k : keyboard) : bool := 0 <? event_refs k.
Definition keyboard_events_pending (k : keyboard) : bool := negb (event_head k =? event_tail k).

(** ** The objects descriptors name *)

Record kernel := Kernel {
  pipes : gmap Z Pipe.pipe;
  socks : gmap Z socket;
  conns : gmap Z sock_conn;
  shms : gmap Z Shm.shm;
  listeners : list Z;                        (** 0 for a free slot *)
  kbd : keyboard;
  pmm : Pmm.pmm;
  mem : KString.mem;
}.

Definition with_pipes m k := Kernel m (socks k) (conns k) (shms k) (listeners k) (kbd k) (pmm k) (mem k).
Definition with_socks m k := Kernel (pipes k) m (conns k) (shms k) (listeners k) (kbd k) (pmm k) (mem k).
Definition with_conns m k := Kernel (pipes k) (socks k) m (shms k) (listeners k) (kbd k) (pmm k) (mem k).
Definition with_shms m p k := Kernel (pipes k) (socks k) (conns k) m (listeners k) (kbd k) p (mem k).
Definition with_listeners l k := Kernel (pipes k) (socks k) (conns k) (shms k) l (kbd k) (pmm k) (mem k).
Definition with_kbd b k := Kernel (pipes k) (socks k) (conns k) (shms k) (listeners k) b (pmm k) (mem k).
Definition with_mem m k := Kernel (pipes k) (socks k) (conns k) (shms k) (listeners k) (kbd k) (pmm k) m.

Definition put_sock (s : Z) (x : socket) (k : kernel) : kernel := with_socks (<[s := x]> (socks k)) k.
Definition put_conn (c : Z) (x : sock_conn) (k : kernel) : kernel := with_conns (<[c := x]> (conns k)) k.

(** [kfree] of an object: once. *)
Definition free_sock (s : Z) (k : kernel) : out kernel :=
  _ ← deref (socks k) s; Done (with_socks (delete s (socks k)) k).
Definition free_conn (c : Z) (k : kernel) : out kernel :=
  _ ← deref (conns k) c; Done (with_conns (delete c (conns k)) k).

(** ** References *)

Definition socket_ref (s : Z) (k : kernel) : out kernel :=
  if s =? 0 then Done k
  else x ← deref (socks k) s; Done (put_sock s (set_refs (refs x + 1) x) k).

Definition pipe_ref (p : Z) (w : bool) (k : kernel) : out kernel :=
  if p =? 0 then Done k
  else x ← deref (pipes k) p; Done (with_pipes (<[p := Pipe.pipe_ref x w]> (pipes k)) k).

Definition pipe_unref (p : Z) (w : bool) (k : kernel) : out kernel :=
  if p =? 0 then Done k
  else
    x ← deref (pipes k) p;
    let '(x, freed) := Pipe.pipe_unref x w in
    Done (with_pipes (if freed : bool then delete p (pipes k) else <[p := x]> (pipes k)) k).

Definition shm_ref (s : Z) (k : kernel) : out kernel :=
  if s =? 0 then Done k
  else x ← deref (shms k) s; Done (with_shms (<[s := Shm.shm_ref x]> (shms k)) (pmm k) k).

Definition shm_unref (s : Z) (k : kernel) : out kernel :=
  if s =? 0 then Done k
  else
    x ← deref (shms k) s;
    '(o, p) ← of_res (Shm.shm_unref x (pmm k));
    Done (with_shms (match o with Some x => <[s := x]> (shms k) | None => delete s (shms k) end) p k).

Definition vfs_fd_retain (f : file_t) (k : kernel) : out kernel :=
  match type f with
  | FD_PIPE => pipe_ref (pipe f) (write_end f) k
  | FD_SOCKET => socket_ref (sock f) k
  | FD_SHM => shm_ref (shm f) k
  | FD_INPUT => Done (with_kbd (keyboard_events_ref (kbd k)) k)
  | _ => Done k
  end.

Definition conn_unref (c : Z) (k : kernel) : out kernel :=
  if c =? 0 then Done k
  else
    x ← deref (conns k) c;
    let x := Conn (crefs x - 1) (closed0 x) (closed1 x) (dir0 x) (dir1 x) in
    let k := put_conn c x k in
    if crefs x <=? 0 then free_conn c k else Done k.

(** Drop the descriptor at the head of a queue. *)
Definition advance_fds (d : sock_dir_t) : sock_dir_t :=
  Dir (buf d) (head d) (tail d) (count d) (written d) (read d) (fds d) (fd_head d)
    (u32 (fd_tail d + 1) `mod` SOCK_FD_CAP) (fd_count d - 1).

Definition clear_listener (s : Z) (l : list Z) : list Z := (fun x => if x =? s then 0 else x) <$> l.

(** [socket_unref], the loops in it and [vfs_fd_drop] call one another; each
    call and each turn of a loop takes one unit of fuel.  What is reached
    through [s] is read again after every nested call, as the code does. *)
Fixpoint socket_unref (n : nat) (s : Z) (k : kernel) {struct n} : out kernel :=
  match n with
  | O => Spent
  | S n =>
      if s =? 0 then Done k
      else
        x ← deref (socks k) s;
        let k := put_sock s (set_refs (refs x - 1) x) k in
        if 0 <? refs x - 1 then Done k
        else
          k ← (if listening x then
                 unref_backlog n s 0 (with_listeners (clear_listener s (listeners k)) k)
               else Done k);
          x ← deref (socks k) s;
          k ← (if conn x =? 0 then Done k
               else
                 c ← deref (conns k) (conn x);
                 let k := put_conn (conn x) (set_closed (side x) c) k in
                 k ← drop_queued_fds n (conn x) (side x) k;
                 x ← deref (socks k) s;
                 k ← drop_queued_fds n (conn x) (negb (side x)) k;
                 x ← deref (socks k) s;
                 conn_unref (conn x) k);
          free_sock s k
  end
with unref_backlog (n : nat) (s : Z) (i : nat) (k : kernel) {struct n} : out kernel :=
  match n with
  | O => Spent
  | S n =>
      x ← deref (socks k) s;
      match backlog x !! i with
      | None => Done k
      | Some b => k ← socket_unref n b k; unref_backlog n s (S i) k
      end
  end
with drop_queued_fds (n : nat) (c : Z) (i : bool) (k : kernel) {struct n} : out kernel :=
  match n with
  | O => Spent
  | S n =>
      x ← deref (conns k) c;
      let d := dir i x in
      if 0 <? fd_count d then
        k ← vfs_fd_drop n (file (fds d).[fd_tail d]) k;
        x ← deref (conns k) c;
        drop_queued_fds n c i (put_conn c (set_dir i (advance_fds (dir i x)) x) k)
      else Done k
  end
with vfs_fd_drop (n : nat) (f : file_t) (k : kernel) {struct n} : out kernel :=
  match n with
  | O => Spent
  | S n =>
      match type f with
      | FD_PIPE => pipe_unref (pipe f) (write_end f) k
      | FD_SOCKET => socket_unref n (sock f) k
      | FD_SHM => shm_unref (shm f) k
      | FD_INPUT => Done (with_kbd (keyboard_events_unref (kbd k)) k)
      | _ => Done k
      end
  end.

(** Fuel for dropping one descriptor: a listener, its backlog of at most
    [SOCK_BACKLOG] endpoints, and for each of those the two queues of at most
    [SOCK_FD_CAP] descriptors. *)
Definition FUEL : nat := 64.

(** ** Making connections

    Each [kmalloc] is an argument: the address it returned, 0 for none. *)

Fixpoint find_listener_from (l : list Z) (p : list Z) (k : kernel) : out Z :=
  match l with
  | [] => Done 0
  | a :: l =>
      if a =? 0 then find_listener_from l p k
      else
        x ← deref (socks k) a;
        if KString.str_cmp (path x) p =? 0 then Done a else find_listener_from l p k
  end.
Definition find_listener (p : list Z) (k : kernel) : out Z := find_listener_from (listeners k) p k.

Fixpoint free_slot (i : Z) (l : list Z) : option Z :=
  match l with [] => None | a :: l => if a =? 0 then Some i else free_slot (i + 1) l end.

(** The socket, or the error. *)
Definition socket_listen (p : list Z) (own kmalloc : Z) (k : kernel) : out ((Z + Z) * kernel) :=
  a ← find_listener p k;
  if negb (a =? 0) then Done (inl (- W_EEXIST), k)
  else
    match free_slot 0 (listeners k) with
    | None => Done (inl (- W_ENFILE), k)
    | Some slot =>
        if kmalloc =? 0 then Done (inl (- W_ENOMEM), k)
        else
          let s := Socket 1 true (strl (Path.W_PATH_MAX + 1) p) own [] 0 false in
          Done (inr kmalloc, with_listeners (upd slot kmalloc (listeners k)) (put_sock kmalloc s k))
    end.

Definition socket_connect (p : list Z) (uid kconn kmine ktheirs : Z) (k : kernel) : out ((Z + Z) * kernel) :=
  l ← find_listener p k;
  if l =? 0 then Done (inl (- W_ENOENT), k)
  else
    x ← deref (socks k) l;
    if (negb (uid =? owner x) && negb (uid =? Path.W_ROOT_UID))%bool then Done (inl (- W_EPERM), k)
    else if SOCK_BACKLOG <=? Zlen (backlog x) then Done (inl (- W_EBUSY), k)
    else if ((kconn =? 0) || (kmine =? 0) || (ktheirs =? 0))%bool then Done (inl (- W_ENOMEM), k)
    else
      let k := put_conn kconn (Conn 2 false false no_dir no_dir) k in
      let k := put_sock kmine (Socket 1 false [] 0 [] kconn false) k in
      let k := put_sock ktheirs (Socket 1 false [] 0 [] kconn true) k in
      x ← deref (socks k) l;
      Done (inr kmine, put_sock l (set_backlog (backlog x ++ [ktheirs]) x) k).

(** [None] while there is nothing to accept. *)
Definition socket_accept (s : Z) (k : kernel) : out (option (Z + Z) * kernel) :=
  if s =? 0 then Done (Some (inl (- W_EBADF)), k)
  else
    x ← deref (socks k) s;
    if negb (listening x) then Done (Some (inl (- W_EBADF)), k)
    else
      match backlog x with
      | [] => Done (None, k)
      | c :: rest => Done (Some (inr c), put_sock s (set_backlog rest x) k)
      end.

(** ** Moving messages *)

Definition peer_gone (x : socket) (k : kernel) : out bool :=
  if conn x =? 0 then Done true else c ← deref (conns k) (conn x); Done (closed (negb (side x)) c).

Definition push_byte (b : Z) (d : sock_dir_t) : sock_dir_t :=
  Dir (upd (head d) b (buf d)) (u32 (head d + 1) `mod` SOCK_CAP) (tail d) (count d + 1) (u64 (written d + 1)) (read d)
    (fds d) (fd_head d) (fd_tail d) (fd_count d).
Definition pop_byte (d : sock_dir_t) : sock_dir_t :=
  Dir (buf d) (head d) (u32 (tail d + 1) `mod` SOCK_CAP) (count d - 1) (written d) (u64 (read d + 1))
    (fds d) (fd_head d) (fd_tail d) (fd_count d).
Definition push_fd (f : file_t) (at_ : Z) (d : sock_dir_t) : sock_dir_t :=
  Dir (buf d) (head d) (tail d) (count d) (written d) (read d) (upd (fd_head d) (SockFd f at_) (fds d))
    (u32 (fd_head d + 1) `mod` SOCK_FD_CAP) (fd_tail d) (fd_count d + 1).

(** [while (n < len && d->count < SOCK_CAP)]. *)
Fixpoint send_loop (d : sock_dir_t) (n : Z) (rest : list Z) : sock_dir_t * Z * list Z :=
  match rest with
  | [] => (d, n, [])
  | b :: rest' => if count d <? SOCK_CAP then send_loop (push_byte b d) (n + 1) rest' else (d, n, rest)
  end.

Inductive send_result :=
| SWaitFds                         (** nothing done yet: the call starts over *)
| SWaitBytes (n : Z) (rest : list Z)
| SRet (r : Z).

(** The loop over the bytes, [n] of them sent.  A turn sends everything or fills
    the buffer, so the second one returns or waits. *)
Fixpoint send_bytes (turns : nat) (c : Z) (i : bool) (n : Z) (rest : list Z) (k : kernel) : out (send_result * kernel) :=
  match turns with
  | O => Done (SWaitBytes n rest, k)
  | S turns =>
      match rest with
      | [] => Done (SRet (i32 n), k)
      | _ =>
          x ← deref (conns k) c;
          if closed (negb i) x then Done (SRet (if 0 <? n then i32 n else - W_EPIPE), k)
          else if count (dir i x) =? SOCK_CAP then Done (SWaitBytes n rest, k)
          else
            let '(d, n, rest) := send_loop (dir i x) n rest in
            send_bytes turns c i n rest (put_conn c (set_dir i d x) k)
      end
  end.

Fixpoint queue_fds (c : Z) (i : bool) (len : Z) (passing : list file_t) (k : kernel) : out kernel :=
  match passing with
  | [] => Done k
  | f :: passing =>
      x ← deref (conns k) c;
      let d := dir i x in
      let k := put_conn c (set_dir i (push_fd f (u64 (written d + len)) d) x) k in
      k ← vfs_fd_retain f k;
      queue_fds c i len passing k
  end.

Definition socket_send (s : Z) (bytes : list Z) (passing : list file_t) (k : kernel) : out (send_result * kernel) :=
  if s =? 0 then Done (SRet (- W_EBADF), k)
  else
    x ← deref (socks k) s;
    if (listening x || (conn x =? 0))%bool then Done (SRet (- W_EBADF), k)
    else if SOCK_FD_CAP <? Zlen passing then Done (SRet (- W_EINVAL), k)
    else
      c ← deref (conns k) (conn x);
      if SOCK_FD_CAP - fd_count (dir (side x) c) <? Zlen passing then
        gone ← peer_gone x k;
        Done (if gone : bool then SRet (- W_EPIPE) else SWaitFds, k)
      else
        k ← queue_fds (conn x) (side x) (Zlen bytes) passing k;
        send_bytes 2 (conn x) (side x) 0 bytes k.

(** A sender woken in the byte loop goes on from there. *)
Definition socket_send_more (s : Z) (n : Z) (rest : list Z) (k : kernel) : out (send_result * kernel) :=
  x ← deref (socks k) s; send_bytes 2 (conn x) (side x) n rest k.

Fixpoint recv_loop (fuel : nat) (d : sock_dir_t) (n len : Z) (out : list Z) : sock_dir_t * list Z :=
  match fuel with
  | O => (d, out)
  | S fuel =>
      if ((n <? len) && (0 <? count d))%bool
      then recv_loop fuel (pop_byte d) (n + 1) len (out ++ [(buf d).[tail d]])
      else (d, out)
  end.

Fixpoint recv_fds (want : nat) (d : sock_dir_t) (got : list file_t) : sock_dir_t * list file_t :=
  match want with
  | O => (d, got)
  | S want =>
      if ((0 <? fd_count d) && (at_ (fds d).[fd_tail d] <=? read d))%bool
      then recv_fds want (advance_fds d) (got ++ [file (fds d).[fd_tail d]])
      else (d, got)
  end.

Inductive recv_result :=
| RWait
| RGot (r : Z) (bytes : list Z) (arrived : list file_t).

(** [want] is [*fd_count], or 0 where the caller passes no array. *)
Definition socket_recv (s : Z) (len want : Z) (k : kernel) : out (recv_result * kernel) :=
  if s =? 0 then Done (RGot (- W_EBADF) [] [], k)
  else
    x ← deref (socks k) s;
    if (listening x || (conn x =? 0))%bool then Done (RGot (- W_EBADF) [] [], k)
    else
      c ← deref (conns k) (conn x);
      let i := negb (side x) in
      let d := dir i c in
      gone ← peer_gone x k;
      if ((count d =? 0) && (fd_count d =? 0) && negb gone)%bool then Done (RWait, k)
      else
        let '(d, bytes) := recv_loop (Z.to_nat len) d 0 len [] in
        let '(d, arrived) := recv_fds (Z.to_nat want) d [] in
        Done (RGot (i32 (Zlen bytes)) bytes arrived, put_conn (conn x) (set_dir i d c) k).

(** ** Readiness *)

Definition socket_pollin (s : Z) (k : kernel) : out bool :=
  if s =? 0 then Done true
  else
    x ← deref (socks k) s;
    if listening x then Done (0 <? Zlen (backlog x))
    else if conn x =? 0 then Done true
    else
      c ← deref (conns k) (conn x);
      let d := dir (negb (side x)) c in
      gone ← peer_gone x k;
      Done ((0 <? count d) || (0 <? fd_count d) || gone)%bool.

Definition socket_pollout (s : Z) (k : kernel) : out bool :=
  if s =? 0 then Done false
  else
    x ← deref (socks k) s;
    if (listening x || (conn x =? 0))%bool then Done false
    else
      gone ← peer_gone x k;
      if gone : bool then Done true
      else c ← deref (conns k) (conn x); Done (count (dir (side x) c) + SOCK_WRITE_CHUNK <=? SOCK_CAP).

Definition socket_hungup (s : Z) (k : kernel) : out bool :=
  if s =? 0 then Done false
  else
    x ← deref (socks k) s;
    if (listening x || (conn x =? 0))%bool then Done false
    else
      gone ← peer_gone x k;
      c ← deref (conns k) (conn x);
      let d := dir (negb (side x)) c in
      Done (gone && (count d =? 0) && (fd_count d =? 0))%bool.

End Socket.
