(* ===== verification/Refs.v ===== *)
(** Reference counts: what every object behind a descriptor has counted is the
    number of descriptors that name it, wherever they are kept: in the table
    of a process, in flight in a socket, or (for an endpoint) in the backlog of
    a listener.  The lemmas here carry that through [vfs_fd_retain],
    [vfs_fd_drop] and [socket_unref] of [Socket]. *)

From S2P Require Import Prelude Str KString Pmm Pipe Ring Shm Path Socket.

Module Refs.
Import Socket.

(** ** Who names what *)

Inductive name := RPipe (a : Z) | WPipe (a : Z) | NSock (a : Z) | NShm (a : Z) | NInput.

#[export] Instance name_eq_dec : EqDecision name.
Proof. solve_decision. Defined.

Definition names (f : file_t) : list name :=
  match type f with
  | FD_PIPE => [if write_end f then WPipe (pipe f) else RPipe (pipe f)]
  | FD_SOCKET => [NSock (sock f)]
  | FD_SHM => [NShm (shm f)]
  | FD_INPUT => [NInput]
  | _ => []
  end.

(** The count an object keeps; none for an object that is not there. *)
Definition stored (k : kernel) (n : name) : Z :=
  match n with
  | RPipe a => from_option Pipe.readers 0 (pipes k !! a)
  | WPipe a => from_option Pipe.writers 0 (pipes k !! a)
  | NSock a => from_option refs 0 (socks k !! a)
  | NShm a => from_option Shm.refs 0 (shms k !! a)
  | NInput => event_refs (kbd k)
  end.

Definition num (n : name) (l : list name) : Z := countb (fun m => bool_decide (m = n)) l.

Definition exact (l : list name) (k : kernel) : Prop := forall n, stored k n = num n l.

Lemma num_cons n m l : num n (m :: l) = (if decide (m = n) then 1 else 0) + num n l.
Proof. unfold num. rewrite countb_cons. case_bool_decide; by case_decide. Qed.

Lemma num_app n l1 l2 : num n (l1 ++ l2) = num n l1 + num n l2.
Proof. apply countb_app. Qed.

#[export] Instance num_perm n : Proper ((≡ₚ) ==> (=)) (num n).
Proof. apply countb_perm. Qed.

#[export] Instance exact_perm : Proper ((≡ₚ) ==> (=) ==> (iff)) exact.
Proof. intros l1 l2 H k _ <-. unfold exact. by setoid_rewrite H. Qed.

Lemma num_nonneg n l : 0 <= num n l.
Proof. apply countb_bounds. Qed.

Lemma num_pos n l : n ∈ l -> 0 < num n l.
Proof. intros. eapply countb_pos; [done |]. by apply bool_decide_eq_true. Qed.

Lemma num_zero n l : n ∉ l -> num n l = 0.
Proof. intros H. apply countb_zero. intros x Hx. apply bool_decide_eq_false. by intros ->. Qed.

(** ** Pipes, shared memory and the keyboard *)

Record objs_ok (k : kernel) : Prop := {
  o_null : pipes k !! 0 = None /\ shms k !! 0 = None /\ socks k !! 0 = None /\ conns k !! 0 = None;
  o_pipe : forall a p, pipes k !! a = Some p -> 0 < Pipe.readers p + Pipe.writers p;
  o_shm : forall a s, shms k !! a = Some s -> 0 < Shm.refs s /\ Shm.shm_ok (pmm k) s;
  o_frames : NoDup (gather Shm.frame (shms k));
  o_pmm : Pmm.pmm_inv (pmm k);
}.

(** The socket side of the kernel, which these leave alone. *)
Definition same_sockets (k k' : kernel) : Prop :=
  socks k' = socks k /\ conns k' = conns k /\ listeners k' = listeners k.

Lemma named_pipe l k a w :
  exact l k -> (if w : bool then WPipe a else RPipe a) ∈ l -> exists p, pipes k !! a = Some p.
Proof.
  intros He Hin. apply num_pos in Hin. rewrite <- (He _) in Hin.
  destruct (pipes k !! a) as [p |] eqn:E; [by exists p |]. destruct w; cbn in Hin; rewrite E in Hin; cbn in Hin; lia.
Qed.

Lemma named_shm l k a : exact l k -> NShm a ∈ l -> exists s, shms k !! a = Some s.
Proof.
  intros He Hin. apply num_pos in Hin. rewrite <- (He _) in Hin. cbn in Hin.
  destruct (shms k !! a) as [p |] eqn:E; [by exists p |]. cbn in Hin. lia.
Qed.

Lemma named_sock l k a : exact l k -> NSock a ∈ l -> exists s, socks k !! a = Some s.
Proof.
  intros He Hin. apply num_pos in Hin. rewrite <- (He _) in Hin. cbn in Hin.
  destruct (socks k !! a) as [p |] eqn:E; [by exists p |]. cbn in Hin. lia.
Qed.

(** The counts after one object of the table changed. *)
Lemma exact_pipe l l' k a x :
  exact l k ->
  (forall n, (forall w, n <> if w : bool then WPipe a else RPipe a) -> num n l' = num n l) ->
  from_option Pipe.readers 0 x = num (RPipe a) l' -> from_option Pipe.writers 0 x = num (WPipe a) l' ->
  exact l' (with_pipes (partial_alter (fun _ => x) a (pipes k)) k).
Proof.
  intros He Hn Hr Hw n. destruct n as [b | b | b | b |]; cbn [stored pipes socks shms kbd with_pipes].
  1, 2: destruct (decide (b = a)) as [-> | Hb];
    [by rewrite lookup_partial_alter_eq | rewrite lookup_partial_alter_ne by done;
     rewrite Hn by (intros []; congruence); apply (He (RPipe b)) || apply (He (WPipe b))].
  all: rewrite Hn by (by intros []); apply (He (NSock b)) || apply (He (NShm b)) || apply (He NInput).
Qed.

Lemma exact_shm l l' k a x p :
  exact l k -> (forall n, n <> NShm a -> num n l' = num n l) ->
  from_option Shm.refs 0 x = num (NShm a) l' ->
  exact l' (with_shms (partial_alter (fun _ => x) a (shms k)) p k).
Proof.
  intros He Hn Hr n. destruct n as [b | b | b | b |]; cbn [stored pipes socks shms kbd with_shms].
  4: destruct (decide (b = a)) as [-> | Hb];
    [by rewrite lookup_partial_alter_eq | rewrite lookup_partial_alter_ne by done;
     rewrite Hn by congruence; apply (He (NShm b))].
  all: rewrite Hn by done; apply (He (RPipe b)) || apply (He (WPipe b)) || apply (He (NSock b)) || apply (He NInput).
Qed.

Lemma exact_sock l l' k a x :
  exact l k -> (forall n, n <> NSock a -> num n l' = num n l) ->
  from_option refs 0 x = num (NSock a) l' ->
  exact l' (with_socks (partial_alter (fun _ => x) a (socks k)) k).
Proof.
  intros He Hn Hr n. destruct n as [b | b | b | b |]; cbn [stored pipes socks shms kbd with_socks].
  3: destruct (decide (b = a)) as [-> | Hb];
    [by rewrite lookup_partial_alter_eq | rewrite lookup_partial_alter_ne by done;
     rewrite Hn by congruence; apply (He (NSock b))].
  all: rewrite Hn by done; apply (He (RPipe b)) || apply (He (WPipe b)) || apply (He (NShm b)) || apply (He NInput).
Qed.

Lemma exact_input l l' k b :
  exact l k -> (forall n, n <> NInput -> num n l' = num n l) -> event_refs b = num NInput l' ->
  exact l' (with_kbd b k).
Proof.
  intros He Hn Hr n. destruct n as [a | a | a | a |]; cbn [stored pipes socks shms kbd with_kbd]; [.. | done].
  all: rewrite Hn by done; apply (He (RPipe a)) || apply (He (WPipe a)) || apply (He (NSock a)) || apply (He (NShm a)).
Qed.

Lemma num_cons_ne n m l : n <> m -> num n (m :: l) = num n l.
Proof. intros. rewrite num_cons. case_decide; [congruence | lia]. Qed.

Lemma num_cons_eq n l : num n (n :: l) = 1 + num n l.
Proof. rewrite num_cons. case_decide; [lia | done]. Qed.

Ltac num_solve := rewrite ?num_cons_eq, ?num_cons_ne by (congruence || done); try lia; try done.

Lemma pipe_ref_spec a w l k :
  exact l k -> objs_ok k -> (if w : bool then WPipe a else RPipe a) ∈ l ->
  exists k', pipe_ref a w k = Done k' /\ exact ((if w then WPipe a else RPipe a) :: l) k' /\ objs_ok k' /\ same_sockets k k'.
Proof.
  intros He Ho Hin. destruct (named_pipe _ _ _ _ He Hin) as [p Hp]. destruct Ho as [Hnull Hpipe Hshm Hfr Hpmm].
  assert (a <> 0) by (intros ->; destruct Hnull as (? & _); congruence). unfold pipe_ref. rewrite (proj2 (Z.eqb_neq a 0)) by done.
  rewrite (deref_some _ _ _ Hp). eexists. split; [done |].
  pose proof (He (RPipe a)) as Hr. pose proof (He (WPipe a)) as Hw. cbn in Hr, Hw. rewrite Hp in Hr, Hw. cbn in Hr, Hw.
  pose proof (Hpipe a p Hp). split_and!; [| | done].
  - apply (exact_pipe l _ k a (Some (Pipe.pipe_ref p w)) He).
    + intros n Hn. apply num_cons_ne. apply (Hn w).
    + destruct w; cbn; num_solve.
    + destruct w; cbn; num_solve.
  - split; cbn [pipes socks conns shms pmm with_pipes]; try done.
    + rewrite lookup_insert_ne by done. done.
    + intros b q. destruct (decide (a = b)) as [-> | Hb]; [| rewrite lookup_insert_ne by done; apply Hpipe].
      rewrite lookup_insert_eq. intros [= <-]. destruct w; cbn; lia.
Qed.

Lemma pipe_unref_spec a w l k :
  exact ((if w : bool then WPipe a else RPipe a) :: l) k -> objs_ok k ->
  exists k', pipe_unref a w k = Done k' /\ exact l k' /\ objs_ok k' /\ same_sockets k k'.
Proof.
  intros He Ho. destruct (named_pipe _ _ a w He) as [p Hp]; [left |]. destruct Ho as [Hnull Hpipe Hshm Hfr Hpmm].
  assert (a <> 0) by (intros ->; destruct Hnull as (? & _); congruence). unfold pipe_unref. rewrite (proj2 (Z.eqb_neq a 0)) by done.
  rewrite (deref_some _ _ _ Hp). cbn [mbind out_bind].
  pose proof (He (RPipe a)) as Hr. pose proof (He (WPipe a)) as Hw. cbn in Hr, Hw. rewrite Hp in Hr, Hw. cbn in Hr, Hw.
  pose proof (num_nonneg (RPipe a) l). pose proof (num_nonneg (WPipe a) l).
  assert (Hnum : forall n, (forall v : bool, n <> if v then WPipe a else RPipe a) ->
    num n l = num n ((if w then WPipe a else RPipe a) :: l)).
  { intros n Hn. symmetry. apply num_cons_ne. apply (Hn w). }
  destruct (Pipe.pipe_unref p w) as [q freed] eqn:E. eexists. split; [done |].
  unfold Pipe.pipe_unref in E. destruct freed.
  - split_and!; [| | done].
    + apply (exact_pipe _ _ k a None He Hnum).
      all: destruct w; cbn in E; case_ifs; simplify_eq; cbn in *; rewrite ?num_cons_eq, ?num_cons_ne in * by done; lia.
    + split; cbn [pipes socks conns shms pmm with_pipes]; try done.
      * by rewrite lookup_delete_ne.
      * intros b q'. rewrite lookup_delete_Some. intros [_ ?]. by apply (Hpipe b).
  - split_and!; [| | done].
    + apply (exact_pipe _ _ k a (Some q) He Hnum).
      all: destruct w; cbn in E; case_ifs; simplify_eq; cbn in *; rewrite ?num_cons_eq, ?num_cons_ne in * by done; lia.
    + split; cbn [pipes socks conns shms pmm with_pipes]; try done.
      * by rewrite lookup_insert_ne.
      * intros b q'. destruct (decide (a = b)) as [-> | Hb]; [| rewrite lookup_insert_ne by done; apply Hpipe].
        rewrite lookup_insert_eq. intros [= <-].
        destruct w; cbn in E; split_ifs; simplify_eq; cbn in *; rewrite ?num_cons_eq, ?num_cons_ne in * by done; lia.
Qed.

Lemma shm_ref_spec a l k :
  exact l k -> objs_ok k -> NShm a ∈ l ->
  exists k', shm_ref a k = Done k' /\ exact (NShm a :: l) k' /\ objs_ok k' /\ same_sockets k k'.
Proof.
  intros He Ho Hin. destruct (named_shm _ _ _ He Hin) as [s Hs]. destruct Ho as [Hnull Hpipe Hshm Hfr Hpmm].
  assert (a <> 0) by (intros ->; destruct Hnull as (_ & ? & _); congruence).
  unfold shm_ref. rewrite (proj2 (Z.eqb_neq a 0)) by done. rewrite (deref_some _ _ _ Hs).
  eexists. split; [done |]. pose proof (He (NShm a)) as Hr. cbn in Hr. rewrite Hs in Hr. cbn in Hr.
  destruct (Hshm a s Hs) as [Hpos Hok]. split_and!; [| | done].
  - apply (exact_shm l _ k a (Some (Shm.shm_ref s)) _ He); [intros n Hn; by apply num_cons_ne |].
    cbn. num_solve.
  - split; cbn [pipes socks conns shms pmm with_shms]; try done.
    + by rewrite lookup_insert_ne.
    + intros b q. destruct (decide (a = b)) as [-> | Hb]; [| rewrite lookup_insert_ne by done; apply Hshm].
      rewrite lookup_insert_eq. intros [= <-]. cbn. split; [lia |]. by destruct Hok.
    + rewrite gather_insert. cbn [Shm.shm_ref Shm.frame]. by rewrite (gather_split _ _ _ _ Hs) in Hfr.
Qed.

(** Giving up the frames of one object leaves those of the others. *)
Lemma shm_others k a s p :
  objs_ok k -> shms k !! a = Some s -> Pmm.total_frames p = Pmm.total_frames (pmm k) ->
  (forall g, 0 <= g -> Pmm.used p g = (Pmm.used (pmm k) g && negb (Shm.holds (Shm.frame s) g))%bool) ->
  forall b s', shms k !! b = Some s' -> b <> a -> 0 < Shm.refs s' /\ Shm.shm_ok p s'.
Proof.
  intros [_ _ Hshm Hfr _] Hs Ht Hu b s' Hb Hne. destruct (Hshm b s' Hb) as [Hpos [Hp [Hnd Hown]]].
  split; [done |]. split; [done |]. split; [done |]. rewrite Forall_forall in Hown |- *.
  intros x Hx. destruct (Hown x Hx) as (g & -> & Hg & Hug). exists g. rewrite Ht, Hu, Hug by lia.
  split; [done | split; [done |]]. cbn [andb]. apply negb_true_iff. apply bool_decide_eq_false. intros Hin.
  rewrite (gather_split _ _ _ _ Hs) in Hfr. apply NoDup_app in Hfr as (_ & Hdis & _).
  apply (Hdis _ Hin). apply elem_of_gather. exists b, s'. by rewrite lookup_delete_ne.
Qed.

Lemma shm_unref_spec a l k :
  exact (NShm a :: l) k -> objs_ok k ->
  exists k', shm_unref a k = Done k' /\ exact l k' /\ objs_ok k' /\ same_sockets k k'.
Proof.
  intros He Ho. destruct (named_shm _ _ a He) as [s Hs]; [left |]. pose proof Ho as [Hnull Hpipe Hshm Hfr Hpmm].
  assert (a <> 0) by (intros ->; destruct Hnull as (_ & ? & _); congruence).
  unfold shm_unref. rewrite (proj2 (Z.eqb_neq a 0)) by done. rewrite (deref_some _ _ _ Hs). cbn [mbind out_bind].
  pose proof (He (NShm a)) as Hr. cbn in Hr. rewrite Hs in Hr. cbn in Hr. rewrite num_cons_eq in Hr.
  destruct (Hshm a s Hs) as [Hpos Hok].
  assert (Hnum : forall n, n <> NShm a -> num n l = num n (NShm a :: l)) by (intros; symmetry; by apply num_cons_ne).
  destruct (Shm.shm_release_spec s (pmm k) Hpmm Hok) as (o & p & E & Hp & Ht & Hcase). rewrite E. cbn [of_res].
  eexists. split; [done |]. destruct (Z.ltb_spec 1 (Shm.refs s)).
  - destruct Hcase as [-> ->]. split_and!; [| | done].
    + apply (exact_shm _ _ k a (Some _) _ He Hnum). cbn. lia.
    + split; cbn [pipes socks conns shms pmm with_shms]; try done.
      * by rewrite lookup_insert_ne.
      * intros b q. destruct (decide (a = b)) as [-> | Hb]; [| rewrite lookup_insert_ne by done; apply Hshm].
        rewrite lookup_insert_eq. intros [= <-]. cbn. split; [lia |]. by destruct Hok.
      * rewrite gather_insert. cbn [Shm.frame]. by rewrite (gather_split _ _ _ _ Hs) in Hfr.
  - destruct Hcase as [-> Hu]. pose proof (num_nonneg (NShm a) l). split_and!; [| | done].
    + apply (exact_shm _ _ k a None _ He Hnum). cbn. lia.
    + split; cbn [pipes socks conns shms pmm with_shms]; try done.
      * by rewrite lookup_delete_ne.
      * intros b q. rewrite lookup_delete_Some. intros [Hb Hq]. by apply (shm_others k a s p Ho Hs Ht Hu b q Hq).
      * rewrite (gather_split _ _ _ _ Hs) in Hfr. by apply NoDup_app in Hfr as (_ & _ & ?).
Qed.

Lemma kbd_ref_refs b : 0 <= event_refs b -> event_refs (keyboard_events_ref b) = event_refs b + 1.
Proof. unfold keyboard_events_ref. by destruct (event_refs b =? 0). Qed.

Lemma kbd_unref_refs b : 0 < event_refs b -> event_refs (keyboard_events_unref b) = event_refs b - 1.
Proof.
  intros. unfold keyboard_events_unref. rewrite (proj2 (Z.ltb_lt _ _)) by done. by destruct (_ =? 0).
Qed.

(** Retaining what is already named, and dropping it, for everything but a
    socket. *)
Lemma retain_spec f l k :
  exact l k -> objs_ok k -> type f <> FD_SOCKET -> names f ⊆ l ->
  exists k', vfs_fd_retain f k = Done k' /\ exact (names f ++ l) k' /\ objs_ok k' /\ same_sockets k k'.
Proof.
  intros He Ho Hns Hin. unfold vfs_fd_retain, names in *. destruct (type f); try done; try by (exists k).
  - assert (Hi : (if write_end f then WPipe (pipe f) else RPipe (pipe f)) ∈ l) by (apply Hin; left).
    by apply pipe_ref_spec.
  - apply shm_ref_spec; [done.. |]. apply Hin. left.
  - eexists. split; [done |]. pose proof (He NInput) as Hr. cbn in Hr. pose proof (num_nonneg NInput l).
    split_and!; [| by destruct Ho | done]. cbn [app].
    apply (exact_input l _ k _ He); [intros n Hn; by apply num_cons_ne |].
    rewrite kbd_ref_refs by lia. num_solve.
Qed.

Lemma drop_spec fuel f l k :
  exact (names f ++ l) k -> objs_ok k -> type f <> FD_SOCKET ->
  exists k', vfs_fd_drop (S fuel) f k = Done k' /\ exact l k' /\ objs_ok k' /\ same_sockets k k'.
Proof.
  intros He Ho Hns. cbn [vfs_fd_drop]. unfold names in *. destruct (type f); cbn [app] in He; try done; try by (exists k).
  - by apply pipe_unref_spec.
  - by apply shm_unref_spec.
  - eexists. split; [done |]. pose proof (He NInput) as Hr. cbn in Hr. rewrite num_cons_eq in Hr.
    pose proof (num_nonneg NInput l). split_and!; [| by destruct Ho | done].
    apply (exact_input _ l k _ He); [intros n Hn; symmetry; by apply num_cons_ne |].
    rewrite kbd_unref_refs by lia. lia.
Qed.

(** ** Descriptors in flight *)

Definition queue (d : sock_dir_t) : list sock_fd_t := ring SOCK_FD_CAP (fds d) (fd_tail d) (fd_count d).
Definition inflight (d : sock_dir_t) : list file_t := file <$> queue d.

(** The positions in the stream: what was written is what was read and what is
    in the buffer. *)
Definition placed (d : sock_dir_t) : Prop := is_u64 (read d) /\ written d = u64 (read d + count d).

Definition dir_ok (d : sock_dir_t) : Prop :=
  ring_ok SOCK_FD_CAP (fds d) (fd_head d) (fd_tail d) (fd_count d) /\
  ring_ok SOCK_CAP (buf d) (head d) (tail d) (count d) /\ placed d.

Definition file_names (l : list file_t) : list name := l ≫= names.

Lemma file_names_app l1 l2 : file_names (l1 ++ l2) = file_names l1 ++ file_names l2.
Proof. apply bind_app. Qed.

Definition no_socket (l : list file_t) : Prop := Forall (fun f => type f <> FD_SOCKET) l.

Lemma advance_spec d :
  dir_ok d -> 0 < fd_count d ->
  dir_ok (advance_fds d) /\ queue d = (fds d).[fd_tail d] :: queue (advance_fds d).
Proof.
  intros (Hf & Hb & Hp) Hpos. destruct (ring_pop SOCK_FD_CAP ltac:(unfold SOCK_FD_CAP; lia) _ _ _ _ Hf Hpos) as [? E].
  split; [done |]. exact E.
Qed.

Lemma exact_conns l k m : exact l (with_conns m k) <-> exact l k.
Proof. split; intros He n; rewrite <- (He n); by destruct n. Qed.

Lemma exact_listeners l k m : exact l (with_listeners m k) <-> exact l k.
Proof. split; intros He n; rewrite <- (He n); by destruct n. Qed.

Lemma objs_put_conn k c y : objs_ok k -> c <> 0 -> objs_ok (put_conn c y k).
Proof.
  intros [(? & ? & ? & ?) ? ? ? ?] Hc. split; try done. cbn [put_conn with_conns pipes shms socks conns].
  by rewrite lookup_insert_ne.
Qed.

Lemma dir_set_dir i j d c : dir i (set_dir j d c) = if decide (i = j) then d else dir i c.
Proof. by destruct i, j. Qed.

(** Everything of a connection but the descriptors queued in one direction. *)
Definition drained (i : bool) (y y' : sock_conn) : Prop :=
  inflight (dir i y') = [] /\ dir_ok (dir i y') /\ dir (negb i) y' = dir (negb i) y /\
  crefs y' = crefs y /\ closed0 y' = closed0 y /\ closed1 y' = closed1 y.

Lemma drop_queued_spec n : forall c i k y l,
  conns k !! c = Some y -> c <> 0 -> dir_ok (dir i y) -> no_socket (inflight (dir i y)) ->
  exact (file_names (inflight (dir i y)) ++ l) k -> objs_ok k -> fd_count (dir i y) < Z.of_nat n ->
  exists k' y', drop_queued_fds n c i k = Done k' /\ exact l k' /\ objs_ok k' /\
    socks k' = socks k /\ listeners k' = listeners k /\ conns k' = <[c := y']> (conns k) /\ drained i y y'.
Proof.
  induction n as [| n IH]; intros c i k y l Hy Hc Hd Hns He Ho Hfuel.
  { destruct Hd as [(_ & _ & ? & _) _]. lia. }
  cbn [drop_queued_fds]. rewrite (deref_some _ _ _ Hy). cbn [mbind out_bind]. cbv zeta.
  destruct (Z.ltb_spec 0 (fd_count (dir i y))) as [Hpos | Hz].
  - destruct (advance_spec _ Hd Hpos) as [Hd' Hq]. unfold inflight in Hns, He. rewrite Hq in Hns, He.
    cbn [fmap list_fmap] in Hns, He. apply Forall_cons in Hns as [Hf Hns]. cbn [file_names mbind list_bind] in He.
    change (list_bind _ _ names (?x)) with (file_names x) in He. rewrite <- app_assoc in He.
    destruct n as [| n]; [lia |]. destruct (drop_spec n _ _ k He Ho Hf) as (k1 & -> & He1 & Ho1 & Hs1 & Hc1 & Hl1).
    cbn [mbind out_bind]. rewrite (deref_some (conns k1) c y) by congruence. cbn [mbind out_bind].
    set (y1 := set_dir i (advance_fds (dir i y)) y). assert (Hdir : dir i y1 = advance_fds (dir i y)) by (by destruct i).
    destruct (IH c i (put_conn c y1 k1) y1 l) as (k' & y' & E & He' & Ho' & Hs' & Hl' & Hc' & Hdr).
    + apply lookup_insert_eq.
    + done.
    + by rewrite Hdir.
    + by rewrite Hdir.
    + apply exact_conns. by rewrite Hdir.
    + by apply objs_put_conn.
    + rewrite Hdir. cbn. lia.
    + exists k', y'. split_and!; try done; [by rewrite Hs' | by rewrite Hl' | |].
      * rewrite Hc'. cbn [put_conn with_conns conns]. by rewrite insert_insert_eq, Hc1.
      * unfold y1 in Hdr. unfold drained in *. by destruct i.
  - exists k, y. pose proof Hd as [(_ & _ & Hcnt & _) _].
    assert (Hnil : inflight (dir i y) = []).
    { unfold inflight, queue, ring. by replace (fd_count (dir i y)) with 0 by lia. }
    rewrite Hnil in He. split_and!; try done. by rewrite insert_id.
Qed.

(** ** Endpoints and connections *)

Definition conn_names (y : sock_conn) : list name := file_names (inflight (dir0 y) ++ inflight (dir1 y)).
Definition queued (k : kernel) : list name := gather conn_names (conns k).

Definition conn_ok (y : sock_conn) : Prop := forall i, dir_ok (dir i y) /\ no_socket (inflight (dir i y)).

Definition open_ends (y : sock_conn) : Z := Z.b2z (negb (closed0 y)) + Z.b2z (negb (closed1 y)).

(** Each open side of a connection is one endpoint, and each endpoint is an open
    side of a connection. *)
Record cinv (ss : gmap Z socket) (cs : gmap Z sock_conn) : Prop := {
  c_end : forall a x, ss !! a = Some x ->
    if listening x then conn x = 0 else backlog x = [] /\ exists y, cs !! conn x = Some y /\ closed (side x) y = false;
  c_uniq : forall a b x y, ss !! a = Some x -> ss !! b = Some y -> listening x = false -> listening y = false ->
    conn x = conn y -> side x = side y -> a = b;
  c_conn : forall c y, cs !! c = Some y -> conn_ok y /\ crefs y = open_ends y /\ 0 < crefs y /\
    forall i, closed i y = false -> exists a x, ss !! a = Some x /\ listening x = false /\ conn x = c /\ side x = i;
}.

Lemma cinv_set_refs ss cs a x n : cinv ss cs -> ss !! a = Some x -> cinv (<[a := set_refs n x]> ss) cs.
Proof.
  intros [He Hu Hc] Ha.
  assert (Hl : forall b z, <[a := set_refs n x]> ss !! b = Some z ->
    exists z0, ss !! b = Some z0 /\ listening z = listening z0 /\ conn z = conn z0 /\ side z = side z0 /\ backlog z = backlog z0).
  { intros b z. destruct (decide (a = b)) as [<- | Hb].
    - rewrite lookup_insert_eq. intros [= <-]. by exists x.
    - rewrite lookup_insert_ne by done. intros. by exists z. }
  split.
  - intros b z Hb. destruct (Hl b z Hb) as (z0 & Hz & -> & -> & -> & ->). by apply (He b).
  - intros b b' z z' Hb Hb'. destruct (Hl b z Hb) as (z0 & Hz & -> & -> & -> & _).
    destruct (Hl b' z' Hb') as (z0' & Hz' & -> & -> & -> & _). by apply Hu.
  - intros c y Hy. destruct (Hc c y Hy) as (? & ? & ? & Hown). split_and!; try done. intros i Hi.
    destruct (Hown i Hi) as (b & z & Hb & ? & ? & ?). destruct (decide (a = b)) as [<- | Hne].
    + exists a, (set_refs n x). rewrite lookup_insert_eq. simplify_eq. done.
    + exists b, z. by rewrite lookup_insert_ne.
Qed.

Lemma conn_names_side i y :
  conn_names y ≡ₚ file_names (inflight (dir i y)) ++ file_names (inflight (dir (negb i) y)).
Proof. unfold conn_names. rewrite file_names_app. destruct i; cbn [dir negb]; [apply Permutation_app_comm | done]. Qed.

(** The connection as a closing endpoint leaves it. *)
Lemma closed_conn y y2 y3 i :
  conn_ok y -> closed i y = false -> crefs y = open_ends y ->
  drained i (set_closed i y) y2 -> drained (negb i) y2 y3 ->
  conn_ok y3 /\ conn_names y3 = [] /\ crefs y3 = open_ends y3 + 1 /\ closed i y3 = true /\
  closed (negb i) y3 = closed (negb i) y /\ crefs y3 = crefs y.
Proof.
  intros Hok Hcl Hr (Hq2 & Hd2 & He2 & Hr2 & H02 & H12) (Hq3 & Hd3 & He3 & Hr3 & H03 & H13).
  rewrite negb_involutive in He3.
  assert (Hq : forall j, inflight (dir j y3) = [] /\ dir_ok (dir j y3)).
  { intros j. destruct (decide (j = i)) as [-> | Hj]; [by rewrite He3 |]. assert (j = negb i) as -> by (by destruct i, j).
    done. }
  split_and!.
  - intros j. destruct (Hq j) as [Hn Hd]. split; [done |]. rewrite Hn. constructor.
  - destruct (Hq false) as [E0 _], (Hq true) as [E1 _]. cbn [dir] in E0, E1. unfold conn_names. by rewrite E0, E1.
  - rewrite Hr3, Hr2. unfold open_ends in *. destruct i; cbn in *; rewrite H03, H13, H02, H12; cbn; rewrite Hcl in Hr; cbn in Hr; lia.
  - destruct i; cbn in *; congruence.
  - destruct i; cbn in *; congruence.
  - destruct i; cbn in *; congruence.
Qed.

(** The tables after an endpoint [s] of connection [c] closed. *)
Lemma cinv_close ss cs s x y y3 :
  cinv ss cs -> ss !! s = Some x -> listening x = false -> cs !! conn x = Some y ->
  conn_ok y3 -> crefs y3 = open_ends y3 + 1 -> closed (side x) y3 = true ->
  closed (negb (side x)) y3 = closed (negb (side x)) y ->
  let y4 := Conn (crefs y3 - 1) (closed0 y3) (closed1 y3) (dir0 y3) (dir1 y3) in
  cinv (delete s ss) (if crefs y4 <=? 0 then delete (conn x) cs else <[conn x := y4]> cs).
Proof.
  intros [He Hu Hc] Hs Hlis Hy Hok3 Hr3 Hcl3 Hop3 y4.
  assert (Hside : forall j, closed j y4 = if decide (j = side x) then true else closed j y).
  { intros j. case_decide as E; [subst j; by destruct (side x) |].
    assert (j = negb (side x)) as -> by (by destruct j, (side x)). rewrite <- Hop3. by destruct (side x). }
  assert (Hr4 : crefs y4 = open_ends y4) by (unfold y4, open_ends in *; cbn [crefs closed0 closed1]; lia).
  assert (Hkeep : forall j, closed j y4 = false -> (crefs y4 <=? 0) = false).
  { intros j Hj. rewrite Hr4. apply Z.leb_gt. unfold open_ends. clearbody y4.
    destruct j; cbn [closed] in Hj; rewrite Hj; [destruct (closed0 y4) | destruct (closed1 y4)]; cbn; lia. }
  split.
  - intros a z. rewrite lookup_delete_Some. intros [Has Ha]. pose proof (He a z Ha) as Hz.
    destruct (listening z) eqn:Elz; [done |]. destruct Hz as [Hb (yz & Hyz & Hcz)]. split; [done |].
    destruct (decide (conn z = conn x)) as [E | E].
    + assert (Hne : side z <> side x) by (intros E'; apply Has; symmetry; by apply (Hu a s z x)).
      assert (yz = y) as -> by congruence.
      assert (Hj : closed (side z) y4 = false) by (rewrite Hside; by case_decide).
      rewrite (Hkeep _ Hj), E. exists y4. by rewrite lookup_insert_eq.
    + exists yz. split; [| done]. destruct (crefs y4 <=? 0); [by rewrite lookup_delete_ne | by rewrite lookup_insert_ne].
  - intros a b z z'. rewrite !lookup_delete_Some. intros [_ Ha] [_ Hb]. by apply Hu.
  - intros c yc Hyc. destruct (decide (c = conn x)) as [-> | Hne].
    + destruct (crefs y4 <=? 0) eqn:E; [by rewrite lookup_delete_eq in Hyc |]. rewrite lookup_insert_eq in Hyc.
      injection Hyc as <-. bool_to_prop. split_and!; [| done | lia |].
      * intros j. destruct (Hok3 j). by destruct j.
      * intros j Hj. rewrite Hside in Hj. case_decide as Ej; [done |]. destruct (Hc _ _ Hy) as (_ & _ & _ & Hown).
        destruct (Hown j Hj) as (a & z & Ha & ? & ? & Hsz). exists a, z. split; [| done]. apply lookup_delete_Some.
        split; [| done]. intros <-. congruence.
    + assert (Hyc' : cs !! c = Some yc).
      { destruct (crefs y4 <=? 0); [by rewrite lookup_delete_ne in Hyc | by rewrite lookup_insert_ne in Hyc]. }
      destruct (Hc c yc Hyc') as (? & ? & ? & Hown). split_and!; try done. intros j Hj.
      destruct (Hown j Hj) as (a & z & Ha & ? & Hcz & ?). exists a, z. split; [| done]. apply lookup_delete_Some.
      split; [| done]. intros <-. congruence.
Qed.

(** Both queues of a connection emptied, one after the other. *)
Lemma drop_both n c i k y ext :
  conns k !! c = Some y -> closed i y = false -> c <> 0 -> conn_ok y -> crefs y = open_ends y -> (30 <= n)%nat ->
  exact (ext ++ queued k) k -> objs_ok k ->
  exists k2 k3 y3, drop_queued_fds n c i (put_conn c (set_closed i y) k) = Done k2 /\ socks k2 = socks k /\
    drop_queued_fds n c (negb i) k2 = Done k3 /\ socks k3 = socks k /\ listeners k3 = listeners k /\
    conns k3 = <[c := y3]> (conns k) /\ objs_ok k3 /\ exact (ext ++ gather conn_names (delete c (conns k))) k3 /\
    conn_ok y3 /\ conn_names y3 = [] /\ crefs y3 = open_ends y3 + 1 /\ closed i y3 = true /\
    closed (negb i) y3 = closed (negb i) y.
Proof.
  intros Hy Hcl Hc Hok Hcr Hn He Ho. set (yc := set_closed i y).
  assert (Hyc : forall j, dir j yc = dir j y) by (intros j; unfold yc; by destruct i, j).
  assert (Hq : queued k ≡ₚ file_names (inflight (dir i y)) ++
    file_names (inflight (dir (negb i) y)) ++ gather conn_names (delete c (conns k))).
  { unfold queued. rewrite (gather_split _ _ _ _ Hy), (conn_names_side i y). by rewrite app_assoc. }
  destruct (Hok i) as [Hd0 Hns0], (Hok (negb i)) as [Hd1 Hns1].
  assert (Hcnt : forall j, fd_count (dir j y) < Z.of_nat n).
  { intros j. destruct (Hok j) as [[(_ & _ & Hcnt & _) _] _]. unfold SOCK_FD_CAP in Hcnt. lia. }
  destruct (drop_queued_spec n c i (put_conn c yc k) yc
    (ext ++ file_names (inflight (dir (negb i) y)) ++ gather conn_names (delete c (conns k))))
    as (k2 & y2 & E2 & He2 & Ho2 & Hs2 & Hl2 & Hc2 & Hdr2); rewrite ?Hyc; try done.
  { apply lookup_insert_eq. }
  { apply exact_conns. revert He. apply exact_perm; [| done]. rewrite Hq. solve_Permutation. }
  { by apply objs_put_conn. }
  pose proof Hdr2 as (_ & _ & Hdn & _). rewrite Hyc in Hdn.
  destruct (drop_queued_spec n c (negb i) k2 y2 (ext ++ gather conn_names (delete c (conns k))))
    as (k3 & y3 & E3 & He3 & Ho3 & Hs3 & Hl3 & Hc3 & Hdr3); rewrite ?Hdn; try done.
  { rewrite Hc2. apply lookup_insert_eq. }
  { revert He2. apply exact_perm; [| done]. solve_Permutation. }
  destruct (closed_conn y y2 y3 i Hok Hcl Hcr Hdr2 Hdr3) as (? & ? & ? & ? & ? & ?).
  exists k2, k3, y3. split_and!; try done; [by rewrite Hs3, Hs2 | by rewrite Hl3, Hl2 |].
  rewrite Hc3, Hc2. cbn [put_conn with_conns conns]. by rewrite !insert_insert_eq.
Qed.

(** The last reference to a connection's side, and the connection with the last side. *)
Lemma conn_unref_spec c k y ext :
  c <> 0 -> conns k !! c = Some y -> conn_names y = [] -> objs_ok k ->
  exact (ext ++ gather conn_names (delete c (conns k))) k ->
  let y4 := Conn (crefs y - 1) (closed0 y) (closed1 y) (dir0 y) (dir1 y) in
  exists k', conn_unref c k = Done k' /\ socks k' = socks k /\ listeners k' = listeners k /\ objs_ok k' /\
    exact (ext ++ queued k') k' /\
    conns k' = (if crefs y4 <=? 0 then delete c (conns k) else <[c := y4]> (conns k)).
Proof.
  intros Hc Hy Hnn Ho He y4. unfold conn_unref. rewrite (proj2 (Z.eqb_neq c 0)) by done.
  rewrite (deref_some _ _ _ Hy). cbn [mbind out_bind]. cbv zeta. fold y4.
  destruct (crefs y4 <=? 0) eqn:E.
  - unfold free_conn. rewrite (deref_some (conns (put_conn c y4 k)) c y4) by apply lookup_insert_eq. cbn [mbind out_bind].
    eexists. split; [done |]. cbn [with_conns put_conn conns socks listeners]. rewrite delete_insert_eq.
    split_and!; try done.
    destruct Ho as [(? & ? & ? & ?) ? ? ? ?]. split; try done. cbn [with_conns put_conn conns pipes shms socks].
    by rewrite lookup_delete_ne.
  - eexists. split; [done |]. cbn [with_conns put_conn conns socks listeners]. split_and!; try done.
    + by apply objs_put_conn.
    + apply exact_conns. unfold queued. cbn [with_conns put_conn conns]. revert He. apply exact_perm; [| done].
      rewrite gather_insert. change (conn_names y4) with (conn_names y). by rewrite Hnn.
Qed.

(** Giving up a reference to an endpoint. *)
Lemma endpoint_unref_spec n s x k ext :
  socks k !! s = Some x -> listening x = false -> (30 <= n)%nat ->
  cinv (socks k) (conns k) -> objs_ok k -> exact (NSock s :: ext ++ queued k) k ->
  exists k', socket_unref (S n) s k = Done k' /\ exact (ext ++ queued k') k' /\ objs_ok k' /\
    cinv (socks k') (conns k') /\ listeners k' = listeners k /\
    socks k' = (if 1 <? refs x then <[s := set_refs (refs x - 1) x]> (socks k) else delete s (socks k)).
Proof.
  intros Hs Hlis Hn Hci Ho He. pose proof (o_null _ Ho) as (_ & _ & Hs0 & Hc0).
  assert (Hsn : s <> 0) by congruence. cbn [socket_unref]. rewrite (proj2 (Z.eqb_neq s 0)) by done.
  rewrite (deref_some _ _ _ Hs). cbn [mbind out_bind]. cbv zeta.
  pose proof (He (NSock s)) as Hr. cbn [stored] in Hr. rewrite Hs in Hr. cbn [from_option] in Hr. rewrite num_cons_eq in Hr.
  pose proof (num_nonneg (NSock s) (ext ++ queued k)).
  set (k1 := put_sock s (set_refs (refs x - 1) x) k).
  assert (He1 : exact (ext ++ queued k) k1).
  { apply (exact_sock _ _ k s (Some _) He); [intros; symmetry; by apply num_cons_ne | cbn; lia]. }
  assert (Ho1 : objs_ok k1).
  { destruct Ho as [(? & ? & ? & ?) ? ? ? ?]. split; try done. cbn. by rewrite lookup_insert_ne. }
  destruct (Z.ltb_spec 0 (refs x - 1)), (Z.ltb_spec 1 (refs x)); try lia.
  { eexists. split_and!; [done | done | done | by apply cinv_set_refs | done | done]. }
  rewrite Hlis. cbn [mbind out_bind].
  rewrite (deref_some (socks k1) s (set_refs (refs x - 1) x)) by apply lookup_insert_eq. cbn [mbind out_bind set_refs conn side].
  pose proof (c_end _ _ Hci s x Hs) as Hend. rewrite Hlis in Hend. destruct Hend as [Hbl (y & Hy & Hcl)].
  assert (Hcn : conn x <> 0) by congruence. rewrite (proj2 (Z.eqb_neq (conn x) 0)) by done.
  rewrite (deref_some (conns k1) _ _ Hy). cbn [mbind out_bind].
  destruct (c_conn _ _ Hci _ _ Hy) as (Hok & Hcr & Hcpos & _).
  destruct (drop_both n (conn x) (side x) k1 y ext)
    as (k2 & k3 & y3 & -> & Hs2 & E3 & Hs3 & Hl3 & Hc3 & Ho3 & He3 & Hok3 & Hnn & Hr3 & Hcl3 & Hop3); try done.
  cbn [mbind out_bind]. rewrite (deref_some (socks k2) s (set_refs (refs x - 1) x)) by (rewrite Hs2; apply lookup_insert_eq).
  cbn [mbind out_bind set_refs conn side]. rewrite E3. cbn [mbind out_bind].
  rewrite (deref_some (socks k3) s (set_refs (refs x - 1) x)) by (rewrite Hs3; apply lookup_insert_eq).
  cbn [mbind out_bind set_refs conn side].
  destruct (conn_unref_spec (conn x) k3 y3 ext) as (k4 & -> & Hs4 & Hl4 & Ho4 & He4 & Hc4); try done.
  { rewrite Hc3. apply lookup_insert_eq. }
  { rewrite Hc3, delete_insert_eq. done. }
  cbn [mbind out_bind]. unfold free_sock.
  rewrite (deref_some (socks k4) s (set_refs (refs x - 1) x)) by (rewrite Hs4, Hs3; apply lookup_insert_eq).
  cbn [mbind out_bind]. eexists. split; [done |]. cbn [with_socks socks conns listeners].
  assert (Hsk : delete s (socks k4) = delete s (socks k)) by (rewrite Hs4, Hs3; apply delete_insert_eq).
  split_and!; try done.
  - apply (exact_sock (ext ++ queued k4) _ k4 s None He4); [done |]. cbn. pose proof (He4 (NSock s)) as Hz. cbn [stored] in Hz.
    rewrite Hs4, Hs3 in Hz. unfold k1, put_sock in Hz. cbn [with_socks socks] in Hz. rewrite lookup_insert_eq in Hz. transitivity (refs x - 1); [lia | exact Hz].
  - destruct Ho4 as [(? & ? & ? & ?) ? ? ? ?]. split; try done. cbn. by rewrite lookup_delete_ne.
  - rewrite Hsk, Hc4, Hc3, delete_insert_eq, insert_insert_eq. by apply cinv_close with (y := y).
  - by rewrite Hl4, Hl3.
Qed.

(** ** Listeners *)

Definition backlog_names (x : socket) : list name := NSock <$> backlog x.
Definition waiting (ss : gmap Z socket) : list name := gather backlog_names ss.

(** What closing endpoints does to the table of sockets. *)
Inductive shrink : gmap Z socket -> gmap Z socket -> Prop :=
| shrink_dec ss b y :
    ss !! b = Some y -> listening y = false -> backlog y = [] -> 1 < refs y ->
    shrink ss (<[b := set_refs (refs y - 1) y]> ss)
| shrink_del ss b y :
    ss !! b = Some y -> listening y = false -> backlog y = [] -> shrink ss (delete b ss).

Lemma shrink_listener ss ss' a x : shrink ss ss' -> ss !! a = Some x -> listening x = true -> ss' !! a = Some x.
Proof.
  intros [ss0 b y Hb Hl _ _ | ss0 b y Hb Hl _] Ha Hx;
    (assert (b <> a) by (intros ->; congruence)); [by rewrite lookup_insert_ne | by rewrite lookup_delete_ne].
Qed.

Lemma shrink_back ss ss' a x' :
  shrink ss ss' -> ss' !! a = Some x' ->
  exists x, ss !! a = Some x /\ x' = set_refs (refs x') x /\ (0 < refs x -> 0 < refs x').
Proof.
  intros [ss0 b y Hb Hl _ Hr | ss0 b y Hb Hl _].
  - destruct (decide (b = a)) as [<- | Hne].
    + rewrite lookup_insert_eq. intros [= <-]. exists y. split_and!; try done. cbn. lia.
    + rewrite lookup_insert_ne by done. intros. exists x'. by destruct x'.
  - rewrite lookup_delete_Some. intros [_ ?]. exists x'. by destruct x'.
Qed.

Lemma shrink_waiting ss ss' s x :
  shrink ss ss' -> ss !! s = Some x -> listening x = true ->
  waiting (delete s ss') ≡ₚ waiting (delete s ss).
Proof.
  intros [ss0 b y Hb Hl Hbl Hr | ss0 b y Hb Hl Hbl] Hs Hx; (assert (b <> s) by (intros ->; congruence)).
  - rewrite delete_insert_ne by done. unfold waiting. rewrite gather_insert.
    rewrite (gather_split _ (delete s ss0) b y) by (by rewrite lookup_delete_ne). unfold backlog_names. cbn. by rewrite Hbl.
  - rewrite delete_delete. unfold waiting.
    rewrite (gather_split _ (delete s ss0) b y) by (by rewrite lookup_delete_ne). unfold backlog_names at 2. by rewrite Hbl.
Qed.

(** The same without a listener set aside. *)
Lemma shrink_waiting_all ss ss' : shrink ss ss' -> waiting ss' ≡ₚ waiting ss.
Proof.
  unfold waiting. intros [ss0 b y Hb Hl Hbl Hr | ss0 b y Hb Hl Hbl].
  - rewrite gather_insert, (gather_split _ ss0 b y Hb). unfold backlog_names. cbn. by rewrite Hbl.
  - rewrite (gather_split _ ss0 b y Hb). unfold backlog_names at 2. by rewrite Hbl.
Qed.

Lemma endpoint_shrink n s x k ext :
  socks k !! s = Some x -> listening x = false -> (30 <= n)%nat ->
  cinv (socks k) (conns k) -> objs_ok k -> exact (NSock s :: ext ++ queued k) k ->
  exists k', socket_unref (S n) s k = Done k' /\ exact (ext ++ queued k') k' /\ objs_ok k' /\
    cinv (socks k') (conns k') /\ listeners k' = listeners k /\ shrink (socks k) (socks k').
Proof.
  intros Hs Hlis Hn Hci Ho He. destruct (endpoint_unref_spec n s x k ext) as (k' & E & ? & ? & ? & ? & Hsk); [done.. |].
  exists k'. split_and!; try done. rewrite Hsk. pose proof (c_end _ _ Hci s x Hs) as Hx. rewrite Hlis in Hx.
  destruct (Z.ltb_spec 1 (refs x)); [apply shrink_dec | apply (shrink_del _ _ x)]; tauto.
Qed.

Lemma backlog_spec s x ext : forall n i k,
  (length (backlog x) - i + 32 <= n)%nat -> socks k !! s = Some x -> listening x = true ->
  (forall b y, b ∈ drop i (backlog x) -> socks k !! b = Some y -> listening y = false) ->
  cinv (socks k) (conns k) -> objs_ok k -> exact ((NSock <$> drop i (backlog x)) ++ ext ++ queued k) k ->
  exists k', unref_backlog n s i k = Done k' /\ exact (ext ++ queued k') k' /\ objs_ok k' /\
    cinv (socks k') (conns k') /\ listeners k' = listeners k /\ rtc shrink (socks k) (socks k').
Proof.
  induction n as [| n IH]; intros i k Hn Hs Hx Hb Hci Ho He; [lia |].
  cbn [unref_backlog]. rewrite (deref_some _ _ _ Hs). cbn [mbind out_bind].
  destruct (backlog x !! i) as [b |] eqn:Eb.
  - rewrite (drop_S _ _ _ Eb) in Hb, He. cbn [fmap list_fmap app] in He.
    destruct (named_sock _ _ b He) as [y Hy]; [left |].
    assert (Hly : listening y = false) by (apply (Hb b y); [left | done]).
    pose proof (lookup_lt_Some _ _ _ Eb). destruct n as [| n]; [lia |].
    destruct (endpoint_shrink n b y k ((NSock <$> drop (S i) (backlog x)) ++ ext))
      as (k1 & -> & He1 & Ho1 & Hci1 & Hl1 & Hsh); try done; [lia | by rewrite <- app_assoc |].
    cbn [mbind out_bind].
    destruct (IH (S i) k1) as (k' & -> & He' & Ho' & Hci' & Hl' & Hsh'); try done.
    + lia.
    + by apply (shrink_listener _ _ _ _ Hsh).
    + intros b' y' Hb' Hy'. destruct (shrink_back _ _ _ _ Hsh Hy') as (z & Hz & -> & _). cbn.
      apply (Hb b' z); [by right | done].
    + by rewrite app_assoc.
    + exists k'. split_and!; try done; [congruence |]. by eapply rtc_l.
  - rewrite drop_ge in He by (by apply lookup_ge_None). by exists k.
Qed.

(** ** The invariant *)

Record linv (ss : gmap Z socket) (ls : list Z) : Prop := {
  l_len : Zlen ls = MAX_LISTENERS;
  l_live : forall a, a ∈ ls -> a <> 0 -> exists x, ss !! a = Some x /\ listening x = true;
  l_known : forall a x, ss !! a = Some x -> listening x = true -> a ∈ ls;
  l_back : forall a x b y, ss !! a = Some x -> b ∈ backlog x -> ss !! b = Some y -> listening y = false;
  l_cap : forall a x, ss !! a = Some x -> Zlen (backlog x) <= SOCK_BACKLOG;
  l_refs : forall a x, ss !! a = Some x -> 0 < refs x;
}.

(** [ext] are the references held outside the objects themselves. *)
Record kinv (ext : list name) (k : kernel) : Prop := {
  k_exact : exact (ext ++ waiting (socks k) ++ queued k) k;
  k_objs : objs_ok k;
  k_conn : cinv (socks k) (conns k);
  k_listen : linv (socks k) (listeners k);
}.

#[export] Instance kinv_perm : Proper ((≡ₚ) ==> (=) ==> (iff)) kinv.
Proof.
  intros l1 l2 H k _ <-. split; intros [He ? ? ?]; (split; [| done..]); [rewrite <- H | rewrite H]; done.
Qed.

Lemma linv_shrink ss ss' ls :
  linv ss ls -> shrink ss ss' -> linv ss' ls.
Proof.
  intros [Hlen Hlive Hknown Hback Hcap Hrefs] Hsh. split; [done | ..].
  - intros a Ha Hz. destruct (Hlive a Ha Hz) as (x & Hx & Hl). exists x. split; [| done].
    by apply (shrink_listener _ _ _ _ Hsh).
  - intros a x' Ha Hl. destruct (shrink_back _ _ _ _ Hsh Ha) as (x & Hx & E & _). apply (Hknown a x Hx).
    rewrite E in Hl. done.
  - intros a x' b y' Ha Hb Hb'. destruct (shrink_back _ _ _ _ Hsh Ha) as (x & Hx & E & _).
    destruct (shrink_back _ _ _ _ Hsh Hb') as (y & Hy & E' & _). rewrite E in Hb. rewrite E'.
    by apply (Hback a x b y).
  - intros a x' Ha. destruct (shrink_back _ _ _ _ Hsh Ha) as (x & Hx & E & _). rewrite E. by apply (Hcap a x).
  - intros a x' Ha. destruct (shrink_back _ _ _ _ Hsh Ha) as (x & Hx & E & Hr). by apply Hr, (Hrefs a).
Qed.

(** A listener gone from the table and from the addresses. *)
Lemma linv_close ss ss' ls s x :
  linv ss ls -> ss !! s = Some x -> listening x = true -> rtc shrink (<[s := set_refs (refs x - 1) x]> ss) ss' ->
  linv (delete s ss') (clear_listener s ls).
Proof.
  intros [Hlen Hlive Hknown Hback Hcap Hrefs] Hs Hx Hsh.
  assert (Hb : forall a z', delete s ss' !! a = Some z' -> exists z, a <> s /\ ss !! a = Some z /\ z' = set_refs (refs z') z /\ (0 < refs z -> 0 < refs z')).
  { intros a z'. rewrite lookup_delete_Some. intros [Hne Ha].
    assert (H : exists z, <[s := set_refs (refs x - 1) x]> ss !! a = Some z /\ z' = set_refs (refs z') z /\ (0 < refs z -> 0 < refs z')).
    { clear -Hsh Ha. revert Ha. induction Hsh as [ss0 | ss0 ss1 ss2 H1 _ IH]; [exists z'; by destruct z' |].
      intros Ha. destruct (IH Ha) as (z1 & Hz1 & E1 & Hr1).
      destruct (shrink_back _ _ _ _ H1 Hz1) as (z & Hz & E & Hr). exists z. split_and!; [done | | tauto].
      rewrite E1. rewrite E. done. }
    destruct H as (z & Hz & ? & ?). rewrite lookup_insert_ne in Hz by done. by exists z. }
  assert (Hf : forall a z, ss !! a = Some z -> listening z = true -> a <> s -> delete s ss' !! a = Some z).
  { intros a z Ha Hl Hne. rewrite lookup_delete_ne by done.
    assert (H : <[s := set_refs (refs x - 1) x]> ss !! a = Some z) by (by rewrite lookup_insert_ne).
    clear -Hsh H Hl. induction Hsh as [| ss0 ss1 ss2 H1 _ IH]; [done |]. by apply IH, (shrink_listener _ _ _ _ H1). }
  split.
  - unfold clear_listener, Zlen in *. by rewrite length_fmap.
  - intros a Ha Hz. unfold clear_listener in Ha. apply list_elem_of_fmap in Ha as (b & -> & Hb').
    destruct (Z.eqb_spec b s); [done |]. destruct (Hlive b Hb' Hz) as (z & Hzz & Hl). exists z. split; [by apply Hf | done].
  - intros a z Ha Hl. destruct (Hb a z Ha) as (z0 & Hne & Hz0 & E & _). unfold clear_listener. apply list_elem_of_fmap.
    exists a. split; [by destruct (Z.eqb_spec a s) |]. apply (Hknown a z0 Hz0). rewrite E in Hl. done.
  - intros a z b y Ha Hb' Hy. destruct (Hb a z Ha) as (z0 & _ & Hz0 & E & _), (Hb b y Hy) as (y0 & _ & Hy0 & E' & _).
    rewrite E in Hb'. rewrite E'. by apply (Hback a z0 b y0).
  - intros a z Ha. destruct (Hb a z Ha) as (z0 & _ & Hz0 & E & _). rewrite E. by apply (Hcap a z0).
  - intros a z Ha. destruct (Hb a z Ha) as (z0 & _ & Hz0 & E & Hr). by apply Hr, (Hrefs a).
Qed.

Lemma shrink_rtc_waiting ss ss' s x :
  rtc shrink ss ss' -> ss !! s = Some x -> listening x = true ->
  ss' !! s = Some x /\ waiting (delete s ss') ≡ₚ waiting (delete s ss).
Proof.
  intros Hsh. induction Hsh as [| ss0 ss1 ss2 H1 _ IH]; [done |]. intros Hs Hx.
  destruct (IH (shrink_listener _ _ _ _ H1 Hs Hx) Hx) as [? E]. split; [done |].
  rewrite E. by apply (shrink_waiting _ _ _ x).
Qed.

Lemma cinv_drop_listener ss cs s x :
  cinv ss cs -> ss !! s = Some x -> listening x = true -> cinv (delete s ss) cs.
Proof.
  intros [He Hu Hc] Hs Hx. split.
  - intros a z. rewrite lookup_delete_Some. intros [_ ?]. by apply (He a).
  - intros a b z z'. rewrite !lookup_delete_Some. intros [_ ?] [_ ?]. by apply Hu.
  - intros c y Hy. destruct (Hc c y Hy) as (? & ? & ? & Hown). split_and!; try done. intros i Hi.
    destruct (Hown i Hi) as (a & z & Ha & Hl & ? & ?). exists a, z. split; [| done]. apply lookup_delete_Some.
    split; [intros <-; congruence | done].
Qed.

(** The last reference to a listener. *)
Lemma listener_close_spec n s x k ext :
  kinv (NSock s :: ext) k -> socks k !! s = Some x -> listening x = true -> refs x = 1 -> (41 <= n)%nat ->
  exists k', socket_unref (S n) s k = Done k' /\ kinv ext k'.
Proof.
  intros [He Ho Hci Hl] Hs Hx Hr Hn. pose proof (o_null _ Ho) as (_ & _ & Hs0 & Hc0). assert (Hsn : s <> 0) by congruence.
  cbn [socket_unref]. rewrite (proj2 (Z.eqb_neq s 0)) by done. rewrite (deref_some _ _ _ Hs). cbn [mbind out_bind]. cbv zeta.
  rewrite Hr, Hx. change (1 - 1) with 0. change (0 <? 0) with false. cbv iota. set (x1 := set_refs 0 x).
  set (k1 := with_listeners (clear_listener s (listeners k)) (put_sock s x1 k)).
  change (unref_backlog n s 0 _) with (unref_backlog n s 0 k1).
  assert (Hs1 : socks k1 !! s = Some x1) by apply lookup_insert_eq.
  assert (Hw : waiting (socks k) ≡ₚ backlog_names x ++ waiting (delete s (socks k))) by (by apply gather_split).
  assert (He1 : exact ((NSock <$> backlog x) ++ (ext ++ waiting (delete s (socks k))) ++ queued k) k1).
  { apply exact_listeners. assert (He0 : exact (ext ++ waiting (socks k) ++ queued k) (put_sock s x1 k)).
    { apply (exact_sock _ _ k s (Some x1) He); [intros; symmetry; by apply num_cons_ne |]. cbn.
      pose proof (He (NSock s)) as Hz. cbn [stored app] in Hz. rewrite Hs, num_cons_eq in Hz. cbn in Hz. lia. }
    revert He0. apply exact_perm; [| done]. rewrite Hw. unfold backlog_names. solve_Permutation. }
  assert (Ho1 : objs_ok k1).
  { destruct Ho as [(? & ? & ? & ?) ? ? ? ?]. split; try done. cbn. by rewrite lookup_insert_ne. }
  destruct (backlog_spec s x1 (ext ++ waiting (delete s (socks k))) n 0 k1) as (k2 & -> & He2 & Ho2 & Hci2 & Hl2 & Hsh); try done.
  { cbn. pose proof (l_cap _ _ Hl s x Hs) as Hcap. unfold SOCK_BACKLOG, Zlen in Hcap. lia. }
  { intros b y Hb Hy. change (socks k1) with (<[s := x1]> (socks k)) in Hy. destruct (decide (s = b)) as [<- | Hne].
    - exfalso. apply (not_false_iff_true (listening x)); [done |]. by apply (l_back _ _ Hl s x s x Hs).
    - rewrite lookup_insert_ne in Hy by done. by apply (l_back _ _ Hl s x b y Hs). }
  { by apply cinv_set_refs. }
  destruct (shrink_rtc_waiting _ _ s x1 Hsh Hs1 Hx) as [Hs2 Hw2]. change (socks k1) with (<[s := x1]> (socks k)) in Hw2.
  rewrite delete_insert_eq in Hw2.
  cbn [mbind out_bind]. rewrite (deref_some _ _ _ Hs2). cbn [mbind out_bind].
  pose proof (c_end _ _ Hci s x Hs) as Hc. rewrite Hx in Hc. change (conn x1) with (conn x). rewrite Hc. cbn [Z.eqb mbind out_bind].
  unfold free_sock. rewrite (deref_some _ _ _ Hs2). cbn [mbind out_bind]. eexists. split; [done |]. split.
  - cbn [with_socks socks]. unfold queued. cbn [with_socks conns].
    apply (exact_sock _ _ k2 s None He2).
    + intros m _. fold (queued k2). by rewrite Hw2, app_assoc.
    + pose proof (He2 (NSock s)) as Hz. cbn [stored] in Hz. rewrite Hs2 in Hz. fold (queued k2). rewrite Hw2, app_assoc. exact Hz.
  - destruct Ho2 as [(? & ? & ? & ?) ? ? ? ?]. split; try done. cbn. by rewrite lookup_delete_ne.
  - by apply (cinv_drop_listener _ _ s x1).
  - cbn [with_socks socks listeners]. rewrite Hl2. apply (linv_close (socks k) _ _ s x); try done. by rewrite Hr.
Qed.

Lemma linv_set_refs ss ls s x n : linv ss ls -> ss !! s = Some x -> 0 < n -> linv (<[s := set_refs n x]> ss) ls.
Proof.
  intros [Hlen Hlive Hknown Hback Hcap Hrefs] Hs Hn.
  assert (Hl : forall a z, <[s := set_refs n x]> ss !! a = Some z -> exists z0, ss !! a = Some z0 /\
    listening z = listening z0 /\ backlog z = backlog z0 /\ 0 < refs z).
  { intros a z. destruct (decide (s = a)) as [<- | Hne].
    - rewrite lookup_insert_eq. intros [= <-]. by exists x.
    - rewrite lookup_insert_ne by done. intros Ha. exists z. split_and!; try done. by apply (Hrefs a). }
  split; [done | ..].
  - intros a Ha Hz. destruct (Hlive a Ha Hz) as (z & Hzz & ?). destruct (decide (s = a)) as [<- | Hne].
    + exists (set_refs n x). rewrite lookup_insert_eq. split; [done |]. by simplify_eq.
    + exists z. by rewrite lookup_insert_ne.
  - intros a z Ha Hz. destruct (Hl a z Ha) as (z0 & Hz0 & E & _). apply (Hknown a z0 Hz0). congruence.
  - intros a z b y Ha Hb Hy. destruct (Hl a z Ha) as (z0 & Hz0 & _ & E & _), (Hl b y Hy) as (y0 & Hy0 & -> & _).
    rewrite E in Hb. by apply (Hback a z0 b y0).
  - intros a z Ha. destruct (Hl a z Ha) as (z0 & Hz0 & _ & -> & _). by apply (Hcap a z0).
  - intros a z Ha. by destruct (Hl a z Ha) as (z0 & Hz0 & _ & _ & ?).
Qed.

Lemma waiting_set_refs ss s x n : ss !! s = Some x -> waiting (<[s := set_refs n x]> ss) ≡ₚ waiting ss.
Proof. intros Hs. unfold waiting. by rewrite gather_insert, (gather_split _ _ _ _ Hs). Qed.

(** Changing the count of a socket along with the references outside. *)
Lemma kinv_set_refs ext ext' k s x n :
  kinv ext k -> socks k !! s = Some x -> 0 < n ->
  (forall m, m <> NSock s -> num m ext' = num m ext) -> n - refs x = num (NSock s) ext' - num (NSock s) ext ->
  kinv ext' (put_sock s (set_refs n x) k).
Proof.
  intros [He Ho Hci Hl] Hs Hn Hm Hd. split.
  - change (queued (put_sock _ _ k)) with (queued k).
    change (socks (put_sock _ _ k)) with (<[s := set_refs n x]> (socks k)). rewrite (waiting_set_refs _ _ _ _ Hs). apply (exact_sock _ _ k s (Some _) He).
    + intros m Hne. by rewrite !num_app, Hm.
    + pose proof (He (NSock s)) as Hz. cbn [stored] in Hz. rewrite Hs in Hz. cbn in Hz |- *. rewrite !num_app in *. lia.
  - destruct Ho as [(? & ? & ? & ?) ? ? ? ?]. split; try done. cbn. rewrite lookup_insert_ne by congruence. done.
  - by apply cinv_set_refs.
  - by apply linv_set_refs.
Qed.

Lemma socket_unref_spec n s k ext :
  kinv (NSock s :: ext) k -> (41 <= n)%nat -> exists k', socket_unref (S n) s k = Done k' /\ kinv ext k'.
Proof.
  intros Hk Hn. pose proof Hk as [He Ho Hci Hl]. destruct (named_sock _ _ s He) as [x Hs]; [left |].
  destruct (listening x) eqn:Hx.
  - pose proof (l_refs _ _ Hl s x Hs). destruct (decide (refs x = 1)) as [Hr | Hr]; [by apply (listener_close_spec n s x) |].
    cbn [socket_unref]. assert (s <> 0) by (destruct (o_null _ Ho) as (_ & _ & ? & _); congruence).
    rewrite (proj2 (Z.eqb_neq s 0)) by done. rewrite (deref_some _ _ _ Hs). cbn [mbind out_bind]. cbv zeta.
    rewrite (proj2 (Z.ltb_lt 0 (refs x - 1))) by lia. eexists. split; [done |].
    apply (kinv_set_refs _ _ k s x _ Hk Hs); [lia | intros; symmetry; by apply num_cons_ne | rewrite num_cons_eq; lia].
  - destruct (endpoint_shrink n s x k (ext ++ waiting (socks k))) as (k' & E & He' & Ho' & Hci' & Hl' & Hsh);
      try done; [lia | by rewrite <- app_assoc |].
    exists k'. split; [done |]. split; try done.
    + by rewrite (shrink_waiting_all _ _ Hsh), app_assoc.
    + rewrite Hl'. by apply (linv_shrink (socks k)).
Qed.

Lemma same_sockets_kinv ext ext' k k' :
  kinv ext k -> same_sockets k k' -> objs_ok k' -> exact (ext' ++ waiting (socks k) ++ queued k) k' -> kinv ext' k'.
Proof.
  intros [He Ho Hci Hl] (Hs & Hc & Hls) Ho' He'. split; unfold queued; rewrite ?Hs, ?Hc, ?Hls; done.
Qed.

(** ** Dropping and retaining descriptors *)

Lemma drop_fuel_spec n f ext k :
  (43 <= n)%nat -> kinv (names f ++ ext) k -> exists k', vfs_fd_drop n f k = Done k' /\ kinv ext k'.
Proof.
  intros Hn Hk. destruct n as [| n]; [lia |]. destruct (decide (type f = FD_SOCKET)) as [Hf | Hf].
  - cbn [vfs_fd_drop]. unfold names in Hk. rewrite Hf in *. destruct n as [| n]; [lia |]. apply socket_unref_spec; [done | lia].
  - pose proof Hk as [He Ho _ _]. rewrite <- app_assoc in He.
    destruct (drop_spec n f _ k He Ho Hf) as (k' & E & He' & Ho' & Hs). exists k'. split; [done |].
    by apply (same_sockets_kinv _ _ _ _ Hk Hs).
Qed.

Lemma drop_file_spec f ext k :
  kinv (names f ++ ext) k -> exists k', vfs_fd_drop FUEL f k = Done k' /\ kinv ext k'.
Proof. intros Hk. apply drop_fuel_spec; [unfold FUEL; lia | done]. Qed.

Lemma retain_file_spec f ext k :
  kinv ext k -> names f ⊆ ext -> exists k', vfs_fd_retain f k = Done k' /\ kinv (names f ++ ext) k'.
Proof.
  intros Hk Hin. pose proof Hk as [He Ho _ Hl]. destruct (decide (type f = FD_SOCKET)) as [Hf | Hf].
  - unfold names, vfs_fd_retain in *. rewrite Hf in *. cbn [app].
    assert (Hn : NSock (sock f) ∈ ext) by (apply Hin; left).
    destruct (named_sock _ _ (sock f) He) as [x Hs]; [apply elem_of_app; by left |].
    assert (sock f <> 0) by (destruct (o_null _ Ho) as (_ & _ & ? & _); congruence).
    unfold socket_ref. rewrite (proj2 (Z.eqb_neq (sock f) 0)) by done. rewrite (deref_some _ _ _ Hs).
    eexists. split; [done |]. pose proof (l_refs _ _ Hl _ _ Hs).
    apply (kinv_set_refs _ _ k _ x _ Hk Hs); [lia | intros; by apply num_cons_ne | rewrite num_cons_eq; lia].
  - destruct (retain_spec f _ k He Ho Hf) as (k' & E & He' & Ho' & Hs); [set_solver |]. exists k'. split; [done |].
    apply (same_sockets_kinv _ _ _ _ Hk Hs Ho'). by rewrite <- app_assoc.
Qed.

End Refs.
