(* ===== verification/Fds.v ===== *)
(** Descriptor tables, the first half of [kernel/fs/vfs.c]: opening, closing,
    inheriting and passing descriptors, with the descriptor side of
    [sys_shm_open] and [sys_spawn_io] ([kernel/proc/syscall.c]) and of
    [proc_spawn_io] and [proc_exit] ([kernel/proc/proc.c]).

    A process is its table, its user and its working directory.  Addresses that
    [kmalloc] returned are arguments, 0 for none. *)

From S2P Require Import Prelude Str KString Pmm Pipe Ring Shm Path Socket.

Module Fds.
Import Str Socket.

Definition MAX_OPEN_FILES : Z := 32.
Definition W_SEND_MAX_FDS : Z := 28.
Definition W_STDIN : Z := 0.
Definition W_POLLIN : Z := 1.
Definition W_POLLOUT : Z := 2.
Definition W_POLLHUP : Z := 4.
Definition W_POLLERR : Z := 8.

Record proc := Proc {
  fds : list file_t;
  uid : Z;
  cwd : list Z;
}.

Definition with_fds (l : list file_t) (p : proc) : proc := Proc l (uid p) (cwd p).
Definition set_fd (fd : Z) (f : file_t) (p : proc) : proc := with_fds (upd fd f (fds p)) p.

(** Assignments to some fields of a descriptor. *)
Definition set_type (t : fd_type_t) (f : file_t) : file_t :=
  File t (ino f) (ram f) (offset f) (flags f) (pipe f) (write_end f) (sock f) (shm f).
Definition set_pipe (a : Z) (w : bool) (f : file_t) : file_t :=
  File FD_PIPE (ino f) (ram f) (offset f) (flags f) a w (sock f) (shm f).

Definition vfs_init_fds : list file_t := replicate 3 (set_type FD_CONSOLE no_file) ++ replicate 29 no_file.

Definition fd_get (fd : Z) (p : proc) : option file_t :=
  if ((fd <? 0) || (MAX_OPEN_FILES <=? fd) || bool_decide (type (fds p).[fd] = FD_NONE))%bool then None
  else Some (fds p).[fd].

Fixpoint alloc_from (n : nat) (i : Z) (l : list file_t) : Z :=
  match n with
  | O => - W_EMFILE
  | S n => if bool_decide (type l.[i] = FD_NONE) then i else alloc_from n (i + 1) l
  end.
Definition fd_alloc (p : proc) : Z := alloc_from (Z.to_nat (MAX_OPEN_FILES - 3)) 3 (fds p).

Definition vfs_fd_install (f : file_t) (p : proc) : Z * proc :=
  let fd := fd_alloc p in if fd <? 0 then (fd, p) else (fd, set_fd fd f p).

Definition fd_release (f : file_t) (k : kernel) : out (file_t * kernel) :=
  k ← vfs_fd_drop FUEL f k;
  Done (File FD_NONE (ino f) (ram f) (offset f) (flags f) 0 false 0 0, k).

Definition vfs_close (fd : Z) (p : proc) (k : kernel) : out (Z * proc * kernel) :=
  match fd_get fd p with
  | None => Done (- W_EBADF, p, k)
  | Some f => '(f, k) ← fd_release f k; Done (0, set_fd fd f p, k)
  end.

Fixpoint close_from (n : nat) (i : Z) (p : proc) (k : kernel) : out (proc * kernel) :=
  match n with
  | O => Done (p, k)
  | S n => '(f, k) ← fd_release (fds p).[i] k; close_from n (i + 1) (set_fd i f p) k
  end.
Definition vfs_close_all (p : proc) (k : kernel) : out (proc * kernel) := close_from (Z.to_nat MAX_OPEN_FILES) 0 p k.

Definition vfs_stdin_is_console (p : proc) : bool := bool_decide (type (fds p).[W_STDIN] = FD_CONSOLE).

Fixpoint inherit_from (n : nat) (i : Z) (parent child : proc) (k : kernel) : out (proc * kernel) :=
  match n with
  | O => Done (child, k)
  | S n =>
      let src := (fds parent).[i] in
      k ← vfs_fd_retain src k;
      inherit_from n (i + 1) parent (set_fd i src child) k
  end.
Definition vfs_inherit_stdio (child parent : proc) (k : kernel) : out (proc * kernel) :=
  inherit_from 3 0 parent child k.

Definition vfs_input_open (p : proc) (k : kernel) : out (Z * proc * kernel) :=
  if keyboard_events_active (kbd k) then Done (- W_EBUSY, p, k)
  else
    let f := set_type FD_INPUT no_file in
    let k := with_kbd (keyboard_events_ref (kbd k)) k in
    let '(fd, p) := vfs_fd_install f p in
    if fd <? 0 then Done (fd, p, with_kbd (keyboard_events_unref (kbd k)) k) else Done (fd, p, k).

(** The two descriptors are in the result where it is 0. *)
Definition vfs_pipe (kmalloc : Z) (p : proc) (k : kernel) : Z * (Z * Z) * proc * kernel :=
  let rfd := fd_alloc p in
  if rfd <? 0 then (rfd, (0, 0), p, k)
  else
    let p1 := set_fd rfd (set_type FD_CONSOLE (fds p).[rfd]) p in
    let wfd := fd_alloc p1 in
    if wfd <? 0 then (wfd, (0, 0), set_fd rfd (set_type FD_NONE (fds p1).[rfd]) p1, k)
    else
      match Pipe.pipe_create (negb (kmalloc =? 0)) with
      | None => (- W_ENFILE, (0, 0), set_fd rfd (set_type FD_NONE (fds p1).[rfd]) p1, k)
      | Some pp =>
          let k := with_pipes (<[kmalloc := pp]> (pipes k)) k in
          let p1 := set_fd rfd (set_pipe kmalloc false (fds p1).[rfd]) p1 in
          let p1 := set_fd wfd (set_pipe kmalloc true (fds p1).[wfd]) p1 in
          (0, (rfd, wfd), p1, k)
      end.

(** ** Sockets *)

Definition sock_file (s : Z) : file_t := File FD_SOCKET 0 false 0 0 0 false s 0.

Definition socket_fd (s : Z) (p : proc) (k : kernel) : out (Z * proc * kernel) :=
  let '(fd, p) := vfs_fd_install (sock_file s) p in
  if fd <? 0 then k ← socket_unref FUEL s k; Done (fd, p, k) else Done (fd, p, k).

Definition socket_path (path : list Z) (p : proc) : Z + list Z := Path.vfs_resolve (cwd p) path (Path.W_PATH_MAX + 1).

Section calls.
Context {U : Type} `{Path.UserDb U} (db : U).

Definition vfs_listen (path : list Z) (kmalloc : Z) (p : proc) (k : kernel) : out (Z * proc * kernel) :=
  match socket_path path p with
  | inl r => Done (r, p, k)
  | inr abs =>
      if negb (Path.may_write (uid p) abs db) then Done (- W_EACCES, p, k)
      else
        '(r, k) ← socket_listen abs (uid p) kmalloc k;
        match r with inl err => Done (err, p, k) | inr s => socket_fd s p k end
  end.

End calls.

Definition vfs_connect (path : list Z) (kconn kmine ktheirs : Z) (p : proc) (k : kernel) : out (Z * proc * kernel) :=
  match socket_path path p with
  | inl r => Done (r, p, k)
  | inr abs =>
      '(r, k) ← socket_connect abs (uid p) kconn kmine ktheirs k;
      match r with inl err => Done (err, p, k) | inr s => socket_fd s p k end
  end.

(** A descriptor that has to be a socket. *)
Definition sock_get (fd : Z) (p : proc) : option file_t :=
  f ← fd_get fd p; if bool_decide (type f = FD_SOCKET) then Some f else None.

(** [None]: the call waits, and starts over when it is woken. *)
Definition vfs_accept (fd : Z) (p : proc) (k : kernel) : out (option Z * proc * kernel) :=
  match sock_get fd p with
  | None => Done (Some (- W_EBADF), p, k)
  | Some f =>
      '(r, k) ← socket_accept (sock f) k;
      match r with
      | None => Done (None, p, k)
      | Some (inl err) => Done (Some err, p, k)
      | Some (inr s) => '(fd, p, k) ← socket_fd s p k; Done (Some fd, p, k)
      end
  end.

Fixpoint collect (l : list Z) (p : proc) : option (list file_t) :=
  match l with
  | [] => Some []
  | fd :: l => f ← fd_get fd p; fs ← collect l p; Some (f :: fs)
  end.

Definition vfs_send (fd : Z) (bytes : list Z) (passing : list Z) (p : proc) (k : kernel) : out (send_result * kernel) :=
  match sock_get fd p with
  | None => Done (SRet (- W_EBADF), k)
  | Some f =>
      if W_SEND_MAX_FDS <? Zlen passing then Done (SRet (- W_EINVAL), k)
      else
        match collect passing p with
        | None => Done (SRet (- W_EBADF), k)
        | Some files => socket_send (sock f) bytes files k
        end
  end.

Fixpoint install_all (arrived : list file_t) (got : list Z) (p : proc) (k : kernel) : out (list Z * proc * kernel) :=
  match arrived with
  | [] => Done (got, p, k)
  | f :: arrived =>
      let '(fd, p) := vfs_fd_install f p in
      if fd <? 0 then k ← vfs_fd_drop FUEL f k; install_all arrived got p k
      else install_all arrived (got ++ [fd]) p k
  end.

Inductive recvd := RecvWait | Recvd (r : Z) (bytes : list Z) (got : list Z).

Definition vfs_recv (fd len want : Z) (p : proc) (k : kernel) : out (recvd * proc * kernel) :=
  match sock_get fd p with
  | None => Done (Recvd (- W_EBADF) [] [], p, k)
  | Some f =>
      if ((want <? 0) || (W_SEND_MAX_FDS <? want))%bool then Done (Recvd (- W_EINVAL) [] [], p, k)
      else
        '(r, k) ← socket_recv (sock f) len want k;
        match r with
        | RWait => Done (RecvWait, p, k)
        | RGot r bytes arrived =>
            if r <? 0 then Done (Recvd r bytes [], p, k)
            else '(got, p, k) ← install_all arrived [] p k; Done (Recvd r bytes got, p, k)
        end
  end.

(** ** Polling *)

Definition has (flag events : Z) : bool := negb (Z.land events flag =? 0).
Definition flag_if (b : bool) (flag : Z) : Z := if b then flag else 0.

(** [keyboard_has_data] belongs to the console and is an argument. *)
Definition poll_state (console_ready : bool) (fd events : Z) (p : proc) (k : kernel) : out Z :=
  match fd_get fd p with
  | None => Done W_POLLERR
  | Some f =>
      match type f with
      | FD_SOCKET =>
          i ← (if has W_POLLIN events then socket_pollin (sock f) k else Done false);
          o ← (if has W_POLLOUT events then socket_pollout (sock f) k else Done false);
          h ← socket_hungup (sock f) k;
          Done (Z.lor (Z.lor (flag_if i W_POLLIN) (flag_if o W_POLLOUT)) (flag_if h W_POLLHUP))
      | FD_PIPE =>
          if write_end f then
            if has W_POLLOUT events then
              if pipe f =? 0 then Done W_POLLOUT
              else x ← deref (pipes k) (pipe f); Done (flag_if (Pipe.pipe_pollout (Some x)) W_POLLOUT)
            else Done 0
          else if has W_POLLIN events then
            if pipe f =? 0 then Done W_POLLIN
            else x ← deref (pipes k) (pipe f); Done (flag_if (Pipe.pipe_pollin (Some x)) W_POLLIN)
          else Done 0
      | FD_CONSOLE =>
          Done (Z.lor (flag_if (has W_POLLIN events && console_ready) W_POLLIN) (flag_if (has W_POLLOUT events) W_POLLOUT))
      | FD_INPUT => Done (flag_if (has W_POLLIN events && keyboard_events_pending (kbd k)) W_POLLIN)
      | FD_NONE => Done W_POLLERR
      | _ => Done (Z.land events (Z.lor W_POLLIN W_POLLOUT))
      end
  end.

(** One turn of [vfs_poll]: the [revents] of each, and how many are set. *)
Fixpoint poll_turn (console_ready : bool) (l : list (Z * Z)) (p : proc) (k : kernel) : out (list Z * Z) :=
  match l with
  | [] => Done ([], 0)
  | (fd, events) :: l =>
      r ← poll_state console_ready fd events p k;
      '(rs, ready) ← poll_turn console_ready l p k;
      Done (r :: rs, (if r =? 0 then 0 else 1) + ready)
  end.

Definition PIT_HZ : Z := 100.

Definition poll_deadline (now timeout_ms : Z) : Z :=
  u32 (now + (if 0 <? timeout_ms then u32 (u32 (timeout_ms * PIT_HZ) + 999) / 1000 else 0)).

Inductive poll_result := PollRet (n : Z) | PollSleep (wake_at : Z).

(** The rest of a turn of [vfs_poll] at tick [now]: return, or sleep until a
    tick and look again. *)
Definition poll_decide (ready timeout_ms deadline now : Z) : poll_result :=
  if (negb (ready =? 0) || (timeout_ms =? 0))%bool then PollRet ready
  else if ((0 <? timeout_ms) && (0 <=? i32 (now - deadline)))%bool then PollRet 0
  else
    let next := u32 (now + 1) in
    PollSleep (if ((0 <? timeout_ms) && (0 <? i32 (next - deadline)))%bool then deadline else next).

Definition vfs_poll_turn (console_ready : bool) (l : list (Z * Z)) (timeout_ms deadline now : Z) (p : proc) (k : kernel)
    : out (list Z * poll_result) :=
  '(rs, ready) ← poll_turn console_ready l p k; Done (rs, poll_decide ready timeout_ms deadline now).

(** ** Shared memory, new processes, and the end of one *)

(** [kobj] and [ktable] are the two addresses [shm_create] gets. *)
Definition sys_shm_open (bytes kobj ktable : Z) (p : proc) (k : kernel) : out (Z * proc * kernel) :=
  if ((bytes =? 0) || (Shm.SHM_MAX_BYTES <? bytes))%bool then Done (- W_EINVAL, p, k)
  else
    '(o, pm, m) ← of_res (Shm.shm_create (negb (kobj =? 0)) (negb (ktable =? 0)) bytes (pmm k) (mem k));
    match o with
    | None => Done (- W_ENOMEM, p, with_mem m (with_shms (shms k) pm k))
    | Some s =>
        let k := with_mem m (with_shms (<[kobj := s]> (shms k)) pm k) in
        let '(fd, p) := vfs_fd_install (File FD_SHM 0 false 0 0 0 false 0 kobj) p in
        if fd <? 0 then k ← shm_unref kobj k; Done (fd, p, k) else Done (fd, p, k)
    end.

Definition pipe_from_fd (fd : Z) (want_write : bool) (p : proc) : Z + Z :=
  if ((fd <? 0) || (MAX_OPEN_FILES <=? fd))%bool then inl (- W_EBADF)
  else
    let f := (fds p).[fd] in
    if (negb (bool_decide (type f = FD_PIPE)) || negb (Bool.eqb (write_end f) want_write))%bool then inl (- W_EBADF)
    else inr (pipe f).

(** The descriptors of a new process: [io] holds the pipes of [wspawn_io], or
    nothing for an ordinary spawn. *)
Definition spawn_fds (io : option (Z * Z)) (parent : proc) (k : kernel) : out (proc * kernel) :=
  let child := Proc vfs_init_fds (uid parent) (cwd parent) in
  match io with
  | Some (inp, outp) =>
      k ← pipe_ref inp false k;
      k ← pipe_ref outp true k;
      k ← pipe_ref outp true k;
      let child := set_fd 0 (set_pipe inp false (fds child).[0]) child in
      let child := set_fd 1 (set_pipe outp true (fds child).[1]) child in
      Done (set_fd 2 (set_pipe outp true (fds child).[2]) child, k)
  | None => vfs_inherit_stdio child parent k
  end.

(** [loaded] says whether the program could be loaded after the descriptors
    were set up; where it could not, the process is forgotten as it stands. *)
Definition proc_spawn_io (loaded : bool) (io : option (Z * Z)) (parent : proc) (k : kernel) : out (option proc * kernel) :=
  '(child, k) ← spawn_fds io parent k;
  Done (if loaded then Some child else None, k).

(** [sys_spawn_io] with the two descriptors of the request. *)
Definition sys_spawn_io (loaded : bool) (in_fd out_fd : Z) (parent : proc) (k : kernel) : out ((Z + option proc) * kernel) :=
  match pipe_from_fd in_fd false parent with
  | inl r => Done (inl r, k)
  | inr inp =>
      match pipe_from_fd out_fd true parent with
      | inl r => Done (inl r, k)
      | inr outp => '(c, k) ← proc_spawn_io loaded (Some (inp, outp)) parent k; Done (inr c, k)
      end
  end.

(** ** Reading and writing a pipe through a descriptor

    The pipe branches of [vfs_read] and [vfs_write]. *)

Definition put_pipe (a : Z) (po : option Pipe.pipe) (k : kernel) : kernel :=
  match po with Some x => with_pipes (<[a := x]> (pipes k)) k | None => k end.

(** [None]: the call waits. *)
Definition read_pipe (f : file_t) (len : Z) (k : kernel) : out (option (Z * list Z) * kernel) :=
  if (write_end f || (pipe f =? 0))%bool then Done (Some (- W_EBADF, []), k)
  else
    x ← deref (pipes k) (pipe f);
    match Pipe.pipe_read (Some x) len with
    | Pipe.RBlock => Done (None, k)
    | Pipe.RRet r bytes po => Done (Some (r, bytes), put_pipe (pipe f) po k)
    end.

Inductive pwrite_result := PWait (n : Z) (rest : list Z) | PRet (r : Z).

(** [pipe_write] with [n] bytes already in the pipe. *)
Definition write_pipe_more (a n : Z) (rest : list Z) (k : kernel) : out (pwrite_result * kernel) :=
  x ← deref (pipes k) a;
  match Pipe.pipe_write (Some x) n rest with
  | Pipe.WBlock n rest x => Done (PWait n rest, put_pipe a (Some x) k)
  | Pipe.WRet r _ po => Done (PRet r, put_pipe a po k)
  end.

Definition write_pipe (f : file_t) (bytes : list Z) (k : kernel) : out (pwrite_result * kernel) :=
  if (negb (write_end f) || (pipe f =? 0))%bool then Done (PRet (- W_EBADF), k)
  else write_pipe_more (pipe f) 0 bytes k.

End Fds.
