(* ===== verification/FdsRefs.v ===== *)
(** The reference invariant through every call of [Fds]: whatever processes do
    with their descriptors, no object is used after it was freed and none
    outlives its last descriptor. *)

From S2P Require Import Prelude Str KString Pmm Pipe Ring Shm Path Socket Refs Fds.

Module FdsRefs.
Import Str Socket Refs.

(** ** Tables *)

Lemma perm_mid (a l2 : list name) f l :
  l2 = file_names l -> a ++ file_names (f :: l) ≡ₚ names f ++ a ++ l2.
Proof. intros ->. change (file_names (f :: l)) with (names f ++ file_names l). solve_Permutation. Qed.

Lemma file_names_upd i (l : list file_t) :
  0 <= i < Zlen l ->
  exists rest, file_names l ≡ₚ names l.[i] ++ rest /\ forall f, file_names (upd i f l) ≡ₚ names f ++ rest.
Proof.
  intros Hi. unfold Zlen in Hi. assert (Hlt : (Z.to_nat i < length l)%nat) by lia.
  exists (file_names (take (Z.to_nat i) l) ++ file_names (drop (S (Z.to_nat i)) l)). split.
  - pose proof (take_drop_middle l (Z.to_nat i) l.[i] (list_lookup_lookup_total_lt _ _ Hlt)) as Hmid.
    rewrite <- Hmid at 1. rewrite file_names_app. by apply perm_mid.
  - intros f. unfold upd. rewrite insert_take_drop by done. rewrite file_names_app. by apply perm_mid.
Qed.

Lemma alloc_from_spec n : forall i l,
  let fd := Fds.alloc_from n i l in fd = - W_EMFILE \/ (i <= fd < i + Z.of_nat n /\ type l.[fd] = FD_NONE).
Proof.
  induction n as [| n IH]; intros i l; cbn [Fds.alloc_from]; [by left |].
  case_bool_decide; [right; split; [lia | done] |]. destruct (IH (i + 1) l) as [-> | [? ?]]; [by left |].
  right. split; [lia | done].
Qed.

Lemma fd_alloc_spec p :
  let fd := Fds.fd_alloc p in
  (fd = - W_EMFILE /\ (fd <? 0) = true) \/ (3 <= fd < 32 /\ (fd <? 0) = false /\ type (Fds.fds p).[fd] = FD_NONE).
Proof.
  cbv zeta. unfold Fds.fd_alloc. destruct (alloc_from_spec (Z.to_nat (Fds.MAX_OPEN_FILES - 3)) 3 (Fds.fds p)) as [-> | [Hr Ht]]; [by left |].
  right. unfold Fds.MAX_OPEN_FILES in *. change (Z.to_nat (32 - 3)) with 29%nat in *. split_and!; try done; try lia.
Qed.

Lemma names_none f : type f = FD_NONE -> names f = [].
Proof. unfold names. by intros ->. Qed.

(** The table of a process has [MAX_OPEN_FILES] entries; the references in it
    and those held elsewhere are all there are. *)
Definition pinv (rest : list name) (p : Fds.proc) (k : kernel) : Prop :=
  Zlen (Fds.fds p) = Fds.MAX_OPEN_FILES /\ kinv (file_names (Fds.fds p) ++ rest) k.

Lemma set_fd_names fd f p :
  Zlen (Fds.fds p) = Fds.MAX_OPEN_FILES -> 0 <= fd < 32 ->
  Zlen (Fds.fds (Fds.set_fd fd f p)) = Fds.MAX_OPEN_FILES /\
  exists rest, file_names (Fds.fds p) ≡ₚ names (Fds.fds p).[fd] ++ rest /\
    file_names (Fds.fds (Fds.set_fd fd f p)) ≡ₚ names f ++ rest.
Proof.
  intros Hl Hfd. split; [cbn; by rewrite Zlen_upd |].
  destruct (file_names_upd fd (Fds.fds p)) as (rest & H1 & H2); [unfold Fds.MAX_OPEN_FILES in Hl; lia |].
  exists rest. split; [done | apply H2].
Qed.

Lemma install_spec f rest p k :
  Zlen (Fds.fds p) = Fds.MAX_OPEN_FILES -> kinv (names f ++ file_names (Fds.fds p) ++ rest) k ->
  let '(fd, p') := Fds.vfs_fd_install f p in
  (fd = - W_EMFILE /\ p' = p /\ (fd <? 0) = true) \/ (3 <= fd < 32 /\ (fd <? 0) = false /\ pinv rest p' k).
Proof.
  intros Hl Hk. unfold Fds.vfs_fd_install. destruct (fd_alloc_spec p) as [[-> _] | (Hr & Hz & Ht)]; [by left |].
  rewrite Hz. right. split_and!; [lia | lia | done |].
  destruct (set_fd_names (Fds.fd_alloc p) f p Hl ltac:(lia)) as (Hl' & r & H1 & H2). split; [done |].
  rewrite (names_none _ Ht) in H1. cbn [app] in H1. rewrite H2. revert Hk. apply kinv_perm; [| done].
  rewrite H1. solve_Permutation.
Qed.

Lemma fd_get_spec fd p f :
  Fds.fd_get fd p = Some f -> 0 <= fd < 32 /\ f = (Fds.fds p).[fd] /\ type f <> FD_NONE.
Proof.
  unfold Fds.fd_get, Fds.MAX_OPEN_FILES. destruct (Z.ltb_spec fd 0), (Z.leb_spec 32 fd); cbn [orb]; try done.
  case_bool_decide; [done |]. intros [= <-]. split_and!; try done; lia.
Qed.

Lemma elem_file_names f l : f ∈ l -> names f ⊆ file_names l.
Proof. intros Hf n Hn. apply list_elem_of_bind. by exists f. Qed.

Lemma get_elem fd p :
  Zlen (Fds.fds p) = Fds.MAX_OPEN_FILES -> 0 <= fd < 32 -> (Fds.fds p).[fd] ∈ Fds.fds p.
Proof.
  intros Hl Hfd. unfold Fds.MAX_OPEN_FILES, Zlen in Hl. apply list_elem_of_lookup_total_2. lia.
Qed.

(** ** Closing *)

Lemma release_spec fd rest p k :
  pinv rest p k -> 0 <= fd < 32 ->
  exists f k', Fds.fd_release (Fds.fds p).[fd] k = Done (f, k') /\ type f = FD_NONE /\ pinv rest (Fds.set_fd fd f p) k'.
Proof.
  intros [Hl Hk] Hfd. unfold Fds.fd_release.
  destruct (set_fd_names fd no_file p Hl Hfd) as (_ & r & H1 & _).
  destruct (drop_file_spec (Fds.fds p).[fd] (r ++ rest) k) as (k' & -> & Hk').
  { revert Hk. apply kinv_perm; [| done]. rewrite H1. solve_Permutation. }
  cbn [mbind out_bind]. eexists _, k'. split; [done |]. split; [done |].
  match goal with |- pinv _ (Fds.set_fd _ ?f _) _ => destruct (set_fd_names fd f p Hl Hfd) as (Hl' & r' & H1' & H2') end.
  split; [done |]. rewrite H2'. rewrite names_none by done. revert Hk'. apply kinv_perm; [| done]. cbn [app].
  f_equiv. rewrite H1 in H1'. by apply Permutation_app_inv_l in H1'.
Qed.

Lemma close_spec fd rest p k :
  pinv rest p k -> exists r p' k', Fds.vfs_close fd p k = Done (r, p', k') /\ pinv rest p' k'.
Proof.
  intros Hp. unfold Fds.vfs_close. destruct (Fds.fd_get fd p) as [f |] eqn:E; [| by eexists _, p, k].
  destruct (fd_get_spec _ _ _ E) as (Hfd & -> & _). destruct (release_spec fd rest p k Hp Hfd) as (f & k' & -> & _ & Hp').
  by eexists _, _, k'.
Qed.

Lemma close_from_spec n : forall i rest p k,
  pinv rest p k -> 0 <= i -> i + Z.of_nat n <= 32 ->
  (forall j, 0 <= j < i -> type (Fds.fds p).[j] = FD_NONE) ->
  exists p' k', Fds.close_from n i p k = Done (p', k') /\ pinv rest p' k' /\
    forall j, 0 <= j < i + Z.of_nat n -> type (Fds.fds p').[j] = FD_NONE.
Proof.
  induction n as [| n IH]; intros i rest p k Hp Hi Hn Hc; cbn [Fds.close_from].
  { exists p, k. split_and!; try done. intros. apply Hc. lia. }
  destruct (release_spec i rest p k Hp ltac:(lia)) as (f & k' & -> & Hf & Hp'). cbn [mbind out_bind].
  destruct (IH (i + 1) rest _ k' Hp' ltac:(lia) ltac:(lia)) as (p2 & k2 & -> & Hp2 & Hc2).
  - intros j Hj. cbn. destruct Hp as [Hl _]. unfold Fds.MAX_OPEN_FILES in Hl. destruct (decide (j = i)) as [-> | Hne].
    + by rewrite get_upd_eq by lia.
    + rewrite get_upd_ne by lia. apply Hc. lia.
  - exists p2, k2. split_and!; try done. intros j Hj. apply Hc2. lia.
Qed.

(** A process that ended holds nothing. *)
Lemma close_all_spec rest p k :
  pinv rest p k -> exists p' k', Fds.vfs_close_all p k = Done (p', k') /\ kinv rest k'.
Proof.
  intros Hp. destruct (close_from_spec 32 0 rest p k Hp) as (p' & k' & E & [Hl' Hk'] & Hc); [lia | lia | lia |].
  exists p', k'. split; [done |]. revert Hk'. apply kinv_perm; [| done].
  assert (Hn : file_names (Fds.fds p') = []).
  { unfold file_names, Fds.MAX_OPEN_FILES, Zlen in *. clear -Hl' Hc. revert Hc Hl'. generalize (Fds.fds p'). intros l Hc Hl.
    assert (Hall : Forall (fun f => names f = []) l).
    { apply Forall_forall. intros f Hf. apply list_elem_of_lookup_1 in Hf as [j Hj]. apply names_none.
      pose proof (lookup_lt_Some _ _ _ Hj). specialize (Hc (Z.of_nat j) ltac:(lia)). rewrite Nat2Z.id in Hc.
      by rewrite (list_lookup_total_correct _ _ _ Hj) in Hc. }
    clear Hc Hl. induction Hall as [| f l Hf _ IH]; [done |]. cbn. by rewrite Hf. }
  by rewrite Hn.
Qed.

(** ** New references *)

Lemma stored_zero ext k n : kinv ext k -> stored k n = 0 -> num n ext = 0 /\ (n ∉ waiting (socks k)) /\ num n (waiting (socks k) ++ queued k) = 0.
Proof.
  intros [He _ _ _] Hz. rewrite (He n), !num_app in Hz. pose proof (num_nonneg n ext).
  pose proof (num_nonneg n (waiting (socks k))). pose proof (num_nonneg n (queued k)). rewrite num_app. split_and!; try lia.
  intros Hin. apply num_pos in Hin. lia.
Qed.

Lemma kinv_input ext k : kinv ext k -> kinv (NInput :: ext) (with_kbd (keyboard_events_ref (kbd k)) k).
Proof.
  intros Hk. pose proof Hk as [He Ho _ _]. apply (same_sockets_kinv ext _ k); [done | done | by destruct Ho |].
  cbn [app]. apply (exact_input _ _ k _ He); [intros n Hn; by apply num_cons_ne |]. pose proof (He NInput) as Hz. cbn [stored] in Hz.
  pose proof (num_nonneg NInput (ext ++ waiting (socks k) ++ queued k)). rewrite kbd_ref_refs by lia. num_solve.
Qed.

Lemma kinv_new_pipe ext k a pp :
  kinv ext k -> a <> 0 -> pipes k !! a = None -> Pipe.readers pp = 1 -> Pipe.writers pp = 1 ->
  kinv (RPipe a :: WPipe a :: ext) (with_pipes (<[a := pp]> (pipes k)) k).
Proof.
  intros Hk Ha Hf Hr Hw. pose proof Hk as [He Ho _ _].
  destruct (stored_zero ext k (RPipe a) Hk) as (Hr0 & _ & Hr1); [cbn; by rewrite Hf |].
  destruct (stored_zero ext k (WPipe a) Hk) as (Hw0 & _ & Hw1); [cbn; by rewrite Hf |].
  apply (same_sockets_kinv ext _ k); [done | done | |].
  - destruct Ho as [(? & ? & ? & ?) Hp ? ? ?]. split; try done.
    + cbn. by rewrite lookup_insert_ne.
    + intros b q. cbn. destruct (decide (a = b)) as [<- | Hne]; [| rewrite lookup_insert_ne by done; apply Hp].
      rewrite lookup_insert_eq. intros [= <-]. lia.
  - cbn [app]. apply (exact_pipe _ _ k a (Some pp) He).
    + intros n Hn. pose proof (Hn true). pose proof (Hn false). by rewrite !num_cons_ne.
    + cbn. rewrite num_cons_eq, num_cons_ne, num_app by done. lia.
    + cbn. rewrite num_cons_ne, num_cons_eq, num_app by done. lia.
Qed.

Lemma kinv_new_shm ext k a s p m :
  kinv ext k -> a <> 0 -> shms k !! a = None -> Pmm.pmm_inv p -> Pmm.total_frames p = Pmm.total_frames (pmm k) ->
  Shm.refs s = 1 -> Shm.shm_ok p s ->
  (forall g, 0 <= g -> Pmm.used p g = (Pmm.used (pmm k) g || Shm.holds (Shm.frame s) g)%bool) ->
  (forall g, 0 <= g -> Shm.holds (Shm.frame s) g = true -> Pmm.used (pmm k) g = false) ->
  kinv (NShm a :: ext) (with_mem m (with_shms (<[a := s]> (shms k)) p k)).
Proof.
  intros Hk Ha Hf Hp Ht Hr Hok Hu Hfr. pose proof Hk as [He Ho _ _].
  destruct (stored_zero ext k (NShm a) Hk) as (Hr0 & _ & Hr1); [cbn; by rewrite Hf |].
  apply (same_sockets_kinv ext _ k); [done | done | |].
  - destruct Ho as [(? & ? & ? & ?) Hpipe Hshm Hnd Hpm]. split; try done.
    + cbn. by rewrite lookup_insert_ne.
    + intros b q. cbn. destruct (decide (a = b)) as [<- | Hne].
      * rewrite lookup_insert_eq. intros [= <-]. split; [lia | done].
      * rewrite lookup_insert_ne by done. intros Hb. destruct (Hshm b q Hb) as [Hpos [Hpg [Hd Hown]]]. split; [done |].
        split; [done |]. split; [done |]. eapply Forall_impl; [exact Hown |]. cbv beta.
        intros x (g & -> & Hg & Hug). exists g. rewrite Ht, Hu, Hug by lia. done.
    + cbn. rewrite gather_fresh by done. apply NoDup_app. destruct Hok as [_ [Hd Hown]]. split_and!; [done | | done].
      intros x Hx Hin. rewrite Forall_forall in Hown. destruct (Hown x Hx) as (g & -> & Hg & _).
      apply elem_of_gather in Hin as (b & q & Hb & Hq). destruct (Hshm b q Hb) as [_ [_ [_ Hq']]].
      rewrite Forall_forall in Hq'. destruct (Hq' _ Hq) as (g' & E & Hg' & Hu'). unfold PAGE_SIZE in E.
      assert (g' = g) as -> by lia. rewrite (Hfr g) in Hu' by (lia || by apply bool_decide_eq_true). done.
  - cbn [app]. change (exact (NShm a :: ext ++ waiting (socks k) ++ queued k)
      (with_shms (partial_alter (fun _ => Some s) a (shms k)) p k)).
    apply (exact_shm _ _ k a (Some s) p He).
    + intros n Hn. by rewrite num_cons_ne.
    + cbn. rewrite num_cons_eq, num_app. lia.
Qed.

(** ** Sockets *)

Lemma find_listener_spec ext k path :
  kinv ext k -> exists a, find_listener path k = Done a /\
    (a = 0 \/ exists x, socks k !! a = Some x /\ listening x = true /\ KString.str_cmp (Socket.path x) path = 0).
Proof.
  intros [_ _ _ Hl]. unfold find_listener. pose proof (l_live _ _ Hl) as Hlive. revert Hlive.
  generalize (listeners k). intros ls Hlive. induction ls as [| a ls IH]; cbn [find_listener_from]; [exists 0; by split; [| left] |].
  destruct (Z.eqb_spec a 0) as [-> | Ha]; [apply IH; intros b Hb; apply Hlive; by right |].
  destruct (Hlive a) as (x & Hx & Hlx); [by left | done |]. rewrite (deref_some _ _ _ Hx). cbn [mbind out_bind].
  destruct (Z.eqb_spec (KString.str_cmp (Socket.path x) path) 0); [exists a; split; [done |]; right; by exists x |].
  apply IH. intros b Hb. apply Hlive. by right.
Qed.

Lemma listen_slot_spec l : forall i k, free_slot i l = Some k -> i <= k < i + Zlen l /\ l.[k - i] = 0.
Proof.
  induction l as [| a l IH]; intros i k; cbn [free_slot]; [done |]. destruct (Z.eqb_spec a 0) as [-> |].
  - intros [= <-]. unfold Zlen. cbn [length]. split; [lia |]. by replace (i - i) with 0 by lia.
  - intros H. apply IH in H as [H1 H2]. unfold Zlen in *. cbn [length]. split; [lia |].
    replace (Z.to_nat (k - i)) with (S (Z.to_nat (k - (i + 1)))) by lia. done.
Qed.

(** A new socket, not yet in a backlog. *)
Lemma exact_new_sock l k a x : exact l k -> socks k !! a = None -> refs x = 1 -> exact (NSock a :: l) (put_sock a x k).
Proof.
  intros He Hf Hr. apply (exact_sock _ _ k a (Some x) He); [intros; by rewrite num_cons_ne |].
  pose proof (He (NSock a)) as Hz. cbn [stored] in Hz. rewrite Hf in Hz. cbn in Hz |- *. rewrite num_cons_eq. lia.
Qed.

Lemma objs_put_sock k a x : objs_ok k -> a <> 0 -> objs_ok (put_sock a x k).
Proof. intros [(? & ? & ? & ?) ? ? ? ?] Ha. split; try done. cbn. by rewrite lookup_insert_ne. Qed.

Lemma waiting_fresh ss a x : ss !! a = None -> backlog x = [] -> waiting (<[a := x]> ss) ≡ₚ waiting ss.
Proof. intros Hf Hb. unfold waiting. rewrite gather_fresh by done. unfold backlog_names at 1. by rewrite Hb. Qed.

Lemma waiting_elem ss a x b : ss !! a = Some x -> b ∈ backlog x -> NSock b ∈ waiting ss.
Proof.
  intros Ha Hb. apply elem_of_gather. exists a, x. split; [done |]. unfold backlog_names. by apply list_elem_of_fmap_2.
Qed.

Lemma cinv_new_listener ss cs a x :
  cinv ss cs -> ss !! a = None -> listening x = true -> conn x = 0 -> cinv (<[a := x]> ss) cs.
Proof.
  intros [He Hu Hc] Hf Hx Hcx. split.
  - intros b z. destruct (decide (a = b)) as [<- | Hne].
    + rewrite lookup_insert_eq. intros [= <-]. by rewrite Hx.
    + rewrite lookup_insert_ne by done. apply He.
  - intros b b' z z' Hb Hb' Hz Hz'.
    assert (a <> b) by (intros <-; rewrite lookup_insert_eq in Hb; congruence).
    assert (a <> b') by (intros <-; rewrite lookup_insert_eq in Hb'; congruence).
    rewrite lookup_insert_ne in Hb, Hb' by done. by apply (Hu b b' z z').
  - intros c y Hy. destruct (Hc c y Hy) as (? & ? & ? & Hown). split_and!; try done. intros i Hi.
    destruct (Hown i Hi) as (b & z & Hb & ?). exists b, z. split; [| done]. rewrite lookup_insert_ne; [done |].
    intros <-. congruence.
Qed.

Lemma linv_new_listener ss ls slot a x :
  linv ss ls -> ss !! a = None -> (NSock a ∉ waiting ss) -> listening x = true -> backlog x = [] -> refs x = 1 ->
  0 <= slot < Zlen ls -> ls.[slot] = 0 -> ss !! 0 = None -> a <> 0 -> linv (<[a := x]> ss) (upd slot a ls).
Proof.
  intros [Hlen Hlive Hknown Hback Hcap Hrefs] Hf Hnw Hx Hb Hr Hs Hz H0 Ha.
  assert (Hl : forall b z, <[a := x]> ss !! b = Some z -> (b = a /\ z = x) \/ (b <> a /\ ss !! b = Some z)).
  { intros b z. destruct (decide (a = b)) as [<- | Hne]; [rewrite lookup_insert_eq; intros [= <-]; by left |].
    rewrite lookup_insert_ne by done. right. split; [congruence | done]. }
  split.
  - by rewrite Zlen_upd.
  - intros b Hb' Hnz. apply list_elem_of_lookup_1 in Hb' as [j Hj]. unfold upd in Hj.
    destruct (decide (j = Z.to_nat slot)) as [-> | Hne].
    + rewrite list_lookup_insert_eq in Hj by (unfold Zlen in Hs; lia). injection Hj as <-. exists x. by rewrite lookup_insert_eq.
    + rewrite list_lookup_insert_ne in Hj by done. destruct (Hlive b) as (z & Hzz & ?); [by eapply list_elem_of_lookup_2 | done |].
      exists z. split; [| done]. rewrite lookup_insert_ne; [done |]. intros <-. congruence.
  - intros b z Hbz Hlz. destruct (Hl b z Hbz) as [[-> ->] | [Hne Hbz']].
    + apply list_elem_of_lookup. exists (Z.to_nat slot). unfold upd. apply list_lookup_insert_eq. unfold Zlen in Hs. lia.
    + pose proof (Hknown b z Hbz' Hlz) as Hin. apply list_elem_of_lookup_1 in Hin as [j Hj]. apply list_elem_of_lookup. exists j.
      unfold upd. rewrite list_lookup_insert_ne; [done |]. intros E. subst j.
      apply list_lookup_total_correct in Hj. rewrite Hz in Hj. subst b. congruence.
  - intros b z b' z' Hbz Hb' Hbz'. destruct (Hl b z Hbz) as [[-> ->] | [Hne Hbz1]].
    + rewrite Hb in Hb'. by apply not_elem_of_nil in Hb'.
    + destruct (Hl b' z' Hbz') as [[-> ->] | [Hne' Hbz2]]; [| by apply (Hback b z b' z')].
      destruct Hnw. by apply (waiting_elem ss b z).
  - intros b z Hbz. destruct (Hl b z Hbz) as [[-> ->] | [_ ?]]; [by rewrite Hb | by apply (Hcap b z)].
  - intros b z Hbz. destruct (Hl b z Hbz) as [[-> ->] | [_ ?]]; [lia | by apply (Hrefs b z)].
Qed.

Lemma socket_listen_spec ext k path own a :
  kinv ext k -> (a <> 0 -> socks k !! a = None) ->
  exists r k', socket_listen path own a k = Done (r, k') /\
    match r with inl _ => k' = k | inr s => kinv (NSock s :: ext) k' end.
Proof.
  intros Hk Hf. pose proof Hk as [He Ho Hci Hl]. unfold socket_listen.
  destruct (find_listener_spec ext k path Hk) as (b & -> & _). cbn [mbind out_bind].
  destruct (b =? 0); cbn [negb]; [| by eexists (inl _), k]. destruct (free_slot 0 (listeners k)) as [slot |] eqn:Es; [| by eexists (inl _), k].
  destruct (Z.eqb_spec a 0) as [| Ha]; [by eexists (inl _), k |]. specialize (Hf Ha).
  apply listen_slot_spec in Es as [Hs Hz]. rewrite Z.sub_0_r in Hz.
  destruct (stored_zero ext k (NSock a) Hk) as (_ & Hnw & _); [cbn; by rewrite Hf |].
  eexists (inr a), _. split; [done |]. set (x := Socket _ _ _ _ _ _ _). split.
  - apply exact_listeners. change (queued _) with (queued k). cbn [with_listeners socks put_sock with_socks].
    rewrite (waiting_fresh (socks k) a x Hf eq_refl). cbn [app]. by apply exact_new_sock.
  - pose proof (objs_put_sock k a x Ho Ha) as [? ? ? ? ?]. by split.
  - by apply (cinv_new_listener (socks k) (conns k) a x).
  - destruct (o_null _ Ho) as (_ & _ & Hs0 & _). by apply linv_new_listener.
Qed.

(** A new connection: its two endpoints, one of them in the backlog of [l]. *)
Lemma cinv_connect ss cs c m t :
  cinv ss cs -> cs !! c = None -> ss !! m = None -> ss !! t = None -> m <> t -> c <> 0 ->
  cinv (<[t := Socket 1 false [] 0 [] c true]> (<[m := Socket 1 false [] 0 [] c false]> ss))
    (<[c := Conn 2 false false no_dir no_dir]> cs).
Proof.
  intros [He Hu Hc] Hfc Hfm Hft Hmt Hc0. set (xm := Socket 1 false [] 0 [] c false). set (xt := Socket 1 false [] 0 [] c true).
  assert (Hl : forall a x, <[t := xt]> (<[m := xm]> ss) !! a = Some x ->
    (a = t /\ x = xt) \/ (a = m /\ x = xm) \/ (a <> t /\ a <> m /\ ss !! a = Some x)).
  { intros a x. destruct (decide (t = a)) as [<- | Ht]; [rewrite lookup_insert_eq; intros [= <-]; by left |].
    rewrite lookup_insert_ne by done. destruct (decide (m = a)) as [<- | Hm]; [rewrite lookup_insert_eq; intros [= <-]; by right; left |].
    rewrite lookup_insert_ne by done. right. right. split_and!; congruence. }
  assert (Hold : forall a x, ss !! a = Some x -> listening x = false -> conn x <> c).
  { intros a x Ha Hx E. pose proof (He a x Ha) as H. rewrite Hx in H. destruct H as [_ (y & Hy & _)]. congruence. }
  split.
  - intros a x Ha. destruct (Hl a x Ha) as [[-> ->] | [[-> ->] | (_ & _ & Hss)]]; cbn [listening].
    1, 2: split; [done |]; exists (Conn 2 false false no_dir no_dir); by rewrite lookup_insert_eq.
    pose proof (He a x Hss) as H. destruct (listening x) eqn:El; [done |]. destruct H as [Hb (y & Hy & ?)]. split; [done |].
    exists y. rewrite lookup_insert_ne by congruence. done.
  - intros a b x y Ha Hb Hx Hy Hcc Hsd.
    destruct (Hl a x Ha) as [[-> ->] | [[-> ->] | (_ & _ & Hss)]], (Hl b y Hb) as [[-> ->] | [[-> ->] | (_ & _ & Hss')]]; try done;
      try (exfalso; by eapply (Hold b y)); try (exfalso; by eapply (Hold a x)). by apply (Hu a b x y).
  - intros c' y Hy. destruct (decide (c = c')) as [<- | Hne].
    + rewrite lookup_insert_eq in Hy. injection Hy as <-. split_and!; try done.
      * intros i. split; [split; destruct i; vm_compute; repeat split; congruence | destruct i; constructor].
      * intros i _. destruct i; [exists t, xt | exists m, xm]; split_and!; try done; [apply lookup_insert_eq |].
        rewrite lookup_insert_ne by done. apply lookup_insert_eq.
    + rewrite lookup_insert_ne in Hy by done. destruct (Hc c' y Hy) as (? & ? & ? & Hown). split_and!; try done.
      intros i Hi. destruct (Hown i Hi) as (a & z & Ha & ?). exists a, z. split; [| done].
      rewrite !lookup_insert_ne; [done | |]; intros <-; congruence.
Qed.

Lemma linv_endpoint ss ls a c i :
  linv ss ls -> ss !! a = None -> (forall b x, ss !! b = Some x -> a ∉ backlog x) -> linv (<[a := Socket 1 false [] 0 [] c i]> ss) ls.
Proof.
  intros [Hlen Hlive Hknown Hback Hcap Hrefs] Hf Hnw. set (x := Socket 1 false [] 0 [] c i).
  assert (Hl : forall b z, <[a := x]> ss !! b = Some z -> (b = a /\ z = x) \/ (b <> a /\ ss !! b = Some z)).
  { intros b z. destruct (decide (a = b)) as [<- | Hne]; [rewrite lookup_insert_eq; intros [= <-]; by left |].
    rewrite lookup_insert_ne by done. right. split; [congruence | done]. }
  split; [done | ..].
  - intros b Hb Hz. destruct (Hlive b Hb Hz) as (z & Hzz & ?). exists z. split; [| done].
    rewrite lookup_insert_ne; [done |]. intros <-. congruence.
  - intros b z Hb Hlz. destruct (Hl b z Hb) as [[-> ->] | [_ Hb']]; [done | by apply (Hknown b z)].
  - intros b z b' z' Hb Hin Hb'. destruct (Hl b' z' Hb') as [[-> ->] | [_ Hb2]]; [done |].
    destruct (Hl b z Hb) as [[-> ->] | [_ Hb1]]; [by apply not_elem_of_nil in Hin | by apply (Hback b z b' z')].
  - intros b z Hb. destruct (Hl b z Hb) as [[-> ->] | [_ ?]]; [done | by apply (Hcap b z)].
  - intros b z Hb. destruct (Hl b z Hb) as [[-> ->] | [_ ?]]; [done | by apply (Hrefs b z)].
Qed.

(** Another backlog for a listener. *)
Lemma cinv_set_backlog ss cs s x l :
  cinv ss cs -> ss !! s = Some x -> listening x = true -> cinv (<[s := set_backlog l x]> ss) cs.
Proof.
  intros Hci Hs Hx. rewrite <- insert_delete_eq. apply cinv_new_listener; [by apply (cinv_drop_listener _ _ s x) | apply lookup_delete_eq | done |].
  pose proof (c_end _ _ Hci s x Hs) as H. by rewrite Hx in H.
Qed.

Lemma linv_set_backlog ss ls s x l :
  linv ss ls -> ss !! s = Some x -> listening x = true -> Zlen l <= SOCK_BACKLOG ->
  (forall b y, b ∈ l -> ss !! b = Some y -> listening y = false) -> linv (<[s := set_backlog l x]> ss) ls.
Proof.
  intros [Hlen Hlive Hknown Hback Hcap Hrefs] Hs Hx Hll Hbl.
  assert (Hl : forall b z, <[s := set_backlog l x]> ss !! b = Some z ->
    exists z0, ss !! b = Some z0 /\ listening z = listening z0 /\ refs z = refs z0 /\ (backlog z = backlog z0 \/ backlog z = l)).
  { intros b z. destruct (decide (s = b)) as [<- | Hne]; [rewrite lookup_insert_eq; intros [= <-]; exists x; tauto |].
    rewrite lookup_insert_ne by done. exists z. tauto. }
  split; [done | ..].
  - intros b Hb Hz. destruct (Hlive b Hb Hz) as (z & Hzz & ?). destruct (decide (s = b)) as [<- | Hne].
    + exists (set_backlog l x). by rewrite lookup_insert_eq.
    + exists z. by rewrite lookup_insert_ne.
  - intros b z Hb Hlz. destruct (Hl b z Hb) as (z0 & Hb' & E & _). apply (Hknown b z0 Hb'). congruence.
  - intros b z b' z' Hb Hin Hb'. destruct (Hl b z Hb) as (z0 & Hb0 & _ & _ & E), (Hl b' z' Hb') as (z1 & Hb1 & -> & _ & _).
    destruct E as [E | E]; rewrite E in Hin; [by apply (Hback b z0 b' z1) | by apply (Hbl b' z1)].
  - intros b z Hb. destruct (Hl b z Hb) as (z0 & Hb' & _ & _ & [-> | ->]); [by apply (Hcap b z0) | done].
  - intros b z Hb. destruct (Hl b z Hb) as (z0 & Hb' & _ & -> & _). by apply (Hrefs b z0).
Qed.

Lemma exact_set_backlog l k s x b : exact l k -> socks k !! s = Some x -> exact l (put_sock s (set_backlog b x) k).
Proof.
  intros He Hs. apply (exact_sock _ _ k s (Some _) He); [done |]. pose proof (He (NSock s)) as Hz. cbn [stored] in Hz.
  by rewrite Hs in Hz.
Qed.

Lemma waiting_set_backlog ss s x b :
  ss !! s = Some x -> exists rest, waiting ss ≡ₚ (NSock <$> backlog x) ++ rest /\
    waiting (<[s := set_backlog b x]> ss) ≡ₚ (NSock <$> b) ++ rest.
Proof. intros Hs. exists (waiting (delete s ss)). split; [exact (gather_split backlog_names ss s x Hs) | exact (gather_insert backlog_names ss s _)]. Qed.

Lemma socket_connect_spec ext k path u c m t :
  kinv ext k -> (c <> 0 -> conns k !! c = None) -> (m <> 0 -> socks k !! m = None) -> (t <> 0 -> socks k !! t = None) ->
  (m <> 0 -> m <> t) ->
  exists r k', socket_connect path u c m t k = Done (r, k') /\
    match r with inl _ => k' = k | inr s => kinv (NSock s :: ext) k' end.
Proof.
  intros Hk Hfc Hfm Hft Hmt. pose proof Hk as [He Ho Hci Hl]. unfold socket_connect.
  destruct (find_listener_spec ext k path Hk) as (l & -> & Hcase). cbn [mbind out_bind].
  destruct (Z.eqb_spec l 0) as [| Hl0]; [by eexists (inl _), k |]. destruct Hcase as [? | (x & Hx & Hlx & _)]; [done |].
  rewrite (deref_some _ _ _ Hx). cbn [mbind out_bind]. destruct (_ && _)%bool; [by eexists (inl _), k |].
  destruct (Z.leb_spec SOCK_BACKLOG (Zlen (backlog x))) as [| Hroom]; [by eexists (inl _), k |].
  destruct (Z.eqb_spec c 0) as [| Hc]; [by eexists (inl _), k |]. destruct (Z.eqb_spec m 0) as [| Hm]; [by eexists (inl _), k |].
  destruct (Z.eqb_spec t 0) as [| Ht]; [by eexists (inl _), k |]. cbn [orb].
  specialize (Hfc Hc). specialize (Hfm Hm). specialize (Hft Ht). specialize (Hmt Hm).
  set (xm := Socket 1 false [] 0 [] c false). set (xt := Socket 1 false [] 0 [] c true).
  set (k1 := put_sock t xt (put_sock m xm (put_conn c (Conn 2 false false no_dir no_dir) k))).
  assert (Hlm : l <> m) by (intros ->; congruence). assert (Hlt : l <> t) by (intros ->; congruence).
  assert (Hx1 : socks k1 !! l = Some x) by (cbn; rewrite !lookup_insert_ne by done; done).
  assert (Hft1 : (<[m := xm]> (socks k)) !! t = None) by (by rewrite lookup_insert_ne).
  rewrite (deref_some _ _ _ Hx1). cbn [mbind out_bind]. eexists (inr m), _. split; [done |].
  destruct (stored_zero ext k (NSock m) Hk) as (_ & Hnm & _); [cbn; by rewrite Hfm |].
  destruct (stored_zero ext k (NSock t) Hk) as (_ & Hnt & _); [cbn; by rewrite Hft |].
  assert (Hq : queued k1 ≡ₚ queued k) by (unfold queued; cbn; by rewrite gather_fresh).
  assert (Hw1 : waiting (socks k1) ≡ₚ waiting (socks k)) by (cbn; by rewrite !waiting_fresh).
  destruct (waiting_set_backlog (socks k1) l x (backlog x ++ [t]) Hx1) as (rest & Hwa & Hwb). split.
  - change (queued (put_sock _ _ k1)) with (queued k1). change (socks (put_sock l ?z k1)) with (<[l := z]> (socks k1)).
    apply exact_set_backlog; [| done]. rewrite Hwb, Hq, fmap_app. cbn [fmap list_fmap].
    assert (H : exact (NSock t :: NSock m :: ext ++ waiting (socks k) ++ queued k) k1).
    { apply exact_new_sock; [| done | done]. apply exact_new_sock; [| done | done]. by apply exact_conns. }
    revert H. apply exact_perm; [| done]. rewrite <- Hw1, Hwa. solve_Permutation.
  - apply objs_put_sock; [| done]. unfold k1. apply objs_put_sock; [| done]. apply objs_put_sock; [| done]. by apply objs_put_conn.
  - apply (cinv_set_backlog (socks k1) (conns k1)); [| done | done]. by apply cinv_connect.
  - apply (linv_set_backlog (socks k1)); [| done | done | rewrite Zlen_app; change (Zlen [t]) with 1; lia |].
    + apply linv_endpoint; [apply linv_endpoint; [done | done |] | done |].
      * intros b z Hb Hin. apply Hnm. by apply (waiting_elem _ b z).
      * intros b z Hb Hin. cbn in Hb. destruct (decide (m = b)) as [<- | Hne].
        -- rewrite lookup_insert_eq in Hb. injection Hb as <-. by apply not_elem_of_nil in Hin.
        -- rewrite lookup_insert_ne in Hb by done. apply Hnt. by apply (waiting_elem _ b z).
    + intros b y Hb Hy. apply elem_of_app in Hb as [Hb | ->%list_elem_of_singleton].
      * cbn in Hy. destruct (decide (t = b)) as [<- | Hbt]; [rewrite lookup_insert_eq in Hy; by injection Hy as <- |].
        rewrite lookup_insert_ne in Hy by done. destruct (decide (m = b)) as [<- | Hbm];
          [rewrite lookup_insert_eq in Hy; by injection Hy as <- |].
        rewrite lookup_insert_ne in Hy by done. by apply (l_back _ _ Hl l x b y).
      * cbn in Hy. rewrite lookup_insert_eq in Hy. by injection Hy as <-.
Qed.

Lemma socket_accept_spec ext k s :
  kinv ext k -> NSock s ∈ ext ->
  exists r k', socket_accept s k = Done (r, k') /\
    match r with Some (inr c) => kinv (NSock c :: ext) k' | _ => k' = k end.
Proof.
  intros Hk Hin. pose proof Hk as [He Ho Hci Hl]. destruct (named_sock _ _ s He) as [x Hx]; [apply elem_of_app; by left |].
  assert (s <> 0) by (destruct (o_null _ Ho) as (_ & _ & ? & _); congruence).
  unfold socket_accept. rewrite (proj2 (Z.eqb_neq s 0)) by done. rewrite (deref_some _ _ _ Hx). cbn [mbind out_bind].
  destruct (listening x) eqn:Hlx; cbn [negb]; [| by eexists (Some (inl _)), k].
  destruct (backlog x) as [| c l] eqn:Eb; [by eexists None, k |]. eexists (Some (inr c)), _. split; [done |].
  destruct (waiting_set_backlog (socks k) s x l Hx) as (rest & Hwa & Hwb). split.
  - change (queued (put_sock _ _ k)) with (queued k). change (socks (put_sock s ?z k)) with (<[s := z]> (socks k)).
    apply exact_set_backlog; [| done]. rewrite Hwb. revert He. apply exact_perm; [| done]. rewrite Hwa, Eb. cbn [fmap list_fmap].
    solve_Permutation.
  - by apply objs_put_sock.
  - by apply (cinv_set_backlog (socks k) (conns k)).
  - apply (linv_set_backlog (socks k)); try done.
    + pose proof (l_cap _ _ Hl s x Hx) as Hc. rewrite Eb in Hc. unfold Zlen in *. cbn [length] in Hc. lia.
    + intros b y Hb Hy. apply (l_back _ _ Hl s x b y Hx); [rewrite Eb; by right | done].
Qed.

(** ** Messages *)

Definition bytes (d : sock_dir_t) : list Z := ring SOCK_CAP (buf d) (tail d) (count d).

Lemma sock_cap_ok : 0 < SOCK_CAP < 2 ^ 31.
Proof. unfold SOCK_CAP. lia. Qed.

Lemma fd_cap_ok : 0 < SOCK_FD_CAP < 2 ^ 31.
Proof. unfold SOCK_FD_CAP. lia. Qed.

Lemma Zlen_stream d : dir_ok d -> Zlen (bytes d) = count d.
Proof. intros (_ & (_ & _ & ? & _) & _). apply Zlen_ring. lia. Qed.

Lemma push_byte_spec b d :
  dir_ok d -> count d < SOCK_CAP ->
  dir_ok (push_byte b d) /\ bytes (push_byte b d) = bytes d ++ [b].
Proof.
  intros (Hf & Hb & Hr & Hw) Hc. destruct (ring_push SOCK_CAP sock_cap_ok (buf d) (head d) (tail d) (count d) b Hb Hc) as [H1 H2].
  split; [| exact H2]. split; [done |]. split; [done |]. split; [done |]. cbn [push_byte written read count].
  rewrite Hw. unfold u64. rewrite Zplus_mod_idemp_l. f_equal. lia.
Qed.

Lemma pop_byte_spec d :
  dir_ok d -> 0 < count d -> dir_ok (pop_byte d) /\ bytes d = (buf d).[tail d] :: bytes (pop_byte d).
Proof.
  intros (Hf & Hb & Hr & Hw) Hc. destruct (ring_pop SOCK_CAP sock_cap_ok (buf d) (head d) (tail d) (count d) Hb Hc) as [H1 H2].
  split; [| exact H2]. split; [done |]. split; [done |]. cbn [pop_byte written read count]. split; [by apply u64_range |].
  cbn [pop_byte written read count]. rewrite Hw. unfold u64. rewrite Zplus_mod_idemp_l. f_equal. lia.
Qed.

Lemma push_fd_spec f a d :
  dir_ok d -> fd_count d < SOCK_FD_CAP ->
  dir_ok (push_fd f a d) /\ queue (push_fd f a d) = queue d ++ [SockFd f a].
Proof.
  intros (Hf & Hb & Hp) Hc.
  destruct (ring_push SOCK_FD_CAP fd_cap_ok (Socket.fds d) (fd_head d) (fd_tail d) (fd_count d) (SockFd f a) Hf Hc) as [H1 H2].
  split; [done | exact H2].
Qed.

(** What the sending loop puts in, and why it stops. *)
Lemma send_loop_spec rest : forall d n,
  dir_ok d ->
  let '(d', n', rest') := send_loop d n rest in
  exists given, rest = given ++ rest' /\ dir_ok d' /\ bytes d' = bytes d ++ given /\ n' = n + Zlen given /\
    (rest' = [] \/ count d' = SOCK_CAP) /\ queue d' = queue d /\ read d' = read d /\
    u64 (written d') = u64 (written d + Zlen given).
Proof.
  induction rest as [| b rest IH]; intros d n Hd; cbn [send_loop].
  { exists []. split_and!; try done; [by rewrite app_nil_r | change (Zlen []) with 0; lia | by left | f_equal; change (Zlen []) with 0; lia]. }
  pose proof Hd as (_ & (_ & _ & Hc & _) & _). destruct (Z.ltb_spec (count d) SOCK_CAP) as [Hlt | Hge].
  - destruct (push_byte_spec b d Hd Hlt) as [Hd1 E1]. specialize (IH (push_byte b d) (n + 1) Hd1).
    destruct (send_loop _ _ _) as [[d' n'] rest']. destruct IH as (given & -> & Hd' & E & -> & Hs & Hq & Hr & Hw).
    exists (b :: given). split_and!; try done.
    + by rewrite E, E1, <- app_assoc.
    + unfold Zlen. cbn [length]. lia.
    + rewrite Hw. cbn [push_byte written]. unfold u64. rewrite Zplus_mod_idemp_l. f_equal. unfold Zlen. cbn [length]. lia.
  - exists []. split_and!; try done; [by rewrite app_nil_r | change (Zlen []) with 0; lia | right; lia | f_equal; change (Zlen []) with 0; lia].
Qed.

Lemma recv_loop_spec fuel : forall d n len o,
  dir_ok d -> 0 <= n <= len -> len - n <= Z.of_nat fuel ->
  let '(d', o') := recv_loop fuel d n len o in
  exists taken, o' = o ++ taken /\ dir_ok d' /\ bytes d = taken ++ bytes d' /\
    Zlen taken = Z.min (len - n) (count d) /\ queue d' = queue d /\ written d' = written d /\
    u64 (read d') = u64 (read d + Zlen taken).
Proof.
  induction fuel as [| fuel IH]; intros d n len o Hd Hn Hf; cbn [recv_loop]; pose proof Hd as (_ & (_ & _ & Hc & _) & _).
  { exists []. rewrite app_nil_r. change (Zlen []) with 0. rewrite Z.add_0_r. split_and!; try done. lia. }
  destruct (Z.ltb_spec n len), (Z.ltb_spec 0 (count d)); cbn [andb];
    try (exists []; rewrite app_nil_r; change (Zlen []) with 0; rewrite Z.add_0_r; split_and!; try done; lia).
  destruct (pop_byte_spec d Hd) as [Hd1 E1]; [done |].
  specialize (IH (pop_byte d) (n + 1) len (o ++ [(buf d).[tail d]]) Hd1 ltac:(lia) ltac:(lia)).
  destruct (recv_loop _ _ _ _ _) as [d' o']. destruct IH as (taken & -> & Hd' & E & Hl & Hq & Hw & Hr).
  exists ((buf d).[tail d] :: taken). split_and!; try done.
  - by rewrite <- app_assoc.
  - by rewrite E1, E.
  - unfold Zlen in *. cbn [length]. cbn [pop_byte count] in Hl. lia.
  - rewrite Hr. cbn [pop_byte read]. unfold u64. rewrite Zplus_mod_idemp_l. f_equal. unfold Zlen. cbn [length]. lia.
Qed.

Lemma recv_fds_spec want : forall d got,
  dir_ok d ->
  let '(d', got') := recv_fds want d got in
  exists taken, got' = got ++ (file <$> taken) /\ dir_ok d' /\ queue d = taken ++ queue d' /\ bytes d' = bytes d /\
    Forall (fun x => at_ x <= read d) taken /\ Zlen taken <= Z.of_nat want /\ read d' = read d /\ written d' = written d /\
    (Zlen taken = Z.of_nat want \/ queue d' = [] \/ exists x q, queue d' = x :: q /\ read d < at_ x).
Proof.
  induction want as [| want IH]; intros d got Hd; cbn [recv_fds].
  { exists []. rewrite app_nil_r. split_and!; try done. by left. }
  pose proof Hd as [(_ & _ & Hc & _) _].
  destruct (Z.ltb_spec 0 (fd_count d)) as [Hpos | Hz]; cbn [andb].
  - destruct (advance_spec d Hd Hpos) as [Hd1 Hq]. destruct (Z.leb_spec (at_ (Socket.fds d).[fd_tail d]) (read d)) as [Ha | Ha].
    + specialize (IH (advance_fds d) (got ++ [file (Socket.fds d).[fd_tail d]]) Hd1).
      destruct (recv_fds want _ _) as [d' got']. destruct IH as (taken & -> & Hd' & E & Hb & Hat & Hl & Hr & Hw & Hstop).
      exists ((Socket.fds d).[fd_tail d] :: taken). split_and!; try done.
      * by rewrite <- app_assoc.
      * by rewrite Hq, E.
      * by constructor.
      * unfold Zlen in *. cbn [length]. lia.
      * destruct Hstop as [Hs | [Hs | Hs]]; [left | by right; left | by right; right]. unfold Zlen in *. cbn [length]. lia.
    + exists []. rewrite app_nil_r. split_and!; try done. right. right. by eexists _, _.
  - exists []. rewrite app_nil_r. split_and!; try done. right. left. unfold queue, ring.
    by replace (fd_count d) with 0 by lia.
Qed.

Lemma cinv_put_conn ss cs c y y' :
  cinv ss cs -> cs !! c = Some y -> conn_ok y' -> crefs y' = crefs y -> closed0 y' = closed0 y -> closed1 y' = closed1 y ->
  cinv ss (<[c := y']> cs).
Proof.
  intros [He Hu Hc] Hy Hok Hr H0 H1. assert (Hcl : forall i, closed i y' = closed i y) by (by intros []). split; [| done |].
  - intros a x Ha. pose proof (He a x Ha) as H. destruct (listening x); [done |]. destruct H as [Hb (z & Hz & Hcz)].
    split; [done |]. destruct (decide (conn x = c)) as [E | E].
    + exists y'. rewrite E, lookup_insert_eq, Hcl. split; [done |]. congruence.
    + exists z. by rewrite lookup_insert_ne.
  - intros c' z Hz. destruct (decide (c = c')) as [<- | Hne]; [| rewrite lookup_insert_ne in Hz by done; by apply Hc].
    rewrite lookup_insert_eq in Hz. injection Hz as <-. destruct (Hc c y Hy) as (_ & Hr' & Hp & Hown).
    unfold open_ends in *. rewrite Hr, H0, H1. split_and!; try done. intros i. rewrite Hcl. apply Hown.
Qed.

Lemma perm_swap_ends (a a' b b' w x g : list name) :
  a ++ b ≡ₚ a' ++ b' -> a' ++ w ++ (b' ++ x) ++ g ≡ₚ a ++ w ++ (b ++ x) ++ g.
Proof.
  intros H. transitivity ((a' ++ b') ++ w ++ x ++ g); [solve_Permutation |]. rewrite <- H. solve_Permutation.
Qed.

(** One direction of a connection replaced: the names in flight change with its
    queue. *)
Lemma put_dir_spec ext ext' k c i y d :
  kinv ext k -> conns k !! c = Some y -> dir_ok d -> no_socket (inflight d) ->
  ext' ++ file_names (inflight d) ≡ₚ ext ++ file_names (inflight (dir i y)) ->
  kinv ext' (put_conn c (set_dir i d y) k).
Proof.
  intros [He Ho Hci Hl] Hy Hd Hns Hp. pose proof (c_conn _ _ Hci c y Hy) as (Hok & _).
  assert (Hc : c <> 0) by (destruct (o_null _ Ho) as (_ & _ & _ & ?); congruence).
  set (y' := set_dir i d y). assert (Hdi : dir i y' = d) by (by destruct i).
  assert (Hdn : dir (negb i) y' = dir (negb i) y) by (by destruct i). split.
  - apply exact_conns. change (socks (put_conn _ _ k)) with (socks k). unfold queued. cbn [put_conn with_conns conns].
    rewrite gather_insert, (conn_names_side i y'), Hdi, Hdn. revert He. apply exact_perm; [| done].
    unfold queued. rewrite (gather_split _ _ _ _ Hy), (conn_names_side i y).
    by apply perm_swap_ends.
  - by apply objs_put_conn.
  - apply (cinv_put_conn _ _ c y); try done; try (by destruct i). intros j. destruct (decide (j = i)) as [-> | Hj].
    + by rewrite Hdi.
    + assert (j = negb i) as -> by (by destruct i, j). rewrite Hdn. apply Hok.
  - done.
Qed.

Lemma send_bytes_spec turns : forall ext k c i n rest y,
  kinv ext k -> conns k !! c = Some y -> exists r k', send_bytes turns c i n rest k = Done (r, k') /\ kinv ext k' /\ socks k' = socks k.
Proof.
  induction turns as [| turns IH]; intros ext k c i n rest y Hk Hy; cbn [send_bytes]; [by eexists _, k |].
  destruct rest as [| b rest]; [by eexists _, k |]. rewrite (deref_some _ _ _ Hy). cbn [mbind out_bind].
  destruct (closed (negb i) y); [by eexists _, k |]. destruct (count (dir i y) =? SOCK_CAP); [by eexists _, k |].
  pose proof Hk as [_ _ Hci _]. destruct (c_conn _ _ Hci c y Hy) as (Hok & _). destruct (Hok i) as [Hd Hns].
  pose proof (send_loop_spec (b :: rest) (dir i y) n Hd) as H. destruct (send_loop _ _ _) as [[d' n'] rest'].
  destruct H as (given & _ & Hd' & _ & _ & _ & Hq & _). assert (Hi : inflight d' = inflight (dir i y)) by (unfold inflight; by rewrite Hq).
  destruct (IH ext (put_conn c (set_dir i d' y) k) c i n' rest' (set_dir i d' y)) as (r & k' & -> & Hk' & Hs').
  - apply (put_dir_spec ext ext k c i y d' Hk Hy Hd'); by rewrite Hi.
  - apply lookup_insert_eq.
  - by exists r, k'.
Qed.

Lemma queue_fds_spec passing : forall ext k c i len y,
  kinv ext k -> conns k !! c = Some y -> fd_count (dir i y) + Zlen passing <= SOCK_FD_CAP ->
  no_socket passing -> (forall f, f ∈ passing -> names f ⊆ ext) ->
  exists k' y', queue_fds c i len passing k = Done k' /\ kinv ext k' /\ socks k' = socks k /\ conns k' !! c = Some y'.
Proof.
  induction passing as [| f passing IH]; intros ext k c i len y Hk Hy Hroom Hns Hin; cbn [queue_fds]; [by exists k, y |].
  rewrite (deref_some _ _ _ Hy). cbn [mbind out_bind]. cbv zeta. apply Forall_cons in Hns as [Hf Hns].
  pose proof Hk as [He Ho Hci Hl]. destruct (c_conn _ _ Hci c y Hy) as (Hok & _). destruct (Hok i) as [Hd Hnsd].
  assert (Hc : c <> 0) by (destruct (o_null _ Ho) as (_ & _ & _ & ?); congruence).
  unfold Zlen in Hroom. cbn [length] in Hroom. set (a := u64 (written (dir i y) + len)).
  destruct (push_fd_spec f a (dir i y) Hd ltac:(lia)) as [Hd' Hq]. set (d := push_fd f a (dir i y)) in *.
  assert (Hi : inflight d = inflight (dir i y) ++ [f]) by (unfold inflight; by rewrite Hq, fmap_app).
  set (k1 := put_conn c (set_dir i d y) k).
  destruct (retain_spec f (ext ++ waiting (socks k) ++ queued k) k1) as (k2 & -> & He2 & Ho2 & Hs2 & Hc2 & Hl2); try done.
  { by apply objs_put_conn. }
  { specialize (Hin f ltac:(by left)). set_solver. }
  cbn [mbind out_bind].
  assert (Hk2 : kinv ext k2).
  { split; [| done | |].
    - rewrite Hs2. change (socks k1) with (socks k). unfold queued. rewrite Hc2. cbn [k1 put_conn with_conns conns].
      rewrite gather_insert, (conn_names_side i (set_dir i d y)).
      assert (dir i (set_dir i d y) = d) as -> by (by destruct i).
      assert (dir (negb i) (set_dir i d y) = dir (negb i) y) as -> by (by destruct i).
      rewrite Hi, file_names_app. change (file_names [f]) with (names f ++ []). revert He2. apply exact_perm; [| done].
      unfold queued. rewrite (gather_split _ _ _ _ Hy), (conn_names_side i y). solve_Permutation.
    - rewrite Hs2, Hc2. apply (cinv_put_conn (socks k) (conns k) c y); try done; try (by destruct i).
      intros j. destruct (decide (j = i)) as [-> | Hj].
      + assert (dir i (set_dir i d y) = d) as -> by (by destruct i). split; [done |]. rewrite Hi. apply Forall_app. split; [done |].
        by constructor.
      + assert (dir j (set_dir i d y) = dir j y) as -> by (by destruct i, j). apply Hok.
    - by rewrite Hs2, Hl2. }
  destruct (IH ext k2 c i len (set_dir i d y)) as (k' & y' & -> & Hk' & Hs' & Hc'); try done.
  - rewrite Hc2. apply lookup_insert_eq.
  - assert (dir i (set_dir i d y) = d) as -> by (by destruct i). cbn. unfold Zlen. lia.
  - intros g Hg. apply Hin. by right.
  - exists k', y'. split_and!; try done. by rewrite Hs', Hs2.
Qed.

(** ** The calls *)

Lemma inherit_from_spec n : forall i rest parent child k,
  Zlen (Fds.fds parent) = Fds.MAX_OPEN_FILES -> Zlen (Fds.fds child) = Fds.MAX_OPEN_FILES -> 0 <= i -> i + Z.of_nat n <= 32 ->
  (forall j, i <= j < i + Z.of_nat n -> names (Fds.fds child).[j] = []) ->
  kinv (file_names (Fds.fds child) ++ file_names (Fds.fds parent) ++ rest) k ->
  exists child' k', Fds.inherit_from n i parent child k = Done (child', k') /\ Zlen (Fds.fds child') = Fds.MAX_OPEN_FILES /\
    kinv (file_names (Fds.fds child') ++ file_names (Fds.fds parent) ++ rest) k'.
Proof.
  induction n as [| n IH]; intros i rest parent child k Hp Hc Hi Hn Hnone Hk; cbn [Fds.inherit_from]; [by exists child, k |].
  set (src := (Fds.fds parent).[i]). assert (Hsrc : src ∈ Fds.fds parent) by (apply get_elem; [done | lia]).
  destruct (retain_file_spec src _ k Hk) as (k1 & -> & Hk1).
  { pose proof (elem_file_names _ _ Hsrc). set_solver. }
  cbn [mbind out_bind]. destruct (set_fd_names i src child Hc ltac:(lia)) as (Hc' & r & H1 & H2).
  rewrite (Hnone i) in H1 by lia. cbn [app] in H1.
  apply IH; try done; try lia.
  - intros j Hj. cbn. rewrite get_upd_ne by lia. apply Hnone. lia.
  - rewrite H2. revert Hk1. apply kinv_perm; [| done]. rewrite H1. by rewrite <- app_assoc.
Qed.

Lemma init_fds_names : file_names Fds.vfs_init_fds = [] /\ Zlen Fds.vfs_init_fds = Fds.MAX_OPEN_FILES.
Proof. by split; vm_compute. Qed.

Lemma spawn_fds_spec io rest parent k :
  pinv rest parent k ->
  match io with Some (i, o) => RPipe i ∈ file_names (Fds.fds parent) /\ WPipe o ∈ file_names (Fds.fds parent) | None => True end ->
  exists child k', Fds.spawn_fds io parent k = Done (child, k') /\ Zlen (Fds.fds child) = Fds.MAX_OPEN_FILES /\
    kinv (file_names (Fds.fds child) ++ file_names (Fds.fds parent) ++ rest) k'.
Proof.
  intros [Hl Hk] Hio. unfold Fds.spawn_fds. destruct init_fds_names as [Hi Hil]. destruct io as [[i o] |].
  - destruct Hio as [Hri Hwo].
    assert (Hstep : forall a w ext k, kinv ext k -> (if w : bool then WPipe a else RPipe a) ∈ ext ->
      exists k', pipe_ref a w k = Done k' /\ kinv ((if w then WPipe a else RPipe a) :: ext) k').
    { clear. intros a w ext k Hk Hin. pose proof Hk as [He Ho _ _].
      destruct (pipe_ref_spec a w _ k He Ho) as (k' & E & He' & Ho' & Hs); [apply elem_of_app; by left |].
      exists k'. split; [done |]. by apply (same_sockets_kinv ext _ k k'). }
    destruct (Hstep i false _ k Hk) as (k1 & -> & Hk1); [apply elem_of_app; by left |]. cbn [mbind out_bind].
    destruct (Hstep o true _ k1 Hk1) as (k2 & -> & Hk2); [right; apply elem_of_app; by left |]. cbn [mbind out_bind].
    destruct (Hstep o true _ k2 Hk2) as (k3 & -> & Hk3); [by left |]. cbn [mbind out_bind].
    eexists _, k3. split; [done |]. split; [cbn; by rewrite !Zlen_upd |].
    match goal with |- kinv (file_names (Fds.fds ?c) ++ _) _ =>
      change (file_names (Fds.fds c)) with [RPipe i; WPipe o; WPipe o] end. revert Hk3. apply kinv_perm; [| done]. cbn [app]. solve_Permutation.
  - apply (inherit_from_spec 3 0); try done.
    intros j Hj. assert (j = 0 \/ j = 1 \/ j = 2) as [-> | [-> | ->]] by lia; done.
Qed.

Lemma drop_input ext k : kinv (NInput :: ext) k -> kinv ext (with_kbd (keyboard_events_unref (kbd k)) k).
Proof.
  intros Hk. destruct (drop_fuel_spec 43 (Fds.set_type FD_INPUT no_file) ext k ltac:(lia) Hk) as (k' & E & Hk').
  cbn in E. by injection E as ->.
Qed.

Lemma input_open_spec rest p k :
  pinv rest p k -> exists r p' k', Fds.vfs_input_open p k = Done (r, p', k') /\ pinv rest p' k'.
Proof.
  intros [Hl Hk]. unfold Fds.vfs_input_open. destruct (keyboard_events_active (kbd k)); [by eexists _, p, k |]. cbv zeta.
  pose proof (kinv_input _ _ Hk) as Hk1. set (k1 := with_kbd _ k) in *.
  pose proof (install_spec (Fds.set_type FD_INPUT no_file) rest p k1 Hl Hk1) as H.
  destruct (Fds.vfs_fd_install _ p) as [fd p']. destruct H as [(-> & -> & ->) | (_ & -> & Hp')].
  - eexists _, p, _. split; [done |]. split; [done |]. by apply drop_input.
  - by eexists _, p', k1.
Qed.

Lemma socket_fd_spec s rest p k :
  Zlen (Fds.fds p) = Fds.MAX_OPEN_FILES -> kinv (NSock s :: file_names (Fds.fds p) ++ rest) k ->
  exists r p' k', Fds.socket_fd s p k = Done (r, p', k') /\ pinv rest p' k'.
Proof.
  intros Hl Hk. unfold Fds.socket_fd. pose proof (install_spec (Fds.sock_file s) rest p k Hl Hk) as H.
  destruct (Fds.vfs_fd_install _ p) as [fd p']. destruct H as [(-> & -> & ->) | (_ & -> & Hp')]; [| by eexists _, p', k].
  destruct (socket_unref_spec 63 s k _ Hk ltac:(lia)) as (k' & E & Hk'). unfold FUEL. rewrite E. by eexists _, p, k'.
Qed.

(** The table with one empty slot filled, as a multiset of names. *)
Lemma set_empty_fd fd f p :
  Zlen (Fds.fds p) = Fds.MAX_OPEN_FILES -> 0 <= fd < 32 -> names (Fds.fds p).[fd] = [] ->
  file_names (Fds.fds (Fds.set_fd fd f p)) ≡ₚ names f ++ file_names (Fds.fds p).
Proof.
  intros Hl Hfd Hn. destruct (set_fd_names fd f p Hl Hfd) as (_ & r & H1 & H2). rewrite Hn in H1. by rewrite H2, H1.
Qed.

Lemma set_fd_get fd f p : Zlen (Fds.fds p) = Fds.MAX_OPEN_FILES -> 0 <= fd < 32 -> (Fds.fds (Fds.set_fd fd f p)).[fd] = f.
Proof. intros Hl Hfd. unfold Fds.MAX_OPEN_FILES in Hl. apply get_upd_eq. lia. Qed.

Lemma vfs_pipe_spec a rest p k :
  pinv rest p k -> (a <> 0 -> pipes k !! a = None) ->
  let '(_, _, p', k') := Fds.vfs_pipe a p k in pinv rest p' k'.
Proof.
  intros [Hl Hk] Hf. unfold Fds.vfs_pipe. destruct (fd_alloc_spec p) as [[E ->] | (Hr & Ez & Ht)]; [by split |]. rewrite Ez.
  set (rfd := Fds.fd_alloc p) in *. cbv zeta.
  assert (Hback : forall t q, Zlen (Fds.fds q) = Fds.MAX_OPEN_FILES ->
    file_names (Fds.fds q) ≡ₚ file_names (Fds.fds p) -> names (Fds.fds q).[rfd] = [] ->
    (t = FD_NONE \/ t = FD_CONSOLE) -> Zlen (Fds.fds (Fds.set_fd rfd (Fds.set_type t (Fds.fds q).[rfd]) q)) = Fds.MAX_OPEN_FILES /\
    file_names (Fds.fds (Fds.set_fd rfd (Fds.set_type t (Fds.fds q).[rfd]) q)) ≡ₚ file_names (Fds.fds p)).
  { intros t q Hq Hn He Hty. split; [cbn; by rewrite Zlen_upd |]. rewrite set_empty_fd by (done || lia). rewrite Hn.
    by destruct Hty as [-> | ->]. }
  set (p1 := Fds.set_fd rfd _ p). destruct (Hback FD_CONSOLE p Hl ltac:(done) (names_none _ Ht) ltac:(by right)) as [Hl1 Hn1].
  fold p1 in Hl1, Hn1. assert (Hg1 : (Fds.fds p1).[rfd] = Fds.set_type FD_CONSOLE (Fds.fds p).[rfd]) by (apply set_fd_get; [done | lia]).
  assert (Hcancel : pinv rest (Fds.set_fd rfd (Fds.set_type FD_NONE (Fds.fds p1).[rfd]) p1) k).
  { destruct (Hback FD_NONE p1 Hl1 Hn1) as [? Hn2]; [by rewrite Hg1 | by left |]. split; [done |]. by rewrite Hn2. }
  destruct (fd_alloc_spec p1) as [[E ->] | (Hw & Ew & Htw)]; [done |]. rewrite Ew. set (wfd := Fds.fd_alloc p1) in *.
  destruct (Z.eqb_spec a 0) as [| Ha]; [done |]. cbn [negb Pipe.pipe_create]. specialize (Hf Ha).
  assert (Hne : wfd <> rfd) by (intros E; rewrite E, Hg1 in Htw; done). unfold Fds.MAX_OPEN_FILES in *. split; [cbn; by rewrite !Zlen_upd |].
  rewrite set_empty_fd; [| cbn; by rewrite Zlen_upd | lia | cbn; rewrite get_upd_ne by lia; by apply names_none].
  rewrite set_empty_fd by (done || lia || by rewrite Hg1). rewrite Hn1. cbn [names Fds.set_pipe type write_end pipe app].
  pose proof (kinv_new_pipe _ k a (Pipe.Pipe true (replicate 4096 0) 0 0 0 1 1) Hk Ha Hf eq_refl eq_refl) as H.
  revert H. apply kinv_perm; [| done]. cbn [app]. apply perm_swap.
Qed.

Lemma vfs_listen_spec {U} `{Path.UserDb U} (db : U) path a rest p k :
  pinv rest p k -> (a <> 0 -> socks k !! a = None) ->
  exists r p' k', Fds.vfs_listen db path a p k = Done (r, p', k') /\ pinv rest p' k'.
Proof.
  intros Hp Hf. unfold Fds.vfs_listen. destruct (Fds.socket_path path p) as [r | abs]; [by exists r, p, k |].
  destruct (negb _); [by eexists _, p, k |]. pose proof Hp as [Hl Hk].
  destruct (socket_listen_spec _ k abs (Fds.uid p) a Hk Hf) as (r & k' & -> & Hr). cbn [mbind out_bind].
  destruct r as [err | s]; [subst k'; by eexists _, p, k | by apply socket_fd_spec].
Qed.

Lemma vfs_connect_spec path c m t rest p k :
  pinv rest p k -> (c <> 0 -> conns k !! c = None) -> (m <> 0 -> socks k !! m = None) -> (t <> 0 -> socks k !! t = None) ->
  (m <> 0 -> m <> t) ->
  exists r p' k', Fds.vfs_connect path c m t p k = Done (r, p', k') /\ pinv rest p' k'.
Proof.
  intros Hp Hc Hm Ht Hmt. unfold Fds.vfs_connect. destruct (Fds.socket_path path p) as [r | abs]; [by exists r, p, k |].
  pose proof Hp as [Hl Hk]. destruct (socket_connect_spec _ k abs (Fds.uid p) c m t Hk Hc Hm Ht Hmt) as (r & k' & -> & Hr).
  cbn [mbind out_bind]. destruct r as [err | s]; [subst k'; by eexists _, p, k | by apply socket_fd_spec].
Qed.

(** A descriptor that is a socket names one that is there. *)
Lemma sock_get_spec fd p f :
  Zlen (Fds.fds p) = Fds.MAX_OPEN_FILES -> Fds.sock_get fd p = Some f -> NSock (sock f) ∈ file_names (Fds.fds p).
Proof.
  intros Hl. unfold Fds.sock_get. destruct (Fds.fd_get fd p) as [g |] eqn:E; [| done]. cbn [mbind option_bind].
  case_bool_decide as Ht; [| done]. intros [= <-]. destruct (fd_get_spec _ _ _ E) as (Hfd & Hg & _).
  apply (elem_file_names g); [rewrite Hg; by apply get_elem |]. unfold names. rewrite Ht. left.
Qed.

Lemma vfs_accept_spec fd rest p k :
  pinv rest p k -> exists r p' k', Fds.vfs_accept fd p k = Done (r, p', k') /\ pinv rest p' k'.
Proof.
  intros Hp. unfold Fds.vfs_accept. destruct (Fds.sock_get fd p) as [f |] eqn:E; [| by eexists _, p, k]. pose proof Hp as [Hl Hk].
  destruct (socket_accept_spec _ k (sock f) Hk) as (r & k' & -> & Hr).
  { apply elem_of_app. left. by apply (sock_get_spec fd p). }
  cbn [mbind out_bind]. destruct r as [[err | s] |]; [subst k'; by eexists _, p, k | | subst k'; by eexists _, p, k].
  destruct (socket_fd_spec s rest p k' Hl Hr) as (r & p' & k2 & -> & Hp'). cbn [mbind out_bind]. by eexists _, p', k2.
Qed.

Lemma collect_spec l p : forall files,
  Zlen (Fds.fds p) = Fds.MAX_OPEN_FILES -> Fds.collect l p = Some files -> forall f, f ∈ files -> exists fd, fd ∈ l /\ f = (Fds.fds p).[fd] /\ f ∈ Fds.fds p.
Proof.
  induction l as [| fd l IH]; intros files Hl; cbn [Fds.collect].
  { intros [= <-] f Hf. by apply not_elem_of_nil in Hf. }
  destruct (Fds.fd_get fd p) as [g |] eqn:E; [| done]. cbn [mbind option_bind].
  destruct (Fds.collect l p) as [fs |] eqn:Ec; [| done]. intros [= <-] f Hf. destruct (fd_get_spec _ _ _ E) as (Hfd & -> & _).
  apply elem_of_cons in Hf as [-> | Hf].
  - exists fd. split_and!; [by left | done | by apply get_elem].
  - destruct (IH fs Hl eq_refl f Hf) as (fd' & ? & ? & ?). exists fd'. split_and!; [by right | done | done].
Qed.

(** No socket among the descriptors a call passes on. *)
Definition passes_no_socket (l : list Z) (p : Fds.proc) : Prop := Forall (fun fd => type (Fds.fds p).[fd] <> FD_SOCKET) l.

Lemma endpoint_conn ext k s x :
  kinv ext k -> socks k !! s = Some x -> (listening x || (conn x =? 0))%bool = false ->
  exists y, conns k !! conn x = Some y /\ conn_ok y.
Proof.
  intros [_ _ Hci _] Hx [Hl _]%orb_false_iff. pose proof (c_end _ _ Hci s x Hx) as H. rewrite Hl in H.
  destruct H as [_ (y & Hy & _)]. exists y. split; [done |]. by destruct (c_conn _ _ Hci _ _ Hy).
Qed.

Lemma socket_send_spec ext k s data files :
  kinv ext k -> NSock s ∈ ext -> no_socket files -> (forall f, f ∈ files -> names f ⊆ ext) ->
  exists r k', socket_send s data files k = Done (r, k') /\ kinv ext k' /\ socks k' = socks k.
Proof.
  intros Hk Hin Hns Hsub. pose proof Hk as [He Ho Hci _]. unfold socket_send.
  destruct (s =? 0); [by eexists _, k |]. destruct (named_sock _ _ s He) as [x Hx]; [apply elem_of_app; by left |].
  rewrite (deref_some _ _ _ Hx). cbn [mbind out_bind]. destruct (listening x || (conn x =? 0))%bool eqn:El; [by eexists _, k |].
  destruct (endpoint_conn ext k s x Hk Hx El) as (y & Hy & Hok). destruct (Z.ltb_spec SOCK_FD_CAP (Zlen files)); [by eexists _, k |].
  rewrite (deref_some _ _ _ Hy). cbn [mbind out_bind].
  destruct (Z.ltb_spec (SOCK_FD_CAP - fd_count (dir (side x) y)) (Zlen files)).
  - unfold peer_gone. rewrite (proj2 (orb_false_elim _ _ El)). rewrite (deref_some _ _ _ Hy). by eexists _, k.
  - destruct (queue_fds_spec files ext k (conn x) (side x) (Zlen data) y) as (k1 & y1 & -> & Hk1 & Hs1 & Hy1); try done; [lia |].
    cbn [mbind out_bind]. destruct (send_bytes_spec 2 ext k1 (conn x) (side x) 0 data y1 Hk1 Hy1) as (r & k2 & -> & Hk2 & Hs2).
    exists r, k2. split_and!; [done | done | congruence].
Qed.

Lemma vfs_send_spec fd data passing rest p k :
  pinv rest p k -> passes_no_socket passing p ->
  exists r k', Fds.vfs_send fd data passing p k = Done (r, k') /\ pinv rest p k' /\
    (forall n left, r = SWaitBytes n left -> exists f, Fds.sock_get fd p = Some f) /\ socks k' = socks k.
Proof.
  intros Hp Hns. pose proof Hp as [Hl Hk]. unfold Fds.vfs_send. destruct (Fds.sock_get fd p) as [f |] eqn:E; [| by eexists _, k].
  destruct (Fds.W_SEND_MAX_FDS <? Zlen passing); [by eexists _, k |].
  destruct (Fds.collect passing p) as [files |] eqn:Ec; [| by eexists _, k].
  destruct (socket_send_spec _ k (sock f) data files Hk) as (r & k' & -> & Hk' & Hs').
  - apply elem_of_app. left. by apply (sock_get_spec fd p).
  - apply Forall_forall. intros g Hg. destruct (collect_spec _ _ _ Hl Ec g Hg) as (fd' & Hin & -> & _).
    by apply (proj1 (Forall_forall _ _) Hns).
  - intros g Hg. destruct (collect_spec _ _ _ Hl Ec g Hg) as (_ & _ & _ & Hin). pose proof (elem_file_names _ _ Hin). set_solver.
  - exists r, k'. split_and!; try done. intros. by exists f.
Qed.

Lemma socket_recv_spec ext k s len want :
  kinv ext k -> NSock s ∈ ext -> 0 <= len -> 0 <= want ->
  exists r k', socket_recv s len want k = Done (r, k') /\ socks k' = socks k /\
    match r with RWait => k' = k | RGot n _ arrived => kinv (file_names arrived ++ ext) k' /\ (n < 0 -> arrived = [] \/ 2 ^ 31 <= len) end.
Proof.
  intros Hk Hin Hlen Hw. pose proof Hk as [He Ho Hci _]. unfold socket_recv.
  destruct (s =? 0); [eexists _, k; split; [done |]; split; [done |]; split; [done | by left] |].
  destruct (named_sock _ _ s He) as [x Hx]; [apply elem_of_app; by left |].
  rewrite (deref_some _ _ _ Hx). cbn [mbind out_bind]. destruct (listening x || (conn x =? 0))%bool eqn:El.
  { eexists _, k. split; [done |]. split; [done |]. split; [done | by left]. }
  destruct (endpoint_conn ext k s x Hk Hx El) as (y & Hy & Hok). rewrite (deref_some _ _ _ Hy). cbn [mbind out_bind]. cbv zeta.
  unfold peer_gone. rewrite (proj2 (orb_false_elim _ _ El)). rewrite (deref_some _ _ _ Hy). cbn [mbind out_bind].
  set (i := negb (side x)). destruct (Hok i) as [Hd Hns].
  destruct (_ && _)%bool; [by eexists RWait, k |].
  pose proof (recv_loop_spec (Z.to_nat len) (dir i y) 0 len [] Hd ltac:(lia) ltac:(lia)) as H.
  destruct (recv_loop _ _ _ _ _) as [d1 bs]. destruct H as (taken & Ebs & Hd1 & _ & Htl & Hq1 & _).
  pose proof (recv_fds_spec (Z.to_nat want) d1 [] Hd1) as H. destruct (recv_fds _ _ _) as [d2 arrived].
  destruct H as (got & -> & Hd2 & Hq2 & _). cbn [app]. eexists _, _. split; [done |]. split; [done |].
  assert (Hi : inflight (dir i y) = (file <$> got) ++ inflight d2) by (unfold inflight; rewrite <- Hq1, Hq2; apply fmap_app).
  split.
  - apply (put_dir_spec ext _ k (conn x) i y d2 Hk Hy Hd2).
    + unfold no_socket in *. rewrite Hi in Hns. by apply Forall_app in Hns as [_ ?].
    + rewrite Hi, file_names_app. solve_Permutation.
  - cbn [app] in Ebs. subst bs. intros Hneg. right. unfold i32 in Hneg.
    pose proof (Zlen_nonneg taken). destruct (Z.ltb_spec (u32 (Zlen taken)) 2147483648) as [Hlt | Hge]; [pose proof (u32_range (Zlen taken)); lia |].
    destruct (Z.le_gt_cases (2 ^ 31) len); [done |]. rewrite u32_id in Hge by lia. lia.
Qed.

Lemma install_all_spec arrived : forall got rest p k,
  Zlen (Fds.fds p) = Fds.MAX_OPEN_FILES -> kinv (file_names arrived ++ file_names (Fds.fds p) ++ rest) k ->
  exists l p' k', Fds.install_all arrived got p k = Done (l, p', k') /\ pinv rest p' k'.
Proof.
  induction arrived as [| f arrived IH]; intros got rest p k Hl Hk; cbn [Fds.install_all]; [by exists got, p, k |].
  change (file_names (f :: arrived)) with (names f ++ file_names arrived) in Hk.
  pose proof (install_spec f (file_names arrived ++ rest) p k Hl) as H.
  destruct (Fds.vfs_fd_install f p) as [fd p1]. destruct H as [(-> & -> & ->) | (_ & -> & [Hl1 Hk1])].
  - revert Hk. apply kinv_perm; [| done]. solve_Permutation.
  - rewrite <- app_assoc in Hk. destruct (drop_file_spec f _ k Hk) as (k1 & -> & Hk1). cbn [mbind out_bind]. by apply IH.
  - apply IH; [done |]. revert Hk1. apply kinv_perm; [| done]. solve_Permutation.
Qed.

Lemma vfs_recv_spec fd len want rest p k :
  pinv rest p k -> 0 <= len < 2 ^ 31 ->
  exists r p' k', Fds.vfs_recv fd len want p k = Done (r, p', k') /\ pinv rest p' k'.
Proof.
  intros Hp Hlen. pose proof Hp as [Hl Hk]. unfold Fds.vfs_recv. destruct (Fds.sock_get fd p) as [f |] eqn:E; [| by eexists _, p, k].
  destruct (Z.ltb_spec want 0), (Z.ltb_spec Fds.W_SEND_MAX_FDS want); cbn [orb]; try by (eexists _, p, k).
  destruct (socket_recv_spec _ k (sock f) len want Hk) as (r & k' & -> & _ & Hr); [| lia | lia |].
  { apply elem_of_app. left. by apply (sock_get_spec fd p). }
  cbn [mbind out_bind]. destruct r as [| r bs arrived]; [subst k'; by eexists _, p, k |]. destruct Hr as [Hr Hneg].
  destruct (Z.ltb_spec r 0) as [Hr0 |].
  - destruct (Hneg Hr0) as [-> | ?]; [| lia]. by eexists _, p, k'.
  - destruct (install_all_spec arrived [] rest p k' Hl Hr) as (l & p' & k2 & -> & Hp'). by eexists _, p', k2.
Qed.

Lemma shm_open_spec bytes_ a b rest p k :
  pinv rest p k -> (a <> 0 -> shms k !! a = None) -> 0 <= bytes_ ->
  exists r p' k', Fds.sys_shm_open bytes_ a b p k = Done (r, p', k') /\ pinv rest p' k'.
Proof.
  intros Hp Hf Hb. pose proof Hp as [Hl Hk]. unfold Fds.sys_shm_open. destruct (_ || _)%bool; [by eexists _, p, k |].
  destruct (Shm.shm_create_spec (negb (a =? 0)) (negb (b =? 0)) bytes_ (pmm k) (mem k) (o_pmm _ (k_objs _ _ Hk)) Hb)
    as (o & pm & m & E & Hpm & Ht & Ho). rewrite E. cbn [of_res mbind out_bind]. destruct o as [s |].
  - destruct Ho as (Hr & Hok & _ & _ & Hu & Hfr). assert (Ha : a <> 0).
    { intros ->. unfold Shm.shm_create in E. cbn in E. destruct (_ || _)%bool in E; done. }
    pose proof (kinv_new_shm _ k a s pm m Hk Ha (Hf Ha) Hpm Ht Hr Hok Hu Hfr) as Hk1. set (k1 := with_mem _ _) in *.
    pose proof (install_spec (File FD_SHM 0 false 0 0 0 false 0 a) rest p k1 Hl Hk1) as H.
    destruct (Fds.vfs_fd_install _ p) as [fd p']. destruct H as [(-> & -> & ->) | (_ & -> & Hp')]; [| by eexists _, p', k1].
    pose proof Hk1 as [He Hob _ _]. destruct (shm_unref_spec a _ k1 He Hob) as (k2 & -> & He2 & Ho2 & Hs2). cbn [mbind out_bind].
    eexists _, p, k2. split; [done |]. split; [done |]. by apply (same_sockets_kinv _ _ k1 k2 Hk1 Hs2 Ho2).
  - eexists _, p, _. split; [done |]. split; [done |]. pose proof Hk as [He Hob _ _].
    apply (same_sockets_kinv _ _ k _ Hk); [done | | by intros n; rewrite <- (He n); destruct n].
    destruct Hob as [? ? Hshm ? ?]. split; try done. intros c s Hs. destruct (Hshm c s Hs) as [? [Hpg [Hnd Hown]]].
    split; [done |]. split; [done |]. split; [done |]. eapply Forall_impl; [exact Hown |]. cbv beta. intros x (g & -> & Hg & Hug).
    exists g. cbn. by rewrite Ht, Ho by lia.
Qed.

(** ** Pipes: moving bytes changes no count *)

Lemma read_loop_ends fuel : forall p n len o,
  Pipe.readers (Pipe.read_loop fuel p n len o).1 = Pipe.readers p /\ Pipe.writers (Pipe.read_loop fuel p n len o).1 = Pipe.writers p.
Proof. induction fuel as [| fuel IH]; intros p n len o; cbn [Pipe.read_loop]; [done |]. case_if; [by rewrite !(proj1 (IH _ _ _ _)), !(proj2 (IH _ _ _ _)) | done]. Qed.

Lemma write_loop_ends rest : forall p n,
  let '(p', _, _) := Pipe.write_loop p n rest in Pipe.readers p' = Pipe.readers p /\ Pipe.writers p' = Pipe.writers p.
Proof.
  induction rest as [| b rest IH]; intros p n; cbn [Pipe.write_loop]; [done |]. case_if; [| done].
  match goal with |- context [Pipe.write_loop ?q ?m rest] => specialize (IH q m) end. by destruct (Pipe.write_loop _ _ rest) as [[p' n'] r'].
Qed.

Lemma write_turns_ends turns : forall p n rest,
  match Pipe.write_turns turns p n rest with
  | Pipe.WBlock _ _ p' | Pipe.WRet _ _ (Some p') => Pipe.readers p' = Pipe.readers p /\ Pipe.writers p' = Pipe.writers p
  | Pipe.WRet _ _ None => True
  end.
Proof.
  induction turns as [| turns IH]; intros p n rest; cbn [Pipe.write_turns]; [done |]. destruct rest as [| b rest]; [done |].
  case_if; [done |]. case_if; [done |]. pose proof (write_loop_ends (b :: rest) p n) as H.
  destruct (Pipe.write_loop _ _ _) as [[p' n'] r']. specialize (IH p' n' r').
  destruct (Pipe.write_turns turns p' n' r') as [? ? q | ? ? [q |]]; try done; destruct IH, H; split; congruence.
Qed.

Lemma put_pipe_kinv ext k a x x' :
  kinv ext k -> pipes k !! a = Some x -> Pipe.readers x' = Pipe.readers x -> Pipe.writers x' = Pipe.writers x ->
  kinv ext (Fds.put_pipe a (Some x') k).
Proof.
  intros Hk Hx Hr Hw. pose proof Hk as [He Ho _ _]. apply (same_sockets_kinv ext _ k); [done | done | |].
  - destruct Ho as [(Hp0 & ? & ? & ?) Hp ? ? ?]. split; try done.
    + cbn. rewrite lookup_insert_ne; [done |]. intros ->. congruence.
    + intros b q. cbn. destruct (decide (a = b)) as [<- | Hne]; [| rewrite lookup_insert_ne by done; apply Hp].
      rewrite lookup_insert_eq. intros [= <-]. rewrite Hr, Hw. by apply (Hp a).
  - apply (exact_pipe _ _ k a (Some x') He); [done | |].
    + pose proof (He (RPipe a)) as Hz. cbn [stored] in Hz. rewrite Hx in Hz. cbn in Hz |- *. congruence.
    + pose proof (He (WPipe a)) as Hz. cbn [stored] in Hz. rewrite Hx in Hz. cbn in Hz |- *. congruence.
Qed.

Lemma read_pipe_spec ext k f len :
  kinv ext k -> type f = FD_PIPE -> names f ⊆ ext ->
  exists r k', Fds.read_pipe f len k = Done (r, k') /\ kinv ext k'.
Proof.
  intros Hk Hf Hin. unfold Fds.read_pipe. destruct (write_end f) eqn:Ew; cbn [orb]; [by eexists _, k |].
  destruct (pipe f =? 0); [by eexists _, k |]. pose proof Hk as [He _ _ _].
  destruct (named_pipe _ k (pipe f) false He) as [x Hx].
  { apply elem_of_app. left. apply Hin. unfold names. rewrite Hf, Ew. left. }
  rewrite (deref_some _ _ _ Hx). cbn [mbind out_bind]. destruct (Pipe.pipe_read (Some x) len) as [| r bs po] eqn:E; [by eexists _, k |].
  eexists _, _. split; [done |]. destruct po as [x' |]; [| done]. unfold Pipe.pipe_read in E.
  assert (Hq : x' = x \/ exists n, x' = (Pipe.read_loop n x 0 len []).1).
  { case_if; [injection E as _ _ <-; by left |]. case_if; [done |]. case_if; [injection E as _ _ <-; by left |].
    right. exists (Z.to_nat len). destruct (Pipe.read_loop _ x 0 len []) as [q o]. by injection E as _ _ <-. }
  destruct Hq as [-> | [n ->]]; [by apply (put_pipe_kinv ext k _ x) |].
  apply (put_pipe_kinv ext k _ x); [done | done | apply read_loop_ends | apply read_loop_ends].
Qed.

Lemma write_more_spec ext k a n rest :
  kinv ext k -> WPipe a ∈ ext -> exists r k', Fds.write_pipe_more a n rest k = Done (r, k') /\ kinv ext k'.
Proof.
  intros Hk Hin. pose proof Hk as [He _ _ _]. unfold Fds.write_pipe_more.
  destruct (named_pipe _ k a true He) as [x Hx]; [apply elem_of_app; by left |].
  rewrite (deref_some _ _ _ Hx). cbn [mbind out_bind]. unfold Pipe.pipe_write. destruct (_ =? 0).
  { eexists _, _. split; [done |]. by apply (put_pipe_kinv ext k a x). }
  pose proof (write_turns_ends 2 x n rest) as H. destruct (Pipe.write_turns 2 x n rest) as [n' r' q | r' n' [q |]].
  - eexists _, _. split; [done |]. destruct H. by apply (put_pipe_kinv ext k a x).
  - eexists _, _. split; [done |]. destruct H. by apply (put_pipe_kinv ext k a x).
  - by eexists _, k.
Qed.

End FdsRefs.
