(* ===== verification/FdsSpec.v ===== *)
(** Processes at work on their descriptors: the steps of a system of processes,
    and what holds of the reference counts in every state it can reach. *)

From S2P Require Import Prelude Str KString Pmm Pipe Ring Shm Path Socket Refs Fds FdsRefs.

Module FdsSpec.
Import Str Socket Refs FdsRefs.

(** ** A system of processes

    Where a call left its process asleep half way through its bytes. *)
Inductive sleep := SleepSend (s n : Z) (rest : list Z) | SleepPipe (a n : Z) (rest : list Z).

Record task := Task { tproc : Fds.proc; asleep : option sleep }.

(** [lost]: the descriptors of processes whose program could not be loaded, which
    [proc_spawn_io] forgets without closing them. *)
Record world := World { kern : kernel; tasks : gmap Z task; lost : list file_t }.

Inductive call :=
| Close (fd : Z)
| MakePipe (a : Z)
| InputOpen
| Listen (path : list Z) (a : Z)
| Connect (path : list Z) (c m t : Z)
| Accept (fd : Z)
| Send (fd : Z) (data passing : list Z)
| Recv (fd len want : Z)
| ReadPipe (fd len : Z)
| WritePipe (fd : Z) (data : list Z)
| ShmOpen (size a b : Z).

Definition pipe_get (fd : Z) (p : Fds.proc) : option file_t :=
  f ← Fds.fd_get fd p; if bool_decide (type f = FD_PIPE) then Some f else None.

Section system.
Context {U : Type} `{Path.UserDb U}.

(** A call up to its end or its sleep; results other than descriptors are not
    kept. *)
Definition run (db : U) (c : call) (p : Fds.proc) (k : kernel) : out (Fds.proc * option sleep * kernel) :=
  match c with
  | Close fd => '(_, p, k) ← Fds.vfs_close fd p k; Done (p, None, k)
  | MakePipe a => let '(_, _, p, k) := Fds.vfs_pipe a p k in Done (p, None, k)
  | InputOpen => '(_, p, k) ← Fds.vfs_input_open p k; Done (p, None, k)
  | Listen path a => '(_, p, k) ← Fds.vfs_listen db path a p k; Done (p, None, k)
  | Connect path c m t => '(_, p, k) ← Fds.vfs_connect path c m t p k; Done (p, None, k)
  | Accept fd => '(_, p, k) ← Fds.vfs_accept fd p k; Done (p, None, k)
  | Send fd data passing =>
      '(r, k) ← Fds.vfs_send fd data passing p k;
      Done (p, match r, Fds.sock_get fd p with SWaitBytes n rest, Some f => Some (SleepSend (sock f) n rest) | _, _ => None end, k)
  | Recv fd len want => '(_, p, k) ← Fds.vfs_recv fd len want p k; Done (p, None, k)
  | ReadPipe fd len =>
      match pipe_get fd p with
      | None => Done (p, None, k)
      | Some f => '(_, k) ← Fds.read_pipe f len k; Done (p, None, k)
      end
  | WritePipe fd data =>
      match pipe_get fd p with
      | None => Done (p, None, k)
      | Some f =>
          '(r, k) ← Fds.write_pipe f data k;
          Done (p, match r with Fds.PWait n rest => Some (SleepPipe (pipe f) n rest) | Fds.PRet _ => None end, k)
      end
  | ShmOpen size a b => '(_, p, k) ← Fds.sys_shm_open size a b p k; Done (p, None, k)
  end.

Definition resume (z : sleep) (k : kernel) : out (option sleep * kernel) :=
  match z with
  | SleepSend s n rest =>
      '(r, k) ← socket_send_more s n rest k;
      Done (match r with SWaitBytes n rest => Some (SleepSend s n rest) | _ => None end, k)
  | SleepPipe a n rest =>
      '(r, k) ← Fds.write_pipe_more a n rest k;
      Done (match r with Fds.PWait n rest => Some (SleepPipe a n rest) | Fds.PRet _ => None end, k)
  end.

(** [kmalloc] returns addresses that are not in use; a length is an [int]; and
    no socket is passed through a socket. *)
Definition call_ok (c : call) (p : Fds.proc) (k : kernel) : Prop :=
  match c with
  | MakePipe a => a <> 0 -> pipes k !! a = None
  | Listen _ a => a <> 0 -> socks k !! a = None
  | Connect _ c m t => (c <> 0 -> conns k !! c = None) /\ (m <> 0 -> socks k !! m = None) /\ (t <> 0 -> socks k !! t = None) /\ (m <> 0 -> m <> t)
  | Send _ _ passing => passes_no_socket passing p
  | Recv _ len _ => 0 <= len < 2 ^ 31
  | ShmOpen size a _ => 0 <= size /\ (a <> 0 -> shms k !! a = None)
  | _ => True
  end.

Inductive step : world -> world -> Prop :=
| step_call w pid p db c p' z k' :
    tasks w !! pid = Some (Task p None) -> call_ok c p (kern w) -> run db c p (kern w) = Done (p', z, k') ->
    step w (World k' (<[pid := Task p' z]> (tasks w)) (lost w))
| step_resume w pid p z z' k' :
    tasks w !! pid = Some (Task p (Some z)) -> resume z (kern w) = Done (z', k') ->
    step w (World k' (<[pid := Task p z']> (tasks w)) (lost w))
| step_spawn w pid p child c k' :
    tasks w !! pid = Some (Task p None) -> tasks w !! child = None ->
    Fds.proc_spawn_io true None p (kern w) = Done (Some c, k') ->
    step w (World k' (<[child := Task c None]> (tasks w)) (lost w))
| step_spawn_io w pid p child i o c k' :
    tasks w !! pid = Some (Task p None) -> tasks w !! child = None ->
    Fds.sys_spawn_io true i o p (kern w) = Done (inr (Some c), k') ->
    step w (World k' (<[child := Task c None]> (tasks w)) (lost w))
| step_exit w pid p z p' k' :
    tasks w !! pid = Some (Task p z) -> Fds.vfs_close_all p (kern w) = Done (p', k') ->
    step w (World k' (delete pid (tasks w)) (lost w))
| step_spawn_fails w pid p c k' :
    tasks w !! pid = Some (Task p None) -> Fds.proc_spawn_io false None p (kern w) = Done (None, k') ->
    Fds.spawn_fds None p (kern w) = Done (c, k') ->
    step w (World k' (tasks w) (Fds.fds c ++ lost w))
| step_spawn_io_fails w pid p i o a b c k' :
    tasks w !! pid = Some (Task p None) -> Fds.sys_spawn_io false i o p (kern w) = Done (inr None, k') ->
    Fds.pipe_from_fd i false p = inr a -> Fds.pipe_from_fd o true p = inr b ->
    Fds.spawn_fds (Some (a, b)) p (kern w) = Done (c, k') ->
    step w (World k' (tasks w) (Fds.fds c ++ lost w)).

(** The machine as [proc_init] leaves it: one process, no objects. *)
Definition boot (pid : Z) (p : Pmm.pmm) (m : KString.mem) (b : keyboard) : world :=
  World (Kernel ∅ ∅ ∅ ∅ (replicate 8 0) b p m) {[ pid := Task (Fds.Proc Fds.vfs_init_fds 0 (str "/")) None ]} [].

Definition reachable (w : world) : Prop :=
  exists pid p m b, Pmm.pmm_inv p /\ event_refs b = 0 /\ rtc step (boot pid p m b) w.

(** ** The invariant *)

Definition task_names (t : task) : list name := file_names (Fds.fds (tproc t)).

Definition sleep_ok (t : task) (k : kernel) : Prop :=
  match asleep t with
  | None => True
  | Some (SleepSend s _ _) => NSock s ∈ task_names t /\ exists x, socks k !! s = Some x /\ listening x = false
  | Some (SleepPipe a _ _) => WPipe a ∈ task_names t
  end.

Record winv (w : world) : Prop := {
  w_kern : kinv (gather task_names (tasks w) ++ file_names (lost w)) (kern w);
  w_len : forall pid t, tasks w !! pid = Some t -> Zlen (Fds.fds (tproc t)) = Fds.MAX_OPEN_FILES;
  w_sleep : forall pid t, tasks w !! pid = Some t -> sleep_ok t (kern w);
}.

End system.

(** ** Sockets keep their kind *)

(** No socket appears, and what stays a listener or an endpoint was one. *)
Definition shrinks (k k' : kernel) : Prop :=
  forall a x', socks k' !! a = Some x' -> exists x, socks k !! a = Some x /\ listening x' = listening x.

Lemma shrinks_refl k k' : socks k' = socks k -> shrinks k k'.
Proof. intros E a x' Hx. rewrite E in Hx. by exists x'. Qed.

Lemma shrinks_trans k1 k2 k3 : shrinks k1 k2 -> shrinks k2 k3 -> shrinks k1 k3.
Proof. intros H1 H2 a x3 H3. destruct (H2 a x3 H3) as (x2 & Hx2 & ->). by apply H1. Qed.

Lemma shrinks_put k s x x' : socks k !! s = Some x -> listening x' = listening x -> shrinks k (put_sock s x' k).
Proof.
  intros Hs Hl a z. cbn. destruct (decide (s = a)) as [<- | Hne].
  - rewrite lookup_insert_eq. intros [= <-]. by exists x.
  - rewrite lookup_insert_ne by done. intros. by exists z.
Qed.

Lemma deref_done {A} (m : gmap Z A) a x : deref m a = Done x -> m !! a = Some x.
Proof. unfold deref. destruct (m !! a); [by intros [= ->] | done]. Qed.

Lemma free_sock_shrinks s k k' : free_sock s k = Done k' -> shrinks k k'.
Proof.
  unfold free_sock. intros H. inv_bind H. injection H as <-. intros a z. cbn. rewrite lookup_delete_Some. intros [_ ?]. by exists z.
Qed.

Lemma conn_unref_shrinks c k k' : conn_unref c k = Done k' -> socks k' = socks k.
Proof.
  unfold conn_unref. destruct (c =? 0); [by intros [= <-] |]. intros H. inv_bind H. case_if; [| by injection H as <-].
  unfold free_conn in H. inv_bind H. by injection H as <-.
Qed.

Lemma fd_drop_other n f k k' : type f <> FD_SOCKET -> vfs_fd_drop (S n) f k = Done k' -> socks k' = socks k.
Proof.
  intros Hf. cbn [vfs_fd_drop]. destruct (type f); try done; try by intros [= <-].
  - unfold pipe_unref. destruct (pipe f =? 0); [by intros [= <-] |]. intros H. inv_bind H.
    destruct (Pipe.pipe_unref x (write_end f)). by injection H as <-.
  - unfold shm_unref. destruct (shm f =? 0); [by intros [= <-] |]. intros H. inv_bind H. inv_bind H.
    destruct x0. by injection H as <-.
Qed.

Lemma unref_shrinks n :
  (forall s k k', socket_unref n s k = Done k' -> shrinks k k') /\
  (forall s i k k', unref_backlog n s i k = Done k' -> shrinks k k') /\
  (forall c i k k', drop_queued_fds n c i k = Done k' -> shrinks k k') /\
  (forall f k k', vfs_fd_drop n f k = Done k' -> shrinks k k').
Proof.
  induction n as [| n (IHu & IHb & IHq & IHd)]; [done |]. split_and!.
  - intros s k k'. cbn [socket_unref]. destruct (s =? 0); [intros [= <-]; by apply shrinks_refl |].
    intros H. inv_bind H. apply deref_done in E. cbv zeta in H.
    assert (H0 : shrinks k (put_sock s (set_refs (refs x - 1) x) k)) by (by apply (shrinks_put _ _ x)).
    destruct (0 <? refs x - 1); [by injection H as <- |]. inv_bind H.
    assert (H1 : shrinks k x0).
    { apply (shrinks_trans _ _ _ H0). destruct (listening x); [by apply IHb in E0 | injection E0 as <-; by apply shrinks_refl]. }
    inv_bind H. inv_bind H. apply free_sock_shrinks in H. apply (shrinks_trans _ x2); [| done]. apply (shrinks_trans _ _ _ H1).
    destruct (conn x1 =? 0); [injection E2 as <-; by apply shrinks_refl |].
    inv_bind E2. inv_bind E2. inv_bind E2. inv_bind E2. inv_bind E2. apply conn_unref_shrinks in E2. apply IHq in E4, E6.
    apply (shrinks_trans _ x6); [| by apply shrinks_refl]. by apply (shrinks_trans _ x4).
  - intros s i k k'. cbn [unref_backlog]. intros H. inv_bind H. destruct (backlog x !! i); [| injection H as <-; by apply shrinks_refl].
    inv_bind H. apply IHu in E0. apply IHb in H. by apply (shrinks_trans _ x0).
  - intros c i k k'. cbn [drop_queued_fds]. intros H. inv_bind H. case_if; [| injection H as <-; by apply shrinks_refl].
    inv_bind H. inv_bind H. apply IHd in E0. apply IHq in H. by apply (shrinks_trans _ x0).
  - intros f k k'. destruct (decide (type f = FD_SOCKET)) as [Hf | Hf].
    + cbn [vfs_fd_drop]. rewrite Hf. apply IHu.
    + intros H. apply shrinks_refl. by apply (fd_drop_other n f).
Qed.

Definition grows (k k' : kernel) : Prop :=
  forall a x, socks k !! a = Some x -> exists x', socks k' !! a = Some x' /\ listening x' = listening x.

(** A socket that is there before and after is of the same kind. *)
Definition same_kind (k k' : kernel) : Prop :=
  forall a x x', socks k !! a = Some x -> socks k' !! a = Some x' -> listening x' = listening x.

Lemma grow_shrink k k1 k' : grows k k1 -> shrinks k1 k' -> same_kind k k'.
Proof.
  intros Hg Hs a x x' Hx Hx'. destruct (Hg a x Hx) as (x1 & Hx1 & <-), (Hs a x' Hx') as (x2 & Hx2 & ->). congruence.
Qed.

Lemma shrinks_kind k k' : shrinks k k' -> same_kind k k'.
Proof. apply grow_shrink. intros a x Hx. by exists x. Qed.

Lemma same_socks_kind k k' : socks k' = socks k -> same_kind k k'.
Proof. intros. by apply shrinks_kind, shrinks_refl. Qed.

Lemma grows_fresh k a x l : socks k !! a = None -> grows k (with_listeners l (put_sock a x k)).
Proof. intros Hf b y Hb. exists y. split; [| done]. cbn. rewrite lookup_insert_ne; [done |]. intros <-. congruence. Qed.

Lemma grows_put k s x x' : socks k !! s = Some x -> listening x' = listening x -> grows k (put_sock s x' k).
Proof.
  intros Hs Hl a y Ha. cbn. destruct (decide (s = a)) as [<- | Hne].
  - exists x'. rewrite lookup_insert_eq. split; [done |]. congruence.
  - exists y. by rewrite lookup_insert_ne.
Qed.

Lemma socket_fd_kind s p k r p' k' : Fds.socket_fd s p k = Done (r, p', k') -> shrinks k k'.
Proof.
  unfold Fds.socket_fd. destruct (Fds.vfs_fd_install _ p) as [fd q]. destruct (fd <? 0); [| intros [= _ _ <-]; by apply shrinks_refl].
  intros H. inv_bind H. injection H as _ _ <-. by apply (proj1 (unref_shrinks FUEL) s).
Qed.

Lemma install_all_kind arrived : forall got p k l p' k', Fds.install_all arrived got p k = Done (l, p', k') -> shrinks k k'.
Proof.
  induction arrived as [| f arrived IH]; intros got p k l p' k'; cbn [Fds.install_all]; [intros [= _ _ <-]; by apply shrinks_refl |].
  destruct (Fds.vfs_fd_install f p) as [fd q]. destruct (fd <? 0); [| apply IH]. intros H. inv_bind H. apply IH in H.
  apply (shrinks_trans _ x); [| done]. by apply (proj2 (proj2 (proj2 (unref_shrinks FUEL))) f).
Qed.

Lemma connect_grows path u c m t k s k' :
  socket_connect path u c m t k = Done (inr s, k') -> (m <> 0 -> socks k !! m = None) -> (t <> 0 -> socks k !! t = None) -> grows k k'.
Proof.
  unfold socket_connect. intros H Hm Ht. inv_bind H. case_if; [done |]. inv_bind H. case_if; [done |]. case_if; [done |].
  destruct (c =? 0); [done |]. destruct (Z.eqb_spec m 0); [done |]. destruct (Z.eqb_spec t 0); [done |]. cbn [orb] in H.
  inv_bind H. injection H as _ <-. specialize (Hm ltac:(done)). specialize (Ht ltac:(done)).
  intros a y Ha. apply deref_done in E1. cbn in E1 |- *.
  assert (Hk1 : <[t := Socket 1 false [] 0 [] c true]> (<[m := Socket 1 false [] 0 [] c false]> (socks k)) !! a = Some y).
  { rewrite !lookup_insert_ne; [done | |]; intros <-; congruence. }
  destruct (decide (x = a)) as [<- | Hne].
  - rewrite lookup_insert_eq. eexists. split; [done |]. cbn. congruence.
  - exists y. by rewrite lookup_insert_ne.
Qed.

Lemma listen_grows path u a k s k' :
  socket_listen path u a k = Done (inr s, k') -> (a <> 0 -> socks k !! a = None) -> grows k k'.
Proof.
  unfold socket_listen. intros H Ha. inv_bind H. case_if; [done |]. destruct (free_slot 0 (listeners k)); [| done].
  destruct (Z.eqb_spec a 0); [done |]. injection H as _ <-. by apply grows_fresh, Ha.
Qed.

Lemma accept_grows s k c k' : socket_accept s k = Done (Some (inr c), k') -> grows k k'.
Proof.
  unfold socket_accept. destruct (s =? 0); [done |]. intros H. inv_bind H. case_if; [done |]. destruct (backlog x); [done |].
  injection H as _ <-. apply deref_done in E. by apply (grows_put _ _ x).
Qed.

Lemma release_kind f k r k' : Fds.fd_release f k = Done (r, k') -> shrinks k k'.
Proof.
  unfold Fds.fd_release. intros H. inv_bind H. injection H as _ <-. by apply (proj2 (proj2 (proj2 (unref_shrinks FUEL))) f).
Qed.

Lemma close_from_kind n : forall i p k p' k', Fds.close_from n i p k = Done (p', k') -> shrinks k k'.
Proof.
  induction n as [| n IH]; intros i p k p' k'; cbn [Fds.close_from]; [intros [= _ <-]; by apply shrinks_refl |].
  intros H. inv_bind H. destruct x as [f k1]. apply release_kind in E. apply IH in H. by apply (shrinks_trans _ k1).
Qed.

Lemma close_all_kind p k p' k' : Fds.vfs_close_all p k = Done (p', k') -> shrinks k k'.
Proof. unfold Fds.vfs_close_all. generalize (Z.to_nat Fds.MAX_OPEN_FILES). intros n. apply close_from_kind. Qed.

(** ** Every call returns and keeps the counts *)

Lemma close_kind fd p k r p' k' : Fds.vfs_close fd p k = Done (r, p', k') -> same_kind k k'.
Proof.
  unfold Fds.vfs_close. destruct (Fds.fd_get fd p); [| intros [= _ _ <-]; by apply same_socks_kind]. intros H. inv_bind H.
  destruct x. injection H as _ _ <-. by apply shrinks_kind, (release_kind _ _ _ _ E).
Qed.

Lemma pipe_kind a p k : socks (Fds.vfs_pipe a p k).2 = socks k.
Proof.
  unfold Fds.vfs_pipe. cbv zeta. case_if; [done |]. case_if; [done |]. by destruct (Pipe.pipe_create _).
Qed.

Lemma input_kind p k r p' k' : Fds.vfs_input_open p k = Done (r, p', k') -> same_kind k k'.
Proof.
  unfold Fds.vfs_input_open. case_if; [intros [= _ _ <-]; by apply same_socks_kind |].
  destruct (Fds.vfs_fd_install _ p). case_if; intros [= _ _ <-]; by apply same_socks_kind.
Qed.

Lemma listen_kind {U} `{Path.UserDb U} (db : U) path a p k r p' k' :
  Fds.vfs_listen db path a p k = Done (r, p', k') -> (a <> 0 -> socks k !! a = None) -> same_kind k k'.
Proof.
  unfold Fds.vfs_listen. intros E Ha. destruct (Fds.socket_path path p); [injection E as _ _ <-; by apply same_socks_kind |].
  case_if; [injection E as _ _ <-; by apply same_socks_kind |]. inv_bind E. destruct x as [[err | s] k1].
  - injection E as _ _ <-. apply same_socks_kind. unfold socket_listen in E0. inv_bind E0. case_if; [by simplify_eq |].
    destruct (free_slot 0 (listeners k)); [| by simplify_eq]. case_if; [by simplify_eq | done].
  - apply (grow_shrink _ k1); [by apply (listen_grows _ _ _ _ _ _ E0) | by apply (socket_fd_kind _ _ _ _ _ _ E)].
Qed.

Lemma connect_fail path u c m t k err k' : socket_connect path u c m t k = Done (inl err, k') -> k' = k.
Proof.
  unfold socket_connect. intros E. inv_bind E. case_if; [by simplify_eq |]. inv_bind E. case_if; [by simplify_eq |].
  case_if; [by simplify_eq |]. case_if; [by simplify_eq |]. by inv_bind E.
Qed.

Lemma connect_kind path c m t p k r p' k' :
  Fds.vfs_connect path c m t p k = Done (r, p', k') -> (m <> 0 -> socks k !! m = None) -> (t <> 0 -> socks k !! t = None) -> same_kind k k'.
Proof.
  unfold Fds.vfs_connect. intros E Hm Ht. destruct (Fds.socket_path path p); [injection E as _ _ <-; by apply same_socks_kind |].
  inv_bind E. destruct x as [[err | s] k1].
  - injection E as _ _ <-. apply same_socks_kind. by rewrite (connect_fail _ _ _ _ _ _ _ _ E0).
  - apply (grow_shrink _ k1); [by apply (connect_grows _ _ _ _ _ _ _ _ E0) | by apply (socket_fd_kind _ _ _ _ _ _ E)].
Qed.

Lemma accept_kind fd p k r p' k' : Fds.vfs_accept fd p k = Done (r, p', k') -> same_kind k k'.
Proof.
  unfold Fds.vfs_accept. intros E. destruct (Fds.sock_get fd p) as [f |]; [| injection E as _ _ <-; by apply same_socks_kind].
  inv_bind E. destruct x as [[[err | s] |] k1].
  2: { inv_bind E. destruct x as [[fd' q] k2]. injection E as _ _ <-.
    apply (grow_shrink _ k1); [by apply (accept_grows _ _ _ _ E0) | by apply (socket_fd_kind _ _ _ _ _ _ E1)]. }
  all: injection E as _ _ <-; apply same_socks_kind; unfold socket_accept in E0; case_if; [by simplify_eq | inv_bind E0];
    case_if; [by simplify_eq |]; destruct (backlog x); by simplify_eq.
Qed.

Lemma recv_kind fd len want p k r p' k' : Fds.vfs_recv fd len want p k = Done (r, p', k') -> same_kind k k'.
Proof.
  unfold Fds.vfs_recv. intros E. destruct (Fds.sock_get fd p) as [f |]; [| injection E as _ _ <-; by apply same_socks_kind].
  case_if; [injection E as _ _ <-; by apply same_socks_kind |]. inv_bind E. destruct x as [r1 k1].
  assert (Hs : socks k1 = socks k).
  { unfold socket_recv in E0. case_if; [by simplify_eq |]. inv_bind E0. case_if; [by simplify_eq |].
    inv_bind E0. inv_bind E0. case_if; [by simplify_eq |]. destruct (recv_loop _ _ _ _ _) as [d1 bs].
    destruct (recv_fds _ _ _). by simplify_eq. }
  destruct r1 as [| r1 bs arrived]; [injection E as _ _ <-; by apply same_socks_kind |].
  case_if; [injection E as _ _ <-; by apply same_socks_kind |]. inv_bind E. destruct x as [[l q] k2]. injection E as _ _ <-.
  apply install_all_kind in E1. apply shrinks_kind. by apply (shrinks_trans _ k1); [apply shrinks_refl |].
Qed.

Lemma shm_kind size a b p k r p' k' : Fds.sys_shm_open size a b p k = Done (r, p', k') -> same_kind k k'.
Proof.
  unfold Fds.sys_shm_open. intros E. apply same_socks_kind. case_if; [by injection E as _ _ <- |]. inv_bind E.
  destruct x as [[[s |] pm] m]; [| by injection E as _ _ <-]. destruct (Fds.vfs_fd_install _ p). case_if; [| by injection E as _ _ <-].
  inv_bind E. injection E as _ _ <-. unfold shm_unref in E1. case_if; [by injection E1 as <- |]. inv_bind E1. inv_bind E1.
  destruct x1. by injection E1 as <-.
Qed.

Lemma pipe_get_spec fd p f :
  Zlen (Fds.fds p) = Fds.MAX_OPEN_FILES -> pipe_get fd p = Some f -> type f = FD_PIPE /\ names f ⊆ file_names (Fds.fds p).
Proof.
  intros Hl. unfold pipe_get. destruct (Fds.fd_get fd p) as [g |] eqn:E; [| done]. cbn [mbind option_bind].
  case_bool_decide; [| done]. intros [= <-]. split; [done |]. destruct (fd_get_spec _ _ _ E) as (Hfd & -> & _).
  by apply elem_file_names, get_elem.
Qed.

Lemma sleep_none p k : sleep_ok (Task p None) k.
Proof. done. Qed.

Lemma send_sleeps fd data passing p k n rest k' f :
  Fds.vfs_send fd data passing p k = Done (SWaitBytes n rest, k') -> Fds.sock_get fd p = Some f ->
  exists x, socks k !! sock f = Some x /\ listening x = false.
Proof.
  unfold Fds.vfs_send. intros E Hf. rewrite Hf in E. case_if; [done |]. destruct (Fds.collect passing p); [| done].
  unfold socket_send in E. case_if; [done |]. inv_bind E. case_if; [done |]. apply deref_done in E0. exists x. split; [done |].
  by apply orb_false_iff in Heqb1 as [? _].
Qed.

Lemma run_idle rest p k :
  pinv rest p k -> exists p' z k', Done (p, None, k) = Done (p', z, k') /\ pinv rest p' k' /\ same_kind k k' /\ sleep_ok (Task p' z) k'.
Proof. intros. exists p, None, k. split_and!; try done. by apply same_socks_kind. Qed.

Section calls.
Context {U : Type} `{Path.UserDb U}.

Lemma run_spec db c p k rest :
  pinv rest p k -> call_ok c p k ->
  exists p' z k', run db c p k = Done (p', z, k') /\ pinv rest p' k' /\ same_kind k k' /\ sleep_ok (Task p' z) k'.
Proof.
  intros Hp Hc. pose proof Hp as [Hl Hk]. destruct c as [fd | a | | pth a | pth c m t | fd | fd data passing | fd len want | fd len | fd data | size a b]; cbn [run call_ok] in *.
  - destruct (close_spec fd rest p k Hp) as (r & p' & k' & E & Hp'). rewrite E. eexists _, _, _. split; [done |].
    split_and!; [done | by apply (close_kind _ _ _ _ _ _ E) | done].
  - pose proof (vfs_pipe_spec a rest p k Hp Hc) as H1. pose proof (pipe_kind a p k) as H2.
    destruct (Fds.vfs_pipe a p k) as [[[r ab] p'] k']. eexists _, _, _. split; [done |]. split_and!; [done | by apply same_socks_kind | done].
  - destruct (input_open_spec rest p k Hp) as (r & p' & k' & E & Hp'). rewrite E. eexists _, _, _. split; [done |].
    split_and!; [done | by apply (input_kind _ _ _ _ _ E) | done].
  - destruct (vfs_listen_spec db pth a rest p k Hp Hc) as (r & p' & k' & E & Hp'). rewrite E. eexists _, _, _. split; [done |].
    split_and!; [done | by apply (listen_kind _ _ _ _ _ _ _ _ E) | done].
  - destruct Hc as (H1 & H2 & H3 & H4). destruct (vfs_connect_spec pth c m t rest p k Hp H1 H2 H3 H4) as (r & p' & k' & E & Hp').
    rewrite E. eexists _, _, _. split; [done |]. split_and!; [done | by apply (connect_kind _ _ _ _ _ _ _ _ _ E) | done].
  - destruct (vfs_accept_spec fd rest p k Hp) as (r & p' & k' & E & Hp'). rewrite E. eexists _, _, _. split; [done |].
    split_and!; [done | by apply (accept_kind _ _ _ _ _ _ E) | done].
  - destruct (vfs_send_spec fd data passing rest p k Hp Hc) as (r & k' & E & Hp' & _ & Hs). rewrite E. cbn [mbind out_bind].
    eexists _, _, _. split; [done |]. split_and!; [done | by apply same_socks_kind |].
    destruct r as [| n left | r]; try done. destruct (Fds.sock_get fd p) as [f |] eqn:Ef; [| done]. unfold sleep_ok. cbn [asleep].
    split; [by apply (sock_get_spec fd p) |]. rewrite Hs. by apply (send_sleeps _ _ _ _ _ _ _ _ _ E Ef).
  - destruct (vfs_recv_spec fd len want rest p k Hp Hc) as (r & p' & k' & E & Hp'). rewrite E. eexists _, _, _. split; [done |].
    split_and!; [done | by apply (recv_kind _ _ _ _ _ _ _ _ E) | done].
  - destruct (pipe_get fd p) as [f |] eqn:Ef; [| by apply run_idle]. destruct (pipe_get_spec fd p f Hl Ef) as [Ht Hin].
    destruct (read_pipe_spec _ k f len Hk Ht) as (r & k' & E & Hk'); [set_solver |]. rewrite E. eexists _, _, _. split; [done |].
    split_and!; [done | | done]. apply same_socks_kind. unfold Fds.read_pipe in E. case_if; [by simplify_eq |]. inv_bind E.
    destruct (Pipe.pipe_read (Some x) len) as [| r1 bs [q |]]; by simplify_eq.
  - destruct (pipe_get fd p) as [f |] eqn:Ef; [| by apply run_idle]. destruct (pipe_get_spec fd p f Hl Ef) as [Ht Hin].
    unfold Fds.write_pipe. destruct (write_end f) eqn:Ew; cbn [negb orb]; [| by apply run_idle]. destruct (pipe f =? 0); [by apply run_idle |].
    assert (Hn : WPipe (pipe f) ∈ file_names (Fds.fds p)) by (apply Hin; unfold names; rewrite Ht, Ew; left).
    destruct (write_more_spec _ k (pipe f) 0 data Hk) as (r & k' & E & Hk'); [apply elem_of_app; by left |]. rewrite E.
    cbn [mbind out_bind]. eexists _, _, _. split; [done |]. split_and!; [done | | by destruct r].
    apply same_socks_kind. unfold Fds.write_pipe_more in E. inv_bind E. destruct (Pipe.pipe_write (Some x) 0 data) as [? ? q | ? ? [q |]]; by simplify_eq.
  - destruct Hc as [H1 H2]. destruct (shm_open_spec size a b rest p k Hp H2 H1) as (r & p' & k' & E & Hp'). rewrite E.
    eexists _, _, _. split; [done |]. split_and!; [done | by apply (shm_kind _ _ _ _ _ _ _ _ E) | done].
Qed.

End calls.

Lemma resume_spec z p k rest :
  pinv rest p k -> sleep_ok (Task p (Some z)) k ->
  exists z' k', resume z k = Done (z', k') /\ pinv rest p k' /\ socks k' = socks k /\ sleep_ok (Task p z') k'.
Proof.
  intros [Hl Hk] Hz. unfold sleep_ok in Hz. cbn [asleep] in Hz. destruct z as [s n left | a n left]; cbn [resume].
  - destruct Hz as [Hin (x & Hx & Hlx)]. unfold socket_send_more. rewrite (deref_some _ _ _ Hx). cbn [mbind out_bind].
    pose proof (c_end _ _ (k_conn _ _ Hk) s x Hx) as Hc. rewrite Hlx in Hc. destruct Hc as [_ (y & Hy & _)].
    destruct (send_bytes_spec 2 _ k (conn x) (side x) n left y Hk Hy) as (r & k' & -> & Hk' & Hs). cbn [mbind out_bind].
    eexists _, k'. split; [done |]. split_and!; [done | done |]. destruct r; try done. split; [done |]. exists x. by rewrite Hs.
  - destruct (write_more_spec _ k a n left Hk) as (r & k' & E & Hk'); [apply elem_of_app; by left |]. rewrite E. cbn [mbind out_bind].
    eexists _, k'. split; [done |]. split_and!; [done | | by destruct r].
    unfold Fds.write_pipe_more in E. inv_bind E. destruct (Pipe.pipe_write (Some x) n left) as [? ? q | ? ? [q |]]; by simplify_eq.
Qed.

(** ** Every reachable state *)

(** What is named by anything but process [pid]. *)
Definition others (w : world) (pid : Z) : list name := gather task_names (delete pid (tasks w)) ++ file_names (lost w).

Lemma winv_pinv w pid t :
  winv w -> tasks w !! pid = Some t -> pinv (others w pid) (tproc t) (kern w).
Proof.
  intros [Hk Hl _] Ht. split; [by apply (Hl pid) |]. revert Hk. apply kinv_perm; [| done]. unfold others. rewrite (gather_split _ _ _ _ Ht). by rewrite app_assoc.
Qed.

(** A sleeper's object is there when it wakes, whatever others did. *)
Lemma sleep_stable t k k' ext :
  sleep_ok t k -> kinv ext k' -> task_names t ⊆ ext -> same_kind k k' -> sleep_ok t k'.
Proof.
  intros Ht [He _ _ _] Hin Hs. unfold sleep_ok in *. destruct (asleep t) as [[s n left | a n left] |]; try done.
  destruct Ht as [Hn (x & Hx & Hl)]. split; [done |]. destruct (named_sock _ k' s He) as [x' Hx'].
  { apply elem_of_app. left. by apply Hin. }
  exists x'. split; [done |]. by rewrite (Hs s x x' Hx Hx').
Qed.

Lemma winv_update w pid t p' z k' :
  winv w -> tasks w !! pid = Some t -> pinv (others w pid) p' k' ->
  same_kind (kern w) k' -> sleep_ok (Task p' z) k' -> winv (World k' (<[pid := Task p' z]> (tasks w)) (lost w)).
Proof.
  intros [Hk Hl Hsl] Ht [Hl' Hk'] Hs Hz.
  assert (Hk2 : kinv (gather task_names (<[pid := Task p' z]> (tasks w)) ++ file_names (lost w)) k')
    by (by rewrite gather_insert, <- app_assoc).
  split; cbn [kern tasks lost]; [done | |].
  - intros q u. destruct (decide (pid = q)) as [<- | Hne]; [rewrite lookup_insert_eq; by intros [= <-] |].
    rewrite lookup_insert_ne by done. apply Hl.
  - intros q u. destruct (decide (pid = q)) as [<- | Hne]; [rewrite lookup_insert_eq; by intros [= <-] |].
    rewrite lookup_insert_ne by done. intros Hu. apply (sleep_stable u _ k' _ (Hsl q u Hu) Hk2); [| done].
    intros n Hn. apply elem_of_app. left. apply elem_of_gather. exists q, u. by rewrite lookup_insert_ne.
Qed.

Lemma winv_spawn w pid p child c k' :
  winv w -> tasks w !! pid = Some (Task p None) -> tasks w !! child = None -> Zlen (Fds.fds c) = Fds.MAX_OPEN_FILES ->
  kinv (file_names (Fds.fds c) ++ file_names (Fds.fds p) ++ others w pid) k' ->
  same_kind (kern w) k' -> winv (World k' (<[child := Task c None]> (tasks w)) (lost w)).
Proof.
  intros [Hk Hl Hsl] Ht Hc Hlc Hkc Hs.
  assert (Hk2 : kinv (gather task_names (<[child := Task c None]> (tasks w)) ++ file_names (lost w)) k').
  { rewrite gather_fresh by done. revert Hkc. apply kinv_perm; [| done]. unfold others.
    rewrite (gather_split _ _ _ _ Ht), <- !app_assoc. done. }
  split; cbn [kern tasks lost]; [done | |].
  - intros q u. destruct (decide (child = q)) as [<- | Hne]; [rewrite lookup_insert_eq; by intros [= <-] |].
    rewrite lookup_insert_ne by done. apply Hl.
  - intros q u. destruct (decide (child = q)) as [<- | Hne]; [rewrite lookup_insert_eq; by intros [= <-] |].
    rewrite lookup_insert_ne by done. intros Hu. apply (sleep_stable u _ k' _ (Hsl q u Hu) Hk2); [| done].
    intros n Hn. apply elem_of_app. left. apply elem_of_gather. exists q, u. by rewrite lookup_insert_ne by (intros <-; congruence).
Qed.

(** A process that never starts: its descriptors stay counted. *)
Lemma winv_lost w pid p c k' :
  winv w -> tasks w !! pid = Some (Task p None) ->
  kinv (file_names (Fds.fds c) ++ file_names (Fds.fds p) ++ others w pid) k' ->
  same_kind (kern w) k' -> winv (World k' (tasks w) (Fds.fds c ++ lost w)).
Proof.
  intros [Hk Hl Hsl] Ht Hkc Hs.
  assert (Hk2 : kinv (gather task_names (tasks w) ++ file_names (Fds.fds c ++ lost w)) k').
  { revert Hkc. apply kinv_perm; [| done]. unfold others. rewrite file_names_app, (gather_split _ _ _ _ Ht).
    unfold task_names at 2. cbn [tproc]. solve_Permutation. }
  split; cbn [kern tasks lost]; [done | done |].
  intros q u Hu. apply (sleep_stable u _ k' _ (Hsl q u Hu) Hk2); [| done].
  intros n Hn. apply elem_of_app. left. apply elem_of_gather. by exists q, u.
Qed.

Lemma retain_grows f k k' : vfs_fd_retain f k = Done k' -> same_kind k k' /\ grows k k'.
Proof.
  unfold vfs_fd_retain. intros H.
  assert (Hcase : socks k' = socks k \/ exists x, socks k !! sock f = Some x /\ k' = put_sock (sock f) (set_refs (refs x + 1) x) k).
  { destruct (type f); try (injection H as <-; by left).
    - unfold pipe_ref in H. case_if; [injection H as <-; by left |]. inv_bind H. injection H as <-. by left.
    - unfold socket_ref in H. case_if; [injection H as <-; by left |]. inv_bind H. injection H as <-. right.
      exists x. split; [by apply deref_done | done].
    - unfold shm_ref in H. case_if; [injection H as <-; by left |]. inv_bind H. injection H as <-. by left. }
  destruct Hcase as [E | (x & Hx & ->)].
  - split; [by apply same_socks_kind |]. intros a x Hx. exists x. by rewrite E.
  - assert (Hg : grows k (put_sock (sock f) (set_refs (refs x + 1) x) k)) by (by apply (grows_put _ _ x)). split; [| done].
    apply (grow_shrink _ _ _ Hg). by apply shrinks_refl.
Qed.

Lemma inherit_grows n : forall i parent child k c k', Fds.inherit_from n i parent child k = Done (c, k') -> grows k k'.
Proof.
  induction n as [| n IH]; intros i parent child k c k'; cbn [Fds.inherit_from]; [intros [= _ <-] a x Hx; by exists x |].
  intros H. inv_bind H. apply retain_grows in E as [_ E]. apply IH in H. intros a y Hy. destruct (E a y Hy) as (y1 & Hy1 & <-). by apply H.
Qed.

Lemma spawn_kind io parent k c k' : Fds.spawn_fds io parent k = Done (c, k') -> same_kind k k'.
Proof.
  unfold Fds.spawn_fds. destruct io as [[i o] |].
  - intros H. inv_bind H. inv_bind H. inv_bind H. injection H as _ <-.
    assert (Hp : forall a w k k', pipe_ref a w k = Done k' -> socks k' = socks k).
    { clear. intros a w k k' H. unfold pipe_ref in H. case_if; [by injection H as <- |]. inv_bind H. by injection H as <-. }
    apply Hp in E, E0, E1. apply same_socks_kind. congruence.
  - intros H. apply inherit_grows in H. apply (grow_shrink _ _ _ H). by apply shrinks_refl.
Qed.

Lemma pipe_from_fd_spec fd w p a :
  Zlen (Fds.fds p) = Fds.MAX_OPEN_FILES -> Fds.pipe_from_fd fd w p = inr a ->
  (if w : bool then WPipe a else RPipe a) ∈ file_names (Fds.fds p).
Proof.
  intros Hl. unfold Fds.pipe_from_fd. destruct (Z.ltb_spec fd 0), (Z.leb_spec Fds.MAX_OPEN_FILES fd); cbn [orb]; try done.
  case_bool_decide as Ht; cbn [negb orb]; [| done]. destruct (Bool.eqb_spec (write_end (Fds.fds p).[fd]) w) as [Ew |]; cbn [negb]; [| done].
  intros [= <-]. unfold Fds.MAX_OPEN_FILES in *. apply (elem_file_names (Fds.fds p).[fd]); [apply get_elem; [done | lia] |].
  unfold names. rewrite Ht, Ew. left.
Qed.

Section reach.
Context {U : Type} `{Path.UserDb U}.

Lemma winv_step w w' : winv w -> step (U := U) w w' -> winv w'.
Proof.
  intros Hw Hst. destruct Hst as [w pid p db c p' z k' Ht Hc E | w pid p z z' k' Ht E | w pid p child c k' Ht Hf E
    | w pid p child i o c k' Ht Hf E | w pid p z p' k' Ht E | w pid p c k' Ht _ E
    | w pid p i o a b c k' Ht _ Ei Eo E]; pose proof (winv_pinv _ _ _ Hw Ht) as Hp; cbn [tproc] in Hp.
  - destruct (run_spec db c p (kern w) _ Hp Hc) as (q & z2 & k2 & E2 & Hq & Hs & Hz). rewrite E in E2. injection E2 as <- <- <-.
    by apply (winv_update w pid (Task p None)).
  - destruct (resume_spec z p (kern w) _ Hp (w_sleep _ Hw _ _ Ht)) as (z2 & k2 & E2 & Hq & Hs & Hz). rewrite E in E2. injection E2 as <- <-.
    apply (winv_update w pid (Task p (Some z))); try done. by apply same_socks_kind.
  - unfold Fds.proc_spawn_io in E. inv_bind E. destruct x as [c1 k1]. injection E as <- <-.
    destruct (spawn_fds_spec None _ p (kern w) Hp I) as (c2 & k2 & E2 & Hl2 & Hk2). rewrite E0 in E2. injection E2 as <- <-.
    apply (winv_spawn w pid p); try done. by apply (spawn_kind _ _ _ _ _ E0).
  - unfold Fds.sys_spawn_io in E. destruct (Fds.pipe_from_fd i false p) as [r | inp] eqn:Ei; [done |].
    destruct (Fds.pipe_from_fd o true p) as [r | outp] eqn:Eo; [done |]. inv_bind E. destruct x as [c1 k1]. injection E as -> <-.
    unfold Fds.proc_spawn_io in E0. inv_bind E0. destruct x as [c2 k2]. injection E0 as <- <-. pose proof Hp as [Hl _].
    destruct (spawn_fds_spec (Some (inp, outp)) _ p (kern w) Hp) as (c3 & k3 & E3 & Hl3 & Hk3).
    { split; [by apply (pipe_from_fd_spec i false) | by apply (pipe_from_fd_spec o true)]. }
    rewrite E in E3. injection E3 as <- <-. apply (winv_spawn w pid p); try done. by apply (spawn_kind _ _ _ _ _ E).
  - destruct (close_all_spec _ p (kern w) Hp) as (q & k2 & E2 & Hk2). rewrite E in E2. injection E2 as <- <-.
    destruct Hw as [_ Hl Hsl]. split; cbn [kern tasks lost]; [done | |].
    + intros q u. rewrite lookup_delete_Some. intros [_ Hu]. by apply (Hl q).
    + intros q u. rewrite lookup_delete_Some. intros [Hne Hu]. apply (sleep_stable u _ k' _ (Hsl q u Hu) Hk2).
      * intros n Hn. apply elem_of_app. left. apply elem_of_gather. exists q, u. by rewrite lookup_delete_ne.
      * apply shrinks_kind. by apply (close_all_kind _ _ _ _ E).
  - destruct (spawn_fds_spec None _ p (kern w) Hp I) as (c2 & k2 & E2 & Hl2 & Hk2). rewrite E in E2. injection E2 as <- <-.
    apply (winv_lost w pid p); try done. by apply (spawn_kind _ _ _ _ _ E).
  - pose proof Hp as [Hl _]. destruct (spawn_fds_spec (Some (a, b)) _ p (kern w) Hp) as (c3 & k3 & E3 & Hl3 & Hk3).
    { split; [by apply (pipe_from_fd_spec i false) | by apply (pipe_from_fd_spec o true)]. }
    rewrite E in E3. injection E3 as <- <-. apply (winv_lost w pid p); try done. by apply (spawn_kind _ _ _ _ _ E).
Qed.

Lemma winv_boot pid p m b : Pmm.pmm_inv p -> event_refs b = 0 -> winv (boot pid p m b).
Proof.
  intros Hp Hb. destruct init_fds_names as [Hn Hl]. split; cbn [boot kern tasks lost].
  - change (file_names []) with (@nil name). rewrite app_nil_r. unfold gather. rewrite map_to_list_singleton. unfold task_names. cbn [mbind list_bind snd tproc Fds.fds]. rewrite Hn. cbn [app]. split.
    + intros n. cbn [app]. unfold waiting, queued. cbn [socks conns]. rewrite !gather_empty. by destruct n.
    + split; try done. cbn [shms]. rewrite gather_empty. apply NoDup_nil_2.
    + by split.
    + split; try done. intros a Ha Hz. by apply elem_of_replicate in Ha as [-> _].
  - intros q t. rewrite lookup_singleton_Some. by intros [_ <-].
  - intros q t. rewrite lookup_singleton_Some. by intros [_ <-].
Qed.

Lemma winv_reachable w : reachable (U := U) w -> winv w.
Proof.
  intros (pid & p & m & b & Hp & Hb & Hr). pose proof (winv_boot pid p m b Hp Hb) as Hw. revert Hw.
  induction Hr as [| w1 w2 w3 Hs _ IH]; [done |]. intros Hw. apply IH. by apply (winv_step w1).
Qed.

End reach.

(** ** The counts, in terms of descriptors *)

Definition open_files (w : world) : list file_t := gather (fun t => Fds.fds (tproc t)) (tasks w).
Definition flying (w : world) : list file_t := gather (fun y => inflight (dir0 y) ++ inflight (dir1 y)) (conns (kern w)).
Definition backlogged (w : world) : list Z := gather backlog (socks (kern w)).

Definition uses (n : name) (w : world) : Z :=
  countb (fun f => bool_decide (n ∈ names f)) (open_files w ++ flying w ++ lost w).

Lemma uses_num n l : countb (fun f => bool_decide (n ∈ names f)) l = num n (file_names l).
Proof.
  induction l as [| f l IH]; [done |]. rewrite countb_cons, IH. change (file_names (f :: l)) with (names f ++ file_names l).
  rewrite num_app. f_equal. unfold names. destruct (type f); try done;
    rewrite num_cons; case_bool_decide as E; case_decide as E'; try done; rewrite list_elem_of_singleton in E; congruence.
Qed.

Lemma file_names_gather {A} (g : A -> list file_t) (m : gmap Z A) : file_names (gather g m) = gather (fun x => file_names (g x)) m.
Proof.
  unfold gather. induction (map_to_list m) as [| x l IH]; [done |]. cbn [mbind list_bind]. rewrite file_names_app. by f_equal.
Qed.

Lemma num_backlog a ss : num (NSock a) (waiting ss) = countb (Z.eqb a) (gather backlog ss).
Proof.
  unfold waiting, gather, backlog_names. induction (map_to_list ss) as [| x l IH]; [done |]. cbn [mbind list_bind].
  rewrite num_app, countb_app. f_equal; [| exact IH]. induction (backlog x.2) as [| b bs IHb]; [done |]. cbn [fmap list_fmap].
  rewrite num_cons, countb_cons, <- IHb. destruct (Z.eqb_spec a b), (decide (NSock b = NSock a)); cbn; try done; congruence.
Qed.

Lemma num_waiting_other n ss : (forall a, n <> NSock a) -> num n (waiting ss) = 0.
Proof.
  intros Hn. apply num_zero. intros Hin. apply elem_of_gather in Hin as (a & x & _ & Hin). unfold backlog_names in Hin.
  apply list_elem_of_fmap in Hin as (b & -> & _). by apply (Hn b).
Qed.

Lemma winv_counts w n :
  winv w -> stored (kern w) n = uses n w + (match n with NSock a => countb (Z.eqb a) (backlogged w) | _ => 0 end).
Proof.
  intros [Hk _ _]. rewrite (k_exact _ _ Hk n). unfold uses. rewrite !countb_app, !uses_num. unfold open_files, flying.
  rewrite !file_names_gather, !num_app. change (gather (fun t => file_names (Fds.fds (tproc t))) (tasks w)) with (gather task_names (tasks w)).
  change (gather (fun y => file_names (inflight (dir0 y) ++ inflight (dir1 y))) (conns (kern w))) with (queued (kern w)).
  destruct n; [rewrite num_waiting_other by done; lia | rewrite num_waiting_other by done; lia | rewrite num_backlog; unfold backlogged; lia
    | rewrite num_waiting_other by done; lia | rewrite num_waiting_other by done; lia].
Qed.

(** ** Theorems *)

Section theorems.
Context {U : Type} `{Path.UserDb U}.


(** C27: descriptor calls are safe and they return, as long as no socket is
    passed through a socket (with one, a close may never return: see
    [socket_cycle_never_ends] and [closing_hangs]).  In every state reachable
    without that, every call a process can make without it (with addresses from
    [kmalloc] that are free) comes back: no pointer it follows was
    freed, no object is freed twice, no frame is given back that is not in use,
    and the loops that drop references end.  The same holds for a process that
    wakes up in the middle of a send or a pipe write, whatever the others did
    meanwhile, for starting a process whether its program can be loaded or not,
    and for closing everything at exit, also of a process that is told to stop
    while it sleeps. *)
Theorem calls_return (w : world) (pid : Z) (t : task) :
  reachable (U := U) w -> tasks w !! pid = Some t ->
  (exists r, Fds.vfs_close_all (tproc t) (kern w) = Done r) /\
  match asleep t with
  | Some z => exists r, resume z (kern w) = Done r
  | None =>
      (forall (db : U) c, call_ok c (tproc t) (kern w) -> exists r, run db c (tproc t) (kern w) = Done r) /\
      (forall loaded, exists r, Fds.proc_spawn_io loaded None (tproc t) (kern w) = Done r) /\
      (forall loaded i o, exists r, Fds.sys_spawn_io loaded i o (tproc t) (kern w) = Done r)
  end.
Proof.
  intros Hr Ht. pose proof (winv_reachable w Hr) as Hw. pose proof (winv_pinv w pid t Hw Ht) as Hp. pose proof (w_sleep _ Hw _ _ Ht) as Hz.
  split; [destruct (close_all_spec _ (tproc t) (kern w) Hp) as (q & k' & E & _); by eexists |].
  destruct t as [p [z |]]; cbn [asleep tproc] in *.
  - destruct (resume_spec z p (kern w) _ Hp Hz) as (z' & k' & E & _). by eexists.
  - assert (Hsp : forall loaded io, match io with Some (i, o) => RPipe i ∈ file_names (Fds.fds p) /\ WPipe o ∈ file_names (Fds.fds p) | None => True end ->
      exists r, Fds.proc_spawn_io loaded io p (kern w) = Done r).
    { intros loaded io Hio. unfold Fds.proc_spawn_io. destruct (spawn_fds_spec io _ p (kern w) Hp Hio) as (c & k' & -> & _). by eexists. }
    split_and!.
    + intros db c Hc. destruct (run_spec db c p (kern w) _ Hp Hc) as (q & z & k' & E & _). by eexists.
    + intros loaded. by apply Hsp.
    + intros loaded i o. unfold Fds.sys_spawn_io. destruct (Fds.pipe_from_fd i false p) as [r | a] eqn:Ei; [by eexists |].
      destruct (Fds.pipe_from_fd o true p) as [r | b] eqn:Eo; [by eexists |]. destruct Hp as [Hl Hk].
      destruct (Hsp loaded (Some (a, b))) as [[c k'] E]; [| rewrite E; by eexists].
      split; [by apply (pipe_from_fd_spec i false) | by apply (pipe_from_fd_spec o true)].
Qed.

End theorems.

(** *** A sample: one process makes a pipe *)

Definition sample_kbd : keyboard := Keyboard 0 0 0 0 0 0 (false, false, false, false).
Definition sample_boot : world := boot 1 Pmm.sample_pmm (fun _ => 0) sample_kbd.
Definition sample_world : world :=
  match tasks sample_boot !! 1 with
  | Some t => let '(_, _, p, k) := Fds.vfs_pipe 4096 (tproc t) (kern sample_boot) in World k (<[1 := Task p None]> (tasks sample_boot)) []
  | None => sample_boot
  end.

Lemma sample_reachable : reachable (U := list (Z * list Z * Z)) sample_world.
Proof.
  exists 1, Pmm.sample_pmm, (fun _ => 0), sample_kbd. split_and!; [apply Pmm.sample_pmm_inv | done |].
  apply rtc_once. apply (step_call sample_boot 1 (Fds.Proc Fds.vfs_init_fds 0 (str "/")) Path.sample_db (MakePipe 4096)); [done | | done].
  intros _. done.
Qed.


Lemma calls_return_witness :
  exists t, tasks sample_world !! 1 = Some t /\
    exists r, run Path.sample_db (WritePipe 4 [104; 105]) (tproc t) (kern sample_world) = Done r.
Proof.
  destruct (tasks sample_world !! 1) as [t |] eqn:E; [| vm_compute in E; done]. exists t. split; [done |].
  pose proof (calls_return sample_world 1 t sample_reachable E) as H.
  assert (Ha : asleep t = None) by (vm_compute in E; by injection E as <-). rewrite Ha in H. destruct H as [_ [H _]]. by apply H.
Defined.

End FdsSpec.
