(* ===== verification/SocketSpec.v ===== *)
(** What a connection promises: a byte stream in each direction that carries
    descriptors in their place, and what becomes of descriptors still in flight
    when an end closes. *)

From S2P Require Import Prelude Str KString Pmm Pipe Ring Shm Path Socket Refs Fds FdsRefs FdsSpec.

Module SocketSpec.
Import Str Socket Refs FdsRefs.

(** ** Sending a socket through itself

    [drop_queued_fds] drops the descriptor at the head of the queue before it
    takes it out.  Where that is the last reference to an endpoint of the same
    connection, closing the endpoint comes back to the same queue, finds the
    same descriptor and drops it again, without end. *)

Definition own_fd (s : Z) (y : sock_conn) (i : bool) : Prop :=
  0 < fd_count (dir i y) /\ type (file (fds (dir i y)).[fd_tail (dir i y)]) = FD_SOCKET /\
  sock (file (fds (dir i y)).[fd_tail (dir i y)]) = s.

Lemma own_fd_closed s y i j : own_fd s y i -> own_fd s (set_closed j y) i.
Proof. unfold own_fd. by destruct i, j. Qed.

Theorem socket_cycle_never_ends (n : nat) (s : Z) (x : socket) (y : sock_conn) (k : kernel) :
  s <> 0 -> conn x <> 0 -> socks k !! s = Some x -> listening x = false -> refs x <= 1 ->
  conns k !! conn x = Some y -> own_fd s y (side x) -> socket_unref n s k = Spent.
Proof.
  intros Hs Hc. revert x y k Hc. induction (lt_wf n) as [n _ IH]. intros x y k Hc Hx Hl Hr Hy (Hq & Ht & Ho).
  destruct n as [| n]; [done |]. cbn [socket_unref]. rewrite (proj2 (Z.eqb_neq s 0)) by done. rewrite (deref_some _ _ _ Hx).
  cbn [mbind out_bind]. cbv zeta. rewrite (proj2 (Z.ltb_ge 0 (refs x - 1))) by lia. rewrite Hl. cbn [mbind out_bind].
  set (x1 := set_refs (refs x - 1) x). set (k1 := put_sock s x1 k).
  assert (Hx1 : socks k1 !! s = Some x1) by apply lookup_insert_eq. rewrite (deref_some _ _ _ Hx1). cbn [mbind out_bind].
  change (conn x1) with (conn x). change (side x1) with (side x). rewrite (proj2 (Z.eqb_neq (conn x) 0)) by done.
  rewrite (deref_some (conns k1) _ _ Hy). cbn [mbind out_bind]. set (k2 := put_conn (conn x) (set_closed (side x) y) k1).
  destruct (own_fd_closed s y (side x) (side x) ltac:(done)) as (Hq2 & Ht2 & Ho2).
  assert (Hy2 : conns k2 !! conn x = Some (set_closed (side x) y)) by apply lookup_insert_eq.
  destruct n as [| n]; [done |]. cbn [drop_queued_fds]. rewrite (deref_some _ _ _ Hy2). cbn [mbind out_bind]. cbv zeta.
  rewrite (proj2 (Z.ltb_lt 0 _)) by done. destruct n as [| n]; [done |]. cbn [vfs_fd_drop]. rewrite Ht2, Ho2.
  rewrite (IH n ltac:(lia) x1 (set_closed (side x) y) k2); try done. unfold x1. cbn. lia.
Qed.

(** ** What one call moves *)

Lemma retain_conns f k k' : vfs_fd_retain f k = Done k' -> conns k' = conns k.
Proof.
  unfold vfs_fd_retain. intros H. destruct (type f); try by simplify_eq.
  - unfold pipe_ref in H. case_if; [by simplify_eq |]. inv_bind H. by simplify_eq.
  - unfold socket_ref in H. case_if; [by simplify_eq |]. inv_bind H. by simplify_eq.
  - unfold shm_ref in H. case_if; [by simplify_eq |]. inv_bind H. by simplify_eq.
Qed.

(** A descriptor and its place: after the last byte of its message. *)
Definition tag (d : sock_dir_t) (len : Z) (f : file_t) : sock_fd_t := SockFd f (u64 (written d + len)).

(** Everything of a connection but one direction. *)
Definition same_but (i : bool) (y y' : sock_conn) : Prop :=
  dir (negb i) y' = dir (negb i) y /\ closed0 y' = closed0 y /\ closed1 y' = closed1 y.

Lemma set_dir_same i d y : same_but i y (set_dir i d y) /\ dir i (set_dir i d y) = d.
Proof. by destruct i. Qed.

Lemma same_but_trans i y1 y2 y3 : same_but i y1 y2 -> same_but i y2 y3 -> same_but i y1 y3.
Proof. intros (? & ? & ?) (? & ? & ?). split_and!; congruence. Qed.

Lemma same_but_closed i j y y' : same_but i y y' -> closed j y' = closed j y.
Proof. intros (_ & ? & ?). by destruct j. Qed.

Lemma queue_fds_dir passing : forall k c i len y k',
  conns k !! c = Some y -> dir_ok (dir i y) -> fd_count (dir i y) + Zlen passing <= SOCK_FD_CAP ->
  queue_fds c i len passing k = Done k' ->
  exists y', conns k' !! c = Some y' /\ same_but i y y' /\ dir_ok (dir i y') /\ bytes (dir i y') = bytes (dir i y) /\
    queue (dir i y') = queue (dir i y) ++ (tag (dir i y) len <$> passing) /\ written (dir i y') = written (dir i y).
Proof.
  induction passing as [| f passing IH]; intros k c i len y k' Hy Hd Hroom; cbn [queue_fds].
  { intros [= <-]. exists y. cbn. by rewrite app_nil_r. }
  rewrite (deref_some _ _ _ Hy). cbn [mbind out_bind]. cbv zeta. intros H. inv_bind H. unfold Zlen in Hroom. cbn [length] in Hroom.
  set (d := push_fd f (u64 (written (dir i y) + len)) (dir i y)) in *.
  destruct (push_fd_spec f (u64 (written (dir i y) + len)) (dir i y) Hd ltac:(lia)) as [Hd1 Hq1]. fold d in Hd1, Hq1.
  destruct (set_dir_same i d y) as [Hsb Hdi].
  destruct (IH x c i len (set_dir i d y) k') as (y' & Hy' & Hsb' & Hd' & Hb' & Hq' & Hw'); try done.
  - rewrite (retain_conns _ _ _ E). apply lookup_insert_eq.
  - by rewrite Hdi.
  - rewrite Hdi. unfold d, Zlen. cbn [push_fd fd_count]. lia.
  - exists y'. split_and!; try done; [by apply (same_but_trans _ _ _ _ Hsb) | by rewrite Hb', Hdi | | by rewrite Hw', Hdi].
    rewrite Hq', Hdi, Hq1, <- app_assoc. done.
Qed.

Lemma written_range d : dir_ok d -> is_u64 (written d).
Proof. intros (_ & _ & _ & ->). apply u64_range. Qed.

Lemma written_same d : dir_ok d -> written d = u64 (written d + Zlen (@nil Z)).
Proof. intros Hd. change (Zlen []) with 0. rewrite Z.add_0_r. by rewrite u64_id by (by apply written_range). Qed.

(** The byte loop: how far it gets and why. *)
Lemma send_bytes_dir k c i n rest y r k' :
  conns k !! c = Some y -> dir_ok (dir i y) -> send_bytes 2 c i n rest k = Done (r, k') ->
  exists y' given left, conns k' !! c = Some y' /\ same_but i y y' /\ dir_ok (dir i y') /\
    rest = given ++ left /\ bytes (dir i y') = bytes (dir i y) ++ given /\ queue (dir i y') = queue (dir i y) /\
    written (dir i y') = u64 (written (dir i y) + Zlen given) /\
    ((left = [] /\ r = SRet (i32 (n + Zlen given))) \/
     (left <> [] /\ given = [] /\ closed (negb i) y = true /\ r = SRet (if 0 <? n then i32 n else - W_EPIPE)) \/
     (left <> [] /\ count (dir i y') = SOCK_CAP /\ closed (negb i) y = false /\ r = SWaitBytes (n + Zlen given) left)).
Proof.
  intros Hy Hd. pose proof (written_same _ Hd) as Hw0. destruct rest as [| b rest].
  { intros [= <- <-]. exists y, [], []. split_and!; rewrite ?app_nil_r; try done. left. change (Zlen []) with 0. by rewrite Z.add_0_r. }
  cbn [send_bytes]. rewrite (deref_some _ _ _ Hy). cbn [mbind out_bind].
  destruct (closed (negb i) y) eqn:Ecl.
  { intros [= <- <-]. exists y, [], (b :: rest). split_and!; rewrite ?app_nil_r; try done. right. left. done. }
  destruct (Z.eqb_spec (count (dir i y)) SOCK_CAP) as [Ef | _].
  { intros [= <- <-]. exists y, [], (b :: rest). split_and!; rewrite ?app_nil_r; try done. right. right. change (Zlen []) with 0.
    by rewrite Z.add_0_r. }
  pose proof (send_loop_spec (b :: rest) (dir i y) n Hd) as H. destruct (send_loop _ _ _) as [[d n'] left].
  destruct H as (given & Hg & Hd' & Hb & -> & Hstop & Hq & _ & Hw). rewrite (u64_id (written d)) in Hw by (by apply written_range).
  destruct (set_dir_same i d y) as [Hsb Hdi].
  intros H. exists (set_dir i d y), given, left. rewrite Hdi.
  destruct left as [| b' left].
  { injection H as <- <-. split_and!; try done; [apply lookup_insert_eq | by left]. }
  rewrite (deref_some (conns (put_conn c (set_dir i d y) k)) c (set_dir i d y)) in H by apply lookup_insert_eq. cbn [mbind out_bind] in H.
  rewrite (same_but_closed i _ _ _ Hsb), Ecl, Hdi in H. destruct Hstop as [| Hfull]; [done |].
  rewrite Hfull, Z.eqb_refl in H. injection H as <- <-. split_and!; try done; [apply lookup_insert_eq |]. right. right. done.
Qed.

(** A connected endpoint and its connection. *)
Record endpoint (k : kernel) (s : Z) (x : socket) (y : sock_conn) : Prop := {
  ep_s : s <> 0;
  ep_sock : socks k !! s = Some x;
  ep_end : listening x = false;
  ep_c : conn x <> 0;
  ep_conn : conns k !! conn x = Some y;
  ep_dirs : forall i, dir_ok (dir i y);
}.

Lemma queue_length d : dir_ok d -> Zlen (queue d) = fd_count d.
Proof. intros [(_ & _ & ? & _) _]. apply Zlen_ring. lia. Qed.

(** Every connected endpoint of a reachable state is one. *)
Lemma reachable_endpoint {U} `{Path.UserDb U} (w : FdsSpec.world) s x :
  FdsSpec.reachable (U := U) w -> socks (FdsSpec.kern w) !! s = Some x -> listening x = false ->
  exists y, endpoint (FdsSpec.kern w) s x y.
Proof.
  intros Hr Hx Hl. destruct (FdsSpec.winv_reachable w Hr) as [[_ [(_ & _ & N1 & N2) _ _ _ _] Hc _] _ _].
  pose proof (c_end _ _ Hc s x Hx) as He. rewrite Hl in He. destruct He as [_ (y & Hy & _)]. exists y.
  split; try done; [congruence | congruence |]. intros i. by apply (c_conn _ _ Hc _ _ Hy).
Qed.

(** What sending [rest] after [n] bytes did to direction [d], [d'] after it: a
    prefix went in, and the position written to moved past it; why it stopped,
    where [gone] says whether the peer had closed. *)
Definition sent (d d' : sock_dir_t) (gone : bool) (n : Z) (rest : list Z) (r : send_result) : Prop :=
  exists given left, rest = given ++ left /\ bytes d' = bytes d ++ given /\
    written d' = u64 (written d + Zlen given) /\
    ((left = [] /\ r = SRet (i32 (n + Zlen given))) \/
     (left <> [] /\ given = [] /\ gone = true /\ r = SRet (if 0 <? n then i32 n else - W_EPIPE)) \/
     (left <> [] /\ Zlen (bytes d') = SOCK_CAP /\ gone = false /\ r = SWaitBytes (n + Zlen given) left)).


(** ** Samples: one process at both ends of a connection *)

Definition exec (c : FdsSpec.call) (w : FdsSpec.world) : FdsSpec.world :=
  match FdsSpec.tasks w !! 1 with
  | Some t =>
      match FdsSpec.run Path.sample_db c (FdsSpec.tproc t) (FdsSpec.kern w) with
      | Done (p, z, k) => FdsSpec.World k (<[1 := FdsSpec.Task p z]> (FdsSpec.tasks w)) (FdsSpec.lost w)
      | _ => w
      end
  | None => w
  end.

(** Descriptor 3 listens, 4 is the connecting end, 5 the accepted one. *)
Definition sample_pair : FdsSpec.world :=
  exec (FdsSpec.Accept 3) (exec (FdsSpec.Connect (str "/s") 200 101 102) (exec (FdsSpec.Listen (str "/s") 100) FdsSpec.sample_boot)).

Definition pair_mine : socket := Socket 1 false [] 0 [] 200 false.
Definition pair_conn : sock_conn := Conn 2 false false no_dir no_dir.

Lemma sample_endpoint : endpoint (FdsSpec.kern sample_pair) 101 pair_mine pair_conn.
Proof.
  split; try done; [vm_compute; reflexivity.. |]. intros i. split; destruct i; vm_compute; repeat split; congruence.
Qed.


(** Sent through itself and closed, an endpoint is never given up: closing the
    other end does not come back. *)
Example closing_hangs :
  let w := exec (FdsSpec.Close 4) (exec (FdsSpec.Send 4 [] [4]) sample_pair) in
  match FdsSpec.tasks w !! 1 with
  | Some t => Fds.vfs_close 5 (FdsSpec.tproc t) (FdsSpec.kern w) = Spent
  | None => False
  end.
Proof. vm_compute. reflexivity. Qed.

(** A descriptor sent and not yet received is dropped when the sender closes,
    although the bytes of its message can still be read. *)
Definition receive (w : FdsSpec.world) : option Fds.recvd :=
  match FdsSpec.tasks w !! 1 with
  | Some t => match Fds.vfs_recv 5 16 4 (FdsSpec.tproc t) (FdsSpec.kern w) with Done (r, _, _) => Some r | _ => None end
  | None => None
  end.

Example descriptor_lost_at_close :
  let w := exec (FdsSpec.Send 4 [65] [0]) sample_pair in
  receive w = Some (Fds.Recvd 1 [65] [6]) /\ receive (exec (FdsSpec.Close 4) w) = Some (Fds.Recvd 1 [65] []).
Proof. vm_compute. done. Qed.

(** A program that fails to load leaves its pipe ends counted: with the only
    write end closed, a reader waits for ever instead of seeing the end. *)
Example failed_spawn_leaks :
  match FdsSpec.tasks FdsSpec.sample_world !! 1 with
  | Some t =>
      let p := FdsSpec.tproc t in
      match Fds.sys_spawn_io false 3 4 p (FdsSpec.kern FdsSpec.sample_world) with
      | Done (inr None, k) =>
          match Fds.vfs_close 4 p k with
          | Done (0, p, k) => match Fds.read_pipe (Fds.fds p).[3] 16 k with Done (None, _) => True | _ => False end
          | _ => False
          end
      | _ => False
      end
  | None => False
  end.
Proof. vm_compute. done. Qed.

End SocketSpec.
