(* ===== verification/Sched.v ===== *)
(** * Threads, processors and the run queue

    src/kernel/proc/sched.c with the data of src/kernel/include/proc.h and
    smp.h that the scheduler and the process table of proc.c share: the threads,
    the circular queue through their [next] fields, and what each processor is
    running.  The operations are here, the theorems in [SchedSpec].

    A pointer to a thread is its index in [threads]; the pointer to a process is
    its index in [processes] or the kernel's own process.  A call that would
    follow a null pointer or panic is [Fault], a loop that does not come to an
    end within its fuel is [Spent].

    schedule() gives up the kernel lock before it calls switch_context(), so
    between the two another processor may enter the kernel.  [schedule] is the
    part before, and leaves in the processor's [switching] field the two threads
    that [switch_context], the part after, is going to exchange.  A processor that
    is resumed on a stack that is not its thread's is a [Fault] too. *)

From S2P Require Import Prelude Ring.

Module Sched.

(** ** Data *)

Definition MAX_THREADS : nat := 64.
Definition MAX_PROCESSES : nat := 32.

Inductive thread_state :=
| THREAD_UNUSED
| THREAD_READY
| THREAD_RUNNING
| THREAD_BLOCKED
| THREAD_ZOMBIE.

#[export] Instance thread_state_eq_dec : EqDecision thread_state.
Proof. solve_decision. Defined.

Inductive wait_reason_t :=
| WAIT_NONE
| WAIT_INPUT
| WAIT_CHILD
| WAIT_PIPE
| WAIT_TIME
| WAIT_SOCKET.

#[export] Instance wait_reason_eq_dec : EqDecision wait_reason_t.
Proof. solve_decision. Defined.

(** [process_t *]: the kernel's own process, or a slot of the table. *)
Inductive pref :=
| KProc
| Proc (i : nat).

#[export] Instance pref_eq_dec : EqDecision pref.
Proof. solve_decision. Defined.

(** [addrspace_t *]. *)
Inductive aspace :=
| KSpace
| Space (a : Z).

#[export] Instance aspace_eq_dec : EqDecision aspace.
Proof. solve_decision. Defined.

(** Where a thread goes on in the kernel once it is switched to: returning to
    its program, behind the schedule() of a sched_block(), behind the one of a
    proc_wait() with this argument, or behind the one of a proc_exit().  In the
    machine this is the contents of its kernel stack. *)
Inductive continuation :=
| ToUser
| InBlock
| InWait (pid : Z)
| InExit.

Record thread := Thread {
  tid : Z;
  proc : option pref;
  state : thread_state;
  wait_reason : wait_reason_t;
  kernel_stack : Z;
  kernel_stack_size : Z;
  rsp : Z;
  user_entry : Z;
  user_stack : Z;
  is_idle : bool;
  cpu_ticks : Z;
  wake_at : Z;
  next : option nat;
  cont : continuation }.

(** What memset() leaves. *)
Definition zero_thread : thread :=
  Thread 0 None THREAD_UNUSED WAIT_NONE 0 0 0 0 0 false 0 0 None ToUser.

#[export] Instance thread_inhabited : Inhabited thread := populate zero_thread.

(** The fields of [process_t] that this model keeps: identity, address space,
    terminal, seat, family and end. *)
Record process := Process {
  pid : Z;
  used : bool;
  space : option aspace;
  uid : Z;
  seat : bool;
  seat_pending : bool;
  term_rows : Z;
  term_cols : Z;
  own_terminal : bool;
  p_cpu_ticks : Z;
  stack_bytes : Z;
  parent : option pref;
  exited : bool;
  killed : bool;
  exit_status : Z;
  p_thread : option nat;
  thread_count : Z }.

Definition zero_process : process :=
  Process 0 false None 0 false false 0 0 false 0 0 None false false 0 None 0.

#[export] Instance process_inhabited : Inhabited process := populate zero_process.

(** [smpcpu_t], for a processor that has joined: what it runs, what it falls
    back to, the tables in CR3, the stack its TSS names, its stack pointer, and
    the switch it has decided on and not made yet: the thread it leaves, with the
    number that thread had, and the one it goes to. *)
Record smpcpu := Cpu {
  current : nat;
  idle : nat;
  cpu_space : aspace;
  tss_stack : Z;
  sp : Z;
  switching : option (nat * Z * nat) }.

(** The thread on whose kernel stack a processor is: until switch_context() has
    run, the one it is leaving. *)
Definition stack_in_use (k : smpcpu) : nat :=
  match switching k with Some (prev, _, _) => prev | None => current k end.

(** Calls into other parts of the kernel, in the order they are made. *)
Inductive event :=
| VfsCloseAll (p : pref)
| ShmUnmapAll (p : pref)
| DisplayRelease (pid : Z)
| ServiceReap (pid status : Z)
| FreeStack (a : Z)
| FreeSpace (a : aspace).

Record sys := Sys {
  threads : list thread;
  run_queue : option nat;
  active : bool;
  cpus : gmap nat smpcpu;
  processes : list process;
  kernel_proc : process;
  next_pid : Z;
  next_tid : Z;
  pit_ticks : Z;
  log : list event }.

(** ** Reading and writing through pointers *)

Definition thr (s : sys) (t : nat) : thread := threads s !!! t.

Definition process_at (s : sys) (p : pref) : process :=
  match p with KProc => kernel_proc s | Proc i => processes s !!! i end.

Definition set_threads (ths : list thread) (s : sys) : sys :=
  Sys ths (run_queue s) (active s) (cpus s) (processes s) (kernel_proc s) (next_pid s) (next_tid s) (pit_ticks s) (log s).
Definition set_run_queue (h : option nat) (s : sys) : sys :=
  Sys (threads s) h (active s) (cpus s) (processes s) (kernel_proc s) (next_pid s) (next_tid s) (pit_ticks s) (log s).
Definition set_active (b : bool) (s : sys) : sys :=
  Sys (threads s) (run_queue s) b (cpus s) (processes s) (kernel_proc s) (next_pid s) (next_tid s) (pit_ticks s) (log s).
Definition set_cpu (c : nat) (k : smpcpu) (s : sys) : sys :=
  Sys (threads s) (run_queue s) (active s) (<[c := k]> (cpus s)) (processes s) (kernel_proc s) (next_pid s) (next_tid s)
    (pit_ticks s) (log s).
Definition set_processes (ps : list process) (s : sys) : sys :=
  Sys (threads s) (run_queue s) (active s) (cpus s) ps (kernel_proc s) (next_pid s) (next_tid s) (pit_ticks s) (log s).
Definition set_kernel_proc (p : process) (s : sys) : sys :=
  Sys (threads s) (run_queue s) (active s) (cpus s) (processes s) p (next_pid s) (next_tid s) (pit_ticks s) (log s).
Definition set_ids (np nt : Z) (s : sys) : sys :=
  Sys (threads s) (run_queue s) (active s) (cpus s) (processes s) (kernel_proc s) np nt (pit_ticks s) (log s).
Definition set_ticks (z : Z) (s : sys) : sys :=
  Sys (threads s) (run_queue s) (active s) (cpus s) (processes s) (kernel_proc s) (next_pid s) (next_tid s) z (log s).
Definition record (e : event) (s : sys) : sys :=
  Sys (threads s) (run_queue s) (active s) (cpus s) (processes s) (kernel_proc s) (next_pid s) (next_tid s) (pit_ticks s)
    (log s ++ [e]).

Definition on_thread (t : nat) (f : thread -> thread) (s : sys) : sys := set_threads (alter f t (threads s)) s.

Definition on_process (p : pref) (f : process -> process) (s : sys) : sys :=
  match p with
  | KProc => set_kernel_proc (f (kernel_proc s)) s
  | Proc i => set_processes (alter f i (processes s)) s
  end.

(** Assignments to fields. *)
Definition with_state (x : thread_state) (t : thread) : thread :=
  Thread (tid t) (proc t) x (wait_reason t) (kernel_stack t) (kernel_stack_size t) (rsp t) (user_entry t) (user_stack t)
    (is_idle t) (cpu_ticks t) (wake_at t) (next t) (cont t).
Definition with_wait (x : thread_state) (r : wait_reason_t) (w : Z) (t : thread) : thread :=
  Thread (tid t) (proc t) x r (kernel_stack t) (kernel_stack_size t) (rsp t) (user_entry t) (user_stack t)
    (is_idle t) (cpu_ticks t) w (next t) (cont t).
Definition with_next (n : option nat) (t : thread) : thread :=
  Thread (tid t) (proc t) (state t) (wait_reason t) (kernel_stack t) (kernel_stack_size t) (rsp t) (user_entry t)
    (user_stack t) (is_idle t) (cpu_ticks t) (wake_at t) n (cont t).
Definition with_rsp (z : Z) (t : thread) : thread :=
  Thread (tid t) (proc t) (state t) (wait_reason t) (kernel_stack t) (kernel_stack_size t) z (user_entry t)
    (user_stack t) (is_idle t) (cpu_ticks t) (wake_at t) (next t) (cont t).
Definition with_ticks (z : Z) (t : thread) : thread :=
  Thread (tid t) (proc t) (state t) (wait_reason t) (kernel_stack t) (kernel_stack_size t) (rsp t) (user_entry t)
    (user_stack t) (is_idle t) z (wake_at t) (next t) (cont t).
Definition with_cont (k : continuation) (t : thread) : thread :=
  Thread (tid t) (proc t) (state t) (wait_reason t) (kernel_stack t) (kernel_stack_size t) (rsp t) (user_entry t)
    (user_stack t) (is_idle t) (cpu_ticks t) (wake_at t) (next t) k.
Definition idle_running (t : thread) : thread :=
  Thread (tid t) (proc t) THREAD_RUNNING (wait_reason t) (kernel_stack t) (kernel_stack_size t) (rsp t) (user_entry t)
    (user_stack t) true (cpu_ticks t) (wake_at t) (next t) (cont t).
Definition with_p_ticks (z : Z) (p : process) : process :=
  Process (pid p) (used p) (space p) (uid p) (seat p) (seat_pending p) (term_rows p) (term_cols p) (own_terminal p) z
    (stack_bytes p) (parent p) (exited p) (killed p) (exit_status p) (p_thread p) (thread_count p).

(** The processor that runs the code; one that has not joined cannot. *)
Definition smp_this (c : nat) (s : sys) : out smpcpu :=
  match cpus s !! c with Some k => Done k | None => Fault end.

(** ** The run queue *)

Definition sched_add (t : nat) (s : sys) : sys :=
  match run_queue s with
  | None => set_run_queue (Some t) (on_thread t (with_next (Some t)) s)
  | Some h =>
      let s := on_thread t (with_next (next (thr s h))) s in
      on_thread h (with_next (Some t)) s
  end.

(** The do-while loop of sched_remove(), from [prev] on. *)
Fixpoint remove_loop (fuel : nat) (t h prev : nat) (s : sys) : out sys :=
  match fuel with
  | O => Spent
  | S fuel =>
      match next (thr s prev) with
      | None => Fault
      | Some n =>
          if decide (n = t) then
            let s := on_thread prev (with_next (next (thr s t))) s in
            let s := if decide (h = t)
                     then set_run_queue (if decide (next (thr s t) = Some t) then None else next (thr s t)) s
                     else s in
            Done (on_thread t (with_next None) s)
          else if decide (n = h) then Done s
          else remove_loop fuel t h n s
      end
  end.

Definition sched_remove (t : nat) (s : sys) : out sys :=
  match run_queue s with
  | None => Done s
  | Some h => remove_loop MAX_THREADS t h h s
  end.

Definition sched_adopt_idle (c t : nat) (s : sys) : sys :=
  let k := cpus s !! c in
  let s := set_cpu c (Cpu t t (from_option cpu_space KSpace k) (from_option tss_stack 0 k) (from_option sp 0 k)
                        (k ≫= switching)) s in
  sched_add t (on_thread t idle_running s).

Definition sched_init (c t : nat) (s : sys) : sys := set_active true (sched_adopt_idle c t s).

(** ** Choosing a thread *)

(** The loop of pick_next() from [t] on; [None] when it ran its course. *)
Fixpoint pick_loop (tries : nat) (h : nat) (from t : nat) (s : sys) : option nat :=
  match tries with
  | O => None
  | S tries =>
      if negb (is_idle (thr s t)) && bool_decide (state (thr s t) = THREAD_READY) then Some t
      else if bool_decide (t = from) && bool_decide (state (thr s t) = THREAD_RUNNING) then Some t
      else pick_loop tries h from (default h (next (thr s t))) s
  end%bool.

Definition pick_next (this_idle from : nat) (s : sys) : nat :=
  match run_queue s with
  | None => this_idle
  | Some h => default this_idle (pick_loop (MAX_THREADS + 1) h from (default h (next (thr s from))) s)
  end.

(** paging_switch() of schedule(): the process's tables, or the kernel's. *)
Definition space_of (s : sys) (t : nat) : aspace :=
  match proc (thr s t) with
  | Some p => default KSpace (space (process_at s p))
  | None => KSpace
  end.

(** schedule() from [next] chosen to the point where the lock is given up. *)
Definition switch_to (c prev next : nat) (k : smpcpu) (s : sys) : sys :=
  let s := if decide (state (thr s prev) = THREAD_RUNNING) then on_thread prev (with_state THREAD_READY) s else s in
  let s := on_thread next (with_state THREAD_RUNNING) s in
  set_cpu c (Cpu next (idle k) (space_of s next) (kernel_stack (thr s next) + kernel_stack_size (thr s next)) (sp k)
               (Some (prev, tid (thr s prev), next))) s.

Definition schedule (c : nat) (s : sys) : out sys :=
  if negb (active s) then Done s else
  k ← smp_this c s;
  let prev := current k in
  let next := pick_next (idle k) prev s in
  if decide (next = prev) then
    if decide (state (thr s prev) = THREAD_RUNNING) then Done s
    else if decide (idle k = prev) then Done s
    else Done (switch_to c prev (idle k) k s)
  else Done (switch_to c prev next k s).

(** No processor other than [c] is on the stack of [t]. *)
Definition stack_free (c t : nat) (s : sys) : Prop := map_Forall (fun c' k => c' = c \/ stack_in_use k <> t) (cpus s).

#[export] Instance stack_free_dec c t s : Decision (stack_free c t s).
Proof. apply map_Forall_dec. intros c' k. apply _. Defined.

(** [prev] is still the thread numbered [id]: its kernel stack was not given
    back. *)
Definition still_there (prev : nat) (id : Z) (s : sys) : Prop :=
  state (thr s prev) <> THREAD_UNUSED /\ tid (thr s prev) = id.

(** switch_context(), of src/kernel/proc/switch.S: [at_sp] is the stack pointer
    with the registers pushed.  It saves this pointer in [prev] and goes on from
    the one saved in [next].  Where [next] goes on is its [cont] only if the
    pointer is the one of its last switch; while another processor is still on
    the stack of [next], having left it and not saved the pointer, the one found
    is of the time before and what is run is not known: [Fault].  The same when
    the stack of [prev], on which this code runs, was freed meanwhile. *)
Definition switch_context (c : nat) (at_sp : Z) (s : sys) : out sys :=
  k ← smp_this c s;
  match switching k with
  | None => Fault
  | Some (prev, id, next) =>
      if negb (bool_decide (still_there prev id s)) then Fault
      else if negb (bool_decide (stack_free c next s)) then Fault
      else
      let s := on_thread prev (with_rsp at_sp) s in
      Done (set_cpu c (Cpu (current k) (idle k) (cpu_space k) (tss_stack k) (rsp (thr s next)) None) s)
  end.

Definition sched_current_is_idle (c : nat) (s : sys) : bool :=
  match cpus s !! c with
  | Some k => active s && bool_decide (current k = idle k)
  | None => false
  end%bool.

Definition sched_yield (c : nat) (s : sys) : out sys := schedule c s.

(** ** Waiting *)

(** sched_block() and sched_block_until() up to schedule(); [k] is what the
    thread does when it is back.  Before the scheduler is active they halt
    instead, which changes nothing. *)
Definition block_on (c : nat) (r : wait_reason_t) (until_tick : Z) (kont : continuation) (s : sys) : out sys :=
  if negb (active s) then Done s else
  k ← smp_this c s;
  schedule c (on_thread (current k) (fun t => with_cont kont (with_wait THREAD_BLOCKED r until_tick t)) s).

Definition sched_block (c : nat) (r : wait_reason_t) (s : sys) : out sys := block_on c r 0 InBlock s.

Definition sched_block_until (c : nat) (r : wait_reason_t) (until_tick : Z) (s : sys) : out sys :=
  block_on c r (if until_tick =? 0 then 1 else until_tick) InBlock s.

Definition sched_sleep_until (c : nat) (until_tick : Z) (s : sys) : out sys :=
  sched_block_until c WAIT_TIME until_tick s.

(** The walk round the queue that sched_wake() and wake_expired() make. *)
Fixpoint wake_loop (p : thread -> bool) (fuel : nat) (h t : nat) (s : sys) : out sys :=
  match fuel with
  | O => Spent
  | S fuel =>
      let s := if p (thr s t) then on_thread t (fun x => with_wait THREAD_READY WAIT_NONE (wake_at x) x) s else s in
      match next (thr s t) with
      | None => Fault
      | Some n => if decide (n = h) then Done s else wake_loop p fuel h n s
      end
  end.

Definition wake_queue (p : thread -> bool) (s : sys) : out sys :=
  match run_queue s with
  | None => Done s
  | Some h => wake_loop p MAX_THREADS h h s
  end.

Definition waits_for (r : wait_reason_t) (t : thread) : bool :=
  bool_decide (state t = THREAD_BLOCKED) && bool_decide (wait_reason t = r).

Definition sched_wake (r : wait_reason_t) (s : sys) : out sys := wake_queue (waits_for r) s.

Definition expired (now : Z) (t : thread) : bool :=
  bool_decide (state t = THREAD_BLOCKED) && negb (wake_at t =? 0) && (0 <=? i32 (now - wake_at t)).

Definition wake_expired (now : Z) (s : sys) : out sys := wake_queue (expired now) s.

(** Charging the tick to the thread and to the process behind it. *)
Definition charge_tick (t : nat) (s : sys) : sys :=
  let s := on_thread t (fun x => with_ticks (u64 (cpu_ticks x + 1)) x) s in
  match proc (thr s t) with
  | Some p => on_process p (fun x => with_p_ticks (u64 (p_cpu_ticks x + 1)) x) s
  | None => s
  end.

End Sched.
