(* ===== verification/Proc.v ===== *)
(** * Processes

    src/kernel/proc/proc.c on the state of [Sched]: the process table and the
    thread table, starting, ending, killing and reaping processes, the size of
    terminals, and what of sched.c calls into it (the timer tick, and what a
    thread does when it comes out of a wait).

    What the loader, the heap and the page tables answer to proc_spawn_io() is
    its argument ([loaded]); descriptors are in [Fds].  The calls proc_exit() and
    teardown() make into other parts are recorded in [log]. *)

From S2P Require Import Prelude Ring Sched.

Module Proc.
Import Sched.

Definition W_CONSOLE_WIDTH : Z := 80.
Definition W_CONSOLE_HEIGHT : Z := 50.
Definition KERNEL_STACK_SIZE : Z := 16384.
Definition USER_STACK_SIZE : Z := 65536.

(** ** Looking up *)

Definition proc_current (c : nat) (s : sys) : out pref :=
  match cpus s !! c with
  | Some k => match proc (thr s (current k)) with Some p => Done p | None => Fault end
  | None => Done KProc
  end.

(** The first slot of a table of [n] that satisfies [f]. *)
Definition first_slot (n : nat) (f : nat -> bool) : option nat := List.find f (seq 0 n).

Definition proc_by_pid (p : Z) (s : sys) : option nat :=
  first_slot MAX_PROCESSES (fun i => used (processes s !!! i) && (pid (processes s !!! i) =? p))%bool.

(** ** Terminals *)

Definition with_size (rows cols : Z) (p : process) : process :=
  Process (pid p) (used p) (space p) (uid p) (seat p) (seat_pending p) (if rows =? 0 then term_rows p else rows)
    (if cols =? 0 then term_cols p else cols) (own_terminal p) (p_cpu_ticks p) (stack_bytes p) (parent p) (exited p)
    (killed p) (exit_status p) (p_thread p) (thread_count p).
Definition with_own_terminal (p : process) : process :=
  Process (pid p) (used p) (space p) (uid p) (seat p) (seat_pending p) (term_rows p) (term_cols p) true (p_cpu_ticks p)
    (stack_bytes p) (parent p) (exited p) (killed p) (exit_status p) (p_thread p) (thread_count p).

(** A child that shares the terminal of [p]. *)
Definition same_terminal (p : pref) (child : process) : bool :=
  used child && bool_decide (parent child = Some p) && negb (own_terminal child).

Fixpoint resize_children (depth : nat) (p : pref) (rows cols : Z) (s : sys) : out sys :=
  match depth with
  | O => Spent
  | S depth =>
      foldl (fun acc i =>
        s ← acc;
        if same_terminal p (processes s !!! i)
        then resize_children depth (Sched.Proc i) rows cols (on_process (Sched.Proc i) (with_size rows cols) s)
        else Done s) (Done s) (seq 0 MAX_PROCESSES)
  end.

Definition proc_resize_terminal (p : pref) (rows cols : Z) (s : sys) : out sys :=
  let s := on_process p (with_size rows cols) s in
  let s := on_process p with_own_terminal s in
  resize_children (S MAX_PROCESSES) p rows cols s.

(** sys_setsize(), of src/kernel/proc/syscall.c. *)
Definition sys_setsize (c : nat) (of_pid rows cols : Z) (s : sys) : out (Z * sys) :=
  match proc_by_pid (i32 of_pid) s with
  | None => Done (- W_ESRCH, s)
  | Some i =>
      me ← proc_current c s;
      if decide (parent (processes s !!! i) = Some me) then
        s ← proc_resize_terminal (Sched.Proc i) (if 0 <? i32 rows then u32 rows else 0) (if 0 <? i32 cols then u32 cols else 0) s;
        Done (0, s)
      else Done (- W_EPERM, s)
  end.

(** ** Slots *)

Definition fresh_process (id : Z) : process :=
  Process id true None 0 false false W_CONSOLE_HEIGHT W_CONSOLE_WIDTH false 0 0 None false false 0 None 0.

Definition proc_alloc (s : sys) : option (nat * sys) :=
  i ← first_slot MAX_PROCESSES (fun i => negb (used (processes s !!! i)));
  Some (i, set_ids (i32 (next_pid s + 1)) (next_tid s) (on_process (Sched.Proc i) (fun _ => fresh_process (next_pid s)) s)).

Definition fresh_thread (id : Z) : thread :=
  Thread id None THREAD_UNUSED WAIT_NONE 0 0 0 0 0 false 0 0 None ToUser.

Definition thread_alloc (s : sys) : option (nat * sys) :=
  t ← first_slot MAX_THREADS (fun t => bool_decide (state (thr s t) = THREAD_UNUSED));
  Some (t, set_ids (next_pid s) (i32 (next_tid s + 1)) (on_thread t (fun _ => fresh_thread (next_tid s)) s)).

(** ** Start-up *)

Definition with_home (p : pref) (base size : Z) (idle : bool) (t : thread) : thread :=
  Thread (tid t) (Some p) THREAD_RUNNING (wait_reason t) base size (rsp t) (user_entry t) (user_stack t)
    idle (cpu_ticks t) (wake_at t) (next t) (cont t).

(** The kernel's process before its thread. *)
Definition boot_process : process :=
  Process 0 true (Some KSpace) 0 false false W_CONSOLE_HEIGHT W_CONSOLE_WIDTH false 0 0 None false false 0 None 0.

Definition with_thread (t : nat) (p : process) : process :=
  Process (pid p) (used p) (space p) (uid p) (seat p) (seat_pending p) (term_rows p) (term_cols p) (own_terminal p)
    (p_cpu_ticks p) (stack_bytes p) (parent p) (exited p) (killed p) (exit_status p) (Some t) 1.

Definition proc_init (boot_stack_top : Z) (s : sys) : out sys :=
  let s := set_processes (replicate MAX_PROCESSES zero_process) s in
  let s := set_threads (replicate MAX_THREADS zero_thread) s in
  let s := set_kernel_proc boot_process s in
  match thread_alloc s with
  | None => Fault
  | Some (t, s) =>
      let s := on_thread t (with_home KProc (boot_stack_top - 16384) 16384 false) s in
      let s := set_kernel_proc (with_thread t (kernel_proc s)) s in
      Done (sched_init 0 t s)
  end.

Definition proc_make_idle_thread (stack_base stack_size : Z) (s : sys) : option (nat * sys) :=
  '(t, s) ← thread_alloc s;
  Some (t, on_thread t (with_home KProc stack_base stack_size true) s).

(** smp_ap_entry(), of src/kernel/arch/smp.c, between taking the lock and giving
    it back: processor [c] joins. *)
Definition smp_ap_join (c : nat) (stack : Z) (s : sys) : sys :=
  match proc_make_idle_thread stack 16384 s with
  | None => s
  | Some (t, s) => sched_adopt_idle c t s
  end.

(** ** Ending *)

Definition with_exit (status : Z) (p : process) : process :=
  Process (pid p) (used p) (space p) (uid p) (seat p) (seat_pending p) (term_rows p) (term_cols p) (own_terminal p)
    (p_cpu_ticks p) (stack_bytes p) (parent p) true (killed p) status (p_thread p) (thread_count p).
Definition with_killed (p : process) : process :=
  Process (pid p) (used p) (space p) (uid p) (seat p) (seat_pending p) (term_rows p) (term_cols p) (own_terminal p)
    (p_cpu_ticks p) (stack_bytes p) (parent p) (exited p) true (exit_status p) (p_thread p) (thread_count p).

Definition proc_exit (c : nat) (status : Z) (s : sys) : out sys :=
  p ← proc_current c s;
  k ← smp_this c s;
  if decide (p = KProc) then Fault else
  let s := record (ShmUnmapAll p) (record (VfsCloseAll p) s) in
  let s := record (DisplayRelease (pid (process_at s p))) s in
  let s := on_process p (with_exit status) s in
  let s := record (ServiceReap (pid (process_at s p)) status) s in
  let s := on_thread (current k) (fun t => with_cont InExit (with_state THREAD_ZOMBIE t)) s in
  s ← sched_wake WAIT_CHILD s;
  schedule c s.

(** The loop of proc_kill() over the threads. *)
Definition unblock (p : pref) (s : sys) (t : nat) : sys :=
  if (bool_decide (proc (thr s t) = Some p) && bool_decide (state (thr s t) = THREAD_BLOCKED))%bool
  then on_thread t (with_wait THREAD_READY WAIT_NONE 0) s else s.

Definition unblock_threads (p : pref) (s : sys) : sys := foldl (unblock p) s (seq 0 MAX_THREADS).

Definition proc_kill (p : Z) (s : sys) : Z * sys :=
  match proc_by_pid p s with
  | None => (- W_ESRCH, s)
  | Some i =>
      if exited (processes s !!! i) then (- W_ESRCH, s)
      else (0, unblock_threads (Sched.Proc i) (on_process (Sched.Proc i) with_killed s))
  end.

Definition proc_should_exit (c : nat) (s : sys) : out bool :=
  p ← proc_current c s;
  Done (killed (process_at s p) && negb (exited (process_at s p)))%bool.

(** ** Reaping *)

Definition reapable (s : sys) (c : process) : bool :=
  exited c && match p_thread c with
              | None => true
              | Some t => bool_decide (state (thr s t) = THREAD_ZOMBIE)
              end.

Definition with_gone (th : option nat) (sp : option aspace) (u : bool) (p : process) : process :=
  Process (pid p) u sp (uid p) (seat p) (seat_pending p) (term_rows p) (term_cols p) (own_terminal p)
    (p_cpu_ticks p) (stack_bytes p) (parent p) (exited p) (killed p) (exit_status p) th (thread_count p).

Definition teardown_thread (i t : nat) (s : sys) : out sys :=
  s ← sched_remove t s;
  let s := if kernel_stack (thr s t) =? 0 then s else record (FreeStack (kernel_stack (thr s t))) s in
  let s := on_thread t (with_state THREAD_UNUSED) s in
  Done (on_process (Sched.Proc i) (fun p => with_gone None (space p) (used p) p) s).

Definition teardown (i : nat) (s : sys) : out sys :=
  s ← (match p_thread (processes s !!! i) with Some t => teardown_thread i t s | None => Done s end);
  let s := match space (processes s !!! i) with
           | Some a => on_process (Sched.Proc i) (fun p => with_gone (p_thread p) None (used p) p) (record (FreeSpace a) s)
           | None => s
           end in
  Done (on_process (Sched.Proc i) (fun p => with_gone (p_thread p) (space p) false p) s).

(** What the test at the head of the loop of reap_one() lets through. *)
Definition child_of (par : pref) (of_pid : Z) (p : process) : bool :=
  used p && bool_decide (parent p = Some par) && negb ((0 <? of_pid) && negb (pid p =? of_pid)).

(** reap_one(): its result, the status it stores, [any_children]. *)
Fixpoint reap_loop (par : pref) (of_pid : Z) (slots : list nat) (any : bool) (s : sys) : out (Z * Z * bool * sys) :=
  match slots with
  | [] => Done (- W_ECHILD, 0, any, s)
  | i :: slots =>
      let c := processes s !!! i in
      if negb (child_of par of_pid c) then reap_loop par of_pid slots any s
      else if negb (reapable s c) then reap_loop par of_pid slots true s
      else s ← teardown i s; Done (pid c, exit_status c, true, s)
  end.

Definition reap_one (par : pref) (of_pid : Z) (s : sys) : out (Z * Z * bool * sys) :=
  reap_loop par of_pid (seq 0 MAX_PROCESSES) false s.

Definition proc_reap (c : nat) (s : sys) : out (Z * Z * sys) :=
  me ← proc_current c s;
  '(r, status, _, s) ← reap_one me (-1) s;
  Done (r, status, s).

(** One turn of the loop of proc_wait(): an answer, or none and the thread has
    gone to sleep. *)
Definition proc_wait (c : nat) (of_pid : Z) (s : sys) : out (option (Z * Z) * sys) :=
  par ← proc_current c s;
  '(r, status, any, s) ← reap_one par of_pid s;
  if 0 <=? r then Done (Some (r, status), s)
  else if negb any then Done (Some (- W_ECHILD, 0), s)
  else s ← block_on c WAIT_CHILD 0 (InWait of_pid) s; Done (None, s).

Fixpoint orphans_loop (me : pref) (keep : Z) (slots : list nat) (n : Z) (s : sys) : out (Z * sys) :=
  match slots with
  | [] => Done (n, s)
  | i :: slots =>
      let c := processes s !!! i in
      if (negb (used c) || negb (bool_decide (parent c = Some me)) || negb (reapable s c)
          || ((0 <? keep) && (pid c =? keep)))%bool
      then orphans_loop me keep slots n s
      else s ← teardown i s; orphans_loop me keep slots (n + 1) s
  end.

Definition proc_reap_orphans (c : nat) (keep : Z) (s : sys) : out (Z * sys) :=
  me ← proc_current c s;
  orphans_loop me keep (seq 0 MAX_PROCESSES) 0 s.

(** ** Starting *)

(** [struct spawn_io] as far as it matters here. *)
Record spawn_io := SpawnIo { piped : bool; io_rows : Z; io_cols : Z }.

(** What the calls of proc_spawn_io() into other parts return: vfs_read_file(),
    paging_new_addrspace(), kmalloc() of the kernel stack, elf_load(), the
    mapping of the user stack (0 or an error), the entry point and the stack
    pointer. *)
Record loaded := Loaded {
  read_result : Z;
  new_space : option Z;
  stack_at : Z;
  load_result : Z;
  map_result : Z;
  entry : Z;
  user_rsp : Z }.

Definition with_birth (sp : Z) (par : pref) (pp : process) (io : option spawn_io) (p : process) : process :=
  let own := match io with
             | Some io => piped io && (negb (io_rows io =? 0) || negb (io_cols io =? 0))
             | None => false
             end%bool in
  let rows := match io with Some io => if piped io && negb (io_rows io =? 0) then io_rows io else term_rows pp | None => term_rows pp end%bool in
  let cols := match io with Some io => if piped io && negb (io_cols io =? 0) then io_cols io else term_cols pp | None => term_cols pp end%bool in
  Process (pid p) (used p) (Some (Space sp)) (uid pp) (seat_pending pp || seat p)%bool (seat_pending p) rows cols own
    (p_cpu_ticks p) (stack_bytes p) (Some par) (exited p) (killed p) (exit_status p) (p_thread p) (thread_count p).
Definition without_grant (p : process) : process :=
  Process (pid p) (used p) (space p) (uid p) (seat p) false (term_rows p) (term_cols p) (own_terminal p)
    (p_cpu_ticks p) (stack_bytes p) (parent p) (exited p) (killed p) (exit_status p) (p_thread p) (thread_count p).
Definition with_stack_bytes (z : Z) (p : process) : process :=
  Process (pid p) (used p) (space p) (uid p) (seat p) (seat_pending p) (term_rows p) (term_cols p) (own_terminal p)
    (p_cpu_ticks p) z (parent p) (exited p) (killed p) (exit_status p) (p_thread p) (thread_count p).
Definition with_unused (p : process) : process := with_gone (p_thread p) (space p) false p.

Definition with_kernel_stack (p : pref) (base : Z) (t : thread) : thread :=
  Thread (tid t) (Some p) (state t) (wait_reason t) base KERNEL_STACK_SIZE (rsp t) (user_entry t) (user_stack t)
    (is_idle t) (cpu_ticks t) (wake_at t) (next t) (cont t).
(** thread_prime_stack(): nine words below the top of the stack. *)
Definition primed (e u : Z) (t : thread) : thread :=
  Thread (tid t) (proc t) THREAD_READY (wait_reason t) (kernel_stack t) (kernel_stack_size t)
    (kernel_stack t + kernel_stack_size t - 72) e u (is_idle t) (cpu_ticks t) (wake_at t) (next t) (cont t).

(** The thread is complete: load the program, and queue it or drop it. *)
Definition spawn_load (i t : nat) (l : loaded) (s : sys) : Z * sys :=
  let me := Sched.Proc i in
  let s := on_process me (with_thread t) s in
  let s := if load_result l =? 0 then on_process me (with_stack_bytes USER_STACK_SIZE) s else s in
  let r := if load_result l =? 0 then map_result l else load_result l in
  if r <? 0 then
    let s := record (FreeStack (stack_at l)) s in
    let s := match space (process_at s me) with Some a => record (FreeSpace a) s | None => s end in
    let s := on_thread t (with_state THREAD_UNUSED) s in
    (r, on_process me with_unused s)
  else
    let s := on_thread t (primed (entry l) (user_rsp l)) s in
    (pid (process_at s me), sched_add t s).

Definition proc_spawn_io (par : pref) (io : option spawn_io) (l : loaded) (s : sys) : Z * sys :=
  if read_result l <? 0 then (read_result l, s) else
  match proc_alloc s with
  | None => (- W_ENOMEM, s)
  | Some (i, s) =>
      let me := Sched.Proc i in
      match thread_alloc s with
      | None => (- W_ENOMEM, on_process me with_unused s)
      | Some (t, s) =>
          match new_space l with
          | None => (- W_ENOMEM, on_process me with_unused s)
          | Some a =>
              let s := on_process me (with_birth a par (process_at s par) io) s in
              let s := on_process par without_grant s in
              let s := on_thread t (with_kernel_stack me (stack_at l)) s in
              if stack_at l =? 0 then (- W_ENOMEM, on_process me with_unused (record (FreeSpace (Space a)) s))
              else spawn_load i t l s
          end
      end
  end.

(** ** Coming back to the kernel *)

(** sched_tick(), of src/kernel/proc/sched.c; [ring3]: the tick interrupted a
    program. *)
Definition sched_tick (c : nat) (ring3 : bool) (s : sys) : out sys :=
  if negb (active s) then Done s else
  k ← smp_this c s;
  s ← wake_expired (pit_ticks s) (charge_tick (current k) s);
  leave ← proc_should_exit c s;
  if (ring3 && leave)%bool then proc_exit c (-1) s else schedule c s.

(** A thread behind the schedule() it called, once it is running again.  The
    answer is what a proc_wait() gives its caller. *)
Definition resume (c : nat) (s : sys) : out (option (Z * Z) * sys) :=
  k ← smp_this c s;
  let t := current k in
  let back := on_thread t (with_cont ToUser) s in
  leave ← proc_should_exit c s;
  match cont (thr s t) with
  | ToUser => Done (None, s)
  | InExit => Fault
  | InBlock => if (leave : bool) then s ← proc_exit c (-1) back; Done (None, s) else Done (None, back)
  | InWait of_pid => if (leave : bool) then s ← proc_exit c (-1) back; Done (None, s) else proc_wait c of_pid back
  end.

End Proc.
