(* ===== verification/SchedSpec.v ===== *)
(** * The scheduler: lemmas

    The run queue as a list ([ring]), what [pick_next] returns, and the
    invariant [sched_ok] of threads, queue and processors with its preservation
    by every operation of [Sched]. *)

From S2P Require Import Prelude Ring Sched.

Module SchedSpec.
Import Sched.

(** ** Rings

    [cyc nx q]: following [nx] from any member of [q] leads to the one behind it
    and from the last to the first. *)

Definition cyc (nx : nat -> option nat) (q : list nat) : Prop :=
  forall l1 x l2, q = l1 ++ x :: l2 -> nx x = head (l2 ++ q).

Lemma head_app_cons {A} (l : list A) x k m : head (l ++ (x :: k) ++ m) = head (l ++ x :: k).
Proof. by destruct l. Qed.

Lemma cyc_rotate nx l k : cyc nx (l ++ k) -> cyc nx (k ++ l).
Proof.
  intros Hc l1 x l2 E. apply app_eq_app in E as (m & [[-> Em] | [-> ->]]).
  - destruct m as [| y m]; cbn in Em.
    + subst l. rewrite !app_nil_r in *. rewrite (Hc [] x (l2 ++ l1)) by done.
      by destruct l2, l1.
    + injection Em as <- ->. rewrite (Hc (l ++ l1) x m) by by rewrite <- !app_assoc.
      rewrite <- !app_assoc. destruct m, l, l1; done.
  - rewrite (Hc m x (l2 ++ k)) by by rewrite <- app_assoc. rewrite <- !app_assoc.
    destruct l2; [| done]. cbn. destruct k; [| done]. cbn. by destruct m.
Qed.

Lemma cyc_ext nx nx' q : cyc nx q -> (forall x, x ∈ q -> nx' x = nx x) -> cyc nx' q.
Proof. intros Hc He l1 x l2 E. rewrite He; [by eapply Hc |]. subst q. set_solver. Qed.

(** From any member the ring can be read as starting there. *)
Lemma ring_from nx q x : cyc nx q -> x ∈ q -> exists l1 l2, q = l1 ++ x :: l2 /\ cyc nx (x :: l2 ++ l1).
Proof.
  intros Hc Hx. apply list_elem_of_split in Hx as (l1 & l2 & ->). exists l1, l2. split; [done |].
  apply (cyc_rotate _ l1 (x :: l2) Hc).
Qed.

Lemma cyc_next_in nx q x : cyc nx q -> x ∈ q -> exists y, nx x = Some y /\ y ∈ q.
Proof.
  intros Hc Hx. apply list_elem_of_split in Hx as (l1 & l2 & E). rewrite (Hc l1 x l2 E).
  destruct l2 as [| y l2]; cbn.
  - destruct q as [| y q]; [by destruct l1 |]. exists y. split; [done | set_solver].
  - exists y. split; [done | subst q; set_solver].
Qed.

(** Insertion behind a member. *)
Lemma cyc_insert nx nx' x t l : cyc nx (x :: l) -> NoDup (x :: l) -> t ∉ x :: l ->
  nx' x = Some t -> nx' t = nx x -> (forall y, y ∈ l -> nx' y = nx y) -> cyc nx' (x :: t :: l).
Proof.
  intros Hc Hnd Ht Hx Hnt He l1 y l2 E. destruct l1 as [| a l1]; cbn in E; [by simplify_eq |].
  injection E as <- E. destruct l1 as [| b l1]; cbn in E.
  - injection E as <- <-. rewrite Hnt, (Hc [] x l); [| done]. by destruct l.
  - injection E as <- ->. rewrite He by set_solver. rewrite (Hc (x :: l1) y l2) by done. by destruct l2.
Qed.

(** Removal of the one behind a member. *)
Lemma cyc_remove nx nx' x t l : cyc nx (x :: t :: l) -> NoDup (x :: t :: l) ->
  nx' x = nx t -> (forall y, y ∈ l -> nx' y = nx y) -> cyc nx' (x :: l).
Proof.
  intros Hc Hnd Hx He l1 y l2 E. destruct l1 as [| a l1]; cbn in E.
  - injection E as <- <-. rewrite Hx, (Hc [x] t l) by done. by destruct l.
  - injection E as <- ->. rewrite He by set_solver. rewrite (Hc (x :: t :: l1) y l2) by done. by destruct l2.
Qed.

(** ** Reading updated states *)

Lemma thr_on_thread s t f u : (t < length (threads s))%nat ->
  thr (on_thread t f s) u = if decide (u = t) then f (thr s t) else thr s u.
Proof.
  intros Ht. unfold thr, on_thread. cbn [threads set_threads]. case_decide as Eu.
  - subst u. by rewrite list_lookup_total_alter_eq.
  - by rewrite list_lookup_total_alter_ne.
Qed.

Lemma length_on_thread s t f : length (threads (on_thread t f s)) = length (threads s).
Proof. unfold on_thread. cbn. apply length_alter. Qed.

Lemma thr_beyond s t : (length (threads s) <= t)%nat -> thr s t = zero_thread.
Proof. intros H. unfold thr. by rewrite list_lookup_total_alt, lookup_ge_None_2. Qed.

Definition nx (s : sys) (t : nat) : option nat := next (thr s t).

(** ** What pick_next() returns *)

Definition eligible (s : sys) (t : nat) : bool :=
  negb (is_idle (thr s t)) && bool_decide (state (thr s t) = THREAD_READY).

(** Reference definition: the first thread behind [x] that waits for a
    processor, in the order of the queue; failing that [x] itself if it can go
    on; failing that the idle thread. *)
Definition choice (s : sys) (idl x : nat) (l : list nat) : nat :=
  match List.find (eligible s) l with
  | Some y => y
  | None => if (eligible s x || bool_decide (state (thr s x) = THREAD_RUNNING))%bool then x else idl
  end.

Lemma pick_loop_walk s h x l l1 l2 tries : cyc (nx s) (x :: l) -> NoDup (x :: l) -> l = l1 ++ l2 ->
  (length l2 < tries)%nat ->
  pick_loop tries h x (default x (head l2)) s =
    match List.find (eligible s) l2 with
    | Some y => Some y
    | None => if (eligible s x || bool_decide (state (thr s x) = THREAD_RUNNING))%bool then Some x
              else pick_loop (tries - length l2 - 1) h x (default x (head l)) s
    end.
Proof.
  intros Hc Hnd. revert l1 tries. induction l2 as [| y l2 IH]; intros l1 tries E Ht; cbn [head default List.find].
  - destruct tries as [| tries]; [cbn in Ht; lia |]. cbn [pick_loop length]. change (id x) with x. unfold eligible.
    rewrite (bool_decide_true (x = x)) by done.
    destruct (negb _ && _)%bool; cbn [orb andb]; [done |]. case_bool_decide; [done |].
    replace (S tries - 0 - 1)%nat with tries by lia. f_equal.
    change (next (thr s x)) with (nx s x). rewrite (Hc [] x l) by done. by destruct l.
  - destruct tries as [| tries]; [cbn in Ht; lia |]. cbn [pick_loop length].
    change (id y) with y. fold (eligible s y). destruct (eligible s y); [done |].
    rewrite (bool_decide_false (y = x)) by (intros ->; apply NoDup_cons in Hnd as [[] _]; subst l; set_solver).
    cbn [andb]. change (next (thr s y)) with (nx s y).
    rewrite (Hc (x :: l1) y l2) by by rewrite E.
    replace (default h (head (l2 ++ x :: l))) with (default x (head l2)) by by destruct l2.
    rewrite (IH (l1 ++ [y])); [| by rewrite <- app_assoc | cbn in Ht; lia]. done.
Qed.

Lemma pick_loop_none s h x q tries : cyc (nx s) q ->
  (forall y, y ∈ q -> eligible s y = false) -> state (thr s x) <> THREAD_RUNNING ->
  forall t, t ∈ q -> pick_loop tries h x t s = None.
Proof.
  intros Hc Hel Hx. induction tries as [| tries IH]; intros t Ht; [done |]. cbn [pick_loop].
  change (negb (is_idle (thr s t)) && bool_decide (state (thr s t) = THREAD_READY))%bool with (eligible s t).
  rewrite Hel by done.
  destruct (bool_decide_reflect (t = x)) as [-> |]; [rewrite bool_decide_false by done |]; cbn [andb];
    (destruct (cyc_next_in _ _ _ Hc Ht) as (y & Ey & Hy); unfold nx in Ey; rewrite Ey; cbn; by apply IH).
Qed.

Lemma pick_next_choice s idl h x l : run_queue s = Some h -> cyc (nx s) (x :: l) -> NoDup (x :: l) ->
  (length (x :: l) <= MAX_THREADS)%nat -> pick_next idl x s = choice s idl x l.
Proof.
  intros Hh Hc Hnd Hlen. unfold pick_next. rewrite Hh.
  change (next (thr s x)) with (nx s x). rewrite (Hc [] x l) by done.
  replace (default h (head (l ++ x :: l))) with (default x (head l)) by by destruct l.
  cbn [length] in Hlen. rewrite (pick_loop_walk s h x l [] l) by (done || lia). unfold choice.
  destruct (List.find (eligible s) l) as [y |] eqn:Ef; [done |].
  destruct (eligible s x) eqn:Ex; [done |]. case_bool_decide as Er; [done |]. cbn [orb].
  rewrite (pick_loop_none s h x (x :: l)); [done | done | | done |].
  - intros y [-> | Hy]%elem_of_cons; [done |]. apply List.find_none with (x := y) in Ef; [done |].
    by apply list_elem_of_In.
  - destruct l; set_solver.
Qed.

(** ** The run queue as a list *)

Record queue_ok (q : list nat) (s : sys) : Prop := {
  qo_len : length (threads s) = MAX_THREADS;
  qo_head : run_queue s = head q;
  qo_nodup : NoDup q;
  qo_cyc : cyc (nx s) q;
  qo_range : forall t, t ∈ q -> (t < MAX_THREADS)%nat }.

Lemma nodup_range_length q n : NoDup q -> (forall t, t ∈ q -> (t < n)%nat) -> (length q <= n)%nat.
Proof.
  intros Hnd Hr. rewrite <- (length_seq n 0). apply submseteq_length. apply NoDup_submseteq; [done |].
  intros t Ht. apply elem_of_seq. specialize (Hr t Ht). lia.
Qed.

(** [s'] differs from [s] in its threads at most. *)
Definition only_threads (s s' : sys) : Prop :=
  s' = set_threads (threads s') s /\ length (threads s') = length (threads s).

Lemma only_threads_refl s : only_threads s s.
Proof. by destruct s. Qed.

Lemma only_threads_on_thread s s' t f : only_threads s s' -> only_threads s (on_thread t f s').
Proof.
  intros [E El]. split; [| by rewrite length_on_thread]. rewrite E. by destruct s.
Qed.

Lemma queue_ok_ext q s s' : queue_ok q s -> only_threads s s' -> (forall t, nx s' t = nx s t) -> queue_ok q s'.
Proof.
  intros [H1 H2 H3 H4 H5] [E El] He. split; [by rewrite El | by rewrite E | done | | done].
  apply (cyc_ext (nx s)); [done | intros; apply He].
Qed.

(** The walk of sched_wake() and wake_expired(): exactly the queued threads that
    satisfy the test become ready, and it comes to an end. *)
Definition woken (x : thread) : thread := with_wait THREAD_READY WAIT_NONE (wake_at x) x.

Lemma wake_loop_spec p q h l2 : forall l1 fuel s,
  length (threads s) = MAX_THREADS -> (forall t, t ∈ q -> (t < MAX_THREADS)%nat) -> NoDup q -> head q = Some h ->
  cyc (nx s) q -> q = l1 ++ l2 -> l2 <> [] -> (length l2 <= fuel)%nat ->
  exists s', wake_loop p fuel h (default h (head l2)) s = Done s' /\ only_threads s s' /\
    forall t, thr s' t = if (bool_decide (t ∈ l2) && p (thr s t))%bool then woken (thr s t) else thr s t.
Proof.
  induction l2 as [| x l2 IH]; intros l1 fuel s Hlen Hr Hnd Hh Hc E Hne Hf; [done |].
  destruct fuel as [| fuel]; [cbn in Hf; lia |]. cbn [wake_loop head default]. change (id x) with x.
  assert (Hx : (x < length (threads s))%nat) by (rewrite Hlen; apply Hr; subst q; set_solver).
  set (s1 := if p (thr s x) then _ else s).
  assert (Ht1 : forall t, thr s1 t = if (bool_decide (t = x) && p (thr s t))%bool then woken (thr s t) else thr s t).
  { intros t. unfold s1. destruct (p (thr s x)) eqn:Ep.
    - rewrite thr_on_thread by done. repeat case_decide; simplify_eq; rewrite ?bool_decide_true, ?bool_decide_false by done; try done.
      by rewrite Ep.
    - case_bool_decide; simplify_eq; [by rewrite Ep | done]. }
  assert (Ho1 : only_threads s s1).
  { unfold s1. destruct (p (thr s x)); [apply only_threads_on_thread |]; apply only_threads_refl. }
  assert (Hn1 : forall t, nx s1 t = nx s t). { intros t. unfold nx. rewrite Ht1. by destruct (_ && _)%bool. }
  change (next (thr s1 x)) with (nx s1 x). rewrite Hn1, (Hc l1 x l2 E).
  assert (Hsplit := Hnd). rewrite E in Hsplit. apply NoDup_app in Hsplit as (_ & Hd & Hnd2).
  apply NoDup_cons in Hnd2 as [Hx2 Hnd2].
  destruct l2 as [| y l2]; cbn [head app].
  - rewrite Hh. rewrite decide_True by done. exists s1. split; [done |]. split; [done |]. intros t. rewrite Ht1.
    repeat case_bool_decide; set_solver.
  - rewrite decide_False.
    2:{ intros ->. destruct l1 as [| a l1]; subst q; cbn in Hh; injection Hh as ->.
        - set_solver.
        - apply (Hd h); set_solver. }
    destruct (IH (l1 ++ [x]) fuel s1) as (s' & Es & Ho & Ht);
      [by rewrite (proj2 Ho1) | done | done | done | | by rewrite <- app_assoc | done | cbn in Hf |- *; lia |].
    { apply (cyc_ext (nx s)); [done | intros; apply Hn1]. }
    exists s'. split; [exact Es |]. split.
    + split; [rewrite (proj1 Ho) at 1; by rewrite (proj1 Ho1) at 1 | by rewrite (proj2 Ho), (proj2 Ho1)].
    + intros t. rewrite Ht, Ht1. destruct (decide (t = x)) as [-> |].
      * rewrite (bool_decide_false (x ∈ _)) by done. rewrite bool_decide_true, (bool_decide_true (x ∈ _)) by set_solver.
        done.
      * rewrite (bool_decide_false (t = x)) by done. cbn [andb].
        by rewrite (bool_decide_ext (t ∈ y :: l2) (t ∈ x :: y :: l2)) by set_solver.
Qed.

Lemma wake_queue_spec p q s : queue_ok q s ->
  exists s', wake_queue p s = Done s' /\ only_threads s s' /\
    forall t, thr s' t = if (bool_decide (t ∈ q) && p (thr s t))%bool then woken (thr s t) else thr s t.
Proof.
  intros [H1 H2 H3 H4 H5]. unfold wake_queue. destruct q as [| h l]; rewrite H2; cbn [head].
  - exists s. split; [done |]. split; [apply only_threads_refl |]. intros t. by rewrite bool_decide_false by set_solver.
  - apply (wake_loop_spec p (h :: l) h (h :: l) [] MAX_THREADS s); try done. by apply nodup_range_length.
Qed.

(** Links may change, nothing else in a thread does. *)
Definition relinked (s s' : sys) : Prop := forall u, thr s' u = with_next (nx s' u) (thr s u).

Lemma with_next_same x : with_next (next x) x = x.
Proof. by destruct x. Qed.

Lemma sched_add_spec t h l s : queue_ok (h :: l) s -> t ∉ h :: l -> (t < MAX_THREADS)%nat ->
  queue_ok (h :: t :: l) (sched_add t s) /\ only_threads s (sched_add t s) /\ relinked s (sched_add t s).
Proof.
  intros [H1 H2 H3 H4 H5] Ht Hlt. unfold sched_add. rewrite H2. cbn [head].
  assert (Hh : (h < MAX_THREADS)%nat) by (apply H5; set_solver).
  set (s' := on_thread h _ _).
  assert (Ho : only_threads s s') by apply only_threads_on_thread, only_threads_on_thread, only_threads_refl.
  assert (He : forall u, thr s' u = if decide (u = h) then with_next (Some t) (thr s h)
                                    else if decide (u = t) then with_next (nx s h) (thr s t) else thr s u).
  { intros u. unfold s'. rewrite thr_on_thread, !thr_on_thread by (rewrite ?length_on_thread, H1; done).
    repeat case_decide; simplify_eq; try done; set_solver. }
  split_and!; [split | done |].
  - by rewrite (proj2 Ho).
  - by rewrite (proj1 Ho).
  - apply NoDup_cons in H3 as [Hn H3]. apply NoDup_cons. split; [set_solver |]. apply NoDup_cons. split; [set_solver | done].
  - apply (cyc_insert (nx s)); [done | done | done | | |].
    + unfold nx. rewrite He. by rewrite decide_True by done.
    + unfold nx at 1. rewrite He. rewrite decide_False, decide_True by set_solver. done.
    + intros y Hy. unfold nx. rewrite He. apply NoDup_cons in H3 as [Hn _]. rewrite !decide_False by set_solver. done.
  - intros u Hu. apply elem_of_cons in Hu as [-> | Hu]; [done |]. apply elem_of_cons in Hu as [-> | Hu]; [done |].
    apply H5. set_solver.
  - intros u. unfold nx at 1. rewrite He. repeat case_decide; simplify_eq; try done. by rewrite with_next_same.
Qed.

Lemma filter_ne_id (t : nat) (l : list nat) : t ∉ l -> filter (fun u => u <> t) l = l.
Proof.
  induction l as [| x l IH]; intros Ht; [done |]. rewrite filter_cons_True by set_solver. f_equal. apply IH. set_solver.
Qed.

(** The loop of sched_remove() gets to the thread [p] before [t]. *)
Lemma remove_walk t q h p r s l1 : forall l0 fuel,
  cyc (nx s) q -> q = l0 ++ l1 ++ p :: r -> (forall y, y ∈ tail (l1 ++ [p]) -> y <> t /\ y <> h) ->
  remove_loop (length l1 + fuel) t h (default p (head l1)) s = remove_loop fuel t h p s.
Proof.
  induction l1 as [| x l1 IH]; intros l0 fuel Hc E Hne; [done |]. cbn [length Nat.add head default remove_loop].
  change (next (thr s (id x))) with (nx s x).
  assert (Hx : nx s x = Some (default p (head l1))).
  { rewrite (Hc l0 x (l1 ++ p :: r)) by done. by destruct l1. }
  assert (Hy : default p (head l1) ∈ tail ((x :: l1) ++ [p])) by (destruct l1; set_solver).
  destruct (Hne _ Hy) as [Ht Hh]. rewrite Hx. rewrite !decide_False by done.
  apply (IH (l0 ++ [x])); [done | by rewrite <- app_assoc |]. intros y Hin. apply Hne. cbn [app tail].
  destruct l1; [set_solver | cbn in Hin; set_solver].
Qed.

(** What it does there. *)
Lemma remove_at t h p l s fuel : length (threads s) = MAX_THREADS -> cyc (nx s) (p :: t :: l) -> NoDup (p :: t :: l) ->
  (p < MAX_THREADS)%nat -> (t < MAX_THREADS)%nat ->
  exists s', remove_loop (S fuel) t h p s = Done s' /\ length (threads s') = MAX_THREADS /\
    s' = set_run_queue (if decide (h = t) then head (l ++ [p]) else run_queue s) (set_threads (threads s') s) /\
    relinked s s' /\ cyc (nx s') (p :: l).
Proof.
  intros Hlen Hc Hnd Hp Ht. cbn [remove_loop]. change (next (thr s p)) with (nx s p).
  rewrite (Hc [] p (t :: l)) by done. cbn [head app]. rewrite decide_True by done.
  assert (Hpt : p <> t) by (apply NoDup_cons in Hnd as [Hnd _]; set_solver).
  assert (Hnt : nx s t = head (l ++ [p])). { rewrite (Hc [p] t l) by done. by destruct l. }
  set (s1 := on_thread p _ s).
  assert (E1 : forall u, thr s1 u = if decide (u = p) then with_next (nx s t) (thr s p) else thr s u).
  { intros u. unfold s1. by rewrite thr_on_thread by by rewrite Hlen. }
  assert (En : next (thr s1 t) = head (l ++ [p])). { rewrite E1, decide_False by done. exact Hnt. }
  rewrite En. rewrite (decide_False (P := head (l ++ [p]) = Some t)).
  2:{ destruct l as [| y l]; cbn; intros [= ->]; [done |]. apply NoDup_cons in Hnd as [_ Hnd].
      apply NoDup_cons in Hnd as [Hnd _]. set_solver. }
  eexists. split; [done |].
  assert (E2 : forall u hd, thr (on_thread t (with_next None) (set_run_queue hd s1)) u
                    = if decide (u = t) then with_next None (thr s t) else thr s1 u).
  { intros u hd. rewrite thr_on_thread by (cbn; rewrite length_alter, Hlen; done). case_decide; [| done].
    change (with_next None (thr s1 t) = with_next None (thr s t)). by rewrite E1, decide_False by done. }
  assert (E3 : forall u hd, thr (on_thread t (with_next None) (set_run_queue hd s1)) u =
                  with_next (nx (on_thread t (with_next None) (set_run_queue hd s1)) u) (thr s u)).
  { intros u hd. unfold nx. rewrite E2, E1. repeat case_decide; simplify_eq; try done. by rewrite with_next_same. }
  assert (E4 : (if decide (h = t) then set_run_queue (head (l ++ [p])) s1 else s1)
               = set_run_queue (if decide (h = t) then head (l ++ [p]) else run_queue s) s1).
  { case_decide; [done |]. by destruct s. }
  rewrite E4. split_and!.
  - rewrite length_on_thread. cbn. by rewrite length_alter.
  - by destruct s.
  - intros u. apply E3.
  - apply (cyc_remove (nx s) _ p t l Hc Hnd).
    + unfold nx at 1. rewrite E2, E1. rewrite decide_False, decide_True by done. done.
    + intros y Hy. apply NoDup_cons in Hnd as [Hn1 Hnd]. apply NoDup_cons in Hnd as [Hn2 _].
      unfold nx. rewrite E2, E1. rewrite !decide_False by set_solver. done.
Qed.

Definition without (t : nat) (q : list nat) : list nat := filter (fun u => u <> t) q.

(** What removal promises. *)
Definition removed (t : nat) (q : list nat) (s s' : sys) : Prop :=
  queue_ok (without t q) s' /\ relinked s s' /\ s' = set_run_queue (run_queue s') (set_threads (threads s') s).

(** The head goes: the one before it is the last. *)
Lemma sched_remove_head t m p s : queue_ok (t :: m ++ [p]) s ->
  exists s', sched_remove t s = Done s' /\ removed t (t :: m ++ [p]) s s'.
Proof.
  intros [H1 H2 H3 H4 H5]. unfold sched_remove. rewrite H2. cbn [head].
  assert (Hl : (length (t :: m ++ [p]) <= MAX_THREADS)%nat) by by apply nodup_range_length.
  cbn [length] in Hl. rewrite length_app in Hl. cbn [length] in Hl.
  assert (Hd := H3). apply NoDup_cons in Hd as [Hn2 Hn3].
  assert (Hw := remove_walk t (t :: m ++ [p]) t p [] s (t :: m) [] (MAX_THREADS - length (t :: m)) H4 eq_refl).
  cbn [head default length] in Hw. change (id t) with t in Hw.
  replace (S (length m) + (MAX_THREADS - S (length m)))%nat with MAX_THREADS in Hw by lia.
  rewrite Hw by (cbn [app tail]; intros y Hy; split; intros ->; done).
  destruct (MAX_THREADS - S (length m))%nat as [| f] eqn:Ef; [lia |].
  destruct (remove_at t t p m s f) as (s' & E & El & Es & Hr & Hc'); [done | | | apply H5; set_solver + | apply H5; set_solver + |].
  { apply (cyc_rotate _ (t :: m) [p]). exact H4. }
  { apply (NoDup_Permutation_proper (p :: t :: m) (t :: m ++ [p])); [| done]. solve_Permutation. }
  rewrite decide_True in Es by done.
  assert (Ew : without t (t :: m ++ [p]) = m ++ [p]).
  { unfold without. rewrite filter_cons_False by naive_solver. by rewrite filter_ne_id. }
  exists s'. split; [done |]. unfold removed. rewrite Ew. split_and!; [split | done | by rewrite Es].
  - done.
  - by rewrite Es.
  - done.
  - apply (cyc_rotate _ [p] m Hc').
  - intros u Hu. apply H5. set_solver +Hu.
Qed.

(** One further on goes. *)
Lemma sched_remove_inner t m p r s : queue_ok (m ++ p :: t :: r) s ->
  exists s', sched_remove t s = Done s' /\ removed t (m ++ p :: t :: r) s s'.
Proof.
  intros [H1 H2 H3 H4 H5]. unfold sched_remove.
  assert (Hl : (length (m ++ p :: t :: r) <= MAX_THREADS)%nat) by by apply nodup_range_length.
  rewrite length_app in Hl. cbn [length] in Hl.
  assert (Hd := H3). apply NoDup_app in Hd as (Hm & Hd & Hd2).
  apply NoDup_cons in Hd2 as [Hp Hd2]. apply NoDup_cons in Hd2 as [Ht Hr0].
  assert (Hh : exists h, head (m ++ p :: t :: r) = Some h /\ default p (head m) = h /\ h <> t /\ h ∉ tail (m ++ [p])).
  { destruct m as [| x m]; cbn; [exists p | exists x]; (split_and!; [done | done | |]).
    - set_solver +Hp.
    - set_solver +.
    - set_solver +Hd.
    - apply NoDup_cons in Hm as [Hm _]. set_solver +Hm Hd. }
  destruct Hh as (h & Eh & Edh & Hht & Hhm). rewrite H2, Eh.
  assert (Hw := remove_walk t (m ++ p :: t :: r) h p (t :: r) s m [] (MAX_THREADS - length m) H4 eq_refl).
  replace (length m + (MAX_THREADS - length m))%nat with MAX_THREADS in Hw by lia.
  rewrite Edh in Hw. rewrite Hw.
  2:{ intros y Hy. split; intros ->; [| done]. destruct m as [| x m]; cbn in Hy; set_solver +Hy Hd Hp. }
  destruct (MAX_THREADS - length m)%nat as [| f] eqn:Ef; [lia |].
  destruct (remove_at t h p (r ++ m) s f) as (s' & E & El & Es & Hr & Hc'); [done | | | apply H5; set_solver + | apply H5; set_solver + |].
  { apply (cyc_rotate _ m (p :: t :: r)). exact H4. }
  { apply (NoDup_Permutation_proper _ (m ++ p :: t :: r)); [| done]. solve_Permutation. }
  rewrite decide_False in Es by done.
  assert (Ew : without t (m ++ p :: t :: r) = m ++ p :: r).
  { unfold without. rewrite filter_app, (filter_ne_id t m) by set_solver +Hd. rewrite filter_cons_True by set_solver +Hp.
    rewrite filter_cons_False by naive_solver. by rewrite filter_ne_id. }
  exists s'. split; [done |]. unfold removed. rewrite Ew. split_and!; [split | done | by rewrite Es].
  - done.
  - rewrite Es. cbn [run_queue set_run_queue set_threads]. rewrite H2, Eh, <- Edh. by destruct m.
  - apply NoDup_app. split_and!; [done | set_solver +Hd |]. apply NoDup_cons. set_solver +Hp Hr0.
  - apply (cyc_rotate _ (p :: r) m Hc').
  - intros u Hu. apply H5. set_solver +Hu.
Qed.

Lemma sched_remove_spec t q s : queue_ok q s -> t ∈ q -> q <> [t] ->
  exists s', sched_remove t s = Done s' /\ removed t q s s'.
Proof.
  intros Hq Ht Hne. apply list_elem_of_split in Ht as (l1 & l2 & ->). destruct l1 as [| x l1 _] using rev_ind.
  - destruct l2 as [| p m _] using rev_ind; [done |]. by apply sched_remove_head.
  - rewrite <- app_assoc in *. by apply sched_remove_inner.
Qed.

(** ** The invariant

    The queue holds exactly the threads in use; every processor runs a queued
    thread of its own, no two the same; what runs is marked so, the idle threads
    are the processors' own.  [e] is a processor in the middle of a call, whose
    current thread may have been put to sleep already. *)
Record sched_ok (e : option nat) (q : list nat) (s : sys) : Prop := {
  so_queue : queue_ok q s;
  so_active : active s = true;
  so_members : forall t, t ∈ q <-> state (thr s t) <> THREAD_UNUSED;
  so_idle : forall t, t ∈ q -> is_idle (thr s t) = true <-> exists c k, cpus s !! c = Some k /\ idle k = t;
  so_cpu : forall c k, cpus s !! c = Some k -> current k ∈ q /\ idle k ∈ q;
  so_runs : forall c k, cpus s !! c = Some k -> e <> Some c ->
    state (thr s (current k)) = THREAD_RUNNING \/ current k = idle k;
  so_apart : forall c c' k k', cpus s !! c = Some k -> cpus s !! c' = Some k' ->
    current k = current k' \/ idle k = idle k' \/ current k = idle k' -> c = c';
  so_running : forall t, state (thr s t) = THREAD_RUNNING -> exists c k, cpus s !! c = Some k /\ current k = t;
  so_alive : forall t, is_idle (thr s t) = true -> state (thr s t) <> THREAD_ZOMBIE }.

Lemma sched_ok_weaken e q s : sched_ok None q s -> sched_ok e q s.
Proof. intros []. split; try done. intros c k Hk _. by apply so_runs0 with c. Qed.

(** A thread's state may change to anything but unused, running, or, for an
    idle thread, zombie; from running only on the processor in the call. *)
Definition state_change (e : option nat) (q : list nat) (s s' : sys) (t : nat) : Prop :=
  state (thr s' t) = state (thr s t) \/
  t ∈ q /\ state (thr s' t) <> THREAD_UNUSED /\ state (thr s' t) <> THREAD_RUNNING /\
  (is_idle (thr s t) = true -> state (thr s' t) <> THREAD_ZOMBIE) /\
  (state (thr s t) = THREAD_RUNNING -> exists c k, e = Some c /\ cpus s !! c = Some k /\ current k = t).

Lemma sched_ok_local e q s s' : sched_ok e q s ->
  length (threads s') = length (threads s) -> run_queue s' = run_queue s -> active s' = active s -> cpus s' = cpus s ->
  (forall t, t ∈ q -> nx s' t = nx s t /\ is_idle (thr s' t) = is_idle (thr s t) /\ state_change e q s s' t) ->
  (forall t, t ∉ q -> state (thr s' t) = THREAD_UNUSED) ->
  sched_ok e q s'.
Proof.
  intros [[H1 H2 H3 H4 H5] Ha Hm Hi Hc Hr Hap Hrun Hal] El Eq Ea Ec Ht Hout. split.
  - split; [by rewrite El | by rewrite Eq | done | | done]. apply (cyc_ext (nx s)); [done |]. intros; by apply Ht.
  - by rewrite Ea.
  - intros t. destruct (decide (t ∈ q)) as [Hq | Hq]; [| rewrite Hout by done; done].
    destruct (Ht t Hq) as (_ & _ & [-> | (_ & Hu & _)]); [apply Hm | done].
  - intros t Hq. rewrite (proj1 (proj2 (Ht t Hq))), Ec. by apply Hi.
  - rewrite Ec. done.
  - intros c k Hk He. rewrite Ec in Hk. destruct (Hr c k Hk He) as [Hs |]; [| by right]. left.
    destruct (Ht (current k)) as (_ & _ & [-> | (_ & _ & _ & _ & Hx)]); [by apply (Hc c) | done |].
    destruct (Hx Hs) as (c' & k' & -> & Hk' & E'). destruct He. f_equal. apply (Hap c' c k' k); auto.
  - rewrite Ec. done.
  - intros t Hs. rewrite Ec. apply Hrun. destruct (decide (t ∈ q)) as [Hq | Hq]; [| by rewrite Hout in Hs].
    destruct (Ht t Hq) as (_ & _ & [<- | (_ & _ & Hn & _)]); done.
  - intros t Hid. destruct (decide (t ∈ q)) as [Hq | Hq]; [| by rewrite Hout]. rewrite (proj1 (proj2 (Ht t Hq))) in Hid.
    destruct (Ht t Hq) as (_ & _ & [-> | (_ & _ & _ & Hz & _)]); [by apply Hal | by apply Hz].
Qed.

Lemma sched_ok_unused e q s t : sched_ok e q s -> t ∉ q -> state (thr s t) = THREAD_UNUSED.
Proof.
  intros Hs Ht. destruct (decide (state (thr s t) = THREAD_UNUSED)) as [| Hn]; [done |].
  by apply (so_members _ _ _ Hs) in Hn.
Qed.

Lemma sched_ok_states e q s s' : sched_ok e q s ->
  length (threads s') = length (threads s) -> run_queue s' = run_queue s -> active s' = active s -> cpus s' = cpus s ->
  (forall t, nx s' t = nx s t /\ is_idle (thr s' t) = is_idle (thr s t) /\ state_change e q s s' t) ->
  sched_ok e q s'.
Proof.
  intros Hs El Eq Ea Ec Ht. apply (sched_ok_local e q s); try done. intros t Hq.
  destruct (Ht t) as (_ & _ & [-> | (? & _)]); [by apply (sched_ok_unused e q) | done].
Qed.

(** ** schedule() *)

Lemma thr_switch_to c prev n k s t : length (threads s) = MAX_THREADS ->
  (prev < MAX_THREADS)%nat -> (n < MAX_THREADS)%nat -> prev <> n ->
  thr (switch_to c prev n k s) t =
    if decide (t = n) then with_state THREAD_RUNNING (thr s t)
    else if decide (t = prev /\ state (thr s t) = THREAD_RUNNING) then with_state THREAD_READY (thr s t)
    else thr s t.
Proof.
  intros Hl Hp Hn Hne. unfold switch_to. set (s1 := if decide _ then _ else s).
  assert (Hl1 : length (threads s1) = MAX_THREADS).
  { unfold s1. case_decide; [by rewrite length_on_thread | done]. }
  assert (E1 : forall u, thr s1 u = if decide (u = prev /\ state (thr s u) = THREAD_RUNNING)
                                    then with_state THREAD_READY (thr s u) else thr s u).
  { intros u. unfold s1. case_decide as Er.
    - rewrite thr_on_thread by by rewrite Hl. repeat case_decide; naive_solver.
    - rewrite decide_False; [done |]. by intros [-> ?]. }
  transitivity (thr (on_thread n (with_state THREAD_RUNNING) s1) t); [done |]. rewrite thr_on_thread by by rewrite Hl1.
  rewrite !E1. destruct (decide (t = n)) as [-> |]; [| done]. rewrite decide_False by naive_solver. done.
Qed.

Lemma eligible_spec s t : eligible s t = true <-> is_idle (thr s t) = false /\ state (thr s t) = THREAD_READY.
Proof. unfold eligible. rewrite andb_true_iff, negb_true_iff, bool_decide_eq_true. done. Qed.

(** What switch_to() leaves of the rest. *)
Lemma switch_to_rest c prev n k s : let s' := switch_to c prev n k s in
  length (threads s') = length (threads s) /\ run_queue s' = run_queue s /\ active s' = active s /\
  processes s' = processes s /\ kernel_proc s' = kernel_proc s /\ next_pid s' = next_pid s /\ log s' = log s /\
  cpus s' = <[c := Cpu n (idle k) (space_of s' n) (kernel_stack (thr s' n) + kernel_stack_size (thr s' n)) (sp k)
                     (Some (prev, tid (thr s' prev), n))]> (cpus s).
Proof.
  unfold switch_to. case_decide; cbn; rewrite ?length_alter; done.
Qed.

(** Nobody else runs what schedule() may choose, nor is it another's idle
    thread. *)
Lemma choice_free c n k q s : sched_ok (Some c) q s -> cpus s !! c = Some k -> n ∈ q ->
  (eligible s n = true \/ n = idle k) ->
  forall c' k', cpus s !! c' = Some k' -> c' <> c -> current k' <> n /\ idle k' <> n.
Proof.
  intros [_ _ _ Hi _ Hr Hap _ _] Hk Hn Hel c' k' Hk' Hcc. destruct Hel as [He | ->].
  - apply eligible_spec in He as [He1 He2].
    assert (Hid : idle k' <> n).
    { intros E. assert (is_idle (thr s n) = true) by (apply Hi; eauto). congruence. }
    split; [| done]. intros E. destruct (Hr c' k' Hk') as [Hs |]; congruence.
  - split; intros E; apply Hcc; apply (Hap c' c k' k); auto.
Qed.

(** Switching to a thread that waits for a processor, or to the idle thread,
    keeps the invariant and makes it whole. *)
Lemma sched_ok_switch c n k q s : sched_ok (Some c) q s -> cpus s !! c = Some k -> n <> current k ->
  n ∈ q -> (eligible s n = true \/ n = idle k) -> sched_ok None q (switch_to c (current k) n k s).
Proof.
  intros Hok Hk Hne Hn Hel. assert (Hfree := choice_free c n k q s Hok Hk Hn Hel).
  destruct Hok as [[H1 H2 H3 H4 H5] Ha Hm Hi Hc Hr Hap Hrun Hal]. destruct (Hc c k Hk) as [Hcq Hiq].
  assert (Hth := thr_switch_to c (current k) n k s).
  destruct (switch_to_rest c (current k) n k s) as (El & Eq & Ea & _ & _ & _ & _ & Ecp).
  set (s' := switch_to _ _ _ _ _) in *.
  assert (Ht : forall t, thr s' t =
      if decide (t = n) then with_state THREAD_RUNNING (thr s t)
      else if decide (t = current k /\ state (thr s t) = THREAD_RUNNING) then with_state THREAD_READY (thr s t)
      else thr s t) by (intros t; apply Hth; auto). clear Hth.
  assert (Hfields : forall t, nx s' t = nx s t /\ is_idle (thr s' t) = is_idle (thr s t)).
  { intros t. unfold nx. rewrite Ht. repeat case_decide; done. }
  assert (Hlk : forall c' k', cpus s' !! c' = Some k' ->
            c' = c /\ current k' = n /\ idle k' = idle k \/ c' <> c /\ cpus s !! c' = Some k').
  { intros c' k' Hk'. rewrite Ecp in Hk'. apply lookup_insert_Some in Hk' as [[<- <-] | [? ?]]; [left | right]; done. }
  split.
  - split; [by rewrite El | by rewrite Eq | done | | done]. apply (cyc_ext (nx s)); [done |]. intros; apply Hfields.
  - by rewrite Ea.
  - intros t. rewrite Ht. destruct (decide (t = n)) as [-> |]; [done |]. rewrite Hm.
    case_decide as E; [destruct E as [_ ->] |]; done.
  - intros t Hq. rewrite (proj2 (Hfields t)), Hi by done. split; intros (c' & k' & Hk' & E).
    + destruct (decide (c' = c)) as [-> |].
      * exists c. eexists. split; [rewrite Ecp; apply lookup_insert_eq |]. cbn. congruence.
      * exists c', k'. split; [| done]. by rewrite Ecp, lookup_insert_ne by done.
    + destruct (Hlk c' k' Hk') as [(-> & _ & Ei) | (_ & ?)]; [exists c, k | exists c', k']; split; congruence.
  - intros c' k' Hk'. destruct (Hlk c' k' Hk') as [(-> & -> & ->) | (_ & ?)]; [done | by apply (Hc c')].
  - intros c' k' Hk' _. destruct (Hlk c' k' Hk') as [(-> & -> & _) | (Hcc & Hko)].
    + left. by rewrite Ht, decide_True.
    + destruct (Hr c' k' Hko) as [Hs |]; [congruence | | by right]. left.
      rewrite Ht, decide_False by by apply (Hfree c' k'). rewrite decide_False; [done |].
      intros [E _]. apply Hcc. apply (Hap c' c k' k); auto.
  - intros c1 c2 k1 k2 Hk1 Hk2 Ho. destruct (Hlk c1 k1 Hk1) as [(-> & E1 & E2) | (Hn1 & Ho1)];
      destruct (Hlk c2 k2 Hk2) as [(-> & E3 & E4) | (Hn2 & Ho2)]; [done | | | by apply (Hap c1 c2 k1 k2)].
    + destruct (Hfree c2 k2 Ho2 Hn2). rewrite E1, E2 in Ho. apply (Hap c c2 k k2); intuition congruence.
    + destruct (Hfree c1 k1 Ho1 Hn1). rewrite E3, E4 in Ho. apply (Hap c1 c k1 k); intuition congruence.
  - intros t Hs. rewrite Ht in Hs. destruct (decide (t = n)) as [-> | Hnt].
    + exists c. eexists. split; [rewrite Ecp; apply lookup_insert_eq | done].
    + case_decide as E; [done |]. destruct (Hrun t Hs) as (c' & k' & Hk' & E').
      exists c', k'. split; [| done]. rewrite Ecp, lookup_insert_ne; [done |]. intros <-. apply E. split; congruence.
  - intros t Hid. rewrite (proj2 (Hfields t)) in Hid. rewrite Ht. repeat case_decide; [done | done | by apply Hal].
Qed.

(** What schedule() does on processor [c], with the queue read from behind its
    current thread: it stays, or switches to the first thread that waits for a
    processor, or to its idle thread when none does. *)
Definition schedules (c : nat) (k : smpcpu) (l : list nat) (s s' : sys) : Prop :=
  s' = s /\ List.find (eligible s) l = None /\ (state (thr s (current k)) = THREAD_RUNNING \/ current k = idle k) \/
  exists n, s' = switch_to c (current k) n k s /\ n <> current k /\ (n ∈ l \/ n = idle k) /\
    (List.find (eligible s) l = Some n \/ List.find (eligible s) l = None /\ n = idle k).

Lemma find_in {A} (f : A -> bool) l x : List.find f l = Some x -> x ∈ l /\ f x = true.
Proof. intros H. apply List.find_some in H as [? ?]. by rewrite list_elem_of_In. Qed.

Lemma schedule_cases c k q s l1 l2 : sched_ok (Some c) q s -> cpus s !! c = Some k -> q = l1 ++ current k :: l2 ->
  exists s', schedule c s = Done s' /\ schedules c k (l2 ++ l1) s s'.
Proof.
  intros Hok Hk E. destruct Hok as [[H1 H2 H3 H4 H5] Ha _ _ Hc _ _ _ _].
  unfold schedule. rewrite Ha. cbn [negb]. unfold smp_this. rewrite Hk. cbn [mbind out_bind].
  assert (Hh : exists h, run_queue s = Some h) by (rewrite H2, E; destruct l1; eauto). destruct Hh as [h Hh].
  assert (Hp : q ≡ₚ current k :: l2 ++ l1) by (rewrite E; solve_Permutation).
  rewrite (pick_next_choice s (idle k) h (current k) (l2 ++ l1) Hh).
  2:{ apply (cyc_rotate _ l1 (current k :: l2)). by rewrite <- E. }
  2:{ by rewrite <- Hp. }
  2:{ apply nodup_range_length; [by rewrite <- Hp |]. intros t Ht. apply H5. by rewrite Hp. }
  assert (Hnd : NoDup (current k :: l2 ++ l1)) by by rewrite <- Hp.
  apply NoDup_cons in Hnd as [Hcur _].
  unfold choice, schedules. destruct (List.find (eligible s) (l2 ++ l1)) as [n |] eqn:Ef.
  - apply find_in in Ef as Hn. destruct Hn as [Hn He].
    rewrite decide_False by by intros ->. eexists. split; [done |]. right. exists n. split_and!; auto. by intros ->.
  - destruct (eligible s (current k) || bool_decide (state (thr s (current k)) = THREAD_RUNNING))%bool eqn:Eb.
    + rewrite decide_True by done. destruct (decide (state _ = _)) as [Hr |]; [eexists; split; [done |]; left; auto |].
      destruct (decide (idle k = current k)); [eexists; split; [done |]; left; auto |].
      eexists. split; [done |]. right. exists (idle k). split_and!; auto.
    + destruct (decide (idle k = current k)) as [Ei |].
      * apply orb_false_iff in Eb as [_ Eb]. apply bool_decide_eq_false in Eb. rewrite decide_False by done.
        eexists. split; [done |]. left. auto.
      * eexists. split; [done |]. right. exists (idle k). split_and!; auto.
Qed.

Lemma schedule_ok c k q s : sched_ok (Some c) q s -> cpus s !! c = Some k ->
  exists s', schedule c s = Done s' /\ sched_ok None q s'.
Proof.
  intros Hok Hk. destruct (so_cpu _ _ _ Hok c k Hk) as [Hcq Hiq]. apply list_elem_of_split in Hcq as (l1 & l2 & E).
  destruct (schedule_cases c k q s l1 l2 Hok Hk E) as (s' & Es & [(-> & _ & Hr) | (n & -> & Hne & Hin & Hn)]);
    (eexists; split; [exact Es |]).
  - destruct Hok. split; try done. intros c' k' Hk' _. destruct (decide (c' = c)) as [-> |]; [| apply so_runs0 with c'; congruence].
    rewrite Hk in Hk'. injection Hk' as <-. done.
  - apply sched_ok_switch; [done | done | done | |].
    + destruct Hin as [Hin | ->]; [| done]. rewrite E. set_solver +Hin.
    + destruct Hn as [Hn | [_ ->]]; [left; by apply (find_in _ _ _ Hn) | by right].
Qed.

End SchedSpec.
