(* ===== verification/ProcInv.v ===== *)
(** * Processes: the invariant

    [procs_ok] ties the process table to the threads of [Sched], and
    [sys_ok] puts it together with the scheduler's own invariant.  Each
    operation of [Sched] and [Proc] keeps it, ends, and never reaches a null
    pointer or a panic. *)

From S2P Require Import Prelude Ring Sched Proc SchedSpec.

Module ProcInv.
Import Sched Proc SchedSpec.

(** ** Reading updated processes *)

Definition prc (s : sys) (i : nat) : process := processes s !!! i.

Lemma prc_on_process s i f j : (i < length (processes s))%nat ->
  prc (on_process (Sched.Proc i) f s) j = if decide (j = i) then f (prc s i) else prc s j.
Proof.
  intros Hi. unfold prc. cbn. case_decide as E.
  - subst j. by rewrite list_lookup_total_alter_eq.
  - by rewrite list_lookup_total_alter_ne.
Qed.

Lemma length_on_process s p f : length (processes (on_process p f s)) = length (processes s).
Proof. destruct p; cbn; [done | apply length_alter]. Qed.

Lemma prc_used_range s i : used (prc s i) = true -> (i < length (processes s))%nat.
Proof.
  intros H. destruct (decide (i < length (processes s))%nat); [done |].
  unfold prc in H. rewrite list_lookup_total_alt, lookup_ge_None_2 in H by lia. done.
Qed.

(** What the invariant reads of a process and of a thread. *)
Definition pview (p : process) := (used p, p_thread p, space p, exited p, parent p, pid p).
Definition tview (t : thread) := (proc t, is_idle t, kernel_stack t, kernel_stack_size t).

(** ** The invariant

    Every process in use has a thread of its own in the queue and an address
    space of its own; every queued thread belongs to such a process or is an
    idle thread of the kernel; a process has exited exactly when its thread is a
    zombie.  A processor has the tables of its current thread's process in CR3
    and the top of that thread's stack in its TSS.  A thread asleep in
    proc_wait() has no child it could reap. *)
Record procs_ok (q : list nat) (s : sys) : Prop := {
  po_len : length (processes s) = MAX_PROCESSES;
  po_kernel : space (kernel_proc s) = Some KSpace /\ killed (kernel_proc s) = false;
  po_idle : forall t, t ∈ q -> is_idle (thr s t) = true -> proc (thr s t) = Some KProc;
  po_thread : forall t, t ∈ q -> is_idle (thr s t) = false ->
    exists i, proc (thr s t) = Some (Sched.Proc i) /\ used (prc s i) = true /\ p_thread (prc s i) = Some t;
  po_proc : forall i, used (prc s i) = true ->
    exists t a, p_thread (prc s i) = Some t /\ t ∈ q /\ is_idle (thr s t) = false /\
      proc (thr s t) = Some (Sched.Proc i) /\ space (prc s i) = Some (Space a);
  po_exited : forall i t, used (prc s i) = true -> p_thread (prc s i) = Some t ->
    exited (prc s i) = true <-> state (thr s t) = THREAD_ZOMBIE;
  po_exit_cont : forall t, t ∈ q -> state (thr s t) = THREAD_ZOMBIE <-> cont (thr s t) = InExit;
  po_next : 0 < next_pid s;
  po_pid : forall i, used (prc s i) = true -> 0 < pid (prc s i) < next_pid s;
  po_pids : forall i j, used (prc s i) = true -> used (prc s j) = true -> pid (prc s i) = pid (prc s j) -> i = j;
  po_spaces : forall i j, used (prc s i) = true -> used (prc s j) = true -> space (prc s i) = space (prc s j) -> i = j;
  po_loaded : forall c k, cpus s !! c = Some k -> cpu_space k = space_of s (current k);
  po_tss : forall c k, cpus s !! c = Some k ->
    current k = idle k \/ tss_stack k = kernel_stack (thr s (current k)) + kernel_stack_size (thr s (current k));
  po_wait : forall t p, t ∈ q -> state (thr s t) = THREAD_BLOCKED -> cont (thr s t) = InWait p ->
    wait_reason (thr s t) = WAIT_CHILD /\
    forall par i, proc (thr s t) = Some par -> child_of par p (prc s i) = true -> reapable s (prc s i) = false }.

Definition sys_ok (e : option nat) (q : list nat) (s : sys) : Prop := sched_ok e q s /\ procs_ok q s.

Lemma child_of_used par p x : child_of par p x = true -> used x = true.
Proof. unfold child_of. by destruct (used x). Qed.

(** The views of processes and threads in use are kept, and no thread ends. *)
Record same_views (q : list nat) (s s' : sys) : Prop := {
  sv_len : length (processes s') = length (processes s);
  sv_kernel : space (kernel_proc s') = space (kernel_proc s) /\ killed (kernel_proc s') = killed (kernel_proc s);
  sv_pid : next_pid s <= next_pid s';
  sv_used : forall i, used (prc s' i) = used (prc s i);
  sv_proc : forall i, used (prc s i) = true -> pview (prc s' i) = pview (prc s i);
  sv_thread : forall t, t ∈ q -> tview (thr s' t) = tview (thr s t) /\
    (state (thr s' t) = THREAD_ZOMBIE <-> state (thr s t) = THREAD_ZOMBIE) /\
    (cont (thr s' t) = InExit <-> cont (thr s t) = InExit) }.

Section same_views.
Context (q : list nat) (s s' : sys) (Hp : procs_ok q s) (Hv : same_views q s s').

Lemma view_proc i : used (prc s i) = true ->
  p_thread (prc s' i) = p_thread (prc s i) /\ space (prc s' i) = space (prc s i) /\ exited (prc s' i) = exited (prc s i) /\
  parent (prc s' i) = parent (prc s i) /\ pid (prc s' i) = pid (prc s i).
Proof. intros Hu. pose proof (sv_proc _ _ _ Hv i Hu) as E. unfold pview in E. by injection E as _ -> -> -> -> ->. Qed.

Lemma view_thread t : t ∈ q -> proc (thr s' t) = proc (thr s t) /\ is_idle (thr s' t) = is_idle (thr s t) /\
  kernel_stack (thr s' t) = kernel_stack (thr s t) /\ kernel_stack_size (thr s' t) = kernel_stack_size (thr s t).
Proof. intros Hq. destruct (sv_thread _ _ _ Hv t Hq) as [E _]. unfold tview in E. by injection E as -> -> -> ->. Qed.

Lemma view_child par p i : child_of par p (prc s' i) = child_of par p (prc s i).
Proof.
  unfold child_of. rewrite (sv_used _ _ _ Hv i). destruct (used (prc s i)) eqn:Hu; [| done].
  destruct (view_proc i Hu) as (_ & _ & _ & -> & ->). done.
Qed.

Lemma view_reapable i : used (prc s i) = true -> reapable s' (prc s' i) = reapable s (prc s i).
Proof.
  intros Hu. unfold reapable. destruct (view_proc i Hu) as (-> & _ & -> & _).
  destruct (po_proc _ _ Hp i Hu) as (t & a & -> & Hq & _). f_equal. apply bool_decide_ext. by apply (sv_thread _ _ _ Hv).
Qed.

Lemma view_space t : t ∈ q -> space_of s' t = space_of s t.
Proof.
  intros Hq. unfold space_of. destruct (view_thread t Hq) as (-> & _). destruct (is_idle (thr s t)) eqn:Ei.
  - rewrite (po_idle _ _ Hp t Hq Ei). cbn. by rewrite (proj1 (sv_kernel _ _ _ Hv)).
  - destruct (po_thread _ _ Hp t Hq Ei) as (i & -> & Hu & _). cbn.
    destruct (view_proc i Hu) as (_ & E & _). unfold prc in E. by rewrite E.
Qed.

(** Processors keep what they run, or have loaded it anew; whoever sleeps in a
    wait slept before, or has good reason to. *)
Lemma procs_ok_ext :
  (forall c k', cpus s' !! c = Some k' -> current k' ∈ q /\
     ((exists k, cpus s !! c = Some k /\ current k' = current k /\ idle k' = idle k /\ cpu_space k' = cpu_space k /\
         tss_stack k' = tss_stack k) \/
      cpu_space k' = space_of s' (current k') /\
        tss_stack k' = kernel_stack (thr s' (current k')) + kernel_stack_size (thr s' (current k')))) ->
  (forall t p, t ∈ q -> state (thr s' t) = THREAD_BLOCKED -> cont (thr s' t) = InWait p ->
     state (thr s t) = THREAD_BLOCKED /\ cont (thr s t) = InWait p /\ wait_reason (thr s' t) = wait_reason (thr s t) \/
     wait_reason (thr s' t) = WAIT_CHILD /\
     forall par i, proc (thr s t) = Some par -> child_of par p (prc s i) = true -> reapable s (prc s i) = false) ->
  procs_ok q s'.
Proof.
  intros Ec Ew. destruct Hp as [H1 H2 H3 H4 H5 H6 H7 Hnp Hpid Hpids H8 H9 H10 H11]. split.
  - rewrite (sv_len _ _ _ Hv). done.
  - destruct (sv_kernel _ _ _ Hv) as [-> ->]. done.
  - intros t Hq. destruct (view_thread t Hq) as (-> & -> & _). by apply H3.
  - intros t Hq. destruct (view_thread t Hq) as (-> & -> & _). intros Hi. destruct (H4 t Hq Hi) as (i & ? & Hu & ?). exists i.
    rewrite (sv_used _ _ _ Hv). destruct (view_proc i Hu) as (-> & _). done.
  - intros i. rewrite (sv_used _ _ _ Hv). intros Hu. destruct (view_proc i Hu) as (-> & -> & _).
    destruct (H5 i Hu) as (t & a & ? & Hq & ?). exists t, a. destruct (view_thread t Hq) as (-> & -> & _). done.
  - intros i t. rewrite (sv_used _ _ _ Hv). intros Hu. destruct (view_proc i Hu) as (-> & _ & -> & _). intros Ht.
    rewrite (H6 i t Hu Ht). symmetry. destruct (H5 i Hu) as (t' & a & Ht' & Hq & _). apply (sv_thread _ _ _ Hv). congruence.
  - intros t Hq. destruct (sv_thread _ _ _ Hv t Hq) as (_ & -> & ->). by apply H7.
  - pose proof (sv_pid _ _ _ Hv). lia.
  - intros i. rewrite (sv_used _ _ _ Hv). intros Hu. destruct (view_proc i Hu) as (_ & _ & _ & _ & ->).
    pose proof (sv_pid _ _ _ Hv). specialize (Hpid i Hu). lia.
  - intros i j. rewrite !(sv_used _ _ _ Hv). intros Hi Hj. destruct (view_proc i Hi) as (_ & _ & _ & _ & ->).
    destruct (view_proc j Hj) as (_ & _ & _ & _ & ->). by apply Hpids.
  - intros i j. rewrite !(sv_used _ _ _ Hv). intros Hi Hj. destruct (view_proc i Hi) as (_ & -> & _).
    destruct (view_proc j Hj) as (_ & -> & _). by apply H8.
  - intros c k' Hk'. destruct (Ec c k' Hk') as (Hq & [(k & Hk & E & _ & -> & _) | [? _]]); [| done].
    rewrite view_space by done. rewrite E. by apply H9 with c.
  - intros c k' Hk'. destruct (Ec c k' Hk') as (Hq & [(k & Hk & E & -> & _ & ->) | [_ ?]]); [| by right].
    destruct (view_thread _ Hq) as (_ & _ & -> & ->). rewrite E. by apply H10 with c.
  - intros t p Hq Hb Hc. destruct (view_thread t Hq) as (-> & _).
    assert (Hgoal : wait_reason (thr s' t) = WAIT_CHILD /\
      forall par i, proc (thr s t) = Some par -> child_of par p (prc s i) = true -> reapable s (prc s i) = false).
    { destruct (Ew t p Hq Hb Hc) as [(Hb' & Hc' & ->) | ?]; [by apply H11 | done]. }
    destruct Hgoal as [-> Hn]. split; [done |]. intros par i Hpar. rewrite view_child. intros Hch.
    rewrite view_reapable by by apply child_of_used in Hch. by apply (Hn par).
Qed.
End same_views.

(** A change of threads alone. *)
Lemma same_views_threads q s s' : processes s' = processes s -> kernel_proc s' = kernel_proc s -> next_pid s' = next_pid s ->
  (forall t, t ∈ q -> tview (thr s' t) = tview (thr s t) /\
    (state (thr s' t) = THREAD_ZOMBIE <-> state (thr s t) = THREAD_ZOMBIE) /\
    (cont (thr s' t) = InExit <-> cont (thr s t) = InExit)) -> same_views q s s'.
Proof. intros Ep Ek Hn Et. split; unfold prc; rewrite ?Ep, ?Ek, ?Hn; done. Qed.

Lemma only_threads_eqs s s' : only_threads s s' ->
  run_queue s' = run_queue s /\ active s' = active s /\ cpus s' = cpus s /\ processes s' = processes s /\
  kernel_proc s' = kernel_proc s /\ length (threads s') = length (threads s) /\ next_pid s' = next_pid s /\ log s' = log s /\ pit_ticks s' = pit_ticks s.
Proof. intros [E El]. rewrite El. rewrite E. done. Qed.

(** Where the processors are as they were. *)
Lemma cpus_kept e q s s' : sched_ok e q s -> cpus s' = cpus s ->
  forall c k', cpus s' !! c = Some k' -> current k' ∈ q /\
     ((exists k, cpus s !! c = Some k /\ current k' = current k /\ idle k' = idle k /\ cpu_space k' = cpu_space k /\
         tss_stack k' = tss_stack k) \/
      cpu_space k' = space_of s' (current k') /\
        tss_stack k' = kernel_stack (thr s' (current k')) + kernel_stack_size (thr s' (current k'))).
Proof.
  intros Hs Ec c k' Hk'. rewrite Ec in Hk'. split; [by apply (so_cpu _ _ _ Hs c) |]. left. by exists k'.
Qed.

(** Waking threads that are blocked. *)
Lemma wake_ok p e q s : (forall x, p x = true -> state x = THREAD_BLOCKED) -> sys_ok e q s ->
  exists s', wake_queue p s = Done s' /\ sys_ok e q s' /\ only_threads s s' /\
    forall t, thr s' t = if (bool_decide (t ∈ q) && p (thr s t))%bool then woken (thr s t) else thr s t.
Proof.
  intros Hb [Hs Hp]. destruct (wake_queue_spec p q s (so_queue _ _ _ Hs)) as (s' & E & Ho & Ht).
  exists s'. split; [done |]. split; [| done]. destruct (only_threads_eqs _ _ Ho) as (Eq & Ea & Ec & Epr & Ek & El & Enp & _).
  assert (Hcase : forall t, thr s' t = thr s t \/ t ∈ q /\ thr s' t = woken (thr s t) /\ state (thr s t) = THREAD_BLOCKED).
  { intros t. rewrite Ht. case_bool_decide; [| by left]. destruct (p (thr s t)) eqn:Et; [right | by left].
    split; [done |]. split; [done | by apply Hb]. }
  split.
  - apply (sched_ok_states e q s); [done | done | done | done | done |]. intros t. unfold nx, state_change.
    destruct (Hcase t) as [-> | (Hq & -> & Hs')]; [split_and!; auto |]. split_and!; [done | done |]. right.
    rewrite Hs'. split_and!; done.
  - apply (procs_ok_ext q s); [done | | by apply (cpus_kept e) |].
    + apply same_views_threads; [done | done | done |]. intros t _. destruct (Hcase t) as [-> | (_ & -> & Hs')]; [done |].
      rewrite Hs'. split_and!; done.
    + intros t p' _ Hb' Hc. left. destruct (Hcase t) as [E' | (_ & E' & _)]; rewrite E' in *; done.
Qed.

(** schedule() makes the invariant whole. *)
Lemma schedule_sys_ok c k q s : sys_ok (Some c) q s -> cpus s !! c = Some k ->
  exists s', schedule c s = Done s' /\ sys_ok None q s'.
Proof.
  intros [Hs Hp] Hk. destruct (schedule_ok c k q s Hs Hk) as (s1 & E1 & Hs1). exists s1. split; [done |]. split; [done |].
  destruct (so_cpu _ _ _ Hs c k Hk) as [Hcq Hiq]. pose proof Hcq as Hsplit.
  apply list_elem_of_split in Hsplit as (l1 & l2 & E).
  destruct (schedule_cases c k q s l1 l2 Hs Hk E) as (s2 & E2 & Hc).
  rewrite E1 in E2. injection E2 as <-. destruct Hc as [(-> & _) | (n & Es & Hne & Hin & Hn)]; [done |].
  assert (Hnq : n ∈ q) by (destruct Hin as [Hin | ->]; [rewrite E; set_solver +Hin | done]).
  destruct (switch_to_rest c (current k) n k s) as (El & Eq & Ea & Epr & Ek & Enp & _ & Ecp). rewrite <- Es in *.
  assert (Ht : forall t, thr s1 t = thr s t \/ exists x, thr s1 t = with_state x (thr s t) /\
                 x <> THREAD_BLOCKED /\ x <> THREAD_ZOMBIE /\ state (thr s t) <> THREAD_ZOMBIE).
  { intros t. rewrite Es. destruct (so_queue _ _ _ Hs) as [Hlen _ _ _ Hr].
    rewrite thr_switch_to by auto. destruct (decide (t = n)) as [-> | Htn].
    - right. eexists. split_and!; [done | done | done |]. destruct Hn as [Hn | [_ ->]].
      + apply find_in in Hn as [_ Hn]. apply eligible_spec in Hn as [_ ->]. done.
      + apply (so_alive _ _ _ Hs). apply (so_idle _ _ _ Hs); eauto.
    - case_decide as Er; [| by left]. right. eexists. split_and!; [done | done | done |]. destruct Er as [_ ->]. done. }
  apply (procs_ok_ext q s); [done | | |].
  - apply same_views_threads; [done | done | done |]. intros t _. destruct (Ht t) as [-> | (x & -> & Hb & Hz & Hz')]; done.
  - intros c' k' Hk'. rewrite Ecp in Hk'. apply lookup_insert_Some in Hk' as [[<- <-] | [Hcc Hk']].
    + cbn [current cpu_space tss_stack idle]. split; [done |]. right. done.
    + split; [by apply (so_cpu _ _ _ Hs c') |]. left. by exists k'.
  - intros t p _ Hb Hco. left. destruct (Ht t) as [E' | (x & E' & Hx & _)]; rewrite E' in *; done.
Qed.

(** ** The caller *)

Section caller.
Context (q : list nat) (s : sys) (c : nat) (k : smpcpu) (Hok : sys_ok None q s) (Hk : cpus s !! c = Some k).

Lemma current_in : current k ∈ q.
Proof. by apply (so_cpu _ _ _ (proj1 Hok) c). Qed.

Lemma current_range : (current k < length (threads s))%nat.
Proof. destruct (so_queue _ _ _ (proj1 Hok)) as [-> _ _ _ Hr]. apply Hr, current_in. Qed.

Lemma current_idle : current k = idle k <-> is_idle (thr s (current k)) = true.
Proof.
  pose proof current_in as Hin. destruct Hok as [Hs _]. rewrite (so_idle _ _ _ Hs) by done. split.
  - intros E. exists c, k. done.
  - intros (c' & k' & Hk' & E'). assert (c = c') as <- by (apply (so_apart _ _ _ Hs c c' k k'); auto). congruence.
Qed.

(** What runs has not ended. *)
Lemma current_alive : state (thr s (current k)) <> THREAD_ZOMBIE.
Proof.
  destruct Hok as [Hs _]. destruct (so_runs _ _ _ Hs c k Hk ltac:(done)) as [-> | E]; [done |].
  apply (so_alive _ _ _ Hs). by apply current_idle.
Qed.

Lemma proc_current_done : exists p, proc_current c s = Done p /\ proc (thr s (current k)) = Some p /\
  (p = KProc /\ current k = idle k \/
   exists i, p = Sched.Proc i /\ current k <> idle k /\ used (prc s i) = true /\ p_thread (prc s i) = Some (current k)).
Proof.
  pose proof current_in as Hin. pose proof current_idle as Hci. unfold proc_current. rewrite Hk.
  destruct Hok as [Hs Hp]. destruct (is_idle (thr s (current k))) eqn:Ei.
  - rewrite (po_idle _ _ Hp _ Hin Ei). exists KProc. split_and!; [done | done |]. left. split; [done |]. by apply Hci.
  - destruct (po_thread _ _ Hp _ Hin Ei) as (i & -> & Hu & Ht). exists (Sched.Proc i). split_and!; [done | done |].
    right. exists i. split_and!; [done | | done | done]. intros E. apply Hci in E. done.
Qed.

Lemma proc_should_exit_done : exists b, proc_should_exit c s = Done b /\ (b = true -> current k <> idle k).
Proof.
  destruct proc_current_done as (p & E & _ & Hcase). unfold proc_should_exit. rewrite E. cbn [mbind out_bind].
  eexists. split; [done |]. destruct Hcase as [[-> Hi] | (i & -> & Hi & _)]; [| done].
  cbn. rewrite (proj2 (po_kernel _ _ (proj2 Hok))). done.
Qed.

(** Going to sleep: up to schedule(), ... *)
Definition asleep (r : wait_reason_t) (w : Z) (kont : continuation) : sys :=
  on_thread (current k) (fun t => with_cont kont (with_wait THREAD_BLOCKED r w t)) s.

Definition good_reason (r : wait_reason_t) (kont : continuation) : Prop :=
  kont <> InExit /\
  forall p, kont = InWait p -> r = WAIT_CHILD /\ forall par i, proc (thr s (current k)) = Some par ->
     child_of par p (prc s i) = true -> reapable s (prc s i) = false.

Lemma block_is_schedule r w kont : block_on c r w kont s = schedule c (asleep r w kont).
Proof. unfold block_on. rewrite (so_active _ _ _ (proj1 Hok)). cbn [negb]. unfold smp_this. by rewrite Hk. Qed.

Lemma thr_asleep r w kont t : thr (asleep r w kont) t =
  if decide (t = current k) then with_cont kont (with_wait THREAD_BLOCKED r w (thr s t)) else thr s t.
Proof. unfold asleep. rewrite thr_on_thread by apply current_range. case_decide; [by subst t | done]. Qed.

Lemma asleep_ok r w kont : good_reason r kont -> sys_ok (Some c) q (asleep r w kont).
Proof.
  intros [Hne Hw]. pose proof (thr_asleep r w kont) as Ht.
  pose proof current_in as Hin. pose proof current_alive as Hal. destruct Hok as [Hs Hp]. split.
  - apply (sched_ok_states (Some c) q s); [by apply sched_ok_weaken | apply length_on_thread | done | done | done |].
    intros t. unfold nx, state_change. rewrite !Ht. case_decide as E; [| split_and!; auto]. subst t.
    split_and!; [done | done |]. right. split_and!; [done | done | done | done |]. intros _. exists c, k. done.
  - apply (procs_ok_ext q s); [done | | by apply (cpus_kept None) |].
    + apply same_views_threads; [done | done | done |]. intros t Hq. rewrite Ht. case_decide as E; [| done]. subst t. cbn.
      split_and!; [done | done |]. split; [done |]. intros Hx. destruct Hal. by apply (po_exit_cont _ _ Hp).
    + intros t p _. rewrite Ht. case_decide as E; [| by left]. subst t. cbn. intros _ Ek. right.
      destruct (Hw p Ek) as [-> Hn]. done.
Qed.

(** ... and to the end. *)
Lemma block_ok r w kont : good_reason r kont -> exists s', block_on c r w kont s = Done s' /\ sys_ok None q s'.
Proof. intros Hg. rewrite block_is_schedule. apply (schedule_sys_ok c k); [by apply asleep_ok | done]. Qed.
End caller.

(** ** Bookkeeping

    A change that keeps the views, the links and the states. *)
Lemma sys_ok_views e q s s' : sys_ok e q s -> length (threads s') = length (threads s) ->
  run_queue s' = run_queue s -> active s' = active s -> cpus s' = cpus s ->
  length (processes s') = length (processes s) -> next_pid s' = next_pid s ->
  space (kernel_proc s') = space (kernel_proc s) /\ killed (kernel_proc s') = killed (kernel_proc s) ->
  (forall i, pview (prc s' i) = pview (prc s i)) ->
  (forall t, nx s' t = nx s t /\ tview (thr s' t) = tview (thr s t) /\ state (thr s' t) = state (thr s t) /\
     wait_reason (thr s' t) = wait_reason (thr s t) /\ cont (thr s' t) = cont (thr s t)) -> sys_ok e q s'.
Proof.
  intros [Hs Hp] El Eq Ea Ec Elp Enp Ek Ep Et. split.
  - apply (sched_ok_states e q s); [done | done | done | done | done |]. intros t.
    destruct (Et t) as (En & Ev & Es & _). unfold tview in Ev. injection Ev as _ Ei _ _. split_and!; [done | done |]. by left.
  - apply (procs_ok_ext q s); [done | | by apply (cpus_kept e) |].
    + split; [done | done | by rewrite Enp | | |].
      * intros i. specialize (Ep i). unfold pview in Ep. by injection Ep as -> _ _ _ _ _.
      * intros i _. apply Ep.
      * intros t _. destruct (Et t) as (_ & -> & -> & _ & ->). done.
    + intros t p _ Hb Hc. left. destruct (Et t) as (_ & _ & Es & -> & Eco). rewrite Es in Hb. rewrite Eco in Hc. done.
Qed.

Lemma on_process_view p f s : (forall x, pview (f x) = pview x) -> forall i, pview (prc (on_process p f s) i) = pview (prc s i).
Proof.
  intros Hf i. destruct p as [| j]; [done |]. unfold prc. cbn. rewrite list_lookup_total_alter. case_decide as E; [| done].
  destruct E as [-> _]. apply Hf.
Qed.

(** Changing fields of a process that nothing depends on. *)
Lemma on_process_ok e q s p f : sys_ok e q s -> (forall x, pview (f x) = pview x) ->
  (p = KProc -> killed (f (kernel_proc s)) = killed (kernel_proc s)) -> sys_ok e q (on_process p f s).
Proof.
  intros Hok Hf Hkill. apply (sys_ok_views e q s); try done; try (by destruct p).
  - by rewrite length_on_process.
  - destruct p; cbn; [| done]. split; [| by apply Hkill]. pose proof (Hf (kernel_proc s)) as E. unfold pview in E.
    by injection E.
  - by apply on_process_view.
Qed.

Lemma charge_tick_ok e q s t : sys_ok e q s -> (t < length (threads s))%nat -> sys_ok e q (charge_tick t s).
Proof.
  intros Hok Ht. unfold charge_tick. set (s1 := on_thread t _ s). assert (Hs1 : sys_ok e q s1).
  { apply (sys_ok_views e q s); try done; [apply length_on_thread |]. intros u. unfold nx, s1. rewrite thr_on_thread by done.
    case_decide; [subst u |]; done. }
  destruct (proc (thr s1 t)) as [p |]; [| done]. by apply on_process_ok.
Qed.

(** Changing what else a processor keeps. *)
Lemma set_cpu_ok e q s c k k' : sys_ok e q s -> cpus s !! c = Some k -> current k' = current k -> idle k' = idle k ->
  cpu_space k' = cpu_space k -> tss_stack k' = tss_stack k -> sys_ok e q (set_cpu c k' s).
Proof.
  intros [Hs Hp] Hk Ecu Eid Esp Ets.
  assert (Hlk : forall c2 k2, cpus (set_cpu c k' s) !! c2 = Some k2 -> exists k3, cpus s !! c2 = Some k3 /\
    current k2 = current k3 /\ idle k2 = idle k3 /\ cpu_space k2 = cpu_space k3 /\ tss_stack k2 = tss_stack k3).
  { intros c2 k2 H2. cbn in H2. apply lookup_insert_Some in H2 as [[<- <-] | [_ H2]]; eauto 10. }
  assert (Hkl : forall c2 k2, cpus s !! c2 = Some k2 -> exists k3, cpus (set_cpu c k' s) !! c2 = Some k3 /\
    current k3 = current k2 /\ idle k3 = idle k2).
  { intros c2 k2 H2. cbn. destruct (decide (c2 = c)) as [-> |].
    - exists k'. rewrite lookup_insert_eq. rewrite Hk in H2. injection H2 as <-. done.
    - exists k2. by rewrite lookup_insert_ne. }
  split.
  - destruct Hs as [[Q1 Q2 Q3 Q4 Q5] Ha Hm Hi Hc Hr Hap Hrun Hal]. split; try done.
    + intros t Hq. change (is_idle (thr s t) = true <-> exists c2 k2, cpus (set_cpu c k' s) !! c2 = Some k2 /\ idle k2 = t).
      rewrite Hi by done. split; intros (c2 & k2 & H2 & E2).
      * destruct (Hkl c2 k2 H2) as (k3 & ? & _ & ?). exists c2, k3. split; congruence.
      * destruct (Hlk c2 k2 H2) as (k3 & ? & _ & ? & _). exists c2, k3. split; congruence.
    + intros c2 k2 H2. destruct (Hlk c2 k2 H2) as (k3 & H3 & -> & -> & _). by apply (Hc c2).
    + intros c2 k2 H2 He. destruct (Hlk c2 k2 H2) as (k3 & H3 & -> & -> & _). by apply (Hr c2).
    + intros c1 c2 k1 k2 H1 H2. destruct (Hlk c1 k1 H1) as (k3 & H3 & -> & -> & _).
      destruct (Hlk c2 k2 H2) as (k4 & H4 & -> & -> & _). by apply Hap.
    + intros t Ht. destruct (Hrun t Ht) as (c2 & k2 & H2 & E2). destruct (Hkl c2 k2 H2) as (k3 & ? & ? & _).
      exists c2, k3. split; congruence.
  - apply (procs_ok_ext q s); [done | by apply same_views_threads | | by left].
    intros c2 k2 H2. destruct (Hlk c2 k2 H2) as (k3 & H3 & E & ?). rewrite E. split; [by apply (so_cpu _ _ _ Hs c2) |].
    left. exists k3. done.
Qed.

(** switch_context() touches no more than stack pointers. *)
Lemma switch_context_done s c k z prev id n : cpus s !! c = Some k -> switching k = Some (prev, id, n) ->
  still_there prev id s -> stack_free c n s -> exists s', switch_context c z s = Done s'.
Proof.
  intros Hk Hsw H1 H2. unfold switch_context, smp_this. rewrite Hk. cbn [mbind out_bind].
  rewrite Hsw, (bool_decide_true _ H1), (bool_decide_true _ H2). by eexists.
Qed.

Lemma switch_context_inv s c z s' : switch_context c z s = Done s' ->
  exists k prev id n, cpus s !! c = Some k /\ switching k = Some (prev, id, n) /\
    s' = set_cpu c (Cpu (current k) (idle k) (cpu_space k) (tss_stack k) (rsp (thr (on_thread prev (with_rsp z) s) n)) None)
           (on_thread prev (with_rsp z) s).
Proof.
  unfold switch_context, smp_this. destruct (cpus s !! c) as [k |] eqn:Hk; [| done]. cbn [mbind out_bind].
  destruct (switching k) as [[[prev id] n] |] eqn:Hsw; [| done]. destruct (negb _); [done |]. destruct (negb _); [done |].
  intros [= <-]. by exists k, prev, id, n.
Qed.

Lemma switch_context_ok e q s c z s' : sys_ok e q s -> switch_context c z s = Done s' -> sys_ok e q s'.
Proof.
  intros Hok (k & prev & id & n & Hk & _ & ->)%switch_context_inv. apply (set_cpu_ok _ _ _ _ k); [| done | done | done | done | done].
  apply (sys_ok_views e q s); try done; [apply length_on_thread |]. intros u. unfold nx, thr, on_thread.
  cbn [threads set_threads]. rewrite list_lookup_total_alter. case_decide as E; [| done]. destruct E as [-> _]. done.
Qed.

(** ** proc_kill() *)

Lemma unblock_loop_spec p n s : (n <= length (threads s))%nat ->
  let s' := foldl (unblock p) s (seq 0 n) in
  only_threads s s' /\ forall t, thr s' t =
    if decide ((t < n)%nat /\ proc (thr s t) = Some p /\ state (thr s t) = THREAD_BLOCKED)
    then with_wait THREAD_READY WAIT_NONE 0 (thr s t) else thr s t.
Proof.
  induction n as [| n IH]; intros Hn.
  - split; [apply only_threads_refl |]. intros t. rewrite decide_False by lia. done.
  - rewrite seq_S, foldl_app. cbn [Nat.add foldl]. specialize (IH ltac:(lia)). cbn zeta in IH.
    set (s1 := foldl _ s (seq 0 n)) in *. destruct IH as [Ho Ht].
    assert (Hn1 : thr s1 n = thr s n) by (rewrite Ht, decide_False by lia; done). unfold unblock. rewrite Hn1.
    destruct (bool_decide (proc (thr s n) = Some p) && bool_decide (state (thr s n) = THREAD_BLOCKED))%bool eqn:Eb.
    + apply andb_prop in Eb as [Eb1%bool_decide_eq_true Eb2%bool_decide_eq_true].
      split; [by apply only_threads_on_thread |]. intros t. rewrite thr_on_thread by (rewrite (proj2 Ho); lia).
      destruct (decide (t = n)) as [-> |]; [rewrite Hn1, decide_True by (split; [lia | done]); done |].
      rewrite Ht. erewrite decide_ext; [reflexivity |]. split; intros [? ?]; split; auto; lia.
    + split; [done |]. intros t. rewrite Ht. apply andb_false_iff in Eb. erewrite decide_ext; [reflexivity |].
      split; (intros [? [Hpr Hst]]; split; [| done]); [lia |]. destruct (decide (t = n)) as [-> |]; [| lia].
      destruct Eb as [Eb | Eb]; apply bool_decide_eq_false in Eb; done.
Qed.

Lemma unblock_threads_spec p s : length (threads s) = MAX_THREADS -> only_threads s (unblock_threads p s) /\
  forall t, thr (unblock_threads p s) t = thr s t \/ state (thr s t) = THREAD_BLOCKED /\
              thr (unblock_threads p s) t = with_wait THREAD_READY WAIT_NONE 0 (thr s t).
Proof.
  intros Hl. destruct (unblock_loop_spec p MAX_THREADS s) as [Ho Ht]; [by rewrite Hl |]. split; [done |].
  intros t. unfold unblock_threads. rewrite Ht. case_decide as E; [right | by left]. by destruct E as (_ & _ & ->).
Qed.

Lemma unblock_threads_ok e q s p : sys_ok e q s -> sys_ok e q (unblock_threads p s).
Proof.
  intros [Hs Hp]. pose proof (qo_len _ _ (so_queue _ _ _ Hs)) as Hlen.
  destruct (unblock_threads_spec p s Hlen) as [Ho Hcase]. set (s' := unblock_threads p s) in *.
  destruct (only_threads_eqs _ _ Ho) as (Eq & Ea & Ec & Epr & Ek & El & Enp & _).
  split.
  - apply (sched_ok_states e q s); [done | done | done | done | done |]. intros t. unfold nx, state_change.
    destruct (Hcase t) as [-> | (Hs' & ->)]; [split_and!; auto |]. split_and!; [done | done |]. right.
    split; [apply (so_members _ _ _ Hs); by rewrite Hs' |]. rewrite Hs'. split_and!; done.
  - apply (procs_ok_ext q s); [done | | by apply (cpus_kept e) |].
    + apply same_views_threads; [done | done | done |]. intros t _. destruct (Hcase t) as [-> | (Hs' & ->)]; [done |].
      rewrite Hs'. split_and!; done.
    + intros t p' _ Hb' Hc. left. destruct (Hcase t) as [E' | (_ & E')]; rewrite E' in *; done.
Qed.

Lemma proc_kill_ok e q s p : sys_ok e q s -> sys_ok e q (proc_kill p s).2.
Proof.
  intros Hok. unfold proc_kill. destruct (proc_by_pid p s) as [i |]; [| done].
  destruct (exited _); [done |]. cbn [snd]. apply unblock_threads_ok, on_process_ok; done.
Qed.

(** ** proc_exit() *)

(** The thread marked, the process marked, and everyone who waits for a child
    awake. *)
Record exit_step (q : list nat) (cur i : nat) (s s' : sys) : Prop := {
  es_rest : run_queue s' = run_queue s /\ active s' = active s /\ cpus s' = cpus s /\ kernel_proc s' = kernel_proc s /\
    length (threads s') = length (threads s) /\ length (processes s') = length (processes s) /\ next_pid s' = next_pid s;
  es_proc : forall j, prc s' j = if decide (j = i) then with_exit (exit_status (prc s' i)) (prc s i) else prc s j;
  es_cur : thr s' cur = with_cont InExit (with_state THREAD_ZOMBIE (thr s cur));
  es_other : forall t, t <> cur -> thr s' t = thr s t /\ (t ∈ q -> waits_for WAIT_CHILD (thr s t) = false) \/
    t ∈ q /\ thr s' t = woken (thr s t) /\ state (thr s t) = THREAD_BLOCKED }.

Lemma exit_step_ok c k i q s s' : sys_ok None q s -> cpus s !! c = Some k -> current k <> idle k ->
  proc (thr s (current k)) = Some (Sched.Proc i) -> used (prc s i) = true -> p_thread (prc s i) = Some (current k) ->
  exit_step q (current k) i s s' -> sys_ok (Some c) q s'.
Proof.
  intros Hok Hk Hni Hpr Hu Hpt [(Eq & Ea & Ec & Ek & El & Elp & Enp) Ep Ecur Eoth].
  pose proof (current_in q s c k Hok Hk) as Hin.
  assert (Hidle : is_idle (thr s (current k)) = false).
  { destruct (is_idle _) eqn:E; [| done]. by apply (current_idle q s c k Hok Hk) in E. }
  destruct Hok as [Hs Hp].
  assert (Htv : forall t, tview (thr s' t) = tview (thr s t) /\ nx s' t = nx s t).
  { intros t. unfold nx. destruct (decide (t = current k)) as [-> |]; [by rewrite Ecur |].
    destruct (Eoth t) as [[-> _] | (_ & -> & _)]; done. }
  assert (Hcont : forall t, t <> current k -> cont (thr s' t) = cont (thr s t) /\
            (state (thr s' t) = THREAD_ZOMBIE <-> state (thr s t) = THREAD_ZOMBIE)).
  { intros t Ht. destruct (Eoth t Ht) as [[-> _] | (_ & -> & ->)]; done. }
  split.
  - apply (sched_ok_states (Some c) q s); [by apply sched_ok_weaken | done | done | done | done |]. intros t.
    destruct (Htv t) as [Ev En]. unfold tview in Ev. injection Ev as _ Ei _ _. split_and!; [done | done |].
    unfold state_change. destruct (decide (t = current k)) as [-> | Hne].
    + right. rewrite Ecur. cbn. rewrite Hidle. split_and!; try done. intros _. by exists c, k.
    + destruct (Eoth t Hne) as [[-> _] | (Hq & -> & Hb)]; [by left | right]. rewrite Hb. split_and!; done.
  - assert (Hpv : forall j, used (prc s' j) = used (prc s j) /\ p_thread (prc s' j) = p_thread (prc s j) /\
               space (prc s' j) = space (prc s j) /\ pid (prc s' j) = pid (prc s j)).
    { intros j. rewrite Ep. case_decide; [by subst j | done]. }
    assert (Hsp : forall t, space_of s' t = space_of s t).
    { intros t. unfold space_of. destruct (Htv t) as [Ev _]. unfold tview in Ev. injection Ev as -> _ _ _.
      destruct (proc (thr s t)) as [[| j] |]; [by cbn; rewrite Ek | | done]. cbn. destruct (Hpv j) as (_ & _ & E & _).
      unfold prc in E. by rewrite E. }
    destruct Hp as [H1 H2 H3 H4 H5 H6 H7 Hnp Hpid Hpids H8 H9 H10 H11].
    assert (Hview : forall t, proc (thr s' t) = proc (thr s t) /\ is_idle (thr s' t) = is_idle (thr s t) /\
      kernel_stack (thr s' t) = kernel_stack (thr s t) /\ kernel_stack_size (thr s' t) = kernel_stack_size (thr s t)).
    { intros t. destruct (Htv t) as [Ev _]. unfold tview in Ev. by injection Ev as -> -> -> ->. }
    split.
    + congruence.
    + by rewrite Ek.
    + intros t. destruct (Hview t) as (-> & -> & _). apply H3.
    + intros t. destruct (Hview t) as (-> & -> & _). intros Hq Hi. destruct (H4 t Hq Hi) as (j & ?). exists j.
      destruct (Hpv j) as (-> & -> & _). done.
    + intros j. destruct (Hpv j) as (-> & -> & -> & _). intros Huj. destruct (H5 j Huj) as (t & a & ?). exists t, a.
      destruct (Hview t) as (-> & -> & _). done.
    + intros j t. destruct (Hpv j) as (-> & -> & _). intros Huj Htj. rewrite Ep. destruct (decide (j = i)) as [-> | Hji].
      * rewrite Hpt in Htj. injection Htj as <-. rewrite Ecur. done.
      * rewrite (H6 j t Huj Htj). symmetry. apply Hcont. intros ->. destruct (H5 j Huj) as (t' & a & E1 & _ & _ & E2 & _).
        rewrite Htj in E1. injection E1 as <-. congruence.
    + intros t Hq. destruct (decide (t = current k)) as [-> | Hne]; [by rewrite Ecur |].
      destruct (Hcont t Hne) as [-> ->]. by apply H7.
    + by rewrite Enp.
    + intros j. destruct (Hpv j) as (-> & _ & _ & ->). rewrite Enp. apply Hpid.
    + intros j j'. destruct (Hpv j) as (-> & _ & _ & ->). destruct (Hpv j') as (-> & _ & _ & ->). apply Hpids.
    + intros j j'. destruct (Hpv j) as (-> & _ & -> & _). destruct (Hpv j') as (-> & _ & -> & _). apply H8.
    + intros c' k'. rewrite Ec. intros Hk'. rewrite Hsp. by apply H9 with c'.
    + intros c' k'. rewrite Ec. intros Hk'. destruct (Hview (current k')) as (_ & _ & -> & ->). by apply H10 with c'.
    + intros t p Hq Hb Hco. exfalso. destruct (decide (t = current k)) as [-> | Hne]; [by rewrite Ecur in Hb |].
      destruct (Eoth t Hne) as [[E Hw] | (_ & E & _)]; rewrite E in *; [| done].
      destruct (H11 t p Hq Hb Hco) as [Hwr _]. specialize (Hw Hq). unfold waits_for in Hw.
      rewrite Hb, Hwr in Hw. done.
Qed.

(** proc_exit() is such a step and then schedule(). *)
Lemma proc_exit_cases c k status q s : sys_ok None q s -> cpus s !! c = Some k -> current k <> idle k ->
  exists i s', proc_exit c status s = schedule c s' /\ proc (thr s (current k)) = Some (Sched.Proc i) /\
    used (prc s i) = true /\ p_thread (prc s i) = Some (current k) /\ exit_step q (current k) i s s' /\
    exit_status (prc s' i) = status /\
    log s' = log s ++ [VfsCloseAll (Sched.Proc i); ShmUnmapAll (Sched.Proc i); DisplayRelease (pid (prc s i));
                       ServiceReap (pid (prc s i)) status].
Proof.
  intros Hok Hk Hni. destruct (proc_current_done q s c k Hok Hk) as (p & Ecur & Hpr & Hcase).
  destruct Hcase as [[_ Hi] | (i & -> & _ & Hu & Hpt)]; [done |].
  unfold proc_exit. rewrite Ecur. unfold smp_this. cbn [mbind out_bind]. rewrite Hk. cbn [mbind out_bind].
  rewrite decide_False by done. set (s1 := record (ServiceReap _ _) _).
  pose proof (current_range q s c k Hok Hk) as Hr. pose proof (prc_used_range s i Hu) as Hri.
  set (s2 := on_thread (current k) _ s1).
  assert (E2 : forall t, thr s2 t = if decide (t = current k) then with_cont InExit (with_state THREAD_ZOMBIE (thr s t)) else thr s t).
  { intros t. unfold s2. rewrite thr_on_thread by done. case_decide; [subst t |]; done. }
  assert (Hq2 : queue_ok q s2).
  { destruct Hok as [[[Q1 Q2 Q3 Q4 Q5] _ _ _ _ _ _ _ _] _]. split; [| done | done | | done].
    - unfold s2. by rewrite length_on_thread.
    - apply (cyc_ext (nx s)); [done |]. intros t _. unfold nx. rewrite E2. by case_decide. }
  unfold sched_wake. destruct (wake_queue_spec (waits_for WAIT_CHILD) q s2 Hq2) as (s3 & E3 & Ho & Ht3).
  rewrite E3. cbn [mbind out_bind]. destruct (only_threads_eqs _ _ Ho) as (Eq & Ea & Ec & Epr & Ek & El & Enp & Elog & _).
  assert (Hp2 : forall j, prc s2 j = if decide (j = i) then with_exit status (prc s i) else prc s j).
  { intros j. change (prc s2 j) with (prc (on_process (Sched.Proc i) (with_exit status) s) j). by apply prc_on_process. }
  exists i, s3. split; [done |]. split; [done |]. split; [done |]. split; [done |].
  assert (Hpi : prc s3 i = with_exit status (prc s i)).
  { unfold prc at 1. rewrite Epr. change (processes s2 !!! i) with (prc s2 i). rewrite Hp2. by rewrite decide_True. }
  split; [| split; [by rewrite Hpi |]].
  2:{ rewrite Elog. unfold s2, s1. cbn. rewrite <- !app_assoc. cbn. change (processes s !!! i) with (prc s i).
      unfold prc. by rewrite list_lookup_total_alter_eq. }
  split.
  - rewrite Eq, Ea, Ec, Ek, El, Epr, Enp. unfold s2. rewrite length_on_thread. split_and!; try done. apply length_alter.
  - intros j. unfold prc at 1 2. rewrite Epr. change (processes s2 !!! j) with (prc s2 j). change (processes s2 !!! i) with (prc s2 i).
    rewrite !Hp2. rewrite (decide_True (P := i = i)) by done. done.
  - rewrite Ht3, E2, decide_True by done. unfold waits_for. cbn. by rewrite andb_false_r.
  - intros t Hne. rewrite Ht3, E2, decide_False by done. case_bool_decide as Hq; cbn [andb]; [| by left].
    destruct (waits_for WAIT_CHILD (thr s t)) eqn:Ew; [right | by left]. split_and!; [done | done |].
    unfold waits_for in Ew. apply andb_prop in Ew as [Ew _]. by apply bool_decide_eq_true in Ew.
Qed.

Lemma proc_exit_ok c k status q s : sys_ok None q s -> cpus s !! c = Some k -> current k <> idle k ->
  exists s', proc_exit c status s = Done s' /\ sys_ok None q s'.
Proof.
  intros Hok Hk Hni. destruct (proc_exit_cases c k status q s Hok Hk Hni) as (i & s1 & -> & Hpr & Hu & Hpt & Hst & _).
  apply (schedule_sys_ok c k).
  - by apply (exit_step_ok c k i q s).
  - destruct (es_rest _ _ _ _ _ Hst) as (_ & _ & -> & _). done.
Qed.

(** ** The timer *)

Lemma sched_tick_ok c k ring3 q s : sys_ok None q s -> cpus s !! c = Some k -> (ring3 = true -> current k <> idle k) ->
  exists s', sched_tick c ring3 s = Done s' /\ sys_ok None q s'.
Proof.
  intros Hok Hk Hr3. unfold sched_tick. rewrite (so_active _ _ _ (proj1 Hok)). cbn [negb]. unfold smp_this. rewrite Hk.
  cbn [mbind out_bind]. pose proof (charge_tick_ok None q s (current k) Hok (current_range q s c k Hok Hk)) as Hok1.
  set (s1 := charge_tick _ s) in *. unfold wake_expired.
  destruct (wake_ok (expired (pit_ticks s)) None q s1) as (s2 & E2 & Hok2 & Ho & _); [| done |].
  { intros x Hx. unfold expired in Hx. apply andb_prop in Hx as [Hx _]. apply andb_prop in Hx as [Hx _].
    by apply bool_decide_eq_true in Hx. }
  rewrite E2. cbn [mbind out_bind].
  assert (Hk2 : cpus s2 !! c = Some k).
  { destruct (only_threads_eqs _ _ Ho) as (_ & _ & -> & _). unfold s1, charge_tick.
    destruct (proc _) as [[| j] |]; done. }
  destruct (proc_should_exit_done q s2 c k Hok2 Hk2) as (b & Eb & _). rewrite Eb. cbn [mbind out_bind].
  destruct (ring3 && b)%bool eqn:E3.
  - apply andb_prop in E3 as [E3 _]. by apply (proc_exit_ok c k); auto.
  - apply (schedule_sys_ok c k); [| done]. split; [apply sched_ok_weaken |]; apply Hok2.
Qed.

(** ** teardown() *)

Record teardown_step (q : list nat) (t i : nat) (s s' : sys) : Prop := {
  td_queue : queue_ok (without t q) s';
  td_rest : active s' = active s /\ cpus s' = cpus s /\ kernel_proc s' = kernel_proc s /\ next_pid s' = next_pid s /\
    length (processes s') = length (processes s);
  td_thread : forall u, u <> t -> thr s' u = with_next (nx s' u) (thr s u);
  td_gone : state (thr s' t) = THREAD_UNUSED /\ is_idle (thr s' t) = is_idle (thr s t);
  td_proc : forall j, prc s' j = if decide (j = i) then with_gone None None false (prc s i) else prc s j }.

Lemma elem_of_without t u q : u ∈ without t q <-> u ∈ q /\ u <> t.
Proof. unfold without. rewrite list_elem_of_filter. tauto. Qed.

Section teardown.
Context (q : list nat) (t i : nat) (s s' : sys).
Context (Hok : sys_ok None q s) (Hu : used (prc s i) = true) (Hpt : p_thread (prc s i) = Some t).
Context (Hz : state (thr s t) = THREAD_ZOMBIE) (Hst : teardown_step q t i s s').

Lemma teardown_not_idle : is_idle (thr s t) = false.
Proof.
  destruct Hok as [_ Hp]. destruct (po_proc _ _ Hp i Hu) as (t' & a & E & _ & Hi & _). congruence.
Qed.

Lemma teardown_not_loaded c k : cpus s !! c = Some k -> current k <> t /\ idle k <> t.
Proof.
  intros Hk. pose proof teardown_not_idle as Hni. split; intros E.
  - apply (current_alive q s c k Hok Hk). by rewrite E.
  - destruct Hok as [Hs _]. destruct (so_cpu _ _ _ Hs c k Hk) as [_ Hin].
    assert (is_idle (thr s (idle k)) = true) by (apply (so_idle _ _ _ Hs); eauto). congruence.
Qed.

Lemma teardown_thread_view u : u <> t -> state (thr s' u) = state (thr s u) /\ is_idle (thr s' u) = is_idle (thr s u) /\
  proc (thr s' u) = proc (thr s u) /\ kernel_stack (thr s' u) = kernel_stack (thr s u) /\
  kernel_stack_size (thr s' u) = kernel_stack_size (thr s u) /\ cont (thr s' u) = cont (thr s u) /\
  wait_reason (thr s' u) = wait_reason (thr s u).
Proof. intros H. rewrite (td_thread _ _ _ _ _ Hst u H). done. Qed.

Lemma teardown_sched_ok : sched_ok None (without t q) s'.
Proof.
  destruct Hok as [[Hq Ha Hm Hi Hc Hr Hap Hrun Hal] _]. destruct Hst as [Tq (Ea & Ec & _) _ [Tg Tgi] _].
  pose proof teardown_thread_view as Hv. split; [done | by rewrite Ea | | | | | by rewrite Ec | |].
  - intros u. rewrite elem_of_without, Hm. destruct (decide (u = t)) as [-> |].
    + rewrite Tg. split; [by intros [_ ?] | done].
    + destruct (Hv u) as (-> & _); [done |]. tauto.
  - intros u Hin. apply elem_of_without in Hin as [Hin Hne]. destruct (Hv u Hne) as (_ & -> & _). rewrite Ec. by apply Hi.
  - intros c k. rewrite Ec. intros Hk. destruct (teardown_not_loaded c k Hk). rewrite !elem_of_without.
    destruct (Hc c k Hk). done.
  - intros c k. rewrite Ec. intros Hk He. destruct (teardown_not_loaded c k Hk) as [Hn _]. destruct (Hv _ Hn) as (-> & _).
    by apply (Hr c).
  - intros u Hs. rewrite Ec. apply Hrun. destruct (decide (u = t)) as [-> | Hne]; [congruence |].
    by destruct (Hv u Hne) as (<- & _).
  - intros u Hid. destruct (decide (u = t)) as [-> | Hne]; [by rewrite Tg |].
    destruct (Hv u Hne) as (-> & E & _). rewrite E in Hid. by apply Hal.
Qed.

Lemma teardown_used j : used (prc s' j) = true -> j <> i /\ used (prc s j) = true /\ prc s' j = prc s j /\
  forall u, p_thread (prc s j) = Some u -> u <> t.
Proof.
  rewrite (td_proc _ _ _ _ _ Hst j). case_decide as E; [done |]. intros Hj. split_and!; [done | done | done |].
  intros u Hpu ->. destruct Hok as [_ Hp]. destruct (po_proc _ _ Hp j Hj) as (t1 & a1 & E1 & _ & _ & Hp1 & _).
  destruct (po_proc _ _ Hp i Hu) as (t2 & a2 & E2 & _ & _ & Hp2 & _). congruence.
Qed.

Lemma teardown_space u : u ∈ q -> u <> t -> space_of s' u = space_of s u.
Proof.
  intros Hin Hne. unfold space_of. destruct (teardown_thread_view u Hne) as (_ & _ & -> & _).
  destruct Hok as [_ Hp]. destruct (is_idle (thr s u)) eqn:Ei.
  - rewrite (po_idle _ _ Hp u Hin Ei). cbn. destruct (td_rest _ _ _ _ _ Hst) as (_ & _ & -> & _). done.
  - destruct (po_thread _ _ Hp u Hin Ei) as (j & -> & Huj & Hpj). cbn. change (processes s' !!! j) with (prc s' j).
    rewrite (td_proc _ _ _ _ _ Hst j), decide_False; [done |]. intros ->. congruence.
Qed.

Lemma teardown_procs_ok : procs_ok (without t q) s'.
Proof.
  pose proof teardown_thread_view as Hv. pose proof teardown_used as Hus. pose proof teardown_space as Hsp.
  pose proof teardown_not_loaded as Hnl. destruct Hok as [Hs [H1 H2 H3 H4 H5 H6 H7 Hnp Hpid Hpids H8 H9 H10 H11]].
  destruct (td_rest _ _ _ _ _ Hst) as (_ & Ec & Ek & En & El). split.
  - congruence.
  - by rewrite Ek.
  - intros u [Hin Hne]%elem_of_without. destruct (Hv u Hne) as (_ & -> & -> & _). by apply H3.
  - intros u [Hin Hne]%elem_of_without. destruct (Hv u Hne) as (_ & -> & -> & _). intros Hi.
    destruct (H4 u Hin Hi) as (j & ? & Huj & Hpj). exists j. rewrite (td_proc _ _ _ _ _ Hst j), decide_False; [done |].
    intros ->. congruence.
  - intros j Hj. destruct (Hus j Hj) as (_ & Huj & -> & Hd). destruct (H5 j Huj) as (u & a & Hpu & Hin & ?).
    exists u, a. specialize (Hd u Hpu). destruct (Hv u Hd) as (_ & -> & -> & _). rewrite elem_of_without. done.
  - intros j u Hj Hpu. destruct (Hus j Hj) as (_ & Huj & E & Hd). rewrite E in *.
    destruct (Hv u (Hd u Hpu)) as (-> & _). by apply H6.
  - intros u [Hin Hne]%elem_of_without. destruct (Hv u Hne) as (-> & _ & _ & _ & _ & -> & _). by apply H7.
  - by rewrite En.
  - intros j Hj. destruct (Hus j Hj) as (_ & Huj & -> & _). rewrite En. by apply Hpid.
  - intros j j' Hj Hj'. destruct (Hus j Hj) as (_ & Huj & -> & _). destruct (Hus j' Hj') as (_ & Huj' & -> & _). by apply Hpids.
  - intros j j' Hj Hj'. destruct (Hus j Hj) as (_ & Huj & -> & _). destruct (Hus j' Hj') as (_ & Huj' & -> & _). by apply H8.
  - intros c k. rewrite Ec. intros Hk. destruct (Hnl c k Hk) as [Hn _]. rewrite Hsp; [by apply H9 with c | | done].
    by apply (so_cpu _ _ _ Hs c).
  - intros c k. rewrite Ec. intros Hk. destruct (Hnl c k Hk) as [Hn _]. destruct (Hv _ Hn) as (_ & _ & _ & -> & -> & _).
    by apply H10 with c.
  - intros u p [Hin Hne]%elem_of_without. destruct (Hv u Hne) as (-> & _ & -> & _ & _ & -> & ->). intros Hb Hc.
    destruct (H11 u p Hin Hb Hc) as [-> Hn]. split; [done |]. intros par j Hpar Hch.
    pose proof (child_of_used _ _ _ Hch) as Hj. destruct (Hus j Hj) as (_ & Huj & E & Hd). rewrite E in *.
    specialize (Hn par j Hpar Hch). revert Hn. unfold reapable. destruct (H5 j Huj) as (v & a & Hpv & _). rewrite Hpv.
    destruct (Hv v (Hd v Hpv)) as (-> & _). done.
Qed.
End teardown.

(** The stack and the tables it gives back. *)
Definition freed (s : sys) (t : nat) (a : Z) : list event :=
  (if kernel_stack (thr s t) =? 0 then [] else [FreeStack (kernel_stack (thr s t))]) ++ [FreeSpace (Space a)].

Lemma teardown_done q t i a s c k : sys_ok None q s -> cpus s !! c = Some k -> used (prc s i) = true ->
  p_thread (prc s i) = Some t -> space (prc s i) = Some (Space a) -> state (thr s t) = THREAD_ZOMBIE ->
  exists s', teardown i s = Done s' /\ teardown_step q t i s s' /\ log s' = log s ++ freed s t a.
Proof.
  intros Hok Hk Hu Hpt Hsp Hz. destruct Hok as [Hs Hp]. pose proof (so_queue _ _ _ Hs) as Hq.
  assert (Hin : t ∈ q) by (apply (so_members _ _ _ Hs); by rewrite Hz).
  assert (Hne : q <> [t]).
  { intros E. destruct (so_cpu _ _ _ Hs c k Hk) as [_ Hi]. rewrite E in Hi. apply list_elem_of_singleton in Hi.
    apply (so_alive _ _ _ Hs t); [| done]. rewrite <- Hi. apply (so_idle _ _ _ Hs); [by apply (so_cpu _ _ _ Hs c) | eauto]. }
  destruct (sched_remove_spec t q s Hq Hin Hne) as (s1 & E1 & Hq1 & Hr1 & Es1).
  pose proof (prc_used_range s i Hu) as Hri.
  unfold teardown. change (processes s !!! i) with (prc s i). rewrite Hpt. unfold teardown_thread. rewrite E1.
  cbn [mbind out_bind].
  assert (Hks : kernel_stack (thr s1 t) = kernel_stack (thr s t)) by by rewrite Hr1.
  rewrite Hks. set (s2 := if kernel_stack (thr s t) =? 0 then s1 else _).
  assert (E2 : threads s2 = threads s1 /\ run_queue s2 = run_queue s1 /\ active s2 = active s /\ cpus s2 = cpus s /\
    processes s2 = processes s /\ kernel_proc s2 = kernel_proc s /\ next_pid s2 = next_pid s /\
    log s2 = log s ++ (if kernel_stack (thr s t) =? 0 then [] else [FreeStack (kernel_stack (thr s t))])).
  { unfold s2. rewrite Es1. destruct (kernel_stack (thr s t) =? 0); cbn; rewrite ?app_nil_r; done. }
  destruct E2 as (Et & Erq & Ea & Ec & Ep & Ek & En & Elog). clearbody s2.
  assert (Hsp2 : space (processes (on_process (Sched.Proc i) (fun p => with_gone None (space p) (used p) p)
                  (on_thread t (with_state THREAD_UNUSED) s2)) !!! i) = Some (Space a)).
  { cbn. rewrite Ep, list_lookup_total_alter_eq by done. exact Hsp. }
  rewrite Hsp2. cbn [mbind out_bind]. eexists. split; [reflexivity |].
  set (s3 := on_thread t (with_state THREAD_UNUSED) s2).
  assert (Hlen : (t < length (threads s2))%nat).
  { rewrite Et, (qo_len _ _ Hq1). by apply (qo_range _ _ Hq). }
  assert (Ht3 : forall u, thr s3 u = if decide (u = t) then with_state THREAD_UNUSED (thr s1 u) else thr s1 u).
  { intros u. unfold s3. rewrite thr_on_thread by done. unfold thr. rewrite Et. case_decide; [by subst u | done]. }
  split; [split |].
  - destruct Hq1 as [Q1 Q2 Q3 Q4 Q5]. split; [| | done | | done].
    + cbn. by rewrite length_alter, Et.
    + cbn. by rewrite Erq.
    + apply (cyc_ext (nx s1)); [done |]. intros u _. change (nx s3 u = nx s1 u). unfold nx. rewrite Ht3. by case_decide.
  - cbn. rewrite !length_alter, Ep. done.
  - intros u Hut. change (thr s3 u = with_next (nx s3 u) (thr s u)). unfold nx. rewrite Ht3, decide_False by done. apply Hr1.
  - change (state (thr s3 t) = THREAD_UNUSED /\ is_idle (thr s3 t) = is_idle (thr s t)). rewrite Ht3, decide_True by done.
    rewrite Hr1. done.
  - intros j. unfold prc at 1. cbn. rewrite Ep. destruct (decide (j = i)) as [-> |].
    + rewrite !list_lookup_total_alter_eq by by rewrite ?length_alter. done.
    + by rewrite !list_lookup_total_alter_ne by done.
  - cbn. rewrite Elog, <- app_assoc. done.
Qed.

Lemma teardown_ok q t i s c k : sys_ok None q s -> cpus s !! c = Some k -> used (prc s i) = true ->
  p_thread (prc s i) = Some t -> state (thr s t) = THREAD_ZOMBIE ->
  exists s', teardown i s = Done s' /\ sys_ok None (without t q) s' /\ cpus s' = cpus s /\ teardown_step q t i s s'.
Proof.
  intros Hok Hk Hu Hpt Hz. destruct (po_proc _ _ (proj2 Hok) i Hu) as (_ & a & _ & _ & _ & _ & Hsp).
  destruct (teardown_done q t i a s c k Hok Hk Hu Hpt Hsp Hz) as (s' & E & Hst & _). exists s'. split; [done |].
  split; [split |].
  - by apply (teardown_sched_ok q t i s).
  - by apply (teardown_procs_ok q t i s).
  - split; [apply (td_rest _ _ _ _ _ Hst) | done].
Qed.

Lemma reapable_thread q s i : sys_ok None q s -> used (prc s i) = true -> reapable s (prc s i) = true ->
  exists t, p_thread (prc s i) = Some t /\ state (thr s t) = THREAD_ZOMBIE.
Proof.
  intros [_ Hp] Hu Hr. destruct (po_proc _ _ Hp i Hu) as (t & a & Hpt & _). exists t. split; [done |].
  unfold reapable in Hr. rewrite Hpt in Hr. apply andb_prop in Hr as [_ Hr]. by apply bool_decide_eq_true in Hr.
Qed.

(** What reap_one() answers: the first child that can be torn down, if there is
    one, and whether there are children at all. *)
Definition reaps (par : pref) (p : Z) (slots : list nat) (any : bool) (q : list nat) (s : sys)
    (r : Z * Z * bool * sys) : Prop :=
  let '(z, status, any', s') := r in
  (z = - W_ECHILD /\ status = 0 /\ s' = s /\
   (forall i, i ∈ slots -> child_of par p (prc s i) = true -> reapable s (prc s i) = false) /\
   any' = (any || existsb (fun i => child_of par p (prc s i)) slots)%bool) \/
  exists i t, i ∈ slots /\ child_of par p (prc s i) = true /\ reapable s (prc s i) = true /\ any' = true /\
    z = pid (prc s i) /\ status = exit_status (prc s i) /\ p_thread (prc s i) = Some t /\
    teardown_step q t i s s' /\ sys_ok None (without t q) s'.

Lemma reap_loop_ok par p q s c k : sys_ok None q s -> cpus s !! c = Some k -> forall slots any,
  exists r, reap_loop par p slots any s = Done r /\ reaps par p slots any q s r.
Proof.
  intros Hok Hk. induction slots as [| i slots IH]; intros any; cbn [reap_loop].
  - eexists. split; [done |]. left. rewrite orb_false_r. split_and!; try done. intros i Hi. set_solver +Hi.
  - change (processes s !!! i) with (prc s i). destruct (child_of par p (prc s i)) eqn:Ec; cbn [negb].
    + destruct (reapable s (prc s i)) eqn:Er; cbn [negb].
      * destruct (reapable_thread q s i Hok (child_of_used _ _ _ Ec) Er) as (t & Hpt & Hz).
        destruct (teardown_ok q t i s c k Hok Hk (child_of_used _ _ _ Ec) Hpt Hz) as (s' & -> & Hok' & _ & Hst).
        cbn [mbind out_bind]. eexists. split; [done |]. right. exists i, t. split_and!; try done. set_solver +.
      * destruct (IH true) as ([[[z st] any'] s'] & -> & Hr). eexists. split; [done |].
        destruct Hr as [(-> & -> & -> & Hn & ->) | (j & t & Hj & ?)].
        -- left. cbn [existsb]. rewrite Ec. cbn [orb]. rewrite orb_true_r. split_and!; try done.
           intros j [-> | Hj]%elem_of_cons; [done | by apply Hn].
        -- right. exists j, t. split; [set_solver +Hj | done].
    + destruct (IH any) as ([[[z st] any'] s'] & -> & Hr). eexists. split; [done |].
      destruct Hr as [(-> & -> & -> & Hn & ->) | (j & t & Hj & ?)].
      * left. cbn [existsb]. rewrite Ec. cbn [orb]. split_and!; try done.
        intros j [-> | Hj]%elem_of_cons; [congruence | by apply Hn].
      * right. exists j, t. split; [set_solver +Hj | done].
Qed.

Lemma queue_nonempty q s c k : sys_ok None q s -> cpus s !! c = Some k -> q <> [].
Proof. intros [Hs _] Hk ->. destruct (so_cpu _ _ _ Hs c k Hk) as [Hin _]. set_solver +Hin. Qed.

(** What proc_wait() does: it reaps a child and reports it, or there is none to
    wait for, or there are but none has ended, and the thread goes to sleep. *)
Definition waits (c : nat) (par : pref) (p : Z) (q : list nat) (s : sys) (r : option (Z * Z)) (s' : sys) : Prop :=
  (exists i t, child_of par p (prc s i) = true /\ reapable s (prc s i) = true /\
     r = Some (pid (prc s i), exit_status (prc s i)) /\ p_thread (prc s i) = Some t /\
     teardown_step q t i s s' /\ sys_ok None (without t q) s') \/
  (r = Some (- W_ECHILD, 0) /\ s' = s /\ (forall i, child_of par p (prc s i) = false)) \/
  (r = None /\ (exists i, child_of par p (prc s i) = true) /\
     (forall i, child_of par p (prc s i) = true -> reapable s (prc s i) = false) /\
     block_on c WAIT_CHILD 0 (InWait p) s = Done s' /\ sys_ok None q s').

Lemma child_slot q par p s i : procs_ok q s -> child_of par p (prc s i) = true -> i ∈ seq 0 MAX_PROCESSES.
Proof.
  intros Hp Hc. apply elem_of_seq. pose proof (prc_used_range s i (child_of_used _ _ _ Hc)). rewrite (po_len _ _ Hp) in *. lia.
Qed.

Lemma proc_wait_ok c k par p q s : sys_ok None q s -> cpus s !! c = Some k -> proc (thr s (current k)) = Some par ->
  exists r s', proc_wait c p s = Done (r, s') /\ waits c par p q s r s'.
Proof.
  intros Hok Hk Hpar. destruct (proc_current_done q s c k Hok Hk) as (par' & Ecur & Epar & _).
  rewrite Hpar in Epar. injection Epar as <-. unfold proc_wait. rewrite Ecur. unfold reap_one.
  assert (Hslot : forall i, child_of par p (prc s i) = true -> i ∈ seq 0 MAX_PROCESSES).
  { intros i Hi. by apply (child_slot q par p s); [apply Hok |]. }
  generalize (seq 0 MAX_PROCESSES), Hslot. clear Hslot. intros slots Hslot.
  destruct (reap_loop_ok par p q s c k Hok Hk slots false) as ([[[z st] any] s1] & E & Hr).
  cbn [mbind out_bind]. rewrite E. cbn [mbind out_bind].
  destruct Hr as [(-> & -> & -> & Hn & ->) | (i & t & _ & Hc & Hre & -> & -> & -> & Hpt & Hst & Hok')].
  - assert (Hnone : forall i, child_of par p (prc s i) = true -> reapable s (prc s i) = false) by auto.
    rewrite orb_false_l. destruct (existsb (fun i => child_of par p (prc s i)) slots) eqn:Ex.
    + destruct (block_ok q s c k Hok Hk WAIT_CHILD 0 (InWait p)) as (s' & Eb & Hok').
      { split; [done |]. intros p' [= <-]. split; [done |]. intros par' i Hpar' Hi. apply Hnone. congruence. }
      exists None, s'. split; [cbn; by rewrite Eb |]. right. right. split_and!; try done.
      apply existsb_exists in Ex as (i & _ & Hi). by exists i.
    + exists (Some (- W_ECHILD, 0)), s. split; [done |]. right. left. split_and!; [done | done |]. intros i.
      destruct (child_of par p (prc s i)) eqn:Ei; [| done]. exfalso.
      assert (existsb (fun i => child_of par p (prc s i)) slots = true); [| congruence].
      apply existsb_exists. exists i. split; [| done]. by apply list_elem_of_In, Hslot.
  - pose proof (po_pid _ _ (proj2 Hok) i (child_of_used _ _ _ Hc)) as [Hpid _].
    rewrite (proj2 (Z.leb_le 0 _)) by lia. eexists _, s1. split; [done |]. left. exists i, t. split_and!; done.
Qed.

Lemma waits_ok c k par p q s r s' : sys_ok None q s -> cpus s !! c = Some k ->
  waits c par p q s r s' -> exists q', sys_ok None q' s' /\ q' <> [].
Proof.
  intros Hok Hk [(i & t & _ & _ & _ & _ & Hst & Hok') | [(_ & -> & _) | (_ & _ & _ & _ & ?)]].
  - exists (without t q). split; [done |]. apply (queue_nonempty _ s' c k); [done |].
    destruct (td_rest _ _ _ _ _ Hst) as (_ & -> & _). done.
  - exists q. split; [done |]. by apply (queue_nonempty _ s c k).
  - exists q. split; [done |]. by apply (queue_nonempty _ s c k).
Qed.

Lemma proc_reap_ok c k q s : sys_ok None q s -> cpus s !! c = Some k ->
  exists par z st any s', proc (thr s (current k)) = Some par /\ proc_reap c s = Done (z, st, s') /\
    reaps par (-1) (seq 0 MAX_PROCESSES) false q s (z, st, any, s').
Proof.
  intros Hok Hk. destruct (proc_current_done q s c k Hok Hk) as (par & Ecur & Epar & _). unfold proc_reap.
  unfold reap_one. rewrite Ecur. generalize (seq 0 MAX_PROCESSES). intros slots.
  destruct (reap_loop_ok par (-1) q s c k Hok Hk slots false) as ([[[z st] any] s1] & E & Hr).
  exists par, z, st, any, s1. split_and!; [done | cbn; by rewrite E | exact Hr].
Qed.

Lemma orphans_loop_ok me keep c k : forall slots q s n, sys_ok None q s -> cpus s !! c = Some k ->
  exists m q' s', orphans_loop me keep slots n s = Done (m, s') /\ sys_ok None q' s' /\ cpus s' = cpus s.
Proof.
  induction slots as [| i slots IH]; intros q s n Hok Hk; cbn [orphans_loop]; [by exists n, q, s |].
  change (processes s !!! i) with (prc s i). destruct (used (prc s i)) eqn:Hu; cbn [negb orb]; [| by apply (IH q)].
  destruct (bool_decide (parent (prc s i) = Some me)); cbn [negb orb]; [| by apply (IH q)].
  destruct (reapable s (prc s i)) eqn:Hr; cbn [negb orb]; [| by apply (IH q)].
  destruct ((0 <? keep) && (pid (prc s i) =? keep))%bool; [by apply (IH q) |].
  destruct (reapable_thread q s i Hok Hu Hr) as (t & Hpt & Hz).
  destruct (teardown_ok q t i s c k Hok Hk Hu Hpt Hz) as (s1 & -> & Hok1 & Ec & _). cbn [mbind out_bind].
  destruct (IH (without t q) s1 (n + 1) Hok1) as (m & q' & s' & E & Hok' & Ec'); [by rewrite Ec |].
  exists m, q', s'. split_and!; [done | done | congruence].
Qed.

(** Coming out of a wait. *)
Definition awake (s : sys) (t : nat) : sys := on_thread t (with_cont ToUser) s.

Lemma awake_ok c k q s : sys_ok None q s -> cpus s !! c = Some k -> sys_ok None q (awake s (current k)) /\
  cont (thr s (current k)) <> InExit /\
  forall u, thr (awake s (current k)) u = if decide (u = current k) then with_cont ToUser (thr s u) else thr s u.
Proof.
  intros Hok Hk. pose proof (current_range q s c k Hok Hk) as Hr. pose proof (current_in q s c k Hok Hk) as Hin.
  assert (Hnx : cont (thr s (current k)) <> InExit).
  { intros E. apply (po_exit_cont _ _ (proj2 Hok)) in E; [| done]. by apply (current_alive q s c k Hok Hk). }
  assert (Ht : forall u, thr (awake s (current k)) u = if decide (u = current k) then with_cont ToUser (thr s u) else thr s u).
  { intros u. unfold awake. rewrite thr_on_thread by done. case_decide; [by subst u | done]. }
  split_and!; [| done | done]. destruct Hok as [Hs Hp]. split.
  - apply (sched_ok_states None q s); [done | apply length_on_thread | done | done | done |]. intros u.
    unfold nx, state_change. rewrite !Ht. case_decide; split_and!; auto.
  - apply (procs_ok_ext q s); [done | | by apply (cpus_kept None) |].
    + apply same_views_threads; [done | done | done |]. intros u Hu. rewrite Ht. case_decide; [subst u | done].
      split_and!; done.
    + intros u p _. rewrite Ht. case_decide; [done | by left].
Qed.

(** What resume() comes to. *)
Inductive resumed (c : nat) (k : smpcpu) (q : list nat) (s : sys) : out (option (Z * Z) * sys) -> Prop :=
| resumed_same : resumed c k q s (Done (None, s))
| resumed_user : resumed c k q s (Done (None, awake s (current k)))
| resumed_exit : current k <> idle k -> resumed c k q s (x ← proc_exit c (-1) (awake s (current k)); Done (None, x))
| resumed_wait p : resumed c k q s (proc_wait c p (awake s (current k))).

Lemma resume_cases c k q s : sys_ok None q s -> cpus s !! c = Some k -> resumed c k q s (resume c s).
Proof.
  intros Hok Hk. destruct (awake_ok c k q s Hok Hk) as (_ & Hnx & _). unfold resume, smp_this. rewrite Hk. cbn [mbind out_bind].
  destruct (proc_should_exit_done q s c k Hok Hk) as (b & -> & Hb). cbn [mbind out_bind]. fold (awake s (current k)).
  destruct (cont (thr s (current k))) as [| | p |]; [constructor | | | done]; destruct b; [| constructor | | constructor];
    (apply resumed_exit; by apply Hb).
Qed.

Lemma resume_ok c k q s : sys_ok None q s -> cpus s !! c = Some k ->
  exists r q' s', resume c s = Done (r, s') /\ sys_ok None q' s' /\ q' <> [].
Proof.
  intros Hok Hk. destruct (awake_ok c k q s Hok Hk) as (Hok1 & _ & _). pose proof (queue_nonempty q s c k Hok Hk) as Hq0.
  destruct (resume_cases c k q s Hok Hk) as [| | Hi | p].
  - by exists None, q, s.
  - by eexists None, q, _.
  - destruct (proc_exit_ok c k (-1) q _ Hok1 Hk Hi) as (s' & -> & ?). by exists None, q, s'.
  - destruct (proc_current_done q _ c k Hok1 Hk) as (par & _ & Epar & _).
    destruct (proc_wait_ok c k par p q _ Hok1 Hk Epar) as (r & s' & -> & Hw).
    destruct (waits_ok c k par p q _ r s' Hok1 Hk Hw) as [q' ?]. by exists r, q', s'.
Qed.

(** ** Starting

    [touches t i s s']: apart from thread [t] and process [i], which are not in
    use, nothing the invariant reads has changed. *)
Record touches (t i : nat) (s s' : sys) : Prop := {
  to_rest : run_queue s' = run_queue s /\ active s' = active s /\ cpus s' = cpus s /\
    length (threads s') = length (threads s) /\ length (processes s') = length (processes s);
  to_kernel : space (kernel_proc s') = space (kernel_proc s) /\ killed (kernel_proc s') = killed (kernel_proc s);
  to_pid : next_pid s <= next_pid s';
  to_thread : forall u, u <> t -> thr s' u = thr s u;
  to_proc : forall j, j <> i -> pview (prc s' j) = pview (prc s j) }.

#[export] Instance touches_preorder t i : PreOrder (touches t i).
Proof.
  split; [split; try done; lia |].
  intros s1 s2 s3 [(A1 & A2 & A3 & A4 & A5) [B1 B2] C D E] [(A1' & A2' & A3' & A4' & A5') [B1' B2'] C' D' E'].
  split; [split_and!; congruence | split; congruence | lia | |].
  - intros u Hu. rewrite D', D by done. done.
  - intros j Hj. rewrite E', E by done. done.
Qed.

Lemma touches_on_thread t i f s : touches t i s (on_thread t f s).
Proof.
  split; [| done | done | |].
  - rewrite length_on_thread. done.
  - intros u Hu. unfold thr, on_thread. cbn [threads set_threads]. by rewrite list_lookup_total_alter_ne.
  - done.
Qed.

Lemma touches_on_process t i f s : touches t i s (on_process (Sched.Proc i) f s).
Proof.
  split; [| done | done | done |].
  - rewrite length_on_process. done.
  - intros j Hj. unfold prc. cbn. by rewrite list_lookup_total_alter_ne.
Qed.

Lemma touches_view t i p f s : (forall x, pview (f x) = pview x) -> (forall x, killed (f x) = killed x) ->
  touches t i s (on_process p f s).
Proof.
  intros Hf Hk. split; [by destruct p; cbn; rewrite ?length_alter | | by destruct p | by destruct p |].
  - destruct p; [| done]. cbn. rewrite Hk. split; [| done]. pose proof (Hf (kernel_proc s)) as E. unfold pview in E.
    by injection E.
  - intros j _. by apply on_process_view.
Qed.

Lemma touches_record t i ev s : touches t i s (record ev s).
Proof. split; done. Qed.

Lemma touches_ids t i np nt s : next_pid s <= np -> touches t i s (set_ids np nt s).
Proof. split; done. Qed.

(** Nothing comes of it. *)
Lemma touches_ok e t i q s s' : sys_ok e q s -> touches t i s s' -> t ∉ q -> used (prc s i) = false ->
  state (thr s' t) = THREAD_UNUSED -> used (prc s' i) = false -> sys_ok e q s'.
Proof.
  intros [Hs Hp] [(Eq & Ea & Ec & El & Elp) Ek En Et Ep] Htq Hui Hut Hui'.
  assert (Hthr : forall u, u ∈ q -> thr s' u = thr s u) by (intros u Hu; apply Et; by intros ->).
  split.
  - apply (sched_ok_local e q s); [done | done | done | done | done | |].
    + intros u Hu. unfold nx, state_change. rewrite Hthr by done. split_and!; auto.
    + intros u Hu. destruct (decide (u = t)) as [-> |]; [done |]. rewrite Et by done. by apply (sched_ok_unused e q).
  - apply (procs_ok_ext q s); [done | | by apply (cpus_kept e) |].
    + split; [done | done | done | | |].
      * intros j. destruct (decide (j = i)) as [-> | Hj]; [congruence |]. specialize (Ep j Hj). unfold pview in Ep. by injection Ep.
      * intros j Hj. apply Ep. intros ->. congruence.
      * intros u Hu. by rewrite Hthr.
    + intros u p Hu. rewrite Hthr by done. by left.
Qed.

(** A process and its thread that are complete. *)
Record newborn (t i : nat) (a : Z) (s s1 : sys) : Prop := {
  nb_thread : state (thr s1 t) = THREAD_READY /\ is_idle (thr s1 t) = false /\ proc (thr s1 t) = Some (Sched.Proc i) /\
    cont (thr s1 t) = ToUser;
  nb_proc : used (prc s1 i) = true /\ p_thread (prc s1 i) = Some t /\ space (prc s1 i) = Some (Space a) /\
    exited (prc s1 i) = false /\ pid (prc s1 i) = next_pid s /\ next_pid s < next_pid s1;
  nb_fresh : forall j, used (prc s j) = true -> space (prc s j) <> Some (Space a) }.

Section newborn.
Context (t i : nat) (a : Z) (h : nat) (l : list nat) (s s1 : sys).
Context (Hok : sys_ok None (h :: l) s) (Hto : touches t i s s1) (Htq : t ∉ h :: l) (Ht : (t < MAX_THREADS)%nat).
Context (Hui : used (prc s i) = false) (Hnb : newborn t i a s s1).

Lemma newborn_queue : queue_ok (h :: l) s1.
Proof.
  destruct Hok as [Hs _]. destruct (so_queue _ _ _ Hs) as [Q1 Q2 Q3 Q4 Q5].
  destruct (to_rest _ _ _ _ Hto) as (Eq & _ & _ & El & _). split; [by rewrite El | by rewrite Eq | done | | done].
  apply (cyc_ext (nx s)); [done |]. intros u Hu. unfold nx. rewrite (to_thread _ _ _ _ Hto); [done |]. by intros ->.
Qed.

Notation s' := (sched_add t s1).

Lemma newborn_rest : queue_ok (h :: t :: l) s' /\ active s' = active s /\ cpus s' = cpus s /\
  kernel_proc s' = kernel_proc s1 /\ next_pid s' = next_pid s1 /\ length (processes s') = length (processes s) /\
  (forall j, prc s' j = prc s1 j) /\ forall u, thr s' u = with_next (nx s' u) (thr s1 u).
Proof.
  destruct (sched_add_spec t h l s1 newborn_queue Htq Ht) as (Hq & Ho & Hr).
  destruct (only_threads_eqs _ _ Ho) as (_ & -> & -> & Epr & -> & _ & -> & _).
  destruct (to_rest _ _ _ _ Hto) as (_ & -> & -> & _ & Elp). unfold prc. rewrite Epr. done.
Qed.

Lemma newborn_old u : u <> t -> thr s' u = with_next (nx s' u) (thr s u).
Proof. intros Hu. destruct newborn_rest as (_ & _ & _ & _ & _ & _ & _ & ->). by rewrite (to_thread _ _ _ _ Hto u Hu). Qed.

Lemma newborn_sched_ok : sched_ok None (h :: t :: l) s'.
Proof.
  pose proof newborn_old as Hold. destruct newborn_rest as (Hq & Ea & Ec & _ & _ & _ & _ & Hr).
  destruct Hok as [[_ Ha Hm Hi Hc Hru Hap Hrun Hal] _]. destruct (nb_thread _ _ _ _ _ Hnb) as (Hst & Hid & _ & _).
  assert (Hne : forall u, u ∈ h :: l -> u <> t) by (intros u Hu; by intros ->).
  assert (Hin : forall u, u ∈ h :: t :: l <-> u = t \/ u ∈ h :: l) by (intros u; set_solver +).
  split; [done | by rewrite Ea | | | | | by rewrite Ec | |].
  - intros u. rewrite Hin. destruct (decide (u = t)) as [-> | Hu]; [rewrite Hr; cbn; rewrite Hst; split; [done | auto] |].
    rewrite Hold by done. cbn. rewrite <- Hm. tauto.
  - intros u Hu. apply Hin in Hu as [-> | Hu].
    + rewrite Hr. cbn. rewrite Hid, Ec. split; [done |]. intros (c & k & Hk & E). destruct Htq. rewrite <- E. by apply (Hc c).
    + rewrite Hold by auto. cbn. rewrite Ec. by apply Hi.
  - intros c k. rewrite Ec, !Hin. intros Hk. destruct (Hc c k Hk). auto.
  - intros c k. rewrite Ec. intros Hk He. rewrite Hold by by apply Hne, (Hc c). cbn. by apply (Hru c).
  - intros u. destruct (decide (u = t)) as [-> | Hu]; [rewrite Hr; cbn; by rewrite Hst |]. rewrite Hold by done. rewrite Ec.
    cbn. apply Hrun.
  - intros u. destruct (decide (u = t)) as [-> | Hu]; [rewrite Hr; cbn; by rewrite Hst |]. rewrite Hold by done. cbn. apply Hal.
Qed.

(** Processes in use before are as they were. *)
Lemma newborn_proc j : used (prc s' j) = true -> j = i \/ j <> i /\ used (prc s j) = true /\ pview (prc s' j) = pview (prc s j).
Proof.
  destruct newborn_rest as (_ & _ & _ & _ & _ & _ & Ep & _). rewrite !Ep. intros Hu. destruct (decide (j = i)) as [-> | Hj]; [by left |].
  right. pose proof (to_proc _ _ _ _ Hto j Hj) as E. split_and!; [done | | done]. unfold pview in E. injection E. congruence.
Qed.

Lemma newborn_kept j : used (prc s j) = true -> j <> i /\ pview (prc s' j) = pview (prc s j).
Proof.
  intros Hu. destruct newborn_rest as (_ & _ & _ & _ & _ & _ & -> & _). assert (j <> i) by congruence. split; [done |].
  by apply (to_proc _ _ _ _ Hto).
Qed.

Lemma newborn_space u : u ∈ h :: l -> space_of s' u = space_of s u.
Proof.
  intros Hu. unfold space_of. rewrite newborn_old by by intros ->. cbn [proc with_next].
  destruct Hok as [_ Hp]. destruct (is_idle (thr s u)) eqn:Ei.
  - rewrite (po_idle _ _ Hp u Hu Ei). cbn [process_at]. destruct newborn_rest as (_ & _ & _ & -> & _).
    by rewrite (proj1 (to_kernel _ _ _ _ Hto)).
  - destruct (po_thread _ _ Hp u Hu Ei) as (j & -> & Huj & _). cbn [process_at]. destruct (newborn_kept j Huj) as [_ E].
    unfold pview in E. injection E as _ _ E _ _ _. unfold prc in E. by rewrite E.
Qed.

Lemma newborn_procs_ok : procs_ok (h :: t :: l) s'.
Proof.
  pose proof newborn_old as Hold. pose proof newborn_proc as Hpr. pose proof newborn_kept as Hkept.
  pose proof newborn_space as Hsp. destruct newborn_rest as (_ & _ & Ec & Ek & En & Elp & Ep & Hr).
  destruct Hok as [Hs [H1 H2 H3 H4 H5 H6 H7 Hnp Hpid Hpids H8 H9 H10 H11]].
  destruct (nb_thread _ _ _ _ _ Hnb) as (Nst & Nid & Npr & Nco).
  destruct (nb_proc _ _ _ _ _ Hnb) as (Nu & Npt & Nsp & Nex & Npid & Nnext). rewrite <- (Ep i) in Nu, Npt, Nsp, Nex, Npid.
  assert (Hin : forall u, u ∈ h :: t :: l -> u = t \/ u ∈ h :: l /\ u <> t).
  { intros u Hu. destruct (decide (u = t)); [by left | right; split; [set_solver | done]]. }
  assert (Hv : forall j, used (prc s' j) = true -> j = i \/ used (prc s j) = true /\
    p_thread (prc s' j) = p_thread (prc s j) /\ space (prc s' j) = space (prc s j) /\ exited (prc s' j) = exited (prc s j) /\
    parent (prc s' j) = parent (prc s j) /\ pid (prc s' j) = pid (prc s j)).
  { intros j Hj. destruct (Hpr j Hj) as [-> | (_ & Huj & E)]; [by left | right]. unfold pview in E. by injection E as _ -> -> -> -> ->. }
  split.
  - congruence.
  - rewrite Ek. destruct (to_kernel _ _ _ _ Hto) as [-> ->]. done.
  - intros u [-> | [Hu Hne]]%Hin; [rewrite Hr; cbn; congruence |]. rewrite Hold by done. by apply H3.
  - intros u [-> | [Hu Hne]]%Hin Hi; [exists i; rewrite Hr; cbn; rewrite Npr; done |]. rewrite Hold in * by done.
    destruct (H4 u Hu Hi) as (j & ? & Huj & Hpj). exists j. destruct (Hkept j Huj) as [_ E]. unfold pview in E.
    injection E as -> -> _ _ _ _. done.
  - intros j Hj. destruct (Hv j Hj) as [-> | (Huj & -> & -> & _)].
    + exists t, a. rewrite Hr. cbn. split_and!; try done. set_solver +.
    + destruct (H5 j Huj) as (u & b & ? & Hu & ?). exists u, b. rewrite Hold by by intros ->. cbn. split_and!; try tauto.
      set_solver +Hu.
  - intros j u Hj. destruct (Hv j Hj) as [-> | (Huj & -> & _ & -> & _)].
    + rewrite Npt. intros [= <-]. rewrite Hr. cbn. rewrite Nst, Nex. done.
    + intros Hu. destruct (H5 j Huj) as (u' & b & Eu' & Huq & _). rewrite Hold by (intros ->; congruence). by apply H6.
  - intros u [-> | [Hu Hne]]%Hin; [rewrite Hr; cbn; rewrite Nst, Nco; done |]. rewrite Hold by done. by apply H7.
  - rewrite En. lia.
  - intros j Hj. rewrite En. destruct (Hv j Hj) as [-> | (Huj & _ & _ & _ & _ & ->)]; [lia |]. specialize (Hpid j Huj). lia.
  - intros j j' Hj Hj'. destruct (Hv j Hj) as [-> | (Huj & _ & _ & _ & _ & ->)];
      destruct (Hv j' Hj') as [-> | (Huj' & _ & _ & _ & _ & ->)]; [done | | | by apply Hpids].
    + specialize (Hpid j' Huj'). lia.
    + specialize (Hpid j Huj). lia.
  - intros j j' Hj Hj'. destruct (Hv j Hj) as [-> | (Huj & _ & -> & _)];
      destruct (Hv j' Hj') as [-> | (Huj' & _ & -> & _)]; [done | | | by apply H8].
    + rewrite Nsp. intros E. by destruct (nb_fresh _ _ _ _ _ Hnb j' Huj').
    + rewrite Nsp. intros E. by destruct (nb_fresh _ _ _ _ _ Hnb j Huj).
  - intros c k. rewrite Ec. intros Hk. rewrite Hsp; [by apply H9 with c |]. by apply (so_cpu _ _ _ Hs c).
  - intros c k. rewrite Ec. intros Hk. rewrite Hold; [by apply H10 with c |]. intros E. apply Htq. rewrite <- E.
    by apply (so_cpu _ _ _ Hs c).
  - intros u p [-> | [Hu Hne]]%Hin; [rewrite Hr; cbn; congruence |]. rewrite Hold by done. cbn. intros Hb Hc.
    destruct (H11 u p Hu Hb Hc) as [-> Hn]. split; [done |]. intros par j Hpar Hch.
    destruct (Hv j (child_of_used _ _ _ Hch)) as [-> | (Huj & Et & _ & Ex & Epa & Epi)]; [unfold reapable; by rewrite Nex |].
    assert (Hch' : child_of par p (prc s j) = true).
    { revert Hch. unfold child_of. rewrite Huj, Epa, Epi. by destruct (used (prc s' j)). }
    specialize (Hn par j Hpar Hch'). revert Hn. unfold reapable. rewrite Et, Ex.
    destruct (H5 j Huj) as (v & b & -> & Hvq & _). rewrite Hold by by intros ->. done.
Qed.

End newborn.

Lemma first_slot_some n f i : first_slot n f = Some i -> (i < n)%nat /\ f i = true.
Proof. intros H. apply find_in in H as [Hi Hf]. apply elem_of_seq in Hi. split; [lia | done]. Qed.

Lemma proc_alloc_some s i s1 : length (processes s) = MAX_PROCESSES -> proc_alloc s = Some (i, s1) ->
  used (prc s i) = false /\ (i < MAX_PROCESSES)%nat /\ threads s1 = threads s /\
  (next_pid s < 2147483647 -> 0 < next_pid s -> next_pid s1 = next_pid s + 1) /\
  prc s1 i = fresh_process (next_pid s) /\
  forall t, 0 < next_pid s < 2147483647 -> touches t i s s1.
Proof.
  intros Hl. unfold proc_alloc. destruct (first_slot _ _) as [j |] eqn:Ef; cbn [mbind option_bind]; [| done].
  apply first_slot_some in Ef as [Hj Hu]. intros [= -> <-]. apply negb_true_iff in Hu.
  assert (Hnp : next_pid s < 2147483647 -> 0 < next_pid s -> i32 (next_pid s + 1) = next_pid s + 1).
  { intros. unfold i32, u32. rewrite Z.mod_small by lia. rewrite (proj2 (Z.ltb_lt _ _)) by lia. done. }
  split_and!; try done.
  - unfold prc. cbn. by rewrite list_lookup_total_alter_eq by by rewrite Hl.
  - intros t Hb. etransitivity; [apply (touches_on_process t i) |]. apply touches_ids. cbn. rewrite Hnp; lia.
Qed.

Lemma thread_alloc_some s t s1 : length (threads s) = MAX_THREADS -> thread_alloc s = Some (t, s1) ->
  state (thr s t) = THREAD_UNUSED /\ (t < MAX_THREADS)%nat /\ processes s1 = processes s /\ next_pid s1 = next_pid s /\
  kernel_proc s1 = kernel_proc s /\ thr s1 t = fresh_thread (next_tid s) /\ forall i, touches t i s s1.
Proof.
  intros Hl. unfold thread_alloc. destruct (first_slot _ _) as [u |] eqn:Ef; cbn [mbind option_bind]; [| done].
  apply first_slot_some in Ef as [Hu Hst]. intros [= -> <-]. apply bool_decide_eq_true in Hst. split_and!; try done.
  - unfold thr. cbn. by rewrite list_lookup_total_alter_eq by by rewrite Hl.
  - intros i. etransitivity; [apply (touches_on_thread t i) |]. by apply touches_ids.
Qed.

(** A slot reserved and given back. *)
Lemma prc_with_unused s i : (i < length (processes s))%nat -> used (prc (on_process (Sched.Proc i) with_unused s) i) = false.
Proof. intros H. rewrite prc_on_process by done. by rewrite decide_True. Qed.

Lemma spawn_load_cases i t l s : let me := Sched.Proc i in
  (exists s', spawn_load i t l s = ((if load_result l =? 0 then map_result l else load_result l), on_process me with_unused s') /\
     (if load_result l =? 0 then map_result l else load_result l) < 0 /\ touches t i s s' /\
     ((t < length (threads s))%nat -> state (thr s' t) = THREAD_UNUSED)) \/
  (exists s', spawn_load i t l s = (pid (prc s' i), sched_add t s') /\ touches t i s s' /\
     ((t < length (threads s))%nat -> thr s' t = primed (entry l) (user_rsp l) (thr s t)) /\
     ((i < length (processes s))%nat -> pview (prc s' i) = pview (with_thread t (prc s i))) /\ next_pid s' = next_pid s).
Proof.
  unfold spawn_load. set (s1 := on_process _ (with_thread t) s).
  set (s2 := if load_result l =? 0 then on_process _ (with_stack_bytes _) s1 else s1).
  assert (H2 : touches t i s s2 /\ threads s2 = threads s /\ next_pid s2 = next_pid s /\
            ((i < length (processes s))%nat -> pview (prc s2 i) = pview (with_thread t (prc s i)))).
  { assert (H1 : touches t i s s1) by apply touches_on_process. unfold s2. destruct (load_result l =? 0).
    - split_and!; [etransitivity; [exact H1 |]; apply touches_on_process | done | done |]. intros Hi.
      unfold s1. rewrite prc_on_process by (rewrite length_on_process; done). rewrite decide_True by done.
      rewrite prc_on_process by done. by rewrite decide_True by done.
    - split_and!; [done | done | done |]. intros Hi. unfold s1. rewrite prc_on_process by done. by rewrite decide_True. }
  destruct H2 as (Hto & Eth & Enp & Hpv). clearbody s2. set (r := if load_result l =? 0 then _ else _).
  destruct (Z.ltb_spec r 0) as [Hr | Hr]; [left | right].
  - eexists. split; [reflexivity |]. split; [done |].
    set (s4 := match space _ with Some _ => _ | None => _ end).
    assert (H4 : touches t i s s4 /\ threads s4 = threads s).
    { unfold s4. destruct (space _); (split; [| done]); (etransitivity; [exact Hto |]).
      - etransitivity; [apply touches_record |]. apply touches_record.
      - apply touches_record. }
    destruct H4 as [H4 E4]. split.
    + etransitivity; [exact H4 |]. apply touches_on_thread.
    + intros Ht. rewrite thr_on_thread by by rewrite E4. by rewrite decide_True.
  - eexists. split; [reflexivity |]. split_and!.
    + etransitivity; [exact Hto |]. apply touches_on_thread.
    + intros Ht. rewrite thr_on_thread by by rewrite Eth. rewrite decide_True by done. unfold thr. by rewrite Eth.
    + exact Hpv.
    + exact Enp.
Qed.

(** What proc_spawn_io() leads to: nothing, and an error, or one more process
    with the next number and one more thread in the queue. *)
Definition spawns (q : list nat) (s : sys) (r : Z) (s' : sys) : Prop :=
  cpus s' = cpus s /\
  (forall u, u ∈ q -> state (thr s' u) = state (thr s u) /\ is_idle (thr s' u) = is_idle (thr s u)) /\
  (r < 0 /\ sys_ok None q s' \/
   r = next_pid s /\ exists h l t, q = h :: l /\ t ∉ q /\ sys_ok None (h :: t :: l) s' /\ state (thr s' t) = THREAD_READY).

Lemma touches_states t i (q : list nat) s s' : touches t i s s' -> t ∉ q ->
  forall u, u ∈ q -> state (thr s' u) = state (thr s u) /\ is_idle (thr s' u) = is_idle (thr s u).
Proof. intros Hto Htq u Hu. rewrite (to_thread _ _ _ _ Hto); [done |]. by intros ->. Qed.

Lemma spawns_nothing q s r : sys_ok None q s -> r < 0 -> spawns q s r s.
Proof. intros. split_and!; [done | done | by left]. Qed.

Section spawn.
Context (q : list nat) (s : sys) (c : nat) (k : smpcpu).
Context (Hok : sys_ok None q s) (Hk : cpus s !! c = Some k) (Hnp : next_pid s < 2147483647).

Lemma spawn_load_ok i t a l s1 : touches t i s s1 -> t ∉ q -> (t < MAX_THREADS)%nat -> (i < MAX_PROCESSES)%nat ->
  used (prc s i) = false ->
  thr s1 t = with_kernel_stack (Sched.Proc i) (stack_at l) (fresh_thread (tid (thr s1 t))) ->
  used (prc s1 i) = true -> space (prc s1 i) = Some (Space a) -> exited (prc s1 i) = false -> pid (prc s1 i) = next_pid s ->
  next_pid s < next_pid s1 -> (forall j, used (prc s j) = true -> space (prc s j) <> Some (Space a)) ->
  spawns q s (spawn_load i t l s1).1 (spawn_load i t l s1).2.
Proof.
  intros Hto Htq Ht Hi Hui Eth Hu Hsp Hex Hpid Hn Hfresh.
  assert (Hlt : length (threads s1) = MAX_THREADS).
  { destruct (to_rest _ _ _ _ Hto) as (_ & _ & _ & -> & _). apply (qo_len _ _ (so_queue _ _ _ (proj1 Hok))). }
  assert (Hlp : length (processes s1) = MAX_PROCESSES).
  { destruct (to_rest _ _ _ _ Hto) as (_ & _ & _ & _ & ->). apply (po_len _ _ (proj2 Hok)). }
  destruct (spawn_load_cases i t l s1) as [(s2 & -> & Hr & Hto2 & Hst) | (s2 & -> & Hto2 & Hth & Hpv & Enp)]; cbn [fst snd].
  - assert (Hto' : touches t i s (on_process (Sched.Proc i) with_unused s2)).
    { etransitivity; [exact Hto |]. etransitivity; [exact Hto2 |]. apply touches_on_process. }
    split; [by apply (to_rest _ _ _ _ Hto') |]. split; [by apply (touches_states t i) |]. left. split; [done |].
    apply (touches_ok None t i q s); [done | done | done | done | |].
    + apply Hst. by rewrite Hlt.
    + apply prc_with_unused. destruct (to_rest _ _ _ _ Hto2) as (_ & _ & _ & _ & ->). by rewrite Hlp.
  - assert (Hto' : touches t i s s2) by (etransitivity; [exact Hto | exact Hto2]).
    specialize (Hth ltac:(by rewrite Hlt)). specialize (Hpv ltac:(by rewrite Hlp)).
    unfold pview in Hpv. injection Hpv as Pu Pt Ps Pe Pp Pi.
    destruct q as [| h ql] eqn:Eq.
    { destruct (so_cpu _ _ _ (proj1 Hok) c k Hk) as [Hin _]. set_solver +Hin. }
    assert (Hnb : newborn t i a s s2).
    { split; [rewrite Hth, Eth; done | | done]. rewrite Pu, Pt, Ps, Pe, Pi, Enp. done. }
    pose proof (newborn_rest t i h ql s s2 Hok Hto' Htq Ht) as (_ & _ & Ec & _ & _ & _ & _ & Hrel).
    split; [done |]. split.
    { intros u Hu'. rewrite (newborn_old t i h ql s s2) by (done || by intros ->). done. }
    right. split; [congruence |]. exists h, ql, t. split_and!; [done | done | |].
    + split; [by apply (newborn_sched_ok t i a h ql s) | by apply (newborn_procs_ok t i a h ql s)].
    + rewrite Hrel. cbn. apply (nb_thread _ _ _ _ _ Hnb).
Qed.

Lemma proc_spawn_io_ok par io l :
  (forall a, new_space l = Some a -> forall j, used (prc s j) = true -> space (prc s j) <> Some (Space a)) ->
  spawns q s (proc_spawn_io par io l s).1 (proc_spawn_io par io l s).2.
Proof.
  intros Hfresh. pose proof (po_next _ _ (proj2 Hok)) as Hnp0. unfold proc_spawn_io.
  destruct (Z.ltb_spec (read_result l) 0) as [Hr | _]; [by apply spawns_nothing |].
  destruct (proc_alloc s) as [[i s1] |] eqn:E1; [| by apply spawns_nothing].
  apply proc_alloc_some in E1 as (Hui & Hi & Eth1 & En1 & Hpi & Hto1); [| apply (po_len _ _ (proj2 Hok))].
  specialize (En1 Hnp Hnp0).
  assert (Hlen : length (threads s1) = MAX_THREADS) by (rewrite Eth1; apply (qo_len _ _ (so_queue _ _ _ (proj1 Hok)))).
  assert (Hplen : length (processes s1) = MAX_PROCESSES).
  { destruct (to_rest _ _ _ _ (Hto1 O ltac:(lia))) as (_ & _ & _ & _ & ->). apply (po_len _ _ (proj2 Hok)). }
  (* a thread slot outside the queue, in which nothing happens *)
  assert (Hback : forall t s2, touches t i s s2 -> state (thr s2 t) = THREAD_UNUSED -> t ∉ q -> length (processes s2) = MAX_PROCESSES ->
            spawns q s (- W_ENOMEM) (on_process (Sched.Proc i) with_unused s2)).
  { intros t s2 Hto Hst Htq Hl2. assert (Hto' : touches t i s (on_process (Sched.Proc i) with_unused s2)).
    { etransitivity; [exact Hto |]. apply touches_on_process. }
    split; [by apply (to_rest _ _ _ _ Hto') |]. split; [by apply (touches_states t i) |]. left. split; [done |].
    apply (touches_ok None t i q s); try done.
    apply prc_with_unused. by rewrite Hl2. }
  destruct (thread_alloc s1) as [[t s2] |] eqn:E2.
  2:{ apply (Hback MAX_THREADS s1); [apply Hto1; lia | | | done].
      - rewrite thr_beyond; [done |]. by rewrite Hlen.
      - intros Hin. pose proof (qo_range _ _ (so_queue _ _ _ (proj1 Hok)) _ Hin). lia. }
  apply thread_alloc_some in E2 as (Hst & Ht & Epr2 & En2 & _ & Hth2 & Hto2); [| done].
  assert (Htq : t ∉ q).
  { intros Hin. apply (so_members _ _ _ (proj1 Hok)) in Hin. unfold thr in *. rewrite Eth1 in Hst. done. }
  assert (Hto : touches t i s s2) by (etransitivity; [apply Hto1; lia | apply Hto2]).
  assert (Hplen2 : length (processes s2) = MAX_PROCESSES) by by rewrite Epr2.
  assert (Hlen2 : length (threads s2) = MAX_THREADS).
  { destruct (to_rest _ _ _ _ (Hto2 i)) as (_ & _ & _ & -> & _). done. }
  destruct (new_space l) as [a |] eqn:Ea; [| apply (Hback t); try done; by rewrite Hth2].
  set (s3 := on_process (Sched.Proc i) _ s2). set (s4 := on_process par without_grant s3). set (s5 := on_thread t _ s4).
  assert (Hto4 : touches t i s s4).
  { etransitivity; [exact Hto |]. etransitivity; [apply (touches_on_process t i) |]. by apply touches_view. }
  assert (Hto5 : touches t i s s5) by (etransitivity; [exact Hto4 | apply touches_on_thread]).
  assert (Hth4 : thr s4 t = thr s2 t) by by destruct par.
  assert (Hl4 : length (threads s4) = MAX_THREADS) by by destruct par.
  assert (Hth5 : thr s5 t = with_kernel_stack (Sched.Proc i) (stack_at l) (fresh_thread (next_tid s1))).
  { unfold s5. rewrite thr_on_thread by by rewrite Hl4. rewrite decide_True by done. by rewrite Hth4, Hth2. }
  destruct (Z.eqb_spec (stack_at l) 0) as [E0 | E0].
  - apply (Hback t); [etransitivity; [exact Hto5 | apply touches_record] | | done |].
    + change (thr (record (FreeSpace (Space a)) s5) t) with (thr s5 t). by rewrite Hth5.
    + cbn. unfold s4. rewrite length_on_process. cbn. by rewrite length_alter.
  - assert (Hpv : pview (prc s5 i) = pview (prc s3 i)) by (change (prc s5 i) with (prc s4 i); by apply on_process_view).
    assert (H3 : prc s3 i = with_birth a par (process_at s2 par) io (fresh_process (next_pid s))).
    { unfold s3. rewrite prc_on_process by by rewrite Hplen2. rewrite decide_True by done. unfold prc. rewrite Epr2.
      change (processes s1 !!! i) with (prc s1 i). by rewrite Hpi. }
    rewrite H3 in Hpv. unfold pview in Hpv. injection Hpv as Pu Pt Ps Pe Pp Pi.
    apply (spawn_load_ok i t a); try done; [by rewrite Hth5 | | by apply Hfresh].
    assert (En5 : next_pid s5 = next_pid s + 1) by (destruct par; cbn; rewrite En2; done). lia.
Qed.
End spawn.

(** ** Processors *)

Section join.
Context (c t h : nat) (l : list nat) (s s' : sys).
Context (Hok : sys_ok None (h :: l) s) (Hc0 : cpus s !! c = None) (Htq : t ∉ h :: l).
Context (Hq : queue_ok (h :: t :: l) s') (Ha : active s' = active s).
Context (Ec : exists k0, cpus s' = <[c := k0]> (cpus s) /\ current k0 = t /\ idle k0 = t /\ cpu_space k0 = KSpace).
Context (Ep : processes s' = processes s) (Ek : kernel_proc s' = kernel_proc s) (En : next_pid s' = next_pid s).
Context (Hold : forall u, u <> t -> thr s' u = with_next (nx s' u) (thr s u)).
Context (Hnew : state (thr s' t) = THREAD_RUNNING /\ is_idle (thr s' t) = true /\ proc (thr s' t) = Some KProc /\
                cont (thr s' t) = ToUser).

Lemma join_elem u : u ∈ h :: t :: l <-> u = t \/ u ∈ h :: l.
Proof. set_solver +. Qed.

Lemma join_cpu c' k' : cpus s' !! c' = Some k' ->
  c' = c /\ current k' = t /\ idle k' = t /\ cpu_space k' = KSpace \/ c' <> c /\ cpus s !! c' = Some k' /\ current k' <> t /\ idle k' <> t.
Proof.
  destruct Ec as (k0 & E & ?). rewrite E. intros [[<- <-] | [Hne Hk]]%lookup_insert_Some; [by left | right].
  destruct (so_cpu _ _ _ (proj1 Hok) c' k' Hk) as [H1 H2]. split_and!; try done; intros E'; apply Htq; by rewrite <- E'.
Qed.

Lemma join_cpu_old c' k' : cpus s !! c' = Some k' -> cpus s' !! c' = Some k'.
Proof. destruct Ec as (k0 & E & ?). intros Hk. rewrite E, lookup_insert_ne; [done |]. intros ->. congruence. Qed.

Lemma join_sched_ok : sched_ok None (h :: t :: l) s'.
Proof.
  pose proof join_cpu as Hjc. pose proof join_cpu_old as Hjo. destruct Hok as [[_ Hac Hm Hi Hc Hru Hap Hrun Hal] _].
  destruct Hnew as (Nst & Nid & _ & _). destruct Ec as (k0 & E0 & Ecu & Eid & _).
  assert (Hnc : cpus s' !! c = Some k0) by (rewrite E0; apply lookup_insert_eq).
  split; [done | by rewrite Ha | | | | | | |].
  - intros u. rewrite join_elem. destruct (decide (u = t)) as [-> | Hu]; [rewrite Nst; split; [done | auto] |].
    rewrite Hold by done. cbn. rewrite <- Hm. tauto.
  - intros u Hu. apply join_elem in Hu as [-> | Hu].
    + rewrite Nid. split; [| done]. intros _. by exists c, k0.
    + assert (u <> t) by by intros ->. rewrite Hold by done. cbn. rewrite Hi by done. split; intros (c' & k' & Hk & E).
      * exists c', k'. split; [by apply Hjo | done].
      * destruct (Hjc c' k' Hk) as [(_ & _ & ? & _) | (_ & ? & _)]; [congruence | by exists c', k'].
  - intros c' k' Hk. rewrite !join_elem. destruct (Hjc c' k' Hk) as [(_ & -> & -> & _) | (_ & Hk' & _)]; [auto |].
    destruct (Hc c' k' Hk'). auto.
  - intros c' k' Hk _. destruct (Hjc c' k' Hk) as [(_ & -> & -> & _) | (_ & Hk' & Hne & _)]; [by right |].
    rewrite Hold by done. cbn. by apply (Hru c').
  - intros c1 c2 k1 k2 H1 H2 Ho. destruct (Hjc c1 k1 H1) as [(-> & E1 & E2 & _) | (_ & Hk1 & N1 & N2)];
      destruct (Hjc c2 k2 H2) as [(-> & E3 & E4 & _) | (_ & Hk2 & N3 & N4)]; [done | | | by apply (Hap c1 c2 k1 k2)];
      exfalso; intuition congruence.
  - intros u Hs. destruct (decide (u = t)) as [-> | Hu]; [by exists c, k0 |]. rewrite Hold in Hs by done. cbn in Hs.
    destruct (Hrun u Hs) as (c' & k' & ? & ?). exists c', k'. split; [by apply Hjo | done].
  - intros u. destruct (decide (u = t)) as [-> | Hu]; [by rewrite Nst |]. rewrite Hold by done. cbn. apply Hal.
Qed.

Lemma join_procs_ok : procs_ok (h :: t :: l) s'.
Proof.
  pose proof join_cpu as Hjc. destruct Hok as [Hs [H1 H2 H3 H4 H5 H6 H7 Hnp Hpid Hpids H8 H9 H10 H11]].
  destruct Hnew as (Nst & Nid & Npr & Nco).
  assert (Hin : forall u, u ∈ h :: t :: l -> u = t \/ u ∈ h :: l /\ u <> t).
  { intros u Hu. destruct (decide (u = t)); [by left | right; split; [set_solver | done]]. }
  assert (Hp : forall j, prc s' j = prc s j) by (intros j; unfold prc; by rewrite Ep).
  assert (Hsp : forall u, u <> t -> space_of s' u = space_of s u).
  { intros u Hu. unfold space_of. rewrite Hold by done. cbn. destruct (proc (thr s u)) as [[| j] |]; cbn; rewrite ?Ek, ?Ep; done. }
  split.
  - by rewrite Ep.
  - by rewrite Ek.
  - intros u [-> | [Hu Hne]]%Hin; [done |]. rewrite Hold by done. by apply H3.
  - intros u [-> | [Hu Hne]]%Hin Hi; [congruence |]. rewrite Hold in * by done. destruct (H4 u Hu Hi) as (j & ?). exists j. by rewrite Hp.
  - intros j. rewrite Hp. intros Huj. destruct (H5 j Huj) as (u & a & ? & Hu & ?). exists u, a. rewrite Hold by by intros ->.
    cbn. split_and!; try tauto. set_solver +Hu.
  - intros j u. rewrite Hp. intros Huj Hpu. destruct (H5 j Huj) as (u' & a & Eu' & Huq & _). rewrite Hold by (intros ->; congruence).
    by apply H6.
  - intros u [-> | [Hu Hne]]%Hin; [rewrite Nst, Nco; done |]. rewrite Hold by done. by apply H7.
  - by rewrite En.
  - intros j. rewrite Hp, En. apply Hpid.
  - intros j j'. rewrite !Hp. apply Hpids.
  - intros j j'. rewrite !Hp. apply H8.
  - intros c' k' Hk. destruct (Hjc c' k' Hk) as [(_ & -> & _ & ->) | (_ & Hk' & Hne & _)].
    + unfold space_of. rewrite Npr. cbn. rewrite Ek. by rewrite (proj1 H2).
    + rewrite Hsp by done. by apply H9 with c'.
  - intros c' k' Hk. destruct (Hjc c' k' Hk) as [(_ & -> & -> & _) | (_ & Hk' & Hne & _)]; [by left |].
    rewrite Hold by done. by apply H10 with c'.
  - intros u p [-> | [Hu Hne]]%Hin; [congruence |]. rewrite Hold by done. cbn. intros Hb Hco.
    destruct (H11 u p Hu Hb Hco) as [-> Hn]. split; [done |]. intros par j Hpar. rewrite Hp. intros Hch. specialize (Hn par j Hpar Hch).
    revert Hn. unfold reapable. destruct (H5 j (child_of_used _ _ _ Hch)) as (v & a & -> & Hvq & _).
    rewrite Hold by by intros ->. done.
Qed.
End join.

Lemma smp_ap_join_ok c' stack q s : sys_ok None q s -> q <> [] -> cpus s !! c' = None ->
  sys_ok None q (smp_ap_join c' stack s) /\ smp_ap_join c' stack s = s \/
  exists h l t, q = h :: l /\ t ∉ q /\ sys_ok None (h :: t :: l) (smp_ap_join c' stack s) /\
    (forall u, u ∈ q -> state (thr (smp_ap_join c' stack s) u) = state (thr s u) /\
       is_idle (thr (smp_ap_join c' stack s) u) = is_idle (thr s u)) /\
    (forall c2 k2, cpus s !! c2 = Some k2 -> cpus (smp_ap_join c' stack s) !! c2 = Some k2).
Proof.
  intros Hok Hq0 Hc'. pose proof (so_queue _ _ _ (proj1 Hok)) as Hqq. unfold smp_ap_join, proc_make_idle_thread.
  destruct (thread_alloc s) as [[t s1] |] eqn:E1; cbn [mbind option_bind]; [| by left].
  apply thread_alloc_some in E1 as (Hst & Ht & Epr & En & Eks & Hth & Hto); [| apply (qo_len _ _ Hqq)].
  destruct q as [| h l]; [done |]. right. assert (Htq : t ∉ h :: l) by (intros Hin; by apply (so_members _ _ _ (proj1 Hok)) in Hin).
  exists h, l, t. split; [done |]. split; [done |].
  set (s2 := on_thread t (with_home KProc stack 16384 true) s1). unfold sched_adopt_idle. set (s3 := set_cpu c' _ s2).
  set (s4 := on_thread t idle_running s3).
  destruct (to_rest _ _ _ _ (Hto 0%nat)) as (Rq & Ra & Rc & Rl & Rp).
  assert (Hl1 : length (threads s1) = MAX_THREADS) by by rewrite Rl, (qo_len _ _ Hqq).
  assert (H4 : forall u, thr s4 u = if decide (u = t) then idle_running (with_home KProc stack 16384 true (fresh_thread (next_tid s))) else thr s u).
  { intros u. unfold s4. rewrite thr_on_thread by (unfold s3, s2; cbn; rewrite length_alter, Hl1; done).
    change (thr s3) with (thr s2). unfold s2. rewrite !thr_on_thread by by rewrite Hl1. rewrite (decide_True (P := t = t)) by done.
    rewrite Hth. case_decide; [done |]. by rewrite (to_thread _ _ _ _ (Hto 0%nat)). }
  assert (Hq4 : queue_ok (h :: l) s4).
  { destruct Hqq as [Q1 Q2 Q3 Q4 Q5]. split; [| | done | | done].
    - unfold s4, s3, s2. cbn. by rewrite !length_alter.
    - by rewrite <- Q2, <- Rq.
    - apply (cyc_ext (nx s)); [done |]. intros u Hu. unfold nx. rewrite H4, decide_False; [done |]. by intros ->. }
  destruct (sched_add_spec t h l s4 Hq4 Htq Ht) as (Hqn & Ho & Hr). destruct (only_threads_eqs _ _ Ho) as (_ & Ea & Ec & Ep & Ek & _ & Enp & _).
  assert (Hold : forall u, u <> t -> thr (sched_add t s4) u = with_next (nx (sched_add t s4) u) (thr s u)).
  { intros u Hu. rewrite (Hr u), H4. by rewrite decide_False by done. }
  assert (Hnew : thr (sched_add t s4) t = with_next (nx (sched_add t s4) t) (idle_running (with_home KProc stack 16384 true (fresh_thread (next_tid s))))).
  { rewrite (Hr t), H4. by rewrite decide_True by done. }
  assert (Ecp : cpus (sched_add t s4) = <[c' := Cpu t t KSpace 0 0 None]> (cpus s)).
  { rewrite Ec. unfold s4, s3. cbn. change (cpus s2) with (cpus s1). rewrite Rc, Hc'. done. }
  assert (Hnk : exists k0, cpus (sched_add t s4) = <[c' := k0]> (cpus s) /\ current k0 = t /\ idle k0 = t /\ cpu_space k0 = KSpace)
    by (eexists; rewrite Ecp; done).
  assert (Hnt : state (thr (sched_add t s4) t) = THREAD_RUNNING /\ is_idle (thr (sched_add t s4) t) = true /\
    proc (thr (sched_add t s4) t) = Some KProc /\ cont (thr (sched_add t s4) t) = ToUser) by (rewrite Hnew; done).
  split_and!.
  - split; [apply (join_sched_ok c' t h l s) | apply (join_procs_ok c' t h l s)]; try done.
    all: rewrite ?Ea, ?Ep, ?Ek, ?Enp; done.
  - intros u Hu. rewrite Hold by by intros ->. done.
  - intros c2 k2 H2. rewrite Ecp, lookup_insert_ne; [done |]. intros ->. congruence.
Qed.

End ProcInv.
