(* ===== verification/ProcTerm.v ===== *)
(** * The size of a terminal

    proc_resize_terminal() walks down the process table by parent pointers.  A
    slot of the table is used again while children of its former owner still
    point at it, so these pointers can form a cycle; the walk ends nevertheless,
    because it never enters the process it started from, and it reaches exactly
    the processes that share the terminal. *)

From S2P Require Import Prelude Ring Sched Proc SchedSpec ProcInv.

Module ProcTerm.
Import Sched Proc SchedSpec ProcInv.

(** Process [i] is reached from [p] through children without a terminal of
    their own. *)
Inductive below (s : sys) (p : pref) : nat -> Prop :=
| below_child i : same_terminal p (prc s i) = true -> below s p i
| below_step j i : below s p j -> same_terminal (Sched.Proc j) (prc s i) = true -> below s p i.

Lemma below_trans s p j i : below s p j -> below s (Sched.Proc j) i -> below s p i.
Proof. intros Hj. induction 1 as [i Hi | j' i _ IH Hi]; [by apply (below_step _ _ j) | by apply (below_step _ _ j')]. Qed.

Lemma below_first s p i : below s p i ->
  exists j, same_terminal p (prc s j) = true /\ (i = j \/ below s (Sched.Proc j) i).
Proof.
  induction 1 as [i Hi | j i _ IH Hi]; [by exists i; auto |]. destruct IH as (j0 & H0 & [-> | Hb]); exists j0; split; auto; right.
  - by apply below_child.
  - by apply (below_step _ _ j).
Qed.

(** The way from the start to [p], latest first. *)
Inductive path (s : sys) : pref -> list nat -> Prop :=
| path_kernel : path s KProc []
| path_root i : own_terminal (prc s i) = true -> (i < MAX_PROCESSES)%nat -> path s (Sched.Proc i) [i]
| path_down p v i : path s p v -> same_terminal p (prc s i) = true -> path s (Sched.Proc i) (i :: v).

Lemma same_terminal_inv p x : same_terminal p x = true -> used x = true /\ parent x = Some p /\ own_terminal x = false.
Proof.
  unfold same_terminal. rewrite !andb_true_iff, negb_true_iff, bool_decide_eq_true. tauto.
Qed.

Lemma path_end s p v : path s p v -> p = match v with [] => KProc | i :: _ => Sched.Proc i end.
Proof. by destruct 1. Qed.

(** A process on the way was entered from the one before it, or is the start. *)
Lemma path_parent s p v : path s p v -> forall v1 i v2, v = v1 ++ i :: v2 ->
  own_terminal (prc s i) = true \/ parent (prc s i) = Some (match v2 with [] => KProc | j :: _ => Sched.Proc j end).
Proof.
  induction 1 as [| i Hi _ | p v i Hp IH Hi]; intros v1 x v2 E.
  - by destruct v1.
  - destruct v1 as [| ? [| ? ?]]; cbn in E; simplify_eq. by left.
  - destruct v1 as [| y v1]; cbn in E; simplify_eq.
    + right. apply same_terminal_inv in Hi as (_ & -> & _). f_equal. by apply (path_end s).
    + by apply (IH v1).
Qed.

Lemma path_nodup s p v : path s p v -> NoDup v.
Proof.
  induction 1 as [| i _ _ | p v i Hp IH Hi]; [constructor | apply NoDup_singleton |]. apply NoDup_cons. split; [| done]. intros Hin.
  apply list_elem_of_split in Hin as (v1 & v2 & E). apply same_terminal_inv in Hi as (_ & Hpar & Hown).
  destruct (path_parent s p v Hp v1 i v2 E) as [Ho | Hpar2]; [congruence |]. rewrite Hpar in Hpar2. injection Hpar2 as Epp.
  rewrite (path_end s p v Hp) in Epp. subst v. rewrite NoDup_app in IH. destruct IH as (_ & Hd & Hn). apply NoDup_cons in Hn as [Hn _].
  destruct v1 as [| y v1]; cbn in Epp; destruct v2 as [| z v2]; simplify_eq; [set_solver |]. apply (Hd z); set_solver.
Qed.

Lemma path_range s p v : length (processes s) = MAX_PROCESSES -> path s p v -> forall i, i ∈ v -> (i < MAX_PROCESSES)%nat.
Proof.
  intros Hl. induction 1 as [| i _ Hi | p v i _ IH Hi]; intros x Hx; [set_solver | set_solver |].
  apply elem_of_cons in Hx as [-> | Hx]; [| by apply IH]. rewrite <- Hl. apply prc_used_range.
  apply same_terminal_inv in Hi. tauto.
Qed.

(** No way is longer than the table. *)
Lemma path_length s p v : length (processes s) = MAX_PROCESSES -> path s p v -> (length v <= MAX_PROCESSES)%nat.
Proof. intros Hl Hp. apply nodup_range_length; [by apply (path_nodup s p) | by apply (path_range s p)]. Qed.

(** ** What the walk changes *)

(** [s'] is [s] with the processes that satisfy [P] resized. *)
Definition sized (rows cols : Z) (P : nat -> Prop) (s s' : sys) : Prop :=
  s' = set_processes (processes s') s /\ length (processes s') = length (processes s) /\
  forall i, prc s' i = with_size rows cols (prc s i) /\ P i \/ prc s' i = prc s i /\ ~ P i.

Lemma with_size_twice r c x : with_size r c (with_size r c x) = with_size r c x.
Proof. unfold with_size. cbn. by destruct (r =? 0), (c =? 0). Qed.

Lemma with_size_same r c p x : same_terminal p (with_size r c x) = same_terminal p x.
Proof. done. Qed.

Lemma sized_terminal r c P s s' p i : sized r c P s s' -> same_terminal p (prc s' i) = same_terminal p (prc s i).
Proof. intros (_ & _ & H). by destruct (H i) as [[-> _] | [-> _]]. Qed.

Lemma sized_below r c P s s' p i : sized r c P s s' -> below s' p i <-> below s p i.
Proof.
  intros Hs. split; induction 1 as [i Hi | j i _ IH Hi].
  - apply below_child. by rewrite <- (sized_terminal _ _ _ _ _ _ _ Hs).
  - apply (below_step _ _ j); [done |]. by rewrite <- (sized_terminal _ _ _ _ _ _ _ Hs).
  - apply below_child. by rewrite (sized_terminal _ _ _ _ _ _ _ Hs).
  - apply (below_step _ _ j); [done |]. by rewrite (sized_terminal _ _ _ _ _ _ _ Hs).
Qed.

Lemma sized_path r c P s s' p v : sized r c P s s' -> path s p v -> path s' p v.
Proof.
  intros Hs. induction 1 as [| i Ho Hr | p v i _ IH Hi].
  - constructor.
  - constructor; [| done]. destruct Hs as (_ & _ & H). by destruct (H i) as [[-> _] | [-> _]].
  - econstructor; [done |]. by rewrite (sized_terminal _ _ _ _ _ _ _ Hs).
Qed.

Lemma sized_refl r c s : sized r c (fun _ => False) s s.
Proof. split_and!; [by destruct s | done |]. intros i. right. auto. Qed.

Lemma sized_trans r c P Q s1 s2 s3 : sized r c P s1 s2 -> sized r c Q s2 s3 -> sized r c (fun i => P i \/ Q i) s1 s3.
Proof.
  intros (E1 & L1 & H1) (E2 & L2 & H2). split_and!; [rewrite E2 at 1; by rewrite E1 at 1 | congruence |]. intros i.
  destruct (H2 i) as [[-> HQ] | [-> HQ]]; destruct (H1 i) as [[-> HP] | [-> HP]]; rewrite ?with_size_twice; tauto.
Qed.

Lemma sized_ext r c P Q s s' : (forall i, P i <-> Q i) -> sized r c P s s' -> sized r c Q s s'.
Proof. intros E (H1 & H2 & H3). split_and!; [done | done |]. intros i. destruct (H3 i) as [[? ?] | [? ?]]; rewrite <- E; auto. Qed.

Lemma sized_one r c s i : (i < length (processes s))%nat -> sized r c (fun j => j = i) s (on_process (Sched.Proc i) (with_size r c) s).
Proof.
  intros Hi. split_and!; [done | by rewrite length_on_process |]. intros j. rewrite prc_on_process by done.
  case_decide; [subst j; left | right]; auto.
Qed.

(** The loop of resize_children() over the slots, given what the recursive calls
    do. *)
Lemma resize_loop r c depth p v (IH : forall i s, length (processes s) = MAX_PROCESSES -> path s (Sched.Proc i) (i :: v) ->
    exists s', resize_children depth (Sched.Proc i) r c s = Done s' /\ sized r c (below s (Sched.Proc i)) s s') :
  forall slots s0 s P, length (processes s) = MAX_PROCESSES -> path s p v -> sized r c P s0 s ->
  exists s', foldl (fun acc i =>
        s ← acc;
        if same_terminal p (processes s !!! i)
        then resize_children depth (Sched.Proc i) r c (on_process (Sched.Proc i) (with_size r c) s)
        else Done s) (Done s) slots = Done s' /\
    sized r c (fun i => P i \/ exists j, j ∈ slots /\ same_terminal p (prc s0 j) = true /\ (i = j \/ below s0 (Sched.Proc j) i)) s0 s'.
Proof.
  induction slots as [| x slots IHs]; intros s0 s P Hl Hp Hs; cbn [foldl mbind out_bind].
  - exists s. split; [done |]. apply (sized_ext _ _ P); [| done]. intros i. split; [auto |]. intros [? | (j & Hj & _)]; [done |].
    set_solver +Hj.
  - change (processes s !!! x) with (prc s x). destruct (same_terminal p (prc s x)) eqn:Ex.
    + assert (Hx : (x < length (processes s))%nat) by (apply prc_used_range; apply same_terminal_inv in Ex; tauto).
      set (s1 := on_process _ _ s). pose proof (sized_one r c s x Hx) as H1. fold s1 in H1.
      destruct (IH x s1) as (s2 & E2 & H2).
      { unfold s1. by rewrite length_on_process. }
      { apply (sized_path _ _ _ s _ _ _ H1). by apply path_down with p. }
      rewrite E2. pose proof (sized_trans _ _ _ _ _ _ _ H1 H2) as H12. pose proof (sized_trans _ _ _ _ _ _ _ Hs H12) as H02.
      destruct (IHs s0 s2 _ (eq_trans (proj1 (proj2 H12)) Hl) (sized_path _ _ _ _ _ _ _ H12 Hp) H02) as (s' & E' & H').
      exists s'. split; [done |]. revert H'. apply sized_ext. intros i. rewrite (sized_below _ _ _ _ _ _ _ H1).
      rewrite (sized_below _ _ _ _ _ _ _ Hs). rewrite (sized_terminal _ _ _ _ _ _ _ Hs) in Ex. split.
      * intros [[? | [-> | ?]] | (j & ? & ?)]; [by left | | |]; right; [exists x | exists x | exists j]; set_solver.
      * intros [? | (j & [-> | Hj]%elem_of_cons & ? & ?)]; [tauto | tauto |]. right. by exists j.
    + destruct (IHs s0 s P Hl Hp Hs) as (s' & E' & H'). exists s'. split; [done |]. revert H'. apply sized_ext. intros i.
      rewrite (sized_terminal _ _ _ _ _ _ _ Hs) in Ex. split.
      * intros [? | (j & ? & ?)]; [by left |]. right. exists j. set_solver.
      * intros [? | (j & [-> | Hj]%elem_of_cons & ? & ?)]; [by left | congruence |]. right. by exists j.
Qed.

Lemma resize_children_done r c depth : forall p v s, length (processes s) = MAX_PROCESSES -> path s p v ->
  (MAX_PROCESSES < depth + length v)%nat ->
  exists s', resize_children depth p r c s = Done s' /\ sized r c (below s p) s s'.
Proof.
  induction depth as [| depth IH]; intros p v s Hl Hp Hd.
  - pose proof (path_length s p v Hl Hp). lia.
  - cbn [resize_children].
    destruct (resize_loop r c depth p v) with (slots := seq 0 MAX_PROCESSES) (s0 := s) (s := s) (P := fun _ : nat => False)
      as (s' & E & H); [| done | done | apply sized_refl |].
    { intros i s1 Hl1 Hp1. apply (IH _ (i :: v)); [done | done | cbn; lia]. }
    exists s'. split; [exact E |]. revert H. apply sized_ext. intros i. split.
    + intros [[] | (j & _ & Hj & [-> | Hb])]; [by apply below_child |]. by apply (below_trans _ _ j); [apply below_child |].
    + intros Hb. right. apply below_first in Hb as (j & Hj & Hor). exists j. split; [| done]. apply elem_of_seq.
      apply same_terminal_inv in Hj as (Hu & _). pose proof (prc_used_range s j Hu). rewrite Hl in *. lia.
Qed.

End ProcTerm.
