(* ===== verification/ProcStack.v ===== *)
(** * Kernel stacks

    What the operations of [Proc] do to the stacks the processors are on: they
    leave every processor where it is, or the one that runs them has decided to
    switch away from the thread it runs, which is still there. *)

From S2P Require Import Prelude Ring Sched Proc SchedSpec ProcInv ProcTerm.

Module ProcStack.
Import Sched Proc SchedSpec ProcInv ProcTerm.

Definition turned (c : nat) (s s' : sys) : Prop :=
  cpus s' = cpus s \/
  exists k k', cpus s !! c = Some k /\ cpus s' = <[c := k']> (cpus s) /\
    switching k' = Some (current k, tid (thr s' (current k)), current k') /\ state (thr s' (current k)) <> THREAD_UNUSED.

Lemma turned_from c s s1 s' : cpus s1 = cpus s -> turned c s1 s' -> turned c s s'.
Proof. intros E [? | (k & k' & ? & ? & ?)]; [left; congruence | right]. exists k, k'. rewrite <- E. done. Qed.

Lemma schedule_turned c k q s s' : sys_ok (Some c) q s -> cpus s !! c = Some k -> schedule c s = Done s' -> turned c s s'.
Proof.
  intros Hok Hk E. destruct (schedule_sys_ok c k q s Hok Hk) as (s1 & E1 & Hok1). assert (s1 = s') as -> by congruence.
  destruct Hok as [Hs _]. destruct (so_cpu _ _ _ Hs c k Hk) as [Hcq _]. pose proof Hcq as Hsplit.
  apply list_elem_of_split in Hsplit as (l1 & l2 & Eq). destruct (schedule_cases c k q s l1 l2 Hs Hk Eq) as (s2 & E2 & Hc).
  assert (s2 = s') as -> by congruence. destruct Hc as [(-> & _) | (n & Es & _)]; [by left |]. right.
  destruct (switch_to_rest c (current k) n k s) as (_ & _ & _ & _ & _ & _ & _ & Ecp). rewrite <- Es in Ecp.
  eexists k, _. split; [done |]. split; [exact Ecp |]. split; [done |]. by apply (so_members _ _ _ (proj1 Hok1)).
Qed.

Section caller.
Context (q : list nat) (s : sys) (c : nat) (k : smpcpu) (Hok : sys_ok None q s) (Hk : cpus s !! c = Some k).

Lemma yield_turned s' : schedule c s = Done s' -> turned c s s'.
Proof. apply (schedule_turned c k q); [| done]. split; [apply sched_ok_weaken |]; apply Hok. Qed.

Lemma block_turned r w kont s' : good_reason s k r kont -> block_on c r w kont s = Done s' -> turned c s s'.
Proof.
  intros Hg. rewrite (block_is_schedule q s c k Hok Hk). intros E.
  apply (turned_from c s (asleep s k r w kont)); [done |].
  apply (schedule_turned c k q); [by apply (asleep_ok q s c k Hok Hk) | done | done].
Qed.

Lemma exit_turned status s' : current k <> idle k -> proc_exit c status s = Done s' -> turned c s s'.
Proof.
  intros Hni. destruct (proc_exit_cases c k status q s Hok Hk Hni) as (i & s1 & -> & Hpr & Hu & Hpt & Hst & _). intros E.
  destruct (es_rest _ _ _ _ _ Hst) as (_ & _ & Ec & _). apply (turned_from c s s1); [done |].
  apply (schedule_turned c k q); [by apply (exit_step_ok c k i q s) | by rewrite Ec | done].
Qed.

Lemma waits_turned par p r s' : proc (thr s (current k)) = Some par -> waits c par p q s r s' -> turned c s s'.
Proof.
  intros Hpar [(i & t & _ & _ & _ & _ & Hst & _) | [(_ & -> & _) | (_ & _ & Hn & E & _)]]; [| by left |].
  - left. by destruct (td_rest _ _ _ _ _ Hst) as (_ & ? & _).
  - apply (block_turned WAIT_CHILD 0 (InWait p)); [| done]. split; [done |]. intros p' [= <-]. split; [done |].
    intros par' i Hpar'. assert (par' = par) as -> by congruence. apply Hn.
Qed.

Lemma wait_turned p r s' : proc_wait c p s = Done (r, s') -> turned c s s'.
Proof.
  intros E. destruct (proc_current_done q s c k Hok Hk) as (par & _ & Epar & _).
  destruct (proc_wait_ok c k par p q s Hok Hk Epar) as (r' & s2 & E2 & Hw). rewrite E in E2. injection E2 as <- <-.
  by apply (waits_turned par p r).
Qed.

End caller.

Section caller_again.
Context (q : list nat) (s : sys) (c : nat) (k : smpcpu) (Hok : sys_ok None q s) (Hk : cpus s !! c = Some k).

Lemma tick_turned ring3 s' : (ring3 = true -> current k <> idle k) -> sched_tick c ring3 s = Done s' -> turned c s s'.
Proof.
  intros Hr3. unfold sched_tick. rewrite (so_active _ _ _ (proj1 Hok)). cbn [negb]. unfold smp_this. rewrite Hk.
  cbn [mbind out_bind]. pose proof (charge_tick_ok None q s (current k) Hok (current_range q s c k Hok Hk)) as Hok1.
  assert (Ec1 : cpus (charge_tick (current k) s) = cpus s) by (unfold charge_tick; by destruct (proc _) as [[| j] |]).
  set (s1 := charge_tick _ s) in *. unfold wake_expired.
  destruct (wake_ok (expired (pit_ticks s)) None q s1) as (s2 & -> & Hok2 & Ho & _); [| done |].
  { intros x Hx. unfold expired in Hx. apply andb_prop in Hx as [Hx _]. apply andb_prop in Hx as [Hx _].
    by apply bool_decide_eq_true in Hx. }
  cbn [mbind out_bind]. destruct (only_threads_eqs _ _ Ho) as (_ & _ & Ec2 & _).
  assert (Ec : cpus s2 = cpus s) by congruence. clear Ec1 Ec2 Ho Hok1. clearbody s1.
  destruct (proc_should_exit_done q s2 c k Hok2 ltac:(by rewrite Ec)) as (b & -> & _). cbn [mbind out_bind]. intros E.
  apply (turned_from c s s2); [done |]. destruct (ring3 && b)%bool eqn:E3.
  - apply andb_prop in E3 as [E3 _]. by apply (exit_turned q s2 c k Hok2 ltac:(by rewrite Ec) (-1)); auto.
  - by apply (yield_turned q s2 c k Hok2 ltac:(by rewrite Ec)).
Qed.

Lemma resume_turned r s' : resume c s = Done (r, s') -> turned c s s'.
Proof.
  destruct (awake_ok c k q s Hok Hk) as (Hok1 & _ & _). pose proof (resume_cases c k q s Hok Hk) as Hc. intros E.
  rewrite E in Hc. inversion Hc as [E1 | E1 | Hi E1 | p E1].
  - by left.
  - by left.
  - apply bind_done in E1 as (s1 & E1 & [= <- <-]). apply (turned_from c s (awake s (current k))); [done |].
    by apply (exit_turned q _ c k Hok1 Hk (-1)).
  - apply (turned_from c s (awake s (current k))); [done |]. by apply (wait_turned q _ c k Hok1 Hk p r).
Qed.

Lemma reap_turned z st s' : proc_reap c s = Done (z, st, s') -> turned c s s'.
Proof.
  destruct (proc_reap_ok c k q s Hok Hk) as (par & z' & st' & any & s1 & _ & -> & Hr). intros [= <- <- <-]. left.
  destruct Hr as [(_ & _ & -> & _) | (i & t & _ & _ & _ & _ & _ & _ & _ & Hst & _)]; [done |].
  by destruct (td_rest _ _ _ _ _ Hst) as (_ & ? & _).
Qed.

Lemma orphans_turned keep n s' : proc_reap_orphans c keep s = Done (n, s') -> turned c s s'.
Proof.
  unfold proc_reap_orphans. destruct (proc_current_done q s c k Hok Hk) as (me & -> & _). cbn [mbind out_bind].
  destruct (orphans_loop_ok me keep c k (seq 0 MAX_PROCESSES) q s 0 Hok Hk) as (m & q' & s1 & -> & _ & Ec).
  intros [= <- <-]. by left.
Qed.

End caller_again.

Lemma kill_cpus p s : cpus (proc_kill p s).2 = cpus s.
Proof.
  unfold proc_kill. destruct (proc_by_pid p s) as [i |]; [| done]. destruct (exited _); [done |]. cbn [snd].
  unfold unblock_threads. generalize (seq 0 MAX_THREADS). intros l.
  set (s1 := on_process _ _ s). change (cpus s) with (cpus s1). generalize s1. clear s1.
  induction l as [| t l IH]; intros s1; [done |]. cbn [foldl]. rewrite IH. unfold unblock. by destruct (_ && _)%bool.
Qed.

Lemma thread_alloc_cpus s t s1 : thread_alloc s = Some (t, s1) -> cpus s1 = cpus s.
Proof. unfold thread_alloc. destruct (first_slot _ _); [| done]. by intros [= _ <-]. Qed.

Lemma sched_add_cpus t s : cpus (sched_add t s) = cpus s.
Proof. unfold sched_add. by destruct (run_queue s). Qed.

(** A processor that joins is on the stack it came with. *)
Lemma join_cpus c stack s : cpus s !! c = None ->
  smp_ap_join c stack s = s \/ exists t, cpus (smp_ap_join c stack s) = <[c := Cpu t t KSpace 0 0 None]> (cpus s).
Proof.
  intros Hc. unfold smp_ap_join, proc_make_idle_thread. destruct (thread_alloc s) as [[t s1] |] eqn:E; [| by left].
  right. exists t. cbn [mbind option_bind]. unfold sched_adopt_idle. rewrite sched_add_cpus. cbn.
  by rewrite (thread_alloc_cpus s t s1 E), Hc.
Qed.

Lemma join_switching c stack s k : cpus s !! c = None -> cpus (smp_ap_join c stack s) !! c = Some k -> switching k = None.
Proof.
  intros Hc. destruct (join_cpus c stack s Hc) as [-> | [t ->]]; [congruence |]. rewrite lookup_insert_eq. by intros [= <-].
Qed.

Lemma join_others c stack s c' k : cpus s !! c = None -> c' <> c -> cpus (smp_ap_join c stack s) !! c' = Some k -> cpus s !! c' = Some k.
Proof. intros Hc Hne. destruct (join_cpus c stack s Hc) as [-> | [t ->]]; [done |]. by rewrite lookup_insert_ne. Qed.

End ProcStack.
