(* ===== verification/ProcSpec.v ===== *)
(** * Processes and processors: theorems

    The kernel as a step relation.  Each step is one stretch of code that a
    processor runs under the kernel lock; a switch that schedule() decided on
    and the switch_context() that makes it are two steps, with the other
    processors free to enter in between.  The theorems hold in every state that
    can be reached from start-up; what is said of the stacks the processors are on
    holds where no processor enters in that gap, and [two_processors_one_stack] and
    [stack_freed_in_the_gap] are what happens where one does. *)

From S2P Require Import Prelude Ring Sched Proc SchedSpec ProcInv ProcTerm ProcStack.

Module ProcSpec.
Import Sched Proc SchedSpec ProcInv ProcTerm ProcStack.

(** ** Steps *)

Inductive op :=
| SwitchContext (at_sp : Z)
| Yield
| Block (r : wait_reason_t)
| BlockUntil (r : wait_reason_t) (until_tick : Z)
| Wake (r : wait_reason_t)
| PitTick
| Tick (ring3 : bool)
| Spawn (par : pref) (io : option spawn_io) (l : loaded)
| Exit (status : Z)
| Kill (p : Z)
| Wait (p : Z)
| Reap
| ReapOrphans (keep : Z)
| Resume
| SetSize (p rows cols : Z)
| Join (stack : Z).

(** What processor [c] does; the answers to the program are left aside. *)
Definition exec (c : nat) (o : op) (s : sys) : out sys :=
  match o with
  | SwitchContext z => switch_context c z s
  | Yield => sched_yield c s
  | Block r => sched_block c r s
  | BlockUntil r w => sched_block_until c r w s
  | Wake r => sched_wake r s
  | PitTick => Done (set_ticks (u32 (pit_ticks s + 1)) s)
  | Tick ring3 => sched_tick c ring3 s
  | Spawn par io l => Done (proc_spawn_io par io l s).2
  | Exit status => proc_exit c status s
  | Kill p => Done (proc_kill p s).2
  | Wait p => x ← proc_wait c p s; Done x.2
  | Reap => x ← proc_reap c s; Done x.2
  | ReapOrphans keep => x ← proc_reap_orphans c keep s; Done x.2
  | Resume => x ← resume c s; Done x.2
  | SetSize p rows cols => x ← sys_setsize c p rows cols s; Done x.2
  | Join stack => Done (smp_ap_join c stack s)
  end.

(** When it may.  A processor joins once.  One that has decided to switch makes
    the switch next.  A thread that was put to sleep goes on behind its
    schedule() first; until then only interrupts reach its processor.  Programs
    run on threads that are not idle.  Of the rest of the kernel: a new address
    space is not one that is in use, and the number of processes ever started
    fits an int32_t. *)
Definition allowed (c : nat) (o : op) (s : sys) : Prop :=
  match o with
  | Join _ => cpus s !! c = None
  | SwitchContext _ => exists k, cpus s !! c = Some k /\ switching k <> None
  | _ => exists k, cpus s !! c = Some k /\ switching k = None /\
      match o with
      | Wake _ | PitTick | Resume => True
      | Tick ring3 => ring3 = true -> current k <> idle k /\ cont (thr s (current k)) = ToUser
      | Exit _ => current k <> idle k /\ cont (thr s (current k)) = ToUser
      | Spawn par _ l => cont (thr s (current k)) = ToUser /\ (par = KProc \/ proc (thr s (current k)) = Some par) /\
          next_pid s < 2147483647 /\
          forall a i, new_space l = Some a -> used (processes s !!! i) = true -> space (processes s !!! i) <> Some (Space a)
      | _ => cont (thr s (current k)) = ToUser
      end
  end.

Inductive step (s : sys) : nat -> op -> sys -> Prop :=
| step_exec c o s' : allowed c o s -> exec c o s = Done s' -> step s c o s'.

(** The same as a test, and a program of steps run one after the other. *)
Definition allowedb (c : nat) (o : op) (s : sys) : bool :=
  match o, cpus s !! c with
  | Join _, None => true
  | Join _, Some _ | _, None => false
  | SwitchContext _, Some k => bool_decide (switching k <> None)
  | _, Some k =>
      let user := match cont (thr s (current k)) with ToUser => true | _ => false end in
      bool_decide (switching k = None) &&
      match o with
      | Wake _ | PitTick | Resume => true
      | Tick ring3 => negb ring3 || (bool_decide (current k <> idle k) && user)
      | Exit _ => bool_decide (current k <> idle k) && user
      | Spawn par _ l => user && (bool_decide (par = KProc) || bool_decide (proc (thr s (current k)) = Some par)) &&
          (next_pid s <? 2147483647) &&
          match new_space l with
          | Some a => forallb (fun p => negb (used p) || bool_decide (space p <> Some (Space a))) (processes s)
          | None => true
          end
      | _ => user
      end
  end%bool.

Lemma allowedb_sound c o s : allowedb c o s = true -> allowed c o s.
Proof.
  unfold allowedb, allowed. destruct (cpus s !! c) as [k |] eqn:Hk; [| by destruct o].
  assert (Hu : match cont (thr s (current k)) with ToUser => true | _ => false end = true -> cont (thr s (current k)) = ToUser)
    by by destruct (cont _).
  destruct o; [| | | | | | | | | | | | | | | done];
    [intros H; apply bool_decide_eq_true in H; by exists k | ..];
    intros [H1 H2]%andb_prop; apply bool_decide_eq_true in H1; exists k; (split; [done |]); (split; [done |]); auto.
  - intros ->. cbn in H2. apply andb_prop in H2 as [H2 H3]. apply bool_decide_eq_true in H2. auto.
  - rewrite !andb_true_iff, orb_true_iff, !bool_decide_eq_true in H2.
    destruct H2 as [[[Hc Hpar] Hn] Hfr]. split_and!; [auto | tauto | by apply Z.ltb_lt |]. intros a i Ea Hui. rewrite Ea in Hfr.
    assert (Hi : processes s !! i = Some (processes s !!! i)) by (apply list_lookup_lookup_total_lt, (prc_used_range s i Hui)).
    rewrite forallb_forall in Hfr. specialize (Hfr (processes s !!! i)). rewrite Hui in Hfr. cbn in Hfr.
    apply (bool_decide_eq_true (space (processes s !!! i) <> Some (Space a))). apply Hfr. apply list_elem_of_In.
    by apply list_elem_of_lookup_2 in Hi.
  - apply andb_prop in H2 as [H2 H3]. apply bool_decide_eq_true in H2. auto.
Qed.

Fixpoint run_trace (tr : list (nat * op)) (s : sys) : out sys :=
  match tr with
  | [] => Done s
  | (c, o) :: tr => if allowedb c o s then s ← exec c o s; run_trace tr s else Fault
  end.

(** Static storage before proc_init(). *)
Definition boot : sys := Sys [] None false ∅ [] zero_process 1 1 0 [].

Inductive reachable (boot_stack_top : Z) : sys -> Prop :=
| reach_init s : proc_init boot_stack_top boot = Done s -> reachable boot_stack_top s
| reach_step s c o s' : reachable boot_stack_top s -> step s c o s' -> reachable boot_stack_top s'.

Lemma run_trace_reachable top tr : forall s s', reachable top s -> run_trace tr s = Done s' -> reachable top s'.
Proof.
  induction tr as [| [c o] tr IH]; intros s s' Hr E; cbn in E; [by injection E as <- |].
  destruct (allowedb c o s) eqn:Ea; [| done]. apply bind_done in E as (s1 & E1 & E). apply (IH s1); [| done].
  econstructor; [done |]. constructor; [by apply allowedb_sound | done].
Qed.

(** ** The first state *)

(** What proc_init() makes of it: one thread, the boot context, which is the
    idle thread of processor 0. *)
Definition first_state (top : Z) : sys :=
  Sys (Thread 1 (Some KProc) THREAD_RUNNING WAIT_NONE (top - 16384) 16384 0 0 0 true 0 0 (Some 0%nat) ToUser
         :: replicate 63 zero_thread)
    (Some 0%nat) true {[ 0%nat := Cpu 0 0 KSpace 0 0 None ]} (replicate 32 zero_process) (with_thread 0 boot_process) 1 2 0 [].

Lemma proc_init_first top : proc_init top boot = Done (first_state top).
Proof. reflexivity. Qed.

Lemma lookup_zeros {A} `{Inhabited A} (x : A) n i : x = inhabitant -> replicate n x !!! i = x.
Proof.
  intros E. destruct (decide (i < n)%nat).
  - by rewrite lookup_total_replicate_2.
  - rewrite list_lookup_total_alt, lookup_ge_None_2; [done |]. rewrite length_replicate. lia.
Qed.

Lemma first_state_ok top : sys_ok None [0%nat] (first_state top).
Proof.
  assert (H0 : exists x, thr (first_state top) 0 = x /\ state x = THREAD_RUNNING /\ is_idle x = true /\ next x = Some 0%nat /\
    proc x = Some KProc /\ cont x = ToUser) by (eexists; split; [reflexivity | done]).
  assert (Ht : forall u, u <> 0%nat -> thr (first_state top) u = zero_thread).
  { intros [| u] Hu; [done |]. by apply (lookup_zeros zero_thread 63). }
  assert (Hp : forall i, prc (first_state top) i = zero_process) by (intros i; by apply (lookup_zeros zero_process 32)).
  assert (Hc : forall c k, cpus (first_state top) !! c = Some k ->
            c = 0%nat /\ current k = 0%nat /\ idle k = 0%nat /\ cpu_space k = KSpace).
  { intros c k Hk. cbn in Hk. apply lookup_singleton_Some in Hk as [<- <-]. done. }
  assert (Hc0 : exists k, cpus (first_state top) !! 0%nat = Some k /\ current k = 0%nat /\ idle k = 0%nat).
  { exists (Cpu 0 0 KSpace 0 0 None). split; [apply lookup_singleton_eq | done]. }
  assert (Hrest : length (threads (first_state top)) = MAX_THREADS /\ length (processes (first_state top)) = MAX_PROCESSES /\
    run_queue (first_state top) = Some 0%nat /\ active (first_state top) = true /\ next_pid (first_state top) = 1 /\
    space (kernel_proc (first_state top)) = Some KSpace /\ killed (kernel_proc (first_state top)) = false) by done.
  destruct H0 as (x0 & E0 & Hst & Hid & Hnx & Hpr & Hco). destruct Hrest as (Hl & Hlp & Hrq & Hac & Hnp & Hks & Hkk).
  destruct Hc0 as (k0 & Hk0 & Hcur0 & Hid0).
  set (s := first_state top) in *. clearbody s.
  assert (Hin : forall u, u ∈ [0%nat] -> u = 0%nat) by (intros u Hu; by apply list_elem_of_singleton in Hu).
  split; split.
  - split; [done | done | apply NoDup_singleton | |].
    + intros [| ? [| ? ?]] x l2 E; cbn in E; [| discriminate E | discriminate E]. injection E as <- <-. unfold nx. by rewrite E0.
    + intros t Hq. rewrite (Hin t Hq). unfold MAX_THREADS. lia.
  - done.
  - intros t. rewrite list_elem_of_singleton. destruct (decide (t = 0%nat)) as [-> | Hne]; [by rewrite E0, Hst | by rewrite Ht].
  - intros t Hq. rewrite (Hin t Hq), E0, Hid. split; [| done]. intros _. by exists 0%nat, k0.
  - intros c k Hk. destruct (Hc c k Hk) as (_ & -> & -> & _). split; by apply list_elem_of_singleton.
  - intros c k Hk _. destruct (Hc c k Hk) as (_ & -> & -> & _). by right.
  - intros c c' k k' Hk Hk' _. destruct (Hc c k Hk) as (-> & _). destruct (Hc c' k' Hk') as (-> & _). done.
  - intros t Hr. destruct (decide (t = 0%nat)) as [-> | Hne]; [by exists 0%nat, k0 | by rewrite Ht in Hr].
  - intros t _. destruct (decide (t = 0%nat)) as [-> | Hne]; [by rewrite E0, Hst | by rewrite Ht].
  - done.
  - done.
  - intros t Hq Hi. by rewrite (Hin t Hq), E0.
  - intros t Hq. rewrite (Hin t Hq), E0. congruence.
  - intros i. by rewrite Hp.
  - intros i. by rewrite Hp.
  - intros t Hq. rewrite (Hin t Hq), E0, Hst, Hco. done.
  - lia.
  - intros i. by rewrite Hp.
  - intros i j. by rewrite Hp.
  - intros i j. by rewrite Hp.
  - intros c k Hk. destruct (Hc c k Hk) as (_ & -> & _ & ->). unfold space_of. rewrite E0, Hpr. cbn. by rewrite Hks.
  - intros c k Hk. destruct (Hc c k Hk) as (_ & -> & -> & _). by left.
  - intros t p Hq. rewrite (Hin t Hq), E0. congruence.
Qed.

(** ** Every step keeps the invariant *)

Lemma resize_terminal_ok e q s p r c : sys_ok e q s -> (match p with KProc => True | Sched.Proc i => (i < MAX_PROCESSES)%nat end) ->
  exists s', proc_resize_terminal p r c s = Done s' /\ sys_ok e q s' /\
    sized r c (below (on_process p with_own_terminal (on_process p (with_size r c) s)) p)
      (on_process p with_own_terminal (on_process p (with_size r c) s)) s'.
Proof.
  intros Hok Hp. unfold proc_resize_terminal. set (s1 := on_process p with_own_terminal _).
  assert (Hok1 : sys_ok e q s1) by (apply on_process_ok; [apply on_process_ok; done | done | done]).
  pose proof (po_len _ _ (proj2 Hok1)) as Hl.
  assert (Hpath : exists v, path s1 p v).
  { destruct p as [| i]; [exists []; constructor |]. exists [i]. constructor; [| done]. unfold s1.
    rewrite prc_on_process by (rewrite length_on_process, (po_len _ _ (proj2 Hok)); done). by rewrite decide_True. }
  destruct Hpath as [v Hv].
  destruct (resize_children_done r c (S MAX_PROCESSES) p v s1 Hl Hv ltac:(lia)) as (s' & E & Hs). exists s'. split; [done |].
  split; [| done]. destruct Hs as (Es & Els & Hpr). apply (sys_ok_views e q s1); try done; rewrite Es; try done.
  intros i. rewrite <- Es. by destruct (Hpr i) as [[-> _] | [-> _]].
Qed.

Lemma proc_by_pid_some p s i : proc_by_pid p s = Some i -> (i < MAX_PROCESSES)%nat /\ used (prc s i) = true /\ pid (prc s i) = p.
Proof. intros H. apply first_slot_some in H as [Hi Hf]. apply andb_prop in Hf as [Hu Hp%Z.eqb_eq]. done. Qed.

Lemma sys_setsize_ok q s c k p r cl : sys_ok None q s -> cpus s !! c = Some k ->
  exists z s', sys_setsize c p r cl s = Done (z, s') /\ sys_ok None q s'.
Proof.
  intros Hok Hk. unfold sys_setsize. destruct (proc_by_pid (i32 p) s) as [i |] eqn:Ei; [| by eexists _, s].
  destruct (proc_current_done q s c k Hok Hk) as (me & -> & _). cbn [mbind out_bind]. case_decide; [| by eexists _, s].
  apply proc_by_pid_some in Ei as (Hi & _).
  destruct (resize_terminal_ok None q s (Sched.Proc i) (if 0 <? i32 r then u32 r else 0) (if 0 <? i32 cl then u32 cl else 0) Hok Hi)
    as (s' & -> & Hok' & _). by exists 0, s'.
Qed.

Lemma setsize_cpus q s c k p r cl z s' : sys_ok None q s -> cpus s !! c = Some k -> sys_setsize c p r cl s = Done (z, s') ->
  cpus s' = cpus s.
Proof.
  intros Hok Hk. unfold sys_setsize. destruct (proc_by_pid (i32 p) s) as [i |] eqn:Ei; [| by intros [= _ <-]].
  destruct (proc_current_done q s c k Hok Hk) as (me & -> & _). cbn [mbind out_bind]. case_decide; [| by intros [= _ <-]].
  apply proc_by_pid_some in Ei as (Hi & _).
  destruct (resize_terminal_ok None q s (Sched.Proc i) (if 0 <? i32 r then u32 r else 0) (if 0 <? i32 cl then u32 cl else 0) Hok Hi)
    as (s1 & -> & _ & (Es & _)). intros [= _ <-]. by rewrite Es.
Qed.

Definition ok (s : sys) : Prop := exists q, sys_ok None q s /\ q <> [].

Lemma ok_intro q (s' : out sys) : q <> [] -> (exists s1, s' = Done s1 /\ sys_ok None q s1) -> exists s1, s' = Done s1 /\ ok s1.
Proof. intros Hq (s1 & -> & H). exists s1. split; [done |]. by exists q. Qed.

(** What a switch that is due needs of the other processors: nobody is on the
    stack it goes to, and nobody has given back the one it is on. *)
Definition undisturbed (c : nat) (o : op) (s : sys) : Prop :=
  match o with
  | SwitchContext _ => forall k prev id n, cpus s !! c = Some k -> switching k = Some (prev, id, n) ->
      still_there prev id s /\ stack_free c n s
  | _ => True
  end.

Lemma exec_ok c o s : ok s -> allowed c o s -> undisturbed c o s -> exists s', exec c o s = Done s' /\ ok s'.
Proof.
  intros (q & Hok & Hq) Ha Hu.
  destruct o; cbn [allowed exec undisturbed] in *.
  - destruct Ha as (k & Hk & Hsw). destruct (switching k) as [[[prev id] n] |] eqn:E; [| done].
    destruct (Hu k prev id n Hk E) as [H1 H2]. destruct (switch_context_done s c k at_sp prev id n Hk E H1 H2) as [s' E'].
    exists s'. split; [done |]. exists q. split; [by apply (switch_context_ok None q s c at_sp) | done].
  - destruct Ha as (k & Hk & _). eapply ok_intro; [done |]. apply (schedule_sys_ok c k); [| done].
    split; [apply sched_ok_weaken |]; apply Hok.
  - destruct Ha as (k & Hk & _). eapply ok_intro; [done |]. by apply (block_ok q s c k).
  - destruct Ha as (k & Hk & _). eapply ok_intro; [done |]. by apply (block_ok q s c k).
  - eapply ok_intro; [done |]. destruct (wake_ok (waits_for r) None q s) as (s' & ? & ? & _); [| done | by exists s'].
    intros x Hx. unfold waits_for in Hx. apply andb_prop in Hx as [Hx _]. by apply bool_decide_eq_true in Hx.
  - eexists. split; [done |]. exists q. split; [| done]. by apply (sys_ok_views None q s).
  - destruct Ha as (k & Hk & _ & Hr). eapply ok_intro; [done |]. apply (sched_tick_ok c k); [done | done |]. intros E. by apply Hr.
  - destruct Ha as (k & Hk & _ & _ & _ & Hnp & Hfr). eexists. split; [done |].
    destruct (proc_spawn_io_ok q s c k Hok Hk Hnp par io l) as (_ & _ & [[_ ?] | (_ & h & ql & t & _ & _ & ? & _)]).
    + intros a Ea j. by apply Hfr.
    + by exists q.
    + by exists (h :: t :: ql).
  - destruct Ha as (k & Hk & _ & Hi & _). eapply ok_intro; [done |]. by apply (proc_exit_ok c k).
  - eexists. split; [done |]. exists q. split; [by apply proc_kill_ok | done].
  - destruct Ha as (k & Hk & _). destruct (proc_current_done q s c k Hok Hk) as (par & _ & Epar & _).
    destruct (proc_wait_ok c k par p q s Hok Hk Epar) as (r & s' & -> & Hw). cbn [mbind out_bind].
    exists s'. split; [done |]. by apply (waits_ok c k par p q s r s').
  - destruct Ha as (k & Hk & _). destruct (proc_reap_ok c k q s Hok Hk) as (par & z & st & any & s' & _ & -> & Hr).
    exists s'. split; [done |]. destruct Hr as [(_ & _ & -> & _) | (i & t & _ & _ & _ & _ & _ & _ & _ & Hst & Hok')]; [by exists q |].
    exists (without t q). split; [done |]. apply (queue_nonempty _ s' c k); [done |].
    destruct (td_rest _ _ _ _ _ Hst) as (_ & -> & _). done.
  - destruct Ha as (k & Hk & _). unfold proc_reap_orphans. destruct (proc_current_done q s c k Hok Hk) as (me & -> & _). cbn [mbind out_bind].
    destruct (orphans_loop_ok me keep c k (seq 0 MAX_PROCESSES) q s 0 Hok Hk) as (m & q' & s' & -> & Hok' & Ec).
    exists s'. split; [done |]. exists q'. split; [done |]. apply (queue_nonempty _ s' c k); [done |]. by rewrite Ec.
  - destruct Ha as (k & Hk & _). destruct (resume_ok c k q s Hok Hk) as (r & q' & s' & -> & ?). exists s'. split; [done |]. by exists q'.
  - destruct Ha as (k & Hk & _). destruct (sys_setsize_ok q s c k p rows cols Hok Hk) as (z & s' & -> & ?). exists s'.
    split; [done |]. by exists q.
  - eexists. split; [done |].
    destruct (smp_ap_join_ok c stack q s Hok Hq Ha) as [[? _] | (h & l & t & _ & _ & ? & _)]; [by exists q | by exists (h :: t :: l)].
Qed.

Lemma exec_keeps c o s s' : ok s -> allowed c o s -> exec c o s = Done s' -> ok s'.
Proof.
  intros Hok Ha E. destruct o as [z | | | | | | | | | | | | | | |].
  1: { destruct Hok as (q & Hok & Hq). exists q. split; [by apply (switch_context_ok None q s c z) | done]. }
  all: match goal with H : exec ?c ?o ?s = Done ?s' |- _ =>
         destruct (exec_ok c o s Hok Ha I) as (s1 & E1 & Hok1); rewrite E in E1; by injection E1 as <- end.
Qed.

Lemma reachable_ok top s : reachable top s -> ok s.
Proof.
  induction 1 as [s E | s c o s' _ IH [c' o' s1 Ha E]].
  - rewrite proc_init_first in E. injection E as <-. exists [0%nat]. split; [apply first_state_ok | done].
  - by apply (exec_keeps c' o' s).
Qed.

(** ** Runs in which nobody enters in the gap *)

(** No other processor has decided to switch and not switched yet. *)
Definition alone (c : nat) (s : sys) : Prop := forall c' k, cpus s !! c' = Some k -> c' <> c -> switching k = None.

Inductive orderly (boot_stack_top : Z) : sys -> Prop :=
| orderly_init s : proc_init boot_stack_top boot = Done s -> orderly boot_stack_top s
| orderly_step s c o s' : orderly boot_stack_top s -> alone c s -> step s c o s' -> orderly boot_stack_top s'.

Lemma orderly_reachable top s : orderly top s -> reachable top s.
Proof. induction 1 as [s E | s c o s' _ IH _ H]; [by constructor | by apply (reach_step _ s c o)]. Qed.

(** Every other step leaves all processors on their stacks. *)
Lemma exec_turned q c k o s s' : sys_ok None q s -> cpus s !! c = Some k -> switching k = None -> allowed c o s ->
  exec c o s = Done s' -> turned c s s'.
Proof.
  intros Hok Hk Hsw Ha E. destruct o; cbn [exec allowed] in *;
    [| | | | | | | | | | | | | | | congruence]; destruct Ha as (k0 & Hk0 & Ha); assert (k0 = k) as -> by congruence.
  - congruence.
  - by apply (yield_turned q s c k).
  - apply (block_turned q s c k Hok Hk r 0 InBlock); [split; [done | by intros ?] | done].
  - apply (block_turned q s c k Hok Hk r (if until_tick =? 0 then 1 else until_tick) InBlock); [split; [done | by intros ?] | exact E].
  - destruct (wake_queue_spec (waits_for r) q s (so_queue _ _ _ (proj1 Hok))) as (s1 & E1 & Ho & _).
    unfold sched_wake in E. rewrite E1 in E. injection E as <-. left. by apply only_threads_eqs in Ho as (_ & _ & ? & _).
  - injection E as <-. by left.
  - destruct Ha as [_ Hr]. apply (tick_turned q s c k Hok Hk ring3); [| done]. intros E3. by apply Hr.
  - injection E as <-. left. destruct Ha as (_ & _ & _ & Hnp & Hfr).
    apply (proc_spawn_io_ok q s c k Hok Hk Hnp par io l). intros a Ea j. by apply Hfr.
  - destruct Ha as (_ & Hi & _). by apply (exit_turned q s c k Hok Hk status).
  - injection E as <-. left. apply kill_cpus.
  - apply bind_done in E as ([r s1] & E1 & [= <-]). by apply (wait_turned q s c k Hok Hk p r).
  - apply bind_done in E as ([[z st] s1] & E1 & [= <-]). by apply (reap_turned q s c k Hok Hk z st).
  - apply bind_done in E as ([n s1] & E1 & [= <-]). by apply (orphans_turned q s c k Hok Hk keep n).
  - apply bind_done in E as ([r s1] & E1 & [= <-]). by apply (resume_turned q s c k Hok Hk r).
  - apply bind_done in E as ([z s1] & E1 & [= <-]). left. by apply (setsize_cpus q s c k p rows cols z s1).
Qed.

(** A processor that has decided to switch: it is the only one, the thread it
    leaves is there and on no other processor. *)
Definition gap_ok (s : sys) : Prop :=
  forall c k prev id n, cpus s !! c = Some k -> switching k = Some (prev, id, n) ->
    alone c s /\ n = current k /\ still_there prev id s /\
    forall c' k', cpus s !! c' = Some k' -> c' <> c -> current k' <> prev.

Lemma none_switching_gap s : (forall c k, cpus s !! c = Some k -> switching k = None) -> gap_ok s.
Proof. intros H c k prev id n Hk E. by rewrite (H c k Hk) in E. Qed.

Lemma turned_gap q c k s s' : sys_ok None q s -> cpus s !! c = Some k -> (forall c k, cpus s !! c = Some k -> switching k = None) ->
  turned c s s' -> gap_ok s'.
Proof.
  intros Hok Hk Hn [Ec | (k0 & k' & Hk0 & Ec & Hsw & Hst)].
  - apply none_switching_gap. intros c' k'. rewrite Ec. apply Hn.
  - assert (k0 = k) as -> by congruence. intros c1 k1 prev id n H1 E1. rewrite Ec in H1.
    apply lookup_insert_Some in H1 as [[<- <-] | [_ H1]]; [| by rewrite (Hn c1 k1 H1) in E1].
    rewrite Hsw in E1. injection E1 as <- <- <-. split; [| split; [done | split; [by split |]]].
    + intros c' k2 H2 Hne. rewrite Ec, lookup_insert_ne in H2 by done. by apply (Hn c').
    + intros c' k2 H2 Hne Hcur. rewrite Ec, lookup_insert_ne in H2 by done.
      apply Hne. apply (so_apart _ _ _ (proj1 Hok) c' c k2 k); auto.
Qed.

Lemma orderly_gap top s : orderly top s -> gap_ok s.
Proof.
  induction 1 as [s E | s c o s' Ho IH Hal Hstep].
  - rewrite proc_init_first in E. injection E as <-. apply none_switching_gap. intros c k Hk. cbn in Hk.
    by apply lookup_singleton_Some in Hk as [<- <-].
  - pose proof (orderly_reachable top s Ho) as Hr. destruct (reachable_ok top s Hr) as (q & Hok & Hq0).
    destruct Hstep as [c o s' Ha E]. destruct (cpus s !! c) as [k |] eqn:Hk.
    + destruct (switching k) as [pn |] eqn:Hsw.
      * destruct o; try (cbn [allowed] in Ha; destruct Ha as (k0 & ? & ? & _); congruence); [| cbn in Ha; congruence].
        cbn [exec] in E. apply switch_context_inv in E as (k0 & prev & id & n & Hk0 & _ & ->). apply none_switching_gap.
        intros c' k' Hk'. cbn in Hk'. apply lookup_insert_Some in Hk' as [[_ <-] | [Hne Hk']]; [done | by apply (Hal c')].
      * apply (turned_gap q c k s s' Hok Hk); [| by apply (exec_turned q c k o s s')].
        intros c' k' Hk'. destruct (decide (c' = c)) as [-> | Hne]; [congruence | by apply (Hal c')].
    + destruct o; try (cbn [allowed] in Ha; destruct Ha as (k0 & ? & _); congruence).
      cbn [exec] in E. injection E as <-. apply none_switching_gap. intros c' k' Hk'.
      destruct (decide (c' = c)) as [-> | Hne].
      * by apply (join_switching c stack s k' Hk).
      * apply (Hal c'); [| done]. by apply (join_others c stack s).
Qed.

(** With the gap empty the stacks are those of the threads that run. *)
Lemma orderly_undisturbed top s c o : orderly top s -> undisturbed c o s.
Proof.
  intros Ho. destruct o as [z | | | | | | | | | | | | | | |]; try done. intros k prev id n Hk Hsw.
  destruct (orderly_gap top s Ho c k prev id n Hk Hsw) as (Hal & -> & Hth & _). split; [done |].
  intros c' k' Hk'. destruct (decide (c' = c)) as [-> | Hne]; [by left | right]. unfold stack_in_use. rewrite (Hal c' k' Hk' Hne).
  destruct (reachable_ok top s (orderly_reachable top s Ho)) as (q & Hok & _). intros E. apply Hne.
  apply (so_apart _ _ _ (proj1 Hok) c' c k' k); auto.
Qed.

Lemma orderly_stacks top s c c' k k' : orderly top s -> cpus s !! c = Some k -> cpus s !! c' = Some k' ->
  stack_in_use k = stack_in_use k' -> c = c'.
Proof.
  intros Ho Hk Hk' E. destruct (decide (c = c')) as [| Hne]; [done |]. exfalso.
  destruct (reachable_ok top s (orderly_reachable top s Ho)) as (q & Hok & _).
  pose proof (orderly_gap top s Ho) as Hg. unfold stack_in_use in E.
  destruct (switching k) as [[[p1 i1] n1] |] eqn:E1.
  - destruct (Hg c k p1 i1 n1 Hk E1) as (Hal & _ & _ & Hcur). rewrite (Hal c' k' Hk') in E by done. by apply (Hcur c' k' Hk').
  - destruct (switching k') as [[[p2 i2] n2] |] eqn:E2.
    + destruct (Hg c' k' p2 i2 n2 Hk' E2) as (_ & _ & _ & Hcur). by apply (Hcur c k Hk).
    + apply Hne. apply (so_apart _ _ _ (proj1 Hok) c c' k k'); auto.
Qed.

(** ** Sample states *)

Definition is_done {A} (o : out A) : bool := match o with Done _ => true | _ => false end.
Definition result (o : out sys) : sys := match o with Done s => s | _ => boot end.

Lemma result_done o : is_done o = true -> o = Done (result o).
Proof. by destruct o. Qed.

(** A program that loads, into address space [a]. *)
Definition program (a : Z) : loaded := Loaded 0 (Some a) (65536 * a) 0 0 4194304 8388608.

(** From start-up with these steps. *)
Definition after (tr : list (nat * op)) : sys := result (run_trace tr (first_state 65536)).

Lemma after_reachable tr : is_done (run_trace tr (first_state 65536)) = true -> reachable 65536 (after tr).
Proof.
  intros H. apply (run_trace_reachable 65536 tr (first_state 65536)).
  - constructor. apply proc_init_first.
  - by apply result_done.
Qed.

(** ** The theorems *)

(** C7: in every reachable state each processor has one current thread, no two
    processors the same one; that thread has not ended and is marked running, or
    is the processor's own idle thread; every thread marked running is on a
    processor; and the processor has the address space of the thread's process
    in CR3 and, for a thread that runs programs, the top of that thread's kernel
    stack in its TSS. In a run in which no processor enters the kernel between
    the schedule() and the switch_context() of another one, no two processors
    are on the same kernel stack either; the code does not prevent such an
    entry. *)
Theorem processors_consistent top s c k : reachable top s -> cpus s !! c = Some k ->
  (forall c' k', cpus s !! c' = Some k' -> current k = current k' -> c = c') /\
  state (thr s (current k)) <> THREAD_UNUSED /\ state (thr s (current k)) <> THREAD_ZOMBIE /\
  (state (thr s (current k)) = THREAD_RUNNING \/ current k = idle k) /\
  (forall t, state (thr s t) = THREAD_RUNNING -> exists c' k', cpus s !! c' = Some k' /\ current k' = t) /\
  cpu_space k = space_of s (current k) /\
  (current k <> idle k -> tss_stack k = kernel_stack (thr s (current k)) + kernel_stack_size (thr s (current k))) /\
  (orderly top s -> forall c' k', cpus s !! c' = Some k' -> stack_in_use k = stack_in_use k' -> c = c').
Proof.
  intros Hr Hk. destruct (reachable_ok top s Hr) as (q & Hok & _). pose proof Hok as [Hs Hp]. split_and!.
  - intros c' k' Hk' E. apply (so_apart _ _ _ Hs c c' k k'); auto.
  - apply (so_members _ _ _ Hs). by apply (current_in q s c k Hok Hk).
  - by apply (current_alive q s c k Hok Hk).
  - by apply (so_runs _ _ _ Hs c k Hk).
  - apply (so_running _ _ _ Hs).
  - by apply (po_loaded _ _ Hp c).
  - intros Hne. destruct (po_tss _ _ Hp c k Hk); done.
  - intros Ho c' k' Hk'. by apply (orderly_stacks top s).
Qed.

(** Two programs on two processors. *)
Definition two_running : list (nat * op) :=
  [(0%nat, Spawn KProc None (program 1)); (0%nat, Spawn KProc None (program 2)); (1%nat, Join 131072);
   (0%nat, Yield); (0%nat, SwitchContext 1); (1%nat, Yield); (1%nat, SwitchContext 2)].

Lemma processors_consistent_witness :
  cpus (after two_running) !! 0%nat = Some (Cpu 2 0 (Space 2) 147456 147384 None) /\
  cpu_space (Cpu 2 0 (Space 2) 147456 147384 None) = space_of (after two_running) 2.
Proof.
  assert (Hk : cpus (after two_running) !! 0%nat = Some (Cpu 2 0 (Space 2) 147456 147384 None)) by (vm_compute; reflexivity).
  assert (Hr : reachable 65536 (after two_running)) by (apply after_reachable; vm_compute; reflexivity).
  split; [exact Hk |]. exact (proj1 (proj2 (proj2 (proj2 (proj2 (proj2 (processors_consistent 65536 _ 0 _ Hr Hk))))))).
Defined.

(** C8: in every reachable state every step a processor may take runs to its
    end, without following a null pointer, reaching a panic or going round a
    list for ever; in particular no zombie is ever scheduled again. The one step
    that asks for more is a switch_context() that is due: it needs that no other
    processor is still on the stack of the thread it resumes and that nobody has
    freed the stack it runs on. Both hold in every run in which no processor
    enters the kernel between the schedule() and the switch_context() of another
    one. *)
Theorem kernel_steps_return top s c o : reachable top s -> allowed c o s ->
  (undisturbed c o s -> exists s', exec c o s = Done s' /\ reachable top s') /\
  (orderly top s -> exists s', exec c o s = Done s' /\ (alone c s -> orderly top s')).
Proof.
  intros Hr Ha. split.
  - intros Hu. destruct (exec_ok c o s (reachable_ok top s Hr) Ha Hu) as (s' & E & _). exists s'. split; [done |].
    econstructor; [exact Hr | by constructor].
  - intros Ho. destruct (exec_ok c o s (reachable_ok top s Hr) Ha (orderly_undisturbed top s c o Ho)) as (s' & E & _).
    exists s'. split; [done |]. intros Hal. by apply (orderly_step top s c o s').
Qed.

Lemma kernel_steps_return_witness :
  exists s', exec 0 (Exit 3) (after two_running) = Done s' /\ reachable 65536 s'.
Proof.
  assert (Hr : reachable 65536 (after two_running)) by (apply after_reachable; vm_compute; reflexivity).
  assert (Ha : allowed 0 (Exit 3) (after two_running)) by (apply allowedb_sound; vm_compute; reflexivity).
  exact (proj1 (kernel_steps_return 65536 _ 0 (Exit 3) Hr Ha) I).
Defined.

(** Proc_wait() reaps and reports the status of a child that has ended, says
    that there is no child to wait for exactly when there is none, and puts the
    thread to sleep exactly when there are children but none has ended; reaping
    frees the slot and the thread and leaves every other process alone. *)
Theorem proc_wait_correct top s c k par p : reachable top s -> cpus s !! c = Some k ->
  proc (thr s (current k)) = Some par ->
  exists r s', proc_wait c p s = Done (r, s') /\
  ((exists i, child_of par p (prc s i) = true /\ reapable s (prc s i) = true /\
      r = Some (pid (prc s i), exit_status (prc s i)) /\ used (prc s' i) = false /\
      (forall j, j <> i -> prc s' j = prc s j) /\
      forall t, p_thread (prc s i) = Some t -> state (thr s' t) = THREAD_UNUSED) \/
   (r = Some (- W_ECHILD, 0) /\ s' = s /\ forall i, child_of par p (prc s i) = false) \/
   (r = None /\ (exists i, child_of par p (prc s i) = true) /\
      (forall i, child_of par p (prc s i) = true -> reapable s (prc s i) = false) /\
      block_on c WAIT_CHILD 0 (InWait p) s = Done s')).
Proof.
  intros Hr Hk Hpar. destruct (reachable_ok top s Hr) as (q & Hok & _).
  destruct (proc_wait_ok c k par p q s Hok Hk Hpar) as (r & s' & E & Hw). exists r, s'. split; [done |].
  destruct Hw as [(i & t & Hc & Hre & Hr' & Hpt & Hst & _) | [? | (? & ? & ? & ? & _)]]; [left | by right; left | by right; right].
  exists i. split_and!; [done | done | done | | |].
  - rewrite (td_proc _ _ _ _ _ Hst i). by rewrite decide_True.
  - intros j Hj. rewrite (td_proc _ _ _ _ _ Hst j). by rewrite decide_False.
  - intros t' Ht'. assert (t' = t) as -> by congruence. apply (td_gone _ _ _ _ _ Hst).
Qed.

(** The kernel's child has ended with status 3. *)
Definition child_ended : list (nat * op) :=
  [(0%nat, Spawn KProc None (program 1)); (0%nat, Yield); (0%nat, SwitchContext 1); (0%nat, Exit 3); (0%nat, SwitchContext 2)].

Lemma proc_wait_correct_witness :
  proc (thr (after child_ended) 0) = Some KProc /\ exists r s', proc_wait 0 1 (after child_ended) = Done (r, s').
Proof.
  assert (Hp : proc (thr (after child_ended) 0) = Some KProc) by (vm_compute; reflexivity). split; [exact Hp |].
  assert (Hr : reachable 65536 (after child_ended)) by (apply after_reachable; vm_compute; reflexivity).
  assert (Hk : cpus (after child_ended) !! 0%nat = Some (Cpu 0 0 KSpace 65536 1 None)) by (vm_compute; reflexivity).
  destruct (proc_wait_correct 65536 _ 0 _ KProc 1 Hr Hk Hp) as (r & s' & E & _). exists r, s'. exact E.
Defined.

(** C9: no wake-up is lost. In every reachable state a thread that sleeps in
    proc_wait() has no child, of those it waits for, that has ended: the exit of
    a child and the check of the waiter cannot miss each other. *)
Theorem waiter_has_nothing_to_reap top s t p par i : reachable top s -> state (thr s t) = THREAD_BLOCKED ->
  cont (thr s t) = InWait p -> proc (thr s t) = Some par -> child_of par p (prc s i) = true ->
  reapable s (prc s i) = false /\ wait_reason (thr s t) = WAIT_CHILD.
Proof.
  intros Hr Hb Hc Hpar Hch. destruct (reachable_ok top s Hr) as (q & [Hs Hp] & _).
  assert (Hq : t ∈ q) by (apply (so_members _ _ _ Hs); by rewrite Hb).
  destruct (po_wait _ _ Hp t p Hq Hb Hc) as [Hw Hn]. split; [by apply (Hn par) | done].
Qed.

(** A shell waits for its child. *)
Definition shell_waits : list (nat * op) :=
  [(0%nat, Spawn KProc None (program 1)); (0%nat, Yield); (0%nat, SwitchContext 1);
   (0%nat, Spawn (Sched.Proc 0) None (program 2)); (0%nat, Wait (-1)); (0%nat, SwitchContext 2)].

Lemma waiter_has_nothing_to_reap_witness :
  child_of (Sched.Proc 0) (-1) (prc (after shell_waits) 1) = true /\ reapable (after shell_waits) (prc (after shell_waits) 1) = false.
Proof.
  assert (Hc : child_of (Sched.Proc 0) (-1) (prc (after shell_waits) 1) = true) by (vm_compute; reflexivity).
  assert (Hr : reachable 65536 (after shell_waits)) by (apply after_reachable; vm_compute; reflexivity).
  assert (Hb : state (thr (after shell_waits) 1) = THREAD_BLOCKED) by (vm_compute; reflexivity).
  assert (Hk : cont (thr (after shell_waits) 1) = InWait (-1)) by (vm_compute; reflexivity).
  assert (Hp : proc (thr (after shell_waits) 1) = Some (Sched.Proc 0)) by (vm_compute; reflexivity).
  split; [exact Hc |]. exact (proj1 (waiter_has_nothing_to_reap 65536 _ 1 (-1) _ 1 Hr Hb Hk Hp Hc)).
Defined.

(** C10: teardown() of a process that has ended, at a moment when no processor
    is between its schedule() and its switch_context(), gives back its kernel
    stack and its address space and nothing else; no processor runs that thread,
    is on that stack or has those page tables in CR3; the slots of the process
    and of the thread are free and every other process is untouched. *)
Theorem teardown_correct top s c k i : reachable top s -> cpus s !! c = Some k -> used (prc s i) = true ->
  reapable s (prc s i) = true -> (forall c' k', cpus s !! c' = Some k' -> switching k' = None) ->
  exists s' t a, teardown i s = Done s' /\ p_thread (prc s i) = Some t /\ space (prc s i) = Some (Space a) /\
    log s' = log s ++ freed s t a /\
    (forall c' k', cpus s !! c' = Some k' -> current k' <> t /\ stack_in_use k' <> t /\ cpu_space k' <> Space a) /\
    used (prc s' i) = false /\ state (thr s' t) = THREAD_UNUSED /\ (forall j, j <> i -> prc s' j = prc s j) /\
    forall u, u <> t -> exists n, thr s' u = with_next n (thr s u).
Proof.
  intros Hr Hk Hu Hre Hgap. destruct (reachable_ok top s Hr) as (q & Hok & _).
  destruct (reapable_thread q s i Hok Hu Hre) as (t & Hpt & Hz).
  destruct (po_proc _ _ (proj2 Hok) i Hu) as (_ & a & _ & _ & _ & _ & Hsp).
  destruct (teardown_done q t i a s c k Hok Hk Hu Hpt Hsp Hz) as (s' & E & Hst & Hlog).
  exists s', t, a. split_and!; [done | done | done | done | | | apply (td_gone _ _ _ _ _ Hst) | |].
  - intros c' k' Hk'. destruct (teardown_not_loaded q t i s Hok Hu Hpt Hz c' k' Hk') as [Hne _]. split; [done |].
    split; [unfold stack_in_use; by rewrite (Hgap c' k' Hk') |].
    rewrite (po_loaded _ _ (proj2 Hok) c' k' Hk'). intros Esp.
    destruct (proc_current_done q s c' k' Hok Hk') as (p & _ & Ep & Hcase). unfold space_of in Esp. rewrite Ep in Esp.
    destruct Hcase as [[-> _] | (j & -> & _ & Huj & Hpj)].
    + cbn in Esp. rewrite (proj1 (po_kernel _ _ (proj2 Hok))) in Esp. done.
    + cbn [process_at] in Esp. change (processes s !!! j) with (prc s j) in Esp.
      destruct (po_proc _ _ (proj2 Hok) j Huj) as (_ & b & _ & _ & _ & _ & Hspj). rewrite Hspj in Esp. cbn in Esp. injection Esp as ->.
      assert (j = i) as -> by (apply (po_spaces _ _ (proj2 Hok)); congruence).
      assert (t = current k') as -> by congruence. by apply (current_alive q s c' k' Hok Hk').
  - rewrite (td_proc _ _ _ _ _ Hst i). by rewrite decide_True.
  - intros j Hj. rewrite (td_proc _ _ _ _ _ Hst j). by rewrite decide_False.
  - intros u Hne. eexists. by apply (td_thread _ _ _ _ _ Hst).
Qed.

Lemma teardown_correct_witness :
  reapable (after child_ended) (prc (after child_ended) 0) = true /\ exists s', teardown 0 (after child_ended) = Done s'.
Proof.
  assert (Hr : reachable 65536 (after child_ended)) by (apply after_reachable; vm_compute; reflexivity).
  assert (Hk : cpus (after child_ended) !! 0%nat = Some (Cpu 0 0 KSpace 65536 1 None)) by (vm_compute; reflexivity).
  assert (Hu : used (prc (after child_ended) 0) = true) by (vm_compute; reflexivity).
  assert (Hp : reapable (after child_ended) (prc (after child_ended) 0) = true) by (vm_compute; reflexivity).
  assert (Hg : forall c' k', cpus (after child_ended) !! c' = Some k' -> switching k' = None).
  { assert (H : map_Forall (fun _ k' => switching k' = None) (cpus (after child_ended))) by (refine (bool_decide_unpack _ _); vm_compute; exact I).
    exact H. }
  split; [exact Hp |]. destruct (teardown_correct 65536 _ 0 _ 0 Hr Hk Hu Hp Hg) as (s' & _ & _ & E & _). exists s'. exact E.
Defined.

(** Pick_next() chooses what round robin asks for: in every reachable state,
    with the run queue read from behind the current thread, the first thread
    that is ready and not an idle thread; if there is none the current thread as
    long as it can go on; and otherwise the processor's idle thread. *)
Theorem pick_next_round_robin top s c k : reachable top s -> cpus s !! c = Some k ->
  exists l, NoDup (current k :: l) /\ cyc (nx s) (current k :: l) /\
    (forall t, t ∈ current k :: l <-> state (thr s t) <> THREAD_UNUSED) /\
    pick_next (idle k) (current k) s = choice s (idle k) (current k) l.
Proof.
  intros Hr Hk. destruct (reachable_ok top s Hr) as (q & [Hs _] & _). destruct (so_cpu _ _ _ Hs c k Hk) as [Hin _].
  destruct (so_queue _ _ _ Hs) as [_ Hh Hnd Hc Hrange]. destruct (ring_from (nx s) q (current k) Hc Hin) as (l1 & l2 & Eq & Hcy).
  assert (Hp : q ≡ₚ current k :: l2 ++ l1) by (rewrite Eq; solve_Permutation).
  exists (l2 ++ l1). split; [by rewrite <- Hp |]. split; [done |]. split; [intros t; rewrite <- Hp; apply (so_members _ _ _ Hs) |].
  assert (Hhd : exists h, run_queue s = Some h) by (rewrite Hh, Eq; destruct l1; eauto). destruct Hhd as [h Hhd].
  apply (pick_next_choice s (idle k) h); [done | done | by rewrite <- Hp |].
  rewrite <- Hp. by apply nodup_range_length.
Qed.

Lemma pick_next_round_robin_witness :
  exists l, NoDup (2%nat :: l) /\ pick_next 0 2 (after two_running) = choice (after two_running) 0 2 l.
Proof.
  assert (Hr : reachable 65536 (after two_running)) by (apply after_reachable; vm_compute; reflexivity).
  assert (Hk : cpus (after two_running) !! 0%nat = Some (Cpu 2 0 (Space 2) 147456 147384 None)) by (vm_compute; reflexivity).
  destruct (pick_next_round_robin 65536 _ 0 _ Hr Hk) as (l & Hn & _ & _ & E). exists l. split; [exact Hn | exact E].
Defined.

(** C11: a deadline is kept across the wrap of the 32-bit tick counter. With the
    clock at time T, wake_expired() wakes exactly the blocked threads whose
    deadline W has come, for deadlines within 2^31 ticks of the present; threads
    that wait without a deadline and threads that do not wait are left as they
    are. *)
Theorem wake_expired_correct top s T : reachable top s ->
  exists s', wake_expired (u32 T) s = Done s' /\
  forall t, (state (thr s t) <> THREAD_BLOCKED \/ wake_at (thr s t) = 0 -> thr s' t = thr s t) /\
    forall W, state (thr s t) = THREAD_BLOCKED -> wake_at (thr s t) = u32 W -> u32 W <> 0 -> Z.abs (T - W) < 2 ^ 31 ->
      thr s' t = if W <=? T then with_wait THREAD_READY WAIT_NONE (wake_at (thr s t)) (thr s t) else thr s t.
Proof.
  intros Hr. destruct (reachable_ok top s Hr) as (q & [Hs _] & _).
  destruct (wake_queue_spec (expired (u32 T)) q s (so_queue _ _ _ Hs)) as (s' & E & _ & Ht). exists s'. split; [done |].
  intros t. rewrite Ht. split.
  - intros H. assert (Hex : expired (u32 T) (thr s t) = false); [| by rewrite Hex, andb_false_r].
    unfold expired. destruct H as [H | ->]; [by rewrite (bool_decide_false _ H) | by rewrite andb_false_r].
  - intros W Hb Hwt Hne Hd. assert (Hq : t ∈ q) by (apply (so_members _ _ _ Hs); by rewrite Hb).
    rewrite (bool_decide_true (t ∈ q)) by done. cbn [andb]. unfold expired, woken. rewrite (bool_decide_true _ Hb), Hwt.
    rewrite (proj2 (Z.eqb_neq (u32 W) 0) Hne). cbn [negb andb].
    assert (Hi : i32 (u32 T - u32 W) = T - W).
    { unfold i32, u32. rewrite <- Zminus_mod. generalize dependent (T - W). intros x Hx. cbn zeta.
      destruct (Z.ltb_spec (x `mod` 4294967296) 2147483648); zlia. }
    rewrite Hi. replace (0 <=? T - W) with (W <=? T); [done |]. destruct (Z.leb_spec W T), (Z.leb_spec 0 (T - W)); lia.
Qed.

(** A program sleeps until tick 5. *)
Definition asleep_until_5 : list (nat * op) :=
  [(0%nat, Spawn KProc None (program 1)); (0%nat, Yield); (0%nat, SwitchContext 1);
   (0%nat, BlockUntil WAIT_TIME 5); (0%nat, SwitchContext 2)].

Lemma wake_expired_correct_witness :
  state (thr (after asleep_until_5) 1) = THREAD_BLOCKED /\
  exists s', wake_expired (u32 5) (after asleep_until_5) = Done s' /\ state (thr s' 1) = THREAD_READY.
Proof.
  assert (Hb : state (thr (after asleep_until_5) 1) = THREAD_BLOCKED) by (vm_compute; reflexivity). split; [exact Hb |].
  assert (Hr : reachable 65536 (after asleep_until_5)) by (apply after_reachable; vm_compute; reflexivity).
  assert (Hw : wake_at (thr (after asleep_until_5) 1) = u32 5) by (vm_compute; reflexivity).
  destruct (wake_expired_correct 65536 _ 5 Hr) as (s' & E & H). exists s'. split; [exact E |].
  rewrite (proj2 (H 1%nat) 5 Hb Hw); [reflexivity | discriminate | reflexivity].
Defined.

(** Who shares the terminal of process [i]: whoever is reached from it through
    children without one of their own, [i] itself having one from now on. *)
Definition in_terminal (s : sys) (i j : nat) : Prop := below (on_process (Sched.Proc i) with_own_terminal s) (Sched.Proc i) j.

Lemma below_ext s s' p j : (forall p' i, same_terminal p' (prc s' i) = same_terminal p' (prc s i)) -> below s' p j -> below s p j.
Proof.
  intros He. induction 1 as [i Hi | j i _ IH Hi]; [apply below_child | apply (below_step _ _ j); [done |]]; by rewrite <- He.
Qed.

(** Proc_resize_terminal() always comes to an end, though parent pointers can
    form a cycle, and gives the new size to exactly the process it is called for
    and the processes that share its terminal. *)
Theorem resize_terminal_correct s i rows cols : length (processes s) = MAX_PROCESSES -> (i < MAX_PROCESSES)%nat ->
  exists s', proc_resize_terminal (Sched.Proc i) rows cols s = Done s' /\
    prc s' i = with_own_terminal (with_size rows cols (prc s i)) /\
    forall j, j <> i -> prc s' j = with_size rows cols (prc s j) /\ in_terminal s i j \/ prc s' j = prc s j /\ ~ in_terminal s i j.
Proof.
  intros Hl Hi. unfold proc_resize_terminal. set (s1 := on_process _ with_own_terminal _).
  assert (H1 : forall j, prc s1 j = if decide (j = i) then with_own_terminal (with_size rows cols (prc s i)) else prc s j).
  { intros j. unfold s1. rewrite !prc_on_process by (rewrite ?length_on_process, Hl; done). rewrite (decide_True (P := i = i)) by done.
    by case_decide. }
  assert (Hl1 : length (processes s1) = MAX_PROCESSES) by (unfold s1; by rewrite !length_on_process).
  assert (Hown : own_terminal (prc s1 i) = true) by (rewrite H1; by rewrite decide_True).
  destruct (resize_children_done rows cols (S MAX_PROCESSES) (Sched.Proc i) [i] s1 Hl1) as (s' & E & _ & _ & Hs);
    [by apply path_root | cbn [length]; lia |].
  assert (Hsame : forall p' j, same_terminal p' (prc s1 j) = same_terminal p' (prc (on_process (Sched.Proc i) with_own_terminal s) j)).
  { intros p' j. rewrite H1, prc_on_process by by rewrite Hl. by case_decide. }
  assert (Hb : forall j, below s1 (Sched.Proc i) j <-> in_terminal s i j).
  { intros j. split; apply below_ext; intros; [| symmetry]; apply Hsame. }
  exists s'. split; [done |]. split.
  - destruct (Hs i) as [[_ Hbi] | [-> _]]; [| rewrite H1; by rewrite decide_True]. exfalso.
    inversion Hbi as [? Hi' | ? ? _ Hi']; subst; apply same_terminal_inv in Hi' as (_ & _ & ?); congruence.
  - intros j Hj. rewrite <- Hb. destruct (Hs j) as [[-> ?] | [-> ?]]; rewrite H1, decide_False by done; auto.
Qed.

(** Parent pointers in a circle: a program starts another and ends, it is
    reaped, and the other starts a third, which gets its slot.  Process 1 is the
    parent of process 0 and process 0 that of process 1. *)
Definition circle : list (nat * op) :=
  [(0%nat, Spawn KProc None (program 1)); (0%nat, Yield); (0%nat, SwitchContext 1);
   (0%nat, Spawn (Sched.Proc 0) None (program 2)); (0%nat, Exit 0); (0%nat, SwitchContext 2);
   (0%nat, Tick true); (0%nat, Block WAIT_INPUT); (0%nat, SwitchContext 3); (0%nat, ReapOrphans 0);
   (0%nat, Wake WAIT_INPUT); (0%nat, Yield); (0%nat, SwitchContext 4); (0%nat, Resume);
   (0%nat, Spawn (Sched.Proc 1) None (program 3))].

Lemma resize_terminal_correct_witness :
  parent (prc (after circle) 0) = Some (Sched.Proc 1) /\ parent (prc (after circle) 1) = Some (Sched.Proc 0) /\
  exists s', proc_resize_terminal (Sched.Proc 1) 40 100 (after circle) = Done s'.
Proof.
  split; [vm_compute; reflexivity |]. split; [vm_compute; reflexivity |].
  assert (Hl : length (processes (after circle)) = MAX_PROCESSES) by (vm_compute; reflexivity).
  destruct (resize_terminal_correct (after circle) 1 40 100 Hl) as (s' & E & _); [unfold MAX_PROCESSES; lia |].
  exists s'. exact E.
Defined.

(** ** Behaviour that is not meant

    A child keeps pointing at the slot of its parent when that is reaped.  In
    the state above process 0, which process 1 started, has process 1 as its
    own child: it may wait for it, take its exit status and resize it. *)
Example parent_becomes_child :
  reachable 65536 (after circle) /\ child_of (Sched.Proc 0) (-1) (prc (after circle) 1) = true /\
  child_of (Sched.Proc 1) (-1) (prc (after circle) 0) = true.
Proof. split; [apply after_reachable |]; vm_compute; [reflexivity | split; reflexivity]. Qed.

(** And a process whose parent is gone is reaped by nobody: it has ended, and
    the kernel's idle loop passes it over. *)
Definition orphan : list (nat * op) :=
  [(0%nat, Spawn KProc None (program 1)); (0%nat, Yield); (0%nat, SwitchContext 1);
   (0%nat, Spawn (Sched.Proc 0) None (program 2)); (0%nat, Exit 0); (0%nat, SwitchContext 2);
   (0%nat, Exit 0); (0%nat, SwitchContext 3); (0%nat, ReapOrphans 0)].

Example orphan_never_reaped :
  reachable 65536 (after orphan) /\ used (prc (after orphan) 0) = false /\
  used (prc (after orphan) 1) = true /\ reapable (after orphan) (prc (after orphan) 1) = true /\
  proc_reap_orphans 0 0 (after orphan) = Done (0, after orphan).
Proof. split; [apply after_reachable |]; vm_compute; [reflexivity | split_and!; reflexivity]. Qed.

(** A process that is killed while it is ready, and then makes a call that
    waits, goes to sleep with the mark on it: nothing looks at the mark on the
    way into a call, and the kill has said that it succeeded. *)
Definition killed_while_ready : list (nat * op) :=
  [(0%nat, Spawn KProc None (program 1)); (0%nat, Spawn KProc None (program 2)); (0%nat, Yield); (0%nat, SwitchContext 1);
   (0%nat, Tick true); (0%nat, SwitchContext 2); (0%nat, Kill 2); (0%nat, Yield); (0%nat, SwitchContext 3);
   (0%nat, Block WAIT_INPUT)].

Example killed_sleeps :
  reachable 65536 (after killed_while_ready) /\ pid (prc (after killed_while_ready) 1) = 2 /\
  killed (prc (after killed_while_ready) 1) = true /\ exited (prc (after killed_while_ready) 1) = false /\
  state (thr (after killed_while_ready) 2) = THREAD_BLOCKED /\ p_thread (prc (after killed_while_ready) 1) = Some 2%nat.
Proof. split; [apply after_reachable |]; vm_compute; [reflexivity | split_and!; reflexivity]. Qed.

(** schedule() marks the thread it leaves ready and gives up the lock before
    switch_context() has saved its stack pointer.  A second processor that
    enters in between takes that thread, and switches to it with the stack
    pointer of the time before while the first is still on the stack. *)
Definition switched_too_early : list (nat * op) :=
  [(0%nat, Spawn KProc None (program 1)); (0%nat, Spawn KProc None (program 2)); (0%nat, Yield); (0%nat, SwitchContext 1);
   (1%nat, Join 131072); (0%nat, Tick true); (1%nat, Yield)].

Example two_processors_one_stack :
  reachable 65536 (after switched_too_early) /\ allowed 1 (SwitchContext 2) (after switched_too_early) /\
  (exists k0 k1, cpus (after switched_too_early) !! 0%nat = Some k0 /\ cpus (after switched_too_early) !! 1%nat = Some k1 /\
     stack_in_use k0 = current k1) /\
  exec 1 (SwitchContext 2) (after switched_too_early) = Fault.
Proof.
  split; [apply after_reachable; vm_compute; reflexivity |]. split; [apply allowedb_sound; vm_compute; reflexivity |].
  split; [eexists _, _; vm_compute; split_and!; reflexivity | vm_compute; reflexivity].
Qed.

(** In the same gap the stack of a process that ends can be freed under its
    processor. *)
Definition reaped_too_early : list (nat * op) :=
  [(0%nat, Spawn KProc None (program 1)); (0%nat, Yield); (0%nat, SwitchContext 1); (1%nat, Join 131072);
   (0%nat, Exit 0); (1%nat, ReapOrphans 0)].

Example stack_freed_in_the_gap :
  reachable 65536 (after reaped_too_early) /\ allowed 0 (SwitchContext 2) (after reaped_too_early) /\
  FreeStack 65536 ∈ log (after reaped_too_early) /\ exec 0 (SwitchContext 2) (after reaped_too_early) = Fault.
Proof.
  split; [apply after_reachable; vm_compute; reflexivity |]. split; [apply allowedb_sound; vm_compute; reflexivity |].
  split; [apply list_elem_of_In; vm_compute; tauto | vm_compute; reflexivity].
Qed.

End ProcSpec.
