(* ===== verification/SchedLive.v ===== *)
(** * Fairness of the scheduler

    How far a thread that is ready is from running on a given processor, as the
    number of threads the processor passes before it, and what each step of the
    kernel does to this number: a scheduling decision of the processor lowers
    it, a new thread raises it by one at most, nothing else raises it. *)

From S2P Require Import Prelude Ring Sched Proc SchedSpec ProcInv ProcTerm ProcSpec.

Module SchedLive.
Import Sched Proc SchedSpec ProcInv ProcTerm ProcSpec.

Definition runs (s : sys) (t : nat) : Prop := exists c k, cpus s !! c = Some k /\ current k = t.

(** Thread [t] is ready, and processor [c] passes [d] threads before it. *)
Definition waiting (e : option nat) (q : list nat) (c t d : nat) (s : sys) : Prop :=
  sys_ok e q s /\ eligible s t = true /\
  exists k a b l1 l2, cpus s !! c = Some k /\ q = a ++ current k :: b /\ b ++ a = l1 ++ t :: l2 /\ length l1 = d.

(** ** Lists *)

Lemma list_pivot {A} (n : A) l k l' k' : n ∉ l -> n ∉ l' -> l ++ n :: k = l' ++ n :: k' -> l = l' /\ k = k'.
Proof.
  revert l'. induction l as [| x l IH]; intros [| y l'] Hl Hl' E; cbn in E.
  - by injection E as ->.
  - injection E as E1 E. subst y. set_solver +Hl'.
  - injection E as E1 E. subst x. set_solver +Hl.
  - injection E as E1 E. subst y. destruct (IH l') as [-> ->]; [set_solver +Hl | set_solver +Hl' | done |]. done.
Qed.

(** One more element puts another at most one place further back. *)
Lemma insert_behind {A} (u t : A) m1 m2 l1 l2 : m1 ++ m2 = l1 ++ t :: l2 ->
  exists l1' l2', m1 ++ u :: m2 = l1' ++ t :: l2' /\ (length l1' <= S (length l1))%nat.
Proof.
  intros E. apply app_eq_app in E as (m & [[-> E] | [-> ->]]).
  - destruct m as [| x m]; cbn in E.
    + subst m2. exists (l1 ++ [u]), l2. rewrite app_nil_r, <- app_assoc. split; [done |]. rewrite length_app. cbn. lia.
    + injection E as <- ->. exists l1, (m ++ u :: m2). rewrite <- app_assoc. split; [done | lia].
  - exists (m1 ++ u :: m), l2. rewrite <- app_assoc. split; [done |]. rewrite !length_app. cbn. lia.
Qed.

Lemma without_app z l k : without z (l ++ k) = without z l ++ without z k.
Proof. apply filter_app. Qed.

Lemma without_cons z x l : x <> z -> without z (x :: l) = x :: without z l.
Proof. intros H. unfold without. by rewrite filter_cons_True. Qed.

Lemma without_length z l : (length (without z l) <= length l)%nat.
Proof. apply length_filter. Qed.

(** ** What steps do to the distance *)

Lemma waiting_frame e e' q c t d s s' : waiting e q c t d s -> sys_ok e' q s' -> cpus s' !! c = cpus s !! c ->
  eligible s' t = true -> waiting e' q c t d s'.
Proof.
  intros (_ & _ & k & a & b & l1 & l2 & Hk & ?) Hok' Ec He. split_and!; [done | done |]. exists k, a, b, l1, l2. by rewrite Ec.
Qed.

Lemma waiting_in e q c t d s : waiting e q c t d s -> t ∈ q.
Proof.
  intros (_ & _ & k & a & b & l1 & l2 & _ & -> & E & _). assert (Ht : t ∈ b ++ a) by (rewrite E; set_solver +).
  set_solver +Ht.
Qed.

Lemma eligible_same s s' t : state (thr s' t) = state (thr s t) -> is_idle (thr s' t) = is_idle (thr s t) ->
  eligible s t = true -> eligible s' t = true.
Proof. intros E1 E2. rewrite !eligible_spec. by rewrite E1, E2. Qed.

Lemma find_split (f : nat -> bool) l1 t l2 : f t = true ->
  List.find f (l1 ++ t :: l2) = Some t \/ exists n m1 m2, l1 = m1 ++ n :: m2 /\ List.find f (l1 ++ t :: l2) = Some n.
Proof.
  intros Ht. induction l1 as [| x l1 IH]; cbn; [left; by rewrite Ht |]. destruct (f x).
  - right. by exists x, [], l1.
  - destruct IH as [| (n & m1 & m2 & -> & ?)]; [by left |]. right. by exists n, (x :: m1), m2.
Qed.

(** Advancing in the ring. *)
Lemma waiting_advance (q a b m1 m2 l2 : list nat) (x n t : nat) : NoDup q -> q = a ++ x :: b -> b ++ a = (m1 ++ n :: m2) ++ t :: l2 ->
  exists a' b' l2', q = a' ++ n :: b' /\ b' ++ a' = m2 ++ t :: l2'.
Proof.
  intros Hnd -> E. rewrite <- app_assoc in E. cbn in E.
  assert (Hp : NoDup (b ++ a)).
  { apply NoDup_app in Hnd as (Ha & Hd & Hb). apply NoDup_cons in Hb as [_ Hb]. apply NoDup_app. set_solver. }
  assert (Hn : n ∈ b ++ a) by (rewrite E; set_solver +). rewrite E in Hp. apply NoDup_app in Hp as (_ & Hd & Hp).
  assert (Hm1 : n ∉ m1) by (intros Hn1; apply (Hd n); set_solver). apply NoDup_cons in Hp as [Hm2 _].
  apply elem_of_app in Hn as [Hn | Hn]; apply list_elem_of_split_l in Hn as (p1 & p2 & -> & Hp1).
  - rewrite <- app_assoc in E. cbn in E. apply list_pivot in E as [-> E]; [| done | done].
    exists (a ++ x :: m1), p2, (l2 ++ x :: m1). rewrite <- app_assoc. split; [done |]. rewrite app_assoc, E, <- app_assoc. done.
  - destruct (decide (n ∈ b)) as [Hb | Hb].
    + exfalso. apply NoDup_app in Hnd as (_ & Hd' & _). apply (Hd' n); set_solver.
    + rewrite app_assoc in E. apply list_pivot in E as [<- E]; [| set_solver | done].
      exists p1, (p2 ++ x :: b), (l2 ++ (x :: b) ++ p1). rewrite <- app_assoc. split; [done |].
      rewrite <- app_assoc. rewrite E, <- app_assoc. done.
Qed.

Lemma ready_not_current e q s c k t : sys_ok e q s -> cpus s !! c = Some k -> e <> Some c -> eligible s t = true -> t <> current k.
Proof.
  intros [Hs _] Hk He Ht E. subst t. apply eligible_spec in Ht as [Hi Hr].
  destruct (so_runs _ _ _ Hs c k Hk He) as [Hs' | Ei]; [congruence |].
  assert (is_idle (thr s (current k)) = true); [| congruence].
  apply (so_idle _ _ _ Hs); [by apply (so_cpu _ _ _ Hs c) | eauto].
Qed.

(** A switch to another thread leaves it ready. *)
Lemma switch_keeps_ready e q s c x n k t : sys_ok e q s -> x ∈ q -> n ∈ q -> x <> n -> t <> n -> eligible s t = true ->
  eligible (switch_to c x n k s) t = true.
Proof.
  intros [Hs _] Hx Hn Hxn Htn He. destruct (so_queue _ _ _ Hs) as [Hl _ _ _ Hr].
  assert (E : thr (switch_to c x n k s) t = thr s t).
  { rewrite thr_switch_to by auto. rewrite !decide_False; [done | | done]. intros [-> Hrun]. apply eligible_spec in He as [_ He].
    congruence. }
  apply (eligible_same s); [by rewrite E | by rewrite E | done].
Qed.

Lemma cpus_switch_other c c' x n k s : c' <> c -> cpus (switch_to c' x n k s) !! c = cpus s !! c.
Proof. intros H. destruct (switch_to_rest c' x n k s) as (_ & _ & _ & _ & _ & _ & _ & ->). by rewrite lookup_insert_ne. Qed.

(** schedule() brings the processor that calls it nearer, ... *)
Lemma waiting_schedule_own q c t d s k : waiting (Some c) q c t d s -> cpus s !! c = Some k ->
  exists s', schedule c s = Done s' /\ (runs s' t \/ exists d', waiting None q c t d' s' /\ (d' < d)%nat).
Proof.
  intros (Hok & He & k1 & a & b & l1 & l2 & Hk1 & Eq & Eba & Ed) Hk. rewrite Hk in Hk1. injection Hk1 as <-.
  destruct (schedule_sys_ok c k q s Hok Hk) as (s' & Es & Hok'). exists s'. split; [done |].
  destruct (schedule_cases c k q s a b (proj1 Hok) Hk Eq) as (s2 & Es2 & Hc). rewrite Es in Es2. injection Es2 as <-.
  assert (Hnd := qo_nodup _ _ (so_queue _ _ _ (proj1 Hok))).
  assert (Hcq : current k ∈ q) by (rewrite Eq; set_solver +).
  unfold schedules in Hc. rewrite Eba in Hc.
  destruct (find_split (eligible s) l1 t l2 He) as [Ef | (n & m1 & m2 & El1 & Ef)]; rewrite Ef in Hc;
    (destruct Hc as [(_ & Hn & _) | (n' & Es' & Hne & Hin & [Hn | [Hn _]])]; [discriminate | injection Hn as <- | discriminate]);
    subst s'.
  - left. exists c. eexists. split; [cbn; apply lookup_insert_eq | done].
  - subst l1. destruct (decide (t = n)) as [-> | Htn].
    { left. exists c. eexists. split; [cbn; apply lookup_insert_eq | done]. }
    right. exists (length m2). destruct (waiting_advance q a b m1 m2 l2 (current k) n t Hnd Eq Eba) as (a2 & b2 & l2' & Eq2 & E2).
    rewrite length_app in Ed. cbn in Ed. split; [| lia]. split_and!; [done | |].
    + apply (switch_keeps_ready (Some c) q); try done. rewrite Eq2. set_solver +.
    + eexists _, a2, b2, m2, l2'. split; [cbn; apply lookup_insert_eq | done].
Qed.

(** ... and no other further away. *)
Lemma waiting_schedule_other q c t d s c' k' : waiting (Some c') q c t d s -> cpus s !! c' = Some k' -> c' <> c ->
  exists s', schedule c' s = Done s' /\ (runs s' t \/ waiting None q c t d s').
Proof.
  intros Hw Hk' Hcc. pose proof (waiting_in _ _ _ _ _ _ Hw) as Htq. pose proof Hw as (Hok & He & _).
  destruct (schedule_sys_ok c' k' q s Hok Hk') as (s' & Es & Hok'). exists s'. split; [done |].
  destruct (so_cpu _ _ _ (proj1 Hok) c' k' Hk') as [Hcq Hiq]. pose proof Hcq as Hsp.
  apply list_elem_of_split in Hsp as (a' & b' & Eq').
  destruct (schedule_cases c' k' q s a' b' (proj1 Hok) Hk' Eq') as (s2 & Es2 & Hc). rewrite Es in Es2. injection Es2 as <-.
  destruct Hc as [(-> & _) | (n & -> & Hne & Hin & _)]; [right; by apply (waiting_frame (Some c') None q c t d s) |].
  destruct (decide (t = n)) as [-> | Htn].
  - left. exists c'. eexists. split; [cbn; apply lookup_insert_eq | done].
  - right. apply (waiting_frame (Some c') None q c t d s); [done | done | by apply cpus_switch_other |].
    apply (switch_keeps_ready (Some c') q); try done. destruct Hin as [Hin | ->]; [| done]. rewrite Eq'. set_solver +Hin.
Qed.

Definition nearer (gain : bool) (q : list nat) (c t d : nat) (s : sys) : Prop :=
  runs s t \/ exists d', waiting None q c t d' s /\ (d' + (if gain then 1 else 0) <= d)%nat.

Lemma waiting_schedule q c t d s c' k' : waiting (Some c') q c t d s -> cpus s !! c' = Some k' ->
  exists s', schedule c' s = Done s' /\ nearer (bool_decide (c' = c)) q c t d s'.
Proof.
  intros Hw Hk'. case_bool_decide as E.
  - subst c'. destruct (waiting_schedule_own q c t d s k' Hw Hk') as (s' & ? & [? | (d' & ? & ?)]); exists s'; (split; [done |]).
    + by left.
    + right. exists d'. split; [done | lia].
  - destruct (waiting_schedule_other q c t d s c' k' Hw Hk' E) as (s' & ? & [? | ?]); exists s'; (split; [done |]).
    + by left.
    + right. exists d. split; [done | lia].
Qed.

(** Tearing down another thread. *)
Lemma waiting_teardown q c t d s z i s' : waiting None q c t d s -> teardown_step q z i s s' -> sys_ok None (without z q) s' ->
  state (thr s z) = THREAD_ZOMBIE -> exists d', waiting None (without z q) c t d' s' /\ (d' <= d)%nat.
Proof.
  intros (Hok & He & k & a & b & l1 & l2 & Hk & -> & Eba & Ed) Hst Hok' Hz.
  assert (Hzc : current k <> z) by (intros E; apply (current_alive _ s c k Hok Hk); by rewrite E).
  assert (Hzt : t <> z) by (intros ->; apply eligible_spec in He as [_ He]; congruence).
  exists (length (without z l1)). split; [| subst d; apply without_length]. split_and!; [done | |].
  - pose proof (td_thread _ _ _ _ _ Hst t Hzt) as E. apply (eligible_same s); [by rewrite E | by rewrite E | done].
  - exists k, (without z a), (without z b), (without z l1), (without z l2).
    destruct (td_rest _ _ _ _ _ Hst) as (_ & -> & _). split_and!; [done | | | done].
    + by rewrite without_app, without_cons.
    + rewrite <- without_app, Eba, without_app, without_cons by done. done.
Qed.

(** A thread that is added. *)
Lemma waiting_insert h l u c t d s s' : waiting None (h :: l) c t d s -> sys_ok None (h :: u :: l) s' ->
  cpus s' !! c = cpus s !! c -> eligible s' t = true -> exists d', waiting None (h :: u :: l) c t d' s' /\ (d' <= S d)%nat.
Proof.
  intros (Hok & He & k & a & b & l1 & l2 & Hk & Eq & Eba & Ed) Hok' Ec He'. destruct a as [| x a]; cbn in Eq.
  - injection Eq as E1 <-. rewrite app_nil_r in Eba. exists (S d). split; [| lia]. split_and!; [done | done |].
    exists k, [], (u :: l), (u :: l1), l2. rewrite Ec, app_nil_r. cbn. rewrite E1, Eba, Ed. done.
  - injection Eq as <- El.
    destruct (insert_behind u t (b ++ [h]) a l1 l2) as (l1' & l2' & E' & Hle); [by rewrite <- app_assoc |].
    exists (length l1'). split; [| subst d; done]. split_and!; [done | done |].
    exists k, (h :: u :: a), b, l1', l2'. rewrite Ec. split_and!; [done | by rewrite El | | done].
    rewrite <- E', <- app_assoc. done.
Qed.

(** ** Each step

    [follows gain cost]: after the step the thread runs, or is ready still, at a
    distance that has shrunk by [gain] and grown by [cost] at most. *)
Definition follows (gain cost : bool) (c t d : nat) (s' : sys) : Prop :=
  runs s' t \/ exists q' d', waiting None q' c t d' s' /\ (d' + (if gain then 1 else 0) <= d + (if cost then 1 else 0))%nat.

Lemma follows_here q c t d s : waiting None q c t d s -> follows false false c t d s.
Proof. intros H. right. exists q, d. split; [done | lia]. Qed.

Lemma follows_weaken g g' a c t d s : (g' = true -> g = true) -> follows g a c t d s -> follows g' a c t d s.
Proof.
  intros Hg [? | (q & d' & ? & ?)]; [by left |]. right. exists q, d'. split; [done |]. destruct g, g'; try lia; by specialize (Hg eq_refl).
Qed.

Section each.
Context (q : list nat) (c t d : nat) (s : sys) (c' : nat) (k' : smpcpu).
Context (Hw : waiting None q c t d s) (Hk' : cpus s !! c' = Some k').

Lemma waiting_schedule_mid s1 : sys_ok (Some c') q s1 -> cpus s1 = cpus s -> thr s1 t = thr s t ->
  exists s', schedule c' s1 = Done s' /\ follows (bool_decide (c' = c)) false c t d s'.
Proof.
  intros Hok1 Ec Et. destruct (waiting_schedule q c t d s1 c' k') as (s' & E & Hn); [| by rewrite Ec |].
  - apply (waiting_frame None (Some c') q c t d s); [done | done | by rewrite Ec |]. unfold eligible. rewrite Et. apply Hw.
  - exists s'. split; [done |]. destruct Hn as [? | (d' & ? & ?)]; [by left | right; exists q, d'; split; [done | lia]].
Qed.

Lemma waiting_not_current : t <> current k'.
Proof. destruct Hw as (Hok & He & _). by apply (ready_not_current None q s c'). Qed.

Lemma waiting_yield : exists s', schedule c' s = Done s' /\ follows (bool_decide (c' = c)) false c t d s'.
Proof. apply waiting_schedule_mid; [| done | done]. destruct Hw as ([Hs Hp] & _). split; [by apply sched_ok_weaken | done]. Qed.

Lemma waiting_block r w kont : good_reason s k' r kont ->
  exists s', block_on c' r w kont s = Done s' /\ follows (bool_decide (c' = c)) false c t d s'.
Proof.
  intros Hg. pose proof waiting_not_current as Hne. destruct Hw as (Hok & _). rewrite (block_is_schedule q s c' k' Hok Hk').
  apply waiting_schedule_mid; [by apply (asleep_ok q) | done |]. rewrite (thr_asleep q s c' k' Hok Hk'). by rewrite decide_False.
Qed.

Lemma waiting_exit status : current k' <> idle k' ->
  exists s', proc_exit c' status s = Done s' /\ follows (bool_decide (c' = c)) false c t d s'.
Proof.
  intros Hi. pose proof waiting_not_current as Hne. pose proof Hw as (Hok & He & _).
  destruct (proc_exit_cases c' k' status q s Hok Hk' Hi) as (i & s1 & -> & Hpr & Hu & Hpt & Hst & _).
  apply waiting_schedule_mid.
  - by apply (exit_step_ok c' k' i q s).
  - by destruct (es_rest _ _ _ _ _ Hst) as (_ & _ & -> & _).
  - destruct (es_other _ _ _ _ _ Hst t Hne) as [[-> _] | (_ & _ & Hb)]; [done |]. apply eligible_spec in He as [_ He]. congruence.
Qed.

Lemma waiting_wake p : (forall x, p x = true -> state x = THREAD_BLOCKED) ->
  exists s', wake_queue p s = Done s' /\ waiting None q c t d s' /\ cpus s' = cpus s.
Proof.
  intros Hp. pose proof Hw as (Hok & He & _). destruct (wake_ok p None q s Hp Hok) as (s' & E & Hok' & Ho & Ht).
  destruct (only_threads_eqs _ _ Ho) as (_ & _ & Ec & _). exists s'. split_and!; [done | | done].
  apply (waiting_frame None None q c t d s); [done | done | by rewrite Ec |].
  assert (Ep : p (thr s t) = false).
  { destruct (p (thr s t)) eqn:E'; [| done]. apply Hp in E'. apply eligible_spec in He as [_ He]. congruence. }
  unfold eligible. rewrite Ht, Ep, andb_false_r. apply He.
Qed.
End each.

(** A change that leaves the processors and this thread alone. *)
Lemma waiting_still q c t d s s' : waiting None q c t d s -> sys_ok None q s' -> cpus s' !! c = cpus s !! c ->
  state (thr s' t) = state (thr s t) -> is_idle (thr s' t) = is_idle (thr s t) -> follows false false c t d s'.
Proof.
  intros Hw Hok Ec Es Ei. apply (follows_here q). apply (waiting_frame None None q c t d s); [done | done | done |].
  apply (eligible_same s); [done | done |]. apply Hw.
Qed.

Lemma waiting_tick q c t d s c' k' ring3 : waiting None q c t d s -> cpus s !! c' = Some k' ->
  (ring3 = true -> current k' <> idle k') ->
  exists s', sched_tick c' ring3 s = Done s' /\ follows (bool_decide (c' = c)) false c t d s'.
Proof.
  intros Hw Hk' Hr. pose proof Hw as (Hok & He & _). unfold sched_tick. rewrite (so_active _ _ _ (proj1 Hok)). cbn [negb].
  unfold smp_this. rewrite Hk'. cbn [mbind out_bind].
  assert (Hrange := current_range q s c' k' Hok Hk').
  assert (Hne := waiting_not_current q c t d s c' k' Hw Hk').
  set (s1 := charge_tick (current k') s).
  assert (H1 : thr s1 t = thr s t /\ cpus s1 = cpus s).
  { unfold s1, charge_tick. split; [| by destruct (proc _) as [[| ?] |]].
    transitivity (thr (on_thread (current k') (fun x => with_ticks (u64 (cpu_ticks x + 1)) x) s) t).
    - by destruct (proc _) as [[| ?] |].
    - by rewrite thr_on_thread, decide_False by done. }
  destruct H1 as [Et1 Ec1].
  assert (Hw1 : waiting None q c t d s1).
  { apply (waiting_frame None None q c t d s); [done | by apply charge_tick_ok | by rewrite Ec1 |]. unfold eligible. rewrite Et1. apply He. }
  unfold wake_expired. destruct (waiting_wake q c t d s1 Hw1 (expired (pit_ticks s))) as (s2 & -> & Hw2 & Ec2).
  { intros x Hx. unfold expired in Hx. apply andb_prop in Hx as [Hx _]. apply andb_prop in Hx as [Hx _].
    by apply bool_decide_eq_true in Hx. }
  cbn [mbind out_bind]. assert (Hk2 : cpus s2 !! c' = Some k') by by rewrite Ec2, Ec1.
  destruct (proc_should_exit_done q s2 c' k' (proj1 Hw2) Hk2) as (b & -> & _). cbn [mbind out_bind].
  destruct (ring3 && b)%bool eqn:E3.
  - apply andb_prop in E3 as [E3 _]. apply (waiting_exit q c t d s2 c' k'); auto.
  - by apply (waiting_yield q c t d s2 c' k').
Qed.

Lemma follows_teardown q c t d s z i s' : waiting None q c t d s -> teardown_step q z i s s' -> sys_ok None (without z q) s' ->
  p_thread (prc s i) = Some z -> used (prc s i) = true -> reapable s (prc s i) = true -> follows false false c t d s'.
Proof.
  intros Hw Hst Hok' Hpt Hu Hr. destruct (reapable_thread q s i (proj1 Hw) Hu Hr) as (z' & Hpt' & Hz).
  assert (z' = z) as -> by congruence.
  destruct (waiting_teardown q c t d s z i s' Hw Hst Hok' Hz) as (d' & ? & ?). right. exists (without z q), d'. split; [done | lia].
Qed.

Lemma waiting_wait q c t d s c' k' p : waiting None q c t d s -> cpus s !! c' = Some k' ->
  exists r s', proc_wait c' p s = Done (r, s') /\ follows false false c t d s'.
Proof.
  intros Hw Hk'. pose proof Hw as (Hok & _). destruct (proc_current_done q s c' k' Hok Hk') as (par & _ & Epar & _).
  destruct (proc_wait_ok c' k' par p q s Hok Hk' Epar) as (r & s' & E & Hcase). exists r, s'. split; [done |].
  destruct Hcase as [(i & z & Hc & Hr & _ & Hpt & Hst & Hok') | [(_ & -> & _) | (_ & _ & Hn & Eb & _)]].
  - apply (follows_teardown q c t d s z i); try done. by apply child_of_used in Hc.
  - by apply (follows_here q).
  - destruct (waiting_block q c t d s c' k' Hw Hk' WAIT_CHILD 0 (InWait p)) as (s2 & E2 & Hf).
    + split; [done |]. intros p' [= <-]. split; [done |]. intros par' i Hpar'. assert (par' = par) as -> by congruence. apply Hn.
    + rewrite Eb in E2. injection E2 as <-. by apply (follows_weaken (bool_decide (c' = c))).
Qed.

Lemma waiting_orphans me keep c' k' : forall slots q c t d s n, waiting None q c t d s -> cpus s !! c' = Some k' ->
  exists m s', orphans_loop me keep slots n s = Done (m, s') /\ follows false false c t d s'.
Proof.
  induction slots as [| i slots IH]; intros q c t d s n Hw Hk'; cbn [orphans_loop].
  - exists n, s. split; [done | by apply (follows_here q)].
  - change (processes s !!! i) with (prc s i). destruct (used (prc s i)) eqn:Hu; cbn [negb orb]; [| by apply (IH q)].
    destruct (bool_decide (parent (prc s i) = Some me)); cbn [negb orb]; [| by apply (IH q)].
    destruct (reapable s (prc s i)) eqn:Hr; cbn [negb orb]; [| by apply (IH q)].
    destruct ((0 <? keep) && (pid (prc s i) =? keep))%bool; [by apply (IH q) |].
    destruct (reapable_thread q s i (proj1 Hw) Hu Hr) as (z & Hpt & Hz).
    destruct (teardown_ok q z i s c' k' (proj1 Hw) Hk' Hu Hpt Hz) as (s1 & -> & Hok1 & Ec & Hst). cbn [mbind out_bind].
    destruct (waiting_teardown q c t d s z i s1 Hw Hst Hok1 Hz) as (d1 & Hw1 & Hd1).
    destruct (IH (without z q) c t d1 s1 (n + 1) Hw1) as (m & s' & E & Hf); [by rewrite Ec |]. exists m, s'. split; [done |].
    destruct Hf as [? | (q' & d' & ? & ?)]; [by left | right]. exists q', d'. split; [done | lia].
Qed.

Lemma waiting_resume q c t d s c' k' : waiting None q c t d s -> cpus s !! c' = Some k' ->
  exists r s', resume c' s = Done (r, s') /\ follows false false c t d s'.
Proof.
  intros Hw Hk'. pose proof Hw as (Hok & He & _). destruct (awake_ok c' k' q s Hok Hk') as (Hok1 & _ & Ht).
  assert (Hw1 : waiting None q c t d (awake s (current k'))).
  { apply (waiting_frame None None q c t d s); [done | done | done |]. unfold eligible. rewrite Ht. by case_decide. }
  destruct (resume_cases c' k' q s Hok Hk') as [| | Hi | p].
  - exists None, s. split; [done | by apply (follows_here q)].
  - eexists None, _. split; [done | by apply (follows_here q)].
  - destruct (waiting_exit q c t d _ c' k' Hw1 Hk' (-1) Hi) as (s' & -> & Hf). exists None, s'. split; [done |].
    by apply (follows_weaken (bool_decide (c' = c))).
  - by apply (waiting_wait q c t d _ c' k').
Qed.

Lemma waiting_spawn q c t d s c' k' par io l : waiting None q c t d s -> cpus s !! c' = Some k' -> next_pid s < 2147483647 ->
  (forall a, new_space l = Some a -> forall j, used (prc s j) = true -> space (prc s j) <> Some (Space a)) ->
  follows false true c t d (proc_spawn_io par io l s).2.
Proof.
  intros Hw Hk' Hnp Hfr. pose proof Hw as (Hok & He & _).
  destruct (proc_spawn_io_ok q s c' k' Hok Hk' Hnp par io l Hfr) as (Ec & Hsame & Hcase).
  destruct (Hsame t (waiting_in _ _ _ _ _ _ Hw)) as [Es Ei].
  assert (He' : eligible (proc_spawn_io par io l s).2 t = true) by by apply (eligible_same s).
  destruct Hcase as [[_ Hok'] | (_ & h & ql & u & -> & Hu & Hok' & _)]; right.
  - exists q, d. split; [| lia]. apply (waiting_frame None None q c t d s); [done | done | by rewrite Ec | done].
  - destruct (waiting_insert h ql u c t d s _ Hw Hok') as (d' & ? & ?); [by rewrite Ec | done |].
    exists (h :: u :: ql), d'. split; [done | lia].
Qed.

Lemma waiting_join q c t d s c' stack : waiting None q c t d s -> cpus s !! c' = None ->
  follows false true c t d (smp_ap_join c' stack s).
Proof.
  intros Hw Hc'. pose proof Hw as (Hok & He & k & a & b & l1 & l2 & Hk & Eq & _).
  assert (Hq0 : q <> []) by (rewrite Eq; by destruct a).
  destruct (smp_ap_join_ok c' stack q s Hok Hq0 Hc') as [[_ ->] | (h & l & u & -> & Hu & Hok' & Hsame & Hcpu)]; right.
  - exists q, d. split; [done | lia].
  - destruct (Hsame t (waiting_in _ _ _ _ _ _ Hw)) as [Es Ei].
    destruct (waiting_insert h l u c t d s _ Hw Hok') as (d' & ? & ?); [by rewrite Hk; apply Hcpu | by apply (eligible_same s) |].
    exists (h :: u :: l), d'. split; [done | lia].
Qed.

#[local] Opaque unblock_threads.

Lemma waiting_kill q c t d s p : waiting None q c t d s -> follows false false c t d (proc_kill p s).2.
Proof.
  intros Hw. pose proof Hw as (Hok & He & _). pose proof (proc_kill_ok None q s p Hok) as Hok'. unfold proc_kill in *.
  destruct (proc_by_pid p s) as [i |]; [| by apply (follows_here q)].
  destruct (exited _); [by apply (follows_here q) |]. cbn [snd] in *. set (s1 := on_process _ with_killed s) in *.
  destruct (unblock_threads_spec (Sched.Proc i) s1) as [Ho Ht]; [apply (qo_len _ _ (so_queue _ _ _ (proj1 Hok))) |].
  destruct (only_threads_eqs _ _ Ho) as (_ & _ & Ec & _).
  assert (Et : thr (unblock_threads (Sched.Proc i) s1) t = thr s t).
  { destruct (Ht t) as [-> | [Hb _]]; [done |]. apply eligible_spec in He as [_ He].
    change (state (thr s t) = THREAD_BLOCKED) in Hb. congruence. }
  apply (waiting_still q c t d s); [done | done | by rewrite Ec | by rewrite Et | by rewrite Et].
Qed.

Lemma waiting_setsize q c t d s c' k' p r cl : waiting None q c t d s -> cpus s !! c' = Some k' ->
  exists z s', sys_setsize c' p r cl s = Done (z, s') /\ follows false false c t d s'.
Proof.
  intros Hw Hk'. pose proof Hw as (Hok & _). unfold sys_setsize.
  destruct (proc_by_pid (i32 p) s) as [i |] eqn:Ei; [| eexists _, s; split; [done | by apply (follows_here q)]].
  destruct (proc_current_done q s c' k' Hok Hk') as (me & -> & _). cbn [mbind out_bind].
  case_decide; [| eexists _, s; split; [done | by apply (follows_here q)]]. apply proc_by_pid_some in Ei as (Hi & _).
  destruct (resize_terminal_ok None q s (Sched.Proc i) (if 0 <? i32 r then u32 r else 0) (if 0 <? i32 cl then u32 cl else 0) Hok Hi)
    as (s' & -> & Hok' & (Es & _)). exists 0, s'. split; [done |].
  apply (waiting_still q c t d s); [done | done | | |]; rewrite Es; done.
Qed.

Lemma waiting_switch q c t d s c' z s' : waiting None q c t d s -> switch_context c' z s = Done s' -> follows false false c t d s'.
Proof.
  intros Hw E. pose proof Hw as (Hok & He & k & a & b & l1 & l2 & Hk & Hrest).
  pose proof (switch_context_ok None q s c' z s' Hok E) as Hok'.
  apply switch_context_inv in E as (k' & prev & id & n & Hk' & _ & ->). apply (follows_here q). split_and!; [done | |].
  - apply (eligible_same s); [| | done]; unfold thr, on_thread; cbn; rewrite list_lookup_total_alter; case_decide as Ed; try done;
      destruct Ed as [-> _]; done.
  - destruct (decide (c' = c)) as [-> | Hcc].
    + assert (k' = k) as -> by congruence. eexists _, a, b, l1, l2. split; [cbn; apply lookup_insert_eq | done].
    + exists k, a, b, l1, l2. split; [cbn; by rewrite lookup_insert_ne | done].
Qed.

(** ** Runs *)

(** Steps in which the processor calls schedule() whatever happens, and steps
    that may add a thread. *)
Definition scheduling (o : op) : bool :=
  match o with Yield | Block _ | BlockUntil _ _ | Tick _ | Exit _ => true | _ => false end.
Definition starting (o : op) : bool := match o with Spawn _ _ _ | Join _ => true | _ => false end.

Lemma exec_waiting q c t d s c' o s' : waiting None q c t d s -> allowed c' o s -> exec c' o s = Done s' ->
  follows (bool_decide (c' = c) && scheduling o) (starting o) c t d s'.
Proof.
  intros Hw Ha E0.
  assert (H : (exists z, o = SwitchContext z) \/
    exists s', exec c' o s = Done s' /\ follows (bool_decide (c' = c) && scheduling o) (starting o) c t d s').
  2: { destruct H as [[z ->] | (s1 & E1 & Hf)]; [| by assert (s1 = s') as <- by congruence].
       rewrite andb_false_r. by apply (waiting_switch q c t d s c' z). }
  clear s' E0. destruct o; [left; by eexists | right ..]; cbn [allowed exec scheduling starting] in *; rewrite ?andb_false_r, ?andb_true_r.
  - destruct Ha as (k & Hk & _). by apply (waiting_yield q c t d s c' k).
  - destruct Ha as (k & Hk & _). by apply (waiting_block q c t d s c' k).
  - destruct Ha as (k & Hk & _). by apply (waiting_block q c t d s c' k).
  - destruct (waiting_wake q c t d s Hw (waits_for r)) as (s' & ? & ? & _).
    + intros x Hx. unfold waits_for in Hx. apply andb_prop in Hx as [Hx _]. by apply bool_decide_eq_true in Hx.
    + exists s'. split; [done | by apply (follows_here q)].
  - eexists. split; [done |]. apply (waiting_still q c t d s); try done. apply (sys_ok_views None q s); try done. apply Hw.
  - destruct Ha as (k & Hk & _ & Hr). apply (waiting_tick q c t d s c' k); [done | done |]. intros E. by apply Hr.
  - destruct Ha as (k & Hk & _ & _ & _ & Hnp & Hfr). eexists. split; [done |]. apply (waiting_spawn q c t d s c' k); try done.
    intros a Ea j. by apply Hfr.
  - destruct Ha as (k & Hk & _ & Hi & _). by apply (waiting_exit q c t d s c' k).
  - eexists. split; [done |]. by apply (waiting_kill q).
  - destruct Ha as (k & Hk & _). destruct (waiting_wait q c t d s c' k p Hw Hk) as (r & s' & -> & ?). by exists s'.
  - destruct Ha as (k & Hk & _). destruct (proc_reap_ok c' k q s (proj1 Hw) Hk) as (par & z & st & any & s' & _ & -> & Hr).
    exists s'. split; [done |]. destruct Hr as [(_ & _ & -> & _) | (i & u & _ & Hc & Hre & _ & _ & _ & Hpt & Hst & Hok')].
    + by apply (follows_here q).
    + apply (follows_teardown q c t d s u i); try done. by apply child_of_used in Hc.
  - destruct Ha as (k & Hk & _). unfold proc_reap_orphans. destruct (proc_current_done q s c' k (proj1 Hw) Hk) as (me & -> & _).
    cbn [mbind out_bind]. destruct (waiting_orphans me keep c' k (seq 0 MAX_PROCESSES) q c t d s 0 Hw Hk) as (m & s' & -> & ?). by exists s'.
  - destruct Ha as (k & Hk & _). destruct (waiting_resume q c t d s c' k Hw Hk) as (r & s' & -> & ?). by exists s'.
  - destruct Ha as (k & Hk & _). destruct (waiting_setsize q c t d s c' k p rows cols Hw Hk) as (z & s' & -> & ?). by exists s'.
  - eexists. split; [done |]. by apply (waiting_join q).
Qed.

Inductive run (s : sys) : list (nat * op) -> sys -> Prop :=
| run_nil : run s [] s
| run_cons c o s1 tr s2 : step s c o s1 -> run s1 tr s2 -> run s ((c, o) :: tr) s2.

(** How often processor [c] calls schedule(), and how many threads may be
    added. *)
Fixpoint decisions (c : nat) (tr : list (nat * op)) : nat :=
  match tr with
  | [] => 0%nat
  | (c', o) :: tr => ((if (bool_decide (c' = c) && scheduling o)%bool then 1 else 0) + decisions c tr)%nat
  end.

Fixpoint starts (tr : list (nat * op)) : nat :=
  match tr with [] => 0%nat | (_, o) :: tr => ((if starting o then 1 else 0) + starts tr)%nat end.

Lemma run_waiting c t tr : forall q d s s', waiting None q c t d s -> run s tr s' ->
  (exists tr1 s1 tr2, tr = tr1 ++ tr2 /\ run s tr1 s1 /\ run s1 tr2 s' /\ runs s1 t) \/
  (decisions c tr <= d + starts tr)%nat.
Proof.
  induction tr as [| [c' o] tr IH]; intros q d s s' Hw Hr; [right; cbn; lia |].
  inversion Hr as [| ? ? s1 ? ? Hstep Hrest]; subst. inversion Hstep as [? ? ? Ha He]; subst.
  pose proof (exec_waiting q c t d s c' o s1 Hw Ha He) as Hf.
  destruct Hf as [Hruns | (q' & d' & Hw' & Hd)].
  - left. exists [(c', o)], s1, tr. split_and!; [done | | done | done]. by econstructor; [| constructor].
  - destruct (IH q' d' s1 s' Hw' Hrest) as [(tr1 & s2 & tr2 & -> & H1 & H2 & H3) | Hle].
    + left. exists ((c', o) :: tr1), s2, tr2. split_and!; [done | | done | done]. by econstructor.
    + right. cbn [decisions starts]. lia.
Qed.

(** A ready thread is at some distance, less than the size of the queue. *)
Lemma ready_waiting q s c k t : sys_ok None q s -> cpus s !! c = Some k -> eligible s t = true ->
  exists d, waiting None q c t d s /\ (d < MAX_THREADS)%nat.
Proof.
  intros Hok Hk He. assert (Hne := ready_not_current None q s c k t Hok Hk ltac:(done) He).
  destruct (so_queue _ _ _ (proj1 Hok)) as [_ _ Hnd _ Hr]. pose proof (nodup_range_length q _ Hnd Hr) as Hlen.
  assert (Htq : t ∈ q) by (apply (so_members _ _ _ (proj1 Hok)); apply eligible_spec in He as [_ ->]; done).
  destruct (so_cpu _ _ _ (proj1 Hok) c k Hk) as [Hcq _]. apply list_elem_of_split in Hcq as (a & b & Eq).
  assert (Hba : t ∈ b ++ a) by (rewrite Eq in Htq; set_solver +Htq Hne). apply list_elem_of_split in Hba as (l1 & l2 & Eba).
  exists (length l1). split; [split_and!; [done | done |]; by exists k, a, b, l1, l2 |].
  apply (f_equal length) in Eq, Eba. rewrite length_app in Eq. rewrite !length_app in Eba. cbn [length] in Eq, Eba. lia.
Qed.

(** C6: fairness. A thread that is ready to run gets a processor: in whatever order the kernel's steps come and whatever the other threads and processors do, by the time one processor has called schedule() sixty-four times, plus once for every thread started meanwhile, the thread has been switched to. *)
Theorem ready_thread_runs top s s' t c k tr : reachable top s -> state (thr s t) = THREAD_READY ->
  is_idle (thr s t) = false -> cpus s !! c = Some k -> run s tr s' -> (MAX_THREADS + starts tr <= decisions c tr)%nat ->
  exists tr1 s1 tr2, tr = tr1 ++ tr2 /\ run s tr1 s1 /\ run s1 tr2 s' /\ runs s1 t.
Proof.
  intros Hreach Hst Hid Hk Hrun Hd. destruct (reachable_ok top s Hreach) as (q & Hok & _).
  destruct (ready_waiting q s c k t Hok Hk) as (d & Hw & Hlt); [by apply eligible_spec |].
  destruct (run_waiting c t tr q d s s' Hw Hrun) as [? | Hle]; [done | lia].
Qed.

Lemma run_trace_run tr : forall s s', run_trace tr s = Done s' -> run s tr s'.
Proof.
  induction tr as [| [c o] tr IH]; intros s s' E; cbn in E; [injection E as <-; constructor |].
  destruct (allowedb c o s) eqn:Ea; [| done]. apply bind_done in E as (s1 & E1 & E). econstructor; [| by apply IH].
  constructor; [by apply allowedb_sound | done].
Qed.

(** One program, which the boot context lets run and which is then ticked. *)
Definition one_ready : sys := after [(0%nat, Spawn KProc None (program 1))].
Definition many_ticks : list (nat * op) := (0%nat, Yield) :: (0%nat, SwitchContext 1) :: replicate 64 (0%nat, Tick true).

Lemma ready_thread_runs_witness : state (thr one_ready 1) = THREAD_READY /\
  exists tr1 s1 tr2, many_ticks = tr1 ++ tr2 /\ run one_ready tr1 s1 /\ runs s1 1.
Proof.
  assert (Hst : state (thr one_ready 1) = THREAD_READY) by (vm_compute; reflexivity). split; [exact Hst |].
  assert (Hr : reachable 65536 one_ready) by (apply after_reachable; vm_compute; reflexivity).
  assert (Hid : is_idle (thr one_ready 1) = false) by (vm_compute; reflexivity).
  assert (Hk : cpus one_ready !! 0%nat = Some (Cpu 0 0 KSpace 0 0 None)) by (vm_compute; reflexivity).
  assert (Hrun : run one_ready many_ticks (result (run_trace many_ticks one_ready))).
  { apply run_trace_run, result_done. vm_compute. reflexivity. }
  assert (Hd : (MAX_THREADS + starts many_ticks <= decisions 0 many_ticks)%nat) by (vm_compute; repeat constructor).
  destruct (ready_thread_runs 65536 _ _ 1 0 _ _ Hr Hst Hid Hk Hrun Hd) as (tr1 & s1 & tr2 & E & H1 & _ & H3).
  exists tr1, s1, tr2. split; [exact E |]. split; [exact H1 | exact H3].
Defined.

End SchedLive.
