(* ===== verification/Paging.v ===== *)
(** Page tables, [kernel/mm/paging.c]: address spaces over physical memory.

    Physical memory is a map of bytes; a page table is a frame of it, read and
    written as 64-bit words through the identity map, as the C code does.  Table
    frames come from the frame allocator of [Pmm].  An [addrspace_t *] is
    [Sched.aspace]: the kernel's static, or the address [kzalloc] returned.

    [mmu] is the processor's walk of the same tables -- the Intel manual's
    four-level translation with 4 KiB, 2 MiB and 1 GiB pages -- against which the
    routines are judged; loads and stores of the kernel through virtual
    addresses go through it, and one that finds no page is a page fault in ring
    0, which panics.

    The TLB is not modelled ([invlpg], [load_cr3] as a flush), nor are the memory
    types of the PAT; the record of the loaded space is kept per processor. *)

From S2P Require Import Prelude Pmm Sched.

Module Paging.

Import Sched (aspace, KSpace, Space).
#[export] Existing Instance Sched.aspace_eq_dec.

(** ** Constants: [paging.h] *)

Definition PTE_PRESENT : Z := 0x001.
Definition PTE_WRITE : Z := 0x002.
Definition PTE_USER : Z := 0x004.
Definition PTE_UNCACHED : Z := 0x010.
Definition PTE_HUGE : Z := 0x080.
Definition PTE_WC : Z := Z.shiftl 1 12.
Definition DEVICE_WINDOW : Z := 0xC0000000.
Definition USER_BASE : Z := 0x40000000.
Definition USER_STACK_TOP : Z := 0xBFFF0000.
Definition USER_STACK_SIZE : Z := 64 * 1024.
Definition USER_MMAP_BASE : Z := 0x80000000.
Definition USER_MMAP_TOP : Z := 0xB0000000.

Definition PML4_INDEX (v : Z) : Z := Z.land (Z.shiftr v 39) 0x1FF.
Definition PDPT_INDEX (v : Z) : Z := Z.land (Z.shiftr v 30) 0x1FF.
Definition PD_INDEX (v : Z) : Z := Z.land (Z.shiftr v 21) 0x1FF.
Definition PT_INDEX (v : Z) : Z := Z.land (Z.shiftr v 12) 0x1FF.

Definition FRAME_OF (e : Z) : Z := Z.land e 0x000FFFFFFFFFF000.

(** [e & f] as a condition. *)
Definition has (e f : Z) : bool := negb (Z.land e f =? 0).

(** ** Physical memory *)

Notation mem := (gmap Z Z).

Definition byte_at (m : mem) (a : Z) : Z := default 0 (m !! a).
Definition load64 (m : mem) (a : Z) : Z :=
  foldr (fun i acc => byte_at m (a + i) + 256 * acc) 0 (seqZ 0 8).
Definition store64 (m : mem) (a x : Z) : mem :=
  foldl (fun m i => <[a + i := u8 (Z.shiftr x (8 * i))]> m) m (seqZ 0 8).
(** [memset(p, 0, n)] through a physical address. *)
Definition zero_bytes (a n : Z) (m : mem) : mem :=
  foldl (fun m i => <[a + i := 0]> m) m (seqZ 0 n).

(** [table[index]] of a [uint64_t *]. *)
Definition slot (m : mem) (table index : Z) : Z := load64 m (table + 8 * index).
Definition put_slot (m : mem) (table index x : Z) : mem := store64 m (table + 8 * index) x.

(** ** The processor's walk *)

(** Where an access goes, with the write and user bits of all levels together. *)
Record access := Access { phys : Z; writable : bool; user : bool }.

Definition canonical (virt : Z) : bool :=
  ((virt <? 2 ^ 47) || (2 ^ 64 - 2 ^ 47 <=? virt))%bool.

Definition mmu (m : mem) (cr3 virt : Z) : option access :=
  if negb (canonical virt) then None else
  let e4 := slot m cr3 (PML4_INDEX virt) in
  if negb (has e4 PTE_PRESENT) then None else
  let e3 := slot m (FRAME_OF e4) (PDPT_INDEX virt) in
  if negb (has e3 PTE_PRESENT) then None else
  let w := (has e4 PTE_WRITE && has e3 PTE_WRITE)%bool in
  let u := (has e4 PTE_USER && has e3 PTE_USER)%bool in
  if has e3 PTE_HUGE then
    Some (Access (Z.lor (Z.land (FRAME_OF e3) (u64 (Z.lnot 0x3FFFFFFF))) (Z.land virt 0x3FFFFFFF)) w u) else
  let e2 := slot m (FRAME_OF e3) (PD_INDEX virt) in
  if negb (has e2 PTE_PRESENT) then None else
  let w := (w && has e2 PTE_WRITE)%bool in
  let u := (u && has e2 PTE_USER)%bool in
  if has e2 PTE_HUGE then
    Some (Access (Z.lor (Z.land (FRAME_OF e2) (u64 (Z.lnot 0x1FFFFF))) (Z.land virt 0x1FFFFF)) w u) else
  let e1 := slot m (FRAME_OF e2) (PT_INDEX virt) in
  if negb (has e1 PTE_PRESENT) then None else
  Some (Access (Z.lor (FRAME_OF e1) (Z.land virt 0xFFF))
          (w && has e1 PTE_WRITE)%bool (u && has e1 PTE_USER)%bool).

(** The kernel reading and writing one byte at a virtual address. *)
Definition vload (m : mem) (cr3 virt : Z) : option Z :=
  (fun a => byte_at m (phys a)) <$> mmu m cr3 virt.
Definition vstore (m : mem) (cr3 virt b : Z) : option mem :=
  (fun a => <[phys a := b]> m) <$> mmu m cr3 virt.

(** [for (i = 0; i < n; i++) ((uint8_t * )virt)[i] = b(i)], a fault being a panic;
    [b] may read memory as it is at that turn. *)
Fixpoint vfill (n : nat) (cr3 virt : Z) (b : mem -> Z -> option Z) (m : mem) : res mem :=
  match n with
  | O => Ret m
  | S n =>
      match vfill n cr3 virt b m with
      | Panic => Panic
      | Ret m => match b m (Z.of_nat n) ≫= (fun x => vstore m cr3 (u64 (virt + Z.of_nat n)) x) with
                 | Some m => Ret m
                 | None => Panic
                 end
      end
  end.

(** ** State *)

Record addrspace := Addrspace { pml4 : Z; user_frames : Z; table_frames : Z }.

#[export] Instance addrspace_inhabited : Inhabited addrspace := populate (Addrspace 0 0 0).

(** What [smpcpu_t] and the hardware keep per processor. *)
Record cpu := Cpu { space : option aspace; cr3 : Z }.

#[export] Instance cpu_inhabited : Inhabited cpu := populate (Cpu None 0).

Record vm := Vm {
  memory : mem;
  frames : Pmm.pmm;
  kernel_space : addrspace;
  spaces : gmap Z addrspace;      (** what [kzalloc] handed out, by address *)
  cpus : list cpu;
  device_next : Z;
  early_pd_used : Z;
  paging_is_up : bool;
}.

Definition with_memory (m : mem) (v : vm) : vm :=
  Vm m (frames v) (kernel_space v) (spaces v) (cpus v) (device_next v) (early_pd_used v) (paging_is_up v).
Definition with_frames (p : Pmm.pmm) (v : vm) : vm :=
  Vm (memory v) p (kernel_space v) (spaces v) (cpus v) (device_next v) (early_pd_used v) (paging_is_up v).
Definition with_kernel (k : addrspace) (v : vm) : vm :=
  Vm (memory v) (frames v) k (spaces v) (cpus v) (device_next v) (early_pd_used v) (paging_is_up v).
Definition with_spaces (l : gmap Z addrspace) (v : vm) : vm :=
  Vm (memory v) (frames v) (kernel_space v) l (cpus v) (device_next v) (early_pd_used v) (paging_is_up v).
Definition with_cpus (l : list cpu) (v : vm) : vm :=
  Vm (memory v) (frames v) (kernel_space v) (spaces v) l (device_next v) (early_pd_used v) (paging_is_up v).
Definition with_device (d : Z) (v : vm) : vm :=
  Vm (memory v) (frames v) (kernel_space v) (spaces v) (cpus v) d (early_pd_used v) (paging_is_up v).
Definition with_early (n : Z) (v : vm) : vm :=
  Vm (memory v) (frames v) (kernel_space v) (spaces v) (cpus v) (device_next v) n (paging_is_up v).
Definition with_up (v : vm) : vm :=
  Vm (memory v) (frames v) (kernel_space v) (spaces v) (cpus v) (device_next v) (early_pd_used v) true.

(** [as->...] *)
Definition lookup_space (v : vm) (s : aspace) : option addrspace :=
  match s with KSpace => Some (kernel_space v) | Space a => spaces v !! a end.
Definition the_space (v : vm) (s : aspace) : addrspace := default inhabitant (lookup_space v s).
Definition set_space (s : aspace) (x : addrspace) (v : vm) : vm :=
  match s with KSpace => with_kernel x v | Space a => with_spaces (<[a := x]> (spaces v)) v end.
Definition root (v : vm) (s : aspace) : Z := pml4 (the_space v s).

Definition count_user (d : Z) (x : addrspace) : addrspace :=
  Addrspace (pml4 x) (u64 (user_frames x + d)) (table_frames x).
Definition count_table (d : Z) (x : addrspace) : addrspace :=
  Addrspace (pml4 x) (user_frames x) (u64 (table_frames x + d)).

Definition read (v : vm) (table index : Z) : Z := slot (memory v) table index.
Definition write (table index x : Z) (v : vm) : vm :=
  with_memory (put_slot (memory v) table index x) v.

Definition this_space (c : nat) (v : vm) : option aspace := space (cpus v !!! c).
Definition set_this_space (c : nat) (s : aspace) (v : vm) : vm :=
  with_cpus (<[c := Cpu (Some s) (cr3 (cpus v !!! c))]> (cpus v)) v.
Definition load_cr3 (c : nat) (a : Z) (v : vm) : vm :=
  with_cpus (<[c := Cpu (space (cpus v !!! c)) a]> (cpus v)) v.

(** ** Walking *)

Definition zeroed_low_frame (v : vm) : option Z * vm :=
  let '(a, p) := Pmm.pmm_alloc_frame_low (frames v) in
  let v := with_frames p v in
  if a =? 0 then (None, v)
  else (Some a, with_memory (zero_bytes a PAGE_SIZE (memory v)) v).

Definition next_level (table index : Z) (create : bool) (flags : Z) (s : option aspace) (v : vm)
    : option Z * vm :=
  let entry := read v table index in
  if negb (has entry PTE_PRESENT) then
    if negb create then (None, v)
    else
      match zeroed_low_frame v with
      | (None, v) => (None, v)
      | (Some fresh, v) =>
          let v := write table index
                     (Z.lor (Z.lor (Z.lor fresh PTE_PRESENT) PTE_WRITE) (Z.land flags PTE_USER)) v in
          let v := match s with
                   | Some s => set_space s (count_table 1 (the_space v s)) v
                   | None => v
                   end in
          (Some fresh, v)
      end
  else
    let v := if (has flags PTE_USER && negb (has entry PTE_USER))%bool
             then write table index (Z.lor entry PTE_USER) v else v in
    (Some (FRAME_OF entry), v).

Definition walk_to_pt (s : aspace) (virt : Z) (create : bool) (flags : Z) (v : vm) : option Z * vm :=
  match next_level (root v s) (PML4_INDEX virt) create flags (Some s) v with
  | (None, v) => (None, v)
  | (Some pdpt, v) =>
      match next_level pdpt (PDPT_INDEX virt) create flags (Some s) v with
      | (None, v) => (None, v)
      | (Some pd, v) =>
          if has (read v pd (PD_INDEX virt)) PTE_HUGE then (None, v)
          else next_level pd (PD_INDEX virt) create flags (Some s) v
      end
  end.

(** ** Mapping *)

Definition paging_map (s : aspace) (virt phys flags : Z) (v : vm) : res (bool * vm) :=
  match walk_to_pt s virt true flags v with
  | (None, v) => Ret (false, v)
  | (Some pt, v) =>
      let index := PT_INDEX virt in
      if has (read v pt index) PTE_PRESENT then Panic
      else
        let v := write pt index
          (Z.lor (Z.lor (FRAME_OF phys) (Z.land flags (Z.lor PTE_WRITE PTE_USER))) PTE_PRESENT) v in
        let v := if has flags PTE_USER then set_space s (count_user 1 (the_space v s)) v else v in
        Ret (true, v)
  end.

Definition paging_map_alloc (c : nat) (s : aspace) (virt flags : Z) (zero : bool) (v : vm)
    : res (bool * vm) :=
  let '(phys, p) := Pmm.pmm_alloc_frame (frames v) in
  let v := with_frames p v in
  if phys =? 0 then Ret (false, v)
  else
    match paging_map s virt phys flags v with
    | Panic => Panic
    | Ret (false, v) =>
        match Pmm.pmm_free_frame phys (frames v) with
        | Panic => Panic
        | Ret p => Ret (false, with_frames p v)
        end
    | Ret (true, v) =>
        if zero then
          if negb (bool_decide (this_space c v = Some s)) then Panic
          else
            match vfill (Z.to_nat PAGE_SIZE) (cr3 (cpus v !!! c)) virt (fun _ _ => Some 0) (memory v) with
            | Panic => Panic
            | Ret m => Ret (true, with_memory m v)
            end
        else Ret (true, v)
    end.

Definition unmap (s : aspace) (virt : Z) (free_frame : bool) (v : vm) : res vm :=
  match walk_to_pt s virt false 0 v with
  | (None, v) => Ret v
  | (Some pt, v) =>
      let index := PT_INDEX virt in
      let entry := read v pt index in
      if negb (has entry PTE_PRESENT) then Ret v
      else
        match (if free_frame then Pmm.pmm_free_frame (FRAME_OF entry) (frames v) else Ret (frames v)) with
        | Panic => Panic
        | Ret p =>
            let v := with_frames p v in
            let v := write pt index 0 v in
            Ret (if has entry PTE_USER then set_space s (count_user (-1) (the_space v s)) v else v)
        end
  end.

Definition paging_unmap (s : aspace) (virt : Z) (v : vm) : res vm := unmap s virt true v.
Definition paging_unmap_keep (s : aspace) (virt : Z) (v : vm) : res vm := unmap s virt false v.

(** ** Asking *)

Definition paging_translate (s : aspace) (virt : Z) (v : vm) : Z :=
  match next_level (root v s) (PML4_INDEX virt) false 0 None v with
  | (None, _) => 0
  | (Some pdpt, v) =>
      match next_level pdpt (PDPT_INDEX virt) false 0 None v with
      | (None, _) => 0
      | (Some pd, v) =>
          let pde := read v pd (PD_INDEX virt) in
          if negb (has pde PTE_PRESENT) then 0
          else if has pde PTE_HUGE
          then Z.lor (Z.land (FRAME_OF pde) (u64 (Z.lnot 0x1FFFFF))) (Z.land virt 0x1FFFFF)
          else
            let pte := read v (FRAME_OF pde) (PT_INDEX virt) in
            if negb (has pte PTE_PRESENT) then 0
            else Z.lor (FRAME_OF pte) (Z.land virt 0xFFF)
      end
  end.

Definition paging_user_can_access (s : aspace) (virt : Z) (need_write : bool) (v : vm) : bool :=
  let entry := read v (root v s) (PML4_INDEX virt) in
  if (negb (has entry PTE_PRESENT) || negb (has entry PTE_USER))%bool then false else
  let pdpt := FRAME_OF entry in
  let entry := read v pdpt (PDPT_INDEX virt) in
  if (negb (has entry PTE_PRESENT) || negb (has entry PTE_USER))%bool then false else
  let pd := FRAME_OF entry in
  let entry := read v pd (PD_INDEX virt) in
  if (negb (has entry PTE_PRESENT) || negb (has entry PTE_USER))%bool then false else
  if has entry PTE_HUGE then (negb need_write || has entry PTE_WRITE)%bool else
  let pt := FRAME_OF entry in
  let entry := read v pt (PT_INDEX virt) in
  if (negb (has entry PTE_PRESENT) || negb (has entry PTE_USER))%bool then false else
  (negb need_write || has entry PTE_WRITE)%bool.

Definition paging_user_bytes (x : addrspace) : Z :=
  u64 (u64 (user_frames x + table_frames x) * PAGE_SIZE).

(** ** Address spaces *)

Definition paging_switch (c : nat) (s : option aspace) (v : vm) : vm :=
  match s with
  | None => v
  | Some s => if bool_decide (this_space c v = Some s) then v
              else load_cr3 c (root v s) (set_this_space c s v)
  end.

(** A fold that may panic. *)
Fixpoint fold_res {A S} (f : A -> S -> res S) (l : list A) (s : S) : res S :=
  match l with
  | [] => Ret s
  | x :: l => match f x s with Ret s => fold_res f l s | Panic => Panic end
  end.

Definition free_entry (m : mem) (pt k : Z) (s : Pmm.pmm * addrspace) : res (Pmm.pmm * addrspace) :=
  let e := slot m pt k in
  if has e PTE_PRESENT then
    match Pmm.pmm_free_frame (FRAME_OF e) s.1 with
    | Panic => Panic
    | Ret p => Ret (p, if has e PTE_USER then count_user (-1) s.2 else s.2)
    end
  else Ret s.

(** [pmm_free_frame((uint64_t)t); as->table_frames--;] *)
Definition free_table (t : Z) (s : Pmm.pmm * addrspace) : res (Pmm.pmm * addrspace) :=
  match Pmm.pmm_free_frame t s.1 with
  | Panic => Panic
  | Ret p => Ret (p, count_table (-1) s.2)
  end.

Definition free_pt (m : mem) (pd j : Z) (s : Pmm.pmm * addrspace) : res (Pmm.pmm * addrspace) :=
  let e := slot m pd j in
  if (negb (has e PTE_PRESENT) || has e PTE_HUGE)%bool then Ret s
  else
    let pt := FRAME_OF e in
    match fold_res (free_entry m pt) (seqZ 0 512) s with
    | Panic => Panic
    | Ret s => free_table pt s
    end.

Definition free_pd (m : mem) (pdpt i : Z) (s : Pmm.pmm * addrspace) : res (Pmm.pmm * addrspace) :=
  let e := slot m pdpt i in
  if negb (has e PTE_PRESENT) then Ret s
  else if i =? PDPT_INDEX DEVICE_WINDOW then Ret s
  else
    let pd := FRAME_OF e in
    match fold_res (free_pt m pd) (seqZ 0 512) s with
    | Panic => Panic
    | Ret s => free_table pd s
    end.

Definition scrub (s : aspace) (k : cpu) : cpu :=
  if bool_decide (space k = Some s) then Cpu None (cr3 k) else k.

Definition paging_free_addrspace (c : nat) (s : option aspace) (v : vm) : res vm :=
  match s with
  | None | Some KSpace => Ret v
  | Some (Space a) =>
      if bool_decide (this_space c v = Some (Space a)) then Panic
      else
        let m := memory v in
        let pml4 := root v (Space a) in
        let pdpt := FRAME_OF (slot m pml4 0) in
        match fold_res (free_pd m pdpt) (seqZ 1 511) (frames v, the_space v (Space a)) with
        | Panic => Panic
        | Ret (p, _) =>
            match Pmm.pmm_free_frame pdpt p with
            | Panic => Panic
            | Ret p =>
                match Pmm.pmm_free_frame pml4 p with
                | Panic => Panic
                | Ret p =>
                    let v := with_frames p v in
                    let v := with_cpus (scrub (Space a) <$> cpus v) v in
                    Ret (with_spaces (delete a (spaces v)) v)
                end
            end
        end
  end.

Section boot.

(** Where the linker put the tables of [boot.S] and of [paging.c]. *)
Context (boot_pml4 boot_pdpt boot_pd early_pd : Z).

(** [kptr] is what [kzalloc] returns, 0 for none. *)
Definition paging_new_addrspace (kptr : Z) (v : vm) : res (option aspace * vm) :=
  if kptr =? 0 then Ret (None, v)
  else
    match zeroed_low_frame v with
    | (None, v) => Ret (None, v)
    | (Some top, v) =>
        match zeroed_low_frame v with
        | (None, v) =>
            match Pmm.pmm_free_frame top (frames v) with
            | Panic => Panic
            | Ret p => Ret (None, with_frames p v)
            end
        | (Some pdpt, v) =>
            let v := write top 0 (Z.lor (Z.lor (Z.lor pdpt PTE_PRESENT) PTE_WRITE) PTE_USER) v in
            let v := write pdpt (PDPT_INDEX DEVICE_WINDOW)
                       (read v boot_pdpt (PDPT_INDEX DEVICE_WINDOW)) v in
            let v := write pdpt 0 (read v boot_pdpt 0) v in
            Ret (Some (Space kptr), set_space (Space kptr) (Addrspace top 0 2) v)
        end
    end.

(** ** The kernel's own mappings *)

Definition huge_entry (phys flags : Z) : Z :=
  Z.lor (Z.lor (Z.lor (Z.land phys (u64 (Z.lnot 0x1FFFFF)))
                  (Z.land flags (Z.lor (Z.lor PTE_WRITE PTE_WC) PTE_UNCACHED))) PTE_HUGE) PTE_PRESENT.

Definition paging_map_huge (virt phys flags : Z) (v : vm) : bool * vm :=
  match next_level (pml4 (kernel_space v)) (PML4_INDEX virt) true flags (Some KSpace) v with
  | (None, v) => (false, v)
  | (Some pdpt, v) =>
      match next_level pdpt (PDPT_INDEX virt) true flags (Some KSpace) v with
      | (None, v) => (false, v)
      | (Some pd, v) => (true, write pd (PD_INDEX virt) (huge_entry phys flags) v)
      end
  end.

Definition paging_map_huge_early (virt phys flags : Z) (v : vm) : bool * vm :=
  if negb (PML4_INDEX virt =? 0) then (false, v)
  else
    let entry := read v boot_pdpt (PDPT_INDEX virt) in
    if has entry PTE_PRESENT then
      (true, write (FRAME_OF entry) (PD_INDEX virt) (huge_entry phys flags) v)
    else if early_pd_used v >=? 2 then (false, v)
    else
      let pd := early_pd + early_pd_used v * PAGE_SIZE in
      let v := with_early (early_pd_used v + 1) v in
      let v := with_memory (zero_bytes pd PAGE_SIZE (memory v)) v in
      let v := write boot_pdpt (PDPT_INDEX virt) (Z.lor (Z.lor pd PTE_PRESENT) PTE_WRITE) v in
      (true, write pd (PD_INDEX virt) (huge_entry phys flags) v).

(** The [for] of [paging_map_device]: [n] pages of 2 MiB. *)
Fixpoint map_device_pages (n : nat) (virt base : Z) (v : vm) : bool * vm :=
  match n with
  | O => (true, v)
  | S n =>
      match paging_map_huge virt base (Z.lor PTE_WRITE PTE_UNCACHED) v with
      | (false, v) => (false, v)
      | (true, v) => map_device_pages n (u64 (virt + 0x200000)) (u64 (base + 0x200000)) v
      end
  end.

Definition paging_map_device (phys size : Z) (v : vm) : Z * vm :=
  let base := Z.land phys (u64 (Z.lnot 0x1FFFFF)) in
  let offset := phys - base in
  let span := Z.land (u64 (offset + size + 0x1FFFFF)) (u64 (Z.lnot 0x1FFFFF)) in
  let virt := device_next v in
  if ((phys =? 0) || (size =? 0))%bool then (0, v)
  else if u64 (virt + span) >? DEVICE_WINDOW + 0x40000000 then (0, v)
  else
    match map_device_pages (Z.to_nat (span / 0x200000)) virt base v with
    | (false, v) => (0, v)
    | (true, v) => (u64 (virt + offset), with_device (u64 (virt + span)) v)
    end.

(** The words [boot.S] stores before it turns paging on. *)
Definition build_page_tables (v : vm) : vm :=
  let v := write boot_pml4 0 (Z.lor boot_pdpt 0x03) v in
  let v := write boot_pdpt 0 (Z.lor boot_pd 0x03) v in
  foldl (fun v i => write boot_pd i (Z.lor (i * 0x200000) 0x83) v) v (seqZ 0 512).

(** Both ways out answer [false]; what follows the second [return] is not
    reached. *)
Definition paging_enable_global (pge : bool) (v : vm) : bool * vm :=
  if negb pge then (false, v) else (false, v).

Definition paging_init (c : nat) (pge : bool) (v : vm) : res vm :=
  let v := with_kernel (Addrspace boot_pml4 0 3) v in
  let v := set_this_space c KSpace v in
  let v := with_up v in
  match zeroed_low_frame v with
  | (None, _) => Panic
  | (Some pt, v) =>
      let v := foldl (fun v i => write pt i (Z.lor (Z.lor (i * PAGE_SIZE) PTE_PRESENT) PTE_WRITE) v)
                 v (seqZ 1 511) in
      let v := write boot_pd 0 (Z.lor (Z.lor pt PTE_PRESENT) PTE_WRITE) v in
      let v := with_kernel (count_table 1 (kernel_space v)) v in
      let v := load_cr3 c boot_pml4 v in
      Ret (paging_enable_global pge v).2
  end.

End boot.

End Paging.
