(* ===== verification/PagingInv.v ===== *)
(** Facts about page tables: memory words and entries, the table a path of
    indices leads to, and the invariant of a set of address spaces over one
    physical memory.

    A path lists the indices from the top table down, the deepest first; [tb]
    is the table it reaches.  Tables of different spaces are different frames,
    but for the two parts every space borrows from the kernel: the identity map
    and the device window. *)

From S2P Require Import Prelude Pmm Sched Paging.

Module PagingInv.

Import Sched (aspace, KSpace, Space).
Import Paging.

(** ** Words of memory *)

Lemma byte_at_insert m a x b : byte_at (<[a := x]> m) b = if a =? b then x else byte_at m b.
Proof.
  unfold byte_at. destruct (Z.eqb_spec a b) as [-> |]; [by rewrite lookup_insert_eq | by rewrite lookup_insert_ne].
Qed.

Lemma byte_at_fold (f : Z -> Z) a b n m :
  byte_at (foldl (fun m i => <[a + i := f i]> m) m (seqZ 0 n)) b =
  if ((a <=? b) && (b <? a + n))%bool then f (b - a) else byte_at m b.
Proof.
  destruct (Z.leb_spec n 0) as [Hn | Hn].
  { rewrite seqZ_nil by done. cbn. case_ifs; [lia | done]. }
  rewrite <- (Z2Nat.id n) by lia. clear Hn. induction (Z.to_nat n) as [| k IH]; [cbn; case_ifs; [lia | done] |].
  replace (Z.of_nat (S k)) with (Z.of_nat k + 1) by lia. rewrite seqZ_app, foldl_app by lia.
  rewrite (seqZ_cons _ 1), (seqZ_nil _ (Z.pred 1)) by lia.
  cbn [foldl]. rewrite byte_at_insert, IH.
  destruct (Z.eqb_spec (a + (0 + Z.of_nat k)) b) as [E |], (Z.leb_spec a b), (Z.ltb_spec b (a + Z.of_nat k)),
    (Z.ltb_spec b (a + (Z.of_nat k + 1))); cbn [andb]; try lia; try done.
  f_equal. lia.
Qed.

Lemma byte_at_store64 m a x b :
  byte_at (store64 m a x) b =
  if ((a <=? b) && (b <? a + 8))%bool then u8 (Z.shiftr x (8 * (b - a))) else byte_at m b.
Proof. unfold store64. apply (byte_at_fold (fun i => u8 (Z.shiftr x (8 * i)))). Qed.

Lemma byte_at_zero_bytes m a n b :
  byte_at (zero_bytes a n m) b = if ((a <=? b) && (b <? a + n))%bool then 0 else byte_at m b.
Proof. unfold zero_bytes. apply (byte_at_fold (fun _ => 0)). Qed.

Lemma load64_ext m m' a :
  (forall b, a <= b < a + 8 -> byte_at m' b = byte_at m b) -> load64 m' a = load64 m a.
Proof.
  intros H. unfold load64. change (seqZ 0 8) with [0; 1; 2; 3; 4; 5; 6; 7]. cbn [foldr].
  by rewrite !H by lia.
Qed.

Lemma byte_carry x i y :
  0 <= i -> y = Z.shiftr x (8 * (i + 1)) -> u8 (Z.shiftr x (8 * i)) + 256 * y = Z.shiftr x (8 * i).
Proof.
  intros ? ->. replace (8 * (i + 1)) with (8 * i + 8) by lia.
  rewrite <- Z.shiftr_shiftr by lia. set (z := Z.shiftr x (8 * i)).
  rewrite (Z.shiftr_div_pow2 z 8) by lia. change (2 ^ 8) with 256. unfold u8. zlia.
Qed.

Lemma load64_store64 m a x : 0 <= x < 2 ^ 64 -> load64 (store64 m a x) a = x.
Proof.
  intros Hx. unfold load64. change (seqZ 0 8) with [0; 1; 2; 3; 4; 5; 6; 7]. cbn [foldr].
  rewrite !byte_at_store64.
  repeat (match goal with |- context [(?l <=? ?r) && (?r <? ?u)] =>
    replace ((l <=? r) && (r <? u))%bool with true by (symmetry; apply andb_true_iff; lia) end).
  replace (a + 0 - a) with 0 by lia. replace (a + 1 - a) with 1 by lia.
  replace (a + 2 - a) with 2 by lia. replace (a + 3 - a) with 3 by lia.
  replace (a + 4 - a) with 4 by lia. replace (a + 5 - a) with 5 by lia.
  replace (a + 6 - a) with 6 by lia. replace (a + 7 - a) with 7 by lia.
  transitivity (Z.shiftr x (8 * 0)); [| by rewrite Z.shiftr_0_r].
  apply (byte_carry x 0), (byte_carry x 1), (byte_carry x 2), (byte_carry x 3), (byte_carry x 4),
    (byte_carry x 5), (byte_carry x 6), (byte_carry x 7); try lia.
  rewrite Z.shiftr_div_pow2 by lia. change (2 ^ (8 * (7 + 1))) with (2 ^ 64). symmetry. apply Z.div_small. lia.
Qed.

(** A frame address. *)
Definition paged (t : Z) : Prop := t `mod` 4096 = 0 /\ 0 <= t < 2 ^ 52.

Lemma slot_ext m m' t i :
  (forall b, t <= b < t + 4096 -> byte_at m' b = byte_at m b) -> 0 <= i < 512 -> slot m' t i = slot m t i.
Proof. intros H Hi. apply load64_ext. intros b Hb. apply H. lia. Qed.

Lemma slot_put m t i x t' i' :
  paged t -> paged t' -> 0 <= i < 512 -> 0 <= i' < 512 -> 0 <= x < 2 ^ 64 ->
  slot (put_slot m t i x) t' i' = if ((t =? t') && (i =? i'))%bool then x else slot m t' i'.
Proof.
  intros [Ht ?] [Ht' ?] Hi Hi' Hx. unfold slot, put_slot.
  destruct (Z.eqb_spec t t') as [<- |], (Z.eqb_spec i i') as [<- |]; cbn [andb]; [by apply load64_store64 | ..].
  all: apply load64_ext; intros b Hb; rewrite byte_at_store64; case_ifs; [zlia | done].
Qed.

Lemma byte_at_put_slot m t i x b :
  0 <= i < 512 -> (b < t \/ t + 4096 <= b) -> byte_at (put_slot m t i x) b = byte_at m b.
Proof. intros. unfold put_slot. rewrite byte_at_store64. case_ifs; [lia | done]. Qed.

Lemma slot_zero m f i : 0 <= i < 512 -> slot (zero_bytes f PAGE_SIZE m) f i = 0.
Proof.
  intros. unfold slot, load64. change (seqZ 0 8) with [0; 1; 2; 3; 4; 5; 6; 7]. cbn [foldr].
  rewrite !byte_at_zero_bytes. unfold PAGE_SIZE.
  repeat (match goal with |- context [(?l <=? ?r) && (?r <? ?u)] =>
    replace ((l <=? r) && (r <? u))%bool with true by (symmetry; apply andb_true_iff; lia) end). done.
Qed.

Lemma slot_zero_other m f t i :
  paged f -> paged t -> t <> f -> 0 <= i < 512 -> slot (zero_bytes f PAGE_SIZE m) t i = slot m t i.
Proof.
  intros [Hf ?] [Ht ?] Hne Hi. apply slot_ext; [| done]. intros b Hb. rewrite byte_at_zero_bytes.
  unfold PAGE_SIZE. case_ifs; [zlia | done].
Qed.

(** ** Entries *)

Lemma has_present e : has e PTE_PRESENT = Z.testbit e 0.
Proof. unfold has. change PTE_PRESENT with (Z.shiftl 1 0). by rewrite land_bit_nonzero, negb_involutive. Qed.
Lemma has_write e : has e PTE_WRITE = Z.testbit e 1.
Proof. unfold has. change PTE_WRITE with (Z.shiftl 1 1). by rewrite land_bit_nonzero, negb_involutive. Qed.
Lemma has_user e : has e PTE_USER = Z.testbit e 2.
Proof. unfold has. change PTE_USER with (Z.shiftl 1 2). by rewrite land_bit_nonzero, negb_involutive. Qed.
Lemma has_huge e : has e PTE_HUGE = Z.testbit e 7.
Proof. unfold has. change PTE_HUGE with (Z.shiftl 1 7). by rewrite land_bit_nonzero, negb_involutive. Qed.

Lemma FRAME_OF_testbit e n : Z.testbit (FRAME_OF e) n = ((12 <=? n) && (n <? 52) && Z.testbit e n)%bool.
Proof.
  unfold FRAME_OF. rewrite Z.land_spec, andb_comm. f_equal.
  change 0x000FFFFFFFFFF000 with (Z.shiftl (Z.ones 40) 12).
  destruct (Z.ltb_spec n 0) as [| Hn].
  { rewrite Z.testbit_neg_r by done. case_ifs; try done; lia. }
  rewrite Z.shiftl_spec by done.
  destruct (Z.leb_spec 12 n), (Z.ltb_spec n 52); cbn [andb].
  - apply Z.ones_spec_low. lia.
  - apply Z.ones_spec_high. lia.
  - by rewrite Z.testbit_neg_r by lia.
  - lia.
Qed.

Lemma paged_testbit t n : paged t -> n < 12 -> Z.testbit t n = false.
Proof.
  intros [Ht ?] Hn. destruct (Z.ltb_spec n 0); [by apply Z.testbit_neg_r |].
  rewrite <- (Z.mod_pow2_bits_low t 12 n) by lia. change (2 ^ 12) with 4096. rewrite Ht. apply Z.bits_0.
Qed.

Lemma FRAME_OF_paged e : paged (FRAME_OF e).
Proof.
  assert (H0 : FRAME_OF e `mod` 2 ^ 12 = 0).
  { apply Z.bits_inj_0. intros n. destruct (Z.ltb_spec n 0); [by apply Z.testbit_neg_r |].
    destruct (Z.ltb_spec n 12).
    - rewrite Z.mod_pow2_bits_low, FRAME_OF_testbit by done. case_ifs; try done; lia.
    - by apply Z.mod_pow2_bits_high. }
  split; [done |]. unfold FRAME_OF.
  assert (0 <= Z.land e 0x000FFFFFFFFFF000) by (apply Z.land_nonneg; lia).
  destruct (decide (Z.land e 0x000FFFFFFFFFF000 = 0)) as [-> |]; [lia |].
  split; [done |]. apply Z.log2_lt_pow2; [lia |].
  destruct (Z.ltb_spec (Z.log2 (Z.land e 0x000FFFFFFFFFF000)) 52); [done |].
  pose proof (Z.bit_log2 (Z.land e 0x000FFFFFFFFFF000)) as Hb.
  pose proof (FRAME_OF_testbit e (Z.log2 (Z.land e 0x000FFFFFFFFFF000))) as Hf.
  unfold FRAME_OF at 1 in Hf. rewrite Hb in Hf by lia. case_ifs; try done. lia.
Qed.

Lemma FRAME_OF_id t : paged t -> FRAME_OF t = t.
Proof.
  intros Ht. apply Z.bits_inj'. intros n Hn. rewrite FRAME_OF_testbit.
  destruct (Z.leb_spec 12 n); cbn [andb]; [| by rewrite paged_testbit].
  destruct (Z.ltb_spec n 52); cbn [andb]; [done |].
  symmetry. apply (testbit_high 52); [apply Ht | lia | lia].
Qed.

(** A frame with flag bits below it. *)
Lemma FRAME_OF_entry t fl : paged t -> 0 <= fl < 4096 -> FRAME_OF (Z.lor t fl) = t.
Proof.
  intros Ht Hfl. rewrite <- (FRAME_OF_id t Ht) at 2. apply Z.bits_inj'. intros n Hn.
  rewrite !FRAME_OF_testbit, Z.lor_spec. destruct (Z.leb_spec 12 n); cbn [andb]; [| done].
  by rewrite (testbit_high 12 fl n), orb_false_r by lia.
Qed.

Lemma entry_testbit t fl n : paged t -> n < 12 -> Z.testbit (Z.lor t fl) n = Z.testbit fl n.
Proof. intros. by rewrite Z.lor_spec, paged_testbit. Qed.

Lemma entry_range t fl : paged t -> 0 <= fl < 4096 -> 0 <= Z.lor t fl < 2 ^ 64.
Proof.
  intros Ht Hfl. pose proof (Z.add_lor_land t fl) as H.
  assert (Z.land t fl = 0) as E.
  { apply Z.bits_inj_0. intros n. rewrite Z.land_spec. destruct (Z.ltb_spec n 12).
    - by rewrite paged_testbit.
    - by rewrite (testbit_high 12 fl n), andb_false_r by lia. }
  destruct Ht. lia.
Qed.

(** [page | off]. *)
Lemma lor_offset t o : paged t -> 0 <= o < 4096 -> Z.lor t o = t + o.
Proof.
  intros Ht Hfl. pose proof (Z.add_lor_land t o) as H.
  assert (Z.land t o = 0) as E.
  { apply Z.bits_inj_0. intros n. rewrite Z.land_spec. destruct (Z.ltb_spec n 12).
    - by rewrite paged_testbit.
    - by rewrite (testbit_high 12 o n), andb_false_r by lia. }
  lia.
Qed.

(** ** Indices *)

Lemma index_spec v k : 0 <= k -> Z.land (Z.shiftr v k) 0x1FF = (v / 2 ^ k) `mod` 512.
Proof.
  intros. change 0x1FF with (Z.ones 9). rewrite Z.land_ones by lia. by rewrite Z.shiftr_div_pow2.
Qed.

Lemma index_range v : 0 <= PML4_INDEX v < 512 /\ 0 <= PDPT_INDEX v < 512 /\
  0 <= PD_INDEX v < 512 /\ 0 <= PT_INDEX v < 512.
Proof.
  unfold PML4_INDEX, PDPT_INDEX, PD_INDEX, PT_INDEX. rewrite !index_spec by lia.
  split_and!; apply Z.mod_pos_bound; lia.
Qed.

Lemma offset_spec v : Z.land v 0xFFF = v `mod` 4096.
Proof. change 0xFFF with (Z.ones 12). by rewrite Z.land_ones by lia. Qed.

(** ** Paths *)

Fixpoint tab (m : mem) (r : Z) (path : list Z) : option Z :=
  match path with
  | [] => Some r
  | i :: path =>
      match tab m r path with
      | Some t => let e := slot m t i in
                  if (has e PTE_PRESENT && negb (has e PTE_HUGE))%bool then Some (FRAME_OF e) else None
      | None => None
      end
  end.

Definition valid (path : list Z) : Prop := Forall (fun i => 0 <= i < 512) path /\ (length path <= 3)%nat.

(** Under the identity map or the device window. *)
Definition shared (path : list Z) : bool :=
  match path with
  | [j; z] | [_; j; z] => ((z =? 0) && ((j =? 0) || (j =? 3)))%bool
  | _ => false
  end.

Lemma shared_cons i path : (length path < 3)%nat -> shared (i :: path) = false -> shared path = false.
Proof. destruct path as [| x [| y [| z l]]]; try done. cbn. lia. Qed.

Lemma valid_cons i path : valid (i :: path) <-> (0 <= i < 512) /\ valid path /\ (length path < 3)%nat.
Proof. unfold valid. rewrite Forall_cons. cbn [length]. split; [intros [[? ?] ?] | intros (? & [? ?] & ?)]; split_and!; done || lia. Qed.

Lemma valid_nil : valid [].
Proof. split; [constructor | cbn; lia]. Qed.

(** The path to the table of page [q], the page holding [q * 4096]. *)
Definition path_of (q : Z) : list Z := [(q / 512) `mod` 512; (q / 2 ^ 18) `mod` 512; (q / 2 ^ 27) `mod` 512].

Lemma path_of_valid q : valid (path_of q).
Proof. split; [| done]. repeat constructor; apply Z.mod_pos_bound; lia. Qed.

Lemma path_of_inj q q' :
  0 <= q < 2 ^ 36 -> 0 <= q' < 2 ^ 36 -> path_of q = path_of q' -> q `mod` 512 = q' `mod` 512 -> q = q'.
Proof. unfold path_of. intros Hq Hq' [= E1 E2 E3] E0. zlia. Qed.

Lemma path_of_index virt :
  0 <= virt < 2 ^ 48 ->
  path_of (virt / 4096) = [PD_INDEX virt; PDPT_INDEX virt; PML4_INDEX virt] /\
  (virt / 4096) `mod` 512 = PT_INDEX virt /\ 0 <= virt / 4096 < 2 ^ 36.
Proof.
  intros. unfold path_of, PML4_INDEX, PDPT_INDEX, PD_INDEX, PT_INDEX. rewrite !index_spec by lia.
  rewrite !Z.div_div by lia. split_and!; [done | done | zlia | zlia].
Qed.

(** Frame [g] is handed out. *)
Definition taken (p : Pmm.pmm) (g : Z) : Prop := 0 < g < Pmm.total_frames p /\ Pmm.used p g = true.

Section spaces.

(** The top table of each space. *)
Context (R : aspace -> option Z).

Definition tb (m : mem) (s : aspace) (path : list Z) : option Z :=
  match R s with Some r => tab m r path | None => None end.

(** The entry of a table, 0 where there is no table. *)
Definition ent (m : mem) (s : aspace) (path : list Z) (i : Z) : Z :=
  match tb m s path with Some t => slot m t i | None => 0 end.

Definition pte (m : mem) (s : aspace) (q : Z) : option Z :=
  let e := ent m s (path_of q) (q `mod` 512) in if has e PTE_PRESENT then Some e else None.

Definition owner (s : aspace) (path : list Z) : aspace * list Z :=
  (if shared path then KSpace else s, path).

Lemma tb_cons m s i path :
  tb m s (i :: path) =
  let e := ent m s path i in
  if (has e PTE_PRESENT && negb (has e PTE_HUGE))%bool then Some (FRAME_OF e) else None.
Proof.
  unfold ent, tb. destruct (R s) as [r |]; [| done]. cbn [tab]. by destruct (tab m r path).
Qed.

(** The invariant.  [o] are the frames in use for anything but the tables and
    private pages of processes: the kernel, its tables, shared memory. *)
Record ok (o : Z -> Prop) (m : mem) (p : Pmm.pmm) : Prop := {
  ok_pmm : Pmm.pmm_inv p;
  ok_phys : Pmm.total_frames p <= 2 ^ 40;
  ok_frame : forall s path t, valid path -> tb m s path = Some t ->
    paged t /\ t < 2 ^ 30 /\ taken p (t / 4096);
  ok_inj : forall s path s' path' t, valid path -> valid path' ->
    tb m s path = Some t -> tb m s' path' = Some t -> owner s path = owner s' path';
  ok_kernel : exists k, tb m KSpace [0] = Some k;
  ok_super : forall j, j = 0 \/ j = 3 ->
    has (ent m KSpace [0] j) PTE_USER = false /\ has (ent m KSpace [0] j) PTE_HUGE = false /\
    0 <= ent m KSpace [0] j < 2 ^ 64;
  ok_borrow : forall a r, R (Space a) = Some r ->
    (exists d, tb m (Space a) [0] = Some d) /\
    forall j, j = 0 \/ j = 3 -> ent m (Space a) [0] j = ent m KSpace [0] j;
  ok_entry : forall a path i, valid (i :: path) -> shared (i :: path) = false ->
    has (ent m (Space a) path i) PTE_HUGE = false /\
    (has (ent m (Space a) path i) PTE_PRESENT = true ->
     has (ent m (Space a) path i) PTE_WRITE = true /\ has (ent m (Space a) path i) PTE_USER = true);
  ok_top : forall a i, 0 <= i < 512 -> has (ent m (Space a) [] i) PTE_PRESENT = true -> i = 0;
  ok_other : forall g, o g -> taken p g;
  ok_ktab : forall path t, valid path -> tb m KSpace path = Some t -> o (t / 4096);
  ok_utab : forall a path t, valid path -> shared path = false -> tb m (Space a) path = Some t -> ~ o (t / 4096);
  ok_leaf : forall a q e, 0 <= q < 2 ^ 36 -> shared (path_of q) = false -> pte m (Space a) q = Some e ->
    taken p (FRAME_OF e / 4096) /\ forall s path, valid path -> tb m s path <> Some (FRAME_OF e);
  ok_priv : forall a q e a' q' e', 0 <= q < 2 ^ 36 -> 0 <= q' < 2 ^ 36 ->
    shared (path_of q) = false -> shared (path_of q') = false ->
    pte m (Space a) q = Some e -> pte m (Space a') q' = Some e' -> FRAME_OF e = FRAME_OF e' ->
    ~ o (FRAME_OF e / 4096) -> a = a' /\ q = q';
  ok_all : forall g, taken p g -> o g \/
    (exists a path t, valid path /\ shared path = false /\ tb m (Space a) path = Some t /\ g = t / 4096) \/
    (exists a q e, 0 <= q < 2 ^ 36 /\ shared (path_of q) = false /\ pte m (Space a) q = Some e /\
       g = FRAME_OF e / 4096);
}.

(** ** What the tables depend on *)

Lemma tb_ext m m' :
  (forall s path t i, valid path -> tb m s path = Some t -> 0 <= i < 512 -> slot m' t i = slot m t i) ->
  forall s path, valid path -> tb m' s path = tb m s path.
Proof.
  intros H s path. induction path as [| i path IH]; intros Hv; [done |].
  apply valid_cons in Hv as (Hi & Hv & _). rewrite !tb_cons. unfold ent. rewrite IH by done.
  destruct (tb m s path) as [t |] eqn:E; [| done]. by rewrite (H s path t i).
Qed.

Lemma ent_ext m m' :
  (forall s path t i, valid path -> tb m s path = Some t -> 0 <= i < 512 -> slot m' t i = slot m t i) ->
  forall s path i, valid path -> 0 <= i < 512 -> ent m' s path i = ent m s path i.
Proof.
  intros H s path i Hv Hi. unfold ent. rewrite (tb_ext m m') by done.
  destruct (tb m s path) as [t |] eqn:E; [| done]. by apply (H s path).
Qed.

Lemma index_of_page q : 0 <= q `mod` 512 < 512.
Proof. apply Z.mod_pos_bound. lia. Qed.

Lemma pte_ext m m' s q :
  (forall s path i, valid path -> 0 <= i < 512 -> path <> [0; 0] -> ent m' s path i = ent m s path i) ->
  pte m' s q = pte m s q.
Proof. intros H. unfold pte. by rewrite H by (apply path_of_valid || apply index_of_page || done). Qed.

(** The invariant speaks of memory through the tables and their entries only,
    and not of what the directory of the first gigabyte maps. *)
Lemma ok_mem o m m' p :
  (forall s path, valid path -> tb m' s path = tb m s path) ->
  (forall s path i, valid path -> 0 <= i < 512 -> path <> [0; 0] -> ent m' s path i = ent m s path i) ->
  ok o m p -> ok o m' p.
Proof.
  intros Ht He H.
  assert (Hp : forall s q, pte m' s q = pte m s q) by (intros; by apply pte_ext).
  assert (V0 : valid [0]) by (apply valid_cons; split_and!; [lia | lia | apply valid_nil | cbn; lia]).
  assert (V1 : valid []) by apply valid_nil.
  assert (Hj : forall j, j = 0 \/ j = 3 -> 0 <= j < 512) by lia.
  destruct H as [A1 A0 A2 A3 A4 A5 A6 A7 A8 A9 A10 A11 A12 A13 A14]. split.
  - done.
  - done.
  - intros s path t Hv. rewrite Ht by done. by apply A2.
  - intros s path s' path' t Hv Hv'. rewrite !Ht by done. by apply A3.
  - by rewrite Ht.
  - intros j Hjj. rewrite He by auto. auto.
  - intros a r Hr. rewrite Ht by done. destruct (A6 a r Hr) as [HA HB]. split; [done |].
    intros j Hjj. rewrite !He by auto. auto.
  - intros a path i Hv Hs. pose proof Hv as (Hi & Hv' & _)%valid_cons.
    rewrite He by (done || (intros ->; discriminate Hs)). by apply A7.
  - intros a i Hi. rewrite He by done. by apply A8.
  - done.
  - intros path t Hv. rewrite Ht by done. by apply A10.
  - intros a path t Hv. rewrite Ht by done. by apply A11.
  - intros a q e Hq Hs. rewrite Hp. intros E. destruct (A12 a q e Hq Hs E) as [HA HB].
    split; [done |]. intros s path Hv. rewrite Ht by done. by apply HB.
  - intros a q e a' q' e'. rewrite !Hp. apply A13.
  - intros g Hg. destruct (A14 g Hg) as [? | [(a & path & t & Hv & Hs & E & ->) | (a & q & e & Hq & Hs & E & ->)]].
    + by left.
    + right; left. exists a, path, t. by rewrite Ht.
    + right; right. exists a, q, e. by rewrite Hp.
Qed.

(** A write outside every table. *)
Lemma ok_bytes o m m' p :
  (forall s path t b, valid path -> tb m s path = Some t -> t <= b < t + 4096 -> byte_at m' b = byte_at m b) ->
  ok o m p ->
  ok o m' p /\ (forall s path, valid path -> tb m' s path = tb m s path) /\
  (forall s path i, valid path -> 0 <= i < 512 -> ent m' s path i = ent m s path i) /\
  (forall s q, pte m' s q = pte m s q).
Proof.
  intros H Hok.
  assert (Hs : forall s path t i, valid path -> tb m s path = Some t -> 0 <= i < 512 -> slot m' t i = slot m t i).
  { intros s path t i Hv Ht Hi. apply slot_ext; [| done]. intros b Hb. by apply (H s path t). }
  assert (He := ent_ext m m' Hs). split_and!; [| by apply tb_ext | done |].
  - apply (ok_mem o m); [by apply tb_ext | | done]. intros s path i ? ? _. by apply He.
  - intros s q. apply pte_ext. intros s' path i ? ? _. by apply He.
Qed.

Lemma tb_borrow o m p a path r :
  ok o m p -> R (Space a) = Some r -> valid path -> shared path = true ->
  tb m (Space a) path = tb m KSpace path.
Proof.
  intros Hok Hr Hv Hs. destruct (ok_borrow _ _ _ Hok a r Hr) as [_ Hb].
  assert (H2 : forall j, j = 0 \/ j = 3 -> tb m (Space a) [j; 0] = tb m KSpace [j; 0])
    by (intros j Hj; rewrite !tb_cons; by rewrite Hb).
  assert (Hj : forall j z, ((z =? 0) && ((j =? 0) || (j =? 3)))%bool = true -> z = 0 /\ (j = 0 \/ j = 3)).
  { intros j z Hjz. apply andb_prop in Hjz as [->%Z.eqb_eq [?%Z.eqb_eq | ?%Z.eqb_eq]%orb_true_iff]; auto. }
  destruct path as [| i [| j [| z [| ? ?]]]]; cbn [shared] in Hs; try done.
  - apply Hj in Hs as [-> Hs]. by apply H2.
  - apply Hj in Hs as [-> Hs]. rewrite (tb_cons m (Space a)), (tb_cons m KSpace). unfold ent. by rewrite H2.
Qed.

(** ** Writing an entry of a process's own table *)

Lemma owner_user s path a path0 :
  shared path0 = false -> owner s path = owner (Space a) path0 -> s = Space a /\ path = path0.
Proof. unfold owner. intros Hs [= E1 <-]. by rewrite Hs in E1. Qed.

Section put.
Context (o : Z -> Prop) (m : mem) (p : Pmm.pmm) (a : Z) (path0 : list Z) (t i x : Z).
Context (Hok : ok o m p) (Hv0 : valid path0) (Hs0 : shared path0 = false).
Context (Ht : tb m (Space a) path0 = Some t) (Hi : 0 <= i < 512) (Hx : 0 <= x < 2 ^ 64).

Lemma slot_put_user s path t' j :
  valid path -> tb m s path = Some t' -> 0 <= j < 512 ->
  slot (put_slot m t i x) t' j =
  if decide (s = Space a /\ path = path0 /\ j = i) then x else slot m t' j.
Proof.
  intros Hv Et Hj. destruct (ok_frame _ _ _ Hok _ _ _ Hv0 Ht) as [Hp _].
  destruct (ok_frame _ _ _ Hok _ _ _ Hv Et) as [Hp' _]. rewrite slot_put by done.
  destruct (Z.eqb_spec t t') as [<- | Hne], (Z.eqb_spec i j) as [<- | Hij]; cbn [andb].
  - pose proof (ok_inj _ _ _ Hok _ _ _ _ _ Hv Hv0 Et Ht) as [-> ->]%owner_user; [| done].
    by rewrite decide_True.
  - by rewrite decide_False by naive_solver.
  - rewrite decide_False; [done |]. intros (-> & -> & _). congruence.
  - by rewrite decide_False by naive_solver.
Qed.

(** Paths that do not go through the entry. *)
Lemma tb_put_other s path :
  valid path -> (forall pre, path = pre ++ i :: path0 -> s <> Space a) ->
  tb (put_slot m t i x) s path = tb m s path.
Proof.
  induction path as [| j path IH]; intros Hv Hno; [done |].
  apply valid_cons in Hv as (Hj & Hv & _).
  assert (E : tb (put_slot m t i x) s path = tb m s path).
  { apply IH; [done |]. intros pre ->. by apply (Hno (j :: pre)). }
  rewrite !tb_cons. unfold ent. rewrite E. destruct (tb m s path) as [t' |] eqn:Et; [| done].
  rewrite (slot_put_user s path t' j) by done. rewrite decide_False; [done |].
  intros (-> & -> & ->). by apply (Hno []).
Qed.

Lemma ent_put_other s path j :
  valid path -> 0 <= j < 512 -> tb (put_slot m t i x) s path = tb m s path ->
  ent (put_slot m t i x) s path j =
  if decide (s = Space a /\ path = path0 /\ j = i) then x else ent m s path j.
Proof.
  intros Hv Hj E. unfold ent. rewrite E. destruct (tb m s path) as [t' |] eqn:Et.
  - by apply slot_put_user.
  - rewrite decide_False; [done |]. intros (-> & -> & _). congruence.
Qed.

(** An entry of a page table proper: no table changes. *)
Lemma put_leaf :
  length path0 = 3%nat ->
  (forall s path, valid path -> tb (put_slot m t i x) s path = tb m s path) /\
  (forall s path j, valid path -> 0 <= j < 512 ->
     ent (put_slot m t i x) s path j =
     if decide (s = Space a /\ path = path0 /\ j = i) then x else ent m s path j).
Proof.
  intros Hl.
  assert (H : forall s path, valid path -> tb (put_slot m t i x) s path = tb m s path).
  { intros s path Hv. apply tb_put_other; [done |]. intros pre ->. destruct Hv as [_ Hv].
    rewrite length_app in Hv. cbn in Hv. lia. }
  split; [done |]. intros. apply ent_put_other; auto.
Qed.

(** An entry that gets an empty table. *)
Lemma put_table f :
  (length path0 < 3)%nat -> has (ent m (Space a) path0 i) PTE_PRESENT = false ->
  has x PTE_PRESENT = true -> has x PTE_HUGE = false -> FRAME_OF x = f ->
  (forall j, 0 <= j < 512 -> slot m f j = 0) -> t <> f -> paged f ->
  (forall s path, valid path -> tb (put_slot m t i x) s path =
     if decide (s = Space a /\ path = i :: path0) then Some f else tb m s path) /\
  (forall s path j, valid path -> 0 <= j < 512 ->
     ent (put_slot m t i x) s path j =
     if decide (s = Space a /\ path = path0 /\ j = i) then x else ent m s path j).
Proof.
  intros Hl Hnp Hxp Hxh Hf Hz Hne Hpf.
  destruct (ok_frame _ _ _ Hok _ _ _ Hv0 Ht) as [Hp _].
  assert (Hno : forall s path, valid path -> (length path <= length path0)%nat ->
    tb (put_slot m t i x) s path = tb m s path).
  { intros s path Hv Hlen. apply tb_put_other; [done |]. intros pre ->.
    rewrite length_app in Hlen. cbn in Hlen. lia. }
  assert (Hz' : forall j, 0 <= j < 512 -> slot (put_slot m t i x) f j = 0).
  { intros j Hj. rewrite slot_put by done. destruct (Z.eqb_spec t f); [done |]. cbn. by apply Hz. }
  assert (Hold : tb m (Space a) (i :: path0) = None) by (rewrite tb_cons; cbv zeta; by rewrite Hnp).
  assert (Hnew : tb (put_slot m t i x) (Space a) (i :: path0) = Some f).
  { rewrite tb_cons. cbv zeta. rewrite ent_put_other by auto. rewrite decide_True by done.
    by rewrite Hxp, Hxh, Hf. }
  assert (HT : forall s path, valid path -> tb (put_slot m t i x) s path =
     if decide (s = Space a /\ path = i :: path0) then Some f else tb m s path).
  { intros s path. induction path as [| j path IH]; intros Hv.
    { rewrite decide_False by naive_solver. apply Hno; [done | cbn; lia]. }
    pose proof Hv as (Hj & Hv' & _)%valid_cons.
    destruct (decide (s = Space a /\ j :: path = i :: path0)) as [[-> [= -> ->]] | Hn]; [done |].
    destruct (decide (s = Space a /\ path = i :: path0)) as [[-> ->] | Hn'].
    - rewrite !tb_cons. unfold ent. by rewrite Hnew, Hold, Hz'.
    - rewrite !tb_cons. rewrite ent_put_other by auto. rewrite decide_False by naive_solver. done. }
  split; [done |]. intros s path j Hv Hj.
  destruct (decide (s = Space a /\ path = i :: path0)) as [[-> ->] | Hn].
  - unfold ent. rewrite Hnew, Hold, Hz' by done. rewrite decide_False; [done |].
    intros (_ & E & _). apply (f_equal length) in E. cbn in E. lia.
  - apply ent_put_other; [done.. |]. rewrite HT by done. by rewrite decide_False.
Qed.

End put.

(** ** Frames changing hands *)

Definition plus (o : Z -> Prop) (f g : Z) : Prop := o g \/ g = f.
Definition minus (o : Z -> Prop) (f g : Z) : Prop := o g /\ g <> f.

(** Frame [g] is a page table; is a page of a process. *)
Definition tabled (m : mem) (g : Z) : Prop := exists s path, valid path /\ tb m s path = Some (g * 4096).
Definition leafed (m : mem) (g : Z) : Prop :=
  exists a q e, 0 <= q < 2 ^ 36 /\ shared (path_of q) = false /\ pte m (Space a) q = Some e /\ FRAME_OF e = g * 4096.

Lemma paged_frame t : paged t -> t = t / 4096 * 4096.
Proof. intros [? ?]. zlia. Qed.

Lemma paged_div t g : paged t -> t / 4096 = g -> t = g * 4096.
Proof. intros [? ?] <-. zlia. Qed.

Lemma ok_iff o o' m p : (forall g, o g <-> o' g) -> ok o m p -> ok o' m p.
Proof.
  intros E [A1 A0 A2 A3 A4 A5 A6 A7 A8 A9 A10 A11 A12 A13 A14]. split; try done.
  - intros g Hg. by apply A9, E.
  - intros path t Hv Et. apply E. by apply (A10 path).
  - intros a path t Hv Hs Et Ho. apply (A11 a path t Hv Hs Et). by apply E.
  - intros a q e a' q' e' Hq Hq' Hs Hs' E1 E2 EF Ho. apply (A13 a q e a' q' e'); try done. by rewrite E.
  - intros g Hg. destruct (A14 g Hg) as [? | ?]; [left; by apply E | by right].
Qed.

Lemma ok_alloc o m p p' f :
  ok o m p -> 0 < f < Pmm.total_frames p -> Pmm.used p f = false ->
  Pmm.pmm_inv p' -> Pmm.total_frames p' = Pmm.total_frames p ->
  (forall g, 0 <= g -> Pmm.used p' g = (Pmm.used p g || (g =? f))%bool) ->
  ok (plus o f) m p' /\ ~ tabled m f /\ ~ leafed m f /\ ~ o f.
Proof.
  intros [A1 A0 A2 A3 A4 A5 A6 A7 A8 A9 A10 A11 A12 A13 A14] Hf Hfree Hinv Ht Hu.
  assert (Hm : forall g, taken p g -> taken p' g).
  { intros g [Hg Hg']. split; [lia |]. by rewrite Hu, Hg' by lia. }
  assert (Hn : ~ taken p f) by (intros [_ ?]; congruence).
  assert (Hnt : ~ tabled m f).
  { intros (s & path & Hv & E). destruct (A2 s path _ Hv E) as (_ & _ & Htk).
    rewrite Z.div_mul in Htk by lia. done. }
  assert (Hnl : ~ leafed m f).
  { intros (a & q & e & Hq & Hs & E & EF). destruct (A12 a q e Hq Hs E) as [Htk _].
    rewrite EF, Z.div_mul in Htk by lia. done. }
  assert (Hno : ~ o f) by (intros ?%A9; done).
  split; [| done]. split; try done; [lia | ..].
  - intros s path t Hv E. destruct (A2 s path t Hv E) as (? & ? & ?). auto.
  - intros g [Hg | ->]; [auto |]. split; [lia |]. by rewrite Hu, Z.eqb_refl, orb_true_r by lia.
  - intros path t Hv E. left. by apply (A10 path).
  - intros a path t Hv Hs E [Ho | Ho]; [by apply (A11 a path t) |].
    apply Hnt. exists (Space a), path. split; [done |]. rewrite E. f_equal.
    apply paged_div; [| done]. by apply (A2 (Space a) path).
  - intros a q e Hq Hs E. destruct (A12 a q e Hq Hs E). auto.
  - intros a q e a' q' e' ? ? ? ? ? ? ? Ho. apply (A13 a q e a' q' e'); try done. intros ?. apply Ho. by left.
  - intros g [Hg Hg']. rewrite Hu in Hg' by lia. apply orb_true_iff in Hg' as [Hg' | ->%Z.eqb_eq].
    + destruct (A14 g) as [? | ?]; [split; [lia | done] | left; by left | by right].
    + left. by right.
Qed.

Lemma ok_free o m p p' f :
  ok o m p -> o f -> ~ tabled m f -> ~ leafed m f ->
  Pmm.pmm_inv p' -> Pmm.total_frames p' = Pmm.total_frames p ->
  (forall g, 0 <= g -> Pmm.used p' g = (Pmm.used p g && negb (g =? f))%bool) ->
  ok (minus o f) m p'.
Proof.
  intros [A1 A0 A2 A3 A4 A5 A6 A7 A8 A9 A10 A11 A12 A13 A14] Hof Hnt Hnl Hinv Ht Hu.
  assert (Hm : forall g, taken p g -> g <> f -> taken p' g).
  { intros g [Hg Hg'] Hne. split; [lia |]. rewrite Hu, Hg' by lia. by destruct (Z.eqb_spec g f). }
  assert (Hm' : forall g, taken p' g -> taken p g /\ g <> f).
  { intros g [Hg Hg']. rewrite Hu in Hg' by lia. apply andb_prop in Hg' as [Hg' Hne%negb_true_iff%Z.eqb_neq].
    split; [split; [lia | done] | done]. }
  assert (Htb : forall s path t, valid path -> tb m s path = Some t -> t / 4096 <> f).
  { intros s path t Hv E Ef. apply Hnt. exists s, path. split; [done |]. rewrite E. f_equal.
    apply paged_div; [| done]. by apply (A2 s path). }
  split; try done; [lia | ..].
  - intros s path t Hv E. destruct (A2 s path t Hv E) as (? & ? & ?). split_and!; try done. eauto.
  - intros g [Hg Hne]. auto.
  - intros path t Hv E. split; [by apply (A10 path) | by eapply Htb].
  - intros a path t Hv Hs E [Ho _]. by apply (A11 a path t).
  - intros a q e Hq Hs E. destruct (A12 a q e Hq Hs E) as [Htk Hnot]. split; [| done].
    apply Hm; [done |]. intros Ef. apply Hnl. exists a, q, e. split_and!; try done; try lia.
    apply paged_div; [apply FRAME_OF_paged | done].
  - intros a q e a' q' e' Hq Hq' Hs Hs' E E' EF Ho. apply (A13 a q e a' q' e'); try done. intros Ho'.
    apply Ho. split; [done |]. intros Ef. apply Hnl. exists a, q, e. split_and!; try done; try lia.
    apply paged_div; [apply FRAME_OF_paged | done].
  - intros g Hg. apply Hm' in Hg as [Hg Hne]. destruct (A14 g Hg) as [? | ?]; [by left | by right].
Qed.

(** A frame that the kernel holds becomes a table of a process. *)
Lemma ok_table o m p a path0 t i x f :
  ok o m p -> valid path0 -> (0 < length path0 < 3)%nat -> shared (i :: path0) = false ->
  tb m (Space a) path0 = Some t -> 0 <= i < 512 -> 0 <= x < 2 ^ 64 ->
  has (ent m (Space a) path0 i) PTE_PRESENT = false ->
  has x PTE_PRESENT = true -> has x PTE_HUGE = false -> has x PTE_WRITE = true -> has x PTE_USER = true ->
  FRAME_OF x = f * 4096 -> (forall j, 0 <= j < 512 -> slot m (f * 4096) j = 0) ->
  o f -> f * 4096 < 2 ^ 30 -> ~ tabled m f -> ~ leafed m f ->
  let m' := put_slot m t i x in
  ok (minus o f) m' p /\ tb m' (Space a) (i :: path0) = Some (f * 4096) /\
  (forall s q, pte m' s q = pte m s q) /\
  (forall s path, valid path -> tb m' s path =
     if decide (s = Space a /\ path = i :: path0) then Some (f * 4096) else tb m s path) /\
  (forall path j, valid path -> 0 <= j < 512 -> ent m' KSpace path j = ent m KSpace path j).
Proof.
  intros Hok Hv0 Hl Hs Et Hi Hx Hnp Xp Xh Xw Xu Xf Hz Hof Hlow Hnt Hnl m'.
  assert (Hs0 : shared path0 = false) by (apply (shared_cons i); [lia | done]).
  assert (Hp : paged (f * 4096)) by (rewrite <- Xf; apply FRAME_OF_paged).
  assert (Hne : t <> f * 4096) by (intros ->; apply Hnt; by exists (Space a), path0).
  destruct (put_table o m p a path0 t i x Hok Hv0 Hs0 Et Hi Hx (f * 4096)) as [HT HE]; try done; try lia.
  fold m' in HT, HE. assert (V0 : valid [0]) by (apply valid_cons; split_and!; [lia | lia | apply valid_nil | cbn; lia]).
  assert (Hpte : forall s q, pte m' s q = pte m s q).
  { intros s q. unfold pte. rewrite HE by (apply path_of_valid || apply index_of_page).
    rewrite decide_False; [done |]. intros (_ & E & _). apply (f_equal length) in E. cbn in E. lia. }
  assert (Hroot : i :: path0 <> [0]) by (destruct path0; [cbn in Hl; lia | done]).
  assert (Hknow : forall s path, valid path -> tb m s path <> Some (f * 4096))
    by (intros s path Hv E; apply Hnt; by exists s, path).
  split; [| split; [| split; [done | split; [done |]]]].
  3: { intros path j Hv Hj. rewrite HE by done. by rewrite decide_False by naive_solver. }
  2: { rewrite HT by (apply valid_cons; split_and!; done || lia). by rewrite decide_True. }
  destruct Hok as [A1 A0 A2 A3 A4 A5 A6 A7 A8 A9 A10 A11 A12 A13 A14].
  assert (H0f : taken p f) by auto. split; try done.
  - intros s path t' Hv. rewrite HT by done. case_decide; [| by apply A2].
    intros [= <-]. rewrite Z.div_mul by lia. done.
  - intros s path s' path' t' Hv Hv'. rewrite !HT by done. repeat case_decide; destruct_and?; subst; try done.
    + intros [= <-] E. by apply Hknow in E.
    + intros E [= <-]. by apply Hknow in E.
    + by apply A3.
  - rewrite HT by done. by rewrite decide_False by naive_solver.
  - intros j Hj. rewrite HE by (done || lia). rewrite decide_False by naive_solver. auto.
  - intros a' r Hr. destruct (A6 a' r Hr) as [[d Hd] Hb]. split.
    + exists d. rewrite HT by done. by rewrite decide_False by naive_solver.
    + intros j Hj. rewrite !HE by (done || lia). rewrite (decide_False (P := KSpace = _ /\ _)) by naive_solver.
      rewrite decide_False; [auto |]. intros (_ & <- & ->). cbn in Hs. destruct Hj as [-> | ->]; done.
  - intros a' path j Hv. pose proof Hv as (Hj & Hv' & _)%valid_cons. rewrite HE by done. case_decide; [done |]. by apply A7.
  - intros a' j Hj. rewrite HE by (done || apply valid_nil). rewrite decide_False; [by apply A8 |].
    intros (_ & <- & _). cbn in Hl. lia.
  - intros g [Hg _]. auto.
  - intros path t' Hv. rewrite HT by done. rewrite decide_False by naive_solver. intros E.
    split; [by apply (A10 path) |]. intros Ef. apply (Hknow KSpace path Hv). rewrite E. f_equal.
    apply paged_div; [| done]. by apply (A2 KSpace path).
  - intros a' path t' Hv Hsh. rewrite HT by done. case_decide as Hd.
    + intros [= <-] [_ Ho]. apply Ho. by rewrite Z.div_mul.
    + intros E [Ho _]. by apply (A11 a' path t').
  - intros a' q e Hq Hsh. rewrite Hpte. intros E. destruct (A12 a' q e Hq Hsh E) as [Htk Hnot]. split; [done |].
    intros s path Hv. rewrite HT by done. case_decide; [| by apply Hnot].
    intros [= Ef]. apply Hnl. exists a', q, e. done.
  - intros a1 q e a' q' e' Hq Hq' Hsh Hsh'. rewrite !Hpte. intros E E' EF Ho. apply (A13 a1 q e a' q' e'); try done.
    intros Ho'. apply Ho. split; [done |]. intros Ef. apply Hnl. exists a1, q, e. split_and!; try done; try lia.
    apply paged_div; [apply FRAME_OF_paged | done].
  - intros g Hg. destruct (decide (g = f)) as [-> | Hgf].
    + right; left. exists a, (i :: path0), (f * 4096). rewrite HT, decide_True, Z.div_mul
        by (done || lia || (apply valid_cons; split_and!; done || lia)).
      split_and!; try done. apply valid_cons; split_and!; done || lia.
    + destruct (A14 g Hg) as [? | [(a' & path & t' & Hv & Hsh & E & ->) | (a' & q & e & Hq & Hsh & E & ->)]].
      * left. by split.
      * right; left. exists a', path, t'. rewrite HT by done. case_decide as Hd; [| done].
        destruct Hd as [[= ->] ->]. rewrite tb_cons in E. cbv zeta in E. by rewrite Hnp in E.
      * right; right. exists a', q, e. by rewrite Hpte.
Qed.

(** ** Pages of a process *)

Section page.
Context (o : Z -> Prop) (m : mem) (p : Pmm.pmm) (a q t x : Z).
Context (Hok : ok o m p) (Hq : 0 <= q < 2 ^ 36) (Hs : shared (path_of q) = false).
Context (Ht : tb m (Space a) (path_of q) = Some t) (Hx : 0 <= x < 2 ^ 64).

Definition m_page : mem := put_slot m t (q `mod` 512) x.

Lemma put_page :
  (forall s path, valid path -> tb m_page s path = tb m s path) /\
  (forall s path j, valid path -> 0 <= j < 512 -> (length path < 3)%nat \/ s = KSpace ->
     ent m_page s path j = ent m s path j) /\
  (forall s q', 0 <= q' < 2 ^ 36 -> pte m_page s q' =
     if decide (s = Space a /\ q' = q) then (if has x PTE_PRESENT then Some x else None) else pte m s q').
Proof.
  destruct (put_leaf o m p a (path_of q) t (q `mod` 512) x) as [HT HE]; try done.
  { apply path_of_valid. } { apply index_of_page. }
  split; [done |]. split.
  - intros s path j Hv Hj Hor. unfold m_page. rewrite HE by done. rewrite decide_False; [done |].
    intros (-> & -> & _). destruct Hor as [Hl | Hk]; [cbn in Hl; lia | done].
  - intros s q' Hq'. unfold pte, m_page. rewrite HE by (apply path_of_valid || apply index_of_page).
    destruct (decide (s = Space a /\ q' = q)) as [[-> ->] | Hn]; [by rewrite decide_True |].
    rewrite decide_False; [done |]. intros (-> & E & E'). apply Hn. split; [done |]. by apply path_of_inj.
Qed.

(** What no page can change. *)
Lemma ok_page o' :
  (forall g, o' g -> taken p g) ->
  (forall path t, valid path -> tb m KSpace path = Some t -> o' (t / 4096)) ->
  (forall a path t, valid path -> shared path = false -> tb m (Space a) path = Some t -> ~ o' (t / 4096)) ->
  (forall a' q' e, 0 <= q' < 2 ^ 36 -> shared (path_of q') = false -> pte m_page (Space a') q' = Some e ->
     taken p (FRAME_OF e / 4096) /\ forall s path, valid path -> tb m s path <> Some (FRAME_OF e)) ->
  (forall a1 q1 e1 a2 q2 e2, 0 <= q1 < 2 ^ 36 -> 0 <= q2 < 2 ^ 36 ->
    shared (path_of q1) = false -> shared (path_of q2) = false ->
    pte m_page (Space a1) q1 = Some e1 -> pte m_page (Space a2) q2 = Some e2 -> FRAME_OF e1 = FRAME_OF e2 ->
    ~ o' (FRAME_OF e1 / 4096) -> a1 = a2 /\ q1 = q2) ->
  (forall g, taken p g -> o' g \/
    (exists a path t, valid path /\ shared path = false /\ tb m (Space a) path = Some t /\ g = t / 4096) \/
    (exists a' q' e, 0 <= q' < 2 ^ 36 /\ shared (path_of q') = false /\ pte m_page (Space a') q' = Some e /\
       g = FRAME_OF e / 4096)) ->
  ok o' m_page p.
Proof.
  intros B1 B2 B3 B4 B5 B6. destruct put_page as (HT & HE & HP).
  destruct Hok as [A1 A0 A2 A3 A4 A5 A6 A7 A8 A9 A10 A11 A12 A13 A14].
  assert (V0 : valid [0]) by (apply valid_cons; split_and!; [lia | lia | apply valid_nil | cbn; lia]).
  assert (L0 : (length [0%Z] < 3)%nat) by (cbn; lia). split; try done.
  - intros s path t' Hv. rewrite HT by done. by apply A2.
  - intros s path s' path' t' Hv Hv'. rewrite !HT by done. by apply A3.
  - by rewrite HT.
  - intros j Hj. rewrite HE by (done || lia || auto). auto.
  - intros a' r Hr. rewrite HT by done. destruct (A6 a' r Hr) as [HA HB]. split; [done |].
    intros j Hj. rewrite !HE by (done || lia || auto). auto.
  - intros a' path j Hv. pose proof Hv as (Hj & Hv' & Hl)%valid_cons. rewrite HE by auto. by apply A7.
  - intros a' j Hj. rewrite HE by (done || apply valid_nil || (left; cbn; lia)). by apply A8.
  - intros path t' Hv. rewrite HT by done. by apply B2.
  - intros a' path t' Hv. rewrite HT by done. by apply B3.
  - intros a' q' e Hq' Hs' E. destruct (B4 a' q' e Hq' Hs' E) as [HA HB]. split; [done |].
    intros s path Hv. rewrite HT by done. by apply HB.
  - intros g Hg. destruct (B6 g Hg) as [? | [(a' & path & t' & Hv & Hsh & E & ->) | ?]]; [by left | | by right; right].
    right; left. exists a', path, t'. by rewrite HT.
Qed.

(** Mapping frame [g], which the kernel keeps ([o' g]) or hands over. *)
Lemma ok_map o' g :
  o g -> FRAME_OF x = g * 4096 -> has x PTE_PRESENT = true -> ~ tabled m g ->
  pte m (Space a) q = None ->
  (forall h, o' h -> o h) -> (forall h, o h -> h <> g -> o' h) -> o' g \/ ~ leafed m g ->
  ok o' m_page p.
Proof.
  intros Hog Xf Xp Hnt Hnone Ho1 Ho2 Hor. destruct put_page as (HT & HE & HP). rewrite Xp in HP.
  destruct Hok as [A1 A0 A2 A3 A4 A5 A6 A7 A8 A9 A10 A11 A12 A13 A14].
  assert (Hnew : forall a' q' e, 0 <= q' < 2 ^ 36 -> pte m_page (Space a') q' = Some e ->
    (a' = a /\ q' = q /\ e = x) \/ pte m (Space a') q' = Some e).
  { intros a' q' e Hq' E. rewrite HP in E by done. case_decide as Hd; [| by right].
    destruct Hd as [[= ->] ->]. left. by injection E as <-. }
  assert (Hfr : FRAME_OF x / 4096 = g) by (rewrite Xf; by rewrite Z.div_mul).
  assert (Hlf : forall a' q' e, 0 <= q' < 2 ^ 36 -> shared (path_of q') = false ->
    pte m (Space a') q' = Some e -> FRAME_OF e = FRAME_OF x -> o' g).
  { intros a' q' e Hq' Hs' E EF. destruct Hor as [? | Hl]; [done |]. destruct Hl. exists a', q', e.
    by rewrite <- Xf. }
  apply ok_page.
  - intros h Hh. auto.
  - intros path t' Hv E. apply Ho2; [by apply (A10 path) |]. intros Ef. apply Hnt. exists KSpace, path.
    split; [done |]. rewrite E. f_equal. apply paged_div; [by apply (A2 KSpace path) | done].
  - intros a' path t' Hv Hs' E Ho. by apply (A11 a' path t'), Ho1.
  - intros a' q' e Hq' Hs' [(-> & -> & ->) | E]%Hnew; [| by apply (A12 a' q') | done].
    rewrite Hfr. split; [auto |]. intros s path Hv E. apply Hnt. exists s, path. by rewrite <- Xf.
  - intros a1 q1 e1 a2 q2 e2 H1 H2 S1 S2 [(-> & -> & ->) | E1]%Hnew [(-> & -> & ->) | E2]%Hnew EF Hno; try done.
    + rewrite Hfr in Hno. destruct Hno. by eapply (Hlf a2 q2 e2).
    + rewrite EF, Hfr in Hno. destruct Hno. by eapply (Hlf a1 q1 e1).
    + apply (A13 a1 q1 e1 a2 q2 e2); try done. intros Ho. destruct (decide (FRAME_OF e1 / 4096 = g)) as [Eg | Eg].
      * apply Hno. rewrite Eg. apply (Hlf a1 q1 e1); try done. rewrite Xf. apply paged_div; [apply FRAME_OF_paged | done].
      * apply Hno. by apply Ho2.
  - intros h Hh. destruct (decide (h = g)) as [-> | Hne].
    + right; right. exists a, q, x. rewrite HP by done. by rewrite decide_True.
    + destruct (A14 h Hh) as [? | [? | (a' & q' & e & Hq' & Hs' & E & ->)]]; [left; auto | by right; left |].
      right; right. exists a', q', e. rewrite HP by done. rewrite decide_False; [done |].
      intros [[= ->] ->]. congruence.
Qed.

(** Clearing the entry gives its frame to the kernel. *)
Lemma ok_unmap e :
  x = 0 -> pte m (Space a) q = Some e -> ok (plus o (FRAME_OF e / 4096)) m_page p.
Proof.
  intros X0 He. destruct put_page as (HT & HE & HP).
  destruct (ok_leaf _ _ _ Hok a q e Hq Hs He) as [Htk Hnot].
  assert (Hold : forall a' q' e', 0 <= q' < 2 ^ 36 -> pte m_page (Space a') q' = Some e' ->
    pte m (Space a') q' = Some e' /\ ~ (a' = a /\ q' = q)).
  { intros a' q' e' Hq' E. rewrite HP in E by done. rewrite X0 in E. case_decide as Hd; [done |].
    split; [done |]. intros [-> ->]. by apply Hd. }
  destruct Hok as [A1 A0 A2 A3 A4 A5 A6 A7 A8 A9 A10 A11 A12 A13 A14]. apply ok_page.
  - intros h [Hh | ->]; auto.
  - intros path t' Hv E. left. by apply (A10 path).
  - intros a' path t' Hv Hs' E [Ho | Ho]; [by apply (A11 a' path t') |].
    apply (Hnot (Space a') path Hv). rewrite E. f_equal.
    rewrite (paged_frame (FRAME_OF e)) by apply FRAME_OF_paged. apply paged_div; [by apply (A2 (Space a') path) | done].
  - intros a' q' e' Hq' Hs' [E _]%Hold; [by apply (A12 a' q') | done].
  - intros a1 q1 e1 a2 q2 e2 H1 H2 S1 S2 [E1 _]%Hold [E2 _]%Hold EF Hno; try done.
    apply (A13 a1 q1 e1 a2 q2 e2); try done. intros Ho. apply Hno. by left.
  - intros h Hh. destruct (A14 h Hh) as [? | [? | (a' & q' & e' & Hq' & Hs' & E & ->)]]; [left; by left | by right; left |].
    destruct (decide (a' = a /\ q' = q)) as [[-> ->] | Hne].
    + left. right. congruence.
    + right; right. exists a', q', e'. rewrite HP by done. rewrite decide_False; [done |].
      intros [[= ->] ->]. by apply Hne.
Qed.

End page.

End spaces.

End PagingInv.
