(* ===== verification/PagingSpec.v ===== *)
(** What the operations of [kernel/mm/paging.c] do to the address spaces: each
    keeps the invariant of [PagingInv], and changes the pages it names and no
    others. *)

From S2P Require Import Prelude Pmm Sched Paging PagingInv.

Module PagingSpec.

Import Sched (aspace, KSpace, Space).
Import Paging PagingInv.

#[local] Opaque zero_bytes load64 store64.

Definition rt (k : Z) (g : gmap Z Z) (s : aspace) : option Z :=
  match s with KSpace => Some k | Space a => g !! a end.
Definition roots (v : vm) : aspace -> option Z := rt (pml4 (kernel_space v)) (pml4 <$> spaces v).

(** The invariant and the views, of a state. *)
Definition vm_ok (o : Z -> Prop) (v : vm) : Prop := ok (roots v) o (memory v) (frames v).
Notation table v := (tb (roots v) (memory v)).
Notation entry v := (ent (roots v) (memory v)).
Notation page v := (pte (roots v) (memory v)).
Notation is_table v := (tabled (roots v) (memory v)).
Notation is_page v := (leafed (roots v) (memory v)).
Notation in_use v := (taken (frames v)).

Definition live (v : vm) (a : Z) : Prop := exists x, spaces v !! a = Some x.

Lemma roots_space v a : live v a -> roots v (Space a) = Some (root v (Space a)).
Proof. intros [x E]. unfold roots, rt, root, the_space. cbn. by rewrite lookup_fmap, E. Qed.

Lemma roots_kernel v : roots v KSpace = Some (root v KSpace).
Proof. done. Qed.

Lemma roots_set_space v s x :
  (exists y, lookup_space v s = Some y /\ pml4 y = pml4 x) -> roots (set_space s x v) = roots v.
Proof.
  intros (y & E & Hp). unfold roots. destruct s as [| a]; cbn in *.
  - by injection E as <-; rewrite Hp.
  - f_equal. rewrite fmap_insert. apply insert_id. by rewrite lookup_fmap, E, <- Hp.
Qed.

Lemma memory_set_space s x v : memory (set_space s x v) = memory v.
Proof. by destruct s. Qed.
Lemma frames_set_space s x v : frames (set_space s x v) = frames v.
Proof. by destruct s. Qed.
Lemma cpus_set_space s x v : cpus (set_space s x v) = cpus v.
Proof. by destruct s. Qed.

Lemma lookup_live v a : live v a -> lookup_space v (Space a) = Some (the_space v (Space a)).
Proof. intros [x E]. unfold the_space. cbn. by rewrite E. Qed.

(** ** Only hints changed *)

Lemma ok_used R o m p p' :
  Pmm.pmm_inv p' -> Pmm.total_frames p' = Pmm.total_frames p ->
  (forall g, Pmm.used p' g = Pmm.used p g) -> ok R o m p -> ok R o m p'.
Proof.
  intros Hi Ht Hu [A1 A0 A2 A3 A4 A5 A6 A7 A8 A9 A10 A11 A12 A13 A14].
  assert (Hk : forall g, taken p' g <-> taken p g) by (intros g; unfold taken; by rewrite Ht, Hu).
  split; try done; [lia | ..].
  - intros s path t Hv E. rewrite Hk. by apply (A2 s path).
  - intros g Hg. by apply Hk, A9.
  - intros a q e Hq Hs E. rewrite Hk. by apply (A12 a q).
  - intros g Hg. by apply A14, Hk.
Qed.

(** ** Changes that take no frame and no byte away *)

Record keeps (v v' : vm) : Prop := {
  g_roots : roots v' = roots v;
  g_cpus : cpus v' = cpus v;
  g_live : forall a, live v a -> live v' a;
  g_taken : forall g, in_use v g -> in_use v' g;
  g_tb : forall s path t, valid path -> table v s path = Some t -> table v' s path = Some t;
  g_kent : forall path i, valid path -> 0 <= i < 512 -> entry v' KSpace path i = entry v KSpace path i;
  g_new : forall g, is_table v' g -> is_table v g \/ ~ in_use v g;
  g_bytes : forall g b, in_use v g -> ~ is_table v g -> g * 4096 <= b < g * 4096 + 4096 ->
    byte_at (memory v') b = byte_at (memory v) b;
}.

(** Empty tables were added, if anything. *)
Definition grows (v v' : vm) : Prop :=
  keeps v v' /\ forall s q, 0 <= q < 2 ^ 36 -> page v' s q = page v s q.

Lemma keeps_refl v : keeps v v.
Proof. split; auto. Qed.

Lemma keeps_trans v1 v2 v3 : keeps v1 v2 -> keeps v2 v3 -> keeps v1 v3.
Proof.
  intros [A1 A2 A3 A4 A5 AK A6 A7] [B1 B2 B3 B4 B5 BK B6 B7]. split; try congruence; eauto.
  - intros path i Hv Hi. by rewrite BK, AK.
  - intros g Hg. destruct (B6 g Hg) as [Ht | Hn]; [auto | right; auto].
  - intros g b Hg Hn Hb. rewrite (B7 g b); [by apply (A7 g) | auto | | done].
    intros [? | ?]%A6; auto.
Qed.

Lemma grows_refl v : grows v v.
Proof. split; [apply keeps_refl | done]. Qed.

Lemma grows_trans v1 v2 v3 : grows v1 v2 -> grows v2 v3 -> grows v1 v3.
Proof. intros [A A'] [B B']. split; [by apply (keeps_trans v1 v2) | intros s q Hq; by rewrite B', A']. Qed.

#[local] Hint Resolve keeps_refl : wos.

#[local] Hint Resolve grows_refl : wos.

(** ** A fresh table *)

Lemma low_alloc p :
  Pmm.pmm_inv p ->
  let '(a, p') := Pmm.pmm_alloc_frame_low p in
  Pmm.pmm_inv p' /\ Pmm.total_frames p' = Pmm.total_frames p /\
  ((a = 0 /\ (forall g, Pmm.used p' g = Pmm.used p g) /\
    forall g, 0 <= g < Pmm.low_limit p -> Pmm.used p g = true) \/
   exists f, 0 < f < Pmm.total_frames p /\ a = f * 4096 /\ f * 4096 < 2 ^ 30 /\ Pmm.used p f = false /\
     forall g, 0 <= g -> Pmm.used p' g = (Pmm.used p g || (g =? f))%bool).
Proof.
  intros Hp. pose proof Hp as (Hwf & _ & H0). pose proof (Pmm.pmm_alloc_frame_low_cases p Hwf H0) as H.
  destruct (Pmm.pmm_step_inv p _ (Pmm.step_alloc_low p) Hp) as [H1 H2].
  pose proof (Pmm.low_limit_spec p Hwf) as Hl.
  destruct (Pmm.pmm_alloc_frame_low p) as [a p']. split_and!; [done | done |].
  destruct H as [(-> & _ & Hs & Hfull) | (f & Hf & Hlow & Hfree & -> & Ht)]; [by left | right].
  exists f. destruct Ht as (_ & _ & _ & Hu). unfold PAGE_SIZE, Pmm.LOW_MEMORY_LIMIT in *.
  split_and!; try done; lia.
Qed.

(** Low memory is used up. *)
Definition low_full (v : vm) : Prop :=
  forall g, 0 <= g < Pmm.low_limit (frames v) -> Pmm.used (frames v) g = true.

Lemma zeroed_low_frame_spec o v :
  vm_ok o v ->
  let '(r, v') := zeroed_low_frame v in
  grows v v' /\ spaces v' = spaces v /\ kernel_space v' = kernel_space v /\
  match r with
  | None => vm_ok o v' /\ low_full v'
  | Some t => exists f, t = f * 4096 /\ f * 4096 < 2 ^ 30 /\ vm_ok (plus o f) v' /\
      ~ is_table v' f /\ ~ is_page v' f /\ ~ o f /\ ~ in_use v f /\
      (forall j, 0 <= j < 512 -> slot (memory v') t j = 0) /\
      (forall s path, valid path -> table v' s path = table v s path) /\
      (forall s path i, valid path -> 0 <= i < 512 -> entry v' s path i = entry v s path i)
  end.
Proof.
  intros Hok. pose proof (ok_pmm _ _ _ _ Hok) as Hp. unfold zeroed_low_frame.
  pose proof (low_alloc (frames v) Hp) as H. destruct (Pmm.pmm_alloc_frame_low (frames v)) as [a p'].
  destruct H as (Hp' & Ht & [(-> & Hu & Hfull) | (f & Hf & -> & Hlow & Hfree & Hu)]).
  - cbn [Z.eqb]. split; [| split; [done | split; [done | split]]].
    + split; [| done]. split; try done; cbn. { intros g [? ?]. split; [lia | by rewrite Hu]. }
      { intros g Hg. by left. }
    + by apply (ok_used _ _ _ (frames v)).
    + intros g Hg. cbn [frames with_frames]. rewrite Hu. apply Hfull. unfold Pmm.low_limit in *. cbn [frames with_frames] in Hg.
      by rewrite Ht in Hg.
  - destruct (Z.eqb_spec (f * 4096) 0); [lia |].
    destruct (ok_alloc (roots v) o (memory v) (frames v) p' f) as (Hok1 & Hnt & Hnl & Hno); try done.
    assert (Hpf : paged (f * 4096)) by (pose proof (ok_phys _ _ _ _ Hok); split; zlia).
    destruct (ok_bytes (roots v) (plus o f) (memory v) (zero_bytes (f * 4096) PAGE_SIZE (memory v)) p')
      as (Hok2 & HT & HE & HP); [| done |].
    { intros s path t b Hv E Hb. rewrite byte_at_zero_bytes. unfold PAGE_SIZE. case_ifs; [| done].
      destruct Hnt. exists s, path. split; [done |]. rewrite E. f_equal.
      destruct (ok_frame _ _ _ _ Hok s path t Hv E) as ([? ?] & _). zlia. }
    assert (Hnu : ~ in_use v f) by (intros [_ ?]; congruence).
    assert (Hnt' : ~ tabled (roots v) (zero_bytes (f * 4096) PAGE_SIZE (memory v)) f)
      by (intros (s & path & Hv & E); apply Hnt; exists s, path; by rewrite <- HT).
    split; [| split; [done | split; [done |]]].
    + split; [| intros s q _; apply HP]. split; try done; cbn.
      * intros g [? Hg]. split; [lia |]. by rewrite Hu, Hg by lia.
      * intros s path t Hv E. by rewrite HT.
      * intros path i Hv Hi. by apply HE.
      * intros g (s & path & Hv & E). left. exists s, path. by rewrite <- HT.
      * intros g b Hg Hn Hb. rewrite byte_at_zero_bytes. unfold PAGE_SIZE. case_ifs; [| done].
        assert (g = f) as -> by lia. done.
    + exists f. split_and!; try done.
      * intros (a & q & e & Hq & Hs & E & EF). apply Hnl. exists a, q, e. by rewrite <- HP.
      * intros j Hj. by apply slot_zero.
Qed.

(** ** One level down *)

Lemma user_bit flags : Z.land flags PTE_USER = if has flags PTE_USER then PTE_USER else 0.
Proof.
  rewrite has_user. apply Z.bits_inj'. intros n Hn. rewrite Z.land_spec.
  destruct (Z.eqb_spec n 2) as [-> | Hne].
  - by destruct (Z.testbit flags 2).
  - assert (E : Z.testbit PTE_USER n = false).
    { change PTE_USER with (2 ^ 2). apply Z.pow2_bits_false. lia. }
    rewrite E, andb_false_r. destruct (Z.testbit flags 2); [done | by rewrite Z.bits_0].
Qed.

(** A frame with the bits of [fl]. *)
Lemma entry_bits t fl :
  paged t -> 0 <= fl < 4096 ->
  FRAME_OF (Z.lor t fl) = t /\ 0 <= Z.lor t fl < 2 ^ 64 /\
  has (Z.lor t fl) PTE_PRESENT = Z.testbit fl 0 /\ has (Z.lor t fl) PTE_WRITE = Z.testbit fl 1 /\
  has (Z.lor t fl) PTE_USER = Z.testbit fl 2 /\ has (Z.lor t fl) PTE_HUGE = Z.testbit fl 7.
Proof.
  intros Ht Hf. rewrite has_present, has_write, has_user, has_huge, !entry_testbit by (done || lia).
  split; [by apply FRAME_OF_entry |]. split; [by apply entry_range | done].
Qed.

Lemma table_entry t flags :
  has flags PTE_USER = true ->
  Z.lor (Z.lor (Z.lor t PTE_PRESENT) PTE_WRITE) (Z.land flags PTE_USER) = Z.lor t 7.
Proof. intros H. rewrite user_bit, H, <- !Z.lor_assoc. done. Qed.

Lemma next_level_present o v a path t t' i create flags s :
  vm_ok o v -> valid (i :: path) -> shared (i :: path) = false ->
  table v (Space a) path = Some t -> table v (Space a) (i :: path) = Some t' ->
  next_level t i create flags s v = (Some t', v).
Proof.
  intros Hok Hv Hs Et Et'. pose proof Hv as (Hi & Hv' & _)%valid_cons.
  destruct (ok_entry _ _ _ _ Hok a path i Hv Hs) as [_ He].
  rewrite tb_cons in Et'. cbv zeta in Et'. unfold ent in Et', He. rewrite Et in Et', He.
  unfold next_level, read. destruct (has (slot (memory v) t i) PTE_PRESENT) eqn:Ep; [| done].
  cbn [negb]. destruct He as [_ ->]; [done |]. rewrite andb_false_r.
  cbn [andb] in Et'. case_ifs; [by injection Et' as <- | done].
Qed.

Lemma next_level_create o v a path t i flags :
  vm_ok o v -> live v a -> valid path -> (0 < length path < 3)%nat -> shared (i :: path) = false ->
  table v (Space a) path = Some t -> 0 <= i < 512 -> has flags PTE_USER = true ->
  let '(r, v') := next_level t i true flags (Some (Space a)) v in
  grows v v' /\ vm_ok o v' /\
  match r with
  | Some t' => table v' (Space a) (i :: path) = Some t'
  | None => low_full v'
  end.
Proof.
  intros Hok Hlive Hv Hl Hs Et Hi Hu.
  assert (Hvc : valid (i :: path)) by (apply valid_cons; split_and!; done || lia).
  destruct (table v (Space a) (i :: path)) as [t' |] eqn:Et'.
  { rewrite (next_level_present o v a path t t') by done. auto with wos. }
  destruct (ok_entry _ _ _ _ Hok a path i Hvc Hs) as [Hh _].
  rewrite tb_cons in Et'. cbv zeta in Et'. rewrite Hh in Et'.
  destruct (has (entry v (Space a) path i) PTE_PRESENT) eqn:Ep; [done |]. clear Et'.
  unfold next_level, read. pose proof Ep as Ep'. unfold ent in Ep'. rewrite Et in Ep'. rewrite Ep'. cbn [negb].
  pose proof (zeroed_low_frame_spec o v Hok) as Hz. destruct (zeroed_low_frame v) as [[F |] v1].
  2: { destruct Hz as (? & _ & _ & ? & ?). done. }
  destruct Hz as (Hg & Hsp & Hks & f & -> & Hlow & Hok1 & Hnt & Hnl & Hno & Hnu & Hz & HT & HE).
  rewrite table_entry by done. set (x := Z.lor (f * 4096) 7).
  assert (Hin : plus o f f) by (by right).
  assert (Hpf : paged (f * 4096)).
  { destruct (ok_other _ _ _ _ Hok1 f Hin) as [? _]. split; zlia. }
  destruct (entry_bits (f * 4096) 7 Hpf) as (Xf & Xr & Xp & Xw & Xu & Xh); [lia |]. fold x in Xf, Xr, Xp, Xw, Xu, Xh.
  assert (Et1 : table v1 (Space a) path = Some t) by (by rewrite HT).
  destruct (ok_table (roots v1) (plus o f) (memory v1) (frames v1) a path t i x f) as (Hok2 & Hnew & HP & HT2 & HK2); try done.
  { by rewrite HE. }
  set (v2 := write t i x v1). set (v3 := set_space (Space a) (count_table 1 (the_space v2 (Space a))) v2).
  assert (Hlive2 : live v2 a) by (destruct Hg as [Hg _]; apply (g_live _ _ Hg) in Hlive; done).
  assert (R3 : roots v3 = roots v1).
  { transitivity (roots v2); [| done]. apply roots_set_space.
    exists (the_space v2 (Space a)). split; [by apply lookup_live | done]. }
  assert (M3 : memory v3 = put_slot (memory v1) t i x) by (unfold v3; by rewrite memory_set_space).
  assert (F3 : frames v3 = frames v1) by (unfold v3; by rewrite frames_set_space).
  assert (HT3 : forall s path', valid path' -> table v3 s path' =
    if decide (s = Space a /\ path' = i :: path) then Some (f * 4096) else table v s path').
  { intros s path' Hv'. rewrite R3, M3, HT2, HT by done. done. }
  split; [| split].
  - destruct Hg as [[G1 G2 G3 G4 G5 GK G6 G7] G8].
    split; [| intros s q Hq; rewrite R3, M3, HP; by apply G8]. split.
    + congruence.
    + exact G2.
    + intros a' Ha'. destruct (G3 a' Ha') as [y Ey]. unfold live, v3. cbn. destruct (decide (a' = a)) as [-> |].
      * rewrite lookup_insert_eq. by eexists.
      * rewrite lookup_insert_ne by done. by exists y.
    + rewrite F3. done.
    + intros s path' t' Hv' E. rewrite HT3 by done. rewrite decide_False; [done |]. intros [-> ->].
      rewrite tb_cons in E. cbv zeta in E. by rewrite Ep in E.
    + intros path' j Hv' Hj. rewrite R3, M3, HK2 by done. by apply GK.
    + intros g (s & path' & Hv' & E). rewrite HT3 in E by done. case_decide.
      * injection E as E. assert (g = f) as -> by lia. by right.
      * left. by exists s, path'.
    + intros g b Hg' Hn Hb. rewrite M3, byte_at_put_slot; [by apply (G7 g) | done |].
      destruct (ok_frame _ _ _ _ Hok _ _ _ Hv Et) as (Hpt & _).
      destruct (decide (g * 4096 = t)) as [E |]; [destruct Hn; by exists (Space a), path; rewrite E |].
      destruct Hpt. zlia.
  - unfold vm_ok. rewrite R3, M3, F3. eapply ok_iff; [| done]. intros g. unfold minus, plus. naive_solver.
  - rewrite HT3 by done. by rewrite decide_True.
Qed.

(** ** The walk to a page of user space *)

Definition user_addr (virt : Z) : Prop := USER_BASE <= virt < DEVICE_WINDOW.
Definition user_page (q : Z) : Prop := 2 ^ 18 <= q < 3 * 2 ^ 18.

Lemma user_addr_page virt : user_addr virt <-> user_page (virt / 4096).
Proof. unfold user_addr, user_page, USER_BASE, DEVICE_WINDOW. split; intros; zlia. Qed.

Lemma user_page_path q : user_page q -> 0 <= q < 2 ^ 36 /\ shared (path_of q) = false /\
  exists j k, path_of q = [j; k; 0] /\ shared [k; 0] = false /\ 0 <= j < 512 /\ 0 <= k < 512.
Proof.
  unfold user_page, path_of. intros Hq. split; [lia |].
  replace ((q / 2 ^ 27) `mod` 512) with 0 by zlia.
  assert (Hk : (q / 2 ^ 18) `mod` 512 = 1 \/ (q / 2 ^ 18) `mod` 512 = 2) by zlia.
  assert (Hj : 0 <= (q / 512) `mod` 512 < 512) by (apply Z.mod_pos_bound; lia).
  split; [by destruct Hk as [-> | ->] |]. eexists _, _. split; [done |].
  destruct Hk as [-> | ->]; split_and!; done || lia.
Qed.

Lemma valid2 k : 0 <= k < 512 -> valid [k; 0].
Proof. intros. repeat (apply valid_cons; split_and!; [lia | lia | | cbn; lia]). apply valid_nil. Qed.

Lemma valid1 : valid [0].
Proof. apply valid_cons; split_and!; [lia | lia | apply valid_nil | cbn; lia]. Qed.

Lemma top_table o v a :
  vm_ok o v -> live v a -> exists d, table v (Space a) [] = Some (root v (Space a)) /\ table v (Space a) [0] = Some d.
Proof.
  intros Hok Hl. pose proof (roots_space v a Hl) as Hr.
  destruct (ok_borrow _ _ _ _ Hok a _ Hr) as [[d Hd] _]. exists d. split; [| done].
  unfold tb. by rewrite Hr.
Qed.

Lemma user_index virt :
  user_addr virt -> exists j k, PML4_INDEX virt = 0 /\ PDPT_INDEX virt = k /\ PD_INDEX virt = j /\
    path_of (virt / 4096) = [j; k; 0] /\ shared [j; k; 0] = false /\ shared [k; 0] = false /\
    0 <= j < 512 /\ 0 <= k < 512.
Proof.
  intros Hu. destruct (path_of_index virt) as (Ep & _ & _).
  { unfold user_addr, USER_BASE, DEVICE_WINDOW in Hu. lia. }
  apply user_addr_page, user_page_path in Hu as (Hq & Hs & j & k & Eq & Hk & Hj & Hk').
  rewrite Eq in Ep, Hs. injection Ep as E1 E2 E3. exists j, k. done.
Qed.

Lemma walk_create o v a virt flags :
  vm_ok o v -> live v a -> user_addr virt -> has flags PTE_USER = true ->
  let '(r, v') := walk_to_pt (Space a) virt true flags v in
  grows v v' /\ vm_ok o v' /\
  match r with
  | Some t => table v' (Space a) (path_of (virt / 4096)) = Some t
  | None => low_full v'
  end.
Proof.
  intros Hok Hl Hu Hf. destruct (user_index virt Hu) as (j & k & E1 & E2 & E3 & -> & Hs & Hs2 & Hj & Hk).
  unfold walk_to_pt. rewrite E1, E2, E3. destruct (top_table o v a Hok Hl) as (d & Er & Ed).
  rewrite (next_level_present o v a [] (root v (Space a)) d) by (done || apply valid1).
  pose proof (next_level_create o v a [0] d k flags Hok Hl valid1 ltac:(cbn; lia) Hs2 Ed Hk Hf) as H1.
  destruct (next_level d k true flags (Some (Space a)) v) as [[pd |] v1]; [| done].
  destruct H1 as (G1 & Hok1 & Epd). pose proof (g_live _ _ (proj1 G1) a Hl) as Hl1.
  destruct (ok_entry _ _ _ _ Hok1 a [k; 0] j) as [Hh _]; [apply valid_cons; split_and!; [lia | lia | by apply valid2 | cbn; lia] | done |].
  unfold ent in Hh. rewrite Epd in Hh. unfold read. rewrite Hh.
  pose proof (next_level_create o v1 a [k; 0] pd j flags Hok1 Hl1 (valid2 k Hk) ltac:(cbn; lia) Hs Epd Hj Hf) as H2.
  destruct (next_level pd j true flags (Some (Space a)) v1) as [r v2]. destruct H2 as (G2 & Hok2 & Hr).
  split; [by apply (grows_trans v v1) | done].
Qed.

(** Looking without creating reads and writes nothing. *)
Lemma next_level_look o v a path t i s :
  vm_ok o v -> valid (i :: path) -> shared (i :: path) = false -> table v (Space a) path = Some t ->
  next_level t i false 0 s v = (table v (Space a) (i :: path), v).
Proof.
  intros Hok Hv Hs Et. destruct (table v (Space a) (i :: path)) as [t' |] eqn:Et'.
  { by apply (next_level_present o v a path). }
  destruct (ok_entry _ _ _ _ Hok a path i Hv Hs) as [Hh _].
  rewrite tb_cons in Et'. cbv zeta in Et'. rewrite Hh in Et'.
  destruct (has (entry v (Space a) path i) PTE_PRESENT) eqn:Ep; [done |].
  unfold next_level, read. unfold ent in Ep. rewrite Et in Ep. by rewrite Ep.
Qed.

Lemma valid3 j k : 0 <= j < 512 -> 0 <= k < 512 -> valid [j; k; 0].
Proof. intros. apply valid_cons; split_and!; [lia | lia | by apply valid2 | cbn; lia]. Qed.

Lemma table_None v s i path : table v s path = None -> table v s (i :: path) = None.
Proof. intros E. rewrite tb_cons. unfold ent. by rewrite E. Qed.

Lemma walk_look o v a virt :
  vm_ok o v -> live v a -> user_addr virt ->
  walk_to_pt (Space a) virt false 0 v = (table v (Space a) (path_of (virt / 4096)), v).
Proof.
  intros Hok Hl Hu. destruct (user_index virt Hu) as (j & k & E1 & E2 & E3 & -> & Hs & Hs2 & Hj & Hk).
  unfold walk_to_pt. rewrite E1, E2, E3. destruct (top_table o v a Hok Hl) as (d & Er & Ed).
  rewrite (next_level_present o v a [] (root v (Space a)) d) by (done || apply valid1).
  rewrite (next_level_look o v a [0] d k) by (done || by apply valid2).
  destruct (table v (Space a) [k; 0]) as [pd |] eqn:Epd; [| by rewrite table_None].
  destruct (ok_entry _ _ _ _ Hok a [k; 0] j) as [Hh _]; [by apply valid3 | done |].
  unfold ent in Hh. rewrite Epd in Hh. unfold read. rewrite Hh.
  by apply (next_level_look o v a [k; 0]); [| apply valid3 | |].
Qed.

(** ** The processor's view *)

(** Table and entry in hand, the next word of the walk. *)
Lemma entry_at v s path t i : table v s path = Some t -> slot (memory v) t i = entry v s path i.
Proof. intros E. unfold ent. by rewrite E. Qed.

Lemma table_at v s i path :
  has (entry v s path i) PTE_PRESENT = true -> has (entry v s path i) PTE_HUGE = false ->
  table v s (i :: path) = Some (FRAME_OF (entry v s path i)).
Proof. intros E1 E2. rewrite tb_cons. cbv zeta. by rewrite E1, E2. Qed.

Lemma entry_below v s i path j : has (entry v s path i) PTE_PRESENT = false -> entry v s (i :: path) j = 0.
Proof. intros E. unfold ent at 1. rewrite tb_cons. cbv zeta. by rewrite E. Qed.

(** Addresses a space does not borrow from the kernel. *)
Definition own_addr (virt : Z) : Prop := 0 <= virt < 2 ^ 39 /\ shared (path_of (virt / 4096)) = false.

Lemma own_index virt :
  own_addr virt -> exists j k, PML4_INDEX virt = 0 /\ PDPT_INDEX virt = k /\ PD_INDEX virt = j /\
    path_of (virt / 4096) = [j; k; 0] /\ shared [j; k; 0] = false /\ shared [k; 0] = false /\
    0 <= j < 512 /\ 0 <= k < 512.
Proof.
  intros [Hv Hs]. destruct (path_of_index virt) as (Ep & _ & _); [lia |].
  assert (E0 : PML4_INDEX virt = 0) by (unfold PML4_INDEX; rewrite index_spec by lia; zlia).
  destruct (index_range virt) as (_ & Hk & Hj & _). rewrite Ep, E0 in Hs. rewrite E0 in Ep.
  eexists _, _. split_and!; try done; lia.
Qed.

Lemma user_own virt : user_addr virt -> own_addr virt.
Proof.
  intros Hu. split; [unfold user_addr, USER_BASE, DEVICE_WINDOW in Hu; lia |].
  by apply user_addr_page, user_page_path in Hu as (_ & ? & _).
Qed.

Lemma mmu_own o v a virt :
  vm_ok o v -> live v a -> own_addr virt ->
  mmu (memory v) (root v (Space a)) virt =
  (fun e => Access (FRAME_OF e + virt `mod` 4096) (has e PTE_WRITE) (has e PTE_USER)) <$>
    page v (Space a) (virt / 4096).
Proof.
  intros Hok Hl Hu. destruct (own_index virt Hu) as (j & k & E1 & E2 & E3 & Eq & Hs & Hs2 & Hj & Hk).
  destruct (path_of_index virt) as (_ & E4 & _). { destruct Hu. lia. }
  destruct (top_table o v a Hok Hl) as (d & Er & Ed).
  unfold mmu. replace (canonical virt) with true; last first.
  { destruct Hu. symmetry. apply orb_true_iff. left. apply Z.ltb_lt. lia. }
  cbn [negb]. rewrite E1, E2, E3, <- E4, (entry_at v (Space a) [] _ 0 Er).
  destruct (ok_entry _ _ _ _ Hok a [] 0 valid1 eq_refl) as [H4 H4'].
  pose proof Ed as Ed'. rewrite tb_cons in Ed'. cbv zeta in Ed'. rewrite H4 in Ed'.
  destruct (has (entry v (Space a) [] 0) PTE_PRESENT); [| done]. injection Ed' as ->. cbn [negb].
  destruct H4' as [-> ->]; [done |]. rewrite (entry_at v (Space a) [0] d k Ed).
  unfold pte. rewrite Eq.
  destruct (ok_entry _ _ _ _ Hok a [0] k (valid2 k Hk) Hs2) as [H3 H3'].
  destruct (has (entry v (Space a) [0] k) PTE_PRESENT) eqn:P3; cbn [negb]; last first.
  { assert (table v (Space a) [k; 0] = None) as E by (rewrite tb_cons; cbv zeta; by rewrite P3).
    unfold ent. by rewrite (table_None _ _ j _ E). }
  destruct H3' as [-> ->]; [done |]. rewrite H3. cbn [andb].
  pose proof (table_at v (Space a) k [0] P3 H3) as T2. rewrite (entry_at v _ _ _ j T2).
  destruct (ok_entry _ _ _ _ Hok a [k; 0] j (valid3 j k Hj Hk) Hs) as [H2 H2'].
  destruct (has (entry v (Space a) [k; 0] j) PTE_PRESENT) eqn:P2; cbn [negb]; last first.
  { by rewrite (entry_below _ _ _ _ _ P2). }
  destruct H2' as [-> ->]; [done |]. rewrite H2. cbn [andb].
  pose proof (table_at v (Space a) j [k; 0] P2 H2) as T1. rewrite (entry_at v _ _ _ _ T1).
  destruct (has (entry v (Space a) [j; k; 0] ((virt / 4096) `mod` 512)) PTE_PRESENT); [| done].
  cbn. rewrite offset_spec, lor_offset; [done | apply FRAME_OF_paged | apply Z.mod_pos_bound; lia].
Qed.

Lemma mmu_user o v a virt :
  vm_ok o v -> live v a -> user_addr virt ->
  mmu (memory v) (root v (Space a)) virt =
  (fun e => Access (FRAME_OF e + virt `mod` 4096) (has e PTE_WRITE) (has e PTE_USER)) <$>
    page v (Space a) (virt / 4096).
Proof. intros Hok Hl Hu. apply (mmu_own o); [done | done | by apply user_own]. Qed.

(** What ring 3 reaches is a page of the space's own. *)
Lemma mmu_reach o v a virt x :
  vm_ok o v -> live v a -> 0 <= virt < 2 ^ 47 ->
  mmu (memory v) (root v (Space a)) virt = Some x -> user x = true ->
  own_addr virt /\ exists e, page v (Space a) (virt / 4096) = Some e /\
    phys x = FRAME_OF e + virt `mod` 4096 /\ writable x = has e PTE_WRITE.
Proof.
  intros Hok Hl Hv E Hu.
  assert (Ho : own_addr virt).
  { revert E. destruct (top_table o v a Hok Hl) as (d & Er & Ed). destruct (index_range virt) as (I4 & I3 & _).
    unfold mmu. replace (canonical virt) with true by (symmetry; apply orb_true_iff; left; apply Z.ltb_lt; lia). cbn [negb].
    rewrite (entry_at v (Space a) [] _ _ Er).
    destruct (has (entry v (Space a) [] (PML4_INDEX virt)) PTE_PRESENT) eqn:P4; [| done]. cbn [negb].
    pose proof (ok_top _ _ _ _ Hok a _ I4 P4) as E4.
    assert (Hlow : virt < 2 ^ 39) by (unfold PML4_INDEX in E4; rewrite index_spec in E4 by lia; zlia).
    rewrite E4 in P4 |- *. destruct (ok_entry _ _ _ _ Hok a [] 0 valid1 eq_refl) as [H4 _].
    rewrite (entry_at v _ _ _ (PDPT_INDEX virt) (table_at v (Space a) 0 [] P4 H4)).
    destruct (path_of_index virt) as (Ep & _); [lia |]. intros E. split; [lia |]. rewrite Ep, E4.
    destruct (shared [PD_INDEX virt; PDPT_INDEX virt; 0]) eqn:Hs; [exfalso | done]. cbn in Hs.
    assert (PDPT_INDEX virt = 0 \/ PDPT_INDEX virt = 3) as Hk by (apply orb_true_iff in Hs as [?%Z.eqb_eq | ?%Z.eqb_eq]; auto).
    destruct (ok_borrow _ _ _ _ Hok a _ (roots_space v a Hl)) as [_ Hb]. rewrite (Hb _ Hk) in E.
    destruct (ok_super _ _ _ _ Hok _ Hk) as (U3 & H3 & _). rewrite U3, H3, andb_false_r in E. cbn [andb] in E.
    revert E. repeat case_if; intros [= <-]; done. }
  split; [done |]. rewrite (mmu_own o) in E by done.
  destruct (page v (Space a) (virt / 4096)) as [e |]; [| done]. exists e. injection E as <-. done.
Qed.

(** In user space [paging_translate] and the processor agree. *)
Lemma paging_translate_user o v a virt :
  vm_ok o v -> live v a -> user_addr virt ->
  paging_translate (Space a) virt v =
  from_option (fun e => FRAME_OF e + virt `mod` 4096) 0 (page v (Space a) (virt / 4096)).
Proof.
  intros Hok Hl Hu. destruct (user_index virt Hu) as (j & k & E1 & E2 & E3 & Eq & Hs & Hs2 & Hj & Hk).
  destruct (path_of_index virt) as (_ & E4 & _). { unfold user_addr, USER_BASE, DEVICE_WINDOW in Hu. lia. }
  destruct (top_table o v a Hok Hl) as (d & Er & Ed). unfold paging_translate. rewrite E1, E2, E3, <- E4.
  rewrite (next_level_present o v a [] (root v (Space a)) d) by (done || apply valid1).
  rewrite (next_level_look o v a [0] d k) by (done || by apply valid2). unfold pte. rewrite Eq.
  destruct (table v (Space a) [k; 0]) as [pd |] eqn:Epd.
  2: { unfold ent. by rewrite (table_None _ _ j _ Epd). }
  unfold read. rewrite (entry_at v _ _ _ j Epd).
  destruct (ok_entry _ _ _ _ Hok a [k; 0] j (valid3 j k Hj Hk) Hs) as [H2 H2'].
  destruct (has (entry v (Space a) [k; 0] j) PTE_PRESENT) eqn:P2; cbn [negb].
  2: { by rewrite (entry_below _ _ _ _ _ P2). }
  rewrite H2. pose proof (table_at v (Space a) j [k; 0] P2 H2) as T1. rewrite (entry_at v _ _ _ _ T1).
  destruct (has (entry v (Space a) [j; k; 0] ((virt / 4096) `mod` 512)) PTE_PRESENT); [| done].
  cbn. rewrite offset_spec, lor_offset; [done | apply FRAME_OF_paged | apply Z.mod_pos_bound; lia].
Qed.

(** A page is mapped exactly when it has an address: frame 0 backs none. *)
Lemma page_frame_pos o v a q e :
  vm_ok o v -> user_page q -> page v (Space a) q = Some e -> 4096 <= FRAME_OF e /\ FRAME_OF e + 4096 <= 2 ^ 52.
Proof.
  intros Hok Hq E. destruct (user_page_path q Hq) as (Hr & Hs & _).
  destruct (ok_leaf _ _ _ _ Hok a q e Hr Hs E) as [[? _] _].
  destruct (FRAME_OF_paged e). zlia.
Qed.

(** The software check of a user pointer is the hardware's. *)
Lemma user_can_access_mmu o v a virt w :
  vm_ok o v -> live v a -> 0 <= virt < 2 ^ 47 ->
  paging_user_can_access (Space a) virt w v =
  match mmu (memory v) (root v (Space a)) virt with
  | Some x => (user x && (negb w || writable x))%bool
  | None => false
  end.
Proof.
  intros Hok Hl Hv. destruct (top_table o v a Hok Hl) as (d & Er & Ed).
  destruct (index_range virt) as (I4 & I3 & I2 & I1). unfold paging_user_can_access, mmu, read.
  replace (canonical virt) with true by (symmetry; apply orb_true_iff; left; apply Z.ltb_lt; lia). cbn [negb].
  rewrite (entry_at v (Space a) [] _ _ Er).
  destruct (has (entry v (Space a) [] (PML4_INDEX virt)) PTE_PRESENT) eqn:P4; [| done].
  pose proof (ok_top _ _ _ _ Hok a _ I4 P4) as E4. rewrite E4 in P4 |- *. clear E4 I4.
  destruct (ok_entry _ _ _ _ Hok a [] 0 valid1 eq_refl) as [H4 [W4 U4]]; [done |]. rewrite W4, U4. cbn [negb orb andb].
  pose proof (table_at v (Space a) 0 [] P4 H4) as T3. set (k := PDPT_INDEX virt) in *.
  rewrite (entry_at v _ _ _ k T3). destruct (has (entry v (Space a) [0] k) PTE_PRESENT) eqn:P3; [| done]. cbn [negb orb].
  destruct (shared [k; 0]) eqn:Hs.
  { cbn in Hs. assert (k = 0 \/ k = 3) as Hk by (apply orb_true_iff in Hs as [?%Z.eqb_eq | ?%Z.eqb_eq]; auto).
    destruct (ok_borrow _ _ _ _ Hok a _ (roots_space v a Hl)) as [_ Hb]. rewrite (Hb k Hk).
    destruct (ok_super _ _ _ _ Hok k Hk) as (-> & -> & _). cbn [negb andb]. by repeat case_if. }
  destruct (ok_entry _ _ _ _ Hok a [0] k (valid2 k I3) Hs) as [H3 [W3 U3]]; [done |]. rewrite H3, W3, U3. cbn [negb andb].
  pose proof (table_at v (Space a) k [0] P3 H3) as T2. set (j := PD_INDEX virt) in *. rewrite (entry_at v _ _ _ j T2).
  destruct (has (entry v (Space a) [k; 0] j) PTE_PRESENT) eqn:P2; [| done]. cbn [negb orb].
  destruct (ok_entry _ _ _ _ Hok a [k; 0] j (valid3 j k I2 I3) Hs) as [H2 [W2 U2]]; [done |]. rewrite H2, W2, U2. cbn [negb andb].
  pose proof (table_at v (Space a) j [k; 0] P2 H2) as T1. rewrite (entry_at v _ _ _ _ T1).
  destruct (has (entry v (Space a) [j; k; 0] (PT_INDEX virt)) PTE_PRESENT); [| done]. cbn.
  by destruct (has (entry v (Space a) [j; k; 0] (PT_INDEX virt)) PTE_USER).
Qed.

(** ** Mapping a page *)

Definition leaf_of (phys flags : Z) : Z :=
  Z.lor (Z.lor (FRAME_OF phys) (Z.land flags (Z.lor PTE_WRITE PTE_USER))) PTE_PRESENT.

Lemma leaf_of_bits phys flags :
  FRAME_OF (leaf_of phys flags) = FRAME_OF phys /\ 0 <= leaf_of phys flags < 2 ^ 64 /\
  has (leaf_of phys flags) PTE_PRESENT = true /\
  has (leaf_of phys flags) PTE_WRITE = has flags PTE_WRITE /\ has (leaf_of phys flags) PTE_USER = has flags PTE_USER.
Proof.
  unfold leaf_of. rewrite <- Z.lor_assoc. set (fl := Z.lor (Z.land flags (Z.lor PTE_WRITE PTE_USER)) PTE_PRESENT).
  assert (Hl : forall n, Z.testbit fl n = ((Z.testbit flags n && Z.testbit 6 n) || Z.testbit 1 n)%bool)
    by (intros n; unfold fl; rewrite Z.lor_spec, Z.land_spec; done).
  assert (Hr : 0 <= fl < 4096).
  { assert (E : fl `mod` 2 ^ 12 = fl).
    { apply Z.bits_inj'. intros n Hn. destruct (Z.ltb_spec n 12).
      - by apply Z.mod_pow2_bits_low.
      - rewrite Z.mod_pow2_bits_high by lia. rewrite Hl, (testbit_high 12 6 n), (testbit_high 12 1 n), andb_false_r by lia. done. }
    rewrite <- E. apply Z.mod_pos_bound. lia. }
  destruct (entry_bits (FRAME_OF phys) fl (FRAME_OF_paged phys) Hr) as (? & ? & E0 & E1 & E2 & _).
  rewrite E0, E1, E2, !Hl, has_write, has_user. split_and!; try done; try lia.
  - by destruct (Z.testbit flags 0).
  - by destruct (Z.testbit flags 1).
  - by destruct (Z.testbit flags 2).
Qed.

(** A table or page of the grown state. *)
Lemma grows_leafed v v' g : grows v v' -> is_page v' g -> is_page v g.
Proof. intros [_ H] (a & q & e & Hq & Hs & E & EF). exists a, q, e. by rewrite <- H. Qed.

Lemma paging_map_user o o' v a virt flags f :
  vm_ok o v -> live v a -> user_addr virt -> has flags PTE_USER = true ->
  page v (Space a) (virt / 4096) = None -> o f -> ~ is_table v f ->
  (forall h, o' h -> o h) -> (forall h, o h -> h <> f -> o' h) -> o' f \/ ~ is_page v f ->
  exists b v', paging_map (Space a) virt (f * 4096) flags v = Ret (b, v') /\ keeps v v' /\
  if b : bool
  then vm_ok o' v' /\ forall s q, 0 <= q < 2 ^ 36 -> page v' s q =
         if decide (s = Space a /\ q = virt / 4096) then Some (leaf_of (f * 4096) flags) else page v s q
  else vm_ok o v' /\ low_full v' /\ forall s q, 0 <= q < 2 ^ 36 -> page v' s q = page v s q.
Proof.
  intros Hok Hl Hu Hf Hnone Hof Hnt Ho1 Ho2 Hor. unfold paging_map.
  pose proof (walk_create o v a virt flags Hok Hl Hu Hf) as Hw.
  destruct (walk_to_pt (Space a) virt true flags v) as [[t |] v1].
  2: { destruct Hw as ((Hk & HP) & ? & ?). exists false, v1. done. }
  destruct Hw as (Hg & Hok1 & Et). pose proof (proj1 Hg) as Hk.
  destruct (path_of_index virt) as (_ & <- & Hq). { unfold user_addr, USER_BASE, DEVICE_WINDOW in Hu. lia. }
  apply user_addr_page, user_page_path in Hu as (_ & Hs & _). set (q := virt / 4096) in *.
  assert (Hnone1 : page v1 (Space a) q = None) by (rewrite (proj2 Hg) by done; done).
  pose proof Hnone1 as Hnp. unfold pte in Hnp. unfold read. rewrite (entry_at v1 _ _ _ _ Et).
  destruct (has (entry v1 (Space a) (path_of q) (q `mod` 512)) PTE_PRESENT); [done |]. rewrite Hf.
  fold (leaf_of (f * 4096) flags). set (x := leaf_of (f * 4096) flags).
  destruct (leaf_of_bits (f * 4096) flags) as (Xf & Xr & Xp & _). fold x in Xf, Xr, Xp.
  assert (Hpf : paged (f * 4096)).
  { destruct (ok_other _ _ _ _ Hok f Hof) as [? _]. pose proof (ok_phys _ _ _ _ Hok). split; zlia. }
  rewrite (FRAME_OF_id (f * 4096)) in Xf by done.
  set (v2 := write t (q `mod` 512) x v1). set (v3 := set_space (Space a) (count_user 1 (the_space v2 (Space a))) v2).
  assert (Hl1 : live v1 a) by (by apply (g_live _ _ Hk)).
  assert (R3 : roots v3 = roots v1).
  { transitivity (roots v2); [| done]. apply roots_set_space.
    exists (the_space v2 (Space a)). split; [by apply lookup_live | done]. }
  assert (Hnt1 : ~ is_table v1 f).
  { intros [? | Hn]%(g_new _ _ Hk); [done |]. by apply Hn, (ok_other _ _ _ _ Hok). }
  assert (Hok3 : ok (roots v1) o' (m_page (memory v1) q t x) (frames v1)).
  { apply (ok_map (roots v1) o (memory v1) (frames v1) a q t x Hok1 Hq Hs Et Xr o' f); try done.
    destruct Hor as [? | Hn]; [by left | right]. intros Hp%(grows_leafed v v1 f Hg). done. }
  destruct (put_page (roots v1) o (memory v1) (frames v1) a q t x Hok1 Hq Hs Et Xr) as (HT & HE & HP).
  exists true, v3. split; [done |]. split; [apply (keeps_trans v v1); [done |] | split].
  - split; rewrite ?R3; try done.
    + intros a' [y Ey]. unfold live, v3. cbn. destruct (decide (a' = a)) as [-> |].
      * rewrite lookup_insert_eq. by eexists.
      * rewrite lookup_insert_ne by done. by exists y.
    + intros s path t' Hv E. etransitivity; [by apply HT | done].
    + intros path j Hv Hj. apply HE; auto.
    + intros g (s & path & Hv & E). left. exists s, path. split; [done |]. rewrite <- E. symmetry. by apply HT.
    + intros g b Hg' Hn Hb. cbn [memory v3 set_space with_spaces v2 write with_memory]. apply byte_at_put_slot; [apply index_of_page |].
      destruct (ok_frame _ _ _ _ Hok1 _ _ _ (path_of_valid q) Et) as ([? ?] & _).
      destruct (decide (g * 4096 = t)) as [E |]; [destruct Hn; exists (Space a), (path_of q); rewrite E; by split; [apply path_of_valid |] |]. zlia.
  - unfold vm_ok. rewrite R3. exact Hok3.
  - intros s q' Hq'. rewrite R3. etransitivity; [by apply HP |]. rewrite Xp. case_decide; [done |].
    by apply (proj2 Hg).
Qed.

(** ** Storing through user addresses *)

(** Where byte [i] past [virt] is. *)
Definition backed (v : vm) (a virt i pa : Z) : Prop :=
  user_addr (virt + i) /\
  exists e, page v (Space a) ((virt + i) / 4096) = Some e /\ pa = FRAME_OF e + (virt + i) `mod` 4096.

Lemma page_not_table o v a q e pa s path t :
  vm_ok o v -> user_page q -> page v (Space a) q = Some e ->
  FRAME_OF e <= pa < FRAME_OF e + 4096 -> valid path -> table v s path = Some t -> ~ t <= pa < t + 4096.
Proof.
  intros Hok Hq E Hpa Hv Et Hb. destruct (user_page_path q Hq) as (Hr & Hs & _).
  destruct (ok_leaf _ _ _ _ Hok a q e Hr Hs E) as [_ Hn]. apply (Hn s path Hv). rewrite Et. f_equal.
  destruct (FRAME_OF_paged e), (ok_frame _ _ _ _ Hok s path t Hv Et) as ([? ?] & _). zlia.
Qed.

Lemma vfill_user o v a virt b (pa val : Z -> Z) n :
  vm_ok o v -> live v a ->
  (forall i, 0 <= i < Z.of_nat n -> backed v a virt i (pa i)) ->
  (forall i j, 0 <= i < Z.of_nat n -> 0 <= j < Z.of_nat n -> pa i = pa j -> i = j) ->
  (forall m i, 0 <= i < Z.of_nat n ->
     (forall x, (forall j, 0 <= j < Z.of_nat n -> pa j <> x) -> byte_at m x = byte_at (memory v) x) ->
     b m i = Some (val i)) ->
  exists m', vfill n (root v (Space a)) virt b (memory v) = Ret m' /\ vm_ok o (with_memory m' v) /\
    (forall s path, valid path -> table (with_memory m' v) s path = table v s path) /\
    (forall s path i, valid path -> 0 <= i < 512 -> entry (with_memory m' v) s path i = entry v s path i) /\
    (forall s q, page (with_memory m' v) s q = page v s q) /\
    (forall i, 0 <= i < Z.of_nat n -> byte_at m' (pa i) = val i) /\
    (forall x, (forall i, 0 <= i < Z.of_nat n -> pa i <> x) -> byte_at m' x = byte_at (memory v) x).
Proof.
  intros Hok Hl. induction n as [| n IH]; intros Hpa Hinj Hb; cbn [vfill].
  { exists (memory v). split_and!; try done; lia. }
  destruct IH as (m1 & -> & Hok1 & HT & HE & HP & Hval & Hout).
  { intros i Hi. apply Hpa. lia. } { intros i j Hi Hj. apply Hinj; lia. }
  { intros m i Hi Hm. apply Hb; [lia |]. intros x Hx. apply Hm. intros j Hj. apply Hx. lia. }
  rewrite (Hb m1 (Z.of_nat n)); [| lia | intros x Hx; apply Hout; intros j Hj; apply Hx; lia]. cbn [mbind option_bind].
  destruct (Hpa (Z.of_nat n)) as (Hu & e & Ee & Epa); [lia |].
  assert (Ew : u64 (virt + Z.of_nat n) = virt + Z.of_nat n).
  { apply u64_id. unfold user_addr, USER_BASE, DEVICE_WINDOW in Hu. lia. }
  unfold vstore. rewrite Ew. pose proof (mmu_user o (with_memory m1 v) a (virt + Z.of_nat n) Hok1 Hl Hu) as Hmmu.
  change (root (with_memory m1 v) (Space a)) with (root v (Space a)) in Hmmu.
  change (memory (with_memory m1 v)) with m1 in Hmmu. rewrite Hmmu.
  change (pte (roots (with_memory m1 v)) m1) with (page (with_memory m1 v)). rewrite HP, Ee. cbn [fmap option_fmap option_map phys].
  rewrite <- Epa. set (m2 := <[pa (Z.of_nat n) := val (Z.of_nat n)]> m1).
  destruct (ok_bytes (roots v) o m1 m2 (frames v)) as (Hok2 & HT2 & HE2 & HP2); [| done |].
  { intros s path t x Hv Et Hx. unfold m2. rewrite byte_at_insert. destruct (Z.eqb_spec (pa (Z.of_nat n)) x) as [<- |]; [| done].
    exfalso. revert Hx. apply (page_not_table o (with_memory m1 v) a ((virt + Z.of_nat n) / 4096) e _ s path t); try done.
    - by apply user_addr_page.
    - rewrite HP. done.
    - rewrite Epa. pose proof (Z.mod_pos_bound (virt + Z.of_nat n) 4096). lia. }
  exists m2. split; [done |]. split; [done |]. split; [| split; [| split; [| split]]].
  - intros s path Hv. etransitivity; [by apply HT2 | by apply HT].
  - intros s path i Hv Hi. etransitivity; [by apply HE2 | by apply HE].
  - intros s q. etransitivity; [apply HP2 | apply HP].
  - intros i Hi. unfold m2. rewrite byte_at_insert. destruct (Z.eqb_spec (pa (Z.of_nat n)) (pa i)) as [E | Hne].
    + assert (i = Z.of_nat n) as -> by (symmetry; apply Hinj; done || lia). done.
    + apply Hval. destruct (decide (i = Z.of_nat n)) as [-> |]; [done | lia].
  - intros x Hx. unfold m2. rewrite byte_at_insert. destruct (Z.eqb_spec (pa (Z.of_nat n)) x) as [E | _].
    + exfalso. apply (Hx (Z.of_nat n)); [lia | done].
    + apply Hout. intros i Hi. apply Hx. lia.
Qed.

(** ** Mapping a fresh page *)

(** Processor [c] has space [a] loaded. *)
Definition loaded (c : nat) (a : Z) (v : vm) : Prop :=
  cpus v !!! c = Cpu (Some (Space a)) (root v (Space a)).

Lemma root_keeps v v' s : roots v' = roots v -> (exists x, lookup_space v s = Some x) ->
  (exists x, lookup_space v' s = Some x) -> root v' s = root v s.
Proof.
  intros E [x Ex] [y Ey]. assert (roots v' s = roots v s) as H by (by rewrite E).
  unfold roots, rt, root, the_space in *. rewrite Ex, Ey. destruct s as [| a]; cbn in *.
  - injection Ex as <-. injection Ey as <-. by injection H.
  - rewrite !lookup_fmap, Ex, Ey in H. by injection H.
Qed.

Lemma loaded_keeps c a v v' : live v a -> keeps v v' -> loaded c a v -> loaded c a v'.
Proof.
  unfold loaded. intros Hl Hk E. rewrite (g_cpus _ _ Hk), E. f_equal. symmetry.
  apply root_keeps; [apply (g_roots _ _ Hk) | by destruct Hl as [x ?]; exists x |].
  apply (g_live _ _ Hk) in Hl as [x ?]. by exists x.
Qed.

Lemma any_alloc p :
  Pmm.pmm_inv p ->
  let '(a, p') := Pmm.pmm_alloc_frame p in
  Pmm.pmm_inv p' /\ Pmm.total_frames p' = Pmm.total_frames p /\
  ((a = 0 /\ (forall g, Pmm.used p' g = Pmm.used p g) /\
    forall g, 0 <= g < Pmm.total_frames p -> Pmm.used p g = true) \/
   exists f, 0 < f < Pmm.total_frames p /\ a = f * 4096 /\ Pmm.used p f = false /\
     forall g, 0 <= g -> Pmm.used p' g = (Pmm.used p g || (g =? f))%bool).
Proof.
  intros Hp. pose proof Hp as (Hwf & _ & H0). pose proof (Pmm.pmm_alloc_frame_cases p Hwf H0) as H.
  destruct (Pmm.pmm_step_inv p _ (Pmm.step_alloc p) Hp) as [H1 H2].
  destruct (Pmm.pmm_alloc_frame p) as [a p']. split_and!; [done | done |].
  destruct H as [(-> & _ & Hs & Hfull) | (f & Hf & Hfree & -> & Ht)]; [by left | right].
  exists f. by destruct Ht as (_ & _ & _ & Hu).
Qed.

Lemma free_taken p f :
  Pmm.pmm_inv p -> taken p f ->
  exists p', Pmm.pmm_free_frame (f * 4096) p = Ret p' /\ Pmm.pmm_inv p' /\
    Pmm.total_frames p' = Pmm.total_frames p /\
    forall g, 0 <= g -> Pmm.used p' g = (Pmm.used p g && negb (g =? f))%bool.
Proof.
  intros (Hwf & Hpos & H0) [Hg Hu].
  pose proof (Pmm.pmm_free_frame_cases p (f * 4096) Hwf ltac:(lia)) as H.
  unfold PAGE_SIZE in H. rewrite Z.div_mul in H by done. destruct (Pmm.pmm_free_frame _ p) as [p' |].
  - destruct H as [[? _] | (_ & _ & Hwf' & Ht & _ & Hg')]; [lia |]. exists p'. split_and!; try done.
    split_and!; [done | lia |]. rewrite Hg', H0 by lia. by destruct (Z.eqb_spec 0 f); [lia |].
  - destruct H as [_ H]. by rewrite Hu in H.
Qed.

(** At most frame [f] of low memory is left. *)
Definition low_left (v : vm) (f : Z) : Prop :=
  forall g, 0 <= g < Pmm.low_limit (frames v) -> g <> f -> Pmm.used (frames v) g = true.

(** Zeroing the page just mapped at [virt]. *)
Lemma zero_page o v a virt f :
  vm_ok o v -> live v a -> user_addr virt -> virt `mod` 4096 = 0 ->
  (exists e, page v (Space a) (virt / 4096) = Some e /\ FRAME_OF e = f * 4096) ->
  exists m', vfill (Z.to_nat PAGE_SIZE) (root v (Space a)) virt (fun _ _ => Some 0) (memory v) = Ret m' /\
    vm_ok o (with_memory m' v) /\
    (forall s path, valid path -> table (with_memory m' v) s path = table v s path) /\
    (forall s path i, valid path -> 0 <= i < 512 -> entry (with_memory m' v) s path i = entry v s path i) /\
    (forall s q, page (with_memory m' v) s q = page v s q) /\
    (forall x, byte_at m' x = if (f * 4096 <=? x) && (x <? f * 4096 + 4096) then 0 else byte_at (memory v) x).
Proof.
  intros Hok Hl Hu Ha (e & Ee & Ef).
  destruct (vfill_user o v a virt (fun _ _ => Some 0) (fun i => f * 4096 + i) (fun _ => 0) (Z.to_nat PAGE_SIZE))
    as (m' & E & Hok' & HT & HE & HP & Hval & Hout); try done.
  - unfold PAGE_SIZE. intros i Hi. assert ((virt + i) / 4096 = virt / 4096) as E by zlia.
    split; [apply user_addr_page; rewrite E; by apply user_addr_page |].
    exists e. rewrite E, Ef. split; [done |]. f_equal. zlia.
  - lia.
  - exists m'. split_and!; try done. intros x. unfold PAGE_SIZE in *.
    destruct (Z.leb_spec (f * 4096) x), (Z.ltb_spec x (f * 4096 + 4096)); cbn [andb].
    + replace x with (f * 4096 + (x - f * 4096)) by lia. apply Hval. lia.
    + apply Hout. lia.
    + apply Hout. lia.
    + lia.
Qed.

(** A page of [a] at [virt] backed by a frame nobody had, full of zeroes. *)
Definition fresh_page (v v' : vm) (a virt flags f : Z) : Prop :=
  ~ in_use v f /\ in_use v' f /\
  (forall s q, 0 <= q < 2 ^ 36 -> page v' s q =
     if decide (s = Space a /\ q = virt / 4096) then Some (leaf_of (f * 4096) flags) else page v s q) /\
  (forall x, f * 4096 <= x < f * 4096 + 4096 -> byte_at (memory v') x = 0).

Lemma paging_map_alloc_user o c v a virt flags :
  vm_ok o v -> live v a -> loaded c a v -> user_addr virt -> virt `mod` 4096 = 0 ->
  has flags PTE_USER = true -> page v (Space a) (virt / 4096) = None ->
  exists b v', paging_map_alloc c (Space a) virt flags true v = Ret (b, v') /\ vm_ok o v' /\ keeps v v' /\
  if b : bool then exists f, fresh_page v v' a virt flags f
  else (exists f, low_left v' f) /\ forall s q, 0 <= q < 2 ^ 36 -> page v' s q = page v s q.
Proof.
  intros Hok Hl Hc Hu Ha Hf Hnone. unfold paging_map_alloc. pose proof (ok_pmm _ _ _ _ Hok) as Hp.
  pose proof (any_alloc (frames v) Hp) as H. destruct (Pmm.pmm_alloc_frame (frames v)) as [x p1].
  destruct H as (Hp1 & Ht1 & [(-> & Hus & Hfull) | (f & Hfr & -> & Hfree & Hus)]).
  { exists false, (with_frames p1 v). split; [done |]. split; [by apply (ok_used _ _ _ (frames v)) |]. split; [| split].
    - split; try done; cbn. { intros g [? ?]. split; [lia | by rewrite Hus]. } { intros g Hg. by left. }
    - exists 0. intros g Hg _. cbn in *. rewrite Hus. apply Hfull.
      pose proof (Pmm.low_limit_spec p1 (proj1 Hp1)). lia.
    - done. }
  destruct (Z.eqb_spec (f * 4096) 0); [lia |]. set (v1 := with_frames p1 v).
  destruct (ok_alloc (roots v) o (memory v) (frames v) p1 f) as (Hok1 & Hnt & Hnl & Hno); try done.
  assert (Hnu : ~ in_use v f) by (intros [_ ?]; congruence).
  assert (Hk1 : keeps v v1).
  { split; try done; cbn; [| by left]. intros g [? Hg]. split; [lia |]. by rewrite Hus, Hg by lia. }
  destruct (paging_map_user (plus o f) o v1 a virt flags f) as (b & v2 & -> & Hk2 & Hb); try done.
  { by right. } { by left. } { intros h [? | ->] ?; done. } { by right. }
  pose proof (keeps_trans _ _ _ Hk1 Hk2) as Hk. pose proof (g_live _ _ Hk a Hl) as Hl2. destruct b.
  - destruct Hb as [Hok2 HP2]. pose proof (loaded_keeps c a v v2 Hl Hk Hc) as Hc2. unfold this_space. rewrite Hc2.
    cbn [space cr3]. rewrite bool_decide_eq_true_2 by done. cbn [negb].
    destruct (path_of_index virt) as (_ & _ & Hq). { unfold user_addr, USER_BASE, DEVICE_WINDOW in Hu. lia. }
    assert (Hpf : paged (f * 4096)) by (pose proof (ok_phys _ _ _ _ Hok); split; zlia).
    destruct (zero_page o v2 a virt f) as (m' & -> & Hok3 & HT3 & HE3 & HP3 & Hz); try done.
    { exists (leaf_of (f * 4096) flags). rewrite HP2, decide_True by done. split; [done |].
      destruct (leaf_of_bits (f * 4096) flags) as (-> & _). by apply FRAME_OF_id. }
    exists true, (with_memory m' v2). split; [done |]. split; [done |]. split.
    + destruct Hk as [G1 G2 G3 G4 G5 GK G6 G7]. split; try done.
      * intros s path t Hv E. rewrite HT3 by done. by apply G5.
      * intros path i Hv Hi. rewrite HE3 by done. by apply GK.
      * intros g (s & path & Hv & E). apply G6. exists s, path. by rewrite <- HT3.
      * intros g y Hg Hn Hy. cbn [memory with_memory]. rewrite Hz. case_ifs; [| by apply (G7 g)].
        assert (g = f) as -> by lia. done.
    + exists f. split; [done |]. split; [| split].
      * apply (g_taken _ _ Hk2). split; [cbn; lia |]. cbn. by rewrite Hus, Z.eqb_refl, orb_true_r by lia.
      * intros s q Hq'. rewrite HP3. by apply HP2.
      * intros y Hy. cbn [memory with_memory]. rewrite Hz.
        rewrite (proj2 (Z.leb_le _ _)), (proj2 (Z.ltb_lt _ _)) by lia. done.
  - destruct Hb as (Hok2 & Hlow & HP2).
    assert (Htk : in_use v2 f) by (apply (ok_other _ _ _ _ Hok2); by right).
    destruct (free_taken (frames v2) f (ok_pmm _ _ _ _ Hok2) Htk) as (p3 & -> & Hp3 & Ht3 & Hus3).
    exists false, (with_frames p3 v2). split; [done |].
    assert (Hnt2 : ~ is_table v2 f).
    { intros [? | Hn]%(g_new _ _ Hk2); [done |]. apply Hn. apply (ok_other _ _ _ _ Hok1). by right. }
    split; [| split; [| split]].
    + eapply (ok_iff _ (minus (plus o f) f)); [intros g; unfold minus, plus; naive_solver |].
      apply (ok_free _ _ _ (frames v2)); try done; [by right |].
      intros (a' & q & e & Hq & Hs & E & EF). apply Hnl. exists a', q, e. by rewrite <- HP2.
    + destruct Hk as [G1 G2 G3 G4 G5 GK G6 G7]. split; try done.
      intros g Hg. destruct (G4 g Hg) as [? Hg']. split; [cbn; lia |]. cbn. rewrite Hus3, Hg' by lia.
      destruct (Z.eqb_spec g f) as [-> |]; done.
    + exists f. intros g Hg Hne. cbn in *. rewrite Hus3 by lia.
      destruct (Z.eqb_spec g f); [done |]. rewrite andb_true_r. apply Hlow.
      unfold Pmm.low_limit in *. by rewrite Ht3 in Hg.
    + done.
Qed.

(** ** Unmapping *)

(** Tables, spaces and the bytes of the frames still in use are as they were. *)
Record stays (v v' : vm) : Prop := {
  s_roots : roots v' = roots v;
  s_cpus : cpus v' = cpus v;
  s_live : forall a, live v a -> live v' a;
  s_tb : forall s path, valid path -> table v' s path = table v s path;
  s_kent : forall path i, valid path -> 0 <= i < 512 -> entry v' KSpace path i = entry v KSpace path i;
  s_bytes : forall g b, in_use v g -> ~ is_table v g -> g * 4096 <= b < g * 4096 + 4096 ->
    byte_at (memory v') b = byte_at (memory v) b;
}.

(** The page of [a] at [q] is gone and no other. *)
Definition gone (v v' : vm) (a q : Z) : Prop :=
  forall s q', 0 <= q' < 2 ^ 36 -> page v' s q' = if decide (s = Space a /\ q' = q) then None else page v s q'.

Lemma gone_none v a q : page v (Space a) q = None -> gone v v a q.
Proof. intros E s q' Hq'. case_decide as H; [| done]. by destruct H as [-> ->]. Qed.

(** Clearing the entry, before anything is done about the frame. *)
Lemma clear_page o v a virt e t p :
  vm_ok o v -> live v a -> user_addr virt -> page v (Space a) (virt / 4096) = Some e ->
  table v (Space a) (path_of (virt / 4096)) = Some t ->
  let v1 := write t (PT_INDEX virt) 0 (with_frames p v) in
  let v2 := if has e PTE_USER then set_space (Space a) (count_user (-1) (the_space v1 (Space a))) v1 else v1 in
  ok (roots v2) (plus o (FRAME_OF e / 4096)) (memory v2) (frames v) /\ frames v2 = p /\
  stays v v2 /\ gone v v2 a (virt / 4096).
Proof.
  intros Hok Hl Hu Ee Et v1 v2.
  destruct (path_of_index virt) as (_ & Ei & Hq). { unfold user_addr, USER_BASE, DEVICE_WINDOW in Hu. lia. }
  apply user_addr_page, user_page_path in Hu as (_ & Hs & _). set (q := virt / 4096) in *.
  assert (Hx : 0 <= 0 < 2 ^ 64) by lia.
  pose proof (ok_unmap (roots v) o (memory v) (frames v) a q t 0 Hok Hq Hs Et Hx e eq_refl Ee) as Hok1.
  destruct (put_page (roots v) o (memory v) (frames v) a q t 0 Hok Hq Hs Et Hx) as (HT & HE & HP).
  unfold m_page in *. rewrite Ei in *.
  assert (R2 : roots v2 = roots v).
  { unfold v2. case_if; [| done]. transitivity (roots v1); [| done]. apply roots_set_space.
    exists (the_space v1 (Space a)). split; [by apply lookup_live | done]. }
  assert (M2 : memory v2 = put_slot (memory v) t (PT_INDEX virt) 0) by (unfold v2; by case_if).
  split; [by rewrite R2, M2 |]. split; [unfold v2; by case_if |]. split.
  - split; rewrite ?R2, ?M2; try done.
    + unfold v2. by case_if.
    + intros a' [y Ey]. unfold live, v2. case_if; [| by exists y]. cbn. destruct (decide (a' = a)) as [-> |].
      * rewrite lookup_insert_eq. by eexists.
      * rewrite lookup_insert_ne by done. by exists y.
    + intros path j Hv Hj. apply HE; auto.
    + intros g b Hg' Hn Hb. apply byte_at_put_slot; [rewrite <- Ei; apply index_of_page |].
      destruct (ok_frame _ _ _ _ Hok _ _ _ (path_of_valid q) Et) as ([? ?] & _).
      destruct (decide (g * 4096 = t)) as [E |]; [destruct Hn; exists (Space a), (path_of q); rewrite E; by split; [apply path_of_valid |] |]. zlia.
  - intros s q' Hq'. rewrite R2, M2. by rewrite HP.
Qed.

(** Without giving the frame back, it is the kernel's. *)
Lemma unmap_keep_user o v a virt :
  vm_ok o v -> live v a -> user_addr virt ->
  exists v', paging_unmap_keep (Space a) virt v = Ret v' /\ stays v v' /\ gone v v' a (virt / 4096) /\
    frames v' = frames v /\
    vm_ok (from_option (fun e => plus o (FRAME_OF e / 4096)) o (page v (Space a) (virt / 4096))) v'.
Proof.
  intros Hok Hl Hu. unfold paging_unmap_keep, unmap. rewrite (walk_look o) by done.
  destruct (path_of_index virt) as (_ & Ei & _). { unfold user_addr, USER_BASE, DEVICE_WINDOW in Hu. lia. }
  destruct (page v (Space a) (virt / 4096)) as [e |] eqn:Ee; unfold pte in Ee.
  - destruct (table v (Space a) (path_of (virt / 4096))) as [t |] eqn:Et; [| unfold ent in Ee; by rewrite Et in Ee].
    unfold read. rewrite <- Ei, (entry_at v _ _ _ _ Et).
  destruct (has (entry v (Space a) (path_of (virt / 4096)) _) PTE_PRESENT) eqn:Hpr; [| done].
  injection Ee as Ee. rewrite Ee. cbn [negb].
    destruct (clear_page o v a virt e t (frames v)) as (Hok1 & HF & Hst & Hg); try done.
    { unfold pte. by rewrite Hpr, Ee. }
    rewrite Ei. eexists. split; [done |]. split; [done |]. split; [done |]. split; [done |].
    unfold vm_ok. rewrite HF. exact Hok1.
  - exists v. assert (Hg : gone v v a (virt / 4096)) by (by apply gone_none).
    assert (Hst : stays v v) by (by split).
    destruct (table v (Space a) (path_of (virt / 4096))) as [t |] eqn:Et; [| done].
    unfold read. rewrite <- Ei, (entry_at v _ _ _ _ Et).
    by destruct (has (entry v (Space a) (path_of (virt / 4096)) _) PTE_PRESENT).
Qed.

(** A private page's frame goes back to the allocator. *)
Lemma unmap_user o v a virt :
  vm_ok o v -> live v a -> user_addr virt ->
  (forall e, page v (Space a) (virt / 4096) = Some e -> ~ o (FRAME_OF e / 4096)) ->
  exists v', paging_unmap (Space a) virt v = Ret v' /\ stays v v' /\ gone v v' a (virt / 4096) /\ vm_ok o v' /\
    forall g, in_use v' g <-> in_use v g /\
      from_option (fun e => g <> FRAME_OF e / 4096) True (page v (Space a) (virt / 4096)).
Proof.
  intros Hok Hl Hu Hpriv. unfold paging_unmap, unmap. rewrite (walk_look o) by done.
  destruct (path_of_index virt) as (_ & Ei & Hq). { unfold user_addr, USER_BASE, DEVICE_WINDOW in Hu. lia. }
  destruct (page v (Space a) (virt / 4096)) as [e |] eqn:Ep; pose proof Ep as Ee; unfold pte in Ee.
  2: { exists v. assert (Hg : gone v v a (virt / 4096)) by (by apply gone_none).
       assert (Hst : stays v v) by (by split).
       assert (Hn : forall g, in_use v g <-> in_use v g /\ True) by tauto.
       destruct (table v (Space a) (path_of (virt / 4096))) as [t |] eqn:Et; [| done].
       unfold read. rewrite <- Ei, (entry_at v _ _ _ _ Et).
       by destruct (has (entry v (Space a) (path_of (virt / 4096)) _) PTE_PRESENT). }
  destruct (table v (Space a) (path_of (virt / 4096))) as [t |] eqn:Et; [| unfold ent in Ee; by rewrite Et in Ee].
  unfold read. rewrite <- Ei, (entry_at v _ _ _ _ Et).
  destruct (has (entry v (Space a) (path_of (virt / 4096)) _) PTE_PRESENT) eqn:Hpr; [| done].
  injection Ee as Ee. rewrite Ee. cbn [negb].
  pose proof Hu as Hs. apply user_addr_page, user_page_path in Hs as (_ & Hs & _).
  destruct (ok_leaf _ _ _ _ Hok a _ e Hq Hs Ep) as [Htk Hnot].
  assert (Hno : ~ o (FRAME_OF e / 4096)) by (by apply Hpriv). set (f := FRAME_OF e / 4096) in *.
  assert (Ef : FRAME_OF e = f * 4096) by (apply paged_frame, FRAME_OF_paged).
  destruct (free_taken (frames v) f (ok_pmm _ _ _ _ Hok) Htk) as (p1 & E1 & Hp1 & Ht1 & Hus1). rewrite Ef, E1.
  destruct (clear_page o v a virt e t p1) as (Hok1 & HF & Hst & Hg); try done.
  rewrite Ei. eexists. split; [done |]. split; [done |]. split; [done |]. split.
  - unfold vm_ok. rewrite HF. eapply (ok_iff _ (minus (plus o f) f)); [intros g; unfold minus, plus; naive_solver |].
    apply (ok_free _ _ _ (frames v)); try done; [by right | |].
    + intros (s & path & Hv & E). apply (Hnot s path Hv). rewrite Ef, <- E. symmetry. by apply (s_tb _ _ Hst).
    + intros (a' & q' & e' & Hq' & Hs' & E & EF). rewrite Hg in E by done. case_decide as Hd; [done |].
      apply Hd. destruct (ok_priv _ _ _ _ Hok a _ e a' q' e' Hq Hq' Hs Hs' Ep E) as [-> ->]; [congruence | done | done].
  - intros g. rewrite HF. cbn [from_option]. unfold taken. split.
    + intros [Hgr Hgu]. rewrite Hus1 in Hgu by lia. apply andb_prop in Hgu as [? Hne%negb_true_iff%Z.eqb_neq].
      split; [split; [lia | done] | done].
    + intros [[? ?] Hne]. split; [lia |]. rewrite Hus1 by lia. destruct (Z.eqb_spec g f); [done |].
      by rewrite andb_true_r.
Qed.

End PagingSpec.
