(* ===== verification/PagingMem.v ===== *)
(** How much memory a mapping takes: at most three tables and the page itself, so
    it succeeds whenever six frames of low memory are free. *)

From S2P Require Import Prelude Pmm Sched Paging PagingInv PagingSpec.

Module PagingMem.

Import Sched (aspace, KSpace, Space).
Import Paging PagingInv PagingSpec.

(** Between [p] and [p'] at most [n] more frames came into use. *)
Definition spends (n : nat) (p p' : Pmm.pmm) : Prop :=
  Pmm.pmm_inv p' /\ Pmm.total_frames p' = Pmm.total_frames p /\
  exists l, (length l <= n)%nat /\
    forall g, 0 <= g -> Pmm.used p' g = true -> Pmm.used p g = true \/ g ∈ l.

Lemma spends_refl n p : Pmm.pmm_inv p -> spends n p p.
Proof. intros Hp. split; [done |]. split; [done |]. exists []. split; [cbn; lia | by left]. Qed.

Lemma spends_trans n1 n2 p1 p2 p3 : spends n1 p1 p2 -> spends n2 p2 p3 -> spends (n1 + n2) p1 p3.
Proof.
  intros (_ & T1 & l1 & L1 & H1) (Hp & T2 & l2 & L2 & H2). split; [done |]. split; [congruence |].
  exists (l1 ++ l2). split; [rewrite length_app; lia |]. intros g Hg Hu. rewrite elem_of_app.
  destruct (H2 g Hg Hu) as [Hu2 | ?]; [| tauto]. destruct (H1 g Hg Hu2); tauto.
Qed.

Lemma spends_mono n n' p p' : (n <= n')%nat -> spends n p p' -> spends n' p p'.
Proof. intros Hn (H1 & H2 & l & Hl & H3). split; [done |]. split; [done |]. exists l. split; [lia | done]. Qed.

Lemma spends_low p : Pmm.pmm_inv p -> spends 1 p (Pmm.pmm_alloc_frame_low p).2.
Proof.
  intros Hp. pose proof (low_alloc p Hp) as H. destruct (Pmm.pmm_alloc_frame_low p) as [a p'].
  destruct H as (Hp' & Ht & [(_ & Hu & _) | (f & _ & _ & _ & _ & Hu)]); (split; [done |]; split; [done |]).
  - exists []. split; [cbn; lia |]. intros g _ E. left. by rewrite <- Hu.
  - exists [f]. split; [done |]. intros g Hg. rewrite Hu by done.
    intros [? | ->%Z.eqb_eq]%orb_true_iff; [by left | right; by apply list_elem_of_singleton].
Qed.

Lemma spends_any p : Pmm.pmm_inv p -> spends 1 p (Pmm.pmm_alloc_frame p).2.
Proof.
  intros Hp. pose proof (any_alloc p Hp) as H. destruct (Pmm.pmm_alloc_frame p) as [a p'].
  destruct H as (Hp' & Ht & [(_ & Hu & _) | (f & _ & _ & _ & Hu)]); (split; [done |]; split; [done |]).
  - exists []. split; [cbn; lia |]. intros g _ E. left. by rewrite <- Hu.
  - exists [f]. split; [done |]. intros g Hg. rewrite Hu by done.
    intros [? | ->%Z.eqb_eq]%orb_true_iff; [by left | right; by apply list_elem_of_singleton].
Qed.

Lemma next_level_spends table index create flags s v :
  Pmm.pmm_inv (frames v) -> spends 1 (frames v) (frames (next_level table index create flags s v).2).
Proof.
  intros Hp. unfold next_level, zeroed_low_frame. pose proof (spends_low _ Hp) as H.
  destruct (Pmm.pmm_alloc_frame_low (frames v)) as [a p'].
  repeat case_if; try by apply spends_refl. all: destruct s as [[| ?] |]; exact H.
Qed.

Lemma walk_to_pt_spends s virt create flags v :
  Pmm.pmm_inv (frames v) -> spends 3 (frames v) (frames (walk_to_pt s virt create flags v).2).
Proof.
  intros Hp. unfold walk_to_pt.
  pose proof (next_level_spends (root v s) (PML4_INDEX virt) create flags (Some s) v Hp) as H1.
  destruct (next_level _ _ _ _ _ v) as [[pdpt |] v1]; cbn [snd] in *;
    [| exact (spends_trans 1 2 _ _ _ H1 (spends_refl 2 _ (proj1 H1)))].
  pose proof (next_level_spends pdpt (PDPT_INDEX virt) create flags (Some s) v1 (proj1 H1)) as H2.
  destruct (next_level _ _ _ _ _ v1) as [[pd |] v2]; cbn [snd] in *; pose proof (spends_trans _ _ _ _ _ H1 H2) as H12;
    [| exact (spends_trans 2 1 _ _ _ H12 (spends_refl 1 _ (proj1 H2)))].
  case_if; [exact (spends_trans 2 1 _ _ _ H12 (spends_refl 1 _ (proj1 H2))) |].
  exact (spends_trans 2 1 _ _ _ H12 (next_level_spends pd (PD_INDEX virt) create flags (Some s) v2 (proj1 H2))).
Qed.

Lemma paging_map_spends s virt phys flags v b v' :
  Pmm.pmm_inv (frames v) -> paging_map s virt phys flags v = Ret (b, v') -> spends 3 (frames v) (frames v').
Proof.
  intros Hp. unfold paging_map. pose proof (walk_to_pt_spends s virt true flags v Hp) as H.
  destruct (walk_to_pt _ _ _ _ _) as [[pt |] v1]; [| by intros [= <- <-]]. case_if; [done |].
  intros [= <- <-]. cbn [snd] in H. by case_if; [destruct s |].
Qed.

Lemma free_spends p f p' n q :
  spends n q p -> 0 < f < Pmm.total_frames p -> Pmm.pmm_free_frame (f * 4096) p = Ret p' -> spends n q p'.
Proof.
  intros ((Hwf & Hpos & H0) & Ht & l & Hl & Hu) Hf E.
  pose proof (Pmm.pmm_free_frame_cases p (f * 4096) Hwf ltac:(lia)) as H. rewrite E in H.
  unfold PAGE_SIZE in H. rewrite Z.div_mul in H by done. destruct H as [[? _] | (_ & _ & Hwf' & Ht' & _ & Hg)]; [lia |].
  split; [| split; [congruence |]].
  - split; [done |]. split; [lia |]. rewrite Hg, H0 by lia. by destruct (Z.eqb_spec 0 f); [lia |].
  - exists l. split; [done |]. intros g Hg0 Hug. rewrite Hg in Hug by done. apply andb_prop in Hug as [? _]. by apply Hu.
Qed.

Lemma paging_map_alloc_spends c s virt flags zero v b v' :
  Pmm.pmm_inv (frames v) -> paging_map_alloc c s virt flags zero v = Ret (b, v') -> spends 4 (frames v) (frames v').
Proof.
  intros Hp. unfold paging_map_alloc. pose proof (spends_any _ Hp) as H1. pose proof (any_alloc _ Hp) as Ha.
  destruct (Pmm.pmm_alloc_frame (frames v)) as [x p1]. cbn [snd] in H1.
  destruct Ha as (Hp1 & Ht1 & [(-> & _) | (f & Hf & -> & _)]).
  { intros [= <- <-]. exact (spends_trans 1 3 _ _ _ H1 (spends_refl 3 _ Hp1)). }
  destruct (Z.eqb_spec (f * 4096) 0); [lia |].
  destruct (paging_map s virt (f * 4096) flags (with_frames p1 v)) as [[b2 v2] |] eqn:E2; [| done].
  pose proof (paging_map_spends s virt (f * 4096) flags (with_frames p1 v) _ _ Hp1 E2) as H2. cbn [frames with_frames] in H2.
  pose proof (spends_trans _ _ _ _ _ H1 H2) as H. destruct b2.
  - destruct zero; [| by intros [= <- <-]]. case_if; [done |].
    destruct (vfill _ _ _ _ _); [| done]. by intros [= <- <-].
  - destruct (Pmm.pmm_free_frame (f * 4096) (frames v2)) as [p3 |] eqn:E3; [| done]. intros [= <- <-].
    apply (free_spends (frames v2) f); [done | | done]. destruct H2 as (_ & -> & _). lia.
Qed.

(** Low memory that is all but used up had little left before. *)
Lemma spends_left n v v' f l :
  spends n (frames v) (frames v') -> low_left v' f -> NoDup l ->
  (forall g, g ∈ l -> 0 <= g < Pmm.low_limit (frames v) /\ Pmm.used (frames v) g = false) -> (length l <= S n)%nat.
Proof.
  intros (_ & Ht & m & Hm & Hused) Hleft Hnd Hfree. assert (Hsub : l ⊆ f :: m).
  { intros g Hg. destruct (Hfree g Hg) as [Hr Hug]. rewrite elem_of_cons.
    destruct (decide (g = f)) as [-> | Hne]; [by left | right].
    destruct (Hused g) as [? | ?]; [lia | | congruence | done].
    apply Hleft; [| done]. unfold Pmm.low_limit in *. by rewrite Ht. }
  apply (NoDup_submseteq _ _ Hnd), submseteq_length in Hsub. cbn in Hsub. lia.
Qed.

(** A page can be had whenever six frames below the identity map's end are free. *)
Lemma paging_map_alloc_succeeds o c v a virt flags l :
  vm_ok o v -> live v a -> loaded c a v -> user_addr virt -> virt `mod` 4096 = 0 ->
  has flags PTE_USER = true -> page v (Space a) (virt / 4096) = None ->
  NoDup l -> (6 <= length l)%nat ->
  (forall g, g ∈ l -> 0 <= g < Pmm.low_limit (frames v) /\ Pmm.used (frames v) g = false) ->
  exists v' f, paging_map_alloc c (Space a) virt flags true v = Ret (true, v') /\ vm_ok o v' /\ keeps v v' /\
    fresh_page v v' a virt flags f.
Proof.
  intros Hok Hl Hc Hu Ha Hf Hn Hnd Hlen Hfree.
  destruct (paging_map_alloc_user o c v a virt flags Hok Hl Hc Hu Ha Hf Hn) as (b & v' & E & Hok' & Hk & H).
  destruct b; [destruct H as [f H]; by exists v', f |]. exfalso. destruct H as [[f Hleft] _].
  pose proof (spends_left 4 v v' f l (paging_map_alloc_spends _ _ _ _ _ _ _ _ (ok_pmm _ _ _ _ Hok) E) Hleft Hnd Hfree). lia.
Qed.

End PagingMem.
