(* ===== verification/UserView.v ===== *)
(** The memory of a process as its program sees it, and what the loops over pages
    that the loader and the heap share do to it. *)

From S2P Require Import Prelude Pmm Sched Paging PagingInv PagingSpec PagingMem.

Module UserView.

Import Sched (aspace, KSpace, Space).
Import Paging PagingInv PagingSpec PagingMem.

#[local] Opaque zero_bytes load64 store64.

(** ** Mapping the pages that are missing

    [for (page = ...; page < stop; page += PAGE_SIZE)] of [elf_load] and
    [proc_sbrk], [n] turns at most; [false] when memory ran out. *)
Fixpoint map_pages (n : nat) (c : nat) (s : aspace) (page stop : Z) (v : vm) : res (bool * vm) :=
  match n with
  | O => Ret (true, v)
  | S n =>
      if page <? stop then
        if negb (paging_translate s page v =? 0) then map_pages n c s (u64 (page + PAGE_SIZE)) stop v
        else
          match paging_map_alloc c s page (Z.lor PTE_WRITE PTE_USER) true v with
          | Panic => Panic
          | Ret (false, v) => Ret (false, v)
          | Ret (true, v) => map_pages n c s (u64 (page + PAGE_SIZE)) stop v
          end
      else Ret (true, v)
  end.

(** Turns enough for every page from [page] up to [stop]. *)
Definition page_turns (page stop : Z) : nat := Z.to_nat ((stop - page) / PAGE_SIZE + 1).

(** ** Bytes of a process *)

Definition ubyte (v : vm) (a x : Z) : option Z := vload (memory v) (root v (Space a)) x.

Lemma ubyte_page o v a x :
  vm_ok o v -> live v a -> user_addr x ->
  ubyte v a x = (fun e => byte_at (memory v) (FRAME_OF e + x `mod` 4096)) <$> page v (Space a) (x / 4096).
Proof.
  intros Hok Hl Hx. unfold ubyte, vload. rewrite (mmu_user o) by done. by destruct (page v (Space a) (x / 4096)).
Qed.

(** A page is backed by a frame in use that is no table. *)
Lemma page_frame o v a q e :
  vm_ok o v -> user_page q -> page v (Space a) q = Some e ->
  exists g, FRAME_OF e = g * 4096 /\ in_use v g /\ ~ is_table v g.
Proof.
  intros Hok Hq E. destruct (user_page_path q Hq) as (Hr & Hs & _).
  destruct (ok_leaf _ _ _ _ Hok a q e Hr Hs E) as [Ht Hn]. exists (FRAME_OF e / 4096).
  assert (Ef : FRAME_OF e = FRAME_OF e / 4096 * 4096) by apply paged_frame, FRAME_OF_paged.
  split; [done |]. split; [done |]. intros (s & path & Hv & Et). apply (Hn s path Hv). by rewrite Et, <- Ef.
Qed.

(** Only the memory of [a] changed: not that of other processes, nor what [o]
    holds, nor the kernel's tables. *)
Record touched (o : Z -> Prop) (v v' : vm) (a : Z) : Prop := {
  t_ok : vm_ok o v';
  t_roots : roots v' = roots v;
  t_cpus : cpus v' = cpus v;
  t_live : forall b, live v b -> live v' b;
  t_kent : forall path i, valid path -> 0 <= i < 512 -> entry v' KSpace path i = entry v KSpace path i;
  t_other : forall b x, b <> a -> live v b -> user_addr x -> ubyte v' b x = ubyte v b x;
  t_kern : forall g x, o g -> ~ is_table v g -> g * 4096 <= x < g * 4096 + 4096 ->
    byte_at (memory v') x = byte_at (memory v) x;
  t_ktab : forall g, o g -> ~ is_table v g -> ~ is_table v' g;
}.

Lemma touched_refl o v a : vm_ok o v -> touched o v v a.
Proof. intros Hok. by split. Qed.

Lemma touched_then o v1 v2 v3 a : touched o v1 v2 a -> touched o v2 v3 a -> touched o v1 v3 a.
Proof.
  intros [A1 A2 A3 A4 A5 A6 A7 A8] [B1 B2 B3 B4 B5 B6 B7 B8]. split; auto; try congruence.
  - intros path i Hv Hi. by rewrite B5, A5.
  - intros b x Hb Hl Hx. rewrite B6, A6 by auto. done.
  - intros g x Hg Hn Hx. rewrite (B7 g), (A7 g) by auto. done.
Qed.

Lemma touched_loaded o v v' a c : live v a -> touched o v v' a -> loaded c a v -> loaded c a v'.
Proof.
  intros Hl Ht Hc. unfold loaded in *. rewrite (t_cpus _ _ _ _ Ht), Hc. f_equal. symmetry.
  apply root_keeps; [apply (t_roots _ _ _ _ Ht) | |].
  - destruct Hl as [x Hx]. by exists x.
  - apply (t_live _ _ _ _ Ht) in Hl as [x Hx]. by exists x.
Qed.

(** A byte of a page that was there keeps its value when only frames that were
    free are written. *)
Lemma keeps_byte o v v' a q e x :
  vm_ok o v -> keeps v v' -> user_page q -> page v (Space a) q = Some e -> 0 <= x < 4096 ->
  byte_at (memory v') (FRAME_OF e + x) = byte_at (memory v) (FRAME_OF e + x).
Proof.
  intros Hok Hk Hq E Hx. destruct (page_frame o v a q e Hok Hq E) as (g & Ef & Hu & Hn).
  apply (g_bytes _ _ Hk g); [done | done | lia].
Qed.

Lemma touched_keeps o v v' a :
  vm_ok o v -> vm_ok o v' -> keeps v v' ->
  (forall b q, b <> a -> 0 <= q < 2 ^ 36 -> page v' (Space b) q = page v (Space b) q) -> touched o v v' a.
Proof.
  intros Hok Hok' Hk Hp. split; try done; try apply Hk.
  - intros b x Hb Hl Hx. pose proof (proj1 (user_addr_page x) Hx) as Hq.
    destruct (user_page_path _ Hq) as (Hr & _). rewrite !(ubyte_page o) by (done || by apply (g_live _ _ Hk)).
    rewrite Hp by done. destruct (page v (Space b) (x / 4096)) as [e |] eqn:E; [| done]. cbn. f_equal.
    apply (keeps_byte o v v' b (x / 4096)); [done.. | zlia].
  - intros g x Hg Hn Hx. apply (g_bytes _ _ Hk g); [by apply (ok_other _ _ _ _ Hok) | done | done].
  - intros g Hg Hn [? | Hf]%(g_new _ _ Hk); [done |]. by apply Hf, (ok_other _ _ _ _ Hok).
Qed.

(** ** The loop *)

(** Page [q] of [a] is what it was, or a page of zeroes where there was none. *)
Definition page_step (v v' : vm) (a q : Z) : Prop :=
  page v' (Space a) q = page v (Space a) q \/
  page v (Space a) q = None /\ exists f, page v' (Space a) q = Some (leaf_of (f * 4096) (Z.lor PTE_WRITE PTE_USER)) /\
    ~ in_use v f /\ in_use v' f /\ forall x, f * 4096 <= x < f * 4096 + 4096 -> byte_at (memory v') x = 0.

Lemma leaf_frame o v f flags : vm_ok o v -> in_use v f -> FRAME_OF (leaf_of (f * 4096) flags) = f * 4096.
Proof.
  intros Hok [Hf _]. destruct (leaf_of_bits (f * 4096) flags) as (-> & _). apply FRAME_OF_id.
  pose proof (ok_phys _ _ _ _ Hok). split; zlia.
Qed.

Lemma page_step_trans o v1 v2 v3 a q :
  vm_ok o v1 -> vm_ok o v2 -> keeps v1 v2 -> keeps v2 v3 -> user_page q ->
  page_step v1 v2 a q -> page_step v2 v3 a q -> page_step v1 v3 a q.
Proof.
  intros Hok1 Hok2 Hk1 Hk2 Hq H1 [E2 | (E2 & f & E3 & Hf & Hf' & Hz)].
  - destruct H1 as [E1 | (E1 & f & E1' & Hf & Hf' & Hz)]; [left; congruence | right].
    split; [done |]. exists f. rewrite E2. split; [done |]. split; [done |].
    split; [by apply (g_taken _ _ Hk2) |]. intros x Hx. rewrite <- (Hz x Hx).
    pose proof (keeps_byte o v2 v3 a q _ (x - f * 4096) Hok2 Hk2 Hq E1' ltac:(lia)) as H.
    rewrite (leaf_frame o v2) in H by done. by replace (f * 4096 + (x - f * 4096)) with x in H by lia.
  - destruct H1 as [E1 | (_ & f1 & E1 & _)]; [| congruence]. right. split; [congruence |].
    exists f. split; [done |]. split; [| done]. intros Hu. by apply Hf, (g_taken _ _ Hk1).
Qed.

(** What a whole run of the loop over pages [q1] to [q2] leaves. *)
Record pages_mapped (o : Z -> Prop) (v v' : vm) (a q1 q2 : Z) : Prop := {
  m_ok : vm_ok o v';
  m_keeps : keeps v v';
  m_other : forall b q, b <> a -> 0 <= q < 2 ^ 36 -> page v' (Space b) q = page v (Space b) q;
  m_out : forall q, 0 <= q < 2 ^ 36 -> ~ q1 <= q < q2 -> page v' (Space a) q = page v (Space a) q;
  m_in : forall q, q1 <= q < q2 -> page_step v v' a q;
}.

Lemma pages_mapped_nil o v a q1 q2 : vm_ok o v -> pages_mapped o v v a q1 q2.
Proof. intros Hok. split; try done; [apply keeps_refl | by left]. Qed.

Lemma pages_mapped_trans o v1 v2 v3 a q1 q2 q3 :
  vm_ok o v1 -> 2 ^ 18 <= q1 -> q1 <= q2 -> q3 <= 3 * 2 ^ 18 ->
  pages_mapped o v1 v2 a q1 q3 -> pages_mapped o v2 v3 a q2 q3 -> pages_mapped o v1 v3 a q1 q3.
Proof.
  intros Hok H1 H2 H3 [A1 A2 A3 A4 A5] [B1 B2 B3 B4 B5]. split; try done.
  - by apply (keeps_trans v1 v2).
  - intros b q Hb Hq. by rewrite B3, A3.
  - intros q Hq Hn. rewrite B4, A4; [done | done | done | done | lia].
  - intros q Hq. assert (Hu : user_page q) by (unfold user_page; lia).
    apply (page_step_trans o v1 v2); auto. destruct (decide (q2 <= q)); [by apply B5; lia | left; apply B4; lia].
Qed.

Lemma WU_user : has (Z.lor PTE_WRITE PTE_USER) PTE_USER = true /\ has (Z.lor PTE_WRITE PTE_USER) PTE_WRITE = true.
Proof. done. Qed.

(** One page that was not there. *)
Lemma map_one o v a q v' f q1 q2 :
  vm_ok o v' -> keeps v v' -> 2 ^ 18 <= q1 -> q1 <= q < q2 -> q2 <= 3 * 2 ^ 18 ->
  fresh_page v v' a (q * 4096) (Z.lor PTE_WRITE PTE_USER) f -> page v (Space a) q = None ->
  pages_mapped o v v' a q1 q2.
Proof.
  intros Hok Hk H1 Hq H2 (Hf & Hf' & Hp & Hz) Hn. rewrite Z.div_mul in Hp by done. split; try done.
  - intros b q' Hb Hq'. rewrite Hp by done. rewrite decide_False by (intros [? _]; congruence). done.
  - intros q' Hq' Hout. rewrite Hp by done. rewrite decide_False by (intros [_ ->]; lia). done.
  - intros q' Hq'. destruct (decide (q' = q)) as [-> | Hne].
    + right. split; [done |]. exists f. rewrite Hp by lia. by rewrite decide_True by done.
    + left. rewrite Hp by lia. by rewrite decide_False by (intros [_ ?]; done).
Qed.

(** [paging_translate] tells whether the page is there: no page is frame 0. *)
Lemma translate_zero o v a q :
  vm_ok o v -> live v a -> user_page q ->
  (paging_translate (Space a) (q * 4096) v =? 0) = bool_decide (page v (Space a) q = None).
Proof.
  intros Hok Hl Hq. assert (Hu : user_addr (q * 4096)) by (apply user_addr_page; by rewrite Z.div_mul).
  rewrite (paging_translate_user o), Z.div_mul, Z_mod_mult by done.
  destruct (page v (Space a) q) as [e |] eqn:E; cbn [from_option]; [| done].
  destruct (page_frame o v a q e Hok Hq E) as (g & -> & [Hg _] & _).
  rewrite bool_decide_eq_false_2 by done. apply Z.eqb_neq. lia.
Qed.

Lemma map_pages_spec o c a q2 n : forall q v,
  vm_ok o v -> live v a -> loaded c a v -> 2 ^ 18 <= q -> q2 <= 3 * 2 ^ 18 -> q2 - q <= Z.of_nat n ->
  exists b v', map_pages n c (Space a) (q * 4096) (q2 * 4096) v = Ret (b, v') /\ pages_mapped o v v' a q q2 /\
    spends (4 * n) (frames v) (frames v') /\
    if b : bool then forall q', q <= q' < q2 -> page v' (Space a) q' <> None else exists f, low_left v' f.
Proof.
  induction n as [| n IH]; intros q v Hok Hl Hc Hq Hq2 Hn; cbn [map_pages].
  { exists true, v. split; [done |]. split; [by apply pages_mapped_nil |].
       split; [apply spends_refl, (ok_pmm _ _ _ _ Hok) |]. lia. }
  destruct (Z.ltb_spec (q * 4096) (q2 * 4096)) as [Hlt | Hge].
  2: { exists true, v. split; [done |]. split; [by apply pages_mapped_nil |].
       split; [apply spends_refl, (ok_pmm _ _ _ _ Hok) |]. lia. }
  assert (Hp : user_page q) by (unfold user_page; lia).
  rewrite (translate_zero o) by done.
  assert (Ew : u64 (q * 4096 + PAGE_SIZE) = (q + 1) * 4096) by (rewrite u64_id; unfold PAGE_SIZE; lia). rewrite Ew.
  destruct (page v (Space a) q) as [e |] eqn:E.
  - rewrite bool_decide_eq_false_2 by done. cbn [negb].
    destruct (IH (q + 1) v) as (b & v' & E' & Hm & Hsp & Hb); [done | done | done | lia | lia | lia |].
    exists b, v'. split; [done |]. split; [| split].
    + apply (pages_mapped_trans o v v v' a q (q + 1)); [done | lia | lia | lia | by apply pages_mapped_nil | done].
    + apply (spends_mono (4 * n)); [lia | done].
    + destruct b; [| done]. intros q' Hq'. destruct (decide (q' = q)) as [-> |]; [| apply Hb; lia].
      rewrite (m_out _ _ _ _ _ _ Hm) by (unfold user_page in Hp; lia). congruence.
  - rewrite bool_decide_eq_true_2 by done. cbn [negb].
    assert (Hu : user_addr (q * 4096)) by (apply user_addr_page; by rewrite Z.div_mul).
    destruct (paging_map_alloc_user o c v a (q * 4096) (Z.lor PTE_WRITE PTE_USER)) as (b & v1 & E1 & Hok1 & Hk & Hb);
      try done; [apply Z_mod_mult | by rewrite Z.div_mul |].
    pose proof (paging_map_alloc_spends _ _ _ _ _ _ _ _ (ok_pmm _ _ _ _ Hok) E1) as S1. rewrite E1. destruct b.
    + destruct Hb as [f Hf]. assert (M1 : pages_mapped o v v1 a q q2) by (apply (map_one o v a q v1 f); done || lia).
      destruct (IH (q + 1) v1) as (b & v' & E' & Hm & Hsp & Hb);
        [done | by apply (g_live _ _ Hk) | by apply (loaded_keeps c a v) | lia | lia | lia |].
      exists b, v'. split; [done |].
      split; [by apply (pages_mapped_trans o v v1 v' a q (q + 1)); try done; lia |].
      split; [apply (spends_mono (4 + 4 * n)); [lia | by apply (spends_trans _ _ _ (frames v1))] |].
      destruct b; [| done]. intros q' Hq'. destruct (decide (q' = q)) as [-> |]; [| apply Hb; lia].
      rewrite (m_out _ _ _ _ _ _ Hm) by (unfold user_page in Hp; lia).
      destruct Hf as (_ & _ & Hpf & _). rewrite Z.div_mul in Hpf by done. rewrite Hpf by (unfold user_page in Hp; lia).
      by rewrite decide_True by done.
    + destruct Hb as [Hleft Hsame]. exists false, v1. split; [done |]. split; [| split; [by apply (spends_mono 4); [lia |] | done]]. split; try done.
      * intros b q' _ Hq'. by apply Hsame.
      * intros q' Hq' _. by apply Hsame.
      * intros q' Hq'. left. apply Hsame. lia.
Qed.

(** ** In bytes *)

Lemma mapped_touched o v v' a q1 q2 : vm_ok o v -> pages_mapped o v v' a q1 q2 -> touched o v v' a.
Proof. intros Hok [A1 A2 A3 A4 A5]. by apply touched_keeps. Qed.

(** Bytes that were there stay; in the range, a byte that was not is now 0 or
    still not there; outside nothing changes. *)
Lemma mapped_bytes o v v' a q1 q2 x :
  vm_ok o v -> live v a -> pages_mapped o v v' a q1 q2 -> user_addr x ->
  match ubyte v a x with
  | Some y => ubyte v' a x = Some y
  | None => ubyte v' a x = None \/ q1 * 4096 <= x < q2 * 4096 /\ ubyte v' a x = Some 0
  end.
Proof.
  intros Hok Hl Hm Hx. pose proof (proj1 (user_addr_page x) Hx) as Hq. destruct (user_page_path _ Hq) as (Hr & _).
  pose proof (m_keeps _ _ _ _ _ _ Hm) as Hk. pose proof (m_ok _ _ _ _ _ _ Hm) as Hok'.
  rewrite !(ubyte_page o) by (done || by apply (g_live _ _ Hk)).
  assert (Hs : page_step v v' a (x / 4096) /\ (page v' (Space a) (x / 4096) <> page v (Space a) (x / 4096) -> q1 <= x / 4096 < q2)).
  { destruct (decide (q1 <= x / 4096 < q2)); [split; [by apply (m_in _ _ _ _ _ _ Hm) | done] |].
    rewrite (m_out _ _ _ _ _ _ Hm) by done. split; [left; by apply (m_out _ _ _ _ _ _ Hm) | done]. }
  destruct Hs as [[E | (E & f & E' & Hf & Hf' & Hz)] Hr'].
  - rewrite E. destruct (page v (Space a) (x / 4096)) as [e |] eqn:Ee; cbn; [| by left]. f_equal.
    apply (keeps_byte o v v' a (x / 4096)); [done.. | zlia].
  - rewrite E, E'. cbn. right. split; [destruct Hr'; [congruence | zlia] |]. f_equal.
    rewrite (leaf_frame o v') by done. apply Hz. zlia.
Qed.

(** ** The kernel's gigabyte through a process's tables *)

(** Low memory at its own address, up to the windows ([FBCON_APERTURE]), as
    [PagingRun] shows of every space; the heap and all else the kernel keeps is
    below them. *)
Definition low_open (v : vm) (a : Z) : Prop :=
  forall x, 4096 <= x < 0x30000000 -> mmu (memory v) (root v (Space a)) x = Some (Access x true false).

(** It depends on the kernel's entries only. *)
Definition low_walk (e3 : Z) (e : list Z -> Z -> Z) (x : Z) : option access :=
  if negb (has e3 PTE_PRESENT) then None else
  if has e3 PTE_HUGE then None else
  let e2 := e [0; 0] (PD_INDEX x) in
  if negb (has e2 PTE_PRESENT) then None else
  let w := (has e3 PTE_WRITE && has e2 PTE_WRITE)%bool in
  let u := (has e3 PTE_USER && has e2 PTE_USER)%bool in
  if has e2 PTE_HUGE then
    Some (Access (Z.lor (Z.land (FRAME_OF e2) (u64 (Z.lnot 0x1FFFFF))) (Z.land x 0x1FFFFF)) w u) else
  let e1 := e [PD_INDEX x; 0; 0] (PT_INDEX x) in
  if negb (has e1 PTE_PRESENT) then None else
  Some (Access (Z.lor (FRAME_OF e1) (Z.land x 0xFFF)) (w && has e1 PTE_WRITE)%bool (u && has e1 PTE_USER)%bool).

Lemma mmu_low o v a x :
  vm_ok o v -> live v a -> 0 <= x < 2 ^ 30 ->
  mmu (memory v) (root v (Space a)) x = low_walk (entry v KSpace [0] 0) (entry v KSpace) x.
Proof.
  intros Hok Hl Hx. destruct (top_table o v a Hok Hl) as (d & Er & Ed). destruct (index_range x) as (_ & _ & I2 & I1).
  unfold mmu, low_walk. replace (canonical x) with true by (symmetry; apply orb_true_iff; left; apply Z.ltb_lt; lia). cbn [negb].
  assert (I4 : PML4_INDEX x = 0) by (unfold PML4_INDEX; rewrite index_spec by lia; zlia).
  assert (I3 : PDPT_INDEX x = 0) by (unfold PDPT_INDEX; rewrite index_spec by lia; zlia).
  rewrite I4, I3, (entry_at v (Space a) [] _ _ Er).
  destruct (ok_entry _ _ _ _ Hok a [] 0 valid1 eq_refl) as [H4 H4'].
  pose proof Ed as Ed'. rewrite tb_cons in Ed'. cbv zeta in Ed'. rewrite H4 in Ed'.
  destruct (has (entry v (Space a) [] 0) PTE_PRESENT); [| done]. destruct H4' as [-> ->]; [done |].
  injection Ed' as ->. rewrite (entry_at v _ _ _ 0 Ed). cbn [andb negb].
  destruct (ok_borrow _ _ _ _ Hok a _ (roots_space v a Hl)) as [_ Hb]. rewrite (Hb 0) by (by left).
  destruct (ok_super _ _ _ _ Hok 0) as (_ & H3 & _); [by left |]. rewrite H3.
  destruct (has (entry v KSpace [0] 0) PTE_PRESENT) eqn:P3; cbn [negb]; [| done].
  pose proof (table_at v KSpace 0 [0] P3 H3) as T2. rewrite (entry_at v _ _ _ (PD_INDEX x) T2).
  destruct (has (entry v KSpace [0; 0] (PD_INDEX x)) PTE_PRESENT) eqn:P2; cbn [negb]; [| done].
  destruct (has (entry v KSpace [0; 0] (PD_INDEX x)) PTE_HUGE) eqn:H2; [done |].
  pose proof (table_at v KSpace _ [0; 0] P2 H2) as T1. by rewrite (entry_at v _ _ _ (PT_INDEX x) T1).
Qed.

Lemma low_open_same o v v' a :
  vm_ok o v -> vm_ok o v' -> live v a -> live v' a ->
  (forall path i, valid path -> 0 <= i < 512 -> entry v' KSpace path i = entry v KSpace path i) ->
  low_open v a -> low_open v' a.
Proof.
  intros Hok Hok' Hl Hl' He H x Hx. rewrite <- (H x Hx). rewrite !(mmu_low o) by (done || (lia)).
  destruct (index_range x) as (_ & _ & I2 & I1). unfold low_walk.
  rewrite !He; [done | by apply valid3 | done | by apply valid2 | done | apply valid1 | done]; lia.
Qed.

(** ** Writing through user addresses *)

(** The pages of [a] are its own. *)
Definition own_pages (o : Z -> Prop) (v : vm) (a : Z) : Prop :=
  forall q e, user_page q -> page v (Space a) q = Some e -> ~ o (FRAME_OF e / 4096).

(** Where byte [x] of [a] is. *)
Definition place (v : vm) (a x : Z) : Z :=
  from_option (fun e => FRAME_OF e + x `mod` 4096) 0 (page v (Space a) (x / 4096)).

Lemma ubyte_place o v a x :
  vm_ok o v -> live v a -> user_addr x -> ubyte v a x <> None ->
  exists e, page v (Space a) (x / 4096) = Some e /\ place v a x = FRAME_OF e + x `mod` 4096 /\
    ubyte v a x = Some (byte_at (memory v) (place v a x)).
Proof.
  intros Hok Hl Hx. unfold place. rewrite (ubyte_page o) by done.
  destruct (page v (Space a) (x / 4096)) as [e |]; [| done]. intros _. by exists e.
Qed.

(** A byte of one's own page is nobody else's. *)
Lemma place_own o v a x b y e :
  vm_ok o v -> own_pages o v a -> user_addr x -> user_addr y -> page v (Space a) (x / 4096) <> None ->
  page v (Space b) (y / 4096) = Some e -> place v a x = FRAME_OF e + y `mod` 4096 -> a = b /\ x = y.
Proof.
  intros Hok Hown Hx Hy Hp Ee E. unfold place in E. destruct (page v (Space a) (x / 4096)) as [e0 |] eqn:E0; [| done].
  cbn [from_option] in E. destruct (FRAME_OF_paged e0) as [M0 _], (FRAME_OF_paged e) as [M1 _].
  assert (Ef : FRAME_OF e0 = FRAME_OF e /\ x `mod` 4096 = y `mod` 4096) by zlia. destruct Ef as [Ef Em].
  pose proof (proj1 (user_addr_page x) Hx) as Qx. pose proof (proj1 (user_addr_page y) Hy) as Qy.
  destruct (user_page_path _ Qx) as (Rx & Sx & _), (user_page_path _ Qy) as (Ry & Sy & _).
  destruct (ok_priv _ _ _ _ Hok a _ e0 b _ e Rx Ry Sx Sy E0 Ee Ef) as [-> Eq]; [by apply (Hown _ _ Qx) |].
  split; [done |]. zlia.
Qed.

Lemma place_not_table o v a x s path t :
  vm_ok o v -> user_addr x -> page v (Space a) (x / 4096) <> None -> valid path -> table v s path = Some t ->
  ~ t <= place v a x < t + 4096.
Proof.
  intros Hok Hx Hp Hv Et. unfold place. destruct (page v (Space a) (x / 4096)) as [e |] eqn:E; [| done]. cbn [from_option].
  apply (page_not_table o v a (x / 4096) e _ s path); try done; [by apply user_addr_page | zlia].
Qed.

Lemma place_not_kernel o v a x g :
  vm_ok o v -> own_pages o v a -> user_addr x -> page v (Space a) (x / 4096) <> None -> o g ->
  ~ g * 4096 <= place v a x < g * 4096 + 4096.
Proof.
  intros Hok Hown Hx Hp Hg Hin. unfold place in Hin. destruct (page v (Space a) (x / 4096)) as [e |] eqn:E; [| done].
  cbn [from_option] in Hin. apply (Hown (x / 4096) e); [by apply user_addr_page | done |].
  destruct (FRAME_OF_paged e). by replace (FRAME_OF e / 4096) with g by zlia.
Qed.

(** Memory [m] in place of that of [v], with different bytes in pages of [a] only. *)
Record filled (o : Z -> Prop) (v : vm) (m : mem) : Prop := {
  f_ok : vm_ok o (with_memory m v);
  f_tab : forall s path, valid path -> table (with_memory m v) s path = table v s path;
  f_ent : forall s path i, valid path -> 0 <= i < 512 -> entry (with_memory m v) s path i = entry v s path i;
  f_kern : forall g x, o g -> ~ is_table v g -> g * 4096 <= x < g * 4096 + 4096 -> byte_at m x = byte_at (memory v) x;
}.

(** A loop that stores [val i] at [virt + i], from a source that does not depend
    on what it stores. *)
Lemma fill_own o v a virt b val n :
  vm_ok o v -> live v a -> own_pages o v a ->
  (forall x, virt <= x < virt + Z.of_nat n -> user_addr x /\ ubyte v a x <> None) ->
  (forall m i, 0 <= i < Z.of_nat n -> filled o v m -> b m i = Some (val i)) ->
  exists m', vfill n (root v (Space a)) virt b (memory v) = Ret m' /\ touched o v (with_memory m' v) a /\
    (forall s q, page (with_memory m' v) s q = page v s q) /\
    forall x, user_addr x -> ubyte (with_memory m' v) a x =
      if decide (virt <= x < virt + Z.of_nat n) then Some (val (x - virt)) else ubyte v a x.
Proof.
  intros Hok Hl Hown Hr Hb.
  assert (Hpg : forall x, virt <= x < virt + Z.of_nat n -> user_addr x /\ page v (Space a) (x / 4096) <> None).
  { intros x Hx. destruct (Hr x Hx) as [Hu Hn]. split; [done |]. destruct (ubyte_place o v a x Hok Hl Hu Hn) as (e & -> & _). done. }
  assert (Hagree : forall m, (forall x, (forall j, 0 <= j < Z.of_nat n -> place v a (virt + j) <> x) -> byte_at m x = byte_at (memory v) x) ->
    filled o v m).
  { intros m Hm. assert (Htab : forall s path t y, valid path -> table v s path = Some t -> t <= y < t + 4096 ->
      byte_at m y = byte_at (memory v) y).
    { intros s path t y Hv Et Hy. apply Hm. intros j Hj <-. destruct (Hpg (virt + j)) as [Hu Hp]; [lia |].
      by apply (place_not_table o v a (virt + j) s path t). }
    destruct (ok_bytes (roots v) o (memory v) m (frames v) Htab Hok) as (Hok1 & HT & HE & _). split; [done | done | done |].
    intros g x Hg Hn Hx. apply Hm. intros j Hj <-. destruct (Hpg (virt + j)) as [Hu Hp]; [lia |].
    by apply (place_not_kernel o v a (virt + j) g). }
  destruct (vfill_user o v a virt b (fun i => place v a (virt + i)) val n)
    as (m' & E & Hok' & HT & HE & HP & Hval & Hout); [done | done | | | |].
  - intros i Hi. destruct (Hpg (virt + i)) as [Hu Hp]; [lia |]. split; [done |]. unfold place.
    destruct (page v (Space a) ((virt + i) / 4096)) as [e |] eqn:Ee; [| done]. by exists e.
  - intros i j Hi Hj Eij. destruct (Hpg (virt + i)) as [Hu Hp], (Hpg (virt + j)) as [Hu' Hp']; [lia.. |].
    destruct (page v (Space a) ((virt + j) / 4096)) as [e |] eqn:Ee; [| done].
    destruct (place_own o v a (virt + i) a (virt + j) e) as [_ ?]; try done; [| lia]. rewrite Eij. unfold place. by rewrite Ee.
  - intros m i Hi Hm. apply Hb; [done |]. by apply Hagree.
  - exists m'. split; [done |].
    assert (Hf : filled o v m') by (apply Hagree; intros x Hx; by apply Hout).
    assert (Hpl : forall b' y e, user_addr y -> page v (Space b') (y / 4096) = Some e ->
      (b' = a /\ virt <= y < virt + Z.of_nat n) \/
      byte_at m' (FRAME_OF e + y `mod` 4096) = byte_at (memory v) (FRAME_OF e + y `mod` 4096)).
    { intros b' y e Hy Ee. destruct (decide (b' = a /\ virt <= y < virt + Z.of_nat n)) as [Hd | Hd]; [by left | right].
      apply Hout. intros i Hi Ei. destruct (Hpg (virt + i)) as [Hu Hp]; [lia |].
      destruct (place_own o v a (virt + i) b' y e) as [-> <-]; try done. apply Hd. split; [done | lia]. }
    split; [| split; [done |]].
    + split; try done.
      * intros path i Hv Hi. by apply HE.
      * intros b' x Hb' Hlb Hx. rewrite !(ubyte_page o) by done. rewrite HP.
        destruct (page v (Space b') (x / 4096)) as [e |] eqn:Ee; [| done]. cbn. f_equal.
        destruct (Hpl b' x e Hx Ee) as [[? _] | ?]; done.
      * apply (f_kern _ _ _ Hf).
      * intros g Hg Hn (s & path & Hv & Et). apply Hn. exists s, path. by rewrite <- HT.
    + intros x Hx. case_decide as Hd.
      * destruct (Hpg x Hd) as [_ Hp]. rewrite (ubyte_page o) by done. rewrite HP.
        pose proof (Hval (x - virt) ltac:(lia)) as Hv. cbn beta in Hv. replace (virt + (x - virt)) with x in Hv by lia.
        unfold place in Hv. destruct (page v (Space a) (x / 4096)) as [e |]; [| done]. cbn in *. by rewrite Hv.
      * rewrite !(ubyte_page o) by done. rewrite HP. destruct (page v (Space a) (x / 4096)) as [e |] eqn:Ee; [| done].
        cbn. f_equal. destruct (Hpl a x e Hx Ee) as [[_ ?] | ?]; done.
Qed.

Lemma mapped_own o v v' a q1 q2 :
  vm_ok o v -> pages_mapped o v v' a q1 q2 -> own_pages o v a -> own_pages o v' a.
Proof.
  intros Hok Hm Hown q e Hq Ee. destruct (user_page_path q Hq) as (Hr & _).
  destruct (decide (q1 <= q < q2)) as [Hin | Hout].
  - destruct (m_in _ _ _ _ _ _ Hm q Hin) as [Es | (_ & f & Ef & Hf & Hf' & _)]; [apply (Hown q e); congruence || done |].
    rewrite Ef in Ee. injection Ee as <-. rewrite (leaf_frame o v'), Z.div_mul by (done || apply (m_ok _ _ _ _ _ _ Hm)).
    intros Ho. by apply Hf, (ok_other _ _ _ _ Hok).
  - rewrite (m_out _ _ _ _ _ _ Hm) in Ee by done. by apply (Hown q e).
Qed.

(** When every page of the range is there. *)
Lemma mapped_all o v v' a q1 q2 x :
  vm_ok o v -> live v a -> pages_mapped o v v' a q1 q2 ->
  (forall q, q1 <= q < q2 -> page v' (Space a) q <> None) -> user_addr x ->
  ubyte v' a x = match ubyte v a x with
                 | Some y => Some y
                 | None => if decide (q1 <= x / 4096 < q2) then Some 0 else None
                 end.
Proof.
  intros Hok Hl Hm Hall Hx. pose proof (mapped_bytes o v v' a _ _ x Hok Hl Hm Hx) as H.
  destruct (ubyte v a x) as [y |]; [done |]. destruct H as [En | [Hr ->]]; [| by rewrite decide_True by zlia].
  rewrite En. case_decide as Hd; [| done]. exfalso. apply (Hall (x / 4096) Hd).
  rewrite (ubyte_page o) in En by (exact (m_ok _ _ _ _ _ _ Hm) || exact (g_live _ _ (m_keeps _ _ _ _ _ _ Hm) a Hl) || done).
  by destruct (page v' (Space a) (x / 4096)).
Qed.

End UserView.
