(* ===== verification/PagingFree.v ===== *)
(** Tearing an address space down: [paging_free_addrspace] gives back the
    tables of the space and its pages, each exactly once, and nothing that any
    other space or the kernel uses. *)

From S2P Require Import Prelude Pmm Sched Shm Paging PagingInv PagingSpec.

Module PagingFree.

Import Sched (aspace, KSpace, Space).
Import Paging PagingInv PagingSpec.

#[local] Opaque zero_bytes load64 store64.

(** ** The frames the loops free, in order *)

Definition pt_item (m : mem) (pt k : Z) : list Z :=
  let e := slot m pt k in if has e PTE_PRESENT then [FRAME_OF e] else [].
Definition pd_item (m : mem) (pd j : Z) : list Z :=
  let e := slot m pd j in
  if (negb (has e PTE_PRESENT) || has e PTE_HUGE)%bool then []
  else (seqZ 0 512 ≫= pt_item m (FRAME_OF e)) ++ [FRAME_OF e].
Definition pdpt_item (m : mem) (pdpt i : Z) : list Z :=
  let e := slot m pdpt i in
  if negb (has e PTE_PRESENT) then []
  else if i =? PDPT_INDEX DEVICE_WINDOW then []
  else (seqZ 0 512 ≫= pd_item m (FRAME_OF e)) ++ [FRAME_OF e].
Definition freed (m : mem) (pml4 : Z) : list Z :=
  let pdpt := FRAME_OF (slot m pml4 0) in (seqZ 1 511 ≫= pdpt_item m pdpt) ++ [pdpt; pml4].

Definition res_fst {A B} (r : res (A * B)) : res A := match r with Ret x => Ret x.1 | Panic => Panic end.

Lemma free_frames_app l1 l2 p :
  Shm.free_frames (l1 ++ l2) p =
  match Shm.free_frames l1 p with Ret p => Shm.free_frames l2 p | Panic => Panic end.
Proof.
  revert p. induction l1 as [| x l1 IH]; intros p; [done |]. cbn. by destruct (Pmm.pmm_free_frame x p).
Qed.

Lemma fold_res_frees {B} (f : Z -> Pmm.pmm * B -> res (Pmm.pmm * B)) (F : Z -> list Z) l :
  (forall x s, res_fst (f x s) = Shm.free_frames (F x) s.1) ->
  forall s, res_fst (fold_res f l s) = Shm.free_frames (l ≫= F) s.1.
Proof.
  intros H. induction l as [| x l IH]; intros s; [done |].
  change ((x :: l) ≫= F) with (F x ++ (l ≫= F)). rewrite free_frames_app, <- H. cbn [fold_res].
  destruct (f x s) as [s' |]; cbn; [apply IH | done].
Qed.

Lemma free_entry_item m pt k s : res_fst (free_entry m pt k s) = Shm.free_frames (pt_item m pt k) s.1.
Proof.
  unfold free_entry, pt_item. case_if; [| done]. cbn. by destruct (Pmm.pmm_free_frame _ s.1).
Qed.

(** A table's contents, then the table. *)
Lemma free_level (m : mem) (f : Z -> Pmm.pmm * addrspace -> res (Pmm.pmm * addrspace)) (F : Z -> list Z) t s :
  (forall x s, res_fst (f x s) = Shm.free_frames (F x) s.1) ->
  res_fst (match fold_res f (seqZ 0 512) s with Panic => Panic | Ret s => free_table t s end) =
  Shm.free_frames ((seqZ 0 512 ≫= F) ++ [t]) s.1.
Proof.
  intros H. rewrite free_frames_app, <- (fold_res_frees f F _ H).
  destruct (fold_res f (seqZ 0 512) s) as [s' |]; cbn [res_fst]; [| done].
  unfold free_table. cbn. by destruct (Pmm.pmm_free_frame t s'.1).
Qed.

Lemma free_pt_item m pd j s : res_fst (free_pt m pd j s) = Shm.free_frames (pd_item m pd j) s.1.
Proof.
  unfold free_pt, pd_item. cbv zeta. case_if; [done |]. by apply (free_level m), free_entry_item.
Qed.

Lemma free_pd_item m pdpt i s : res_fst (free_pd m pdpt i s) = Shm.free_frames (pdpt_item m pdpt i) s.1.
Proof.
  unfold free_pd, pdpt_item. cbv zeta. case_if; [done |]. case_if; [done |]. by apply (free_level m), free_pt_item.
Qed.

Definition without (a : Z) (p : Pmm.pmm) (v : vm) : vm :=
  let v := with_frames p v in
  let v := with_cpus (scrub (Space a) <$> cpus v) v in
  with_spaces (delete a (spaces v)) v.

(** The whole routine is one run over that list. *)
Lemma free_addrspace_frames c a v :
  this_space c v <> Some (Space a) ->
  paging_free_addrspace c (Some (Space a)) v =
  match Shm.free_frames (freed (memory v) (root v (Space a))) (frames v) with
  | Ret p => Ret (without a p v)
  | Panic => Panic
  end.
Proof.
  intros Hc. unfold paging_free_addrspace. rewrite bool_decide_eq_false_2 by done. unfold freed. cbv zeta.
  rewrite free_frames_app, <- (fold_res_frees (free_pd (memory v) _) _ _ (free_pd_item (memory v) _)
    (frames v, the_space v (Space a))).
  destruct (fold_res _ _ _) as [[p x] |]; cbn [res_fst fst Shm.free_frames]; [| done].
  destruct (Pmm.pmm_free_frame _ p) as [p1 |]; [| done]. by destruct (Pmm.pmm_free_frame _ p1).
Qed.

(** ** What is in the list

    Every table of the space that is its own, and every page: a frame is
    reached by exactly one path of indices or page number. *)

Definition page_no (i j k : Z) : Z := i * 2 ^ 18 + j * 2 ^ 9 + k.

Lemma page_no_spec i j k :
  0 <= i < 512 -> 0 <= j < 512 -> 0 <= k < 512 ->
  path_of (page_no i j k) = [j; i; 0] /\ (page_no i j k) `mod` 512 = k /\ 0 <= page_no i j k < 2 ^ 36.
Proof.
  intros Hi Hj Hk. unfold page_no, path_of. split; [| split; zlia].
  f_equal; [zlia |]. f_equal; [zlia |]. f_equal. zlia.
Qed.

Lemma page_no_inv q :
  0 <= q < 2 ^ 36 -> (q / 2 ^ 27) `mod` 512 = 0 ->
  exists i j k, q = page_no i j k /\ 0 <= i < 512 /\ 0 <= j < 512 /\ 0 <= k < 512.
Proof.
  intros Hq H0. exists (q / 2 ^ 18), ((q / 512) `mod` 512), (q `mod` 512). unfold page_no.
  split_and!; zlia.
Qed.

Section keys.
Context (o : Z -> Prop) (v : vm) (a : Z).
Context (Hok : vm_ok o v) (Hl : live v a).
Context (Hpriv : forall q e, 0 <= q < 2 ^ 36 -> shared (path_of q) = false ->
  page v (Space a) q = Some e -> ~ o (FRAME_OF e / 4096)).

Definition at_key (x : Z) (key : list Z + Z) : Prop :=
  match key with
  | inl path => valid path /\ shared path = false /\ table v (Space a) path = Some x
  | inr q => 0 <= q < 2 ^ 36 /\ shared (path_of q) = false /\ exists e, page v (Space a) q = Some e /\ FRAME_OF e = x
  end.

Lemma at_key_unique x key key' : at_key x key -> at_key x key' -> key = key'.
Proof.
  destruct key as [path | q], key' as [path' | q']; cbn.
  - intros (Hv & Hs & E) (Hv' & Hs' & E'). f_equal.
    by pose proof (ok_inj _ _ _ _ Hok _ _ _ _ _ Hv Hv' E E') as [_ ?]%owner_user.
  - intros (Hv & Hs & E) (Hq & Hs' & e & Ee & <-).
    destruct (ok_leaf _ _ _ _ Hok a q' e Hq Hs' Ee) as [_ Hn]. by destruct (Hn (Space a) path Hv).
  - intros (Hq & Hs' & e & Ee & <-) (Hv & Hs & E).
    destruct (ok_leaf _ _ _ _ Hok a q e Hq Hs' Ee) as [_ Hn]. by destruct (Hn (Space a) path' Hv).
  - intros (Hq & Hs & e & Ee & <-) (Hq' & Hs' & e' & Ee' & EF). f_equal.
    destruct (ok_priv _ _ _ _ Hok a q e a q' e') as [_ ?]; try done. exact (Hpriv q e Hq Hs Ee).
Qed.

Lemma at_key_taken x key : at_key x key -> exists g, x = g * 4096 /\ taken (frames v) g /\ ~ o g.
Proof.
  destruct key as [path | q]; cbn.
  - intros (Hv & Hs & E). exists (x / 4096). destruct (ok_frame _ _ _ _ Hok _ _ _ Hv E) as (Hp & _ & Ht).
    split; [by apply paged_frame | split; [done |]]. by apply (ok_utab _ _ _ _ Hok a path).
  - intros (Hq & Hs & e & Ee & <-). exists (FRAME_OF e / 4096).
    destruct (ok_leaf _ _ _ _ Hok a q e Hq Hs Ee) as [Ht _].
    split; [apply paged_frame, FRAME_OF_paged | split; [done | exact (Hpriv q e Hq Hs Ee)]].
Qed.

Lemma pt_item_in i j k t x :
  0 <= i < 512 -> 0 <= j < 512 -> 0 <= k < 512 -> shared [j; i; 0] = false ->
  table v (Space a) [j; i; 0] = Some t ->
  x ∈ pt_item (memory v) t k <-> at_key x (inr (page_no i j k)).
Proof.
  intros Hi Hj Hk Hs Et. destruct (page_no_spec i j k Hi Hj Hk) as (Ep & Em & Hr).
  unfold pt_item, at_key, pte. rewrite Ep, Em, <- (entry_at v _ _ _ k Et). cbv zeta.
  destruct (has (slot (memory v) t k) PTE_PRESENT).
  - rewrite list_elem_of_singleton. naive_solver.
  - split; [by intros ?%not_elem_of_nil | naive_solver].
Qed.

Definition under_pd (x i j : Z) : Prop :=
  at_key x (inl [j; i; 0]) \/ exists k, 0 <= k < 512 /\ at_key x (inr (page_no i j k)).

Lemma elem_bind_seq (F : Z -> list Z) lo n x : x ∈ (seqZ lo n ≫= F) <-> exists i, lo <= i < lo + n /\ x ∈ F i.
Proof. rewrite list_elem_of_bind. setoid_rewrite elem_of_seqZ. naive_solver. Qed.

Lemma pd_item_in i j t x :
  0 <= i < 512 -> 0 <= j < 512 -> shared [j; i; 0] = false ->
  table v (Space a) [i; 0] = Some t -> x ∈ pd_item (memory v) t j <-> under_pd x i j.
Proof.
  intros Hi Hj Hs Et. pose proof (valid3 j i Hj Hi) as Hv.
  destruct (ok_entry _ _ _ _ Hok a [i; 0] j Hv Hs) as [Hh _].
  unfold pd_item. cbv zeta. rewrite (entry_at v _ _ _ j Et), Hh, orb_false_r.
  destruct (has (entry v (Space a) [i; 0] j) PTE_PRESENT) eqn:Hp; cbn [negb].
  - pose proof (table_at v (Space a) j [i; 0] Hp Hh) as T. rewrite elem_of_app, elem_bind_seq, list_elem_of_singleton.
    unfold under_pd. split.
    + intros [(k & Hk & Hx) | ->]; [right; exists k; split; [lia |]; by apply (pt_item_in i j k _ x Hi Hj Hk Hs T) | by left].
    + intros [(_ & _ & E) | (k & Hk & Hx)]; [right; congruence | left; exists k; split; [lia |]].
      by apply (pt_item_in i j k _ x Hi Hj Hk Hs T).
  - split; [by intros ?%not_elem_of_nil |].
    assert (T : table v (Space a) [j; i; 0] = None) by (rewrite tb_cons; cbv zeta; by rewrite Hp).
    intros [(_ & _ & E) | (k & Hk & Hr & _ & e & E & _)]; [congruence |].
    destruct (page_no_spec i j k Hi Hj Hk) as (Ep & Em & _). unfold pte in E.
    by rewrite Ep, (entry_below _ _ _ _ _ Hp) in E.
Qed.

Definition under_pdpt (x i : Z) : Prop :=
  at_key x (inl [i; 0]) \/ exists j, 0 <= j < 512 /\ under_pd x i j.

Lemma pdpt_item_in i t x :
  0 < i < 512 -> table v (Space a) [0] = Some t -> x ∈ pdpt_item (memory v) t i <-> under_pdpt x i.
Proof.
  intros Hi Et. assert (Hi' : 0 <= i < 512) by lia. pose proof (valid2 i Hi') as Hv.
  unfold pdpt_item. cbv zeta. rewrite (entry_at v _ _ _ i Et). change (PDPT_INDEX DEVICE_WINDOW) with 3.
  destruct (Z.eqb_spec i 3) as [-> | Hne].
  { case_if; (split; [by intros ?%not_elem_of_nil |]); intros [(_ & ? & _) | (j & Hj & [(_ & ? & _) | (k & Hk & _ & Hs & _)])]; try done.
    all: destruct (page_no_spec 3 j k) as (E & _); try lia; rewrite E in Hs; done. }
  assert (Hs : shared [i; 0] = false).
  { cbn. destruct (Z.eqb_spec i 0), (Z.eqb_spec i 3); done || lia. }
  destruct (ok_entry _ _ _ _ Hok a [0] i Hv Hs) as [Hh _].
  destruct (has (entry v (Space a) [0] i) PTE_PRESENT) eqn:Hp; cbn [negb].
  - pose proof (table_at v (Space a) i [0] Hp Hh) as T. rewrite elem_of_app, elem_bind_seq, list_elem_of_singleton.
    unfold under_pdpt. split.
    + intros [(j & Hj & Hx) | ->]; [right; exists j; split; [lia |]; by apply (pd_item_in i j _ x Hi' Hj Hs T) | by left].
    + intros [(_ & _ & E) | (j & Hj & Hx)]; [right; congruence | left; exists j; split; [lia |]].
      by apply (pd_item_in i j _ x Hi' Hj Hs T).
  - split; [by intros ?%not_elem_of_nil |].
    assert (T : table v (Space a) [i; 0] = None) by (rewrite tb_cons; cbv zeta; by rewrite Hp).
    intros [(_ & _ & E) | (j & Hj & [(_ & _ & E) | (k & Hk & Hr & _ & e & E & _)])]; [congruence | |].
    + by rewrite (table_None _ _ _ _ T) in E.
    + destruct (page_no_spec i j k Hi' Hj Hk) as (Ep & Em & _). unfold pte, ent in E.
      by rewrite Ep, (table_None _ _ _ _ T) in E.
Qed.

(** Paths of the space's own tables go through the first top entry. *)
Lemma at_key_top x key :
  at_key x key ->
  key = inl [] \/ key = inl [0] \/ exists i, 0 < i < 512 /\ under_pdpt x i.
Proof.
  assert (H0 : forall z, 0 <= z < 512 -> z <> 0 -> table v (Space a) [z] = None).
  { intros z Hz Hne. rewrite tb_cons. cbv zeta. destruct (has (entry v (Space a) [] z) PTE_PRESENT) eqn:E; [| done].
    destruct Hne. by apply (ok_top _ _ _ _ Hok a). }
  assert (Hpos : forall i, 0 <= i < 512 -> shared [i; 0] = false -> 0 < i < 512).
  { intros i Hi Hs. destruct (decide (i = 0)) as [-> |]; [done | lia]. }
  destruct key as [path | q]; intros Hk.
  - destruct Hk as (Hv & Hs & E). destruct path as [| i [| j [| z [| ? ?]]]]; [by left | ..].
    + apply valid_cons in Hv as (Hi & _). destruct (decide (i = 0)) as [-> |]; [by right; left |].
      by rewrite H0 in E.
    + pose proof Hv as (Hi & (Hj & _)%valid_cons & _)%valid_cons.
      destruct (decide (j = 0)) as [-> |]; [| by rewrite (table_None _ _ _ _ (H0 j Hj n)) in E].
      right; right. exists i. split; [by apply Hpos |]. by left.
    + pose proof Hv as (Hi & (Hj & (Hz & _)%valid_cons & _)%valid_cons & _)%valid_cons.
      destruct (decide (z = 0)) as [-> |].
      2: { rewrite (table_None _ _ _ _ (table_None _ _ _ _ (H0 z Hz n))) in E. done. }
      right; right. exists j. split; [by apply Hpos |]. right. exists i. split; [done |]. by left.
    + destruct Hv as [_ Hv]. cbn in Hv. lia.
  - destruct Hk as (Hq & Hs & e & Ee & Ef). right; right.
    destruct (decide ((q / 2 ^ 27) `mod` 512 = 0)) as [Hz | Hz].
    + destruct (page_no_inv q Hq Hz) as (i & j & k & -> & Hi & Hj & Hk).
      destruct (page_no_spec i j k Hi Hj Hk) as (Ep & _). rewrite Ep in Hs.
      exists i. split; [by apply Hpos |]. right. exists j. split; [done |]. right. exists k. split; [done |].
      split; [done |]. rewrite Ep. split; [done |]. by exists e.
    + exfalso. unfold pte, ent, path_of in Ee.
      rewrite (table_None _ _ _ _ (table_None _ _ _ _ (H0 ((q / 2 ^ 27) `mod` 512) ltac:(apply Z.mod_pos_bound; lia) Hz))) in Ee. done.
Qed.

Lemma freed_in x : x ∈ freed (memory v) (root v (Space a)) <-> exists key, at_key x key.
Proof.
  destruct (top_table o v a Hok Hl) as (d & Er & Ed).
  destruct (ok_entry _ _ _ _ Hok a [] 0 valid1 eq_refl) as [Hh _].
  assert (Ef : FRAME_OF (slot (memory v) (root v (Space a)) 0) = d).
  { rewrite (entry_at v _ _ _ 0 Er). rewrite tb_cons in Ed. cbv zeta in Ed. rewrite Hh in Ed. case_if; [by injection Ed | done]. }
  unfold freed. cbv zeta. rewrite Ef, elem_of_app, elem_bind_seq, !elem_of_cons. split.
  - intros [(i & Hi & Hx) | [-> | [-> | Hn]]].
    + apply (pdpt_item_in i d x ltac:(lia) Ed) in Hx as [Hx | (j & _ & [Hx | (k & _ & Hx)])]; by eexists.
    + exists (inl [0]). by split; [apply valid1 |].
    + exists (inl []). by split; [apply valid_nil |].
    + by apply not_elem_of_nil in Hn.
  - intros [key Hk]. destruct (at_key_top x key Hk) as [-> | [-> | (i & Hi & Hx)]].
    + right. right. left. destruct Hk as (_ & _ & E). congruence.
    + right. left. destruct Hk as (_ & _ & E). congruence.
    + left. exists i. split; [lia |]. by apply (pdpt_item_in i d x ltac:(lia) Ed).
Qed.

(** ** Each frame once *)

Lemma under_pd_key x i j : under_pd x i j -> exists key, at_key x key /\
  (key = inl [j; i; 0] \/ exists k, 0 <= k < 512 /\ key = inr (page_no i j k)).
Proof. intros [Hx | (k & Hk & Hx)]; eexists; split; [exact Hx | by left | exact Hx | right; by exists k]. Qed.

Lemma under_pd_inj x i j i' j' :
  0 <= i < 512 -> 0 <= j < 512 -> 0 <= i' < 512 -> 0 <= j' < 512 ->
  under_pd x i j -> under_pd x i' j' -> i = i' /\ j = j'.
Proof.
  intros Hi Hj Hi' Hj' (key & Hk & Ek)%under_pd_key (key' & Hk' & Ek')%under_pd_key.
  pose proof (at_key_unique x key key' Hk Hk') as <-.
  destruct Ek as [-> | (k & Hk1 & ->)], Ek' as [E | (k' & Hk2 & E)]; try done; injection E as E; [done |].
  unfold page_no in E. lia.
Qed.

Lemma under_pdpt_inj x i i' :
  0 <= i < 512 -> 0 <= i' < 512 -> under_pdpt x i -> under_pdpt x i' -> i = i'.
Proof.
  intros Hi Hi' [Hx | (j & Hj & Hx)] [Hx' | (j' & Hj' & Hx')].
  - by pose proof (at_key_unique _ _ _ Hx Hx') as [= ->].
  - apply under_pd_key in Hx' as (key & Hk & [-> | (k & _ & ->)]); by pose proof (at_key_unique _ _ _ Hx Hk).
  - apply under_pd_key in Hx as (key & Hk & [-> | (k & _ & ->)]); by pose proof (at_key_unique _ _ _ Hx' Hk).
  - by destruct (under_pd_inj x i j i' j').
Qed.

(** A list built table by table has no duplicates when the tables' lists do not
    meet. *)
Lemma NoDup_level (F : Z -> list Z) lo n tail :
  (forall i, lo <= i < lo + n -> NoDup (F i)) ->
  (forall i i' x, lo <= i < lo + n -> lo <= i' < lo + n -> x ∈ F i -> x ∈ F i' -> i = i') ->
  NoDup tail -> (forall i x, lo <= i < lo + n -> x ∈ F i -> x ∉ tail) ->
  NoDup ((seqZ lo n ≫= F) ++ tail).
Proof.
  intros HF Hd Ht Hnt. apply NoDup_app. split; [| split; [| done]].
  - apply NoDup_bind; [| intros i Hi%elem_of_seqZ; by apply HF | apply NoDup_seqZ].
    intros i i' x Hi%elem_of_seqZ Hi'%elem_of_seqZ. by apply Hd.
  - intros x (i & Hi & Hx)%elem_bind_seq. by apply (Hnt i).
Qed.

Lemma pd_item_NoDup i j t :
  0 <= i < 512 -> 0 <= j < 512 -> shared [j; i; 0] = false -> table v (Space a) [i; 0] = Some t ->
  NoDup (pd_item (memory v) t j).
Proof.
  intros Hi Hj Hs Et. pose proof (valid3 j i Hj Hi) as Hv.
  destruct (ok_entry _ _ _ _ Hok a [i; 0] j Hv Hs) as [Hh _].
  unfold pd_item. cbv zeta. rewrite (entry_at v _ _ _ j Et), Hh, orb_false_r.
  destruct (has (entry v (Space a) [i; 0] j) PTE_PRESENT) eqn:Hp; [| apply NoDup_nil_2]. cbn [negb].
  pose proof (table_at v (Space a) j [i; 0] Hp Hh) as T. apply NoDup_level.
  - intros k Hk. unfold pt_item. cbv zeta. case_if; [apply NoDup_singleton | apply NoDup_nil_2].
  - intros k k' x Hk Hk' Hx Hx'. apply (pt_item_in i j k _ x Hi Hj Hk Hs T) in Hx. apply (pt_item_in i j k' _ x Hi Hj Hk' Hs T) in Hx'.
    pose proof (at_key_unique _ _ _ Hx Hx') as [= E]. unfold page_no in E. lia.
  - apply NoDup_singleton.
  - intros k x Hk Hx ->%list_elem_of_singleton. apply (pt_item_in i j k _ _ Hi Hj Hk Hs T) in Hx.
    assert (Hx' : at_key (FRAME_OF (entry v (Space a) [i; 0] j)) (inl [j; i; 0])) by done.
    by pose proof (at_key_unique _ _ _ Hx Hx').
Qed.

Lemma pdpt_item_NoDup i t :
  0 < i < 512 -> table v (Space a) [0] = Some t -> NoDup (pdpt_item (memory v) t i).
Proof.
  intros Hi Et. assert (Hi' : 0 <= i < 512) by lia. pose proof (valid2 i Hi') as Hv.
  unfold pdpt_item. cbv zeta. rewrite (entry_at v _ _ _ i Et). change (PDPT_INDEX DEVICE_WINDOW) with 3.
  destruct (has (entry v (Space a) [0] i) PTE_PRESENT) eqn:Hp; [| apply NoDup_nil_2]. cbn [negb].
  destruct (Z.eqb_spec i 3) as [-> | Hne]; [apply NoDup_nil_2 |].
  assert (Hs : shared [i; 0] = false) by (cbn; destruct (Z.eqb_spec i 0), (Z.eqb_spec i 3); done || lia).
  destruct (ok_entry _ _ _ _ Hok a [0] i Hv Hs) as [Hh _].
  pose proof (table_at v (Space a) i [0] Hp Hh) as T. apply NoDup_level.
  - intros j Hj. by apply (pd_item_NoDup i j).
  - intros j j' x Hj Hj' Hx Hx'. apply (pd_item_in i j _ x Hi' Hj Hs T) in Hx. apply (pd_item_in i j' _ x Hi' Hj' Hs T) in Hx'.
    by destruct (under_pd_inj x i j i j').
  - apply NoDup_singleton.
  - intros j x Hj Hx ->%list_elem_of_singleton. apply (pd_item_in i j _ _ Hi' Hj Hs T) in Hx.
    assert (Hx' : at_key (FRAME_OF (entry v (Space a) [0] i)) (inl [i; 0])) by done.
    apply under_pd_key in Hx as (key & Hk & [-> | (k & _ & ->)]); by pose proof (at_key_unique _ _ _ Hx' Hk).
Qed.

Lemma freed_NoDup : NoDup (freed (memory v) (root v (Space a))).
Proof.
  destruct (top_table o v a Hok Hl) as (d & Er & Ed).
  destruct (ok_entry _ _ _ _ Hok a [] 0 valid1 eq_refl) as [Hh _].
  assert (Ef : FRAME_OF (slot (memory v) (root v (Space a)) 0) = d).
  { rewrite (entry_at v _ _ _ 0 Er). rewrite tb_cons in Ed. cbv zeta in Ed. rewrite Hh in Ed. case_if; [by injection Ed | done]. }
  assert (Hd : at_key d (inl [0])) by (by split; [apply valid1 |]).
  assert (Hr : at_key (root v (Space a)) (inl [])) by (by split; [apply valid_nil |]).
  unfold freed. cbv zeta. rewrite Ef. apply NoDup_level.
  - intros i Hi. apply pdpt_item_NoDup; [lia | done].
  - intros i i' x Hi Hi' Hx Hx'. apply (pdpt_item_in i d x ltac:(lia) Ed) in Hx.
    apply (pdpt_item_in i' d x ltac:(lia) Ed) in Hx'. apply (under_pdpt_inj x); done || lia.
  - apply NoDup_cons. split; [| apply NoDup_singleton]. intros E%list_elem_of_singleton. rewrite E in Hd.
    by pose proof (at_key_unique _ _ _ Hd Hr).
  - intros i x Hi Hx Hin. apply (pdpt_item_in i d x ltac:(lia) Ed) in Hx.
    assert (Hk : exists key, at_key x key /\ (key = inl [0] \/ key = inl [])).
    { rewrite !elem_of_cons in Hin. destruct Hin as [-> | [-> | Hn]]; [by exists (inl [0]); auto | by exists (inl []); auto |].
      by apply not_elem_of_nil in Hn. }
    destruct Hk as (key & Hk & Ek). destruct Hx as [Hx | (j & Hj & (key' & Hx & Ek')%under_pd_key)].
    + pose proof (at_key_unique _ _ _ Hk Hx) as ->. by destruct Ek.
    + pose proof (at_key_unique _ _ _ Hk Hx) as ->. destruct Ek as [-> | ->], Ek' as [? | (? & _ & ?)]; done.
Qed.

Lemma freed_owned : Shm.owned (frames v) (freed (memory v) (root v (Space a))).
Proof.
  split; [apply freed_NoDup |]. apply Forall_forall. intros x [key Hk]%freed_in.
  apply at_key_taken in Hk as (g & -> & [? ?] & _). by exists g.
Qed.
End keys.

(** ** The spaces that are left *)

Lemma roots_without a p v s : roots (without a p v) s = if decide (s = Space a) then None else roots v s.
Proof.
  unfold roots, without, rt. cbn. destruct s as [| b]; [done |]. rewrite fmap_delete.
  destruct (decide (b = a)) as [-> | Hne].
  - by rewrite lookup_delete_eq, decide_True.
  - rewrite lookup_delete_ne by done. by rewrite decide_False by congruence.
Qed.

Lemma tb_roots R R' m s path : R' s = R s -> tb R' m s path = tb R m s path.
Proof. unfold tb. by intros ->. Qed.

Lemma pte_roots R R' m s q : R' s = R s -> pte R' m s q = pte R m s q.
Proof. intros E. unfold pte, ent. by rewrite (tb_roots R R' m s) by done. Qed.

Lemma table_without a p v s path :
  table (without a p v) s path = if decide (s = Space a) then None else table v s path.
Proof.
  pose proof (roots_without a p v s) as E. case_decide as Hd.
  - unfold tb. by rewrite E.
  - by apply tb_roots.
Qed.

Lemma entry_without a p v s path i : s <> Space a -> entry (without a p v) s path i = entry v s path i.
Proof. intros Hs. unfold ent. rewrite table_without. by rewrite decide_False. Qed.

Lemma page_without a p v s q :
  page (without a p v) s q = if decide (s = Space a) then None else page v s q.
Proof.
  pose proof (roots_without a p v s) as E. case_decide as Hd.
  - unfold pte, ent, tb. by rewrite E.
  - by apply pte_roots.
Qed.

(** Frames of [a]: own tables and pages. *)
Definition of_space (v : vm) (a g : Z) : Prop := exists key, at_key v a (g * 4096) key.

Lemma of_space_table v a path t : valid path -> shared path = false -> table v (Space a) path = Some t ->
  paged t -> of_space v a (t / 4096).
Proof. intros Hv Hs E Hp. exists (inl path). rewrite <- (paged_frame t) by done. done. Qed.

Lemma of_space_page v a q e : 0 <= q < 2 ^ 36 -> shared (path_of q) = false -> page v (Space a) q = Some e ->
  of_space v a (FRAME_OF e / 4096).
Proof.
  intros Hq Hs E. exists (inr q). rewrite <- (paged_frame (FRAME_OF e)) by apply FRAME_OF_paged. cbn.
  split; [done | split; [done |]]. by exists e.
Qed.

(** Nothing of [a] is anybody else's. *)
Lemma of_space_other o v a s path t :
  vm_ok o v -> live v a ->
  (forall q e, 0 <= q < 2 ^ 36 -> shared (path_of q) = false -> page v (Space a) q = Some e -> ~ o (FRAME_OF e / 4096)) ->
  s <> Space a -> valid path -> table v s path = Some t -> ~ of_space v a (t / 4096).
Proof.
  intros Hok Hl Hpriv Hs Hv E. destruct (ok_frame _ _ _ _ Hok s path t Hv E) as (Hp & _ & _).
  intros [key Hk]. rewrite <- (paged_frame t) in Hk by done. destruct key as [path' | q].
  - destruct Hk as (Hv' & Hs' & E'). pose proof (ok_inj _ _ _ _ Hok _ _ _ _ _ Hv Hv' E E') as [? _]%owner_user; done.
  - destruct Hk as (Hq & Hs' & e & Ee & Ef). destruct (ok_leaf _ _ _ _ Hok a q e Hq Hs' Ee) as [_ Hn].
    apply (Hn s path Hv). congruence.
Qed.

Lemma of_space_other_page o v a b q e :
  vm_ok o v -> live v a ->
  (forall q e, 0 <= q < 2 ^ 36 -> shared (path_of q) = false -> page v (Space a) q = Some e -> ~ o (FRAME_OF e / 4096)) ->
  b <> a -> 0 <= q < 2 ^ 36 -> shared (path_of q) = false -> page v (Space b) q = Some e ->
  ~ of_space v a (FRAME_OF e / 4096).
Proof.
  intros Hok Hl Hpriv Hb Hq Hs E [key Hk]. rewrite <- (paged_frame (FRAME_OF e)) in Hk by apply FRAME_OF_paged.
  destruct key as [path | q'].
  - destruct Hk as (Hv & _ & Et). destruct (ok_leaf _ _ _ _ Hok b q e Hq Hs E) as [_ Hn]. by apply (Hn _ path Hv Et).
  - destruct Hk as (Hq' & Hs' & e' & Ee & Ef). apply Hb. symmetry.
    apply (ok_priv _ _ _ _ Hok a q' e' b q e Hq' Hq Hs' Hs Ee E); [done |]. by apply (Hpriv q').
Qed.

Lemma ok_without o v a p :
  vm_ok o v -> live v a ->
  (forall q e, 0 <= q < 2 ^ 36 -> shared (path_of q) = false -> page v (Space a) q = Some e -> ~ o (FRAME_OF e / 4096)) ->
  Pmm.pmm_inv p -> Pmm.total_frames p = Pmm.total_frames (frames v) ->
  (forall g, taken p g <-> in_use v g /\ ~ of_space v a g) ->
  vm_ok o (without a p v).
Proof.
  intros Hok Hl Hpriv Hp Ht Hu.
  pose proof (fun s path t => of_space_other o v a s path t Hok Hl Hpriv) as Hoth.
  pose proof (fun b q e => of_space_other_page o v a b q e Hok Hl Hpriv) as Hothp.
  assert (Hsp : forall b, Space b <> Space a -> b <> a) by (intros b Hb ->; done).
  assert (Hoa : forall g, o g -> ~ of_space v a g).
  { intros g Hg [key Hk]. apply (at_key_taken o v a Hok Hpriv) in Hk as (g' & E & _ & Hno).
    assert (g' = g) as -> by lia. done. }
  destruct Hok as [A1 A0 A2 A3 A4 A5 A6 A7 A8 A9 A10 A11 A12 A13 A14].
  assert (Hk : KSpace <> Space a) by done. split; try done; change (frames (without a p v)) with p.
  - lia.
  - intros s path t Hv. rewrite table_without. case_decide; [done |]. intros E.
    destruct (A2 s path t Hv E) as (? & ? & ?). split_and!; try done. apply Hu. split; [done |]. by apply (Hoth s path).
  - intros s path s' path' t Hv Hv'. rewrite !table_without. repeat case_decide; try done. by apply A3.
  - intros b r. rewrite roots_without. case_decide as Hb; [done |]. intros Hr. rewrite table_without, decide_False by done.
    destruct (A6 b r Hr) as [? HB]. split; [done |]. intros j Hj. rewrite !entry_without by done. auto.
  - intros b path i Hv Hs. unfold ent. rewrite table_without. case_decide; [done |].
    exact (A7 b path i Hv Hs).
  - intros b i Hi. unfold ent. rewrite table_without. case_decide; [done |].
    exact (A8 b i Hi).
  - intros g Hg. apply Hu. auto.
  - intros b path t Hv Hs. rewrite table_without. case_decide; [done |]. by apply A11.
  - intros b q e Hq Hs. rewrite page_without. case_decide as Hb; [done |]. intros E.
    destruct (A12 b q e Hq Hs E) as [? Hn]. split.
    + apply Hu. split; [done |]. apply (Hothp b q); auto.
    + intros s path Hv. rewrite table_without. case_decide; [done |]. by apply Hn.
  - intros b q e b' q' e' Hq Hq' Hs Hs'. rewrite !page_without. repeat case_decide; try done. by apply A13.
  - intros g [Hg Hn]%Hu. destruct (A14 g Hg) as [? | [(b & path & t & Hv & Hs & E & ->) | (b & q & e & Hq & Hs & E & ->)]].
    + by left.
    + right; left. exists b, path, t. rewrite table_without. case_decide as Hb; [| done].
      injection Hb as ->. destruct Hn. apply (of_space_table v a path); try done. by apply (A2 (Space a) path).
    + right; right. exists b, q, e. rewrite page_without. case_decide as Hb; [| done].
      injection Hb as ->. destruct Hn. by apply (of_space_page v a q).
Qed.

(** ** The routine *)

Lemma paging_free_spec o c a v :
  vm_ok o v -> live v a -> this_space c v <> Some (Space a) ->
  (forall q e, 0 <= q < 2 ^ 36 -> shared (path_of q) = false -> page v (Space a) q = Some e -> ~ o (FRAME_OF e / 4096)) ->
  exists p, paging_free_addrspace c (Some (Space a)) v = Ret (without a p v) /\
    vm_ok o (without a p v) /\ forall g, taken p g <-> in_use v g /\ ~ of_space v a g.
Proof.
  intros Hok Hl Hc Hpriv. rewrite free_addrspace_frames by done.
  destruct (Shm.free_frames_spec (freed (memory v) (root v (Space a))) (frames v) (ok_pmm _ _ _ _ Hok)) as (p & -> & Hp & Ht & Hu).
  { by apply (freed_owned o). }
  assert (Hk : forall g, taken p g <-> in_use v g /\ ~ of_space v a g).
  { intros g. unfold taken. rewrite Ht. assert (Hh : Shm.holds (freed (memory v) (root v (Space a))) g = true <-> of_space v a g).
    { unfold Shm.holds. rewrite bool_decide_eq_true. by apply (freed_in o). }
    destruct (Shm.holds _ g) eqn:E.
    - split; [| intros [_ Hn]; destruct Hn; by apply Hh]. intros [Hg Hgu]. rewrite Hu, E, andb_false_r in Hgu by lia. done.
    - split.
      + intros [Hg Hgu]. rewrite Hu in Hgu by lia. apply andb_prop in Hgu as [? _]. split; [done |].
        intros Hs%Hh. done.
      + intros [[Hg Hgu] _]. split; [done |]. by rewrite Hu, Hgu, E by lia. }
  exists p. split; [done |]. split; [by apply (ok_without o) | done].
Qed.

End PagingFree.
