(* ===== verification/PagingNew.v ===== *)
(** Making address spaces: the kernel's at boot, [paging_init], and a process's,
    [paging_new_addrspace]. *)

From S2P Require Import Prelude Pmm Sched Paging PagingInv PagingSpec PagingFree.

Module PagingNew.

Import Sched (aspace, KSpace, Space).
Import Paging PagingInv PagingSpec PagingFree.

#[local] Opaque zero_bytes load64 store64.

(** ** A top table and a table below it that borrows from the kernel *)

Section new.
Context (R R' : aspace -> option Z) (o : Z -> Prop) (m : mem) (p : Pmm.pmm) (a f1 f2 : Z).
Notation top := (f1 * 4096).
Notation dir := (f2 * 4096).
Context (Hok : ok R (plus (plus o f1) f2) m p) (Hno1 : ~ o f1) (Hno2 : ~ o f2) (Hne : f1 <> f2).
Context (Ha : R (Space a) = None) (Ra : R' (Space a) = Some top) (Rs : forall s, s <> Space a -> R' s = R s).
Context (Hnt1 : ~ tabled R m f1) (Hnt2 : ~ tabled R m f2) (Hnl1 : ~ leafed R m f1) (Hnl2 : ~ leafed R m f2).
Context (Hlow1 : top < 2 ^ 30) (Hlow2 : dir < 2 ^ 30).
Context (Stop : forall i, 0 <= i < 512 -> slot m top i = if i =? 0 then Z.lor dir 7 else 0).
Context (Sdir : forall j, 0 <= j < 512 ->
  slot m dir j = if ((j =? 0) || (j =? 3))%bool then ent R m KSpace [0] j else 0).

Lemma new_frames : taken p f1 /\ taken p f2 /\ paged top /\ paged dir.
Proof.
  assert (T1 : taken p f1) by (apply (ok_other _ _ _ _ Hok); left; by right).
  assert (T2 : taken p f2) by (apply (ok_other _ _ _ _ Hok); by right).
  destruct T1 as [? ?], T2 as [? ?]. split; [done | split; [done |]]. split; split; zlia.
Qed.

Lemma new_tb path : valid path ->
  tb R' m (Space a) path =
  match path with
  | [] => Some top
  | [z] => if z =? 0 then Some dir else None
  | _ => if shared path then tb R m KSpace path else None
  end.
Proof.
  destruct new_frames as (_ & _ & Pt & Pd). destruct (entry_bits dir 7 Pd) as (Xf & _ & Xp & _ & _ & Xh); [lia |].
  assert (T0 : tb R' m (Space a) [] = Some top) by (unfold tb; by rewrite Ra).
  assert (T1 : forall z, 0 <= z < 512 -> tb R' m (Space a) [z] = if z =? 0 then Some dir else None).
  { intros z Hz. rewrite tb_cons. unfold ent. rewrite T0, Stop by done. destruct (z =? 0); [| done].
    cbv zeta. by rewrite Xp, Xh, Xf. }
  assert (T2 : forall j z, 0 <= j < 512 -> 0 <= z < 512 ->
    tb R' m (Space a) [j; z] = if shared [j; z] then tb R m KSpace [j; z] else None).
  { intros j z Hj Hz. rewrite (tb_cons R' m), (tb_cons R m). unfold ent at 1. rewrite T1 by done. cbn [shared].
    destruct (Z.eqb_spec z 0) as [-> |]; [| done]. cbn [andb]. rewrite Sdir by done.
    by destruct ((j =? 0) || (j =? 3))%bool. }
  intros Hv. destruct path as [| i [| j [| z [| ? ?]]]]; try done.
  - apply valid_cons in Hv as (Hi & _). by apply T1.
  - pose proof Hv as (Hi & (Hj & _)%valid_cons & _)%valid_cons. by apply T2.
  - pose proof Hv as (Hi & (Hj & (Hz & _)%valid_cons & _)%valid_cons & _)%valid_cons.
    rewrite (tb_cons R' m), (tb_cons R m). unfold ent. rewrite T2 by done.
    change (shared [i; j; z]) with (shared [j; z]). by destruct (shared [j; z]).
  - destruct Hv as [_ Hv]. cbn in Hv. lia.
Qed.

(** Deeper than the two tables, everything is the kernel's. *)
Lemma new_tb_shared path t :
  valid path -> tb R' m (Space a) path = Some t ->
  (path = [] /\ t = top) \/ (path = [0] /\ t = dir) \/ (shared path = true /\ tb R m KSpace path = Some t).
Proof.
  intros Hv. rewrite new_tb by done. destruct path as [| z [| j l]].
  - intros [= <-]. by left.
  - destruct (Z.eqb_spec z 0) as [-> |]; [| done]. intros [= <-]. right. by left.
  - destruct (shared (z :: j :: l)); [| done]. intros E. right. by right.
Qed.

Lemma new_ent path i :
  valid (i :: path) -> shared (i :: path) = false ->
  ent R' m (Space a) path i = if bool_decide (path = [] /\ i = 0) then Z.lor dir 7 else 0.
Proof.
  intros (Hi & Hv & Hl)%valid_cons Hs. unfold ent. rewrite new_tb by done. destruct path as [| z [| j [| ? l]]].
  - rewrite Stop by done. destruct (Z.eqb_spec i 0) as [-> |].
    + by rewrite bool_decide_eq_true_2.
    + rewrite bool_decide_eq_false_2; [done | naive_solver].
  - rewrite bool_decide_eq_false_2 by naive_solver. destruct (Z.eqb_spec z 0) as [-> |]; [| done]. rewrite Sdir by done.
    cbn [shared] in Hs. rewrite Z.eqb_refl in Hs. cbn [andb] in Hs. by rewrite Hs.
  - rewrite bool_decide_eq_false_2 by naive_solver. change (shared [i; z; j]) with (shared [z; j]) in Hs. by rewrite Hs.
  - cbn in Hl. lia.
Qed.

Lemma new_pte q : shared (path_of q) = false -> pte R' m (Space a) q = None.
Proof.
  intros Hs. unfold pte, ent. rewrite new_tb by apply path_of_valid.
  change (match path_of q with [] => _ | [z] => _ | _ => ?x end) with x. rewrite Hs. done.
Qed.

Lemma new_canon s path t :
  valid path -> tb R' m s path = Some t ->
  (s = Space a /\ path = [] /\ t = top) \/ (s = Space a /\ path = [0] /\ t = dir) \/
  exists s', tb R m s' path = Some t /\ owner s' path = owner s path.
Proof.
  intros Hv E. destruct (decide (s = Space a)) as [-> | Hs].
  - destruct (new_tb_shared path t Hv E) as [[-> ->] | [[-> ->] | [Hsh E']]]; [by left | by right; left |].
    right; right. exists KSpace. split; [done |]. unfold owner. by rewrite Hsh.
  - right; right. exists s. split; [| done]. by rewrite <- (tb_roots R R') by auto.
Qed.

Lemma new_tabled g : tabled R' m g <-> tabled R m g \/ g = f1 \/ g = f2.
Proof.
  split.
  - intros (s & path & Hv & E). destruct (new_canon s path _ Hv E) as [(_ & _ & ?) | [(_ & _ & ?) | (s' & E' & _)]].
    + right; left. lia.
    + right; right. lia.
    + left. by exists s', path.
  - intros [(s & path & Hv & E) | [-> | ->]].
    + exists s, path. split; [done |]. rewrite (tb_roots R R'); [done |]. apply Rs. intros ->. unfold tb in E. by rewrite Ha in E.
    + exists (Space a), []. split; [apply valid_nil |]. by rewrite new_tb by apply valid_nil.
    + exists (Space a), [0]. split; [apply valid1 |]. by rewrite new_tb by apply valid1.
Qed.

Lemma new_old b q e : shared (path_of q) = false -> pte R' m (Space b) q = Some e -> pte R m (Space b) q = Some e /\ b <> a.
Proof.
  intros Hs E. destruct (decide (b = a)) as [-> | Hb]; [by rewrite new_pte in E |].
  split; [| done]. rewrite (pte_roots R R') in E; [done |]. apply Rs. congruence.
Qed.

Lemma new_tb_user b path t :
  valid path -> shared path = false -> tb R' m (Space b) path = Some t ->
  (b = a /\ ((path = [] /\ t = top) \/ (path = [0] /\ t = dir))) \/ (b <> a /\ tb R m (Space b) path = Some t).
Proof.
  intros Hv Hs E. destruct (decide (b = a)) as [-> | Hb].
  - left. split; [done |]. destruct (new_tb_shared path t Hv E) as [[-> ->] | [[-> ->] | [Hsh _]]]; [by left | by right | congruence].
  - right. split; [done |]. rewrite <- (tb_roots R R'); [done |]. apply Rs. congruence.
Qed.

Lemma ok_new : ok R' o m p.
Proof.
  destruct new_frames as (T1 & T2 & Pt & Pd). destruct (entry_bits dir 7 Pd) as (_ & _ & Xp & Xw & Xu & Xh); [lia |].
  assert (Hk : KSpace <> Space a) by done.
  assert (Hkt : forall path, tb R' m KSpace path = tb R m KSpace path) by (intros; by apply tb_roots, Rs).
  assert (Hke : forall path i, ent R' m KSpace path i = ent R m KSpace path i) by (intros; unfold ent; by rewrite Hkt).
  assert (Hnt : forall s path, valid path -> tb R m s path <> Some top /\ tb R m s path <> Some dir).
  { intros s path Hv. split; intros E; [apply Hnt1 | apply Hnt2]; by exists s, path. }
  assert (Hod : top <> dir) by lia.
  pose proof new_old as Hold. pose proof new_tb_user as Htu. pose proof new_canon as Hcan.
  destruct Hok as [A1 A0 A2 A3 A4 A5 A6 A7 A8 A9 A10 A11 A12 A13 A14]. split; try done.
  - intros s path t Hv E. destruct (Hcan s path t Hv E) as [(_ & _ & ->) | [(_ & _ & ->) | (s' & E' & _)]];
      rewrite ?Z.div_mul by lia; [done | done | by apply (A2 s' path)].
  - intros s path s' path' t Hv Hv' E E'.
    destruct (Hcan s path t Hv E) as [(-> & -> & ->) | [(-> & -> & ->) | (s1 & E1 & <-)]],
      (Hcan s' path' _ Hv' E') as [(-> & -> & Et) | [(-> & -> & Et) | (s2 & E2 & <-)]]; try done;
      try (by destruct (Hnt s1 path Hv)); try (by destruct (Hnt s2 path' Hv')); try (subst t; by destruct (Hnt s1 path Hv)).
    by apply (A3 s1 path s2 path' t).
  - by rewrite Hkt.
  - intros j Hj. rewrite Hke. auto.
  - intros b r Hr. destruct (decide (b = a)) as [-> | Hb].
    + split; [exists dir; by rewrite new_tb by apply valid1 |]. intros j Hj. rewrite Hke. unfold ent at 1.
      rewrite new_tb by apply valid1. cbn [Z.eqb]. rewrite Sdir by lia. destruct Hj as [-> | ->]; done.
    + rewrite Rs in Hr by congruence. destruct (A6 b r Hr) as [[d Hd] HB].
      assert (HT : forall path, tb R' m (Space b) path = tb R m (Space b) path) by (intros; apply tb_roots, Rs; congruence).
      split; [exists d; by rewrite HT |]. intros j Hj. rewrite Hke. unfold ent at 1. rewrite HT. by apply HB.
  - intros b path i Hv Hs. destruct (decide (b = a)) as [-> | Hb].
    + rewrite new_ent by done. case_bool_decide; [| done]. rewrite Xw, Xu, Xh. done.
    + assert (HT : tb R' m (Space b) path = tb R m (Space b) path) by (apply tb_roots, Rs; congruence).
      unfold ent. rewrite HT. exact (A7 b path i Hv Hs).
  - intros b i Hi. destruct (decide (b = a)) as [-> | Hb].
    + rewrite new_ent by (done || (apply valid_cons; split_and!; [lia | lia | apply valid_nil | cbn; lia])).
      case_bool_decide as Hd; [| done]. by destruct Hd.
    + assert (HT : tb R' m (Space b) [] = tb R m (Space b) []) by (apply tb_roots, Rs; congruence).
      unfold ent. rewrite HT. exact (A8 b i Hi).
  - intros g Hg. apply A9. left. by left.
  - intros path t Hv. rewrite Hkt. intros E. destruct (A10 path t Hv E) as [[? | E1] | E2]; [done | ..].
    + destruct Hnt1. exists KSpace, path. split; [done |]. rewrite E. f_equal. apply paged_div; [| done]. by apply (A2 KSpace path).
    + destruct Hnt2. exists KSpace, path. split; [done |]. rewrite E. f_equal. apply paged_div; [| done]. by apply (A2 KSpace path).
  - intros b path t Hv Hs E Ho. destruct (Htu b path t Hv Hs E) as [(_ & [[_ ->] | [_ ->]]) | [_ E']].
    + by rewrite Z.div_mul in Ho.
    + by rewrite Z.div_mul in Ho.
    + apply (A11 b path t Hv Hs E'). left. by left.
  - intros b q e Hq Hs E. apply Hold in E as [E Hb]; [| done]. destruct (A12 b q e Hq Hs E) as [? Hn]. split; [done |].
    intros s path Hv Et. assert (Hl : forall g, FRAME_OF e = g * 4096 -> leafed R m g) by (intros g Hg; by exists b, q, e).
    destruct (Hcan s path _ Hv Et) as [(_ & _ & E1) | [(_ & _ & E1) | (s' & E' & _)]].
    + apply Hnl1. by apply Hl.
    + apply Hnl2. by apply Hl.
    + by apply (Hn s' path Hv).
  - intros b q e b' q' e' Hq Hq' Hs Hs' E E' EF Ho. apply Hold in E as [E _]; [| done]. apply Hold in E' as [E' _]; [| done].
    apply (A13 b q e b' q' e'); try done. intros [[? | Eg] | Eg]; [done | ..].
    + apply Hnl1. exists b, q, e. split_and!; try done; try lia. apply paged_div; [apply FRAME_OF_paged | done].
    + apply Hnl2. exists b, q, e. split_and!; try done; try lia. apply paged_div; [apply FRAME_OF_paged | done].
  - intros g Hg. assert (Hra : forall b path t, tb R m (Space b) path = Some t -> Space b <> Space a).
    { intros b path t E [= ->]. unfold tb in E. by rewrite Ha in E. }
    destruct (A14 g Hg) as [[[? | ->] | ->] | [(b & path & t & Hv & Hs & E & ->) | (b & q & e & Hq & Hs & E & ->)]].
    + by left.
    + right; left. exists a, [], top. rewrite new_tb by apply valid_nil. rewrite Z.div_mul by lia. split_and!; try done. apply valid_nil.
    + right; left. exists a, [0], dir. rewrite new_tb by apply valid1. rewrite Z.div_mul by lia. split_and!; try done. apply valid1.
    + right; left. exists b, path, t. rewrite (tb_roots R R'); [done |]. by apply Rs, (Hra b path t).
    + right; right. exists b, q, e. rewrite (pte_roots R R'); [done |]. apply Rs.
      unfold pte, ent in E. destruct (tb R m (Space b) (path_of q)) eqn:Et; [by apply (Hra b (path_of q) z) | done].
Qed.

End new.

(** ** The routine *)

(** Writing to a frame the kernel holds that is not a table. *)
Lemma ok_put_free R o m p f i x :
  ok R o m p -> ~ tabled R m f -> paged (f * 4096) -> 0 <= i < 512 ->
  let m' := put_slot m (f * 4096) i x in
  ok R o m' p /\ (forall s path, valid path -> tb R m' s path = tb R m s path) /\
  (forall s path j, valid path -> 0 <= j < 512 -> ent R m' s path j = ent R m s path j) /\
  (forall s q, pte R m' s q = pte R m s q).
Proof.
  intros Hok Hnt Hp Hi m'. apply ok_bytes; [| done]. intros s path t b Hv E Hb. unfold m'.
  apply byte_at_put_slot; [done |]. destruct (ok_frame _ _ _ _ Hok s path t Hv E) as ([? ?] & _).
  destruct (decide (t = f * 4096)) as [-> |]; [destruct Hnt; by exists s, path |]. destruct Hp. zlia.
Qed.

Lemma tabled_ext R m m' g :
  (forall s path, valid path -> tb R m' s path = tb R m s path) -> tabled R m' g -> tabled R m g.
Proof. intros H (s & path & Hv & E). exists s, path. by rewrite <- H. Qed.

Lemma leafed_ext R m m' g : (forall s q, pte R m' s q = pte R m s q) -> leafed R m' g -> leafed R m g.
Proof. intros H (a & q & e & Hq & Hs & E & Ef). exists a, q, e. by rewrite <- H. Qed.

(** The three stores that fill the two tables. *)
Lemma fill_tables R o m p f1 f2 k :
  ok R o m p -> ~ tabled R m f1 -> ~ tabled R m f2 -> ~ leafed R m f1 -> ~ leafed R m f2 ->
  paged (f1 * 4096) -> paged (f2 * 4096) -> f1 <> f2 -> tb R m KSpace [0] = Some k ->
  (forall i, 0 <= i < 512 -> slot m (f1 * 4096) i = 0) -> (forall i, 0 <= i < 512 -> slot m (f2 * 4096) i = 0) ->
  let m1 := put_slot m (f1 * 4096) 0 (Z.lor (f2 * 4096) 7) in
  let m2 := put_slot m1 (f2 * 4096) 3 (slot m1 k 3) in
  let m3 := put_slot m2 (f2 * 4096) 0 (slot m2 k 0) in
  ok R o m3 p /\ ~ tabled R m3 f1 /\ ~ tabled R m3 f2 /\ ~ leafed R m3 f1 /\ ~ leafed R m3 f2 /\
  (forall s path, valid path -> tb R m3 s path = tb R m s path) /\
  (forall s path i, valid path -> 0 <= i < 512 -> ent R m3 s path i = ent R m s path i) /\
  (forall s q, pte R m3 s q = pte R m s q) /\
  (forall i, 0 <= i < 512 -> slot m3 (f1 * 4096) i = if i =? 0 then Z.lor (f2 * 4096) 7 else 0) /\
  (forall j, 0 <= j < 512 ->
     slot m3 (f2 * 4096) j = if ((j =? 0) || (j =? 3))%bool then ent R m3 KSpace [0] j else 0).
Proof.
  intros Hok N1 N2 L1 L2 P1 P2 Hne Ek Z1 Z2 m1 m2 m3.
  destruct (ok_put_free R o m p f1 0 (Z.lor (f2 * 4096) 7)) as (Hok1 & T1 & E1 & Q1); try done; try lia. fold m1 in Hok1, T1, E1, Q1.
  assert (N2' : ~ tabled R m1 f2) by (intros Ht; by apply N2, (tabled_ext R m m1)).
  destruct (ok_put_free R o m1 p f2 3 (slot m1 k 3)) as (Hok2 & T2 & E2 & Q2); try done; try lia. fold m2 in Hok2, T2, E2, Q2.
  assert (N2'' : ~ tabled R m2 f2) by (intros Ht; by apply N2', (tabled_ext R m1 m2)).
  destruct (ok_put_free R o m2 p f2 0 (slot m2 k 0)) as (Hok3 & T3 & E3 & Q3); try done; try lia. fold m3 in Hok3, T3, E3, Q3.
  assert (HT : forall s path, valid path -> tb R m3 s path = tb R m s path) by (intros; by rewrite T3, T2, T1).
  assert (HQ : forall s q, pte R m3 s q = pte R m s q) by (intros; by rewrite Q3, Q2, Q1).
  assert (HEE : forall s path i, valid path -> 0 <= i < 512 -> ent R m3 s path i = ent R m s path i)
    by (intros; by rewrite E3, E2, E1).
  assert (HE : forall j, 0 <= j < 512 -> ent R m3 KSpace [0] j = ent R m KSpace [0] j)
    by (intros; apply HEE; done || apply valid1).
  assert (K1 : forall j, 0 <= j < 512 -> slot m1 k j = ent R m KSpace [0] j).
  { intros j Hj. rewrite <- E1 by (done || apply valid1). unfold ent. by rewrite T1, Ek by apply valid1. }
  assert (K2 : forall j, 0 <= j < 512 -> slot m2 k j = ent R m KSpace [0] j).
  { intros j Hj. rewrite <- E1, <- E2 by (done || apply valid1). unfold ent. by rewrite T2, T1, Ek by apply valid1. }
  destruct (ok_super _ _ _ _ Hok 0) as (_ & _ & R0); [by left |]. destruct (ok_super _ _ _ _ Hok 3) as (_ & _ & R3); [by right |].
  destruct (entry_bits (f2 * 4096) 7 P2) as (_ & Xr & _); [lia |].
  split_and!; try done.
  - intros Ht. by apply N1, (tabled_ext R m m3).
  - intros Ht. by apply N2, (tabled_ext R m m3).
  - intros Ht. by apply L1, (leafed_ext R m m3).
  - intros Ht. by apply L2, (leafed_ext R m m3).
  - intros i Hi. unfold m3. rewrite slot_put, K2 by (done || lia || (rewrite K2 by lia; done)).
    unfold m2. rewrite slot_put, K1 by (done || lia || (rewrite K1 by lia; done)).
    unfold m1. rewrite slot_put by (done || lia).
    destruct (Z.eqb_spec (f2 * 4096) (f1 * 4096)); [lia |]. cbn [andb]. rewrite Z.eqb_refl. cbn [andb].
    rewrite (Z.eqb_sym 0 i). destruct (i =? 0); [done | by apply Z1].
  - intros j Hj. rewrite HE by done. unfold m3. rewrite slot_put, K2 by (done || lia || (rewrite K2 by lia; done)). rewrite Z.eqb_refl. cbn [andb].
    rewrite (Z.eqb_sym 0 j). destruct (Z.eqb_spec j 0) as [-> |]; [done |]. cbn [orb].
    unfold m2. rewrite slot_put, K1 by (done || lia || (rewrite K1 by lia; done)). rewrite Z.eqb_refl. cbn [andb]. rewrite (Z.eqb_sym 3 j).
    destruct (Z.eqb_spec j 3) as [-> |]; [done |]. unfold m1. rewrite slot_put by (done || lia).
    destruct (Z.eqb_spec (f1 * 4096) (f2 * 4096)); [lia |]. cbn [andb]. by apply Z2.
Qed.

(** Space [a] was made: it has no pages of its own, and nobody else's changed. *)
Record born (o : Z -> Prop) (v v' : vm) (a : Z) : Prop := {
  b_ok : vm_ok o v';
  b_cpus : cpus v' = cpus v;
  b_kernel : kernel_space v' = kernel_space v;
  b_spaces : exists t, spaces v' = <[a := Addrspace t 0 2]> (spaces v);
  b_own : forall q, shared (path_of q) = false -> page v' (Space a) q = None;
  b_kent : forall path i, valid path -> 0 <= i < 512 -> entry v' KSpace path i = entry v KSpace path i;
  b_pages : forall s q, s <> Space a -> page v' s q = page v s q;
  b_taken : forall g, in_use v g -> in_use v' g;
  b_new : forall g, is_table v' g -> is_table v g \/ ~ in_use v g;
  b_bytes : forall g b, in_use v g -> ~ is_table v g -> g * 4096 <= b < g * 4096 + 4096 ->
    byte_at (memory v') b = byte_at (memory v) b;
}.

(** No room: what was taken on the way went back. *)
Lemma new_fails o v v1 v2 f1 :
  vm_ok o v -> grows v v1 -> grows v1 v2 -> spaces v1 = spaces v -> spaces v2 = spaces v1 -> kernel_space v2 = kernel_space v ->
  vm_ok (plus o f1) v2 -> ~ is_table v2 f1 -> ~ is_page v2 f1 -> ~ o f1 -> ~ in_use v f1 ->
  exists p, Pmm.pmm_free_frame (f1 * 4096) (frames v2) = Ret p /\ vm_ok o (with_frames p v2) /\
    grows v (with_frames p v2) /\ spaces (with_frames p v2) = spaces v.
Proof.
  intros Hok G1 G2 S1 S2 K2 Hok2 Nt Nl No Nu.
  destruct (free_taken (frames v2) f1 (ok_pmm _ _ _ _ Hok2)) as (p & Ep & Hp & Ht & Hu).
  { apply (ok_other _ _ _ _ Hok2). by right. }
  exists p. split; [done |]. split; [| split; [| cbn; congruence]].
  - eapply (ok_iff _ (minus (plus o f1) f1)); [intros g; unfold minus, plus; naive_solver |].
    apply (ok_free _ _ _ (frames v2)); try done. by right.
  - destruct (grows_trans _ _ _ G1 G2) as [[B1 B2 B3 B4 B5 BK B6 B7] B8]. split; [| done]. split; try done.
    intros g Hg. destruct (B4 g Hg) as [? Hg']. split; [cbn; lia |]. cbn. rewrite Hu, Hg' by lia.
    by destruct (Z.eqb_spec g f1) as [-> |].
Qed.

Lemma paging_new_spec o v k a :
  vm_ok o v -> table v KSpace [0] = Some k -> a <> 0 -> spaces v !! a = None ->
  exists r v', paging_new_addrspace k a v = Ret (r, v') /\
  match r with
  | Some s => s = Space a /\ born o v v' a
  | None => vm_ok o v' /\ grows v v' /\ spaces v' = spaces v
  end.
Proof.
  intros Hok Ek Ha Hfree. unfold paging_new_addrspace. destruct (Z.eqb_spec a 0); [done |].
  pose proof (zeroed_low_frame_spec o v Hok) as Z1. destruct (zeroed_low_frame v) as [[t1 |] v1].
  2: { destruct Z1 as (? & ? & ? & ? & ?). by exists None, v1. }
  destruct Z1 as (G1 & S1 & K1 & f1 & -> & L1 & Hok1 & Nt1 & Nl1 & No1 & Nu1 & Z1 & T1 & E1).
  pose proof (zeroed_low_frame_spec _ v1 Hok1) as Z2. destruct (zeroed_low_frame v1) as [[t2 |] v2].
  2: { destruct Z2 as (G2 & S2 & K2 & Hok2 & _).
       destruct (new_fails o v v1 v2 f1) as (p & -> & ? & ? & ?); try done; [by rewrite K2 | ..].
       - intros [? | Hn]%(g_new _ _ (proj1 G2)); [done |]. apply Hn, (ok_other _ _ _ _ Hok1). by right.
       - by intros ?%(grows_leafed _ _ _ G2).
       - by exists None, (with_frames p v2). }
  destruct Z2 as (G2 & S2 & K2 & f2 & -> & L2 & Hok2 & Nt2 & Nl2 & No2 & Nu2 & Z2 & T2 & E2).
  assert (I1 : in_use v1 f1) by (apply (ok_other _ _ _ _ Hok1); by right).
  assert (Hne : f1 <> f2) by (intros ->; done).
  assert (Nt1' : ~ is_table v2 f1) by (intros [? | ?]%(g_new _ _ (proj1 G2)); done).
  assert (Nl1' : ~ is_page v2 f1) by (by intros ?%(grows_leafed _ _ _ G2)).
  assert (I2 : in_use v2 f2) by (apply (ok_other _ _ _ _ Hok2); by right).
  assert (P1 : paged (f1 * 4096)) by (destruct I1; pose proof (ok_phys _ _ _ _ Hok1); split; zlia).
  assert (P2 : paged (f2 * 4096)) by (destruct I2; pose proof (ok_phys _ _ _ _ Hok2); split; zlia).
  assert (Ek2 : table v2 KSpace [0] = Some k) by (rewrite T2, T1 by apply valid1; done).
  assert (Z1' : forall i, 0 <= i < 512 -> slot (memory v2) (f1 * 4096) i = 0).
  { intros i Hi. rewrite <- (Z1 i Hi). apply slot_ext; [| done]. intros b Hb. by apply (g_bytes _ _ (proj1 G2) f1). }
  destruct (fill_tables (roots v2) (plus (plus o f1) f2) (memory v2) (frames v2) f1 f2 k)
    as (Hok3 & N1 & N2 & M1 & M2 & HT & HE & HQ & Stop & Sdir); try done.
  set (m3 := put_slot _ _ _ _) in Hok3, N1, N2, M1, M2, HT, HE, HQ, Stop, Sdir.
  assert (Etop : Z.lor (Z.lor (Z.lor (f2 * 4096) PTE_PRESENT) PTE_WRITE) PTE_USER = Z.lor (f2 * 4096) 7)
    by (rewrite <- !Z.lor_assoc; done).
  cbv zeta. rewrite Etop. change (PDPT_INDEX DEVICE_WINDOW) with 3. set (v3 := set_space _ _ _).
  assert (M3 : memory v3 = m3) by done. assert (F3 : frames v3 = frames v2) by done.
  assert (Ra : roots v3 (Space a) = Some (f1 * 4096)) by (unfold roots, rt; cbn; by rewrite lookup_fmap, lookup_insert_eq).
  assert (Rs : forall s, s <> Space a -> roots v3 s = roots v2 s).
  { intros [| b] Hs; [done |]. unfold roots, rt. cbn. rewrite !lookup_fmap, lookup_insert_ne by congruence. done. }
  assert (R0 : roots v2 (Space a) = None) by (unfold roots, rt; rewrite S2, S1, lookup_fmap, Hfree; done).
  assert (No2' : ~ o f2) by (intros ?; apply No2; by left).
  assert (Hok4 : ok (roots v3) o m3 (frames v2)) by (by apply (ok_new (roots v2) (roots v3) o m3 (frames v2) a f1 f2)).
  exists (Some (Space a)), v3. split; [done |]. split; [done |]. split.
  - exact Hok4.
  - change (cpus v3) with (cpus v2). rewrite (g_cpus _ _ (proj1 G2)). apply (g_cpus _ _ (proj1 G1)).
  - change (kernel_space v3) with (kernel_space v2). congruence.
  - exists (f1 * 4096). change (spaces v3) with (<[a := Addrspace (f1 * 4096) 0 2]> (spaces v2)). congruence.
  - intros q Hs. rewrite M3. by apply (new_pte (roots v2) (roots v3) o m3 (frames v2) a f1 f2).
  - intros path i Hv Hi. rewrite M3. transitivity (ent (roots v2) m3 KSpace path i).
    + unfold ent. by rewrite (tb_roots (roots v2) (roots v3)) by (by apply Rs).
    + rewrite HE, E2, E1 by done. done.
  - intros s q Hs. rewrite M3, (pte_roots (roots v2) (roots v3)), HQ by auto.
    unfold pte. rewrite E2, E1 by (apply path_of_valid || apply index_of_page). done.
  - intros g Hg. rewrite F3. by apply (g_taken _ _ (proj1 G2)), (g_taken _ _ (proj1 G1)).
  - intros g Hg. rewrite M3 in Hg.
    apply (new_tabled (roots v2) (roots v3) o m3 (frames v2) a f1 f2) in Hg as [Hg | [-> | ->]]; try done.
    + apply (tabled_ext _ (memory v2)) in Hg; [| done]. apply (g_new _ _ (proj1 (grows_trans _ _ _ G1 G2))) in Hg. done.
    + by right.
    + right. intros ?%(g_taken _ _ (proj1 G1)). done.
  - intros g b Hg Hn Hb. rewrite M3.
    assert (Hg1 : g <> f1) by (intros ->; done).
    assert (Hg2 : g <> f2) by (intros ->; by apply Nu2, (g_taken _ _ (proj1 G1))).
    unfold m3. rewrite !byte_at_put_slot by lia. by apply (g_bytes _ _ (proj1 (grows_trans _ _ _ G1 G2)) g).
Qed.

End PagingNew.
