(* ===== verification/PagingBoot.v ===== *)
(** The address space the kernel starts with: the tables [boot.S] builds and
    [paging_init] adopts satisfy the invariant, and map the first gigabyte to
    itself with page zero left out, but for the windows that the screen and the
    ACPI tables are seen through. *)

From S2P Require Import Prelude Pmm Sched Paging PagingInv PagingSpec.

Module PagingBoot.

Import Sched (aspace, KSpace, Space).
Import Paging PagingInv PagingSpec.

#[local] Opaque zero_bytes load64 store64.

(** ** Filling a table *)

Lemma write_fold t (g : Z -> Z) lo n v :
  paged t -> 0 <= lo -> 0 <= n -> lo + n <= 512 -> (forall i, lo <= i < lo + n -> 0 <= g i < 2 ^ 64) ->
  exists m, foldl (fun v i => write t i (g i) v) v (seqZ lo n) = with_memory m v /\
    forall t' j, paged t' -> 0 <= j < 512 ->
      slot m t' j = if ((t =? t') && (lo <=? j) && (j <? lo + n))%bool then g j else slot (memory v) t' j.
Proof.
  intros Ht Hlo Hn0. rewrite <- (Z2Nat.id n Hn0). clear Hn0. induction (Z.to_nat n) as [| k IH]; intros Hn Hg.
  { exists (memory v). split; [by destruct v |]. intros t' j Ht' Hj.
    destruct (t =? t'), (Z.leb_spec lo j), (Z.ltb_spec j (lo + Z.of_nat 0)); try done. lia. }
  replace (Z.of_nat (S k)) with (Z.of_nat k + 1) by lia. rewrite seqZ_app, foldl_app by lia.
  destruct IH as (m & -> & Hm); [lia | intros i Hi; apply Hg; lia |].
  rewrite (seqZ_cons _ 1), (seqZ_nil _ (Z.pred 1)) by lia. cbn [foldl].
  eexists. split; [done |]. intros t' j Ht' Hj. cbn [memory with_memory].
  rewrite slot_put, Hm by (done || lia || (apply Hg; lia)).
  destruct (Z.eqb_spec t t'), (Z.eqb_spec (lo + Z.of_nat k) j), (Z.leb_spec lo j), (Z.ltb_spec j (lo + Z.of_nat k)),
    (Z.ltb_spec j (lo + (Z.of_nat k + 1))); cbn [andb]; try done; try lia. congruence.
Qed.

(** ** Windows

    Two stretches of the first gigabyte show other memory than their own: the
    framebuffer ([FB_VIRT] of fbcon.c) and, after it, the firmware tables acpi.c
    copies. *)

Definition FBCON_APERTURE_SIZE : Z := 16 * 1024 * 1024.
Definition WINDOW : Z := Pmm.FBCON_APERTURE + FBCON_APERTURE_SIZE.
Definition WINDOW_SIZE : Z := 8 * 1024 * 1024.

Definition in_window (x : Z) : bool := ((Pmm.FBCON_APERTURE <=? x) && (x <? WINDOW + WINDOW_SIZE))%bool.

(** The entries of the directory that map them. *)
Definition window_slot (i : Z) : bool := in_window (i * 0x200000).

Lemma in_window_slot x : in_window x = window_slot (x / 2 ^ 21).
Proof.
  unfold window_slot, in_window. change (WINDOW + WINDOW_SIZE) with 0x31800000. change Pmm.FBCON_APERTURE with 0x30000000.
  destruct (Z.leb_spec 0x30000000 x), (Z.ltb_spec x 0x31800000), (Z.leb_spec 0x30000000 (x / 2 ^ 21 * 0x200000)),
    (Z.ltb_spec (x / 2 ^ 21 * 0x200000) 0x31800000); try done; zlia.
Qed.

Lemma window_range i : window_slot i = true -> 384 <= i < 396.
Proof.
  unfold window_slot, in_window. change (WINDOW + WINDOW_SIZE) with 0x31800000. change Pmm.FBCON_APERTURE with 0x30000000.
  intros [?%Z.leb_le ?%Z.ltb_lt]%andb_prop. lia.
Qed.

(** What [paging_map_huge] and [paging_map_huge_early] store. *)
Definition window_entry (e : Z) : Prop := exists phys flags, is_u64 phys /\ e = huge_entry phys flags.

Lemma huge_entry_testbit phys flags n :
  Z.testbit (huge_entry phys flags) n =
  ((Z.testbit phys n && Z.testbit (u64 (Z.lnot 0x1FFFFF)) n) ||
   (Z.testbit flags n && Z.testbit 0x1012 n) || Z.testbit PTE_HUGE n || Z.testbit PTE_PRESENT n)%bool.
Proof. unfold huge_entry. by rewrite !Z.lor_spec, !Z.land_spec. Qed.

Lemma window_entry_bits phys flags :
  is_u64 phys ->
  0 <= huge_entry phys flags < 2 ^ 64 /\ has (huge_entry phys flags) PTE_PRESENT = true /\
  has (huge_entry phys flags) PTE_WRITE = has flags PTE_WRITE /\
  has (huge_entry phys flags) PTE_USER = false /\ has (huge_entry phys flags) PTE_HUGE = true.
Proof.
  intros Hp. rewrite has_present, !has_write, has_user, has_huge, !huge_entry_testbit.
  change (Z.testbit (u64 (Z.lnot 0x1FFFFF)) 0) with false. change (Z.testbit (u64 (Z.lnot 0x1FFFFF)) 1) with false.
  change (Z.testbit (u64 (Z.lnot 0x1FFFFF)) 2) with false. change (Z.testbit (u64 (Z.lnot 0x1FFFFF)) 7) with false.
  cbn. rewrite ?andb_true_r, ?andb_false_r, ?orb_false_r, ?orb_true_r. split; [| done].
  assert (H0 : 0 <= huge_entry phys flags).
  { unfold huge_entry. rewrite !Z.lor_nonneg, !Z.land_nonneg. unfold is_u64 in Hp. split_and!; [lia | | done | done].
    right. done. }
  split; [done |]. destruct (Z.eqb_spec (huge_entry phys flags) 0) as [-> |]; [done |].
  apply Z.log2_lt_pow2; [lia |]. destruct (Z.ltb_spec (Z.log2 (huge_entry phys flags)) 64) as [| Hl]; [done | exfalso].
  pose proof (Z.bit_log2 (huge_entry phys flags) ltac:(lia)) as Hb. rewrite huge_entry_testbit in Hb.
  rewrite (testbit_high 64 phys), (testbit_high 64 0x1012), (testbit_high 64 PTE_HUGE), (testbit_high 64 PTE_PRESENT) in Hb
    by (done || lia). by rewrite andb_false_r in Hb.
Qed.

(** The 2 MiB of physical memory behind it. *)
Lemma window_entry_frame phys flags :
  0 <= phys < 2 ^ 52 -> Z.land (FRAME_OF (huge_entry phys flags)) (u64 (Z.lnot 0x1FFFFF)) = phys / 2 ^ 21 * 2 ^ 21.
Proof.
  intros Hp. change 0x1FFFFF with (2 ^ 21 - 1).
  rewrite <- (land_align_mask phys 21) by (lia || (unfold is_u64; lia)). apply Z.bits_inj'. intros n Hn.
  rewrite !Z.land_spec, FRAME_OF_testbit. change (2 ^ 21 - 1) with 0x1FFFFF. rewrite huge_entry_testbit.
  destruct (Z.testbit (u64 (Z.lnot 0x1FFFFF)) n) eqn:Em; [| by rewrite !andb_false_r]. rewrite !andb_true_r.
  assert (21 <= n).
  { destruct (Z.leb_spec 21 n); [done | exfalso]. change (u64 (Z.lnot 0x1FFFFF)) with (Z.shiftl (Z.ones 43) 21) in Em.
    by rewrite Z.shiftl_spec, Z.testbit_neg_r in Em by lia. }
  rewrite (testbit_high 21 0x1012), (testbit_high 21 PTE_HUGE), (testbit_high 21 PTE_PRESENT), andb_false_r, !orb_false_r by (done || lia).
  rewrite (proj2 (Z.leb_le 12 n)) by lia. cbn [andb]. destruct (Z.ltb_spec n 52); [done |].
  by rewrite (testbit_high 52 phys) by lia.
Qed.

(** The entries of the identity map are of that form. *)
Lemma identity_window i : 0 <= i < 512 -> window_entry (Z.lor (i * 0x200000) 0x83).
Proof.
  intros Hi. exists (i * 0x200000), PTE_WRITE. split; [unfold is_u64; lia |].
  unfold huge_entry. change 0x1FFFFF with (2 ^ 21 - 1). rewrite land_align_mask by (lia || (unfold is_u64; lia)).
  change (2 ^ 21) with 0x200000. rewrite Z.div_mul by lia. by rewrite <- !Z.lor_assoc.
Qed.

(** ** What the boot loader leaves *)

Section boot.
Context (pml4 pdpt pd : Z).

Record boot_state (v : vm) : Prop := {
  bs_pmm : Pmm.pmm_inv (frames v);
  bs_phys : Pmm.total_frames (frames v) <= 2 ^ 40;
  bs_spaces : spaces v = ∅;
  bs_frames : forall t, t ∈ [pml4; pdpt; pd] -> paged t /\ t < 2 ^ 30 /\ in_use v (t / 4096);
  bs_distinct : pml4 <> pdpt /\ pml4 <> pd /\ pdpt <> pd;
  bs_zero : forall t i, t ∈ [pml4; pdpt; pd] -> 0 <= i < 512 -> slot (memory v) t i = 0;
}.

(** The kernel's tables: the chain down the identity map, and nothing else. *)
Record kernel_map (pt : Z) (m : mem) : Prop := {
  km_pml4 : forall i, 0 <= i < 512 -> slot m pml4 i = if i =? 0 then Z.lor pdpt 3 else 0;
  km_pdpt : forall i, 0 <= i < 512 -> slot m pdpt i = if i =? 0 then Z.lor pd 3 else 0;
  km_pd : forall i, 0 <= i < 512 -> window_slot i = false ->
    slot m pd i = if i =? 0 then Z.lor pt 3 else Z.lor (i * 0x200000) 0x83;
  km_window : forall i, window_slot i = true -> window_entry (slot m pd i);
  km_pt : forall i, 0 <= i < 512 -> slot m pt i = if i =? 0 then 0 else Z.lor (i * 4096) 3;
}.

Lemma huge_frame i : 0 <= i < 512 -> paged (i * 0x200000).
Proof. intros. split; zlia. Qed.

Lemma build_page_tables_spec v :
  boot_state v ->
  exists m, build_page_tables pml4 pdpt pd v = with_memory m v /\
  (forall i, 0 <= i < 512 -> slot m pml4 i = if i =? 0 then Z.lor pdpt 3 else 0) /\
  (forall i, 0 <= i < 512 -> slot m pdpt i = if i =? 0 then Z.lor pd 3 else 0) /\
  (forall i, 0 <= i < 512 -> slot m pd i = Z.lor (i * 0x200000) 0x83).
Proof.
  intros [_ _ _ Hf (N1 & N2 & N3) Hz].
  assert (I1 : pml4 ∈ [pml4; pdpt; pd]) by (rewrite !elem_of_cons; auto).
  assert (I2 : pdpt ∈ [pml4; pdpt; pd]) by (rewrite !elem_of_cons; auto).
  assert (I3 : pd ∈ [pml4; pdpt; pd]) by (rewrite !elem_of_cons; auto).
  destruct (Hf pml4 I1) as [P1 _]. destruct (Hf pdpt I2) as [P2 _]. destruct (Hf pd I3) as [P3 _].
  pose proof (entry_range pdpt 3 P2 ltac:(lia)) as X2. pose proof (entry_range pd 3 P3 ltac:(lia)) as X3.
  unfold build_page_tables. set (v1 := write pdpt 0 _ _).
  destruct (write_fold pd (fun i => Z.lor (i * 0x200000) 0x83) 0 512 v1) as (m & E & Hm); [done | lia | lia | lia | |].
  { intros i Hi. apply entry_range; [by apply huge_frame | lia]. }
  exists m. split; [exact E |]. clear E.
  assert (H1 : forall i, 0 <= i < 512 -> slot (memory v1) pml4 i = if i =? 0 then Z.lor pdpt 3 else 0).
  { intros i Hi. unfold v1. cbn [memory write with_memory]. rewrite !slot_put by (done || lia).
    rewrite Z.eqb_refl, (proj2 (Z.eqb_neq pdpt pml4)) by done. cbn [andb]. rewrite (Z.eqb_sym 0 i).
    destruct (i =? 0); [done |]. by apply Hz. }
  assert (H2 : forall i, 0 <= i < 512 -> slot (memory v1) pdpt i = if i =? 0 then Z.lor pd 3 else 0).
  { intros i Hi. unfold v1. cbn [memory write with_memory]. rewrite !slot_put by (done || lia).
    rewrite Z.eqb_refl, (proj2 (Z.eqb_neq pml4 pdpt)) by done. cbn [andb]. rewrite (Z.eqb_sym 0 i).
    destruct (i =? 0); [done |]. by apply Hz. }
  split_and!; intros i Hi; rewrite Hm by done.
  - rewrite (proj2 (Z.eqb_neq pd pml4)) by done. by apply H1.
  - rewrite (proj2 (Z.eqb_neq pd pdpt)) by done. by apply H2.
  - rewrite Z.eqb_refl, (proj2 (Z.leb_le 0 i)), (proj2 (Z.ltb_lt i _)) by lia. done.
Qed.

(** On a UEFI machine the console maps its window before [paging_init]: each of
    [ws] is a call [paging_map_huge_early(virt, phys, flags)]. *)
Definition early_windows (early : Z) (ws : list (Z * Z * Z)) (v : vm) : vm :=
  foldl (fun v w => (paging_map_huge_early pdpt early w.1.1 w.1.2 w.2 v).2) v ws.

Definition window_call (virt phys flags : Z) : Prop :=
  in_window virt = true /\ is_u64 phys /\ has flags PTE_USER = false.

Lemma window_indices virt :
  in_window virt = true ->
  PML4_INDEX virt = 0 /\ PDPT_INDEX virt = 0 /\ PD_INDEX virt = virt / 2 ^ 21 /\ window_slot (PD_INDEX virt) = true.
Proof.
  intros Hw. pose proof Hw as Hs. rewrite in_window_slot in Hs. pose proof (window_range _ Hs).
  unfold PML4_INDEX, PDPT_INDEX, PD_INDEX. rewrite !index_spec by lia.
  replace ((virt / 2 ^ 21) `mod` 512) with (virt / 2 ^ 21) by zlia. split_and!; [zlia | zlia | done | done].
Qed.

Lemma early_windows_spec early ws v :
  paged pml4 -> paged pdpt -> paged pd -> pml4 <> pd -> pdpt <> pd ->
  Forall (fun w => window_call w.1.1 w.1.2 w.2) ws -> slot (memory v) pdpt 0 = Z.lor pd 3 ->
  exists m, early_windows early ws v = with_memory m v /\
    (forall t i, paged t -> 0 <= i < 512 -> t <> pd \/ window_slot i = false -> slot m t i = slot (memory v) t i) /\
    (forall i, window_slot i = true -> window_entry (slot (memory v) pd i) -> window_entry (slot m pd i)).
Proof.
  intros P1 P2 P3 N1 N2 Hws. revert v. induction Hws as [| [[virt phys] flags] ws (Hw & Hp & Hu) _ IH]; intros v He.
  { exists (memory v). split; [by destruct v | done]. }
  cbn [fst snd] in Hw, Hp, Hu. destruct (window_indices virt Hw) as (I4 & I3 & I2 & Hs).
  pose proof (window_range _ Hs) as Hr. destruct (window_entry_bits phys flags Hp) as (Xr & _).
  unfold early_windows. cbn [foldl fst snd]. unfold paging_map_huge_early at 2. unfold read. rewrite I4, I3, He. cbn [Z.eqb negb].
  destruct (entry_bits pd 3 P3) as (-> & _ & -> & _); [lia |]. change (Z.testbit 3 0) with true. cbn [snd].
  set (v1 := write pd (PD_INDEX virt) (huge_entry phys flags) v).
  assert (S1 : forall t i, paged t -> 0 <= i < 512 -> slot (memory v1) t i =
    if ((pd =? t) && (PD_INDEX virt =? i))%bool then huge_entry phys flags else slot (memory v) t i).
  { intros t i Ht Hi. unfold v1. cbn [memory write with_memory]. by rewrite slot_put by (done || lia). }
  destruct (IH v1) as (m & E & Hold & Hnew).
  { rewrite S1 by (done || lia). by rewrite (proj2 (Z.eqb_neq pd pdpt)) by done. }
  exists m. split; [exact E |]. split.
  - intros t i Ht Hi Hc. rewrite Hold by done. rewrite S1 by done.
    destruct (Z.eqb_spec pd t), (Z.eqb_spec (PD_INDEX virt) i); try done. destruct Hc; congruence.
  - intros i Hi He'. apply Hnew; [done |]. pose proof (window_range _ Hi). rewrite S1, Z.eqb_refl by (done || lia).
    cbn [andb]. destruct (Z.eqb_spec (PD_INDEX virt) i); [by exists phys, flags | done].
Qed.

(** ** The invariant at boot *)

Section adopted.
Context (R : aspace -> option Z) (m : mem) (p : Pmm.pmm) (pt : Z).
Context (Rk : R KSpace = Some pml4) (Ru : forall a, R (Space a) = None) (Hm : kernel_map pt m).
Context (Hp : Pmm.pmm_inv p) (Hphys : Pmm.total_frames p <= 2 ^ 40).
Context (Hf : forall t, t ∈ [pml4; pdpt; pd; pt] -> paged t /\ t < 2 ^ 30 /\ taken p (t / 4096)).
Context (Hnd : pml4 <> pdpt /\ pml4 <> pd /\ pml4 <> pt /\ pdpt <> pd /\ pdpt <> pt /\ pd <> pt).

Lemma kernel_frames : (paged pml4 /\ paged pdpt /\ paged pd /\ paged pt).
Proof. split_and!; apply Hf; rewrite !elem_of_cons; auto. Qed.

Lemma kernel_chain :
  tb R m KSpace [] = Some pml4 /\ tb R m KSpace [0] = Some pdpt /\
  tb R m KSpace [0; 0] = Some pd /\ tb R m KSpace [0; 0; 0] = Some pt.
Proof.
  destruct kernel_frames as (_ & P2 & P3 & P4).
  assert (H0 : tb R m KSpace [] = Some pml4) by (unfold tb; by rewrite Rk).
  assert (Hc : forall path t t', tb R m KSpace path = Some t -> slot m t 0 = Z.lor t' 3 -> paged t' ->
    tb R m KSpace (0 :: path) = Some t').
  { intros path t t' E Es Hp'. rewrite tb_cons. unfold ent. rewrite E, Es. cbv zeta.
    destruct (entry_bits t' 3 Hp') as (-> & _ & -> & _ & _ & ->); [lia |]. done. }
  assert (H1 : tb R m KSpace [0] = Some pdpt) by (apply (Hc [] pml4); [done | by rewrite (km_pml4 _ _ Hm) by lia | done]).
  assert (H2 : tb R m KSpace [0; 0] = Some pd) by (apply (Hc [0] pdpt); [done | by rewrite (km_pdpt _ _ Hm) by lia | done]).
  split_and!; try done. apply (Hc [0; 0] pd); [done | by rewrite (km_pd _ _ Hm) by (done || lia) | done].
Qed.

Lemma kernel_tb path t :
  valid path -> tb R m KSpace path = Some t ->
  (path = [] /\ t = pml4) \/ (path = [0] /\ t = pdpt) \/ (path = [0; 0] /\ t = pd) \/ (path = [0; 0; 0] /\ t = pt).
Proof.
  destruct kernel_chain as (C0 & C1 & C2 & C3).
  assert (H1 : forall i t, 0 <= i < 512 -> tb R m KSpace [i] = Some t -> i = 0).
  { intros i t' Hi. rewrite tb_cons. unfold ent. rewrite C0, (km_pml4 _ _ Hm) by done. by destruct (Z.eqb_spec i 0). }
  assert (H2 : forall i t, 0 <= i < 512 -> tb R m KSpace [i; 0] = Some t -> i = 0).
  { intros i t' Hi. rewrite tb_cons. unfold ent. rewrite C1, (km_pdpt _ _ Hm) by done. by destruct (Z.eqb_spec i 0). }
  assert (H3 : forall i t, 0 <= i < 512 -> tb R m KSpace [i; 0; 0] = Some t -> i = 0).
  { intros i t' Hi. rewrite tb_cons. unfold ent. rewrite C2. destruct (window_slot i) eqn:Hw.
    { destruct (km_window _ _ Hm i Hw) as (phys & flags & Hph & ->). cbv zeta.
      by destruct (window_entry_bits phys flags Hph) as (_ & -> & _ & _ & ->). }
    rewrite (km_pd _ _ Hm) by done. destruct (Z.eqb_spec i 0); [done |]. cbv zeta. destruct (entry_bits (i * 0x200000) 0x83 (huge_frame i Hi)) as (_ & _ & -> & _ & _ & ->); [lia | done]. }
  assert (Hup : forall i path t, tb R m KSpace (i :: path) = Some t -> exists t', tb R m KSpace path = Some t').
  { intros i l t'. rewrite tb_cons. unfold ent. destruct (tb R m KSpace l) as [u |]; [by exists u | done]. }
  intros Hv E. destruct path as [| i [| j [| k [| ? ?]]]].
  - left. split; [done | congruence].
  - apply valid_cons in Hv as (Hi & _). pose proof (H1 i t Hi E) as ->. right; left. split; [done | congruence].
  - pose proof Hv as (Hi & (Hj & _)%valid_cons & _)%valid_cons. destruct (Hup _ _ _ E) as [t' E'].
    pose proof (H1 j t' Hj E') as ->. pose proof (H2 i t Hi E) as ->. right; right; left. split; [done | congruence].
  - pose proof Hv as (Hi & (Hj & (Hk & _)%valid_cons & _)%valid_cons & _)%valid_cons.
    destruct (Hup _ _ _ E) as [t' E']. destruct (Hup _ _ _ E') as [t'' E''].
    pose proof (H1 k t'' Hk E'') as ->. pose proof (H2 j t' Hj E') as ->. pose proof (H3 i t Hi E) as ->.
    right; right; right. split; [done | congruence].
  - destruct Hv as [_ Hv]. cbn in Hv. lia.
Qed.

Lemma boot_ok : ok R (taken p) m p.
Proof.
  destruct kernel_chain as (C0 & C1 & C2 & C3). destruct kernel_frames as (P1 & P2 & P3 & P4).
  assert (Hu : forall a path, tb R m (Space a) path = None) by (intros; unfold tb; by rewrite Ru).
  assert (He : forall a path i, ent R m (Space a) path i = 0) by (intros; unfold ent; by rewrite Hu).
  assert (Hq : forall a q, pte R m (Space a) q = None) by (intros; unfold pte; by rewrite He).
  assert (Hk : forall path t, valid path -> tb R m KSpace path = Some t -> t ∈ [pml4; pdpt; pd; pt]).
  { intros path t Hv E. pose proof (kernel_tb path t Hv E) as HE. rewrite !elem_of_cons.
    destruct HE as [[_ ->] | [[_ ->] | [[_ ->] | [_ ->]]]]; auto. }
  split; try done.
  - intros [| a] path t Hv E; [| by rewrite Hu in E]. by apply Hf, (Hk path).
  - intros [| a] path [| a'] path' t Hv Hv' E E'; [| by rewrite Hu in E' | by rewrite Hu in E | by rewrite Hu in E].
    pose proof (kernel_tb path t Hv E) as HE. pose proof (kernel_tb path' t Hv' E') as HE'. clear E E'.
    destruct Hnd as (? & ? & ? & ? & ? & ?).
    destruct HE as [[-> E] | [[-> E] | [[-> E] | [-> E]]]], HE' as [[-> E'] | [[-> E'] | [[-> E'] | [-> E']]]];
      try done; exfalso; rewrite E in E'; congruence.
  - by exists pdpt.
  - intros j Hj. unfold ent. rewrite C1, (km_pdpt _ _ Hm) by lia.
    destruct (entry_bits pd 3 P3) as (_ & Xr & _ & _ & Xu & Xh); [lia |]. destruct (j =? 0); [done |]. split_and!; done || lia.
  - intros a r Hr. by rewrite Ru in Hr.
  - intros a path i _ _. rewrite He. done.
  - intros a i _. by rewrite He.
  - intros path t Hv E. apply Hf. by apply (Hk path).
  - intros a path t _ _. by rewrite Hu.
  - intros a q e _ _. by rewrite Hq.
  - intros a q e a' q' e' _ _ _ _. by rewrite Hq.
  - intros g Hg. by left.
Qed.

End adopted.

(** ** [paging_init] *)

Lemma paging_init_spec c pge early ws v :
  boot_state v -> Forall (fun w => window_call w.1.1 w.1.2 w.2) ws ->
  match paging_init pml4 pd c pge (early_windows early ws (build_page_tables pml4 pdpt pd v)) with
  | Ret v' => exists pt, kernel_map pt (memory v') /\ roots v' KSpace = Some pml4 /\
      vm_ok (in_use v') v' /\
      (table v' KSpace [0] = Some pdpt /\ table v' KSpace [0; 0] = Some pd /\ table v' KSpace [0; 0; 0] = Some pt) /\
      spaces v' = ∅ /\
      (forall g, in_use v' g <-> in_use v g \/ g = pt / 4096) /\ ~ in_use v (pt / 4096) /\ paged pt /\
      (forall path t, valid path -> table v' KSpace path = Some t -> t ∈ [pml4; pdpt; pd; pt]) /\
      ((c < length (cpus v))%nat -> cpus v' = <[c := Cpu (Some KSpace) pml4]> (cpus v))
  | Panic => forall g, 0 <= g < Pmm.low_limit (frames v) -> Pmm.used (frames v) g = true
  end.
Proof.
  intros Hb Hws. destruct (build_page_tables_spec v Hb) as (m0 & -> & M01 & M02 & M03).
  destruct Hb as [Hp Hphys Hsp Hf (N1 & N2 & N3) _].
  assert (I1 : pml4 ∈ [pml4; pdpt; pd]) by (rewrite !elem_of_cons; auto).
  assert (I2 : pdpt ∈ [pml4; pdpt; pd]) by (rewrite !elem_of_cons; auto).
  assert (I3 : pd ∈ [pml4; pdpt; pd]) by (rewrite !elem_of_cons; auto).
  destruct (Hf pml4 I1) as (P1 & L1 & U1). destruct (Hf pdpt I2) as (P2 & L2 & U2). destruct (Hf pd I3) as (P3 & L3 & U3).
  destruct (early_windows_spec early ws (with_memory m0 v)) as (m & -> & Hold0 & Hwin); try done.
  { cbn [memory with_memory]. by rewrite M02 by lia. }
  cbn [memory with_memory] in Hold0, Hwin. unfold paging_init, zeroed_low_frame. cbv zeta. cbn [frames with_up set_this_space with_cpus with_kernel with_memory].
  pose proof (low_alloc (frames v) Hp) as Ha. destruct (Pmm.pmm_alloc_frame_low (frames v)) as [x p'].
  destruct Ha as (Hp' & Ht & [(-> & _ & Hfull) | (f & Hfr & -> & Hlow & Hfree & Hu)]); [done |].
  destruct (Z.eqb_spec (f * 4096) 0); [lia |]. set (v1 := with_memory (zero_bytes _ _ _) _).
  assert (P4 : paged (f * 4096)) by (split; zlia).
  assert (Hne : forall t, in_use v (t / 4096) -> t <> f * 4096).
  { intros t [_ Hu'] ->. rewrite Z.div_mul in Hu' by lia. congruence. }
  assert (D1 := Hne _ U1). assert (D2 := Hne _ U2). assert (D3 := Hne _ U3).
  destruct (write_fold (f * 4096) (fun i => Z.lor (Z.lor (i * PAGE_SIZE) PTE_PRESENT) PTE_WRITE) 1 511 v1)
    as (m2 & E2 & S2); [done | lia | lia | lia | |].
  { intros i Hi. rewrite <- Z.lor_assoc. apply entry_range; [unfold PAGE_SIZE; split; zlia | done]. }
  rewrite E2. clear E2. eassert (Hkm : kernel_map (f * 4096) (put_slot m2 pd 0 (Z.lor (Z.lor (f * 4096) PTE_PRESENT) PTE_WRITE))).
  { assert (Xr : 0 <= Z.lor (Z.lor (f * 4096) PTE_PRESENT) PTE_WRITE < 2 ^ 64) by (rewrite <- Z.lor_assoc; by apply entry_range).
    assert (Hold : forall t i, paged t -> t <> f * 4096 -> 0 <= i < 512 -> slot m2 t i = slot m t i).
    { intros t i Hpt Hn Hi. rewrite S2 by done. rewrite (proj2 (Z.eqb_neq (f * 4096) t)) by done. cbn [andb].
      by apply slot_zero_other. }
    split; intros i Hi; [rewrite slot_put by (done || lia).. | | rewrite slot_put by (done || lia)].
    - rewrite (proj2 (Z.eqb_neq pd pml4)) by done. cbn [andb]. rewrite Hold, Hold0 by auto. by apply M01.
    - rewrite (proj2 (Z.eqb_neq pd pdpt)) by done. cbn [andb]. rewrite Hold, Hold0 by auto. by apply M02.
    - intros Hw. rewrite Z.eqb_refl, (Z.eqb_sym 0 i). cbn [andb]. destruct (i =? 0); [by rewrite <- Z.lor_assoc |].
      rewrite Hold, Hold0 by auto. by apply M03.
    - pose proof (window_range _ Hi) as Hi'. rewrite slot_put by (done || lia).
      rewrite (proj2 (Z.eqb_neq 0 i)), andb_false_r by lia. rewrite Hold by (done || lia). apply Hwin; [done |].
      rewrite M03 by lia. apply identity_window. lia.
    - rewrite (proj2 (Z.eqb_neq pd (f * 4096))) by done. cbn [andb]. rewrite S2, Z.eqb_refl by done. cbn [andb].
      destruct (Z.eqb_spec i 0) as [-> |]; [by apply slot_zero |].
      rewrite (proj2 (Z.leb_le 1 i)), (proj2 (Z.ltb_lt i _)) by lia. by rewrite <- Z.lor_assoc. }
  assert (Hin : forall g, taken p' g <-> in_use v g \/ g = f).
  { intros g. unfold taken. rewrite Ht. split.
    - intros [Hg Hg']. rewrite Hu in Hg' by lia. apply orb_true_iff in Hg' as [? | ?%Z.eqb_eq]; [by left | by right].
    - intros [[Hg Hg'] | ->]; [by rewrite Hu, Hg' by lia |]. rewrite Hu, Z.eqb_refl, orb_true_r by lia. done. }
  set (v2 := (paging_enable_global pge _).2).
  assert (V2 : memory v2 = put_slot m2 pd 0 (Z.lor (Z.lor (f * 4096) PTE_PRESENT) PTE_WRITE) /\ frames v2 = p' /\
    spaces v2 = ∅ /\ roots v2 KSpace = Some pml4 /\
    ((c < length (cpus v))%nat -> cpus v2 = <[c := Cpu (Some KSpace) pml4]> (cpus v))).
  { unfold v2, paging_enable_global. destruct pge; cbn; rewrite Hsp; (split_and!; try done); intros Hlen;
      rewrite list_insert_insert_eq, list_lookup_total_insert_eq by done; done. }
  clearbody v2. destruct V2 as (V1 & V2 & V3 & V4 & V5).
  assert (Hru : forall a, roots v2 (Space a) = None) by (intros a; unfold roots, rt; by rewrite V3, lookup_fmap, lookup_empty).
  assert (Hf4 : forall t, t ∈ [pml4; pdpt; pd; f * 4096] -> paged t /\ t < 2 ^ 30 /\ taken p' (t / 4096)).
  { intros t. rewrite !elem_of_cons, Hin.
    intros [-> | [-> | [-> | [-> | Hn]]]]; [by auto.. | | by apply not_elem_of_nil in Hn].
    rewrite Z.div_mul by lia. auto. }
  exists (f * 4096). rewrite V1, V2, Z.div_mul by lia. split; [done |]. split; [done |]. split; [| split; [| split; [done | split; [done |]]]].
  - unfold vm_ok. rewrite V1, V2. apply (boot_ok (roots v2) _ p' (f * 4096)); try done. lia.
  - by destruct (kernel_chain (roots v2) _ p' (f * 4096) V4 Hkm Hf4) as (_ & ? & ? & ?).
  - split; [intros [_ ?]; congruence |]. split; [done |]. split; [| done]. intros path t Hv E.
    pose proof (kernel_tb (roots v2) _ p' (f * 4096) V4 Hkm Hf4 path t Hv E) as H. rewrite !elem_of_cons.
    destruct H as [[_ ->] | [[_ ->] | [[_ ->] | [_ ->]]]]; auto.
Qed.

(** ** The identity map *)

Lemma lor_low k t o : 0 <= k -> t `mod` 2 ^ k = 0 -> 0 <= o < 2 ^ k -> Z.lor t o = t + o.
Proof.
  intros Hk Ht Ho. pose proof (Z.add_lor_land t o) as H. assert (E : Z.land t o = 0); [| lia].
  apply Z.bits_inj_0. intros n. rewrite Z.land_spec. destruct (Z.ltb_spec n 0); [by rewrite Z.testbit_neg_r |].
  destruct (Z.ltb_spec n k).
  - rewrite <- (Z.mod_pow2_bits_low t k n), Ht, Z.bits_0 by lia. done.
  - by rewrite (testbit_high k o n), andb_false_r by lia.
Qed.

(** The walk down to the directory of the first gigabyte. *)
Lemma low_walk pt m x :
  paged pdpt -> paged pd -> kernel_map pt m -> 0 <= x < 2 ^ 30 ->
  mmu m pml4 x =
  let e2 := slot m pd (x / 2 ^ 21) in
  if negb (has e2 PTE_PRESENT) then None else
  if has e2 PTE_HUGE then
    Some (Access (Z.lor (Z.land (FRAME_OF e2) (u64 (Z.lnot 0x1FFFFF))) (Z.land x 0x1FFFFF)) (has e2 PTE_WRITE) false)
  else
    let e1 := slot m (FRAME_OF e2) ((x / 2 ^ 12) `mod` 512) in
    if negb (has e1 PTE_PRESENT) then None
    else Some (Access (Z.lor (FRAME_OF e1) (Z.land x 0xFFF)) (has e2 PTE_WRITE && has e1 PTE_WRITE)%bool false).
Proof.
  intros P2 P3 [K4 K3 _ _ _] Hx. unfold mmu.
  replace (canonical x) with true by (symmetry; apply orb_true_iff; left; apply Z.ltb_lt; lia). cbn [negb].
  unfold PML4_INDEX, PDPT_INDEX, PD_INDEX, PT_INDEX. rewrite !index_spec by lia.
  replace ((x / 2 ^ 39) `mod` 512) with 0 by zlia. replace ((x / 2 ^ 30) `mod` 512) with 0 by zlia.
  rewrite K4 by lia. cbn [Z.eqb]. destruct (entry_bits pdpt 3 P2) as (F3 & _ & B1 & B2 & B3 & B4); [lia |].
  rewrite B1, B2, B3, F3, K3 by lia. cbn [Z.eqb]. destruct (entry_bits pd 3 P3) as (F2 & _ & C1 & C2 & C3 & C4); [lia |].
  rewrite C1, C2, C3, C4, F2. change (Z.testbit 3 0) with true. change (Z.testbit 3 1) with true.
  change (Z.testbit 3 2) with false. change (Z.testbit 3 7) with false. cbn [negb andb].
  by replace ((x / 2 ^ 21) `mod` 512) with (x / 2 ^ 21) by zlia.
Qed.

(** An address in a page of 2 MiB. *)
Lemma huge_address b x : Z.lor (b / 2 ^ 21 * 2 ^ 21) (Z.land x 0x1FFFFF) = b / 2 ^ 21 * 2 ^ 21 + x `mod` 2 ^ 21.
Proof.
  change 0x1FFFFF with (Z.ones 21). rewrite Z.land_ones by lia.
  apply (lor_low 21); [lia | by apply Z.mod_mul | apply Z.mod_pos_bound; lia].
Qed.

Lemma window_map pt m :
  paged pdpt -> paged pd -> kernel_map pt m ->
  forall x, in_window x = true -> exists phys w, mmu m pml4 x = Some (Access phys w false).
Proof.
  intros P2 P3 Hk x Hx. pose proof Hx as Hs. rewrite in_window_slot in Hs. pose proof (window_range _ Hs).
  rewrite (low_walk pt) by (done || zlia). cbv zeta. destruct (km_window _ _ Hk _ Hs) as (phys & flags & Hp & ->).
  destruct (window_entry_bits phys flags Hp) as (_ & -> & _ & _ & ->). cbn [negb]. eauto.
Qed.

Lemma identity_map pt m :
  paged pdpt -> paged pd -> paged pt -> kernel_map pt m ->
  forall x, 0 <= x < 2 ^ 30 -> in_window x = false ->
  mmu m pml4 x = if x <? 4096 then None else Some (Access x true false).
Proof.
  intros P2 P3 P4 Hk x Hx Hw. rewrite (low_walk pt) by done. rewrite in_window_slot in Hw. cbv zeta.
  rewrite (km_pd _ _ Hk) by (done || zlia).
  destruct (Z.eqb_spec (x / 2 ^ 21) 0) as [E0 | E0].
  - destruct (entry_bits pt 3 P4) as (F1 & _ & D1 & D2 & _ & D4); [lia |]. rewrite D1, D2, D4, F1.
    change (Z.testbit 3 0) with true. change (Z.testbit 3 1) with true. change (Z.testbit 3 7) with false. cbn [negb andb].
    replace ((x / 2 ^ 12) `mod` 512) with (x / 2 ^ 12) by zlia. rewrite (km_pt _ _ Hk) by zlia.
    destruct (Z.eqb_spec (x / 2 ^ 12) 0) as [E1 | E1], (Z.ltb_spec x 4096); try zlia; [done |].
    assert (P : paged (x / 2 ^ 12 * 4096)) by (split; zlia).
    destruct (entry_bits (x / 2 ^ 12 * 4096) 3 P) as (F0 & _ & X1 & X2 & _); [lia |]. rewrite X1, X2, F0.
    cbn [negb]. rewrite offset_spec, lor_offset by (done || (apply Z.mod_pos_bound; lia)). f_equal. f_equal. zlia.
  - destruct (Z.ltb_spec x 4096); [zlia |]. assert (Hi : 0 <= x / 2 ^ 21 < 512) by zlia.
    destruct (entry_bits (x / 2 ^ 21 * 0x200000) 0x83 (huge_frame _ Hi)) as (F1 & _ & D1 & D2 & _ & D4); [lia |].
    rewrite D1, D2, D4, F1. change (Z.testbit 0x83 0) with true. change (Z.testbit 0x83 1) with true.
    change (Z.testbit 0x83 7) with true. cbn [negb andb]. f_equal. f_equal.
    change 0x1FFFFF with (2 ^ 21 - 1) at 1. rewrite land_align_mask by (lia || (unfold is_u64; zlia)).
    rewrite huge_address. zlia.
Qed.

End boot.

End PagingBoot.
