(* ===== verification/PagingRun.v ===== *)
(** Address spaces over time: every order of creating, mapping, sharing,
    unmapping, switching, destroying, and of stores that programs make in ring
    3, on any number of processors, keeps the address spaces apart; the screen
    and the firmware's tables may be mapped into the kernel's windows meanwhile.
    The pages of the fourth gigabyte, device registers that [paging_map_device]
    and lapic.c map when the machine starts, are not among the operations, and
    nothing is said of that gigabyte. *)

From S2P Require Import Prelude Pmm Sched Paging PagingInv PagingSpec PagingMem PagingFree PagingNew PagingBoot.

Module PagingRun.

Import Sched (aspace, KSpace, Space).
Import Paging PagingInv PagingSpec PagingMem PagingFree PagingNew PagingBoot.

#[local] Opaque zero_bytes load64 store64.

(** What [proc.c], [elf.c], [shm.c], [fbcon.c] and [acpi.c] ask of the page
    tables; [Store] is a program writing a byte. *)
Inductive op :=
| New (a : Z)                      (** [kzalloc] returns [a] *)
| MapAlloc (c : nat) (a virt : Z)
| Share (a virt f : Z)             (** a frame of a shared memory object *)
| Unmap (a virt : Z)
| UnmapKeep (a virt : Z)
| Switch (c : nat) (s : aspace)
| Free (c : nat) (a : Z)
| Window (virt phys flags : Z)     (** [paging_map_huge] of fbcon.c and acpi.c *)
| Store (c : nat) (virt b : Z).

Section run.

(** The kernel's directory pointer table; the frames in use for anything but the
    tables and private pages of processes; those of shared memory objects. *)
Context (boot_pdpt : Z) (kern sh : Z -> Prop) (Hsh : forall f, sh f -> kern f).
(** The kernel's top table and the entries of its tables. *)
Context (kroot : Z) (kent : list Z -> Z -> Z).

Definition WU : Z := Z.lor PTE_WRITE PTE_USER.

Definition exec (x : op) (v : vm) : res vm :=
  match x with
  | New a => match paging_new_addrspace boot_pdpt a v with Ret r => Ret r.2 | Panic => Panic end
  | MapAlloc c a virt => match paging_map_alloc c (Space a) virt WU true v with Ret r => Ret r.2 | Panic => Panic end
  | Share a virt f => match paging_map (Space a) virt (f * 4096) WU v with Ret r => Ret r.2 | Panic => Panic end
  | Unmap a virt => paging_unmap (Space a) virt v
  | UnmapKeep a virt => paging_unmap_keep (Space a) virt v
  | Switch c s => Ret (paging_switch c (Some s) v)
  | Free c a => paging_free_addrspace c (Some (Space a)) v
  | Window virt phys flags => Ret (paging_map_huge virt phys flags v).2
  | Store c virt b =>
      match mmu (memory v) (cr3 (cpus v !!! c)) virt with
      | Some x => if (user x && writable x)%bool then Ret (with_memory (<[phys x := b]> (memory v)) v) else Ret v
      | None => Ret v
      end
  end.

(** The frame behind a page of [a]. *)
Definition frame_at (v : vm) (a virt g : Z) : Prop :=
  exists e, page v (Space a) (virt / 4096) = Some e /\ g = FRAME_OF e / 4096.

(** What the callers see to. *)
Definition allowed (x : op) (v : vm) : Prop :=
  match x with
  | New a => a <> 0 /\ spaces v !! a = None
  | MapAlloc c a virt => live v a /\ this_space c v = Some (Space a) /\ (c < length (cpus v))%nat /\
      user_addr virt /\ virt `mod` 4096 = 0 /\ page v (Space a) (virt / 4096) = None
  | Share a virt f => live v a /\ user_addr virt /\ page v (Space a) (virt / 4096) = None /\ sh f
  | Unmap a virt => live v a /\ user_addr virt /\ forall g, frame_at v a virt g -> ~ sh g
  | UnmapKeep a virt => live v a /\ user_addr virt /\ forall g, frame_at v a virt g -> sh g
  | Switch c s => (c < length (cpus v))%nat /\ match s with KSpace => True | Space a => live v a end
  | Free c a => live v a /\ this_space c v <> Some (Space a) /\
      forall q e, 0 <= q < 2 ^ 36 -> shared (path_of q) = false -> page v (Space a) q = Some e ->
        ~ sh (FRAME_OF e / 4096)
  | Window virt phys flags => window_call virt phys flags
  | Store c virt b => (c < length (cpus v))%nat /\ (exists a, this_space c v = Some (Space a)) /\ 0 <= virt < 2 ^ 47
  end.

Definition step (v v' : vm) : Prop := exists x, allowed x v /\ exec x v = Ret v'.

(** The space a processor has on record exists, and is the one in its [cr3]. *)
Definition cpu_ok (v : vm) : Prop := forall c k s, cpus v !! c = Some k -> space k = Some s ->
  match s with KSpace => True | Space a => live v a end /\ cr3 k = root v s.

Record vm_inv (v : vm) : Prop := {
  vi_ok : vm_ok kern v;
  vi_pdpt : table v KSpace [0] = Some boot_pdpt;
  vi_dir : exists pd, table v KSpace [0; 0] = Some pd;
  vi_sh : forall a q e, 0 <= q < 2 ^ 36 -> shared (path_of q) = false -> page v (Space a) q = Some e ->
    kern (FRAME_OF e / 4096) -> sh (FRAME_OF e / 4096);
  vi_kernel : forall f, sh f -> ~ is_table v f;
  vi_cpu : cpu_ok v;
  vi_kroot : roots v KSpace = Some kroot;
  vi_kent : forall path i, valid path -> 0 <= i < 512 -> path <> [0; 0] \/ window_slot i = false ->
    entry v KSpace path i = kent path i;
  vi_window : forall i, window_slot i = true -> window_entry (entry v KSpace [0; 0] i);
}.

Lemma valid_dir : valid [0; 0].
Proof. apply valid2. lia. Qed.

Lemma window_index i : window_slot i = true -> 0 <= i < 512.
Proof. intros H%window_range. lia. Qed.

(** ** Each operation keeps it *)

Lemma live_lookup v s : match s with KSpace => True | Space a => live v a end -> exists x, lookup_space v s = Some x.
Proof. destruct s as [| a]; [intros _; by exists (kernel_space v) | intros [x ?]; by exists x]. Qed.

Lemma cpu_ok_same v v' :
  cpus v' = cpus v -> roots v' = roots v -> (forall a, live v a -> live v' a) -> cpu_ok v -> cpu_ok v'.
Proof.
  intros Ec Er Hl H c k s Ek Es. rewrite Ec in Ek. destruct (H c k s Ek Es) as [Hs E].
  assert (Hs' : match s with KSpace => True | Space a => live v' a end) by (destruct s; auto).
  split; [done |]. rewrite E. symmetry. apply root_keeps; [done | by apply live_lookup | by apply live_lookup].
Qed.

Lemma inv_keeps v v' :
  vm_inv v -> keeps v v' -> vm_ok kern v' ->
  (forall a q e, 0 <= q < 2 ^ 36 -> shared (path_of q) = false -> page v' (Space a) q = Some e ->
     page v (Space a) q = Some e \/ ~ kern (FRAME_OF e / 4096) \/ sh (FRAME_OF e / 4096)) -> vm_inv v'.
Proof.
  intros [A1 A2 AD A3 A4 A5 AR A6 A7] Hk Hok Hp. split; [done | | | | | | | |].
  - by apply (g_tb _ _ Hk); [apply valid1 |].
  - destruct AD as [pd Hpd]. exists pd. by apply (g_tb _ _ Hk); [apply valid_dir |].
  - intros a q e Hq Hs E Hkern. destruct (Hp a q e Hq Hs E) as [E' | [? | ?]]; [by apply (A3 a q) | done | done].
  - intros f Hf [? | Hn]%(g_new _ _ Hk); [by apply (A4 f) |]. apply Hn, (ok_other _ _ _ _ A1). auto.
  - apply (cpu_ok_same v); [apply (g_cpus _ _ Hk) | apply (g_roots _ _ Hk) | apply (g_live _ _ Hk) | done].
  - by rewrite (g_roots _ _ Hk).
  - intros path i Hv Hi. rewrite (g_kent _ _ Hk) by done. by apply A6.
  - intros i Hi. rewrite (g_kent _ _ Hk) by (apply valid_dir || by apply window_index). by apply A7.
Qed.

Lemma inv_stays v v' a q :
  vm_inv v -> stays v v' -> gone v v' a q -> vm_ok kern v' -> vm_inv v'.
Proof.
  intros [A1 A2 AD A3 A4 A5 AR A6 A7] Hst Hg Hok. split; [done | | | | | | | |].
  - rewrite (s_tb _ _ Hst); [done | apply valid1].
  - destruct AD as [pd Hpd]. exists pd. rewrite (s_tb _ _ Hst); [done | apply valid_dir].
  - intros b q' e Hq Hs E. rewrite Hg in E by done. case_decide; [done |]. by apply (A3 b q').
  - intros f Hf (s & path & Hv & E). apply (A4 f Hf). exists s, path. by rewrite <- (s_tb _ _ Hst).
  - apply (cpu_ok_same v); [apply (s_cpus _ _ Hst) | apply (s_roots _ _ Hst) | apply (s_live _ _ Hst) | done].
  - by rewrite (s_roots _ _ Hst).
  - intros path i Hv Hi. rewrite (s_kent _ _ Hst) by done. by apply A6.
  - intros i Hi. rewrite (s_kent _ _ Hst) by (apply valid_dir || by apply window_index). by apply A7.
Qed.

Lemma cpu_loaded v c a : cpu_ok v -> (c < length (cpus v))%nat -> this_space c v = Some (Space a) -> live v a /\ loaded c a v.
Proof.
  intros Hc Hlen E. destruct (lookup_lt_is_Some_2 _ _ Hlen) as [k Ek].
  pose proof (list_lookup_total_correct _ _ _ Ek) as Et. unfold this_space in E. rewrite Et in E.
  destruct (Hc c k (Space a) Ek E) as [Hl Hr]. split; [done |]. unfold loaded. rewrite Et.
  destruct k as [sp cr]. cbn in *. congruence.
Qed.

Lemma frame_of_mapped g : paged (g * 4096) -> FRAME_OF (leaf_of (g * 4096) WU) / 4096 = g.
Proof.
  intros Hp. destruct (leaf_of_bits (g * 4096) WU) as (-> & _). rewrite FRAME_OF_id by done. by apply Z.div_mul.
Qed.

Lemma in_use_paged o v g : vm_ok o v -> in_use v g -> paged (g * 4096).
Proof. intros Hok [? _]. pose proof (ok_phys _ _ _ _ Hok). split; zlia. Qed.

Lemma exec_map_alloc c a virt v :
  vm_inv v -> allowed (MapAlloc c a virt) v ->
  exists b v', paging_map_alloc c (Space a) virt WU true v = Ret (b, v') /\ vm_inv v' /\ keeps v v' /\
    if b : bool then exists f, fresh_page v v' a virt WU f
    else (exists f, low_left v' f) /\ forall s q, 0 <= q < 2 ^ 36 -> page v' s q = page v s q.
Proof.
  intros Hi (Hl & Hc & Hlen & Hu & Ha & Hn). pose proof (vi_ok _ Hi) as Hok.
  destruct (cpu_loaded v c a (vi_cpu _ Hi) Hlen Hc) as [_ Hload].
  destruct (paging_map_alloc_user kern c v a virt WU) as (b & v' & E & Hok' & Hk & Hb); try done.
  exists b, v'. split; [done |]. split; [| split; [done | done]]. apply (inv_keeps v); try done.
  intros a' q e Hq Hs E'. destruct b.
  - destruct Hb as (f & Hf & Hf' & Hp & _). rewrite Hp in E' by done. case_decide; [| by left].
    injection E' as <-. right; left. rewrite frame_of_mapped by (by apply (in_use_paged kern v')).
    intros Hkern. by apply Hf, (ok_other _ _ _ _ Hok).
  - destruct Hb as [_ Hp]. rewrite Hp in E' by done. by left.
Qed.

Lemma exec_share a virt f v :
  vm_inv v -> allowed (Share a virt f) v ->
  exists b v', paging_map (Space a) virt (f * 4096) WU v = Ret (b, v') /\ vm_inv v' /\ keeps v v' /\
    if b : bool then forall s q, 0 <= q < 2 ^ 36 -> page v' s q =
           if decide (s = Space a /\ q = virt / 4096) then Some (leaf_of (f * 4096) WU) else page v s q
    else low_full v' /\ forall s q, 0 <= q < 2 ^ 36 -> page v' s q = page v s q.
Proof.
  intros Hi (Hl & Hu & Hn & Hf). pose proof (vi_ok _ Hi) as Hok.
  destruct (paging_map_user kern kern v a virt WU f) as (b & v' & E & Hk & Hb); try done; auto.
  { by apply (vi_kernel _ Hi). }
  exists b, v'. split; [done |].
  assert (Hpf : paged (f * 4096)) by (by apply (in_use_paged kern v), (ok_other _ _ _ _ Hok), Hsh).
  destruct b.
  - destruct Hb as [Hok' Hp]. split; [| split; done]. apply (inv_keeps v); try done.
    intros a' q e Hq Hs E'. rewrite Hp in E' by done. case_decide; [| by left].
    injection E' as <-. right; right. by rewrite frame_of_mapped.
  - destruct Hb as (Hok' & Hlow & Hp). split; [| split; done]. apply (inv_keeps v); try done.
    intros a' q e Hq Hs E'. rewrite Hp in E' by done. by left.
Qed.

Lemma page_in_range virt : user_addr virt -> 0 <= virt / 4096 < 2 ^ 36 /\ shared (path_of (virt / 4096)) = false.
Proof. intros Hu%user_addr_page. by apply user_page_path in Hu as (? & ? & _). Qed.

Lemma exec_unmap a virt v :
  vm_inv v -> allowed (Unmap a virt) v ->
  exists v', paging_unmap (Space a) virt v = Ret v' /\ vm_inv v' /\ stays v v' /\ gone v v' a (virt / 4096) /\
    forall g, in_use v' g <-> in_use v g /\ ~ frame_at v a virt g.
Proof.
  intros Hi (Hl & Hu & Hp). pose proof (vi_ok _ Hi) as Hok. destruct (page_in_range virt Hu) as [Hq Hs].
  destruct (unmap_user kern v a virt) as (v' & E & Hst & Hg & Hok' & Huse); try done.
  { intros e Ee Hk. apply (Hp (FRAME_OF e / 4096)); [by exists e |]. by apply (vi_sh _ Hi a (virt / 4096)). }
  exists v'. split; [done |]. split; [by apply (inv_stays v v' a (virt / 4096)) |]. split; [done |]. split; [done |].
  intros g. rewrite Huse. unfold frame_at. destruct (page v (Space a) (virt / 4096)) as [e |]; cbn; naive_solver.
Qed.

Lemma exec_unmap_keep a virt v :
  vm_inv v -> allowed (UnmapKeep a virt) v ->
  exists v', paging_unmap_keep (Space a) virt v = Ret v' /\ vm_inv v' /\ stays v v' /\ gone v v' a (virt / 4096) /\
    frames v' = frames v.
Proof.
  intros Hi (Hl & Hu & Hp). pose proof (vi_ok _ Hi) as Hok.
  destruct (unmap_keep_user kern v a virt) as (v' & E & Hst & Hg & HF & Hok'); try done.
  exists v'. split; [done |]. split; [| done]. apply (inv_stays v v' a (virt / 4096)); try done.
  destruct (page v (Space a) (virt / 4096)) as [e |] eqn:Ee; [| done].
  eapply ok_iff; [| exact Hok']. intros g. cbn. unfold plus. split; [| by left].
  intros [? | ->]; [done |]. apply Hsh, Hp. by exists e.
Qed.

Lemma exec_new a v :
  vm_inv v -> allowed (New a) v ->
  exists r v', paging_new_addrspace boot_pdpt a v = Ret (r, v') /\ vm_inv v' /\
    match r with
    | Some s => s = Space a /\ born kern v v' a
    | None => grows v v' /\ spaces v' = spaces v
    end.
Proof.
  intros Hi [Ha Hfree]. destruct (paging_new_spec kern v boot_pdpt a (vi_ok _ Hi) (vi_pdpt _ Hi) Ha Hfree) as (r & v' & E & Hr).
  exists r, v'. split; [done |]. destruct r as [s |]; last first.
  { destruct Hr as (Hok & [Hk Hp] & Hs). split; [| done]. apply (inv_keeps v); try done.
    intros b q e Hq Hsh' E'. rewrite Hp in E' by done. by left. }
  destruct Hr as [-> Hb]. split; [| done]. destruct Hi as [A1 A2 AD A3 A4 A5 AR A6 A7]. destruct (b_spaces _ _ _ _ Hb) as [t Hsp].
  split.
  - apply (b_ok _ _ _ _ Hb).
  - rewrite tb_cons. cbv zeta. rewrite (b_kent _ _ _ _ Hb) by (apply valid_nil || lia). by rewrite tb_cons in A2.
  - destruct AD as [pd Hpd]. exists pd. rewrite tb_cons in Hpd |- *. cbv zeta in Hpd |- *.
    by rewrite (b_kent _ _ _ _ Hb) by (apply valid1 || lia).
  - intros b q e Hq Hs Ee. destruct (decide (b = a)) as [-> | Hne].
    + by rewrite (b_own _ _ _ _ Hb) in Ee.
    + rewrite (b_pages _ _ _ _ Hb) in Ee by congruence. by apply (A3 b q).
  - intros f Hf [? | Hn]%(b_new _ _ _ _ Hb); [by apply (A4 f) |]. apply Hn, (ok_other _ _ _ _ A1). auto.
  - intros c k s Ek Es. rewrite (b_cpus _ _ _ _ Hb) in Ek. destruct (A5 c k s Ek Es) as [Hs ->].
    assert (Hl : forall b, live v b -> b <> a) by (intros b [x Hx] ->; congruence).
    unfold root, the_space. destruct s as [| b]; cbn; [by rewrite (b_kernel _ _ _ _ Hb) |].
    rewrite Hsp, lookup_insert_ne by (symmetry; by apply Hl). split; [| done].
    destruct Hs as [x Hx]. exists x. rewrite Hsp. by rewrite lookup_insert_ne by (intros ->; congruence).
  - unfold roots, rt. by rewrite (b_kernel _ _ _ _ Hb).
  - intros path i Hv Hi. rewrite (b_kent _ _ _ _ Hb) by done. by apply A6.
  - intros i Hi. rewrite (b_kent _ _ _ _ Hb) by (apply valid_dir || by apply window_index). by apply A7.
Qed.

Lemma switch_fields c s v :
  memory (paging_switch c (Some s) v) = memory v /\ frames (paging_switch c (Some s) v) = frames v /\
  roots (paging_switch c (Some s) v) = roots v /\ spaces (paging_switch c (Some s) v) = spaces v /\
  kernel_space (paging_switch c (Some s) v) = kernel_space v.
Proof. unfold paging_switch. by case_if. Qed.

Lemma switch_cpu c s v :
  (c < length (cpus v))%nat -> cpu_ok v ->
  forall c', cpus (paging_switch c (Some s) v) !! c' =
    if decide (c' = c) then Some (Cpu (Some s) (root v s)) else cpus v !! c'.
Proof.
  intros Hlen Hc c'. unfold paging_switch. destruct (lookup_lt_is_Some_2 _ _ Hlen) as [k Ek].
  case_bool_decide as Hd.
  - case_decide as Hcc; [subst c' | done]. rewrite Ek. unfold this_space in Hd.
    rewrite (list_lookup_total_correct _ _ _ Ek) in Hd. destruct (Hc c k s Ek Hd) as [_ Hr].
    destruct k as [sp cr]. cbn in *. congruence.
  - unfold load_cr3, set_this_space. cbn [cpus with_cpus]. case_decide as Hcc.
    + subst c'. rewrite list_lookup_insert_eq by (by rewrite length_insert). f_equal.
      rewrite list_lookup_total_insert_eq by done. done.
    + by rewrite !list_lookup_insert_ne by done.
Qed.

Lemma exec_switch c s v : vm_inv v -> allowed (Switch c s) v -> vm_inv (paging_switch c (Some s) v).
Proof.
  intros [A1 A2 AD A3 A4 A5 AR A6 A7] [Hlen Hs]. destruct (switch_fields c s v) as (F1 & F2 & F3 & F4 & F5).
  split.
  - unfold vm_ok. by rewrite F1, F2, F3.
  - by rewrite F1, F3.
  - by rewrite F1, F3.
  - rewrite F1, F3. done.
  - rewrite F1, F3. done.
  - assert (Hr : forall s', root (paging_switch c (Some s) v) s' = root v s').
    { intros [| a']; unfold root, the_space, lookup_space; by rewrite ?F4, ?F5. }
    assert (Hl : forall a, live v a -> live (paging_switch c (Some s) v) a) by (intros a [x Hx]; exists x; by rewrite F4).
    intros c' k s' Ek Es. rewrite switch_cpu in Ek by done. rewrite Hr. case_decide.
    + injection Ek as <-. injection Es as <-. split; [destruct s; auto | done].
    + destruct (A5 c' k s' Ek Es) as [? ?]. split; [destruct s'; auto | done].
  - by rewrite F3.
  - rewrite F1, F3. done.
  - rewrite F1, F3. done.
Qed.

Lemma exec_free c a v :
  vm_inv v -> allowed (Free c a) v ->
  exists p, paging_free_addrspace c (Some (Space a)) v = Ret (without a p v) /\ vm_inv (without a p v) /\
    forall g, taken p g <-> in_use v g /\ ~ of_space v a g.
Proof.
  intros Hi (Hl & Hc & Hp). destruct (paging_free_spec kern c a v (vi_ok _ Hi) Hl Hc) as (p & E & Hok & Hu).
  { intros q e Hq Hs Ee Hk. apply (Hp q e Hq Hs Ee). by apply (vi_sh _ Hi a q). }
  exists p. split; [done |]. split; [| done]. destruct Hi as [A1 A2 AD A3 A4 A5 AR A6 A7]. split; [done | | | | | | | |].
  - rewrite table_without. by rewrite decide_False.
  - destruct AD as [pd Hpd]. exists pd. rewrite table_without. by rewrite decide_False.
  - intros b q e Hq Hs. rewrite page_without. case_decide; [done |]. by apply A3.
  - intros f Hf (s & path & Hv & Et). rewrite table_without in Et. case_decide; [done |]. apply (A4 f Hf). by exists s, path.
  - intros c' k s Ek Es. cbn in Ek. rewrite list_lookup_fmap in Ek.
    destruct (cpus v !! c') as [k' |] eqn:Ek'; [| done]. cbn in Ek. injection Ek as <-.
    unfold scrub in Es |- *. case_bool_decide as Hd; [done |]. destruct (A5 c' k' s Ek' Es) as [Hs Hr].
    rewrite Es in Hd. unfold live, root, the_space in *. destruct s as [| b]; cbn; [done |].
    rewrite lookup_delete_ne by congruence. done.
  - done.
  - intros path i Hv Hi. rewrite entry_without by done. by apply A6.
  - intros i Hi. rewrite entry_without by done. by apply A7.
Qed.

Lemma exec_store c virt b v :
  vm_inv v -> allowed (Store c virt b) v ->
  exists v', exec (Store c virt b) v = Ret v' /\ vm_inv v' /\ frames v' = frames v /\
    (forall s q, page v' s q = page v s q) /\
    (v' = v \/ exists a e, this_space c v = Some (Space a) /\ own_addr virt /\
       page v (Space a) (virt / 4096) = Some e /\
       v' = with_memory (<[FRAME_OF e + virt `mod` 4096 := b]> (memory v)) v).
Proof.
  intros Hi (Hlen & (a & Ha) & Hv). destruct (cpu_loaded v c a (vi_cpu _ Hi) Hlen Ha) as [Hl Hload].
  unfold exec. rewrite Hload. cbn [cr3]. pose proof (vi_ok _ Hi) as Hok.
  destruct (mmu (memory v) (root v (Space a)) virt) as [x |] eqn:Em; [| exists v; split_and!; auto].
  destruct (user x) eqn:Hu; cbn [andb]; [| exists v; split_and!; auto].
  destruct (writable x); [| exists v; split_and!; auto].
  destruct (mmu_reach kern v a virt x Hok Hl Hv Em Hu) as (Ho & e & Ee & Ex & _). rewrite Ex.
  set (m' := <[FRAME_OF e + virt `mod` 4096 := b]> (memory v)). exists (with_memory m' v). split; [done |].
  pose proof (Z.mod_pos_bound virt 4096 ltac:(lia)) as Hmod.
  destruct (ok_bytes (roots v) kern (memory v) m' (frames v)) as (Hok' & HT & HE & HP); [| done |].
  { intros s path t y Hvp Et Hy. unfold m'. rewrite byte_at_insert.
    destruct (Z.eqb_spec (FRAME_OF e + virt `mod` 4096) y) as [<- |]; [| done]. exfalso.
    destruct (ok_leaf _ _ _ _ Hok a (virt / 4096) e) as [_ Hn]; [destruct Ho; zlia | apply Ho | done |].
    apply (Hn s path Hvp). rewrite Et. f_equal.
    destruct (FRAME_OF_paged e), (ok_frame _ _ _ _ Hok s path t Hvp Et) as ([? ?] & _). zlia. }
  split; [| split; [done | split; [done | right; by exists a, e]]].
  destruct Hi as [A1 A2 AD A3 A4 A5 AR A6 A7]. split; [done | | | | | | | |].
  - etransitivity; [by apply HT, valid1 | done].
  - destruct AD as [pd Hpd]. exists pd. etransitivity; [by apply HT, valid_dir | done].
  - intros a' q e' Hq Hs E. apply (A3 a' q); try done. rewrite <- E. symmetry. apply HP.
  - intros f Hf (s & path & Hvp & Et). apply (A4 f Hf). exists s, path. split; [done |]. rewrite <- Et. symmetry. by apply HT.
  - exact A5.
  - done.
  - intros path i Hvp Hi Hw. etransitivity; [by apply HE | by apply A6].
  - intros i Hi. replace (entry _ KSpace [0; 0] i) with (entry v KSpace [0; 0] i); [by apply A7 |].
    symmetry. apply HE; [apply valid_dir | by apply window_index].
Qed.

(** A present entry, looked at without the user bit. *)
Lemma next_level_kernel v path t t' i flags s :
  table v KSpace path = Some t -> table v KSpace (i :: path) = Some t' -> has flags PTE_USER = false ->
  next_level t i true flags s v = (Some t', v).
Proof.
  intros Et Et' Hf. rewrite tb_cons in Et'. cbv zeta in Et'. unfold ent in Et'. rewrite Et in Et'.
  unfold next_level, read. destruct (has (slot (memory v) t i) PTE_PRESENT); [| done]. rewrite Hf.
  cbn [negb andb] in Et' |- *. by destruct (negb _); [injection Et' as <- |].
Qed.

(** Another memory behind a window: one entry of the directory changes, and no
    table is gained or lost. *)
Lemma exec_window virt phys flags v :
  vm_inv v -> allowed (Window virt phys flags) v ->
  exists pd m, table v KSpace [0; 0] = Some pd /\ exec (Window virt phys flags) v = Ret (with_memory m v) /\
    m = put_slot (memory v) pd (virt / 2 ^ 21) (huge_entry phys flags) /\ vm_inv (with_memory m v) /\
    (forall s q, page (with_memory m v) s q = page v s q).
Proof.
  intros Hi (Hw & Hp & Hu). pose proof (vi_ok _ Hi) as Hok. destruct (vi_dir _ Hi) as [pd Hpd].
  destruct (window_indices virt Hw) as (I4 & I3 & I2 & Hsl). rewrite I2 in Hsl. pose proof (window_index _ Hsl) as Hr.
  destruct (window_entry_bits phys flags Hp) as (Xr & Xp & _ & _ & Xh).
  destruct (ok_frame _ _ _ _ Hok KSpace [0; 0] pd valid_dir Hpd) as (Ppd & _).
  set (e := huge_entry phys flags) in *. set (k := virt / 2 ^ 21) in *. set (m := put_slot (memory v) pd k e).
  exists pd, m. split; [done |]. split.
  { unfold exec, paging_map_huge. rewrite I4, I3, I2.
    assert (E0 : table v KSpace [] = Some (pml4 (kernel_space v))) by done.
    rewrite (next_level_kernel v [] _ boot_pdpt) by (done || apply (vi_pdpt _ Hi)).
    by rewrite (next_level_kernel v [0] _ pd) by (done || apply (vi_pdpt _ Hi)). }
  split; [done |].
  assert (HS : forall t j, paged t -> 0 <= j < 512 ->
    slot m t j = if ((pd =? t) && (k =? j))%bool then e else slot (memory v) t j) by (intros; by apply slot_put).
  assert (Hown : forall s path, valid path -> table v s path = Some pd -> path = [0; 0]).
  { intros s path Hv E. pose proof (ok_inj _ _ _ _ Hok s path KSpace [0; 0] pd Hv valid_dir E Hpd) as [= _ Ho]. done. }
  assert (Hpg : forall s path t, valid path -> table v s path = Some t -> paged t)
    by (intros s path t Hv E; by apply (ok_frame _ _ _ _ Hok s path)).
  assert (Hold : has (slot (memory v) pd k) PTE_HUGE = true).
  { destruct (vi_window _ Hi k Hsl) as (ph & fl & Hph & E). unfold ent in E. rewrite Hpd in E. rewrite E.
    by destruct (window_entry_bits ph fl Hph) as (_ & _ & _ & _ & ?). }
  assert (HT : forall s path, valid path -> tb (roots v) m s path = table v s path).
  { intros s path. induction path as [| j path IH]; intros Hv; [done |].
    apply valid_cons in Hv as (Hj & Hv & _). rewrite !tb_cons. unfold ent. rewrite IH by done.
    destruct (table v s path) as [t |] eqn:Et; [| done]. cbv zeta. rewrite HS by (by eauto).
    destruct (Z.eqb_spec pd t) as [<- |], (Z.eqb_spec k j) as [<- |]; try done. cbn [andb].
    by rewrite Xh, Hold, !andb_false_r. }
  assert (HE : forall s path j, valid path -> 0 <= j < 512 -> path <> [0; 0] \/ j <> k ->
    ent (roots v) m s path j = entry v s path j).
  { intros s path j Hv Hj Hne. unfold ent. rewrite HT by done. destruct (table v s path) as [t |] eqn:Et; [| done].
    rewrite HS by (by eauto). destruct (Z.eqb_spec pd t) as [<- |], (Z.eqb_spec k j) as [<- |]; try done.
    apply Hown in Et; [| done]. by destruct Hne. }
  assert (HP : forall s q, page (with_memory m v) s q = page v s q).
  { intros s q. apply pte_ext. intros. apply HE; auto. }
  split; [| done]. destruct Hi as [A1 A2 AD A3 A4 A5 AR A6 A7]. split; try done.
  - apply (ok_mem (roots v) kern (memory v)); [exact HT | | done]. intros. apply HE; auto.
  - etransitivity; [by apply HT, valid1 | done].
  - exists pd. etransitivity; [by apply HT, valid_dir | done].
  - intros a q e' Hq Hs E. rewrite HP in E. by apply (A3 a q).
  - intros f Hf (s & path & Hv & Et). apply (A4 f Hf). exists s, path. split; [done |]. rewrite <- Et. symmetry. by apply HT.
  - intros path j Hv Hj Hne. etransitivity; [apply HE; [done | done |] | by apply A6].
    destruct Hne; [by left | right; congruence].
  - intros j Hj. pose proof (window_index _ Hj). destruct (decide (j = k)) as [-> | Hne].
    + exists phys, flags. split; [done |]. unfold ent. change (memory (with_memory m v)) with m.
      change (roots (with_memory m v)) with (roots v). rewrite HT by apply valid_dir. rewrite Hpd, HS by done.
      by rewrite !Z.eqb_refl.
    + replace (entry (with_memory m v) KSpace [0; 0] j) with (entry v KSpace [0; 0] j); [by apply A7 |].
      symmetry. apply HE; [apply valid_dir | done | by right].
Qed.

(** Every allowed operation returns, and keeps the invariant. *)
Lemma exec_inv x v : vm_inv v -> allowed x v -> exists v', exec x v = Ret v' /\ vm_inv v'.
Proof.
  intros Hi Ha. destruct x as [a | c a virt | a virt f | a virt | a virt | c s | c a | virt phys flags | c virt b].
  - destruct (exec_new a v Hi Ha) as (r & v' & E & ? & _). exists v'. cbn. by rewrite E.
  - destruct (exec_map_alloc c a virt v Hi Ha) as (r & v' & E & ? & _). exists v'. cbn. by rewrite E.
  - destruct (exec_share a virt f v Hi Ha) as (r & v' & E & ? & _). exists v'. cbn. by rewrite E.
  - destruct (exec_unmap a virt v Hi Ha) as (v' & E & ? & _). exists v'. by cbn.
  - destruct (exec_unmap_keep a virt v Hi Ha) as (v' & E & ? & _). exists v'. by cbn.
  - exists (paging_switch c (Some s) v). split; [done |]. by apply exec_switch.
  - destruct (exec_free c a v Hi Ha) as (p & E & ? & _). exists (without a p v). by cbn.
  - destruct (exec_window virt phys flags v Hi Ha) as (pd & m & _ & E & _ & ? & _). by exists (with_memory m v).
  - destruct (exec_store c virt b v Hi Ha) as (v' & E & ? & _). by exists v'.
Qed.

Lemma step_inv v v' : vm_inv v -> step v v' -> vm_inv v'.
Proof. intros Hi (x & Ha & E). destruct (exec_inv x v Hi Ha) as (v1 & E1 & H1). congruence. Qed.

Lemma steps_inv v v' : vm_inv v -> rtc step v v' -> vm_inv v'.
Proof. intros Hi Hs. induction Hs as [| ? ? ? Hs _ IH]; [done |]. apply IH. by apply (step_inv _ _ Hi). Qed.

End run.

(** ** From boot on *)

Section reached.
Context (boot_pml4 boot_pdpt boot_pd : Z).

(** Memory as the loader leaves it, with no processor having a space loaded;
    [boot.S], then the windows [ws] of a console that starts early, and then
    [paging_init] on processor [c]. *)
Definition booted (c : nat) (pge : bool) (v0 v1 : vm) : Prop :=
  boot_state boot_pml4 boot_pdpt boot_pd v0 /\ (c < length (cpus v0))%nat /\
  Forall (fun k => space k = None) (cpus v0) /\
  exists early ws, Forall (fun w => window_call w.1.1 w.1.2 w.2) ws /\
  paging_init boot_pml4 boot_pd c pge
    (early_windows boot_pdpt early ws (build_page_tables boot_pml4 boot_pdpt boot_pd v0)) = Ret v1.

(** Frames of shared memory objects: taken, and not tables. *)
Definition sharable (v1 : vm) (sh : Z -> Prop) : Prop := forall f, sh f -> in_use v1 f /\ ~ is_table v1 f.

Definition reached (v1 : vm) (sh : Z -> Prop) (v : vm) : Prop := rtc (step boot_pdpt sh) v1 v.

Lemma booted_inv c pge v0 v1 sh :
  booted c pge v0 v1 -> sharable v1 sh -> vm_inv boot_pdpt (in_use v1) sh boot_pml4 (entry v1 KSpace) v1.
Proof.
  intros (Hb & Hlen & Hnone & early & ws & Hws & E) Hsh. pose proof (paging_init_spec _ _ _ c pge early ws v0 Hb Hws) as H.
  rewrite E in H.
  destruct H as (pt & Hkm & Hr & Hok & (Ht & Ht2 & _) & Hs & Hu & _ & Hp & _ & Hc). split; try done.
  - by exists boot_pd.
  - intros a q e _ _ Ee. unfold pte, ent, tb, roots, rt in Ee. by rewrite Hs, lookup_fmap, lookup_empty in Ee.
  - intros f Hf. by apply Hsh.
  - intros c' k s Ek Es. rewrite Hc in Ek by done. destruct (decide (c' = c)) as [-> | Hne].
    + rewrite list_lookup_insert_eq in Ek by done. injection Ek as <-. injection Es as <-. split; [done |].
      rewrite roots_kernel in Hr. by injection Hr as <-.
    + rewrite list_lookup_insert_ne in Ek by done. rewrite Forall_forall in Hnone.
      rewrite (Hnone k) in Es; [done |]. by eapply list_elem_of_lookup_2.
  - intros i Hi. unfold ent. rewrite Ht2. by apply (km_window _ _ _ _ _ Hkm).
Qed.

(** Apart from the windows, the kernel's tables are still the ones of boot. *)
Lemma inv_tables o sh kroot v1 v :
  roots v1 KSpace = Some kroot -> vm_inv boot_pdpt o sh kroot (entry v1 KSpace) v ->
  (forall i, window_slot i = true -> window_entry (entry v1 KSpace [0; 0] i)) ->
  forall path, valid path -> table v KSpace path = table v1 KSpace path.
Proof.
  intros Hroot Hi Hw. induction path as [| i path IH]; intros Hv; [unfold tb; by rewrite (vi_kroot _ _ _ _ _ _ Hi), Hroot |].
  apply valid_cons in Hv as (Hi' & Hv & _). rewrite !tb_cons. cbv zeta.
  destruct (decide (path = [0; 0])) as [-> | Hne]; [| by rewrite (vi_kent _ _ _ _ _ _ Hi) by auto].
  destruct (window_slot i) eqn:Es; [| by rewrite (vi_kent _ _ _ _ _ _ Hi) by auto].
  destruct (Hw i Es) as (p1 & f1 & Hp1 & ->). destruct (vi_window _ _ _ _ _ _ Hi i Es) as (p2 & f2 & Hp2 & ->).
  destruct (window_entry_bits p1 f1 Hp1) as (_ & _ & _ & _ & ->).
  destruct (window_entry_bits p2 f2 Hp2) as (_ & _ & _ & _ & ->). by rewrite !andb_false_r.
Qed.

Lemma reached_inv c pge v0 v1 sh v :
  booted c pge v0 v1 -> sharable v1 sh -> reached v1 sh v ->
  vm_inv boot_pdpt (in_use v1) sh boot_pml4 (entry v1 KSpace) v.
Proof.
  intros Hb Hsh Hr. refine (steps_inv _ _ _ _ _ _ _ _ _ Hr); [intros f Hf; by apply Hsh | by eapply booted_inv].
Qed.

Lemma reached_kernel_map c pge v0 v1 sh v :
  booted c pge v0 v1 -> sharable v1 sh -> reached v1 sh v ->
  exists pt, kernel_map boot_pml4 boot_pdpt boot_pd pt (memory v) /\ root v KSpace = boot_pml4 /\
    entry v KSpace [0] 0 = Z.lor boot_pd 3 /\ paged boot_pdpt /\ paged boot_pd /\ paged pt /\ ~ in_use v0 (pt / 4096) /\
    table v KSpace [0; 0] = Some boot_pd.
Proof.
  intros Hb Hsh Hr. pose proof (reached_inv c pge v0 v1 sh v Hb Hsh Hr) as Hi.
  destruct Hb as (Hb & Hlen & Hnone & early & ws & Hws & E). pose proof (paging_init_spec _ _ _ c pge early ws v0 Hb Hws) as H.
  rewrite E in H. destruct H as (pt & Hkm & Hroot & Hok & (T1 & T2 & T3) & Hs & Hu & Hn & Hp & _). exists pt.
  pose proof (vi_kroot _ _ _ _ _ _ Hi) as HR. pose proof (vi_kent _ _ _ _ _ _ Hi) as HE.
  assert (HT : forall path, valid path -> table v KSpace path = table v1 KSpace path).
  { eapply inv_tables; [done | exact Hi |]. intros i Hw. unfold ent. rewrite T2. by apply (km_window _ _ _ _ _ Hkm). }
  assert (V2 : valid [0; 0]) by apply valid_dir. assert (V3 : valid [0; 0; 0]) by (apply valid3; lia).
  assert (Hsl : forall path t i, valid path -> table v1 KSpace path = Some t -> 0 <= i < 512 ->
    path <> [0; 0] \/ window_slot i = false -> slot (memory v) t i = slot (memory v1) t i).
  { intros path t i Hv Et Hi' Hne. rewrite (entry_at v1 _ _ _ _ Et), <- HE by done. apply entry_at. by rewrite HT. }
  assert (T0 : table v1 KSpace [] = Some boot_pml4) by (unfold tb; by rewrite Hroot).
  assert (Hf : forall path t, valid path -> table v1 KSpace path = Some t -> paged t)
    by (intros path t Hv Et; by apply (ok_frame _ _ _ _ Hok KSpace path)).
  split; [| split; [| split; [| split_and!]]].
  - destruct Hkm as [K4 K3 K2 KW K1]. split; intros i Hi'.
    + rewrite (Hsl [] boot_pml4) by (auto || apply valid_nil). by apply K4.
    + rewrite (Hsl [0] boot_pdpt) by (auto || apply valid1). by apply K3.
    + intros Hw. rewrite (Hsl [0; 0] boot_pd) by auto. by apply K2.
    + pose proof (vi_window _ _ _ _ _ _ Hi i Hi') as Hw. unfold ent in Hw. by rewrite HT, T2 in Hw.
    + rewrite (Hsl [0; 0; 0] pt) by (auto || by left). by apply K1.
  - rewrite roots_kernel in HR. by injection HR.
  - rewrite HE, <- (entry_at v1 _ _ _ 0 T1) by (lia || apply valid1 || by left). by rewrite (km_pdpt _ _ _ _ _ Hkm) by lia.
  - by apply (Hf [0]); [apply valid1 |].
  - by apply (Hf [0; 0]).
  - done.
  - done.
  - by rewrite HT.
Qed.

(** Low addresses through a process's tables. *)
Lemma mmu_low_user o v a pt x :
  vm_ok o v -> live v a -> kernel_map boot_pml4 boot_pdpt boot_pd pt (memory v) ->
  entry v KSpace [0] 0 = Z.lor boot_pd 3 -> paged boot_pdpt -> paged boot_pd -> 0 <= x < 2 ^ 30 ->
  mmu (memory v) (root v (Space a)) x = mmu (memory v) boot_pml4 x.
Proof.
  intros Hok Hl [K4 K3 _ _ _] He P3 P2 Hx. destruct (top_table o v a Hok Hl) as (d & Er & Ed).
  unfold mmu. replace (canonical x) with true by (symmetry; apply orb_true_iff; left; apply Z.ltb_lt; lia). cbn [negb].
  assert (I4 : PML4_INDEX x = 0) by (unfold PML4_INDEX; rewrite index_spec by lia; zlia).
  assert (I3 : PDPT_INDEX x = 0) by (unfold PDPT_INDEX; rewrite index_spec by lia; zlia).
  rewrite I4, I3, (entry_at v (Space a) [] _ _ Er), K4 by lia. cbn [Z.eqb].
  destruct (ok_entry _ _ _ _ Hok a [] 0 valid1 eq_refl) as [H4 H4'].
  pose proof Ed as Ed'. rewrite tb_cons in Ed'. cbv zeta in Ed'. rewrite H4 in Ed'.
  destruct (has (entry v (Space a) [] 0) PTE_PRESENT); [| done]. destruct H4' as [-> ->]; [done |].
  injection Ed' as ->. rewrite (entry_at v _ _ _ 0 Ed).
  destruct (ok_borrow _ _ _ _ Hok a _ (roots_space v a Hl)) as [_ Hb]. rewrite (Hb 0), He by (by left).
  destruct (entry_bits boot_pdpt 3 P3) as (F3 & _ & B1 & B2 & B3 & _); [lia |].
  rewrite B1, B2, B3, F3, K3 by lia. cbn [Z.eqb].
  destruct (entry_bits boot_pd 3 P2) as (F2 & _ & C1 & C2 & C3 & C4); [lia |].
  rewrite C1, C2, C3, C4, F2. done.
Qed.

(** A frame in use before, other than the three tables, never becomes a table. *)
Lemma boot_frame_no_table c pge v0 v1 sh v g :
  booted c pge v0 v1 -> sharable v1 sh -> reached v1 sh v -> in_use v0 g ->
  g * 4096 ∉ [boot_pml4; boot_pdpt; boot_pd] -> ~ is_table v g.
Proof.
  intros Hb Hsh Hr Hg Hne. pose proof (reached_inv c pge v0 v1 sh v Hb Hsh Hr) as Hi. pose proof (vi_ok _ _ _ _ _ _ Hi) as Hok.
  destruct Hb as (Hb & _ & _ & early & ws & Hws & E). pose proof (paging_init_spec _ _ _ c pge early ws v0 Hb Hws) as H.
  rewrite E in H. destruct H as (pt & Hkm & Hroot & _ & (_ & T2 & _) & _ & Hu & Hn & Hp & Hk & _).
  assert (Hg1 : in_use v1 g) by (apply Hu; by left).
  assert (HT : forall path, valid path -> table v KSpace path = table v1 KSpace path).
  { eapply inv_tables; [done | exact Hi |]. intros i Hw. unfold ent. rewrite T2. by apply (km_window _ _ _ _ _ Hkm). }
  assert (HK : forall path, valid path -> table v KSpace path <> Some (g * 4096)).
  { intros path Hv Et. rewrite HT in Et by done. apply Hk in Et; [| done]. rewrite !elem_of_cons in Et, Hne.
    destruct Et as [Eg | [Eg | [Eg | Eg]]]; [by apply Hne; auto.. |]. apply list_elem_of_singleton in Eg.
    apply Hn. by rewrite <- Eg, Z.div_mul. }
  intros (s & path & Hv & Et). destruct s as [| a]; [by apply (HK path) |].
  destruct (shared path) eqn:Es.
  - apply (HK path Hv). destruct (roots v (Space a)) as [r |] eqn:Er; [| unfold tb in Et; by rewrite Er in Et].
    by rewrite <- (tb_borrow (roots v) _ (memory v) (frames v) a path r Hok Er Hv Es).
  - apply (ok_utab _ _ _ _ Hok a path _ Hv Es Et). by rewrite Z.div_mul by done.
Qed.

(** [virt] is open to ring 3 in space [a], at physical address [x]. *)
Definition reaches (v : vm) (a virt x : Z) : Prop :=
  live v a /\ 0 <= virt < 2 ^ 47 /\ exists w, mmu (memory v) (root v (Space a)) virt = Some (Access x w true).

Lemma reaches_page o v a virt x :
  vm_ok o v -> reaches v a virt x -> own_addr virt /\
  exists e, page v (Space a) (virt / 4096) = Some e /\ x / 4096 = FRAME_OF e / 4096.
Proof.
  intros Hok (Hl & Hv & w & E). destruct (mmu_reach o v a virt _ Hok Hl Hv E eq_refl) as (Ho & e & Ee & Ep & _).
  split; [done |]. exists e. split; [done |]. cbn in Ep. rewrite Ep. destruct (FRAME_OF_paged e). zlia.
Qed.

(** C12: however the kernel's operations and the programs' stores were
    interleaved, a byte that a program can reach is in a frame that is in use
    and is no page table; it is a frame of a shared memory object, or one that
    no other page of this or of any other process reaches and that was not the
    kernel's when it started. *)
Theorem address_spaces_isolated c pge v0 v1 sh v a virt x :
  booted c pge v0 v1 -> sharable v1 sh -> reached v1 sh v -> reaches v a virt x ->
  in_use v (x / 4096) /\ ~ is_table v (x / 4096) /\
  (sh (x / 4096) \/
   ~ in_use v1 (x / 4096) /\
   forall b virt' x', reaches v b virt' x' -> x' / 4096 = x / 4096 -> b = a /\ virt' / 4096 = virt / 4096).
Proof.
  intros Hb Hsh Hr Hx. pose proof (reached_inv c pge v0 v1 sh v Hb Hsh Hr) as Hi. pose proof (vi_ok _ _ _ _ _ _ Hi) as Hok.
  destruct (reaches_page _ v a virt x Hok Hx) as ([Hv Hs] & e & Ee & Ef). assert (Hq : 0 <= virt / 4096 < 2 ^ 36) by zlia.
  destruct (ok_leaf _ _ _ _ Hok a _ e Hq Hs Ee) as [Ht Hn]. rewrite Ef. split; [done |]. split.
  { intros (s & path & Hvp & Et). apply (Hn s path Hvp). rewrite <- (paged_frame (FRAME_OF e)) in Et by apply FRAME_OF_paged. done. }
  assert (Hdec : sh (FRAME_OF e / 4096) \/ ~ in_use v1 (FRAME_OF e / 4096)).
  { destruct (decide (0 < FRAME_OF e / 4096 < Pmm.total_frames (frames v1) /\ Pmm.used (frames v1) (FRAME_OF e / 4096) = true)) as [Hk | Hk].
    - left. by apply (vi_sh _ _ _ _ _ _ Hi a (virt / 4096)).
    - by right. }
  destruct Hdec as [? | Hnk]; [by left | right]. split; [done |]. intros b virt' x' Hx' E.
  destruct (reaches_page _ v b virt' x' Hok Hx') as ([Hv' Hs'] & e' & Ee' & Ef').
  destruct (ok_priv _ _ _ _ Hok a (virt / 4096) e b (virt' / 4096) e') as [-> ->]; try done; [zlia |].
  rewrite (paged_frame (FRAME_OF e)), (paged_frame (FRAME_OF e')) by apply FRAME_OF_paged. congruence.
Qed.

(** C13: the frames in use are those of the kernel at boot and the tables and
    pages of the live address spaces; a run that ends with every process gone
    leaves exactly the frames in use that were in use when it began, so neither
    a page nor a table is ever lost or given back twice. *)
Theorem frames_accounted c pge v0 v1 sh v :
  booted c pge v0 v1 -> sharable v1 sh -> reached v1 sh v ->
  (forall g, in_use v g <-> in_use v1 g \/ exists a, live v a /\ of_space v a g) /\
  (spaces v = ∅ -> forall g, in_use v g <-> in_use v1 g).
Proof.
  intros Hb Hsh Hr. pose proof (reached_inv c pge v0 v1 sh v Hb Hsh Hr) as Hi. pose proof (vi_ok _ _ _ _ _ _ Hi) as Hok.
  assert (Hlive : forall a path t, table v (Space a) path = Some t -> live v a).
  { intros a path t E. unfold tb, roots, rt in E. rewrite lookup_fmap in E.
    destruct (spaces v !! a) as [y |] eqn:Ey; [by exists y | done]. }
  assert (H : forall g, in_use v g <-> in_use v1 g \/ exists a, live v a /\ of_space v a g).
  { intros g. split.
    - intros Hg. destruct (ok_all _ _ _ _ Hok g Hg) as [? | [(a & path & t & Hv & Hs & E & ->) | (a & q & e & Hq & Hs & E & ->)]].
      + by left.
      + right. exists a. split; [by apply (Hlive a path t) |]. apply (of_space_table v a path); try done.
        by apply (ok_frame _ _ _ _ Hok (Space a) path).
      + right. exists a. split; [| by apply (of_space_page v a q)].
        unfold pte, ent in E. destruct (table v (Space a) (path_of q)) as [t |] eqn:Et; [by apply (Hlive a (path_of q) t) | done].
    - intros [Hg | (a & Hl & [path | q] & Hk)]; [by apply (ok_other _ _ _ _ Hok) | ..].
      + destruct Hk as (Hv & _ & E). destruct (ok_frame _ _ _ _ Hok _ _ _ Hv E) as (_ & _ & Ht). by rewrite Z.div_mul in Ht.
      + destruct Hk as (Hq & Hs & e & E & Ef). destruct (ok_leaf _ _ _ _ Hok a q e Hq Hs E) as [Ht _].
        by rewrite Ef, Z.div_mul in Ht. }
  split; [done |]. intros Hsp g. rewrite H. split; [| by left]. intros [? | (a & [y Hy] & _)]; [done |].
  by rewrite Hsp, lookup_empty in Hy.
Qed.

Definition exists_space (v : vm) (s : aspace) : Prop := match s with KSpace => True | Space a => live v a end.

(** Every space sees the first gigabyte as the kernel's does. *)
Lemma low_same c pge v0 v1 sh v s x :
  booted c pge v0 v1 -> sharable v1 sh -> reached v1 sh v -> exists_space v s -> 0 <= x < 2 ^ 30 ->
  mmu (memory v) (root v s) x = mmu (memory v) boot_pml4 x.
Proof.
  intros Hb Hsh Hr Hs Hx. destruct (reached_kernel_map c pge v0 v1 sh v Hb Hsh Hr) as (pt & Hkm & Hroot & He & P3 & P2 & P1 & _).
  destruct s as [| a]; [by rewrite Hroot |].
  pose proof (reached_inv c pge v0 v1 sh v Hb Hsh Hr) as Hi.
  by apply (mmu_low_user _ v a pt x (vi_ok _ _ _ _ _ _ Hi)).
Qed.

Lemma low_identity c pge v0 v1 sh v s x :
  booted c pge v0 v1 -> sharable v1 sh -> reached v1 sh v -> exists_space v s -> 0 <= x < 2 ^ 30 ->
  in_window x = false -> mmu (memory v) (root v s) x = if x <? 4096 then None else Some (Access x true false).
Proof.
  intros Hb Hsh Hr Hs Hx Hw. rewrite (low_same c pge v0 v1 sh) by done.
  destruct (reached_kernel_map c pge v0 v1 sh v Hb Hsh Hr) as (pt & Hkm & _ & _ & P3 & P2 & P1 & _).
  by apply (identity_map boot_pml4 boot_pdpt boot_pd pt).
Qed.

(** What a new mapping of a window shows, to every space. *)
Lemma window_shows c pge v0 v1 sh v s x virt phys flags :
  booted c pge v0 v1 -> sharable v1 sh -> reached v1 sh v -> exists_space v s -> 0 <= x < 2 ^ 30 ->
  window_call virt phys flags -> phys < 2 ^ 52 ->
  exists v', exec boot_pdpt (Window virt phys flags) v = Ret v' /\ reached v1 sh v' /\
    mmu (memory v') (root v' s) x =
      if x / 2 ^ 21 =? virt / 2 ^ 21
      then Some (Access (phys / 2 ^ 21 * 2 ^ 21 + x `mod` 2 ^ 21) (has flags PTE_WRITE) false)
      else mmu (memory v) (root v s) x.
Proof.
  intros Hb Hsh Hr Hs Hx Hc Hp. pose proof (reached_inv c pge v0 v1 sh v Hb Hsh Hr) as Hi.
  destruct (exec_window _ _ sh _ _ virt phys flags v Hi Hc) as (pd & m & Epd & E & Em & _ & _).
  destruct (reached_kernel_map c pge v0 v1 sh v Hb Hsh Hr) as (pt & Hkm & _ & _ & P3 & P2 & P1 & _ & T2).
  rewrite T2 in Epd. injection Epd as <-.
  assert (Hr' : reached v1 sh (with_memory m v)) by (eapply rtc_r; [exact Hr |]; by exists (Window virt phys flags)).
  exists (with_memory m v). split; [done |]. split; [done |].
  assert (Hs' : exists_space (with_memory m v) s) by exact Hs.
  rewrite (low_same c pge v0 v1 sh (with_memory m v)), (low_same c pge v0 v1 sh v) by done.
  destruct (reached_kernel_map c pge v0 v1 sh _ Hb Hsh Hr') as (pt' & Hkm' & _ & _ & _ & _ & P1' & _).
  cbn [memory with_memory] in Hkm' |- *. destruct Hc as (Hw & Hph & _).
  pose proof Hw as Hsl. rewrite in_window_slot in Hsl. pose proof (window_index _ Hsl) as Hk.
  destruct (window_entry_bits phys flags Hph) as (Xr & Xp & Xw & _ & Xh).
  assert (HS : forall j, 0 <= j < 512 ->
    slot m boot_pd j = if virt / 2 ^ 21 =? j then huge_entry phys flags else slot (memory v) boot_pd j).
  { intros j Hj. by rewrite Em, slot_put, Z.eqb_refl by done. }
  destruct (Z.eqb_spec (x / 2 ^ 21) (virt / 2 ^ 21)) as [Ex | Ex].
  - rewrite (low_walk boot_pml4 boot_pdpt boot_pd pt') by done. cbv zeta. rewrite Ex, HS, Z.eqb_refl, Xp, Xw, Xh by done. cbn [negb].
    unfold is_u64 in Hph. rewrite window_entry_frame, huge_address by lia. done.
  - destruct (in_window x) eqn:Hwx; last first.
    { by rewrite (identity_map boot_pml4 boot_pdpt boot_pd pt'), (identity_map boot_pml4 boot_pdpt boot_pd pt (memory v)) by done. }
    rewrite (low_walk boot_pml4 boot_pdpt boot_pd pt'), (low_walk boot_pml4 boot_pdpt boot_pd pt (memory v)) by done. cbv zeta. rewrite HS by zlia.
    rewrite (proj2 (Z.eqb_neq (virt / 2 ^ 21) (x / 2 ^ 21))) by done. rewrite in_window_slot in Hwx.
    destruct (km_window _ _ _ _ _ Hkm _ Hwx) as (ph & fl & Hph' & ->).
    by destruct (window_entry_bits ph fl Hph') as (_ & -> & _ & _ & ->).
Qed.

(** C14: every address space sees the first gigabyte as the kernel's own does,
    and ring 3 sees none of it: kernel pointers stay good across a switch.
    Outside the two windows (the framebuffer's and ACPI's, 0x30000000 to
    0x31800000) each address is mapped to itself, writable, except page zero,
    which is not mapped at all, so that a null dereference faults.  Inside them
    every address is mapped to something, and a call of [paging_map_huge] on a
    window shows the memory it names, in every space at once, and changes no
    other address. *)
Theorem kernel_in_every_space c pge v0 v1 sh v s x :
  booted c pge v0 v1 -> sharable v1 sh -> reached v1 sh v -> exists_space v s -> 0 <= x < 2 ^ 30 ->
  mmu (memory v) (root v s) x = mmu (memory v) (root v KSpace) x /\
  (if in_window x then exists phys w, mmu (memory v) (root v s) x = Some (Access phys w false)
   else mmu (memory v) (root v s) x = if x <? 4096 then None else Some (Access x true false)) /\
  forall virt phys flags, window_call virt phys flags -> phys < 2 ^ 52 ->
  exists v', exec boot_pdpt (Window virt phys flags) v = Ret v' /\ reached v1 sh v' /\
    mmu (memory v') (root v' s) x =
      if x / 2 ^ 21 =? virt / 2 ^ 21
      then Some (Access (phys / 2 ^ 21 * 2 ^ 21 + x `mod` 2 ^ 21) (has flags PTE_WRITE) false)
      else mmu (memory v) (root v s) x.
Proof.
  intros Hb Hsh Hr Hs Hx. split; [| split].
  - by rewrite (low_same c pge v0 v1 sh v s), (low_same c pge v0 v1 sh v KSpace) by done.
  - destruct (in_window x) eqn:Hw; [| by apply (low_identity c pge v0 v1 sh)]. rewrite (low_same c pge v0 v1 sh) by done.
    destruct (reached_kernel_map c pge v0 v1 sh v Hb Hsh Hr) as (pt & Hkm & _ & _ & P3 & P2 & _).
    by apply (window_map boot_pml4 boot_pdpt boot_pd pt).
  - intros virt phys flags Hc Hp. by apply (window_shows c pge v0 v1 sh).
Qed.

End reached.

(** ** A run

    Memory of 1088 frames, the first 64 in use, two processors; one process is
    made, loaded on the first processor and given a page. *)

#[local] Transparent zero_bytes load64 store64.

Definition sample_pmm : Pmm.pmm := {|
  Pmm.bitmap := (2 ^ 64 - 1) :: replicate 16 0; Pmm.bitmap_frames := 1088; Pmm.bitmap_words := 17;
  Pmm.total_frames := 1088; Pmm.usable_frames := 1088; Pmm.hole_frames := 0; Pmm.used_frames := 64;
  Pmm.reserved_frames := 0; Pmm.heap_base := 0; Pmm.next_hint := 0; Pmm.next_hint_low := 0 |}.

Definition sample_vm : vm :=
  Vm ∅ sample_pmm (Addrspace 0 0 0) ∅ [Cpu None 0x1000; Cpu None 0x1000] DEVICE_WINDOW 0 false.

Definition after_boot : vm :=
  match paging_init 0x1000 0x3000 0 true (build_page_tables 0x1000 0x2000 0x3000 sample_vm) with
  | Ret v => v
  | Panic => sample_vm
  end.

Definition after (x : op) (v : vm) : vm := match exec 0x2000 x v with Ret v => v | Panic => v end.

Definition no_objects (f : Z) : Prop := False.

Lemma sample_frames_inv : Pmm.pmm_inv sample_pmm.
Proof. split_and!; [split; vm_compute; (split; congruence) || reflexivity || congruence | done | done]. Qed.

Lemma sample_boot : boot_state 0x1000 0x2000 0x3000 sample_vm.
Proof.
  split.
  - apply sample_frames_inv.
  - vm_compute. congruence.
  - done.
  - intros t Ht. rewrite !elem_of_cons in Ht.
    destruct Ht as [-> | [-> | [-> | Hn]]]; [.. | by apply not_elem_of_nil in Hn];
      (split; [split; [done | lia] | split; [lia | split; [vm_compute; split; congruence | done]]]).
  - lia.
  - intros t i _ _. unfold slot, load64, byte_at. change (memory sample_vm) with (∅ : gmap Z Z).
    change (seqZ 0 8) with [0; 1; 2; 3; 4; 5; 6; 7]. cbn [foldr]. by rewrite !lookup_empty.
Qed.

Lemma sample_booted : booted 0x1000 0x2000 0x3000 0 true sample_vm after_boot.
Proof.
  split; [apply sample_boot |]. split; [cbn; lia |]. split; [by repeat constructor |].
  exists 0, []. split; [constructor |].
  unfold after_boot. pose proof (paging_init_spec _ _ _ 0 true 0 [] sample_vm sample_boot (Forall_nil_2 _)) as H.
  cbn [early_windows foldl] in H |- *. unfold early_windows, foldl in H |- *.
  destruct (paging_init _ _ _ _ _); [done |].
  specialize (H 100 ltac:(vm_compute; split; congruence)). vm_compute in H. discriminate.
Qed.

Lemma no_objects_sharable v : sharable v no_objects.
Proof. by intros f []. Qed.

Lemma sample_step v x : 
  reached 0x2000 after_boot no_objects v -> allowed no_objects x v -> reached 0x2000 after_boot no_objects (after x v).
Proof.
  intros Hr Ha. eapply rtc_r; [exact Hr |]. exists x. split; [done |]. unfold after.
  pose proof (reached_inv _ _ _ 0 true _ _ no_objects v sample_booted (no_objects_sharable _) Hr) as Hi.
  destruct (exec_inv 0x2000 (in_use after_boot) no_objects ltac:(by intros ? []) 0x1000 (entry after_boot KSpace) x v Hi Ha) as (v' & E & _).
  by rewrite E.
Qed.

Definition with_space : vm := after (New 0x8000) after_boot.
Definition with_loaded : vm := after (Switch 0 (Space 0x8000)) with_space.
Lemma sample_loaded : reached 0x2000 after_boot no_objects with_loaded.
Proof.
  apply sample_step; [apply sample_step; [apply rtc_refl |] |].
  - split; [done |]. vm_compute. reflexivity.
  - split; [vm_compute; lia |]. eexists. vm_compute. reflexivity.
Qed.

Lemma sample_space_live : live with_loaded 0x8000.
Proof. eexists. vm_compute. reflexivity. Qed.

Lemma sample_no_pages q : shared (path_of q) = false -> page with_loaded (Space 0x8000) q = None.
Proof.
  intros Hq. unfold with_loaded, after, exec.
  destruct (switch_fields 0 (Space 0x8000) with_space) as (-> & _ & -> & _).
  pose proof (reached_inv _ _ _ 0 true _ _ no_objects _ sample_booted (no_objects_sharable _) (rtc_refl _ _)) as Hi.
  destruct (exec_new 0x2000 _ no_objects ltac:(by intros ? []) _ _ 0x8000 after_boot Hi) as (r & v & E & _ & H); [split; [done | vm_compute; reflexivity] |].
  assert (Ev : with_space = v) by (unfold with_space, after, exec; by rewrite E). rewrite Ev.
  destruct r as [s |]; [destruct H as [_ H]; by apply (b_own _ _ _ _ H) |].
  destruct H as [_ H]. assert (spaces with_space !! 0x8000 = spaces after_boot !! 0x8000) as Hs by (by rewrite Ev, H).
  vm_compute in Hs. discriminate.
Qed.

(** The page is there. *)
Lemma sample_page : exists v f, reached 0x2000 after_boot no_objects v /\ keeps with_loaded v /\
  fresh_page with_loaded v 0x8000 USER_BASE WU f.
Proof.
  pose proof (reached_inv _ _ _ 0 true _ _ no_objects _ sample_booted (no_objects_sharable _) sample_loaded) as Hi.
  assert (Hc : this_space 0 with_loaded = Some (Space 0x8000)) by (vm_compute; reflexivity).
  assert (Hlen : (0 < length (cpus with_loaded))%nat) by (vm_compute; lia).
  assert (Hu : user_addr USER_BASE) by (vm_compute; split; congruence).
  assert (Hn : page with_loaded (Space 0x8000) (USER_BASE / 4096) = None) by (apply sample_no_pages, page_in_range; done).
  destruct (cpu_loaded with_loaded 0 0x8000 (vi_cpu _ _ _ _ _ _ Hi) Hlen Hc) as [Hl Hload].
  assert (Hfree : forall g, g ∈ seqZ 100 6 ->
    0 <= g < Pmm.low_limit (frames with_loaded) /\ Pmm.used (frames with_loaded) g = false).
  { intros g [? ?]%elem_of_seqZ.
    assert (Hg : g = 100 \/ g = 101 \/ g = 102 \/ g = 103 \/ g = 104 \/ g = 105) by lia.
    destruct Hg as [-> | [-> | [-> | [-> | [-> | ->]]]]]; (split; [vm_compute; split; congruence | vm_compute; reflexivity]). }
  destruct (paging_map_alloc_succeeds (in_use after_boot) 0 with_loaded 0x8000 USER_BASE WU (seqZ 100 6)
    (vi_ok _ _ _ _ _ _ Hi) Hl Hload Hu eq_refl eq_refl Hn (NoDup_seqZ _ _) (le_n 6) Hfree) as (v & f & E & _ & Hk & Hf).
  exists v, f. split; [| exact (conj Hk Hf)]. eapply rtc_r; [apply sample_loaded |]. exists (MapAlloc 0 0x8000 USER_BASE).
  split; [exact (conj Hl (conj Hc (conj Hlen (conj Hu (conj eq_refl Hn))))) |]. unfold exec. by rewrite E.
Qed.

Lemma sample_reaches v f :
  reached 0x2000 after_boot no_objects v -> keeps with_loaded v -> fresh_page with_loaded v 0x8000 USER_BASE WU f ->
  live v 0x8000 /\ in_use v f /\ ~ in_use after_boot f /\ reaches v 0x8000 (USER_BASE + 5) (f * 4096 + 5).
Proof.
  intros Hr Hk (Hn & Hi & Hp & _). pose proof (g_live _ _ Hk _ sample_space_live) as Hl.
  pose proof (reached_inv _ _ _ 0 true _ _ no_objects _ sample_booted (no_objects_sharable _) sample_loaded) as Hi0.
  pose proof (reached_inv _ _ _ 0 true _ _ no_objects v sample_booted (no_objects_sharable _) Hr) as Hi1.
  split; [done |]. split; [done |].
  split; [intros Hb; by apply Hn, (ok_other _ _ _ _ (vi_ok _ _ _ _ _ _ Hi0)) |].
  split; [done |]. split; [vm_compute; split; congruence |]. exists true.
  rewrite (mmu_user _ v 0x8000 _ (vi_ok _ _ _ _ _ _ Hi1) Hl) by (vm_compute; split; congruence).
  change ((USER_BASE + 5) / 4096) with (USER_BASE / 4096). change ((USER_BASE + 5) `mod` 4096) with 5.
  rewrite Hp by (vm_compute; split; congruence). rewrite decide_True by done. cbn [fmap option_fmap option_map].
  destruct (leaf_of_bits (f * 4096) WU) as (-> & _ & _ & -> & ->).
  rewrite FRAME_OF_id; [done |]. by eapply in_use_paged; [exact (entry v KSpace) | apply (vi_ok _ _ _ _ _ _ Hi1) |].
Qed.

Lemma address_spaces_isolated_witness :
  exists v x, reaches v 0x8000 (USER_BASE + 5) x /\ ~ is_table v (x / 4096) /\ ~ in_use after_boot (x / 4096).
Proof.
  destruct sample_page as (v & f & Hr & Hk & Hf). destruct (sample_reaches v f Hr Hk Hf) as (_ & _ & _ & Hx).
  exists v, (f * 4096 + 5). split; [exact Hx |].
  destruct (address_spaces_isolated 0x1000 0x2000 0x3000 0 true sample_vm after_boot no_objects v 0x8000 (USER_BASE + 5) _
    sample_booted (no_objects_sharable _) Hr Hx) as (_ & H1 & [[] | [H2 _]]). by split.
Defined.

Lemma frames_accounted_witness :
  exists v g, in_use v g /\ ~ in_use after_boot g /\ exists a, live v a /\ of_space v a g.
Proof.
  destruct sample_page as (v & f & Hr & Hk & Hf). destruct (sample_reaches v f Hr Hk Hf) as (_ & Hi & Hn & _).
  destruct (frames_accounted 0x1000 0x2000 0x3000 0 true sample_vm after_boot no_objects v
    sample_booted (no_objects_sharable _) Hr) as [H _].
  exists v, f. split; [exact Hi |]. split; [exact Hn |]. apply H in Hi as [? | ?]; [done | done].
Defined.

Lemma kernel_in_every_space_witness :
  mmu (memory with_loaded) (root with_loaded (Space 0x8000)) 0x123456 = Some (Access 0x123456 true false) /\
  mmu (memory with_loaded) (root with_loaded (Space 0x8000)) 8 = None /\
  exists v, exec 0x2000 (Window 0x30200000 0xE0200000 PTE_WRITE) with_loaded = Ret v /\
    mmu (memory v) (root v (Space 0x8000)) 0x30200005 = Some (Access 0xE0200005 true false).
Proof.
  pose proof (fun x => kernel_in_every_space 0x1000 0x2000 0x3000 0 true sample_vm after_boot no_objects with_loaded
    (Space 0x8000) x sample_booted (no_objects_sharable _) sample_loaded sample_space_live) as H.
  split; [| split].
  - destruct (H 0x123456) as (_ & H1 & _); [lia |]. exact H1.
  - destruct (H 8) as (_ & H1 & _); [lia |]. exact H1.
  - destruct (H 0x30200005) as (_ & _ & H1); [lia |].
    destruct (H1 0x30200000 0xE0200000 PTE_WRITE) as (v & E & _ & Em); [| lia | exists v; split; [exact E | exact Em]].
    split; [reflexivity | split; [unfold is_u64; lia | reflexivity]].
Defined.

End PagingRun.
