(* ===== verification/UserMem.v ===== *)
(** What system calls do with pointers of programs, [kernel/proc/syscall.c]:
    [user_range_ok] and [copy_string_from_user], on the page tables of [Paging].

    Both look at a page once and then trust every byte of it; the theorems say
    that this is the same as asking the processor about every byte. *)

From S2P Require Import Prelude Pmm Sched Paging PagingInv PagingSpec PagingMem PagingBoot PagingRun.

Module UserMem.

Import Sched (aspace, KSpace, Space).
Import Paging PagingInv PagingSpec.

#[local] Opaque zero_bytes load64 store64.

(** The loop over the pages from [page] up to [stop]. *)
Fixpoint pages_ok (n : nat) (s : aspace) (page stop : Z) (need_write : bool) (v : vm) : bool :=
  match n with
  | O => true
  | S n =>
      if page <? stop then
        if negb (paging_user_can_access s page need_write v) then false
        else pages_ok n s (u64 (page + PAGE_SIZE)) stop need_write v
      else true
  end.

(** [s] is the space of the current process. *)
Definition user_range_ok (s : aspace) (addr len : Z) (need_write : bool) (v : vm) : bool :=
  let start := addr in
  if len =? 0 then true
  else if ((start <? USER_BASE) || (u64 (start + len) <? start))%bool then false
  else if u64 (start + len) >? USER_STACK_TOP then false
  else pages_ok (Z.to_nat (len / PAGE_SIZE + 2)) s (ALIGN_DOWN start PAGE_SIZE) (u64 (start + len)) need_write v.

(** The loop of [copy_string_from_user] from index [i], [n] turns from its end;
    the load goes through the tables processor [c] has loaded. *)
Fixpoint copy_loop (n : nat) (c : nat) (s : aspace) (addr i : Z) (dst : list Z) (v : vm) : res (Z * list Z) :=
  match n with
  | O => Ret (- W_ENAMETOOLONG, dst)
  | S n =>
      let at_ := u64 (addr + i) in
      if at_ >=? USER_STACK_TOP then Ret (- W_EFAULT, dst)
      else if (((i =? 0) || (at_ `mod` PAGE_SIZE =? 0)) && negb (paging_user_can_access s at_ false v))%bool
      then Ret (- W_EFAULT, dst)
      else
        match vload (memory v) (cr3 (cpus v !!! c)) at_ with
        | None => Panic
        | Some b =>
            let dst := upd i b dst in
            if b =? 0 then Ret (i32 i, dst) else copy_loop n c s addr (i + 1) dst v
        end
  end.

Definition copy_string_from_user (c : nat) (s : aspace) (user : Z) (dst : list Z) (max : Z) (v : vm)
    : res (Z * list Z) :=
  let addr := user in
  if ((addr <? USER_BASE) || (addr >=? USER_STACK_TOP))%bool then Ret (- W_EFAULT, dst)
  else copy_loop (Z.to_nat max) c s addr 0 dst v.

(** ** What the processor would say, byte by byte *)

(** Ring 3 may read, and with [w] write, the byte at [x] of space [a]. *)
Definition open_to_user (v : vm) (a x : Z) (w : bool) : bool :=
  match mmu (memory v) (root v (Space a)) x with
  | Some k => (user k && (negb w || writable k))%bool
  | None => false
  end.

Definition peek (v : vm) (a x : Z) : option Z :=
  if ((USER_BASE <=? x) && (x <? USER_STACK_TOP) && open_to_user v a x false)%bool
  then vload (memory v) (root v (Space a)) x else None.

(** The bytes of a string at [x], its end included, and what to report; at most
    [n] of them. *)
Fixpoint string_at (n : nat) (v : vm) (a x i : Z) : Z * list Z :=
  match n with
  | O => (- W_ENAMETOOLONG, [])
  | S n =>
      match peek v a x with
      | None => (- W_EFAULT, [])
      | Some b => if b =? 0 then (i, [0]) else let '(r, l) := string_at n v a (x + 1) (i + 1) in (r, b :: l)
      end
  end.

Lemma user_addr_below x : USER_BASE <= x < USER_STACK_TOP -> user_addr x /\ 0 <= x < 2 ^ 47.
Proof. unfold user_addr, USER_BASE, USER_STACK_TOP, DEVICE_WINDOW. lia. Qed.

(** Every byte of a page is as open as the first one. *)
Lemma open_same_page o v a x y w :
  vm_ok o v -> live v a -> user_addr x -> user_addr y -> x / 4096 = y / 4096 ->
  open_to_user v a x w = open_to_user v a y w.
Proof.
  intros Hok Hl Hx Hy E. unfold open_to_user. rewrite !(mmu_user o) by done. rewrite E.
  by destruct (page v (Space a) (y / 4096)).
Qed.

Lemma can_access_open o v a x w :
  vm_ok o v -> live v a -> 0 <= x < 2 ^ 47 -> paging_user_can_access (Space a) x w v = open_to_user v a x w.
Proof. intros Hok Hl Hx. by apply (user_can_access_mmu o). Qed.

Lemma open_load v a x w : open_to_user v a x w = true -> exists b, vload (memory v) (root v (Space a)) x = Some b.
Proof. unfold open_to_user, vload. destruct (mmu _ _ _) as [k |]; [by eexists | done]. Qed.

Lemma pages_ok_spec o v a w stop n : forall q,
  vm_ok o v -> live v a -> USER_BASE <= q * 4096 -> stop <= USER_STACK_TOP -> stop <= q * 4096 + Z.of_nat n * 4096 ->
  pages_ok n (Space a) (q * 4096) stop w v = true <->
  forall x, q * 4096 <= x < stop -> open_to_user v a x w = true.
Proof.
  induction n as [| n IH]; intros q Hok Hl Hq Hs Hn; cbn [pages_ok].
  { split; [| done]. intros _ x Hx. lia. }
  assert (Hu : forall x, q * 4096 <= x < stop -> USER_BASE <= x < USER_STACK_TOP) by lia.
  destruct (Z.ltb_spec (q * 4096) stop) as [Hlt | Hge].
  2: { split; [| done]. intros _ x Hx. lia. }
  destruct (user_addr_below (q * 4096) ltac:(lia)) as [Hqu Hq47].
  rewrite (can_access_open o) by done.
  assert (Ew : u64 (q * 4096 + PAGE_SIZE) = (q + 1) * 4096)
    by (rewrite u64_id; unfold PAGE_SIZE, USER_STACK_TOP in *; lia). rewrite Ew.
  destruct (open_to_user v a (q * 4096) w) eqn:Eo; cbn [negb].
  - rewrite (IH (q + 1)) by (done || lia). split; intros H x Hx.
    + destruct (decide (x < (q + 1) * 4096)) as [Hin |]; [| apply H; lia].
      rewrite (open_same_page o v a x (q * 4096)); [done | done | done | | done | zlia].
      by apply user_addr_below, Hu.
    + apply H. lia.
  - split; [done |]. intros H. rewrite (H (q * 4096)) in Eo by lia. done.
Qed.

(** C16: user_range_ok() accepts a range exactly when it is empty, or lies in user
    space and below the top of the stack without wrapping, and the processor
    would let the program itself read (and, if asked, write) every byte of it. *)
Theorem user_range_ok_correct o v a addr len w :
  vm_ok o v -> live v a -> is_u64 addr -> is_u64 len ->
  user_range_ok (Space a) addr len w v = true <->
  len = 0 \/
  USER_BASE <= addr /\ addr + len <= USER_STACK_TOP /\
  forall x, addr <= x < addr + len -> open_to_user v a x w = true.
Proof.
  intros Hok Hl Ha Hlen. unfold is_u64 in *. unfold user_range_ok. destruct (Z.eqb_spec len 0) as [-> | Hne]; [tauto |].
  destruct (Z.ltb_spec addr USER_BASE) as [Hlow | Hbase]; cbn [orb].
  { split; [done |]. intros [? | (? & _)]; lia. }
  destruct (Z.ltb_spec (u64 (addr + len)) addr) as [Hw | Hw].
  { split; [done |]. intros [? | (_ & Htop & _)]; [lia |]. rewrite u64_id in Hw by (unfold USER_STACK_TOP in *; lia). lia. }
  assert (Hsum : u64 (addr + len) = addr + len).
  { destruct (decide (addr + len < 2 ^ 64)); [apply u64_id; lia |]. exfalso. revert Hw. unfold u64. zlia. }
  rewrite Hsum, Z.gtb_ltb. destruct (Z.ltb_spec USER_STACK_TOP (addr + len)).
  { split; [done |]. intros [? | (_ & ? & _)]; lia. }
  rewrite ALIGN_DOWN_page by lia.
  rewrite (pages_ok_spec o) by (done || (unfold USER_BASE, PAGE_SIZE in *; zlia)). split.
  - intros H1. right. split; [done |]. split; [done |]. intros x Hx. apply H1. zlia.
  - intros [? | (_ & _ & H1)]; [lia |]. intros x Hx. destruct (decide (addr <= x)); [apply H1; lia |].
    rewrite (open_same_page o v a x addr); [apply H1; lia | done | done | | | zlia]; apply user_addr_below.
    + unfold USER_BASE in *. zlia.
    + lia.
Qed.

(** ** Strings *)

Lemma peek_open o v a x :
  vm_ok o v -> live v a -> USER_BASE <= x < USER_STACK_TOP ->
  peek v a x = if open_to_user v a x false then vload (memory v) (root v (Space a)) x else None.
Proof.
  intros Hok Hl Hx. unfold peek. by rewrite (proj2 (Z.leb_le _ _)), (proj2 (Z.ltb_lt _ _)) by lia.
Qed.

(** The check that is skipped inside a page would have been passed. *)
Lemma check_same o v a addr i :
  vm_ok o v -> live v a -> USER_BASE <= addr -> 0 <= i -> addr + i < USER_STACK_TOP ->
  (0 < i -> open_to_user v a (addr + i - 1) false = true) ->
  (((i =? 0) || ((addr + i) `mod` PAGE_SIZE =? 0)) && negb (paging_user_can_access (Space a) (addr + i) false v))%bool =
  negb (open_to_user v a (addr + i) false).
Proof.
  intros Hok Hl Ha Hi Ht Hprev. destruct (user_addr_below (addr + i) ltac:(lia)) as [Hu H47].
  rewrite (can_access_open o) by done. destruct (Z.eqb_spec i 0); [done |].
  destruct (Z.eqb_spec ((addr + i) `mod` PAGE_SIZE) 0) as [| Hm]; [done |]. unfold PAGE_SIZE in Hm.
  cbn [orb andb]. rewrite (open_same_page o v a (addr + i) (addr + i - 1)), Hprev; [done | lia | done | done | done | |].
  - apply user_addr_below. lia.
  - zlia.
Qed.

Lemma splice_cons {A} i (b : A) l dst :
  0 <= i < Zlen dst -> splice i (b :: l) dst = splice (i + 1) l (upd i b dst).
Proof.
  intros Hi. unfold splice, upd, Zlen in *. replace (Z.to_nat (i + 1)) with (S (Z.to_nat i)) by lia.
  erewrite take_S_r by (apply list_lookup_insert_eq; lia). rewrite take_insert_ge by lia.
  rewrite <- app_assoc. cbn [app length]. rewrite drop_insert_lt by lia. by rewrite Nat.add_succ_comm.
Qed.

Lemma splice_nil {A} i (dst : list A) : splice i [] dst = dst.
Proof. unfold splice. cbn [length app]. rewrite Nat.add_0_r. apply take_drop. Qed.

Lemma copy_loop_spec o c v a addr n : forall i dst,
  vm_ok o v -> live v a -> loaded c a v -> USER_BASE <= addr -> 0 <= i -> i + Z.of_nat n <= 2 ^ 31 ->
  addr < USER_STACK_TOP -> i + Z.of_nat n <= Zlen dst ->
  (0 < i -> open_to_user v a (addr + i - 1) false = true) ->
  copy_loop n c (Space a) addr i dst v =
  let '(r, l) := string_at n v a (addr + i) i in Ret (r, splice i l dst).
Proof.
  induction n as [| n IH]; intros i dst Hok Hl Hc Ha Hi Hn Htop Hlen Hprev; cbn [copy_loop string_at].
  { by rewrite splice_nil. }
  rewrite (u64_id (addr + i)) by (unfold USER_BASE, USER_STACK_TOP in *; lia). rewrite Z.geb_leb.
  destruct (Z.leb_spec USER_STACK_TOP (addr + i)).
  { unfold peek. rewrite (proj2 (Z.ltb_ge (addr + i) _)) by lia. rewrite andb_false_r. cbn [andb]. by rewrite splice_nil. }
  rewrite (check_same o) by (done || lia). rewrite (peek_open o) by (done || lia).
  destruct (open_to_user v a (addr + i) false) eqn:Eo; cbn [negb]; [| by rewrite splice_nil].
  rewrite Hc. cbn [cr3]. destruct (open_load _ _ _ _ Eo) as [b ->]. destruct (Z.eqb_spec b 0) as [-> | Hb].
  - rewrite splice_cons, splice_nil by lia. f_equal. f_equal. unfold i32.
    rewrite u32_id by lia. by rewrite (proj2 (Z.ltb_lt _ _)) by lia.
  - rewrite (IH (i + 1)); try done; try lia.
    + rewrite Z.add_assoc. destruct (string_at n v a (addr + i + 1) (i + 1)) as [r l]. by rewrite splice_cons by lia.
    + rewrite Zlen_upd. lia.
    + intros _. by replace (addr + (i + 1) - 1) with (addr + i) by lia.
Qed.

(** C17: copy_string_from_user() never faults, and reports and copies what a
    byte-by-byte reading with the program's own rights would: the bytes up to the
    terminator and their number, -W_EFAULT at the first byte the program may not
    read, -W_ENAMETOOLONG after [max] bytes without an end. *)
Theorem copy_string_correct o c v a addr dst max :
  vm_ok o v -> live v a -> loaded c a v -> is_u64 addr -> 0 < max <= Zlen dst -> max <= 2 ^ 31 ->
  copy_string_from_user c (Space a) addr dst max v =
  let '(r, l) := string_at (Z.to_nat max) v a addr 0 in Ret (r, splice 0 l dst).
Proof.
  intros Hok Hl Hc Ha Hmax Hbig. unfold copy_string_from_user. rewrite Z.geb_leb.
  destruct (Z.to_nat max) as [| n] eqn:En; [lia |].
  destruct (Z.ltb_spec addr USER_BASE) as [H1 | H1]; cbn [orb].
  { cbn [string_at]. unfold peek. rewrite (proj2 (Z.leb_gt USER_BASE addr)) by lia. cbn [andb]. by rewrite splice_nil. }
  destruct (Z.leb_spec USER_STACK_TOP addr).
  { cbn [string_at]. unfold peek. rewrite (proj2 (Z.ltb_ge addr _)) by lia. rewrite andb_false_r. cbn [andb].
    by rewrite splice_nil. }
  rewrite (copy_loop_spec o c v a addr (S n) 0 dst); try done; try lia. by rewrite Z.add_0_r.
Qed.

(** ** On the run of [PagingRun] *)

Import PagingRun.

(** Its process, loaded, with one page of zeroes at [USER_BASE]. *)
Lemma sample_process : exists v, vm_ok (in_use after_boot) v /\ live v 0x8000 /\ loaded 0 0x8000 v /\
  forall x, USER_BASE <= x < USER_BASE + 4096 ->
    open_to_user v 0x8000 x true = true /\ open_to_user v 0x8000 x false = true /\
    vload (memory v) (root v (Space 0x8000)) x = Some 0.
Proof.
  destruct sample_page as (v & f & Hr & Hk & Hf). destruct (sample_reaches v f Hr Hk Hf) as (Hl & Hin & _ & _).
  pose proof (reached_inv _ _ _ 0 true _ _ no_objects v sample_booted (no_objects_sharable _) Hr) as Hi.
  pose proof (vi_ok _ _ _ _ _ _ Hi) as Hok. destruct Hf as (_ & _ & Hp & Hz).
  exists v. split; [done |]. split; [done |]. split.
  - apply cpu_loaded; [apply (vi_cpu _ _ _ _ _ _ Hi) | rewrite (g_cpus _ _ Hk); vm_compute; lia |].
    unfold this_space. rewrite (g_cpus _ _ Hk). vm_compute. reflexivity.
  - intros x Hx. assert (Hu : user_addr x) by (unfold user_addr, USER_BASE, DEVICE_WINDOW in *; lia).
    assert (Eq : x / 4096 = USER_BASE / 4096) by (unfold USER_BASE in *; zlia).
    unfold open_to_user, vload. rewrite (mmu_user _ v 0x8000 x Hok Hl Hu), Eq, Hp by (vm_compute; split; congruence).
    rewrite decide_True by done. cbn [fmap option_fmap option_map user writable phys].
    destruct (leaf_of_bits (f * 4096) WU) as (-> & _ & _ & -> & ->).
    rewrite FRAME_OF_id by (by eapply in_use_paged; [exact (entry v KSpace) | exact Hok |]).
    split; [done |]. split; [done |]. f_equal. apply Hz. unfold USER_BASE in *. zlia.
Qed.

Lemma user_range_ok_correct_witness :
  exists v, user_range_ok (Space 0x8000) (USER_BASE + 10) 4000 true v = true /\
    user_range_ok (Space 0x8000) (USER_BASE - 1) 2 false v = false.
Proof.
  destruct sample_process as (v & Hok & Hl & _ & H). exists v. split.
  - apply (user_range_ok_correct _ v 0x8000 (USER_BASE + 10) 4000 true Hok Hl).
    + vm_compute. split; congruence.
    + vm_compute. split; congruence.
    + right. split; [vm_compute; congruence |]. split; [vm_compute; congruence |]. intros x Hx. apply H. lia.
  - apply not_true_iff_false. rewrite (user_range_ok_correct _ v 0x8000 (USER_BASE - 1) 2 false Hok Hl).
    + intros [? | [? _]]; lia.
    + vm_compute. split; congruence.
    + vm_compute. split; congruence.
Defined.

Lemma copy_string_correct_witness :
  exists v, copy_string_from_user 0 (Space 0x8000) USER_BASE [7; 7; 7] 3 v = Ret (0, [0; 7; 7]).
Proof.
  destruct sample_process as (v & Hok & Hl & Hc & H). exists v.
  rewrite (copy_string_correct _ 0 v 0x8000 USER_BASE [7; 7; 7] 3 Hok Hl Hc).
  - change (Z.to_nat 3) with 3%nat. cbn [string_at]. rewrite (peek_open _ v 0x8000 USER_BASE Hok Hl) by (vm_compute; split; congruence).
    destruct (H USER_BASE) as (_ & -> & ->); [lia |]. reflexivity.
  - vm_compute. split; congruence.
  - vm_compute. split; congruence.
  - vm_compute. congruence.
Defined.

End UserMem.
