(* ===== verification/ProcMem.v ===== *)
(** The memory of a process from the kernel's side: the heap that [proc_sbrk] of
    [kernel/proc/proc.c] moves the end of. *)

From S2P Require Import Prelude Pmm Sched Paging PagingInv PagingSpec PagingMem UserView PagingBoot PagingRun UserMem.

Module ProcMem.

Import Sched (aspace, KSpace, Space).
Import Paging PagingInv PagingSpec PagingMem UserView.

#[local] Opaque zero_bytes load64 store64.

(** The figures of [struct process] about its memory. *)
Record pmem := Pmem { code_bytes : Z; data_bytes : Z; heap_start : Z; heap_break : Z }.

Definition with_break (b : Z) (p : pmem) : pmem := Pmem (code_bytes p) (data_bytes p) (heap_start p) b.

Fixpoint unmap_pages (n : nat) (s : aspace) (page stop : Z) (v : vm) : res vm :=
  match n with
  | O => Ret v
  | S n =>
      if page <? stop then
        match paging_unmap s page v with
        | Panic => Panic
        | Ret v => unmap_pages n s (u64 (page + PAGE_SIZE)) stop v
        end
      else Ret v
  end.

(** [(uint64_t)-1] *)
Definition FAILED : Z := u64 (-1).

Definition proc_sbrk (c : nat) (s : aspace) (increment : Z) (p : pmem) (v : vm) : res (Z * pmem * vm) :=
  let old := heap_break p in
  if increment =? 0 then Ret (old, p, v)
  else if increment >? 0 then
    let new_break := u64 (old + u64 increment) in
    if new_break >? USER_MMAP_BASE then Ret (FAILED, p, v)
    else
      let page := ALIGN_UP old PAGE_SIZE in
      let stop := ALIGN_UP new_break PAGE_SIZE in
      match map_pages (page_turns page stop) c s page stop v with
      | Panic => Panic
      | Ret (false, v) => Ret (FAILED, p, v)
      | Ret (true, v) => Ret (old, with_break new_break p, v)
      end
  else
    let shrink := u64 (- increment) in
    if shrink >? u64 (old - heap_start p) then Ret (FAILED, p, v)
    else
      let new_break := u64 (old - shrink) in
      let page := ALIGN_UP new_break PAGE_SIZE in
      let stop := ALIGN_UP old PAGE_SIZE in
      match unmap_pages (page_turns page stop) s page stop v with
      | Panic => Panic
      | Ret v => Ret (old, with_break new_break p, v)
      end.

(** ** Unmapping a run of pages *)

(** The pages of [a] from [q1] to [q2] are gone and nothing else changed. *)
Record pages_gone (o : Z -> Prop) (v v' : vm) (a q1 q2 : Z) : Prop := {
  u_touched : touched o v v' a;
  u_pages : forall q, 0 <= q < 2 ^ 36 ->
    page v' (Space a) q = if decide (q1 <= q < q2) then None else page v (Space a) q;
  u_bytes : forall x, user_addr x ->
    ubyte v' a x = if decide (q1 <= x / 4096 < q2) then None else ubyte v a x;
}.

Lemma stays_touched o v v' a :
  vm_ok o v -> vm_ok o v' -> stays v v' ->
  (forall b q, b <> a -> 0 <= q < 2 ^ 36 -> page v' (Space b) q = page v (Space b) q) -> touched o v v' a.
Proof.
  intros Hok Hok' Hs Hp. assert (Htab : forall g, is_table v' g -> is_table v g).
  { intros g (s & path & Hv & E). exists s, path. split; [done |]. by rewrite <- (s_tb _ _ Hs). }
  split; try done; try apply Hs.
  - intros b x Hb Hl Hx. pose proof (proj1 (user_addr_page x) Hx) as Hq. destruct (user_page_path _ Hq) as (Hr & _).
    rewrite !(ubyte_page o) by (done || by apply (s_live _ _ Hs)). rewrite Hp by done.
    destruct (page v (Space b) (x / 4096)) as [e |] eqn:E; [| done]. cbn. f_equal.
    destruct (page_frame o v b _ e Hok Hq E) as (g & Ef & Hu & Hn). apply (s_bytes _ _ Hs g); [done | done | rewrite Ef; zlia].
  - intros g x Hg Hn Hx. apply (s_bytes _ _ Hs g); [by apply (ok_other _ _ _ _ Hok) | done | done].
  - intros g Hg Hn Ht. by apply Hn, Htab.
Qed.

Lemma pages_gone_nil o v a q1 q2 : vm_ok o v -> q2 <= q1 -> pages_gone o v v a q1 q2.
Proof.
  intros Hok Hq. split; [by apply touched_refl | |]; intros; by rewrite decide_False by lia.
Qed.

Lemma gone_one o v v' a q :
  vm_ok o v -> vm_ok o v' -> live v a -> stays v v' -> gone v v' a q -> pages_gone o v v' a q (q + 1).
Proof.
  intros Hok Hok' Hl Hs Hg. assert (Hp : forall q', 0 <= q' < 2 ^ 36 ->
    page v' (Space a) q' = if decide (q <= q' < q + 1) then None else page v (Space a) q').
  { intros q' Hq'. rewrite Hg by done. destruct (decide (q' = q)) as [-> | Hne].
    - by rewrite !decide_True by (done || lia).
    - rewrite !decide_False; [done | lia |]. by intros [_ ?]. }
  split; [apply stays_touched; try done | done |].
  - intros b q' Hb Hq'. rewrite Hg by done. by rewrite decide_False by (intros [? _]; congruence).
  - intros x Hx. pose proof (proj1 (user_addr_page x) Hx) as Hq. destruct (user_page_path _ Hq) as (Hr & _).
    rewrite !(ubyte_page o) by (done || by apply (s_live _ _ Hs)). rewrite Hp by done.
    case_decide; [done |]. destruct (page v (Space a) (x / 4096)) as [e |] eqn:E; [| done]. cbn. f_equal.
    destruct (page_frame o v a _ e Hok Hq E) as (g & Ef & Hu & Hn). apply (s_bytes _ _ Hs g); [done | done | rewrite Ef; zlia].
Qed.

Lemma pages_gone_trans o v1 v2 v3 a q1 q2 q3 :
  q1 <= q2 <= q3 -> pages_gone o v1 v2 a q1 q2 -> pages_gone o v2 v3 a q2 q3 -> pages_gone o v1 v3 a q1 q3.
Proof.
  intros Hq [A1 A2 A3] [B1 B2 B3]. split; [by apply (touched_then o v1 v2) | |].
  - intros q Hq'. rewrite B2, A2 by done. repeat case_decide; done || lia.
  - intros x Hx. rewrite B3, A3 by done. repeat case_decide; done || lia.
Qed.

Lemma unmap_pages_spec o a q2 n : forall q v,
  vm_ok o v -> live v a -> 2 ^ 18 <= q <= q2 -> q2 <= 3 * 2 ^ 18 -> q2 - q <= Z.of_nat n ->
  (forall q' e, q <= q' < q2 -> page v (Space a) q' = Some e -> ~ o (FRAME_OF e / 4096)) ->
  exists v', unmap_pages n (Space a) (q * 4096) (q2 * 4096) v = Ret v' /\ pages_gone o v v' a q q2.
Proof.
  induction n as [| n IH]; intros q v Hok Hl Hq Hq2 Hn Hpriv; cbn [unmap_pages].
  { exists v. split; [done |]. apply pages_gone_nil; [done | lia]. }
  destruct (Z.ltb_spec (q * 4096) (q2 * 4096)) as [Hlt | Hge].
  2: { exists v. split; [done |]. apply pages_gone_nil; [done | lia]. }
  assert (Hu : user_addr (q * 4096)) by (apply user_addr_page; rewrite Z.div_mul by done; unfold user_page; lia).
  destruct (unmap_user o v a (q * 4096) Hok Hl Hu) as (v1 & -> & Hs & Hg & Hok1 & _).
  { rewrite Z.div_mul by done. intros e. apply Hpriv. lia. }
  rewrite Z.div_mul in Hg by done. pose proof (gone_one o v v1 a q Hok Hok1 Hl Hs Hg) as H1.
  assert (Ew : u64 (q * 4096 + PAGE_SIZE) = (q + 1) * 4096) by (rewrite u64_id; unfold PAGE_SIZE; lia). rewrite Ew.
  destruct (IH (q + 1) v1) as (v' & E & H2); [done | by apply (s_live _ _ Hs) | lia | lia | lia | |].
  { intros q' e Hq' E. rewrite Hg in E by lia. rewrite decide_False in E by (intros [_ ?]; lia). apply (Hpriv q'); [lia | done]. }
  exists v'. split; [done |]. apply (pages_gone_trans o v v1 v' a q (q + 1)); [lia | done | done].
Qed.

(** ** The heap *)

(** The first page boundary at or above [x]. *)
Definition up (x : Z) : Z := (x + 4095) / 4096.

(** A heap: from a page boundary of user space, below the window of shared
    memory; every page up to its end is there, and all of them are its own. *)
Record heap_ok (o : Z -> Prop) (v : vm) (a : Z) (p : pmem) : Prop := {
  h_start : USER_BASE <= heap_start p /\ heap_start p `mod` 4096 = 0;
  h_break : heap_start p <= heap_break p <= USER_MMAP_BASE;
  h_pages : forall q, heap_start p / 4096 <= q < up (heap_break p) -> page v (Space a) q <> None;
  h_own : forall q e, heap_start p / 4096 <= q < USER_MMAP_BASE / 4096 -> page v (Space a) q = Some e ->
    ~ o (FRAME_OF e / 4096);
}.

(** What a program may rely on when the end of its heap moved to [new]: nothing
    that stays is changed, what is added reads as zero unless it was there. *)
Definition heap_moved (v v' : vm) (a old new : Z) : Prop :=
  forall x, user_addr x -> ubyte v' a x =
    if decide (up new <= x / 4096 < up old) then None
    else match ubyte v a x with
         | Some y => Some y
         | None => if decide (up old <= x / 4096 < up new) then Some 0 else None
         end.

Lemma up_page x : 0 <= x < 2 ^ 63 -> ALIGN_UP x PAGE_SIZE = up x * 4096.
Proof. intros Hx. by rewrite ALIGN_UP_page by done. Qed.

Lemma page_turns_enough q1 q2 : q2 - q1 <= Z.of_nat (page_turns (q1 * 4096) (q2 * 4096)).
Proof. unfold page_turns, PAGE_SIZE. replace (q2 * 4096 - q1 * 4096) with ((q2 - q1) * 4096) by lia. rewrite Z.div_mul by done. lia. Qed.

(** Growing: the pages between the two ends are mapped. *)
Lemma heap_grown o c v a p new :
  vm_ok o v -> live v a -> loaded c a v -> heap_ok o v a p -> heap_break p <= new <= USER_MMAP_BASE ->
  exists b v', map_pages (page_turns (up (heap_break p) * 4096) (up new * 4096)) c (Space a)
      (up (heap_break p) * 4096) (up new * 4096) v = Ret (b, v') /\ touched o v v' a /\
    if b : bool then heap_ok o v' a (with_break new p) /\ heap_moved v v' a (heap_break p) new
    else heap_ok o v' a p /\ (exists f, low_left v' f) /\ forall x y, user_addr x -> ubyte v a x = Some y -> ubyte v' a x = Some y.
Proof.
  intros Hok Hl Hc [[H1 H2] H3 H4 H5] Hnew. unfold USER_BASE, USER_MMAP_BASE in *.
  destruct (map_pages_spec o c a (up new) (page_turns (up (heap_break p) * 4096) (up new * 4096)) (up (heap_break p)) v)
    as (b & v' & E & Hm & _ & Hb); [done | done | done | unfold up; zlia | unfold up; zlia | apply page_turns_enough |].
  exists b, v'. split; [done |]. pose proof (mapped_touched o v v' a _ _ Hok Hm) as Ht. split; [done |].
  assert (Hown : forall q e, heap_start p / 4096 <= q < 2147483648 / 4096 -> page v' (Space a) q = Some e -> ~ o (FRAME_OF e / 4096)).
  { intros q e Hq Ee. destruct (decide (up (heap_break p) <= q < up new)) as [Hin | Hout].
    - destruct (m_in _ _ _ _ _ _ Hm q Hin) as [Es | (_ & f & Ef & Hf & Hf' & _)]; [apply (H5 q e); congruence || done |].
      rewrite Ef in Ee. injection Ee as <-. rewrite (leaf_frame o v'), Z.div_mul by (done || apply (m_ok _ _ _ _ _ _ Hm)).
      intros Ho. by apply Hf, (ok_other _ _ _ _ Hok).
    - rewrite (m_out _ _ _ _ _ _ Hm) in Ee by zlia. by apply (H5 q e). }
  assert (Hkeep : forall q, heap_start p / 4096 <= q < up (heap_break p) -> page v' (Space a) q <> None).
  { intros q Hq. rewrite (m_out _ _ _ _ _ _ Hm); [by apply H4 | unfold up in *; zlia | lia]. }
  destruct b.
  - split.
    + split; unfold USER_BASE, USER_MMAP_BASE; cbn [heap_start heap_break with_break]; [done | lia | | done].
      intros q Hq. destruct (decide (q < up (heap_break p))); [apply Hkeep; lia | apply Hb; lia].
    + intros x Hx. rewrite decide_False by (unfold up; zlia). by apply (mapped_all o).
  - split; [by split | split; [done |]]. intros x y Hx Ey.
    pose proof (mapped_bytes o v v' a _ _ x Hok Hl Hm Hx) as Hx'. by rewrite Ey in Hx'.
Qed.

(** Shrinking: the pages between the two ends are unmapped. *)
Lemma heap_shrunk o v a p new :
  vm_ok o v -> live v a -> heap_ok o v a p -> heap_start p <= new <= heap_break p ->
  exists v', unmap_pages (page_turns (up new * 4096) (up (heap_break p) * 4096)) (Space a)
      (up new * 4096) (up (heap_break p) * 4096) v = Ret v' /\ touched o v v' a /\
    heap_ok o v' a (with_break new p) /\ heap_moved v v' a (heap_break p) new.
Proof.
  intros Hok Hl [[H1 H2] H3 H4 H5] Hnew. unfold USER_BASE, USER_MMAP_BASE in *.
  destruct (unmap_pages_spec o a (up (heap_break p)) (page_turns (up new * 4096) (up (heap_break p) * 4096)) (up new) v)
    as (v' & E & Hg); [done | done | unfold up; zlia | unfold up; zlia | apply page_turns_enough | |].
  { intros q e Hq. apply H5. unfold up in *. zlia. }
  exists v'. split; [done |]. pose proof (u_touched _ _ _ _ _ _ Hg) as Ht. split; [done |]. split.
  - split; unfold USER_BASE, USER_MMAP_BASE; cbn [heap_start heap_break with_break]; [done | lia | |].
    + intros q Hq. rewrite (u_pages _ _ _ _ _ _ Hg) by (unfold up in *; zlia).
      rewrite decide_False by lia. apply H4. unfold up in *. zlia.
    + intros q e Hq. rewrite (u_pages _ _ _ _ _ _ Hg) by zlia. case_decide; [done |]. by apply H5.
  - intros x Hx. rewrite (u_bytes _ _ _ _ _ _ Hg) by done. case_decide; [done |].
    destruct (ubyte v a x); [done |]. by rewrite decide_False by (unfold up in *; zlia).
Qed.

(** C18: proc_sbrk() moves the end of the heap by the increment and returns the old
    end, or reports failure and leaves the end where it is: when it would pass the
    shared memory window or the start of the heap, or when memory ran out.  Every
    byte that stays keeps its value, what is added reads as zero, what is cut off
    in whole pages is gone; no other process and nothing of the kernel changes,
    and the heap is as well formed as before. *)
Theorem proc_sbrk_correct o c v a p inc :
  vm_ok o v -> live v a -> loaded c a v -> heap_ok o v a p -> - 2 ^ 63 <= inc < 2 ^ 63 ->
  exists r p' v', proc_sbrk c (Space a) inc p v = Ret (r, p', v') /\ touched o v v' a /\ heap_ok o v' a p' /\
    ((r = heap_break p /\ p' = with_break (heap_break p + inc) p /\ heap_moved v v' a (heap_break p) (heap_break p + inc)) \/
     (r = FAILED /\ p' = p /\ (forall x y, user_addr x -> ubyte v a x = Some y -> ubyte v' a x = Some y) /\
      (USER_MMAP_BASE < heap_break p + inc \/ heap_break p + inc < heap_start p \/ 0 < inc /\ exists f, low_left v' f))).
Proof.
  intros Hok Hl Hc Hh Hinc. pose proof (h_start _ _ _ _ Hh) as [H1 H2]. pose proof (h_break _ _ _ _ Hh) as H3.
  unfold USER_BASE, USER_MMAP_BASE in *. unfold proc_sbrk. destruct (Z.eqb_spec inc 0) as [-> | Hne].
  { exists (heap_break p), p, v. split; [done |]. split; [by apply touched_refl |]. split; [done |]. left.
    rewrite Z.add_0_r. split; [done |]. split; [by destruct p |]. intros x Hx.
    rewrite !decide_False by lia. by destruct (ubyte v a x). }
  rewrite !Z.gtb_ltb. destruct (Z.ltb_spec 0 inc) as [Hpos | Hneg].
  - rewrite (u64_id inc), (u64_id (heap_break p + inc)) by lia. unfold USER_MMAP_BASE.
    destruct (Z.ltb_spec 2147483648 (heap_break p + inc)) as [Hbig | Hfit].
    { exists FAILED, p, v. split; [done |]. split; [by apply touched_refl |]. split; [done |]. right.
      split; [done |]. split; [done |]. split; [done |]. left. lia. }
    rewrite !up_page by lia.
    destruct (heap_grown o c v a p (heap_break p + inc)) as (b & v' & -> & Ht & Hb); try done.
    { unfold USER_MMAP_BASE. lia. }
    destruct b.
    + eexists _, _, v'. split; [done |]. split; [done |]. split; [apply Hb |]. left. by split_and!; try apply Hb.
    + eexists _, _, v'. split; [done |]. split; [done |]. split; [apply Hb |]. right. destruct Hb as (_ & Hf & Hx).
      split; [done |]. split; [done |]. split; [done |]. right. right. done.
  - rewrite (u64_id (- inc)), (u64_id (heap_break p - heap_start p)) by lia.
    destruct (Z.ltb_spec (heap_break p - heap_start p) (- inc)) as [Hbig | Hfit].
    { exists FAILED, p, v. split; [done |]. split; [by apply touched_refl |]. split; [done |]. right.
      split; [done |]. split; [done |]. split; [done |]. right. left. lia. }
    replace (heap_break p - - inc) with (heap_break p + inc) by lia. rewrite (u64_id (heap_break p + inc)) by lia.
    rewrite !up_page by lia.
    destruct (heap_shrunk o v a p (heap_break p + inc)) as (v' & -> & Ht & Hh' & Hm); try done; [lia |].
    eexists _, _, v'. split; [done |]. split; [done |]. split; [done |]. by left.
Qed.

(** On the run of [PagingRun]: a heap of ten bytes. *)
Definition sample_pmem : pmem := Pmem 0 0 USER_BASE (USER_BASE + 10).

Lemma sample_heap : exists v, vm_ok (taken (frames PagingRun.after_boot)) v /\ live v 0x8000 /\ loaded 0 0x8000 v /\
  heap_ok (taken (frames PagingRun.after_boot)) v 0x8000 sample_pmem.
Proof.
  destruct PagingRun.sample_page as (v & f & Hr & Hk & Hf).
  destruct (PagingRun.sample_reaches v f Hr Hk Hf) as (Hl & Hin & Hno & _).
  pose proof (PagingRun.reached_inv _ _ _ 0 true _ _ PagingRun.no_objects v PagingRun.sample_booted
    (PagingRun.no_objects_sharable _) Hr) as Hi.
  pose proof (PagingRun.vi_ok _ _ _ _ _ _ Hi) as Hok. destruct Hf as (_ & _ & Hp & _).
  exists v. split; [done |]. split; [done |]. split.
  { apply PagingRun.cpu_loaded; [apply (PagingRun.vi_cpu _ _ _ _ _ _ Hi) | rewrite (g_cpus _ _ Hk); vm_compute; lia |].
    unfold this_space. rewrite (g_cpus _ _ Hk). vm_compute. reflexivity. }
  split; cbn [heap_start heap_break sample_pmem].
  - vm_compute. split; [congruence | reflexivity].
  - vm_compute. split; congruence.
  - intros q Hq. assert (q = USER_BASE / 4096) as -> by (unfold up, USER_BASE in *; zlia).
    rewrite Hp by (vm_compute; split; congruence). by rewrite decide_True by done.
  - intros q e Hq. assert (Hq' : user_page q) by (unfold user_page, USER_BASE, USER_MMAP_BASE in *; zlia).
    destruct (user_page_path q Hq') as (Hr' & Hs & _). rewrite Hp by done.
    case_decide; [| by rewrite PagingRun.sample_no_pages by done]. intros [= <-].
    by rewrite (leaf_frame _ v f _ Hok Hin), Z.div_mul.
Qed.

Lemma proc_sbrk_correct_witness : exists v v',
  proc_sbrk 0 (Space 0x8000) (-10) sample_pmem v = Ret (USER_BASE + 10, Pmem 0 0 USER_BASE USER_BASE, v') /\
  ubyte v' 0x8000 USER_BASE = None.
Proof.
  destruct sample_heap as (v & Hok & Hl & Hc & Hh).
  destruct (proc_sbrk_correct _ 0 v 0x8000 sample_pmem (-10) Hok Hl Hc Hh) as (r & p' & v' & E & _ & _ & H); [lia |].
  exists v, v'. destruct H as [(-> & -> & Hm) | (_ & _ & _ & H)].
  - split; [exact E |]. rewrite Hm by (vm_compute; split; congruence). reflexivity.
  - exfalso. unfold USER_MMAP_BASE in H. cbn [heap_break heap_start sample_pmem] in H. unfold USER_BASE in H.
    destruct H as [? | [? | [? _]]]; lia.
Defined.

End ProcMem.
