(* ===== verification/Elf.v ===== *)
(** The program loader, [kernel/proc/elf.c], on the page tables of [Paging].

    The image is memory of the kernel at address [image]; every field of a header
    is read from there when the code reads it, through the tables processor [c]
    has loaded, which are those of the new process. *)

From S2P Require Import Prelude Pmm Sched Paging PagingInv PagingSpec PagingMem UserView ProcMem PagingBoot PagingRun.

Module Elf.

Import Sched (aspace, KSpace, Space).
Import Paging PagingInv PagingSpec PagingMem UserView ProcMem.

#[local] Opaque zero_bytes load64 store64.

Definition bind {A B} (e : res A) (k : A -> res B) : res B := match e with Ret x => k x | Panic => Panic end.
Notation "'let*' x ':=' e 'in' k" := (bind e (fun x => k)) (at level 200, x pattern, k at level 200).

(** ** [elf.h] *)

Definition EI_CLASS : Z := 4.
Definition EI_DATA : Z := 5.
Definition ELFCLASS64 : Z := 2.
Definition ELFDATA2LSB : Z := 1.
Definition ET_EXEC : Z := 2.
Definition EM_X86_64 : Z := 62.
Definition PT_LOAD : Z := 1.
Definition PF_X : Z := 1.
Definition SIZEOF_EHDR : Z := 64.
Definition SIZEOF_PHDR : Z := 56.

(** Where a field of a packed structure is, and how long. *)
Record member := Member { at_ : Z; bytes : nat }.

Definition e_ident (i : Z) : member := Member i 1.
Definition e_type : member := Member 16 2.
Definition e_machine : member := Member 18 2.
Definition e_entry : member := Member 24 8.
Definition e_phoff : member := Member 32 8.
Definition e_phentsize : member := Member 54 2.
Definition e_phnum : member := Member 56 2.

Definition p_type : member := Member 0 4.
Definition p_flags : member := Member 4 4.
Definition p_offset : member := Member 8 8.
Definition p_vaddr : member := Member 16 8.
Definition p_filesz : member := Member 32 8.
Definition p_memsz : member := Member 40 8.

(** A little-endian number at a kernel address; a fault is a panic. *)
Fixpoint load_le (n : nat) (m : mem) (cr3 a : Z) : option Z :=
  match n with
  | O => Some 0
  | S n => b ← vload m cr3 a; r ← load_le n m cr3 (u64 (a + 1)); Some (b + 256 * r)
  end.

Definition field (f : member) (c : nat) (p : Z) (v : vm) : res Z :=
  match load_le (bytes f) (memory v) (cr3 (cpus v !!! c)) (u64 (p + at_ f)) with Some x => Ret x | None => Panic end.

(** ** The code *)

Definition elf_validate (c : nat) (eh size : Z) (v : vm) : res Z :=
  if size <? SIZEOF_EHDR then Ret (- W_ENOEXEC) else
  let* i0 := field (e_ident 0) c eh v in
  if negb (i0 =? 0x7F) then Ret (- W_ENOEXEC) else
  let* i1 := field (e_ident 1) c eh v in
  if negb (i1 =? 69) then Ret (- W_ENOEXEC) else
  let* i2 := field (e_ident 2) c eh v in
  if negb (i2 =? 76) then Ret (- W_ENOEXEC) else
  let* i3 := field (e_ident 3) c eh v in
  if negb (i3 =? 70) then Ret (- W_ENOEXEC) else
  let* class := field (e_ident EI_CLASS) c eh v in
  if negb (class =? ELFCLASS64) then Ret (- W_ENOEXEC) else
  let* data := field (e_ident EI_DATA) c eh v in
  if negb (data =? ELFDATA2LSB) then Ret (- W_ENOEXEC) else
  let* type := field e_type c eh v in
  if negb (type =? ET_EXEC) then Ret (- W_ENOEXEC) else
  let* machine := field e_machine c eh v in
  if negb (machine =? EM_X86_64) then Ret (- W_ENOEXEC) else
  let* phoff := field e_phoff c eh v in
  if phoff =? 0 then Ret (- W_ENOEXEC) else
  let* phnum := field e_phnum c eh v in
  if phnum =? 0 then Ret (- W_ENOEXEC) else
  let* phentsize := field e_phentsize c eh v in
  if negb (phentsize =? SIZEOF_PHDR) then Ret (- W_ENOEXEC) else
  if u64 (phoff + u64 (phnum * phentsize)) >? size then Ret (- W_ENOEXEC) else
  Ret 0.

Definition add_bytes (x : bool) (n : Z) (p : pmem) : pmem :=
  if x then Pmem (u64 (code_bytes p + n)) (data_bytes p) (heap_start p) (heap_break p)
  else Pmem (code_bytes p) (u64 (data_bytes p + n)) (heap_start p) (heap_break p).

(** One turn of the loop: what to return (0 to go on), [highest], the process and
    the machine. *)
Definition load_segment (c : nat) (s : aspace) (image size ph highest : Z) (p : pmem) (v : vm)
    : res (Z * Z * pmem * vm) :=
  let* type := field p_type c ph v in
  if negb (type =? PT_LOAD) then Ret (0, highest, p, v) else
  let* memsz := field p_memsz c ph v in
  if memsz =? 0 then Ret (0, highest, p, v) else
  let* vaddr := field p_vaddr c ph v in
  let* memsz := field p_memsz c ph v in
  let* filesz := field p_filesz c ph v in
  if ((vaddr <? USER_BASE) || (u64 (vaddr + memsz) >? USER_STACK_TOP - USER_STACK_SIZE))%bool
  then Ret (- W_ENOEXEC, highest, p, v) else
  if filesz >? memsz then Ret (- W_ENOEXEC, highest, p, v) else
  let* offset := field p_offset c ph v in
  if u64 (offset + filesz) >? size then Ret (- W_ENOEXEC, highest, p, v) else
  let start := ALIGN_DOWN vaddr PAGE_SIZE in
  let stop := ALIGN_UP (u64 (vaddr + memsz)) PAGE_SIZE in
  let* (mapped, v) := map_pages (page_turns start stop) c s start stop v in
  if negb mapped then Ret (- W_ENOMEM, highest, p, v) else
  let here := cr3 (cpus v !!! c) in
  let* offset := field p_offset c ph v in
  let* m := vfill (Z.to_nat filesz) here vaddr (fun m i => vload m here (u64 (image + offset + i))) (memory v) in
  let v := with_memory m v in
  let* m := if memsz >? filesz
            then vfill (Z.to_nat (memsz - filesz)) here (u64 (vaddr + filesz)) (fun _ _ => Some 0) (memory v)
            else Ret (memory v) in
  let v := with_memory m v in
  let* flags := field p_flags c ph v in
  let p := add_bytes (has flags PF_X) (u64 (stop - start)) p in
  Ret (0, if u64 (vaddr + memsz) >? highest then u64 (vaddr + memsz) else highest, p, v).

(** [for (uint16_t i = 0; i < eh->e_phnum; i++)], [n] turns at most. *)
Fixpoint load_segments (n : nat) (c : nat) (s : aspace) (image size ph i highest : Z) (p : pmem) (v : vm)
    : res (Z * Z * pmem * vm) :=
  match n with
  | O => Ret (0, highest, p, v)
  | S n =>
      let* phnum := field e_phnum c image v in
      if i <? phnum then
        let* (r, highest, p, v) := load_segment c s image size (u64 (ph + i * SIZEOF_PHDR)) highest p v in
        if r <? 0 then Ret (r, highest, p, v)
        else load_segments n c s image size ph (i + 1) highest p v
      else Ret (0, highest, p, v)
  end.

(** The result, the entry point when there is one, the process and the machine. *)
Definition elf_load (c : nat) (s : aspace) (image size : Z) (p : pmem) (v : vm)
    : res (Z * option Z * pmem * vm) :=
  let* r := elf_validate c image size v in
  if r <? 0 then Ret (r, None, p, v) else
  let* phoff := field e_phoff c image v in
  let ph := u64 (image + phoff) in
  let* (r, highest, p, v) := load_segments (Z.to_nat 65536) c s image size ph 0 0 p v in
  if r <? 0 then Ret (r, None, p, v) else
  if highest =? 0 then Ret (- W_ENOEXEC, None, p, v) else
  let* entry := field e_entry c image v in
  if ((entry <? USER_BASE) || (entry >=? highest))%bool then Ret (- W_ENOEXEC, None, p, v) else
  let start := ALIGN_UP highest PAGE_SIZE in
  Ret (0, Some entry, Pmem (code_bytes p) (data_bytes p) start start, v).

(** ** What an image says *)

Fixpoint le (n : nat) (f : Z -> Z) (a : Z) : Z :=
  match n with O => 0 | S n => f a + 256 * le n f (a + 1) end.

(** Field [f] of the structure at offset [p] of the image. *)
Definition get (f : member) (img : Z -> Z) (p : Z) : Z := le (bytes f) img (p + at_ f).

Definition header_ok (img : Z -> Z) (size : Z) : bool :=
  ((SIZEOF_EHDR <=? size) &&
   (get (e_ident 0) img 0 =? 0x7F) && (get (e_ident 1) img 0 =? 69) &&
   (get (e_ident 2) img 0 =? 76) && (get (e_ident 3) img 0 =? 70) &&
   (get (e_ident EI_CLASS) img 0 =? ELFCLASS64) && (get (e_ident EI_DATA) img 0 =? ELFDATA2LSB) &&
   (get e_type img 0 =? ET_EXEC) && (get e_machine img 0 =? EM_X86_64) &&
   negb (get e_phoff img 0 =? 0) && negb (get e_phnum img 0 =? 0) && (get e_phentsize img 0 =? SIZEOF_PHDR) &&
   (get e_phoff img 0 + get e_phnum img 0 * get e_phentsize img 0 <=? size))%bool.

(** The program headers that are loaded, by their offsets. *)
Definition loadable (img : Z -> Z) (p : Z) : bool :=
  ((get p_type img p =? PT_LOAD) && negb (get p_memsz img p =? 0))%bool.

Definition segments_from (img : Z -> Z) (i : Z) : list Z :=
  filter (fun p => loadable img p = true)
    ((fun j => get e_phoff img 0 + j * SIZEOF_PHDR) <$> seqZ i (get e_phnum img 0 - i)).

(** A segment lies between the start of user space and the stack, and its bytes
    in the image. *)
Definition fits (img : Z -> Z) (size p : Z) : bool :=
  ((USER_BASE <=? get p_vaddr img p) &&
   (get p_vaddr img p + get p_memsz img p <=? USER_STACK_TOP - USER_STACK_SIZE) &&
   (get p_filesz img p <=? get p_memsz img p) && (get p_offset img p + get p_filesz img p <=? size))%bool.

(** What a segment makes of the byte at [x] that was [y] before: its bytes from
    the image, zeroes after them; the rest of its pages are zero unless another
    segment was there. *)
Definition seg_at (img : Z -> Z) (x : Z) (y : option Z) (p : Z) : option Z :=
  let vaddr := get p_vaddr img p in
  let stop := vaddr + get p_memsz img p in
  if decide (vaddr <= x < vaddr + get p_filesz img p) then Some (img (get p_offset img p + (x - vaddr)))
  else if decide (vaddr + get p_filesz img p <= x < stop) then Some 0
  else match y with
       | Some y => Some y
       | None => if decide (vaddr / 4096 <= x / 4096 < up stop) then Some 0 else None
       end.

Definition seg_top (img : Z -> Z) (h p : Z) : Z := Z.max h (get p_vaddr img p + get p_memsz img p).

(** The memory of a process that was just loaded, and where its heap starts. *)
Definition image_byte (img : Z -> Z) (x : Z) : option Z := foldl (seg_at img x) None (segments_from img 0).
Definition image_top (img : Z -> Z) : Z := foldl (seg_top img) 0 (segments_from img 0).

(** Frames that loading it may take: for every page of a segment the page and three
    tables. *)
Definition seg_cost (img : Z -> Z) (p : Z) : nat :=
  4 * page_turns (get p_vaddr img p / 4096 * 4096) (up (get p_vaddr img p + get p_memsz img p) * 4096).
Definition load_cost (img : Z -> Z) (l : list Z) : nat := foldr (fun p n => seg_cost img p + n)%nat O l.

(** No sum of the headers passes 2^64. *)
Record sums_fit (img : Z -> Z) : Prop := {
  sum_header : get e_phoff img 0 + get e_phnum img 0 * SIZEOF_PHDR < 2 ^ 64;
  sum_segment : forall p, p ∈ segments_from img 0 ->
    get p_vaddr img p + get p_memsz img p < 2 ^ 64 /\ get p_offset img p + get p_filesz img p < 2 ^ 64;
}.

(** The image [img] is in memory of the kernel at [image]. *)
Record image_at (o : Z -> Prop) (v : vm) (image size : Z) (img : Z -> Z) : Prop := {
  i_low : 4096 <= image /\ 0 <= size /\ image + size <= 0x30000000;
  i_byte : forall i, 0 <= i < size -> byte_at (memory v) (image + i) = img i /\ is_u8 (img i) /\
    o ((image + i) / 4096) /\ ~ is_table v ((image + i) / 4096);
}.

Lemma image_touched o v v' a image size img :
  touched o v v' a -> image_at o v image size img -> image_at o v' image size img.
Proof.
  intros Ht [H1 H2]. split; [done |]. intros i Hi. destruct (H2 i Hi) as (A1 & A2 & A3 & A4).
  split; [| split; [done | split; [done | by apply (t_ktab _ _ _ _ Ht)]]].
  rewrite (t_kern _ _ _ _ Ht ((image + i) / 4096)); [done | done | done | zlia].
Qed.

(** ** Reading fields *)

Lemma le_range n f : forall a,
  (forall i, a <= i < a + Z.of_nat n -> is_u8 (f i)) -> 0 <= le n f a < 256 ^ Z.of_nat n.
Proof.
  induction n as [| n IH]; intros a H; cbn [le]; [by cbn |].
  assert (H1 : 0 <= le n f (a + 1) < 256 ^ Z.of_nat n) by (apply IH; intros i Hi; apply H; lia).
  pose proof (H a ltac:(lia)) as H2. unfold is_u8 in H2.
  rewrite Nat2Z.inj_succ, Z.pow_succ_r by lia. lia.
Qed.

Section reading.
Context (o : Z -> Prop) (c : nat) (v : vm) (a image size : Z) (img : Z -> Z).
Context (Hload : loaded c a v) (Hlow : low_open v a) (Himg : image_at o v image size img).

Lemma vload_image i : 0 <= i < size -> vload (memory v) (root v (Space a)) (image + i) = Some (img i).
Proof.
  intros Hi. destruct (i_low _ _ _ _ _ Himg) as (H1 & H2 & H3). unfold vload. rewrite Hlow by lia. cbn.
  by destruct (i_byte _ _ _ _ _ Himg i Hi) as (-> & _).
Qed.

Lemma load_le_image n : forall i, 0 <= i -> i + Z.of_nat n <= size ->
  load_le n (memory v) (root v (Space a)) (u64 (image + i)) = Some (le n img i).
Proof.
  destruct (i_low _ _ _ _ _ Himg) as (H1 & H2 & H3).
  induction n as [| n IH]; intros i Hi Hn; cbn [load_le le]; [done |].
  rewrite (u64_id (image + i)) by lia. rewrite vload_image by lia. cbn [mbind option_bind].
  replace (image + i + 1) with (image + (i + 1)) by lia. by rewrite IH by lia.
Qed.

Lemma field_image f p :
  0 <= p -> 0 <= at_ f -> p + at_ f + Z.of_nat (bytes f) <= size -> field f c (image + p) v = Ret (get f img p).
Proof.
  intros Hp Hf Hs. unfold field, get. rewrite Hload. cbn [cr3].
  replace (image + p + at_ f) with (image + (p + at_ f)) by lia. by rewrite load_le_image by lia.
Qed.

Lemma get_range f p : 0 <= p -> 0 <= at_ f -> p + at_ f + Z.of_nat (bytes f) <= size ->
  0 <= get f img p < 256 ^ Z.of_nat (bytes f).
Proof. intros Hp Hf Hs. apply le_range. intros i Hi. apply (i_byte _ _ _ _ _ Himg). lia. Qed.

Lemma field_header f : 0 <= at_ f -> at_ f + Z.of_nat (bytes f) <= 64 -> 64 <= size ->
  field f c image v = Ret (get f img 0).
Proof. intros. rewrite <- (Z.add_0_r image). apply field_image; lia. Qed.

Lemma elf_validate_spec :
  get e_phoff img 0 + get e_phnum img 0 * SIZEOF_PHDR < 2 ^ 64 ->
  elf_validate c image size v = Ret (if header_ok img size then 0 else - W_ENOEXEC).
Proof.
  intros Hsum. unfold elf_validate, header_ok. rewrite Z.leb_antisym.
  destruct (Z.ltb_spec size SIZEOF_EHDR) as [Hs | Hs]; cbn [negb andb]; [done |]. unfold SIZEOF_EHDR in Hs.
  rewrite !field_header by (cbn; unfold EI_CLASS, EI_DATA; lia). cbn [bind].
  repeat match goal with
  | |- context [get ?f img 0 =? ?k] => destruct (Z.eqb_spec (get f img 0) k) as [? | ?]; cbn [negb andb]; [| done] || (cbn [negb andb]; [done |])
  end.
  destruct (Z.eqb_spec (get e_phoff img 0) 0) as [? | ?]; cbn [negb andb]; [done |].
  destruct (Z.eqb_spec (get e_phnum img 0) 0) as [? | ?]; cbn [negb andb]; [done |].
  destruct (Z.eqb_spec (get e_phentsize img 0) SIZEOF_PHDR) as [-> | ?]; cbn [negb andb]; [| done].
  assert (Ho : 0 <= get e_phoff img 0) by (apply get_range; cbn; lia).
  assert (Hn : 0 <= get e_phnum img 0) by (apply get_range; cbn; lia).
  assert (Hk : 0 <= get e_phnum img 0 * SIZEOF_PHDR) by (unfold SIZEOF_PHDR; lia).
  rewrite (u64_id (_ * _)), u64_id by lia. rewrite Z.gtb_ltb, Z.leb_antisym. by case_if.
Qed.

End reading.

(** ** One segment *)

(** What the kernel has to have seen to before: the process is new or being
    loaded, its tables are the ones in use, and the image is the kernel's. *)
Record ready (o : Z -> Prop) (c : nat) (v : vm) (a image size : Z) (img : Z -> Z) : Prop := {
  r_ok : vm_ok o v;
  r_live : live v a;
  r_loaded : loaded c a v;
  r_low : low_open v a;
  r_image : image_at o v image size img;
  r_own : own_pages o v a;
}.

Lemma ready_touched o c v v' a image size img :
  ready o c v a image size img -> touched o v v' a -> own_pages o v' a -> ready o c v' a image size img.
Proof.
  intros [R1 R2 R3 R4 R5 R6] Ht Hown. split.
  - apply (t_ok _ _ _ _ Ht).
  - by apply (t_live _ _ _ _ Ht).
  - by apply (touched_loaded o v v').
  - by apply (low_open_same o v v'); [| apply (t_ok _ _ _ _ Ht) | | apply (t_live _ _ _ _ Ht) | apply (t_kent _ _ _ _ Ht) |].
  - by apply (image_touched o v v' a).
  - done.
Qed.

(** Copying [n] bytes of the image at [off] to [vaddr]. *)
Lemma copy_image o c v a image size img off vaddr n :
  ready o c v a image size img -> 0 <= off -> 0 <= n -> off + n <= size ->
  (forall x, vaddr <= x < vaddr + n -> user_addr x /\ ubyte v a x <> None) ->
  exists m, vfill (Z.to_nat n) (root v (Space a)) vaddr (fun m i => vload m (root v (Space a)) (u64 (image + off + i))) (memory v) = Ret m /\
    touched o v (with_memory m v) a /\ own_pages o (with_memory m v) a /\
    forall x, user_addr x -> ubyte (with_memory m v) a x =
      if decide (vaddr <= x < vaddr + n) then Some (img (off + (x - vaddr))) else ubyte v a x.
Proof.
  intros [R1 R2 R3 R4 R5 R6] Ho Hn Hs Hr. destruct (i_low _ _ _ _ _ R5) as (I1 & I2 & I3).
  destruct (fill_own o v a vaddr (fun m i => vload m (root v (Space a)) (u64 (image + off + i))) (fun i => img (off + i)) (Z.to_nat n))
    as (m & E & Ht & HP & Hv); [done | done | done | intros x Hx; apply Hr; lia | |].
  - intros m i Hi [F1 FT F2 F3]. rewrite u64_id by lia. replace (image + off + i) with (image + (off + i)) by lia.
    apply (vload_image o (with_memory m v) a image size img); [| | lia].
    + apply (low_open_same o v); try done. intros path j. apply F2.
    + split; [done |]. intros k Hk. destruct (i_byte _ _ _ _ _ R5 k Hk) as (B1 & B2 & B3 & B4).
      split; [cbn [memory with_memory]; rewrite (F3 ((image + k) / 4096)); [done | done | done | zlia] |].
      split; [done |]. split; [done |]. intros (s & path & Hv & Et). apply B4. exists s, path. by rewrite <- FT.
  - exists m. split; [done |]. split; [done |]. split.
    + intros q e Hq. rewrite HP. by apply R6.
    + intros x Hx. rewrite Hv by done. by rewrite Z2Nat.id by done.
Qed.

(** Clearing [n] bytes at [vaddr]. *)
Lemma clear_bytes o c v a image size img vaddr n :
  ready o c v a image size img -> 0 <= n ->
  (forall x, vaddr <= x < vaddr + n -> user_addr x /\ ubyte v a x <> None) ->
  exists m, vfill (Z.to_nat n) (root v (Space a)) vaddr (fun _ _ => Some 0) (memory v) = Ret m /\
    touched o v (with_memory m v) a /\ own_pages o (with_memory m v) a /\
    forall x, user_addr x -> ubyte (with_memory m v) a x =
      if decide (vaddr <= x < vaddr + n) then Some 0 else ubyte v a x.
Proof.
  intros [R1 R2 R3 R4 R5 R6] Hn Hr.
  destruct (fill_own o v a vaddr (fun _ _ => Some 0) (fun _ => 0) (Z.to_nat n))
    as (m & E & Ht & HP & Hv); [done | done | done | intros x Hx; apply Hr; lia | done |].
  exists m. split; [done |]. split; [done |]. split.
  - intros q e Hq. rewrite HP. by apply R6.
  - intros x Hx. rewrite Hv by done. by rewrite Z2Nat.id by done.
Qed.

(** The stores of a segment whose pages are there. *)
Lemma segment_stored o c v a image size img off vaddr filesz memsz :
  ready o c v a image size img -> 0 <= off -> off + filesz <= size -> 0 <= filesz <= memsz ->
  (forall x, vaddr <= x < vaddr + memsz -> user_addr x /\ ubyte v a x <> None) ->
  0 <= vaddr -> vaddr + filesz < 2 ^ 64 ->
  exists m1 m2,
    vfill (Z.to_nat filesz) (root v (Space a)) vaddr (fun m i => vload m (root v (Space a)) (u64 (image + off + i))) (memory v) = Ret m1 /\
    (if memsz >? filesz then vfill (Z.to_nat (memsz - filesz)) (root v (Space a)) (u64 (vaddr + filesz)) (fun _ _ => Some 0) m1
     else Ret m1) = Ret m2 /\
    touched o v (with_memory m2 v) a /\ own_pages o (with_memory m2 v) a /\
    forall x, user_addr x -> ubyte (with_memory m2 v) a x =
      if decide (vaddr <= x < vaddr + filesz) then Some (img (off + (x - vaddr)))
      else if decide (vaddr + filesz <= x < vaddr + memsz) then Some 0 else ubyte v a x.
Proof.
  intros Hready Ho Hs Hf Hr Hva Hsum.
  destruct (copy_image o c v a image size img off vaddr filesz) as (m1 & E1 & T1 & O1 & V1); try done; [lia | |].
  { intros x Hx. apply Hr. lia. }
  exists m1. rewrite Z.gtb_ltb. destruct (Z.ltb_spec filesz memsz).
  - pose proof (ready_touched o c v _ a image size img Hready T1 O1) as Hr1.
    destruct (clear_bytes o c (with_memory m1 v) a image size img (vaddr + filesz) (memsz - filesz))
      as (m2 & E2 & T2 & O2 & V2); [done | lia | |].
    { intros x Hx. destruct (Hr x) as [Hu Hn]; [lia |]. split; [done |]. rewrite V1 by done. by case_decide. }
    exists m2. rewrite u64_id by lia. split; [done |]. split; [exact E2 |]. split; [by apply (touched_then o v (with_memory m1 v)) |].
    split; [done |]. intros x Hx. rewrite V2, V1 by done. repeat case_decide; done || lia.
  - exists m1. split; [done |]. split; [done |]. split; [done |]. split; [done |].
    intros x Hx. rewrite V1 by done. repeat case_decide; done || lia.
Qed.

Lemma bind_ret {A B} (x : A) (k : A -> res B) : bind (Ret x) k = k x.
Proof. done. Qed.

Lemma load_segment_spec o c v a image size img p h pm :
  ready o c v a image size img -> 0 <= p -> p + 56 <= size ->
  (loadable img p = true ->
   get p_vaddr img p + get p_memsz img p < 2 ^ 64 /\ get p_offset img p + get p_filesz img p < 2 ^ 64) ->
  exists r h' pm' v', load_segment c (Space a) image size (image + p) h pm v = Ret (r, h', pm', v') /\
    touched o v v' a /\ own_pages o v' a /\
    spends (if loadable img p then seg_cost img p else 0) (frames v) (frames v') /\
    ((r = 0 /\
      if loadable img p
      then fits img size p = true /\ h' = seg_top img h p /\
           forall x, user_addr x -> ubyte v' a x = seg_at img x (ubyte v a x) p
      else h' = h /\ v' = v) \/
     (r = - W_ENOEXEC /\ loadable img p = true /\ fits img size p = false) \/
     (r = - W_ENOMEM /\ exists f, low_left v' f)).
Proof.
  intros Hready Hp Hs Hsum. pose proof Hready as [R1 R2 R3 R4 R5 R6]. pose proof (ok_pmm _ _ _ _ R1) as Hpmm.
  assert (Hf : forall f v', ready o c v' a image size img -> 0 <= at_ f -> at_ f + Z.of_nat (bytes f) <= 56 ->
    field f c (image + p) v' = Ret (get f img p)).
  { intros f v' [? ? ? ? ? ?] ? ?. apply (field_image o c v' a image size); done || lia. }
  assert (Hg : forall f, 0 <= at_ f -> at_ f + Z.of_nat (bytes f) <= 56 -> 0 <= get f img p < 256 ^ Z.of_nat (bytes f)).
  { intros f ? ?. apply (get_range o v image size); done || lia. }
  unfold load_segment. unfold loadable in *. rewrite !Hf by (done || cbn; lia). rewrite !bind_ret.
  destruct (Z.eqb_spec (get p_type img p) PT_LOAD) as [_ | ?]; cbn [negb andb] in *.
  2: { exists 0, h, pm, v. split; [done |]. split; [by apply touched_refl |]. split; [done |]. split; [by apply spends_refl |]. by left. }
  destruct (Z.eqb_spec (get p_memsz img p) 0) as [? | Hne]; cbn [negb] in *.
  { exists 0, h, pm, v. split; [done |]. split; [by apply touched_refl |]. split; [done |]. split; [by apply spends_refl |]. by left. }
  destruct (Hsum eq_refl) as [Hs1 Hs2]. clear Hsum.
  pose proof (Hg p_vaddr ltac:(cbn; lia) ltac:(cbn; lia)) as Gv. pose proof (Hg p_memsz ltac:(cbn; lia) ltac:(cbn; lia)) as Gm.
  pose proof (Hg p_filesz ltac:(cbn; lia) ltac:(cbn; lia)) as Gf. pose proof (Hg p_offset ltac:(cbn; lia) ltac:(cbn; lia)) as Go.
  unfold fits, seg_at, seg_top, seg_cost. clear Hg.
  set (vaddr := get p_vaddr img p) in *. set (memsz := get p_memsz img p) in *.
  set (filesz := get p_filesz img p) in *. set (off := get p_offset img p) in *.
  rewrite (u64_id (vaddr + memsz)), (u64_id (off + filesz)) by lia. rewrite !Z.gtb_ltb, !Z.leb_antisym.
  assert (Hbad : forall b, b = false -> exists r h' pm' v', Ret (- W_ENOEXEC, h, pm, v) = Ret (r, h', pm', v') /\
    touched o v v' a /\ own_pages o v' a /\
    spends (4 * page_turns (vaddr / 4096 * 4096) (up (vaddr + memsz) * 4096)) (frames v) (frames v') /\ ((r = 0 /\ b = true /\ h' = h `max` (vaddr + memsz) /\
      forall x, user_addr x -> ubyte v' a x = seg_at img x (ubyte v a x) p) \/
      r = - W_ENOEXEC /\ true = true /\ b = false \/ r = - W_ENOMEM /\ exists f, low_left v' f)).
  { intros b ->. exists (- W_ENOEXEC), h, pm, v. split; [done |]. split; [by apply touched_refl |]. split; [done |].
    split; [by apply spends_refl |]. right. by left. }
  destruct (Z.ltb_spec vaddr USER_BASE) as [? | Hlo]; cbn [orb negb andb]; [by apply Hbad |].
  destruct (Z.ltb_spec (USER_STACK_TOP - USER_STACK_SIZE) (vaddr + memsz)) as [? | Hhi]; cbn [orb negb andb]; [by apply Hbad |].
  destruct (Z.ltb_spec memsz filesz) as [? | Hfm]; cbn [negb andb]; [by apply Hbad |].
  destruct (Z.ltb_spec size (off + filesz)) as [? | Hfs]; cbn [negb andb]; [by apply Hbad |]. clear Hbad.
  unfold USER_BASE, USER_STACK_TOP, USER_STACK_SIZE in *. rewrite ALIGN_DOWN_page, up_page by lia.
  destruct (map_pages_spec o c a (up (vaddr + memsz)) (page_turns (vaddr / 4096 * 4096) (up (vaddr + memsz) * 4096)) (vaddr / 4096) v)
    as (b & v1 & -> & Hm & Hsp & Hb); [done | done | done | zlia | unfold up; zlia | apply page_turns_enough |].
  rewrite bind_ret. pose proof (mapped_touched o v v1 a _ _ R1 Hm) as T1. pose proof (mapped_own o v v1 a _ _ R1 Hm R6) as O1.
  destruct b; cbn [negb].
  2: { exists (- W_ENOMEM), h, pm, v1. split; [done |]. split; [done |]. split; [done |]. split; [done |]. right. by right. }
  pose proof (ready_touched o c v v1 a image size img Hready T1 O1) as Hr1.
  assert (V1 := fun x => mapped_all o v v1 a _ _ x R1 R2 Hm Hb).
  rewrite Hf by (done || cbn; lia). rewrite bind_ret. fold off. rewrite (r_loaded _ _ _ _ _ _ _ Hr1). cbn [cr3].
  destruct (segment_stored o c v1 a image size img off vaddr filesz memsz) as (m1 & m2 & E1 & E2 & T2 & O2 & V2);
    [done | lia | lia | lia | | lia | lia |].
  { intros x Hx. assert (Hu : user_addr x) by (unfold user_addr, USER_BASE, DEVICE_WINDOW; lia). split; [done |].
    rewrite V1 by done. rewrite decide_True by (unfold up; zlia). by destruct (ubyte v a x). }
  rewrite E1, bind_ret. cbn [memory with_memory]. rewrite Z.gtb_ltb in E2. rewrite E2, bind_ret.
  change (with_memory m2 (with_memory m1 v1)) with (with_memory m2 v1).
  rewrite (Hf p_flags) by ((by apply (ready_touched o c v1)) || cbn; lia). rewrite bind_ret.
  eexists 0, _, _, (with_memory m2 v1). split; [done |]. split; [by apply (touched_then o v v1) |]. split; [done |].
  split; [done |]. left.
  split; [done |]. split; [done |]. split; [destruct (Z.ltb_spec h (vaddr + memsz)); lia |].
  intros x Hx. rewrite V2, V1 by done. done.
Qed.

(** ** All of them *)

Lemma segments_nil img i : get e_phnum img 0 <= i -> segments_from img i = [].
Proof. intros H. unfold segments_from. by rewrite seqZ_nil by lia. Qed.

Lemma segments_cons img i : i < get e_phnum img 0 ->
  let p := get e_phoff img 0 + i * SIZEOF_PHDR in
  segments_from img i = if loadable img p then p :: segments_from img (i + 1) else segments_from img (i + 1).
Proof.
  intros H p. unfold segments_from at 1. rewrite seqZ_cons by lia. rewrite fmap_cons, filter_cons. fold p.
  replace (Z.pred (get e_phnum img 0 - i)) with (get e_phnum img 0 - (i + 1)) by lia. rewrite <- Z.add_1_r.
  destruct (loadable img p) eqn:E; [by rewrite decide_True by done | by rewrite decide_False by done].
Qed.

Lemma segments_elem img i : 0 <= i < get e_phnum img 0 -> loadable img (get e_phoff img 0 + i * SIZEOF_PHDR) = true ->
  get e_phoff img 0 + i * SIZEOF_PHDR ∈ segments_from img 0.
Proof.
  intros Hi Hl. unfold segments_from. apply list_elem_of_filter. split; [done |]. apply list_elem_of_fmap.
  exists i. split; [done |]. apply elem_of_seqZ. lia.
Qed.

Lemma header_table img size : header_ok img size = true ->
  64 <= size /\ get e_phentsize img 0 = SIZEOF_PHDR /\ get e_phoff img 0 + get e_phnum img 0 * SIZEOF_PHDR <= size.
Proof.
  unfold header_ok, SIZEOF_EHDR. intros H. bool_to_prop.
  repeat match goal with H : (_ && _)%bool = true |- _ => apply andb_prop in H as [? ?] end. bool_to_prop.
  assert (He : get e_phentsize img 0 = SIZEOF_PHDR) by done. rewrite He in *. done.
Qed.

Lemma load_segments_spec o c a image size img n : forall i v h pm,
  ready o c v a image size img -> header_ok img size = true -> sums_fit img ->
  0 <= i -> get e_phnum img 0 - i <= Z.of_nat n ->
  exists r h' pm' v', load_segments n c (Space a) image size (u64 (image + get e_phoff img 0)) i h pm v = Ret (r, h', pm', v') /\
    touched o v v' a /\ own_pages o v' a /\ spends (load_cost img (segments_from img i)) (frames v) (frames v') /\
    ((r = 0 /\ Forall (fun p => fits img size p = true) (segments_from img i) /\
      h' = foldl (seg_top img) h (segments_from img i) /\
      forall x, user_addr x -> ubyte v' a x = foldl (seg_at img x) (ubyte v a x) (segments_from img i)) \/
     (r = - W_ENOEXEC /\ ~ Forall (fun p => fits img size p = true) (segments_from img i)) \/
     (r = - W_ENOMEM /\ exists f, low_left v' f)).
Proof.
  intros i v h pm Hready Hh Hsum. destruct (header_table img size Hh) as (Hs & _ & Htab). revert i v h pm Hready.
  induction n as [| n IH]; intros i v h pm Hready Hi Hn; cbn [load_segments];
    pose proof Hready as [R1 R2 R3 R4 R5 R6]; destruct (i_low _ _ _ _ _ R5) as (I1 & I2 & I3).
  { exists 0, h, pm, v. split; [done |]. split; [by apply touched_refl |]. split; [done |].
    rewrite segments_nil by lia. split; [by apply spends_refl, (ok_pmm _ _ _ _ R1) | by left]. }
  rewrite (field_header o c v a image size img) by (done || cbn; lia). rewrite bind_ret.
  assert (Go : 0 <= get e_phoff img 0) by (apply (get_range o v image size); done || (cbn; lia)).
  destruct (Z.ltb_spec i (get e_phnum img 0)) as [Hlt | Hge].
  2: { exists 0, h, pm, v. split; [done |]. split; [by apply touched_refl |]. split; [done |].
       rewrite segments_nil by lia. split; [by apply spends_refl, (ok_pmm _ _ _ _ R1) | by left]. }
  rewrite segments_cons by done. cbv zeta. set (p := get e_phoff img 0 + i * SIZEOF_PHDR).
  assert (Hp : 0 <= p /\ p + 56 <= size) by (unfold p, SIZEOF_PHDR in *; nia). destruct Hp as [Hp Hp'].
  assert (Eph : u64 (u64 (image + get e_phoff img 0) + i * SIZEOF_PHDR) = image + p).
  { rewrite (u64_id (image + _)) by (unfold SIZEOF_PHDR in *; lia). rewrite u64_id; unfold p in *; lia. }
  rewrite Eph.
  destruct (load_segment_spec o c v a image size img p h pm) as (r & h1 & pm1 & v1 & -> & T1 & O1 & S1 & H1); try done.
  { intros Hl. apply (sum_segment _ Hsum). by apply segments_elem. }
  rewrite bind_ret. pose proof (ready_touched o c v v1 a image size img Hready T1 O1) as Hr1.
  destruct H1 as [[-> H1] | [(-> & Hl & Hf) | (-> & Hl)]].
  - cbn [Z.ltb Z.compare]. destruct (IH (i + 1) v1 h1 pm1) as (r & h' & pm' & v' & -> & T2 & O2 & S2 & H2); [done | lia | lia |].
    exists r, h', pm', v'. split; [done |]. split; [by apply (touched_then o v v1) |]. split; [done |].
    pose proof (spends_trans _ _ _ _ _ S1 S2) as S12.
    destruct (loadable img p); (split; [exact S12 |]).
    + destruct H1 as (Hf & -> & V1). rewrite Forall_cons. destruct H2 as [(-> & F2 & -> & V2) | [[-> F2] | ?]].
      * left. split; [done |]. split; [done |]. split; [done |]. intros x Hx. rewrite V2 by done. cbn [foldl]. by rewrite V1.
      * right; left. split; [done |]. by intros [_ ?].
      * by right; right.
    + destruct H1 as [-> ->]. done.
  - exists (- W_ENOEXEC), h1, pm1, v1. split; [done |]. split; [done |]. split; [done |]. rewrite Hl in S1 |- *.
    split; [apply (spends_mono (seg_cost img p)); [cbn; lia | done] |]. right; left. split; [done |].
    rewrite Forall_cons. intros [? _]. congruence.
  - exists (- W_ENOMEM), h1, pm1, v1. split; [done |]. split; [done |]. split; [done |].
    split; [| right; by right]. destruct (loadable img p); [apply (spends_mono (seg_cost img p)); [cbn; lia | done] |].
    apply (spends_mono 0); [lia | done].
Qed.

Lemma fits_range img size p :
  fits img size p = true -> USER_BASE <= get p_vaddr img p /\
    get p_vaddr img p + get p_memsz img p <= USER_STACK_TOP - USER_STACK_SIZE.
Proof. unfold fits. intros H. apply andb_prop in H as [H _]. apply andb_prop in H as [H _]. apply andb_prop in H as [? ?]. by bool_to_prop. Qed.

(** The end of the segments is above 0 when there are any. *)
Lemma top_range img size l : forall h,
  Forall (fun p => fits img size p = true /\ 0 <= get p_memsz img p) l -> 0 <= h <= USER_STACK_TOP - USER_STACK_SIZE ->
  h <= foldl (seg_top img) h l <= USER_STACK_TOP - USER_STACK_SIZE /\ (l <> [] -> 0 < foldl (seg_top img) h l).
Proof.
  induction l as [| p l IH]; intros h Hl Hh; cbn [foldl]; [by split; [lia |] |].
  apply Forall_cons in Hl as [[Hp Hm] Hl]. destruct (fits_range _ _ _ Hp) as [H1 H2]. unfold USER_BASE in H1.
  destruct (IH (seg_top img h p) Hl) as [H3 _]; [unfold seg_top; lia |]. unfold seg_top in H3. split; [unfold seg_top; lia |].
  intros _. unfold seg_top. lia.
Qed.

(** C15: elf_load() loads an image into a new process or says why not, and touches
    nothing but that process's memory, for every file none of whose header sums
    (program header offset plus table size, offset plus file size, address plus
    memory size) passes 2^64: that is the hypothesis [sums_fit].  It succeeds
    exactly with a well formed header, segments inside the image and the user
    area, and an entry point below their end, unless memory runs out; then every
    byte of user space is the byte the segments say, zero on the rest of their
    pages, and not there elsewhere, the heap starts empty on the first page behind
    the image, and sbrk can be used.  A file whose sums wrap passes the checks of
    the code and is outside the claim: [segment_wraps] below shows the kernel
    panic on one. *)
Theorem elf_load_correct o c v a image size img pm :
  ready o c v a image size img -> (forall q, user_page q -> page v (Space a) q = None) -> sums_fit img ->
  exists r e pm' v', elf_load c (Space a) image size pm v = Ret (r, e, pm', v') /\ touched o v v' a /\
    let good := header_ok img size = true /\ Forall (fun p => fits img size p = true) (segments_from img 0) /\
      segments_from img 0 <> [] /\ USER_BASE <= get e_entry img 0 < image_top img in
    ((r = 0 /\ good /\ e = Some (get e_entry img 0) /\
      (forall x, user_addr x -> ubyte v' a x = image_byte img x) /\
      heap_start pm' = up (image_top img) * 4096 /\ heap_break pm' = heap_start pm' /\
      (image_top img <= USER_MMAP_BASE -> heap_ok o v' a pm')) \/
     (r = - W_ENOEXEC /\ e = None /\ ~ good) \/
     (r = - W_ENOMEM /\ e = None /\ spends (load_cost img (segments_from img 0)) (frames v) (frames v') /\
      exists f, low_left v' f)).
Proof.
  intros Hready Hnew Hsum. pose proof Hready as [R1 R2 R3 R4 R5 R6]. unfold elf_load.
  rewrite (elf_validate_spec o c v a image size img) by (done || apply Hsum). rewrite bind_ret.
  destruct (header_ok img size) eqn:Hh; cbn [Z.ltb Z.compare].
  2: { exists (- W_ENOEXEC), None, pm, v. split; [done |]. split; [by apply touched_refl |].
       right; left. split; [done |]. split; [done |]. by intros [? _]. }
  destruct (header_table img size Hh) as (Hs & _ & Htab).
  rewrite (field_header o c v a image size img) by (done || cbn; lia). rewrite bind_ret.
  assert (Gn : 0 <= get e_phnum img 0 < 256 ^ Z.of_nat (bytes e_phnum))
    by (apply (get_range o v image size); done || (cbn; lia)). change (256 ^ Z.of_nat (bytes e_phnum)) with 65536 in Gn.
  destruct (load_segments_spec o c a image size img (Z.to_nat 65536) 0 v 0 pm) as (r & h & pm1 & v1 & -> & T1 & O1 & Hsp & H);
    [done | done | done | lia | lia |].
  rewrite bind_ret. destruct H as [(-> & Hf & Htop & HV) | [[-> Hf] | [-> Hm]]].
  2: { exists (- W_ENOEXEC), None, pm1, v1. split; [done |]. split; [done |]. right; left. split; [done |]. split; [done |].
       by intros (_ & ? & _). }
  2: { exists (- W_ENOMEM), None, pm1, v1. split; [done |]. split; [done |]. right; right. done. }
  cbn [Z.ltb Z.compare]. fold (image_top img) in Htop. subst h.
  assert (Hfm : Forall (fun p => fits img size p = true /\ 0 <= get p_memsz img p) (segments_from img 0)).
  { apply Forall_forall. intros p Hp. split; [by apply (proj1 (Forall_forall _ _) Hf) |].
    unfold segments_from in Hp. apply list_elem_of_filter in Hp as [_ Hp]. apply list_elem_of_fmap in Hp as (j & -> & Hj).
    apply elem_of_seqZ in Hj. assert (0 <= get e_phoff img 0) by (apply (get_range o v image size); done || (cbn; lia)).
    unfold SIZEOF_PHDR in *. apply (get_range o v image size img R5 p_memsz); cbn [at_ bytes p_memsz]; lia. }
  destruct (top_range img size (segments_from img 0) 0 Hfm) as [Ht1 Ht2]; [done |].
  change (foldl (seg_top img) 0 (segments_from img 0)) with (image_top img) in *.
  destruct (Z.eqb_spec (image_top img) 0) as [Hz | Hz].
  { exists (- W_ENOEXEC), None, pm1, v1. split; [done |]. split; [done |]. right; left. split; [done |]. split; [done |].
    intros (_ & _ & Hne & _). apply Ht2 in Hne. lia. }
  pose proof (ready_touched o c v v1 a image size img Hready T1 O1) as [Q1 Q2 Q3 Q4 Q5 Q6].
  rewrite (field_header o c v1 a image size img) by (done || cbn; lia). rewrite bind_ret, Z.geb_leb.
  destruct (Z.ltb_spec (get e_entry img 0) USER_BASE); cbn [orb].
  { exists (- W_ENOEXEC), None, pm1, v1. split; [done |]. split; [done |]. right; left. split; [done |]. split; [done |].
    intros (_ & _ & _ & ?). lia. }
  destruct (Z.leb_spec (image_top img) (get e_entry img 0)).
  { exists (- W_ENOEXEC), None, pm1, v1. split; [done |]. split; [done |]. right; left. split; [done |]. split; [done |].
    intros (_ & _ & _ & ?). lia. }
  eexists 0, _, _, v1. split; [done |]. split; [done |]. left. split; [done |].
  assert (Hne : segments_from img 0 <> []) by (intros E; apply Hz; unfold image_top; by rewrite E).
  split; [by split_and! |]. split; [done |].
  unfold USER_STACK_TOP, USER_STACK_SIZE, USER_BASE in *. cbn [heap_start heap_break]. rewrite up_page by lia.
  split; [| split; [done | split; [done |]]].
  - intros x Hx. rewrite HV by done. unfold image_byte. f_equal. rewrite (ubyte_page o) by done.
    by rewrite Hnew by (by apply user_addr_page).
  - intros Hmm. unfold USER_MMAP_BASE in *. split; cbn [heap_start heap_break]; unfold USER_BASE, USER_MMAP_BASE in *.
    + split; [unfold up; zlia | by rewrite Z_mod_mult].
    + unfold up; zlia.
    + intros q Hq. unfold up in *. zlia.
    + intros q e Hq. apply O1. unfold user_page, up in *. zlia.
Qed.

(** ** On the run of [PagingRun]: a program of four bytes and four more of zeroes *)

Fixpoint put_bytes (a : Z) (l : list Z) (m : mem) : mem :=
  match l with [] => m | b :: l => put_bytes (a + 1) l (<[a := b]> m) end.

Lemma byte_at_put l : forall a m x,
  byte_at (put_bytes a l m) x = if decide (a <= x < a + Zlen l) then default 0 (l !! Z.to_nat (x - a)) else byte_at m x.
Proof.
  induction l as [| b l IH]; intros a m x; cbn [put_bytes]; [by rewrite decide_False by (unfold Zlen; cbn; lia) |].
  rewrite IH. unfold Zlen. cbn [length]. destruct (decide (a = x)) as [-> | Hne].
  - rewrite decide_False, decide_True by lia. rewrite Z.sub_diag. unfold byte_at. by rewrite lookup_insert_eq.
  - unfold byte_at. rewrite (lookup_insert_ne m a x b) by done. repeat case_decide; try lia; try done.
    by replace (Z.to_nat (x - a)) with (S (Z.to_nat (x - (a + 1)))) by lia.
Qed.

(** A process that is ready but for the image, and the image put into frames of
    the kernel. *)
Lemma put_image o c v a image l :
  vm_ok o v -> live v a -> loaded c a v -> low_open v a -> (forall q, user_page q -> page v (Space a) q = None) ->
  4096 <= image -> image + Zlen l <= 0x30000000 -> Forall is_u8 l ->
  (forall i, 0 <= i < Zlen l -> o ((image + i) / 4096) /\ ~ is_table v ((image + i) / 4096)) ->
  let v' := with_memory (put_bytes image l (memory v)) v in
  ready o c v' a image (Zlen l) (fun i => default 0 (l !! Z.to_nat i)) /\
  forall q, user_page q -> page v' (Space a) q = None.
Proof.
  intros Hok Hl Hc Hlow Hnone H1 H2 Hb Ho v'.
  destruct (ok_bytes (roots v) o (memory v) (put_bytes image l (memory v)) (frames v)) as (Hok' & HT & HE & HP); [| done |].
  { intros s path t x Hv Et Hx. rewrite byte_at_put. case_decide as Hd; [| done].
    exfalso. destruct (Ho (x - image)) as [_ Hn]; [lia |]. apply Hn. exists s, path. split; [done |]. rewrite Et. f_equal.
    destruct (ok_frame _ _ _ _ Hok s path t Hv Et) as ([Hm _] & _). zlia. }
  assert (Hnone' : forall q, user_page q -> page v' (Space a) q = None).
  { intros q Hq. unfold v'. cbn [memory with_memory]. change (roots (with_memory (put_bytes image l (memory v)) v)) with (roots v).
    rewrite HP. by apply Hnone. }
  split; [| done]. split; try done.
  - apply (low_open_same o v); try done. intros path i. apply HE.
  - split; [unfold Zlen in *; lia |]. intros i Hi. destruct (Ho i Hi) as [Hoi Hni]. split; [| split; [| split; [done |]]].
    + unfold v'. cbn [memory with_memory]. rewrite byte_at_put, decide_True by lia. do 3 f_equal. lia.
    + destruct (l !! Z.to_nat i) as [b |] eqn:E; [by apply (Forall_lookup_1 _ _ _ _ Hb E) | cbn; unfold is_u8; lia].
    + intros (s & path & Hv & Et). apply Hni. exists s, path. by rewrite <- HT.
  - intros q e Hq Ee. by rewrite Hnone' in Ee.
Qed.

Definition sample_file : list Z :=
  [0x7F; 69; 76; 70; 2; 1; 1; 0; 0; 0; 0; 0; 0; 0; 0; 0;  2; 0;  62; 0;  1; 0; 0; 0;
   0; 1; 0; 0x40; 0; 0; 0; 0;  64; 0; 0; 0; 0; 0; 0; 0;  0; 0; 0; 0; 0; 0; 0; 0;  0; 0; 0; 0;
   64; 0;  56; 0;  1; 0;  0; 0;  0; 0;  0; 0;
   1; 0; 0; 0;  5; 0; 0; 0;  120; 0; 0; 0; 0; 0; 0; 0;  0; 1; 0; 0x40; 0; 0; 0; 0;  0; 1; 0; 0x40; 0; 0; 0; 0;
   4; 0; 0; 0; 0; 0; 0; 0;  8; 0; 0; 0; 0; 0; 0; 0;  0; 16; 0; 0; 0; 0; 0; 0;
   0xB8; 1; 2; 3].
Definition sample_img (i : Z) : Z := default 0 (sample_file !! Z.to_nat i).
Definition sample_ready : vm :=
  with_memory (put_bytes 0x20000 sample_file (memory PagingRun.with_loaded)) PagingRun.with_loaded.

Import PagingRun.

Lemma sample_no_table : ~ is_table with_loaded 32.
Proof.
  apply (boot_frame_no_table 0x1000 0x2000 0x3000 0 true sample_vm after_boot no_objects); [apply sample_booted | apply no_objects_sharable | apply sample_loaded | |].
  - split; [vm_compute; split; reflexivity | vm_compute; reflexivity].
  - rewrite !not_elem_of_cons. split_and!; [done.. | apply not_elem_of_nil].
Qed.

Lemma sample_is_ready :
  ready (in_use after_boot) 0 sample_ready 0x8000 0x20000 124 sample_img /\
  forall q, user_page q -> page sample_ready (Space 0x8000) q = None.
Proof.
  pose proof (reached_inv _ _ _ 0 true _ _ no_objects _ sample_booted (no_objects_sharable _) sample_loaded) as Hi.
  apply (put_image (in_use after_boot) 0 with_loaded 0x8000 0x20000 sample_file).
  - apply (vi_ok _ _ _ _ _ _ Hi).
  - exact sample_space_live.
  - destruct (cpu_loaded with_loaded 0 0x8000 (vi_cpu _ _ _ _ _ _ Hi)) as [_ H]; [vm_compute; lia | vm_compute; reflexivity | exact H].
  - intros x Hx. rewrite (low_identity 0x1000 0x2000 0x3000 0 true sample_vm after_boot no_objects with_loaded (Space 0x8000) x
      sample_booted (no_objects_sharable _) sample_loaded sample_space_live);
      [| lia | unfold PagingBoot.in_window, Pmm.FBCON_APERTURE; by rewrite (proj2 (Z.leb_gt 0x30000000 x)) by lia].
    by rewrite (proj2 (Z.ltb_ge x 4096)) by lia.
  - intros q Hq. apply sample_no_pages. by apply user_page_path in Hq as (_ & ? & _).
  - lia.
  - change (Zlen sample_file) with 124. lia.
  - repeat constructor; unfold is_u8; lia.
  - change (Zlen sample_file) with 124. intros i Hi'. replace ((0x20000 + i) / 4096) with 32 by zlia.
    split; [| exact sample_no_table]. split; [vm_compute; split; reflexivity | vm_compute; reflexivity].
Qed.

Lemma sample_segments : segments_from sample_img 0 = [64].
Proof. vm_compute. reflexivity. Qed.

Lemma sample_sums : sums_fit sample_img.
Proof.
  split; [vm_compute; reflexivity |]. rewrite sample_segments. intros p ->%list_elem_of_singleton. split; vm_compute; reflexivity.
Qed.

Lemma sample_free g : 100 <= g < 120 ->
  0 <= g < Pmm.low_limit (frames sample_ready) /\ Pmm.used (frames sample_ready) g = false.
Proof.
  intros Hg. split; [assert (Hlim : Pmm.low_limit (frames sample_ready) = 1088) by (vm_compute; reflexivity); lia |].
  assert (Hall : forallb (fun g => negb (Pmm.used (frames sample_ready) g)) (seqZ 100 20) = true) by (vm_compute; reflexivity).
  rewrite forallb_forall in Hall. apply negb_true_iff, Hall, list_elem_of_In, elem_of_seqZ. lia.
Qed.

Lemma elf_load_correct_witness : exists pm' v',
  elf_load 0 (Space 0x8000) 0x20000 124 (Pmem 0 0 0 0) sample_ready = Ret (0, Some 0x40000100, pm', v') /\
  ubyte v' 0x8000 0x40000102 = Some 2 /\ ubyte v' 0x8000 0x40000107 = Some 0 /\ ubyte v' 0x8000 0x40001000 = None /\
  heap_start pm' = 0x40001000.
Proof.
  destruct sample_is_ready as [Hr Hn].
  destruct (elf_load_correct (in_use after_boot) 0 sample_ready 0x8000 0x20000 124 sample_img (Pmem 0 0 0 0) Hr Hn)
    as (r & e & pm' & v' & E & _ & H).
  { exact sample_sums. }
  assert (Hgood : header_ok sample_img 124 = true /\ Forall (fun p => fits sample_img 124 p = true) (segments_from sample_img 0) /\
    segments_from sample_img 0 <> [] /\ USER_BASE <= get e_entry sample_img 0 < image_top sample_img).
  { rewrite sample_segments. split; [vm_compute; reflexivity |].
    split; [constructor; [vm_compute; reflexivity | constructor] |]. split; [done |]. vm_compute. split; congruence. }
  exists pm', v'. destruct H as [(-> & _ & -> & HV & Hh & _) | [(-> & _ & Hb) | (_ & _ & Hsp & f & Hl)]].
  - assert (Hu : forall x, 0x40000000 <= x < 0x40002000 -> user_addr x) by (unfold user_addr, USER_BASE, DEVICE_WINDOW; lia).
    split; [exact E |]. rewrite (HV 0x40000102), (HV 0x40000107), (HV 0x40001000), Hh by (apply Hu; lia).
    split; [vm_compute; reflexivity |]. split; [vm_compute; reflexivity |]. split; vm_compute; reflexivity.
  - destruct (Hb Hgood).
  - exfalso. pose proof (spends_left _ sample_ready v' f (seqZ 100 20) Hsp Hl (NoDup_seqZ _ _)) as H.
    assert (Hc : load_cost sample_img (segments_from sample_img 0) = 8%nat) by (vm_compute; reflexivity).
    rewrite Hc, length_seqZ in H. assert (20 <= 9)%nat; [| lia]. apply H. intros g [? ?]%elem_of_seqZ. exact (sample_free g ltac:(lia)).
Defined.

(** ** A sum that wraps

    [vaddr + memsz] is not checked for overflow: a segment at the top of the
    address space that ends behind 2^64 passes the check against the stack, no
    page is mapped for it because it ends before it starts, and the copy stores
    to an address that has none.  Any program file can do it. *)

Definition wrapping_file : list Z :=
  take 80 sample_file ++ [0; 0xF0; 0xFF; 0xFF; 0xFF; 0xFF; 0xFF; 0xFF] ++ drop 88 (take 104 sample_file) ++
  [0; 0x20; 0; 0; 0; 0; 0; 0] ++ drop 112 sample_file.

(** Tables with the kernel's gigabyte as one page. *)
Definition one_page_vm : vm :=
  Vm (put_bytes 0x20000 wrapping_file (store64 (store64 ∅ 0x1000 0x2007) 0x2000 0x83)) sample_pmm
     (Addrspace 0x1000 0 2) {[ 0x8000 := Addrspace 0x1000 0 2 ]} [Cpu (Some (Space 0x8000)) 0x1000] DEVICE_WINDOW 0 true.

Example segment_wraps : elf_load 0 (Space 0x8000) 0x20000 124 (Pmem 0 0 0 0) one_page_vm = Panic.
Proof. vm_compute. reflexivity. Qed.

End Elf.
