(* ===== verification/ShmMap.v ===== *)
(** Mapping shared memory, the second half of [kernel/mm/shm.c]: the table of
    regions a process has mapped, where the next one goes, and the page tables
    under them.

    An [shm_t *] is an address in [objs], the objects there are; a mapping whose
    [shm] is NULL is a free slot of the table. *)

From S2P Require Import Prelude Pmm Shm Sched Paging PagingInv PagingSpec PagingMem UserView ProcMem PagingBoot PagingRun.

Module ShmMap.

Import Sched (aspace, KSpace, Space).
Import Paging PagingInv PagingSpec PagingMem UserView.

#[local] Opaque zero_bytes load64 store64.

Definition SHM_MAX_MAPPINGS : nat := 32.

(** [shm_mapping_t] *)
Record mapping := Mapping { shm : option Z; base : Z; pages : Z }.

Notation objects := (gmap Z Shm.shm).

(** ** Where the next region goes *)

Definition end_of (m : mapping) : Z := u64 (base m + pages m * PAGE_SIZE).

(** The [for] of [find_region]: the base it leaves, and whether it moved. *)
Fixpoint sweep (l : list mapping) (want b : Z) (moved : bool) : Z * bool :=
  match l with
  | [] => (b, moved)
  | m :: l =>
      if bool_decide (shm m = None) then sweep l want b moved
      else if ((b <? end_of m) && (base m <? u64 (b + want)))%bool then sweep l want (end_of m) true
      else sweep l want b moved
  end.

(** The [do ... while (moved)], [n] turns at most. *)
Fixpoint find_loop (n : nat) (maps : list mapping) (want b : Z) : Z :=
  match n with
  | O => b
  | S n => let '(b, moved) := sweep maps want b false in if moved then find_loop n maps want b else b
  end.

Definition find_region (maps : list mapping) (count : Z) : Z :=
  let want := count * PAGE_SIZE in
  let b := find_loop (S SHM_MAX_MAPPINGS) maps want USER_MMAP_BASE in
  if ((u64 (b + want) >? USER_MMAP_TOP) || (u64 (b + want) <? b))%bool then 0 else b.

(** ** Mapping and unmapping *)

(** The loop of [shm_map] from page [i]; [Some i] when page [i] could not be
    mapped. *)
Fixpoint map_frames (l : list Z) (s : aspace) (b i : Z) (v : vm) : res (option Z * vm) :=
  match l with
  | [] => Ret (None, v)
  | f :: l =>
      match paging_map s (u64 (b + i * PAGE_SIZE)) f (Z.lor PTE_WRITE PTE_USER) v with
      | Panic => Panic
      | Ret (true, v) => map_frames l s b (i + 1) v
      | Ret (false, v) => Ret (Some i, v)
      end
  end.

(** [for (j = 0; j < n; j++) paging_unmap_keep(p->space, base + j * PAGE_SIZE)],
    from the turn with [n] to go. *)
Fixpoint unmap_frames (n : nat) (s : aspace) (b j : Z) (v : vm) : res vm :=
  match n with
  | O => Ret v
  | S n =>
      match paging_unmap_keep s (u64 (b + j * PAGE_SIZE)) v with
      | Panic => Panic
      | Ret v => unmap_frames n s b (j + 1) v
      end
  end.

(** The result, the address, the table, the objects and the machine; using an
    object that is not there is a panic. *)
Definition shm_map (s : aspace) (obj : option Z) (maps : list mapping) (objs : objects) (v : vm)
    : res (Z * option Z * list mapping * objects * vm) :=
  match obj with
  | None => Ret (- W_EINVAL, None, maps, objs, v)
  | Some p =>
      match list_find (fun m => shm m = None) maps with
      | None => Ret (- W_EMFILE, None, maps, objs, v)
      | Some (slot, _) =>
          match objs !! p with
          | None => Panic
          | Some o =>
              let b := find_region maps (Shm.pages o) in
              if b =? 0 then Ret (- W_ENOMEM, None, maps, objs, v)
              else
                match map_frames (take (Z.to_nat (Shm.pages o)) (Shm.frame o)) s b 0 v with
                | Panic => Panic
                | Ret (Some i, v) =>
                    match unmap_frames (Z.to_nat i) s b 0 v with
                    | Panic => Panic
                    | Ret v => Ret (- W_ENOMEM, None, maps, objs, v)
                    end
                | Ret (None, v) =>
                    Ret (0, Some b, <[slot := Mapping (Some p) b (Shm.pages o)]> maps, <[p := Shm.shm_ref o]> objs, v)
                end
          end
      end
  end.

(** [shm_unref] on the object at [p]. *)
Definition unref (p : Z) (objs : objects) (v : vm) : res (objects * vm) :=
  match objs !! p with
  | None => Panic
  | Some o =>
      match Shm.shm_unref o (frames v) with
      | Panic => Panic
      | Ret (Some o, f) => Ret (<[p := o]> objs, with_frames f v)
      | Ret (None, f) => Ret (delete p objs, with_frames f v)
      end
  end.

Definition shm_unmap (s : aspace) (addr : Z) (maps : list mapping) (objs : objects) (v : vm)
    : res (Z * list mapping * objects * vm) :=
  match list_find (fun m => shm m <> None /\ base m = addr) maps with
  | None => Ret (- W_EINVAL, maps, objs, v)
  | Some (i, m) =>
      match unmap_frames (Z.to_nat (pages m)) s (base m) 0 v with
      | Panic => Panic
      | Ret v =>
          match shm m with
          | None => Panic
          | Some p =>
              match unref p objs v with
              | Panic => Panic
              | Ret (objs, v) => Ret (0, <[i := Mapping None (base m) (pages m)]> maps, objs, v)
              end
          end
      end
  end.

(** The loop of [shm_unmap_all] from slot [i], [n] slots from the end. *)
Fixpoint unmap_from (n i : nat) (s : aspace) (maps : list mapping) (objs : objects) (v : vm)
    : res (list mapping * objects * vm) :=
  match n with
  | O => Ret (maps, objs, v)
  | S n =>
      match maps !! i with
      | Some (Mapping (Some _) b _) =>
          match shm_unmap s b maps objs v with
          | Panic => Panic
          | Ret (_, maps, objs, v) => unmap_from n (S i) s maps objs v
          end
      | _ => unmap_from n (S i) s maps objs v
      end
  end.

Definition shm_unmap_all (s : aspace) (maps : list mapping) (objs : objects) (v : vm)
    : res (list mapping * objects * vm) :=
  unmap_from SHM_MAX_MAPPINGS 0 s maps objs v.

(** ** The region found *)

(** A mapping in the window. *)
Definition in_window (m : mapping) : Prop :=
  USER_MMAP_BASE <= base m /\ 0 < pages m /\ base m + pages m * PAGE_SIZE <= USER_MMAP_TOP.
Definition windows (l : list mapping) : Prop := Forall (fun m => shm m <> None -> in_window m) l.

(** The [want] bytes from [b] are clear of every mapping. *)
Definition clear_at (l : list mapping) (want b : Z) : Prop :=
  Forall (fun m => shm m <> None -> b + want <= base m \/ base m + pages m * PAGE_SIZE <= b) l.

Lemma end_of_spec m : in_window m -> end_of m = base m + pages m * PAGE_SIZE.
Proof. unfold in_window, end_of, USER_MMAP_BASE, USER_MMAP_TOP, PAGE_SIZE. intros. apply u64_id. lia. Qed.

(** Mappings that end above [b]: what a turn of the loop still has to step over. *)
Definition above (l : list mapping) (b : Z) : nat :=
  length (filter (fun m => shm m <> None /\ b < base m + pages m * PAGE_SIZE) l).

Lemma above_le l b b' : b <= b' -> (above l b' <= above l b)%nat.
Proof.
  intros Hb. unfold above. induction l as [| m l IH]; [done |]. rewrite !filter_cons.
  repeat case_decide; cbn [length]; [lia | | lia | lia]. exfalso. naive_solver lia.
Qed.

Lemma above_lt l b b' m : m ∈ l -> shm m <> None -> b < base m + pages m * PAGE_SIZE <= b' -> (above l b' < above l b)%nat.
Proof.
  intros Hm Hs Hb. induction l as [| x l IH]; [by apply not_elem_of_nil in Hm |].
  unfold above in *. rewrite !filter_cons. apply elem_of_cons in Hm as [-> | Hm].
  - rewrite decide_False by (intros [_ ?]; lia). rewrite decide_True by (split; [done | lia]). cbn [length].
    pose proof (above_le l b b' ltac:(lia)) as H. unfold above in H. lia.
  - specialize (IH Hm). repeat case_decide; cbn [length]; [lia | | lia | lia]. exfalso. naive_solver lia.
Qed.

Lemma sweep_spec want : 0 < want < 2 ^ 44 -> forall l b moved,
  windows l -> USER_MMAP_BASE <= b <= USER_MMAP_TOP ->
  let '(b', moved') := sweep l want b moved in
  b <= b' <= USER_MMAP_TOP /\ (forall c, b <= c -> clear_at l want c -> b' <= c) /\
  (moved' = false -> moved = false /\ b' = b /\ clear_at l want b) /\
  (moved' = true -> moved = true \/ exists m, m ∈ l /\ shm m <> None /\ b < base m + pages m * PAGE_SIZE <= b').
Proof.
  intros Hw. induction l as [| m l IH]; intros b moved Hl Hb; cbn [sweep].
  { split; [lia |]. split; [done |]. split; [| by left]. intros ->. split; [done |]. split; [done | constructor]. }
  apply Forall_cons in Hl as [Hm Hl]. case_bool_decide as Hs.
  - specialize (IH b moved Hl Hb). destruct (sweep l want b moved) as [b' moved']. destruct IH as (I1 & I2 & I3 & I4).
    split; [done |]. split; [| split].
    + intros c Hc [_ Hcl]%Forall_cons. by apply I2.
    + intros E. destruct (I3 E) as (? & ? & ?). split; [done |]. split; [done |]. by constructor.
    + intros E. destruct (I4 E) as [? | (x & Hx & ?)]; [by left | right]. exists x. split; [by right | done].
  - specialize (Hm Hs). rewrite (end_of_spec m Hm). pose proof Hm as (W1 & W2 & W3).
    rewrite (u64_id (b + want)) by (unfold USER_MMAP_BASE, USER_MMAP_TOP in *; lia).
    destruct (Z.ltb_spec b (base m + pages m * PAGE_SIZE)) as [H1 | H1], (Z.ltb_spec (base m) (b + want)) as [H2 | H2]; cbn [andb].
    1: { specialize (IH (base m + pages m * PAGE_SIZE) true Hl ltac:(lia)).
         destruct (sweep l want _ true) as [b' moved']. destruct IH as (I1 & I2 & I3 & I4). split; [lia |]. split; [| split].
         - intros c Hc [Hcm Hcl]%Forall_cons. apply I2; [| done]. destruct (Hcm Hs); lia.
         - intros E. by destruct (I3 E).
         - intros _. right. exists m. split; [by left |]. split; [done | lia]. }
    all: specialize (IH b moved Hl Hb); destruct (sweep l want b moved) as [b' moved']; destruct IH as (I1 & I2 & I3 & I4);
      (split; [done |]); (split; [| split]);
      [ intros c Hc [_ Hcl]%Forall_cons; by apply I2
      | intros E; destruct (I3 E) as (? & ? & ?); split; [done |]; split; [done |]; constructor; [intros _; lia | done]
      | intros E; destruct (I4 E) as [? | (x & Hx & ?)]; [by left | right]; exists x; split; [by right | done] ].
Qed.

Lemma find_loop_spec want maps : 0 < want < 2 ^ 44 -> windows maps -> forall n b,
  USER_MMAP_BASE <= b <= USER_MMAP_TOP -> (above maps b < n)%nat ->
  let r := find_loop n maps want b in
  b <= r <= USER_MMAP_TOP /\ clear_at maps want r /\ forall c, b <= c -> clear_at maps want c -> r <= c.
Proof.
  intros Hw Hm. induction n as [| n IH]; intros b Hb Hn; [lia |]. cbn [find_loop].
  pose proof (sweep_spec want Hw maps b false Hm Hb) as H. destruct (sweep maps want b false) as [b' moved].
  destruct H as (H1 & H2 & H3 & H4). destruct moved; cbv zeta.
  - destruct (H4 eq_refl) as [? | (m & Hin & Hs & Hr)]; [done |].
    pose proof (above_lt maps b b' m Hin Hs Hr) as Hlt. destruct (IH b') as (I1 & I2 & I3); [lia | lia |].
    split; [lia |]. split; [done |]. intros c Hc Hcl. apply I3; [| done]. by apply H2.
  - destruct (H3 eq_refl) as (_ & -> & Hcl). split; [lia |]. split; [done |]. intros c Hc _. lia.
Qed.

Lemma find_region_cases maps count :
  windows maps -> length maps = SHM_MAX_MAPPINGS -> 0 < count < 2 ^ 32 ->
  let fits b := USER_MMAP_BASE <= b /\ b + count * PAGE_SIZE <= USER_MMAP_TOP /\ clear_at maps (count * PAGE_SIZE) b in
  let r := find_region maps count in
  (r = 0 /\ forall b, ~ fits b) \/ (fits r /\ forall b, fits b -> r <= b).
Proof.
  intros Hm Hlen Hc fits r. unfold r, find_region.
  assert (Hw : 0 < count * PAGE_SIZE < 2 ^ 44) by (unfold PAGE_SIZE; lia).
  destruct (find_loop_spec (count * PAGE_SIZE) maps Hw Hm (S SHM_MAX_MAPPINGS) USER_MMAP_BASE) as (H1 & H2 & H3).
  { unfold USER_MMAP_BASE, USER_MMAP_TOP. lia. }
  { unfold above. pose proof (length_filter (fun m => shm m <> None /\ USER_MMAP_BASE < base m + pages m * PAGE_SIZE) maps) as H. lia. }
  set (b := find_loop _ _ _ _) in *. rewrite u64_id by (unfold USER_MMAP_BASE, USER_MMAP_TOP in *; lia).
  rewrite Z.gtb_ltb. rewrite (proj2 (Z.ltb_ge (b + count * PAGE_SIZE) b)) by lia. rewrite orb_false_r.
  destruct (Z.ltb_spec USER_MMAP_TOP (b + count * PAGE_SIZE)).
  - left. split; [done |]. intros c (F1 & F2 & F3). pose proof (H3 c F1 F3). lia.
  - right. split; [split; [lia | done] |]. intros c (F1 & F2 & F3). by apply H3.
Qed.

(** find_region() returns the lowest address of the window from which the
    pages asked for are clear of every mapping, and 0 exactly when there is none;
    the loop that steps over mappings ends within one turn per mapping and one
    more. *)
Theorem find_region_lowest maps count :
  windows maps -> length maps = SHM_MAX_MAPPINGS -> 0 < count < 2 ^ 32 ->
  let fits b := USER_MMAP_BASE <= b /\ b + count * PAGE_SIZE <= USER_MMAP_TOP /\ clear_at maps (count * PAGE_SIZE) b in
  let r := find_region maps count in
  (r = 0 /\ forall b, ~ fits b) \/ (fits r /\ forall b, fits b -> r <= b).
Proof. exact (find_region_cases maps count). Qed.

Lemma find_region_lowest_witness :
  find_region (Mapping (Some 1) USER_MMAP_BASE 2 :: Mapping None USER_MMAP_BASE 7 ::
    Mapping (Some 1) (USER_MMAP_BASE + 3 * PAGE_SIZE) 1 :: replicate 29 (Mapping None 0 0)) 2 = USER_MMAP_BASE + 4 * PAGE_SIZE /\
  clear_at (Mapping (Some 1) USER_MMAP_BASE 2 :: Mapping None USER_MMAP_BASE 7 ::
    Mapping (Some 1) (USER_MMAP_BASE + 3 * PAGE_SIZE) 1 :: replicate 29 (Mapping None 0 0)) (2 * PAGE_SIZE) (USER_MMAP_BASE + 4 * PAGE_SIZE).
Proof.
  split; [vm_compute; reflexivity |].
  destruct (find_region_lowest (Mapping (Some 1) USER_MMAP_BASE 2 :: Mapping None USER_MMAP_BASE 7 ::
    Mapping (Some 1) (USER_MMAP_BASE + 3 * PAGE_SIZE) 1 :: replicate 29 (Mapping None 0 0)) 2) as [[H _] | [(_ & _ & H) _]].
  - unfold windows, in_window. repeat constructor; cbn; try done; intros; unfold USER_MMAP_BASE, USER_MMAP_TOP, PAGE_SIZE; lia.
  - reflexivity.
  - lia.
  - vm_compute in H. discriminate.
  - exact H.
Defined.

(** ** Runs of pages over frames of an object *)

(** Frames of [o] that are no tables, by address. *)
Definition lent (o : Z -> Prop) (v : vm) (l : list Z) : Prop :=
  Forall (fun f => exists g, f = g * 4096 /\ o g /\ ~ is_table v g) l.

Lemma lent_keeps o v v' l : vm_ok o v -> keeps v v' -> lent o v l -> lent o v' l.
Proof.
  intros Hok Hk Hl. eapply Forall_impl; [exact Hl |]. cbv beta. intros f (g & -> & Hg & Hn). exists g. split; [done |]. split; [done |].
  intros [? | Hf]%(g_new _ _ Hk); [done |]. by apply Hf, (ok_other _ _ _ _ Hok).
Qed.

Definition WU : Z := Z.lor PTE_WRITE PTE_USER.

(** Pages [q] onwards of [a] show the frames of [l]. *)
Definition shows (v v' : vm) (a q : Z) (l : list Z) : Prop :=
  forall s x, 0 <= x < 2 ^ 36 -> page v' s x =
    if decide (s = Space a /\ q <= x < q + Zlen l) then (fun f => leaf_of f WU) <$> l !! Z.to_nat (x - q) else page v s x.

Lemma shows_nil v v' a q : shows v v' a q [] <-> forall s x, 0 <= x < 2 ^ 36 -> page v' s x = page v s x.
Proof.
  unfold shows, Zlen. cbn [length]. split; intros H s x Hx; rewrite H by done;
    by rewrite decide_False by (intros [_ ?]; lia).
Qed.

Lemma shows_cons v v1 v' a q f l :
  (forall s x, 0 <= x < 2 ^ 36 -> page v1 s x = if decide (s = Space a /\ x = q) then Some (leaf_of f WU) else page v s x) ->
  shows v1 v' a (q + 1) l -> shows v v' a q (f :: l).
Proof.
  intros H1 H2 s x Hx. rewrite H2, H1 by done. unfold Zlen. cbn [length].
  destruct (decide (s = Space a)) as [-> | Hs].
  2: { rewrite !decide_False; [done | intros [? _]; done..]. }
  destruct (decide (x = q)) as [-> | Hne].
  - rewrite decide_False by (intros [_ ?]; lia). rewrite !decide_True by (split; [done | lia] || done).
    by rewrite Z.sub_diag.
  - rewrite (decide_False (P := Space a = Space a /\ x = q)) by (intros [_ ?]; done).
    destruct (decide (Space a = Space a /\ q + 1 <= x < q + 1 + Z.of_nat (length l))) as [[_ Hr] | Hr].
    + rewrite decide_True by (split; [done | lia]).
      replace (Z.to_nat (x - q)) with (S (Z.to_nat (x - (q + 1)))) by lia. done.
    + rewrite decide_False; [done |]. intros [_ ?]. apply Hr. split; [done | lia].
Qed.

Lemma map_frames_spec o a b l : forall i v,
  vm_ok o v -> live v a -> b `mod` 4096 = 0 -> 0 <= i -> USER_BASE <= b -> b + (i + Zlen l) * 4096 <= DEVICE_WINDOW ->
  lent o v l -> (forall q, b / 4096 + i <= q < b / 4096 + i + Zlen l -> page v (Space a) q = None) ->
  exists r v', map_frames l (Space a) b i v = Ret (r, v') /\ vm_ok o v' /\ keeps v v' /\
    match r with
    | None => shows v v' a (b / 4096 + i) l
    | Some j => i <= j < i + Zlen l /\ low_full v' /\ shows v v' a (b / 4096 + i) (take (Z.to_nat (j - i)) l)
    end.
Proof.
  induction l as [| f l IH]; intros i v Hok Hl Hb Hi Hlo Hhi Hlent Hnone; cbn [map_frames].
  { exists None, v. split; [done |]. split; [done |]. split; [apply keeps_refl |]. by apply shows_nil. }
  unfold Zlen in *. cbn [length] in *. unfold USER_BASE, DEVICE_WINDOW in *.
  pose proof Hlent as [(g & -> & Hg & Hnt) Hlent']%Forall_cons.
  assert (Ea : u64 (b + i * PAGE_SIZE) = b + i * 4096) by (rewrite u64_id; unfold PAGE_SIZE; lia). rewrite Ea.
  assert (Eq : (b + i * 4096) / 4096 = b / 4096 + i) by zlia.
  destruct (paging_map_user o o v a (b + i * 4096) WU g) as (r & v1 & E1 & Hk & Hr); try done.
  { unfold user_addr, USER_BASE, DEVICE_WINDOW. lia. } { rewrite Eq. apply Hnone. lia. } { by left. }
  fold WU. rewrite E1. rewrite Eq in Hr. destruct r.
  - destruct Hr as [Hok1 Hp]. destruct (IH (i + 1) v1) as (r & v' & -> & Hok' & Hk' & H); try done; try lia.
    + by apply (g_live _ _ Hk).
    + by apply (lent_keeps o v).
    + intros q Hq. rewrite Hp by zlia. rewrite decide_False by (intros [_ ?]; lia). apply Hnone. lia.
    + exists r, v'. split; [done |]. split; [done |]. split; [by apply (keeps_trans v v1) |].
      replace (b / 4096 + (i + 1)) with (b / 4096 + i + 1) in H by lia.
      destruct r as [j |]; [| by apply (shows_cons v v1)]. destruct H as (Hj & Hf & H). split; [lia |]. split; [done |].
      replace (Z.to_nat (j - i)) with (S (Z.to_nat (j - (i + 1)))) by lia. by apply (shows_cons v v1).
  - destruct Hr as (Hok1 & Hf & Hp). exists (Some i), v1. split; [done |]. split; [done |]. split; [done |].
    split; [lia |]. split; [done |]. rewrite Z.sub_diag. by apply shows_nil.
Qed.

(** Each page takes at most the three tables on the way to it. *)
Lemma map_frames_spends l s b : forall i v r v',
  Pmm.pmm_inv (frames v) -> map_frames l s b i v = Ret (r, v') -> spends (3 * length l) (frames v) (frames v').
Proof.
  induction l as [| f l IH]; intros i v r v' Hp; cbn [map_frames length].
  { intros [= <- <-]. by apply spends_refl. }
  destruct (paging_map s _ f _ v) as [[b1 v1] |] eqn:E1; [| by destruct s].
  pose proof (paging_map_spends _ _ _ _ _ _ _ Hp E1) as H1. destruct b1.
  - intros E. apply (spends_mono (3 + 3 * length l)); [lia |]. apply (spends_trans _ _ _ (frames v1)); [done |].
    apply (IH (i + 1) v1 r v'); [apply H1 | done].
  - intros [= <- <-]. apply (spends_mono 3); [lia | done].
Qed.

(** Taking pages out again that show frames of [o]. *)
Lemma unmap_frames_spec o a b n : forall j v,
  vm_ok o v -> live v a -> b `mod` 4096 = 0 -> 0 <= j -> USER_BASE <= b -> b + (j + Z.of_nat n) * 4096 <= DEVICE_WINDOW ->
  (forall q e, b / 4096 + j <= q < b / 4096 + j + Z.of_nat n -> page v (Space a) q = Some e -> o (FRAME_OF e / 4096)) ->
  exists v', unmap_frames n (Space a) b j v = Ret v' /\ vm_ok o v' /\ stays v v' /\ frames v' = frames v /\
    forall s q, 0 <= q < 2 ^ 36 -> page v' s q =
      if decide (s = Space a /\ b / 4096 + j <= q < b / 4096 + j + Z.of_nat n) then None else page v s q.
Proof.
  induction n as [| n IH]; intros j v Hok Hl Hb Hj Hlo Hhi Ho; cbn [unmap_frames].
  { exists v. split; [done |]. split; [done |]. split; [by split |]. split; [done |]. intros s q Hq.
    by rewrite decide_False by (intros [_ ?]; lia). }
  unfold USER_BASE, DEVICE_WINDOW in *.
  assert (Ea : u64 (b + j * PAGE_SIZE) = b + j * 4096) by (rewrite u64_id; unfold PAGE_SIZE; lia). rewrite Ea.
  assert (Eq : (b + j * 4096) / 4096 = b / 4096 + j) by zlia.
  destruct (unmap_keep_user o v a (b + j * 4096) Hok Hl) as (v1 & -> & Hs & Hg & Hf & Hok1).
  { unfold user_addr, USER_BASE, DEVICE_WINDOW. lia. }
  rewrite Eq in Hg, Hok1. assert (Hok1' : vm_ok o v1).
  { destruct (page v (Space a) (b / 4096 + j)) as [e |] eqn:E; [| done]. eapply (ok_iff _ _ o); [| exact Hok1].
    intros g. cbn. unfold plus. split; [| by left]. intros [? | ->]; [done |]. apply (Ho (b / 4096 + j) e); [lia | done]. }
  destruct (IH (j + 1) v1) as (v' & -> & Hok' & Hs' & Hf' & Hp'); try done; try lia.
  - by apply (s_live _ _ Hs).
  - intros q e Hq. rewrite Hg by zlia. case_decide; [done |]. apply Ho. lia.
  - exists v'. split; [done |]. split; [done |]. split; [| split; [congruence |]].
    + destruct Hs as [A1 A2 A3 A4 A5 A6], Hs' as [B1 B2 B3 B4 B5 B6]. split; try congruence; auto.
      * intros s path Hv. by rewrite B4, A4.
      * intros path i Hv Hi. by rewrite B5, A5.
      * intros g x Hu Hn Hx. rewrite (B6 g), (A6 g); try done; [by rewrite Hf |].
        intros (s & path & Hv & E). apply Hn. exists s, path. by rewrite <- A4.
    + intros s q Hq. rewrite Hp', Hg by done. destruct (decide (s = Space a)) as [-> | Hne].
      2: { by rewrite !decide_False by (intros [? _]; done). }
      destruct (decide (q = b / 4096 + j)) as [-> | Hn].
      { rewrite decide_False by (intros [_ ?]; lia). rewrite !decide_True by (done || (split; [done | lia])). done. }
      destruct (decide (b / 4096 + j <= q < b / 4096 + j + Z.of_nat (S n))).
      * rewrite decide_True by (split; [done | lia]). by rewrite decide_True by (split; [done | lia]).
      * rewrite !decide_False; [done | intros [_ ?]; lia | by intros [_ ?] | intros [_ ?]; lia].
Qed.

(** ** The table and the page tables agree *)

(** An object: its frames are each once and lent, and something names it. *)
Record obj_ok (o : Z -> Prop) (v : vm) (s : Shm.shm) : Prop := {
  ob_pages : Shm.pages s = Zlen (Shm.frame s);
  ob_size : 0 < Shm.pages s < 2 ^ 32;
  ob_refs : 0 < Shm.refs s;
  ob_nodup : NoDup (Shm.frame s);
  ob_lent : lent o v (Shm.frame s);
}.

(** How many mappings name the object at [p]. *)
Definition uses (maps : list mapping) (p : Z) : nat := length (filter (fun m => shm m = Some p) maps).

(** Page [q] shows frame [f]. *)
Definition covers (maps : list mapping) (objs : objects) (q f : Z) : Prop :=
  exists i m p s, maps !! i = Some m /\ shm m = Some p /\ objs !! p = Some s /\ base m / 4096 <= q /\
    Shm.frame s !! Z.to_nat (q - base m / 4096) = Some f.

(** A page of a process's own part of its address space. *)
Definition own_page (q : Z) : Prop := 0 <= q < 2 ^ 36 /\ shared (path_of q) = false.

Definition window_page (q : Z) : Prop := USER_MMAP_BASE / 4096 <= q < USER_MMAP_TOP / 4096.

Record shm_window (o : Z -> Prop) (v : vm) (a : Z) (maps : list mapping) (objs : objects) : Prop := {
  w_len : length maps = SHM_MAX_MAPPINGS;
  w_obj : forall p s, objs !! p = Some s -> obj_ok o v s /\ (uses maps p <= Z.to_nat (Shm.refs s))%nat;
  w_map : forall i m p, maps !! i = Some m -> shm m = Some p ->
    in_window m /\ base m `mod` 4096 = 0 /\ exists s, objs !! p = Some s /\ pages m = Shm.pages s;
  w_apart : forall i j m m', i <> j -> maps !! i = Some m -> maps !! j = Some m' -> shm m <> None -> shm m' <> None ->
    base m + pages m * PAGE_SIZE <= base m' \/ base m' + pages m' * PAGE_SIZE <= base m;
  w_page : forall q e, window_page q -> page v (Space a) q = Some e <-> exists f, covers maps objs q f /\ e = leaf_of f WU;
  (** Outside the window the pages are private, no frame is in two objects, and an
      object only this table names is mapped by no other process. *)
  w_out : forall q e, own_page q -> ~ window_page q -> page v (Space a) q = Some e -> ~ o (FRAME_OF e / 4096);
  w_own : forall p p' s s' f, objs !! p = Some s -> objs !! p' = Some s' -> f ∈ Shm.frame s -> f ∈ Shm.frame s' -> p = p';
  w_alone : forall p s, objs !! p = Some s -> Z.to_nat (Shm.refs s) = uses maps p ->
    forall b q e, b <> a -> own_page q -> page v (Space b) q = Some e -> FRAME_OF e ∉ Shm.frame s;
}.

Lemma window_windows o v a maps objs : shm_window o v a maps objs -> windows maps.
Proof.
  intros Hw. apply Forall_lookup_2. intros i m E Hs. destruct (shm m) as [p |] eqn:Ep; [| done]. by apply (w_map _ _ _ _ _ Hw i m p).
Qed.

Lemma window_user q : window_page q -> user_page q.
Proof.
  unfold window_page, user_page, USER_MMAP_BASE, USER_MMAP_TOP, USER_BASE, DEVICE_WINDOW. zlia.
Qed.

(** Pages of the window are free where no mapping is. *)
Lemma window_free o v a maps objs want b q :
  shm_window o v a maps objs -> clear_at maps want b -> USER_MMAP_BASE <= b -> b + want <= USER_MMAP_TOP -> b `mod` 4096 = 0 ->
  b / 4096 <= q -> (q + 1) * 4096 <= b + want -> page v (Space a) q = None.
Proof.
  intros Hw Hc H1 H2 Hb Hq1 Hq2. destruct (page v (Space a) q) as [e |] eqn:E; [| done]. exfalso.
  assert (Hq : window_page q) by (unfold window_page, USER_MMAP_BASE, USER_MMAP_TOP in *; zlia).
  apply (w_page _ _ _ _ _ Hw q e Hq) in E as (f & (i & m & p & s & Em & Es & Ep & Hlo & Ef) & _).
  destruct (w_map _ _ _ _ _ Hw i m p Em Es) as ((W1 & W2 & W3) & Wm & s' & Ep' & Epg).
  assert (s' = s) as -> by congruence. destruct (w_obj _ _ _ _ _ Hw p s Ep) as [[O1 O2 _ O3 O4] _].
  apply lookup_lt_Some in Ef. unfold Zlen, PAGE_SIZE in *.
  destruct (proj1 (Forall_lookup _ _) Hc i m Em) as [? | ?]; [congruence | zlia | unfold PAGE_SIZE in *; zlia].
Qed.

(** The slot of a mapping is replaced. *)
Lemma uses_insert maps i m m' p :
  maps !! i = Some m ->
  (uses (<[i := m']> maps) p + (if decide (shm m = Some p) then 1 else 0) =
   uses maps p + (if decide (shm m' = Some p) then 1 else 0))%nat.
Proof.
  intros E. unfold uses. pose proof (lookup_lt_Some _ _ _ E) as Hlt. rewrite insert_take_drop by done.
  assert (E2 : filter (fun m => shm m = Some p) maps = filter (fun m => shm m = Some p) (take i maps ++ m :: drop (S i) maps))
    by (by rewrite take_drop_middle). rewrite E2.
  rewrite !filter_app, !filter_cons, !length_app.
  repeat case_decide; cbn [length]; lia.
Qed.

(** What [covers] sees of the objects is their frames. *)
Lemma covers_objs maps objs objs' q f :
  (forall p, Shm.frame <$> objs' !! p = Shm.frame <$> objs !! p) -> covers maps objs q f -> covers maps objs' q f.
Proof.
  intros H (i & m & p & s & Em & Es & Ep & Hq & Ef). specialize (H p). rewrite Ep in H.
  destruct (objs' !! p) as [s' |] eqn:E; [| done]. injection H as H. exists i, m, p, s'. by rewrite H.
Qed.

Lemma covers_insert maps objs i m m' p s q f :
  maps !! i = Some m -> shm m = None -> shm m' = Some p -> objs !! p = Some s ->
  covers (<[i := m']> maps) objs q f <->
  covers maps objs q f \/ base m' / 4096 <= q /\ Shm.frame s !! Z.to_nat (q - base m' / 4096) = Some f.
Proof.
  intros Em Hs Hs' Ep. pose proof (lookup_lt_Some _ _ _ Em) as Hlt. split.
  - intros (j & x & p' & s' & Ex & Es & Ep' & Hq & Ef). destruct (decide (j = i)) as [-> | Hne].
    + rewrite list_lookup_insert_eq in Ex by done. injection Ex as <-. right.
      assert (p' = p) as -> by congruence. assert (s' = s) as -> by congruence. done.
    + rewrite list_lookup_insert_ne in Ex by done. left. by exists j, x, p', s'.
  - intros [(j & x & p' & s' & Ex & Es & Ep' & Hq & Ef) | [Hq Ef]].
    + exists j, x, p', s'. rewrite list_lookup_insert_ne; [done |]. intros ->. congruence.
    + exists i, m', p, s. by rewrite list_lookup_insert_eq.
Qed.

Lemma obj_ok_keeps o v v' s : vm_ok o v -> keeps v v' -> obj_ok o v s -> obj_ok o v' s.
Proof. intros Hok Hk [O1 O2 O3 O4 O5]. split; try done. by apply (lent_keeps o v). Qed.

Lemma obj_ok_stays o v v' s : stays v v' -> obj_ok o v s -> obj_ok o v' s.
Proof.
  intros Hs [O1 O2 O3 O4 O5]. split; try done. eapply Forall_impl; [exact O5 |]. cbv beta.
  intros f (g & -> & Hg & Hn). exists g. split; [done |]. split; [done |]. intros (t & path & Hv & E). apply Hn.
  exists t, path. by rewrite <- (s_tb _ _ Hs).
Qed.

Lemma obj_ok_ref o v s : obj_ok o v s -> obj_ok o v (Shm.shm_ref s).
Proof. intros [O1 O2 O3 O4 O5]. split; try done. cbn. lia. Qed.

(** The window after a call that changed no page of it and neither table. *)
Lemma window_same o v v' a maps objs :
  shm_window o v a maps objs -> (forall s, obj_ok o v s -> obj_ok o v' s) ->
  (forall s q, 0 <= q < 2 ^ 36 -> page v' s q = page v s q) -> shm_window o v' a maps objs.
Proof.
  intros [W1 W2 W3 W4 W5 W6 W7 W8] Ho Hp. split; try done.
  - intros p s E. destruct (W2 p s E) as [? ?]. split; [by apply Ho | done].
  - intros q e Hq. rewrite Hp by (unfold window_page, USER_MMAP_BASE, USER_MMAP_TOP in Hq; zlia). by apply W5.
  - intros q e Hq Hn. rewrite Hp by apply Hq. by apply W6.
  - intros p s E Hu b q e Hb Hq. rewrite Hp by apply Hq. by apply (W8 p s E Hu).
Qed.

(** A new mapping of the object at [p], the page tables showing it. *)
Lemma window_add o v v' a maps objs i m p s b :
  shm_window o v a maps objs -> vm_ok o v -> keeps v v' -> objs !! p = Some s -> maps !! i = Some m -> shm m = None ->
  clear_at maps (Shm.pages s * PAGE_SIZE) b -> USER_MMAP_BASE <= b -> b + Shm.pages s * PAGE_SIZE <= USER_MMAP_TOP ->
  b `mod` 4096 = 0 -> shows v v' a (b / 4096) (Shm.frame s) ->
  shm_window o v' a (<[i := Mapping (Some p) b (Shm.pages s)]> maps) (<[p := Shm.shm_ref s]> objs).
Proof.
  intros [W1 W2 W3 W4 W5 W6 W7 W8] Hok Hk Ep Em Hs Hcl H1 H2 Hb Hsh. pose proof (lookup_lt_Some _ _ _ Em) as Hlt.
  destruct (W2 p s Ep) as [Hob Hu]. pose proof Hob as [O1 O2 O3 O4 O5].
  assert (Hframes : forall p', Shm.frame <$> <[p := Shm.shm_ref s]> objs !! p' = Shm.frame <$> objs !! p').
  { intros p'. destruct (decide (p' = p)) as [-> | Hne]; [by rewrite lookup_insert_eq, Ep | by rewrite lookup_insert_ne by done]. }
  split.
  - by rewrite length_insert.
  - intros p' s' E'. pose proof (uses_insert maps i m (Mapping (Some p) b (Shm.pages s)) p' Em) as Huse.
    rewrite Hs in Huse. rewrite (decide_False (P := None = Some p')) in Huse by done. cbn [shm] in Huse.
    destruct (decide (p' = p)) as [-> | Hne].
    + rewrite lookup_insert_eq in E'. injection E' as <-. rewrite decide_True in Huse by done.
      split; [by apply obj_ok_ref, (obj_ok_keeps o v) |]. cbn [Shm.refs Shm.shm_ref]. lia.
    + rewrite lookup_insert_ne in E' by done. rewrite decide_False in Huse by congruence.
      destruct (W2 p' s' E') as [? ?]. split; [by apply (obj_ok_keeps o v) | lia].
  - intros j x p' Ex Es. destruct (decide (j = i)) as [-> | Hne].
    + rewrite list_lookup_insert_eq in Ex by done. injection Ex as <-. cbn [shm base pages] in *. injection Es as <-.
      split; [unfold in_window; cbn [base pages]; lia |]. split; [done |]. exists (Shm.shm_ref s). by rewrite lookup_insert_eq.
    + rewrite list_lookup_insert_ne in Ex by done. destruct (W3 j x p' Ex Es) as (? & ? & s' & E' & Epg).
      split; [done |]. split; [done |]. destruct (decide (p' = p)) as [-> | Hnp].
      * exists (Shm.shm_ref s). rewrite lookup_insert_eq. split; [done |]. assert (s' = s) as -> by congruence. done.
      * exists s'. by rewrite lookup_insert_ne.
  - assert (Hnew : forall j x, j <> i -> maps !! j = Some x -> shm x <> None ->
      b + Shm.pages s * PAGE_SIZE <= base x \/ base x + pages x * PAGE_SIZE <= b)
      by (intros j x _ Ex Hx; by apply (proj1 (Forall_lookup _ _) Hcl j x Ex)).
    intros j k x y Hjk Ex Ey Hx Hy. destruct (decide (j = i)) as [-> | Hj], (decide (k = i)) as [-> | Hk'].
    + done.
    + rewrite list_lookup_insert_eq in Ex by done. rewrite list_lookup_insert_ne in Ey by done. injection Ex as <-.
      cbn [base pages]. by apply (Hnew k).
    + rewrite list_lookup_insert_eq in Ey by done. rewrite list_lookup_insert_ne in Ex by done. injection Ey as <-.
      cbn [base pages]. destruct (Hnew j x Hj Ex Hx); [by right | by left].
    + rewrite list_lookup_insert_ne in Ex by done. rewrite list_lookup_insert_ne in Ey by done. by apply (W4 j k).
  - intros q e Hq. assert (Hlen : Zlen (Shm.frame s) = Shm.pages s) by done.
    assert (Hcov : forall f, covers (<[i := Mapping (Some p) b (Shm.pages s)]> maps) (<[p := Shm.shm_ref s]> objs) q f <->
      covers maps objs q f \/ b / 4096 <= q /\ Shm.frame s !! Z.to_nat (q - b / 4096) = Some f).
    { intros f. rewrite <- (covers_insert maps objs i m (Mapping (Some p) b (Shm.pages s)) p s q f Em Hs eq_refl Ep).
      split; apply covers_objs; intros p'; [symmetry |]; apply Hframes. }
    rewrite Hsh by (unfold window_page, USER_MMAP_BASE, USER_MMAP_TOP in *; zlia).
    destruct (decide (b / 4096 <= q < b / 4096 + Shm.pages s)) as [Hin | Hout].
    + rewrite Hlen. rewrite decide_True by done. split.
      * destruct (Shm.frame s !! Z.to_nat (q - b / 4096)) as [f |] eqn:Ef; [| done]. intros [= <-]. exists f.
        split; [| done]. apply Hcov. right. split; [lia | done].
      * intros (f & Hf & ->). apply Hcov in Hf as [Hf | [_ ->]]; [| done]. exfalso.
        assert (En : page v (Space a) q = None).
        { apply (window_free o v a maps objs (Shm.pages s * PAGE_SIZE) b q); try done; [lia |].
          unfold PAGE_SIZE. zlia. }
        assert (Ee : page v (Space a) q = Some (leaf_of f WU)) by (apply W5; [done | by exists f]). congruence.
    + rewrite Hlen. rewrite decide_False by (intros [_ ?]; done). rewrite W5 by done. split; intros (f & Hf & ->); exists f.
      * split; [apply Hcov; by left | done].
      * split; [| done]. apply Hcov in Hf as [Hf | [Hq' Hf]]; [done |]. exfalso. apply lookup_lt_Some in Hf. unfold Zlen in *. lia.
  - intros q e [Hq Hq'] Hn. rewrite Hsh by done. rewrite decide_False; [by apply W6 |]. intros [_ Hr]. apply Hn.
    unfold window_page, USER_MMAP_BASE, USER_MMAP_TOP, PAGE_SIZE in *. rewrite <- O1 in Hr. zlia.
  - intros p1 p2 s1 s2 f E1 E2 H1' H2'. assert (Hfr : forall p' s', <[p := Shm.shm_ref s]> objs !! p' = Some s' ->
      exists s'', objs !! p' = Some s'' /\ Shm.frame s'' = Shm.frame s').
    { intros p' s' E'. pose proof (Hframes p') as Hp'. rewrite E' in Hp'. destruct (objs !! p') as [s'' |]; [| done].
      exists s''. split; [done |]. cbn in Hp'. congruence. }
    destruct (Hfr p1 s1 E1) as (s1' & E1' & F1), (Hfr p2 s2 E2) as (s2' & E2' & F2).
    apply (W7 p1 p2 s1' s2' f); [done | done | by rewrite F1 | by rewrite F2].
  - intros p' s' E' Hu' b' q e Hb' Hq. rewrite Hsh by apply Hq. rewrite decide_False by (intros [? _]; congruence).
    pose proof (uses_insert maps i m (Mapping (Some p) b (Shm.pages s)) p' Em) as Huse.
    rewrite Hs in Huse. rewrite (decide_False (P := None = Some p')) in Huse by done. cbn [shm] in Huse.
    destruct (decide (p' = p)) as [-> | Hne].
    + rewrite lookup_insert_eq in E'. injection E' as <-. rewrite decide_True in Huse by done. cbn [Shm.refs Shm.shm_ref Shm.frame] in *.
      apply (W8 p s Ep); [lia | done | done].
    + rewrite lookup_insert_ne in E' by done. rewrite decide_False in Huse by congruence. apply (W8 p' s' E'); [lia | done | done].
Qed.

(** ** [shm_map] *)

Lemma sweep_aligned want l : forall b moved,
  Forall (fun m => shm m <> None -> end_of m `mod` 4096 = 0) l -> b `mod` 4096 = 0 ->
  (sweep l want b moved).1 `mod` 4096 = 0.
Proof.
  induction l as [| m l IH]; intros b moved Hl Hb; cbn [sweep]; [done |]. apply Forall_cons in Hl as [Hm Hl].
  case_bool_decide; [by apply IH |]. case_if; [apply IH; [done | by apply Hm] | by apply IH].
Qed.

Lemma find_loop_aligned want maps n : forall b,
  Forall (fun m => shm m <> None -> end_of m `mod` 4096 = 0) maps -> b `mod` 4096 = 0 ->
  find_loop n maps want b `mod` 4096 = 0.
Proof.
  induction n as [| n IH]; intros b Hm Hb; cbn [find_loop]; [done |].
  pose proof (sweep_aligned want maps b false Hm Hb) as H. destruct (sweep maps want b false) as [b' []]; [by apply IH | done].
Qed.

Lemma find_region_aligned o v a maps objs count :
  shm_window o v a maps objs -> find_region maps count `mod` 4096 = 0.
Proof.
  intros Hw. unfold find_region. case_if; [done |]. apply find_loop_aligned; [| done].
  apply Forall_lookup_2. intros i m E Hs. destruct (shm m) as [p |] eqn:Ep; [| done].
  destruct (w_map _ _ _ _ _ Hw i m p E Ep) as (W1 & W2 & _). rewrite end_of_spec by done. unfold PAGE_SIZE. zlia.
Qed.

Lemma find_region_spec o v a maps objs count :
  shm_window o v a maps objs -> 0 < count < 2 ^ 32 -> find_region maps count <> 0 ->
  let b := find_region maps count in
  USER_MMAP_BASE <= b /\ b + count * PAGE_SIZE <= USER_MMAP_TOP /\ clear_at maps (count * PAGE_SIZE) b /\ b `mod` 4096 = 0.
Proof.
  intros Hw Hc Hne b. pose proof (find_region_aligned o v a maps objs count Hw) as Ha.
  destruct (find_region_cases maps count (window_windows _ _ _ _ _ Hw) (w_len _ _ _ _ _ Hw) Hc) as [[? _] | [(? & ? & ?) _]]; done.
Qed.

(** A byte of [a] under a page that is the same before and after. *)
Lemma ubyte_keeps o v v' a x :
  vm_ok o v -> vm_ok o v' -> live v a -> live v' a -> keeps v v' -> user_addr x ->
  page v' (Space a) (x / 4096) = page v (Space a) (x / 4096) -> ubyte v' a x = ubyte v a x.
Proof.
  intros Hok Hok' Hl Hl' Hk Hx Hp. rewrite !(ubyte_page o) by done. rewrite Hp.
  destruct (page v (Space a) (x / 4096)) as [e |] eqn:E; [| done]. cbn. f_equal.
  apply (keeps_byte o v v' a (x / 4096)); [done | done | by apply user_addr_page | done | zlia].
Qed.

Lemma ubyte_stays o v v' a x :
  vm_ok o v -> vm_ok o v' -> live v a -> live v' a -> stays v v' -> user_addr x ->
  page v' (Space a) (x / 4096) = page v (Space a) (x / 4096) -> ubyte v' a x = ubyte v a x.
Proof.
  intros Hok Hok' Hl Hl' Hs Hx Hp. rewrite !(ubyte_page o) by done. rewrite Hp.
  destruct (page v (Space a) (x / 4096)) as [e |] eqn:E; [| done]. cbn. f_equal.
  pose proof (proj1 (user_addr_page x) Hx) as Hq.
  destruct (page_frame o v a _ e Hok Hq E) as (g & Ef & Hu & Hn). apply (s_bytes _ _ Hs g); [done | done | rewrite Ef; zlia].
Qed.

(** What the failed call undoes. *)
Lemma map_undone o v v1 a b l n :
  vm_ok o v -> vm_ok o v1 -> live v a -> keeps v v1 -> b `mod` 4096 = 0 -> USER_BASE <= b -> b + Zlen l * 4096 <= DEVICE_WINDOW ->
  lent o v l -> (forall q, b / 4096 <= q < b / 4096 + Zlen l -> page v (Space a) q = None) ->
  (n <= length l)%nat -> shows v v1 a (b / 4096) (take n l) ->
  exists v', unmap_frames n (Space a) b 0 v1 = Ret v' /\ touched o v v' a /\ frames v' = frames v1 /\
    (forall s q, 0 <= q < 2 ^ 36 -> page v' s q = page v s q) /\
    (forall x, user_addr x -> ubyte v' a x = ubyte v a x) /\ (forall s, obj_ok o v s -> obj_ok o v' s).
Proof.
  intros Hok Hok1 Hl Hk Hb Hlo Hhi Hlent Hnone Hn Hsh. unfold Zlen in *.
  assert (Hlt : Zlen (take n l) = Z.of_nat n) by (unfold Zlen; rewrite length_take; lia).
  pose proof (g_live _ _ Hk a Hl) as Hl1.
  destruct (unmap_frames_spec o a b n 0 v1) as (v' & E & Hok' & Hs & Hf & Hp); try done; try lia.
  { intros q e Hq. rewrite Hsh by (unfold USER_BASE, DEVICE_WINDOW in *; zlia).
    rewrite decide_True by (split; [done | lia]).
    destruct (take n l !! Z.to_nat (q - b / 4096)) as [f |] eqn:Ef; [| done]. intros [= <-].
    apply lookup_take_Some in Ef as [Ef _].
    destruct (proj1 (Forall_lookup _ _) Hlent _ _ Ef) as (g & -> & Hg & _).
    by rewrite (leaf_frame o v), Z.div_mul by (done || by apply (ok_other _ _ _ _ Hok)). }
  assert (Hsame : forall s q, 0 <= q < 2 ^ 36 -> page v' s q = page v s q).
  { intros s q Hq. rewrite Hp, Hsh by done. rewrite Hlt. rewrite !Z.add_0_r.
    destruct (decide (s = Space a /\ b / 4096 <= q < b / 4096 + Z.of_nat n)) as [[-> Hr] | Hr]; [| done].
    symmetry. apply Hnone. lia. }
  assert (Ht1 : touched o v v1 a).
  { apply touched_keeps; try done. intros c q Hc Hq. rewrite Hsh by done. by rewrite decide_False by (intros [? _]; congruence). }
  assert (Ht2 : touched o v1 v' a).
  { apply ProcMem.stays_touched; try done. intros c q Hc Hq. rewrite Hp by done.
    by rewrite decide_False by (intros [? _]; congruence). }
  exists v'. split; [done |]. split; [by apply (touched_then o v v1) |]. split; [done |]. split; [done |]. split.
  - intros x Hx. pose proof (proj1 (user_addr_page x) Hx) as Hq. destruct (user_page_path _ Hq) as (Hr & _).
    destruct (decide (b / 4096 <= x / 4096 < b / 4096 + Z.of_nat n)) as [Hin | Hout].
    + rewrite !(ubyte_page o) by (done || by apply (t_live _ _ _ _ Ht2)). rewrite Hsame by done.
      by rewrite Hnone by lia.
    + assert (E1 : page v1 (Space a) (x / 4096) = page v (Space a) (x / 4096)).
      { rewrite Hsh by done. rewrite Hlt. by rewrite decide_False by (intros [_ ?]; done). }
      rewrite (ubyte_stays o v1 v'), (ubyte_keeps o v v1); try done; [by apply (t_live _ _ _ _ Ht2) |].
      rewrite Hsame, E1 by done. done.
  - intros s Hs'. by apply (obj_ok_stays o v1), (obj_ok_keeps o v).
Qed.

Lemma shm_map_cases o v a maps objs p s :
  vm_ok o v -> live v a -> shm_window o v a maps objs -> objs !! p = Some s ->
  exists r addr maps' objs' v', shm_map (Space a) (Some p) maps objs v = Ret (r, addr, maps', objs', v') /\
    touched o v v' a /\ shm_window o v' a maps' objs' /\
    let b := find_region maps (Shm.pages s) in
    ((r = 0 /\ addr = Some b /\ b <> 0 /\ objs' = <[p := Shm.shm_ref s]> objs /\
      (exists i m, maps !! i = Some m /\ shm m = None /\ maps' = <[i := Mapping (Some p) b (Shm.pages s)]> maps) /\
      forall x, user_addr x -> ubyte v' a x =
        if decide (b <= x < b + Shm.pages s * PAGE_SIZE)
        then (fun f => byte_at (memory v) (f + x `mod` 4096)) <$> Shm.frame s !! Z.to_nat ((x - b) / 4096)
        else ubyte v a x) \/
     (addr = None /\ maps' = maps /\ objs' = objs /\ (forall x, user_addr x -> ubyte v' a x = ubyte v a x) /\
      (r = - W_EMFILE /\ Forall (fun m => shm m <> None) maps \/
       r = - W_ENOMEM /\ (b = 0 \/ low_full v' /\ spends (3 * length (Shm.frame s)) (frames v) (frames v'))))).
Proof.
  intros Hok Hl Hw Ep. destruct (w_obj _ _ _ _ _ Hw p s Ep) as [Hob Hu]. pose proof Hob as [O1 O2 O3 O4 O5].
  unfold shm_map. destruct (list_find (fun m => shm m = None) maps) as [[i m] |] eqn:Ef.
  2: { exists (- W_EMFILE), None, maps, objs, v. split; [done |]. split; [by apply touched_refl |]. split; [done |].
       right. split; [done |]. split; [done |]. split; [done |]. split; [done |]. left. split; [done |].
       exact (proj1 (list_find_None _ _) Ef). }
  apply list_find_Some in Ef as (Em & Hs & _). rewrite Ep.
  destruct (Z.eqb_spec (find_region maps (Shm.pages s)) 0) as [Hz | Hz].
  { exists (- W_ENOMEM), None, maps, objs, v. split; [done |]. split; [by apply touched_refl |]. split; [done |].
    right. split; [done |]. split; [done |]. split; [done |]. split; [done |]. right. split; [done | by left]. }
  destruct (find_region_spec o v a maps objs (Shm.pages s) Hw O2 Hz) as (B1 & B2 & B3 & B4).
  set (b := find_region maps (Shm.pages s)) in *.
  assert (Et : take (Z.to_nat (Shm.pages s)) (Shm.frame s) = Shm.frame s) by (rewrite O1; unfold Zlen; rewrite Nat2Z.id; apply firstn_all).
  rewrite Et. unfold USER_MMAP_BASE, USER_MMAP_TOP, PAGE_SIZE in B1, B2.
  assert (Hnone : forall q, b / 4096 <= q < b / 4096 + Zlen (Shm.frame s) -> page v (Space a) q = None).
  { intros q Hq. apply (window_free o v a maps objs (Shm.pages s * PAGE_SIZE) b q); try done; [lia |]. unfold PAGE_SIZE. zlia. }
  destruct (map_frames_spec o a b (Shm.frame s) 0 v) as (r & v1 & E & Hok1 & Hk & H); try done; try lia.
  { unfold USER_BASE. lia. } { unfold DEVICE_WINDOW. lia. } { intros q Hq. apply Hnone. lia. }
  pose proof (map_frames_spends _ _ _ _ _ _ _ (ok_pmm _ _ _ _ Hok) E) as Hsp. rewrite E. rewrite Z.add_0_r in H. destruct r as [j |].
  - destruct H as (Hj & Hlow & Hsh). rewrite Z.sub_0_r in Hsh.
    destruct (map_undone o v v1 a b (Shm.frame s) (Z.to_nat j)) as (v' & -> & Ht & Hfr & Hp & Hx & Hobj); try done.
    { unfold USER_BASE. lia. } { unfold DEVICE_WINDOW. lia. } { unfold Zlen in *. lia. }
    exists (- W_ENOMEM), None, maps, objs, v'. split; [done |]. split; [done |].
    split; [by apply (window_same o v v') |].
    right. split; [done |]. split; [done |]. split; [done |]. split; [done |]. right. split; [done |]. right.
    unfold low_full. by rewrite Hfr.
  - eexists 0, (Some b), _, _, v1. split; [done |].
    assert (Ht : touched o v v1 a).
    { apply touched_keeps; try done. intros c q Hc Hq. rewrite H by done. by rewrite decide_False by (intros [? _]; congruence). }
    split; [done |]. split; [by apply (window_add o v v1 a maps objs i m) |]. left.
    split; [done |]. split; [done |]. split; [done |]. split; [done |]. split; [by exists i, m |].
    intros x Hx. pose proof (proj1 (user_addr_page x) Hx) as Hq. destruct (user_page_path _ Hq) as (Hr & _).
    pose proof (g_live _ _ Hk a Hl) as Hl1. unfold PAGE_SIZE. case_decide as Hd.
    + rewrite (ubyte_page o) by done. rewrite H by done. rewrite decide_True by (split; [done | zlia]).
      replace ((x - b) / 4096) with (x / 4096 - b / 4096) by zlia.
      destruct (Shm.frame s !! Z.to_nat (x / 4096 - b / 4096)) as [f |] eqn:Ef; [| done]. cbn. f_equal.
      destruct (proj1 (Forall_lookup _ _) O5 _ _ Ef) as (g & -> & Hg & Hnt).
      pose proof (ok_other _ _ _ _ Hok g Hg) as Hug. rewrite (leaf_frame o v) by done.
      apply (g_bytes _ _ Hk g); [done | done | zlia].
    + apply (ubyte_keeps o v v1); try done. rewrite H by done. rewrite decide_False; [done |]. intros [_ ?]. apply Hd. zlia.
Qed.


(** ** A concrete object: frame 33, in use since the kernel started, and a process
    that has mapped nothing *)

Import PagingRun (after_boot, with_loaded).

Definition sample_shm : Shm.shm := Shm.Shm 1 1 [33 * 4096].
Definition sample_objs : objects := {[ 1 := sample_shm ]}.
Definition sample_maps : list mapping := replicate SHM_MAX_MAPPINGS (Mapping None 0 0).

Lemma sample_shm_ok : obj_ok (taken (frames after_boot)) with_loaded sample_shm.
Proof.
  split; [done | cbn; lia | done | apply NoDup_singleton |]. constructor; [| constructor]. exists 33. split; [done |].
  assert (Hu : taken (frames after_boot) 33) by (split; [vm_compute; split; reflexivity | vm_compute; reflexivity]).
  split; [exact Hu |].
  apply (PagingRun.boot_frame_no_table 0x1000 0x2000 0x3000 0 true PagingRun.sample_vm after_boot PagingRun.no_objects);
    [apply PagingRun.sample_booted | apply PagingRun.no_objects_sharable | apply PagingRun.sample_loaded | exact Hu |].
  rewrite !not_elem_of_cons. split_and!; [done.. | apply not_elem_of_nil].
Qed.

Lemma sample_slot i m : sample_maps !! i = Some m -> m = Mapping None 0 0.
Proof. intros [-> _]%lookup_replicate_1. done. Qed.

Lemma sample_uses : uses sample_maps 1 = 0%nat.
Proof. vm_compute. reflexivity. Qed.

Lemma sample_window : shm_window (taken (frames after_boot)) with_loaded 0x8000 sample_maps sample_objs.
Proof.
  unfold sample_objs. split.
  - reflexivity.
  - intros p s [<- <-]%lookup_singleton_Some. split; [exact sample_shm_ok | rewrite sample_uses; lia].
  - intros i m p ->%sample_slot. discriminate.
  - intros i j m m' _ ->%sample_slot _ H. by destruct H.
  - intros q e Hq. rewrite PagingRun.sample_no_pages by (apply user_page_path, window_user; exact Hq).
    split; [discriminate |]. intros (f & (i & m & p & s & ->%sample_slot & Hs & _) & _). discriminate.
  - intros q e [_ Hq] _. rewrite PagingRun.sample_no_pages by exact Hq. discriminate.
  - intros p p' s s' f [<- _]%lookup_singleton_Some [<- _]%lookup_singleton_Some _ _. reflexivity.
  - intros p s [<- <-]%lookup_singleton_Some H. rewrite sample_uses in H. discriminate H.
Qed.

Lemma shared_sample_ok : vm_ok (taken (frames after_boot)) with_loaded.
Proof.
  exact (PagingRun.vi_ok _ _ _ _ _ _ (PagingRun.reached_inv _ _ _ 0 true _ _ PagingRun.no_objects _ PagingRun.sample_booted
    (PagingRun.no_objects_sharable _) PagingRun.sample_loaded)).
Qed.

Lemma shared_sample_free g : 100 <= g < 120 ->
  0 <= g < Pmm.low_limit (frames with_loaded) /\ Pmm.used (frames with_loaded) g = false.
Proof.
  intros Hg. split; [assert (Hlim : Pmm.low_limit (frames with_loaded) = 1088) by (vm_compute; reflexivity); lia |].
  assert (Hall : forallb (fun g => negb (Pmm.used (frames with_loaded) g)) (seqZ 100 20) = true) by (vm_compute; reflexivity).
  rewrite forallb_forall in Hall. apply negb_true_iff, Hall, list_elem_of_In, elem_of_seqZ. lia.
Qed.

Lemma sample_enough v' : low_full v' -> spends 3 (frames with_loaded) (frames v') -> False.
Proof.
  intros Hf Hsp. pose proof (spends_left 3 with_loaded v' 0 (seqZ 100 20) Hsp) as H. rewrite length_seqZ in H.
  assert (20 <= 4)%nat; [| lia]. apply H; [| apply NoDup_seqZ |].
  - intros g Hg _. exact (Hf g Hg).
  - intros g [? ?]%elem_of_seqZ. exact (shared_sample_free g ltac:(lia)).
Qed.

Lemma sample_clear b : clear_at sample_maps (1 * PAGE_SIZE) b.
Proof. apply Forall_lookup_2. intros i m E Hs. apply sample_slot in E as ->. by destruct Hs. Qed.


End ShmMap.
