(* ===== verification/ShmUnmap.v ===== *)
(** Unmapping shared memory: [shm_unmap] and [shm_unmap_all] of
    [kernel/mm/shm.c] keep the table of [ShmMap], the page tables and the
    reference counts in step, give an object's frames back exactly with its last
    reference, and leave a dying process no page that shows one. *)

From S2P Require Import Prelude Pmm Shm Sched Paging PagingInv PagingSpec PagingMem UserView PagingBoot PagingRun ShmMap.

Module ShmUnmap.

Import Sched (aspace, KSpace, Space).
Import Paging PagingInv PagingSpec PagingMem UserView ShmMap.

#[local] Opaque zero_bytes load64 store64.

Notation objects := (gmap Z Shm.shm).

(** ** One mapping *)

Lemma uses_zero maps p j x : uses maps p = 0%nat -> maps !! j = Some x -> shm x = Some p -> False.
Proof.
  intros Hz Ex Hx. apply length_zero_iff_nil in Hz. eapply (not_elem_of_nil x). rewrite <- Hz.
  apply list_elem_of_filter. split; [done | by apply list_elem_of_lookup_2 in Ex].
Qed.

(** The slot of a mapping is emptied. *)
Lemma uses_clear maps i m p p' :
  maps !! i = Some m -> shm m = Some p ->
  (uses (<[i := Mapping None (base m) (pages m)]> maps) p' + (if decide (p' = p) then 1 else 0) = uses maps p')%nat.
Proof.
  intros Em Es. pose proof (uses_insert maps i m (Mapping None (base m) (pages m)) p' Em) as H. rewrite Es in H. cbn [shm] in H.
  rewrite (decide_False (P := None = Some p')) in H by done. repeat case_decide; try lia; congruence.
Qed.

(** [o] without the frames of [l]. *)
Definition less (o : Z -> Prop) (l : list Z) (g : Z) : Prop := o g /\ g * 4096 ∉ l.

Lemma free_lent l : forall o v,
  vm_ok o v -> lent o v l -> NoDup l -> (forall g, g * 4096 ∈ l -> ~ is_page v g) ->
  exists p, Shm.free_frames l (frames v) = Ret p /\ vm_ok (less o l) (with_frames p v).
Proof.
  induction l as [| f l IH]; intros o v Hok Hlent Hnd Hn; cbn [Shm.free_frames].
  { exists (frames v). split; [done |]. eapply (ok_iff _ o); [| exact Hok]. intros g. unfold less.
    split; [intros Hg; split; [done | apply not_elem_of_nil] | by intros [? _]]. }
  apply Forall_cons in Hlent as [(g & -> & Hg & Hnt) Hlent]. apply NoDup_cons in Hnd as [Hni Hnd].
  destruct (free_taken (frames v) g (ok_pmm _ _ _ _ Hok) (ok_other _ _ _ _ Hok g Hg)) as (p1 & -> & Hp1 & Ht1 & Hu1).
  assert (Hok1 : vm_ok (minus o g) (with_frames p1 v)).
  { apply (ok_free (roots v) o (memory v) (frames v)); try done. apply Hn, elem_of_cons. by left. }
  destruct (IH (minus o g) (with_frames p1 v) Hok1) as (p & E & Hok2); [| done | |].
  - apply Forall_lookup_2. intros i f Ef. destruct (proj1 (Forall_lookup _ _) Hlent i f Ef) as (h & -> & Hh & Hht).
    exists h. split; [done |]. split; [| done]. split; [done |]. intros ->. apply Hni. by apply list_elem_of_lookup_2 in Ef.
  - intros h Hh. apply Hn, elem_of_cons. by right.
  - exists p. split; [done |]. eapply (ok_iff _ (less (minus o g) l)); [| exact Hok2]. intros h. unfold less, minus.
    rewrite not_elem_of_cons. split.
    + intros [[H1 H2] H3]. split; [done |]. split; [intros ?; lia | done].
    + intros (H1 & H2 & H3). split; [split; [done | by intros ->] | done].
Qed.

(** One mapping is taken out of the table and of the page tables; [objs'] is what
    is left of the objects, with frames in [o'] still theirs. *)
Lemma window_remove o o' v v' a maps objs objs' i m p s :
  shm_window o v a maps objs -> maps !! i = Some m -> shm m = Some p -> objs !! p = Some s ->
  (forall g, o' g -> o g) -> (forall s', obj_ok o v s' -> (forall f, f ∈ Shm.frame s' -> o' (f / 4096)) -> obj_ok o' v' s') ->
  (forall s' q, 0 <= q < 2 ^ 36 -> page v' s' q =
     if decide (s' = Space a /\ base m / 4096 <= q < base m / 4096 + pages m) then None else page v s' q) ->
  (forall p' s', objs' !! p' = Some s' -> exists s0, objs !! p' = Some s0 /\ Shm.frame s' = Shm.frame s0 /\ Shm.pages s' = Shm.pages s0 /\
     Shm.refs s' = (if decide (p' = p) then Shm.refs s0 - 1 else Shm.refs s0) /\ 0 < Shm.refs s' /\
     forall f, f ∈ Shm.frame s' -> o' (f / 4096)) ->
  (forall p', p' <> p -> objs' !! p' = objs !! p') -> (objs' !! p = None -> uses maps p = 1%nat) ->
  shm_window o' v' a (<[i := Mapping None (base m) (pages m)]> maps) objs'.
Proof.
  intros [W1 W2 W3 W4 W5 W6 W7 W8] Em Es Ep Ho Hobj Hp Hobjs Hsame Hlast.
  pose proof (lookup_lt_Some _ _ _ Em) as Hlt. destruct (W3 i m p Em Es) as ((B1 & B2 & B3) & B4 & s0 & Ep0 & Epg).
  assert (s0 = s) as -> by congruence.
  assert (Huse : forall p', (uses (<[i := Mapping None (base m) (pages m)]> maps) p' + (if decide (p' = p) then 1 else 0) = uses maps p')%nat).
  { intros p'. by apply uses_clear. }
  assert (Hin : forall j x, <[i := Mapping None (base m) (pages m)]> maps !! j = Some x -> shm x <> None -> j <> i /\ maps !! j = Some x).
  { intros j x Ex Hx. destruct (decide (j = i)) as [-> | Hne]; [| by rewrite list_lookup_insert_ne in Ex by done].
    rewrite list_lookup_insert_eq in Ex by done. injection Ex as <-. done. }
  assert (Hstill : forall j x p' s1, j <> i -> maps !! j = Some x -> shm x = Some p' -> objs !! p' = Some s1 ->
    exists s', objs' !! p' = Some s' /\ Shm.frame s' = Shm.frame s1 /\ Shm.pages s' = Shm.pages s1).
  { intros j x p' s1 Hj Ex Hx E1. destruct (objs' !! p') as [s' |] eqn:E'.
    { exists s'. split; [done |]. destruct (Hobjs p' s' E') as (s2 & E2 & ? & ? & _). assert (s2 = s1) as -> by congruence. done. }
    exfalso. destruct (decide (p' = p)) as [-> | Hne]; [| rewrite Hsame in E' by done; congruence].
    specialize (Hlast E'). specialize (Huse p). rewrite decide_True in Huse by done.
    assert (Hz : uses (<[i := Mapping None (base m) (pages m)]> maps) p = 0%nat) by lia.
    apply (uses_zero _ p j x Hz); [by rewrite list_lookup_insert_ne | done]. }
  assert (Hrange : forall j x p' s1 q f, maps !! j = Some x -> shm x = Some p' -> objs !! p' = Some s1 -> base x / 4096 <= q ->
    Shm.frame s1 !! Z.to_nat (q - base x / 4096) = Some f -> base x / 4096 <= q < base x / 4096 + pages x).
  { intros j x p' s1 q f Ex Hx E1 Hq Ef. destruct (W3 j x p' Ex Hx) as (_ & _ & s2 & E2 & ->).
    assert (s2 = s1) as -> by congruence. destruct (W2 p' s1 E1) as [[-> _ _ _ _] _]. apply lookup_lt_Some in Ef. unfold Zlen. lia. }
  split.
  - by rewrite length_insert.
  - intros p' s' E'. destruct (Hobjs p' s' E') as (s1 & E1 & F1 & P1 & R1 & R2 & Hf). destruct (W2 p' s1 E1) as [[O1 O2 O3 O4 O5] Hu1].
    specialize (Huse p'). split; [| case_decide; lia]. apply Hobj; [| done]. split; rewrite ?F1, ?P1; done.
  - intros j x p' Ex Hx. destruct (Hin j x Ex) as [Hj Ex']; [congruence |]. destruct (W3 j x p' Ex' Hx) as (? & ? & s1 & E1 & P1).
    split; [done |]. split; [done |]. destruct (Hstill j x p' s1 Hj Ex' Hx E1) as (s' & E' & _ & Hpg). exists s'. split; [done | congruence].
  - intros j k x y Hjk Ex Ey Hx Hy. destruct (Hin j x Ex Hx), (Hin k y Ey Hy). by apply (W4 j k).
  - intros q e Hq. rewrite Hp by (unfold window_page, USER_MMAP_BASE, USER_MMAP_TOP in Hq; zlia).
    assert (Hcov : forall f, covers (<[i := Mapping None (base m) (pages m)]> maps) objs' q f <->
      covers maps objs q f /\ ~ base m / 4096 <= q < base m / 4096 + pages m).
    { intros f. split.
      - intros (j & x & p' & s' & Ex & Hx & E' & Hlo & Ef). destruct (Hin j x Ex) as [Hj Ex']; [congruence |].
        destruct (Hobjs p' s' E') as (s1 & E1 & F1 & _). rewrite F1 in Ef. split; [by exists j, x, p', s1 |].
        pose proof (Hrange j x p' s1 q f Ex' Hx E1 Hlo Ef). intros Hr.
        destruct (W3 j x p' Ex' Hx) as (_ & Hm' & _).
        destruct (W4 j i x m Hj Ex' Em) as [? | ?]; [congruence | congruence | unfold PAGE_SIZE in *; zlia..].
      - intros [(j & x & p' & s1 & Ex & Hx & E1 & Hlo & Ef) Hout].
        destruct (decide (j = i)) as [-> | Hj].
        { destruct Hout. assert (x = m) as -> by congruence. by apply (Hrange i m p' s1 q f). }
        destruct (Hstill j x p' s1 Hj Ex Hx E1) as (s' & E' & F' & _). exists j, x, p', s'.
        rewrite list_lookup_insert_ne by done. by rewrite F'. }
    destruct (decide (base m / 4096 <= q < base m / 4096 + pages m)) as [Hr | Hr].
    + rewrite decide_True by done. split; [done |]. intros (f & Hf & _). by apply Hcov in Hf as [_ ?].
    + rewrite decide_False by (intros [_ ?]; done). rewrite W5 by done.
      split; intros (f & Hf & ->); exists f; (split; [| done]); [by apply Hcov | by apply Hcov in Hf as [? _]].
  - intros q e Hq Hn. rewrite Hp by apply Hq. case_decide; [done |]. intros E Ho'. by apply (W6 q e Hq Hn E), Ho.
  - intros p1 p2 s1 s2 f E1 E2 H1 H2. destruct (Hobjs p1 s1 E1) as (t1 & T1 & F1 & _), (Hobjs p2 s2 E2) as (t2 & T2 & F2 & _).
    rewrite F1 in H1. rewrite F2 in H2. by apply (W7 p1 p2 t1 t2 f).
  - intros p' s' E' Hu b q e Hb Hq. rewrite Hp by apply Hq. rewrite decide_False by (intros [? _]; congruence).
    destruct (Hobjs p' s' E') as (s1 & E1 & -> & _ & R1 & R2 & _). apply (W8 p' s1 E1); [| done | done].
    specialize (Huse p'). case_decide; lia.
Qed.

(** The slot of a mapping is the one [shm_unmap] finds by its base. *)
Lemma find_slot o v a maps objs i m :
  shm_window o v a maps objs -> maps !! i = Some m -> shm m <> None ->
  list_find (fun x => shm x <> None /\ base x = base m) maps = Some (i, m).
Proof.
  intros Hw Em Hs. apply list_find_Some. split; [done |]. split; [done |]. intros j y Ey Hj [Hy Eb].
  destruct (shm m) as [p |] eqn:Ep; [| done]. destruct (shm y) as [p' |] eqn:Ep'; [| done].
  destruct (w_map _ _ _ _ _ Hw i m p Em Ep) as ((_ & ? & _) & _), (w_map _ _ _ _ _ Hw j y p' Ey Ep') as ((_ & ? & _) & _).
  destruct (w_apart _ _ _ _ _ Hw j i y m) as [? | ?]; try done; try congruence; [lia | |]; unfold PAGE_SIZE in *; lia.
Qed.

(** What [shm_unmap] does about the mapping [m] of the object [s] at [p]. *)
Record dropped (o : Z -> Prop) (v : vm) (a : Z) (m : mapping) (p : Z) (s : Shm.shm) (objs : objects)
    (o' : Z -> Prop) (v' : vm) (objs' : objects) : Prop := {
  d_ok : vm_ok o' v';
  d_live : forall b, live v b -> live v' b;
  d_cpus : cpus v' = cpus v;
  d_page : forall t q, 0 <= q < 2 ^ 36 -> page v' t q =
    if decide (t = Space a /\ base m / 4096 <= q < base m / 4096 + pages m) then None else page v t q;
  d_tables : forall g, is_table v' g -> is_table v g;
  d_bytes : forall g x, in_use v g -> ~ is_table v g -> g * 4096 <= x < g * 4096 + 4096 ->
    byte_at (memory v') x = byte_at (memory v) x;
  d_refs : if decide (Shm.refs s = 1)
    then objs' = delete p objs /\ (forall g, o' g <-> less o (Shm.frame s) g) /\
      (forall g, in_use v' g <-> in_use v g /\ g * 4096 ∉ Shm.frame s)
    else objs' = <[p := Shm.Shm (Shm.refs s - 1) (Shm.pages s) (Shm.frame s)]> objs /\ (forall g, o' g <-> o g) /\ frames v' = frames v;
}.

(** Once its last mapping is out, no page shows a frame of the object. *)
Lemma last_mapping o v v' a maps objs i m p s g :
  shm_window o v a maps objs -> vm_ok o v -> maps !! i = Some m -> shm m = Some p -> objs !! p = Some s -> Shm.refs s = 1 ->
  (forall t q, 0 <= q < 2 ^ 36 -> page v' t q =
    if decide (t = Space a /\ base m / 4096 <= q < base m / 4096 + pages m) then None else page v t q) ->
  g * 4096 ∈ Shm.frame s -> ~ is_page v' g.
Proof.
  intros Hw Hok Em Es Ep Hr Hp Hg (b & q & e & Hq & Hsh & E & Ef).
  destruct (w_obj _ _ _ _ _ Hw p s Ep) as [[O1 O2 O3 O4 O5] Hu].
  pose proof (uses_clear maps i m p p Em Es) as Huse. rewrite decide_True in Huse by done.
  change (page v' (Space b) q = Some e) in E. rewrite Hp in E by done. case_decide as Hd; [done |].
  assert (Hgf : exists h, g * 4096 = h * 4096 /\ o h /\ ~ is_table v h).
  { apply list_elem_of_lookup in Hg as [k Hk]. exact (proj1 (Forall_lookup _ _) O5 k _ Hk). }
  destruct Hgf as (h & Eh & Ho & _). assert (h = g) as -> by lia.
  destruct (decide (b = a)) as [-> | Hb].
  2: { apply (w_alone _ _ _ _ _ Hw p s Ep ltac:(lia) b q e Hb); [by split | done | by rewrite Ef]. }
  destruct (decide (USER_MMAP_BASE / 4096 <= q < USER_MMAP_TOP / 4096)) as [Hin | Hout].
  2: { apply (w_out _ _ _ _ _ Hw q e); [by split | done | done | by rewrite Ef, Z.div_mul]. }
  apply (w_page _ _ _ _ _ Hw q e Hin) in E as (f & (j & x & p' & s' & Ex & Hx & Ep' & Hlo & Hf) & ->).
  destruct (w_obj _ _ _ _ _ Hw p' s' Ep') as [[O1' _ _ _ O5'] _].
  destruct (proj1 (Forall_lookup _ _) O5' _ _ Hf) as (h & -> & Hoh & _).
  rewrite (leaf_frame o v) in Ef by (done || by apply (ok_other _ _ _ _ Hok)). rewrite Ef in Hf.
  pose proof (w_own _ _ _ _ _ Hw p' p s' s (g * 4096) Ep' Ep (list_elem_of_lookup_2 _ _ _ Hf) Hg) as ->.
  destruct (decide (j = i)) as [-> | Hne].
  - apply Hd. split; [done |]. assert (x = m) as -> by congruence. assert (s' = s) as -> by congruence.
    destruct (w_map _ _ _ _ _ Hw i m p Em Es) as (_ & _ & s1 & E1 & ->). assert (s1 = s) as -> by congruence.
    apply lookup_lt_Some in Hf. rewrite O1. unfold Zlen. lia.
  - apply (uses_zero (<[i := Mapping None (base m) (pages m)]> maps) p j x); [lia | by rewrite list_lookup_insert_ne | done].
Qed.

Lemma obj_owned o v s : vm_ok o v -> obj_ok o v s -> Shm.owned (frames v) (Shm.frame s).
Proof.
  intros Hok [_ _ _ O4 O5]. split; [done |]. eapply Forall_impl; [exact O5 |]. cbv beta. intros f (g & -> & Hg & _).
  destruct (ok_other _ _ _ _ Hok g Hg) as [? ?]. exists g. split; [done |]. done.
Qed.

Lemma with_same_frames v : with_frames (frames v) v = v.
Proof. by destruct v. Qed.

(** The reference the mapping held is given back. *)
Lemma unref_spec o v v1 a maps objs i m p s :
  shm_window o v a maps objs -> vm_ok o v -> maps !! i = Some m -> shm m = Some p -> objs !! p = Some s ->
  vm_ok o v1 -> stays v v1 -> frames v1 = frames v ->
  (forall t q, 0 <= q < 2 ^ 36 -> page v1 t q =
    if decide (t = Space a /\ base m / 4096 <= q < base m / 4096 + pages m) then None else page v t q) ->
  exists o' objs' v', unref p objs v1 = Ret (objs', v') /\ dropped o v a m p s objs o' v' objs'.
Proof.
  intros Hw Hok Em Es Ep Hok1 Hs Hf Hp. destruct (w_obj _ _ _ _ _ Hw p s Ep) as [Hob _]. pose proof Hob as [O1 O2 O3 O4 O5].
  assert (Htab : forall v', (forall t path, table v' t path = table v1 t path) -> forall g, is_table v' g -> is_table v g).
  { intros v' Hv g (t & path & Hv' & Et). exists t, path. split; [done |]. rewrite <- (s_tb _ _ Hs) by done. by rewrite <- Et, Hv. }
  unfold unref. rewrite Ep. unfold Shm.shm_unref. cbn [Shm.refs Shm.pages Shm.frame].
  destruct (decide (Shm.refs s = 1)) as [Hr | Hr].
  - destruct (Z.ltb_spec 0 (Shm.refs s - 1)); [lia |]. rewrite O1. unfold Zlen. rewrite Nat2Z.id, firstn_all.
    destruct (obj_ok_stays o v v1 s Hs Hob) as [_ _ _ _ L5].
    destruct (free_lent (Shm.frame s) o v1 Hok1 L5 O4) as (q & E & Hok').
    { intros g Hg. by apply (last_mapping o v v1 a maps objs i m p s). }
    destruct (Shm.free_frames_spec (Shm.frame s) (frames v1) (ok_pmm _ _ _ _ Hok1)) as (q' & E' & _ & Ht & Hu).
    { apply (obj_owned o); [done |]. by apply (obj_ok_stays o v). }
    assert (q' = q) as -> by congruence. rewrite E. exists (less o (Shm.frame s)), (delete p objs), (with_frames q v1).
    split; [done |]. split; try done; [apply Hs | apply Hs | exact (Htab (with_frames q v1) ltac:(done)) | apply Hs |]. rewrite decide_True by done.
    split; [done |]. split; [done |]. intros g. unfold taken. cbn [frames with_frames]. rewrite Ht, Hf.
    assert (Hd : 0 <= g -> Pmm.used q g = true <-> Pmm.used (frames v) g = true /\ g * 4096 ∉ Shm.frame s).
    { intros Hg. rewrite Hu, Hf by done. rewrite andb_true_iff, negb_true_iff. unfold Shm.holds. by rewrite bool_decide_eq_false. }
    split; [intros [? ?%Hd]; [by destruct_and! | lia] | intros [[? ?] ?]; split; [done | apply Hd; [lia | done]]].
  - destruct (Z.ltb_spec 0 (Shm.refs s - 1)); [| lia]. eexists o, _, v1. split; [by rewrite with_same_frames |].
    split; try done; [apply Hs | apply Hs | exact (Htab v1 ltac:(done)) | apply Hs |]. by rewrite decide_False.
Qed.

Lemma dropped_window o v a maps objs i m p s o' v' objs' :
  shm_window o v a maps objs -> maps !! i = Some m -> shm m = Some p -> objs !! p = Some s -> vm_ok o v ->
  dropped o v a m p s objs o' v' objs' ->
  shm_window o' v' a (<[i := Mapping None (base m) (pages m)]> maps) objs'.
Proof.
  intros Hw Em Es Ep Hok [D1 D2 D3 D4 Htab D5 D6]. destruct (w_obj _ _ _ _ _ Hw p s Ep) as [Hob Hu].
  assert (Hlent : forall p' s', objs !! p' = Some s' -> forall f, f ∈ Shm.frame s' -> exists g, f = g * 4096 /\ o g).
  { intros p' s' E' f Hf. destruct (w_obj _ _ _ _ _ Hw p' s' E') as [[_ _ _ _ O5] _].
    apply list_elem_of_lookup in Hf as [k Hk]. destruct (proj1 (Forall_lookup _ _) O5 k _ Hk) as (g & ? & ? & _). by exists g. }
  pose proof (uses_clear maps i m p p Em Es) as Huse. rewrite decide_True in Huse by done.
  assert (Hobj : forall s', obj_ok o v s' -> (forall f, f ∈ Shm.frame s' -> o' (f / 4096)) -> obj_ok o' v' s').
  { intros s' [A1 A2 A3 A4 A5] Ho. split; try done. apply Forall_lookup_2. intros k f Hk.
    destruct (proj1 (Forall_lookup _ _) A5 k f Hk) as (g & -> & _ & Hn). exists g. split; [done |]. split; [| by intros ?%Htab].
    rewrite <- (Z.div_mul g 4096) by done. apply Ho. by apply list_elem_of_lookup_2 in Hk. }
  destruct (decide (Shm.refs s = 1)) as [Hr | Hr]; destruct D6 as (-> & Ho & _).
  - apply (window_remove o o' v v' a maps objs _ i m p s); try done.
    + intros g Hg. by apply Ho in Hg as [? _].
    + intros p' s' [Hne E']%lookup_delete_Some. exists s'. rewrite decide_False by done.
      destruct (w_obj _ _ _ _ _ Hw p' s' E') as [[_ _ A3 _ _] _]. repeat (split; [done |]).
      intros f Hf. destruct (Hlent p' s' E' f Hf) as (g & -> & Hg). rewrite Z.div_mul by done. apply Ho. split; [done |].
      intros Hin. by apply Hne, (w_own _ _ _ _ _ Hw p p' s s' (g * 4096)).
    + intros p' Hne. by apply lookup_delete_ne.
    + intros _. lia.
  - apply (window_remove o o' v v' a maps objs _ i m p s); try done.
    + intros g Hg. by apply Ho.
    + intros p' s' E'. destruct (decide (p' = p)) as [-> | Hne].
      * rewrite lookup_insert_eq in E'. injection E' as <-. exists s. cbn [Shm.refs Shm.pages Shm.frame].
        pose proof (ob_refs _ _ _ Hob). split; [done |]. split; [done |]. split; [done |]. split; [done |]. split; [lia |].
        intros f Hf. destruct (Hlent p s Ep f Hf) as (g & -> & Hg). rewrite Z.div_mul by done. by apply Ho.
      * rewrite lookup_insert_ne in E' by done. exists s'. destruct (w_obj _ _ _ _ _ Hw p' s' E') as [[_ _ A3 _ _] _].
        repeat (split; [done |]). intros f Hf. destruct (Hlent p' s' E' f Hf) as (g & -> & Hg). rewrite Z.div_mul by done. by apply Ho.
    + intros p' Hne. by rewrite lookup_insert_ne.
    + by rewrite lookup_insert_eq.
Qed.

(** The call on the base of a mapping. *)
Lemma unmap_slot o v a maps objs i m p :
  vm_ok o v -> live v a -> shm_window o v a maps objs -> maps !! i = Some m -> shm m = Some p ->
  exists s o' objs' v', objs !! p = Some s /\
    shm_unmap (Space a) (base m) maps objs v = Ret (0, <[i := Mapping None (base m) (pages m)]> maps, objs', v') /\
    dropped o v a m p s objs o' v' objs' /\ shm_window o' v' a (<[i := Mapping None (base m) (pages m)]> maps) objs'.
Proof.
  intros Hok Hl Hw Em Es. destruct (w_map _ _ _ _ _ Hw i m p Em Es) as ((B1 & B2 & B3) & B4 & s & Ep & Epg).
  exists s. unfold shm_unmap. rewrite (find_slot o v a maps objs i m) by (done || congruence).
  destruct (w_obj _ _ _ _ _ Hw p s Ep) as [Hob Hu]. unfold USER_MMAP_BASE, USER_MMAP_TOP, PAGE_SIZE in *.
  destruct (unmap_frames_spec o a (base m) (Z.to_nat (pages m)) 0 v) as (v1 & -> & Hok1 & Hs & Hf & Hp); try done; try lia.
  { unfold USER_BASE. lia. } { unfold DEVICE_WINDOW. lia. }
  { intros q e Hq E. apply (w_page _ _ _ _ _ Hw q e) in E as (f & (j & x & p' & s' & Ex & Hx & Ep' & _ & Hk) & ->).
    2: { unfold window_page, USER_MMAP_BASE, USER_MMAP_TOP. zlia. }
    destruct (w_obj _ _ _ _ _ Hw p' s' Ep') as [[_ _ _ _ O5] _]. destruct (proj1 (Forall_lookup _ _) O5 _ _ Hk) as (g & -> & Hg & _).
    by rewrite (leaf_frame o v), Z.div_mul by (done || by apply (ok_other _ _ _ _ Hok)). }
  rewrite Es. rewrite Z2Nat.id, !Z.add_0_r in Hp by lia.
  destruct (unref_spec o v v1 a maps objs i m p s) as (o' & objs' & v' & E & Hd); try done.
  rewrite E. exists o', objs', v'. split; [done |]. split; [done |]. split; [done |].
  by apply (dropped_window o v a maps objs i m p s o' v' objs').
Qed.


(** Bytes a process sees afterwards. *)
Lemma dropped_bytes o v a m p s objs o' v' objs' b x :
  vm_ok o v -> live v b -> base m `mod` 4096 = 0 -> dropped o v a m p s objs o' v' objs' -> user_addr x ->
  ubyte v' b x = if decide (b = a /\ base m <= x < base m + pages m * PAGE_SIZE) then None else ubyte v b x.
Proof.
  intros Hok Hl Hm [D1 D2 D3 D4 _ D5 D6] Hx. pose proof (proj1 (user_addr_page x) Hx) as Hq.
  destruct (user_page_path _ Hq) as (Hr & _). rewrite (ubyte_page o'), (ubyte_page o), D4 by auto. unfold PAGE_SIZE.
  destruct (decide (Space b = Space a /\ base m / 4096 <= x / 4096 < base m / 4096 + pages m)) as [[[= ->] ?] | Hn].
  { rewrite decide_True by (split; [done | zlia]). done. }
  rewrite decide_False by (intros [-> ?]; apply Hn; split; [done | zlia]).
  destruct (page v (Space b) (x / 4096)) as [e |] eqn:E; [| done]. cbn. f_equal.
  destruct (page_frame o v b _ e Hok Hq E) as (g & Ef & Hu & Hnt). apply (D5 g); [done | done | rewrite Ef; zlia].
Qed.

(** shm_unmap() takes out the mapping that starts at the address, and only
    that one: the program sees nothing there any more, every other byte of it and
    of other processes is as before, the reference is given back, the frames are
    freed exactly when it was the last, and the table still agrees with the page
    tables.  Where no mapping starts at the address nothing changes and the call
    reports -W_EINVAL. *)
Theorem shm_unmap_correct o v a maps objs addr :
  vm_ok o v -> live v a -> shm_window o v a maps objs ->
  (exists i m p s o' objs' v', maps !! i = Some m /\ shm m = Some p /\ base m = addr /\ objs !! p = Some s /\
     shm_unmap (Space a) addr maps objs v = Ret (0, <[i := Mapping None (base m) (pages m)]> maps, objs', v') /\
     dropped o v a m p s objs o' v' objs' /\ shm_window o' v' a (<[i := Mapping None (base m) (pages m)]> maps) objs' /\
     forall b x, live v b -> user_addr x ->
       ubyte v' b x = if decide (b = a /\ addr <= x < addr + pages m * PAGE_SIZE) then None else ubyte v b x) \/
  (shm_unmap (Space a) addr maps objs v = Ret (- W_EINVAL, maps, objs, v) /\
   forall m, m ∈ maps -> shm m <> None -> base m <> addr).
Proof.
  intros Hok Hl Hw. destruct (list_find (fun m => shm m <> None /\ base m = addr) maps) as [[i m] |] eqn:Ef.
  - left. pose proof Ef as (Em & [Hs Hb] & _)%list_find_Some. destruct (shm m) as [p |] eqn:Es; [| done].
    destruct (unmap_slot o v a maps objs i m p) as (s & o' & objs' & v' & Ep & E & Hd & Hw'); try done.
    exists i, m, p, s, o', objs', v'. rewrite <- Hb. repeat (split; [done |]). intros b x Hlb Hx.
    destruct (w_map _ _ _ _ _ Hw i m p Em Es) as (_ & Hm & _). by apply (dropped_bytes o v a m p s objs o' v' objs').
  - right. unfold shm_unmap. rewrite Ef. split; [done |]. intros m Hin Hs Hb.
    pose proof (proj1 (list_find_None _ _) Ef) as Hall. by apply (proj1 (Forall_forall _ _) Hall m Hin).
Qed.

(** ** All of them *)

(** The objects after [n] references to [s] went. *)
Definition refs_less (s : Shm.shm) (n : nat) : option Shm.shm :=
  if decide (Shm.refs s = Z.of_nat n) then None else Some (Shm.Shm (Shm.refs s - Z.of_nat n) (Shm.pages s) (Shm.frame s)).

Lemma refs_less_zero s : 0 < Shm.refs s -> refs_less s 0 = Some s.
Proof. intros H. unfold refs_less. rewrite decide_False by lia. destruct s. cbn. by rewrite Z.sub_0_r. Qed.

Lemma dropped_objs o v a m p s objs o' v' objs' p' :
  objs !! p = Some s -> dropped o v a m p s objs o' v' objs' ->
  objs' !! p' = if decide (p' = p) then refs_less s 1 else objs !! p'.
Proof.
  intros Ep [_ _ _ _ _ _ D]. unfold refs_less.
  destruct (decide (Shm.refs s = 1)) as [Hr | Hr], (decide (p' = p)) as [-> | Hne]; destruct D as (-> & _).
  - rewrite decide_True by done. apply lookup_delete_eq.
  - by rewrite lookup_delete_ne.
  - rewrite decide_False by done. by rewrite lookup_insert_eq.
  - by rewrite lookup_insert_ne.
Qed.

(** Frame [g] belongs to an object all of whose references are mappings of this
    table. *)
Definition last_held (maps : list mapping) (objs : objects) (g : Z) : Prop :=
  exists p s, objs !! p = Some s /\ Shm.refs s = Z.of_nat (uses maps p) /\ g * 4096 ∈ Shm.frame s.

(** What the loop leaves: an empty window, of each object what other names still
    hold, the frames of the objects nobody holds free and no other, and the bytes
    of all others as they were; page tables aside, which lose their entries. *)
Record emptied (o : Z -> Prop) (v : vm) (a : Z) (maps : list mapping) (objs : objects) (o' : Z -> Prop) (v' : vm)
    (maps' : list mapping) (objs' : objects) : Prop := {
  e_ok : vm_ok o' v';
  e_live : forall b, live v b -> live v' b;
  e_window : shm_window o' v' a maps' objs';
  e_slots : Forall (fun m => shm m = None) maps';
  e_page : forall t q, 0 <= q < 2 ^ 36 -> page v' t q = if decide (t = Space a /\ window_page q) then None else page v t q;
  e_objs : forall p, objs' !! p = s ← objs !! p; refs_less s (uses maps p);
  e_frames : forall g, in_use v' g <-> in_use v g /\ ~ last_held maps objs g;
  e_other : forall g, o' g <-> o g /\ ~ last_held maps objs g;
  e_tables : forall g, is_table v' g -> is_table v g;
  e_bytes : forall g x, in_use v' g -> ~ is_table v g -> g * 4096 <= x < g * 4096 + 4096 ->
    byte_at (memory v') x = byte_at (memory v) x;
  e_cpus : cpus v' = cpus v;
}.

Lemma uses_none maps p : Forall (fun m => shm m = None) maps -> uses maps p = 0%nat.
Proof.
  intros H. unfold uses. rewrite (proj2 (length_zero_iff_nil _)); [done |]. induction H as [| m l Hm _ IH]; [done |].
  rewrite filter_cons, decide_False by congruence. done.
Qed.

(** Nothing mapped: nothing to do. *)
Lemma emptied_none o v a maps objs :
  vm_ok o v -> shm_window o v a maps objs -> Forall (fun m => shm m = None) maps -> emptied o v a maps objs o v maps objs.
Proof.
  intros Hok Hw Hn. assert (Hnone : forall g, ~ last_held maps objs g).
  { intros g (p & s & Ep & Hr & _). rewrite uses_none in Hr by done. destruct (w_obj _ _ _ _ _ Hw p s Ep) as [[_ _ H _ _] _]. lia. }
  split; try done.
  - intros t q Hq. case_decide as Hd; [| done]. destruct Hd as [-> Hwin].
    destruct (page v (Space a) q) as [e |] eqn:E; [| done].
    apply (w_page _ _ _ _ _ Hw q e Hwin) in E as (f & (j & x & p & s & Ex & Hx & _) & _).
    pose proof (proj1 (Forall_lookup _ _) Hn j x Ex). congruence.
  - intros p. destruct (objs !! p) as [s |] eqn:Ep; [| done]. cbn. rewrite uses_none by done.
    destruct (w_obj _ _ _ _ _ Hw p s Ep) as [[_ _ H _ _] _]. by rewrite refs_less_zero.
  - intros g. split; [intros Hg; split; [done | by apply Hnone] | by intros [? _]].
  - intros g. split; [intros Hg; split; [done | by apply Hnone] | by intros [? _]].
Qed.

Lemma refs_less_add s n s' : 0 < Shm.refs s -> (1 + n <= Z.to_nat (Shm.refs s))%nat ->
  refs_less s 1 = Some s' -> refs_less s' n = refs_less s (S n).
Proof.
  intros H Hn. unfold refs_less. case_decide; [done |]. intros [= <-]. cbn [Shm.refs Shm.pages Shm.frame].
  repeat case_decide; try lia; [done |]. do 2 f_equal. lia.
Qed.

Lemma last_held_step o v a maps objs i m p s o1 v1 objs1 g :
  shm_window o v a maps objs -> maps !! i = Some m -> shm m = Some p -> objs !! p = Some s ->
  dropped o v a m p s objs o1 v1 objs1 ->
  last_held maps objs g <-> (Shm.refs s = 1 /\ g * 4096 ∈ Shm.frame s) \/ last_held (<[i := Mapping None (base m) (pages m)]> maps) objs1 g.
Proof.
  intros Hw Em Es Ep Hd. destruct (w_obj _ _ _ _ _ Hw p s Ep) as [[_ _ H _ _] Hle].
  pose proof (uses_clear maps i m p p Em Es) as Hup. rewrite decide_True in Hup by done.
  assert (Hsame : forall p', p' <> p -> uses (<[i := Mapping None (base m) (pages m)]> maps) p' = uses maps p').
  { intros p' Hne. pose proof (uses_clear maps i m p p' Em Es) as Hu. rewrite decide_False in Hu by done. lia. }
  pose proof (fun p' => dropped_objs o v a m p s objs o1 v1 objs1 p' Ep Hd) as Ho. split.
  - intros (p' & s' & Ep' & Hr & Hg). destruct (decide (p' = p)) as [-> | Hne].
    + assert (s' = s) as -> by congruence. destruct (decide (Shm.refs s = 1)) as [Hr1 | Hr1]; [by left | right].
      exists p, (Shm.Shm (Shm.refs s - Z.of_nat 1) (Shm.pages s) (Shm.frame s)). rewrite Ho, decide_True by done.
      unfold refs_less. rewrite decide_False by done. split; [done |]. split; [cbn; lia | done].
    + right. exists p', s'. rewrite Ho, decide_False, Hsame by done. done.
  - intros [[Hr Hg] | (p' & s' & Ep' & Hr & Hg)]; [exists p, s; split; [done |]; split; [lia | done] |].
    rewrite Ho in Ep'. destruct (decide (p' = p)) as [-> | Hne]; [| exists p', s'; by rewrite <- Hsame].
    unfold refs_less in Ep'. destruct (decide (Shm.refs s = Z.of_nat 1)) as [| Hr1]; [done |]. injection Ep' as <-. cbn in Hr, Hg.
    exists p, s. split; [done |]. split; [lia | done].
Qed.

(** The frames and the bytes after one mapping went. *)
Lemma dropped_frames o v a m p s objs o1 v1 objs1 : dropped o v a m p s objs o1 v1 objs1 ->
  (forall g, in_use v1 g <-> in_use v g /\ ~ (Shm.refs s = 1 /\ g * 4096 ∈ Shm.frame s)) /\
  (forall g, o1 g <-> o g /\ ~ (Shm.refs s = 1 /\ g * 4096 ∈ Shm.frame s)).
Proof.
  intros Hd. pose proof (d_refs _ _ _ _ _ _ _ _ _ _ Hd) as D. case_decide as Hr.
  - destruct D as (_ & Ho & Hu). split; intros g; [rewrite Hu | rewrite Ho; unfold less]; tauto.
  - destruct D as (_ & Ho & Hf). split; intros g; [rewrite Hf | rewrite Ho]; tauto.
Qed.

(** The first mapping, then the others. *)
Lemma emptied_step o v a maps objs i m p s o1 v1 objs1 o' v' maps' objs' :
  shm_window o v a maps objs -> maps !! i = Some m -> shm m = Some p -> objs !! p = Some s ->
  dropped o v a m p s objs o1 v1 objs1 ->
  emptied o1 v1 a (<[i := Mapping None (base m) (pages m)]> maps) objs1 o' v' maps' objs' ->
  emptied o v a maps objs o' v' maps' objs'.
Proof.
  intros Hw Em Es Ep Hd [A1 A2 A3 A4 A5 A6 A7 A8 A9 A10 A11].
  pose proof (fun g => last_held_step o v a maps objs i m p s o1 v1 objs1 g Hw Em Es Ep Hd) as Hlast.
  destruct (dropped_frames _ _ _ _ _ _ _ _ _ _ Hd) as [Hfr Hot]. split; try done.
  - intros b Hb. apply A2. by apply (d_live _ _ _ _ _ _ _ _ _ _ Hd).
  - intros t q Hq. rewrite A5, (d_page _ _ _ _ _ _ _ _ _ _ Hd) by done.
    destruct (decide (t = Space a /\ window_page q)) as [| Hn]; [done |].
    rewrite decide_False; [done |]. intros [-> Hr]. apply Hn. split; [done |].
    destruct (w_map _ _ _ _ _ Hw i m p Em Es) as ((B1 & B2 & B3) & B4 & _).
    unfold window_page, USER_MMAP_BASE, USER_MMAP_TOP, PAGE_SIZE in *. zlia.
  - intros p'. rewrite A6, (dropped_objs o v a m p s objs o1 v1 objs1 p' Ep Hd).
    pose proof (uses_clear maps i m p p' Em Es) as Hu. destruct (decide (p' = p)) as [-> | Hne].
    2: { by rewrite Nat.add_0_r in Hu; rewrite Hu. }
    rewrite Ep. cbn. destruct (w_obj _ _ _ _ _ Hw p s Ep) as [[_ _ H _ _] Hle]. rewrite <- Hu, Nat.add_1_r.
    destruct (refs_less s 1) as [s' |] eqn:E1; [cbn; apply refs_less_add; [done | lia | done] |].
    cbn. unfold refs_less in *. destruct (decide (Shm.refs s = Z.of_nat 1)); [| done].
    by rewrite decide_True by lia.
  - intros g. rewrite A7, Hfr, Hlast. tauto.
  - intros g. rewrite A8, Hot, Hlast. tauto.
  - intros g Hg. by apply (d_tables _ _ _ _ _ _ _ _ _ _ Hd), A9.
  - intros g x Hg Ht Hx. pose proof Hg as [Hg1 _]%A7. rewrite A10 with g x by (auto; intros ?%(d_tables _ _ _ _ _ _ _ _ _ _ Hd); done).
    apply (d_bytes _ _ _ _ _ _ _ _ _ _ Hd g); [by apply Hfr in Hg1 as [? _] | done | done].
  - by rewrite A11, (d_cpus _ _ _ _ _ _ _ _ _ _ Hd).
Qed.

Lemma unmap_from_spec a n : forall i o v maps objs,
  vm_ok o v -> live v a -> shm_window o v a maps objs -> (i + n = SHM_MAX_MAPPINGS)%nat ->
  (forall j m, (j < i)%nat -> maps !! j = Some m -> shm m = None) ->
  exists o' v' maps' objs', unmap_from n i (Space a) maps objs v = Ret (maps', objs', v') /\ emptied o v a maps objs o' v' maps' objs'.
Proof.
  induction n as [| n IH]; intros i o v maps objs Hok Hl Hw Hi Hbelow; cbn [unmap_from].
  { exists o, v, maps, objs. split; [done |]. apply emptied_none; [done | done |]. apply Forall_lookup_2. intros j m E.
    apply (Hbelow j m); [| done]. apply lookup_lt_Some in E. rewrite (w_len _ _ _ _ _ Hw) in E. lia. }
  destruct (maps !! i) as [[[p |] b c] |] eqn:Em.
  - set (m := Mapping (Some p) b c) in *.
    destruct (unmap_slot o v a maps objs i m p) as (s & o1 & objs1 & v1 & Ep & E & Hd & Hw1); try done.
    change (base m) with b in E at 1. rewrite E. pose proof (lookup_lt_Some _ _ _ Em) as Hlt.
    destruct (IH (S i) o1 v1 (<[i := Mapping None (base m) (pages m)]> maps) objs1) as (o' & v' & maps' & objs' & E' & He); try done.
    + apply Hd. + apply (d_live _ _ _ _ _ _ _ _ _ _ Hd); done. + lia.
    + intros j x Hj Ex. destruct (decide (j = i)) as [-> | Hne].
      * rewrite list_lookup_insert_eq in Ex by done. injection Ex as <-. done.
      * rewrite list_lookup_insert_ne in Ex by done. apply (Hbelow j x); [lia | done].
    + exists o', v', maps', objs'. split; [exact E' |]. by apply (emptied_step o v a maps objs i m p s o1 v1 objs1).
  - apply (IH (S i) o v maps objs); try done; [lia |]. intros j x Hj Ex. destruct (decide (j = i)) as [-> | Hne].
    + rewrite Em in Ex. injection Ex as <-. done.
    + apply (Hbelow j x); [lia | done].
  - apply lookup_ge_None in Em. rewrite (w_len _ _ _ _ _ Hw) in Em. lia.
Qed.

(** C20: shm_unmap_all() never panics and empties the table: no page of the window is
    left, every other page of every process is as before, each object has lost the
    references this table held and is gone exactly when it held all of them.  The
    frames of those objects are free and every other frame is in use as before,
    with the same bytes unless it holds a page table.  The pages the process keeps
    show no shared frame, which is what destroying its address space asks for. *)
Theorem shm_unmap_all_correct o v a maps objs :
  vm_ok o v -> live v a -> shm_window o v a maps objs ->
  exists o' v' maps' objs', shm_unmap_all (Space a) maps objs v = Ret (maps', objs', v') /\
    emptied o v a maps objs o' v' maps' objs' /\
    forall q e, own_page q -> page v' (Space a) q = Some e -> ~ o' (FRAME_OF e / 4096).
Proof.
  intros Hok Hl Hw. destruct (unmap_from_spec a SHM_MAX_MAPPINGS 0 o v maps objs) as (o' & v' & maps' & objs' & E & He); try done.
  { intros j m Hj. lia. }
  exists o', v', maps', objs'. split; [exact E |]. split; [done |]. intros q e Hq Eq.
  apply (w_out _ _ _ _ _ (e_window _ _ _ _ _ _ _ _ _ He) q e); [done | | done]. intros Hwin.
  rewrite (e_page _ _ _ _ _ _ _ _ _ He) in Eq by apply Hq. by rewrite decide_True in Eq.
Qed.

(** ** The object of [ShmMap.sample_shm], mapped *)

Import PagingRun (after_boot, with_loaded).

Definition mapped_at (i : nat) : list mapping := <[i := Mapping (Some 1) USER_MMAP_BASE 1]> sample_maps.
Definition mapped_objs : objects := <[1 := Shm.shm_ref sample_shm]> sample_objs.

Lemma sample_mapped : exists i v, (i < SHM_MAX_MAPPINGS)%nat /\ vm_ok (taken (frames after_boot)) v /\ live v 0x8000 /\
  shm_window (taken (frames after_boot)) v 0x8000 (mapped_at i) mapped_objs.
Proof.
  destruct (shm_map_cases (taken (frames after_boot)) with_loaded 0x8000 sample_maps sample_objs 1 sample_shm
    shared_sample_ok PagingRun.sample_space_live sample_window) as (r & addr & maps' & objs' & v & _ & Ht & Hw & H); [reflexivity |].
  assert (Hb : find_region sample_maps (Shm.pages sample_shm) = USER_MMAP_BASE) by (vm_compute; reflexivity).
  cbv zeta in H. rewrite Hb in H. destruct H as [(_ & _ & _ & -> & (i & m & Em & _ & ->) & _) | (_ & _ & _ & _ & H)].
  - exists i, v. split; [apply lookup_lt_Some in Em; exact Em |]. split; [exact (t_ok _ _ _ _ Ht) |].
    split; [exact (t_live _ _ _ _ Ht _ PagingRun.sample_space_live) | exact Hw].
  - exfalso. destruct H as [[_ H] | [_ [H | [Hf Hsp]]]].
    + apply (proj1 (Forall_lookup _ _) H 0%nat (Mapping None 0 0)); reflexivity.
    + discriminate H.
    + exact (sample_enough v Hf Hsp).
Qed.

Lemma mapped_slot i : (i < SHM_MAX_MAPPINGS)%nat -> mapped_at i !! i = Some (Mapping (Some 1) USER_MMAP_BASE 1).
Proof. intros Hi. apply list_lookup_insert_eq. exact Hi. Qed.

Lemma mapped_uses i : (i < SHM_MAX_MAPPINGS)%nat -> uses (mapped_at i) 1 = 1%nat.
Proof.
  intros Hi. assert (Em : sample_maps !! i = Some (Mapping None 0 0)) by (by apply lookup_replicate_2).
  pose proof (uses_insert sample_maps i _ (Mapping (Some 1) USER_MMAP_BASE 1) 1 Em) as H. rewrite sample_uses in H.
  rewrite decide_False in H by done. rewrite decide_True in H by done. unfold mapped_at. lia.
Qed.

Lemma shm_unmap_correct_witness : exists i v maps' objs' v',
  shm_unmap (Space 0x8000) USER_MMAP_BASE (mapped_at i) mapped_objs v = Ret (0, maps', objs', v') /\
  ubyte v' 0x8000 (USER_MMAP_BASE + 5) = None /\ objs' !! 1 = Some sample_shm.
Proof.
  destruct sample_mapped as (i & v & Hi & Hok & Hl & Hw). exists i, v.
  destruct (shm_unmap_correct _ v 0x8000 (mapped_at i) mapped_objs USER_MMAP_BASE Hok Hl Hw)
    as [(j & m & p & s & o' & objs' & v' & Em & Es & Eb & Ep & E & Hd & _ & Hu) | [_ H]].
  - eexists _, objs', v'. split; [exact E |].
    assert (m = Mapping (Some 1) USER_MMAP_BASE 1 /\ p = 1) as [-> ->].
    { unfold mapped_at in Em. destruct (decide (j = i)) as [-> | Hne].
      - rewrite list_lookup_insert_eq in Em by exact Hi. injection Em as <-. injection Es as <-. split; reflexivity.
      - rewrite list_lookup_insert_ne in Em by congruence. apply sample_slot in Em as ->. discriminate Es. }
    split.
    + rewrite Hu; [| exact Hl | unfold user_addr, USER_MMAP_BASE, USER_BASE, DEVICE_WINDOW; lia].
      rewrite decide_True by (split; [reflexivity | cbn [pages]; unfold PAGE_SIZE; lia]). reflexivity.
    + rewrite (dropped_objs _ _ _ _ _ s mapped_objs o' v' objs' 1 Ep Hd). injection Ep as <-. reflexivity.
  - exfalso. apply (H (Mapping (Some 1) USER_MMAP_BASE 1)); [| discriminate | reflexivity].
    apply (list_elem_of_lookup_2 _ i), mapped_slot, Hi.
Defined.

Lemma shm_unmap_all_correct_witness : exists i v maps' objs' v',
  shm_unmap_all (Space 0x8000) (mapped_at i) mapped_objs v = Ret (maps', objs', v') /\
  objs' !! 1 = Some sample_shm /\ page v' (Space 0x8000) (USER_MMAP_BASE / 4096) = None.
Proof.
  destruct sample_mapped as (i & v & Hi & Hok & Hl & Hw). exists i, v.
  destruct (shm_unmap_all_correct _ v 0x8000 (mapped_at i) mapped_objs Hok Hl Hw) as (o' & v' & maps' & objs' & E & He & _).
  exists maps', objs', v'. split; [exact E |]. split.
  - rewrite (e_objs _ _ _ _ _ _ _ _ _ He). rewrite mapped_uses by exact Hi. reflexivity.
  - rewrite (e_page _ _ _ _ _ _ _ _ _ He) by (unfold USER_MMAP_BASE; zlia). apply decide_True. split; [reflexivity |].
    unfold window_page, USER_MMAP_BASE, USER_MMAP_TOP. zlia.
Defined.

End ShmUnmap.
