(* ===== verification/Dma.v ===== *)
(** DMA buffers, [kernel/mm/dma.c]: runs of frames of [Pmm] below the identity
    map, cleared with the [memset] of [KString], and the count of the bytes that
    are out. *)

From S2P Require Import Prelude Pmm KString Shm.

Module Dma.

(** [dma_buffer_t]; a NULL pointer is 0. *)
Record dma_buffer := Buf { virt : Z; phys : Z; bytes : Z }.

Definition NO_BUFFER : dma_buffer := Buf 0 0 0.

(** What the calls work on: the frames, memory, and [outstanding]. *)
Record dma := Dma { frames : Pmm.pmm; memory : KString.mem; outstanding : Z }.

(** [while (align_frames < pages) align_frames *= 2], [n] turns at most. *)
Fixpoint round_loop (n : nat) (align_frames pages : Z) : Z :=
  match n with
  | O => align_frames
  | S n => if align_frames <? pages then round_loop n (u64 (align_frames * 2)) pages else align_frames
  end.

Definition align_of (align : Z) : Z :=
  if PAGE_SIZE <? align then round_loop 64 1 (ALIGN_UP align PAGE_SIZE / PAGE_SIZE) else 1.

Definition dma_alloc (n align : Z) (d : dma) : dma_buffer * dma :=
  if n =? 0 then (NO_BUFFER, d)
  else
    let size := ALIGN_UP n PAGE_SIZE in
    let '(p, f) := Pmm.pmm_alloc_contiguous (size / PAGE_SIZE) (align_of align) (frames d) in
    if p =? 0 then (NO_BUFFER, Dma f (memory d) (outstanding d))
    else (Buf p p size, Dma f (KString.memset p 0 size (memory d)) (u64 (outstanding d + size))).

(** The buffer behind the pointer afterwards, and the state; [None] is a NULL
    pointer. *)
Definition dma_free (b : option dma_buffer) (d : dma) : res (option dma_buffer * dma) :=
  match b with
  | None => Ret (None, d)
  | Some b =>
      if virt b =? 0 then Ret (Some b, d)
      else
        match Pmm.pmm_free_contiguous (phys b) (bytes b / PAGE_SIZE) (frames d) with
        | Panic => Panic
        | Ret f => Ret (Some NO_BUFFER, Dma f (memory d) (u64 (outstanding d - bytes b)))
        end
  end.

Definition dma_used_bytes (d : dma) : Z := outstanding d.

(** ** The alignment *)

Lemma round_loop_spec n : forall j pages,
  0 <= j -> pages <= 2 ^ 52 -> j <= 52 -> 52 - j < Z.of_nat n -> (j = 0 \/ 2 ^ (j - 1) < pages) ->
  exists k, 0 <= k <= 52 /\ round_loop n (2 ^ j) pages = 2 ^ k /\ pages <= 2 ^ k /\ (k = 0 \/ 2 ^ (k - 1) < pages).
Proof.
  induction n as [| n IH]; intros j pages Hj Hp Hj2 Hn Hlow; cbn [round_loop]; [lia |].
  destruct (Z.ltb_spec (2 ^ j) pages) as [Hlt | Hge].
  - assert (j < 52) by (destruct (Z.eq_dec j 52) as [-> |]; lia).
    assert (Hs : 2 ^ (j + 1) = 2 ^ j * 2) by (rewrite Z.pow_add_r; lia).
    assert (2 ^ j <= 2 ^ 52) by (apply Z.pow_le_mono_r; lia).
    rewrite u64_id by (pose proof (Z.pow_pos_nonneg 2 j); lia). rewrite <- Hs.
    apply IH; try lia. right. by replace (j + 1 - 1) with j by lia.
  - exists j. split; [lia |]. by split.
Qed.

Lemma align_page x : 0 <= x -> x + 4095 < 2 ^ 64 -> ALIGN_UP x PAGE_SIZE = (x + 4095) / 4096 * 4096.
Proof. intros. change PAGE_SIZE with (2 ^ 12). rewrite ALIGN_UP_pow2; [done | unfold is_u64; lia..]. Qed.

(** The least power of two of pages that is no less than what was asked for. *)
Lemma align_of_spec align :
  0 <= align -> align + 4095 < 2 ^ 64 ->
  exists k, 0 <= k <= 52 /\ align_of align = 2 ^ k /\ align <= 2 ^ k * PAGE_SIZE /\
    (k = 0 \/ 2 ^ (k - 1) * PAGE_SIZE < align).
Proof.
  intros H0 H1. unfold align_of. destruct (Z.ltb_spec PAGE_SIZE align) as [Hlt | Hge].
  2: { exists 0. split; [lia |]. split; [done |]. split; [lia | by left]. }
  rewrite align_page by done. unfold PAGE_SIZE in *. rewrite Z.div_mul by done.
  destruct (round_loop_spec 64 0 ((align + 4095) / 4096)) as (k & Hk & E & Hle & Hlow); [lia | zlia | lia | lia | by left |].
  exists k. split; [done |]. split; [exact E |]. split; [zlia |]. destruct Hlow; [by left | right; zlia].
Qed.

(** ** One call *)

(** Memory with [n] bytes from [a] cleared. *)
Definition cleared (a n : Z) (m m' : KString.mem) : Prop :=
  forall x, m' x = if decide (a <= x < a + n) then 0 else m x.

Lemma dma_alloc_cases n align d :
  Pmm.wf (frames d) -> 0 <= n -> n + 4095 < 2 ^ 64 -> 0 <= align -> align + 4095 < 2 ^ 64 ->
  let count := (n + 4095) / 4096 in
  let '(b, d') := dma_alloc n align d in
  exists k, 0 <= k <= 52 /\ align <= 2 ^ k * PAGE_SIZE /\ (k = 0 \/ 2 ^ (k - 1) * PAGE_SIZE < align) /\
  ((b = NO_BUFFER /\ d' = d /\ (n = 0 \/ forall s, ~ Pmm.free_run (frames d) (2 ^ k) (Pmm.low_limit (frames d)) count s)) \/
   exists s, Pmm.free_run (frames d) (2 ^ k) (Pmm.low_limit (frames d)) count s /\ 0 < count /\
     b = Buf (s * PAGE_SIZE) (s * PAGE_SIZE) (count * PAGE_SIZE) /\
     Pmm.takes_run (frames d) (frames d') s count /\ cleared (s * PAGE_SIZE) (count * PAGE_SIZE) (memory d) (memory d') /\
     outstanding d' = u64 (outstanding d + count * PAGE_SIZE)).
Proof.
  intros Hwf H0 H1 Ha0 Ha1 count. destruct (align_of_spec align Ha0 Ha1) as (k & Hk & Ek & Hle & Hlow).
  unfold dma_alloc. destruct (Z.eqb_spec n 0) as [-> | Hn].
  { exists k. repeat (split; [done |]). left. split; [done |]. split; [done | by left]. }
  rewrite Ek, align_page by done. fold count. unfold PAGE_SIZE in *. rewrite Z.div_mul by done.
  assert (Hc : 0 < count < 2 ^ 63) by (unfold count; zlia).
  pose proof (Pmm.pmm_alloc_contiguous_cases (frames d) count k Hwf Hc ltac:(lia)) as H.
  destruct (Pmm.pmm_alloc_contiguous count (2 ^ k) (frames d)) as [p f].
  destruct H as [(-> & -> & Hnone) | (s & Hrun & -> & Ht)]; unfold PAGE_SIZE in *.
  - cbn [Z.eqb]. exists k. repeat (split; [done |]). left. split; [done |]. split; [by destruct d | by right].
  - pose proof Hrun as (_ & ? & _). destruct (Z.eqb_spec (s * 4096) 0); [lia |].
    exists k. repeat (split; [done |]). right. exists s. cbn [frames memory outstanding].
    split; [done |]. split; [lia |]. split; [done |]. split; [done |]. split; [| done]. intros x.
    rewrite KString.memset_spec by lia. unfold KString.filled. case_decide;
      destruct (Z.leb_spec (s * 4096) x), (Z.ltb_spec x (s * 4096 + count * 4096)); cbn [andb]; lia || done.
Qed.

(** Freeing one frame, with the counter. *)
Lemma free_frame_spec p g :
  Pmm.pmm_inv p -> 0 < g < Pmm.total_frames p -> Pmm.used p g = true ->
  exists p', Pmm.pmm_free_frame (g * PAGE_SIZE) p = Ret p' /\ Pmm.pmm_inv p' /\
    Pmm.total_frames p' = Pmm.total_frames p /\ Pmm.used_frames p' = Pmm.used_frames p - 1 /\
    forall h, 0 <= h -> Pmm.used p' h = (Pmm.used p h && negb (h =? g))%bool.
Proof.
  intros Hp Hg Hu. destruct (Shm.free_one p g Hp Hg Hu) as (p' & E & Hp' & Ht & Hu'). exists p'. repeat (split; [done |]).
  split; [| done]. pose proof (Pmm.pmm_free_frame_cases p (g * PAGE_SIZE) (proj1 Hp) ltac:(unfold PAGE_SIZE; lia)) as H.
  rewrite E, Z.div_mul in H by done. destruct H as [[? _] | (_ & _ & _ & _ & H & _)]; [lia | done].
Qed.

Lemma free_run_spec n : forall a p,
  Pmm.pmm_inv p -> 0 < a -> (forall g, a <= g < a + Z.of_nat n -> 0 < g < Pmm.total_frames p /\ Pmm.used p g = true) ->
  exists p', Pmm.pmm_free_run n (a * PAGE_SIZE) p = Ret p' /\ Pmm.pmm_inv p' /\
    Pmm.total_frames p' = Pmm.total_frames p /\ Pmm.used_frames p' = Pmm.used_frames p - Z.of_nat n /\
    forall h, 0 <= h -> Pmm.used p' h = true <-> Pmm.used p h = true /\ ~ a <= h < a + Z.of_nat n.
Proof.
  induction n as [| n IH]; intros a p Hp Ha Hall; cbn [Pmm.pmm_free_run].
  { exists p. split; [done |]. split; [done |]. split; [done |]. split; [lia |]. intros h Hh.
    split; [intros H; split; [done | lia] | by intros [? _]]. }
  destruct (Hall a ltac:(lia)) as [Hr Hu]. destruct (free_frame_spec p a Hp Hr Hu) as (p1 & -> & Hp1 & Ht1 & Hc1 & Hu1).
  pose proof (Pmm.wf_total _ (proj1 Hp)) as Htot.
  replace (u64 (a * PAGE_SIZE + PAGE_SIZE)) with ((a + 1) * PAGE_SIZE) by (rewrite u64_id; unfold PAGE_SIZE; lia).
  destruct (IH (a + 1) p1 Hp1) as (p' & -> & Hp' & Ht & Hc & Hu'); [lia | |].
  - intros g Hg. destruct (Hall g ltac:(lia)) as [? Hug]. rewrite Ht1, Hu1, Hug by lia. split; [done |].
    by destruct (Z.eqb_spec g a); [lia |].
  - exists p'. split; [done |]. split; [done |]. split; [congruence |]. split; [lia |]. intros h Hh.
    rewrite Hu', Hu1, andb_true_iff, negb_true_iff, Z.eqb_neq by done.
    split; [intros [[? ?] ?]; split; [done | lia] | intros [? ?]; split; [split; [done | lia] | lia]].
Qed.

(** ** The buffers that are out *)

(** Frame [g] is one of [b]'s. *)
Definition inside (b : dma_buffer) (g : Z) : Prop := phys b <= g * PAGE_SIZE < phys b + bytes b.

Fixpoint total_bytes (l : list dma_buffer) : Z :=
  match l with [] => 0 | b :: l => bytes b + total_bytes l end.

#[global] Instance total_bytes_perm : Proper ((≡ₚ) ==> (=)) total_bytes.
Proof. intros l1 l2 H. induction H as [| b l1 l2 _ IH | b c l | l1 l2 l3 _ IH1 _ IH2]; cbn [total_bytes]; lia. Qed.

(** One call: a buffer is asked for, or one that is out is given back. *)
Inductive step : dma * list dma_buffer -> dma * list dma_buffer -> Prop :=
| step_alloc n align d l b d' :
    0 <= n -> n + 4095 < 2 ^ 64 -> 0 <= align -> align + 4095 < 2 ^ 64 -> dma_alloc n align d = (b, d') ->
    step (d, l) (d', if virt b =? 0 then l else b :: l)
| step_free b d l d' l' r :
    l ≡ₚ b :: l' -> dma_free (Some b) d = Ret (r, d') -> step (d, l) (d', l').

(** The frames in use are those that were in [d0] and those of the buffers out,
    which overlap neither these nor each other; the count is exact. *)
Record dma_inv (d0 d : dma) (l : list dma_buffer) : Prop := {
  di_pmm : Pmm.pmm_inv (frames d);
  di_frames : Pmm.total_frames (frames d) = Pmm.total_frames (frames d0);
  di_used : forall g, 0 <= g -> Pmm.used (frames d) g = true <-> Pmm.used (frames d0) g = true \/ exists b, b ∈ l /\ inside b g;
  di_buf : forall b, b ∈ l -> exists s n, 0 < s /\ 0 < n /\ b = Buf (s * PAGE_SIZE) (s * PAGE_SIZE) (n * PAGE_SIZE) /\
    s + n <= Pmm.low_limit (frames d) /\ forall g, s <= g < s + n -> Pmm.used (frames d0) g = false;
  di_apart : forall b c g, b ∈ l -> c ∈ l -> inside b g -> inside c g -> b = c;
  di_once : NoDup l;
  di_sum : outstanding d = total_bytes l;
  di_count : outstanding d = (Pmm.used_frames (frames d) - Pmm.used_frames (frames d0)) * PAGE_SIZE;
}.

Lemma inside_page s n g : inside (Buf (s * PAGE_SIZE) (s * PAGE_SIZE) (n * PAGE_SIZE)) g <-> s <= g < s + n.
Proof. unfold inside, PAGE_SIZE. cbn. lia. Qed.

Lemma total_nonneg l : (forall b, b ∈ l -> 0 <= bytes b) -> 0 <= total_bytes l.
Proof.
  induction l as [| b l IH]; intros H; cbn [total_bytes]; [lia |]. pose proof (H b ltac:(by left)).
  assert (0 <= total_bytes l); [| lia]. apply IH. intros c Hc. apply H. by right.
Qed.

Lemma used_le p : Pmm.wf p -> 0 <= Pmm.used_frames p <= Pmm.total_frames p.
Proof.
  intros Hwf. rewrite (Pmm.wf_used _ Hwf). pose proof (countb_bounds (Pmm.used p) (Pmm.frames p)) as Hb.
  assert (Hl : Zlen (Pmm.frames p) = Pmm.total_frames p)
    by (unfold Zlen, Pmm.frames; rewrite length_seqZ; pose proof (Pmm.wf_total _ Hwf); lia). lia.
Qed.

Lemma total_pos d0 d l : dma_inv d0 d l -> 0 <= total_bytes l.
Proof.
  intros Hi. apply total_nonneg. intros c Hc. destruct (di_buf _ _ _ Hi c Hc) as (s & n & _ & ? & -> & _). unfold PAGE_SIZE. cbn. lia.
Qed.

Lemma dma_alloc_inv d0 d l n align b d' :
  dma_inv d0 d l -> 0 <= Pmm.used_frames (frames d0) ->
  0 <= n -> n + 4095 < 2 ^ 64 -> 0 <= align -> align + 4095 < 2 ^ 64 -> dma_alloc n align d = (b, d') ->
  dma_inv d0 d' (if virt b =? 0 then l else b :: l).
Proof.
  intros Hinv Hu0 H0 H1 Ha0 Ha1 E. pose proof Hinv as [I1 I2 I3 I4 I5 I6 I7 I8]. pose proof I1 as (Hwf & Hpos & Hz).
  pose proof (dma_alloc_cases n align d Hwf H0 H1 Ha0 Ha1) as H. cbv zeta in H. rewrite E in H.
  destruct H as (k & _ & _ & _ & [(-> & -> & _) | (s & (_ & Hs & Hlim & Hfree) & Hc & -> & (Hwf' & Hcnt & Hbm & Hused) & _ & Hout)]).
  { done. }
  set (count := (n + 4095) / 4096) in *. cbn [virt]. destruct (Z.eqb_spec (s * PAGE_SIZE) 0) as [E0 | _]; [unfold PAGE_SIZE in E0; lia |].
  assert (Htot : Pmm.total_frames (frames d') = Pmm.total_frames (frames d)) by (by rewrite Hbm).
  pose proof (used_le _ Hwf') as Hfull. pose proof (total_pos d0 d l Hinv) as Hpos'.
  pose proof (Pmm.wf_total _ Hwf') as Ht.
  assert (Hsum : outstanding d' = outstanding d + count * PAGE_SIZE) by (rewrite Hout, u64_id; [done | unfold PAGE_SIZE in *; lia]).
  assert (Hu : forall g, 0 <= g -> Pmm.used (frames d') g = true <-> Pmm.used (frames d) g = true \/ s <= g < s + count).
  { intros g Hg. rewrite Hused, orb_true_iff, andb_true_iff, Z.leb_le, Z.ltb_lt by done. done. }
  assert (Hnew : forall g, 0 <= g -> s <= g < s + count -> Pmm.used (frames d0) g = false /\ forall c, c ∈ l -> ~ inside c g).
  { intros g Hg Hr. specialize (Hfree g Hr). split.
    - apply not_true_iff_false. intros Hug. assert (Pmm.used (frames d) g = true) by (apply I3; [done | by left]). congruence.
    - intros c Hin Hins. assert (Pmm.used (frames d) g = true) by (apply I3; [done | right; by exists c]). congruence. }
  split.
  - split; [done |]. split; [lia |]. apply Hu; [done | by left].
  - congruence.
  - intros g Hg. rewrite Hu, I3 by done. setoid_rewrite elem_of_cons. rewrite <- (inside_page s count g). naive_solver.
  - assert (Hlow : Pmm.low_limit (frames d') = Pmm.low_limit (frames d)) by (unfold Pmm.low_limit; by rewrite Htot).
    intros c [-> | Hin]%elem_of_cons; rewrite Hlow; [| by apply I4].
    exists s, count. split; [lia |]. split; [lia |]. split; [done |]. split; [done |]. intros g Hg. by apply Hnew; [lia |].
  - assert (Hx : forall c g, c ∈ l -> inside (Buf (s * PAGE_SIZE) (s * PAGE_SIZE) (count * PAGE_SIZE)) g -> inside c g -> False).
    { intros c g Hin Hb. apply (proj1 (inside_page _ _ _)) in Hb. apply (Hnew g); [lia | done | done]. }
    intros c1 c2 g [-> | H1']%elem_of_cons [-> | H2']%elem_of_cons G1 G2; [done | | | by apply (I5 c1 c2 g)].
    + destruct (Hx c2 g H2' G1 G2).
    + destruct (Hx c1 g H1' G2 G1).
  - apply NoDup_cons. split; [| done]. intros Hin. apply (proj2 (Hnew s ltac:(lia) ltac:(lia)) _ Hin). apply inside_page. lia.
  - cbn [total_bytes bytes]. lia.
  - lia.
Qed.

(** Giving back a buffer that is out. *)
Lemma free_inv d0 d l l' b :
  dma_inv d0 d l -> 0 <= Pmm.used_frames (frames d0) -> l ≡ₚ b :: l' ->
  exists d', dma_free (Some b) d = Ret (Some NO_BUFFER, d') /\ dma_inv d0 d' l' /\ memory d' = memory d.
Proof.
  intros [I1 I2 I3 I4 I5 I6 I7 I8] Hu0 Hl. rewrite Hl in I6, I7. apply NoDup_cons in I6 as [Hni Hnd].
  assert (Hin : forall c, c ∈ l <-> c = b \/ c ∈ l') by (intros c; rewrite Hl; apply elem_of_cons).
  pose proof (I4 b ltac:(apply Hin; by left)) as (s & n & Hs & Hn & Eb & Hlim & Hfree).
  pose proof (Pmm.low_limit_spec _ (proj1 I1)) as Hll. pose proof (Pmm.wf_total _ (proj1 I1)) as Ht.
  pose proof (used_le _ (proj1 I1)) as Hle.
  assert (Hpos : 0 <= total_bytes l').
  { apply total_nonneg. intros c Hc. destruct (I4 c ltac:(apply Hin; by right)) as (s' & n' & _ & ? & -> & _).
    unfold PAGE_SIZE. cbn. lia. }
  subst b. unfold dma_free. cbn [virt phys bytes total_bytes] in *.
  destruct (Z.eqb_spec (s * PAGE_SIZE) 0) as [E0 | _]; [unfold PAGE_SIZE in E0; lia |].
  rewrite Z.div_mul by done. unfold Pmm.pmm_free_contiguous.
  destruct (free_run_spec (Z.to_nat n) s (frames d) I1 Hs) as (p & -> & Hp & Htp & Hcp & Hup).
  { intros g Hg. split; [lia |]. apply I3; [lia |]. right. eexists. split; [apply Hin; by left |]. apply inside_page. lia. }
  rewrite Z2Nat.id in Hcp, Hup by lia. eexists. split; [done |]. split; [| done].
  split; cbn [frames outstanding].
  - done.
  - congruence.
  - intros g Hg. rewrite Hup, I3 by done. split.
    + intros [[? | (c & [-> | Hc]%Hin & Hg')] Hno]; [by left | destruct Hno; exact (proj1 (inside_page _ _ _) Hg') | right; by exists c].
    + intros [Hug | (c & Hc & Hg')].
      * split; [by left |]. intros Hr. by rewrite (Hfree g Hr) in Hug.
      * split; [right; exists c; split; [apply Hin; by right | done] |]. intros Hr. apply (proj2 (inside_page s n g)) in Hr. apply Hni.
        assert (c = Buf (s * PAGE_SIZE) (s * PAGE_SIZE) (n * PAGE_SIZE)) as <-; [| done].
        apply (I5 _ _ g); [apply Hin; by right | apply Hin; by left | done | done].
  - assert (Hlow : Pmm.low_limit p = Pmm.low_limit (frames d)) by (unfold Pmm.low_limit; by rewrite Htp). rewrite Hlow.
    intros c Hc. apply I4, Hin. by right.
  - intros c1 c2 g H1 H2. apply I5; apply Hin; by right.
  - done.
  - rewrite u64_id; [lia |]. unfold PAGE_SIZE in *. lia.
  - rewrite u64_id; [unfold PAGE_SIZE in *; lia |]. unfold PAGE_SIZE in *. lia.
Qed.

Lemma start_inv d : Pmm.pmm_inv (frames d) -> outstanding d = 0 -> dma_inv d d [].
Proof.
  intros Hp Ho. split; try done.
  - intros g Hg. split; [by left |]. intros [? | (b & Hb & _)]; [done | by apply not_elem_of_nil in Hb].
  - intros b Hb. by apply not_elem_of_nil in Hb.
  - intros b c g Hb. by apply not_elem_of_nil in Hb.
  - apply NoDup_nil_2.
  - rewrite Ho. lia.
Qed.

Lemma dma_steps_inv d0 d l : Pmm.pmm_inv (frames d0) -> outstanding d0 = 0 -> rtc step (d0, []) (d, l) -> dma_inv d0 d l.
Proof.
  intros Hp Ho Hr. pose proof (used_le _ (proj1 Hp)) as [Hu0 _].
  assert (H : forall x y, rtc step x y -> dma_inv d0 x.1 x.2 -> dma_inv d0 y.1 y.2).
  { intros x y H. induction H as [x | x y z Hs _ IH]; [done |]. intros Hx. apply IH.
    destruct Hs as [n align e m b e' ? ? ? ? E | b e m e' m' r Hm E]; cbn [fst snd] in *.
    - by apply (dma_alloc_inv d0 e m n align b e').
    - destruct (free_inv d0 e m m' b Hx Hu0 Hm) as (e1 & E1 & H1 & _). rewrite E in E1. by injection E1 as _ <-. }
  apply (H (d0, []) (d, l) Hr). by apply start_inv.
Qed.

(** C21: Whatever buffers drivers ask for and give back, in any order: a buffer
    is whole pages below the identity map's end, overlaps no other one and nothing
    that was in use before; the frames in use are exactly those of before and those
    of the buffers out, so what is given back is free again; dma_used_bytes() is
    the sum of the buffers out and the rise of the frame counter; and giving back
    a buffer that is out never stops the machine. *)
Theorem dma_reachable_exact d0 d l :
  Pmm.pmm_inv (frames d0) -> outstanding d0 = 0 -> rtc step (d0, []) (d, l) ->
  dma_inv d0 d l /\ dma_used_bytes d = total_bytes l /\
  forall b l', l ≡ₚ b :: l' -> exists d', dma_free (Some b) d = Ret (Some NO_BUFFER, d') /\ dma_inv d0 d' l'.
Proof.
  intros Hp Ho Hr. pose proof (dma_steps_inv d0 d l Hp Ho Hr) as Hi. split; [done |]. split; [apply Hi |]. intros b l' Hl.
  destruct (free_inv d0 d l l' b Hi) as (d' & ? & ? & _); [apply used_le, Hp | done |]. by exists d'.
Qed.

Definition sample_dma : dma := Dma Pmm.sample_pmm (fun _ => 0x5A) 0.

Lemma sample_alloc : (dma_alloc 100 0 sample_dma).1 = Buf (3 * PAGE_SIZE) (3 * PAGE_SIZE) PAGE_SIZE.
Proof. vm_compute. reflexivity. Qed.

Lemma dma_reachable_exact_witness : exists d d',
  dma_inv sample_dma d [Buf (3 * PAGE_SIZE) (3 * PAGE_SIZE) PAGE_SIZE] /\ dma_used_bytes d = 4096 /\
  dma_free (Some (Buf (3 * PAGE_SIZE) (3 * PAGE_SIZE) PAGE_SIZE)) d = Ret (Some NO_BUFFER, d').
Proof.
  destruct (dma_alloc 100 0 sample_dma) as [b d] eqn:E. pose proof sample_alloc as Eb. rewrite E in Eb. cbn [fst] in Eb. subst b.
  destruct (dma_reachable_exact sample_dma d [Buf (3 * PAGE_SIZE) (3 * PAGE_SIZE) PAGE_SIZE]) as (Hi & Hu & Hf).
  - exact Pmm.sample_pmm_inv.
  - reflexivity.
  - apply rtc_once, (step_alloc 100 0 sample_dma [] (Buf (3 * PAGE_SIZE) (3 * PAGE_SIZE) PAGE_SIZE) d); [lia.. | exact E].
  - destruct (Hf _ [] (Permutation_refl _)) as (d' & E' & _). exists d, d'. split; [exact Hi |]. split; [exact Hu | exact E'].
Defined.

(** dma_alloc() returns a run of whole free pages, aligned to the least power of
    two of pages that is no less than [align], cleared and taken, without
    touching another byte; it returns no buffer exactly when none was asked for
    or no such run is free below the identity map's end, and then nothing changed. *)
Theorem dma_alloc_correct n align d :
  Pmm.wf (frames d) -> 0 <= n -> n + 4095 < 2 ^ 64 -> 0 <= align -> align + 4095 < 2 ^ 64 ->
  let count := (n + 4095) / 4096 in
  let '(b, d') := dma_alloc n align d in
  exists k, 0 <= k <= 52 /\ align <= 2 ^ k * PAGE_SIZE /\ (k = 0 \/ 2 ^ (k - 1) * PAGE_SIZE < align) /\
  ((b = NO_BUFFER /\ d' = d /\ (n = 0 \/ forall s, ~ Pmm.free_run (frames d) (2 ^ k) (Pmm.low_limit (frames d)) count s)) \/
   exists s, Pmm.free_run (frames d) (2 ^ k) (Pmm.low_limit (frames d)) count s /\ 0 < count /\
     b = Buf (s * PAGE_SIZE) (s * PAGE_SIZE) (count * PAGE_SIZE) /\
     Pmm.takes_run (frames d) (frames d') s count /\ cleared (s * PAGE_SIZE) (count * PAGE_SIZE) (memory d) (memory d') /\
     outstanding d' = u64 (outstanding d + count * PAGE_SIZE)).
Proof. exact (dma_alloc_cases n align d). Qed.

Lemma dma_alloc_correct_witness : exists d,
  dma_alloc 100 0 sample_dma = (Buf (3 * PAGE_SIZE) (3 * PAGE_SIZE) PAGE_SIZE, d) /\
  memory d 12290 = 0 /\ memory d 20480 = 0x5A /\ Pmm.used (frames d) 3 = true.
Proof.
  pose proof (dma_alloc_correct 100 0 sample_dma (proj1 Pmm.sample_pmm_inv) ltac:(lia) ltac:(lia) ltac:(lia) ltac:(lia)) as H.
  cbv zeta in H. pose proof sample_alloc as Eb. destruct (dma_alloc 100 0 sample_dma) as [b d]. cbn [fst] in Eb. subst b.
  destruct H as (k & _ & _ & _ & [(E & _) | (s & _ & _ & E & (_ & _ & _ & Hu) & Hm & _)]); [discriminate E |].
  exists d. split; [reflexivity |]. assert (s = 3) as -> by (injection E; unfold PAGE_SIZE; lia).
  rewrite !Hm, Hu by lia. split; [reflexivity |]. split; reflexivity.
Defined.

End Dma.
