(* ===== verification/Ramfs.v ===== *)
(** The file system of [/ramdisk], [kernel/fs/ramfs.c]: a tree of nodes linked
    by pointers in the kernel heap, with file contents in frames of [Pmm].

    [node_new] puts every node at its number in [nodes] and no number is used
    twice, so a pointer to a node is modelled as the number of the node, and the
    heap and [nodes] are one map.  Following a pointer to a node that was freed is
    a [Fault]; a walk along pointers that takes more steps than there can be
    nodes is [Spent].  The theorems show that neither happens. *)

From S2P Require Import Prelude Str Ring Pmm KString Path Wfs WfsDir.

Module Ramfs.

Import Str Ring.
Import Path (W_NAME_MAX).
Import Wfs (WFS_TYPE_FILE, WFS_TYPE_DIR, WFS_BLOCK_SIZE).
Import WfsDir (wdirent, WDirent, wdiskinfo, DiskInfo, W_FT_FILE).

Definition RAMFS_MOUNT : list Z := str "/ramdisk".
Definition BLOCK_SIZE : Z := PAGE_SIZE.
Definition MAX_NODES : Z := 1024.
Definition ROOT_INO : Z := 1.
Definition W_FT_DIR : Z := 2.

(** [ramfs_node_t]; [blocks] has [block_count] entries and is NULL when that is
    0. *)
Record node := Node {
  type : Z;
  size : Z;
  mtime : Z;
  name : list Z;
  parent : option Z;
  next : option Z;
  children : option Z;
  blocks : list Z;
}.

Definition with_size x n := Node (type n) x (mtime n) (name n) (parent n) (next n) (children n) (blocks n).
Definition with_mtime x n := Node (type n) (size n) x (name n) (parent n) (next n) (children n) (blocks n).
Definition with_name x n := Node (type n) (size n) (mtime n) x (parent n) (next n) (children n) (blocks n).
Definition with_parent x n := Node (type n) (size n) (mtime n) (name n) x (next n) (children n) (blocks n).
Definition with_next x n := Node (type n) (size n) (mtime n) (name n) (parent n) x (children n) (blocks n).
Definition with_children x n := Node (type n) (size n) (mtime n) (name n) (parent n) (next n) x (blocks n).
Definition with_blocks x n := Node (type n) (size n) (mtime n) (name n) (parent n) (next n) (children n) x.

Notation store := (gmap Z node).

Record ramfs := Ramfs {
  nodes : store;
  next_ino : Z;
  pages_held : Z;
  frames : Pmm.pmm;
  memory : KString.mem;
}.

Definition with_nodes m s := Ramfs m (next_ino s) (pages_held s) (frames s) (memory s).

(** [p->...] for a node, and its update. *)
Definition get (m : store) (p : Z) : out node := deref m p.
Definition update (p : Z) (f : node -> node) (m : store) : out store := n ← get m p; Done (<[p := f n]> m).

Definition ramfs_used_bytes (s : ramfs) : Z := u64 (pages_held s * BLOCK_SIZE).

(** ** Nodes *)

Definition node_of (ino : Z) (m : store) : option Z :=
  if ((ino =? 0) || (MAX_NODES <=? ino))%bool then None
  else match m !! ino with Some _ => Some ino | None => None end.

Section ops.

(** Whether [kzalloc] finds room for that many bytes. *)
Variable kz : ramfs -> Z -> bool.
Definition SIZEOF_NODE : Z := 88.

(** [rtc_epoch()]. *)
Variable now : Z.

Definition node_new (nm : list Z) (t : Z) (par : option Z) (s : ramfs) : out (option Z * ramfs) :=
  if MAX_NODES <=? next_ino s then Done (None, s)
  else if negb (kz s SIZEOF_NODE) then Done (None, s)
  else
    let i := next_ino s in
    let fresh h := Node t 0 now (strl (W_NAME_MAX + 1) nm) par h None [] in
    match par with
    | None => Done (Some i, Ramfs (<[i := fresh None]> (nodes s)) (u32 (i + 1)) (pages_held s) (frames s) (memory s))
    | Some p =>
        n ← get (nodes s) p;
        m ← update p (with_children (Some i)) (nodes s);
        Done (Some i, Ramfs (<[i := fresh (children n)]> m) (u32 (i + 1)) (pages_held s) (frames s) (memory s))
    end.

(** The list from [c] on; [Spent] when it has more than [n] nodes. *)
Fixpoint find_child (n : nat) (m : store) (c : option Z) (nm : list Z) : out (option Z) :=
  match c with
  | None => Done None
  | Some c =>
      match n with
      | O => Spent
      | S n => x ← get m c; if bool_decide (name x = nm) then Done (Some c) else find_child n m (next x) nm
      end
  end.

Definition LIST_FUEL : nat := Z.to_nat MAX_NODES.

Definition child_named (m : store) (dir : Z) (nm : list Z) : out (option Z) :=
  d ← get m dir; find_child LIST_FUEL m (children d) nm.

(** ** File contents *)

Definition blocks_reserve (p count : Z) (s : ramfs) : out (bool * ramfs) :=
  n ← get (nodes s) p;
  let block_count := Zlen (blocks n) in
  if count <=? block_count then Done (true, s)
  else
    let grown := if block_count =? 0 then 4 else u32 (block_count * 2) in
    let grown := if grown <? count then count else grown in
    if negb (kz s (grown * 8)) then Done (false, s)
    else
      m ← update p (with_blocks (blocks n ++ replicate (Z.to_nat (grown - block_count)) 0)) (nodes s);
      Done (true, with_nodes m s).

(** The second half of [block_get], for an index inside the array. *)
Definition block_at (p index : Z) (create : bool) (s : ramfs) : out (option Z * ramfs) :=
  n ← get (nodes s) p;
  match blocks n !! Z.to_nat index with
  | None => Fault
  | Some b =>
      if negb (b =? 0) then Done (Some b, s)
      else if negb create then Done (None, s)
      else
        let '(phys, f) := Pmm.pmm_alloc_frame_low (frames s) in
        if phys =? 0 then Done (None, Ramfs (nodes s) (next_ino s) (pages_held s) f (memory s))
        else
          m ← update p (with_blocks (<[Z.to_nat index := phys]> (blocks n))) (nodes s);
          Done (Some phys, Ramfs m (next_ino s) (u64 (pages_held s + 1)) f (KString.memset phys 0 BLOCK_SIZE (memory s)))
  end.

Definition block_get (p index : Z) (create : bool) (s : ramfs) : out (option Z * ramfs) :=
  n ← get (nodes s) p;
  if index <? Zlen (blocks n) then block_at p index create s
  else if negb create then Done (None, s)
  else
    '(ok, s) ← blocks_reserve p (u32 (index + 1)) s;
    if (ok : bool) then block_at p index create s else Done (None, s).

(** The loop of [blocks_release] from entry 0, every caller's first. *)
Fixpoint release_loop (l : list Z) (held : Z) (f : Pmm.pmm) : out (Z * Pmm.pmm) :=
  match l with
  | [] => Done (held, f)
  | b :: l =>
      if b =? 0 then release_loop l held f
      else f ← of_res (Pmm.pmm_free_frame b f); release_loop l (u64 (held - 1)) f
  end.

Definition blocks_release (p : Z) (s : ramfs) : out ramfs :=
  n ← get (nodes s) p;
  '(held, f) ← release_loop (blocks n) (pages_held s) (frames s);
  m ← update p (with_blocks []) (nodes s);
  Done (Ramfs m (next_ino s) held f (memory s)).

(** ** Paths *)

Definition ramfs_owns (abs : list Z) : bool :=
  (bool_decide (take (length RAMFS_MOUNT) abs = RAMFS_MOUNT) &&
   match drop (length RAMFS_MOUNT) abs with [] => true | c :: _ => c =? slash end)%bool.

(** The loop of [walk], with the path from [p] on: the node, and the directory
    and the last name when these were asked for.  Every turn takes a name off the
    path. *)
Fixpoint walk_loop (fuel : nat) (m : store) (want : bool) (dir : Z) (p : list Z) : out (option Z * option (Z * list Z)) :=
  match fuel with
  | O => Spent
  | S fuel =>
      match skip_slashes p with
      | [] => Done (if want then None else Some dir, None)
      | q =>
          let '(nm, r) := component q in
          if W_NAME_MAX <? Zlen nm then Done (None, None)
          else
            let last := bool_decide (skip_slashes r = []) in
            c ← child_named m dir nm;
            if (last && want)%bool then Done (c, Some (dir, nm))
            else
              match c with
              | None => Done (None, None)
              | Some c =>
                  if last then Done (Some c, None)
                  else
                    x ← get m c;
                    if negb (type x =? WFS_TYPE_DIR) then Done (None, None) else walk_loop fuel m want c r
              end
      end
  end.

(** Before [ramfs_init] there is no root; the walk then uses a NULL pointer
    unless the path ends at once.  For a path of another file system the code
    leaves [parent_out] as it was; [vfs.c] never calls with one. *)
Definition walk (want : bool) (path : list Z) (m : store) : out (option Z * option (Z * list Z)) :=
  if negb (ramfs_owns path) then Done (None, None)
  else
    let p := drop (length RAMFS_MOUNT) path in
    match node_of ROOT_INO m with
    | Some root => walk_loop (S (length p)) m want root p
    | None => if bool_decide (skip_slashes p = []) then Done (None, None) else Fault
    end.

(** ** The operations *)

Definition ramfs_init (s : ramfs) : out ramfs :=
  match node_of ROOT_INO (nodes s) with
  | Some _ => Done s
  | None => '(_, s) ← node_new [] WFS_TYPE_DIR None s; Done s
  end.

Definition ramfs_lookup (path : list Z) (s : ramfs) : out (Z * option Z) :=
  '(n, _) ← walk false path (nodes s);
  match n with None => Done (- W_ENOENT, None) | Some i => Done (0, Some i) end.

(** The fields of [struct wfs_inode] that are set: type, links, size, mtime and
    blocks. *)
Definition ramfs_read_inode (ino : Z) (s : ramfs) : out (Z * option (Z * Z * Z * Z * Z)) :=
  match node_of ino (nodes s) with
  | None => Done (- W_ENOENT, None)
  | Some p =>
      n ← get (nodes s) p;
      Done (0, Some (type n, 1, size n, mtime n, u32 (size n + WFS_BLOCK_SIZE - 1) / WFS_BLOCK_SIZE))
  end.

(** [n] bytes of memory. *)
Definition bytes_at (m : KString.mem) (a n : Z) : list Z := m <$> seqZ a n.

Fixpoint read_loop (fuel : nat) (p offset len done : Z) (s : ramfs) : out (list Z) :=
  if done <? len then
    match fuel with
    | O => Spent
    | S fuel =>
        let index := u32 (offset + done) / BLOCK_SIZE in
        let within := u32 (offset + done) `mod` BLOCK_SIZE in
        let chunk := if len - done <? BLOCK_SIZE - within then len - done else BLOCK_SIZE - within in
        '(page, _) ← block_get p index false s;
        rest ← read_loop fuel p offset len (done + chunk) s;
        Done (match page with
              | Some b => bytes_at (memory s) (b + within) chunk
              | None => replicate (Z.to_nat chunk) 0
              end ++ rest)
    end
  else Done [].

(** The result and the bytes put into the buffer. *)
Definition ramfs_read (ino offset len : Z) (s : ramfs) : out (Z * list Z) :=
  match node_of ino (nodes s) with
  | None => Done (- W_ENOENT, [])
  | Some p =>
      n ← get (nodes s) p;
      if negb (type n =? WFS_TYPE_FILE) then Done (- W_EISDIR, [])
      else if size n <=? offset then Done (0, [])
      else
        let len := if size n - offset <? len then size n - offset else len in
        l ← read_loop (Z.to_nat len) p offset len 0 s;
        Done (i32 (Zlen l), l)
  end.

(** [memcpy] from the caller's buffer. *)
Definition copy_in (a : Z) (l : list Z) (m : KString.mem) : KString.mem :=
  fun x => if ((a <=? x) && (x <? a + Zlen l))%bool then l.[x - a] else m x.

Fixpoint write_loop (fuel : nat) (p offset : Z) (buf : list Z) (done : Z) (s : ramfs) : out (Z * ramfs) :=
  if done <? Zlen buf then
    match fuel with
    | O => Spent
    | S fuel =>
        let index := u32 (offset + done) / BLOCK_SIZE in
        let within := u32 (offset + done) `mod` BLOCK_SIZE in
        let chunk := if Zlen buf - done <? BLOCK_SIZE - within then Zlen buf - done else BLOCK_SIZE - within in
        '(page, s) ← block_get p index true s;
        match page with
        | None => Done (done, s)
        | Some b =>
            write_loop fuel p offset buf (done + chunk)
              (Ramfs (nodes s) (next_ino s) (pages_held s) (frames s) (copy_in (b + within) (slice done chunk buf) (memory s)))
        end
    end
  else Done (done, s).

Definition ramfs_write (ino offset : Z) (buf : list Z) (s : ramfs) : out (Z * ramfs) :=
  match node_of ino (nodes s) with
  | None => Done (- W_ENOENT, s)
  | Some p =>
      n ← get (nodes s) p;
      if negb (type n =? WFS_TYPE_FILE) then Done (- W_EISDIR, s)
      else
        '(done, s) ← write_loop (length buf) p offset buf 0 s;
        m ← (if size n <? u32 (offset + done) then update p (with_size (u32 (offset + done))) (nodes s) else Done (nodes s));
        if ((done =? 0) && (0 <? Zlen buf))%bool then Done (- W_ENOSPC, with_nodes m s)
        else m ← update p (with_mtime now) m; Done (i32 done, with_nodes m s)
  end.

(** The number of the new node, when there is one. *)
Definition ramfs_create (path : list Z) (t : Z) (s : ramfs) : out (Z * option Z * ramfs) :=
  '(existing, where_) ← walk true path (nodes s);
  match where_ with
  | None => Done (- W_ENOENT, None, s)
  | Some (par, leaf) =>
      if bool_decide (existing <> None) then Done (- W_EEXIST, None, s)
      else
        d ← get (nodes s) par;
        if negb (type d =? WFS_TYPE_DIR) then Done (- W_ENOTDIR, None, s)
        else
          '(n, s) ← node_new leaf t (Some par) s;
          match n with
          | None => Done (- W_ENOSPC, None, s)
          | Some i =>
              x ← get (nodes s) i;
              m ← update par (with_mtime (mtime x)) (nodes s);
              Done (0, Some i, with_nodes m s)
          end
  end.

(** The walk of [detach] with [link] the [next] of [at_]. *)
Fixpoint detach_loop (fuel : nat) (at_ n : Z) (m : store) : out store :=
  x ← get m at_;
  match next x with
  | None => Done m
  | Some c =>
      if c =? n then y ← get m n; update at_ (with_next (next y)) m
      else match fuel with O => Spent | S fuel => detach_loop fuel c n m end
  end.

Definition detach (par n : Z) (m : store) : out store :=
  d ← get m par;
  m ← match children d with
      | None => Done m
      | Some c =>
          if c =? n then y ← get m n; update par (with_children (next y)) m else detach_loop LIST_FUEL c n m
      end;
  update n (with_next None) m.

Definition destroy (n : Z) (s : ramfs) : out ramfs :=
  s ← blocks_release n s;
  Done (with_nodes (delete n (nodes s)) s).

Definition ramfs_unlink (path : list Z) (s : ramfs) : out (Z * ramfs) :=
  '(n, where_) ← walk true path (nodes s);
  match n, where_ with
  | Some n, Some (par, _) =>
      x ← get (nodes s) n;
      if ((type x =? WFS_TYPE_DIR) && bool_decide (children x <> None))%bool then Done (- W_ENOTEMPTY, s)
      else
        m ← detach par n (nodes s);
        s ← destroy n (with_nodes m s);
        m ← update par (with_mtime now) (nodes s);
        Done (0, with_nodes m s)
  | _, _ => Done (- W_ENOENT, s)
  end.

(** Whether the walk up from [at_] meets [n]. *)
Fixpoint above (fuel : nat) (m : store) (at_ : option Z) (n : Z) : out bool :=
  match at_ with
  | None => Done false
  | Some a =>
      if a =? n then Done true
      else match fuel with O => Spent | S fuel => x ← get m a; above fuel m (parent x) n end
  end.

(** The end of [ramfs_rename], once nothing is in the way. *)
Definition move_node (from_parent n to_parent : Z) (to_leaf : list Z) (m : store) : out store :=
  m ← detach from_parent n m;
  m ← update n (with_name to_leaf) m;
  m ← update n (with_parent (Some to_parent)) m;
  d ← get m to_parent;
  m ← update n (with_next (children d)) m;
  m ← update to_parent (with_children (Some n)) m;
  m ← update to_parent (with_mtime now) m;
  update from_parent (with_mtime now) m.

Definition ramfs_rename (from to : list Z) (s : ramfs) : out (Z * ramfs) :=
  '(n, src) ← walk true from (nodes s);
  '(existing, dst) ← walk true to (nodes s);
  match n, src, dst with
  | Some n, Some (from_parent, _), Some (to_parent, to_leaf) =>
      d ← get (nodes s) to_parent;
      if negb (type d =? WFS_TYPE_DIR) then Done (- W_ENOTDIR, s)
      else if W_NAME_MAX <? Zlen to_leaf then Done (- W_EINVAL, s)
      else if bool_decide (existing = Some n) then Done (0, s)
      else
        loop ← above LIST_FUEL (nodes s) (Some to_parent) n;
        if (loop : bool) then Done (- W_EINVAL, s)
        else
          '(r, s) ← match existing with
               | None => Done (0, s)
               | Some e =>
                   x ← get (nodes s) e;
                   if type x =? WFS_TYPE_DIR then Done (- W_EISDIR, s)
                   else m ← detach to_parent e (nodes s); s ← destroy e (with_nodes m s); Done (0, s)
               end;
          if negb (r =? 0) then Done (r, s)
          else
            m ← move_node from_parent n to_parent to_leaf (nodes s);
            Done (0, with_nodes m s)
  | _, _, _ => Done (- W_ENOENT, s)
  end.

Definition ramfs_truncate (ino : Z) (s : ramfs) : out (Z * ramfs) :=
  match node_of ino (nodes s) with
  | None => Done (- W_ENOENT, s)
  | Some p =>
      s ← blocks_release p s;
      m ← update p (with_size 0) (nodes s);
      m ← update p (with_mtime now) m;
      Done (0, with_nodes m s)
  end.

Definition ramfs_utime (ino t : Z) (s : ramfs) : out (Z * ramfs) :=
  match node_of ino (nodes s) with
  | None => Done (- W_ENOENT, s)
  | Some p => m ← update p (with_mtime t) (nodes s); Done (0, with_nodes m s)
  end.

(** The loop of [ramfs_readdir] from the node [c], the [i]-th. *)
Fixpoint readdir_loop (fuel : nat) (m : store) (c : option Z) (i cursor : Z) : out (option wdirent) :=
  match c with
  | None => Done None
  | Some c =>
      match fuel with
      | O => Spent
      | S fuel =>
          x ← get m c;
          if i =? cursor then
            Done (Some (WDirent c (if type x =? WFS_TYPE_DIR then W_FT_DIR else W_FT_FILE) (strl (W_NAME_MAX + 1) (name x))))
          else readdir_loop fuel m (next x) (i + 1) cursor
      end
  end.

(** The result, the entry and the cursor. *)
Definition ramfs_readdir (ino cursor : Z) (s : ramfs) : out (Z * option wdirent * Z) :=
  match node_of ino (nodes s) with
  | None => Done (- W_ENOENT, None, cursor)
  | Some p =>
      n ← get (nodes s) p;
      if negb (type n =? WFS_TYPE_DIR) then Done (- W_ENOTDIR, None, cursor)
      else
        e ← readdir_loop LIST_FUEL (nodes s) (children n) 0 cursor;
        Done (match e with Some e => (1, Some e, u32 (cursor + 1)) | None => (0, None, cursor) end)
  end.

Definition ramfs_statfs (s : ramfs) : wdiskinfo :=
  let used := ramfs_used_bytes s in
  let free_low := Pmm.pmm_free_bytes (frames s) in
  let free_low := if Pmm.LOW_MEMORY_LIMIT <? free_low then Pmm.LOW_MEMORY_LIMIT else free_low in
  DiskInfo BLOCK_SIZE (u32 (u64 (used + free_low) / BLOCK_SIZE)) (u32 (free_low / BLOCK_SIZE))
    (MAX_NODES - 1) (MAX_NODES - next_ino s) (u64 (used + free_low)) free_low used.

End ops.

End Ramfs.
