(* ===== verification/RamfsData.v ===== *)
(** The contents of the files of [Ramfs]: which frames hold them, what byte is at
    an offset, and that reading, writing, truncating and deleting do what they say
    on the bytes and give every frame back. *)

From S2P Require Import Prelude Str Ring Pmm KString Shm Dma Wfs Ramfs.

Module RamfsData.

Import Str Ring Ramfs.
Import Wfs (WFS_TYPE_FILE, WFS_TYPE_DIR).

(** ** Bytes of a file *)

(** The byte at offset [i]; a hole is zeroes. *)
Definition fbyte (m : KString.mem) (n : node) (i : Z) : Z :=
  match blocks n !! Z.to_nat (i / 4096) with
  | Some b => if b =? 0 then 0 else m (b + i `mod` 4096)
  | None => 0
  end.

(** Pages a node holds, and all of them together. *)
Definition pages_of (n : node) : Z := countb (fun b => negb (b =? 0)) (blocks n).
Definition held_of (m : store) : Z := map_fold (fun _ n k => pages_of n + k) 0 m.

Lemma held_insert m p n : m !! p = None -> held_of (<[p := n]> m) = pages_of n + held_of m.
Proof. intros H. unfold held_of. rewrite map_fold_insert_L; [done | | done]. intros. lia. Qed.

Lemma held_delete m p n : m !! p = Some n -> held_of m = pages_of n + held_of (delete p m).
Proof. intros H. unfold held_of. rewrite (map_fold_delete_L _ _ p n m); [done | | done]. intros. lia. Qed.

Lemma held_update m p n n' : m !! p = Some n -> held_of (<[p := n']> m) = held_of m - pages_of n + pages_of n'.
Proof.
  intros H. rewrite <- insert_delete_eq, held_insert by apply lookup_delete_eq. rewrite (held_delete m p n H). lia.
Qed.

Lemma pages_of_pos n : 0 <= pages_of n.
Proof. unfold pages_of. pose proof (countb_bounds (fun b => negb (b =? 0)) (blocks n)). lia. Qed.

Lemma held_pos m : 0 <= held_of m.
Proof.
  induction m as [| p n m Hm IH] using map_ind; [done |]. rewrite held_insert by done. pose proof (pages_of_pos n). lia.
Qed.

Lemma get_some m p n : m !! p = Some n -> get m p = Done n.
Proof. apply deref_some. Qed.

Lemma update_some m p n f : m !! p = Some n -> update p f m = Done (<[p := f n]> m).
Proof. intros H. unfold update. by rewrite (get_some m p n H). Qed.

(** ** Frames *)

(** Frames: [o] are those of the rest of the system, [c] of them. *)
Record frames_ok (o : Z -> Prop) (c : Z) (s : ramfs) : Prop := {
  fr_pmm : Pmm.pmm_inv (frames s);
  fr_others : 0 <= c;
  fr_count : pages_held s + c = Pmm.used_frames (frames s);
  fr_held : pages_held s = held_of (nodes s);
  fr_block : forall p n k b, nodes s !! p = Some n -> blocks n !! k = Some b -> b <> 0 ->
    exists g, b = g * 4096 /\ 0 < g < Pmm.total_frames (frames s) /\ ~ o g;
  fr_once : forall p n k p' n' k' b, nodes s !! p = Some n -> nodes s !! p' = Some n' ->
    blocks n !! k = Some b -> blocks n' !! k' = Some b -> b <> 0 -> p = p' /\ k = k';
  fr_used : forall g, 0 <= g -> Pmm.used (frames s) g = true <->
    o g \/ (0 < g /\ exists p n k, nodes s !! p = Some n /\ blocks n !! k = Some (g * 4096));
  fr_len : forall p n, nodes s !! p = Some n -> Zlen (blocks n) <= 2 ^ 21;
}.

(** Everything but the table of blocks. *)
Definition meta (n : node) : node := with_blocks [] n.

(** The bytes [l] are at [off] of the file [p], and nothing else changed: not
    what is known of any file, nor its other bytes, nor memory of others. *)
Record patched (o : Z -> Prop) (s s' : ramfs) (p off : Z) (l : list Z) : Prop := {
  pt_ino : next_ino s' = next_ino s;
  pt_meta : forall q, meta <$> nodes s' !! q = meta <$> nodes s !! q;
  pt_bytes : forall q n n' i, nodes s !! q = Some n -> nodes s' !! q = Some n' -> 0 <= i ->
    fbyte (memory s') n' i = if decide (q = p /\ off <= i < off + Zlen l) then l.[i - off] else fbyte (memory s) n i;
  pt_others : forall x, o (x / 4096) -> memory s' x = memory s x;
}.

Lemma patched_nil o s p off : patched o s s p off [].
Proof.
  split; try done. intros q n n' i E E' Hi. assert (n' = n) as -> by congruence.
  rewrite decide_False; [done |]. unfold Zlen. cbn [length]. intros [_ ?]. lia.
Qed.

Lemma patched_meta o s s' p off l q n : patched o s s' p off l -> nodes s !! q = Some n ->
  exists n', nodes s' !! q = Some n' /\ meta n' = meta n.
Proof.
  intros H E. pose proof (pt_meta _ _ _ _ _ _ H q) as Hm. rewrite E in Hm. destruct (nodes s' !! q) as [n' |]; [| done].
  exists n'. split; [done |]. by apply (inj Some) in Hm.
Qed.

Lemma patched_trans o s1 s2 s3 p off l1 l2 :
  patched o s1 s2 p off l1 -> patched o s2 s3 p (off + Zlen l1) l2 -> patched o s1 s3 p off (l1 ++ l2).
Proof.
  intros H12 H23. pose proof H12 as [A1 A2 A3 A4]. pose proof H23 as [B1 B2 B3 B4]. split.
  - congruence.
  - intros q. by rewrite B2.
  - intros q n n' i E E' Hi. destruct (patched_meta _ _ _ _ _ _ _ _ H12 E) as (n2 & E2 & _).
    rewrite (B3 q n2 n' i E2 E' Hi), (A3 q n n2 i E E2 Hi). rewrite Zlen_app. unfold Zlen in *.
    destruct (decide (q = p)) as [-> | Hne].
    2: { rewrite !decide_False by (intros [? _]; done). done. }
    destruct (decide (off + Z.of_nat (length l1) <= i < off + Z.of_nat (length l1) + Z.of_nat (length l2))).
    + rewrite decide_True by done. rewrite decide_True by (split; [done | lia]). rewrite lookup_total_app_r by lia.
      f_equal. lia.
    + rewrite decide_False by (intros [_ ?]; done).
      destruct (decide (off <= i < off + Z.of_nat (length l1))).
      * rewrite decide_True by done. rewrite decide_True by (split; [done | lia]). by rewrite lookup_total_app_l by lia.
      * rewrite decide_False by (intros [_ ?]; done). by rewrite decide_False by (intros [_ ?]; lia).
  - intros x Hx. by rewrite B4, A4.
Qed.

(** A node with the same pages. *)
Lemma frames_node o c s p n n' :
  frames_ok o c s -> nodes s !! p = Some n -> (forall k b, b <> 0 -> blocks n' !! k = Some b <-> blocks n !! k = Some b) ->
  pages_of n' = pages_of n -> Zlen (blocks n') <= 2 ^ 21 -> frames_ok o c (with_nodes (<[p := n']> (nodes s)) s).
Proof.
  intros [F1 F2 F3 F4 F5 F6 F7 F8] E Hb Hp Hl.
  assert (Hsub : forall q x k b, <[p := n']> (nodes s) !! q = Some x -> blocks x !! k = Some b -> b <> 0 ->
    exists y, nodes s !! q = Some y /\ blocks y !! k = Some b).
  { intros q x k b Ex Ek Hne. destruct (decide (q = p)) as [-> | Hq].
    - rewrite lookup_insert_eq in Ex. injection Ex as <-. exists n. split; [done | by apply Hb].
    - rewrite lookup_insert_ne in Ex by done. by exists x. }
  split; cbn [frames nodes pages_held with_nodes]; try done.
  - rewrite (held_update _ _ n) by done. lia.
  - intros q x k b Ex Ek Hne. destruct (Hsub q x k b Ex Ek Hne) as (y & Ey & Ey'). by apply (F5 q y k b).
  - intros q x k q' x' k' b Ex Ex' Ek Ek' Hne.
    destruct (Hsub q x k b Ex Ek Hne) as (y & Ey & Hy), (Hsub q' x' k' b Ex' Ek' Hne) as (y' & Ey' & Hy').
    by apply (F6 q y k q' y' k' b).
  - intros g Hg. rewrite F7 by done. split; (intros [? | (Hg0 & q & x & k & Ex & Ek)]; [by left | right; split; [done |]]).
    + destruct (decide (q = p)) as [-> | Hq].
      * exists p, n', k. rewrite lookup_insert_eq. split; [done |]. apply Hb; [lia |]. congruence.
      * exists q, x, k. by rewrite lookup_insert_ne.
    + destruct (Hsub q x k _ Ex Ek ltac:(lia)) as (y & Ey & Hy). by exists q, y, k.
  - intros q x Ex. destruct (decide (q = p)) as [-> | Hq]; [rewrite lookup_insert_eq in Ex; by injection Ex as <- |].
    rewrite lookup_insert_ne in Ex by done. by apply (F8 q).
Qed.

(** Only the table of blocks of [p] changed, not the bytes. *)
Lemma patched_blocks o s p n bl off :
  nodes s !! p = Some n -> (forall i, 0 <= i -> fbyte (memory s) (with_blocks bl n) i = fbyte (memory s) n i) ->
  patched o s (with_nodes (<[p := with_blocks bl n]> (nodes s)) s) p off [].
Proof.
  intros E Hb. split; cbn [nodes with_nodes next_ino memory]; try done.
  - intros q. destruct (decide (q = p)) as [-> | Hq]; [by rewrite lookup_insert_eq, E | by rewrite lookup_insert_ne].
  - intros q x x' i Ex Ex' Hi. unfold Zlen. cbn [length]. rewrite decide_False by (intros [_ ?]; lia).
    destruct (decide (q = p)) as [-> | Hq].
    + rewrite lookup_insert_eq in Ex'. injection Ex' as <-. assert (x = n) as -> by congruence. by apply Hb.
    + rewrite lookup_insert_ne in Ex' by done. congruence.
Qed.

Section data.
Variable kz : ramfs -> Z -> bool.
Variable o : Z -> Prop.
Variable c : Z.

(** Why a page cannot be had: no frame is free that the kernel can reach, or the
    heap refuses. *)
Definition no_memory (s : ramfs) : Prop :=
  (forall g, 0 <= g < Pmm.low_limit (frames s) -> Pmm.used (frames s) g = true) \/ exists s1 z, kz s1 z = false.

Lemma countb_zeroes k : countb (fun b => negb (b =? 0)) (replicate k 0) = 0.
Proof. induction k as [| k IH]; [done |]. cbn [replicate]. by rewrite countb_cons. Qed.

Lemma reserve_spec p n count s off :
  frames_ok o c s -> nodes s !! p = Some n -> 0 <= count <= 2 ^ 20 ->
  exists ok s', blocks_reserve kz p count s = Done (ok, s') /\ frames_ok o c s' /\ patched o s s' p off [] /\
    if ok then exists n', nodes s' !! p = Some n' /\ count <= Zlen (blocks n') else no_memory s'.
Proof.
  intros Hf E Hc. unfold blocks_reserve. rewrite (get_some _ _ _ E). cbn [mbind out_bind].
  pose proof (fr_len _ _ _ Hf p n E) as Hlen. assert (0 <= Zlen (blocks n)) by (unfold Zlen; lia).
  destruct (Z.leb_spec count (Zlen (blocks n))).
  { exists true, s. split; [done |]. split; [done |]. split; [apply patched_nil |]. by exists n. }
  set (g0 := if Zlen (blocks n) =? 0 then 4 else u32 (Zlen (blocks n) * 2)).
  assert (Hg0 : Zlen (blocks n) < g0 <= 2 ^ 21).
  { unfold g0. destruct (Z.eqb_spec (Zlen (blocks n)) 0); [lia |]. rewrite u32_id; lia. }
  set (g := if g0 <? count then count else g0).
  assert (Hg : count <= g <= 2 ^ 21) by (unfold g; destruct (Z.ltb_spec g0 count); lia).
  destruct (kz s (g * 8)) eqn:Ek; cbn [negb].
  2: { exists false, s. split; [done |]. split; [done |]. split; [apply patched_nil |]. right. by exists s, (g * 8). }
  rewrite (update_some _ _ _ _ E). cbn [mbind out_bind].
  set (bl := blocks n ++ replicate (Z.to_nat (g - Zlen (blocks n))) 0).
  assert (Hlk : forall k b, b <> 0 -> bl !! k = Some b <-> blocks n !! k = Some b).
  { intros k b Hb. unfold bl. rewrite lookup_app_Some. split; [intros [? | (_ & [? _]%lookup_replicate)]; done || by left | by left]. }
  exists true. eexists. split; [done |]. split; [| split].
  - apply (frames_node o c s p n (with_blocks bl n)); try done.
    + unfold pages_of. cbn [blocks with_blocks]. unfold bl. rewrite countb_app, countb_zeroes. lia.
    + cbn [blocks with_blocks]. unfold bl. rewrite Zlen_app. unfold Zlen in *. rewrite length_replicate. lia.
  - apply patched_blocks; [done |]. intros i Hi. unfold fbyte. cbn [blocks with_blocks].
    destruct (blocks n !! Z.to_nat (i / 4096)) as [b |] eqn:Eb.
    + unfold bl. by rewrite (lookup_app_l_Some _ _ _ _ Eb).
    + destruct (bl !! Z.to_nat (i / 4096)) as [b |] eqn:Eb'; [| done].
      destruct (Z.eqb_spec b 0) as [| Hb]; [done |]. apply Hlk in Eb'; [congruence | done].
  - exists (with_blocks bl n). cbn [nodes with_nodes]. rewrite lookup_insert_eq. split; [done |]. cbn [blocks with_blocks].
    unfold bl. rewrite Zlen_app. unfold Zlen in *. rewrite length_replicate. lia.
Qed.

(** Bytes change only in frame [f], which is no block [k] of the file. *)
Lemma fbyte_frame s m' f p n i :
  frames_ok o c s -> nodes s !! p = Some n -> (forall x, x / 4096 <> f -> m' x = memory s x) ->
  blocks n !! Z.to_nat (i / 4096) <> Some (f * 4096) -> fbyte m' n i = fbyte (memory s) n i.
Proof.
  intros Hf E Hm Hn. unfold fbyte. destruct (blocks n !! Z.to_nat (i / 4096)) as [b |] eqn:Eb; [| done].
  destruct (Z.eqb_spec b 0) as [| Hb]; [done |]. destruct (fr_block _ _ _ Hf p n _ b E Eb Hb) as (g & -> & _).
  apply Hm. intros <-. apply Hn. do 2 f_equal. zlia.
Qed.

(** The state with a new page [f] as block [k] of [p]. *)
Definition grown (p : Z) (n : node) (k : nat) (f : Z) (fr : Pmm.pmm) (s : ramfs) : ramfs :=
  Ramfs (<[p := with_blocks (<[k := f * 4096]> (blocks n)) n]> (nodes s)) (next_ino s) (u64 (pages_held s + 1)) fr
    (KString.memset (f * 4096) 0 BLOCK_SIZE (memory s)).

Lemma grown_frames p n k f fr s :
  frames_ok o c s -> nodes s !! p = Some n -> blocks n !! k = Some 0 -> 0 < f < Pmm.total_frames (frames s) ->
  Pmm.used (frames s) f = false -> Pmm.takes (frames s) fr f -> frames_ok o c (grown p n k f fr s).
Proof.
  intros Hf E Ek Hr Hfree Ht. pose proof Hf as [F1 F2 F3 F4 F5 F6 F7 F8]. pose proof Ht as (Hwf & Htot & Hcnt & Hu).
  pose proof (Dma.used_le _ Hwf) as Hle. pose proof (Pmm.wf_total _ Hwf) as Hwt. pose proof (held_pos (nodes s)) as Hp0.
  assert (Hh : u64 (pages_held s + 1) = pages_held s + 1) by (rewrite u64_id; lia).
  assert (Hlt : (k < length (blocks n))%nat) by (by apply lookup_lt_Some in Ek).
  set (n' := with_blocks (<[k := f * 4096]> (blocks n)) n).
  assert (Hno : forall q x j, nodes s !! q = Some x -> blocks x !! j <> Some (f * 4096)).
  { intros q x j Ex Ej. assert (Pmm.used (frames s) f = true); [| congruence]. apply F7; [lia |]. right. split; [lia |]. by exists q, x, j. }
  assert (Hof : ~ o f) by (intros Ho; assert (Pmm.used (frames s) f = true); [apply F7; [lia | by left] | congruence]).
  assert (Hcase : forall q x j b, <[p := n']> (nodes s) !! q = Some x -> blocks x !! j = Some b -> b <> 0 ->
    (q = p /\ j = k /\ b = f * 4096) \/ (b <> f * 4096 /\ exists y, nodes s !! q = Some y /\ blocks y !! j = Some b)).
  { intros q x j b Ex Ej Hb. destruct (decide (q = p)) as [-> | Hq].
    - rewrite lookup_insert_eq in Ex. injection Ex as <-. cbn [n' blocks with_blocks] in Ej. destruct (decide (j = k)) as [-> | Hj].
      + rewrite list_lookup_insert_eq in Ej by done. injection Ej as <-. by left.
      + rewrite list_lookup_insert_ne in Ej by done. right. split; [intros ->; by apply (Hno p n j) | by exists n].
    - rewrite lookup_insert_ne in Ex by done. right. split; [intros ->; by apply (Hno q x j) | by exists x]. }
  split; unfold grown; cbn [frames nodes pages_held].
  - by apply (Pmm.takes_inv _ _ _ F1 Ht).
  - done.
  - lia.
  - rewrite (held_update _ _ n) by done. unfold pages_of. cbn [n' blocks with_blocks].
    assert (Hc0 : countb (fun b => negb (b =? 0)) (blocks n) =
      countb (fun b => negb (b =? 0)) (take k (blocks n)) + countb (fun b => negb (b =? 0)) (drop (S k) (blocks n)))
      by (rewrite <- (take_drop_middle _ _ _ Ek) at 1; by rewrite countb_app, countb_cons).
    rewrite insert_take_drop, countb_app, countb_cons, Hc0 by done.
    assert ((f * 4096 =? 0) = false) as -> by (apply Z.eqb_neq; lia). cbn [negb Z.b2z]. lia.
  - intros q x j b Ex Ej Hb. rewrite Htot. destruct (Hcase q x j b Ex Ej Hb) as [(_ & _ & ->) | (_ & y & Ey & Hy)]; [by exists f |].
    by apply (F5 q y j b).
  - intros q x j q' x' j' b Ex Ex' Ej Ej' Hb.
    destruct (Hcase q x j b Ex Ej Hb) as [(-> & -> & H1) | (H1 & y & Ey & Hy)],
      (Hcase q' x' j' b Ex' Ej' Hb) as [(-> & -> & H2) | (H2 & y' & Ey' & Hy')];
      [done | by rewrite H1 in H2 | by rewrite H2 in H1 | by apply (F6 q y j q' y' j' b)].
  - intros g Hg. rewrite Hu, orb_true_iff, Z.eqb_eq, F7 by done. split.
    + intros [[? | (Hg0 & q & x & j & Ex & Ej)] | ->]; [by left | right | right].
      * split; [done |]. destruct (decide (q = p)) as [-> | Hq]; [| exists q, x, j; by rewrite lookup_insert_ne].
        exists p, n', j. rewrite lookup_insert_eq. split; [done |]. assert (x = n) as -> by congruence. cbn [n' blocks with_blocks].
        rewrite list_lookup_insert_ne; [done |]. intros ->. rewrite Ek in Ej. injection Ej. lia.
      * split; [lia |]. exists p, n', k. rewrite lookup_insert_eq. split; [done |]. by apply list_lookup_insert_eq.
    + intros [? | (Hg0 & q & x & j & Ex & Ej)]; [left; by left |].
      destruct (Hcase q x j _ Ex Ej ltac:(lia)) as [(_ & _ & ?) | (_ & y & Ey & Hy)]; [right; lia |].
      left. right. split; [done |]. by exists q, y, j.
  - intros q x Ex. destruct (decide (q = p)) as [-> | Hq]; [| rewrite lookup_insert_ne in Ex by done; by apply (F8 q)].
    rewrite lookup_insert_eq in Ex. injection Ex as <-. cbn [n' blocks with_blocks]. unfold Zlen. rewrite length_insert. by apply (F8 p).
Qed.

Lemma memset_page a m x : KString.memset (a * 4096) 0 BLOCK_SIZE m x = if decide (x / 4096 = a) then 0 else m x.
Proof.
  rewrite KString.memset_spec by done. unfold KString.filled, BLOCK_SIZE, PAGE_SIZE.
  destruct (Z.leb_spec (a * 4096) x), (Z.ltb_spec x (a * 4096 + 4096)); cbn [andb]; case_decide; try done; zlia.
Qed.

Lemma grown_patched p n k f fr s off :
  frames_ok o c s -> nodes s !! p = Some n -> blocks n !! k = Some 0 -> 0 < f < Pmm.total_frames (frames s) ->
  Pmm.used (frames s) f = false -> patched o s (grown p n k f fr s) p off [].
Proof.
  intros Hf E Ek Hr Hfree. pose proof Hf as [F1 F2 F3 F4 F5 F6 F7 F8].
  assert (Hno : forall q x j, nodes s !! q = Some x -> blocks x !! j <> Some (f * 4096)).
  { intros q x j Ex Ej. assert (Pmm.used (frames s) f = true); [| congruence]. apply F7; [lia |]. right. split; [lia |]. by exists q, x, j. }
  assert (Hmem : forall x, x / 4096 <> f -> memory (grown p n k f fr s) x = memory s x)
    by (intros x Hx; cbn; rewrite memset_page; by rewrite decide_False).
  assert (Hlt : (k < length (blocks n))%nat) by (by apply lookup_lt_Some in Ek).
  split; cbn [nodes grown next_ino].
  - done.
  - intros q. destruct (decide (q = p)) as [-> | Hq]; [by rewrite lookup_insert_eq, E | by rewrite lookup_insert_ne].
  - intros q x x' i Ex Ex' Hi. unfold Zlen. cbn [length]. rewrite decide_False by (intros [_ ?]; lia).
    destruct (decide (q = p)) as [-> | Hq].
    2: { rewrite lookup_insert_ne in Ex' by done. assert (x' = x) as -> by congruence. apply (fbyte_frame s _ f q x); [done | done | exact Hmem | by apply (Hno q x)]. }
    rewrite lookup_insert_eq in Ex'. injection Ex' as <-. assert (x = n) as -> by congruence.
    destruct (decide (Z.to_nat (i / 4096) = k)) as [Hk | Hk].
    + unfold fbyte. cbn [blocks with_blocks]. rewrite Hk, list_lookup_insert_eq, Ek by done.
      destruct (Z.eqb_spec (f * 4096) 0); [lia |]. cbn. rewrite memset_page, decide_True by zlia. done.
    + rewrite <- (fbyte_frame s _ f p n i Hf E Hmem (Hno p n _ E)). unfold fbyte. cbn [blocks with_blocks].
      by rewrite list_lookup_insert_ne.
  - intros x Hx. apply Hmem. intros Ef. rewrite Ef in Hx. assert (Pmm.used (frames s) f = true) by (apply F7; [lia | by left]). congruence.
Qed.

Lemma block_at_spec p n k s off :
  frames_ok o c s -> nodes s !! p = Some n -> 0 <= k < Zlen (blocks n) ->
  exists r s', block_at p k true s = Done (r, s') /\ frames_ok o c s' /\ patched o s s' p off [] /\
    match r with
    | Some b => exists n', nodes s' !! p = Some n' /\ blocks n' !! Z.to_nat k = Some b /\ b <> 0
    | None => no_memory s'
    end.
Proof.
  intros Hf E Hk. unfold block_at. rewrite (get_some _ _ _ E). cbn [mbind out_bind].
  destruct (lookup_lt_is_Some_2 (blocks n) (Z.to_nat k)) as [b Eb]; [unfold Zlen in Hk; lia |]. rewrite Eb.
  destruct (Z.eqb_spec b 0) as [-> | Hb]; cbn [negb].
  2: { exists (Some b), s. split; [done |]. split; [done |]. split; [apply patched_nil |]. by exists n. }
  pose proof (fr_pmm _ _ _ Hf) as (Hwf & Hpos & H0).
  pose proof (Pmm.pmm_alloc_frame_low_cases (frames s) Hwf H0) as H.
  pose proof (Pmm.pmm_step_inv (frames s) _ (Pmm.step_alloc_low (frames s)) (fr_pmm _ _ _ Hf)) as [Hi Htot].
  destruct (Pmm.pmm_alloc_frame_low (frames s)) as [a f]. cbn [snd] in Hi, Htot.
  destruct H as [(-> & Hwf' & Hsame & Hfull) | (g & Hg & _ & Hfree & -> & Ht)].
  - cbn [Z.eqb]. exists None. eexists. split; [done |].
    assert (Hcount : Pmm.used_frames f = Pmm.used_frames (frames s)).
    { rewrite (Pmm.wf_used _ Hwf'), (Pmm.wf_used _ Hwf). unfold Pmm.frames. rewrite Htot. apply countb_ext. intros. apply Hsame. }
    split; [| split].
    + destruct Hf as [F1 F2 F3 F4 F5 F6 F7 F8]. split; cbn [frames nodes pages_held]; try done; [lia | by rewrite Htot |].
      intros h Hh. rewrite Hsame. by apply F7.
    + split; cbn [nodes memory next_ino]; try done. intros q x x' i Ex Ex' Hi'. assert (x' = x) as -> by congruence.
      unfold Zlen. cbn [length]. rewrite decide_False; [done |]. intros [_ ?]. lia.
    + left. cbn [frames]. unfold Pmm.low_limit in *. rewrite Htot. intros h Hh. rewrite Hsame. by apply Hfull.
  - unfold PAGE_SIZE. destruct (Z.eqb_spec (g * 4096) 0); [lia |]. rewrite (update_some _ _ _ _ E). cbn [mbind out_bind].
    assert (Hr : 0 < g < Pmm.total_frames (frames s)) by (pose proof (Pmm.low_limit_spec _ Hwf); lia).
    exists (Some (g * 4096)), (grown p n (Z.to_nat k) g f s). split; [done |].
    split; [by apply grown_frames |]. split; [by apply grown_patched |].
    exists (with_blocks (<[Z.to_nat k := g * 4096]> (blocks n)) n). cbn [nodes grown]. rewrite lookup_insert_eq. split; [done |].
    cbn [blocks with_blocks]. rewrite list_lookup_insert_eq by (by apply lookup_lt_Some in Eb). split; [done | lia].
Qed.

Lemma block_get_spec p n k s off :
  frames_ok o c s -> nodes s !! p = Some n -> 0 <= k < 2 ^ 20 ->
  exists r s', block_get kz p k true s = Done (r, s') /\ frames_ok o c s' /\ patched o s s' p off [] /\
    match r with
    | Some b => exists n', nodes s' !! p = Some n' /\ blocks n' !! Z.to_nat k = Some b /\ b <> 0
    | None => no_memory s'
    end.
Proof.
  intros Hf E Hk. unfold block_get. rewrite (get_some _ _ _ E). cbn [mbind out_bind].
  destruct (Z.ltb_spec k (Zlen (blocks n))); [apply (block_at_spec p n); [done | done | lia] |]. cbn [negb].
  rewrite u32_id by lia.
  destruct (reserve_spec p n (k + 1) s off Hf E ltac:(lia)) as (ok & s1 & -> & Hf1 & Hp1 & H1). cbn [mbind out_bind].
  destruct ok; [| by exists None, s1]. destruct H1 as (n1 & E1 & Hl1).
  destruct (block_at_spec p n1 k s1 off Hf1 E1 ltac:(lia)) as (r & s2 & -> & Hf2 & Hp2 & H2).
  exists r, s2. split; [done |]. split; [done |]. split; [| done].
  change [] with (@nil Z ++ []). apply (patched_trans o s s1); [done |]. unfold Zlen. cbn [length]. by rewrite Z.add_0_r.
Qed.

(** Looking for a page without making one. *)
Lemma block_look p n k s :
  nodes s !! p = Some n -> 0 <= k ->
  block_get kz p k false s =
    Done (match blocks n !! Z.to_nat k with Some b => if b =? 0 then None else Some b | None => None end, s).
Proof.
  intros E Hk. unfold block_get. rewrite (get_some _ _ _ E). cbn [mbind out_bind].
  destruct (Z.ltb_spec k (Zlen (blocks n))) as [Hlt | Hge].
  - unfold block_at. rewrite (get_some _ _ _ E). cbn [mbind out_bind].
    destruct (lookup_lt_is_Some_2 (blocks n) (Z.to_nat k)) as [b ->]; [unfold Zlen in Hlt; lia |]. by destruct (b =? 0).
  - rewrite lookup_ge_None_2 by (unfold Zlen in Hge; lia). done.
Qed.

(** ** Reading *)

Definition bytes_of (s : ramfs) (n : node) (a k : Z) : list Z := fbyte (memory s) n <$> seqZ a k.

Lemma bytes_of_app s n a j k : 0 <= j -> 0 <= k -> bytes_of s n a (j + k) = bytes_of s n a j ++ bytes_of s n (a + j) k.
Proof. intros. unfold bytes_of. by rewrite seqZ_app, fmap_app. Qed.

(** The bytes of one page. *)
Lemma bytes_of_page s n k w j :
  0 <= k -> 0 <= w -> 0 <= j -> w + j <= 4096 ->
  bytes_of s n (k * 4096 + w) j =
    match blocks n !! Z.to_nat k with
    | Some b => if b =? 0 then replicate (Z.to_nat j) 0 else bytes_at (memory s) (b + w) j
    | None => replicate (Z.to_nat j) 0
    end.
Proof.
  intros Hk Hw Hj Hle. unfold bytes_of, bytes_at. apply list_eq. intros i.
  assert (Hd : (i < Z.to_nat j)%nat -> (k * 4096 + w + Z.of_nat i) / 4096 = k) by (intros; zlia).
  assert (Hm : (i < Z.to_nat j)%nat -> (k * 4096 + w + Z.of_nat i) `mod` 4096 = w + Z.of_nat i) by (intros; zlia).
  destruct (decide (i < Z.to_nat j)%nat) as [Hi | Hi].
  - specialize (Hd Hi). specialize (Hm Hi). rewrite list_lookup_fmap, lookup_seqZ_lt by lia. cbn [fmap option_fmap option_map].
    unfold fbyte. rewrite Hd, Hm. destruct (blocks n !! Z.to_nat k) as [b |]; [| by rewrite lookup_replicate_2].
    destruct (b =? 0); [by rewrite lookup_replicate_2 |]. rewrite list_lookup_fmap, lookup_seqZ_lt by lia. cbn. do 2 f_equal. lia.
  - rewrite lookup_ge_None_2 by (rewrite length_fmap, length_seqZ; lia). symmetry. apply lookup_ge_None_2.
    destruct (blocks n !! Z.to_nat k) as [b |]; [| rewrite length_replicate; lia].
    destruct (b =? 0); [rewrite length_replicate; lia | rewrite length_fmap, length_seqZ; lia].
Qed.

(** A chunk ends at the end of a page or of what is left. *)
Lemma chunk_bounds x left :
  0 <= x -> 0 < left ->
  let within := x `mod` BLOCK_SIZE in
  let chunk := if left <? BLOCK_SIZE - within then left else BLOCK_SIZE - within in
  0 <= within /\ 0 < chunk <= left /\ within + chunk <= 4096 /\ x = x / BLOCK_SIZE * 4096 + within.
Proof.
  intros Hx Hl. unfold BLOCK_SIZE, PAGE_SIZE. cbv zeta. destruct (Z.ltb_spec left (4096 - x `mod` 4096)); zlia.
Qed.

Lemma file_read_spec p n off len s : nodes s !! p = Some n -> 0 <= off -> off + len < 2 ^ 32 -> forall fuel done,
  0 <= done <= len -> len - done <= Z.of_nat fuel ->
  read_loop kz fuel p off len done s = Done (bytes_of s n (off + done) (len - done)).
Proof.
  intros E Ho Hl. induction fuel as [| fuel IH]; intros done Hd Hf; cbn [read_loop].
  - destruct (Z.ltb_spec done len); [lia |]. by replace (len - done) with 0 by lia.
  - destruct (Z.ltb_spec done len) as [Hlt | Hge]; [| by replace (len - done) with 0 by lia].
    rewrite u32_id by lia. pose proof (chunk_bounds (off + done) (len - done) ltac:(lia) ltac:(lia)) as H. cbv zeta in H.
    set (w := (off + done) `mod` BLOCK_SIZE) in *. set (k := (off + done) / BLOCK_SIZE) in *.
    set (ch := if len - done <? BLOCK_SIZE - w then len - done else BLOCK_SIZE - w) in *. destruct H as (H1 & H2 & H3 & H4).
    assert (Hk : 0 <= k) by (unfold k, BLOCK_SIZE, PAGE_SIZE; zlia).
    rewrite (block_look p n k s E Hk). cbn [mbind out_bind]. rewrite IH by lia. cbn [mbind out_bind].
    assert (Hsplit : len - done = ch + (len - (done + ch))) by lia.
    replace (bytes_of s n (off + done) (len - done)) with (bytes_of s n (off + done) ch ++ bytes_of s n (off + (done + ch)) (len - (done + ch)))
      by (rewrite Hsplit at 1; rewrite bytes_of_app by lia; do 2 f_equal; lia). do 2 f_equal. rewrite H4, bytes_of_page by lia.
    destruct (blocks n !! Z.to_nat k) as [b |]; [| done]. by destruct (b =? 0).
Qed.

(** ** Writing *)

Lemma frames_memory s m :
  frames_ok o c s -> frames_ok o c (Ramfs (nodes s) (next_ino s) (pages_held s) (frames s) m).
Proof. intros [F1 F2 F3 F4 F5 F6 F7 F8]. by split. Qed.

Lemma copy_patched p n k b s w l :
  frames_ok o c s -> nodes s !! p = Some n -> 0 <= k -> blocks n !! Z.to_nat k = Some b -> b <> 0 ->
  0 <= w -> w + Zlen l <= 4096 ->
  patched o s (Ramfs (nodes s) (next_ino s) (pages_held s) (frames s) (copy_in (b + w) l (memory s))) p (k * 4096 + w) l.
Proof.
  intros Hf E Hk Eb Hb Hw Hle. destruct (fr_block _ _ _ Hf p n _ b E Eb Hb) as (g & -> & Hg & Hog).
  assert (Hsame : forall x, x / 4096 <> g -> copy_in (g * 4096 + w) l (memory s) x = memory s x).
  { intros x Hx. unfold copy_in. destruct (Z.leb_spec (g * 4096 + w) x), (Z.ltb_spec x (g * 4096 + w + Zlen l)); cbn [andb]; try done. zlia. }
  split; cbn [next_ino nodes memory]; try done.
  2: { intros x Hx. apply Hsame. by intros <-. }
  intros q x x' i Ex Ex' Hi. assert (x' = x) as -> by congruence.
  destruct (decide (blocks x !! Z.to_nat (i / 4096) = Some (g * 4096))) as [Ei | Ei].
  - destruct (fr_once _ _ _ Hf q x _ p n _ _ Ex E Ei Eb Hb) as [-> Hik].
    assert (i / 4096 = k) as Hdiv by (apply Z2Nat.inj in Hik; zlia). assert (x = n) as -> by congruence.
    unfold fbyte. rewrite Ei. destruct (Z.eqb_spec (g * 4096) 0); [lia |]. unfold copy_in.
    destruct (Z.leb_spec (g * 4096 + w) (g * 4096 + i `mod` 4096)), (Z.ltb_spec (g * 4096 + i `mod` 4096) (g * 4096 + w + Zlen l)); cbn [andb].
    + rewrite decide_True by (split; [done | zlia]). f_equal. f_equal. zlia.
    + rewrite decide_False; [done |]. intros [_ ?]. zlia.
    + rewrite decide_False; [done |]. intros [_ ?]. zlia.
    + unfold Zlen in *. lia.
  - rewrite decide_False; [apply (fbyte_frame s _ g q x); done |]. intros [-> Hr]. apply Ei.
    assert (x = n) as -> by congruence. replace (i / 4096) with k by zlia. done.
Qed.

Lemma blocks_write_spec p off buf : 0 <= off -> off + Zlen buf < 2 ^ 32 -> forall fuel done n s,
  frames_ok o c s -> nodes s !! p = Some n -> 0 <= done <= Zlen buf -> Zlen buf - done <= Z.of_nat fuel ->
  exists k s', write_loop kz fuel p off buf done s = Done (k, s') /\ frames_ok o c s' /\
    done <= k <= Zlen buf /\ patched o s s' p (off + done) (slice done (k - done) buf) /\ (k < Zlen buf -> no_memory s').
Proof.
  intros Ho Hl. assert (Hnone : forall done s, 0 <= done -> patched o s s p (off + done) (slice done (done - done) buf)).
  { intros done s Hd. rewrite Z.sub_diag. unfold slice. apply patched_nil. }
  induction fuel as [| fuel IH]; intros done n s Hf E Hd Hfu; cbn [write_loop].
  { destruct (Z.ltb_spec done (Zlen buf)); [lia |]. exists done, s. split; [done |]. split; [done |]. split; [lia |]. split; [apply Hnone; lia | lia]. }
  destruct (Z.ltb_spec done (Zlen buf)) as [Hlt | Hge].
  2: { exists done, s. split; [done |]. split; [done |]. split; [lia |]. split; [apply Hnone; lia | lia]. }
  rewrite u32_id by lia. pose proof (chunk_bounds (off + done) (Zlen buf - done) ltac:(lia) ltac:(lia)) as H. cbv zeta in H.
  set (w := (off + done) `mod` BLOCK_SIZE) in *. set (k := (off + done) / BLOCK_SIZE) in *.
  set (ch := if Zlen buf - done <? BLOCK_SIZE - w then Zlen buf - done else BLOCK_SIZE - w) in *. destruct H as (H1 & H2 & H3 & H4).
  assert (Hk : 0 <= k < 2 ^ 20) by (unfold k, BLOCK_SIZE, PAGE_SIZE; zlia).
  destruct (block_get_spec p n k s (off + done) Hf E Hk) as (r & s1 & -> & Hf1 & Hp1 & Hr). cbn [mbind out_bind].
  destruct r as [b |].
  2: { exists done, s1. split; [done |]. split; [done |]. split; [lia |]. rewrite Z.sub_diag. split; [exact Hp1 | done]. }
  destruct Hr as (n1 & E1 & Eb & Hb). assert (Hls : Zlen (slice done ch buf) = ch) by (apply Zlen_slice; lia).
  pose proof (copy_patched p n1 k b s1 w (slice done ch buf) Hf1 E1 ltac:(lia) Eb Hb H1 ltac:(lia)) as Hp2. rewrite <- H4 in Hp2.
  destruct (IH (done + ch) n1 (Ramfs (nodes s1) (next_ino s1) (pages_held s1) (frames s1) (copy_in (b + w) (slice done ch buf) (memory s1))))
    as (k' & s' & -> & Hf' & Hk' & Hp' & Hm); [by apply frames_memory | done | lia | lia |].
  exists k', s'. split; [done |]. split; [done |]. split; [lia |]. split; [| done].
  assert (Hsl : slice done (k' - done) buf = [] ++ slice done ch buf ++ slice (done + ch) (k' - (done + ch)) buf).
  { unfold slice. cbn [app]. replace (Z.to_nat (k' - done)) with (Z.to_nat ch + Z.to_nat (k' - (done + ch)))%nat by lia.
    rewrite <- take_take_drop. by rewrite drop_drop, <- Z2Nat.inj_add by lia. }
  rewrite Hsl. apply (patched_trans o s s1); [done |]. unfold Zlen at 1. cbn [length]. rewrite Z.add_0_r.
  eapply patched_trans; [exact Hp2 |]. rewrite Hls. by replace (off + done + ch) with (off + (done + ch)) by lia.
Qed.

(** ** Giving pages back *)

Lemma release_all_spec l : forall held f,
  Pmm.pmm_inv f -> countb (fun b => negb (b =? 0)) l <= held < 2 ^ 64 ->
  (forall k b, l !! k = Some b -> b <> 0 -> exists g, b = g * 4096 /\ 0 < g < Pmm.total_frames f /\ Pmm.used f g = true) ->
  (forall k k' b, l !! k = Some b -> l !! k' = Some b -> b <> 0 -> k = k') ->
  exists f', release_loop l held f = Done (held - countb (fun b => negb (b =? 0)) l, f') /\ Pmm.pmm_inv f' /\
    Pmm.total_frames f' = Pmm.total_frames f /\ Pmm.used_frames f' = Pmm.used_frames f - countb (fun b => negb (b =? 0)) l /\
    forall g, 0 < g -> Pmm.used f' g = true <-> Pmm.used f g = true /\ forall k, l !! k <> Some (g * 4096).
Proof.
  induction l as [| b l IH]; intros held f Hp Hh Hu Hone; cbn [release_loop].
  { exists f. rewrite countb_nil, !Z.sub_0_r. do 4 (split; [done |]). intros g Hg. split; [by intros ? | by intros [? _]]. }
  rewrite countb_cons in *. pose proof (countb_bounds (fun b => negb (b =? 0)) l) as Hc.
  assert (Hone' : forall k k' x, l !! k = Some x -> l !! k' = Some x -> x <> 0 -> k = k').
  { intros k k' x H1 H2 Hx. pose proof (Hone (S k) (S k') x H1 H2 Hx). lia. }
  destruct (Z.eqb_spec b 0) as [-> | Hb]; cbn [negb Z.b2z] in *.
  - destruct (IH held f Hp ltac:(lia)) as (f' & -> & Hp' & Ht & Hc' & Hu'); [| done |].
    + intros k x Hk. by apply (Hu (S k)).
    + exists f'. rewrite Z.add_0_l. do 4 (split; [done |]). intros g Hg. rewrite Hu' by done. split; intros [? Hk]; (split; [done |]).
      * intros [| k]; cbn; [intros [= ?]; lia | apply Hk].
      * intros k. apply (Hk (S k)).
  - destruct (Hu 0%nat b eq_refl Hb) as (g & -> & Hg & Hug).
    destruct (Dma.free_frame_spec f g Hp Hg Hug) as (f1 & E1 & Hp1 & Ht1 & Hc1 & Hu1).
    change (g * 4096) with (g * PAGE_SIZE). rewrite E1. cbn [of_res mbind out_bind]. rewrite u64_id by lia.
    assert (Hni : forall k, l !! k <> Some (g * 4096)).
    { intros k Hk. pose proof (Hone 0%nat (S k) (g * 4096) eq_refl Hk Hb). lia. }
    destruct (IH (held - 1) f1 Hp1 ltac:(lia)) as (f' & -> & Hp' & Ht & Hc' & Hu'); [| done |].
    + intros k x Hk Hx. destruct (Hu (S k) x Hk Hx) as (h & -> & Hh' & Huh). exists h. split; [done |]. rewrite Ht1. split; [done |].
      rewrite Hu1, Huh by lia. destruct (Z.eqb_spec h g) as [-> |]; [by destruct (Hni k) | done].
    + exists f'. split; [do 2 f_equal; lia |]. split; [done |]. split; [congruence |]. split; [lia |].
      intros h Hh'. rewrite Hu', Hu1, andb_true_iff, negb_true_iff, Z.eqb_neq by lia. split.
      * intros [[? Hne] Hk]. split; [done |]. intros [| k]; cbn; [intros [= ?]; unfold PAGE_SIZE in *; lia | apply Hk].
      * intros [? Hk]. split; [split; [done | intros ->; by apply (Hk 0%nat)] |]. intros k. apply (Hk (S k)).
Qed.

(** The state after the pages of [p] went. *)
Definition emptied (p : Z) (n : node) (f : Pmm.pmm) (s : ramfs) : ramfs :=
  Ramfs (<[p := with_blocks [] n]> (nodes s)) (next_ino s) (pages_held s - pages_of n) f (memory s).

Lemma blocks_release_spec p n s :
  frames_ok o c s -> nodes s !! p = Some n ->
  exists f, blocks_release p s = Done (emptied p n f s) /\ frames_ok o c (emptied p n f s) /\
    forall g, 0 < g -> Pmm.used f g = true <-> Pmm.used (frames s) g = true /\ forall k, blocks n !! k <> Some (g * 4096).
Proof.
  intros Hf E. pose proof Hf as [F1 F2 F3 F4 F5 F6 F7 F8]. unfold blocks_release. rewrite (get_some _ _ _ E). cbn [mbind out_bind].
  pose proof (Dma.used_le _ (proj1 F1)) as Hle. pose proof (Pmm.wf_total _ (proj1 F1)) as Hwt.
  pose proof (held_delete _ _ _ E) as Hd. pose proof (held_pos (delete p (nodes s))) as Hd0. unfold pages_of in Hd.
  destruct (release_all_spec (blocks n) (pages_held s) (frames s) F1) as (f & -> & Hp & Ht & Hc & Hu).
  - lia.
  - intros k b Ek Hb. destruct (F5 p n k b E Ek Hb) as (g & -> & Hg & _). exists g. split; [done |]. split; [done |].
    apply F7; [lia |]. right. split; [lia |]. by exists p, n, k.
  - intros k k' b Ek Ek' Hb. by apply (F6 p n k p n k' b).
  - cbn [mbind out_bind]. rewrite (update_some _ _ _ _ E). cbn [mbind out_bind]. exists f. split; [done |]. split; [| exact Hu].
    assert (Hcase : forall q x j b, <[p := with_blocks [] n]> (nodes s) !! q = Some x -> blocks x !! j = Some b -> q <> p /\ nodes s !! q = Some x).
    { intros q x j b Ex Ej. destruct (decide (q = p)) as [-> | Hq]; [| by rewrite lookup_insert_ne in Ex].
      rewrite lookup_insert_eq in Ex. injection Ex as <-. done. }
    split; unfold emptied; cbn [frames nodes pages_held].
    + done.
    + done.
    + unfold pages_of. lia.
    + rewrite (held_update _ _ n) by done. unfold pages_of at 3. cbn [blocks with_blocks]. rewrite countb_nil. lia.
    + intros q x k b Ex Ek Hb. destruct (Hcase q x k b Ex Ek). rewrite Ht. by apply (F5 q x k b).
    + intros q x k q' x' k' b Ex Ex' Ek Ek' Hb. destruct (Hcase q x k b Ex Ek), (Hcase q' x' k' b Ex' Ek'). by apply (F6 q x k q' x' k' b).
    + intros g Hg. destruct (decide (g = 0)) as [-> | Hg0].
      { assert (Hz : Pmm.used f 0 = true) by apply Hp. assert (Hz' : Pmm.used (frames s) 0 = true) by apply F1.
        apply F7 in Hz' as [Ho | [? _]]; [| lia | done]. split; [intros _; by left | by intros _]. }
      rewrite Hu, F7 by lia. split.
      * intros [[? | (_ & q & x & k & Ex & Ek)] Hno]; [by left | right]. split; [lia |]. exists q, x, k.
        rewrite lookup_insert_ne; [done |]. intros ->. apply (Hno k). congruence.
      * intros [Hog | (_ & q & x & k & Ex & Ek)].
        -- split; [by left |]. intros k Ek. destruct (F5 p n k _ E Ek ltac:(lia)) as (g' & ? & _ & Hn). by replace g with g' in Hog by lia.
        -- destruct (Hcase q x k _ Ex Ek) as [Hq Ex']. split; [right; split; [lia | by exists q, x, k] |].
           intros k' Ek'. by destruct (F6 q x k p n k' _ Ex' E Ek Ek' ltac:(lia)).
    + intros q x Ex. destruct (decide (q = p)) as [-> | Hq]; [rewrite lookup_insert_eq in Ex; injection Ex as <-; unfold Zlen; cbn; lia |].
      rewrite lookup_insert_ne in Ex by done. by apply (F8 q).
Qed.

(** ** Files *)

(** Sizes are 32 bits wide, and what is behind the end of a file is zeroes. *)
Record data_ok (s : ramfs) : Prop := {
  da_frames : frames_ok o c s;
  da_size : forall p n, nodes s !! p = Some n -> 0 <= size n < 2 ^ 32;
  da_zero : forall p n i, nodes s !! p = Some n -> size n <= i -> fbyte (memory s) n i = 0;
}.

Lemma fbyte_blocks m n n' i : blocks n' = blocks n -> fbyte m n' i = fbyte m n i.
Proof. intros E. unfold fbyte. by rewrite E. Qed.

(** A node changes in what is no content. *)
Lemma data_node s p n n' :
  data_ok s -> nodes s !! p = Some n -> blocks n' = blocks n -> size n' = size n -> data_ok (with_nodes (<[p := n']> (nodes s)) s).
Proof.
  intros [D1 D2 D3] E Hb Hs. split.
  - apply (frames_node o c s p n n'); try done; [by rewrite Hb | unfold pages_of; by rewrite Hb | rewrite Hb; by apply (fr_len _ _ _ D1 p)].
  - cbn [nodes with_nodes]. intros q x Ex. destruct (decide (q = p)) as [-> | Hq].
    + rewrite lookup_insert_eq in Ex. injection Ex as <-. rewrite Hs. by apply (D2 p).
    + rewrite lookup_insert_ne in Ex by done. by apply (D2 q).
  - cbn [nodes with_nodes memory]. intros q x i Ex. destruct (decide (q = p)) as [-> | Hq].
    + rewrite lookup_insert_eq in Ex. injection Ex as <-. rewrite Hs, (fbyte_blocks _ n n') by done. by apply (D3 p).
    + rewrite lookup_insert_ne in Ex by done. by apply (D3 q).
Qed.

Lemma data_ino s i : data_ok s -> data_ok (Ramfs (nodes s) i (pages_held s) (frames s) (memory s)).
Proof. intros [[F1 F2 F3 F4 F5 F6 F7 F8] D2 D3]. split; [by split | done | done]. Qed.

(** A new node, with no pages. *)
Lemma data_new s p n :
  data_ok s -> nodes s !! p = None -> blocks n = [] -> size n = 0 -> data_ok (with_nodes (<[p := n]> (nodes s)) s).
Proof.
  intros [[F1 F2 F3 F4 F5 F6 F7 F8] D2 D3] E Hb Hs.
  assert (Hcase : forall q x j b, <[p := n]> (nodes s) !! q = Some x -> blocks x !! j = Some b -> nodes s !! q = Some x).
  { intros q x j b Ex Ej. destruct (decide (q = p)) as [-> | Hq]; [| by rewrite lookup_insert_ne in Ex].
    rewrite lookup_insert_eq in Ex. injection Ex as <-. by rewrite Hb in Ej. }
  split; [split |..]; cbn [frames nodes pages_held with_nodes memory]; try done.
  - rewrite held_insert by done. unfold pages_of. rewrite Hb, countb_nil. lia.
  - intros q x k b Ex Ek Hne. by apply (F5 q x k b); [eapply Hcase |..].
  - intros q x k q' x' k' b Ex Ex' Ek Ek' Hne. apply (F6 q x k q' x' k' b); try done; [by eapply Hcase | by eapply Hcase].
  - intros g Hg. rewrite F7 by done. split; (intros [? | (Hg0 & q & x & k & Ex & Ek)]; [by left | right; split; [done |]]); exists q, x, k.
    + rewrite lookup_insert_ne; [done | congruence].
    + split; [by eapply Hcase | done].
  - intros q x Ex. destruct (decide (q = p)) as [-> | Hq]; [| rewrite lookup_insert_ne in Ex by done; by apply (F8 q)].
    rewrite lookup_insert_eq in Ex. injection Ex as <-. rewrite Hb. unfold Zlen. cbn. lia.
  - intros q x Ex. destruct (decide (q = p)) as [-> | Hq]; [| rewrite lookup_insert_ne in Ex by done; by apply (D2 q)].
    rewrite lookup_insert_eq in Ex. injection Ex as <-. rewrite Hs. lia.
  - intros q x i Ex Hi. destruct (decide (q = p)) as [-> | Hq]; [| rewrite lookup_insert_ne in Ex by done; by apply (D3 q)].
    rewrite lookup_insert_eq in Ex. injection Ex as <-. unfold fbyte. by rewrite Hb.
Qed.

(** A node without pages goes. *)
Lemma data_delete s p n :
  data_ok s -> nodes s !! p = Some n -> blocks n = [] -> data_ok (with_nodes (delete p (nodes s)) s).
Proof.
  intros [[F1 F2 F3 F4 F5 F6 F7 F8] D2 D3] E Hb.
  assert (Hcase : forall q x, delete p (nodes s) !! q = Some x -> nodes s !! q = Some x) by (by intros q x [_ ?]%lookup_delete_Some).
  split; [split |..]; cbn [frames nodes pages_held with_nodes memory]; try done.
  - rewrite (held_delete _ _ _ E) in F4. unfold pages_of in F4. rewrite Hb, countb_nil in F4. lia.
  - intros q x k b Ex%Hcase. by apply (F5 q x k b).
  - intros q x k q' x' k' b Ex%Hcase Ex'%Hcase. by apply (F6 q x k q' x' k' b).
  - intros g Hg. rewrite F7 by done. split; (intros [? | (Hg0 & q & x & k & Ex & Ek)]; [by left | right; split; [done |]]); exists q, x, k.
    + rewrite lookup_delete_ne; [done |]. intros ->. assert (x = n) as -> by congruence. by rewrite Hb in Ek.
    + split; [by apply Hcase | done].
  - intros q x Ex%Hcase. by apply (F8 q).
  - intros q x Ex%Hcase. by apply (D2 q).
  - intros q x i Ex%Hcase. by apply (D3 q).
Qed.

(** ** The calls on files *)

Lemma node_of_cases ino m :
  (node_of ino m = Some ino /\ exists n, m !! ino = Some n /\ ino <> 0) \/
  (node_of ino m = None /\ (m !! ino = None \/ ino = 0 \/ MAX_NODES <= ino)).
Proof.
  unfold node_of. destruct (Z.eqb_spec ino 0) as [H0 | H0], (Z.leb_spec MAX_NODES ino) as [H1 | H1]; cbn [orb]; [right; tauto.. |].
  destruct (m !! ino) as [n |]; [left; split; [done |]; by exists n | right; tauto].
Qed.

Lemma i32_pos x : 0 <= x < 2 ^ 31 -> i32 x = x.
Proof. intros. unfold i32. cbv zeta. rewrite u32_id by lia. destruct (Z.ltb_spec x 2147483648); lia. Qed.

(** What the file [n] has at [off], [len] bytes at most. *)
Definition read_at (s : ramfs) (n : node) (off len : Z) : list Z :=
  bytes_of s n off (Z.max 0 (Z.min len (size n - off))).

Lemma Zlen_bytes_of s n a k : 0 <= k -> Zlen (bytes_of s n a k) = k.
Proof. intros. unfold bytes_of, Zlen. rewrite length_fmap, length_seqZ. lia. Qed.

Lemma read_spec ino n off len s :
  data_ok s -> node_of ino (nodes s) = Some ino -> nodes s !! ino = Some n -> type n = WFS_TYPE_FILE ->
  0 <= off -> 0 <= len < 2 ^ 31 ->
  ramfs_read kz ino off len s = Done (Zlen (read_at s n off len), read_at s n off len).
Proof.
  intros Hd Hn E Ht Ho Hl. pose proof (da_size _ Hd ino n E) as Hs. unfold ramfs_read, read_at. rewrite Hn, (get_some _ _ _ E).
  cbn [mbind out_bind]. rewrite Ht. rewrite Z.eqb_refl. cbn [negb].
  destruct (Z.leb_spec (size n) off) as [Hge | Hlt].
  { by replace (Z.max 0 (Z.min len (size n - off))) with 0 by lia. }
  set (k := if size n - off <? len then size n - off else len).
  assert (Hk : k = Z.max 0 (Z.min len (size n - off))) by (unfold k; destruct (Z.ltb_spec (size n - off) len); lia).
  rewrite (file_read_spec ino n off k s E) by lia. cbn [mbind out_bind]. rewrite Z.add_0_r, Z.sub_0_r, Hk.
  rewrite Zlen_bytes_of by lia. rewrite i32_pos; [done |]. lia.
Qed.

(** What a write of the bytes [l] at [off] leaves: these bytes, the size that
    covers them, the time [t], and every other byte and file as it was. *)
Record written (s s' : ramfs) (p off : Z) (l : list Z) (t : Z) : Prop := {
  wr_ok : data_ok s';
  wr_ino : next_ino s' = next_ino s;
  wr_node : forall n, nodes s !! p = Some n ->
    meta <$> nodes s' !! p = Some (with_mtime t (with_size (Z.max (size n) (off + Zlen l)) (meta n)));
  wr_meta : forall q, q <> p -> meta <$> nodes s' !! q = meta <$> nodes s !! q;
  wr_bytes : forall q n n' i, nodes s !! q = Some n -> nodes s' !! q = Some n' -> 0 <= i ->
    fbyte (memory s') n' i = if decide (q = p /\ off <= i < off + Zlen l) then l.[i - off] else fbyte (memory s) n i;
  wr_others : forall x, o (x / 4096) -> memory s' x = memory s x;
}.

Lemma written_intro s s1 p off l n n1 z t :
  data_ok s -> nodes s !! p = Some n -> 0 <= off -> off + Zlen l < 2 ^ 32 ->
  frames_ok o c s1 -> patched o s s1 p off l -> nodes s1 !! p = Some n1 -> z = Z.max (size n) (off + Zlen l) ->
  written s (with_nodes (<[p := with_mtime t (with_size z n1)]> (nodes s1)) s1) p off l t.
Proof.
  intros Hd E Ho Hl Hf Hp E1 ->. pose proof (da_size _ Hd p n E) as Hs.
  destruct (patched_meta _ _ _ _ _ _ _ _ Hp E) as (n1' & E1' & Hm). assert (n1' = n1) as -> by congruence.
  set (n2 := with_mtime t (with_size (Z.max (size n) (off + Zlen l)) n1)).
  assert (Hlen : 0 <= Zlen l) by (unfold Zlen; lia).
  assert (Hbytes : forall q x x' i, nodes s !! q = Some x -> <[p := n2]> (nodes s1) !! q = Some x' -> 0 <= i ->
    fbyte (memory s1) x' i = if decide (q = p /\ off <= i < off + Zlen l) then l.[i - off] else fbyte (memory s) x i).
  { intros q x x' i Ex Ex' Hi. destruct (decide (q = p)) as [-> | Hq].
    - rewrite lookup_insert_eq in Ex'. injection Ex' as <-. rewrite (fbyte_blocks _ n1 n2) by done.
      by apply (pt_bytes _ _ _ _ _ _ Hp p x n1).
    - rewrite lookup_insert_ne in Ex' by done. by apply (pt_bytes _ _ _ _ _ _ Hp q x x'). }
  assert (Hmeta : forall q x', q <> p -> nodes s1 !! q = Some x' -> exists x, nodes s !! q = Some x /\ size x = size x').
  { intros q x' Hq Ex'. pose proof (pt_meta _ _ _ _ _ _ Hp q) as H. rewrite Ex' in H. destruct (nodes s !! q) as [x |]; [| done].
    exists x. split; [done |]. apply (inj Some) in H. by apply (f_equal size) in H. }
  split; cbn [nodes with_nodes next_ino memory].
  - split.
    + apply (frames_node o c s1 p n1 n2); try done. exact (fr_len _ _ _ Hf p n1 E1).
    + cbn [nodes with_nodes]. intros q x Ex. destruct (decide (q = p)) as [-> | Hq].
      * rewrite lookup_insert_eq in Ex. injection Ex as <-. cbn [size n2 with_mtime with_size]. lia.
      * rewrite lookup_insert_ne in Ex by done. destruct (Hmeta q x Hq Ex) as (y & Ey & <-). by apply (da_size _ Hd q).
    + cbn [nodes with_nodes memory]. intros q x i Ex Hi. destruct (decide (q = p)) as [-> | Hq].
      * assert (x = n2) as -> by (rewrite lookup_insert_eq in Ex; by injection Ex). cbn [size n2 with_mtime with_size] in Hi.
        rewrite (Hbytes p n n2 i E) by (done || lia). rewrite decide_False by (intros [_ ?]; lia). apply (da_zero _ Hd p n); [done | lia].
      * pose proof Ex as Ex'. rewrite lookup_insert_ne in Ex' by done. destruct (Hmeta q x Hq Ex') as (y & Ey & Hy).
        pose proof (da_size _ Hd q y Ey). rewrite (Hbytes q y x i Ey Ex) by lia. rewrite decide_False by (intros [? _]; done).
        apply (da_zero _ Hd q y); [done | lia].
  - apply Hp.
  - intros x Ex. assert (x = n) as -> by congruence. rewrite lookup_insert_eq. cbn [fmap option_fmap option_map]. f_equal.
    rewrite <- Hm. done.
  - intros q Hq. rewrite lookup_insert_ne by done. apply Hp.
  - exact Hbytes.
  - apply Hp.
Qed.

Lemma write_spec now ino n off buf s :
  data_ok s -> node_of ino (nodes s) = Some ino -> nodes s !! ino = Some n -> type n = WFS_TYPE_FILE ->
  0 <= off -> off + Zlen buf < 2 ^ 32 -> Zlen buf < 2 ^ 31 ->
  exists k s', 0 <= k <= Zlen buf /\ (k < Zlen buf -> no_memory s') /\
    ((ramfs_write kz now ino off buf s = Done (k, s') /\ (k = 0 -> buf = []) /\ written s s' ino off (slice 0 k buf) now) \/
     (ramfs_write kz now ino off buf s = Done (- W_ENOSPC, s') /\ k = 0 /\ buf <> [] /\ written s s' ino off [] (mtime n))).
Proof.
  intros Hd Hn E Ht Ho Hl Hl'. unfold ramfs_write. rewrite Hn, (get_some _ _ _ E). cbn [mbind out_bind].
  rewrite Ht, Z.eqb_refl. cbn [negb].
  destruct (blocks_write_spec ino off buf Ho Hl (length buf) 0 n s (da_frames _ Hd) E) as (k & s1 & -> & Hf & Hk & Hp & Hm);
    [unfold Zlen; lia | unfold Zlen; lia |].
  rewrite Z.add_0_r, Z.sub_0_r in Hp. cbn [mbind out_bind]. rewrite u32_id by lia.
  assert (Hls : Zlen (slice 0 k buf) = k) by (apply Zlen_slice; lia).
  destruct (patched_meta _ _ _ _ _ _ _ _ Hp E) as (n1 & E1 & Hmeta).
  assert (Hsize : size n1 = size n) by (by apply (f_equal size) in Hmeta).
  assert (Htime : mtime n1 = mtime n) by (by apply (f_equal mtime) in Hmeta).
  (* the size, set or left *)
  assert (Hupd : (if size n <? off + k then update ino (with_size (off + k)) (nodes s1) else Done (nodes s1)) =
    Done (<[ino := with_size (Z.max (size n) (off + k)) n1]> (nodes s1))).
  { destruct (Z.ltb_spec (size n) (off + k)).
    - rewrite (update_some _ _ _ _ E1). by rewrite Z.max_r by lia.
    - rewrite Z.max_l by lia. f_equal. symmetry. apply insert_id. rewrite E1, <- Hsize. by destruct n1. }
  rewrite Hupd. cbn [mbind out_bind].
  assert (Hw : forall t, written s (with_nodes (<[ino := with_mtime t (with_size (Z.max (size n) (off + k)) n1)]> (nodes s1)) s1) ino off (slice 0 k buf) t)
    by (intros t; apply (written_intro s s1 ino off _ n n1); try done; rewrite Hls; (done || lia)).
  destruct (Z.eqb_spec k 0) as [Hk0 | Hk0]; cbn [andb].
  - destruct (Z.ltb_spec 0 (Zlen buf)) as [Hpos | Hz].
    + exists k. eexists. split; [lia |]. split; [| right; split; [done |]].
      * intros Hlt. destruct (Hm Hlt) as [H | H]; [by left | by right].
      * split; [done |]. split; [intros ->; by unfold Zlen in Hpos; cbn in Hpos; lia |].
        specialize (Hw (mtime n)). rewrite Hk0 in Hw |- *. rewrite <- Htime in Hw at 1. exact Hw.
    + rewrite (update_some _ _ (with_size (Z.max (size n) (off + k)) n1)) by apply lookup_insert_eq. cbn [mbind out_bind].
      rewrite insert_insert_eq, i32_pos by lia. exists k. eexists. split; [lia |].
      split; [lia |]. left. split; [done |]. split; [| apply Hw].
      intros _. destruct buf; [done |]. unfold Zlen in Hz. cbn in Hz. lia.
  - rewrite (update_some _ _ (with_size (Z.max (size n) (off + k)) n1)) by apply lookup_insert_eq. cbn [mbind out_bind].
    rewrite insert_insert_eq, i32_pos by lia. exists k. eexists. split; [lia |]. split; [| left; split; [done |]; split; [lia | apply Hw]].
    intros Hlt. destruct (Hm Hlt) as [H | H]; [by left | by right].
Qed.

Lemma ramfs_truncate_spec now ino n s :
  data_ok s -> node_of ino (nodes s) = Some ino -> nodes s !! ino = Some n ->
  exists f s', ramfs_truncate now ino s = Done (0, s') /\ data_ok s' /\
    s' = Ramfs (<[ino := with_mtime now (with_size 0 (with_blocks [] n))]> (nodes s)) (next_ino s) (pages_held s - pages_of n) f (memory s) /\
    forall g, 0 < g -> Pmm.used f g = true <-> Pmm.used (frames s) g = true /\ forall k, blocks n !! k <> Some (g * 4096).
Proof.
  intros Hd Hn E. unfold ramfs_truncate. rewrite Hn.
  destruct (blocks_release_spec ino n s (da_frames _ Hd) E) as (f & -> & Hf & Hu). cbn [mbind out_bind].
  rewrite (update_some _ ino (with_blocks [] n)) by apply lookup_insert_eq. cbn [mbind out_bind].
  rewrite (update_some _ ino (with_size 0 (with_blocks [] n))) by apply lookup_insert_eq. cbn [mbind out_bind].
  exists f. eexists. split; [done |]. unfold emptied, with_nodes. cbn [nodes next_ino pages_held frames memory].
  rewrite !insert_insert_eq. split; [| done]. set (n' := with_mtime now (with_size 0 (with_blocks [] n))).
  split; cbn [nodes memory].
  - pose proof (frames_node o c (emptied ino n f s) ino (with_blocks [] n) n' Hf) as H. unfold emptied, with_nodes in H.
    cbn [nodes next_ino pages_held frames memory] in H. rewrite insert_insert_eq in H. apply H; [apply lookup_insert_eq | done | done |].
    unfold Zlen. cbn. lia.
  - intros q x Ex. destruct (decide (q = ino)) as [-> | Hq].
    + rewrite lookup_insert_eq in Ex. injection Ex as <-. cbn. lia.
    + rewrite lookup_insert_ne in Ex by done. by apply (da_size _ Hd q).
  - intros q x i Ex Hi. destruct (decide (q = ino)) as [-> | Hq].
    + rewrite lookup_insert_eq in Ex. injection Ex as <-. done.
    + rewrite lookup_insert_ne in Ex by done. by apply (da_zero _ Hd q).
Qed.

(** [destroy]: the node and its pages are gone. *)
Lemma destroy_spec p n s :
  data_ok s -> nodes s !! p = Some n ->
  exists f, destroy p s = Done (Ramfs (delete p (nodes s)) (next_ino s) (pages_held s - pages_of n) f (memory s)) /\
    data_ok (Ramfs (delete p (nodes s)) (next_ino s) (pages_held s - pages_of n) f (memory s)) /\
    forall g, 0 < g -> Pmm.used f g = true <-> Pmm.used (frames s) g = true /\ forall k, blocks n !! k <> Some (g * 4096).
Proof.
  intros Hd E. unfold destroy. destruct (blocks_release_spec p n s (da_frames _ Hd) E) as (f & -> & Hf & Hu). cbn [mbind out_bind].
  exists f. unfold emptied, with_nodes in *. cbn [nodes next_ino pages_held frames memory]. rewrite delete_insert_eq. split; [done |].
  split; [| exact Hu].
  pose proof (data_delete (emptied p n f s) p (with_blocks [] n)) as H. unfold emptied, with_nodes in H.
  cbn [nodes next_ino pages_held frames memory] in H. rewrite delete_insert_eq in H. apply H; [| apply lookup_insert_eq | done].
  split; cbn [nodes memory]; [done | |].
  - intros q x Ex. destruct (decide (q = p)) as [-> | Hq].
    + rewrite lookup_insert_eq in Ex. injection Ex as <-. exact (da_size _ Hd p n E).
    + rewrite lookup_insert_ne in Ex by done. by apply (da_size _ Hd q).
  - intros q x i Ex Hi. destruct (decide (q = p)) as [-> | Hq].
    + rewrite lookup_insert_eq in Ex. injection Ex as <-. done.
    + rewrite lookup_insert_ne in Ex by done. by apply (da_zero _ Hd q).
Qed.

End data.

End RamfsData.
