(* ===== verification/RamfsTree.v ===== *)
(** The directory tree of [Ramfs]: the lists of children behind the pointers, and
    that walking a path, making, removing and moving a node are the operations of
    [DirTree] on it. *)

From S2P Require Import Prelude Str Ring Pmm Path Wfs DirTree Ramfs RamfsData.

Module RamfsTree.

Import Str Ring DirTree Ramfs RamfsData.
Import Path (W_NAME_MAX).
Import Wfs (WFS_TYPE_FILE, WFS_TYPE_DIR).

Notation store := (gmap Z node).
Implicit Types (m : store) (K : Z -> list Z).

(** ** Lists of children *)

(** The nodes from the pointer [h] on are those of [l]. *)
Inductive chain m : option Z -> list Z -> Prop :=
| chain_nil : chain m None []
| chain_cons c x l : m !! c = Some x -> chain m (next x) l -> chain m (Some c) (c :: l).

Fixpoint list_from (n : nat) m (h : option Z) : list Z :=
  match n, h with
  | S n, Some c => match m !! c with Some x => c :: list_from n m (next x) | None => [] end
  | _, _ => []
  end.

(** The children of [d]. *)
Definition kids m (d : Z) : list Z :=
  match m !! d with Some x => list_from LIST_FUEL m (children x) | None => [] end.

Lemma chain_list m h l : chain m h l -> forall n, (length l <= n)%nat -> list_from n m h = l.
Proof.
  intros H. induction H as [| c x l E _ IH]; intros n Hn; [by destruct n |].
  destruct n as [| n]; cbn [length] in Hn; [lia |]. cbn [list_from]. rewrite E. f_equal. apply IH. lia.
Qed.

Lemma chain_in m h l c : chain m h l -> c ∈ l -> exists x, m !! c = Some x.
Proof.
  intros H. induction H as [| a x l E _ IH]; intros Hc; [by apply not_elem_of_nil in Hc |].
  apply elem_of_cons in Hc as [-> | Hc]; [by exists x | by apply IH].
Qed.

(** Changes that leave a list alone. *)
Lemma chain_other m h l c x : chain m h l -> c ∉ l -> chain (<[c := x]> m) h l.
Proof.
  intros H. induction H as [| a y l E _ IH]; intros Hc; [constructor |]. apply not_elem_of_cons in Hc as [Hne Hc].
  apply (chain_cons _ a y); [by rewrite lookup_insert_ne | by apply IH].
Qed.

Lemma chain_next m h l c x y : chain m h l -> m !! c = Some y -> next x = next y -> chain (<[c := x]> m) h l.
Proof.
  intros H Ec Hx. induction H as [| a z l E _ IH]; [constructor |]. destruct (decide (a = c)) as [-> | Hne].
  - apply (chain_cons _ c x); [by rewrite lookup_insert_eq |]. assert (z = y) as -> by congruence. by rewrite Hx.
  - apply (chain_cons _ a z); [by rewrite lookup_insert_ne | done].
Qed.

Lemma chain_delete m h l c : chain m h l -> c ∉ l -> chain (delete c m) h l.
Proof.
  intros H. induction H as [| a y l E _ IH]; intros Hc; [constructor |]. apply not_elem_of_cons in Hc as [Hne Hc].
  apply (chain_cons _ a y); [by rewrite lookup_delete_ne | by apply IH].
Qed.

(** ** The links *)

(** Names a node can have. *)
Definition name_good (n : list Z) : Prop := n <> [] /\ slash ∉ n /\ Zlen n <= W_NAME_MAX /\ ~ special n.

(** [K] are the children.  The nodes in [free] are in no list just now. *)
Record linked m K (free : Z -> Prop) : Prop := {
  ln_range : forall i x, m !! i = Some x -> 0 < i < MAX_NODES;
  ln_chain : forall d x, m !! d = Some x -> chain m (children x) (K d);
  ln_dead : forall d, m !! d = None -> K d = [];
  ln_nodup : forall d, NoDup (K d);
  ln_kid : forall d c, c ∈ K d -> ~ free c /\ exists x, m !! c = Some x /\ parent x = Some d;
  ln_parent : forall c x d, m !! c = Some x -> ~ free c -> parent x = Some d -> c ∈ K d;
  ln_dir : forall d x, m !! d = Some x -> K d <> [] -> type x = WFS_TYPE_DIR;
  ln_name : forall c x, m !! c = Some x -> ~ free c -> c <> ROOT_INO -> name_good (name x) /\ parent x <> None;
  ln_uniq : forall d c c' x x', c ∈ K d -> c' ∈ K d -> m !! c = Some x -> m !! c' = Some x' -> name x = name x' -> c = c';
  ln_root : exists x, m !! ROOT_INO = Some x /\ parent x = None /\ type x = WFS_TYPE_DIR /\ ~ free ROOT_INO;
}.

Definition none (i : Z) : Prop := False.

Lemma kids_short m K free d : linked m K free -> (length (K d) <= LIST_FUEL)%nat.
Proof.
  intros L. assert (Hs : K d ⊆+ seqZ 1 1023).
  { apply NoDup_submseteq; [apply L |]. intros c Hc. apply elem_of_seqZ.
    destruct (ln_kid _ _ _ L d c Hc) as (_ & x & E & _). pose proof (ln_range _ _ _ L c x E). unfold MAX_NODES in *. lia. }
  apply submseteq_length in Hs. rewrite length_seqZ in Hs. unfold LIST_FUEL, MAX_NODES. lia.
Qed.

Lemma linked_kids m K free d : linked m K free -> kids m d = K d.
Proof.
  intros L. unfold kids. destruct (m !! d) as [x |] eqn:E; [| by rewrite (ln_dead _ _ _ L d E)].
  apply chain_list; [by apply L | by apply (kids_short m K free)].
Qed.

Lemma linked_ext m K K' free : linked m K free -> (forall d, K' d = K d) -> linked m K' free.
Proof.
  intros [L1 L2 L3 L4 L5 L6 L7 L8 L9 L10] HK. split; try done; intros d; rewrite ?HK; eauto.
  all: try (intros c; rewrite HK; eauto).
  intros x d'. rewrite HK. eauto.
Qed.

Lemma linked_iff m K free free' : linked m K free -> (forall i, free' i <-> free i) -> linked m K free'.
Proof.
  intros [L1 L2 L3 L4 L5 L6 L7 L8 L9 L10] Hf. split; try done.
  - intros d c Hc. rewrite Hf. by apply L5.
  - intros c x d E. rewrite Hf. by apply L6.
  - intros c x E. rewrite Hf. by apply L8.
  - setoid_rewrite Hf. done.
Qed.

(** ** Finding a name *)

Fixpoint find_named m (l : list Z) (nm : list Z) : option Z :=
  match l with
  | [] => None
  | c :: l => match m !! c with Some x => if decide (name x = nm) then Some c else find_named m l nm | None => None end
  end.

Lemma find_child_spec m h l nm : chain m h l -> forall n, (length l <= n)%nat -> find_child n m h nm = Done (find_named m l nm).
Proof.
  intros H. induction H as [| c x l E _ IH]; intros n Hn; [by destruct n |]. cbn [length] in Hn.
  destruct n as [| n]; [lia |]. cbn [find_child find_named]. rewrite (get_some _ _ _ E), E. cbn [mbind out_bind].
  case_bool_decide; case_decide; try done. apply IH. lia.
Qed.

Lemma child_named_spec m K free d nm x :
  linked m K free -> m !! d = Some x -> child_named m d nm = Done (find_named m (K d) nm).
Proof.
  intros L E. unfold child_named. rewrite (get_some _ _ _ E). cbn [mbind out_bind].
  apply find_child_spec; [by apply L | by apply (kids_short m K free)].
Qed.

Lemma find_named_some m l nm c : find_named m l nm = Some c -> c ∈ l /\ exists x, m !! c = Some x /\ name x = nm.
Proof.
  induction l as [| a l IH]; cbn [find_named]; [done |]. destruct (m !! a) as [x |] eqn:E; [| done]. case_decide.
  - intros [= <-]. split; [by left | by exists x].
  - intros H1. destruct (IH H1) as [? ?]. split; [by right | done].
Qed.

Lemma find_named_iff m K free d nm c :
  linked m K free -> find_named m (K d) nm = Some c <-> c ∈ K d /\ exists x, m !! c = Some x /\ name x = nm.
Proof.
  intros L. split; [apply find_named_some |]. intros (Hc & x & Ex & Hn).
  assert (Hall : forall l, (forall a, a ∈ l -> a ∈ K d) -> c ∈ l -> find_named m l nm = Some c); [| by apply Hall].
  induction l as [| a l IH]; intros Hl Hin; [by apply not_elem_of_nil in Hin |]. cbn [find_named].
  destruct (ln_kid _ _ _ L d a (Hl a ltac:(by left))) as (_ & y & Ey & _). rewrite Ey. case_decide as Hy.
  - f_equal. apply (ln_uniq _ _ _ L d a c y x); [apply Hl; by left | done | done | done | congruence].
  - apply elem_of_cons in Hin as [-> | Hin]; [congruence |]. apply IH; [| done]. intros b Hb. apply Hl. by right.
Qed.

(** ** The tree *)

Definition live m (i : Z) : Prop := exists x, m !! i = Some x.
Definition is_dir m (i : Z) : Prop := exists x, m !! i = Some x /\ type x = WFS_TYPE_DIR.

(** What the directory [d] says of a name, with the two names that on the disk are
    entries and here are in the pointers. *)
Definition entry m (d : Z) (nm : list Z) : option Z :=
  if decide (nm = dot) then Some d
  else if decide (nm = dotdot) then
    match m !! d with Some x => match parent x with Some p => Some p | None => Some d end | None => None end
  else find_named m (kids m d) nm.

Definition tree_of m : shape := Shape (live m) (is_dir m) (entry m).

Lemma not_special nm : ~ special nm -> nm <> dot /\ nm <> dotdot.
Proof. unfold special. tauto. Qed.

Lemma entry_plain m d nm : ~ special nm -> entry m d nm = find_named m (kids m d) nm.
Proof. intros [? ?]%not_special. unfold entry. by rewrite !decide_False. Qed.

Lemma entry_iff m K free d nm c :
  linked m K free -> ~ special nm -> entry m d nm = Some c <-> c ∈ K d /\ exists x, m !! c = Some x /\ name x = nm.
Proof. intros L Hn. rewrite entry_plain by done. rewrite (linked_kids m K free d L). by apply (find_named_iff m K free). Qed.

(** ** Walking a path *)

(** The node that following the names from [d] gives. *)
Fixpoint follow m (d : Z) (l : list (list Z)) : option Z :=
  match l with
  | [] => Some d
  | nm :: l => if W_NAME_MAX <? Zlen nm then None else c ← find_named m (kids m d) nm; follow m c l
  end.

(** The directory and the last name. *)
Fixpoint parent_from m (d : Z) (l : list (list Z)) : option (Z * list Z) :=
  match l with
  | [] => None
  | [nm] => if W_NAME_MAX <? Zlen nm then None else Some (d, nm)
  | nm :: l =>
      if W_NAME_MAX <? Zlen nm then None
      else c ← find_named m (kids m d) nm;
        match m !! c with Some x => if type x =? WFS_TYPE_DIR then parent_from m c l else None | None => None end
  end.

(** The names below the mount point. *)
Definition names_of (path : list Z) : list (list Z) := components (drop (length RAMFS_MOUNT) path).
Definition node_at m path : option Z := if ramfs_owns path then follow m ROOT_INO (names_of path) else None.
Definition parent_at m path : option (Z * list Z) := if ramfs_owns path then parent_from m ROOT_INO (names_of path) else None.

Lemma follow_file m K d x l : linked m K none -> m !! d = Some x -> type x <> WFS_TYPE_DIR -> l <> [] -> follow m d l = None.
Proof.
  intros L E Ht Hl. destruct l as [| nm l]; [done |]. cbn [follow]. destruct (W_NAME_MAX <? Zlen nm); [done |].
  rewrite (linked_kids m K none d L). destruct (decide (K d = [])) as [-> | Hk]; [done |]. by destruct (Ht (ln_dir _ _ _ L d x E Hk)).
Qed.

Lemma components_empty p : components p = [] <-> skip_slashes p = [].
Proof.
  rewrite <- components_skip. pose proof (skip_slashes_head p) as H. destruct (skip_slashes p) as [| c q]; [done |].
  rewrite components_step by done. done.
Qed.

(** The loop, as following the names. *)
Definition walked m (want : bool) (d : Z) (l : list (list Z)) : option Z * option (Z * list Z) :=
  if want then match parent_from m d l with Some (p, nm) => (find_named m (kids m p) nm, Some (p, nm)) | None => (None, None) end
  else (follow m d l, None).

Lemma walk_loop_spec m K want : linked m K none -> forall fuel d p,
  live m d -> (length p < fuel)%nat -> walk_loop fuel m want d p = Done (walked m want d (components p)).
Proof.
  intros L. induction fuel as [| fuel IH]; intros d p [x E] Hf; [lia |]. cbn [walk_loop].
  rewrite <- (components_skip p). pose proof (skip_slashes_head p) as Hh. pose proof (skip_slashes_length p) as Hsl.
  destruct (skip_slashes p) as [| a q]; [by destruct want |]. rewrite components_step by done.
  pose proof (component_length a q Hh) as Hcl. destruct (component (a :: q)) as [nm r]. cbn [fst snd] in *.
  unfold walked. cbn [follow]. destruct (W_NAME_MAX <? Zlen nm) eqn:Hlong.
  { destruct want; [| done]. cbn [parent_from]. by destruct (components r); rewrite Hlong. }
  rewrite (child_named_spec m K none d nm x L E). cbn [mbind out_bind]. rewrite (linked_kids m K none d L).
  case_bool_decide as Hr.
  - apply components_empty in Hr. rewrite Hr. cbn [parent_from follow]. rewrite Hlong, (linked_kids m K none d L).
    destruct want; cbn [andb]; [done |]. by destruct (find_named m (K d) nm).
  - cbn [andb]. assert (Hc : components r <> []) by (by rewrite components_empty).
    destruct (components r) as [| n2 l2] eqn:Ecr; [done |].
    destruct (find_named m (K d) nm) as [c |] eqn:Efn.
    2: { cbn [mbind option_bind parent_from]. rewrite Hlong, (linked_kids m K none d L), Efn. by destruct want. }
    destruct (find_named_some _ _ _ _ Efn) as (_ & y & Ey & _). rewrite (get_some _ _ _ Ey). cbn [mbind out_bind option_bind].
    assert (Hpf : parent_from m d (nm :: n2 :: l2) = if type y =? WFS_TYPE_DIR then parent_from m c (n2 :: l2) else None).
    { cbn [parent_from]. rewrite Hlong, (linked_kids m K none d L), Efn. cbn [mbind option_bind]. by rewrite Ey. }
    rewrite Hpf. destruct (Z.eqb_spec (type y) WFS_TYPE_DIR) as [Hty | Hty]; cbn [negb].
    + rewrite IH by ((by exists y) || lia). rewrite Ecr. done.
    + destruct want; [done |]. by rewrite (follow_file m K c y).
Qed.

Lemma walk_spec m K want path :
  linked m K none ->
  walk want path m = Done (if want then (match parent_at m path with Some (p, nm) => find_named m (kids m p) nm | None => None end, parent_at m path)
    else (node_at m path, None)).
Proof.
  intros L. unfold walk, parent_at, node_at. destruct (ramfs_owns path); cbn [negb]; [| by destruct want].
  destruct (ln_root _ _ _ L) as (x & E & _). unfold node_of. cbn [orb Z.eqb Z.leb]. rewrite E.
  change ((ROOT_INO =? 0) || (MAX_NODES <=? ROOT_INO))%bool with false. cbn iota.
  rewrite (walk_loop_spec m K want L) by ((by exists x) || lia). unfold walked, names_of. destruct want; [| done].
  by destruct (parent_from m ROOT_INO _) as [[p nm] |].
Qed.

Lemma parent_from_spec m K : linked m K none -> forall l d p nm,
  Forall (fun n => n <> [] /\ slash ∉ n) l -> is_dir m d -> parent_from m d l = Some (p, nm) ->
  is_dir m p /\ nm <> [] /\ slash ∉ nm /\ Zlen nm <= W_NAME_MAX.
Proof.
  intros L. induction l as [| n l IH]; intros d p nm Hl Hd; [done |]. apply Forall_cons in Hl as [Hn Hl].
  destruct l as [| n2 l]; cbn [parent_from].
  - destruct (Z.ltb_spec W_NAME_MAX (Zlen n)); [done |]. intros [= <- <-]. destruct Hn. split; [done |]. split; [done |]. split; [done | lia].
  - destruct (W_NAME_MAX <? Zlen n); [done |]. destruct (find_named m (kids m d) n) as [a |]; [| done]. cbn [mbind option_bind].
    destruct (m !! a) as [x |] eqn:E; [| done]. destruct (Z.eqb_spec (type x) WFS_TYPE_DIR); [| done]. apply IH; [done | by exists x].
Qed.

Lemma components_plain p : Forall (fun n => n <> [] /\ slash ∉ n) (components p).
Proof.
  assert (H : forall k p, (length p <= k)%nat -> Forall (fun n => n <> [] /\ slash ∉ n) (components p)); [| by apply (H (length p))].
  induction k as [| k IH]; intros q Hq; rewrite <- components_skip; pose proof (skip_slashes_head q) as Hh;
    pose proof (skip_slashes_length q) as Hs; (destruct (skip_slashes q) as [| a r]; [constructor |]); cbn [length] in Hs; [lia |].
  rewrite components_step by done. constructor.
  - split; [by apply component_nonempty | apply component_spec].
  - apply IH. pose proof (component_length a r Hh) as Hl. cbn [length] in Hl. lia.
Qed.

Lemma path_parent_spec m K path p nm :
  linked m K none -> parent_at m path = Some (p, nm) -> is_dir m p /\ nm <> [] /\ slash ∉ nm /\ Zlen nm <= W_NAME_MAX.
Proof.
  intros L. unfold parent_at. destruct (ramfs_owns path); [| done]. apply (parent_from_spec m K); [done | apply components_plain |].
  destruct (ln_root _ _ _ L) as (x & ? & _ & ? & _). by exists x.
Qed.

(** ** Taking a node out of its list *)

(** What is no link of a list. *)
Definition core (x : node) : node := with_next None (with_children None x).

Lemma core_fields x y : core x = core y ->
  type x = type y /\ size x = size y /\ mtime x = mtime y /\ name x = name y /\ parent x = parent y /\ blocks x = blocks y.
Proof. destruct x, y. unfold core, with_next, with_children. cbn. intros [= -> -> -> -> -> ->]. done. Qed.

Lemma core_look m m' q x : (forall q, core <$> m' !! q = core <$> m !! q) -> m !! q = Some x -> exists x', m' !! q = Some x' /\ core x' = core x.
Proof.
  intros H E. specialize (H q). rewrite E in H. destruct (m' !! q) as [x' |]; [| done]. exists x'. split; [done |]. by apply (inj Some) in H.
Qed.

Definition out_of (n : Z) (l : list Z) : list Z := filter (fun c => c <> n) l.

Lemma out_of_in n l c : c ∈ out_of n l <-> c ∈ l /\ c <> n.
Proof. unfold out_of. rewrite list_elem_of_filter. tauto. Qed.

Lemma out_of_other n l : n ∉ l -> out_of n l = l.
Proof.
  intros H. unfold out_of. induction l as [| a l IH]; [done |]. apply not_elem_of_cons in H as [? ?].
  rewrite filter_cons_True by done. by rewrite IH.
Qed.

Lemma out_of_head n l : n ∉ l -> out_of n (n :: l) = l.
Proof. intros H. unfold out_of. rewrite filter_cons_False by (by intros ?). by apply out_of_other. Qed.

(** The lists lost [n], and nothing else changed. *)
Lemma relinked m m' K free p n :
  linked m K free -> n ∈ K p -> (forall q, core <$> m' !! q = core <$> m !! q) ->
  (forall d x, m' !! d = Some x -> chain m' (children x) (out_of n (K d))) ->
  linked m' (fun d => out_of n (K d)) (fun i => free i \/ i = n).
Proof.
  intros [L1 L2 L3 L4 L5 L6 L7 L8 L9 L10] Hn Hc Hch.
  assert (Hc' : forall q, core <$> m !! q = core <$> m' !! q) by (intros q; by rewrite Hc).
  split.
  - intros i x E. destruct (core_look m' m i x Hc' E) as (y & Ey & _). by apply (L1 i y).
  - done.
  - intros d E. specialize (Hc d). rewrite E in Hc. destruct (m !! d) as [x |] eqn:Ed; [done |]. by rewrite (L3 d Ed).
  - intros d. apply NoDup_filter, L4.
  - intros d c [Hcd Hne]%out_of_in. destruct (L5 d c Hcd) as (Hf & x & E & Hp). split; [tauto |].
    destruct (core_look m m' c x Hc E) as (y & Ey & Hy). exists y. split; [done |]. apply core_fields in Hy. destruct Hy as (_ & _ & _ & _ & -> & _). done.
  - intros c x d E Hf Hp. destruct (core_look m' m c x Hc' E) as (y & Ey & Hy). apply core_fields in Hy as (_ & _ & _ & _ & Hy & _).
    apply out_of_in. split; [apply (L6 c y d); [done | tauto | congruence] | tauto].
  - intros d x E Hk. destruct (core_look m' m d x Hc' E) as (y & Ey & Hy). apply core_fields in Hy as (Hy & _).
    rewrite <- Hy. apply (L7 d y Ey). intros Hz. by rewrite Hz in Hk.
  - intros c x E Hf Hr. destruct (core_look m' m c x Hc' E) as (y & Ey & Hy). apply core_fields in Hy as (_ & _ & _ & Hy & Hy' & _).
    rewrite <- Hy, <- Hy'. apply (L8 c y Ey); tauto.
  - intros d c c' x x' [H1 _]%out_of_in [H2 _]%out_of_in E E'.
    destruct (core_look m' m c x Hc' E) as (y & Ey & Hy), (core_look m' m c' x' Hc' E') as (y' & Ey' & Hy').
    apply core_fields in Hy as (_ & _ & _ & <- & _), Hy' as (_ & _ & _ & <- & _). by apply (L9 d c c' y y').
  - destruct L10 as (x & E & Hp & Ht & Hf). destruct (core_look m m' _ x Hc E) as (y & Ey & Hy).
    apply core_fields in Hy as (Hy1 & _ & _ & _ & Hy2 & _). exists y. split; [done |]. split; [congruence |]. split; [congruence |].
    intros [? | <-]; [done |]. destruct (L5 p _ Hn) as (_ & z & Ez & Hz). congruence.
Qed.

Lemma detach_loop_spec m n xn : m !! n = Some xn -> forall l a fuel,
  chain m (Some a) (a :: l) -> NoDup (a :: l) -> n ∈ l -> (length l <= fuel)%nat ->
  exists b y, m !! b = Some y /\ b ∈ a :: l /\ b <> n /\
    detach_loop fuel a n m = Done (<[b := with_next (next xn) y]> m) /\
    chain (<[b := with_next (next xn) y]> m) (Some a) (a :: out_of n l).
Proof.
  intros En. induction l as [| b l IH]; intros a fuel Hch Hnd Hin Hf; [by apply not_elem_of_nil in Hin |].
  apply NoDup_cons in Hnd as [Ha Hnd]. inversion Hch as [| ? x ? Ea Hch' E1 E2]; subst.
  inversion Hch' as [| ? y ? Eb Hch2 E1 E2]; subst. cbn [length] in Hf.
  assert (Hd : detach_loop fuel a n m = if b =? n then update a (with_next (next xn)) m
    else match fuel with O => Spent | S fuel => detach_loop fuel b n m end).
  { destruct fuel as [| fuel]; cbn [detach_loop]; rewrite (get_some _ _ _ Ea); cbn [mbind out_bind]; rewrite <- E1;
      rewrite (get_some _ _ _ En); cbn [mbind out_bind]; done. }
  rewrite Hd. apply NoDup_cons in Hnd as [Hb Hnd]. destruct (Z.eqb_spec b n) as [-> | Hbn].
  - exists a, x. split; [done |]. split; [by left |]. split; [intros ->; apply Ha; by left |].
    rewrite (update_some _ _ _ _ Ea). split; [done |]. rewrite out_of_head by done.
    apply (chain_cons _ a (with_next (next xn) x)); [by rewrite lookup_insert_eq |]. cbn [next with_next].
    assert (y = xn) as -> by congruence. apply chain_other; [done |]. intros ?. apply Ha. by right.
  - destruct fuel as [| fuel]; [lia |]. apply elem_of_cons in Hin as [? | Hin]; [done |].
    destruct (IH b fuel) as (b' & y' & Eb' & Hin' & Hne & -> & Hc); try done; [by apply (chain_cons _ b y) | by apply NoDup_cons | lia |].
    exists b', y'. split; [done |]. split; [by right |]. split; [done |]. split; [done |].
    unfold out_of. rewrite filter_cons_True by done. apply (chain_cons _ a x).
    + rewrite lookup_insert_ne; [done |]. intros ->. done.
    + by rewrite <- E1.
Qed.

Lemma detach_spec m K free p n :
  linked m K free -> n ∈ K p -> p <> n ->
  exists m', detach p n m = Done m' /\ linked m' (fun d => out_of n (K d)) (fun i => free i \/ i = n) /\
    (forall q, core <$> m' !! q = core <$> m !! q) /\ (forall x', m' !! n = Some x' -> forall x, m !! n = Some x -> children x' = children x).
Proof.
  intros L Hn Hpn. pose proof L as [L1 L2 L3 L4 L5 L6 L7 L8 L9 L10]. destruct (L5 p n Hn) as (Hfn & xn & En & Hpar).
  destruct (m !! p) as [d |] eqn:Ed; [| rewrite (L3 p Ed) in Hn; by apply not_elem_of_nil in Hn].
  assert (Honly : forall q c, c ∈ K p -> c ∈ K q -> q = p).
  { intros q c H1 H2. destruct (L5 p c H1) as (_ & x & E & Hx), (L5 q c H2) as (_ & x' & E' & Hx'). congruence. }
  pose proof (L2 p d Ed) as Hch. pose proof (L4 p) as Hnd. pose proof (kids_short m K free p L) as Hlen.
  (* the store with the link over [n], the node [b] whose pointer it was *)
  assert (Hmid : exists b z y, m !! b = Some y /\ b <> n /\ core z = core y /\ (b <> p -> children z = children y) /\
    (next z = next y \/ b ∈ K p) /\
    match children d with
    | None => Done m
    | Some a => if a =? n then y ← get m n; update p (with_children (next y)) m else detach_loop LIST_FUEL a n m
    end = Done (<[b := z]> m) /\
    forall x, <[b := z]> m !! p = Some x -> chain (<[b := z]> m) (children x) (out_of n (K p))).
  { inversion Hch as [H1 H2 | a x l Ea Hch' H1 H2].
    { rewrite <- H2 in Hn. by apply not_elem_of_nil in Hn. }
    rewrite <- H2 in *. apply NoDup_cons in Hnd as [Ha Hnd]. destruct (Z.eqb_spec a n) as [-> | Han].
    - assert (x = xn) as -> by congruence. exists p, (with_children (next xn) d), d. split; [done |]. split; [done |]. split; [done |].
      split; [done |]. split; [by left |]. rewrite (get_some _ _ _ En). cbn [mbind out_bind]. rewrite (update_some _ _ _ _ Ed).
      split; [done |]. intros x. rewrite lookup_insert_eq. intros [= <-]. cbn [children with_children]. rewrite out_of_head by done.
      by apply (chain_next m _ _ p _ d).
    - apply elem_of_cons in Hn as [? | Hn]; [done |]. cbn [length] in Hlen.
      destruct (detach_loop_spec m n xn En l a LIST_FUEL) as (b & y & Eb & Hb & Hbn & Hdl & Hc).
      { by apply (chain_cons _ a x). } { by apply NoDup_cons. } { done. } { lia. }
      exists b, (with_next (next xn) y), y. split; [done |]. split; [done |]. split; [done |]. split; [done |]. split; [by right |].
      split; [done |]. intros z Ez. assert (children z = Some a) as ->.
      { destruct (decide (b = p)) as [-> | Hbp]; [rewrite lookup_insert_eq in Ez; injection Ez as <-; cbn; congruence |].
        rewrite lookup_insert_ne in Ez by done. congruence. }
      unfold out_of. rewrite filter_cons_True by done. exact Hc. }
  destruct Hmid as (b & z & y & Eb & Hbn & Hcore & Hchl & Hnext & Hm1 & Hcp).
  unfold detach. rewrite (get_some _ _ _ Ed). cbn [mbind out_bind]. rewrite Hm1. cbn [mbind out_bind].
  set (m1 := <[b := z]> m) in *. assert (En1 : m1 !! n = Some xn) by (unfold m1; by rewrite lookup_insert_ne).
  rewrite (update_some _ _ _ _ En1). set (m' := <[n := with_next None xn]> m1).
  assert (Hco : forall q, core <$> m' !! q = core <$> m !! q).
  { intros q. unfold m'. destruct (decide (q = n)) as [-> | Hq]; [by rewrite lookup_insert_eq, En |]. rewrite lookup_insert_ne by done.
    unfold m1. destruct (decide (q = b)) as [-> | Hqb]; [rewrite lookup_insert_eq, Eb; cbn [fmap option_fmap option_map]; by rewrite Hcore |].
    by rewrite lookup_insert_ne. }
  exists m'. split; [done |]. split; [| split; [exact Hco |]].
  2: { intros x'. unfold m'. rewrite lookup_insert_eq. intros [= <-] x Ex. cbn. congruence. }
  apply (relinked m m' K free p n); [done | done | exact Hco |].
  intros q x' Ex'. assert (Hq : exists x1, m1 !! q = Some x1 /\ children x1 = children x').
  { unfold m' in Ex'. destruct (decide (q = n)) as [-> | Hqn]; [| rewrite lookup_insert_ne in Ex' by done; by exists x'].
    rewrite lookup_insert_eq in Ex'. injection Ex' as <-. by exists xn. }
  destruct Hq as (x1 & E1 & <-).
  assert (Hnot : n ∉ out_of n (K q)) by (intros [_ ?]%out_of_in; done).
  apply chain_other; [| done]. destruct (decide (q = p)) as [-> | Hqp]; [by apply Hcp |].
  rewrite out_of_other by (intros H; by apply Hqp, (Honly q n)).
  assert (Hold : exists x0, m !! q = Some x0 /\ children x0 = children x1).
  { unfold m1 in E1. destruct (decide (q = b)) as [-> | Hqb]; [| rewrite lookup_insert_ne in E1 by done; by exists x1].
    rewrite lookup_insert_eq in E1. injection E1 as <-. exists y. split; [done | symmetry; by apply Hchl]. }
  destruct Hold as (x0 & E0 & <-). pose proof (L2 q x0 E0) as Hc0.
  destruct Hnext as [Hnx | Hbk]; [by apply (chain_next m _ _ b z y) |]. apply chain_other; [done |]. intros H. by apply Hqp, (Honly q b).
Qed.

(** ** Putting nodes in and taking them away *)

Lemma linked_delete m K free n :
  linked m K free -> free n -> K n = [] -> linked (delete n m) K (fun i => free i /\ i <> n).
Proof.
  intros [L1 L2 L3 L4 L5 L6 L7 L8 L9 L10] Hf Hk.
  assert (Hin : forall q x, delete n m !! q = Some x -> q <> n /\ m !! q = Some x) by (intros q x [? ?]%lookup_delete_Some; done).
  assert (Hno : forall d, n ∉ K d) by (intros d Hd; by destruct (L5 d n Hd)).
  split.
  - intros i x [_ E]%Hin. by apply (L1 i x).
  - intros d x [_ E]%Hin. apply chain_delete; [by apply L2 | apply Hno].
  - intros d E. destruct (decide (d = n)) as [-> | Hd]; [done |]. rewrite lookup_delete_ne in E by done. by apply L3.
  - done.
  - intros d c Hc. destruct (L5 d c Hc) as (Hfc & x & E & Hp). split; [tauto |]. exists x. rewrite lookup_delete_ne; [done |].
    intros ->. by apply (Hno d).
  - intros c x d [Hne E]%Hin Hfc. apply (L6 c x d E). tauto.
  - intros d x [_ E]%Hin. by apply L7.
  - intros c x [Hne E]%Hin Hfc. apply (L8 c x E). tauto.
  - intros d c c' x x' H1 H2 [_ E]%Hin [_ E']%Hin. by apply (L9 d).
  - destruct L10 as (x & E & ? & ? & Hfr). exists x. rewrite lookup_delete_ne; [| by intros ->]. split; [done |]. split; [done |]. split; [done |]. tauto.
Qed.

(** The node [n], as [x], becomes the first child of [p]. *)
Lemma linked_attach m K free p d n x :
  linked m K free -> m !! p = Some d -> type d = WFS_TYPE_DIR -> n <> p -> n <> ROOT_INO -> 0 < n < MAX_NODES ->
  (free n \/ m !! n = None) -> parent x = Some p -> next x = children d -> name_good (name x) ->
  (forall c y, c ∈ K p -> m !! c = Some y -> name y <> name x) -> chain m (children x) (K n) -> (K n <> [] -> type x = WFS_TYPE_DIR) ->
  linked (<[p := with_children (Some n) d]> (<[n := x]> m)) (fun q => if decide (q = p) then n :: K p else K q) (fun i => free i /\ i <> n).
Proof.
  intros [L1 L2 L3 L4 L5 L6 L7 L8 L9 L10] Ep Hd Hnp Hnr Hr Hfree Hpar Hnext Hgood Huniq Hch Hty.
  set (m' := <[p := with_children (Some n) d]> (<[n := x]> m)).
  assert (Hno : forall q, n ∉ K q).
  { intros q Hq. destruct (L5 q n Hq) as (Hf & y & Ey & _). destruct Hfree; [done | congruence]. }
  assert (Ep' : m' !! p = Some (with_children (Some n) d)) by apply lookup_insert_eq.
  assert (En' : m' !! n = Some x) by (unfold m'; by rewrite lookup_insert_ne, lookup_insert_eq).
  assert (Eo' : forall q, q <> p -> q <> n -> m' !! q = m !! q) by (intros q ? ?; unfold m'; by rewrite !lookup_insert_ne).
  assert (Hcase : forall q y, m' !! q = Some y -> (q = n /\ y = x) \/ (q <> n /\ exists z, m !! q = Some z /\
    type y = type z /\ name y = name z /\ parent y = parent z /\ next y = next z /\ (q <> p -> children y = children z))).
  { intros q y E. destruct (decide (q = n)) as [-> | Hqn]; [left; split; [done | congruence] | right]. split; [done |].
    destruct (decide (q = p)) as [-> | Hqp].
    - assert (y = with_children (Some n) d) as -> by congruence. exists d. done.
    - rewrite Eo' in E by done. by exists y. }
  assert (Hback : forall q z, m !! q = Some z -> q <> n -> exists y, m' !! q = Some y /\ type y = type z /\ name y = name z /\ parent y = parent z).
  { intros q z E Hqn. destruct (decide (q = p)) as [-> | Hqp].
    - exists (with_children (Some n) d). assert (z = d) as -> by congruence. done.
    - exists z. by rewrite Eo'. }
  assert (Hkeep : forall h l, chain m h l -> n ∉ l -> chain m' h l).
  { intros h l Hc Hn. unfold m'. apply (chain_next _ _ _ p _ d); [by apply chain_other | by rewrite lookup_insert_ne | done]. }
  split.
  - intros i y E. destruct (Hcase i y E) as [[-> _] | (_ & z & Ez & _)]; [done | by apply (L1 i z)].
  - intros q y E. destruct (decide (q = p)) as [-> | Hqp].
    + assert (y = with_children (Some n) d) as -> by congruence. cbn [children with_children]. apply (chain_cons _ n x); [done |].
      rewrite Hnext. apply Hkeep; [by apply L2 | apply Hno].
    + destruct (Hcase q y E) as [[-> ->] | (Hqn & z & Ez & _ & _ & _ & _ & Hc)]; [by apply Hkeep |].
      rewrite (Hc Hqp). apply Hkeep; [by apply L2 | apply Hno].
  - intros q E. destruct (decide (q = p)) as [-> | Hqp]; [congruence |]. destruct (decide (q = n)) as [-> | Hqn]; [congruence |].
    rewrite Eo' in E by done. by apply L3.
  - intros q. case_decide as Hq; [| done]. apply NoDup_cons. split; [apply Hno | apply L4].
  - intros q c Hc. assert (Hold : c ∈ K q -> ~ (free c /\ c <> n) /\ exists y, m' !! c = Some y /\ parent y = Some q).
    { intros Hcq. destruct (L5 q c Hcq) as (Hf & z & Ez & Hz). split; [tauto |].
      destruct (Hback c z Ez) as (y & Ey & _ & _ & Hy); [intros ->; by apply (Hno q) |]. exists y. split; [done | congruence]. }
    case_decide as Hq; [| by apply Hold]. subst q. apply elem_of_cons in Hc as [-> | Hc]; [| by apply Hold].
    split; [tauto |]. by exists x.
  - intros c y q E Hf Hp. destruct (Hcase c y E) as [[-> ->] | (Hcn & z & Ez & _ & _ & Hz & _)].
    + assert (q = p) as -> by congruence. rewrite decide_True by done. by left.
    + assert (Hin : c ∈ K q) by (apply (L6 c z q Ez); [tauto | congruence]). case_decide; [subst q; by right | done].
  - intros q y E Hk. destruct (Hcase q y E) as [[-> ->] | (Hqn & z & Ez & -> & _)].
    + rewrite decide_False in Hk by done. by apply Hty.
    + case_decide as Hq; [| by apply (L7 q z)]. subst q. congruence.
  - intros c y E Hf Hr'. destruct (Hcase c y E) as [[-> ->] | (Hcn & z & Ez & _ & -> & -> & _)]; [split; [done | congruence] |].
    apply (L8 c z Ez); tauto.
  - assert (Hlook : forall q c y, c ∈ K q -> m' !! c = Some y -> exists z, m !! c = Some z /\ name y = name z).
    { intros q c y Hc E. destruct (Hcase c y E) as [[-> _] | (_ & z & Ez & _ & Hn & _)]; [by destruct (Hno q) | by exists z]. }
    intros q c c' y y' Hc Hc' E E' Hn. case_decide as Hq.
    + subst q. apply elem_of_cons in Hc as [-> | Hc], Hc' as [-> | Hc'].
      * done.
      * destruct (Hlook p c' y' Hc' E') as (z & Ez & Hz). destruct (Huniq c' z Hc' Ez). assert (y = x) as -> by congruence. congruence.
      * destruct (Hlook p c y Hc E) as (z & Ez & Hz). destruct (Huniq c z Hc Ez). assert (y' = x) as -> by congruence. congruence.
      * destruct (Hlook p c y Hc E) as (z & Ez & Hz), (Hlook p c' y' Hc' E') as (z' & Ez' & Hz'). apply (L9 p c c' z z'); congruence || done.
    + destruct (Hlook q c y Hc E) as (z & Ez & Hz), (Hlook q c' y' Hc' E') as (z' & Ez' & Hz'). apply (L9 q c c' z z'); congruence || done.
  - destruct L10 as (z & Ez & Hz1 & Hz2 & Hz3). destruct (Hback _ z Ez) as (y & Ey & H1 & _ & H2); [done |]. exists y.
    split; [done |]. split; [congruence |]. split; [congruence |]. tauto.
Qed.

(** What is no link and no name changes. *)
Definition place (x : node) : Z * list Z * option Z * option Z * option Z := (type x, name x, parent x, next x, children x).

Lemma linked_same m m' K free : linked m K free -> (forall q, place <$> m' !! q = place <$> m !! q) -> linked m' K free.
Proof.
  intros [L1 L2 L3 L4 L5 L6 L7 L8 L9 L10] Hp.
  assert (Hget : forall q x', m' !! q = Some x' -> exists x, m !! q = Some x /\ place x' = place x).
  { intros q x' E. specialize (Hp q). rewrite E in Hp. destruct (m !! q) as [x |]; [| done]. exists x. split; [done |]. by apply (inj Some) in Hp. }
  assert (Hput : forall q x, m !! q = Some x -> exists x', m' !! q = Some x' /\ place x' = place x).
  { intros q x E. specialize (Hp q). rewrite E in Hp. destruct (m' !! q) as [x' |]; [| done]. exists x'. split; [done |]. by apply (inj Some) in Hp. }
  assert (Hch : forall h l, chain m h l -> chain m' h l).
  { intros h l H. induction H as [| c x l E _ IH]; [constructor |]. destruct (Hput c x E) as (x' & E' & Hx). apply (chain_cons _ c x'); [done |].
    injection Hx as _ _ _ -> _. done. }
  split.
  - intros i x' E. destruct (Hget i x' E) as (x & Ex & _). by apply (L1 i x).
  - intros d x' E. destruct (Hget d x' E) as (x & Ex & Hx). injection Hx as _ _ _ _ ->. by apply Hch, L2.
  - intros d E. destruct (m !! d) as [x |] eqn:Ed; [destruct (Hput d x Ed) as (? & ? & _); congruence | by apply L3].
  - done.
  - intros d c Hc. destruct (L5 d c Hc) as (Hf & x & E & Hx). split; [done |]. destruct (Hput c x E) as (x' & E' & Hx'). exists x'.
    injection Hx' as _ _ -> _ _. done.
  - intros c x' d E Hf Hd. destruct (Hget c x' E) as (x & Ex & Hx). injection Hx as _ _ Hx _ _. apply (L6 c x d Ex Hf). congruence.
  - intros d x' E Hk. destruct (Hget d x' E) as (x & Ex & Hx). injection Hx as -> _ _ _ _. by apply (L7 d).
  - intros c x' E Hf Hr. destruct (Hget c x' E) as (x & Ex & Hx). injection Hx as _ -> -> _ _. by apply (L8 c).
  - intros d c c' x x' H1 H2 E E' Hn. destruct (Hget c x E) as (y & Ey & Hy), (Hget c' x' E') as (y' & Ey' & Hy').
    injection Hy as _ Hy _ _ _. injection Hy' as _ Hy' _ _ _. apply (L9 d c c' y y'); congruence || done.
  - destruct L10 as (x & E & ? & ? & ?). destruct (Hput _ x E) as (x' & E' & Hx). injection Hx as Hx1 _ Hx2 _ _. exists x'.
    split; [done |]. split; [congruence |]. split; [congruence | done].
Qed.

(** A child is not the root and has a name. *)
Lemma kid_name m K free p n x : linked m K free -> n ∈ K p -> m !! n = Some x -> name_good (name x) /\ n <> ROOT_INO.
Proof.
  intros L Hn En. destruct (ln_kid _ _ _ L p n Hn) as (Hf & y & Ey & Hy). assert (y = x) as -> by congruence.
  assert (Hr : n <> ROOT_INO) by (intros ->; destruct (ln_root _ _ _ L) as (z & Ez & Hz & _); congruence).
  split; [| done]. by destruct (ln_name _ _ _ L n x En Hf Hr).
Qed.

(** ** The tree they stand for *)

(** What the tree sees of a node. *)
Definition look (x : node) : Z * list Z * option Z := (type x, name x, parent x).

Lemma look_fields x y : look x = look y -> type x = type y /\ name x = name y /\ parent x = parent y.
Proof. by intros [= -> -> ->]. Qed.

Lemma look_some m m' q x : look <$> m' !! q = look <$> m !! q -> m !! q = Some x -> exists x', m' !! q = Some x' /\ look x' = look x.
Proof. intros H E. rewrite E in H. destruct (m' !! q) as [x' |]; [| done]. exists x'. split; [done |]. by apply (inj Some) in H. Qed.

Lemma entry_special m m' d nm : special nm -> look <$> m' !! d = look <$> m !! d -> entry m' d nm = entry m d nm.
Proof.
  intros Hs H. unfold entry. destruct (decide (nm = dot)); [done |]. destruct (decide (nm = dotdot)); [| by destruct Hs].
  destruct (m !! d) as [x |] eqn:E; [destruct (look_some m m' d x ltac:(by rewrite E) E) as (x' & -> & (_ & _ & ->)%look_fields); done |].
  by destruct (m' !! d).
Qed.

Lemma dir_same m m' d : look <$> m' !! d = look <$> m !! d -> (live m' d <-> live m d) /\ (is_dir m' d <-> is_dir m d).
Proof.
  intros H. unfold live, is_dir. split; (split; [intros (x & E) | intros (x & E)]).
  - destruct (look_some m' m d x (eq_sym H) E) as (y & ? & _). by exists y.
  - destruct (look_some m m' d x H E) as (y & ? & _). by exists y.
  - destruct E as [E Ht]. destruct (look_some m' m d x (eq_sym H) E) as (y & ? & (Hy & _)%look_fields). exists y. split; [done | congruence].
  - destruct E as [E Ht]. destruct (look_some m m' d x H E) as (y & ? & (Hy & _)%look_fields). exists y. split; [done | congruence].
Qed.

Lemma tree_same m m' K :
  linked m K none -> linked m' K none -> (forall q, look <$> m' !! q = look <$> m !! q) -> tree_of m' ≡ tree_of m.
Proof.
  intros L L' H. split; [intros j; apply (dir_same m m' j (H j)) |]. split; [intros j; apply (dir_same m m' j (H j)) |].
  intros d nm _. cbn [tree_of ent]. destruct (decide (special nm)) as [Hs | Hs]; [by apply entry_special |].
  apply option_eq. intros c. rewrite (entry_iff m' K none), (entry_iff m K none) by done.
  split; intros (Hc & x & E & Hx); (split; [done |]).
  - destruct (look_some m' m c x (eq_sym (H c)) E) as (y & Ey & (_ & Hy & _)%look_fields). exists y. split; [done | congruence].
  - destruct (look_some m m' c x (H c) E) as (y & Ey & (_ & Hy & _)%look_fields). exists y. split; [done | congruence].
Qed.

(** The tables are the same but for the nodes in [n]; the name of another node is
    what it was. *)
Lemma named_same m m' c nm :
  look <$> m' !! c = look <$> m !! c -> (exists x, m' !! c = Some x /\ name x = nm) <-> exists x, m !! c = Some x /\ name x = nm.
Proof.
  intros H. split; intros (x & E & Hx).
  - destruct (look_some m' m c x (eq_sym H) E) as (y & Ey & (_ & Hy & _)%look_fields). exists y. split; [done | congruence].
  - destruct (look_some m m' c x H E) as (y & Ey & (_ & Hy & _)%look_fields). exists y. split; [done | congruence].
Qed.

Lemma tree_remove m m' K p n x :
  linked m K none -> linked m' (fun d => out_of n (K d)) none -> n ∈ K p -> m !! n = Some x ->
  (forall q, q <> n -> look <$> m' !! q = look <$> m !! q) -> m' !! n = None -> tree_of m' ≡ remove (tree_of m) p (name x) n.
Proof.
  intros L L' Hn En H Hgone. assert (Hns : ~ special (name x)).
  { by destruct (kid_name m K none p n x L Hn En) as ((_ & _ & _ & ?) & _). }
  assert (Hlive : forall j, (live m' j <-> live m j /\ j <> n) /\ (is_dir m' j <-> is_dir m j /\ j <> n)).
  { intros j. destruct (decide (j = n)) as [-> | Hj].
    - unfold live, is_dir. rewrite Hgone. split; (split; [by intros (? & ?); destruct_and? | by intros [_ ?]]).
    - destruct (dir_same m m' j (H j Hj)). tauto. }
  split; [intros j; apply Hlive |]. split; [intros j; apply Hlive |].
  intros d nm Hd. cbn [tree_of remove ent]. assert (Hdn : d <> n) by (by apply Hlive in Hd as [_ ?]).
  destruct (decide (special nm)) as [Hs | Hs].
  { rewrite put_ent_ne; [by apply entry_special, H |]. intros [_ ->]. done. }
  apply option_eq. intros c. rewrite (entry_iff m' _ none) by done. unfold put_ent. case_decide as Hpn.
  - destruct Hpn as [-> ->]. split; [| done]. intros ([Hc Hcn]%out_of_in & Hx). apply (named_same m m' c (name x) (H c Hcn)) in Hx as (y & Ey & Hy).
    destruct Hcn. by apply (ln_uniq _ _ _ L p c n y x).
  - rewrite (entry_iff m K none), out_of_in by done. split.
    + intros ([Hc Hcn] & Hx). split; [done |]. by apply (named_same m m' c nm (H c Hcn)).
    + intros (Hc & Hx). assert (Hcn : c <> n).
      { intros ->. apply Hpn. destruct Hx as (y & Ey & <-). assert (y = x) as -> by congruence. split; [| done].
        destruct (ln_kid _ _ _ L p n Hn) as (_ & z & Ez & Hz), (ln_kid _ _ _ L d n Hc) as (_ & z' & Ez' & Hz'). congruence. }
      split; [done |]. by apply (named_same m m' c nm (H c Hcn)).
Qed.

Lemma tree_make m m' K p n x :
  linked m K none -> m !! n = None -> linked m' (fun q => if decide (q = p) then n :: K p else K q) none ->
  live m p -> m' !! n = Some x -> parent x = Some p -> ~ special (name x) ->
  (forall q, q <> n -> look <$> m' !! q = look <$> m !! q) ->
  tree_of m' ≡ make (tree_of m) p (name x) n (type x =? WFS_TYPE_DIR).
Proof.
  intros L En L' [y Ep] En' Hpar Hns H. assert (Hnp : n <> p) by congruence.
  assert (Hdead : K n = []) by (by apply L). assert (Hno : forall q, n ∉ K q).
  { intros q Hq. destruct (ln_kid _ _ _ L q n Hq) as (_ & z & Ez & _). congruence. }
  assert (Hlive : forall j, (live m' j <-> live m j \/ j = n) /\ (is_dir m' j <-> is_dir m j \/ ((type x =? WFS_TYPE_DIR) = true /\ j = n))).
  { intros j. destruct (decide (j = n)) as [-> | Hj].
    - unfold live, is_dir. rewrite En, En'. split; split.
      + by right.
      + intros _. by exists x.
      + intros (z & Ez & Hz). right. split; [| done]. assert (z = x) as -> by congruence. by apply Z.eqb_eq.
      + intros [(z & Ez & _) | [Hz _]]; [done |]. exists x. split; [done |]. by apply Z.eqb_eq.
    - destruct (dir_same m m' j (H j Hj)). split; tauto. }
  split; [intros j; apply Hlive |]. split; [intros j; apply Hlive |].
  intros d nm Hd. cbn [tree_of make ent]. destruct (decide (d = n)) as [-> | Hdn].
  - rewrite put_ent_ne by (by intros [? _]). rewrite decide_True by done. unfold entry. rewrite En'.
    destruct (decide (nm = dot)); [done |]. destruct (decide (nm = dotdot)); [by rewrite Hpar |].
    rewrite (linked_kids m' _ none n L'). rewrite decide_False by done. by rewrite Hdead.
  - destruct (decide (special nm)) as [Hs | Hs].
    { rewrite put_ent_ne by (by intros [_ ->]). rewrite decide_False by done. by apply entry_special, H. }
    apply option_eq. intros c. rewrite (entry_iff m' _ none) by done. unfold put_ent.
    destruct (decide (d = p /\ nm = name x)) as [Hpn | Hpn].
    + destruct Hpn as [-> ->]. rewrite decide_True by done. rewrite elem_of_cons. split.
      * intros ([-> | Hc] & Hx); [done |]. destruct Hx as (z & Ez & Hz).
        f_equal. apply (ln_uniq _ _ _ L' p n c x z); [rewrite decide_True by done; by left | rewrite decide_True by done; by right | done | done | done].
      * intros [= <-]. split; [by left | by exists x].
    + rewrite (decide_False (P := d = n)) by done. rewrite (entry_iff m K none) by done.
      destruct (decide (d = p)) as [-> | Hdp].
      * rewrite elem_of_cons. split.
        -- intros ([-> | Hc] & Hx); [destruct Hx as (z & Ez & Hz); assert (z = x) as -> by congruence; by destruct Hpn |].
           split; [done |]. assert (Hcn : c <> n) by (intros ->; by apply (Hno p)). by apply (named_same m m' c nm (H c Hcn)).
        -- intros (Hc & Hx). split; [by right |]. assert (Hcn : c <> n) by (intros ->; by apply (Hno p)).
           by apply (named_same m m' c nm (H c Hcn)).
      * split; intros (Hc & Hx); (split; [done |]); assert (Hcn : c <> n) by (intros ->; by apply (Hno d));
          by apply (named_same m m' c nm (H c Hcn)).
Qed.

Lemma tree_move m m' K p n x p' x' :
  linked m K none -> linked m' (fun q => if decide (q = p') then n :: out_of n (K p') else out_of n (K q)) none ->
  n ∈ K p -> m !! n = Some x -> m' !! n = Some x' -> type x' = type x -> parent x' = Some p' -> ~ special (name x') ->
  ~ (p = p' /\ name x = name x') -> (forall q, q <> n -> look <$> m' !! q = look <$> m !! q) ->
  tree_of m' ≡ move (tree_of m) p (name x) p' (name x') n.
Proof.
  intros L L' Hn En En' Hty Hpar Hns Hne H. assert (Hnx : ~ special (name x)).
  { by destruct (kid_name m K none p n x L Hn En) as ((_ & _ & _ & ?) & _). }
  assert (Honly : forall d, n ∈ K d -> d = p).
  { intros d Hd. destruct (ln_kid _ _ _ L p n Hn) as (_ & z & Ez & Hz), (ln_kid _ _ _ L d n Hd) as (_ & z' & Ez' & Hz'). congruence. }
  assert (Hlive : forall j, (live m' j <-> live m j) /\ (is_dir m' j <-> is_dir m j)).
  { intros j. destruct (decide (j = n)) as [-> | Hj]; [| by apply (dir_same m m' j), H]. unfold live, is_dir. rewrite En, En'.
    split; (split; intros (z & E); destruct_and?; simplify_eq); [by exists x | by exists x' | exists x; split; congruence | exists x'; split; congruence]. }
  split; [intros j; apply Hlive |]. split; [intros j; apply Hlive |].
  intros d nm Hd. cbn [tree_of move ent]. unfold put_ent. destruct (decide (d = n /\ nm = dotdot)) as [[-> ->] | Hup].
  { unfold entry. rewrite decide_False by done. rewrite decide_True by done. by rewrite En', Hpar. }
  destruct (decide (special nm)) as [Hs | Hs].
  { rewrite !decide_False by (intros [_ ->]; done). destruct (decide (d = n)) as [-> | Hdn]; [| by apply entry_special, H].
    destruct Hs as [-> | ->]; [done | by destruct Hup]. }
  apply option_eq. intros c. rewrite (entry_iff m' _ none) by done.
  assert (Hother : c ∈ out_of n (K d) /\ (exists y, m' !! c = Some y /\ name y = nm) <->
    (c ∈ K d /\ exists y, m !! c = Some y /\ name y = nm) /\ c <> n).
  { rewrite out_of_in. split.
    - intros ([Hc Hcn] & Hx). split; [| done]. split; [done |]. by apply (named_same m m' c nm (H c Hcn)).
    - intros ([Hc Hx] & Hcn). split; [done |]. by apply (named_same m m' c nm (H c Hcn)). }
  destruct (decide (d = p /\ nm = name x)) as [[-> ->] | Hpn].
  - split; [| done]. intros [Hc Hx].
    assert (Hc' : c ∈ out_of n (K p)).
    { destruct (decide (p = p')) as [<- | Hpp]; [| done]. apply elem_of_cons in Hc as [-> | Hc]; [| done].
      destruct Hx as (z & Ez & Hz). assert (z = x') as -> by congruence. destruct Hne. split; [done | congruence]. }
    destruct (proj1 Hother (conj Hc' Hx)) as [[Hck (y & Ey & Hy)] Hcn]. destruct Hcn. by apply (ln_uniq _ _ _ L p c n y x).
  - assert (Hnn : (c ∈ K d /\ exists y, m !! c = Some y /\ name y = nm) -> c <> n).
    { intros [Hc (y & Ey & Hy)] ->. apply Hpn. split; [by apply Honly |]. congruence. }
    destruct (decide (d = p' /\ nm = name x')) as [[-> ->] | Hpn'].
    + rewrite decide_True by done. rewrite elem_of_cons. split.
      * intros [[-> | Hc] (z & Ez & Hz)]; [done |]. f_equal.
        apply (ln_uniq _ _ _ L' p' n c x' z); [rewrite decide_True by done; by left | rewrite decide_True by done; by right | done | done | done].
      * intros [= <-]. split; [by left | by exists x'].
    + rewrite (entry_iff m K none) by done. destruct (decide (d = p')) as [-> | Hdp].
      * rewrite elem_of_cons. split.
        -- intros [[-> | Hc] Hx]; [destruct Hx as (z & Ez & Hz); assert (z = x') as -> by congruence; by destruct Hpn' |].
           by apply Hother.
        -- intros Hx. destruct (proj2 Hother (conj Hx (Hnn Hx))) as [? ?]. split; [by right | done].
      * rewrite Hother. split; [by intros [? _] | intros Hx; split; [done | by apply Hnn]].
Qed.

End RamfsTree.
