(* ===== verification/RamfsSpec.v ===== *)
(** What [ramfs.c] promises: its calls are the operations of [DirTree] on the
    directories and of byte strings on the files, they never follow a pointer to a
    freed node nor go round in a circle, and every frame is given back. *)

From S2P Require Import Prelude Str Ring Pmm KString Path Wfs WfsDir DirTree Dma Ramfs RamfsData RamfsTree.

Module RamfsSpec.

Import Str Ring DirTree Ramfs RamfsData RamfsTree.
Import Path (W_NAME_MAX).
Import Wfs (WFS_TYPE_FILE, WFS_TYPE_DIR).

Notation rooted := (DirTree.rooted ROOT_INO).
Notation placed := (DirTree.placed ROOT_INO).
Implicit Types (m : gmap Z node) (K : Z -> list Z).

(** ** Walking up *)

Lemma entry_parent m K p nm d :
  linked m K none -> ~ special nm -> entry m p nm = Some d -> exists x, m !! d = Some x /\ parent x = Some p.
Proof. intros L Hn E. apply (entry_iff m K none) in E as [Hd _]; [| done | done]. by destruct (ln_kid _ _ _ L p d Hd) as [_ ?]. Qed.

(** Nodes above each other are different ones. *)
Lemma depth_bound m K i k : linked m K none -> rooted (tree_of m) -> placed (tree_of m) i k -> (k < 1023)%nat.
Proof.
  intros L R H. assert (Hl : exists l, NoDup l /\ length l = S k /\ forall j, j ∈ l -> live m j /\ exists k', (k' <= k)%nat /\ placed (tree_of m) j k').
  { induction H as [| p nm i k Hp IH Hd Hn E].
    - exists [ROOT_INO]. split; [apply NoDup_singleton |]. split; [done |]. intros j ->%list_elem_of_singleton.
      split; [apply (rt_dirs _ _ R), (rt_root _ _ R) | exists 0%nat; split; [lia | constructor]].
    - destruct IH as (l & Hnd & Hlen & Hl). exists (i :: l). split; [| split; [cbn; lia |]].
      + apply NoDup_cons. split; [| done]. intros Hi. destruct (Hl i Hi) as (_ & k' & Hk' & Hpl).
        pose proof (placed_unique _ _ i k' (S k) R Hpl (placed_in _ _ _ _ _ _ Hp Hd Hn E)). lia.
      + intros j [-> | Hj]%elem_of_cons.
        * split; [by apply (rt_entries _ _ R p nm) | exists (S k); split; [lia | by apply (placed_in _ _ p nm)]].
        * destruct (Hl j Hj) as (? & k' & ? & ?). split; [done | exists k'; split; [lia | done]]. }
  destruct Hl as (l & Hnd & Hlen & Hl). assert (Hs : l ⊆+ seqZ 1 1023).
  { apply NoDup_submseteq; [done |]. intros j Hj. apply elem_of_seqZ. destruct (Hl j Hj) as [[x Ex] _].
    pose proof (ln_range _ _ _ L j x Ex). unfold MAX_NODES in *. lia. }
  apply submseteq_length in Hs. rewrite length_seqZ in Hs. lia.
Qed.

Lemma above_spec m K n : linked m K none -> rooted (tree_of m) -> forall d k,
  placed (tree_of m) d k -> forall fuel, (k < fuel)%nat ->
  exists b, above fuel m (Some d) n = Done b /\ (b = true <-> inside (tree_of m) n d).
Proof.
  intros L R d k H. induction H as [| p nm d k Hp IH Hd Hn E]; intros fuel Hf.
  - destruct fuel as [| fuel]; [lia |]. cbn [above]. destruct (Z.eqb_spec ROOT_INO n) as [<- | Hne].
    + exists true. split; [done |]. split; [constructor | done].
    + destruct (ln_root _ _ _ L) as (x & Ex & Hpx & _). rewrite (get_some _ _ _ Ex). cbn [mbind out_bind]. rewrite Hpx.
      exists false. split; [by destruct fuel |]. split; [done |]. intros Hin. by apply (inside_root _ _ _ R) in Hin.
  - destruct fuel as [| fuel]; [lia |]. cbn [above]. destruct (Z.eqb_spec d n) as [<- | Hne].
    + exists true. split; [done |]. split; [constructor | done].
    + destruct (entry_parent m K p nm d L Hn E) as (x & Ex & Hpx). rewrite (get_some _ _ _ Ex). cbn [mbind out_bind]. rewrite Hpx.
      destruct (IH fuel ltac:(lia)) as (b & -> & Hb). exists b. split; [done |]. rewrite Hb.
      symmetry. apply (inside_step _ _ n p nm d R Hd Hn E). congruence.
Qed.

(** ** The whole state *)

Record fs_ok (o : Z -> Prop) (c : Z) (s : ramfs) : Prop := {
  ok_data : data_ok o c s;
  ok_links : linked (nodes s) (kids (nodes s)) none;
  ok_tree : rooted (tree_of (nodes s));
  ok_next : ROOT_INO < next_ino s <= MAX_NODES;
  ok_below : forall i x, nodes s !! i = Some x -> i < next_ino s;
}.

(** What the contents of a file depend on in its node. *)
Definition file_of (x : node) : Z * Z * list Z := (type x, size x, blocks x).

(** Files other than those in [l] have the contents they had. *)
Record same_files (s s' : ramfs) (l : list Z) : Prop := {
  sf_file : forall q, q ∉ l -> file_of <$> nodes s' !! q = file_of <$> nodes s !! q;
  sf_memory : memory s' = memory s;
}.

Lemma linked_own m K : linked m K none -> linked m (kids m) none.
Proof. intros L. apply (linked_ext m K); [done |]. intros d. by apply (linked_kids m K none). Qed.

Lemma node_of_live m K i : linked m K none -> node_of i m = match m !! i with Some _ => Some i | None => None end.
Proof.
  intros L. unfold node_of. destruct (m !! i) as [x |] eqn:E; [| by destruct ((i =? 0) || (MAX_NODES <=? i))%bool].
  pose proof (ln_range _ _ _ L i x E). destruct (Z.eqb_spec i 0), (Z.leb_spec MAX_NODES i); try lia. done.
Qed.

Section promises.
Variable kz : ramfs -> Z -> bool.
Variable now : Z.
Variable o : Z -> Prop.
Variable c : Z.

(** Looking up a path of /ramdisk is following its names from the root of the
    tree: slashes separate names, repeated and trailing ones do not matter; a name
    that is not there, is too long or is looked for in a file gives -W_ENOENT. *)
Theorem ramfs_lookup_correct s path :
  fs_ok o c s ->
  ramfs_lookup path s = Done (match node_at (nodes s) path with Some i => (0, Some i) | None => (- W_ENOENT, None) end).
Proof.
  intros Hs. unfold ramfs_lookup. rewrite (walk_spec _ _ false path (ok_links _ _ _ Hs)). cbn [mbind out_bind].
  by destruct (node_at (nodes s) path).
Qed.

(** Replacing nodes by nodes with the same pages and size. *)
Lemma data_file s p x x' :
  data_ok o c s -> nodes s !! p = Some x -> file_of x' = file_of x -> data_ok o c (with_nodes (<[p := x']> (nodes s)) s).
Proof. intros Hd E [= _ Hs Hb]. by apply (data_node _ _ s p x). Qed.

Lemma data_files s m' :
  data_ok o c s -> (forall q, file_of <$> m' !! q = file_of <$> nodes s !! q) -> data_ok o c (with_nodes m' s).
Proof.
  intros Hd H. assert (Hget : forall q x', m' !! q = Some x' -> exists x, nodes s !! q = Some x /\ size x = size x' /\ blocks x = blocks x').
  { intros q x' E. specialize (H q). rewrite E in H. destruct (nodes s !! q) as [x |]; [| done]. exists x. split; [done |].
    apply (inj Some) in H. injection H as _ -> ->. done. }
  assert (Hput : forall q x, nodes s !! q = Some x -> exists x', m' !! q = Some x' /\ blocks x' = blocks x).
  { intros q x E. specialize (H q). rewrite E in H. destruct (m' !! q) as [x' |]; [| done]. exists x'. split; [done |].
    apply (inj Some) in H. injection H as _ _ ->. done. }
  destruct Hd as [[F1 F2 F3 F4 F5 F6 F7 F8] D2 D3]. split; [split |..]; cbn [frames nodes pages_held with_nodes memory]; try done.
  - rewrite F4. assert (Hsum : forall m1, held_of m1 = map_fold (fun _ k s => k + s) 0 (pages_of <$> m1)).
    { intros m1. unfold held_of. by rewrite map_fold_fmap. }
    rewrite !Hsum. f_equal. apply map_eq. intros q. rewrite !lookup_fmap. specialize (H q). unfold pages_of.
    destruct (nodes s !! q) as [x |], (m' !! q) as [x' |]; try done. cbn. apply (inj Some) in H. injection H as _ _ ->. done.
  - intros q x' k b E Ek Hb. destruct (Hget q x' E) as (x & Ex & _ & Hx). rewrite <- Hx in Ek. by apply (F5 q x k b).
  - intros q x' k q2 x2 k2 b E E2 Ek Ek2 Hb. destruct (Hget q x' E) as (x & Ex & _ & Hx), (Hget q2 x2 E2) as (y & Ey & _ & Hy).
    rewrite <- Hx in Ek. rewrite <- Hy in Ek2. by apply (F6 q x k q2 y k2 b).
  - intros g Hg. rewrite F7 by done. split; (intros [? | (Hg0 & q & x & k & Ex & Ek)]; [by left | right; split; [done |]]).
    + destruct (Hput q x Ex) as (x' & E' & Hx). exists q, x', k. by rewrite Hx.
    + destruct (Hget q x Ex) as (x' & E' & _ & Hx). exists q, x', k. by rewrite Hx.
  - intros q x' E. destruct (Hget q x' E) as (x & Ex & _ & <-). by apply (F8 q).
  - intros q x' E. destruct (Hget q x' E) as (x & Ex & <- & _). by apply (D2 q).
  - intros q x' i E. destruct (Hget q x' E) as (x & Ex & Hz & Hx). rewrite <- Hz. rewrite (fbyte_blocks _ x x') by done. by apply (D3 q).
Qed.

Lemma same_files_refl s l : same_files s s l.
Proof. by split. Qed.

(** ** Making *)

(** The name the path ends in is not "." or "..": [vfs_resolve] leaves none. *)
Definition plain_end m path : Prop := forall p nm, parent_at m path = Some (p, nm) -> ~ special nm.

(** What a creation that succeeds does. *)
Record created (s s' : ramfs) (p : Z) (nm : list Z) (t i : Z) : Prop := {
  cr_ok : fs_ok o c s';
  cr_new : i = next_ino s /\ nodes s !! i = None;
  cr_next : next_ino s' = next_ino s + 1;
  cr_tree : tree_of (nodes s') ≡ make (tree_of (nodes s)) p nm i (t =? WFS_TYPE_DIR);
  cr_node : exists x, nodes s' !! i = Some x /\ type x = t /\ size x = 0 /\ mtime x = now /\ blocks x = [];
  cr_files : same_files s s' [i];
  cr_frames : frames s' = frames s /\ pages_held s' = pages_held s;
}.

(** The new node, in its list and with the parent's time set. *)
Lemma make_spec s p nm t d :
  fs_ok o c s -> nodes s !! p = Some d -> type d = WFS_TYPE_DIR -> name_good nm -> find_named (nodes s) (kids (nodes s) p) nm = None ->
  next_ino s < MAX_NODES ->
  let i := next_ino s in
  let x := Node t 0 now nm (Some p) (children d) None [] in
  let s' := Ramfs (<[p := with_mtime now (with_children (Some i) d)]> (<[i := x]> (<[p := with_children (Some i) d]> (nodes s))))
              (i + 1) (pages_held s) (frames s) (memory s) in
  created s s' p nm t i.
Proof.
  intros Hs Ed Hd Hg Hnone Hnext i x s'. pose proof Hs as [S1 S2 S3 S4 S5]. set (K := kids (nodes s)) in *.
  assert (Ei : nodes s !! i = None) by (destruct (nodes s !! i) as [y |] eqn:E; [pose proof (S5 i y E); lia | done]).
  assert (Hip : i <> p) by congruence.
  set (m1 := <[p := with_children (Some i) d]> (<[i := x]> (nodes s))).
  assert (Hm : nodes s' = <[p := with_mtime now (with_children (Some i) d)]> m1).
  { unfold s', m1. cbn [nodes]. by rewrite (insert_insert_ne (nodes s) p i) by done. }
  assert (L1 : linked m1 (fun q => if decide (q = p) then i :: K p else K q) none).
  { assert (Hl : linked m1 (fun q => if decide (q = p) then i :: K p else K q) (fun j => none j /\ j <> i)).
    { assert (Hnr : i <> ROOT_INO) by (unfold i; lia). assert (Hrange : 0 < i < MAX_NODES) by (unfold i, ROOT_INO in *; lia).
      apply linked_attach; try done.
      - by right.
      - intros a y Ha Ey Hn. assert (find_named (nodes s) (K p) nm = Some a); [| congruence].
        apply (find_named_iff _ _ none); [done |]. split; [done | by exists y].
      - rewrite (ln_dead _ _ _ S2 i Ei). constructor.
      - by rewrite (ln_dead _ _ _ S2 i Ei). }
    eapply linked_iff; [exact Hl |]. unfold none. tauto. }
  assert (L' : linked (nodes s') (fun q => if decide (q = p) then i :: K p else K q) none).
  { rewrite Hm. apply (linked_same m1); [done |]. intros q. destruct (decide (q = p)) as [-> | Hq].
    - unfold m1. by rewrite !lookup_insert_eq.
    - by rewrite lookup_insert_ne. }
  assert (Ei' : nodes s' !! i = Some x) by (rewrite Hm; unfold m1; rewrite lookup_insert_ne by done; rewrite lookup_insert_ne by done; apply lookup_insert_eq).
  assert (Hlook : forall q, q <> i -> look <$> nodes s' !! q = look <$> nodes s !! q).
  { intros q Hq. rewrite Hm. unfold m1. destruct (decide (q = p)) as [-> | Hqp]; [by rewrite lookup_insert_eq, Ed |].
    by rewrite !lookup_insert_ne by done. }
  assert (Hfile : forall q, q <> i -> file_of <$> nodes s' !! q = file_of <$> nodes s !! q).
  { intros q Hq. rewrite Hm. unfold m1. destruct (decide (q = p)) as [-> | Hqp]; [by rewrite lookup_insert_eq, Ed |].
    by rewrite !lookup_insert_ne by done. }
  destruct Hg as (G1 & G2 & G3 & G4).
  assert (T : tree_of (nodes s') ≡ make (tree_of (nodes s)) p nm i (t =? WFS_TYPE_DIR)).
  { apply (tree_make (nodes s) (nodes s') K p i x); try done. by exists d. }
  split; try done.
  - split.
    + assert (Hd1 : data_ok o c (with_nodes (<[i := x]> (nodes s)) s)) by (by apply data_new).
      apply (data_ino o c (with_nodes (nodes s') s)). apply (data_files (with_nodes (<[i := x]> (nodes s)) s) (nodes s') Hd1).
      cbn [nodes with_nodes]. intros q. destruct (decide (q = i)) as [-> | Hq]; [by rewrite Ei', lookup_insert_eq |].
      rewrite (lookup_insert_ne (nodes s)) by done. by apply Hfile.
    + by apply (linked_own _ _ L').
    + rewrite T. apply rooted_make; try done.
      * by exists d.
      * intros [y Ey]. cbn in Ey. congruence.
      * cbn [tree_of ent]. by rewrite entry_plain.
    + cbn [next_ino s']. unfold i. lia.
    + cbn [next_ino s']. intros j y Ey. destruct (decide (j = i)) as [-> | Hj]; [lia |].
      specialize (Hlook j Hj). rewrite Ey in Hlook. destruct (nodes s !! j) as [z |] eqn:Ez; [| done]. pose proof (S5 j z Ez). unfold i. lia.
  - by exists x.
  - split; [| done]. intros q Hq. apply Hfile. intros ->. apply Hq. by apply list_elem_of_singleton.
Qed.

Lemma ramfs_create_spec s path t :
  fs_ok o c s -> plain_end (nodes s) path ->
  match parent_at (nodes s) path with
  | None => ramfs_create kz now path t s = Done (- W_ENOENT, None, s)
  | Some (p, nm) =>
      match entry (nodes s) p nm with
      | Some _ => ramfs_create kz now path t s = Done (- W_EEXIST, None, s)
      | None =>
          (ramfs_create kz now path t s = Done (- W_ENOSPC, None, s) /\ (next_ino s = MAX_NODES \/ kz s SIZEOF_NODE = false)) \/
          exists i s', ramfs_create kz now path t s = Done (0, Some i, s') /\ created s s' p nm t i
      end
  end.
Proof.
  intros Hs Hplain. pose proof (ok_links _ _ _ Hs) as L. unfold ramfs_create. rewrite (walk_spec _ _ true path L). cbn [mbind out_bind].
  destruct (parent_at (nodes s) path) as [[p nm] |] eqn:Ep; [| done].
  destruct (path_parent_spec _ _ _ _ _ L Ep) as ([d [Ed Hd]] & N1 & N2 & N3). pose proof (Hplain p nm Ep) as N4.
  rewrite entry_plain by done. destruct (find_named (nodes s) (kids (nodes s) p) nm) as [e |] eqn:Ef.
  { by rewrite bool_decide_eq_true_2 by done. }
  rewrite bool_decide_eq_false_2 by (by intros ?). rewrite (get_some _ _ _ Ed). cbn [mbind out_bind]. rewrite Hd, Z.eqb_refl. cbn [negb].
  unfold node_new. pose proof (ok_next _ _ _ Hs) as Hn.
  destruct (Z.leb_spec MAX_NODES (next_ino s)); [left; split; [done | left; lia] |].
  destruct (kz s SIZEOF_NODE) eqn:Ek; cbn [negb]; [right | left; split; [done | by right]].
  rewrite (get_some _ _ _ Ed), (update_some _ _ _ _ Ed). cbn [mbind out_bind]. set (i := next_ino s) in *.
  assert (Hip : i <> p) by (intros Hip; pose proof (ok_below _ _ _ Hs p d Ed); unfold i in Hip; lia).
  assert (Hst : strl (W_NAME_MAX + 1) nm = nm).
  { unfold strl. apply take_ge. unfold Zlen, W_NAME_MAX in *. lia. }
  rewrite Hst. cbn [nodes]. rewrite (get_some _ i _ (lookup_insert_eq _ _ _)). cbn [mbind out_bind mtime].
  rewrite (update_some _ p (with_children (Some i) d)) by (rewrite lookup_insert_ne by done; apply lookup_insert_eq). cbn [mbind out_bind].
  unfold with_nodes. cbn [next_ino pages_held frames memory]. rewrite u32_id by (unfold i, MAX_NODES, ROOT_INO in *; lia).
  eexists i, _. split; [done |]. by apply make_spec.
Qed.

(** Making.  [ramfs_create] adds one empty file or directory under exactly the
    name the path ends in, with a number never used before, or reports why not (no
    such directory, the name is there, no number or no memory left) and then nothing
    changed.  The directories stay a tree, and no other file changes. *)
Theorem ramfs_create_correct s path t :
  fs_ok o c s -> plain_end (nodes s) path ->
  match parent_at (nodes s) path with
  | None => ramfs_create kz now path t s = Done (- W_ENOENT, None, s)
  | Some (p, nm) =>
      match entry (nodes s) p nm with
      | Some _ => ramfs_create kz now path t s = Done (- W_EEXIST, None, s)
      | None =>
          (ramfs_create kz now path t s = Done (- W_ENOSPC, None, s) /\ (next_ino s = MAX_NODES \/ kz s SIZEOF_NODE = false)) \/
          exists i s', ramfs_create kz now path t s = Done (0, Some i, s') /\ created s s' p nm t i
      end
  end.
Proof. exact (ramfs_create_spec s path t). Qed.

(** ** Setting a time *)

Lemma stamp_spec s p d t :
  fs_ok o c s -> nodes s !! p = Some d ->
  let s' := with_nodes (<[p := with_mtime t d]> (nodes s)) s in
  fs_ok o c s' /\ tree_of (nodes s') ≡ tree_of (nodes s) /\ same_files s s' [].
Proof.
  intros [S1 S2 S3 S4 S5] E s'.
  assert (Hq : forall (A : Type) (f : node -> A), f (with_mtime t d) = f d -> forall q, f <$> nodes s' !! q = f <$> nodes s !! q).
  { intros A f Hf q. cbn [s' nodes with_nodes]. destruct (decide (q = p)) as [-> | Hqp]; [| by rewrite lookup_insert_ne].
    rewrite lookup_insert_eq, E. cbn. by rewrite Hf. }
  assert (L' : linked (nodes s') (kids (nodes s)) none) by (apply (linked_same (nodes s)); [done | by apply Hq]).
  assert (T : tree_of (nodes s') ≡ tree_of (nodes s)) by (apply (tree_same _ _ (kids (nodes s))); [done | done | by apply Hq]).
  split; [| split; [done |]].
  - split.
    + apply (data_files s (nodes s') S1). by apply Hq.
    + by apply (linked_own _ _ L').
    + by rewrite T.
    + done.
    + cbn [s' nodes with_nodes next_ino]. intros j y. destruct (decide (j = p)) as [-> | Hj]; [intros _; by apply (S5 p d) |].
      rewrite lookup_insert_ne by done. apply S5.
  - split; [| done]. intros q _. by apply Hq.
Qed.

(** ** Removing *)

(** A file or empty directory is gone, and its pages are free. *)
Record removed (s s' : ramfs) (p : Z) (nm : list Z) (n : Z) : Prop := {
  rm_ok : fs_ok o c s';
  rm_next : next_ino s' = next_ino s;
  rm_tree : tree_of (nodes s') ≡ remove (tree_of (nodes s)) p nm n;
  rm_gone : nodes s' !! n = None;
  rm_files : same_files s s' [n];
  rm_frames : forall x, nodes s !! n = Some x -> pages_held s' = pages_held s - pages_of x /\
    forall g, 0 < g -> Pmm.used (frames s') g = true <-> Pmm.used (frames s) g = true /\ forall k, blocks x !! k <> Some (g * 4096);
}.

Lemma kid_entry m K p n x : linked m K none -> n ∈ K p -> m !! n = Some x -> is_dir m p /\ ~ special (name x) /\ entry m p (name x) = Some n.
Proof.
  intros L Hn En. destruct (kid_name m K none p n x L Hn En) as ((_ & _ & _ & Hns) & _). split; [| split; [done |]].
  - destruct (m !! p) as [d |] eqn:Ed.
    + exists d. split; [done |]. apply (ln_dir _ _ _ L p d Ed). intros Hz. rewrite Hz in Hn. by apply not_elem_of_nil in Hn.
    + rewrite (ln_dead _ _ _ L p Ed) in Hn. by apply not_elem_of_nil in Hn.
  - apply (entry_iff m K none); [done | done |]. split; [done | by exists x].
Qed.

Lemma core_file m m' q : core <$> m' !! q = core <$> m !! q -> file_of <$> m' !! q = file_of <$> m !! q /\ look <$> m' !! q = look <$> m !! q.
Proof.
  intros H. destruct (m !! q) as [x |], (m' !! q) as [x' |]; try done. apply (inj Some), core_fields in H as (H1 & H2 & H3 & H4 & H5 & H6).
  unfold file_of, look. cbn. rewrite H1, H2, H4, H5, H6. done.
Qed.

Lemma take_out_spec s p n x :
  fs_ok o c s -> n ∈ kids (nodes s) p -> nodes s !! n = Some x -> kids (nodes s) n = [] ->
  exists m s', detach p n (nodes s) = Done m /\ destroy n (with_nodes m s) = Done s' /\ removed s s' p (name x) n /\
    (forall q, q <> n -> core <$> nodes s' !! q = core <$> nodes s !! q).
Proof.
  intros Hs Hn En Hk. pose proof Hs as [S1 S2 S3 S4 S5]. destruct (kid_entry _ _ p n x S2 Hn En) as (Hd & Hns & He).
  assert (Hpn : p <> n) by (intros ->; exact (no_loop _ _ n (name x) S3 Hd Hns He)).
  destruct (detach_spec (nodes s) _ none p n S2 Hn Hpn) as (m & -> & Lm & Hcore & _).
  destruct (core_look (nodes s) m n x Hcore En) as (x' & En' & Hx').
  assert (Hdm : data_ok o c (with_nodes m s)) by (apply data_files; [done |]; intros q; by apply core_file).
  destruct (destroy_spec o c n x' (with_nodes m s) Hdm En') as (f & E & Hd' & Hu). cbn [nodes with_nodes next_ino pages_held memory frames] in *.
  eexists m, _. split; [done |]. split; [exact E |].
  assert (Hb : blocks x' = blocks x) by (by apply core_fields in Hx' as (_ & _ & _ & _ & _ & ?)).
  assert (Hq : forall q, q <> n -> delete n m !! q = m !! q) by (intros q Hq; by rewrite lookup_delete_ne).
  assert (L' : linked (delete n m) (fun d => out_of n (kids (nodes s) d)) none).
  { eapply linked_iff; [apply (linked_delete m _ (fun i => none i \/ i = n) n) |].
    - exact Lm. - by right. - by rewrite Hk. - unfold none. tauto. }
  assert (T : tree_of (delete n m) ≡ remove (tree_of (nodes s)) p (name x) n).
  { apply (tree_remove (nodes s) _ (kids (nodes s)) p n x); try done; [| apply lookup_delete_eq].
    intros q Hqn. rewrite Hq by done. by apply core_file. }
  split; [| intros q Hqn; cbn [nodes]; rewrite Hq by done; by apply Hcore].
  split; cbn [nodes next_ino frames pages_held memory]; try done.
  - split; cbn [nodes next_ino]; try done.
    + by apply (linked_own _ _ L').
    + rewrite T. apply rooted_remove; try done. intros _ a j Hj. cbn in Hj. destruct (decide (special a)) as [| Ha]; [done |].
      rewrite entry_plain, Hk in Hj by done. done.
    + intros j y [Hj Ey]%lookup_delete_Some. destruct (core_look m (nodes s) j y) as (z & Ez & _); [intros a; by rewrite Hcore | done |].
      by apply (S5 j z).
  - apply lookup_delete_eq.
  - split; [| done]. intros q Hqn. assert (q <> n) by (intros ->; apply Hqn; by apply list_elem_of_singleton).
    cbn [nodes]. rewrite Hq by done. by apply core_file.
  - intros y Ey. assert (y = x) as -> by congruence. unfold pages_of. rewrite Hb in Hu |- *. done.
Qed.

Lemma ramfs_unlink_spec s path :
  fs_ok o c s ->
  match parent_at (nodes s) path with
  | None => ramfs_unlink now path s = Done (- W_ENOENT, s)
  | Some (p, nm) =>
      match find_named (nodes s) (kids (nodes s) p) nm with
      | None => ramfs_unlink now path s = Done (- W_ENOENT, s)
      | Some n =>
          (is_dir (nodes s) n /\ kids (nodes s) n <> [] /\ ramfs_unlink now path s = Done (- W_ENOTEMPTY, s)) \/
          (kids (nodes s) n = [] /\ exists s', ramfs_unlink now path s = Done (0, s') /\ removed s s' p nm n)
      end
  end.
Proof.
  intros Hs. pose proof Hs as [S1 S2 S3 S4 S5]. unfold ramfs_unlink. rewrite (walk_spec _ _ true path S2). cbn [mbind out_bind].
  destruct (parent_at (nodes s) path) as [[p nm] |] eqn:Ep; [| done].
  destruct (find_named (nodes s) (kids (nodes s) p) nm) as [n |] eqn:Ef; [| done].
  destruct (find_named_some _ _ _ _ Ef) as (Hn & x & En & <-). rewrite (get_some _ _ _ En). cbn [mbind out_bind].
  pose proof (ln_chain _ _ _ S2 n x En) as Hch.
  destruct (decide (kids (nodes s) n = [])) as [Hk | Hk].
  - right. split; [done |]. rewrite Hk in Hch. inversion Hch as [Hc |]. rewrite bool_decide_eq_false_2 by (by intros ?). rewrite andb_false_r.
    destruct (take_out_spec s p n x Hs Hn En Hk) as (m & s1 & -> & E & Hr & Hcore). cbn [mbind out_bind]. rewrite E. cbn [mbind out_bind].
    destruct (path_parent_spec _ _ _ _ _ S2 Ep) as ([d [Ed Hd]] & _).
    assert (Hpn : p <> n).
    { intros ->. destruct (kid_entry _ _ n n x S2 Hn En) as (H1 & H2 & H3). exact (no_loop _ _ n (name x) S3 H1 H2 H3). }
    destruct (nodes s1 !! p) as [d1 |] eqn:Ed1; [| specialize (Hcore p Hpn); rewrite Ed, Ed1 in Hcore; done].
    rewrite (update_some _ _ _ _ Ed1). cbn [mbind out_bind]. eexists. split; [done |].
    destruct Hr as [R1 R2 R3 R4 R5 R6]. destruct (stamp_spec s1 p d1 now R1 Ed1) as (U1 & U2 & U3).
    split; try done.
    + by rewrite U2.
    + cbn [nodes with_nodes]. by rewrite lookup_insert_ne.
    + split; [| apply R5]. intros q Hq. rewrite (sf_file _ _ _ U3 q) by apply not_elem_of_nil. by apply R5.
  - left. inversion Hch as [Hc1 Hc2 | a y l Ea Hl Hc1 Hc2]; [congruence |].
    pose proof (ln_dir _ _ _ S2 n x En Hk) as Hty. split; [by exists x |]. split; [done |].
    rewrite Hty, Z.eqb_refl. by rewrite bool_decide_eq_true_2 by done.
Qed.

(** Removing.  [ramfs_unlink] takes exactly that name out of its directory and
    gives back the node and every page of the file; a name that is not there and a
    directory with something in it are refused, and then nothing changed.  The
    directories stay a tree, and no other file changes. *)
Theorem ramfs_unlink_correct s path :
  fs_ok o c s ->
  match parent_at (nodes s) path with
  | None => ramfs_unlink now path s = Done (- W_ENOENT, s)
  | Some (p, nm) =>
      match find_named (nodes s) (kids (nodes s) p) nm with
      | None => ramfs_unlink now path s = Done (- W_ENOENT, s)
      | Some n =>
          (is_dir (nodes s) n /\ kids (nodes s) n <> [] /\ ramfs_unlink now path s = Done (- W_ENOTEMPTY, s)) \/
          (kids (nodes s) n = [] /\ exists s', ramfs_unlink now path s = Done (0, s') /\ removed s s' p nm n)
      end
  end.
Proof. exact (ramfs_unlink_spec s path). Qed.

(** ** Moving *)

(** What a move does to the tree [t], which may have lost what was in the way. *)
Record moved (t : shape) (s s' : ramfs) (p : Z) (nm : list Z) (p' : Z) (nm' : list Z) (n : Z) : Prop := {
  mv_ok : fs_ok o c s';
  mv_next : next_ino s' = next_ino s;
  mv_tree : tree_of (nodes s') ≡ move t p nm p' nm' n;
}.

Lemma move_spec s p n x p' nm' :
  fs_ok o c s -> n ∈ kids (nodes s) p -> nodes s !! n = Some x -> is_dir (nodes s) p' -> name_good nm' ->
  find_named (nodes s) (kids (nodes s) p') nm' = None -> ~ inside (tree_of (nodes s)) n p' ->
  exists m', move_node now p n p' nm' (nodes s) = Done m' /\ same_files s (with_nodes m' s) [] /\
    moved (tree_of (nodes s)) s (with_nodes m' s) p (name x) p' nm' n.
Proof.
  intros Hs Hn En Hd' Hg Hnone Hin. pose proof Hs as [S1 S2 S3 S4 S5]. set (K := kids (nodes s)) in *.
  destruct (kid_entry _ _ p n x S2 Hn En) as (Hd & Hns & He). destruct (kid_name _ _ _ p n x S2 Hn En) as (_ & Hnr).
  assert (Hpn : p <> n) by (intros ->; exact (no_loop _ _ n (name x) S3 Hd Hns He)).
  assert (Hpn' : n <> p') by (intros ->; apply Hin; constructor).
  assert (Hdiff : ~ (p = p' /\ name x = nm')).
  { intros [<- <-]. assert (find_named (nodes s) (K p) (name x) = Some n); [| congruence].
    apply (find_named_iff _ _ none); [done |]. split; [done | by exists x]. }
  unfold move_node. destruct (detach_spec (nodes s) K none p n S2 Hn Hpn) as (m1 & -> & L1 & Hcore & _). cbn [mbind out_bind].
  destruct (core_look (nodes s) m1 n x Hcore En) as (x1 & En1 & Hx1).
  destruct Hd' as (d' & Ed' & Hty'). destruct (core_look (nodes s) m1 p' d' Hcore Ed') as (d1 & Ed1 & Hd1).
  pose proof (core_fields _ _ Hx1) as (X1 & X2 & X3 & X4 & X5 & X6). pose proof (core_fields _ _ Hd1) as (D1 & D2 & D3 & D4 & D5 & D6).
  rewrite (update_some _ _ _ _ En1). cbn [mbind out_bind]. rewrite (update_some _ n (with_name nm' x1)) by apply lookup_insert_eq.
  cbn [mbind out_bind]. rewrite insert_insert_eq. rewrite (get_some _ p' d1) by (by rewrite lookup_insert_ne). cbn [mbind out_bind].
  rewrite (update_some _ n (with_parent (Some p') (with_name nm' x1))) by apply lookup_insert_eq. cbn [mbind out_bind]. rewrite insert_insert_eq.
  set (x2 := with_next (children d1) (with_parent (Some p') (with_name nm' x1))).
  rewrite (update_some _ p' d1) by (by rewrite lookup_insert_ne). cbn [mbind out_bind].
  set (m2 := <[p' := with_children (Some n) d1]> (<[n := x2]> m1)).
  assert (L2 : linked m2 (fun q => if decide (q = p') then n :: out_of n (K p') else out_of n (K q)) none).
  { eapply linked_iff; [apply (linked_attach m1 (fun q => out_of n (K q)) (fun i => none i \/ i = n) p' d1 n x2) |]; try done.
    - congruence.
    - by apply (ln_range _ _ _ S2 n x).
    - left. by right.
    - intros a y [Ha Hne]%out_of_in Ey Hy. destruct (core_look m1 (nodes s) a y) as (z & Ez & Hz); [intros q; by rewrite Hcore | done |].
      apply core_fields in Hz as (_ & _ & _ & Hz & _). assert (find_named (nodes s) (K p') nm' = Some a); [| congruence].
      apply (find_named_iff _ _ none); [done |]. split; [done |]. exists z. split; [done |]. rewrite Hz, Hy. done.
    - exact (ln_chain _ _ _ L1 n x1 En1).
    - exact (ln_dir _ _ _ L1 n x1 En1).
    - unfold none. tauto. }
  assert (En2 : m2 !! n = Some x2) by (unfold m2; rewrite lookup_insert_ne by done; apply lookup_insert_eq).
  assert (Ep2 : m2 !! p' = Some (with_children (Some n) d1)) by apply lookup_insert_eq.
  assert (Hq2 : forall q, q <> n -> core <$> m2 !! q = core <$> nodes s !! q).
  { intros q Hq. destruct (decide (q = p')) as [-> | Hqp]; [rewrite Ep2, Ed'; cbn [fmap option_fmap option_map]; f_equal; exact Hd1 |].
    unfold m2. rewrite !lookup_insert_ne by done. apply Hcore. }
  assert (Hf2 : forall q, file_of <$> m2 !! q = file_of <$> nodes s !! q).
  { intros q. destruct (decide (q = n)) as [-> | Hq]; [| by apply core_file, Hq2]. rewrite En2, En. unfold file_of. cbn. by rewrite X1, X2, X6. }
  assert (T2 : tree_of m2 ≡ move (tree_of (nodes s)) p (name x) p' nm' n).
  { apply (tree_move (nodes s) m2 K p n x p' x2); try done; [apply Hg |]. intros q Hq. by apply core_file, Hq2. }
  assert (Hs2 : fs_ok o c (with_nodes m2 s)).
  { split; try done.
    - by apply data_files.
    - by apply (linked_own _ _ L2).
    - cbn [nodes with_nodes]. rewrite T2. apply rooted_move; try done; [by exists d' | apply Hg |].
      cbn [tree_of ent]. rewrite entry_plain by apply Hg. done.
    - intros j y Ey. cbn in Ey. specialize (Hf2 j). rewrite Ey in Hf2. destruct (nodes s !! j) as [z |] eqn:Ez; [by apply (S5 j z) | done]. }
  rewrite (update_some _ _ _ _ Ep2). cbn [mbind out_bind].
  destruct (stamp_spec (with_nodes m2 s) p' _ now Hs2 Ep2) as (U1 & U2 & U3).
  set (m3 := <[p' := with_mtime now (with_children (Some n) d1)]> m2) in *.
  assert (Ep3 : exists d3, m3 !! p = Some d3).
  { destruct Hd as (d & Ed & _). pose proof (sf_file _ _ _ U3 p ltac:(apply not_elem_of_nil)) as H3. cbn in H3.
    rewrite (Hf2 p), Ed in H3. change (file_of <$> m3 !! p = Some (file_of d)) in H3. destruct (m3 !! p) as [d3 |]; [by exists d3 | done]. }
  destruct Ep3 as (d3 & Ep3). rewrite (update_some _ _ _ _ Ep3). eexists. split; [done |].
  destruct (stamp_spec (with_nodes m3 s) p d3 now U1 Ep3) as (V1 & V2 & V3). split.
  - split; [| done]. intros q Hq. etransitivity; [exact (sf_file _ _ _ V3 q Hq) |]. etransitivity; [exact (sf_file _ _ _ U3 q Hq) | apply Hf2].
  - split; [exact V1 | done |]. rewrite <- T2. cbn [nodes with_nodes] in *. rewrite V2. exact U2.
Qed.

Lemma inside_remove t p nm e a j : inside (remove t p nm e) a j -> inside t a j.
Proof.
  intros H. induction H as [| q k j _ IH [Hq _] Hk E]; [constructor |]. apply (inside_in _ _ q k); [done | done | done |].
  cbn [remove ent] in E. unfold put_ent in E. by case_decide.
Qed.

(** What [ramfs_rename] does with the node [n] once both ends are found. *)
Definition renames (s : ramfs) (r : Z) (s' : ramfs) (p : Z) (nm : list Z) (n p' : Z) (nm' : list Z) : Prop :=
  let there := find_named (nodes s) (kids (nodes s) p') nm' in
  (there = Some n /\ r = 0 /\ s' = s) \/
  (there <> Some n /\ inside (tree_of (nodes s)) n p' /\ r = - W_EINVAL /\ s' = s) \/
  (there <> Some n /\ ~ inside (tree_of (nodes s)) n p' /\
   match there with
   | None => r = 0 /\ same_files s s' [] /\ moved (tree_of (nodes s)) s s' p nm p' nm' n
   | Some e =>
       (is_dir (nodes s) e /\ r = - W_EISDIR /\ s' = s) \/
       (~ is_dir (nodes s) e /\ r = 0 /\ same_files s s' [e] /\ nodes s' !! e = None /\
        moved (remove (tree_of (nodes s)) p' nm' e) s s' p nm p' nm' n)
   end).

Lemma ramfs_rename_spec s from to :
  fs_ok o c s -> plain_end (nodes s) to ->
  exists r s', ramfs_rename now from to s = Done (r, s') /\
    match parent_at (nodes s) from, parent_at (nodes s) to with
    | Some (p, nm), Some (p', nm') =>
        match find_named (nodes s) (kids (nodes s) p) nm with
        | None => r = - W_ENOENT /\ s' = s
        | Some n => renames s r s' p nm n p' nm'
        end
    | _, _ => r = - W_ENOENT /\ s' = s
    end.
Proof.
  intros Hs Hplain. pose proof Hs as [S1 S2 S3 S4 S5]. unfold ramfs_rename. rewrite !(walk_spec _ _ true _ S2). cbn [mbind out_bind].
  destruct (parent_at (nodes s) from) as [[p nm] |] eqn:Ep; [| by exists (- W_ENOENT), s].
  destruct (parent_at (nodes s) to) as [[p' nm'] |] eqn:Ep'.
  2: { exists (- W_ENOENT), s. by destruct (find_named (nodes s) (kids (nodes s) p) nm). }
  destruct (find_named (nodes s) (kids (nodes s) p) nm) as [n |] eqn:Ef; [| by exists (- W_ENOENT), s].
  destruct (find_named_some _ _ _ _ Ef) as (Hn & x & En & <-).
  destruct (path_parent_spec _ _ _ _ _ S2 Ep') as (Hd' & N1 & N2 & N3). pose proof (Hplain p' nm' Ep') as N4.
  assert (Hg : name_good nm') by done. pose proof Hd' as (d' & Ed' & Hty').
  rewrite (get_some _ _ _ Ed'). cbn [mbind out_bind]. rewrite Hty', Z.eqb_refl. cbn [negb].
  destruct (Z.ltb_spec W_NAME_MAX (Zlen nm')); [lia |]. unfold renames. cbv zeta.
  case_bool_decide as Hsame; [exists 0, s; split; [done | by left] |].
  destruct (rt_placed _ _ S3 p' (rt_dirs _ _ S3 p' Hd')) as [k Hk].
  destruct (above_spec _ _ n S2 S3 p' k Hk LIST_FUEL) as (b & -> & Hb).
  { pose proof (depth_bound _ _ _ _ S2 S3 Hk). unfold LIST_FUEL, MAX_NODES. lia. }
  cbn [mbind out_bind]. destruct b.
  { exists (- W_EINVAL), s. split; [done |]. right. left. split; [done |]. split; [by apply Hb | done]. }
  assert (Hin : ~ inside (tree_of (nodes s)) n p') by (intros H1; by apply Hb in H1).
  destruct (find_named (nodes s) (kids (nodes s) p') nm') as [e |] eqn:Ee.
  - destruct (find_named_some _ _ _ _ Ee) as (He & y & Ey & <-). rewrite (get_some _ _ _ Ey). cbn [mbind out_bind].
    destruct (Z.eqb_spec (type y) WFS_TYPE_DIR) as [Hty | Hty].
    { exists (- W_EISDIR), s. split; [done |]. right. right. split; [done |]. split; [done |]. left. split; [by exists y | done]. }
    assert (Hke : kids (nodes s) e = []).
    { destruct (decide (kids (nodes s) e = [])) as [| Hke]; [done |]. by destruct (Hty (ln_dir _ _ _ S2 e y Ey Hke)). }
    destruct (take_out_spec s p' e y Hs He Ey Hke) as (m & s1 & -> & E1 & Hr & Hcore). cbn [mbind out_bind]. rewrite E1. cbn [mbind out_bind].
    assert (Hen : e <> n) by congruence.
    assert (Hed : forall q, is_dir (nodes s) q -> q <> e) by (intros q (z & Ez & Hz) ->; congruence).
    destruct (kid_entry _ _ p n x S2 Hn En) as (Hd & Hns & Hent).
    assert (Hp1 : forall q, is_dir (nodes s) q -> is_dir (nodes s1) q).
    { intros q Hq. apply (rm_tree _ _ _ _ _ Hr). split; [done | by apply Hed]. }
    assert (Hent1 : forall q a, is_dir (nodes s) q -> entry (nodes s1) q a = put_ent p' (name y) None (entry (nodes s)) q a).
    { intros q a Hq. pose proof (rm_tree _ _ _ _ _ Hr) as (_ & _ & Ht). apply Ht. by apply Hp1. }
    pose proof (rm_ok _ _ _ _ _ Hr) as Hs1. pose proof (ok_links _ _ _ Hs1) as L1.
    destruct (entry_parent _ _ p (name x) n L1 Hns) as (x1 & En1 & _).
    { rewrite Hent1 by done. rewrite put_ent_ne; [done |]. intros [-> Hxy].
      apply Hsame. f_equal. apply (ln_uniq _ _ _ S2 p' e n y x); congruence || done. }
    assert (Hx1 : core x1 = core x).
    { pose proof (Hcore n ltac:(congruence)) as H1. rewrite En1, En in H1. by apply (inj Some) in H1. }
    assert (Hname : name x1 = name x) by (by apply core_fields in Hx1 as (_ & _ & _ & ? & _)).
    assert (Hn1 : n ∈ kids (nodes s1) p).
    { apply (entry_iff _ _ none p (name x) n L1 Hns). rewrite Hent1 by done. rewrite put_ent_ne; [done |].
      intros [-> Hxy]. apply Hsame. f_equal. apply (ln_uniq _ _ _ S2 p' e n y x); congruence || done. }
    destruct (move_spec s1 p n x1 p' (name y) Hs1 Hn1 En1) as (m' & Em & Hsf & Hmv); [by apply Hp1 | done | | |].
    { rewrite <- entry_plain by done. rewrite Hent1 by done. apply put_ent_eq. }
    { intros H1. apply Hin. apply (inside_remove _ p' (name y) e). revert H1. apply inside_equiv, (rm_tree _ _ _ _ _ Hr). }
    cbn [Z.eqb negb]. rewrite Em. cbn [mbind out_bind]. eexists 0, _. split; [done |]. right. right. split; [done |]. split; [done |]. right.
    split; [intros (z & Ez & Hz); congruence |]. split; [done |]. destruct Hr as [R1 R2 R3 R4 R5 R6]. destruct Hmv as [M1 M2 M3]. split; [| split].
    + split; [| exact (eq_trans (sf_memory _ _ _ Hsf) (sf_memory _ _ _ R5))]. intros q Hq.
      etransitivity; [exact (sf_file _ _ _ Hsf q ltac:(apply not_elem_of_nil)) | by apply R5].
    + pose proof (sf_file _ _ _ Hsf e ltac:(apply not_elem_of_nil)) as H1. rewrite R4 in H1. by destruct (nodes (with_nodes m' s1) !! e).
    + split; [done | congruence |]. rewrite M3, Hname. apply move_equiv. exact R3.
  - cbn [mbind out_bind Z.eqb negb].
    destruct (move_spec s p n x p' nm' Hs Hn En Hd' Hg Ee Hin) as (m' & -> & Hsf & Hmv). cbn [mbind out_bind].
    eexists 0, _. split; [done |]. right. right. done.
Qed.

(** C22: renaming.  [ramfs_rename] moves a node from one name to another, a file that
    was there goes, with its pages, and nothing else of any file changes; it
    refuses to replace a directory and to move one into itself, finding that out by
    a walk up the tree that always ends; a name renamed to itself, like every
    refusal, changes nothing.  The directories stay a tree. *)
Theorem ramfs_rename_correct s from to :
  fs_ok o c s -> plain_end (nodes s) to ->
  exists r s', ramfs_rename now from to s = Done (r, s') /\
    match parent_at (nodes s) from, parent_at (nodes s) to with
    | Some (p, nm), Some (p', nm') =>
        match find_named (nodes s) (kids (nodes s) p) nm with
        | None => r = - W_ENOENT /\ s' = s
        | Some n => renames s r s' p nm n p' nm'
        end
    | _, _ => r = - W_ENOENT /\ s' = s
    end.
Proof. exact (ramfs_rename_spec s from to). Qed.

(** ** Files *)

(** Only contents, sizes and times changed. *)
Lemma files_ok s s' :
  fs_ok o c s -> data_ok o c s' -> next_ino s' = next_ino s -> (forall q, place <$> nodes s' !! q = place <$> nodes s !! q) ->
  fs_ok o c s' /\ tree_of (nodes s') ≡ tree_of (nodes s).
Proof.
  intros [S1 S2 S3 S4 S5] Hd Hi Hp. assert (L' : linked (nodes s') (kids (nodes s)) none) by (by apply (linked_same (nodes s))).
  assert (Hl : forall q, look <$> nodes s' !! q = look <$> nodes s !! q).
  { intros q. specialize (Hp q). destruct (nodes s !! q) as [x |], (nodes s' !! q) as [x' |]; try done.
    apply (inj Some) in Hp. injection Hp as H1 H2 H3 _ _. unfold look. cbn. by rewrite H1, H2, H3. }
  assert (T : tree_of (nodes s') ≡ tree_of (nodes s)) by (by apply (tree_same _ _ (kids (nodes s)))).
  split; [| done]. split; [done | by apply (linked_own _ _ L') | by rewrite T | by rewrite Hi |].
  intros j y Ey. rewrite Hi. specialize (Hp j). rewrite Ey in Hp. destruct (nodes s !! j) as [z |] eqn:Ez; [by apply (S5 j z) | done].
Qed.

Lemma written_ok s s' p off l t n :
  fs_ok o c s -> nodes s !! p = Some n -> written o c s s' p off l t -> fs_ok o c s' /\ tree_of (nodes s') ≡ tree_of (nodes s).
Proof.
  intros Hs E [W1 W2 W3 W4 W5 W6]. apply files_ok; try done. intros q. destruct (decide (q = p)) as [-> | Hq].
  - specialize (W3 n E). rewrite E. destruct (nodes s' !! p) as [n' |]; [| done]. apply (inj Some) in W3. cbn. f_equal.
    change (place (meta n') = place (meta n)). by rewrite W3.
  - specialize (W4 q Hq). destruct (nodes s !! q) as [x |], (nodes s' !! q) as [x' |]; try done. apply (inj Some) in W4. cbn. f_equal.
    change (place (meta x') = place (meta x)). by rewrite W4.
Qed.

Lemma write_ok s ino n off buf :
  fs_ok o c s -> nodes s !! ino = Some n -> type n = WFS_TYPE_FILE ->
  0 <= off -> off + Zlen buf < 2 ^ 32 -> Zlen buf < 2 ^ 31 ->
  exists k s', 0 <= k <= Zlen buf /\ (k < Zlen buf -> no_memory kz s') /\ fs_ok o c s' /\ tree_of (nodes s') ≡ tree_of (nodes s) /\
    ((ramfs_write kz now ino off buf s = Done (k, s') /\ (k = 0 -> buf = []) /\ written o c s s' ino off (slice 0 k buf) now) \/
     (ramfs_write kz now ino off buf s = Done (- W_ENOSPC, s') /\ k = 0 /\ buf <> [] /\ written o c s s' ino off [] (mtime n))).
Proof.
  intros Hs E Ht Ho Hl Hl'. assert (Hn : node_of ino (nodes s) = Some ino) by (rewrite (node_of_live _ _ ino (ok_links _ _ _ Hs)); by rewrite E).
  destruct (write_spec kz o c now ino n off buf s (ok_data _ _ _ Hs) Hn E Ht Ho Hl Hl') as (k & s' & Hk & Hm & Hw). exists k, s'.
  assert (Hok : fs_ok o c s' /\ tree_of (nodes s') ≡ tree_of (nodes s)).
  { destruct Hw as [(_ & _ & Hw) | (_ & _ & _ & Hw)]; by apply (written_ok s s' ino off _ _ n Hs E Hw). }
  destruct Hok as [H1 H2]. do 4 (split; [done |]). done.
Qed.

(** C23: writing.  [ramfs_write] puts a prefix of the bytes into the file at the
    offset, all of them unless memory runs out, the file grows to hold them, what
    lies between its old end and the offset reads as zeroes, and no other byte of
    this or any other file changes, nor a byte of memory that is not a file's.  It
    returns how many bytes went in, or -W_ENOSPC when none did. *)
Theorem ramfs_write_correct s ino n off buf :
  fs_ok o c s -> nodes s !! ino = Some n -> type n = WFS_TYPE_FILE ->
  0 <= off -> off + Zlen buf < 2 ^ 32 -> Zlen buf < 2 ^ 31 ->
  exists k s', 0 <= k <= Zlen buf /\ (k < Zlen buf -> no_memory kz s') /\ fs_ok o c s' /\ tree_of (nodes s') ≡ tree_of (nodes s) /\
    ((ramfs_write kz now ino off buf s = Done (k, s') /\ (k = 0 -> buf = []) /\ written o c s s' ino off (slice 0 k buf) now) \/
     (ramfs_write kz now ino off buf s = Done (- W_ENOSPC, s') /\ k = 0 /\ buf <> [] /\ written o c s s' ino off [] (mtime n))).
Proof. exact (write_ok s ino n off buf). Qed.

(** What was written is read back: after a write that took all its bytes a read
    of the same range returns them, and a read of another file what it returned
    before. *)
Theorem ramfs_write_read s s' ino n off buf :
  fs_ok o c s -> nodes s !! ino = Some n -> type n = WFS_TYPE_FILE -> buf <> [] ->
  0 <= off -> off + Zlen buf < 2 ^ 32 -> Zlen buf < 2 ^ 31 -> ramfs_write kz now ino off buf s = Done (Zlen buf, s') ->
  ramfs_read kz ino off (Zlen buf) s' = Done (Zlen buf, buf) /\
  forall q x off' len, q <> ino -> nodes s !! q = Some x -> type x = WFS_TYPE_FILE -> 0 <= off' -> 0 <= len < 2 ^ 31 ->
    ramfs_read kz q off' len s' = ramfs_read kz q off' len s.
Proof.
  intros Hs E Ht Hb Ho Hl Hl' Hw. pose proof (node_of_live _ _ ino (ok_links _ _ _ Hs)) as Hn. rewrite E in Hn.
  destruct (write_spec kz o c now ino n off buf s (ok_data _ _ _ Hs) Hn E Ht Ho Hl Hl') as (k & s1 & Hk & _ & [(E1 & _ & W) | (E1 & _ & _ & W)]).
  2: { rewrite Hw in E1. injection E1 as E1 _. unfold Zlen, W_ENOSPC in E1. lia. }
  rewrite Hw in E1. injection E1 as <- <-. assert (Hsl : slice 0 (Zlen buf) buf = buf).
  { unfold slice, Zlen. rewrite drop_0, Nat2Z.id. apply firstn_all. }
  rewrite Hsl in W. destruct (written_ok s s' ino off buf now n Hs E W) as [Hs' _]. pose proof W as [W1 W2 W3 W4 W5 W6].
  assert (Hpos : 0 < Zlen buf) by (destruct buf; [done |]; unfold Zlen; cbn; lia).
  split.
  - specialize (W3 n E). destruct (nodes s' !! ino) as [n' |] eqn:E'; [| done]. apply (inj Some) in W3.
    assert (Ht' : type n' = WFS_TYPE_FILE) by (apply (f_equal type) in W3; cbn in W3; congruence).
    assert (Hsz : size n' = Z.max (size n) (off + Zlen buf)) by (by apply (f_equal size) in W3).
    pose proof (node_of_live _ _ ino (ok_links _ _ _ Hs')) as Hn'. rewrite E' in Hn'.
    rewrite (read_spec kz o c ino n' off (Zlen buf) s' W1 Hn' E' Ht') by lia. unfold read_at.
    replace (Z.max 0 (Z.min (Zlen buf) (size n' - off))) with (Zlen buf) by lia. rewrite Zlen_bytes_of by lia. do 2 f_equal.
    apply list_eq. intros i. unfold bytes_of. destruct (decide (i < length buf)%nat) as [Hi | Hi].
    + rewrite list_lookup_fmap, lookup_seqZ_lt by (unfold Zlen; lia). cbn [fmap option_fmap option_map].
      rewrite (W5 ino n n' _ E E') by lia. rewrite decide_True by (unfold Zlen; split; [done | lia]).
      rewrite list_lookup_total_alt. replace (Z.to_nat (off + Z.of_nat i - off)) with i by lia.
      by destruct (lookup_lt_is_Some_2 buf i Hi) as [b ->].
    + rewrite lookup_ge_None_2 by (rewrite length_fmap, length_seqZ; unfold Zlen; lia). symmetry. apply lookup_ge_None_2. lia.
  - intros q x off' len Hq Ex Hty Ho' Hlen. pose proof (W4 q Hq) as Hm. rewrite Ex in Hm. destruct (nodes s' !! q) as [x' |] eqn:E'; [| done].
    apply (inj Some) in Hm. pose proof (node_of_live _ _ q (ok_links _ _ _ Hs)) as Nq. rewrite Ex in Nq.
    pose proof (node_of_live _ _ q (ok_links _ _ _ Hs')) as Nq'. rewrite E' in Nq'.
    assert (Hty' : type x' = WFS_TYPE_FILE) by (apply (f_equal type) in Hm; cbn in Hm; congruence).
    assert (Hsz : size x' = size x) by (by apply (f_equal size) in Hm).
    rewrite (read_spec kz o c q x' off' len s' W1 Nq' E' Hty'), (read_spec kz o c q x off' len s (ok_data _ _ _ Hs) Nq Ex Hty) by lia.
    assert (Hbytes : read_at s' x' off' len = read_at s x off' len); [| by rewrite Hbytes].
    unfold read_at. rewrite Hsz. unfold bytes_of. apply list_fmap_ext. intros i y [-> _]%lookup_seqZ.
    rewrite (W5 q x x' _ Ex E') by lia. by rewrite decide_False by (intros [? _]; done).
Qed.

(** ** Listing *)

Definition dirent_of m (i : Z) : option WfsDir.wdirent :=
  x ← m !! i; Some (WfsDir.WDirent i (if type x =? WFS_TYPE_DIR then W_FT_DIR else WfsDir.W_FT_FILE) (strl (W_NAME_MAX + 1) (name x))).

Lemma readdir_loop_spec m h l : chain m h l -> forall fuel i cursor, (length l <= fuel)%nat -> i <= cursor ->
  readdir_loop fuel m h i cursor = Done (l !! Z.to_nat (cursor - i) ≫= dirent_of m).
Proof.
  intros H. induction H as [| a x l E _ IH]; intros fuel i cursor Hf Hi; [by destruct fuel |]. cbn [length] in Hf.
  destruct fuel as [| fuel]; [lia |]. cbn [readdir_loop]. rewrite (get_some _ _ _ E). cbn [mbind out_bind].
  destruct (Z.eqb_spec i cursor) as [-> | Hne].
  - rewrite Z.sub_diag. change ((a :: l) !! Z.to_nat 0 ≫= dirent_of m) with (dirent_of m a). unfold dirent_of. by rewrite E.
  - rewrite IH by lia. replace (Z.to_nat (cursor - i)) with (S (Z.to_nat (cursor - (i + 1)))) by lia. done.
Qed.

(** [ramfs_readdir] called with the cursors 0, 1, 2, ... returns the children of
    the directory one after the other, each once, and then 0. *)
Theorem ramfs_readdir_correct s d x cursor :
  fs_ok o c s -> nodes s !! d = Some x -> type x = WFS_TYPE_DIR -> 0 <= cursor < 2 ^ 32 - 1 ->
  ramfs_readdir d cursor s = Done
    (match kids (nodes s) d !! Z.to_nat cursor ≫= dirent_of (nodes s) with
     | Some e => (1, Some e, cursor + 1)
     | None => (0, None, cursor)
     end).
Proof.
  intros Hs E Ht Hc. pose proof (ok_links _ _ _ Hs) as L. unfold ramfs_readdir. rewrite (node_of_live _ _ d L), E, (get_some _ _ _ E).
  cbn [mbind out_bind]. rewrite Ht, Z.eqb_refl. cbn [negb].
  rewrite (readdir_loop_spec _ _ (kids (nodes s) d) (ln_chain _ _ _ L d x E) LIST_FUEL 0 cursor (kids_short _ _ none d L)) by lia. cbn [mbind out_bind].
  rewrite Z.sub_0_r. destruct (kids (nodes s) d !! Z.to_nat cursor ≫= dirent_of (nodes s)); [by rewrite u32_id by lia | done].
Qed.

(** ** Every call *)

Inductive call :=
| Create (path : list Z) (t : Z)
| Unlink (path : list Z)
| Rename (from to : list Z)
| Write (ino off : Z) (buf : list Z)
| Truncate (ino : Z)
| Utime (ino t : Z)
| Lookup (path : list Z)
| Stat (ino : Z)
| Read (ino off len : Z)
| Readdir (ino cursor : Z).

Definition exec (x : call) (s : ramfs) : out ramfs :=
  match x with
  | Create path t => '(_, _, s) ← ramfs_create kz now path t s; Done s
  | Unlink path => '(_, s) ← ramfs_unlink now path s; Done s
  | Rename from to => '(_, s) ← ramfs_rename now from to s; Done s
  | Write ino off buf => '(_, s) ← ramfs_write kz now ino off buf s; Done s
  | Truncate ino => '(_, s) ← ramfs_truncate now ino s; Done s
  | Utime ino t => '(_, s) ← ramfs_utime ino t s; Done s
  | Lookup path => _ ← ramfs_lookup path s; Done s
  | Stat ino => _ ← ramfs_read_inode ino s; Done s
  | Read ino off len => _ ← ramfs_read kz ino off len s; Done s
  | Readdir ino cursor => _ ← ramfs_readdir ino cursor s; Done s
  end.

(** What the layer above sees to: resolved paths, files below 4 GiB and counts
    that fit the results. *)
Definition allowed (x : call) (s : ramfs) : Prop :=
  match x with
  | Create path _ => plain_end (nodes s) path
  | Rename _ to => plain_end (nodes s) to
  | Write _ off buf => 0 <= off /\ off + Zlen buf < 2 ^ 32 /\ Zlen buf < 2 ^ 31
  | Read _ off len => 0 <= off /\ 0 <= len < 2 ^ 31
  | Readdir _ cursor => 0 <= cursor
  | _ => True
  end.

Lemma ramfs_lookup_returns s path : fs_ok o c s -> exists r, ramfs_lookup path s = Done r.
Proof.
  intros Hs. unfold ramfs_lookup. rewrite (walk_spec _ _ false path (ok_links _ _ _ Hs)). cbn [mbind out_bind].
  destruct (node_at (nodes s) path); by eexists.
Qed.

Lemma ramfs_read_returns s ino off len :
  fs_ok o c s -> 0 <= off -> 0 <= len < 2 ^ 31 -> exists r, ramfs_read kz ino off len s = Done r.
Proof.
  intros Hs Ho Hl. pose proof (node_of_live _ _ ino (ok_links _ _ _ Hs)) as Hn. destruct (nodes s !! ino) as [n |] eqn:E.
  - destruct (decide (type n = WFS_TYPE_FILE)) as [Ht | Ht].
    + rewrite (read_spec kz o c ino n off len s (ok_data _ _ _ Hs) Hn E Ht Ho Hl). by eexists.
    + unfold ramfs_read. rewrite Hn, (get_some _ _ _ E). cbn [mbind out_bind].
      apply Z.eqb_neq in Ht. rewrite Ht. by eexists.
  - unfold ramfs_read. rewrite Hn. by eexists.
Qed.

Lemma ramfs_readdir_returns s ino cursor : fs_ok o c s -> 0 <= cursor -> exists r, ramfs_readdir ino cursor s = Done r.
Proof.
  intros Hs Hc. pose proof (ok_links _ _ _ Hs) as L. unfold ramfs_readdir. rewrite (node_of_live _ _ ino L).
  destruct (nodes s !! ino) as [n |] eqn:E; [| by eexists]. rewrite (get_some _ _ _ E). cbn [mbind out_bind].
  destruct (negb (type n =? WFS_TYPE_DIR)); [by eexists |].
  rewrite (readdir_loop_spec _ _ (kids (nodes s) ino) (ln_chain _ _ _ L ino n E) LIST_FUEL 0 cursor (kids_short _ _ none ino L)) by lia.
  by eexists.
Qed.

Lemma ramfs_exec_ok x s : fs_ok o c s -> allowed x s -> exists s', exec x s = Done s' /\ fs_ok o c s'.
Proof.
  intros Hs Ha. pose proof (ok_links _ _ _ Hs) as L. destruct x as [path t | path | from to | ino off buf | ino | ino t | path | ino | ino off len | ino cursor]; cbn [exec].
  - pose proof (ramfs_create_spec s path t Hs Ha) as H. destruct (parent_at (nodes s) path) as [[p nm] |].
    2: { rewrite H. by exists s. }
    destruct (entry (nodes s) p nm); [rewrite H; by exists s |].
    destruct H as [[-> _] | (i & s' & -> & Hc)]; [by exists s |]. exists s'. split; [done | apply Hc].
  - pose proof (ramfs_unlink_spec s path Hs) as H. destruct (parent_at (nodes s) path) as [[p nm] |]; [| rewrite H; by exists s].
    destruct (find_named (nodes s) (kids (nodes s) p) nm) as [n |]; [| rewrite H; by exists s].
    destruct H as [(_ & _ & ->) | (_ & s' & -> & Hr)]; [by exists s | exists s'; split; [done | apply Hr]].
  - destruct (ramfs_rename_spec s from to Hs Ha) as (r & s' & -> & H). exists s'. split; [done |].
    destruct (parent_at (nodes s) from) as [[p nm] |]; [| by destruct H as [_ ->]].
    destruct (parent_at (nodes s) to) as [[p' nm'] |]; [| by destruct H as [_ ->]].
    destruct (find_named (nodes s) (kids (nodes s) p) nm) as [n |]; [| by destruct H as [_ ->]].
    destruct H as [(_ & _ & ->) | [(_ & _ & _ & ->) | (_ & _ & H)]]; [done | done |].
    destruct (find_named (nodes s) (kids (nodes s) p') nm'); [| apply H]. destruct H as [(_ & _ & ->) | H]; [done | apply H].
  - destruct Ha as (H1 & H2 & H3). destruct (nodes s !! ino) as [n |] eqn:E.
    2: { unfold ramfs_write. rewrite (node_of_live _ _ ino L), E. by exists s. }
    destruct (decide (type n = WFS_TYPE_FILE)) as [Ht | Ht].
    + destruct (write_ok s ino n off buf Hs E Ht H1 H2 H3) as (k & s' & _ & _ & Hs' & _ & [(-> & _) | (-> & _)]); by exists s'.
    + unfold ramfs_write. rewrite (node_of_live _ _ ino L), E, (get_some _ _ _ E). cbn [mbind out_bind].
      rewrite (proj2 (Z.eqb_neq _ _) Ht). by exists s.
  - destruct (nodes s !! ino) as [n |] eqn:E.
    2: { unfold ramfs_truncate. rewrite (node_of_live _ _ ino L), E. by exists s. }
    pose proof (node_of_live _ _ ino L) as Hn. rewrite E in Hn.
    destruct (ramfs_truncate_spec o c now ino n s (ok_data _ _ _ Hs) Hn E) as (f & s' & -> & Hd & -> & _). eexists. split; [done |].
    apply (files_ok s); try done. cbn [nodes]. intros q. destruct (decide (q = ino)) as [-> | Hq]; [by rewrite lookup_insert_eq, E | by rewrite lookup_insert_ne].
  - unfold ramfs_utime. rewrite (node_of_live _ _ ino L). destruct (nodes s !! ino) as [n |] eqn:E; [| by exists s].
    rewrite (update_some _ _ _ _ E). cbn [mbind out_bind]. eexists. split; [done |]. by apply (stamp_spec s ino n t).
  - destruct (ramfs_lookup_returns s path Hs) as [r ->]. by exists s.
  - unfold ramfs_read_inode. rewrite (node_of_live _ _ ino L). destruct (nodes s !! ino) as [n |] eqn:E; [| by exists s].
    rewrite (get_some _ _ _ E). by exists s.
  - destruct Ha as [Ho Hl]. destruct (ramfs_read_returns s ino off len Hs Ho Hl) as [r ->]. by exists s.
  - destruct (ramfs_readdir_returns s ino cursor Hs Ha) as [r ->]. by exists s.
Qed.

End promises.

(** ** From the start *)

(** One call, with the clock at any time and the heap in any state. *)
Definition step (s s' : ramfs) : Prop := exists kz now x, allowed x s /\ exec kz now x s = Done s'.

(** Memory as the kernel finds it before [ramfs_init]. *)
Definition fresh (f : Pmm.pmm) (mem : KString.mem) : ramfs := Ramfs ∅ ROOT_INO 0 f mem.

Lemma init_spec kz now f mem :
  Pmm.pmm_inv f -> kz (fresh f mem) SIZEOF_NODE = true ->
  exists s, ramfs_init kz now (fresh f mem) = Done s /\ fs_ok (fun g => 0 <= g /\ Pmm.used f g = true) (Pmm.used_frames f) s.
Proof.
  intros Hf Hk. unfold ramfs_init. cbn [node_of nodes fresh]. unfold node_of. rewrite lookup_empty.
  change ((ROOT_INO =? 0) || (MAX_NODES <=? ROOT_INO))%bool with false. cbn iota. unfold node_new. rewrite Hk. cbn [next_ino fresh negb].
  change (MAX_NODES <=? ROOT_INO) with false. cbn iota. cbn [mbind out_bind nodes fresh pages_held frames memory].
  set (x := Node WFS_TYPE_DIR 0 now _ None None None []). set (m := <[ROOT_INO := x]> (∅ : gmap Z node)).
  eexists. split; [done |]. assert (Hm : forall q y, m !! q = Some y -> q = ROOT_INO /\ y = x).
  { intros q y. unfold m. intros [[<- <-] | [_ ?]]%lookup_insert_Some; [done |]. by rewrite lookup_empty in *. }
  assert (Er : m !! ROOT_INO = Some x) by apply lookup_insert_eq.
  assert (L : linked m (fun _ => []) none).
  { split; try done.
    - intros i y [-> _]%Hm. unfold ROOT_INO, MAX_NODES. lia.
    - intros d y [-> ->]%Hm. constructor.
    - intros d. apply NoDup_nil_2.
    - intros d a Ha. by apply not_elem_of_nil in Ha.
    - intros a y d [-> ->]%Hm _. done.
    - intros a y [-> ->]%Hm _. done.
    - intros d a a' y y' Ha. by apply not_elem_of_nil in Ha.
    - exists x. split; [done |]. split; [done |]. split; [done |]. by intros ?. }
  assert (Hent : forall d nm j, ~ special nm -> entry m d nm = Some j -> False).
  { intros d nm j Hs E. apply (entry_iff m _ none d nm j L Hs) in E as [Hj _]. by apply not_elem_of_nil in Hj. }
  assert (Hd : is_dir m ROOT_INO) by (by exists x).
  assert (Hdir : forall d, is_dir m d -> d = ROOT_INO) by (intros d (y & [-> _]%Hm & _); done).
  split; cbn [nodes next_ino].
  - split; cbn [nodes memory].
    + split; cbn [frames nodes pages_held]; try done.
      * by apply Dma.used_le, Hf.
      * intros q y k b [-> ->]%Hm. done.
      * intros q y k q' y' k' b [-> ->]%Hm. done.
      * intros g Hg. split; [by left |]. intros [[_ ?] | (_ & q & y & k & [-> ->]%Hm & ?)]; done.
      * intros q y [-> ->]%Hm. unfold Zlen. cbn. lia.
    + intros q y [-> ->]%Hm. cbn. lia.
    + intros q y i [-> ->]%Hm. done.
  - by apply (linked_own _ _ L).
  - split.
    + intros d ->%Hdir. by exists x.
    + done.
    + intros d nm j ->%Hdir E. cbn [tree_of ent alive] in *. destruct (decide (special nm)) as [Hs | Hs]; [| by destruct (Hent _ _ _ Hs E)].
      exists x. unfold entry in E. rewrite Er in E. cbn [parent x] in E.
      destruct (decide (nm = dot)); [by injection E as <- |]. destruct (decide (nm = dotdot)); [by injection E as <- | by destruct Hs].
    + intros d ->%Hdir. done.
    + intros p nm d _ Hs E. by destruct (Hent _ _ _ Hs E).
    + cbn [tree_of ent]. unfold entry. rewrite decide_False by done. rewrite decide_True by done. by rewrite Er.
    + intros p nm p' nm' i _ _ Hs _ E. by destruct (Hent _ _ _ Hs E).
    + intros p nm _ Hs E. by destruct (Hent _ _ _ Hs E).
    + intros i (y & [-> _]%Hm). exists 0%nat. constructor.
  - unfold ROOT_INO, MAX_NODES. change (u32 (1 + 1)) with 2. lia.
  - intros i y [-> _]%Hm. done.
Qed.

Lemma steps_ok o c s s' : fs_ok o c s -> rtc step s s' -> fs_ok o c s'.
Proof.
  intros Hs H. induction H as [s | s s1 s' (kz & now & x & Ha & E) _ IH]; [done |]. apply IH.
  destruct (ramfs_exec_ok kz now o c x s Hs Ha) as (s2 & E2 & Hs2). by assert (s2 = s1) as <- by congruence.
Qed.

(** C24: However /ramdisk is used from its start, with memory running out or not at
    any point: every call comes back, without following a pointer to a freed node,
    freeing a page twice or walking in a circle; the directories are a tree; and
    the frames in use are those in use before and the pages of the files that are
    there, with [pages_held] their number, so every page of a file that was removed
    or cut is free again. *)
Theorem ramfs_calls_return kz now f mem s0 s :
  Pmm.pmm_inv f -> kz (fresh f mem) SIZEOF_NODE = true -> ramfs_init kz now (fresh f mem) = Done s0 -> rtc step s0 s ->
  fs_ok (fun g => 0 <= g /\ Pmm.used f g = true) (Pmm.used_frames f) s /\
  (forall kz now x, allowed x s -> exists s', exec kz now x s = Done s') /\
  (forall g, 0 <= g -> Pmm.used (frames s) g = true <->
     Pmm.used f g = true \/ (0 < g /\ exists p n k, nodes s !! p = Some n /\ blocks n !! k = Some (g * 4096))) /\
  pages_held s = Pmm.used_frames (frames s) - Pmm.used_frames f.
Proof.
  intros Hf Hk E Hr. destruct (init_spec kz now f mem Hf Hk) as (s1 & E1 & Hs1). assert (s1 = s0) as -> by congruence.
  pose proof (steps_ok _ _ s0 s Hs1 Hr) as Hs. pose proof (da_frames _ _ _ (ok_data _ _ _ Hs)) as Hfr. split; [done |]. split; [| split].
  - intros kz' now' x Ha. destruct (ramfs_exec_ok kz' now' _ _ x s Hs Ha) as (s' & ? & _). by exists s'.
  - intros g Hg. rewrite (fr_used _ _ _ Hfr g Hg). split; (intros [? | ?]; [left; tauto | by right]).
  - pose proof (fr_count _ _ _ Hfr). lia.
Qed.

(** ** Numbers are not used again *)

(** [destroy] frees the slot of a node, but [next_ino] only goes up: after 1022
    files that came and went there is nothing in /ramdisk, all its memory is free,
    and no file can be made any more until the machine is started again. *)
Definition heap_ok (s : ramfs) (n : Z) : bool := true.

Fixpoint come_and_go (n : nat) (s : ramfs) : out ramfs :=
  match n with
  | O => Done s
  | S n =>
      '(_, _, s) ← ramfs_create heap_ok 0 (str "/ramdisk/a") WFS_TYPE_FILE s;
      '(_, s) ← ramfs_unlink 0 (str "/ramdisk/a") s;
      come_and_go n s
  end.

Definition sample_start : ramfs := fresh Pmm.sample_pmm (fun _ => 0x5A).

Example numbers_run_out :
  (s ← ramfs_init heap_ok 0 sample_start; s ← come_and_go 1022 s;
   '(r, _, _) ← ramfs_create heap_ok 0 (str "/ramdisk/a") WFS_TYPE_FILE s;
   Done (r, length (map_to_list (nodes s)), pages_held s)) = Done (- W_ENOSPC, 1%nat, 0).
Proof. vm_compute. reflexivity. Qed.

(** ** A small tree: a directory d, and a file f *)

Definition run (x : call) (s : ramfs) : ramfs := match exec heap_ok 7 x s with Done s => s | _ => s end.
Definition sample_root : ramfs := match ramfs_init heap_ok 5 sample_start with Done s => s | _ => sample_start end.
Definition sample_dir : ramfs := run (Create (str "/ramdisk/d") WFS_TYPE_DIR) sample_root.
Definition sample : ramfs := run (Create (str "/ramdisk/f") WFS_TYPE_FILE) sample_dir.

Notation before := (fun g => 0 <= g /\ Pmm.used Pmm.sample_pmm g = true).

Lemma sample_root_init : ramfs_init heap_ok 5 sample_start = Done sample_root /\ fs_ok before 6 sample_root.
Proof.
  destruct (init_spec heap_ok 5 Pmm.sample_pmm (fun _ => 0x5A) Pmm.sample_pmm_inv eq_refl) as (s & E & Hs).
  unfold sample_root, sample_start. rewrite E. by split.
Qed.

Lemma run_ok x s : fs_ok before 6 s -> allowed x s -> fs_ok before 6 (run x s) /\ step s (run x s).
Proof.
  intros Hs Ha. destruct (ramfs_exec_ok heap_ok 7 before 6 x s Hs Ha) as (s' & E & Hs'). unfold run. rewrite E. split; [done |].
  by exists heap_ok, 7, x.
Qed.

Ltac plain := intros p nm H; vm_compute in H; injection H as <- <-; intros [? | ?]; discriminate.

Lemma sample_dir_ok : fs_ok before 6 sample_dir /\ step sample_root sample_dir.
Proof. apply run_ok; [apply sample_root_init |]. plain. Qed.

Lemma sample_tree_ok : fs_ok before 6 sample /\ step sample_dir sample.
Proof. apply run_ok; [apply sample_dir_ok |]. plain. Qed.

Lemma ramfs_calls_return_witness :
  fs_ok before 6 sample /\ pages_held sample = Pmm.used_frames (frames sample) - 6 /\
  exists s', exec heap_ok 9 (Unlink (str "/ramdisk/f")) sample = Done s'.
Proof.
  destruct (ramfs_calls_return heap_ok 5 Pmm.sample_pmm (fun _ => 0x5A) sample_root sample Pmm.sample_pmm_inv) as (H1 & H2 & _ & H3).
  - reflexivity.
  - apply sample_root_init.
  - apply (rtc_l _ _ sample_dir); [apply sample_dir_ok |]. apply rtc_once, sample_tree_ok.
  - split; [exact H1 |]. split; [exact H3 |]. apply H2. exact I.
Defined.

(** The file of [sample]. *)
Lemma sample_file : exists n, nodes sample !! 3 = Some n /\ type n = WFS_TYPE_FILE /\ size n = 0.
Proof. eexists. split; [vm_compute; reflexivity |]. split; reflexivity. Qed.

Lemma ramfs_write_correct_witness : exists s',
  ramfs_write heap_ok 8 3 4094 [1; 2; 3] sample = Done (3, s') /\ fs_ok before 6 s' /\
  forall n', nodes s' !! 3 = Some n' -> fbyte (memory s') n' 4096 = 3.
Proof.
  destruct sample_file as (n & En & Ht & Hz).
  destruct (ramfs_write_correct heap_ok 8 before 6 sample 3 n 4094 [1; 2; 3] (proj1 sample_tree_ok) En Ht) as (k & s' & Hk & _ & Hs' & _ & H);
    [lia | vm_compute; reflexivity | vm_compute; reflexivity |].
  assert (Hr : match ramfs_write heap_ok 8 3 4094 [1; 2; 3] sample with Done (r, _) => r | _ => 0 end = 3) by (vm_compute; reflexivity).
  exists s'. destruct H as [(E & _ & W) | (E & _)]; rewrite E in Hr; [| discriminate Hr]. subst k. split; [exact E |]. split; [exact Hs' |].
  intros n' En'. rewrite (wr_bytes _ _ _ _ _ _ _ _ W 3 n n' 4096 En En') by lia. reflexivity.
Defined.

Lemma ramfs_write_read_witness : exists s', ramfs_read heap_ok 3 4094 3 s' = Done (3, [1; 2; 3]).
Proof.
  destruct sample_file as (n & En & Ht & Hz).
  assert (Hr : match ramfs_write heap_ok 8 3 4094 [1; 2; 3] sample with Done (r, _) => r | _ => 0 end = 3) by (vm_compute; reflexivity).
  destruct (ramfs_write heap_ok 8 3 4094 [1; 2; 3] sample) as [[r s'] | |] eqn:E; [subst r | discriminate Hr | discriminate Hr].
  exists s'. apply (ramfs_write_read heap_ok 8 before 6 sample s' 3 n 4094 [1; 2; 3]); [apply sample_tree_ok | exact En | exact Ht | discriminate | lia | vm_compute; reflexivity | vm_compute; reflexivity | exact E].
Defined.

Lemma ramfs_lookup_correct_witness : ramfs_lookup (str "/ramdisk//d/") sample = Done (0, Some 2).
Proof. exact (ramfs_lookup_correct before 6 sample (str "/ramdisk//d/") (proj1 sample_tree_ok)). Defined.

Lemma ramfs_create_correct_witness : exists s',
  ramfs_create heap_ok 8 (str "/ramdisk/d/g") WFS_TYPE_FILE sample = Done (0, Some 4, s') /\ fs_ok before 6 s'.
Proof.
  pose proof (ramfs_create_correct heap_ok 8 before 6 sample (str "/ramdisk/d/g") WFS_TYPE_FILE (proj1 sample_tree_ok) ltac:(plain)) as H.
  assert (Ep : parent_at (nodes sample) (str "/ramdisk/d/g") = Some (2, str "g")) by (vm_compute; reflexivity). rewrite Ep in H.
  assert (Ee : entry (nodes sample) 2 (str "g") = None) by (vm_compute; reflexivity). rewrite Ee in H.
  destruct H as [[_ [H | H]] | (i & s' & E & Hc)]; [vm_compute in H; discriminate H | discriminate H |].
  exists s'. assert (i = 4) as -> by (destruct (cr_new _ _ _ _ _ _ _ _ _ Hc) as [-> _]; vm_compute; reflexivity).
  split; [exact E | exact (cr_ok _ _ _ _ _ _ _ _ _ Hc)].
Defined.

Lemma ramfs_unlink_correct_witness : exists s', ramfs_unlink 8 (str "/ramdisk/f") sample = Done (0, s') /\ nodes s' !! 3 = None.
Proof.
  pose proof (ramfs_unlink_correct heap_ok 8 before 6 sample (str "/ramdisk/f") (proj1 sample_tree_ok)) as H.
  assert (Ep : parent_at (nodes sample) (str "/ramdisk/f") = Some (1, str "f")) by (vm_compute; reflexivity). rewrite Ep in H.
  assert (Ee : find_named (nodes sample) (kids (nodes sample) 1) (str "f") = Some 3) by (vm_compute; reflexivity). rewrite Ee in H.
  destruct H as [(_ & Hk & _) | (_ & s' & E & Hr)]; [destruct Hk; vm_compute; reflexivity |].
  exists s'. split; [exact E | exact (rm_gone _ _ _ _ _ _ _ Hr)].
Defined.

Lemma ramfs_rename_correct_witness : exists s',
  ramfs_rename 8 (str "/ramdisk/f") (str "/ramdisk/d/g") sample = Done (0, s') /\
  moved before 6 (tree_of (nodes sample)) sample s' 1 (str "f") 2 (str "g") 3.
Proof.
  destruct (ramfs_rename_correct heap_ok 8 before 6 sample (str "/ramdisk/f") (str "/ramdisk/d/g") (proj1 sample_tree_ok) ltac:(plain)) as (r & s' & E & H).
  assert (Hr : match ramfs_rename 8 (str "/ramdisk/f") (str "/ramdisk/d/g") sample with Done (r, _) => r | _ => 1 end = 0) by (vm_compute; reflexivity).
  rewrite E in Hr. subst r. exists s'. split; [exact E |].
  assert (Ep : parent_at (nodes sample) (str "/ramdisk/f") = Some (1, str "f")) by (vm_compute; reflexivity). rewrite Ep in H.
  assert (Ep' : parent_at (nodes sample) (str "/ramdisk/d/g") = Some (2, str "g")) by (vm_compute; reflexivity). rewrite Ep' in H.
  assert (Ef : find_named (nodes sample) (kids (nodes sample) 1) (str "f") = Some 3) by (vm_compute; reflexivity). rewrite Ef in H.
  assert (Et : find_named (nodes sample) (kids (nodes sample) 2) (str "g") = None) by (vm_compute; reflexivity).
  unfold renames in H. rewrite Et in H. destruct H as [(H & _) | [(_ & _ & H & _) | (_ & _ & _ & _ & H)]]; [discriminate H | discriminate H | exact H].
Defined.

Lemma ramfs_readdir_correct_witness : exists e, ramfs_readdir 1 1 sample = Done (1, Some e, 2) /\ WfsDir.d_name e = str "d".
Proof.
  assert (Ex : exists x, nodes sample !! 1 = Some x /\ type x = WFS_TYPE_DIR) by (eexists; split; vm_compute; reflexivity).
  destruct Ex as (x & Ex & Ht). eexists. split; [exact (ramfs_readdir_correct before 6 sample 1 x 1 (proj1 sample_tree_ok) Ex Ht ltac:(lia)) | reflexivity].
Defined.

End RamfsSpec.
